(* ===== verification/_CoqProject ===== *)
-Q . S2P
Prelude.v
Varint.v
RdBuf.v
RdBufFacts.v
Slice.v
SliceFacts.v
RdBufProps.v
Crc.v
Hash.v
Header.v
Msgq.v
MsgqFacts.v
Producer.v
Sort.v
TpList.v
TpListFacts.v
TpListProps.v
Assignor.v
AssignorFacts.v
AssignorProps.v
EosState.v
Eos.v
Txn.v
EosProps.v
TxnProps.v
Avl.v
AvlProps.v
Timer.v
TimerProps.v
KafkaBuf.v
RecordBatch.v
HeaderProps.v
KafkaBufFacts.v
MsgWriter.v
MsgWriterFacts.v
MsgWriterProps.v
MsgReader.v
ReadFacts.v
Aborted.v
MsgReaderFacts.v
MsgReaderProps.v
RoundTrip.v
ReadCommitted.v
EosTotal.v
Produce.v
ProduceFacts.v
ProduceProps.v
Retry.v
Bufq.v
BufqFacts.v
BufqProps.v
Serve.v
ServeFacts.v
ServeSteps.v
ServeProduce.v
ServeOps.v
ServeProps.v
Assignment.v
AssignFacts.v
AssignInv.v
AssignSteps.v
AssignOps.v
AssignAnswers.v
AssignProps.v
Queue.v
QueueFacts.v
QueueProps.v
QueueServe.v
QueueBatch.v
FetchState.v
Fetcher.v
FetchBroker.v
FetchRequest.v
FetchRun.v
FetchFacts.v
FetchInv.v
FetchProps.v
FetchWire.v
FetchRead.v
FetchLookup.v
