(* ===== verification/Prelude.v ===== *)
(** * A verification of the core of librdkafka (src/cbits/)

    The repository binds librdkafka 1.9.2, the Kafka client in C, to Haskell.  Its
    Haskell modules are foreign imports; the logic is the C library under src/cbits/
    (file names there have the prefix [hs_]), which this development models part by
    part and verifies.

    ** The program

    The application hands messages to [rd_kafka_produce], which picks a partition,
    gives the message an id and appends it to the queue of that partition; broker
    threads move messages between queues, batch them, encode them into segmented
    buffers, with varints and checksums, and put them back, in order, for a retry.
    An idempotent producer gives every batch a producer id, an epoch and a sequence
    number; a transactional one also agrees with its coordinator on which partitions
    are part of a transaction and how it ends.  A consumer group's leader divides
    partitions among members with an assignor; partitions travel through the API as
    topic partition lists.  A member starts the fetchers of its partitions at their
    committed offsets, and stops them and commits when they are taken away.

    ** Conventions

    An integer of C is a [Z], wrapped ([u32], [i16], ...) where an operation may leave
    its type; bytes are lists of [Z].  A function that changes an object takes it and
    returns it.  [None] is an execution that does not return: a failed [rd_assert] or a
    read outside of its memory; theorems that state [Some] so say that neither happens.
    A pointer into an array or a queue is an index, a pointer to an object its
    identity, and NULL is [None].  What the code asks of other threads, of brokers or
    of the application's callbacks is an argument of the model.  Definitions have the
    names of the C functions; a loop has the name of its function with [_loop].

    ** The parts

    - Varint: hs_rdvarint.h, the encoders and decoders.  They invert one another, the
      encoding is LEB128, truncated and damaged input is told apart, and 64-bit input
      that overflows is decoded without an error.
    - RdBuf, RdBufFacts (hs_rdbuf.h, hs_rdbuf.c): [rd_buf_t], the list of segments that
      is written, updated, seeked in, pushed to and erased from.  Slice, SliceFacts: the
      readers, [rd_slice_t].  RdBufProps: the writer refines a byte string, the readers
      a cursor in one; reserved room can be filled in later; what erasing removes, and
      the two cases in which the code leaves a damaged buffer or a wrong count behind.
    - Crc (hs_crc32c.c, hs_rdcrc32.h): CRC-32C eight bytes at a time and CRC-32 by its
      table equal division by the polynomial, over flat memory and over slices.
    - Hash (hs_rdmurmur2.c, hs_rdfnv1a.c, hs_rdkafka_msg.c): the key hashes do not
      depend on alignment, and every partitioner returns a partition that exists.
    - Msgq, MsgqFacts (hs_rdkafka_msg.h, hs_rdkafka_msg.c, hs_rdkafka_partition.c,
      hs_rdsysqueue.h): queues of messages with their counters.  Sorted insertion of
      one message and of a queue, the split of a queue on a retry, time-outs: nothing is
      lost or duplicated, sorted queues stay sorted, counters agree with contents.  The
      class [MsgOrder] is what the comparators promise to the insertions.
    - Producer (hs_rdkafka_msg.c, hs_rdkafka_partition.c, hs_rdinterval.h,
      hs_rdkafka_msgbatch.h): from the partitioner with its sticky partition to the
      queue, and the sequence numbers of batches.
    - Sort: [strcmp] and the contract of [qsort].  The class [Comparator] is what a
      comparison promises; [Qsort] is a sort that permutes and orders and says nothing
      of equal elements, with insertion sort as its instance.
    - TpList, TpListFacts, TpListProps (hs_rdkafka_partition.c): topic partition lists
      refine finite maps, own their references to partition objects, and find
      duplicates and equality by sorting.
    - Assignor, AssignorFacts, AssignorProps (hs_rdkafka_assignor.c,
      hs_rdkafka_range_assignor.c, hs_rdkafka_roundrobin_assignor.c): each partition
      goes to exactly one subscribed member, in balanced ranges or dealt in turn.
    - EosState, Eos, Txn (hs_rdkafka_idempotence.c, hs_rdkafka_txnmgr.c and their
      headers, parts of hs_rdkafka.c and hs_rdkafka_request.c): the record [rd_kafka]
      is [rk_eos] of [rd_kafka_t] and what else the two files use; every effect outside
      of it (a reply to the application, a request, a purge) is appended to [rk_out].
      EosProps makes each handler an input of [eos_step], fatal errors that the rest of
      the library or the application raises included, shows the invariant of all
      runs, and that a fatal error is final; TxnProps follows a transaction that
      commits, one that aborts for a new epoch and the drain before it, and three
      orders of events in which an assertion of the code fails.

    - Avl, AvlProps (hs_rdavl.h, hs_rdavl.c): the tree refines a sorted list
      and its depth is logarithmic, although a new leaf counts as no tree at all and
      the balance is weaker than the AVL tree's.
    - Timer, TimerProps (hs_rdkafka_timer.h, hs_rdkafka_timer.c): the queue of timers is
      the scheduled ones in order; running it ends and fires what is due, whatever the
      callbacks do to the timers; destroying it ends, with one exception.

    - Header, HeaderProps (hs_rdkafka_header.h, hs_rdkafka_header.c): message headers
      refine a list of names and values; the lookups find the one that is asked for.
    - KafkaBuf, KafkaBufFacts (hs_rdkafka_buf.h, hs_rdkafka_buf.c): the requests under
      construction and the reads of a response, which fail with an error and never
      outside of the buffer.  RecordBatch is the wire format on its own, after the
      protocol and not after the code, with the CRC and the varints of the parts above.
    - MsgWriter, MsgWriterFacts, MsgWriterProps (hs_rdkafka_msgset_writer.c): from the
      queue of a partition to the bytes of a Produce request, in the formats 0, 1 and 2.
      The CRC of the formats 0 and 1 is that of zlib, by its table; Zstandard is not
      compiled in; the compressors are a parameter.
    - MsgReader, ReadFacts, Aborted, MsgReaderFacts, MsgReaderProps
      (hs_rdkafka_msgset_reader.c, hs_rdkafka_msgset.h): from the bytes of a Fetch
      response to the messages for the application, nested compressed sets, partial
      batches and aborted transactions included.  RoundTrip: what MsgWriter writes is
      what MsgReader delivers.  ReadCommitted: what a consumer sees of interleaved
      transactions.
    - Produce, ProduceFacts, ProduceProps (hs_rdkafka_request.c,
      hs_rdkafka_broker.c): what the response to a Produce request, or an error, does to
      its messages, to the sequence numbers of the partition and to the producer id.  No
      message is lost or reported twice, whatever the response is; successes acknowledge
      what comes before them.  EosTotal: the error paths of Eos and Txn that it uses
      fail no assertion.  Retry: a batch that is put back is sent again byte for byte.
    - Bufq, BufqFacts, BufqProps (hs_rdkafka_broker.c, hs_rdkafka_buf.c): the requests of
      one broker that wait to be sent, for a response or for a retry.  [bq_op] is all that
      can happen to them; over every order of it no request is lost or called back twice,
      requests are written one after the other, and responses find their requests.

    - Serve, ServeFacts, ServeSteps, ServeProduce, ServeOps, ServeProps
      (hs_rdkafka_broker.c, hs_rdkafka_request.c, hs_rdkafka_partition.c): a producer's
      partition together with its broker, composed of Msgq, MsgWriter, Produce and Bufq.
      [pl_op] is all that can happen: new messages, a serve of the broker thread, any
      [bq_op], a migration, a change by another thread.  Serve has the definitions,
      ServeFacts the invariant [pinv] and the callbacks, ServeSteps and ServeProduce the
      parts of a serve, ServeOps the rest and the states reached.  No message is lost or
      doubled; an idempotent producer's requests have the sequence numbers and the order
      of their messages, as long as a new producer id comes when nothing of the partition
      is in flight, which is when the client asks for one (EosProps).

    - Assignment, AssignFacts, AssignInv, AssignSteps, AssignOps, AssignAnswers,
      AssignProps (hs_rdkafka_assignment.c, parts of hs_rdkafka_cgrp.c,
      hs_rdkafka_partition.c, hs_rdkafka_request.c and hs_rdkafka_offset.h): the
      partitions assigned to a consumer.  Assignment has the definitions; [asg_op] is
      what the application and the group ask for and the answers to the stops, commits
      and requests that are outstanding.  AssignFacts is about partition objects,
      AssignInv has the invariant [core], AssignSteps the serving, AssignOps the
      changes and AssignAnswers the answers.  AssignProps: every partition stays
      accounted for, what is outstanding can be answered in any order and then every
      partition is fetched or has an error, nothing is started before stops and commits
      are done, and adding partitions is all or nothing.  The first is of operations that
      keep to [op_ok], the second of answers that are [good_answer]s; the last examples
      are six orders of events that the code does not handle, which is why these
      conditions are there.
    - Queue, QueueFacts, QueueProps, QueueServe, QueueBatch (hs_rdkafka_queue.h,
      hs_rdkafka_queue.c, parts of hs_rdkafka_op.c, hs_rdkafka_event.h, hs_rdkafka.c and
      hs_rdkafka_partition.c): the queues by which threads and the application hand ops
      to one another, with priorities, forwards, replies, wake-ups and version barriers.
      Queue has the definitions, with the readers, the handlers of ops and the handler
      of the application's polls; [q_op] is what can happen to queues.  QueueProps: every
      op is on one queue, destroyed or taken, once, operations end unless forwards make a
      loop, and where an op goes that is enqueued.  QueueServe: ops are served in order
      and what a yield leaves goes back to the front.  QueueBatch: the messages a batch
      returns, and six runs that go against what the code or its comments promise.

    - FetchState, Fetcher, FetchBroker, FetchRequest, FetchRun (hs_rdkafka_partition.c,
      hs_rdkafka_offset.c, hs_rdkafka_broker.c, hs_rdkafka_request.c, hs_rdkafka_topic.c,
      [rd_kafka_consume0] of hs_rdkafka.c): the fetching of a consumer's partition.
      FetchState has the state, Fetcher what the main thread does: start, stop, seek,
      pause and resume, the lookup of offsets with its timer and its answers, offset
      resets and the store of offsets.  FetchBroker is the broker threads' part: the
      delegation of partitions to brokers, the decision whether and from where to fetch,
      and the response to a Fetch request, read by MsgReader; FetchRequest has the bytes
      of the Fetch and ListOffsets requests and a round of the broker's thread; FetchRun
      makes all of it steps of one partition.  FetchFacts has the fetch queue and a
      partition's log, FetchInv the invariant of a partition that is started and seeked
      in at absolute offsets, and what of it each step keeps.  FetchProps: over
      all such runs ([permitted]: the broker answers from its log, with no offset out of
      range), pauses, migrations, late and lost responses included, the
      application is given the log from where it last asked, in order and without gaps,
      and nothing from the call that pauses or stops on.  Nothing is given twice unless a
      partition is resumed that is not paused, which may take it back; and with logical
      offsets a stopped partition can start again (its last example).  FetchWire: which partitions a
      broker's thread asks for, and that the request has the protocol's bytes.  FetchRead:
      a response of record batches is read as the log has them, which is what the runs of
      FetchProps ask of a response.  FetchLookup: where a partition starts that asks for
      a logical offset, from the lookup to its answer's bytes, or from the start of the log
      if that is known.

    RdBuf is used by Slice and Crc; Msgq by Producer; Sort by TpList; TpList by
    Assignor; Producer (producer ids) by EosState; KafkaBuf, Header, Crc and Msgq by
    MsgWriter; KafkaBuf and Slice by MsgReader; Msgq, MsgWriter and Eos by Produce; Eos by
    Bufq; these four by Serve; Msgq (sorted insertion) by Queue; TpList and Sort by
    Assignment, whose lists are the elements of the lists of TpList, with arrays and
    references left there; Queue, MsgReader, Producer (intervals) and Assignment (actions
    on errors) by the Fetch files, and ReadCommitted (logs of batches and markers) by
    FetchRead.  This file holds what all share: the wrap of integers, the [let*] of
    fallible steps, [rd_assert], lists indexed by [Z] with the hint database [rdk], and
    the tactics.

    ** Fuel

    Loops that are not structural take fuel, and none of the results depends on it:
    [write_ensure_loop] runs at most twice since one new segment has room
    ([write_ensure_room] in RdBufFacts); [write_loop] consumes a segment a round
    ([write_loop_spec]); [reader_fuel] is the number of segments
    ([reader_fuel_enough]); [crc32c_words] has the bytes left ([crc32c_words_rest]);
    [insert_msgq_loop] takes a message off its source each round ([insert_loop_spec]);
    [next_member] passes each member once ([next_member_spec]); [pid_fsm_redo] is
    entered again once ([pid_fsm_fuel]); [balance_fuel] is enough by
    [balance_node_spec]; [timers_run_loop] and [timers_destroy_loop] take a timer off the
    queue each round ([run_loop_spec], [destroy_loop_spec]); [write_msgq_loop] takes a
    message off the queue each round; [msgs_v2_loop] has the bytes that are left and
    [reader_sets_loop] one round more than bytes, as a round that returns to the loop
    has read at least one; the nesting of compressed sets is an argument of
    [rd_kafka_msgset_parse], as the C code recurses; [send_loop] takes a request off
    the queue or returns in each round ([send_stops_for_a_reason]), [timeout_scan_loop] may
    meet a request twice ([scan_leaves_none_due]), [retry_bufs_move_loop] and
    [purge_by_toppar_loop] take or pass one each round ([retry_move_inv],
    [purge_toppar_inv]), [connection_reset_loop] passes each once, and
    [produce_requests_loop] has the number of requests that may be made.  An operation on
    a queue follows its forwards with fuel; more of it changes nothing ([step_mono]) and
    enough of it exists when they make no loop (QueueProps).  [serve_loop] and
    [rkmessages_loop] take an op each round; [pop_loop] and what the callbacks of ops
    enqueue end as the callbacks let them.  The fuel of the Fetch files is for the
    forwards of the fetch queue, their [depth] for nested message sets, and
    [consume0_loop] takes an op each round.

    ** What is not modelled

    Sockets, threads, locks and condition variables: the handlers run in the order
    of the inputs, as one main thread runs them, and an unprotected race between
    threads is visible only where it is an order of inputs.  Memory allocation does
    not fail.  Logging, statistics, interceptors, plugins, configuration and the admin
    API are output, tables and set-up, or request states apart from the message path.
    The consumer group's join protocol, the sticky assignor, the metadata cache and the
    sending of offsets in a transaction are logic of the program that this development
    does not reach: what the modelled parts need of them comes in as operations, answers
    and environments.  The callback of a request to a broker does nothing to the queues
    but retry it, and does not change the broker's state.  The arithmetic of timers is
    that of times far from the ends of 64 bits.  Of fetching, the format of the offset file and when it is synced,
    the timer for the consumer's lag, and the creation and removal of partitions are left
    out.  Of queues, the
    references to them, the freeing of an op's parts and the wrapper that enqueues an op
    once are left out.  Of an assignment
    that is done or revoked only the event is modelled, and a topic that is created has
    no partitions known yet.  The
    vendored code (JSON, xxHash, Snappy, LZ4 framing, C11 threads) is left out.  The
    regular expressions of subscriptions are a parameter. *)

From Stdlib Require Export ZArith Lia Bool Btauto.
From stdpp Require Export base numbers list list_numbers option.

#[global] Open Scope Z_scope.

(** ** Machine integers

    A C integer is a [Z]; an operation that may leave its type's range is
    followed by the wrap of that type.  [uN] reduces to the unsigned type of
    that width, [iN] to the signed one (two's complement, as every compiler
    the library supports implements it). *)

Definition wrap (w z : Z) : Z := z mod 2 ^ w.
Definition swrap (w z : Z) : Z := (z + 2 ^ (w - 1)) mod 2 ^ w - 2 ^ (w - 1).

Abbreviation u8 := (wrap 8).
Abbreviation u16 := (wrap 16).
Abbreviation u32 := (wrap 32).
Abbreviation u64 := (wrap 64).
Abbreviation i8 := (swrap 8).
Abbreviation i16 := (swrap 16).
Abbreviation i32 := (swrap 32).
Abbreviation i64 := (swrap 64).

Definition in_u (w z : Z) : Prop := 0 <= z < 2 ^ w.
Definition in_i (w z : Z) : Prop := - 2 ^ (w - 1) <= z < 2 ^ (w - 1).

(** [SIZE_MAX], with the 64-bit [size_t] of the platforms the package builds
    for. *)
Definition SIZE_MAX : Z := 2 ^ 64 - 1.

(** ** Bytes *)

(** Memory is a list of bytes, a byte a [Z] in 0..255. *)
Definition is_byte (b : Z) : Prop := 0 <= b < 256.
Abbreviation bytes := (list Z).

Abbreviation zlen l := (Z.of_nat (length l)).
Definition ztake {A} (n : Z) (l : list A) : list A := take (Z.to_nat n) l.
Definition zdrop {A} (n : Z) (l : list A) : list A := drop (Z.to_nat n) l.

(** ** Computations that may abort

    [None] is a C execution that does not return: a failed [rd_assert], or
    undefined behaviour (a null dereference, an out-of-range shift).  The code
    signals its ordinary errors through return values, which the models keep. *)

Declare Scope c_scope.
Delimit Scope c_scope with c.

Notation "'let*' p ':=' e 'in' k" :=
  (match e with Some p => k | None => None end)
  (at level 10, p pattern, e at level 100, k at level 200) : c_scope.
#[global] Open Scope c_scope.

(** [rd_assert(cond)], which is plain [assert] and always compiled in. *)
Definition rd_assert (cond : bool) : option unit := if cond then Some tt else None.

(** [RD_MIN], [RD_MAX] and [RD_ROUNDUP] of hs_rd.h. *)
Definition RD_MIN (a b : Z) : Z := if a <? b then a else b.
Definition RD_MAX (a b : Z) : Z := if a >? b then a else b.
Definition RD_ROUNDUP (x stride : Z) : Z :=
  Z.ldiff (x + (stride - 1)) (stride - 1).

(** ** Automation *)

Create HintDb rdk.
Create Rewrite HintDb zlist.

(** Case on the first [if] or [match] scrutinee of the goal. *)
Ltac case_goal :=
  match goal with
  | |- context [match ?x with _ => _ end] => destruct x eqn:?
  end.

(** Turn the boolean comparisons of the hypotheses and the goal into
    propositions. *)
Ltac zbool :=
  repeat match goal with
  | H : _ && _ = true |- _ => apply andb_true_iff in H; destruct H
  | H : _ || _ = false |- _ => apply orb_false_iff in H; destruct H
  | H : negb _ = true |- _ => apply negb_true_iff in H
  | H : negb _ = false |- _ => apply negb_false_iff in H
  | H : (_ <? _) = true |- _ => apply Z.ltb_lt in H
  | H : (_ <? _) = false |- _ => apply Z.ltb_ge in H
  | H : (_ <=? _) = true |- _ => apply Z.leb_le in H
  | H : (_ <=? _) = false |- _ => apply Z.leb_gt in H
  | H : (_ >? _) = true |- _ => rewrite Z.gtb_ltb in H; apply Z.ltb_lt in H
  | H : (_ >? _) = false |- _ => rewrite Z.gtb_ltb in H; apply Z.ltb_ge in H
  | H : (_ >=? _) = true |- _ => rewrite Z.geb_leb in H; apply Z.leb_le in H
  | H : (_ >=? _) = false |- _ => rewrite Z.geb_leb in H; apply Z.leb_gt in H
  | H : (_ =? _) = true |- _ => apply Z.eqb_eq in H
  | H : (_ =? _) = false |- _ => apply Z.eqb_neq in H
  end.

(** Linear arithmetic after [zbool]. *)
Ltac zlia := zbool; lia.

(** Decide a Z test of the goal whose value follows by arithmetic. *)
(** Splits the conjunctions in sight, and only those. *)
Ltac conj :=
  repeat match goal with |- _ /\ _ => split end;
  try assumption; try reflexivity; try solve [constructor]; try lia.

(** Equality of results whose integers differ by arithmetic. *)
Ltac ceq :=
  repeat match goal with
  | |- Some _ = Some _ => f_equal
  | |- (_, _) = (_, _) => f_equal
  | |- swrap _ _ = swrap _ _ => f_equal
  | |- wrap _ _ = wrap _ _ => f_equal
  end; try reflexivity; try lia.

Ltac ztest :=
  repeat match goal with
  | |- context [?a <? ?b] =>
      first [ replace (a <? b) with true by (symmetry; apply Z.ltb_lt; lia)
            | replace (a <? b) with false by (symmetry; apply Z.ltb_ge; lia) ]
  | |- context [?a <=? ?b] =>
      first [ replace (a <=? b) with true by (symmetry; apply Z.leb_le; lia)
            | replace (a <=? b) with false by (symmetry; apply Z.leb_gt; lia) ]
  | |- context [?a >? ?b] => rewrite (Z.gtb_ltb a b)
  | |- context [?a >=? ?b] => rewrite (Z.geb_leb a b)
  | |- context [?a =? ?b] =>
      first [ replace (a =? b) with true by (symmetry; apply Z.eqb_eq; lia)
            | replace (a =? b) with false by (symmetry; apply Z.eqb_neq; lia) ]
  end.

(** ** Lemmas on machine integers *)

Lemma wrap_small w z : 0 <= z < 2 ^ w -> wrap w z = z.
Proof. intros; unfold wrap; now apply Z.mod_small. Qed.

Lemma wrap_range w z : 0 <= w -> 0 <= wrap w z < 2 ^ w.
Proof. intros; unfold wrap; apply Z.mod_pos_bound; lia. Qed.

Lemma swrap_small w z : 0 < w -> in_i w z -> swrap w z = z.
Proof.
  unfold in_i, swrap; intros Hw H.
  assert (2 ^ w = 2 * 2 ^ (w - 1)) as E
    by (rewrite <- Z.pow_succ_r by lia; f_equal; lia).
  rewrite Z.mod_small; lia.
Qed.

Lemma swrap_range w z : 0 < w -> in_i w (swrap w z).
Proof.
  unfold in_i, swrap; intros Hw.
  assert (2 ^ w = 2 * 2 ^ (w - 1)) as E
    by (rewrite <- Z.pow_succ_r by lia; f_equal; lia).
  assert (0 < 2 ^ (w - 1)) by lia.
  pose proof (Z.mod_pos_bound (z + 2 ^ (w - 1)) (2 ^ w)). lia.
Qed.

Lemma swrap_wrap w z : 0 < w -> swrap w (wrap w z) = swrap w z.
Proof.
  intros; unfold swrap, wrap. now rewrite Zplus_mod_idemp_l.
Qed.

Lemma wrap_swrap w z : 0 < w -> wrap w (swrap w z) = wrap w z.
Proof.
  intros; unfold swrap, wrap. rewrite Zminus_mod_idemp_l. f_equal; lia.
Qed.

Lemma wrap_add_mul w z k : wrap w (z + k * 2 ^ w) = wrap w z.
Proof. apply Z_mod_plus_full. Qed.

(** A signed wrap differs from its argument by a multiple of the modulus. *)
Lemma swrap_cong w z : 0 < w -> exists k, swrap w z = z + k * 2 ^ w.
Proof.
  intros. exists (- ((z + 2 ^ (w - 1)) / 2 ^ w)). unfold swrap.
  pose proof (Z.div_mod (z + 2 ^ (w - 1)) (2 ^ w) ltac:(lia)). lia.
Qed.

Lemma swrap_shift w z k : 0 < w -> swrap w (z + k * 2 ^ w) = swrap w z.
Proof.
  intros. unfold swrap. replace (z + k * 2 ^ w + 2 ^ (w - 1)) with (z + 2 ^ (w - 1) + k * 2 ^ w) by lia.
  now rewrite Z_mod_plus_full.
Qed.

Lemma swrap_add_l w a b : 0 < w -> swrap w (swrap w a + b) = swrap w (a + b).
Proof.
  intros Hw. destruct (swrap_cong w a Hw) as [k ->].
  replace (a + k * 2 ^ w + b) with (a + b + k * 2 ^ w) by lia. now apply swrap_shift.
Qed.

Lemma swrap_add_r w a b : 0 < w -> swrap w (a + swrap w b) = swrap w (a + b).
Proof. intros. rewrite Z.add_comm, swrap_add_l by assumption. f_equal. lia. Qed.

Lemma swrap_swrap w a : 0 < w -> swrap w (swrap w a) = swrap w a.
Proof. intros. pose proof (swrap_add_l w a 0). rewrite !Z.add_0_r in *. auto. Qed.

Lemma swrap_sub_l w a b : 0 < w -> swrap w (swrap w a - b) = swrap w (a - b).
Proof. intros. rewrite <- !Z.add_opp_r. now apply swrap_add_l. Qed.

Lemma swrap_sub_r w a b : 0 < w -> swrap w (a - swrap w b) = swrap w (a - b).
Proof.
  intros Hw. destruct (swrap_cong w b Hw) as [k ->].
  replace (a - (b + k * 2 ^ w)) with (a - b + (- k) * 2 ^ w) by lia. now apply swrap_shift.
Qed.

Lemma RD_MIN_min a b : RD_MIN a b = Z.min a b.
Proof. unfold RD_MIN; destruct (Z.ltb_spec a b); lia. Qed.

Lemma RD_MAX_max a b : RD_MAX a b = Z.max a b.
Proof. unfold RD_MAX; rewrite Z.gtb_ltb; destruct (Z.ltb_spec b a); lia. Qed.

Lemma land_low_mod x n : 0 <= n -> Z.land x (Z.ones n) = x mod 2 ^ n.
Proof. intros; now apply Z.land_ones. Qed.

Lemma land_1 x : Z.land x 1 = x mod 2.
Proof. apply (Z.land_ones x 1); lia. Qed.

Lemma testbit_above x k i : 0 <= x < 2 ^ k -> 0 <= k <= i -> Z.testbit x i = false.
Proof.
  intros Hx Hk. apply Z.testbit_false; [lia |].
  rewrite Z.div_small; [reflexivity |].
  pose proof (Z.pow_le_mono_r 2 k i). lia.
Qed.

Lemma land_low_shiftl k a b :
  0 <= k -> 0 <= a < 2 ^ k -> Z.land a (Z.shiftl b k) = 0.
Proof.
  intros Hk Ha. apply Z.bits_inj'; intros i Hi.
  rewrite Z.land_spec, Z.bits_0, Z.shiftl_spec by lia.
  destruct (Z.ltb_spec i k).
  - rewrite (Z.testbit_neg_r b) by lia. apply andb_false_r.
  - now rewrite (testbit_above a k) by lia.
Qed.

(** A low part below [2^k] and a part shifted by [k] do not overlap. *)
Lemma lor_shiftl_add k a b :
  0 <= k -> 0 <= a < 2 ^ k -> Z.lor a (Z.shiftl b k) = a + b * 2 ^ k.
Proof.
  intros Hk Ha. rewrite <- Z.shiftl_mul_pow2 by lia.
  rewrite <- Z.lxor_lor by now apply land_low_shiftl.
  symmetry; apply Z.add_nocarry_lxor. now apply land_low_shiftl.
Qed.

Lemma lor_range w a b : 0 <= w -> in_u w a -> in_u w b -> in_u w (Z.lor a b).
Proof.
  intros Hw Ha Hb. unfold in_u in *.
  assert (0 <= Z.lor a b) by (apply Z.lor_nonneg; lia). split; [assumption |].
  replace (Z.lor a b) with (Z.lor a b mod 2 ^ w); [apply Z.mod_pos_bound; lia |].
  rewrite <- Z.land_ones, Z.land_lor_distr_l, !Z.land_ones, !Z.mod_small by lia. reflexivity.
Qed.

(** ** Lemmas on lists indexed by [Z] *)

Section Zlists.
Context {A : Type}.
Implicit Types (l : list A) (n m : Z).

Lemma zlen_nonneg l : 0 <= zlen l.
Proof. lia. Qed.

Lemma zlen_app l1 l2 : zlen (l1 ++ l2) = zlen l1 + zlen l2.
Proof. rewrite length_app. lia. Qed.

Lemma zlen_take n l : zlen (ztake n l) = Z.max 0 (Z.min n (zlen l)).
Proof. unfold ztake. rewrite length_take. lia. Qed.

Lemma zlen_drop n l : zlen (zdrop n l) = Z.max 0 (zlen l - Z.max 0 n).
Proof. unfold zdrop. rewrite length_drop. lia. Qed.

Lemma ztake_drop n l : ztake n l ++ zdrop n l = l.
Proof. apply take_drop. Qed.

Lemma ztake_all n l : zlen l <= n -> ztake n l = l.
Proof. intros; unfold ztake; apply take_ge; lia. Qed.

Lemma zdrop_all n l : zlen l <= n -> zdrop n l = [].
Proof. intros; unfold zdrop; apply drop_ge; lia. Qed.

Lemma ztake_nonpos n l : n <= 0 -> ztake n l = [].
Proof. intros; unfold ztake. now replace (Z.to_nat n) with 0%nat by lia. Qed.

Lemma zdrop_nonpos n l : n <= 0 -> zdrop n l = l.
Proof. intros; unfold zdrop. now replace (Z.to_nat n) with 0%nat by lia. Qed.

Lemma ztake_app n l1 l2 : ztake n (l1 ++ l2) = ztake n l1 ++ ztake (n - zlen l1) l2.
Proof.
  unfold ztake. rewrite take_app. do 2 f_equal. lia.
Qed.

Lemma zdrop_app n l1 l2 : zdrop n (l1 ++ l2) = zdrop n l1 ++ zdrop (n - zlen l1) l2.
Proof.
  unfold zdrop. rewrite drop_app. do 2 f_equal. lia.
Qed.

Lemma ztake_take n m l : ztake n (ztake m l) = ztake (Z.min n m) l.
Proof. unfold ztake. rewrite take_take. f_equal. lia. Qed.

Lemma zdrop_drop n m l : 0 <= n -> 0 <= m -> zdrop n (zdrop m l) = zdrop (m + n) l.
Proof. intros; unfold zdrop. rewrite drop_drop. f_equal. lia. Qed.

Lemma zdrop_take n m l :
  0 <= n -> 0 <= m -> zdrop n (ztake m l) = ztake (m - n) (zdrop n l).
Proof.
  intros; unfold zdrop, ztake. rewrite skipn_firstn_comm. do 2 f_equal. lia.
Qed.

Lemma ztake_add n m l :
  0 <= n -> 0 <= m -> ztake (n + m) l = ztake n l ++ ztake m (zdrop n l).
Proof.
  intros. rewrite <- (ztake_drop n l) at 1. rewrite ztake_app, zlen_take.
  rewrite ztake_take. replace (Z.min (n + m) n) with n by lia. f_equal.
  destruct (Z.le_gt_cases n (zlen l)).
  - f_equal; lia.
  - rewrite !ztake_all; [reflexivity | |]; rewrite zdrop_all; simpl; lia.
Qed.

End Zlists.

Lemma filter_all {A} (P : A -> Prop) `{!forall x, Decision (P x)} (l : list A) :
  Forall P l -> filter P l = l.
Proof. induction 1 as [| x l Hx _ IH]; [done |]. now rewrite filter_cons_True, IH. Qed.

Lemma filter_none {A} (P : A -> Prop) `{!forall x, Decision (P x)} (l : list A) :
  Forall (fun x => ~ P x) l -> filter P l = [].
Proof. induction 1 as [| x l Hx _ IH]; [done |]. now rewrite filter_cons_False, IH. Qed.

#[export] Hint Rewrite @zlen_app @zlen_take @zlen_drop @length_replicate : zlist.

(** Lengths in [Z], pushed through take, drop and append, then [lia]. *)
Ltac zlen_lia := repeat (autorewrite with zlist in *; cbn [length] in *); lia.

(** ** Words in memory *)

(** The integer stored at [p], little-endian as on the machines the package
    builds for. *)
Fixpoint le_bytes (p : bytes) : Z :=
  match p with
  | [] => 0
  | b :: p => Z.lor b (Z.shiftl (le_bytes p) 8)
  end.

Lemma le_bytes_range p : Forall is_byte p -> 0 <= le_bytes p < 2 ^ (8 * zlen p).
Proof.
  induction p as [| b p IH]; intros Hp; [cbn; lia |].
  apply Forall_cons_iff in Hp as [Hb Hp]. specialize (IH Hp). cbn [le_bytes length].
  unfold is_byte in Hb. rewrite lor_shiftl_add by lia.
  replace (8 * Z.of_nat (S (length p))) with (8 + 8 * zlen p) by lia.
  rewrite Z.pow_add_r by lia. lia.
Qed.
