(* ===== verification/Varint.v ===== *)
(** * Varints (src/cbits/hs_rdvarint.h)

    The unsigned LEB128 and signed zig-zag encodings of the Kafka protocol:
    the encoders and decoders on flat memory.  The decoder that walks the
    segments of a buffer is in file Slice. *)

From S2P Require Import Prelude.

(** ** Encoding *)

(** The do-while loop of [rd_uvarint_enc_u64].  [out] is what the loop has
    stored at [dst], its length the counter [of].  [None]: out of fuel, which
    ten rounds never are on a [uint64_t] ([uvarint_enc_fuel]). *)
Fixpoint uvarint_enc_loop (fuel : nat) (dstsize : Z) (out : bytes) (num : Z)
  : option (Z * bytes) :=
  match fuel with
  | O => None
  | S fuel =>
      if zlen out >=? dstsize then Some (0, out)
      else
        let out := out ++ [Z.lor (Z.land num 0x7f) (if num >? 0x7f then 0x80 else 0)] in
        let num := Z.shiftr num 7 in
        if num =? 0 then Some (zlen out, out)
        else uvarint_enc_loop fuel dstsize out num
  end.

(** The return value and the bytes stored at [dst], those of a failed call
    included. *)
Definition rd_uvarint_enc_u64 (dstsize num : Z) : option (Z * bytes) :=
  uvarint_enc_loop 10 dstsize [] num.

(** [(num << 1) ^ (num >> 63)] on [int64_t], passed as [uint64_t]. *)
Definition rd_uvarint_enc_i64 (dstsize num : Z) : option (Z * bytes) :=
  rd_uvarint_enc_u64 dstsize
    (u64 (Z.lxor (i64 (Z.shiftl num 1)) (Z.shiftr num 63))).

Definition rd_uvarint_enc_i32 (dstsize num : Z) : option (Z * bytes) :=
  rd_uvarint_enc_i64 dstsize num.

(** ** Decoding *)

Definition RD_UVARINT_OVERFLOW (dec_retval : Z) : bool := dec_retval >? SIZE_MAX.
Definition RD_UVARINT_UNDERFLOW (dec_retval : Z) : bool := dec_retval =? 0.
Definition RD_UVARINT_DEC_FAILED (dec_retval : Z) : bool :=
  RD_UVARINT_UNDERFLOW dec_retval || RD_UVARINT_OVERFLOW dec_retval.

(** The loop of [rd_uvarint_dec], [src] the bytes not yet read and their number
    the counter [srcsize].  [None]: the code shifts a [uint64_t] by 64 or more,
    which C leaves undefined. *)
Fixpoint uvarint_dec_loop (src : bytes) (off num shift : Z) : option (Z * option Z) :=
  match src with
  | [] => Some (0, None)
  | c :: src =>
      if shift >=? 64 then None
      else
        let num := Z.lor num (u64 (Z.shiftl (Z.land c 0x7f) shift)) in
        if negb (Z.land c 0x80 =? 0) then uvarint_dec_loop src (off + 1) num (shift + 7)
        else Some (off + 1, Some num)
  end.

(** The return value, and what [*nump] is set to if it is. *)
Definition rd_uvarint_dec (src : bytes) : option (Z * option Z) :=
  uvarint_dec_loop src 0 0 0.

(** [(int64_t)(n >> 1) ^ -(int64_t)(n & 1)] *)
Definition zigzag_dec (n : Z) : Z :=
  Z.lxor (i64 (Z.shiftr n 1)) (- (i64 (Z.land n 1))).

Definition rd_varint_dec_i64 (src : bytes) : option (Z * option Z) :=
  let* (r, n) := rd_uvarint_dec src in
  match n with
  | Some n => if RD_UVARINT_DEC_FAILED r then Some (r, None)
              else Some (r, Some (zigzag_dec n))
  | None => Some (r, None)
  end.

(** The macro [RD_UVARINT_ENC_SIZEOF] on a type of [sizeof] bytes. *)
Definition RD_UVARINT_ENC_SIZEOF (sizeof : Z) : Z := sizeof + 1 + sizeof / 7.
Definition RD_UVARINT_ENC_SIZE_0 : Z := 1.

(** ** The reference encoding

    Base-128 digits, least significant first, every digit but the last with the
    continuation bit. *)
Fixpoint leb128 (digits : nat) (num : Z) : bytes :=
  match digits with
  | O => []
  | S O => [num]
  | S digits => (128 + num mod 128) :: leb128 digits (num / 128)
  end.

(** The number of base-128 digits of [num]; one for zero. *)
Definition uvarint_size (num : Z) : nat := Z.to_nat (1 + Z.log2 num / 7).

(** [d] is the number of digits the encoder emits for [num]. *)
Definition ndigits (d : nat) (num : Z) : Prop :=
  (1 <= d)%nat /\ 0 <= num < 2 ^ (7 * Z.of_nat d) /\
  (d = 1%nat \/ 2 ^ (7 * (Z.of_nat d - 1)) <= num).

(** ** Lemmas *)

Lemma uvarint_size_digits num : 0 <= num -> ndigits (uvarint_size num) num.
Proof.
  intros H0. unfold ndigits, uvarint_size.
  pose proof (Z.log2_nonneg num). pose proof (Z.div_mod (Z.log2 num) 7 ltac:(lia)).
  pose proof (Z.mod_pos_bound (Z.log2 num) 7 ltac:(lia)).
  rewrite Z2Nat.id by (apply Z.add_nonneg_nonneg; [lia | apply Z.div_pos; lia]).
  destruct (Z.eq_dec num 0) as [-> | Hn].
  { change (Z.log2 0 / 7) with 0. change (2 ^ (7 * (1 + 0))) with 128. lia. }
  destruct (Z.log2_spec num) as [Hlo Hhi]; [lia |].
  assert (0 <= Z.log2 num / 7) by (apply Z.div_pos; lia).
  split; [lia |]. split.
  - split; [lia |]. eapply Z.lt_le_trans; [apply Hhi |]. apply Z.pow_le_mono_r; lia.
  - right. eapply Z.le_trans; [| apply Hlo]. apply Z.pow_le_mono_r; lia.
Qed.

Lemma ndigits_le d k num :
  ndigits d num -> 0 <= k -> num < 2 ^ (7 * k) -> Z.of_nat d <= Z.max 1 k.
Proof.
  intros (Hd & Hb & [-> | Hlo]) Hk Hn; [lia |].
  assert (7 * (Z.of_nat d - 1) < 7 * k); [| lia].
  apply (Z.pow_lt_mono_r_iff 2); lia.
Qed.

Lemma ndigits_u64 d num : ndigits d num -> num < 2 ^ 64 -> (d <= 10)%nat.
Proof.
  intros H Hn. pose proof (ndigits_le d 10 num H ltac:(lia) ltac:(lia)). lia.
Qed.

(** One round of the encoder divides by 128. *)
Lemma ndigits_step d num :
  ndigits (S (S d)) num -> ndigits (S d) (num / 128) /\ 128 <= num.
Proof.
  intros (_ & Hb & Hlo). unfold ndigits.
  assert (128 * 2 ^ (7 * Z.of_nat (S d)) = 2 ^ (7 * Z.of_nat (S (S d)))) as E.
  { change 128 with (2 ^ 7). rewrite <- Z.pow_add_r by lia. f_equal. lia. }
  destruct Hlo as [? | Hlo]; [discriminate |].
  replace (Z.of_nat (S (S d)) - 1) with (Z.of_nat (S d)) in Hlo by lia.
  assert (2 ^ 7 <= 2 ^ (7 * Z.of_nat (S d))) by (apply Z.pow_le_mono_r; lia).
  repeat split; try lia.
  - apply Z.div_pos; lia.
  - apply Z.div_lt_upper_bound; lia.
  - destruct d as [| d]; [now left | right].
    apply Z.div_le_lower_bound; [lia |].
    replace (128 * 2 ^ (7 * (Z.of_nat (S (S d)) - 1)))
      with (2 ^ (7 * Z.of_nat (S (S d)))); [exact Hlo |].
    change 128 with (2 ^ 7). rewrite <- Z.pow_add_r by lia. f_equal. lia.
Qed.

Lemma low7 num : 0 <= num -> Z.land num 0x7f = num mod 128.
Proof. intros. change 0x7f with (Z.ones 7). now rewrite Z.land_ones. Qed.

Lemma lor_0x80 a : 0 <= a < 128 -> Z.lor a 0x80 = 128 + a.
Proof.
  intros. change 0x80 with (Z.shiftl 1 7) at 1.
  rewrite lor_shiftl_add by (change (2 ^ 7) with 128; lia).
  change (2 ^ 7) with 128. lia.
Qed.

Lemma land_0x80 a : 0 <= a < 128 -> Z.land a 0x80 = 0.
Proof.
  intros. change 0x80 with (Z.shiftl 1 7).
  apply land_low_shiftl; change (2 ^ 7) with 128; lia.
Qed.

Lemma low7_more num : 0 <= num -> Z.lor (Z.land num 0x7f) 0x80 = 128 + num mod 128.
Proof.
  intros H. rewrite low7 by exact H. apply lor_0x80. apply Z.mod_pos_bound; lia.
Qed.

(** The two halves of an octet with the continuation bit. *)
Lemma more_digit a : 0 <= a < 128 -> Z.land (128 + a) 0x7f = a.
Proof.
  intros. rewrite low7 by lia. rewrite Z.add_comm.
  replace (a + 128) with (a + 1 * 128) by lia.
  rewrite Z_mod_plus_full. now apply Z.mod_small.
Qed.

Lemma more_flag a : 0 <= a < 128 -> (Z.land (128 + a) 0x80 =? 0) = false.
Proof.
  intros. rewrite <- lor_0x80, Z.land_lor_distr_l, land_0x80 by lia. reflexivity.
Qed.

Lemma shiftr7 num : Z.shiftr num 7 = num / 128.
Proof. now rewrite Z.shiftr_div_pow2. Qed.

Lemma length_leb128 d num : length (leb128 d num) = d.
Proof.
  revert num; induction d as [| [| d] IH]; intros; [reflexivity .. |].
  change (S (length (leb128 (S d) (num / 128))) = S (S d)). now rewrite IH.
Qed.
#[export] Hint Rewrite length_leb128 : zlist.

Lemma leb128_SS d num :
  leb128 (S (S d)) num = (128 + num mod 128) :: leb128 (S d) (num / 128).
Proof. reflexivity. Qed.

Lemma leb128_is_byte d num : ndigits d num -> Forall is_byte (leb128 d num).
Proof.
  revert num; induction d as [| [| d] IH]; intros num H.
  - constructor.
  - destruct H as (_ & ? & _). repeat constructor; change (7 * Z.of_nat 1) with 7 in *; lia.
  - rewrite leb128_SS. destruct (ndigits_step _ _ H) as [H' _].
    pose proof (Z.mod_pos_bound num 128 ltac:(lia)). constructor; [unfold is_byte; lia |]. now apply IH.
Qed.

(** The encoder stores the digits that fit, and reports failure when not all
    do. *)
Lemma uvarint_enc_loop_spec d : forall fuel dstsize out num,
  ndigits d num -> (d <= fuel)%nat -> zlen out <= dstsize ->
  uvarint_enc_loop fuel dstsize out num =
  Some (if zlen out + Z.of_nat d <=? dstsize
        then (zlen out + Z.of_nat d, out ++ leb128 d num)
        else (0, out ++ ztake (dstsize - zlen out) (leb128 d num))).
Proof.
  induction d as [| [| d] IH]; intros [| fuel] dstsize out num H Hf Hs;
    try (destruct H; lia); try lia.
  - destruct H as (_ & H & _). change (7 * Z.of_nat 1) with 7 in H.
    cbn [uvarint_enc_loop]. rewrite shiftr7, low7, Z.mod_small, Z.div_small by lia.
    destruct (Z.eq_dec (zlen out) dstsize).
    + ztest. rewrite ztake_nonpos by lia. now rewrite app_nil_r.
    + ztest. rewrite Z.lor_0_r. now rewrite zlen_app.
  - destruct (ndigits_step _ _ H) as [Hq Hge].
    cbn [uvarint_enc_loop]. rewrite shiftr7.
    assert (1 <= num / 128) by (apply Z.div_le_lower_bound; lia).
    destruct (Z.eq_dec (zlen out) dstsize).
    + ztest. rewrite ztake_nonpos by lia. now rewrite app_nil_r.
    + ztest. rewrite low7_more, IH by (try apply Hq; zlen_lia).
      rewrite zlen_app; cbn [length]; rewrite leb128_SS, <- !app_assoc; cbn [app].
      replace (zlen out + Z.of_nat 1 + Z.of_nat (S d))
        with (zlen out + Z.of_nat (S (S d))) by lia.
      destruct (_ <=? _); [reflexivity |]. do 3 f_equal.
      unfold ztake. replace (Z.to_nat (dstsize - zlen out))
        with (S (Z.to_nat (dstsize - (zlen out + Z.of_nat 1)))) by lia. reflexivity.
Qed.

(** Decoding the digits adds the number, shifted to the current position. *)
Lemma uvarint_dec_loop_spec d : forall num rest off acc shift,
  ndigits d num -> 0 <= shift -> shift + 7 * (Z.of_nat d - 1) < 64 ->
  num * 2 ^ shift < 2 ^ 64 ->
  uvarint_dec_loop (leb128 d num ++ rest) off acc shift =
  Some (off + Z.of_nat d, Some (Z.lor acc (Z.shiftl num shift))).
Proof.
  induction d as [| [| d] IH]; intros num rest off acc shift H Hs H64 Hov.
  - destruct H; lia.
  - destruct H as (_ & H & _). change (7 * Z.of_nat 1) with 7 in H.
    cbn [leb128 app uvarint_dec_loop]. ztest. rewrite low7, Z.mod_small by lia.
    rewrite land_0x80 by lia.
    cbn [Z.eqb negb]. rewrite wrap_small; [reflexivity |].
    rewrite Z.shiftl_mul_pow2 by lia. lia.
  - destruct (ndigits_step _ _ H) as [Hq Hge].
    pose proof (Z.mod_pos_bound num 128 ltac:(lia)). pose proof (Z.div_mod num 128 ltac:(lia)).
    rewrite leb128_SS. cbn [app uvarint_dec_loop]. ztest.
    rewrite more_digit, more_flag by lia. cbn [negb]. rewrite wrap_small.
    2: { rewrite Z.shiftl_mul_pow2 by lia. nia. }
    rewrite IH; try assumption; try lia.
    2: { rewrite Z.pow_add_r by lia. nia. }
    do 2 f_equal; [lia |]. f_equal. rewrite <- Z.lor_assoc. f_equal.
    rewrite (Z.add_comm shift 7), <- Z.shiftl_shiftl by lia.
    rewrite <- Z.shiftl_lor. f_equal.
    rewrite lor_shiftl_add by lia. change (2 ^ 7) with 128. lia.
Qed.

(** Every strict prefix of an encoding runs out of bytes. *)
Lemma uvarint_dec_loop_prefix d : forall num n off acc shift,
  ndigits d num -> 0 <= shift -> shift + 7 * (Z.of_nat d - 1) < 64 -> (n < d)%nat ->
  uvarint_dec_loop (take n (leb128 d num)) off acc shift = Some (0, None).
Proof.
  induction d as [| [| d] IH]; intros num [| n] off acc shift H Hs H64 Hn;
    try lia; try reflexivity.
  destruct (ndigits_step _ _ H) as [Hq Hge].
  pose proof (Z.mod_pos_bound num 128 ltac:(lia)).
  rewrite leb128_SS. cbn [take firstn uvarint_dec_loop]. ztest.
  rewrite more_flag by lia. cbn [negb]. apply IH; try assumption; lia.
Qed.

Lemma uvarint_enc_fuel dstsize num :
  in_u 64 num -> 0 <= dstsize ->
  rd_uvarint_enc_u64 dstsize num =
  Some (if Z.of_nat (uvarint_size num) <=? dstsize
        then (Z.of_nat (uvarint_size num), leb128 (uvarint_size num) num)
        else (0, ztake dstsize (leb128 (uvarint_size num) num))).
Proof.
  intros [H0 H] Hs. pose proof (uvarint_size_digits num H0) as Hd.
  unfold rd_uvarint_enc_u64. rewrite (uvarint_enc_loop_spec (uvarint_size num));
    cbn [length]; try lia; try assumption; [| now apply (ndigits_u64 _ num)].
  rewrite Z.sub_0_r. reflexivity.
Qed.

Lemma uvarint_dec_digits num rest :
  in_u 64 num ->
  rd_uvarint_dec (leb128 (uvarint_size num) num ++ rest) =
  Some (Z.of_nat (uvarint_size num), Some num).
Proof.
  intros [H0 H]. pose proof (uvarint_size_digits num H0) as Hd.
  pose proof (ndigits_u64 _ _ Hd H).
  unfold rd_uvarint_dec. rewrite uvarint_dec_loop_spec; try lia; try assumption.
  rewrite Z.lor_0_l, Z.shiftl_0_r. reflexivity.
Qed.

Lemma uvarint_size_pos num : 0 <= num -> (1 <= uvarint_size num)%nat.
Proof. intros H. now destruct (uvarint_size_digits num H). Qed.

(** The zig-zag map: 0, -1, 1, -2, ... become 0, 1, 2, 3, ... *)
Definition zigzag (num : Z) : Z := if num <? 0 then - 2 * num - 1 else 2 * num.

Lemma zigzag_enc num :
  in_i 64 num -> u64 (Z.lxor (i64 (Z.shiftl num 1)) (Z.shiftr num 63)) = zigzag num.
Proof.
  unfold in_i, zigzag. intros H. change (64 - 1) with 63 in H.
  rewrite Z.shiftl_mul_pow2, Z.shiftr_div_pow2 by lia.
  replace (num * 2 ^ 1) with (2 * num) by lia.
  destruct (Z.ltb_spec num 0).
  - replace (num / 2 ^ 63) with (-1)
      by (apply (Z.div_unique num (2 ^ 63) (-1) (num + 2 ^ 63)); lia).
    rewrite Z.lxor_m1_r, Z.lnot_eq_pred_opp.
    destruct (swrap_cong 64 (2 * num)) as [k ->]; [lia |].
    replace (- (2 * num + k * 2 ^ 64) - 1) with (-2 * num - 1 + - k * 2 ^ 64) by lia.
    rewrite wrap_add_mul. apply wrap_small. lia.
  - rewrite Z.div_small by lia. rewrite Z.lxor_0_r, wrap_swrap by lia.
    apply wrap_small. lia.
Qed.

Lemma zigzag_range num : in_i 64 num -> in_u 64 (zigzag num).
Proof. unfold in_i, in_u, zigzag. destruct (Z.ltb_spec num 0); lia. Qed.

Lemma zigzag_dec_enc num : in_i 64 num -> zigzag_dec (zigzag num) = num.
Proof.
  unfold in_i, zigzag_dec, zigzag. change (64 - 1) with 63. intros H.
  rewrite Z.shiftr_div_pow2 by lia. rewrite land_1. change (2 ^ 1) with 2.
  destruct (Z.ltb_spec num 0).
  - replace (-2 * num - 1) with (1 + (- num - 1) * 2) by lia.
    rewrite Z_div_plus_full, Z_mod_plus_full by lia.
    change (1 / 2) with 0. change (1 mod 2) with 1.
    rewrite !swrap_small by (unfold in_i; lia).
    rewrite Z.lxor_m1_r, Z.lnot_eq_pred_opp. lia.
  - replace (2 * num) with (0 + num * 2) by lia.
    rewrite Z_div_plus_full, Z_mod_plus_full by lia.
    change (0 / 2) with 0. change (0 mod 2) with 0.
    rewrite !swrap_small by (unfold in_i; lia). apply Z.lxor_0_r.
Qed.

(** A decoder that returns has read no more bytes than it was given. *)
(** A decoded number fits, and took at least one octet. *)
Lemma uvarint_dec_loop_some src : forall off num shift r v,
  in_u 64 num -> uvarint_dec_loop src off num shift = Some (r, Some v) -> off < r /\ in_u 64 v.
Proof.
  induction src as [| c src IH]; intros off num shift r v Hn; cbn [uvarint_dec_loop];
    [discriminate |].
  destruct (shift >=? 64); [discriminate |].
  assert (in_u 64 (Z.lor num (u64 (Z.shiftl (Z.land c 0x7f) shift)))) as Hl
    by (apply lor_range; [lia | exact Hn | now apply wrap_range]).
  destruct (negb _); intros H.
  - apply IH in H as [? ?]; [| exact Hl]. split; [lia | assumption].
  - injection H as <- <-. split; [lia | exact Hl].
Qed.

Lemma uvarint_dec_loop_none src : forall off num shift r,
  uvarint_dec_loop src off num shift = Some (r, None) -> r = 0.
Proof.
  induction src as [| c src IH]; intros off num shift r; cbn [uvarint_dec_loop];
    [intros [= <-]; reflexivity |].
  destruct (shift >=? 64); [discriminate |]. destruct (negb _); [apply IH | discriminate].
Qed.

Lemma uvarint_dec_loop_len src : forall off num shift r n,
  0 <= off -> uvarint_dec_loop src off num shift = Some (r, n) -> 0 <= r <= off + zlen src.
Proof.
  induction src as [| c src IH]; intros off num shift r n Ho; cbn [uvarint_dec_loop].
  - intros [= <- <-]. cbn. lia.
  - destruct (shift >=? 64); [discriminate |]. destruct (negb _); intros H.
    + apply IH in H; cbn [length]; lia.
    + injection H as <- <-. cbn [length]. lia.
Qed.

(** ** Properties *)

(** C29. Every [int64_t] survives the zig-zag varint encoding: encoded into a
    buffer of the size the header advertises for the type, and followed by any
    other bytes, it is decoded to itself, and the decoder consumes exactly the
    bytes the encoder reported. *)
Theorem varint_i64_roundtrip num rest :
  in_i 64 num ->
  exists n bs,
    rd_uvarint_enc_i64 (RD_UVARINT_ENC_SIZEOF 8) num = Some (n, bs) /\
    n = zlen bs /\ Forall is_byte bs /\
    rd_varint_dec_i64 (bs ++ rest) = Some (n, Some num).
Proof.
  intros H. pose proof (zigzag_range num H) as Hz.
  pose proof (uvarint_size_digits (zigzag num) ltac:(apply Hz)) as Hd.
  pose proof (ndigits_u64 _ _ Hd ltac:(apply Hz)).
  pose proof (uvarint_size_pos (zigzag num) ltac:(apply Hz)).
  do 2 eexists. split.
  { unfold rd_uvarint_enc_i64. rewrite zigzag_enc, uvarint_enc_fuel by
      (try assumption; vm_compute; congruence).
    change (RD_UVARINT_ENC_SIZEOF 8) with 10. ztest. reflexivity. }
  split; [now rewrite length_leb128 |]. split; [now apply leb128_is_byte |].
  unfold rd_varint_dec_i64. rewrite uvarint_dec_digits by exact Hz.
  unfold RD_UVARINT_DEC_FAILED, RD_UVARINT_UNDERFLOW, RD_UVARINT_OVERFLOW, SIZE_MAX.
  rewrite Z.gtb_ltb. ztest. cbn [orb]. now rewrite zigzag_dec_enc.
Qed.

Lemma varint_i64_roundtrip_witness :
  in_i 64 (-12345) /\
  exists n bs,
    rd_uvarint_enc_i64 (RD_UVARINT_ENC_SIZEOF 8) (-12345) = Some (n, bs) /\
    n = zlen bs /\ Forall is_byte bs /\
    rd_varint_dec_i64 (bs ++ [7; 7]) = Some (n, Some (-12345)).
Proof.
  assert (in_i 64 (-12345)) as H by (vm_compute; split; congruence).
  split; [exact H | exact (varint_i64_roundtrip (-12345) [7; 7] H)].
Defined.

(** The unsigned encoder emits exactly the base-128 digits of the number,
    least significant first and without padding; it fails, returning 0 with the
    digits that fit already stored, exactly when the buffer is too short, and
    never on a buffer of [RD_UVARINT_ENC_SIZEOF(uint64_t)] bytes. *)
Lemma uvarint_enc_leb128 num dstsize :
  in_u 64 num -> 0 <= dstsize ->
  let size := Z.of_nat (uvarint_size num) in
  let digits := leb128 (uvarint_size num) num in
  rd_uvarint_enc_u64 dstsize num =
    Some (if size <=? dstsize then (size, digits) else (0, ztake dstsize digits)) /\
  size <= RD_UVARINT_ENC_SIZEOF 8 /\
  (num = 0 -> size = RD_UVARINT_ENC_SIZE_0).
Proof.
  intros H Hs. cbv zeta. split; [now apply uvarint_enc_fuel |]. split; [| now intros ->].
  change (RD_UVARINT_ENC_SIZEOF 8) with 10.
  pose proof (ndigits_u64 _ _ (uvarint_size_digits num ltac:(apply H)) ltac:(apply H)).
  lia.
Qed.

Lemma uvarint_enc_leb128_witness :
  in_u 64 300 /\ rd_uvarint_enc_u64 1 300 = Some (0, [172]) /\
  rd_uvarint_enc_u64 10 300 = Some (2, [172; 2]).
Proof.
  assert (in_u 64 300) as H by (vm_compute; split; congruence).
  split; [exact H |].
  split; refine (eq_trans (proj1 (uvarint_enc_leb128 300 _ H _)) _);
    [lia | reflexivity | lia | reflexivity].
Defined.

(** The unsigned decoder inverts the encoder on any continuation of the
    encoding, and reports an underflow, storing nothing, on every strict prefix
    of it: a varint cut short by the end of its buffer is never misread. *)
Theorem uvarint_dec_prefix num n rest :
  in_u 64 num ->
  let digits := leb128 (uvarint_size num) num in
  rd_uvarint_dec (digits ++ rest) = Some (zlen digits, Some num) /\
  ((n < length digits)%nat -> rd_uvarint_dec (take n digits) = Some (0, None)).
Proof.
  intros H. cbv zeta. rewrite length_leb128. split; [now apply uvarint_dec_digits |].
  intros Hn. pose proof (uvarint_size_digits num ltac:(apply H)) as Hd.
  pose proof (ndigits_u64 _ _ Hd ltac:(apply H)).
  apply uvarint_dec_loop_prefix; try assumption; lia.
Qed.

Lemma uvarint_dec_prefix_witness :
  in_u 64 70000 /\ rd_uvarint_dec [240; 162; 4; 99] = Some (3, Some 70000) /\
  rd_uvarint_dec [240; 162] = Some (0, None).
Proof.
  assert (in_u 64 70000) as H by (vm_compute; split; congruence).
  split; [exact H |]. split.
  - exact (proj1 (uvarint_dec_prefix 70000 0 [99] H)).
  - refine (proj2 (uvarint_dec_prefix 70000 2 [] H) _). vm_compute. lia.
Defined.

(** [RD_UVARINT_OVERFLOW] is never true of a value the decoder returns from
    a buffer that fits in memory, although the remark on the decoder tells the
    caller to detect a varint too large for [uint64_t] with it: the ten-byte
    encoding of a 70-bit number is accepted and silently truncated. *)
Lemma uvarint_overflow_unreported src r n :
  zlen src <= SIZE_MAX -> rd_uvarint_dec src = Some (r, n) ->
  RD_UVARINT_OVERFLOW r = false /\
  rd_uvarint_dec (leb128 10 (2 ^ 70 - 1)) = Some (10, Some (2 ^ 64 - 1)).
Proof.
  intros Hs H. split; [| reflexivity].
  apply uvarint_dec_loop_len in H; [| lia].
  unfold RD_UVARINT_OVERFLOW. rewrite Z.gtb_ltb. apply Z.ltb_ge. lia.
Qed.

Lemma uvarint_overflow_unreported_witness :
  RD_UVARINT_OVERFLOW 1 = false /\
  rd_uvarint_dec (leb128 10 (2 ^ 70 - 1)) = Some (10, Some (2 ^ 64 - 1)).
Proof.
  apply (uvarint_overflow_unreported [5] 1 (Some 5)); [vm_compute; congruence | reflexivity].
Defined.
