(* ===== verification/RdBuf.v ===== *)
(** * Segmented byte buffers (src/cbits/hs_rdbuf.h, hs_rdbuf.c)

    [rd_buf_t]: a list of memory segments with a write position.  This file is
    the writing half: growth, writes, in-place updates, pushed memory, seeks,
    erasure.  The readers ([rd_slice_t]) are in file Slice. *)

From S2P Require Import Prelude.

(** ** State

    A pointer to a segment is the segment's index in the buffer's list. *)

Definition RD_SEGMENT_F_RDONLY : Z := 0x1.
Definition RD_SEGMENT_F_FREE : Z := 0x2.

(** [seg_p] is the memory itself, [seg_size] bytes of it; a segment made by a
    split owns the bytes from the split on.  [seg_free] identifies the free
    function, if any. *)
Record rd_segment := mk_segment {
  seg_p : bytes;
  seg_of : Z;
  seg_size : Z;
  seg_absof : Z;
  seg_free : option Z;
  seg_flags : Z }.

(** [rbuf_freed] is not a field of the C structure: it is the trace of the calls
    made to the segments' free functions.  The extra memory is only a length and
    a size, its bytes being those of the segments carved out of it. *)
Record rd_buf := mk_buf {
  rbuf_segments : list rd_segment;
  rbuf_segment_cnt : Z;
  rbuf_wpos : option nat;
  rbuf_len : Z;
  rbuf_erased : Z;
  rbuf_size : Z;
  rbuf_extra_len : Z;
  rbuf_extra_size : Z;
  rbuf_freed : list Z }.

(** [sizeof(rd_segment_t)] on the 64-bit platforms. *)
Definition SIZEOF_SEGMENT : Z := 64.

(** [rd_free] as a free function; callers' functions have other numbers. *)
Definition RD_FREE : Z := 0.

(** Field updates. *)
Definition seg_set_of (s : rd_segment) (v : Z) : rd_segment :=
  mk_segment (seg_p s) v (seg_size s) (seg_absof s) (seg_free s) (seg_flags s).
Definition seg_set_absof (s : rd_segment) (v : Z) : rd_segment :=
  mk_segment (seg_p s) (seg_of s) (seg_size s) v (seg_free s) (seg_flags s).
Definition seg_set_p (s : rd_segment) (v : bytes) : rd_segment :=
  mk_segment v (seg_of s) (seg_size s) (seg_absof s) (seg_free s) (seg_flags s).
Definition buf_set_segments (b : rd_buf) (v : list rd_segment) : rd_buf :=
  mk_buf v (rbuf_segment_cnt b) (rbuf_wpos b) (rbuf_len b) (rbuf_erased b)
    (rbuf_size b) (rbuf_extra_len b) (rbuf_extra_size b) (rbuf_freed b).
Definition buf_set_wpos (b : rd_buf) (v : option nat) : rd_buf :=
  mk_buf (rbuf_segments b) (rbuf_segment_cnt b) v (rbuf_len b) (rbuf_erased b)
    (rbuf_size b) (rbuf_extra_len b) (rbuf_extra_size b) (rbuf_freed b).
Definition buf_set_len (b : rd_buf) (v : Z) : rd_buf :=
  mk_buf (rbuf_segments b) (rbuf_segment_cnt b) (rbuf_wpos b) v (rbuf_erased b)
    (rbuf_size b) (rbuf_extra_len b) (rbuf_extra_size b) (rbuf_freed b).
Definition buf_set_erased (b : rd_buf) (v : Z) : rd_buf :=
  mk_buf (rbuf_segments b) (rbuf_segment_cnt b) (rbuf_wpos b) (rbuf_len b) v
    (rbuf_size b) (rbuf_extra_len b) (rbuf_extra_size b) (rbuf_freed b).
Definition buf_set_size (b : rd_buf) (v : Z) : rd_buf :=
  mk_buf (rbuf_segments b) (rbuf_segment_cnt b) (rbuf_wpos b) (rbuf_len b)
    (rbuf_erased b) v (rbuf_extra_len b) (rbuf_extra_size b) (rbuf_freed b).
Definition buf_set_extra_len (b : rd_buf) (v : Z) : rd_buf :=
  mk_buf (rbuf_segments b) (rbuf_segment_cnt b) (rbuf_wpos b) (rbuf_len b)
    (rbuf_erased b) (rbuf_size b) v (rbuf_extra_size b) (rbuf_freed b).

(** Apply [f] to the segment at index [i]; out of range there is no such
    segment and the list is unchanged. *)
Definition seg_alter (f : rd_segment -> rd_segment) (i : nat) (l : list rd_segment)
  : list rd_segment := alter f i l.

(** [memcpy] into [mem] at offset [off]. *)
Definition mem_write (mem : bytes) (off : Z) (data : bytes) : bytes :=
  ztake off mem ++ data ++ zdrop (off + zlen data) mem.

(** ** Accessors *)

Definition rd_buf_write_pos (b : rd_buf) : Z :=
  match rbuf_wpos b with
  | None => 0
  | Some w => match rbuf_segments b !! w with
              | Some seg => seg_absof seg + seg_of seg
              | None => 0
              end
  end.

(** [size_t] subtraction: wraps when the counters disagree. *)
Definition rd_buf_write_remains (b : rd_buf) : Z :=
  u64 (rbuf_size b - (rbuf_len b + rbuf_erased b)).

Definition rd_segment_is_rdonly (seg : rd_segment) : bool :=
  negb (Z.land (seg_flags seg) RD_SEGMENT_F_RDONLY =? 0).

Definition rd_segment_write_remains (seg : rd_segment) : Z :=
  if rd_segment_is_rdonly seg then 0 else seg_size seg - seg_of seg.

Definition rd_buf_len (b : rd_buf) : Z := rbuf_len b.

(** ** Segments *)

(** The payload pointer of a segment with a free function is never NULL. *)
Definition rd_segment_destroy (seg : rd_segment) : list Z :=
  match seg_free seg with Some f => [f] | None => [] end.

Definition rd_segment_init (mem : bytes) (size : Z) : rd_segment :=
  mk_segment mem 0 size 0 None 0.

(** The writable-segment scan of [rd_buf_get_writable0] over the segments from
    index [i] on: the last segment visited and the bytes it has room for. *)
Fixpoint writable_scan (segs : list rd_segment) (i : nat) : option (nat * Z) :=
  match segs with
  | [] => None
  | seg :: rest =>
      let len := rd_segment_write_remains seg in
      if len =? 0 then
        match writable_scan rest (S i) with
        | Some r => Some r
        | None => Some (i, 0)
        end
      else Some (i, len)
  end.

(** The buffer with [rbuf_wpos] moved, the contiguous room found, and the
    segment it is in ([segp]). *)
Definition rd_buf_get_writable0 (b : rd_buf) : rd_buf * Z * option nat :=
  match rbuf_wpos b with
  | None => (b, 0, None)
  | Some w =>
      match writable_scan (drop w (rbuf_segments b)) w with
      | None => (b, 0, None)
      | Some (i, len) =>
          let b := buf_set_wpos b (Some i) in
          if len =? 0 then (b, 0, Some i)
          else
            let fix_absof seg :=
              if (seg_of seg =? 0) && (seg_absof seg <? rbuf_len b)
              then seg_set_absof seg (rbuf_len b) else seg in
            (buf_set_segments b (seg_alter fix_absof i (rbuf_segments b)), len, Some i)
      end
  end.

Definition rd_buf_get_writable (b : rd_buf) : rd_buf * Z :=
  let '(b, len, _) := rd_buf_get_writable0 b in (b, len).

Definition rd_buf_append_segment (b : rd_buf) (seg : rd_segment) : rd_buf :=
  let seg := seg_set_absof seg (rbuf_len b) in
  let i := length (rbuf_segments b) in
  let b := mk_buf (rbuf_segments b ++ [seg]) (rbuf_segment_cnt b + 1) (rbuf_wpos b)
             (rbuf_len b + seg_of seg) (rbuf_erased b) (rbuf_size b + seg_size seg)
             (rbuf_extra_len b) (rbuf_extra_size b) (rbuf_freed b) in
  match rbuf_wpos b with
  | None => buf_set_wpos b (Some i)
  | Some _ => let '(b, _, _) := rd_buf_get_writable0 b in b
  end.

(** The allocation succeeds or not: the pointer itself is not modelled. *)
Definition extra_alloc (b : rd_buf) (size : Z) : option rd_buf :=
  let off := RD_ROUNDUP (rbuf_extra_len b) 8 in
  if off + size >? rbuf_extra_size b then None
  else Some (buf_set_extra_len b (off + size)).

Section Alloc.

(** The contents of freshly allocated memory, byte by byte. *)
Variable junk : Z -> Z.

Definition fresh_memory (size : Z) : bytes := map junk (seqZ 0 size).

(** The allocator does not fail ([rd_malloc] asserts that it did not). *)
Definition rd_buf_alloc_segment0 (b : rd_buf) (size : Z) : rd_buf * rd_segment :=
  match extra_alloc b (SIZEOF_SEGMENT + size) with
  | Some b => (b, rd_segment_init (fresh_memory size) size)
  | None =>
      match extra_alloc b SIZEOF_SEGMENT with
      | Some b =>
          let seg := rd_segment_init (fresh_memory size) size in
          (b, mk_segment (seg_p seg) (seg_of seg) (seg_size seg) (seg_absof seg)
                (if size >? 0 then Some RD_FREE else None) (seg_flags seg))
      | None =>
          let seg := rd_segment_init (fresh_memory size) size in
          (b, mk_segment (seg_p seg) (seg_of seg) (seg_size seg) (seg_absof seg)
                (seg_free seg) (Z.lor (seg_flags seg) RD_SEGMENT_F_FREE))
      end
  end.

(** The buffer with the new segment as its last; its index is the second
    component. *)
Definition rd_buf_alloc_segment (b : rd_buf) (min_size max_size : Z) : rd_buf * nat :=
  let max_size :=
    if negb (min_size =? max_size) || (max_size =? 0)
    then RD_MAX (SIZEOF_SEGMENT * 4) (RD_MAX (u64 (min_size * 2)) (rbuf_size b / 2))
    else max_size in
  let '(b, seg) := rd_buf_alloc_segment0 b max_size in
  (rd_buf_append_segment b seg, length (rbuf_segments b)).

Definition rd_buf_write_ensure_contig (b : rd_buf) (size : Z) : rd_buf :=
  let alloc :=
    let '(b, i) := rd_buf_alloc_segment b size size in buf_set_wpos b (Some i) in
  match rbuf_wpos b with
  | Some w =>
      match rbuf_segments b !! w with
      | Some seg => if rd_segment_write_remains seg >=? size then b else alloc
      | None => alloc
      end
  | None => alloc
  end.

(** The while loop.  One round makes the room that the next test asks for
    ([write_ensure_room]); fuel 2 lets that test be made. *)
Fixpoint write_ensure_loop (fuel : nat) (b : rd_buf) (min_size max_size : Z)
  : option rd_buf :=
  match fuel with
  | O => None
  | S fuel =>
      let remains := rd_buf_write_remains b in
      if remains <? min_size then
        let '(b, _) :=
          rd_buf_alloc_segment b (min_size - remains)
            (if max_size =? 0 then 0 else u64 (max_size - remains)) in
        write_ensure_loop fuel b min_size max_size
      else Some b
  end.

Definition rd_buf_write_ensure (b : rd_buf) (min_size max_size : Z) : option rd_buf :=
  write_ensure_loop 2 b min_size max_size.

(** ** Writing *)

(** The while loop of [rd_buf_write].  With no writable segment the C code
    dereferences NULL or, on a read-only one, loops for ever: [None].  A round
    that writes either ends the loop or fills a segment, so as many rounds as
    there are segments suffice ([write_loop_spec]). *)
Fixpoint write_loop (fuel : nat) (b : rd_buf) (payload : option bytes) (remains : Z)
  : option rd_buf :=
  if remains <=? 0 then Some b
  else
    match fuel with
    | O => None
    | S fuel =>
        let '(b, segremains, seg) := rd_buf_get_writable0 b in
        match seg with
        | None => None
        | Some i =>
            let wlen := RD_MIN remains segremains in
            let put s :=
              seg_set_of
                (match payload with
                 | Some src => seg_set_p s (mem_write (seg_p s) (seg_of s) (ztake wlen src))
                 | None => s
                 end) (seg_of s + wlen) in
            let b := buf_set_segments b (seg_alter put i (rbuf_segments b)) in
            let b := buf_set_len b (rbuf_len b + wlen) in
            write_loop fuel b (zdrop wlen <$> payload) (remains - wlen)
        end
    end.

(** The buffer and the returned write position. *)
Definition rd_buf_write (b : rd_buf) (payload : option bytes) (size : Z)
  : option (rd_buf * Z) :=
  let initial_absof := rbuf_len b in
  let* b := rd_buf_write_ensure b size 0 in
  let* b := write_loop (S (length (rbuf_segments b))) b payload size in
  Some (b, initial_absof).

(** ** Random access *)

(** The do-while scan of [rd_buf_get_segment_at_offset] over the segments from
    index [i]. *)
Fixpoint offset_scan (segs : list rd_segment) (i : nat) (absof : Z) : option nat :=
  match segs with
  | [] => None
  | seg :: rest =>
      if (absof >=? seg_absof seg) && (absof <? seg_absof seg + seg_of seg)
      then Some i else offset_scan rest (S i) absof
  end.

Definition rd_buf_get_segment_at_offset (b : rd_buf) (hint : option nat) (absof : Z)
  : option nat :=
  if absof >=? rbuf_len b then None
  else
    let start :=
      match hint with
      | Some h => match rbuf_segments b !! h with
                  | Some seg => if absof <? seg_absof seg then 0%nat else h
                  | None => 0%nat
                  end
      | None => 0%nat
      end in
    offset_scan (drop start (rbuf_segments b)) start absof.

(** The buffer shortened at the split and the new, unlinked, segment. *)
Definition rd_segment_split (b : rd_buf) (i : nat) (absof : Z)
  : option (rd_buf * rd_segment) :=
  let* _ := rd_assert (match rbuf_wpos b with Some w => Nat.eqb w i | None => false end) in
  let* seg := rbuf_segments b !! i in
  let* _ := rd_assert ((absof >=? seg_absof seg) && (absof <=? seg_absof seg + seg_of seg)) in
  let relof := absof - seg_absof seg in
  let '(b, n) := rd_buf_alloc_segment0 b 0 in
  let newseg := mk_segment (zdrop relof (seg_p seg)) (seg_of seg - relof)
                  (seg_size seg - relof) SIZE_MAX (seg_free n)
                  (Z.lor (seg_flags n) (seg_flags seg)) in
  let seg := mk_segment (ztake relof (seg_p seg)) relof relof (seg_absof seg)
               (seg_free seg) (seg_flags seg) in
  let b := buf_set_segments b (<[i := seg]> (rbuf_segments b)) in
  let b := buf_set_len b (rbuf_len b - seg_of newseg) in
  Some (buf_set_size b (rbuf_size b - seg_size newseg), newseg).

(** Push caller memory ([payload], [size] bytes of it) at the write position. *)
Definition rd_buf_push0 (b : rd_buf) (payload : bytes) (size : Z) (free_cb : option Z)
  (writable : bool) : option rd_buf :=
  let prev := match rbuf_wpos b with
              | Some w => match rbuf_segments b !! w with
                          | Some seg => Some (w, seg)
                          | None => None
                          end
              | None => None
              end in
  let* (b, tailseg) :=
    match prev with
    | Some (w, prevseg) =>
        if rd_segment_write_remains prevseg >? 0 then
          let* (b, t) := rd_segment_split b w (seg_absof prevseg + seg_of prevseg) in
          Some (b, Some t)
        else Some (b, None)
    | None => Some (b, None)
    end in
  let '(b, seg) := rd_buf_alloc_segment0 b 0 in
  let seg := mk_segment payload size size (seg_absof seg) free_cb
               (if writable then seg_flags seg
                else Z.lor (seg_flags seg) RD_SEGMENT_F_RDONLY) in
  let b := rd_buf_append_segment b seg in
  match tailseg with
  | Some t => Some (rd_buf_append_segment b t)
  | None => Some b
  end.

Definition rd_buf_push (b : rd_buf) (payload : bytes) (size : Z) (free_cb : option Z) :=
  rd_buf_push0 b payload size free_cb false.
Definition rd_buf_push_writable (b : rd_buf) (payload : bytes) (size : Z) (free_cb : option Z) :=
  rd_buf_push0 b payload size free_cb true.

End Alloc.

(** The number of bytes updated, and the segment. *)
Definition rd_segment_write_update (seg : rd_segment) (absof : Z) (payload : bytes)
  (size : Z) : option (rd_segment * Z) :=
  let relof := u64 (absof - seg_absof seg) in
  let* _ := rd_assert (relof <=? seg_of seg) in
  let wlen := RD_MIN size (seg_of seg - relof) in
  Some (seg_set_p seg (mem_write (seg_p seg) relof (ztake wlen payload)), wlen).

(** The for loop of [rd_buf_write_update] over the segments still ahead, and the
    number of bytes updated.  Walking off the list dereferences NULL. *)
Fixpoint write_update_loop (segs : list rd_segment) (len absof : Z) (psrc : bytes)
  (off size : Z) : option (list rd_segment * Z) :=
  if off <? size then
    match segs with
    | [] => None
    | seg :: rest =>
        let* _ := rd_assert (seg_absof seg <=? len) in
        let* (seg, wlen) :=
          rd_segment_write_update seg (absof + off) (zdrop off psrc) (size - off) in
        let* (rest, off) := write_update_loop rest len absof psrc (off + wlen) size in
        Some (seg :: rest, off)
    end
  else Some (segs, off).

Definition rd_buf_write_update (b : rd_buf) (absof : Z) (payload : bytes) (size : Z)
  : option (rd_buf * Z) :=
  let* i := rd_buf_get_segment_at_offset b (rbuf_wpos b) absof in
  let* (segs, off) :=
    write_update_loop (drop i (rbuf_segments b)) (rbuf_len b) absof payload 0 size in
  Some (buf_set_segments b (take i (rbuf_segments b) ++ segs), off).

(** ** Removal *)

(** Unlinking the segment at index [i] moves the later ones down. *)
Definition rd_buf_destroy_segment (b : rd_buf) (i : nat) : option rd_buf :=
  let* seg := rbuf_segments b !! i in
  let* _ := rd_assert ((rbuf_segment_cnt b >? 0) && (rbuf_len b >=? seg_of seg)
                       && (rbuf_size b >=? seg_size seg)) in
  let wpos := match rbuf_wpos b with
              | Some w => if Nat.eqb w i then None
                          else if Nat.ltb i w then Some (Nat.pred w) else Some w
              | None => None
              end in
  Some (mk_buf (delete i (rbuf_segments b)) (rbuf_segment_cnt b - 1) wpos
          (rbuf_len b - seg_of seg) (rbuf_erased b) (rbuf_size b - seg_size seg)
          (rbuf_extra_len b) (rbuf_extra_size b)
          (rbuf_freed b ++ rd_segment_destroy seg)).

(** Destroy the [n] last segments, last first. *)
Fixpoint destroy_tail (n : nat) (b : rd_buf) : option rd_buf :=
  match n with
  | O => Some b
  | S n => let* b := rd_buf_destroy_segment b (Nat.pred (length (rbuf_segments b))) in
           destroy_tail n b
  end.

(** The return value is 0 or -1. *)
Definition rd_buf_write_seek (b : rd_buf) (absof : Z) : option (rd_buf * Z) :=
  match rd_buf_get_segment_at_offset b (rbuf_wpos b) absof with
  | None => Some (b, -1)
  | Some i =>
      let* seg := rbuf_segments b !! i in
      let relof := absof - seg_absof seg in
      if relof >? seg_of seg then Some (b, -1)
      else
        let* b := destroy_tail (length (rbuf_segments b) - S i) b in
        let b := buf_set_segments b (<[i := seg_set_of seg relof]> (rbuf_segments b)) in
        let b := buf_set_wpos b (Some i) in
        let b := buf_set_len b (seg_absof seg + relof) in
        let* _ := rd_assert (rbuf_len b =? absof) in
        Some (b, 0)
  end.

(** The second loop of [rd_buf_erase]: the offsets of the remaining segments. *)
Fixpoint erase_shift (segs : list rd_segment) (off : Z) : option (list rd_segment) :=
  match segs with
  | [] => Some []
  | seg :: rest =>
      let* _ := rd_assert (seg_absof seg >=? off) in
      let* rest := erase_shift rest off in
      Some (seg_set_absof seg (seg_absof seg - off) :: rest)
  end.

(** The first loop of [rd_buf_erase] at the segment of index [i], [n] segments
    being left from it on.  [RD_BUG] on a read-only segment aborts. The result
    is the buffer, the bytes erased and the index the scan goes on from. *)
Fixpoint erase_loop (n : nat) (b : rd_buf) (i : nat) (absof off size : Z)
  : option (rd_buf * Z * nat) :=
  match n with
  | O => Some (b, off, i)
  | S n =>
      if off <? size then
        let* seg := rbuf_segments b !! i in
        let rof := u64 (absof + off - seg_absof seg) in
        let eraseremains := size - off in
        let toerase := RD_MIN (u64 (seg_of seg - rof)) eraseremains in
        let seg := seg_set_absof seg (seg_absof seg - off) in
        let b := buf_set_segments b (<[i := seg]> (rbuf_segments b)) in
        if toerase =? 0 then erase_loop n b (S i) absof off size
        else
          let* _ := rd_assert (negb (rd_segment_is_rdonly seg)) in
          let mem := ztake rof (seg_p seg)
                     ++ ztake (seg_of seg - (rof + toerase)) (zdrop (rof + toerase) (seg_p seg))
                     ++ zdrop (seg_of seg - toerase) (seg_p seg) in
          let seg := seg_set_of (seg_set_p seg mem) (seg_of seg - toerase) in
          let b := buf_set_segments b (<[i := seg]> (rbuf_segments b)) in
          let b := buf_set_len b (rbuf_len b - toerase) in
          if seg_of seg =? 0 then
            let* b := rd_buf_destroy_segment b i in
            erase_loop n b i absof (off + toerase) size
          else erase_loop n b (S i) absof (off + toerase) size
      else Some (b, off, i)
  end.

(** The buffer and the number of bytes erased.  Without a segment at [absof]
    neither loop runs. *)
Definition rd_buf_erase (b : rd_buf) (absof size : Z) : option (rd_buf * Z) :=
  match rd_buf_get_segment_at_offset b None absof with
  | None => Some (b, 0)
  | Some i =>
      let* (b, off, j) := erase_loop (length (rbuf_segments b) - i) b i absof 0 size in
      (* [next] is NULL, and nothing is shifted, when the first loop did not run. *)
      let* segs := if 0 <? size then erase_shift (drop j (rbuf_segments b)) off
                   else Some (drop j (rbuf_segments b)) in
      let b := buf_set_segments b (take j (rbuf_segments b) ++ segs) in
      Some (buf_set_erased b (rbuf_erased b + off), off)
  end.

(** ** Vectors and lifecycle *)

(** The segments of the I/O vector (index and length) and their total length. *)
Fixpoint write_iov_loop (segs : list rd_segment) (i : nat) (iov : list (nat * Z))
  (sum iov_max size_max : Z) : list (nat * Z) * Z :=
  match segs with
  | [] => (iov, sum)
  | seg :: rest =>
      if (zlen iov <? iov_max) && (sum <? size_max) then
        let len := rd_segment_write_remains seg in
        if len =? 0 then write_iov_loop rest (S i) iov sum iov_max size_max
        else write_iov_loop rest (S i) (iov ++ [(i, len)]) (sum + len) iov_max size_max
      else (iov, sum)
  end.

Definition rd_buf_get_write_iov (b : rd_buf) (iov_max size_max : Z) : list (nat * Z) * Z :=
  match rbuf_wpos b with
  | None => ([], 0)
  | Some w => write_iov_loop (drop w (rbuf_segments b)) w [] 0 iov_max size_max
  end.

Definition rd_buf_init (fixed_seg_cnt buf_size : Z) : option rd_buf :=
  let b := mk_buf [] 0 None 0 0 0 0 0 [] in
  if fixed_seg_cnt =? 0 then
    let* _ := rd_assert (buf_size =? 0) in Some b
  else
    let totalloc := RD_ROUNDUP SIZEOF_SEGMENT 8 * fixed_seg_cnt + buf_size in
    Some (mk_buf [] 0 None 0 0 0 0 totalloc []).

(** The calls to free functions that destroying the buffer makes, in order. *)
Definition rd_buf_destroy (b : rd_buf) : list Z :=
  rbuf_freed b ++ concat (map rd_segment_destroy (rbuf_segments b)).
