(* ===== verification/RdBufFacts.v ===== *)
(** * Properties of segmented buffers

    The buffer of file RdBuf refines a byte string: its contents are what was
    written, in order, whatever the segments; the counters and offsets of the
    structure agree with the segments; and no write runs out of room. *)

From S2P Require Import Prelude RdBuf.

(** ** The contents of a buffer

    What the buffer promises to its users is the byte string written so far;
    every property below is stated of it. *)

Definition payload (s : rd_segment) : bytes := ztake (seg_of s) (seg_p s).
Definition content (l : list rd_segment) : bytes := concat (map payload l).
Definition rd_buf_content (b : rd_buf) : bytes := content (rbuf_segments b).

Definition sum_of (l : list rd_segment) : Z := foldr (fun s a => seg_of s + a) 0 l.
Definition sum_size (l : list rd_segment) : Z := foldr (fun s a => seg_size s + a) 0 l.
Definition room (l : list rd_segment) : Z :=
  foldr (fun s a => rd_segment_write_remains s + a) 0 l.

(** ** The invariant *)

Definition seg_ok (s : rd_segment) : Prop :=
  0 <= seg_of s <= seg_size s /\ zlen (seg_p s) = seg_size s.

(** The segments up to the write position lie at consecutive offsets. *)
Fixpoint placed (p : Z) (l : list rd_segment) : Prop :=
  match l with
  | [] => True
  | s :: l => seg_absof s = p /\ placed (p + seg_of s) l
  end.

(** A segment allocated ahead of the write position: empty, writable, at an
    offset that may be stale. *)
Definition ahead (len : Z) (s : rd_segment) : Prop :=
  seg_of s = 0 /\ rd_segment_is_rdonly s = false /\ 0 < seg_size s /\ 0 <= seg_absof s <= len.

(** The segments before the write position, the one at it, those after it. *)
Record shape (l1 : list rd_segment) (s : rd_segment) (l2 : list rd_segment) (len : Z)
  : Prop := {
  sh_ok : Forall seg_ok (l1 ++ s :: l2);
  sh_placed : placed 0 (l1 ++ [s]);
  sh_ahead : Forall (ahead len) l2;
  sh_len : len = sum_of (l1 ++ [s]) }.

(** The bytes the counters say can be written can be written from the write
    position on, and the subtraction that computes them does not wrap. *)
Record counters (b : rd_buf) (w : nat) : Prop := {
  ct_cnt : rbuf_segment_cnt b = zlen (rbuf_segments b);
  ct_size : rbuf_size b = sum_size (rbuf_segments b);
  ct_max : rbuf_size b < 2 ^ 64;
  ct_erased : 0 <= rbuf_erased b;
  ct_remains : 0 <= rbuf_size b - (rbuf_len b + rbuf_erased b) <= room (drop w (rbuf_segments b)) }.

Definition wf (b : rd_buf) : Prop :=
  (rbuf_segments b = [] /\ rbuf_wpos b = None /\ rbuf_len b = 0 /\ rbuf_erased b = 0 /\
   rbuf_size b = 0 /\ rbuf_segment_cnt b = 0) \/
  (exists l1 s l2, rbuf_segments b = l1 ++ s :: l2 /\ rbuf_wpos b = Some (length l1) /\
     shape l1 s l2 (rbuf_len b) /\ counters b (length l1)).

(** ** Lemmas on segment lists *)

Lemma sum_of_cons s l : sum_of (s :: l) = seg_of s + sum_of l.
Proof. reflexivity. Qed.

Lemma sum_size_cons s l : sum_size (s :: l) = seg_size s + sum_size l.
Proof. reflexivity. Qed.

Lemma room_cons s l : room (s :: l) = rd_segment_write_remains s + room l.
Proof. reflexivity. Qed.

Lemma room_set_absof s v l : room (seg_set_absof s v :: l) = room (s :: l).
Proof. reflexivity. Qed.

Lemma sum_of_app l1 l2 : sum_of (l1 ++ l2) = sum_of l1 + sum_of l2.
Proof. unfold sum_of. induction l1; cbn; lia. Qed.

Lemma sum_size_app l1 l2 : sum_size (l1 ++ l2) = sum_size l1 + sum_size l2.
Proof. unfold sum_size. induction l1; cbn; lia. Qed.

Lemma room_app l1 l2 : room (l1 ++ l2) = room l1 + room l2.
Proof. unfold room. induction l1; cbn; lia. Qed.

Lemma segs_nil : sum_of [] = 0 /\ sum_size [] = 0 /\ room [] = 0.
Proof. easy. Qed.

Lemma content_app l1 l2 : content (l1 ++ l2) = content l1 ++ content l2.
Proof. unfold content. now rewrite map_app, concat_app. Qed.

Lemma content_cons s l : content (s :: l) = payload s ++ content l.
Proof. reflexivity. Qed.

Lemma placed_app p l1 l2 : placed p (l1 ++ l2) <-> placed p l1 /\ placed (p + sum_of l1) l2.
Proof.
  revert p; induction l1 as [| s l1 IH]; intros p; cbn [placed app sum_of foldr].
  - rewrite Z.add_0_r. tauto.
  - change (foldr _ _ l1) with (sum_of l1). rewrite IH, Z.add_assoc. tauto.
Qed.

#[export] Hint Rewrite sum_of_cons sum_size_cons room_cons sum_of_app sum_size_app
  room_app content_app content_cons : zlist.

Lemma payload_len s : seg_ok s -> zlen (payload s) = seg_of s.
Proof. intros [? ?]. unfold payload. rewrite zlen_take. lia. Qed.

Lemma content_len l : Forall seg_ok l -> zlen (content l) = sum_of l.
Proof.
  induction 1 as [| s l Hs Hl IH]; [reflexivity |].
  rewrite content_cons, zlen_app, IH, payload_len by exact Hs. reflexivity.
Qed.

Lemma ahead_content len l : Forall (ahead len) l -> content l = [] /\ sum_of l = 0.
Proof.
  induction 1 as [| s l (Hs & _) Hl [IH1 IH2]]; [easy |].
  rewrite content_cons, IH1, sum_of_cons, Hs. unfold payload. rewrite Hs.
  split; [now rewrite ztake_nonpos | lia].
Qed.

Lemma ahead_mono len len' l : len <= len' -> Forall (ahead len) l -> Forall (ahead len') l.
Proof.
  intros H Hl. eapply Forall_impl; [| exact Hl]. unfold ahead.
  intros s (? & ? & ? & ?). repeat split; (assumption || lia).
Qed.

Lemma sum_of_nonneg l : Forall seg_ok l -> 0 <= sum_of l.
Proof. intros H. rewrite <- content_len by exact H. lia. Qed.

Lemma remains_ok s : seg_ok s -> 0 <= rd_segment_write_remains s <= seg_size s - seg_of s.
Proof.
  intros [? ?]. unfold rd_segment_write_remains. destruct (rd_segment_is_rdonly s); lia.
Qed.

Lemma remains_ahead len s : ahead len s -> 0 < rd_segment_write_remains s.
Proof. intros (? & E & ?). unfold rd_segment_write_remains. rewrite E. lia. Qed.

Lemma sum_slack l : Forall seg_ok l -> sum_of l <= sum_size l.
Proof.
  induction 1 as [| s l [? ?] ? IH]; [easy |]. rewrite sum_of_cons, sum_size_cons. lia.
Qed.

Lemma room_slack l : Forall seg_ok l -> room l <= sum_size l - sum_of l.
Proof.
  induction 1 as [| s l Hs ? IH]; [easy |]. rewrite sum_of_cons, sum_size_cons, room_cons.
  pose proof (remains_ok s Hs). lia.
Qed.

Lemma room_nonneg l : Forall seg_ok l -> 0 <= room l.
Proof.
  induction 1 as [| s l Hs Hl IH]; [easy |]. rewrite room_cons. pose proof (remains_ok s Hs). lia.
Qed.

Lemma mem_write_len mem off data :
  0 <= off -> off + zlen data <= zlen mem -> zlen (mem_write mem off data) = zlen mem.
Proof. intros. unfold mem_write. zlen_lia. Qed.

Lemma alter_mid (f : rd_segment -> rd_segment) l1 s l2 :
  seg_alter f (length l1) (l1 ++ s :: l2) = l1 ++ f s :: l2.
Proof.
  unfold seg_alter. rewrite alter_app_r_alt by lia.
  now rewrite Nat.sub_diag.
Qed.

Lemma lookup_mid (l1 : list rd_segment) s l2 : (l1 ++ s :: l2) !! length l1 = Some s.
Proof. now apply list_lookup_middle. Qed.

Lemma insert_mid (l1 : list rd_segment) s s' l2 :
  <[length l1 := s']> (l1 ++ s :: l2) = l1 ++ s' :: l2.
Proof. now rewrite insert_app_r_alt, Nat.sub_diag by lia. Qed.

Lemma drop_mid (l1 l2 : list rd_segment) : drop (length l1) (l1 ++ l2) = l2.
Proof. now rewrite drop_app_length. Qed.

Lemma shape_ok_parts l1 s l2 len :
  shape l1 s l2 len -> Forall seg_ok l1 /\ seg_ok s /\ Forall seg_ok l2.
Proof. intros H. pose proof (sh_ok _ _ _ _ H) as Ho.
  apply Forall_app in Ho as [? Ho]. apply Forall_cons_iff in Ho as [? ?]. auto. Qed.

Lemma shape_absof l1 s l2 len : shape l1 s l2 len -> seg_absof s = sum_of l1.
Proof. intros H. pose proof (sh_placed _ _ _ _ H) as Hp.
  apply placed_app in Hp as [_ [Hp _]]. lia. Qed.

Lemma shape_len l1 s l2 len : shape l1 s l2 len -> len = sum_of l1 + seg_of s.
Proof. intros H. rewrite (sh_len _ _ _ _ H), sum_of_app. cbn. lia. Qed.

Lemma shape_step l1 s s2 l2 len :
  shape l1 s (s2 :: l2) len ->
  shape (l1 ++ [s]) (seg_set_absof s2 len) l2 len /\ 0 < rd_segment_write_remains s2.
Proof.
  intros H. destruct (shape_ok_parts _ _ _ _ H) as (H1 & Hs & H2).
  apply Forall_cons_iff in H2 as [Hs2 H2].
  pose proof (sh_ahead _ _ _ _ H) as Ha. apply Forall_cons_iff in Ha as [Ha2 Ha].
  split; [| eapply remains_ahead; exact Ha2]. constructor.
  - rewrite <- app_assoc. repeat (apply Forall_app; split); auto.
  - apply placed_app. split; [apply (sh_placed _ _ _ _ H) |].
    cbn. rewrite (sh_len _ _ _ _ H). easy.
  - exact Ha.
  - rewrite sum_of_app, <- (sh_len _ _ _ _ H). cbn.
    destruct Ha2 as (-> & _). lia.
Qed.

(** ** The writable-segment scan

    The write position stays where it is when it has room, moves to the next
    segment when that is one allocated ahead, and there is no third case but a
    buffer without room. *)

Lemma fix_absof_id (s : rd_segment) len :
  (seg_of s = 0 -> seg_absof s = len) ->
  (if (seg_of s =? 0) && (seg_absof s <? len) then seg_set_absof s len else s) = s.
Proof.
  intros H. destruct (Z.eqb_spec (seg_of s) 0); [| reflexivity].
  rewrite H by assumption. now rewrite Z.ltb_irrefl.
Qed.

Lemma fix_absof_ahead (s : rd_segment) len :
  ahead len s ->
  (if (seg_of s =? 0) && (seg_absof s <? len) then seg_set_absof s len else s)
  = seg_set_absof s len.
Proof.
  intros (H0 & _ & _ & Ha). rewrite H0. cbn [Z.eqb andb].
  destruct (Z.ltb_spec (seg_absof s) len); [reflexivity |].
  replace len with (seg_absof s) by lia. now destruct s.
Qed.

Section Scan.

Variables (cnt len er sz el es : Z) (fr : list Z).

(** The buffer with its write position at the middle segment. *)
Definition at_seg (l1 : list rd_segment) (s : rd_segment) (l2 : list rd_segment) : rd_buf :=
  mk_buf (l1 ++ s :: l2) cnt (Some (length l1)) len er sz el es fr.

Lemma get_writable0_here l1 s l2 :
  shape l1 s l2 len -> 0 < rd_segment_write_remains s ->
  rd_buf_get_writable0 (at_seg l1 s l2) =
  (at_seg l1 s l2, rd_segment_write_remains s, Some (length l1)).
Proof.
  intros H Hr. unfold rd_buf_get_writable0, at_seg.
  cbn [rbuf_wpos rbuf_segments]. rewrite drop_mid. cbn [writable_scan].
  ztest. cbn [buf_set_wpos rbuf_segments rbuf_len]. ztest.
  rewrite alter_mid, fix_absof_id; [reflexivity |].
  intros E. rewrite (shape_absof _ _ _ _ H), (shape_len _ _ _ _ H). lia.
Qed.

Lemma get_writable0_full l1 s :
  rd_segment_write_remains s = 0 ->
  rd_buf_get_writable0 (at_seg l1 s []) = (at_seg l1 s [], 0, Some (length l1)).
Proof.
  intros Hr. unfold rd_buf_get_writable0, at_seg.
  cbn [rbuf_wpos rbuf_segments]. rewrite drop_mid. cbn [writable_scan].
  rewrite Hr. reflexivity.
Qed.

Lemma get_writable0_next l1 s s2 l2 :
  shape l1 s (s2 :: l2) len -> rd_segment_write_remains s = 0 ->
  rd_buf_get_writable0 (at_seg l1 s (s2 :: l2)) =
  (at_seg (l1 ++ [s]) (seg_set_absof s2 len) l2, rd_segment_write_remains s2,
   Some (length (l1 ++ [s]))).
Proof.
  intros H Hr. destruct (shape_step _ _ _ _ _ H) as [_ Hp].
  pose proof (sh_ahead _ _ _ _ H) as Ha. apply Forall_cons_iff in Ha as [Ha _].
  assert (length (l1 ++ [s]) = S (length l1)) as El by (rewrite length_app; cbn; lia).
  unfold rd_buf_get_writable0, at_seg.
  cbn [rbuf_wpos rbuf_segments]. rewrite drop_mid. cbn [writable_scan].
  rewrite Hr. change (0 =? 0) with true. cbv iota. ztest.
  cbn [buf_set_wpos rbuf_segments rbuf_len]. ztest.
  rewrite <- El. replace (l1 ++ s :: s2 :: l2) with ((l1 ++ [s]) ++ s2 :: l2)
    by now rewrite <- app_assoc.
  rewrite alter_mid, fix_absof_ahead by exact Ha. reflexivity.
Qed.

End Scan.

(** ** The write loop *)

Definition put (p : option bytes) (wlen : Z) (s : rd_segment) : rd_segment :=
  seg_set_of
    (match p with
     | Some src => seg_set_p s (mem_write (seg_p s) (seg_of s) (ztake wlen src))
     | None => s
     end) (seg_of s + wlen).

Definition put_data (p : option bytes) (wlen : Z) (s : rd_segment) : bytes :=
  match p with
  | Some src => ztake wlen src
  | None => ztake wlen (zdrop (seg_of s) (seg_p s))
  end.

(** A source, if given, has the bytes asked for. *)
Definition source_ok (p : option bytes) (n : Z) : Prop :=
  match p with Some src => zlen src = n | None => True end.

Lemma source_ok_drop p n w :
  source_ok p n -> 0 <= w <= n -> source_ok (zdrop w <$> p) (n - w).
Proof. destruct p; cbn; [intros; zlen_lia | easy]. Qed.

Lemma put_spec p wlen n s :
  seg_ok s -> source_ok p n -> 0 <= wlen <= n -> wlen <= rd_segment_write_remains s ->
  seg_ok (put p wlen s) /\ payload (put p wlen s) = payload s ++ put_data p wlen s /\
  rd_segment_write_remains (put p wlen s) = rd_segment_write_remains s - wlen /\
  zlen (put_data p wlen s) = wlen.
Proof.
  intros Hs Hp Hn Hw. pose proof (remains_ok s Hs). destruct Hs as [Ho Hl].
  assert (zlen (put_data p wlen s) = wlen) as Hd by (destruct p; cbn in *; zlen_lia).
  assert (rd_segment_write_remains (put p wlen s) = rd_segment_write_remains s - wlen) as Hr.
  { destruct p; revert Hw; unfold rd_segment_write_remains, put, rd_segment_is_rdonly;
      cbn; destruct (negb _); lia. }
  assert (seg_p (put p wlen s) =
          match p with Some src => mem_write (seg_p s) (seg_of s) (ztake wlen src)
                     | None => seg_p s end) as Ep by now destruct p.
  assert (seg_of (put p wlen s) = seg_of s + wlen) as Eo by now destruct p.
  assert (seg_size (put p wlen s) = seg_size s) as Es by now destruct p.
  repeat split; rewrite ?Eo, ?Es, ?Ep; try lia.
  - destruct p as [src |]; [| lia]. cbn [put_data] in Hd. rewrite mem_write_len; lia.
  - unfold payload. rewrite Eo, Ep. destruct p as [src |]; cbn [put_data source_ok] in *.
    + unfold mem_write. rewrite ztake_app, (ztake_all (seg_of s + wlen)) by zlen_lia. f_equal.
      rewrite ztake_app, (ztake_all _ (ztake wlen src)) by zlen_lia.
      rewrite (ztake_nonpos _ (zdrop _ _)) by zlen_lia. apply app_nil_r.
    + apply ztake_add; lia.
Qed.

Lemma shape_put p wlen n l1 s l2 len :
  shape l1 s l2 len -> source_ok p n -> 0 <= wlen <= n ->
  wlen <= rd_segment_write_remains s ->
  shape l1 (put p wlen s) l2 (len + wlen).
Proof.
  intros H Hp Hn Hw. destruct (shape_ok_parts _ _ _ _ H) as (H1 & Hs & H2).
  destruct (put_spec p wlen n s Hs Hp Hn Hw) as (Hok & _).
  assert (seg_absof (put p wlen s) = seg_absof s) as Ea by now destruct p.
  assert (seg_of (put p wlen s) = seg_of s + wlen) as Eo by now destruct p.
  pose proof (shape_absof _ _ _ _ H). pose proof (shape_len _ _ _ _ H).
  constructor.
  - apply Forall_app; split; [assumption |]. now apply Forall_cons_iff.
  - pose proof (sh_placed _ _ _ _ H) as Hpl. apply placed_app in Hpl as [Hpl _].
    apply placed_app. split; [exact Hpl |]. split; [lia | exact I].
  - eapply ahead_mono; [| apply (sh_ahead _ _ _ _ H)]. lia.
  - rewrite sum_of_app, sum_of_cons, Eo. change (sum_of []) with 0. lia.
Qed.

Section WriteLoop.

Variables (cnt er sz el es : Z) (fr : list Z).

Abbreviation at_ len l1 s l2 := (at_seg cnt len er sz el es fr l1 s l2).

(** What a write of [rem] bytes leaves behind. *)
Definition write_post (len : Z) (l1 : list rd_segment) (s : rd_segment)
  (l2 : list rd_segment) (p : option bytes) (rem : Z) (r : option rd_buf) : Prop :=
  exists d l1' s' l2',
    r = Some (at_ (len + rem) l1' s' l2') /\
    shape l1' s' l2' (len + rem) /\
    content (l1' ++ s' :: l2') = content (l1 ++ s :: l2) ++ d /\
    zlen d = rem /\ (forall src, p = Some src -> d = src) /\
    sum_size (l1' ++ s' :: l2') = sum_size (l1 ++ s :: l2) /\
    length (l1' ++ s' :: l2') = length (l1 ++ s :: l2) /\
    room (s' :: l2') = room (s :: l2) - rem /\
    exists k, l2' = drop k l2.

Lemma write_loop_zero fuel len l1 s l2 p :
  shape l1 s l2 len -> source_ok p 0 ->
  write_post len l1 s l2 p 0 (write_loop fuel (at_ len l1 s l2) p 0).
Proof.
  intros H Hp. exists [], l1, s, l2. rewrite !Z.add_0_r, app_nil_r, Z.sub_0_r.
  repeat split; try easy.
  - destruct fuel; reflexivity.
  - apply H.
  - apply H.
  - apply H.
  - apply H.
  - intros src ->. cbn in Hp. destruct src; [reflexivity | cbn in Hp; lia].
  - now exists 0%nat.
Qed.

(** Without room at the write position the loop starts at the next segment. *)
Lemma write_loop_skip fuel len l1 s s2 l2 p rem :
  shape l1 s (s2 :: l2) len -> rd_segment_write_remains s = 0 ->
  write_loop fuel (at_ len l1 s (s2 :: l2)) p rem =
  if rem <=? 0 then Some (at_ len l1 s (s2 :: l2))
  else write_loop fuel (at_ len (l1 ++ [s]) (seg_set_absof s2 len) l2) p rem.
Proof.
  intros H Hr. destruct (shape_step _ _ _ _ _ H) as [H' Hp].
  destruct fuel as [| fuel]; cbn [write_loop]; destruct (rem <=? 0) eqn:?; try reflexivity.
  rewrite get_writable0_next by assumption.
  rewrite get_writable0_here by assumption. reflexivity.
Qed.

(** One round at a segment with room. *)
Lemma write_loop_round fuel len l1 s l2 p rem :
  shape l1 s l2 len -> 0 < rem -> 0 < rd_segment_write_remains s ->
  let wlen := RD_MIN rem (rd_segment_write_remains s) in
  write_loop (S fuel) (at_ len l1 s l2) p rem =
  write_loop fuel (at_ (len + wlen) l1 (put p wlen s) l2) (zdrop wlen <$> p) (rem - wlen).
Proof.
  intros H Hrem Hr. cbn [write_loop]. ztest. rewrite get_writable0_here by assumption.
  cbv beta iota zeta. unfold at_seg.
  cbn [buf_set_segments buf_set_len rbuf_segments rbuf_len].
  now rewrite alter_mid.
Qed.

Lemma write_post_step len l1 s l2 p wlen rem r :
  shape l1 s l2 len -> source_ok p rem -> 0 <= wlen <= rem ->
  wlen <= rd_segment_write_remains s -> content l2 = [] ->
  write_post (len + wlen) l1 (put p wlen s) l2 (zdrop wlen <$> p) (rem - wlen) r ->
  write_post len l1 s l2 p rem r.
Proof.
  intros H Hp Hn Hw He (d & l1' & s' & l2' & -> & Hs & Hc & Hd & Hsrc & Hsz & Hln & Hroom & Hk).
  destruct (shape_ok_parts _ _ _ _ H) as (_ & Hsok & _).
  destruct (put_spec p wlen rem s Hsok Hp Hn Hw) as (_ & Hpay & Hrm & Hpd).
  exists (put_data p wlen s ++ d), l1', s', l2'.
  replace (len + wlen + (rem - wlen)) with (len + rem) in * by lia.
  assert (seg_size (put p wlen s) = seg_size s) as Es by now destruct p.
  split; [reflexivity |]. split; [exact Hs |].
  split. { rewrite Hc, !content_app, !content_cons, Hpay, He, !app_nil_r, !app_assoc.
           reflexivity. }
  split; [rewrite zlen_app; lia |]. split.
  { intros src ->. rewrite (Hsrc (zdrop wlen src) eq_refl). apply ztake_drop. }
  split. { rewrite Hsz, !sum_size_app, !sum_size_cons. lia. }
  split. { rewrite Hln, !length_app. reflexivity. }
  split; [rewrite Hroom, !room_cons; lia | exact Hk].
Qed.

Lemma write_post_shift len l1 s s2 l2 p rem r :
  rd_segment_write_remains s = 0 -> seg_of s2 = 0 ->
  write_post len (l1 ++ [s]) (seg_set_absof s2 len) l2 p rem r ->
  write_post len l1 s (s2 :: l2) p rem r.
Proof.
  intros Hr Ho (d & l1' & s' & l2' & -> & Hs & Hc & Hd & Hsrc & Hsz & Hln & Hroom & k & Hk).
  exists d, l1', s', l2'. split; [reflexivity |]. split; [exact Hs |].
  rewrite <- (app_assoc l1 [s]) in Hc, Hsz, Hln. cbn [app] in Hc, Hsz, Hln.
  split. { rewrite Hc, !content_app, !content_cons. reflexivity. }
  split; [exact Hd |]. split; [exact Hsrc |].
  split. { rewrite Hsz, !sum_size_app, !sum_size_cons. reflexivity. }
  split. { rewrite Hln, !length_app. reflexivity. }
  split; [rewrite Hroom, !room_cons, Hr; reflexivity | now exists (S k)].
Qed.

Lemma write_loop_spec l2 : forall l1 s len p rem fuel,
  shape l1 s l2 len -> source_ok p rem -> 0 <= rem <= room (s :: l2) ->
  (length l2 < fuel)%nat ->
  write_post len l1 s l2 p rem (write_loop fuel (at_ len l1 s l2) p rem).
Proof.
  induction l2 as [| s2 l2 IH]; intros l1 s len p rem [| fuel] H Hp Hrem Hf; try lia;
    (destruct (Z.eq_dec rem 0) as [-> | Hnz]; [now apply write_loop_zero |]);
    rewrite room_cons in Hrem;
    destruct (shape_ok_parts _ _ _ _ H) as (_ & Hs & Hok2);
    pose proof (remains_ok s Hs);
    destruct (ahead_content _ _ (sh_ahead _ _ _ _ H)) as [He _].
  - (* last segment: it has the room *)
    change (room []) with 0 in Hrem.
    assert (RD_MIN rem (rd_segment_write_remains s) = rem) as Em
      by (rewrite RD_MIN_min; lia).
    rewrite write_loop_round by (assumption || lia). cbv zeta. rewrite Em.
    apply (write_post_step len l1 s [] p rem rem); try (assumption || lia).
    rewrite Z.sub_diag. apply write_loop_zero.
    + eapply shape_put; eauto; lia.
    + replace 0 with (rem - rem) by lia. apply source_ok_drop; [assumption | lia].
  - pose proof (sh_ahead _ _ _ _ H) as Ha. apply Forall_cons_iff in Ha as [Ha2 Ha].
    destruct (shape_step _ _ _ _ _ H) as [Hstep _].
    destruct (Z.eq_dec (rd_segment_write_remains s) 0) as [Er | Er].
    + rewrite write_loop_skip by assumption. ztest.
      apply write_post_shift; [assumption | apply Ha2 |].
      apply IH; try assumption; [rewrite room_set_absof; lia |].
      cbn in Hf. lia.
    + set (wlen := RD_MIN rem (rd_segment_write_remains s)).
      assert (wlen = Z.min rem (rd_segment_write_remains s)) as Ew by apply RD_MIN_min.
      rewrite write_loop_round by (assumption || lia). fold wlen.
      apply (write_post_step len l1 s (s2 :: l2) p wlen rem);
        try (assumption || lia).
      assert (source_ok (zdrop wlen <$> p) (rem - wlen)) as Hp'
        by (apply source_ok_drop; [assumption | lia]).
      assert (shape l1 (put p wlen s) (s2 :: l2) (len + wlen)) as Hsh
        by (eapply shape_put; eauto; lia).
      destruct (put_spec p wlen rem s Hs Hp ltac:(lia) ltac:(lia)) as (_ & _ & Hrm & _).
      destruct (Z.eq_dec (rem - wlen) 0) as [Ez | Ez].
      * rewrite Ez in *. now apply write_loop_zero.
      * rewrite write_loop_skip by (assumption || lia). ztest.
        destruct (shape_step _ _ _ _ _ Hsh) as [Hstep' _].
        apply write_post_shift; [lia | apply Ha2 |].
        apply IH; try assumption; [| cbn in Hf; lia].
        rewrite room_set_absof. lia.
Qed.

End WriteLoop.

(** ** Growth *)

Lemma length_fresh junk n : 0 <= n -> zlen (fresh_memory junk n) = n.
Proof. intros. unfold fresh_memory. rewrite length_map, length_seqZ. lia. Qed.

(** An allocated segment is empty, writable and of the size asked for. *)
Definition fresh_seg (size : Z) (s : rd_segment) : Prop :=
  seg_ok s /\ seg_of s = 0 /\ seg_size s = size /\ rd_segment_is_rdonly s = false.

Lemma alloc_segment0_spec junk b size :
  0 <= size ->
  exists el s, rd_buf_alloc_segment0 junk b size = (buf_set_extra_len b el, s) /\
    fresh_seg size s /\ Z.land (seg_flags s) RD_SEGMENT_F_RDONLY = 0.
Proof.
  intros Hs. pose proof (length_fresh junk size Hs).
  unfold rd_buf_alloc_segment0, extra_alloc.
  destruct (_ >? rbuf_extra_size b); [destruct (_ >? rbuf_extra_size b) |].
  - exists (rbuf_extra_len b). eexists. split; [destruct b; reflexivity |].
    unfold fresh_seg, seg_ok. cbn. repeat split; auto; lia.
  - do 2 eexists. split; [reflexivity |].
    unfold fresh_seg, seg_ok. cbn. repeat split; auto; lia.
  - do 2 eexists. split; [reflexivity |].
    unfold fresh_seg, seg_ok. cbn. repeat split; auto; lia.
Qed.

Lemma room_drop_app (l1 l2 : list rd_segment) : room (drop (length l1) (l1 ++ l2)) = room l2.
Proof. now rewrite drop_mid. Qed.

Lemma wf_at cnt len er sz el es fr l1 s l2 :
  shape l1 s l2 len -> cnt = zlen (l1 ++ s :: l2) -> sz = sum_size (l1 ++ s :: l2) ->
  sz < 2 ^ 64 -> 0 <= er -> 0 <= sz - (len + er) <= room (s :: l2) ->
  wf (at_seg cnt len er sz el es fr l1 s l2).
Proof.
  intros. right. exists l1, s, l2. do 3 (split; [easy |]).
  constructor; cbn [at_seg rbuf_segment_cnt rbuf_segments rbuf_size rbuf_erased rbuf_len];
    rewrite ?room_drop_app; assumption.
Qed.

Lemma wf_cases b :
  wf b ->
  (exists el es fr, b = mk_buf [] 0 None 0 0 0 el es fr) \/
  (exists cnt len er sz el es fr l1 s l2, b = at_seg cnt len er sz el es fr l1 s l2 /\
     shape l1 s l2 len /\ cnt = zlen (l1 ++ s :: l2) /\ sz = sum_size (l1 ++ s :: l2) /\
     sz < 2 ^ 64 /\ 0 <= er /\ 0 <= sz - (len + er) <= room (s :: l2)).
Proof.
  destruct b as [segs cnt w len er sz el es fr].
  intros [(H1 & H2 & H3 & H4 & H5 & H6) | (l1 & s & l2 & H1 & H2 & Hs & [Hc1 Hc2 Hc3 Hc4 Hc5])];
    cbn in *; subst.
  - left. now exists el, es, fr.
  - right. exists (zlen (l1 ++ s :: l2)), len, er, (sum_size (l1 ++ s :: l2)), el, es, fr, l1, s, l2.
    rewrite room_drop_app in Hc5. do 2 (split; [easy |]). easy.
Qed.

(** The write position is the last segment, as after any write or push: the
    condition under which the code may split it. *)
Definition wpos_last (b : rd_buf) : Prop :=
  match rbuf_wpos b with
  | Some w => S w = length (rbuf_segments b)
  | None => True
  end.

Lemma wpos_last_at cnt len er sz el es fr l1 s l2 :
  wpos_last (at_seg cnt len er sz el es fr l1 s l2) <-> l2 = [].
Proof.
  unfold wpos_last, at_seg. cbn. rewrite length_app. cbn.
  destruct l2; cbn; split; intros; (reflexivity || discriminate || lia).
Qed.

(** The write position is before the last segment, with room for [n] bytes at
    most. *)
Definition almost_last (n : Z) (b : rd_buf) : Prop :=
  exists cnt len er sz el es fr l1 s t,
    b = at_seg cnt len er sz el es fr l1 s [t] /\ rd_segment_write_remains s <= n.

(** The observable state that growing the buffer leaves alone. *)
Definition same_view (b b' : rd_buf) : Prop :=
  rd_buf_content b' = rd_buf_content b /\ rbuf_len b' = rbuf_len b /\
  rbuf_erased b' = rbuf_erased b /\ rbuf_freed b' = rbuf_freed b.

#[export] Instance same_view_preorder : PreOrder same_view.
Proof.
  split; unfold same_view; [easy |].
  intros x y z (? & ? & ? & ?) (? & ? & ? & ?). repeat split; congruence.
Qed.

Lemma shape_snoc_ahead l1 s l2 t len :
  shape l1 s l2 len -> seg_ok t -> ahead len t -> shape l1 s (l2 ++ [t]) len.
Proof.
  intros H Ht Ha. destruct (shape_ok_parts _ _ _ _ H) as (H1 & Hs & H2).
  constructor.
  - apply Forall_app; split; [assumption |]. apply Forall_cons_iff; split; [assumption |].
    apply Forall_app; auto.
  - apply H.
  - apply Forall_app; split; [apply H | auto].
  - apply H.
Qed.

Lemma append_fresh_wf b size t :
  wf b -> fresh_seg size t -> 0 < size -> rbuf_size b + size < 2 ^ 64 ->
  wf (rd_buf_append_segment b t) /\ same_view b (rd_buf_append_segment b t) /\
  rbuf_size (rd_buf_append_segment b t) = rbuf_size b + size /\
  (wpos_last b -> wpos_last (rd_buf_append_segment b t) \/
     almost_last (rbuf_size b - rbuf_len b) (rd_buf_append_segment b t)).
Proof.
  intros Hb (Hok & Ho & Hz & Hr) Hsz Hmax.
  assert (rd_segment_write_remains t = size) as Hrem
    by (unfold rd_segment_write_remains; rewrite Hr; lia).
  assert (payload t = []) as Hpay by (unfold payload; now rewrite Ho, ztake_nonpos).
  apply wf_cases in Hb as
    [(el & es & fr & ->) | (cnt & len & er & sz & el & es & fr & l1 & s & l2 & -> & Hsh & Hcnt & Hsize & Hm & Her & Hrm)].
  - cbn. rewrite Ho, Hz. split; [| split; [| split; [cbn; lia | now left]]].
    2: { unfold same_view, rd_buf_content. cbn. unfold content. cbn.
         unfold payload in *. cbn. rewrite Hpay. easy. }
    cbn in Hmax.
    change (rd_segment_write_remains t) with (rd_segment_write_remains (seg_set_absof t 0)) in Hrem.
    apply (wf_at 1 0 0 size el es fr [] (seg_set_absof t 0) []); cbn; try lia.
    constructor; cbn; try lia; [now apply Forall_cons_iff | constructor].
  - set (t' := seg_set_absof t len).
    assert (ahead len t') as Hahead.
    { destruct (shape_ok_parts _ _ _ _ Hsh) as (Hk1 & Hks & _).
      pose proof (shape_len _ _ _ _ Hsh). pose proof (sum_of_nonneg l1 Hk1).
      destruct Hks. unfold ahead, t'. cbn. repeat split; (assumption || lia). }
    assert (shape l1 s (l2 ++ [t']) len) as Hsh'
      by (apply shape_snoc_ahead; assumption).
    cbn in Hmax.
    unfold rd_buf_append_segment. cbn [rbuf_wpos rbuf_segments at_seg rbuf_len
      rbuf_segment_cnt rbuf_erased rbuf_size rbuf_extra_len rbuf_extra_size rbuf_freed].
    fold t'. change (seg_of t') with (seg_of t). change (seg_size t') with (seg_size t).
    rewrite Ho, Hz, Z.add_0_r, <- app_assoc. cbn [app].
    fold (at_seg (cnt + 1) len er (sz + size) el es fr l1 s (l2 ++ [t'])).
    assert (room (l2 ++ [t']) = room l2 + size) as Hroom.
    { rewrite room_app, room_cons.
      change (rd_segment_write_remains t') with (rd_segment_write_remains t).
      change (room []) with 0. lia. }
    assert (content (l1 ++ s :: l2 ++ [t']) = content (l1 ++ s :: l2)) as Hcont.
    { rewrite !content_app, !content_cons, content_app, content_cons.
      change (payload t') with (payload t). rewrite Hpay. cbn. now rewrite app_nil_r. }
    assert (sum_size (l1 ++ s :: l2 ++ [t']) = sz + size) as Hss.
    { rewrite Hsize, !sum_size_app, !sum_size_cons, sum_size_app, sum_size_cons.
      change (seg_size t') with (seg_size t). change (sum_size []) with 0. lia. }
    assert (cnt + 1 = zlen (l1 ++ s :: l2 ++ [t'])) as Hc
      by (rewrite Hcnt, !length_app; cbn; rewrite length_app; cbn; lia).
    rewrite room_cons in Hrm.
    assert (wf (at_seg (cnt + 1) len er (sz + size) el es fr l1 s (l2 ++ [t']))) as Hwf
      by (apply wf_at; rewrite ?room_cons; try assumption; lia).
    destruct (Z.eq_dec (rd_segment_write_remains s) 0) as [Er | Er].
    + assert (exists s2 l3, l2 ++ [t'] = s2 :: l3) as (s2 & l3 & El)
        by (destruct l2; cbn; eauto).
      rewrite El in *. rewrite get_writable0_next by assumption.
      destruct (shape_step _ _ _ _ _ Hsh') as [Hst _].
      split; [| split; [| split; [cbn; lia |]]].
      3: { intros Hlast. apply wpos_last_at in Hlast. subst l2. left.
           apply wpos_last_at. now injection El. }
      * apply wf_at; try assumption; rewrite <- ?app_assoc; cbn [app]; rewrite ?room_set_absof;
          try assumption; try lia.
        -- rewrite Hc, !length_app. reflexivity.
        -- rewrite <- Hss, !sum_size_app, !sum_size_cons. reflexivity.
      * repeat split. unfold rd_buf_content, at_seg. cbn [rbuf_segments].
        rewrite <- app_assoc. cbn [app].
        rewrite <- Hcont, !content_app, !content_cons. reflexivity.
    + destruct (shape_ok_parts _ _ _ _ Hsh) as (_ & Hks & _).
      pose proof (remains_ok s Hks).
      rewrite get_writable0_here by (assumption || lia).
      split; [exact Hwf |]. split; [repeat split; exact Hcont |]. split; [cbn; lia |].
      intros Hlast. apply wpos_last_at in Hlast. subst l2. right.
      do 10 eexists. split; [reflexivity |]. cbn [at_seg rbuf_size rbuf_len].
      rewrite Hsize, sum_size_app, sum_size_cons, (shape_len _ _ _ _ Hsh).
      pose proof (sum_slack l1 ltac:(now apply (shape_ok_parts _ _ _ _ Hsh))).
      change (sum_size []) with 0. lia.
Qed.

Lemma wf_extra_len b el :
  wf b -> wf (buf_set_extra_len b el) /\ same_view b (buf_set_extra_len b el).
Proof.
  intros H. split; [| now repeat split]. apply wf_cases in H as
    [(e & es & fr & ->) | (cnt & len & er & sz & e & es & fr & l1 & s & l2 & -> & ?)].
  - left. easy.
  - apply (wf_at cnt len er sz el es fr); easy.
Qed.

Lemma write_remains_wf b :
  wf b -> rbuf_erased b >= 0 /\ 0 <= rbuf_len b /\
  rd_buf_write_remains b = rbuf_size b - (rbuf_len b + rbuf_erased b) /\
  0 <= rd_buf_write_remains b.
Proof.
  intros H. apply wf_cases in H as
    [(e & es & fr & ->) | (cnt & len & er & sz & e & es & fr & l1 & s & l2 & -> & Hsh & ? & ? & ? & ? & ?)];
    [easy |].
  destruct (shape_ok_parts _ _ _ _ Hsh) as (Hk1 & [? ?] & _).
  pose proof (shape_len _ _ _ _ Hsh). pose proof (sum_of_nonneg l1 Hk1).
  unfold rd_buf_write_remains. cbn. rewrite wrap_small; lia.
Qed.

Section Growth.

Variable junk : Z -> Z.

Lemma alloc_segment_spec b mn mx :
  wf b -> 0 < mn < 2 ^ 62 -> rbuf_size b < 2 ^ 62 ->
  let b' := fst (rd_buf_alloc_segment junk b mn mx) in
  wf b' /\ same_view b b' /\ rbuf_size b + mn <= rbuf_size b' < 2 ^ 64 /\
  (wpos_last b -> wpos_last b' \/ almost_last (rbuf_size b - rbuf_len b) b').
Proof.
  intros Hb Hmn Hsz. unfold rd_buf_alloc_segment.
  set (size := if negb (mn =? mx) || (mx =? 0) then _ else mx).
  assert (mn <= size < 2 ^ 63 + 1) as Hsize.
  { unfold size. destruct (negb (mn =? mx) || (mx =? 0)) eqn:E; [| zlia].
    rewrite !RD_MAX_max, wrap_small by lia.
    assert (rbuf_size b / 2 <= 2 ^ 61) by (apply Z.div_le_upper_bound; lia).
    change (SIZEOF_SEGMENT * 4) with 256. lia. }
  destruct (alloc_segment0_spec junk b size ltac:(lia)) as (el & t & -> & Ht & _).
  destruct (wf_extra_len b el Hb) as [Hb' Hv].
  cbn [fst]. destruct (append_fresh_wf _ size t Hb' Ht) as (? & ? & E & Hl);
    [lia | cbn; lia |].
  cbn in E. split; [assumption |]. split; [etransitivity; [exact Hv | assumption] |].
  split; [lia | exact Hl].
Qed.

(** One round of the loop makes the room it lacked. *)
Lemma write_ensure_room b mn mx :
  wf b -> 0 <= mn < 2 ^ 62 -> rbuf_size b < 2 ^ 62 ->
  exists b', rd_buf_write_ensure junk b mn mx = Some b' /\
    wf b' /\ same_view b b' /\ mn <= rd_buf_write_remains b' /\
    (rbuf_erased b = 0 -> wpos_last b -> wpos_last b' \/ almost_last (mn - 1) b').
Proof.
  intros Hb Hmn Hsz. unfold rd_buf_write_ensure. cbn [write_ensure_loop].
  destruct (write_remains_wf b Hb) as (? & ? & Er & ?).
  destruct (Z.ltb_spec (rd_buf_write_remains b) mn).
  2: { exists b. split; [reflexivity |]. split; [assumption |]. split; [reflexivity |].
       split; [lia | now left]. }
  set (mx' := if mx =? 0 then 0 else _).
  pose proof (alloc_segment_spec b (mn - rd_buf_write_remains b) mx' Hb ltac:(lia) Hsz) as Ha.
  destruct (rd_buf_alloc_segment junk b _ mx') as [b' i]. cbn [fst] in Ha.
  destruct Ha as (Hb' & Hv & Hs' & Hlast). exists b'.
  destruct (write_remains_wf b' Hb') as (_ & _ & Er' & _).
  destruct Hv as (Hc & Hl & He & Hf). rewrite Hl, He in Er'.
  destruct (Z.ltb_spec (rd_buf_write_remains b') mn); [lia |].
  split; [reflexivity |]. split; [exact Hb' |]. split; [now repeat split |]. split; [lia |].
  intros Hz Hw. destruct (Hlast Hw)
    as [? | (cnt & len & er & sz & el & es & fr & l1 & s & t & E & Hr)]; [now left | right].
  do 10 eexists. split; [exact E | lia].
Qed.

Lemma rd_buf_write_spec b p size :
  wf b -> 0 <= size < 2 ^ 62 -> rbuf_size b < 2 ^ 62 -> source_ok p size ->
  exists b' d, rd_buf_write junk b p size = Some (b', rbuf_len b) /\
    wf b' /\ rd_buf_content b' = rd_buf_content b ++ d /\
    zlen d = size /\ (forall src, p = Some src -> d = src) /\
    rbuf_len b' = rbuf_len b + size /\ rbuf_erased b' = rbuf_erased b /\
    (rbuf_erased b = 0 -> wpos_last b -> wpos_last b').
Proof.
  intros Hb Hsize Hsz Hp. unfold rd_buf_write.
  destruct (write_ensure_room b size 0 Hb Hsize Hsz)
    as (b1 & -> & Hb1 & (Hc & Hl & He & Hf) & Hrm & Hlast).
  destruct (write_remains_wf b1 Hb1) as (_ & _ & Er1 & _).
  rewrite <- Hl, <- Hc, <- He. rewrite <- He in Hlast.
  clear Hl Hc He Hf Hb Hsz.
  apply wf_cases in Hb1 as
    [(e & es & fr & ->) | (cnt & len & er & sz & e & es & fr & l1 & s & l2 & -> & Hsh & ? & ? & ? & ? & Hr)].
  - cbn in Er1, Hrm. rewrite Er1 in Hrm. replace size with 0 in * by lia.
    eexists. exists []. cbn. split; [reflexivity |]. split; [left; easy |].
    split; [reflexivity |]. split; [reflexivity |]. split; [| easy].
    intros src ->. cbn in Hp. destruct src; [easy | cbn in Hp; lia].
  - rewrite Er1 in Hrm. cbn in Hrm.
    destruct (write_loop_spec cnt er sz e es fr l2 l1 s len p size
                (S (length (l1 ++ s :: l2))) Hsh Hp) as
      (d & l1' & s' & l2' & E & Hsh' & Hc & Hd & Hsrc & Hss & Hln & Hroom & k & Hk).
    { lia. }
    { rewrite length_app. cbn. lia. }
    unfold at_seg in E at 1. unfold at_seg. cbn [rbuf_segments]. rewrite E.
    do 2 eexists. split; [reflexivity |]. split.
    { apply wf_at; try assumption; try congruence. rewrite Hroom. lia. }
    split; [exact Hc |]. do 4 (split; [assumption || reflexivity |]).
    intros Hz Hw. apply wpos_last_at.
    destruct (Hlast Hz Hw)
      as [Hl | (cnt1 & len1 & er1 & sz1 & el1 & es1 & fr1 & m1 & t1 & t2 & Eb & Hrt)].
    + apply wpos_last_at in Hl. subst l2. now rewrite drop_nil in Hk.
    + injection Eb as Esegs _ Elen _ _ _ _ _ _.
      apply app_inj_1 in Esegs as [-> Esegs]; [| exact Elen].
      injection Esegs as <- ->.
      destruct k as [| k]; [| cbn in Hk; now rewrite drop_nil in Hk]. cbn in Hk. subst l2'.
      rewrite !room_cons in Hroom. change (room []) with 0 in Hroom.
      destruct (shape_ok_parts _ _ _ _ Hsh') as (_ & Hs' & _).
      pose proof (remains_ok s' Hs'). lia.
Qed.

End Growth.

(** ** In-place updates *)

(** Replacing a region of a byte string. *)
Definition overwrite (c : bytes) (absof : Z) (src : bytes) : bytes :=
  ztake absof c ++ src ++ zdrop (absof + zlen src) c.

Lemma offset_scan_found l1 s l2 i absof :
  Forall seg_ok (l1 ++ [s]) -> placed i (l1 ++ [s]) ->
  forall n, i + sum_of l1 <= absof < i + sum_of l1 + seg_of s ->
  offset_scan (l1 ++ s :: l2) n absof = Some (n + length l1)%nat.
Proof.
  revert i; induction l1 as [| t l1 IH]; intros i Hok Hp n Ha.
  - cbn in Hp, Ha |- *. destruct Hp as [-> _].
    rewrite Z.geb_leb. ztest. cbn [andb]. f_equal. lia.
  - cbn [app] in *. destruct Hp as [Ht Hp]. apply Forall_cons_iff in Hok as [Htk Hok].
    rewrite sum_of_cons in Ha.
    assert (0 <= sum_of l1) by (apply sum_of_nonneg; now apply Forall_app in Hok).
    cbn [offset_scan]. rewrite Ht, Z.geb_leb.
    destruct Htk as [Htk _]. ztest. rewrite andb_false_r.
    rewrite (IH (i + seg_of t)); [f_equal; cbn; lia | assumption | assumption | lia].
Qed.

(** Where the data at an offset is. *)
Lemma locate l : forall absof,
  Forall seg_ok l -> 0 <= absof < sum_of l ->
  exists l1 s l2, l = l1 ++ s :: l2 /\ sum_of l1 <= absof < sum_of l1 + seg_of s.
Proof.
  induction l as [| s l IH]; intros absof Hok Ha; [cbn in Ha; lia |].
  rewrite sum_of_cons in Ha. apply Forall_cons_iff in Hok as [Hs Hok].
  destruct (Z.lt_ge_cases absof (seg_of s)).
  - exists [], s, l. cbn. split; [reflexivity | lia].
  - destruct (IH (absof - seg_of s) Hok ltac:(lia)) as (l1 & t & l2 & -> & Hb).
    exists (s :: l1), t, l2. rewrite sum_of_cons. split; [reflexivity | lia].
Qed.

(** The segments of a buffer that hold data, and its write position among them. *)
Lemma wf_view b :
  wf b -> exists front back, rbuf_segments b = front ++ back /\
    Forall seg_ok (front ++ back) /\ placed 0 front /\ Forall (ahead (rbuf_len b)) back /\
    rbuf_len b = sum_of front /\
    rbuf_wpos b = (if decide (front = []) then None else Some (Nat.pred (length front))).
Proof.
  intros [(H1 & H2 & H3 & _) | (l1 & s & l2 & H1 & H2 & [Hok Hp Ha Hl] & _)].
  - exists [], []. rewrite H1, H2, H3. easy.
  - exists (l1 ++ [s]), l2. rewrite <- app_assoc. cbn [app].
    repeat split; try assumption. rewrite decide_False by (now destruct l1).
    rewrite H2, length_app. f_equal. cbn. lia.
Qed.

(** The lookup finds the segment of the offset, from either starting point. *)
Lemma segment_at_offset b hint absof :
  wf b -> hint = None \/ hint = rbuf_wpos b -> 0 <= absof < rbuf_len b ->
  exists l1 s l2 back, rbuf_segments b = l1 ++ s :: l2 ++ back /\
    Forall seg_ok (l1 ++ s :: l2 ++ back) /\ placed 0 (l1 ++ s :: l2) /\
    Forall (ahead (rbuf_len b)) back /\ rbuf_len b = sum_of (l1 ++ s :: l2) /\
    rbuf_wpos b = Some (length (l1 ++ l2)) /\
    sum_of l1 <= absof < sum_of l1 + seg_of s /\ seg_absof s = sum_of l1 /\
    rd_buf_get_segment_at_offset b hint absof = Some (length l1).
Proof.
  intros Hb Hh Ha. destruct (wf_view b Hb) as (front & back & E & Hok & Hp & Hback & Hl & Hw).
  pose proof Hok as Hall. pose proof Hp as Hpall.
  apply Forall_app in Hok as [Hf Hbk].
  destruct (locate front absof Hf ltac:(lia)) as (l1 & s & l2 & -> & Hin).
  exists l1, s, l2, back. rewrite <- app_assoc in Hall. rewrite E, <- app_assoc.
  cbn [app] in *.
  apply placed_app in Hp as [Hp1 Hp2]. destruct Hp2 as [Hs Hp2].
  split; [reflexivity |]. do 4 (split; [assumption |]).
  split. { rewrite Hw, decide_False by now destruct l1. f_equal.
           rewrite !length_app. cbn. lia. }
  split; [exact Hin |]. split; [lia |].
  unfold rd_buf_get_segment_at_offset. rewrite Z.geb_leb. ztest.
  rewrite E, <- app_assoc. cbn [app].
  assert (Forall seg_ok (l1 ++ [s])) as Hok1.
  { apply Forall_app in Hf as [? Hf]. apply Forall_cons_iff in Hf as [? _].
    apply Forall_app; auto. }
  assert (placed 0 (l1 ++ [s])) as Hpl by (apply placed_app; split; [exact Hp1 | easy]).
  assert (forall tl, offset_scan (l1 ++ s :: tl) 0 absof = Some (length l1)) as Hfull
    by (intros; now rewrite (offset_scan_found l1 s tl 0)).
  destruct Hh as [-> | ->]; [apply Hfull |].
  rewrite Hw, decide_False by now destruct l1.
  replace (Nat.pred (length (l1 ++ s :: l2))) with (length l1 + length l2)%nat
    by (rewrite length_app; cbn; lia).
  destruct l2 as [| s2 l2 _] using rev_ind.
  - (* the write position itself *)
    replace (length l1 + length [])%nat with (length l1) by (cbn; lia).
    rewrite lookup_mid. ztest. rewrite drop_mid. cbn [offset_scan].
    rewrite Z.geb_leb. ztest. reflexivity.
  - replace (l1 ++ s :: (l2 ++ [s2]) ++ back) with ((l1 ++ s :: l2) ++ s2 :: back)
      by (rewrite <- !app_assoc; reflexivity).
    replace (length l1 + length (l2 ++ [s2]))%nat with (length (l1 ++ s :: l2))
      by (rewrite !length_app; cbn; lia).
    rewrite lookup_mid.
    assert (absof < seg_absof s2) as Hlt.
    { apply placed_app in Hp2 as [_ [-> _]].
      assert (0 <= sum_of l2); [| lia]. apply sum_of_nonneg.
      apply Forall_app in Hf as [_ Hf]. apply Forall_cons_iff in Hf as [_ Hf].
      now apply Forall_app in Hf. }
    ztest. rewrite <- app_assoc. cbn [app drop]. apply Hfull.
Qed.

(** Everything of a segment but its bytes. *)
Definition meta (s : rd_segment) : rd_segment := seg_set_p s [].

Lemma meta_sums l l' :
  map meta l = map meta l' ->
  sum_of l = sum_of l' /\ sum_size l = sum_size l' /\ room l = room l' /\
  (forall p, placed p l -> placed p l') /\
  (forall len, Forall (ahead len) l -> Forall (ahead len) l').
Proof.
  revert l'; induction l as [| s l IH]; intros [| s' l'] E; try discriminate; [easy |].
  cbn [map] in E. injection E as Eo Es Ea Ef Eg E.
  destruct (IH l' E) as (H1 & H2 & H3 & H4 & H5).
  assert (rd_segment_is_rdonly s = rd_segment_is_rdonly s') as Hr
    by (unfold rd_segment_is_rdonly; now rewrite Eg).
  assert (rd_segment_write_remains s = rd_segment_write_remains s') as Hw
    by (unfold rd_segment_write_remains; now rewrite Hr, Es, Eo).
  rewrite !sum_of_cons, !sum_size_cons, !room_cons, Eo, Es, Hw, H1, H2, H3.
  repeat split; try reflexivity.
  - destruct H; congruence.
  - destruct H as [_ H]. rewrite Eo in H. now apply H4.
  - intros len H. apply Forall_cons_iff in H as [Hs H].
    apply Forall_cons_iff; split; [| now apply H5].
    destruct Hs as (? & ? & ? & ?). unfold ahead.
    rewrite <- Hr, <- Eo, <- Es, <- Ea. auto.
Qed.

(** The invariant does not depend on the bytes. *)
Lemma wf_meta b segs :
  wf b -> map meta (rbuf_segments b) = map meta segs -> Forall seg_ok segs ->
  wf (buf_set_segments b segs).
Proof.
  intros Hb E Hok. apply wf_cases in Hb as
    [(e & es & fr & ->) | (cnt & len & er & sz & e & es & fr & l1 & s & l2 & -> & Hsh & Hcnt & Hsz & ? & ? & ?)].
  - cbn in E. destruct segs; [now left | discriminate].
  - cbn [at_seg rbuf_segments] in E. symmetry in E. rewrite map_app in E.
    apply map_eq_app in E as (l1' & r & -> & E1 & E).
    cbn [map] in E. apply map_eq_cons in E as (s' & l2' & -> & Es & E2).
    assert (map meta (l1 ++ s :: l2) = map meta (l1' ++ s' :: l2')) as Eall
      by (rewrite !map_app; cbn; congruence).
    assert (map meta (l1 ++ [s]) = map meta (l1' ++ [s'])) as Efront
      by (rewrite !map_app; cbn; congruence).
    assert (map meta (s :: l2) = map meta (s' :: l2')) as Eback by (cbn; congruence).
    assert (length l1 = length l1') as El
      by (rewrite <- (length_map meta l1), <- E1; apply length_map).
    assert (length (l1 ++ s :: l2) = length (l1' ++ s' :: l2')) as El2
      by (rewrite <- (length_map meta), Eall; apply length_map).
    destruct (meta_sums _ _ Eall) as (_ & Hsize & _).
    destruct (meta_sums _ _ Efront) as (Hof & _ & _ & Hpl & _).
    destruct (meta_sums _ _ Eback) as (_ & _ & Hroom & _).
    destruct (meta_sums _ _ (eq_sym E2)) as (_ & _ & _ & _ & Hah).
    unfold at_seg, buf_set_segments. cbn. rewrite El.
    apply wf_at; try assumption; try lia.
    constructor; [exact Hok | apply Hpl, Hsh | apply Hah, Hsh |].
    rewrite <- Hof. apply Hsh.
Qed.

Lemma overwrite_nil c absof : overwrite c absof [] = c.
Proof. unfold overwrite. cbn. rewrite Z.add_0_r. apply ztake_drop. Qed.

Lemma overwrite_app_l c1 c2 absof src :
  0 <= absof -> absof + zlen src <= zlen c1 ->
  overwrite (c1 ++ c2) absof src = overwrite c1 absof src ++ c2.
Proof.
  intros. unfold overwrite. rewrite ztake_app, zdrop_app.
  rewrite (ztake_nonpos _ c2), (zdrop_nonpos _ c2) by zlen_lia.
  now rewrite app_nil_r, !app_assoc.
Qed.

Lemma overwrite_app_r c1 c2 absof src :
  zlen c1 <= absof ->
  overwrite (c1 ++ c2) absof src = c1 ++ overwrite c2 (absof - zlen c1) src.
Proof.
  intros. unfold overwrite. rewrite ztake_app, zdrop_app.
  rewrite (ztake_all _ c1), (zdrop_all _ c1) by zlen_lia. cbn [app].
  replace (absof + zlen src - zlen c1) with (absof - zlen c1 + zlen src) by lia.
  now rewrite <- !app_assoc.
Qed.

Lemma overwrite_len c absof src :
  0 <= absof -> absof + zlen src <= zlen c -> zlen (overwrite c absof src) = zlen c.
Proof. intros. unfold overwrite. zlen_lia. Qed.

(** A write that crosses a boundary is two writes. *)
Lemma overwrite_split c absof a b :
  0 <= absof -> absof + zlen a + zlen b <= zlen c ->
  overwrite c absof (a ++ b) = overwrite (overwrite c absof a) (absof + zlen a) b.
Proof.
  intros.
  assert (overwrite c absof a = (ztake absof c ++ a) ++ zdrop (absof + zlen a) c) as ->
    by (unfold overwrite; now rewrite app_assoc).
  rewrite overwrite_app_r by zlen_lia. unfold overwrite.
  rewrite <- !app_assoc, (ztake_nonpos (_ - _)) by zlen_lia. cbn [app]. do 3 f_equal.
  rewrite zdrop_drop by zlen_lia. f_equal. zlen_lia.
Qed.

(** The part of the update that falls into one segment. *)
Lemma segment_write_update_spec s absof src size q :
  seg_ok s -> seg_absof s + q = absof -> 0 <= q <= seg_of s -> seg_of s < 2 ^ 64 ->
  zlen src = size ->
  let wlen := Z.min size (seg_of s - q) in
  exists s', rd_segment_write_update s absof src size = Some (s', wlen) /\
    meta s = meta s' /\ seg_ok s' /\
    payload s' = overwrite (payload s) q (ztake wlen src).
Proof.
  intros [Ho Hl] Ha Hq H64 Hsrc wlen. unfold rd_segment_write_update.
  rewrite wrap_small by lia. replace (absof - seg_absof s) with q by lia.
  unfold rd_assert. ztest. rewrite RD_MIN_min. fold wlen.
  assert (zlen (ztake wlen src) = wlen) as Hw by zlen_lia.
  eexists. split; [reflexivity |]. split; [now destruct s |]. split.
  - split; [exact Ho |]. cbn. rewrite mem_write_len; lia.
  - unfold payload, mem_write, overwrite. cbn [seg_set_p seg_of seg_p].
    rewrite ztake_app, (ztake_all _ (ztake q _)) by zlen_lia.
    rewrite ztake_app, (ztake_all _ (ztake wlen src)) by zlen_lia.
    rewrite ztake_take, Z.min_l, zdrop_take by lia.
    do 2 f_equal. f_equal. zlen_lia.
Qed.

Lemma write_update_loop_done segs len absof psrc off size :
  size <= off -> write_update_loop segs len absof psrc off size = Some (segs, off).
Proof. intros. destruct segs; cbn; ztest; reflexivity. Qed.

Lemma write_update_loop_spec l : forall p back len absof psrc off size q,
  Forall seg_ok l -> placed p l -> p + sum_of l <= len < 2 ^ 64 -> 0 <= p ->
  p + q = absof + off -> 0 <= q -> match l with s :: _ => q <= seg_of s | [] => True end ->
  0 <= off <= size -> zlen psrc = size -> size - off <= sum_of l - q ->
  exists l', write_update_loop (l ++ back) len absof psrc off size = Some (l' ++ back, size) /\
    map meta l = map meta l' /\ Forall seg_ok l' /\
    content l' = overwrite (content l) q (zdrop off psrc).
Proof.
  induction l as [| s l IH];
    intros p back len absof psrc off size q Hok Hp Hlen Hp0 Hq Hq0 Hqs Hoff Hsrc Hsz.
  - cbn in Hsz. exists []. rewrite write_update_loop_done by lia.
    split; [cbn; do 2 f_equal; lia |]. rewrite zdrop_all by lia.
    now rewrite overwrite_nil.
  - destruct (Z.eq_dec off size) as [-> | Hne].
    { exists (s :: l). rewrite write_update_loop_done by lia.
      rewrite zdrop_all, overwrite_nil by lia. easy. }
    apply Forall_cons_iff in Hok as [Hs Hok]. destruct Hp as [Hps Hpl].
    rewrite sum_of_cons in Hlen, Hsz.
    pose proof (sum_of_nonneg l Hok). pose proof (proj1 Hs).
    destruct (segment_write_update_spec s (absof + off) (zdrop off psrc) (size - off) q)
      as (s' & E & Hm & Hs' & Hpay); try assumption; try lia; [zlen_lia |].
    set (wlen := Z.min (size - off) (seg_of s - q)) in *.
    assert (exists l', write_update_loop (l ++ back) len absof psrc (off + wlen) size
              = Some (l' ++ back, size) /\ map meta l = map meta l' /\ Forall seg_ok l' /\
              content l' = overwrite (content l) 0 (zdrop (off + wlen) psrc))
      as (l' & El & Hml & Hokl & Hcl).
    { destruct (Z.eq_dec (off + wlen) size) as [Ez | Ez].
      - exists l. rewrite Ez, write_update_loop_done, zdrop_all, overwrite_nil by lia. easy.
      - apply (IH (p + seg_of s)); try assumption; try lia.
        destruct l; [easy |]. apply Forall_cons_iff in Hok as [[? _] _]. lia. }
    exists (s' :: l'). cbn [app write_update_loop]. ztest.
    unfold rd_assert. ztest. rewrite E, El.
    split; [reflexivity |]. split; [cbn; congruence |].
    split; [now apply Forall_cons_iff |].
    assert (zlen (payload s) = seg_of s) as Hlp by now apply payload_len.
    rewrite !content_cons, Hpay, Hcl.
    rewrite <- (ztake_drop wlen (zdrop off psrc)) at 2.
    rewrite zdrop_drop by lia.
    assert (zlen (ztake wlen (zdrop off psrc)) = wlen) as Hw by zlen_lia.
    rewrite overwrite_split; rewrite ?zlen_app, ?(content_len l), ?Hw by assumption; try lia;
      [| zlen_lia].
    rewrite overwrite_app_l by lia.
    destruct (Z.eq_dec wlen (seg_of s - q)) as [Ew | Ew].
    + rewrite overwrite_app_r by (rewrite overwrite_len; lia).
      rewrite overwrite_len by lia. do 2 f_equal. lia.
    + assert (zdrop (off + wlen) psrc = []) as -> by (apply zdrop_all; lia).
      now rewrite !overwrite_nil.
Qed.

Lemma wf_len_max b : wf b -> 0 <= rbuf_len b < 2 ^ 64.
Proof.
  intros H. pose proof (write_remains_wf b H). apply wf_cases in H as
    [(? & ? & ? & ->) | (? & ? & ? & ? & ? & ? & ? & ? & ? & ? & -> & _ & _ & _ & ? & ? & ?)];
    cbn in *; lia.
Qed.

Lemma rd_buf_write_update_spec b absof src :
  wf b -> 0 <= absof < rbuf_len b -> absof + zlen src <= rbuf_len b ->
  exists b', rd_buf_write_update b absof src (zlen src) = Some (b', zlen src) /\
    wf b' /\ rd_buf_content b' = overwrite (rd_buf_content b) absof src /\
    rbuf_len b' = rbuf_len b /\ rbuf_erased b' = rbuf_erased b /\
    (wpos_last b -> wpos_last b').
Proof.
  intros Hb Ha Hs. pose proof (wf_len_max b Hb).
  destruct (segment_at_offset b (rbuf_wpos b) absof Hb (or_intror eq_refl) Ha)
    as (l1 & s & l2 & back & E & Hok & Hp & Hah & Hl & _ & Hin & Hso & Hget).
  unfold rd_buf_write_update. rewrite Hget, E, drop_mid, take_app_length.
  pose proof Hok as Hall. apply Forall_app in Hok as [Hok1 Hok].
  change (s :: l2 ++ back) with ((s :: l2) ++ back) in *.
  apply Forall_app in Hok as [Hok2 Hokb].
  apply placed_app in Hp as [_ Hp]. rewrite sum_of_app in Hl.
  destruct (write_update_loop_spec (s :: l2) (sum_of l1) back (rbuf_len b) absof src 0
              (zlen src) (absof - sum_of l1)) as (l' & El & Hm & Hok' & Hc);
    try assumption; try lia.
  { now apply sum_of_nonneg. }
  assert (length (s :: l2) = length l') as Hlen
    by (rewrite <- (length_map meta), Hm; apply length_map).
  rewrite El. eexists. split; [reflexivity |]. split; [| split; [| split; [reflexivity |]]].
  3: { split; [reflexivity |]. unfold wpos_last. cbn [buf_set_segments rbuf_wpos rbuf_segments].
       destruct (rbuf_wpos b); [| easy]. rewrite E. intros ->.
       rewrite !(length_app l1), !length_app, Hlen. reflexivity. }
  - apply wf_meta; [assumption | | rewrite !Forall_app; auto].
    rewrite E, !map_app. congruence.
  - unfold rd_buf_content. cbn [buf_set_segments rbuf_segments]. rewrite E.
    assert (content back = []) as Eb by apply (ahead_content _ _ Hah).
    rewrite !content_app, Eb, !app_nil_r, Hc.
    rewrite overwrite_app_r by (rewrite content_len by assumption; lia).
    now rewrite content_len by assumption.
Qed.

(** ** Pushed memory *)

(** Appending to a buffer without room makes the new segment the write
    position. *)
Lemma append_to_full cnt len er sz el es fr l1 s t :
  shape l1 s [] len -> rd_segment_write_remains s = 0 -> seg_ok t ->
  let b' := at_seg (cnt + 1) (len + seg_of t) er (sz + seg_size t) el es fr
              (l1 ++ [s]) (seg_set_absof t len) [] in
  rd_buf_append_segment (at_seg cnt len er sz el es fr l1 s []) t = b' /\
  shape (l1 ++ [s]) (seg_set_absof t len) [] (len + seg_of t).
Proof.
  intros H Hr Ht. split.
  - unfold rd_buf_append_segment.
    cbn [rbuf_wpos rbuf_segments at_seg rbuf_len rbuf_segment_cnt rbuf_erased rbuf_size
         rbuf_extra_len rbuf_extra_size rbuf_freed].
    set (t' := seg_set_absof t len). change (seg_of t') with (seg_of t).
    change (seg_size t') with (seg_size t).
    unfold rd_buf_get_writable0. cbn [rbuf_wpos rbuf_segments].
    rewrite <- app_assoc. cbn [app]. rewrite drop_mid. cbn [writable_scan].
    rewrite Hr. change (0 =? 0) with true. cbv iota.
    assert (S (length l1) = length (l1 ++ [s])) as El by (rewrite length_app; cbn; lia).
    assert (l1 ++ [s; t'] = (l1 ++ [s]) ++ t' :: []) as Ea by now rewrite <- app_assoc.
    destruct (rd_segment_write_remains t' =? 0) eqn:E.
    + change (0 =? 0) with true. cbv iota beta. unfold at_seg, buf_set_wpos. cbn.
      now rewrite Ea, El.
    + rewrite E. cbn [buf_set_wpos rbuf_segments rbuf_len rbuf_segment_cnt rbuf_wpos].
      rewrite Ea, El, alter_mid. rewrite fix_absof_id; [reflexivity |].
      cbn. lia.
  - destruct (shape_ok_parts _ _ _ _ H) as (H1 & Hs & _). constructor.
    + rewrite !Forall_app, !Forall_cons_iff. easy.
    + apply placed_app. split; [apply H |]. split; [| exact I].
      rewrite (sh_len _ _ _ _ H). cbn. lia.
    + constructor.
    + rewrite sum_of_app, <- (sh_len _ _ _ _ H). cbn. lia.
Qed.

(** The pushed segment. *)
Definition pushed_ok (payload_ : bytes) (t : rd_segment) : Prop :=
  seg_ok t /\ seg_of t = zlen payload_ /\ seg_size t = zlen payload_ /\
  payload t = payload_ /\ rd_segment_write_remains t = 0.

Lemma pushed_segment payload_ a f fl (writable : bool) :
  Z.land fl RD_SEGMENT_F_RDONLY = 0 ->
  pushed_ok payload_ (mk_segment payload_ (zlen payload_) (zlen payload_) a f
    (if writable then fl else Z.lor fl RD_SEGMENT_F_RDONLY)).
Proof.
  intros Hf. unfold pushed_ok, seg_ok, payload, rd_segment_write_remains,
    rd_segment_is_rdonly. cbn. repeat split; try lia.
  - now apply ztake_all.
  - destruct writable; cbn.
    + rewrite Hf. cbn. lia.
    + rewrite Z.land_lor_distr_l, Hf. reflexivity.
Qed.

(** Splitting the last segment at its write offset. *)
Lemma split_last junk cnt len er sz el es fr l1 s :
  shape l1 s [] len -> 0 < rd_segment_write_remains s -> len < 2 ^ 64 ->
  exists el' s1 t,
    rd_segment_split junk (at_seg cnt len er sz el es fr l1 s []) (length l1)
      (seg_absof s + seg_of s) =
    Some (at_seg cnt len er (sz - rd_segment_write_remains s) el' es fr l1 s1 [], t) /\
    shape l1 s1 [] len /\ rd_segment_write_remains s1 = 0 /\ payload s1 = payload s /\
    seg_size s1 = seg_size s - rd_segment_write_remains s /\
    fresh_seg (rd_segment_write_remains s) t.
Proof.
  intros H Hr H64. destruct (shape_ok_parts _ _ _ _ H) as (H1 & Hs & _).
  pose proof Hs as [Ho Hl].
  assert (rd_segment_is_rdonly s = false /\
          rd_segment_write_remains s = seg_size s - seg_of s) as [Hro Er].
  { revert Hr. unfold rd_segment_write_remains. destruct (rd_segment_is_rdonly s); [lia | easy]. }
  unfold rd_segment_split. cbn [at_seg rbuf_wpos rbuf_segments]. rewrite Nat.eqb_refl.
  cbn [rd_assert]. rewrite lookup_mid. unfold rd_assert.
  rewrite Z.geb_leb. ztest. cbn [andb].
  replace (seg_absof s + seg_of s - seg_absof s) with (seg_of s) by lia.
  destruct (alloc_segment0_spec junk (at_seg cnt len er sz el es fr l1 s []) 0 ltac:(lia))
    as (el' & n & En & _ & Hnf).
  rewrite En.
  cbn [buf_set_extra_len at_seg buf_set_segments buf_set_len buf_set_size rbuf_segments
       rbuf_segment_cnt rbuf_wpos rbuf_len rbuf_erased rbuf_size rbuf_extra_size rbuf_freed
       seg_of seg_size].
  rewrite insert_mid, Z.sub_diag, Z.sub_0_r.
  do 3 eexists. split; [unfold at_seg; rewrite Er; reflexivity |].
  assert (payload (mk_segment (ztake (seg_of s) (seg_p s)) (seg_of s) (seg_of s) (seg_absof s)
            (seg_free s) (seg_flags s)) = payload s) as Hp.
  { unfold payload. cbn. now rewrite ztake_take, Z.min_id. }
  repeat split; cbn; try lia; try assumption.
  - apply Forall_app. split; [assumption |]. apply Forall_cons_iff.
    split; [| constructor]. split; cbn; zlen_lia.
  - pose proof (sh_placed _ _ _ _ H) as Hpl. apply placed_app in Hpl as [? [? _]].
    apply placed_app. repeat split; assumption.
  - constructor.
  - rewrite (shape_len _ _ _ _ H), sum_of_app. cbn. lia.
  - unfold rd_segment_write_remains, rd_segment_is_rdonly in *. cbn. rewrite Hro. lia.
  - zlen_lia.
  - unfold rd_segment_is_rdonly in *. cbn. rewrite Z.land_lor_distr_l, Hnf. exact Hro.
Qed.

Section Push.

Variable junk : Z -> Z.

Lemma rd_buf_push_spec b p free_cb writable :
  wf b -> wpos_last b -> rbuf_size b + zlen p < 2 ^ 64 ->
  exists b', rd_buf_push0 junk b p (zlen p) free_cb writable = Some b' /\
    wf b' /\ wpos_last b' /\ rd_buf_content b' = rd_buf_content b ++ p /\
    rbuf_len b' = rbuf_len b + zlen p /\ rbuf_erased b' = rbuf_erased b.
Proof.
  intros Hb Hlast Hmax. apply wf_cases in Hb as
    [(el & es & fr & ->) | (cnt & len & er & sz & el & es & fr & l1 & s & l2 & -> & Hsh & Hcnt & Hsz & Hm & Her & Hrm)].
  - unfold rd_buf_push0. cbn [rbuf_wpos].
    destruct (alloc_segment0_spec junk (mk_buf [] 0 None 0 0 0 el es fr) 0 ltac:(lia))
      as (el' & n & -> & _ & Hnf).
    destruct (pushed_segment p 0 free_cb (seg_flags n) writable Hnf) as (Hok & _ & _ & Hpay & Hr0).
    eexists. split; [reflexivity |]. cbn in Hmax. cbn.
    split.
    { apply (wf_at 1 (zlen p) 0 (zlen p) el' es fr [] (mk_segment _ _ _ 0 _ _) []);
        cbn; try lia.
      constructor; cbn; try easy; [| lia]. apply Forall_cons_iff. split; [exact Hok | easy]. }
    split; [reflexivity |]. split; [| easy].
    unfold rd_buf_content. cbn. unfold content. cbn. unfold payload in *. cbn in *.
    now rewrite app_nil_r.
  - apply wpos_last_at in Hlast. subst l2. cbn in Hmax.
    rewrite room_cons in Hrm. change (room []) with 0 in Hrm.
    destruct (shape_ok_parts _ _ _ _ Hsh) as (H1 & Hs & _).
    pose proof (remains_ok s Hs) as Hrs.
    unfold rd_buf_push0. cbn [at_seg rbuf_wpos rbuf_segments]. rewrite lookup_mid.
    rewrite Z.gtb_ltb. destruct (Z.ltb_spec 0 (rd_segment_write_remains s)) as [Hlt | Hge].
    + destruct (split_last junk cnt len er sz el es fr l1 s Hsh Hlt ltac:(lia))
        as (el1 & s1 & t & E & Hsh1 & Hr1 & Hp1 & Hz1 & Ht).
      rewrite E.
      destruct (alloc_segment0_spec junk
        (at_seg cnt len er (sz - rd_segment_write_remains s) el1 es fr l1 s1 []) 0 ltac:(lia))
        as (el2 & n & -> & _ & Hnf).
      destruct (pushed_segment p (seg_absof n) free_cb (seg_flags n) writable Hnf)
        as (Hok & Hof & Hsize & Hpay & Hr0).
      set (pt := mk_segment p _ _ _ _ _) in *.
      change (buf_set_extra_len (at_seg cnt len er (sz - rd_segment_write_remains s) el1 es fr l1 s1 []) el2)
        with (at_seg cnt len er (sz - rd_segment_write_remains s) el2 es fr l1 s1 []).
      destruct (append_to_full cnt len er (sz - rd_segment_write_remains s) el2 es fr l1 s1 pt
                  Hsh1 Hr1 Hok) as [-> Hsh2].
      destruct (append_to_full (cnt + 1) (len + seg_of pt) er
                  (sz - rd_segment_write_remains s + seg_size pt) el2 es fr (l1 ++ [s1])
                  (seg_set_absof pt len) t Hsh2 Hr0 ltac:(apply Ht)) as [-> Hsh3].
      destruct Ht as (Htok & Hto & Htz & Htr).
      assert (rd_segment_write_remains t = rd_segment_write_remains s) as Htw
        by (unfold rd_segment_write_remains at 1; rewrite Htr; lia).
      eexists. split; [reflexivity |]. rewrite Hto, Htz, Hof, Hsize in *. split.
      { apply wf_at; try assumption; try lia.
        - rewrite Hcnt, !length_app. cbn. lia.
        - rewrite !sum_size_app, !sum_size_cons, Hz1. cbn. rewrite Htz, Hsz, sum_size_app.
          cbn. lia.
        - rewrite room_set_absof, room_cons. change (room []) with 0. lia. }
      split; [now apply wpos_last_at |]. split; [| cbn; lia].
      unfold rd_buf_content. cbn [at_seg rbuf_segments].
      rewrite !content_app, !content_cons, !app_nil_r, Hp1.
      change (payload (seg_set_absof pt len)) with (payload pt). rewrite Hpay.
      assert (payload t = []) as Hpt by (unfold payload; now rewrite Hto, ztake_nonpos).
      change (payload (seg_set_absof t (len + zlen p))) with (payload t). rewrite Hpt.
      now rewrite app_nil_r.
    + destruct (alloc_segment0_spec junk (at_seg cnt len er sz el es fr l1 s []) 0 ltac:(lia))
        as (el2 & n & En & _ & Hnf).
      rewrite En.
      destruct (pushed_segment p (seg_absof n) free_cb (seg_flags n) writable Hnf)
        as (Hok & Hof & Hsize & Hpay & Hr0).
      set (pt := mk_segment p _ _ _ _ _) in *.
      change (buf_set_extra_len (at_seg cnt len er sz el es fr l1 s []) el2)
        with (at_seg cnt len er sz el2 es fr l1 s []).
      destruct (append_to_full cnt len er sz el2 es fr l1 s pt Hsh ltac:(lia) Hok) as [-> Hsh2].
      eexists. split; [reflexivity |]. rewrite Hof, Hsize in *. split.
      { apply wf_at; try assumption; try lia.
        - rewrite Hcnt, !length_app. cbn. lia.
        - rewrite !sum_size_app, !sum_size_cons. cbn. rewrite Hsz, sum_size_app. cbn. lia.
        - rewrite room_set_absof, room_cons, Hr0. change (room []) with 0. lia. }
      split; [now apply wpos_last_at |]. split; [| cbn; lia].
      unfold rd_buf_content. cbn [at_seg rbuf_segments].
      rewrite !content_app, !content_cons, !app_nil_r.
      change (payload (seg_set_absof pt len)) with (payload pt). now rewrite Hpay.
Qed.

End Push.

(** ** Seeks *)

Lemma destroy_tail_spec tail : forall l cnt w len er sz el es fr,
  Forall seg_ok (l ++ tail) -> zlen (l ++ tail) <= cnt -> sum_of (l ++ tail) <= len ->
  sum_size (l ++ tail) <= sz ->
  exists w' fr', destroy_tail (length tail) (mk_buf (l ++ tail) cnt w len er sz el es fr) =
    Some (mk_buf l (cnt - zlen tail) w' (len - sum_of tail) er (sz - sum_size tail) el es fr').
Proof.
  induction tail as [| s tail IH] using rev_ind; intros l cnt w len er sz el es fr Hok Hc Hl Hs.
  - exists w, fr. rewrite app_nil_r. cbn. now rewrite !Z.sub_0_r.
  - rewrite app_assoc in *.
    assert (length (tail ++ [s]) = S (length tail)) as El by (rewrite length_app; cbn; lia).
    pose proof Hok as Hok'. apply Forall_app in Hok' as [Hok1 Hs1].
    pose proof (sum_of_nonneg _ Hok1).
    apply Forall_cons_iff in Hs1 as [[? ?] _].
    assert (0 <= sum_size (l ++ tail)) as Hz.
    { clear -Hok1. induction Hok1 as [| t k [? ?] ? IHk]; [easy |]. rewrite sum_size_cons. lia. }
    rewrite length_app in Hc. cbn in Hc.
    rewrite !sum_of_app, sum_of_cons in Hl. rewrite !sum_size_app, sum_size_cons in Hs.
    rewrite sum_of_app in H. rewrite sum_size_app in Hz.
    change (sum_of []) with 0 in *. change (sum_size []) with 0 in *.
    rewrite El. cbn [destroy_tail rbuf_segments].
    replace (Nat.pred (length ((l ++ tail) ++ [s]))) with (length (l ++ tail))
      by (rewrite (length_app (l ++ tail)); cbn; lia).
    unfold rd_buf_destroy_segment. cbn [rbuf_segments]. rewrite lookup_mid.
    cbn [rbuf_segment_cnt rbuf_wpos rbuf_len rbuf_erased rbuf_size rbuf_extra_len
         rbuf_extra_size rbuf_freed]. unfold rd_assert.
    rewrite Z.gtb_ltb, !Z.geb_leb. ztest. cbn [andb].
    rewrite delete_middle, app_nil_r.
    match goal with |- context [destroy_tail _ (mk_buf _ _ ?w1 _ _ _ _ _ ?fr1)] =>
      destruct (IH l (cnt - 1) w1 (len - seg_of s) er (sz - seg_size s) el es fr1)
        as (w' & fr' & E)
    end; [exact Hok1 | lia | rewrite sum_of_app; lia | rewrite sum_size_app; lia |].
    rewrite E. exists w', fr'. rewrite sum_of_app, sum_size_app.
    do 2 f_equal; cbn; lia.
Qed.

(** The byte at [absof] lies in memory the buffer may write to. *)
Definition writable_at (b : rd_buf) (absof : Z) : Prop :=
  Forall (fun s => seg_absof s <= absof < seg_absof s + seg_of s ->
                   rd_segment_is_rdonly s = false) (rbuf_segments b).

Lemma rd_buf_write_seek_spec b absof :
  wf b -> 0 <= absof < rbuf_len b ->
  exists b', rd_buf_write_seek b absof = Some (b', 0) /\
    rd_buf_content b' = ztake absof (rd_buf_content b) /\ rbuf_len b' = absof /\
    rbuf_erased b' = rbuf_erased b /\ wpos_last b' /\
    (rbuf_erased b = 0 -> writable_at b absof -> wf b').
Proof.
  intros Hb Ha. pose proof (wf_len_max b Hb).
  destruct (segment_at_offset b (rbuf_wpos b) absof Hb (or_intror eq_refl) Ha)
    as (l1 & s & l2 & back & E & Hok & Hp & Hah & Hl & Hwp & Hin & Hso & Hget).
  assert (Forall seg_ok l1 /\ seg_ok s /\ Forall seg_ok (l2 ++ back)) as (H1 & Hs & H2).
  { apply Forall_app in Hok as [? Hok]. now apply Forall_cons_iff in Hok. }
  destruct (ahead_content _ _ Hah) as [Eb Eso].
  pose proof Hb as Hb0.
  apply wf_cases in Hb as
    [(el & es & fr & ->) | (cnt & len & er & sz & el & es & fr & m1 & t & m2 & -> & Hsh & Hcnt & Hsz & Hm & Her & Hrm)];
    [cbn in Ha; lia |].
  cbn [at_seg rbuf_segments rbuf_wpos rbuf_len] in *.
  unfold rd_buf_write_seek, at_seg. cbn [rbuf_wpos rbuf_segments] in *.
  unfold at_seg in Hget. rewrite Hget, E, lookup_mid.
  replace (absof - seg_absof s) with (absof - sum_of l1) by lia.
  rewrite Z.gtb_ltb. ztest.
  replace (length (l1 ++ s :: l2 ++ back) - S (length l1))%nat with (length (l2 ++ back))
    by (rewrite !length_app; cbn; rewrite length_app; lia).
  change (l1 ++ s :: l2 ++ back) with (l1 ++ [s] ++ (l2 ++ back)).
  rewrite app_assoc.
  rewrite E in Hcnt, Hsz.
  destruct (destroy_tail_spec (l2 ++ back) (l1 ++ [s]) cnt (Some (length m1)) len er sz el es fr)
    as (w' & fr' & ->).
  { now rewrite <- app_assoc. }
  { rewrite Hcnt, <- app_assoc. cbn [app]. lia. }
  { rewrite <- app_assoc. cbn [app].
    rewrite Hl, !sum_of_app, !sum_of_cons, sum_of_app. lia. }
  { rewrite Hsz, <- app_assoc. cbn [app]. lia. }
  cbn [buf_set_segments buf_set_wpos buf_set_len rbuf_segments rbuf_len rbuf_segment_cnt
       rbuf_erased rbuf_size rbuf_extra_len rbuf_extra_size rbuf_freed].
  rewrite insert_mid. unfold rd_assert. ztest.
  assert (seg_ok (seg_set_of s (absof - sum_of l1))) as Hs'
    by (destruct Hs; split; cbn; lia).
  eexists. split; [reflexivity |].
  unfold buf_set_len, buf_set_wpos, buf_set_segments.
  cbn [rbuf_segments rbuf_segment_cnt rbuf_wpos rbuf_len rbuf_erased rbuf_size rbuf_extra_len
       rbuf_extra_size rbuf_freed].
  split; [| split; [lia |]].
  { unfold rd_buf_content, at_seg. cbn [rbuf_segments]. rewrite ?E.
    rewrite !content_app, !content_cons. change (content []) with (@nil Z).
    rewrite !app_nil_r, <- !app_assoc, ztake_app, (ztake_all absof (content l1))
      by (rewrite content_len by assumption; lia).
    rewrite content_len by assumption. f_equal. rewrite ztake_app, payload_len by assumption.
    rewrite (ztake_nonpos _ (content _ ++ _)) by lia. rewrite app_nil_r.
    unfold payload. cbn. rewrite ztake_take. f_equal. lia. }
  split; [reflexivity |]. split.
  { unfold wpos_last. cbn. rewrite length_app. cbn. lia. }
  intros Her0 Hwr.
  assert (rd_segment_is_rdonly s = false) as Hro.
  { unfold writable_at, at_seg in Hwr. cbn [rbuf_segments] in Hwr.
    rewrite <- app_assoc in Hwr.
    apply Forall_app in Hwr as [_ Hwr]. apply Forall_cons_iff in Hwr as [Hwr _].
    apply Hwr. lia. }
  cbn in Her0.
  apply (wf_at _ _ _ _ _ _ _ l1 (seg_set_of s (absof - sum_of l1)) []); try lia.
  - constructor; [| | constructor |].
    + apply Forall_app; split; [assumption |]. now apply Forall_cons_iff.
    + apply placed_app. apply placed_app in Hp as [Hp _]. split; [exact Hp |].
      split; [cbn; lia | exact I].
    + rewrite sum_of_app, sum_of_cons. cbn. lia.
  - rewrite Hcnt, !length_app. cbn. rewrite length_app. lia.
  - rewrite Hsz, !sum_size_app, !sum_size_cons, sum_size_app. cbn. lia.
  - rewrite Hsz in Hm |- *. rewrite !sum_size_app, !sum_size_cons, sum_size_app in *.
    pose proof (sum_slack _ H2) as Hs2. pose proof (sum_of_nonneg _ H2).
    rewrite sum_size_app in Hs2. lia.
  - (* the segments before the write position have no slack *)
    assert (sum_size l1 <= sum_of l1) as Hfull.
    { assert (m1 = l1 ++ take (length l2) (s :: l2 ++ back)) as Em.
      { rewrite <- (take_app_length m1 (t :: m2)), E.
        replace (length m1) with (length l1 + length l2)%nat
          by (injection Hwp; rewrite length_app; lia).
        apply take_app_add. }
      destruct (shape_ok_parts _ _ _ _ Hsh) as (Hm1 & Ht & Hm2).
      pose proof (room_slack (t :: m2) ltac:(now apply Forall_cons_iff)) as Hrs.
      rewrite <- E in Hsz. rewrite Hsz, sum_size_app in Hrm.
      rewrite (shape_len _ _ _ _ Hsh) in Hrm. rewrite sum_of_cons in Hrs.
      rewrite (proj2 (ahead_content _ _ (sh_ahead _ _ _ _ Hsh))) in Hrs.
      rewrite Em in Hm1. apply Forall_app in Hm1 as [_ Hm1].
      pose proof (sum_slack _ Hm1).
      assert (sum_size m1 - sum_of m1 <= 0) as Hz by lia.
      rewrite Em, sum_size_app, sum_of_app in Hz. lia. }
    rewrite Hsz, !sum_size_app, !sum_size_cons, sum_size_app, room_cons.
    unfold rd_segment_write_remains, rd_segment_is_rdonly in *. cbn [seg_set_of seg_flags seg_size seg_of].
    rewrite Hro. pose proof (sum_slack _ H1). destruct Hs.
    change (sum_size []) with 0. change (room []) with 0. lia.
Qed.

(** ** Erasure *)

Lemma erase_loop_done n b i absof off size :
  size <= off -> erase_loop n b i absof off size = Some (b, off, i).
Proof. intros. destruct n; cbn; ztest; reflexivity. Qed.

(** What the first loop of [rd_buf_erase] leaves of the segments [l], the first
    of them at offset [p] and the erasure starting [q] bytes into them: segments
    [dn] already moved to their new offsets and segments [rest] not yet moved. *)
Definition erase_post (b : rd_buf) (l1 l : list rd_segment) (p off size q : Z)
  (r : option (rd_buf * Z * nat)) : Prop :=
  exists b' dn rest n,
    r = Some (b', off + n, length (l1 ++ dn)) /\
    rbuf_segments b' = l1 ++ dn ++ rest /\ n = Z.min (size - off) (sum_of l - q) /\
    Forall seg_ok (dn ++ rest) /\ placed (p - off) dn /\
    placed (p + n + sum_of dn) rest /\
    content (dn ++ rest) = ztake q (content l) ++ zdrop (q + n) (content l) /\
    rbuf_len b' = rbuf_len b - n /\ rbuf_erased b' = rbuf_erased b.

(** The counters cover the segments. *)
Definition counters_cover (b : rd_buf) : Prop :=
  zlen (rbuf_segments b) <= rbuf_segment_cnt b /\ sum_of (rbuf_segments b) <= rbuf_len b /\
  sum_size (rbuf_segments b) <= rbuf_size b.

Lemma erase_post_done n b l1 l p absof off size q :
  rbuf_segments b = l1 ++ l -> Forall seg_ok l -> placed p l -> size = off ->
  0 <= q <= sum_of l ->
  erase_post b l1 l p off size q (erase_loop n b (length l1) absof off size).
Proof.
  intros E Hok Hp -> Hq. rewrite erase_loop_done by lia.
  exists b, [], l, 0. rewrite !Z.add_0_r, !app_nil_r, Z.sub_0_r.
  repeat split; try assumption; try lia. cbn [app]. now rewrite ztake_drop.
Qed.

(** A segment the erasure does not reach, only moved. *)
Lemma erase_post_keep b b2 l1 s l p off size r :
  seg_ok s -> rbuf_len b2 = rbuf_len b -> rbuf_erased b2 = rbuf_erased b -> seg_absof s = p ->
  Forall seg_ok l -> off <= size ->
  erase_post b2 (l1 ++ [seg_set_absof s (seg_absof s - off)]) l (p + seg_of s) off size 0 r ->
  erase_post b l1 (s :: l) p off size (seg_of s) r.
Proof.
  intros Hs El Ee Ha Hl Hsz
    (b' & dn & rest & n & -> & E & Hn & Hok & Hp1 & Hp2 & Hc & Hlen & Her).
  pose proof (sum_of_nonneg l Hl).
  exists b', (seg_set_absof s (seg_absof s - off) :: dn), rest, n.
  split; [do 2 f_equal; rewrite !length_app; cbn; lia |].
  split; [rewrite E, <- app_assoc; reflexivity |].
  split; [rewrite sum_of_cons; lia |].
  split; [now apply Forall_cons_iff |].
  split; [split; [cbn; lia | cbn; now replace (p - off + seg_of s) with (p + seg_of s - off) by lia] |].
  split; [rewrite sum_of_cons; cbn [seg_set_absof seg_of];
          now replace (p + n + (seg_of s + sum_of dn)) with (p + seg_of s + n + sum_of dn) by lia |].
  split; [| split; congruence].
  cbn [app]. rewrite !content_cons, Hc.
  change (payload (seg_set_absof s _)) with (payload s).
  rewrite ztake_app, zdrop_app, payload_len by assumption.
  rewrite (ztake_all _ (payload s)), (zdrop_all _ (payload s)), Z.sub_diag
    by (rewrite payload_len by assumption; lia).
  rewrite <- app_assoc. do 2 f_equal. cbn [app]. f_equal. lia.
Qed.

(** A segment the erasure takes bytes from; [s2] is what is left of it, unless
    nothing is. *)
Lemma erase_post_cut b b2 l1 s l p off size q d s2 r :
  seg_ok s -> Forall seg_ok l -> 0 <= q -> 0 < d -> d = Z.min (seg_of s - q) (size - off) ->
  rbuf_len b2 = rbuf_len b - d -> rbuf_erased b2 = rbuf_erased b ->
  seg_ok s2 -> seg_of s2 = seg_of s - d -> seg_absof s2 = p - off ->
  payload s2 = ztake q (payload s) ++ zdrop (q + d) (payload s) ->
  let l1' := if seg_of s2 =? 0 then l1 else l1 ++ [s2] in
  let q2 := Z.max 0 (q + d - seg_of s) in
  erase_post b2 l1' l (p + seg_of s) (off + d) size q2 r ->
  erase_post b l1 (s :: l) p off size q r.
Proof.
  intros Hs Hl Hq Hd Ed El Ee Hs2 Hof2 Ha2 Hp2 l1' q2
    (b' & dn & rest & n & -> & E & Hn & Hok & Hd1 & Hd2 & Hc & Hlen & Her).
  pose proof (sum_of_nonneg l Hl). assert (q2 = 0) as Eq by (unfold q2; lia). rewrite Eq in *.
  assert (n = Z.min (size - off - d) (sum_of l)) as Hn' by lia.
  exists b', (if seg_of s2 =? 0 then dn else s2 :: dn), rest, (d + n).
  assert (ztake q (payload s ++ content l) ++ zdrop (q + (d + n)) (payload s ++ content l)
          = payload s2 ++ zdrop n (content l)) as Hcc.
  { rewrite ztake_app, zdrop_app, Hp2, payload_len by assumption.
    rewrite (ztake_nonpos (q - _)) by lia. rewrite app_nil_r, <- app_assoc. f_equal.
    destruct (Z.eq_dec n 0) as [-> | Hnz].
    - rewrite Z.add_0_r. f_equal. rewrite !zdrop_nonpos; try lia. reflexivity.
    - replace (q + (d + n) - seg_of s) with n by lia. f_equal.
      rewrite !zdrop_all; try reflexivity; rewrite payload_len by assumption; lia. }
  change (ztake 0 (content l)) with (@nil Z) in Hc. cbn [app] in Hc.
  replace (0 + n) with n in Hc by lia. rewrite !content_cons, Hcc.
  unfold l1' in *. destruct (Z.eqb_spec (seg_of s2) 0) as [Ez | Ez].
  - assert (payload s2 = []) as -> by (unfold payload; now rewrite Ez, ztake_nonpos).
    split; [do 3 f_equal; lia |]. split; [exact E |].
    split; [rewrite sum_of_cons; lia |]. split; [exact Hok |].
    split; [now replace (p - off) with (p + seg_of s - (off + d)) by lia |].
    split; [now replace (p + (d + n) + sum_of dn) with (p + seg_of s + n + sum_of dn) by lia |].
    split; [exact Hc |]. split; [lia | congruence].
  - split; [do 2 f_equal; [f_equal; lia |]; rewrite !length_app; cbn; lia |].
    split; [rewrite E, <- app_assoc; reflexivity |].
    split; [rewrite sum_of_cons; lia |]. split; [now apply Forall_cons_iff |].
    split; [split; [lia | now replace (p - off + seg_of s2) with (p + seg_of s - (off + d)) by lia] |].
    split; [rewrite sum_of_cons; now replace (p + (d + n) + (seg_of s2 + sum_of dn))
              with (p + seg_of s + n + sum_of dn) by lia |].
    split; [cbn [app]; now rewrite content_cons, Hc |]. split; [lia | congruence].
Qed.

(** Moving a segment's bytes down over the erased ones. *)
Definition cut_segment (s : rd_segment) (absof q d : Z) : rd_segment :=
  seg_set_of
    (seg_set_p (seg_set_absof s absof)
       (ztake q (seg_p s) ++ ztake (seg_of s - (q + d)) (zdrop (q + d) (seg_p s))
        ++ zdrop (seg_of s - d) (seg_p s)))
    (seg_of s - d).

Lemma cut_segment_spec s absof q d :
  seg_ok s -> 0 <= q -> 0 <= d -> q + d <= seg_of s ->
  seg_ok (cut_segment s absof q d) /\
  payload (cut_segment s absof q d) = ztake q (payload s) ++ zdrop (q + d) (payload s).
Proof.
  intros [Ho Hl] Hq Hd Hqd. split.
  - split; cbn; [lia |]. zlen_lia.
  - unfold payload, cut_segment. cbn [seg_set_of seg_set_p seg_set_absof seg_of seg_p].
    rewrite ztake_app, (ztake_all _ (ztake q _)) by zlen_lia.
    rewrite ztake_app, (ztake_all _ (ztake (_ - _) _)) by zlen_lia.
    rewrite (ztake_nonpos _ (zdrop (_ - d) _)) by zlen_lia.
    rewrite app_nil_r, ztake_take, Z.min_l, zdrop_take by lia. reflexivity.
Qed.

Lemma erase_loop_spec l : forall l1 b p absof off size q,
  rbuf_segments b = l1 ++ l -> Forall seg_ok l -> placed p l ->
  Forall (fun s => seg_absof s < absof + size -> rd_segment_is_rdonly s = false) l ->
  counters_cover b -> Forall seg_ok l1 ->
  0 <= off <= size -> 0 <= p -> p + sum_of l < 2 ^ 64 ->
  q = absof + off - p -> 0 <= q -> match l with s :: _ => q <= seg_of s | [] => q = 0 end ->
  erase_post b l1 l p off size q (erase_loop (length l) b (length l1) absof off size).
Proof.
  induction l as [| s l IH];
    intros l1 b p absof off size q E Hok Hp Hro Hcov Hok1 Hoff Hp0 Hmax Hq Hq0 Hqs.
  - subst q. rewrite Hqs in *. cbn [length erase_loop].
    exists b, [], [], 0. rewrite !Z.add_0_r, !app_nil_r in *.
    repeat split; try assumption; try lia. cbn. lia.
  - destruct (Z.eq_dec off size) as [Es | Es].
    { rewrite sum_of_cons in Hmax. apply erase_post_done; try assumption; try easy.
      rewrite sum_of_cons. apply Forall_cons_iff in Hok as [_ Hok].
      pose proof (sum_of_nonneg l Hok). lia. }
    apply Forall_cons_iff in Hok as [Hs Hok]. apply Forall_cons_iff in Hro as [Hros Hro].
    destruct Hp as [Hps Hp]. rewrite sum_of_cons in Hmax.
    pose proof (sum_of_nonneg l Hok). pose proof (proj1 Hs). pose proof (sum_of_nonneg l1 Hok1).
    destruct Hcov as (Hc1 & Hc2 & Hc3). rewrite E in Hc1, Hc2, Hc3.
    cbn [length erase_loop]. ztest. rewrite E, lookup_mid.
    cbn [seg_set_absof seg_of seg_p seg_flags buf_set_segments rbuf_segments].
    rewrite (wrap_small 64 (absof + off - seg_absof s)) by lia.
    replace (absof + off - seg_absof s) with q by lia.
    rewrite (wrap_small 64 (seg_of s - q)), RD_MIN_min by lia.
    rewrite !insert_mid.
    set (d := Z.min (seg_of s - q) (size - off)).
    destruct (Z.eqb_spec d 0) as [Ed | Ed].
    + (* nothing to erase here *)
      replace q with (seg_of s) by lia.
      replace (S (length l1)) with (length (l1 ++ [seg_set_absof s (seg_absof s - off)]))
        by (rewrite length_app; cbn; lia).
      eapply erase_post_keep; [assumption | | | | assumption | lia | apply IH];
        cbn [buf_set_segments rbuf_len rbuf_erased rbuf_segments]; try assumption; try lia;
        try reflexivity.
      * rewrite <- app_assoc. reflexivity.
      * repeat split; cbn; rewrite ?sum_of_app, ?sum_size_app, ?length_app in *; cbn in *; lia.
      * apply Forall_app; split; [assumption |]. now apply Forall_cons_iff.
      * destruct l; [lia |]. apply Forall_cons_iff in Hok as [[? _] _]. lia.
    + (* the cut *)
      change (rd_segment_is_rdonly (seg_set_absof s (seg_absof s - off)))
        with (rd_segment_is_rdonly s).
      rewrite Hros by lia. cbn [negb rd_assert].
      destruct (cut_segment_spec s (seg_absof s - off) q d Hs) as [Hok2 Hpay2]; try lia.
      fold (cut_segment s (seg_absof s - off) q d).
      assert (forall l1' b2, rbuf_segments b2 = l1' ++ l -> counters_cover b2 ->
                Forall seg_ok l1' ->
                erase_post b2 l1' l (p + seg_of s) (off + d) size
                  (Z.max 0 (q + d - seg_of s))
                  (erase_loop (length l) b2 (length l1') absof (off + d) size)) as Hnext.
      { intros l1' b2 E2 Hcov2 Hok1'. replace (Z.max 0 (q + d - seg_of s)) with 0 by lia.
        destruct (Z.eq_dec (off + d) size) as [Ef | Ef].
        - apply erase_post_done; try assumption; lia.
        - apply IH; try assumption; try lia.
          destruct l; [lia |]. apply Forall_cons_iff in Hok as [[? _] _]. lia. }
      set (s2 := cut_segment s (seg_absof s - off) q d) in *.
      assert (seg_of s2 = seg_of s - d /\ seg_size s2 = seg_size s /\ seg_absof s2 = p - off)
        as (Eo2 & Ez2 & Ea2) by (cbn; lia).
      rewrite sum_of_app, sum_of_cons in Hc2. rewrite sum_size_app, sum_size_cons in Hc3.
      rewrite length_app in Hc1. cbn [length] in Hc1.
      pose proof (sum_slack _ Hok1). pose proof (sum_slack _ Hok). pose proof (proj1 Hok2).
      assert (d = Z.min (seg_of s - q) (size - off)) as Ed' by reflexivity.
      destruct (seg_of s2 =? 0) eqn:Ez.
      * unfold rd_buf_destroy_segment. cbn [buf_set_segments buf_set_len rbuf_segments
          rbuf_segment_cnt rbuf_len rbuf_size rbuf_wpos rbuf_erased rbuf_extra_len
          rbuf_extra_size rbuf_freed].
        rewrite lookup_mid. unfold rd_assert. rewrite Z.gtb_ltb, !Z.geb_leb. zbool. ztest.
        cbn [andb]. rewrite delete_middle.
        eapply erase_post_cut with (d := d) (s2 := s2); try eassumption; try lia;
          [| | apply Z.eqb_eq in Ez; rewrite Ez; apply Hnext]; cbn; try lia; try assumption;
          try reflexivity.
        unfold counters_cover. cbn [rbuf_segments rbuf_segment_cnt rbuf_len rbuf_size].
        rewrite sum_of_app, sum_size_app, length_app. lia.
      * replace (S (length l1)) with (length (l1 ++ [s2])) by (rewrite length_app; cbn; lia).
        eapply erase_post_cut with (d := d) (s2 := s2); try eassumption; try lia;
          [| | rewrite Ez; apply Hnext]; cbn; try lia; try assumption; try reflexivity.
        -- now rewrite <- app_assoc.
        -- unfold counters_cover. cbn [buf_set_segments buf_set_len rbuf_segments
             rbuf_segment_cnt rbuf_len rbuf_size].
           rewrite sum_of_app, sum_size_app, length_app, sum_of_cons, sum_size_cons.
           cbn [length]. lia.
        -- apply Forall_app; split; [assumption |]. now apply Forall_cons_iff.
Qed.

Lemma wf_counters_cover b : wf b -> counters_cover b.
Proof.
  intros Hb. apply wf_cases in Hb as
    [(el & es & fr & ->) | (cnt & len & er & sz & el & es & fr & m1 & t & m2 & -> & Hsh & Hcnt & Hsz & _)];
    [easy |].
  unfold counters_cover, at_seg. cbn [rbuf_segments rbuf_segment_cnt rbuf_len rbuf_size].
  rewrite sum_of_app, sum_of_cons, (proj2 (ahead_content _ _ (sh_ahead _ _ _ _ Hsh))).
  rewrite (shape_len _ _ _ _ Hsh). lia.
Qed.

Lemma erase_shift_spec l : forall x off,
  Forall seg_ok l -> placed (x + off) l -> 0 <= x ->
  exists l', erase_shift l off = Some l' /\ placed x l' /\ Forall seg_ok l' /\
    content l' = content l /\ sum_of l' = sum_of l.
Proof.
  induction l as [| s l IH]; intros x off Hok Hp Hx; [exists []; easy |].
  apply Forall_cons_iff in Hok as [Hs Hok]. destruct Hp as [Ha Hp].
  destruct (IH (x + seg_of s) off Hok) as (l' & E & Hp' & Hok' & Hc & Hso).
  { now replace (x + seg_of s + off) with (x + off + seg_of s) by lia. }
  { pose proof (proj1 Hs). lia. }
  cbn [erase_shift]. unfold rd_assert. rewrite Z.geb_leb. ztest. rewrite E.
  exists (seg_set_absof s (seg_absof s - off) :: l'). split; [reflexivity |].
  rewrite !content_cons, !sum_of_cons, Hc, Hso. repeat split; try assumption; cbn; try lia.
  now apply Forall_cons_iff.
Qed.

(** No byte of the region is in a read-only segment. *)
Definition erasable (b : rd_buf) (absof size : Z) : Prop :=
  Forall (fun s => absof < seg_absof s + seg_of s -> seg_absof s < absof + size ->
                   rd_segment_is_rdonly s = false) (rbuf_segments b).

Lemma placed_absof_ge p l : Forall seg_ok l -> placed p l -> Forall (fun s => p <= seg_absof s) l.
Proof.
  revert p; induction l as [| s l IH]; intros p Hok Hp; [constructor |].
  apply Forall_cons_iff in Hok as [[? _] Hok]. destruct Hp as [Ha Hp].
  constructor; [lia |]. eapply Forall_impl; [| apply (IH _ Hok Hp)]. cbn. lia.
Qed.

Lemma rd_buf_erase_spec b absof size :
  wf b -> wpos_last b -> 0 <= absof < rbuf_len b -> 0 < size ->
  erasable b absof size ->
  let n := Z.min size (rbuf_len b - absof) in
  exists b', rd_buf_erase b absof size = Some (b', n) /\
    rd_buf_content b' = ztake absof (rd_buf_content b) ++ zdrop (absof + n) (rd_buf_content b) /\
    rbuf_len b' = rbuf_len b - n /\ rbuf_erased b' = rbuf_erased b + n /\
    placed 0 (rbuf_segments b') /\ Forall seg_ok (rbuf_segments b').
Proof.
  intros Hb Hlast Ha Hsize Hera n. pose proof (wf_len_max b Hb).
  destruct (segment_at_offset b None absof Hb (or_introl eq_refl) Ha)
    as (l1 & s & l2 & back & E & Hok & Hp & Hah & Hl & Hwp & Hin & Hso & Hget).
  unfold wpos_last in Hlast. rewrite Hwp, E in Hlast.
  assert (back = []) as ->.
  { destruct back; [reflexivity |].
    rewrite !length_app in Hlast. cbn in Hlast. rewrite length_app in Hlast. cbn in Hlast. lia. }
  rewrite app_nil_r in *.
  unfold rd_buf_erase. rewrite Hget, E.
  replace (length (l1 ++ s :: l2) - length l1)%nat with (length (s :: l2))
    by (rewrite length_app; lia).
  pose proof Hok as Hok'. apply Forall_app in Hok' as [Hok1 Hok2].
  apply placed_app in Hp as [Hp1 Hp2]. cbn [Z.add] in Hp2.
  pose proof (sum_of_nonneg l1 Hok1).
  pose proof Hl as Hl'. rewrite sum_of_app in Hl'.
  destruct (erase_loop_spec (s :: l2) l1 b (sum_of l1) absof 0 size (absof - sum_of l1))
    as (b' & dn & rest & n' & -> & Eb' & Hn & Hokr & Hd1 & Hd2 & Hc & Hlen & Her);
    try assumption; try lia.
  { unfold erasable in Hera. rewrite E in Hera. apply Forall_app in Hera as [_ Hera].
    apply Forall_cons_iff in Hera as [He Hera]. apply Forall_cons_iff.
    split; [apply He; lia |].
    apply Forall_cons_iff in Hok2 as [_ Hok2]. destruct Hp2 as [_ Hp2].
    pose proof (placed_absof_ge _ _ Hok2 Hp2) as Hge.
    rewrite Forall_forall in *. intros x Hx. pose proof (Hge x Hx) as Hgx. cbv beta in Hgx. pose proof (Hok2 x Hx) as [? _].
    apply Hera; [assumption | lia]. }
  { now apply wf_counters_cover. }
  assert (n' = n) as -> by lia.
  rewrite Z.add_0_l. ztest. rewrite Eb'.
  rewrite app_assoc, drop_app_length, take_app_length.
  apply Forall_app in Hokr as [Hokd Hokr].
  destruct (erase_shift_spec rest (sum_of l1 + sum_of dn) n) as (rest' & -> & Hp' & Hokr' & Hcr & _).
  { assumption. }
  { now replace (sum_of l1 + sum_of dn + n) with (sum_of l1 + n + sum_of dn) by lia. }
  { pose proof (sum_of_nonneg dn Hokd). lia. }
  eexists. split; [reflexivity |].
  unfold rd_buf_content, buf_set_erased, buf_set_segments.
  cbn [rbuf_segments rbuf_len rbuf_erased]. rewrite E.
  split.
  { rewrite content_app in Hc. rewrite !content_app, Hcr, <- app_assoc, Hc.
    rewrite ztake_app, zdrop_app, content_len by assumption.
    rewrite (ztake_all absof), (zdrop_all (absof + n)) by
      (rewrite content_len by assumption; lia).
    rewrite <- app_assoc. cbn [app]. do 3 f_equal. lia. }
  split; [lia |]. split; [lia |]. split.
  - rewrite <- app_assoc. apply placed_app. split; [exact Hp1 |].
    apply placed_app. split; [now rewrite Z.sub_0_r in Hd1 | exact Hp'].
  - now rewrite !Forall_app.
Qed.
