(* ===== verification/Slice.v ===== *)
(** * Buffer slices (src/cbits/hs_rdbuf.h, hs_rdbuf.c)

    [rd_slice_t]: a read position in a window of a segmented buffer.  Reads do
    not modify the buffer; the buffer the slice points to is the argument [rb]
    of the operations. *)

From S2P Require Import Prelude Varint RdBuf.

(** ** State *)

(** [sl_seg] is the segment of the read position: an index, or NULL. *)
Record rd_slice := mk_slice {
  sl_seg : option nat;
  sl_rof : Z;
  sl_start : Z;
  sl_end : Z }.

Definition slice_set_end (s : rd_slice) (v : Z) : rd_slice :=
  mk_slice (sl_seg s) (sl_rof s) (sl_start s) v.
Definition slice_set_start (s : rd_slice) (v : Z) : rd_slice :=
  mk_slice (sl_seg s) (sl_rof s) v (sl_end s).
Definition slice_set_pos (s : rd_slice) (i : nat) (rof : Z) : rd_slice :=
  mk_slice (Some i) rof (sl_start s) (sl_end s).

Section Reader.

Variable rb : rd_buf.

(** The segment the slice is at. *)
Definition slice_seg (s : rd_slice) : option rd_segment :=
  match sl_seg s with Some i => rbuf_segments rb !! i | None => None end.

(** ** Positions *)

Definition rd_slice_size (s : rd_slice) : Z := u64 (sl_end s - sl_start s).

Definition rd_slice_pos (s : rd_slice) : rd_slice :=
  match slice_seg s with
  | None => s
  | Some seg => slice_set_start s (u64 (seg_absof seg + sl_rof s))
  end.

Definition rd_slice_abs_offset (s : rd_slice) : Z :=
  match slice_seg s with
  | None => sl_end s
  | Some seg => u64 (seg_absof seg + sl_rof s)
  end.

Definition rd_slice_remains (s : rd_slice) : Z := u64 (sl_end s - rd_slice_abs_offset s).

Definition rd_slice_offset (s : rd_slice) : Z :=
  match slice_seg s with
  | None => rd_slice_size s
  | Some seg => u64 (seg_absof seg + sl_rof s - sl_start s)
  end.

(** ** Initialisation

    The result is the slice, or the return value -1 with the slice untouched.
    The sizes come from the network: the sum wraps as [size_t] does. *)

Inductive slice_result : Type :=
| SliceOk (s : rd_slice)
| SliceErr.

Definition rd_slice_init_seg (i : nat) (rof size : Z) : option slice_result :=
  let* seg := rbuf_segments rb !! i in
  if rbuf_len rb <? u64 (seg_absof seg + rof + size) then Some SliceErr
  else
    let s := mk_slice (Some i) rof (u64 (seg_absof seg + rof))
               (u64 (u64 (seg_absof seg + rof) + size)) in
    let* _ := rd_assert ((u64 (seg_absof seg + rof) >=? sl_start s)
                         && (u64 (seg_absof seg + rof) <=? sl_end s)) in
    let* _ := rd_assert (sl_end s <=? rd_buf_len rb) in
    Some (SliceOk s).

Definition rd_slice_init (absof size : Z) : option slice_result :=
  match rd_buf_get_segment_at_offset rb None absof with
  | None => Some SliceErr
  | Some i =>
      let* seg := rbuf_segments rb !! i in
      rd_slice_init_seg i (absof - seg_absof seg) size
  end.

Definition rd_slice_init_full : option rd_slice :=
  let* r := rd_slice_init 0 (rd_buf_len rb) in
  match r with SliceOk s => Some s | SliceErr => None end.

(** ** Reading *)

(** The first loop of [rd_slice_reader0]: the segment, from index [i] on, that
    holds the next bytes, with the offset into it. *)
Fixpoint reader_seek (segs : list rd_segment) (i : nat) (rof end_ : Z)
  : option (nat * rd_segment * Z) :=
  match segs with
  | [] => None
  | seg :: rest =>
      if (seg_absof seg + rof <? end_) && (seg_of seg =? rof)
      then reader_seek rest (S i) 0 end_
      else Some (i, seg, rof)
  end.

(** The slice, and the bytes [p[0..rlen)] handed to the caller: none when the
    return value is 0. *)
Definition rd_slice_reader0 (s : rd_slice) (update_pos : bool) : option (rd_slice * bytes) :=
  match sl_seg s with
  | None => Some (s, [])
  | Some i0 =>
      match reader_seek (drop i0 (rbuf_segments rb)) i0 (sl_rof s) (sl_end s) with
      | None => Some (s, [])
      | Some (i, seg, rof) =>
          if seg_absof seg + rof >=? sl_end s then Some (s, [])
          else
            let rlen := RD_MIN (u64 (seg_of seg - rof)) (rd_slice_remains s) in
            let chunk := ztake rlen (zdrop rof (seg_p seg)) in
            if update_pos then
              if negb (Nat.eqb i0 i) then
                let* _ := rd_assert ((seg_absof seg + rof >=? sl_start s)
                                     && (seg_absof seg + rof + rlen <=? sl_end s)) in
                Some (slice_set_pos s i rlen, chunk)
              else Some (slice_set_pos s i (sl_rof s + rlen), chunk)
            else Some (s, chunk)
      end
  end.

Definition rd_slice_reader (s : rd_slice) := rd_slice_reader0 s true.
Definition rd_slice_peeker (s : rd_slice) := rd_slice_reader0 s false.

(** A loop over [rd_slice_reader] until it returns 0, folding [f] over the
    chunks.  Every chunk but the last ends a segment, so the segments and one
    more round are enough fuel ([reader_loop_spec]). *)
Fixpoint reader_loop {A} (fuel : nat) (f : A -> bytes -> A) (acc : A) (s : rd_slice)
  : option (rd_slice * A) :=
  match fuel with
  | O => None
  | S fuel =>
      let* (s, chunk) := rd_slice_reader s in
      match chunk with
      | [] => Some (s, acc)
      | _ => reader_loop fuel f (f acc chunk) s
      end
  end.

Definition reader_fuel : nat := S (S (length (rbuf_segments rb))).

(** The slice, the return value, and the bytes copied to [dst]. *)
Definition rd_slice_read (s : rd_slice) (size : Z) : option (rd_slice * Z * bytes) :=
  let orig_end := sl_end s in
  if rd_slice_remains s <? size then Some (s, 0, [])
  else
    let s := slice_set_end s (u64 (rd_slice_abs_offset s + size)) in
    let* (s, dst) := reader_loop reader_fuel (fun d p => d ++ p) [] s in
    Some (slice_set_end s orig_end, size, dst).

(** The slice and the return value, 0 or -1. *)
Definition rd_slice_seek (s : rd_slice) (offset : Z) : option (rd_slice * Z) :=
  let absof := u64 (sl_start s + offset) in
  if absof >=? sl_end s then Some (s, -1)
  else
    let* i := rd_buf_get_segment_at_offset rb (sl_seg s) absof in
    let* seg := rbuf_segments rb !! i in
    let s := slice_set_pos s i (absof - seg_absof seg) in
    let* _ := rd_assert ((seg_absof seg + sl_rof s >=? sl_start s)
                         && (seg_absof seg + sl_rof s <=? sl_end s)) in
    Some (s, 0).

Definition rd_slice_peek (s : rd_slice) (offset size : Z) : option (Z * bytes) :=
  let* (sub, r) := rd_slice_seek s offset in
  if r =? -1 then Some (0, [])
  else let* (_, r, dst) := rd_slice_read sub size in Some (r, dst).

(** The inner loop of [rd_slice_read_uvarint] over the bytes of a segment from
    [rof] on.  [VarMore]: the segment ended with the varint incomplete. *)
Inductive varint_scan : Type :=
| VarDone (num rof shift : Z)
| VarMore (num shift : Z)
| VarUnderflow.

Fixpoint uvarint_bytes (data : bytes) (absof rof end_ num shift : Z) : option varint_scan :=
  match data with
  | [] => Some (VarMore num shift)
  | oct :: data =>
      if absof + rof >=? end_ then Some VarUnderflow
      else if shift >=? 64 then None
      else
        let num := Z.lor num (u64 (Z.shiftl (Z.land oct 0x7f) shift)) in
        let shift := shift + 7 in
        if Z.land oct 0x80 =? 0 then Some (VarDone num rof shift)
        else uvarint_bytes data absof (rof + 1) end_ num shift
  end.

(** The outer loop, over the segments from index [i] on: the index and offset of
    the last octet, the number and the octets used. *)
Fixpoint uvarint_segs (segs : list rd_segment) (i : nat) (rof end_ num shift : Z)
  : option (option (nat * Z * Z * Z)) :=
  match segs with
  | [] => Some None
  | seg :: rest =>
      let* r := uvarint_bytes (zdrop rof (ztake (seg_of seg) (seg_p seg)))
                  (seg_absof seg) rof end_ num shift in
      match r with
      | VarDone num rof shift => Some (Some (i, rof, num, shift / 7))
      | VarMore num shift => uvarint_segs rest (S i) 0 end_ num shift
      | VarUnderflow => Some None
      end
  end.

(** The slice, the return value and what [*nump] is set to. *)
Definition rd_slice_read_uvarint (s : rd_slice) : option (rd_slice * Z * option Z) :=
  match sl_seg s with
  | None => Some (s, 0, None)
  | Some i0 =>
      let* r := uvarint_segs (drop i0 (rbuf_segments rb)) i0 (sl_rof s) (sl_end s) 0 0 in
      match r with
      | Some (i, rof, num, n) => Some (slice_set_pos s i (rof + 1), n, Some num)
      | None => Some (s, 0, None)
      end
  end.

(** [(int64_t)((unum >> 1) ^ -(int64_t)(unum & 1))] *)
Definition rd_slice_read_varint (s : rd_slice) : option (rd_slice * Z * option Z) :=
  let* (s, r, unum) := rd_slice_read_uvarint s in
  match unum with
  | Some unum =>
      if r >? 0 then
        Some (s, r, Some (i64 (Z.lxor (Z.shiftr unum 1) (u64 (- i64 (Z.land unum 1))))))
      else Some (s, r, None)
  | None => Some (s, r, None)
  end.

(** The contiguous bytes, or NULL.  A slice at its end has no segment to
    dereference. *)
Definition rd_slice_ensure_contig (s : rd_slice) (size : Z)
  : option (rd_slice * option bytes) :=
  if rd_slice_remains s <? size then Some (s, None)
  else
    let* seg := slice_seg s in
    if u64 (sl_rof s + size) >? seg_of seg then Some (s, None)
    else
      let p := ztake size (zdrop (sl_rof s) (seg_p seg)) in
      let* (s, _, _) := rd_slice_read s size in
      Some (s, Some p).

(** ** Sub-slices

    [rd_slice_narrow] also returns the saved slice; the return value 0 is
    [SliceErr]. *)
Definition rd_slice_narrow (s : rd_slice) (size : Z) : option slice_result :=
  if u64 (sl_start s + size) >? sl_end s then Some SliceErr
  else
    let n := slice_set_end s (u64 (sl_start s + size)) in
    let* _ := rd_assert (rd_slice_abs_offset n <=? sl_end n) in
    Some (SliceOk n).

Definition rd_slice_narrow_relative (s : rd_slice) (relsize : Z) : option slice_result :=
  rd_slice_narrow s (u64 (rd_slice_offset s + relsize)).

Definition rd_slice_widen (s save_slice : rd_slice) : rd_slice :=
  slice_set_end s (sl_end save_slice).

Definition rd_slice_narrow_copy (orig : rd_slice) (size : Z) : option slice_result :=
  if u64 (sl_start orig + size) >? sl_end orig then Some SliceErr
  else
    let n := slice_set_end orig (u64 (sl_start orig + size)) in
    let* _ := rd_assert (rd_slice_abs_offset n <=? sl_end n) in
    Some (SliceOk n).

Definition rd_slice_narrow_copy_relative (orig : rd_slice) (relsize : Z) : option slice_result :=
  rd_slice_narrow_copy orig (u64 (rd_slice_offset orig + relsize)).

(** ** Vectors *)

(** The chunks of the I/O vector and their total length. *)
Fixpoint get_iov_loop (fuel : nat) (s : rd_slice) (iov : list bytes)
  (sum iov_max size_max : Z) : option (list bytes * Z) :=
  if (sum <? size_max) && (zlen iov <? iov_max) then
    match fuel with
    | O => None
    | S fuel =>
        let* (s, chunk) := rd_slice_reader s in
        match chunk with
        | [] => Some (iov, sum)
        | _ => get_iov_loop fuel s (iov ++ [chunk]) (sum + zlen chunk) iov_max size_max
        end
    end
  else Some (iov, sum).

Definition rd_slice_get_iov (s : rd_slice) (iov_max size_max : Z)
  : option (list bytes * Z) :=
  get_iov_loop reader_fuel s [] 0 iov_max size_max.

End Reader.

(** [rd_buf_write_slice]: the source slice of [src] is written to [dst].  The
    code adds up the return values of [rd_buf_write], which are positions, and
    the model does too.  Only [rd_dassert] looks at them otherwise, and that is
    compiled out. *)
Definition rd_buf_write_slice (junk : Z -> Z) (dst src : rd_buf) (s : rd_slice)
  : option (rd_buf * rd_slice * Z) :=
  let* (s, r) :=
    reader_loop src (reader_fuel src)
      (fun (acc : option (rd_buf * Z)) p =>
         let* (b, sum) := acc in
         let* (b, r) := rd_buf_write junk b (Some p) (zlen p) in
         Some (b, u64 (sum + r)))
      (Some (dst, 0)) s in
  let* (b, sum) := r in
  Some (b, s, sum).
