(* ===== verification/SliceFacts.v ===== *)
(** * Properties of buffer slices

    A slice refines a window of the buffer's byte string: the readers, which
    walk segments, return what flat memory would. *)

From S2P Require Import Prelude Varint RdBuf RdBufFacts Slice.

(** [n] bytes of [c] from [pos]. *)
Definition sub (c : bytes) (pos n : Z) : bytes := ztake n (zdrop pos c).

(** The segments that hold the buffer's data, and those allocated ahead. *)
Record view (rb : rd_buf) (front back : list rd_segment) : Prop := {
  vw_segs : rbuf_segments rb = front ++ back;
  vw_ok : Forall seg_ok (front ++ back);
  vw_placed : placed 0 front;
  vw_ahead : Forall (ahead (rbuf_len rb)) back;
  vw_len : rbuf_len rb = sum_of front;
  vw_max : rbuf_len rb < 2 ^ 64 }.

(** The slice [s] stands at absolute offset [pos], in segment [i] of the data. *)
Record at_pos (front : list rd_segment) (s : rd_slice) (i : nat) (pos : Z) : Prop := {
  ap_seg : sl_seg s = Some i;
  ap_here : exists l1 seg l2, front = l1 ++ seg :: l2 /\ length l1 = i /\
              0 <= sl_rof s <= seg_of seg /\ pos = seg_absof seg + sl_rof s;
  ap_bounds : 0 <= sl_start s <= pos /\ pos <= sl_end s <= sum_of front }.

Lemma wf_has_view b : wf b -> exists front back, view b front back.
Proof.
  intros Hb. pose proof (wf_len_max b Hb). pose proof (wf_view b Hb) as Hv.
  destruct Hv as (front & back & E & Hok & Hp & Ha & Hl & _).
  exists front, back. constructor; try assumption. lia.
Qed.

Section Facts.

Variables (rb : rd_buf) (front back : list rd_segment).
Hypothesis V : view rb front back.

Let c := rd_buf_content rb.

Lemma c_front : c = content front.
Proof.
  unfold c, rd_buf_content. rewrite (vw_segs _ _ _ V), content_app.
  rewrite (proj1 (ahead_content _ _ (vw_ahead _ _ _ V))). apply app_nil_r.
Qed.

Lemma front_ok : Forall seg_ok front.
Proof. pose proof (vw_ok _ _ _ V) as H. now apply Forall_app in H. Qed.

Lemma c_len : zlen c = sum_of front.
Proof. rewrite c_front. apply content_len, front_ok. Qed.

Lemma front_mid l1 seg l2 :
  front = l1 ++ seg :: l2 ->
  seg_absof seg = sum_of l1 /\ seg_ok seg /\ Forall seg_ok l1 /\ Forall seg_ok l2 /\
  placed (sum_of l1 + seg_of seg) l2 /\ sum_of front = sum_of l1 + seg_of seg + sum_of l2.
Proof.
  intros E. pose proof front_ok as H. rewrite E in H.
  apply Forall_app in H as [H1 H]. apply Forall_cons_iff in H as [Hs H2].
  pose proof (vw_placed _ _ _ V) as Hp. rewrite E in Hp.
  apply placed_app in Hp as [_ [Ha Hp]].
  rewrite E, sum_of_app, sum_of_cons. repeat split; auto; lia || apply Hs.
Qed.

(** The data from an offset in a segment on. *)
Lemma zdrop_content l1 seg l2 rof :
  front = l1 ++ seg :: l2 -> 0 <= rof <= seg_of seg ->
  zdrop (sum_of l1 + rof) c = zdrop rof (payload seg) ++ content l2.
Proof.
  intros E Hr. destruct (front_mid _ _ _ E) as (_ & Hs & H1 & _).
  pose proof (sum_of_nonneg _ H1).
  rewrite c_front, E, content_app, content_cons, zdrop_app, content_len by assumption.
  rewrite (zdrop_all _ (content l1)) by (rewrite content_len by assumption; lia).
  cbn [app]. rewrite zdrop_app, payload_len by assumption.
  replace (sum_of l1 + rof - sum_of l1) with rof by lia.
  now rewrite (zdrop_nonpos _ (content l2)) by lia.
Qed.

(** ** One read *)

Lemma reader_seek_spec l2 : forall l1 seg rof end_ pos,
  front = l1 ++ seg :: l2 -> 0 <= rof <= seg_of seg -> pos = seg_absof seg + rof ->
  pos < end_ <= sum_of front ->
  exists l1' seg' l2' rof', front = l1' ++ seg' :: l2' /\
    reader_seek (seg :: l2 ++ back) (length l1) rof end_ = Some (length l1', seg', rof') /\
    pos = seg_absof seg' + rof' /\ 0 <= rof' < seg_of seg' /\
    (l1' = l1 /\ rof' = rof /\ rof < seg_of seg \/
     (length l1 < length l1')%nat /\ rof' = 0 /\ rof = seg_of seg).
Proof.
  induction l2 as [| s2 l2 IH]; intros l1 seg rof end_ pos E Hr Hpos Hend;
    destruct (front_mid _ _ _ E) as (Ha & Hs & H1 & H2 & Hp & Hsum);
    (destruct (Z.eq_dec (seg_of seg) rof) as [Er | Er];
     [| exists l1, seg; eexists; exists rof; split; [exact E |];
        cbn [reader_seek app]; ztest; rewrite andb_false_r;
        repeat split; try lia; left; repeat split; lia]).
  - cbn in Hsum. lia.
  - destruct Hp as [Ha2 _].
    assert (front = (l1 ++ [seg]) ++ s2 :: l2) as E' by now rewrite <- app_assoc.
    apply Forall_cons_iff in H2 as [[? _] _].
    destruct (IH (l1 ++ [seg]) s2 0 end_ pos E') as
      (l1' & seg' & l2' & rof' & E2 & Hseek & Hp2 & Hr2 & Hl); try lia.
    rewrite length_app in Hseek, Hl. cbn [length] in Hseek, Hl.
    assert ((length l1 < length l1')%nat /\ rof' = 0) as [? ?].
    { destruct Hl as [(-> & -> & _) | (? & -> & _)]; [| split; lia].
      rewrite length_app. cbn. lia. }
    exists l1', seg', l2', rof'. split; [exact E2 |].
    cbn [reader_seek app] in *. rewrite Nat.add_1_r in Hseek.
    replace (seg_absof seg + rof <? end_) with true by (symmetry; apply Z.ltb_lt; lia).
    rewrite Er, Z.eqb_refl. cbn [andb].
    repeat split; try lia; exact Hseek.
Qed.

Lemma slice_seg_at s i pos :
  at_pos front s i pos ->
  exists seg, slice_seg rb s = Some seg /\ pos = seg_absof seg + sl_rof s /\ 0 <= pos /\
    sl_end s < 2 ^ 64.
Proof.
  intros [Hseg (l1 & seg & l2 & E & Hi & Hr & Hpos) Hb]. exists seg.
  unfold slice_seg. rewrite Hseg, (vw_segs _ _ _ V), E, <- app_assoc, <- Hi.
  pose proof (vw_max _ _ _ V). rewrite (vw_len _ _ _ V) in *.
  split; [apply lookup_mid |]. lia.
Qed.

Lemma abs_offset_at s i pos : at_pos front s i pos -> rd_slice_abs_offset rb s = pos.
Proof.
  intros H. destruct (slice_seg_at s i pos H) as (seg & E & Hpos & ? & ?).
  destruct H as [_ _ Hb]. unfold rd_slice_abs_offset. rewrite E, wrap_small; lia.
Qed.

Lemma remains_at s i pos : at_pos front s i pos -> rd_slice_remains rb s = sl_end s - pos.
Proof.
  intros H. pose proof (abs_offset_at s i pos H) as Ha.
  destruct (slice_seg_at s i pos H) as (seg & _ & _ & ? & ?). destruct H as [_ _ Hb].
  unfold rd_slice_remains. rewrite Ha, wrap_small; lia.
Qed.

Lemma at_pos_intro l1 seg l2 start end_ rof :
  front = l1 ++ seg :: l2 -> 0 <= rof <= seg_of seg ->
  0 <= start <= seg_absof seg + rof -> seg_absof seg + rof <= end_ <= sum_of front ->
  at_pos front (mk_slice (Some (length l1)) rof start end_) (length l1) (seg_absof seg + rof).
Proof. intros E Hr Hs He. constructor; cbn; eauto 10. Qed.

(** A read at the end of the slice returns nothing; before it, a non-empty run
    of the bytes at the position, which it moves past them: to the end of the
    slice or to the end of a segment, ahead of where it was. *)
Lemma reader_spec s i pos :
  at_pos front s i pos ->
  (pos = sl_end s -> rd_slice_reader rb s = Some (s, [])) /\
  (pos < sl_end s -> exists s' i' chunk,
     rd_slice_reader rb s = Some (s', chunk) /\ chunk <> [] /\
     chunk = sub c pos (zlen chunk) /\ at_pos front s' i' (pos + zlen chunk) /\
     sl_start s' = sl_start s /\ sl_end s' = sl_end s /\ (i <= i')%nat /\
     (pos + zlen chunk < sl_end s ->
      (exists seg, front !! i' = Some seg /\ sl_rof s' = seg_of seg) /\
      (forall seg, front !! i = Some seg -> sl_rof s = seg_of seg -> (i < i')%nat))).
Proof.
  intros Hat. pose proof (remains_at s i pos Hat) as Hrem.
  destruct Hat as [Hseg (l1 & seg & l2 & E & <- & Hr & Hpos) [Hst Hen]].
  pose proof (vw_max _ _ _ V) as Hmax. rewrite (vw_len _ _ _ V) in Hmax.
  unfold rd_slice_reader, rd_slice_reader0. rewrite Hseg, (vw_segs _ _ _ V), E, <- app_assoc.
  cbn [app]. rewrite drop_mid. split.
  - intros ->. cbn [reader_seek].
    replace (seg_absof seg + sl_rof s <? sl_end s) with false by (symmetry; apply Z.ltb_ge; lia).
    cbn [andb]. rewrite Z.geb_leb. now ztest.
  - intros Hlt.
    destruct (reader_seek_spec l2 l1 seg (sl_rof s) (sl_end s) pos E Hr Hpos ltac:(lia))
      as (l1' & seg' & l2' & rof' & E' & -> & Hpos' & Hr' & Hmove).
    destruct (front_mid _ _ _ E') as (Ha' & Hs' & H1' & H2' & _ & Hsum').
    pose proof (sum_of_nonneg _ H1'). pose proof (sum_of_nonneg _ H2').
    rewrite Z.geb_leb. ztest. cbn [negb].
    rewrite Hrem, (wrap_small 64 (seg_of seg' - rof')), RD_MIN_min by lia.
    set (rlen := Z.min (seg_of seg' - rof') (sl_end s - pos)). ztest.
    assert (zlen (ztake rlen (zdrop rof' (seg_p seg'))) = rlen) as Hzl
      by (destruct Hs'; zlen_lia).
    assert (ztake rlen (zdrop rof' (seg_p seg')) = sub c pos rlen) as Hch.
    { unfold sub. replace pos with (sum_of l1' + rof') by lia.
      rewrite (zdrop_content l1' seg' l2') by (assumption || lia).
      rewrite ztake_app, (ztake_nonpos _ (content l2')), app_nil_r.
      - unfold payload. rewrite zdrop_take, ztake_take by lia. f_equal. lia.
      - pose proof (payload_len _ Hs'). zlen_lia. }
    assert (ztake rlen (zdrop rof' (seg_p seg')) <> []) as Hne
      by (intros Hn; rewrite Hn in Hzl; cbn in Hzl; lia).
    set (chunk := ztake rlen (zdrop rof' (seg_p seg'))) in *.
    assert (exists s', sl_start s' = sl_start s /\ sl_end s' = sl_end s /\
              sl_seg s' = Some (length l1') /\ sl_rof s' = rof' + rlen /\
              (if negb (Nat.eqb (length l1) (length l1'))
               then let* _ := rd_assert (true && true) in
                    Some (slice_set_pos s (length l1') rlen, chunk)
               else Some (slice_set_pos s (length l1') (sl_rof s + rlen), chunk))
              = Some (s', chunk)) as ([sg ro st en] & Est & Een & Esg & Ero & Eres).
    { destruct (Nat.eqb_spec (length l1) (length l1')) as [El | El]; cbn [negb].
      - eexists. split; [| split; [| split; [| split; [| reflexivity]]]]; try reflexivity.
        cbn. lia.
      - cbn [andb rd_assert]. eexists. split; [| split; [| split; [| split; [| reflexivity]]]]; try reflexivity.
        cbn. destruct Hmove as [(-> & _) | (_ & -> & _)]; [easy | lia]. }
    cbn in Est, Een, Esg, Ero. subst sg ro st en.
    do 3 eexists. split; [exact Eres |]. split; [exact Hne |].
    rewrite Hzl. split; [exact Hch |]. rewrite <- E. cbn [sl_start sl_end sl_rof].
    split. { rewrite Hpos', <- Z.add_assoc. eapply at_pos_intro; [exact E' | lia | lia | lia]. }
    do 2 (split; [reflexivity |]).
    split; [destruct Hmove as [(-> & _) | (? & _)]; lia |].
    intros Hmore. split.
    + exists seg'. split; [rewrite E'; apply lookup_mid | lia].
    + intros x Hx Hend. rewrite E, lookup_mid in Hx. injection Hx as <-.
      destruct Hmove as [(_ & _ & ?) | (? & _)]; lia.
Qed.

(** ** Reading to the end *)

(** The reads the slice still needs: one per segment ahead, and one for the
    segment it is in unless that is exhausted. *)
Definition reads_left (s : rd_slice) (i : nat) : nat :=
  (length front - i -
   match front !! i with
   | Some seg => if Z.eqb (sl_rof s) (seg_of seg) then 1 else 0
   | None => 0
   end)%nat.

Lemma at_pos_index s i pos : at_pos front s i pos -> (i < length front)%nat.
Proof.
  intros [_ (l1 & seg & l2 & -> & <- & _) _]. rewrite length_app. cbn. lia.
Qed.

Lemma reads_left_pos s i pos :
  at_pos front s i pos -> pos < sl_end s -> (0 < reads_left s i)%nat.
Proof.
  intros [_ (l1 & seg & l2 & E & <- & Hr & Hpos) [_ Hen]] Hlt.
  destruct (front_mid _ _ _ E) as (Ha & _ & _ & _ & _ & Hsum).
  unfold reads_left. rewrite E at 2. rewrite lookup_mid.
  assert (length front = (length l1 + S (length l2))%nat) as El
    by (rewrite E, length_app; reflexivity).
  destruct (Z.eqb_spec (sl_rof s) (seg_of seg)); [| lia].
  destruct l2; [cbn in Hsum; lia | cbn in El; lia].
Qed.

Lemma sub_app d pos n m : 0 <= n -> 0 <= m -> 0 <= pos ->
  sub d pos n ++ sub d (pos + n) m = sub d pos (n + m).
Proof.
  intros. unfold sub. rewrite ztake_add by lia. f_equal. f_equal.
  now rewrite zdrop_drop by lia.
Qed.

(** The loop visits the bytes up to the end of the slice, in non-empty chunks. *)
Lemma reader_loop_spec {A} (f : A -> bytes -> A) fuel : forall acc s i pos,
  at_pos front s i pos -> (reads_left s i < fuel)%nat \/ (pos = sl_end s /\ (0 < fuel)%nat) ->
  exists s' i' chunks,
    reader_loop rb fuel f acc s = Some (s', fold_left f chunks acc) /\
    at_pos front s' i' (sl_end s) /\ sl_start s' = sl_start s /\ sl_end s' = sl_end s /\
    Forall (fun ch => ch <> []) chunks /\ concat chunks = sub c pos (sl_end s - pos).
Proof.
  induction fuel as [| fuel IH]; intros acc s i pos Hat Hf; [lia |].
  destruct (reader_spec s i pos Hat) as [Hend Hmore].
  pose proof (ap_bounds _ _ _ _ Hat) as [Hb1 Hb2].
  cbn [reader_loop]. destruct (Z.eq_dec pos (sl_end s)) as [Ep | Ep].
  - rewrite (Hend Ep). exists s, i, []. rewrite <- Ep, Z.sub_diag.
    repeat split; try constructor; try apply Hat.
  - destruct (Hmore ltac:(lia)) as
      (s' & i' & chunk & -> & Hne & Hch & Hat' & Hst & Hen & Hii & Hstep).
    assert (0 < zlen chunk) by (destruct chunk; [easy | cbn; lia]).
    destruct (IH (f acc chunk) s' i' (pos + zlen chunk) Hat') as
      (s2 & i2 & chunks & Hl & Hat2 & Hst2 & Hen2 & Hfa & Hcc).
    { rewrite Hen. destruct (Z.eq_dec (pos + zlen chunk) (sl_end s)) as [Ee | Ee].
      - right. split; [exact Ee |]. destruct Hf as [Hf | [? _]]; [| lia].
        pose proof (reads_left_pos s i pos Hat ltac:(lia)). lia.
      - left. pose proof (ap_bounds _ _ _ _ Hat') as [_ [? _]].
        destruct (Hstep ltac:(lia)) as [(seg' & Es' & Er') Hadv].
        pose proof (at_pos_index _ _ _ Hat). pose proof (at_pos_index _ _ _ Hat').
        destruct Hf as [Hf | [? _]]; [| lia]. unfold reads_left in *.
        rewrite Es', Er', Z.eqb_refl.
        destruct (front !! i) as [seg |] eqn:Ei; [| lia].
        destruct (Z.eqb_spec (sl_rof s) (seg_of seg)) as [Eq | Eq]; [| lia].
        specialize (Hadv seg eq_refl Eq). lia. }
    rewrite Hen in *.
    exists s2, i2, (chunk :: chunks). cbn [fold_left concat].
    destruct chunk as [| b chunk]; [easy |].
    split; [exact Hl |]. split; [exact Hat2 |]. split; [congruence |]. split; [congruence |].
    split; [constructor; assumption |].
    pose proof (ap_bounds _ _ _ _ Hat') as [_ [? _]].
    rewrite Hcc. replace (sl_end s - pos) with
      (zlen (b :: chunk) + (sl_end s - (pos + zlen (b :: chunk)))) by lia.
    rewrite <- sub_app by lia. now rewrite <- Hch.
Qed.

Lemma reader_fuel_enough s i pos :
  at_pos front s i pos -> (reads_left s i < reader_fuel rb)%nat.
Proof.
  intros _. unfold reads_left, reader_fuel. rewrite (vw_segs _ _ _ V), length_app. lia.
Qed.

(** ** Reads *)

Lemma at_pos_set_end s i pos e :
  at_pos front s i pos -> pos <= e <= sum_of front -> at_pos front (slice_set_end s e) i pos.
Proof. intros [Hs Hh Hb] He. constructor; cbn; [assumption .. | lia]. Qed.

(** A complete read of [size] bytes, or nothing. *)
Lemma rd_slice_read_spec s i pos size :
  at_pos front s i pos -> 0 <= size ->
  (size <= sl_end s - pos -> exists s' i',
     rd_slice_read rb s size = Some (s', size, sub c pos size) /\
     at_pos front s' i' (pos + size) /\ sl_start s' = sl_start s /\ sl_end s' = sl_end s) /\
  (sl_end s - pos < size -> rd_slice_read rb s size = Some (s, 0, [])).
Proof.
  intros Hat Hsize. unfold rd_slice_read.
  rewrite (remains_at s i pos Hat), (abs_offset_at s i pos Hat).
  pose proof (vw_max _ _ _ V) as Hmax. rewrite (vw_len _ _ _ V) in Hmax.
  pose proof (ap_bounds _ _ _ _ Hat) as [Hb1 Hb2]. split; intros Hle; ztest; [| reflexivity].
  rewrite wrap_small by lia.
  pose proof (at_pos_set_end s i pos (pos + size) Hat ltac:(lia)) as Hat1.
  destruct (reader_loop_spec (fun d p => d ++ p) (reader_fuel rb) [] _ _ _ Hat1)
    as (s' & i' & chunks & -> & Hat' & Hst & Hen & _ & Hcc).
  { left. now apply (reader_fuel_enough _ _ pos). }
  exists (slice_set_end s' (sl_end s)), i'. cbn in Hcc, Hat', Hst, Hen.
  replace (pos + size - pos) with size in Hcc by lia.
  assert (forall acc, fold_left (fun d p => d ++ p) chunks acc = acc ++ concat chunks) as Hf.
  { clear. induction chunks as [| x l IH]; intros; cbn; [now rewrite app_nil_r |].
    now rewrite IH, app_assoc. }
  rewrite Hf, Hcc. cbn [app]. split; [reflexivity |]. split; [| split; [exact Hst | reflexivity]].
  apply at_pos_set_end; [exact Hat' | lia].
Qed.

(** ** Initialisation and seeking *)

(** The segment of an offset is found from the first one and from that of any
    position of the slice. *)
Lemma segment_index absof hint :
  hint = None \/ (exists s i pos, at_pos front s i pos /\ hint = Some i) ->
  0 <= absof < sum_of front ->
  exists l1 seg l2, front = l1 ++ seg :: l2 /\
    sum_of l1 <= absof < sum_of l1 + seg_of seg /\ seg_absof seg = sum_of l1 /\
    rd_buf_get_segment_at_offset rb hint absof = Some (length l1) /\
    rbuf_segments rb !! length l1 = Some seg.
Proof.
  intros Hh Ha. destruct (locate front absof front_ok Ha) as (l1 & seg & l2 & E & Hin).
  exists l1, seg, l2. destruct (front_mid _ _ _ E) as (Hso & Hs & H1 & H2 & Hp & Hsum).
  split; [exact E |]. split; [exact Hin |]. split; [exact Hso |].
  assert (rbuf_segments rb = l1 ++ seg :: l2 ++ back) as Esegs
    by (rewrite (vw_segs _ _ _ V), E, <- app_assoc; reflexivity).
  split; [| rewrite Esegs; apply lookup_mid].
  unfold rd_buf_get_segment_at_offset. rewrite (vw_len _ _ _ V), Z.geb_leb. ztest.
  assert (forall pre mid n, front = pre ++ mid ++ seg :: l2 -> pre ++ mid = l1 ->
            n = length pre ->
            offset_scan (drop n (rbuf_segments rb)) n absof = Some (length l1)) as Hscan.
  { intros pre mid n E' <- ->. rewrite (vw_segs _ _ _ V), E', <- app_assoc, drop_mid.
    rewrite <- app_assoc. cbn [app]. rewrite sum_of_app in *.
    apply Forall_app in H1 as [_ Hmid].
    rewrite (offset_scan_found mid seg (l2 ++ back) (sum_of pre)).
    - now rewrite length_app.
    - apply Forall_app. auto.
    - pose proof (vw_placed _ _ _ V) as Hpv. rewrite E' in Hpv.
      apply placed_app in Hpv as [_ Hpv]. cbn [Z.add] in Hpv.
      change (mid ++ seg :: l2) with (mid ++ [seg] ++ l2) in Hpv.
      rewrite app_assoc in Hpv. now apply placed_app in Hpv.
    - lia. }
  destruct Hh as [-> | (s & i & pos & Hat & ->)]; [now apply (Hscan [] l1 0%nat) |].
  destruct (ap_here _ _ _ _ Hat) as (m1 & t & m2 & Em & <- & _ & _).
  destruct (front_mid _ _ _ Em) as (Hso' & Ht & Hm1 & _ & _ & _).
  assert (rbuf_segments rb !! length m1 = Some t) as ->.
  { rewrite (vw_segs _ _ _ V), Em, <- app_assoc. apply lookup_mid. }
  destruct (Z.ltb_spec absof (seg_absof t)); [now apply (Hscan [] l1 0%nat) |].
  rewrite E in Em. destruct (app_eq_app _ _ _ _ Em) as (k & [[-> Ek] | [-> Ek]]).
  - apply (Hscan m1 k); [now rewrite E, <- app_assoc | reflexivity | reflexivity].
  - destruct k as [| x k].
    + apply (Hscan l1 []); [exact E | apply app_nil_r | now rewrite app_nil_r].
    + injection Ek as <- _. rewrite sum_of_app, sum_of_cons in Hso'.
      assert (0 <= sum_of k); [| lia]. apply sum_of_nonneg.
      apply Forall_app in Hm1 as [_ Hm1]. now apply Forall_cons_iff in Hm1.
Qed.

(** A window inside the data gives a slice at its first byte; one that passes
    the end, or starts at it, is refused. *)
Lemma rd_slice_init_spec absof size :
  0 <= absof -> 0 <= size -> absof + size < 2 ^ 64 ->
  (absof < rbuf_len rb -> absof + size <= rbuf_len rb -> exists s i,
     rd_slice_init rb absof size = Some (SliceOk s) /\
     at_pos front s i absof /\ sl_start s = absof /\ sl_end s = absof + size) /\
  (rbuf_len rb <= absof \/ rbuf_len rb < absof + size ->
     rd_slice_init rb absof size = Some SliceErr).
Proof.
  intros Ha Hs Hmax. unfold rd_slice_init. pose proof (vw_len _ _ _ V) as Hl.
  destruct (Z.lt_ge_cases absof (rbuf_len rb)) as [Hlt | Hge].
  - destruct (segment_index absof None (or_introl eq_refl) ltac:(lia))
      as (l1 & seg & l2 & E & Hin & Hso & -> & Hseg).
    rewrite Hseg. unfold rd_slice_init_seg. rewrite Hseg.
    rewrite (wrap_small 64 (seg_absof seg + (absof - seg_absof seg) + size)) by lia.
    split.
    + intros _ Hle. ztest.
      rewrite (wrap_small 64 (seg_absof seg + (absof - seg_absof seg))), wrap_small by lia.
      cbn [sl_start sl_end]. unfold rd_buf_len. ztest.
      do 2 eexists. split; [reflexivity |]. cbn [sl_start sl_end].
      split; [| lia].
      replace absof with (seg_absof seg + (absof - seg_absof seg)) at 4 by lia.
      eapply at_pos_intro; [exact E | lia ..].
    + intros [? | ?]; [lia |]. now ztest.
  - unfold rd_buf_get_segment_at_offset. rewrite Z.geb_leb. ztest. split; [lia | easy].
Qed.

(** Seeking, to an offset in the window or with an error. *)
Lemma rd_slice_seek_spec s i pos offset :
  at_pos front s i pos -> 0 <= offset -> sl_start s + offset < 2 ^ 64 ->
  (sl_start s + offset < sl_end s -> exists s' i',
     rd_slice_seek rb s offset = Some (s', 0) /\
     at_pos front s' i' (sl_start s + offset) /\
     sl_start s' = sl_start s /\ sl_end s' = sl_end s) /\
  (sl_end s <= sl_start s + offset -> rd_slice_seek rb s offset = Some (s, -1)).
Proof.
  intros Hat Ho Hmax. pose proof (ap_bounds _ _ _ _ Hat) as [Hst Hen].
  unfold rd_slice_seek. rewrite wrap_small, Z.geb_leb by lia.
  split; intros Hlt; ztest; [| reflexivity].
  rewrite (ap_seg _ _ _ _ Hat).
  destruct (segment_index (sl_start s + offset) (Some i)) as
    (l1 & seg & l2 & E & Hin & Hso & -> & ->); [right; eauto | lia |].
  cbn [slice_set_pos sl_rof sl_start sl_end]. rewrite Z.geb_leb. ztest.
  do 2 eexists. split; [reflexivity |]. split; [| easy].
  replace (sl_start s + offset) with (seg_absof seg + (sl_start s + offset - seg_absof seg))
    at 2 by lia.
  eapply at_pos_intro; [exact E | lia ..].
Qed.

(** ** Varints *)

(** The bytes of one segment, against the flat decoder on the rest of the
    window. *)
Lemma uvarint_bytes_spec data : forall tail absof rof end_ num off,
  absof + rof <= end_ -> 0 <= off ->
  let flat := uvarint_dec_loop (ztake (end_ - (absof + rof)) (data ++ tail)) off num (7 * off) in
  match uvarint_bytes data absof rof end_ num (7 * off) with
  | None => flat = None
  | Some (VarDone num' rof' shift') => exists k, 0 <= k < zlen data /\ rof' = rof + k /\
      absof + rof' < end_ /\ shift' = 7 * (off + k + 1) /\ flat = Some (off + k + 1, Some num')
  | Some VarUnderflow => flat = Some (0, None)
  | Some (VarMore num' shift') => shift' = 7 * (off + zlen data) /\
      absof + rof + zlen data <= end_ /\
      flat = uvarint_dec_loop (ztake (end_ - (absof + rof + zlen data)) tail)
               (off + zlen data) num' shift'
  end.
Proof.
  induction data as [| oct data IH]; intros tail absof rof end_ num off Hle Hoff; cbn [uvarint_bytes app].
  - cbv zeta. cbn [length]. change (Z.of_nat 0) with 0. rewrite !Z.add_0_r. auto.
  - rewrite (Z.geb_leb (absof + rof)). destruct (Z.leb_spec end_ (absof + rof)).
    { rewrite ztake_nonpos by lia. reflexivity. }
    replace (ztake (end_ - (absof + rof)) (oct :: data ++ tail))
      with (oct :: ztake (end_ - (absof + (rof + 1))) (data ++ tail)).
    2: { unfold ztake. replace (Z.to_nat (end_ - (absof + rof)))
           with (S (Z.to_nat (end_ - (absof + (rof + 1))))) by lia. reflexivity. }
    cbn [uvarint_dec_loop]. destruct (7 * off >=? 64); [reflexivity |].
    destruct (Z.land oct 0x80 =? 0) eqn:Eo; cbn [negb].
    + exists 0. cbn [length]. repeat split; try lia. do 3 f_equal. lia.
    + specialize (IH tail absof (rof + 1) end_ (Z.lor num (u64 (Z.shiftl (Z.land oct 0x7f) (7 * off))))
                    (off + 1) ltac:(lia) ltac:(lia)).
      replace (7 * (off + 1)) with (7 * off + 7) in IH by lia. cbv zeta in IH.
      destruct (uvarint_bytes data _ _ _ _ _) as [[num' rof' shift' | num' shift' |] |]; try exact IH.
      * destruct IH as (k & Hk & -> & ? & -> & ->). exists (k + 1). cbn [length].
        repeat split; try lia. do 2 f_equal. lia.
      * destruct IH as (-> & ? & ->). cbn [length].
        replace (zlen data) with (Z.of_nat (S (length data)) - 1) in * by lia.
        split; [lia |]. split; [lia |]. f_equal; [f_equal |]; lia.
Qed.

(** Segments allocated ahead hold no byte. *)
Lemma uvarint_segs_ahead len l i rof end_ num shift :
  0 <= rof -> Forall (ahead len) l -> uvarint_segs l i rof end_ num shift = Some None.
Proof.
  intros Hr Hf. revert i rof Hr. induction Hf as [| s l [Hs _] _ IH]; intros i rof Hr; [reflexivity |].
  cbn [uvarint_segs]. rewrite Hs, ztake_nonpos, zdrop_all by (cbn; lia). cbn. apply IH. lia.
Qed.

Lemma uvarint_segs_spec l2 : forall l1 seg rof end_ num off,
  front = l1 ++ seg :: l2 -> 0 <= rof <= seg_of seg -> seg_absof seg + rof <= end_ <= sum_of front ->
  0 <= off ->
  let pos := seg_absof seg + rof in
  let flat := uvarint_dec_loop (sub c pos (end_ - pos)) off num (7 * off) in
  match uvarint_segs (seg :: l2 ++ back) (length l1) rof end_ num (7 * off) with
  | None => flat = None
  | Some None => flat = Some (0, None)
  | Some (Some (i, rof', num', n)) => exists l1' seg' l2',
      front = l1' ++ seg' :: l2' /\ i = length l1' /\ 0 <= rof' < seg_of seg' /\
      seg_absof seg' + rof' + 1 = pos + (n - off) /\ pos + (n - off) <= end_ /\ off <= n /\
      flat = Some (n, Some num')
  end.
Proof.
  induction l2 as [| s2 l2 IH]; intros l1 seg rof end_ num off E Hr Hend Hoff;
    destruct (front_mid _ _ _ E) as (Ha & Hs & H1 & H2 & Hp & Hsum); cbn [uvarint_segs]; cbn [app];
    pose proof (payload_len _ Hs) as Hpl; pose proof (sum_of_nonneg _ H1);
    (assert (zlen (zdrop rof (payload seg)) = seg_of seg - rof) as Hdl by zlen_lia);
    fold (payload seg); cbv zeta; unfold sub;
    replace (zdrop (seg_absof seg + rof) c) with (zdrop (sum_of l1 + rof) c) by (f_equal; lia);
    rewrite (zdrop_content _ _ _ _ E Hr);
    replace (end_ - (seg_absof seg + rof)) with (end_ - (seg_absof seg + rof)) by lia;
    match goal with |- context [content ?l] =>
      pose proof (uvarint_bytes_spec (zdrop rof (payload seg)) (content l)
        (seg_absof seg) rof end_ num off ltac:(lia) Hoff) as Hb end; cbv zeta in Hb;
    (destruct (uvarint_bytes _ _ _ _ _ _) as [[num' rof' shift' | num' shift' |] |];
     [ destruct Hb as (k & Hk & -> & ? & -> & ->);
       exists l1, seg; eexists; split; [exact E |]; split; [reflexivity |];
       replace (7 * (off + k + 1) / 7) with (off + k + 1)
         by (rewrite Z.mul_comm, Z.div_mul by lia; reflexivity);
       repeat split; lia
     | destruct Hb as (-> & Hle & ->) | exact Hb | exact Hb ]).
  - rewrite (uvarint_segs_ahead (rbuf_len rb)) by (lia || apply (vw_ahead _ _ _ V)).
    now destruct (ztake _ _) eqn:Et; [| unfold ztake in Et; cbn in Et; rewrite take_nil in Et].
  - destruct Hp as [Ha2 _]. rewrite Hdl in *.
    replace (off + (seg_of seg - rof)) with (off + (seg_of seg - rof)) by lia.
    assert (front = (l1 ++ [seg]) ++ s2 :: l2) as E' by now rewrite <- app_assoc.
    apply Forall_cons_iff in H2 as [[? _] _].
    specialize (IH (l1 ++ [seg]) s2 0 end_ num' (off + (seg_of seg - rof)) E' ltac:(lia)
                  ltac:(lia) ltac:(lia)). cbv zeta in IH.
    rewrite length_app, Nat.add_1_r in IH. unfold sub in IH.
    replace (zdrop (seg_absof s2 + 0) c) with (zdrop (sum_of (l1 ++ [seg]) + 0) c) in IH.
    2: { f_equal. rewrite sum_of_app, sum_of_cons. cbn. lia. }
    rewrite (zdrop_content _ _ _ _ E'), (zdrop_nonpos 0 (payload s2)), <- content_cons in IH by lia.
    replace (seg_absof s2 + 0) with (seg_absof seg + rof + (seg_of seg - rof)) in IH by lia.
    destruct (uvarint_segs _ _ _ _ _ _) as [[[[[i rof'] num''] n] |] |]; try exact IH.
    destruct IH as (l1' & seg' & l2' & ? & ? & ? & ? & ? & ? & ?).
    exists l1', seg', l2'. repeat split; (assumption || lia).
Qed.

(** The reader decodes the window at the position as flat memory, and moves past
    the octets it used; on underflow the slice stays where it is. *)
Lemma rd_slice_read_uvarint_spec s i pos :
  at_pos front s i pos ->
  match rd_uvarint_dec (sub c pos (sl_end s - pos)) with
  | None => rd_slice_read_uvarint rb s = None
  | Some (r, None) => r = 0 /\ rd_slice_read_uvarint rb s = Some (s, 0, None)
  | Some (r, Some num) => exists s' i', rd_slice_read_uvarint rb s = Some (s', r, Some num) /\
      at_pos front s' i' (pos + r) /\ sl_start s' = sl_start s /\ sl_end s' = sl_end s
  end.
Proof.
  intros [Hseg (l1 & seg & l2 & E & <- & Hr & Hpos) [Hst Hen]].
  pose proof (uvarint_segs_spec l2 l1 seg (sl_rof s) (sl_end s) 0 0 E Hr ltac:(lia)
                ltac:(lia)) as H. cbv zeta in H. rewrite <- Hpos in H.
  unfold rd_slice_read_uvarint, rd_uvarint_dec.
  rewrite Hseg, (vw_segs _ _ _ V), E, <- app_assoc, drop_mid. change (7 * 0) with 0 in H. cbn [app].
  destruct (uvarint_segs _ _ _ _ _ _) as [[[[[i rof'] num] n] |] |].
  - destruct H as (l1' & seg' & l2' & E' & -> & Hr' & Hp' & Hle & ? & ->).
    do 2 eexists. split; [reflexivity |]. split; [| easy].
    replace (pos + n) with (seg_absof seg' + (rof' + 1)) by lia. rewrite <- E.
    eapply at_pos_intro; [exact E' | lia ..].
  - now rewrite H.
  - now rewrite H.
Qed.

(** The slice's zig-zag cast and the decoder's agree on 64-bit numbers. *)
Lemma zigzag_casts n :
  in_u 64 n ->
  i64 (Z.lxor (Z.shiftr n 1) (u64 (- i64 (Z.land n 1)))) = zigzag_dec n.
Proof.
  intros Hn. unfold zigzag_dec, in_u in *. rewrite land_1, Z.shiftr_div_pow2 by lia.
  change (2 ^ 1) with 2.
  pose proof (Z.mod_pos_bound n 2 ltac:(lia)). pose proof (Z.div_mod n 2 ltac:(lia)).
  rewrite (swrap_small 64 (n / 2)) by (unfold in_i; lia).
  assert (n mod 2 = 0 \/ n mod 2 = 1) as [-> | ->] by lia.
  - change (u64 (- i64 0)) with 0. change (- i64 0) with 0.
    rewrite !Z.lxor_0_r. apply swrap_small; [lia | unfold in_i; lia].
  - change (u64 (- i64 1)) with (Z.ones 64). change (- i64 1) with (-1).
    rewrite Z.lxor_m1_r. unfold Z.lnot.
    replace (Z.lxor (n / 2) (Z.ones 64)) with (Z.ones 64 - n / 2).
    + rewrite <- swrap_wrap by lia. unfold Z.ones.
      replace (Z.pred (Z.shiftl 1 64) - n / 2) with (Z.pred (- (n / 2)) + 1 * 2 ^ 64)
        by (change (Z.shiftl 1 64) with (2 ^ 64); lia).
      rewrite wrap_add_mul, swrap_wrap by lia. apply swrap_small; [lia | unfold in_i; lia].
    + rewrite Z.sub_nocarry_ldiff.
      * apply Z.ldiff_ones_l_low; [lia |].
        destruct (Z.eq_dec (n / 2) 0) as [-> | ?]; [cbn; lia |]. apply Z.log2_lt_pow2; lia.
      * rewrite Z.ldiff_ones_r, Z.shiftr_div_pow2, Z.div_small by lia. reflexivity.
Qed.

(** The same for the signed reader. *)
Lemma rd_slice_read_varint_spec s i pos :
  at_pos front s i pos ->
  match rd_varint_dec_i64 (sub c pos (sl_end s - pos)) with
  | None => rd_slice_read_varint rb s = None
  | Some (r, None) => r = 0 /\ rd_slice_read_varint rb s = Some (s, 0, None)
  | Some (r, Some num) => exists s' i', rd_slice_read_varint rb s = Some (s', r, Some num) /\
      at_pos front s' i' (pos + r) /\ sl_start s' = sl_start s /\ sl_end s' = sl_end s
  end.
Proof.
  intros Hat. pose proof (rd_slice_read_uvarint_spec s i pos Hat) as H.
  destruct (slice_seg_at s i pos Hat) as (_ & _ & _ & _ & Hmax).
  pose proof (ap_bounds _ _ _ _ Hat).
  unfold rd_varint_dec_i64, rd_slice_read_varint.
  destruct (rd_uvarint_dec _) as [[r [n |]] |] eqn:Ed.
  - destruct H as (s' & i' & -> & Hat' & ? & ?).
    pose proof Ed as Er. unfold rd_uvarint_dec in Er.
    apply uvarint_dec_loop_some in Er as [? Hn]; [| unfold in_u; lia].
    pose proof Ed as Er. apply uvarint_dec_loop_len in Er; [| lia].
    unfold sub in Er. rewrite zlen_take in Er.
    unfold RD_UVARINT_DEC_FAILED, RD_UVARINT_UNDERFLOW, RD_UVARINT_OVERFLOW, SIZE_MAX.
    ztest. cbn [orb]. rewrite zigzag_casts by assumption. eauto 10.
  - destruct H as [-> ->]. easy.
  - now rewrite H.
Qed.

End Facts.
