(* ===== verification/RdBufProps.v ===== *)
(** * What segmented buffers promise

    The writer refines a byte string and the readers a flat cursor: clients see
    segments nowhere.  Then what erasing does, and where it fails. *)

From S2P Require Import Prelude Varint RdBuf RdBufFacts Slice SliceFacts.

(** ** The writer, as operations on a byte string *)

Inductive buf_op : Type :=
| OpWrite (src : bytes)
| OpPush (payload_ : bytes) (free_cb : option Z) (writable : bool)
| OpUpdate (absof : Z) (src : bytes)
| OpSeek (absof : Z).

(** What an operation does to the contents. *)
Definition buf_spec (c : bytes) (op : buf_op) : bytes :=
  match op with
  | OpWrite src => c ++ src
  | OpPush p _ _ => c ++ p
  | OpUpdate absof src => overwrite c absof src
  | OpSeek absof => ztake absof c
  end.

Definition buf_exec (junk : Z -> Z) (b : rd_buf) (op : buf_op) : option rd_buf :=
  match op with
  | OpWrite src => fst <$> rd_buf_write junk b (Some src) (zlen src)
  | OpPush p free_cb writable => rd_buf_push0 junk b p (zlen p) free_cb writable
  | OpUpdate absof src => fst <$> rd_buf_write_update b absof src (zlen src)
  | OpSeek absof => fst <$> rd_buf_write_seek b absof
  end.

Fixpoint buf_run (junk : Z -> Z) (b : rd_buf) (ops : list buf_op) : option rd_buf :=
  match ops with
  | [] => Some b
  | op :: ops => let* b := buf_exec junk b op in buf_run junk b ops
  end.

(** What the callers see to: sizes that fit the address space, updates and seeks
    inside the data, and no seek into memory pushed read-only. *)
Definition writable_atb (b : rd_buf) (absof : Z) : bool :=
  forallb (fun s => negb ((seg_absof s <=? absof) && (absof <? seg_absof s + seg_of s))
                    || negb (rd_segment_is_rdonly s)) (rbuf_segments b).

Definition buf_enabled (b : rd_buf) (op : buf_op) : bool :=
  match op with
  | OpWrite src => (zlen src <? 2 ^ 62) && (rbuf_size b <? 2 ^ 62)
  | OpPush p _ _ => rbuf_size b + zlen p <? 2 ^ 64
  | OpUpdate absof src =>
      (0 <=? absof) && (absof <? rbuf_len b) && (absof + zlen src <=? rbuf_len b)
  | OpSeek absof => (0 <=? absof) && (absof <? rbuf_len b) && writable_atb b absof
  end.

(** Every operation of the run is enabled where it is made; the guard looks no
    further if the code aborts. *)
Fixpoint run_enabled (junk : Z -> Z) (b : rd_buf) (ops : list buf_op) : bool :=
  match ops with
  | [] => true
  | op :: ops =>
      buf_enabled b op &&
      match buf_exec junk b op with Some b => run_enabled junk b ops | None => true end
  end.

(** ** The readers, as operations on a cursor *)

Inductive slice_op : Type :=
| SlRead (size : Z)
| SlPeek (offset size : Z)
| SlSeek (offset : Z)
| SlUvarint
| SlVarint
| SlRemains.

Inductive slice_out : Type :=
| OutBytes (ret : Z) (dst : bytes)
| OutNum (ret : Z) (num : option Z)
| OutRet (ret : Z).

Definition slice_exec (rb : rd_buf) (s : rd_slice) (op : slice_op)
  : option (rd_slice * slice_out) :=
  match op with
  | SlRead n => let* (s, r, d) := rd_slice_read rb s n in Some (s, OutBytes r d)
  | SlPeek o n => let* (r, d) := rd_slice_peek rb s o n in Some (s, OutBytes r d)
  | SlSeek o => let* (s, r) := rd_slice_seek rb s o in Some (s, OutRet r)
  | SlUvarint => let* (s, r, n) := rd_slice_read_uvarint rb s in Some (s, OutNum r n)
  | SlVarint => let* (s, r, n) := rd_slice_read_varint rb s in Some (s, OutNum r n)
  | SlRemains => Some (s, OutRet (rd_slice_remains rb s))
  end.

(** A position in the window's bytes [w]. *)
Definition flat_exec (w : bytes) (pos : Z) (op : slice_op) : option (Z * slice_out) :=
  let read pos n := if zlen w - pos <? n then (pos, OutBytes 0 [])
                    else (pos + n, OutBytes n (sub w pos n)) in
  match op with
  | SlRead n => Some (read pos n)
  | SlPeek o n => if zlen w <=? o then Some (pos, OutBytes 0 []) else Some (pos, snd (read o n))
  | SlSeek o => if zlen w <=? o then Some (pos, OutRet (-1)) else Some (o, OutRet 0)
  | SlUvarint => let* (r, n) := rd_uvarint_dec (zdrop pos w) in Some (pos + r, OutNum r n)
  | SlVarint => let* (r, n) := rd_varint_dec_i64 (zdrop pos w) in Some (pos + r, OutNum r n)
  | SlRemains => Some (pos, OutRet (zlen w - pos))
  end.

Fixpoint run_outputs {S} (exec : S -> slice_op -> option (S * slice_out)) (s : S)
  (ops : list slice_op) : option (list slice_out) :=
  match ops with
  | [] => Some []
  | op :: ops =>
      let* (s, o) := exec s op in
      let* os := run_outputs exec s ops in Some (o :: os)
  end.

(** [size_t] arguments, whose sum with the slice's start does not wrap. *)
Definition slice_op_ok (op : slice_op) : bool :=
  match op with
  | SlRead n => (0 <=? n) && (n <? 2 ^ 63)
  | SlPeek o n => (0 <=? o) && (o <? 2 ^ 63) && (0 <=? n) && (n <? 2 ^ 63)
  | SlSeek o => (0 <=? o) && (o <? 2 ^ 63)
  | _ => true
  end.

(** ** Lemmas *)

Lemma writable_atb_true b absof : writable_atb b absof = true -> writable_at b absof.
Proof.
  unfold writable_atb, writable_at. rewrite forallb_forall, Forall_forall.
  intros H s Hs Hin. apply H in Hs.
  destruct (rd_segment_is_rdonly s); [exfalso | reflexivity].
  rewrite orb_false_r in Hs. apply negb_true_iff, andb_false_iff in Hs. lia.
Qed.

(** A run's state between operations. *)
Definition buf_state (b : rd_buf) (c : bytes) : Prop :=
  wf b /\ wpos_last b /\ rbuf_erased b = 0 /\ rd_buf_content b = c.

Lemma buf_state_init fixed_seg_cnt buf_size b :
  rd_buf_init fixed_seg_cnt buf_size = Some b -> buf_state b [].
Proof.
  unfold rd_buf_init. intros H. unfold buf_state, wf, wpos_last.
  destruct (fixed_seg_cnt =? 0); [destruct (rd_assert _); [| discriminate] |];
    injection H as <-; cbn; auto 10.
Qed.

Lemma buf_exec_refines junk b c op :
  buf_state b c -> buf_enabled b op = true ->
  exists b', buf_exec junk b op = Some b' /\ buf_state b' (buf_spec c op).
Proof.
  intros (Hb & Hw & He & Hc). destruct op as [src | p f w | absof src | absof];
    cbn [buf_enabled buf_exec buf_spec]; intros Hen.
  - apply andb_true_iff in Hen as [H1 H2].
    destruct (rd_buf_write_spec junk b (Some src) (zlen src) Hb) as
      (b' & d & -> & Hb' & Hc' & _ & Hd & _ & He' & Hw'); try lia; [reflexivity |].
    exists b'. cbn. split; [reflexivity |]. unfold buf_state.
    rewrite (Hd src eq_refl) in Hc'. rewrite Hc', He', Hc. auto.
  - destruct (rd_buf_push_spec junk b p f w Hb Hw) as (b' & -> & Hb' & Hw' & Hc' & _ & He'); [lia |].
    exists b'. unfold buf_state. rewrite Hc', He', Hc. auto.
  - rewrite !andb_true_iff in Hen. destruct Hen as [[H1 H2] H3].
    destruct (rd_buf_write_update_spec b absof src Hb) as
      (b' & -> & Hb' & Hc' & _ & He' & Hw'); [lia .. |].
    exists b'. cbn. split; [reflexivity |]. unfold buf_state. rewrite Hc', He', Hc. auto.
  - rewrite !andb_true_iff in Hen. destruct Hen as [[H1 H2] H3].
    destruct (rd_buf_write_seek_spec b absof Hb) as
      (b' & -> & Hc' & _ & He' & Hw' & Hb'); [lia |].
    exists b'. cbn. split; [reflexivity |]. unfold buf_state. rewrite Hc', He', Hc.
    auto using writable_atb_true.
Qed.

Lemma buf_run_refines junk ops : forall b c,
  buf_state b c -> run_enabled junk b ops = true ->
  exists b', buf_run junk b ops = Some b' /\ buf_state b' (fold_left buf_spec ops c).
Proof.
  induction ops as [| op ops IH]; intros b c Hb Hen; cbn in *; [eauto |].
  apply andb_true_iff in Hen as [H1 H2].
  destruct (buf_exec_refines junk b c op Hb H1) as (b' & E & Hb'). rewrite E in H2 |- *. auto.
Qed.

(** A slice at position [pos] of the window [absof..absof+size). *)
Definition slice_state (rb : rd_buf) (absof size : Z) (s : rd_slice) (pos : Z) : Prop :=
  exists front back i, view rb front back /\ at_pos front s i (absof + pos) /\
    sl_start s = absof /\ sl_end s = absof + size.

Lemma slice_state_intro rb absof size front back s i pos p :
  view rb front back -> at_pos front s i p -> p = absof + pos ->
  sl_start s = absof -> sl_end s = absof + size -> slice_state rb absof size s pos.
Proof. intros V H -> ? ?. exists front, back, i. auto. Qed.

Lemma sub_sub c absof size pos n :
  0 <= absof -> 0 <= pos -> 0 <= size -> n <= size - pos ->
  sub (sub c absof size) pos n = sub c (absof + pos) n.
Proof.
  intros. unfold sub. rewrite zdrop_take, zdrop_drop by lia. rewrite ztake_take. f_equal. lia.
Qed.

Lemma zdrop_sub c absof size pos :
  0 <= absof -> 0 <= pos -> 0 <= size -> zdrop pos (sub c absof size) = sub c (absof + pos) (size - pos).
Proof. intros. unfold sub. now rewrite zdrop_take, zdrop_drop by lia. Qed.

Lemma rd_slice_peek_spec rb front back s i pos o n :
  view rb front back -> at_pos front s i pos -> 0 <= o < 2 ^ 63 -> 0 <= n ->
  sl_start s < 2 ^ 63 ->
  rd_slice_peek rb s o n =
  Some (if sl_end s <=? sl_start s + o then (0, [])
        else if sl_end s - (sl_start s + o) <? n then (0, [])
        else (n, sub (rd_buf_content rb) (sl_start s + o) n)).
Proof.
  intros V Hat Ho Hn Hs. unfold rd_slice_peek.
  destruct (rd_slice_seek_spec rb front back V s i pos o Hat) as [Hin Hout]; [lia .. |].
  destruct (Z.leb_spec (sl_end s) (sl_start s + o)) as [Hle | Hlt]; [now rewrite Hout |].
  destruct (Hin Hlt) as (s1 & i1 & -> & Hat1 & Est & Een). cbn [Z.eqb].
  destruct (rd_slice_read_spec rb front back V s1 i1 _ n Hat1 Hn) as [Hok Hno].
  rewrite Een in *. destruct (Z.ltb_spec (sl_end s - (sl_start s + o)) n); [now rewrite Hno |].
  destruct (Hok ltac:(lia)) as (s2 & i2 & -> & _). reflexivity.
Qed.

(** One operation on a slice is the operation on the cursor. *)
Lemma slice_exec_refines rb absof size s pos op :
  slice_state rb absof size s pos -> slice_op_ok op = true -> rbuf_len rb < 2 ^ 63 ->
  let w := sub (rd_buf_content rb) absof size in
  match flat_exec w pos op with
  | Some (pos', out) => exists s', slice_exec rb s op = Some (s', out) /\
                                   slice_state rb absof size s' pos'
  | None => slice_exec rb s op = None
  end.
Proof.
  intros (front & back & i & V & Hat & Hst & Hen) Hop Hlen w.
  pose proof (ap_bounds _ _ _ _ Hat) as [Hb1 Hb2]. rewrite Hst, Hen in *.
  assert (slice_state rb absof size s pos) as Hss by (eapply slice_state_intro; eauto).
  pose proof (vw_len _ _ _ V) as Hvl.
  assert (zlen w = size) as Hw
    by (unfold w, sub; rewrite zlen_take, zlen_drop, (c_len rb front back V); lia).
  destruct op as [n | o n | o | | |]; cbn [slice_op_ok] in Hop; cbn [flat_exec slice_exec].
  - rewrite Hw. destruct (rd_slice_read_spec rb front back V s i _ n Hat ltac:(lia)) as [Hok Hno].
    rewrite Hen in *. destruct (Z.ltb_spec (size - pos) n).
    + rewrite Hno by lia. eauto.
    + destruct (Hok ltac:(lia)) as (s' & i' & -> & Hat' & ? & ?).
      exists s'. unfold w. rewrite sub_sub by lia. split; [reflexivity |].
      eapply slice_state_intro; eauto; lia.
  - rewrite Hw, (rd_slice_peek_spec rb front back s i (absof + pos)), Hst, Hen by (assumption || lia).
    replace (absof + size <=? absof + o) with (size <=? o)
      by (destruct (Z.leb_spec size o); symmetry; [apply Z.leb_le | apply Z.leb_gt]; lia).
    replace (absof + size - (absof + o)) with (size - o) by lia.
    destruct (size <=? o); [eauto |]. destruct (Z.ltb_spec (size - o) n); [eauto |].
    unfold w. rewrite sub_sub by lia. eauto.
  - rewrite Hw. destruct (rd_slice_seek_spec rb front back V s i _ o Hat) as [Hok Hno]; try lia.
    rewrite Hst, Hen in *. destruct (Z.leb_spec size o).
    + rewrite Hno by lia. eauto.
    + destruct (Hok ltac:(lia)) as (s' & i' & -> & Hat' & ? & ?).
      exists s'. split; [reflexivity |]. eapply slice_state_intro; eauto; lia.
  - pose proof (rd_slice_read_uvarint_spec rb front back V s i _ Hat) as H.
    unfold w. rewrite zdrop_sub by lia. rewrite Hen in H.
    replace (absof + size - (absof + pos)) with (size - pos) in H by lia.
    destruct (rd_uvarint_dec _) as [[r [n |]] |]; [| | now rewrite H].
    + destruct H as (s' & i' & -> & Hat' & ? & ?). exists s'. split; [reflexivity |].
      eapply slice_state_intro; eauto; lia.
    + destruct H as [-> ->]. rewrite Z.add_0_r. eauto.
  - pose proof (rd_slice_read_varint_spec rb front back V s i _ Hat) as H.
    unfold w. rewrite zdrop_sub by lia. rewrite Hen in H.
    replace (absof + size - (absof + pos)) with (size - pos) in H by lia.
    destruct (rd_varint_dec_i64 _) as [[r [n |]] |]; [| | now rewrite H].
    + destruct H as (s' & i' & -> & Hat' & ? & ?). exists s'. split; [reflexivity |].
      eapply slice_state_intro; eauto; lia.
    + destruct H as [-> ->]. rewrite Z.add_0_r. eauto.
  - rewrite (remains_at rb front back V s i _ Hat), Hen, Hw. exists s. split; [| exact Hss].
    do 3 f_equal. lia.
Qed.

Lemma slice_run_refines rb absof size ops : forall s pos,
  slice_state rb absof size s pos -> forallb slice_op_ok ops = true -> rbuf_len rb < 2 ^ 63 ->
  run_outputs (slice_exec rb) s ops =
  run_outputs (flat_exec (sub (rd_buf_content rb) absof size)) pos ops.
Proof.
  induction ops as [| op ops IH]; intros s pos Hs Hops Hlen; [reflexivity |].
  cbn in Hops. apply andb_true_iff in Hops as [Hop Hops]. cbn [run_outputs].
  pose proof (slice_exec_refines rb absof size s pos op Hs Hop Hlen) as H. cbv zeta in H.
  destruct (flat_exec _ pos op) as [[pos' out] |]; [| now rewrite H].
  destruct H as (s' & -> & Hs'). now rewrite (IH s' pos').
Qed.

Lemma slice_init_state rb absof size :
  wf rb -> rbuf_len rb < 2 ^ 63 -> 0 <= absof -> 0 <= size < 2 ^ 63 ->
  (absof < rbuf_len rb -> absof + size <= rbuf_len rb -> exists s,
     rd_slice_init rb absof size = Some (SliceOk s) /\ slice_state rb absof size s 0) /\
  (absof < 2 ^ 63 -> rbuf_len rb <= absof \/ rbuf_len rb < absof + size ->
     rd_slice_init rb absof size = Some SliceErr).
Proof.
  intros Hb Hl Ha Hs. destruct (wf_has_view rb Hb) as (front & back & V).
  split; intros H1 H2;
    destruct (rd_slice_init_spec rb front back V absof size Ha ltac:(lia) ltac:(lia)) as [Hok Hno].
  - destruct (Hok H1 H2) as (s & i & -> & Hat & ? & ?). exists s. split; [reflexivity |].
    eapply slice_state_intro; eauto; lia.
  - now apply Hno.
Qed.

Definition erasableb (b : rd_buf) (absof size : Z) : bool :=
  forallb (fun s => negb ((absof <? seg_absof s + seg_of s) && (seg_absof s <? absof + size))
                    || negb (rd_segment_is_rdonly s)) (rbuf_segments b).

Lemma erasableb_true b absof size : erasableb b absof size = true -> erasable b absof size.
Proof.
  unfold erasableb, erasable. rewrite forallb_forall, Forall_forall.
  intros H s Hs H1 H2. apply H in Hs.
  destruct (rd_segment_is_rdonly s); [exfalso | reflexivity].
  rewrite orb_false_r in Hs. apply negb_true_iff, andb_false_iff in Hs. lia.
Qed.

Lemma buf_state_len b c : buf_state b c -> rbuf_len b = zlen c.
Proof.
  intros (Hb & _ & _ & <-). destruct (wf_has_view b Hb) as (front & back & V).
  now rewrite (c_len b front back V), (vw_len _ _ _ V).
Qed.

Lemma write_pos_len b : wf b -> rd_buf_write_pos b = rbuf_len b.
Proof.
  intros H. apply wf_cases in H as
    [(el & es & fr & ->) | (cnt & len & er & sz & el & es & fr & l1 & s & l2 & -> & Hsh & _)];
    [reflexivity |].
  unfold rd_buf_write_pos, at_seg. cbn. rewrite lookup_mid.
  rewrite (shape_absof _ _ _ _ Hsh), (shape_len _ _ _ _ Hsh). lia.
Qed.

Lemma overwrite_end (c d src : bytes) :
  zlen d = zlen src -> overwrite (c ++ d) (zlen c) src = c ++ src.
Proof.
  intros H. unfold overwrite.
  rewrite ztake_app, ztake_all, Z.sub_diag, ztake_nonpos, app_nil_r by lia.
  now rewrite (zdrop_all _ (c ++ d)), app_nil_r by zlen_lia.
Qed.

(** ** Properties *)

(** C12. A buffer refines a byte string.  From an initialised buffer, any sequence
    of writes, pushes of caller memory (with the split of the segment the write
    position is in), in-place updates and backward seeks runs without a failed
    assertion or a lost byte: the buffer then holds exactly the bytes the same
    sequence produces on a plain string, its length and write position are that
    string's length, whatever the segment layout became. *)
Theorem rd_buf_refines_bytes junk fixed_seg_cnt buf_size b ops :
  rd_buf_init fixed_seg_cnt buf_size = Some b -> run_enabled junk b ops = true ->
  exists b', buf_run junk b ops = Some b' /\
    rd_buf_content b' = fold_left buf_spec ops [] /\
    rbuf_len b' = zlen (fold_left buf_spec ops []) /\
    rd_buf_write_pos b' = rbuf_len b' /\ wf b'.
Proof.
  intros Hi Hen. apply buf_state_init in Hi.
  destruct (buf_run_refines junk ops b [] Hi Hen) as (b' & E & Hb').
  exists b'. split; [exact E |]. pose proof (buf_state_len _ _ Hb').
  destruct Hb' as (Hb' & _ & _ & Hc). auto using write_pos_len.
Qed.

Definition demo_ops : list buf_op :=
  [OpWrite [1; 2; 3; 4]; OpPush [10; 11; 12] None true; OpUpdate 2 [7; 8; 9];
   OpPush [20; 21] (Some 5) false; OpSeek 6; OpWrite [30]].

Lemma rd_buf_refines_bytes_witness :
  exists b', buf_run (fun _ => 0) (mk_buf [] 0 None 0 0 0 0 (64 + 8) []) demo_ops = Some b' /\
    rd_buf_content b' = [1; 2; 7; 8; 9; 11; 30] /\ rbuf_len b' = 7.
Proof.
  destruct (rd_buf_refines_bytes (fun _ => 0) 1 8 (mk_buf [] 0 None 0 0 0 0 (64 + 8) []) demo_ops
              eq_refl ltac:(vm_compute; reflexivity)) as (b' & H1 & H2 & H3 & _).
  exists b'. split; [exact H1 |]. split; [exact H2 | exact H3].
Defined.

(** C13. A slice refines a flat cursor.  On a buffer built by such a run, a slice
    over any window of the data can be initialised, and any sequence of reads,
    peeks, seeks, varint reads and queries of the remaining length gives what a
    cursor over the window's plain bytes gives, underflows included: segment
    boundaries, and the segments allocated ahead of the data, cannot be observed. *)
Theorem rd_slice_refines_cursor junk fixed_seg_cnt buf_size b ops b' absof size sops :
  rd_buf_init fixed_seg_cnt buf_size = Some b -> run_enabled junk b ops = true ->
  buf_run junk b ops = Some b' -> rbuf_len b' < 2 ^ 63 ->
  0 <= absof < rbuf_len b' -> 0 <= size -> absof + size <= rbuf_len b' ->
  forallb slice_op_ok sops = true ->
  exists s, rd_slice_init b' absof size = Some (SliceOk s) /\
    run_outputs (slice_exec b') s sops =
    run_outputs (flat_exec (sub (fold_left buf_spec ops []) absof size)) 0 sops.
Proof.
  intros Hi Hen Hrun Hmax Ha Hs Hle Hops. apply buf_state_init in Hi.
  destruct (buf_run_refines junk ops b [] Hi Hen) as (b2 & E & Hb' & _ & _ & <-).
  rewrite Hrun in E. injection E as <-.
  destruct (slice_init_state b' absof size Hb' Hmax ltac:(lia) ltac:(lia)) as [Hok _].
  destruct Hok as (s & -> & Hss); [lia .. |].
  exists s. split; [reflexivity |]. now apply slice_run_refines.
Qed.

Definition demo_reads : list slice_op :=
  [SlUvarint; SlPeek 0 3; SlVarint; SlRemains; SlSeek 1; SlRead 2; SlRead 9; SlSeek 9].

Lemma rd_slice_refines_cursor_witness :
  exists b' s, buf_run (fun _ => 0) (mk_buf [] 0 None 0 0 0 0 0 [])
      [OpPush [0x80] None true; OpWrite [0x01; 0x03]; OpPush [4; 5] None true] = Some b' /\
    rd_slice_init b' 0 5 = Some (SliceOk s) /\
    run_outputs (slice_exec b') s demo_reads =
    Some [OutNum 2 (Some 128); OutBytes 3 [0x80; 1; 3]; OutNum 1 (Some (-2)); OutRet 2;
          OutRet 0; OutBytes 2 [1; 3]; OutBytes 0 []; OutRet (-1)].
Proof.
  eexists.
  assert (buf_run (fun _ => 0) (mk_buf [] 0 None 0 0 0 0 0 [])
      [OpPush [0x80] None true; OpWrite [0x01; 0x03]; OpPush [4; 5] None true] = Some _) as E
    by (vm_compute; reflexivity).
  destruct (rd_slice_refines_cursor (fun _ => 0) 0 0 (mk_buf [] 0 None 0 0 0 0 0 [])
              [OpPush [0x80] None true; OpWrite [0x01; 0x03]; OpPush [4; 5] None true]
              _ 0 5 demo_reads eq_refl ltac:(vm_compute; reflexivity) E
              ltac:(vm_compute; reflexivity) ltac:(split; vm_compute; congruence)
              ltac:(vm_compute; congruence) ltac:(vm_compute; congruence)
              ltac:(vm_compute; reflexivity)) as (s & H1 & H2).
  exists s. split; [exact E |]. split; [exact H1 | exact H2].
Defined.

(** A reservation can be filled in later.  Writing with a null payload returns
    the offset of the space reserved, which is the old length; updating at that
    offset then leaves the buffer as if the bytes had been written directly. *)
Lemma reserve_then_update junk b c src :
  buf_state b c -> 0 < zlen src < 2 ^ 62 -> rbuf_size b < 2 ^ 62 ->
  exists b1 b2, rd_buf_write junk b None (zlen src) = Some (b1, zlen c) /\
    rd_buf_write_update b1 (zlen c) src (zlen src) = Some (b2, zlen src) /\
    buf_state b2 (c ++ src).
Proof.
  intros Hst Hs Hsz. pose proof (buf_state_len _ _ Hst) as Hlen.
  destruct Hst as (Hb & Hw & He & Hc).
  destruct (rd_buf_write_spec junk b None (zlen src) Hb) as
    (b1 & d & -> & Hb1 & Hc1 & Hd & _ & Hl1 & He1 & Hw1); try easy; [lia |].
  destruct (rd_buf_write_update_spec b1 (zlen c) src Hb1) as
    (b2 & Hu & Hb2 & Hc2 & _ & He2 & Hw2); [lia .. |].
  rewrite Hlen. exists b1, b2. do 2 (split; [reflexivity || exact Hu |]).
  split; [exact Hb2 |]. split; [auto |]. split; [congruence |].
  rewrite Hc2, Hc1, Hc. now apply overwrite_end.
Qed.

Lemma reserve_then_update_witness :
  exists b1 b2, rd_buf_write (fun _ => 7) (mk_buf [] 0 None 0 0 0 0 0 []) None 3 = Some (b1, 0) /\
    rd_buf_write_update b1 0 [1; 2; 3] 3 = Some (b2, 3) /\ buf_state b2 [1; 2; 3].
Proof.
  apply (reserve_then_update (fun _ => 7) (mk_buf [] 0 None 0 0 0 0 0 []) [] [1; 2; 3]).
  - apply (buf_state_init 0 0). reflexivity.
  - vm_compute. split; congruence.
  - vm_compute. congruence.
Defined.

(** Erasing removes a region.  On a buffer built by writes, pushes, updates
    and seeks, erasing [size] bytes from an offset inside the data, none of them
    in read-only memory, returns the bytes there were to erase, takes exactly
    those out of the contents and counts them, and leaves the segments at
    consecutive offsets. *)
Lemma rd_buf_erase_removes b c absof size :
  buf_state b c -> 0 <= absof < zlen c -> 0 < size -> erasableb b absof size = true ->
  let n := Z.min size (zlen c - absof) in
  exists b', rd_buf_erase b absof size = Some (b', n) /\
    rd_buf_content b' = ztake absof c ++ zdrop (absof + n) c /\
    rbuf_len b' = zlen c - n /\ rbuf_erased b' = n /\
    placed 0 (rbuf_segments b').
Proof.
  intros Hst Ha Hs Her n. pose proof (buf_state_len _ _ Hst) as Hlen.
  destruct Hst as (Hb & Hw & He & <-).
  destruct (rd_buf_erase_spec b absof size Hb Hw ltac:(lia) Hs (erasableb_true _ _ _ Her))
    as (b' & E & Hc & Hl & He' & Hp & _).
  rewrite Hlen in *. exists b'. repeat split; try assumption. lia.
Qed.

Lemma rd_buf_erase_removes_witness :
  exists b c b', buf_state b c /\ c = [1; 2; 3; 4; 10; 11; 12] /\
    rd_buf_erase b 3 2 = Some (b', 2) /\ rd_buf_content b' = [1; 2; 3; 11; 12].
Proof.
  destruct (buf_run_refines (fun _ => 0) [OpWrite [1; 2; 3; 4]; OpPush [10; 11; 12] None true]
    (mk_buf [] 0 None 0 0 0 0 0 []) [] (buf_state_init 0 0 _ eq_refl)
    ltac:(vm_compute; reflexivity)) as (b & E & Hb).
  exists b. eexists.
  assert (erasableb b 3 2 = true) as He
    by (vm_compute in E; injection E as <-; vm_compute; reflexivity).
  destruct (rd_buf_erase_removes b _ 3 2 Hb ltac:(vm_compute; split; congruence)
              ltac:(vm_compute; reflexivity) He) as (b' & H1 & H2 & _).
  exists b'. split; [exact Hb |]. split; [reflexivity |]. split; [exact H1 | exact H2].
Defined.

(** A buffer is not usable for writing after an erasure that consumes a whole
    segment: the segment's memory leaves [rbuf_size] while its bytes are also
    counted in [rbuf_erased], so that the remaining room underflows, no segment is
    allocated and the next write never finds one to write to. *)
Lemma erase_segment_then_write junk :
  exists b b', buf_run junk (mk_buf [] 0 None 0 0 0 0 0 [])
      [OpPush [1; 2; 3] None true; OpPush [4; 5; 6; 7] None true] = Some b /\
    rd_buf_erase b 0 3 = Some (b', 3) /\ rd_buf_content b' = [4; 5; 6; 7] /\
    rd_buf_write_remains b' = 2 ^ 64 - 3 /\
    rd_buf_write junk b' (Some [9]) 1 = None.
Proof.
  do 2 eexists. split; [vm_compute; reflexivity |]. split; [vm_compute; reflexivity |].
  repeat split; vm_compute; reflexivity.
Qed.

(** Copying a slice returns positions, not a size.  The bytes are appended,
    but the value returned adds up what [rd_buf_write] returns, which is where
    each chunk was written: 3 here, for the two bytes copied. *)
Theorem rd_buf_write_slice_return junk :
  exists dst src s dst', buf_run junk (mk_buf [] 0 None 0 0 0 0 0 []) [OpWrite [1; 2; 3]] = Some dst /\
    buf_run junk (mk_buf [] 0 None 0 0 0 0 0 []) [OpPush [8; 9] None true] = Some src /\
    rd_slice_init src 0 2 = Some (SliceOk s) /\
    (fun r => (fst (fst r), snd r)) <$> rd_buf_write_slice junk dst src s = Some (dst', 3) /\
    rd_buf_content dst' = [1; 2; 3; 8; 9].
Proof.
  do 4 eexists. split; [vm_compute; reflexivity |]. split; [vm_compute; reflexivity |].
  split; [vm_compute; reflexivity |]. split; vm_compute; reflexivity.
Qed.
