(* ===== verification/Crc.v ===== *)
(** * Checksums (src/cbits/hs_crc32c.c, hs_rdcrc32.h, hs_rdcrc32.c)

    CRC-32C in the software version, eight bytes at a time, and the table-driven
    CRC-32, both against the bit-by-bit definition; and their use on slices
    (src/cbits/hs_rdbuf.c).  The assembler version and zlib's [crc32] are not
    modelled. *)

From S2P Require Import Prelude Varint RdBuf RdBufFacts Slice SliceFacts RdBufProps.

(** ** CRC-32C *)

Definition POLY : Z := 0x82f63b78.

(** [crc & 1 ? (crc >> 1) ^ POLY : crc >> 1] *)
Definition crc_shift1 (poly crc : Z) : Z :=
  if Z.land crc 1 =? 0 then Z.shiftr crc 1 else Z.lxor (Z.shiftr crc 1) poly.

Definition crc_shift8 (poly crc : Z) : Z :=
  Nat.iter 8 (crc_shift1 poly) crc.

(** [crc32c_table], a list of eight tables. *)
Definition tbl (t : list (list Z)) (k n : Z) : Z :=
  nth (Z.to_nat n) (nth (Z.to_nat k) t []) 0.

(** One entry of [crc32c_init_sw]'s second loop from the one below it. *)
Definition table_next (t0 : list Z) (crc : Z) : Z :=
  Z.lxor (nth (Z.to_nat (Z.land crc 0xff)) t0 0) (Z.shiftr crc 8).

Definition crc32c_init_sw : list (list Z) :=
  let t0 := map (fun n => crc_shift8 POLY (Z.of_nat n)) (seq 0 256) in
  map (fun k => map (fun n => Nat.iter k (table_next t0) (nth n t0 0)) (seq 0 256)) (seq 0 8).

Definition crc32c_table : list (list Z) := Eval vm_compute in crc32c_init_sw.

(** [crc32c_table[0][(crc ^ *next++) & 0xff] ^ (crc >> 8)] *)
Definition crc32c_byte (crc b : Z) : Z :=
  Z.lxor (tbl crc32c_table 0 (Z.land (Z.lxor crc b) 0xff)) (Z.shiftr crc 8).

Definition crc32c_word (crc : Z) (p : bytes) : Z :=
  let crc := Z.lxor crc (le_bytes p) in
  Z.lxor (tbl crc32c_table 7 (Z.land crc 0xff))
  (Z.lxor (tbl crc32c_table 6 (Z.land (Z.shiftr crc 8) 0xff))
  (Z.lxor (tbl crc32c_table 5 (Z.land (Z.shiftr crc 16) 0xff))
  (Z.lxor (tbl crc32c_table 4 (Z.land (Z.shiftr crc 24) 0xff))
  (Z.lxor (tbl crc32c_table 3 (Z.land (Z.shiftr crc 32) 0xff))
  (Z.lxor (tbl crc32c_table 2 (Z.land (Z.shiftr crc 40) 0xff))
  (Z.lxor (tbl crc32c_table 1 (Z.land (Z.shiftr crc 48) 0xff))
          (tbl crc32c_table 0 (Z.shiftr crc 56)))))))).

(** The first loop, up to an address that is a multiple of eight; what is left
    of the bytes is returned with the remainder. *)
Fixpoint crc32c_align (addr : Z) (p : bytes) (crc : Z) : Z * bytes :=
  match p with
  | [] => (crc, [])
  | b :: rest =>
      if negb (Z.land addr 7 =? 0) then crc32c_align (addr + 1) rest (crc32c_byte crc b)
      else (crc, p)
  end.

(** The second loop; [fuel] bounds its rounds by the bytes there are. *)
Fixpoint crc32c_words (fuel : nat) (p : bytes) (crc : Z) : Z * bytes :=
  match fuel with
  | O => (crc, p)
  | S fuel =>
      if zlen p >=? 8 then crc32c_words fuel (zdrop 8 p) (crc32c_word crc (ztake 8 p))
      else (crc, p)
  end.

(** [addr] is the address of the buffer, whose alignment decides the path. *)
Definition crc32c_sw (addr crci : Z) (buf : bytes) : Z :=
  let crc := Z.lxor crci 0xffffffff in
  let '(crc, p) := crc32c_align addr buf crc in
  let '(crc, p) := crc32c_words (length p) p crc in
  let crc := fold_left crc32c_byte p crc in
  Z.lxor (u32 crc) 0xffffffff.

(** [rd_crc32c] on a CPU without the [crc32] instruction. *)
Definition rd_crc32c (addr crc : Z) (buf : bytes) : Z := crc32c_sw addr crc buf.

(** ** CRC-32, in the build without zlib *)

(** The loop of [rd_crc32_reflect], [n] rounds of it left. *)
Fixpoint crc32_reflect_loop (n : nat) (data ret : Z) : Z :=
  match n with
  | O => ret
  | S n => let data := Z.shiftr data 1 in
           crc32_reflect_loop n data (u32 (Z.lor (Z.shiftl ret 1) (Z.land data 0x01)))
  end.

Definition rd_crc32_reflect (data data_len : Z) : Z :=
  crc32_reflect_loop (Z.to_nat (data_len - 1)) data (Z.land data 0x01).

Definition crc_table : list Z := [
  0x00000000; 0x77073096; 0xee0e612c; 0x990951ba; 0x076dc419; 0x706af48f;
  0xe963a535; 0x9e6495a3; 0x0edb8832; 0x79dcb8a4; 0xe0d5e91e; 0x97d2d988;
  0x09b64c2b; 0x7eb17cbd; 0xe7b82d07; 0x90bf1d91; 0x1db71064; 0x6ab020f2;
  0xf3b97148; 0x84be41de; 0x1adad47d; 0x6ddde4eb; 0xf4d4b551; 0x83d385c7;
  0x136c9856; 0x646ba8c0; 0xfd62f97a; 0x8a65c9ec; 0x14015c4f; 0x63066cd9;
  0xfa0f3d63; 0x8d080df5; 0x3b6e20c8; 0x4c69105e; 0xd56041e4; 0xa2677172;
  0x3c03e4d1; 0x4b04d447; 0xd20d85fd; 0xa50ab56b; 0x35b5a8fa; 0x42b2986c;
  0xdbbbc9d6; 0xacbcf940; 0x32d86ce3; 0x45df5c75; 0xdcd60dcf; 0xabd13d59;
  0x26d930ac; 0x51de003a; 0xc8d75180; 0xbfd06116; 0x21b4f4b5; 0x56b3c423;
  0xcfba9599; 0xb8bda50f; 0x2802b89e; 0x5f058808; 0xc60cd9b2; 0xb10be924;
  0x2f6f7c87; 0x58684c11; 0xc1611dab; 0xb6662d3d; 0x76dc4190; 0x01db7106;
  0x98d220bc; 0xefd5102a; 0x71b18589; 0x06b6b51f; 0x9fbfe4a5; 0xe8b8d433;
  0x7807c9a2; 0x0f00f934; 0x9609a88e; 0xe10e9818; 0x7f6a0dbb; 0x086d3d2d;
  0x91646c97; 0xe6635c01; 0x6b6b51f4; 0x1c6c6162; 0x856530d8; 0xf262004e;
  0x6c0695ed; 0x1b01a57b; 0x8208f4c1; 0xf50fc457; 0x65b0d9c6; 0x12b7e950;
  0x8bbeb8ea; 0xfcb9887c; 0x62dd1ddf; 0x15da2d49; 0x8cd37cf3; 0xfbd44c65;
  0x4db26158; 0x3ab551ce; 0xa3bc0074; 0xd4bb30e2; 0x4adfa541; 0x3dd895d7;
  0xa4d1c46d; 0xd3d6f4fb; 0x4369e96a; 0x346ed9fc; 0xad678846; 0xda60b8d0;
  0x44042d73; 0x33031de5; 0xaa0a4c5f; 0xdd0d7cc9; 0x5005713c; 0x270241aa;
  0xbe0b1010; 0xc90c2086; 0x5768b525; 0x206f85b3; 0xb966d409; 0xce61e49f;
  0x5edef90e; 0x29d9c998; 0xb0d09822; 0xc7d7a8b4; 0x59b33d17; 0x2eb40d81;
  0xb7bd5c3b; 0xc0ba6cad; 0xedb88320; 0x9abfb3b6; 0x03b6e20c; 0x74b1d29a;
  0xead54739; 0x9dd277af; 0x04db2615; 0x73dc1683; 0xe3630b12; 0x94643b84;
  0x0d6d6a3e; 0x7a6a5aa8; 0xe40ecf0b; 0x9309ff9d; 0x0a00ae27; 0x7d079eb1;
  0xf00f9344; 0x8708a3d2; 0x1e01f268; 0x6906c2fe; 0xf762575d; 0x806567cb;
  0x196c3671; 0x6e6b06e7; 0xfed41b76; 0x89d32be0; 0x10da7a5a; 0x67dd4acc;
  0xf9b9df6f; 0x8ebeeff9; 0x17b7be43; 0x60b08ed5; 0xd6d6a3e8; 0xa1d1937e;
  0x38d8c2c4; 0x4fdff252; 0xd1bb67f1; 0xa6bc5767; 0x3fb506dd; 0x48b2364b;
  0xd80d2bda; 0xaf0a1b4c; 0x36034af6; 0x41047a60; 0xdf60efc3; 0xa867df55;
  0x316e8eef; 0x4669be79; 0xcb61b38c; 0xbc66831a; 0x256fd2a0; 0x5268e236;
  0xcc0c7795; 0xbb0b4703; 0x220216b9; 0x5505262f; 0xc5ba3bbe; 0xb2bd0b28;
  0x2bb45a92; 0x5cb36a04; 0xc2d7ffa7; 0xb5d0cf31; 0x2cd99e8b; 0x5bdeae1d;
  0x9b64c2b0; 0xec63f226; 0x756aa39c; 0x026d930a; 0x9c0906a9; 0xeb0e363f;
  0x72076785; 0x05005713; 0x95bf4a82; 0xe2b87a14; 0x7bb12bae; 0x0cb61b38;
  0x92d28e9b; 0xe5d5be0d; 0x7cdcefb7; 0x0bdbdf21; 0x86d3d2d4; 0xf1d4e242;
  0x68ddb3f8; 0x1fda836e; 0x81be16cd; 0xf6b9265b; 0x6fb077e1; 0x18b74777;
  0x88085ae6; 0xff0f6a70; 0x66063bca; 0x11010b5c; 0x8f659eff; 0xf862ae69;
  0x616bffd3; 0x166ccf45; 0xa00ae278; 0xd70dd2ee; 0x4e048354; 0x3903b3c2;
  0xa7672661; 0xd06016f7; 0x4969474d; 0x3e6e77db; 0xaed16a4a; 0xd9d65adc;
  0x40df0b66; 0x37d83bf0; 0xa9bcae53; 0xdebb9ec5; 0x47b2cf7f; 0x30b5ffe9;
  0xbdbdf21c; 0xcabac28a; 0x53b39330; 0x24b4a3a6; 0xbad03605; 0xcdd70693;
  0x54de5729; 0x23d967bf; 0xb3667a2e; 0xc4614ab8; 0x5d681b02; 0x2a6f2b94;
  0xb40bbe37; 0xc30c8ea1; 0x5a05df1b; 0x2d02ef8d].

Definition rd_crc32_init : Z := 0xffffffff.

Definition rd_crc32_update (crc : Z) (data : bytes) : Z :=
  Z.land (fold_left (fun crc b =>
            let tbl_idx := Z.land (Z.lxor crc b) 0xff in
            Z.land (Z.lxor (nth (Z.to_nat tbl_idx) crc_table 0) (Z.shiftr crc 8)) 0xffffffff)
          data crc) 0xffffffff.

Definition rd_crc32_finalize (crc : Z) : Z := Z.lxor crc 0xffffffff.

Definition rd_crc32 (data : bytes) : Z :=
  rd_crc32_finalize (rd_crc32_update rd_crc32_init data).

(** ** Checksums of slices *)

Definition rd_slice_crc32 (rb : rd_buf) (s : rd_slice) : option (rd_slice * Z) :=
  let* (s, crc) := reader_loop rb (reader_fuel rb) rd_crc32_update rd_crc32_init s in
  Some (s, rd_crc32_finalize crc).

(** [addr k] is the address of the [k]-th chunk. *)
Definition rd_slice_crc32c (addr : nat -> Z) (rb : rd_buf) (s : rd_slice)
  : option (rd_slice * Z) :=
  let* (s, r) := reader_loop rb (reader_fuel rb)
                   (fun acc p => (S (fst acc), rd_crc32c (addr (fst acc)) (snd acc) p))
                   (0%nat, 0) s in
  Some (s, snd r).

(** ** The definition of the checksums

    The remainder, bit by bit, of the polynomial with the bits reflected. *)
Definition crc_bits (poly crc : Z) (buf : bytes) : Z :=
  fold_left (fun crc b => crc_shift8 poly (Z.lxor crc b)) buf crc.

Definition crc_reference (poly crc : Z) (buf : bytes) : Z :=
  Z.lxor (crc_bits poly (Z.lxor crc 0xffffffff) buf) 0xffffffff.

(** ** Lemmas *)

Lemma lxor_range w a b : 0 <= w -> in_u w a -> in_u w b -> in_u w (Z.lxor a b).
Proof.
  intros Hw Ha Hb. unfold in_u in *.
  assert (0 <= Z.lxor a b) by (apply Z.lxor_nonneg; lia). split; [assumption |].
  replace (Z.lxor a b) with (Z.lxor a b mod 2 ^ w); [apply Z.mod_pos_bound; lia |].
  rewrite <- Z.land_ones by lia. apply Z.bits_inj'. intros n Hn.
  rewrite Z.land_spec, Z.lxor_spec, Z.testbit_ones_nonneg by lia.
  destruct (Z.ltb_spec n w); [apply andb_true_r |].
  rewrite (testbit_above a w), (testbit_above b w) by lia. reflexivity.
Qed.

Section Linear.

Variable poly : Z.
Hypothesis poly_range : in_u 32 poly.

Lemma shift1_lxor a b :
  crc_shift1 poly (Z.lxor a b) = Z.lxor (crc_shift1 poly a) (crc_shift1 poly b).
Proof.
  unfold crc_shift1. rewrite Z.shiftr_lxor, !land_1.
  assert (Z.lxor a b mod 2 = Z.lxor (a mod 2) (b mod 2)) as ->.
  { change 2 with (2 ^ 1). rewrite <- !Z.land_ones by lia. apply Z.bits_inj'. intros n Hn.
    rewrite Z.lxor_spec, !Z.land_spec, Z.lxor_spec. btauto. }
  destruct (Z.mod_pos_bound a 2 ltac:(lia)), (Z.mod_pos_bound b 2 ltac:(lia)).
  assert (a mod 2 = 0 \/ a mod 2 = 1) as [-> | ->] by lia;
    assert (b mod 2 = 0 \/ b mod 2 = 1) as [-> | ->] by lia;
    repeat match goal with |- context [if ?c then _ else _] =>
      let v := eval compute in c in change c with v; cbv iota end;
    apply Z.bits_inj'; intros n Hn; rewrite !Z.lxor_spec; btauto.
Qed.

Lemma iter_shift1_lxor n a b :
  Nat.iter n (crc_shift1 poly) (Z.lxor a b) =
  Z.lxor (Nat.iter n (crc_shift1 poly) a) (Nat.iter n (crc_shift1 poly) b).
Proof.
  induction n as [| n IH]; [reflexivity |]. rewrite !Nat.iter_succ, IH. apply shift1_lxor.
Qed.

Lemma shift1_double a : crc_shift1 poly (Z.shiftl a 1) = a.
Proof.
  unfold crc_shift1. rewrite land_1, Z.shiftl_mul_pow2 by lia. change (2 ^ 1) with 2.
  rewrite Z.mod_mul by lia. cbn [Z.eqb]. rewrite Z.shiftr_div_pow2 by lia.
  change (2 ^ 1) with 2. now rewrite Z.div_mul.
Qed.

Lemma iter_shift1_shiftl n a : Nat.iter n (crc_shift1 poly) (Z.shiftl a (Z.of_nat n)) = a.
Proof.
  induction n as [| n IH].
  - apply Z.shiftl_0_r.
  - rewrite Nat.iter_succ_r. rewrite Nat2Z.inj_succ, <- Z.add_1_r, <- Z.shiftl_shiftl by lia.
    now rewrite shift1_double.
Qed.

Lemma shift8_lxor a b :
  crc_shift8 poly (Z.lxor a b) = Z.lxor (crc_shift8 poly a) (crc_shift8 poly b).
Proof. apply iter_shift1_lxor. Qed.

Lemma shift8_shiftl a : crc_shift8 poly (Z.shiftl a 8) = a.
Proof. exact (iter_shift1_shiftl 8 a). Qed.

(** A shift by eight is the shift of the low byte and the bytes above it. *)
Lemma shift8_split x :
  crc_shift8 poly x = Z.lxor (crc_shift8 poly (Z.land x 0xff)) (Z.shiftr x 8).
Proof.
  rewrite <- (shift8_shiftl (Z.shiftr x 8)) at 1. rewrite <- shift8_lxor. f_equal.
  apply Z.bits_inj'. intros n Hn. change 0xff with (Z.ones 8).
  rewrite Z.lxor_spec, Z.land_spec, Z.testbit_ones_nonneg, Z.shiftl_spec by lia.
  destruct (Z.ltb_spec n 8).
  - rewrite andb_true_r, (Z.testbit_neg_r _ (n - 8)), xorb_false_r by lia. reflexivity.
  - rewrite andb_false_r, Z.shiftr_spec, xorb_false_l by lia. f_equal. lia.
Qed.

Lemma shift1_range w x : 32 <= w -> in_u w x -> in_u w (crc_shift1 poly x).
Proof.
  intros Hw Hx. unfold crc_shift1, in_u in *.
  assert (0 <= Z.shiftr x 1 < 2 ^ w).
  { rewrite Z.shiftr_div_pow2 by lia. change (2 ^ 1) with 2.
    pose proof (Z.div_le_upper_bound x 2 x ltac:(lia) ltac:(lia)).
    pose proof (Z.div_pos x 2 ltac:(lia) ltac:(lia)). lia. }
  destruct (Z.land x 1 =? 0); [assumption |]. apply lxor_range; try assumption; try lia.
  unfold in_u in *. pose proof (Z.pow_le_mono_r 2 32 w ltac:(lia) ltac:(lia)). lia.
Qed.

Lemma iter_shift1_range n w x :
  32 <= w -> in_u w x -> in_u w (Nat.iter n (crc_shift1 poly) x).
Proof.
  intros Hw Hx. induction n as [| n IH]; [assumption |].
  rewrite Nat.iter_succ. now apply shift1_range.
Qed.

Lemma shift8_range x : in_u 32 x -> in_u 32 (crc_shift8 poly x).
Proof. apply iter_shift1_range. lia. Qed.

Lemma byte_range b : is_byte b -> in_u 32 b.
Proof. unfold is_byte, in_u. lia. Qed.

Lemma crc_bits_range buf : forall crc,
  Forall is_byte buf -> in_u 32 crc -> in_u 32 (crc_bits poly crc buf).
Proof.
  induction buf as [| b buf IH]; intros crc Hb Hc; [exact Hc |].
  apply Forall_cons_iff in Hb as [Hb Hbuf]. cbn. apply IH; [assumption |].
  apply shift8_range, lxor_range; auto using byte_range. lia.
Qed.

Lemma crc_bits_app crc a b :
  crc_bits poly crc (a ++ b) = crc_bits poly (crc_bits poly crc a) b.
Proof. apply fold_left_app. Qed.

(** Bytes one by one are the little-endian number they make, all at once. *)
Lemma crc_bits_word p : forall crc,
  Forall is_byte p ->
  crc_bits poly crc p = Nat.iter (length p) (crc_shift8 poly) (Z.lxor crc (le_bytes p)).
Proof.
  induction p as [| b p IH]; intros crc Hp; [cbn; now rewrite Z.lxor_0_r |].
  apply Forall_cons_iff in Hp as [Hb Hp]. cbn [length]. rewrite Nat.iter_succ_r.
  cbn [crc_bits fold_left]. fold (crc_bits poly (crc_shift8 poly (Z.lxor crc b)) p).
  rewrite IH by assumption. f_equal. cbn [le_bytes].
  replace (Z.lor b (Z.shiftl (le_bytes p) 8)) with (Z.lxor b (Z.shiftl (le_bytes p) 8)).
  - now rewrite <- Z.lxor_assoc, (shift8_lxor (Z.lxor crc b)), shift8_shiftl.
  - rewrite <- Z.lxor_lor; [reflexivity |]. apply land_low_shiftl; [lia |].
    unfold is_byte in Hb. lia.
Qed.

End Linear.

Section Iterated.

Variable poly : Z.

(** [n] shifts by eight, taken byte by byte. *)
Lemma iter_shift8_split n x :
  Nat.iter (S n) (crc_shift8 poly) x =
  Z.lxor (Nat.iter (S n) (crc_shift8 poly) (Z.land x 0xff))
         (Nat.iter n (crc_shift8 poly) (Z.shiftr x 8)).
Proof.
  rewrite !Nat.iter_succ_r. rewrite (shift8_split poly x).
  generalize (crc_shift8 poly (Z.land x 255)) (Z.shiftr x 8). intros a b.
  induction n as [| n IH]; [reflexivity |]. rewrite !Nat.iter_succ, IH. apply shift8_lxor.
Qed.

(** A 64-bit word, as the eight lookups see it. *)
Lemma word_split x :
  Nat.iter 8 (crc_shift8 poly) x =
  Z.lxor (Nat.iter 8 (crc_shift8 poly) (Z.land x 0xff))
  (Z.lxor (Nat.iter 7 (crc_shift8 poly) (Z.land (Z.shiftr x 8) 0xff))
  (Z.lxor (Nat.iter 6 (crc_shift8 poly) (Z.land (Z.shiftr x 16) 0xff))
  (Z.lxor (Nat.iter 5 (crc_shift8 poly) (Z.land (Z.shiftr x 24) 0xff))
  (Z.lxor (Nat.iter 4 (crc_shift8 poly) (Z.land (Z.shiftr x 32) 0xff))
  (Z.lxor (Nat.iter 3 (crc_shift8 poly) (Z.land (Z.shiftr x 40) 0xff))
  (Z.lxor (Nat.iter 2 (crc_shift8 poly) (Z.land (Z.shiftr x 48) 0xff))
          (Nat.iter 1 (crc_shift8 poly) (Z.shiftr x 56)))))))).
Proof.
  assert (forall k m, 0 <= k -> m = k + 8 -> Z.shiftr (Z.shiftr x k) 8 = Z.shiftr x m) as Hs
    by (intros k m ? ->; now rewrite Z.shiftr_shiftr).
  rewrite (iter_shift8_split 7 x). f_equal.
  rewrite (iter_shift8_split 6 (Z.shiftr x 8)), (Hs 8 16) by lia. f_equal.
  rewrite (iter_shift8_split 5 (Z.shiftr x 16)), (Hs 16 24) by lia. f_equal.
  rewrite (iter_shift8_split 4 (Z.shiftr x 24)), (Hs 24 32) by lia. f_equal.
  rewrite (iter_shift8_split 3 (Z.shiftr x 32)), (Hs 32 40) by lia. f_equal.
  rewrite (iter_shift8_split 2 (Z.shiftr x 40)), (Hs 40 48) by lia. f_equal.
  rewrite (iter_shift8_split 1 (Z.shiftr x 48)), (Hs 48 56) by lia. reflexivity.
Qed.

End Iterated.

(** The tables hold what the definition gives. *)
Lemma table_entry k n :
  0 <= k < 8 -> 0 <= n < 256 ->
  tbl crc32c_table k n = Nat.iter (S (Z.to_nat k)) (crc_shift8 POLY) n.
Proof.
  intros Hk Hn.
  assert (forallb (fun k => forallb (fun n =>
            tbl crc32c_table (Z.of_nat k) (Z.of_nat n) =? Nat.iter (S k) (crc_shift8 POLY) (Z.of_nat n))
            (seq 0 256)) (seq 0 8) = true) as H by (vm_compute; reflexivity).
  rewrite forallb_forall in H. specialize (H (Z.to_nat k) ltac:(apply in_seq; lia)).
  rewrite forallb_forall in H. specialize (H (Z.to_nat n) ltac:(apply in_seq; lia)).
  apply Z.eqb_eq in H. now rewrite !Z2Nat.id in H by lia.
Qed.

Lemma crc_table_entry n :
  0 <= n < 256 ->
  nth (Z.to_nat n) crc_table 0 = crc_shift8 (rd_crc32_reflect 0x04c11db7 32) n.
Proof.
  intros Hn.
  assert (forallb (fun n => nth n crc_table 0 =?
            crc_shift8 (rd_crc32_reflect 0x04c11db7 32) (Z.of_nat n)) (seq 0 256) = true) as H
    by (vm_compute; reflexivity).
  rewrite forallb_forall in H. specialize (H (Z.to_nat n) ltac:(apply in_seq; lia)).
  apply Z.eqb_eq in H. now rewrite Z2Nat.id in H by lia.
Qed.

Lemma POLY_range : in_u 32 POLY.
Proof. unfold in_u, POLY. lia. Qed.

Lemma land_byte x : 0 <= Z.land x 0xff < 256.
Proof. change 0xff with (Z.ones 8). rewrite Z.land_ones by lia. now apply Z.mod_pos_bound. Qed.

(** A table-driven step is a shift by eight. *)
Lemma table_step poly crc b :
  is_byte b ->
  Z.lxor (crc_shift8 poly (Z.land (Z.lxor crc b) 0xff)) (Z.shiftr crc 8) =
  crc_shift8 poly (Z.lxor crc b).
Proof.
  intros Hb. rewrite (shift8_split poly (Z.lxor crc b)). f_equal.
  rewrite Z.shiftr_lxor, (Z.shiftr_div_pow2 b), Z.div_small by (unfold is_byte in Hb; lia).
  now rewrite Z.lxor_0_r.
Qed.

Lemma crc32c_byte_spec crc b : is_byte b -> crc32c_byte crc b = crc_shift8 POLY (Z.lxor crc b).
Proof.
  intros Hb. unfold crc32c_byte.
  rewrite (table_entry 0) by (lia || apply land_byte). now apply table_step.
Qed.

Lemma crc32c_word_spec crc p :
  in_u 32 crc -> Forall is_byte p -> length p = 8%nat ->
  crc32c_word crc p = crc_bits POLY crc p.
Proof.
  intros Hc Hp Hl. rewrite crc_bits_word, Hl by assumption. unfold crc32c_word.
  pose proof (le_bytes_range p Hp) as Hr. rewrite Hl in Hr.
  assert (in_u 64 (Z.lxor crc (le_bytes p))) as Hx.
  { apply lxor_range; [lia | unfold in_u in *; lia | exact Hr]. }
  generalize dependent (Z.lxor crc (le_bytes p)). intros x Hx. unfold in_u in Hx.
  rewrite (table_entry 7), (table_entry 6), (table_entry 5), (table_entry 4), (table_entry 3),
    (table_entry 2), (table_entry 1) by (lia || apply land_byte).
  rewrite (table_entry 0).
  2: lia.
  2: { rewrite Z.shiftr_div_pow2 by lia.
       split; [apply Z.div_pos; lia | apply Z.div_lt_upper_bound; lia]. }
  rewrite (word_split POLY x). reflexivity.
Qed.

Lemma crc32c_bytes_spec p : forall crc,
  Forall is_byte p -> fold_left crc32c_byte p crc = crc_bits POLY crc p.
Proof.
  induction p as [| b p IH]; intros crc Hp; [reflexivity |].
  apply Forall_cons_iff in Hp as [Hb Hp]. cbn. rewrite crc32c_byte_spec by assumption. now apply IH.
Qed.

(** Neither loop changes the checksum of the bytes still ahead of it. *)
Lemma crc32c_align_spec p : forall addr crc,
  Forall is_byte p -> in_u 32 crc ->
  exists crc' rest, crc32c_align addr p crc = (crc', rest) /\ Forall is_byte rest /\
    in_u 32 crc' /\ crc_bits POLY crc' rest = crc_bits POLY crc p.
Proof.
  induction p as [| b p IH]; intros addr crc Hp Hc; cbn [crc32c_align]; [eauto 10 |].
  destruct (negb _); [| eauto 10].
  apply Forall_cons_iff in Hp as [Hb Hp].
  destruct (IH (addr + 1) (crc32c_byte crc b) Hp) as (c' & r & -> & Hr & Hc' & E).
  { rewrite crc32c_byte_spec by assumption.
    apply (crc_bits_range POLY POLY_range [b]); auto. }
  exists c', r. rewrite E, crc32c_byte_spec by assumption. auto.
Qed.

Lemma crc32c_words_spec fuel : forall p crc,
  Forall is_byte p -> in_u 32 crc ->
  exists crc' rest, crc32c_words fuel p crc = (crc', rest) /\ Forall is_byte rest /\
    in_u 32 crc' /\ crc_bits POLY crc' rest = crc_bits POLY crc p.
Proof.
  induction fuel as [| fuel IH]; intros p crc Hp Hc; cbn [crc32c_words]; [eauto 10 |].
  rewrite Z.geb_leb. destruct (Z.leb_spec 8 (zlen p)); [| eauto 10].
  pose proof Hp as Hp'. rewrite <- (ztake_drop 8 p) in Hp'. apply Forall_app in Hp' as [Ht Hd].
  assert (length (ztake 8 p) = 8%nat) as Hl by (unfold ztake; rewrite length_take; lia).
  rewrite crc32c_word_spec by assumption.
  destruct (IH (zdrop 8 p) (crc_bits POLY crc (ztake 8 p)) Hd) as (c' & r & -> & Hr & Hc' & E).
  { now apply crc_bits_range; [apply POLY_range | |]. }
  exists c', r. rewrite E, <- crc_bits_app, ztake_drop. auto.
Qed.

(** With the fuel given, the second loop stops short of eight bytes. *)
Lemma crc32c_words_rest fuel : forall p crc,
  (length p <= fuel)%nat -> zlen (snd (crc32c_words fuel p crc)) < 8.
Proof.
  induction fuel as [| fuel IH]; intros p crc Hl; cbn [crc32c_words]; [cbn; lia |].
  rewrite Z.geb_leb. destruct (Z.leb_spec 8 (zlen p)); [| cbn; lia].
  apply IH. unfold zdrop. rewrite length_drop. lia.
Qed.

Lemma lxor_all_ones crc : in_u 32 crc -> in_u 32 (Z.lxor crc 0xffffffff).
Proof. intros. apply lxor_range; [lia | assumption | unfold in_u; lia]. Qed.

Lemma crc32c_sw_spec addr crc buf :
  in_u 32 crc -> Forall is_byte buf ->
  crc32c_sw addr crc buf = crc_reference POLY crc buf.
Proof.
  intros Hc Hb. unfold crc32c_sw, crc_reference.
  destruct (crc32c_align_spec buf addr _ Hb (lxor_all_ones crc Hc)) as (c1 & r1 & -> & Hr1 & Hc1 & E1).
  destruct (crc32c_words_spec (length r1) r1 c1 Hr1 Hc1) as (c2 & r2 & -> & Hr2 & Hc2 & E2).
  rewrite crc32c_bytes_spec, E2, E1 by assumption. f_equal.
  apply wrap_small. apply (crc_bits_range POLY POLY_range); auto using lxor_all_ones.
Qed.

Lemma crc_reference_range poly crc buf :
  in_u 32 poly -> in_u 32 crc -> Forall is_byte buf -> in_u 32 (crc_reference poly crc buf).
Proof. intros. apply lxor_all_ones, crc_bits_range; auto using lxor_all_ones. Qed.

(** The two complements in a row cancel: a checksum continues where one ended. *)
Lemma crc_reference_app poly crc a b :
  crc_reference poly (crc_reference poly crc a) b = crc_reference poly crc (a ++ b).
Proof.
  unfold crc_reference. rewrite crc_bits_app, Z.lxor_assoc, Z.lxor_nilpotent, Z.lxor_0_r. reflexivity.
Qed.

Lemma mask_small crc : in_u 32 crc -> Z.land crc 0xffffffff = crc.
Proof.
  intros H. change 0xffffffff with (Z.ones 32). rewrite Z.land_ones by lia. now apply Z.mod_small.
Qed.

Lemma rd_crc32_update_spec data : forall crc,
  in_u 32 crc -> Forall is_byte data ->
  rd_crc32_update crc data = crc_bits 0xedb88320 crc data.
Proof.
  unfold rd_crc32_update. intros crc Hc Hd.
  assert (in_u 32 0xedb88320) as Hp by (unfold in_u; lia).
  assert (fold_left (fun crc b => Z.land (Z.lxor (nth (Z.to_nat (Z.land (Z.lxor crc b) 0xff)) crc_table 0)
            (Z.shiftr crc 8)) 0xffffffff) data crc = crc_bits 0xedb88320 crc data) as ->.
  { revert crc Hc. induction Hd as [| b data Hb Hd IH]; intros crc Hc; [reflexivity |]. cbn [fold_left].
    rewrite crc_table_entry, table_step by (assumption || apply land_byte).
    pose proof (crc_bits_range 0xedb88320 Hp [b] crc (Forall_cons_2 _ _ _ Hb (Forall_nil_2 _)) Hc) as Hr.
    rewrite mask_small by exact Hr. now apply IH. }
  apply mask_small. now apply crc_bits_range.
Qed.

(** ** Properties *)

(** C30. The software CRC-32C is the bit-by-bit CRC.  Whatever the alignment of the
    buffer, and so however the bytes are divided between the single steps before
    and after and the eight-table steps between, the result is the remainder of the
    Castagnoli polynomial over them. *)
Theorem rd_crc32c_reference addr crc buf :
  in_u 32 crc -> Forall is_byte buf ->
  rd_crc32c addr crc buf = crc_reference POLY crc buf.
Proof. apply crc32c_sw_spec. Qed.

(** "123456789" from an address that is not a multiple of eight; the check value
    of the algorithm. *)
Lemma rd_crc32c_reference_witness :
  rd_crc32c 5 0 [49; 50; 51; 52; 53; 54; 55; 56; 57] = 0xe3069283 /\
  rd_crc32c 5 0 [49; 50; 51; 52; 53; 54; 55; 56; 57] =
  crc_reference POLY 0 [49; 50; 51; 52; 53; 54; 55; 56; 57].
Proof.
  split; [vm_compute; reflexivity |].
  apply rd_crc32c_reference; [split; vm_compute; congruence |].
  repeat constructor; vm_compute; congruence.
Defined.

Lemma fold_crc32c addr chunks : forall n crc,
  in_u 32 crc -> Forall is_byte (concat chunks) ->
  snd (fold_left (fun acc p => (S (fst acc), rd_crc32c (addr (fst acc)) (snd acc) p)) chunks (n, crc))
  = crc_reference POLY crc (concat chunks).
Proof.
  induction chunks as [| p chunks IH]; intros n crc Hc Hf; cbn [concat fold_left fst snd] in *.
  - unfold crc_reference. cbn. rewrite Z.lxor_assoc, Z.lxor_nilpotent, Z.lxor_0_r. reflexivity.
  - apply Forall_app in Hf as [Hp Hf]. rewrite IH; [| | assumption].
    + unfold rd_crc32c at 1. rewrite crc32c_sw_spec by assumption. apply crc_reference_app.
    + unfold rd_crc32c. rewrite crc32c_sw_spec by assumption.
      apply crc_reference_range; auto using POLY_range.
Qed.

Lemma fold_crc32 chunks : forall crc,
  in_u 32 crc -> Forall is_byte (concat chunks) ->
  fold_left rd_crc32_update chunks crc = crc_bits 0xedb88320 crc (concat chunks).
Proof.
  induction chunks as [| p chunks IH]; intros crc Hc Hf; cbn [concat fold_left] in *; [reflexivity |].
  apply Forall_app in Hf as [Hp Hf]. rewrite rd_crc32_update_spec, crc_bits_app by assumption.
  apply IH; [| assumption]. apply crc_bits_range; auto. unfold in_u. lia.
Qed.

(** The loop of a checksum, on a slice at its start. *)
Lemma slice_window rb absof size s :
  slice_state rb absof size s 0 ->
  forall A (f : A -> bytes -> A) acc, exists s' chunks,
    reader_loop rb (reader_fuel rb) f acc s = Some (s', fold_left f chunks acc) /\
    concat chunks = sub (rd_buf_content rb) absof size /\ rd_slice_remains rb s' = 0.
Proof.
  intros (front & back & i & V & Hat & Hst & Hen) A f acc. rewrite Z.add_0_r in Hat.
  destruct (reader_loop_spec rb front back V f (reader_fuel rb) acc s i absof Hat)
    as (s' & i' & chunks & E & Hat' & _ & Een & _ & Hc).
  { left. eapply reader_fuel_enough; eauto. }
  exists s', chunks. split; [exact E |]. split.
  - rewrite Hc, Hen. f_equal. lia.
  - rewrite (remains_at rb front back V s' i' (sl_end s) Hat'). lia.
Qed.

(** The window's bytes in one piece. *)
Lemma slice_crc32c_window addr rb absof size s :
  slice_state rb absof size s 0 -> Forall is_byte (sub (rd_buf_content rb) absof size) ->
  exists s1, rd_slice_crc32c addr rb s =
      Some (s1, crc_reference POLY 0 (sub (rd_buf_content rb) absof size)) /\
    rd_slice_remains rb s1 = 0.
Proof.
  intros Hs Hw. unfold rd_slice_crc32c.
  destruct (slice_window rb absof size s Hs (nat * Z)
    (fun acc p => (S (fst acc), rd_crc32c (addr (fst acc)) (snd acc) p)) (0%nat, 0))
    as (s1 & ch1 & -> & E1 & R1).
  exists s1. rewrite <- E1 in Hw. rewrite fold_crc32c, E1 by (assumption || (unfold in_u; lia)). auto.
Qed.

(** Checksums of slices do not see segments.  Over any window of a buffer of
    bytes, [rd_slice_crc32] and [rd_slice_crc32c], which feed the checksum one
    segment's part of the window at a time, give the CRC of the window's bytes in
    one piece, wherever the segments lie in memory, and leave the slice at its
    end. *)
Lemma rd_slice_crc_window addr rb absof size s :
  slice_state rb absof size s 0 -> Forall is_byte (rd_buf_content rb) ->
  exists s1 s2,
    rd_slice_crc32c addr rb s =
      Some (s1, crc_reference POLY 0 (sub (rd_buf_content rb) absof size)) /\
    rd_slice_crc32 rb s =
      Some (s2, crc_reference 0xedb88320 0 (sub (rd_buf_content rb) absof size)) /\
    rd_slice_remains rb s1 = 0 /\ rd_slice_remains rb s2 = 0.
Proof.
  intros Hs Hb.
  assert (Forall is_byte (sub (rd_buf_content rb) absof size)) as Hw
    by (unfold sub, ztake, zdrop; apply Forall_take, Forall_drop, Hb).
  destruct (slice_crc32c_window addr rb absof size s Hs Hw) as (s1 & -> & R1).
  unfold rd_slice_crc32.
  destruct (slice_window rb absof size s Hs Z rd_crc32_update rd_crc32_init)
    as (s2 & ch2 & -> & E2 & R2).
  exists s1, s2. rewrite <- E2 in Hw |- *.
  rewrite fold_crc32 by (assumption || (unfold in_u, rd_crc32_init; lia)). auto.
Qed.

Lemma rd_slice_crc_window_witness :
  exists rb s s1, rd_slice_init rb 1 9 = Some (SliceOk s) /\
    rd_slice_crc32c (fun k => Z.of_nat k) rb s = Some (s1, 0xe3069283).
Proof.
  destruct (buf_run_refines (fun _ => 0)
    [OpWrite [7; 49; 50; 51; 52]; OpPush [53; 54; 55] None true; OpWrite [56; 57; 58]]
    (mk_buf [] 0 None 0 0 0 0 0 []) [] (buf_state_init 0 0 _ eq_refl)
    ltac:(vm_compute; reflexivity)) as (b & E & Hb).
  destruct Hb as (Hwf & _ & _ & Hc). cbn in Hc.
  assert (rbuf_len b = 11) as Hl by (vm_compute in E; now injection E as <-).
  destruct (proj1 (slice_init_state b 1 9 Hwf ltac:(lia) ltac:(lia) ltac:(lia)) ltac:(lia) ltac:(lia))
    as (s & Es & Hs).
  destruct (rd_slice_crc_window (fun k => Z.of_nat k) b 1 9 s Hs) as (s1 & s2 & H & _).
  { rewrite Hc. repeat constructor; vm_compute; congruence. }
  exists b, s, s1. split; [exact Es |]. rewrite H, Hc. vm_compute. reflexivity.
Defined.
