(* ===== verification/Hash.v ===== *)
(** * Key hashes and partitioners (src/cbits/hs_rdmurmur2.c, hs_rdfnv1a.c,
      hs_rdrand.c, hs_rdkafka_msg.c)

    The hashes are those of the Java and Sarama clients: a key must land on the
    same partition whichever client produces it. *)

From S2P Require Import Prelude Crc.

(** ** MurmurHash2 *)

Definition mm_m : Z := 0x5bd1e995.

(** [MM_MIX(h, k, m)], with [r] = 24. *)
Definition MM_MIX (h k : Z) : Z :=
  let k := u32 (k * mm_m) in
  let k := Z.lxor k (Z.shiftr k 24) in
  let k := u32 (k * mm_m) in
  Z.lxor (u32 (h * mm_m)) k.

(** The loop over whole words: [load] is how the word at [data] is read; the
    rest of the key is the tail. *)
Fixpoint murmur2_words (load : Z -> Z -> Z -> Z -> Z) (h : Z) (data : bytes) : Z * bytes :=
  match data with
  | b0 :: b1 :: b2 :: b3 :: rest => murmur2_words load (MM_MIX h (load b0 b1 b2 b3)) rest
  | tail => (h, tail)
  end.

(** [htole32] of an aligned word. *)
Definition load_aligned (b0 b1 b2 b3 : Z) : Z := le_bytes [b0; b1; b2; b3].

(** The bytes are promoted to [int], shifted, and or-ed into a [uint32_t]. *)
Definition load_unaligned (b0 b1 b2 b3 : Z) : Z :=
  let k := b0 in
  let k := Z.lor k (u32 (i32 (Z.shiftl b1 8))) in
  let k := Z.lor k (u32 (i32 (Z.shiftl b2 16))) in
  Z.lor k (u32 (i32 (Z.shiftl b3 24))).

(** The switch on the bytes left, each case falling through to the next. *)
Definition murmur2_tail (h : Z) (tail : bytes) : Z :=
  match tail with
  | [t0] => u32 (Z.lxor h t0 * mm_m)
  | [t0; t1] => u32 (Z.lxor (Z.lxor h (Z.shiftl t1 8)) t0 * mm_m)
  | [t0; t1; t2] =>
      u32 (Z.lxor (Z.lxor (Z.lxor h (Z.shiftl t2 16)) (Z.shiftl t1 8)) t0 * mm_m)
  | _ => h
  end.

(** [addr] is the address of the key. *)
Definition rd_murmur2 (addr : Z) (key : bytes) : Z :=
  let h := Z.lxor 0x9747b28c (u32 (zlen key)) in
  let '(h, tail) :=
    murmur2_words (if Z.land addr 0x3 =? 0 then load_aligned else load_unaligned) h key in
  let h := murmur2_tail h tail in
  let h := Z.lxor h (Z.shiftr h 13) in
  let h := u32 (h * mm_m) in
  Z.lxor h (Z.shiftr h 15).

(** ** FNV-1a

    [h] is an [int32_t], multiplied by an unsigned prime. *)
Definition rd_fnv1a (key : bytes) : Z :=
  let h := fold_left (fun h b => i32 (u32 (Z.lxor h b) * 0x01000193)) key (i32 0x811C9DC5) in
  u32 (if h <? 0 then i32 (- h) else h).

(** ** Partitioners *)

(** [rd_jitter(low, high)], given the number [rand()] returns. *)
Definition rd_jitter (rand_num low high : Z) : Z :=
  i32 (low + Z.rem rand_num (high - low + 1)).

Section Partitioners.

(** [rd_kafka_topic_partition_available] for the topic, the numbers the two
    calls to [rand()] return, and the address of the key. *)
Variable available : Z -> bool.
Variables rand1 rand2 addr : Z.

Definition rd_kafka_msg_partitioner_random (partition_cnt : Z) : Z :=
  let p := rd_jitter rand1 0 (partition_cnt - 1) in
  if negb (available p) then rd_jitter rand2 0 (partition_cnt - 1) else p.

(** [uint32_t % int32_t] is unsigned. *)
Definition rd_kafka_msg_partitioner_consistent (key : bytes) (partition_cnt : Z) : Z :=
  i32 (rd_crc32 key mod u32 partition_cnt).

Definition rd_kafka_msg_partitioner_consistent_random (key : bytes) (partition_cnt : Z) : Z :=
  if zlen key =? 0 then rd_kafka_msg_partitioner_random partition_cnt
  else rd_kafka_msg_partitioner_consistent key partition_cnt.

Definition rd_kafka_msg_partitioner_murmur2 (key : bytes) (partition_cnt : Z) : Z :=
  i32 (Z.land (rd_murmur2 addr key) 0x7fffffff mod u32 partition_cnt).

(** A NULL key is [None]. *)
Definition rd_kafka_msg_partitioner_murmur2_random (key : option bytes) (partition_cnt : Z) : Z :=
  match key with
  | None => rd_kafka_msg_partitioner_random partition_cnt
  | Some key => i32 (Z.land (rd_murmur2 addr key) 0x7fffffff mod u32 partition_cnt)
  end.

Definition rd_kafka_msg_partitioner_fnv1a (key : bytes) (partition_cnt : Z) : Z :=
  i32 (rd_fnv1a key mod u32 partition_cnt).

Definition rd_kafka_msg_partitioner_fnv1a_random (key : option bytes) (partition_cnt : Z) : Z :=
  match key with
  | None => rd_kafka_msg_partitioner_random partition_cnt
  | Some key => i32 (rd_fnv1a key mod u32 partition_cnt)
  end.

(** The partitioners a topic can be configured with.  The bytes of a NULL key are
    none: the ones that take [bytes] never read them. *)
Inductive partitioner : Set :=
| PartRandom
| PartConsistent
| PartConsistentRandom
| PartMurmur2
| PartMurmur2Random
| PartFnv1a
| PartFnv1aRandom.

Definition run_partitioner (p : partitioner) (key : option bytes) (partition_cnt : Z) : Z :=
  let kb := match key with Some k => k | None => [] end in
  match p with
  | PartRandom => rd_kafka_msg_partitioner_random partition_cnt
  | PartConsistent => rd_kafka_msg_partitioner_consistent kb partition_cnt
  | PartConsistentRandom => rd_kafka_msg_partitioner_consistent_random kb partition_cnt
  | PartMurmur2 => rd_kafka_msg_partitioner_murmur2 kb partition_cnt
  | PartMurmur2Random => rd_kafka_msg_partitioner_murmur2_random key partition_cnt
  | PartFnv1a => rd_kafka_msg_partitioner_fnv1a kb partition_cnt
  | PartFnv1aRandom => rd_kafka_msg_partitioner_fnv1a_random key partition_cnt
  end.

End Partitioners.

#[export] Instance partitioner_eq_dec : EqDecision partitioner.
Proof. solve_decision. Defined.

(** ** Lemmas *)

Lemma u32_i32_small z : 0 <= z < 2 ^ 32 -> u32 (i32 z) = z.
Proof. intros H. rewrite wrap_swrap by lia. now apply wrap_small. Qed.

Lemma shl_byte b k : is_byte b -> 0 <= k <= 24 -> 0 <= Z.shiftl b k < 2 ^ 32.
Proof.
  intros Hb Hk. rewrite Z.shiftl_mul_pow2 by lia. unfold is_byte in Hb.
  pose proof (Z.pow_le_mono_r 2 k 24 ltac:(lia) ltac:(lia)).
  pose proof (Z.pow_pos_nonneg 2 k ltac:(lia) ltac:(lia)). nia.
Qed.

Lemma loads_agree b0 b1 b2 b3 :
  is_byte b0 -> is_byte b1 -> is_byte b2 -> is_byte b3 ->
  load_unaligned b0 b1 b2 b3 = load_aligned b0 b1 b2 b3.
Proof.
  intros H0 H1 H2 H3. unfold load_unaligned, load_aligned. cbn [le_bytes].
  rewrite !u32_i32_small by (apply shl_byte; assumption || lia).
  rewrite Z.shiftl_0_l, Z.lor_0_r, !Z.shiftl_lor, !Z.shiftl_shiftl by lia.
  now rewrite !Z.lor_assoc.
Qed.

Lemma murmur2_words_agree n : forall h data,
  (length data <= n)%nat -> Forall is_byte data ->
  murmur2_words load_unaligned h data = murmur2_words load_aligned h data.
Proof.
  induction n as [| n IH]; intros h data Hn Hd; [now destruct data |].
  destruct data as [| b0 [| b1 [| b2 [| b3 data]]]]; try reflexivity.
  do 4 (apply Forall_cons_iff in Hd as [? Hd]).
  cbn [murmur2_words]. rewrite loads_agree by assumption. apply IH; [cbn in Hn; lia | assumption].
Qed.

Lemma modulo_range z cnt : 0 < cnt < 2 ^ 31 -> 0 <= i32 (z mod u32 cnt) < cnt.
Proof.
  intros Hc. rewrite (wrap_small 32 cnt) by lia.
  pose proof (Z.mod_pos_bound z cnt ltac:(lia)).
  rewrite swrap_small; [lia | lia |]. unfold in_i. lia.
Qed.

Lemma jitter_range r cnt : 0 <= r -> 0 < cnt < 2 ^ 31 -> 0 <= rd_jitter r 0 (cnt - 1) < cnt.
Proof.
  intros Hr Hc. unfold rd_jitter. replace (cnt - 1 - 0 + 1) with cnt by lia.
  rewrite Z.rem_mod_nonneg by lia. pose proof (Z.mod_pos_bound r cnt ltac:(lia)).
  rewrite swrap_small; [lia | lia |]. unfold in_i. lia.
Qed.

Lemma random_range available r1 r2 cnt :
  0 <= r1 -> 0 <= r2 -> 0 < cnt < 2 ^ 31 ->
  0 <= rd_kafka_msg_partitioner_random available r1 r2 cnt < cnt.
Proof.
  intros. unfold rd_kafka_msg_partitioner_random.
  destruct (negb _); now apply jitter_range.
Qed.

Lemma partitioner_range available r1 r2 addr p key cnt :
  0 <= r1 -> 0 <= r2 -> 0 < cnt < 2 ^ 31 ->
  0 <= run_partitioner available r1 r2 addr p key cnt < cnt.
Proof.
  intros. destruct p, key; cbn [run_partitioner]; unfold rd_kafka_msg_partitioner_consistent_random;
    try destruct (_ =? 0); try (now apply random_range); now apply modulo_range.
Qed.

(** ** Properties *)

(** The hash of a key does not depend on where it lies in memory: the aligned
    loop, which loads words, and the other, which assembles them from bytes, give
    the same MurmurHash2. *)
Lemma murmur2_alignment addr1 addr2 key :
  Forall is_byte key -> rd_murmur2 addr1 key = rd_murmur2 addr2 key.
Proof.
  intros Hk. unfold rd_murmur2.
  pose proof (murmur2_words_agree (length key) (Z.lxor 0x9747b28c (u32 (zlen key))) key
                (le_n _) Hk) as H.
  destruct (Z.land addr1 3 =? 0), (Z.land addr2 3 =? 0); rewrite ?H; reflexivity.
Qed.

(** "kafka", with the value the Java client computes. *)
Lemma murmur2_alignment_witness :
  rd_murmur2 1 [107; 97; 102; 107; 97] = 0xd067cf64 /\
  rd_murmur2 1 [107; 97; 102; 107; 97] = rd_murmur2 4 [107; 97; 102; 107; 97].
Proof.
  split; [vm_compute; reflexivity |]. apply murmur2_alignment.
  repeat constructor; vm_compute; congruence.
Defined.

(** Every partitioner returns a partition of the topic, and those that hash
    the key return the same one for the same key, whatever is available and
    whatever the random numbers. *)
Theorem partitioner_in_range available available' r1 r2 r1' r2' addr p key cnt :
  0 <= r1 -> 0 <= r2 -> 0 < cnt < 2 ^ 31 ->
  0 <= run_partitioner available r1 r2 addr p key cnt < cnt /\
  ((exists k, key = Some k /\ k <> []) -> p <> PartRandom ->
   run_partitioner available r1 r2 addr p key cnt =
   run_partitioner available' r1' r2' addr p key cnt).
Proof.
  intros H1 H2 Hc. split; [now apply partitioner_range |].
  intros (k & -> & Hk) Hp. destruct p; try reflexivity; [easy |].
  cbn. unfold rd_kafka_msg_partitioner_consistent_random. now destruct k.
Qed.

Lemma partitioner_in_range_witness :
  0 <= run_partitioner (fun _ => false) 12 7 3 PartFnv1aRandom (Some [107; 97; 102; 107; 97]) 6 < 6 /\
  rd_fnv1a [107; 97; 102; 107; 97] = 0xd33c4e1.
Proof.
  split; [| vm_compute; reflexivity].
  apply (partitioner_in_range (fun _ => false) (fun _ => true) 12 7 0 0 3); lia.
Defined.
