(* ===== verification/Header.v ===== *)
(** * Message headers (src/cbits/hs_rdkafka_header.h, hs_rdkafka_header.c)

    The list of headers of a message, with the size it takes on the wire.  A name is
    stored with its length and a terminating NUL, so it may hold further NULs, which
    [strcmp] does not see past; a name to look for is a C string without its NUL. *)

From S2P Require Import Prelude Varint.

Definition RD_KAFKA_RESP_ERR__NOENT : Z := -156.

Record rd_kafka_header := mk_header {
  rkhdr_ser_size : Z;
  rkhdr_name : bytes;
  rkhdr_value : option bytes }.

Record rd_kafka_headers := mk_headers {
  rkhdrs_list : list rd_kafka_header;
  rkhdrs_ser_size : Z }.

Definition rkhdr_name_size (h : rd_kafka_header) : Z := zlen (rkhdr_name h).
Definition rkhdr_value_size (h : rd_kafka_header) : Z :=
  match rkhdr_value h with Some v => zlen v | None => 0 end.

Definition rd_kafka_headers_new : rd_kafka_headers := mk_headers [] 0.

(** What [rd_uvarint_enc_i64] returns: the length of the varint. *)
Definition varint_size (num : Z) : option Z := fst <$> rd_uvarint_enc_i64 (RD_UVARINT_ENC_SIZEOF 4) num.

(** [None] of the value is NULL. *)
Definition rd_kafka_header_add (hdrs : rd_kafka_headers) (name : bytes) (value : option bytes)
  : option rd_kafka_headers :=
  let name_size := zlen name in
  let value_size := match value with Some v => zlen v | None => 0 end in
  let* sn := varint_size name_size in
  let* sv := varint_size value_size in
  let ser := u64 (u64 (name_size + value_size) + sn + sv) in
  Some (mk_headers (rkhdrs_list hdrs ++ [mk_header ser name value])
          (u64 (rkhdrs_ser_size hdrs + ser))).

Fixpoint headers_copy_loop (l : list rd_kafka_header) (dst : rd_kafka_headers)
  : option rd_kafka_headers :=
  match l with
  | [] => Some dst
  | src :: l =>
      let* dst := rd_kafka_header_add dst (rkhdr_name src) (rkhdr_value src) in
      headers_copy_loop l dst
  end.

Definition rd_kafka_headers_copy (src : rd_kafka_headers) : option rd_kafka_headers :=
  headers_copy_loop (rkhdrs_list src) rd_kafka_headers_new.

(** A name as [strcmp] sees it. *)
Fixpoint c_string (b : bytes) : bytes :=
  match b with
  | [] => []
  | x :: b => if x =? 0 then [] else x :: c_string b
  end.

(** Whether [strcmp] returns 0. *)
Definition rd_kafka_header_cmp_str (hdr : rd_kafka_header) (name : bytes) : bool :=
  bool_decide (c_string (rkhdr_name hdr) = name).

(** The loop over the first [n] headers, from the last to the first. *)
Fixpoint header_remove_loop (n : nat) (l : list rd_kafka_header) (name : bytes) (ser_size : Z)
  : list rd_kafka_header * Z :=
  match n with
  | O => (l, ser_size)
  | S i =>
      match l !! i with
      | None => (l, ser_size)
      | Some hdr =>
          if negb (rd_kafka_header_cmp_str hdr name) then header_remove_loop i l name ser_size
          else header_remove_loop i (delete i l) name (u64 (ser_size + rkhdr_ser_size hdr))
      end
  end.

Definition rd_kafka_header_remove (hdrs : rd_kafka_headers) (name : bytes) : rd_kafka_headers * Z :=
  let '(l, ser_size) :=
    header_remove_loop (length (rkhdrs_list hdrs)) (rkhdrs_list hdrs) name 0 in
  if ser_size =? 0 then (mk_headers l (rkhdrs_ser_size hdrs), RD_KAFKA_RESP_ERR__NOENT)
  else (mk_headers l (u64 (rkhdrs_ser_size hdrs - ser_size)), 0).

Definition header_is_named (hdr : rd_kafka_header) (name : bytes) : bool :=
  (rkhdr_name_size hdr =? zlen name) && rd_kafka_header_cmp_str hdr name.

Fixpoint get_last_loop (n : nat) (l : list rd_kafka_header) (name : bytes)
  : option rd_kafka_header :=
  match n with
  | O => None
  | S i =>
      match l !! i with
      | None => None
      | Some hdr => if header_is_named hdr name then Some hdr else get_last_loop i l name
      end
  end.

(** The value and its size; [None] is [RD_KAFKA_RESP_ERR__NOENT]. *)
Definition header_result (r : option rd_kafka_header) : option (option bytes * Z) :=
  (fun h => (rkhdr_value h, rkhdr_value_size h)) <$> r.

Definition rd_kafka_header_get_last (hdrs : rd_kafka_headers) (name : bytes)
  : option (option bytes * Z) :=
  header_result (get_last_loop (length (rkhdrs_list hdrs)) (rkhdrs_list hdrs) name).

Fixpoint header_get_loop (l : list rd_kafka_header) (idx mi : Z) (name : bytes)
  : option rd_kafka_header :=
  match l with
  | [] => None
  | hdr :: l =>
      if header_is_named hdr name then
        if mi =? idx then Some hdr else header_get_loop l idx (mi + 1) name
      else header_get_loop l idx mi name
  end.

Definition rd_kafka_header_get (hdrs : rd_kafka_headers) (idx : Z) (name : bytes)
  : option (option bytes * Z) :=
  header_result (header_get_loop (rkhdrs_list hdrs) idx 0 name).

Definition rd_kafka_header_get_all (hdrs : rd_kafka_headers) (idx : nat)
  : option (bytes * option bytes * Z) :=
  (fun h => (rkhdr_name h, rkhdr_value h, rkhdr_value_size h)) <$> (rkhdrs_list hdrs !! idx).

Definition rd_kafka_header_cnt (hdrs : rd_kafka_headers) : Z := zlen (rkhdrs_list hdrs).
