(* ===== verification/Msgq.v ===== *)
(** * Message queues (src/cbits/hs_rdkafka_msg.h, hs_rdkafka_msg.c,
      hs_rdkafka_partition.c, hs_rdsysqueue.h)

    [rd_kafka_msgq_t]: the queues messages move through on their way to the
    broker, with their counters, their sorted insertions, retries and time-outs.
    A tail queue is the list of its elements; a pointer to an element is its
    index in that list. *)

From S2P Require Import Prelude Header.

(** [RD_CMP(A, B)] *)
Definition RD_CMP (a b : Z) : Z := if a <? b then -1 else if a >? b then 1 else 0.

(** ** Messages *)

Definition RD_KAFKA_PARTITION_UA : Z := -1.

Inductive rd_kafka_msg_status : Set :=
| RD_KAFKA_MSG_STATUS_NOT_PERSISTED
| RD_KAFKA_MSG_STATUS_POSSIBLY_PERSISTED
| RD_KAFKA_MSG_STATUS_PERSISTED.

#[export] Instance msg_status_eq_dec : EqDecision rd_kafka_msg_status.
Proof. solve_decision. Defined.

Inductive rd_kafka_timestamp_type : Set :=
| RD_KAFKA_TIMESTAMP_NOT_AVAILABLE
| RD_KAFKA_TIMESTAMP_CREATE_TIME
| RD_KAFKA_TIMESTAMP_LOG_APPEND_TIME.

(** The fields of [rd_kafka_msg_t] the queues and the producer use; [rkm_key] and
    [rkm_payload] are the bytes, or NULL. *)
Record rd_kafka_msg := mk_msg {
  rkm_len : Z;
  rkm_key : option bytes;
  rkm_key_len : Z;
  rkm_partition : Z;
  rkm_offset : Z;
  rkm_tstype : rd_kafka_timestamp_type;
  rkm_timestamp : Z;
  rkm_status : rd_kafka_msg_status;
  rkm_broker_id : Z;
  rkm_ts_timeout : Z;
  rkm_ts_enq : Z;
  rkm_ts_backoff : Z;
  rkm_msgid : Z;
  rkm_last_msgid : Z;
  rkm_retries : Z;
  rkm_payload : option bytes;
  rkm_headers : option rd_kafka_headers }.

Definition msg_set_msgid (m : rd_kafka_msg) (v : Z) : rd_kafka_msg :=
  mk_msg (rkm_len m) (rkm_key m) (rkm_key_len m) (rkm_partition m) (rkm_offset m)
    (rkm_tstype m) (rkm_timestamp m) (rkm_status m) (rkm_broker_id m) (rkm_ts_timeout m)
    (rkm_ts_enq m) (rkm_ts_backoff m) v (rkm_last_msgid m) (rkm_retries m)
    (rkm_payload m) (rkm_headers m).
Definition msg_set_partition (m : rd_kafka_msg) (v : Z) : rd_kafka_msg :=
  mk_msg (rkm_len m) (rkm_key m) (rkm_key_len m) v (rkm_offset m)
    (rkm_tstype m) (rkm_timestamp m) (rkm_status m) (rkm_broker_id m) (rkm_ts_timeout m)
    (rkm_ts_enq m) (rkm_ts_backoff m) (rkm_msgid m) (rkm_last_msgid m) (rkm_retries m)
    (rkm_payload m) (rkm_headers m).
Definition msg_set_status (m : rd_kafka_msg) (v : rd_kafka_msg_status) : rd_kafka_msg :=
  mk_msg (rkm_len m) (rkm_key m) (rkm_key_len m) (rkm_partition m) (rkm_offset m)
    (rkm_tstype m) (rkm_timestamp m) v (rkm_broker_id m) (rkm_ts_timeout m)
    (rkm_ts_enq m) (rkm_ts_backoff m) (rkm_msgid m) (rkm_last_msgid m) (rkm_retries m)
    (rkm_payload m) (rkm_headers m).
Definition msg_set_retry (m : rd_kafka_msg) (backoff retries : Z) : rd_kafka_msg :=
  mk_msg (rkm_len m) (rkm_key m) (rkm_key_len m) (rkm_partition m) (rkm_offset m)
    (rkm_tstype m) (rkm_timestamp m) (rkm_status m) (rkm_broker_id m) (rkm_ts_timeout m)
    (rkm_ts_enq m) backoff (rkm_msgid m) (rkm_last_msgid m) retries
    (rkm_payload m) (rkm_headers m).
Definition msg_set_delivery (m : rd_kafka_msg) (broker_id offset : Z)
  (tstype : rd_kafka_timestamp_type) (timestamp : Z) : rd_kafka_msg :=
  mk_msg (rkm_len m) (rkm_key m) (rkm_key_len m) (rkm_partition m) offset
    tstype timestamp (rkm_status m) broker_id (rkm_ts_timeout m)
    (rkm_ts_enq m) (rkm_ts_backoff m) (rkm_msgid m) (rkm_last_msgid m) (rkm_retries m)
    (rkm_payload m) (rkm_headers m).

Definition msg_set_backoff (m : rd_kafka_msg) (v : Z) : rd_kafka_msg :=
  mk_msg (rkm_len m) (rkm_key m) (rkm_key_len m) (rkm_partition m) (rkm_offset m)
    (rkm_tstype m) (rkm_timestamp m) (rkm_status m) (rkm_broker_id m) (rkm_ts_timeout m)
    (rkm_ts_enq m) v (rkm_msgid m) (rkm_last_msgid m) (rkm_retries m)
    (rkm_payload m) (rkm_headers m).
Definition msg_set_last_msgid (m : rd_kafka_msg) (v : Z) : rd_kafka_msg :=
  mk_msg (rkm_len m) (rkm_key m) (rkm_key_len m) (rkm_partition m) (rkm_offset m)
    (rkm_tstype m) (rkm_timestamp m) (rkm_status m) (rkm_broker_id m) (rkm_ts_timeout m)
    (rkm_ts_enq m) (rkm_ts_backoff m) (rkm_msgid m) v (rkm_retries m)
    (rkm_payload m) (rkm_headers m).

(** [rkm->rkm_len + rkm->rkm_key_len], both [size_t]. *)
Definition msg_size (m : rd_kafka_msg) : Z := u64 (rkm_len m + rkm_key_len m).

(** The two [msg_order_cmp] functions. *)
Definition rd_kafka_msg_cmp_msgid (a b : rd_kafka_msg) : Z :=
  RD_CMP (rkm_msgid a) (rkm_msgid b).
Definition rd_kafka_msg_cmp_msgid_lifo (a b : rd_kafka_msg) : Z :=
  RD_CMP (rkm_msgid b) (rkm_msgid a).

(** ** Queues *)

Record msgq_wakeup := mk_wakeup {
  wk_abstime : Z;
  wk_msg_cnt : Z;
  wk_msg_bytes : Z;
  wk_on_first : bool;
  wk_signalled : bool }.

Record rd_kafka_msgq := mk_msgq {
  rkmq_msgs : list rd_kafka_msg;
  rkmq_msg_cnt : Z;
  rkmq_msg_bytes : Z;
  rkmq_wakeup : msgq_wakeup }.

(** [RD_KAFKA_MSGQ_INITIALIZER] *)
Definition no_wakeup : msgq_wakeup := mk_wakeup 0 0 0 false false.
Definition RD_KAFKA_MSGQ_INITIALIZER : rd_kafka_msgq := mk_msgq [] 0 0 no_wakeup.

Definition RD_KAFKA_MSGQ_EMPTY (q : rd_kafka_msgq) : bool :=
  match rkmq_msgs q with [] => true | _ => false end.

Definition rd_kafka_msgq_len (q : rd_kafka_msgq) : Z := i32 (rkmq_msg_cnt q).
Definition rd_kafka_msgq_size (q : rd_kafka_msgq) : Z := u64 (rkmq_msg_bytes q).

Definition rd_kafka_msgq_init (q : rd_kafka_msgq) : rd_kafka_msgq :=
  mk_msgq [] 0 0 (rkmq_wakeup q).

(** Destination and source after the call. *)
Definition rd_kafka_msgq_concat (dst src : rd_kafka_msgq) : rd_kafka_msgq * rd_kafka_msgq :=
  (mk_msgq (rkmq_msgs dst ++ rkmq_msgs src)
     (i32 (rkmq_msg_cnt dst + rkmq_msg_cnt src))
     (i64 (rkmq_msg_bytes dst + rkmq_msg_bytes src)) (rkmq_wakeup dst),
   rd_kafka_msgq_init src).

Definition rd_kafka_msgq_move (dst src : rd_kafka_msgq) : rd_kafka_msgq * rd_kafka_msgq :=
  (mk_msgq (rkmq_msgs src) (rkmq_msg_cnt src) (rkmq_msg_bytes src) (rkmq_wakeup dst),
   rd_kafka_msgq_init src).

Definition rd_kafka_msgq_prepend (dst src : rd_kafka_msgq) : rd_kafka_msgq * rd_kafka_msgq :=
  let '(src, dst) := rd_kafka_msgq_concat src dst in rd_kafka_msgq_move dst src.

(** The messages destroyed, in order, and the queue. *)
Definition rd_kafka_msgq_purge (q : rd_kafka_msgq) : list rd_kafka_msg * rd_kafka_msgq :=
  (rkmq_msgs q, rd_kafka_msgq_init q).

(** Removal of the element at index [i]; the counters are kept if [do_count]. *)
Definition rd_kafka_msgq_deq (q : rd_kafka_msgq) (i : nat) (do_count : bool)
  : option (rd_kafka_msgq * rd_kafka_msg) :=
  let* rkm := rkmq_msgs q !! i in
  if do_count then
    let* _ := rd_assert (rkmq_msg_cnt q >? 0) in
    let* _ := rd_assert (rkmq_msg_bytes q >=? i64 (msg_size rkm)) in
    Some (mk_msgq (delete i (rkmq_msgs q)) (i32 (rkmq_msg_cnt q - 1))
            (i64 (rkmq_msg_bytes q - msg_size rkm)) (rkmq_wakeup q), rkm)
  else
    Some (mk_msgq (delete i (rkmq_msgs q)) (rkmq_msg_cnt q) (rkmq_msg_bytes q)
            (rkmq_wakeup q), rkm).

Definition rd_kafka_msgq_first (q : rd_kafka_msgq) : option rd_kafka_msg := list.head (rkmq_msgs q).
Definition rd_kafka_msgq_last (q : rd_kafka_msgq) : option rd_kafka_msg := list.last (rkmq_msgs q).

Definition rd_kafka_msgq_pop (q : rd_kafka_msgq)
  : option (rd_kafka_msgq * option rd_kafka_msg) :=
  match rd_kafka_msgq_first q with
  | Some _ => let* (q, rkm) := rd_kafka_msgq_deq q 0 true in Some (q, Some rkm)
  | None => Some (q, None)
  end.

Definition rd_kafka_msgq_first_msgid (q : rd_kafka_msgq) : Z :=
  match rd_kafka_msgq_first q with Some rkm => rkm_msgid rkm | None => 0 end.

Definition rd_kafka_msgq_insert (q : rd_kafka_msgq) (rkm : rd_kafka_msg) : rd_kafka_msgq :=
  mk_msgq (rkm :: rkmq_msgs q) (i32 (rkmq_msg_cnt q + 1))
    (i64 (rkmq_msg_bytes q + msg_size rkm)) (rkmq_wakeup q).

(** The queue and the return value. *)
Definition rd_kafka_msgq_enq (q : rd_kafka_msgq) (rkm : rd_kafka_msg) : rd_kafka_msgq * Z :=
  let cnt := i32 (rkmq_msg_cnt q + 1) in
  (mk_msgq (rkmq_msgs q ++ [rkm]) cnt (i64 (rkmq_msg_bytes q + msg_size rkm))
     (rkmq_wakeup q), cnt).

Definition rd_kafka_msgq_overlap (a b : rd_kafka_msgq) : bool :=
  match rd_kafka_msgq_first a, rd_kafka_msgq_first b,
        rd_kafka_msgq_last a, rd_kafka_msgq_last b with
  | Some fa, Some fb, Some la, Some lb =>
      (rkm_msgid fa <=? rkm_msgid lb) && (rkm_msgid fb <=? rkm_msgid la)
  | _, _, _, _ => false
  end.

(** ** Sorted insertion *)

(** The loop of [TAILQ_INSERT_SORTED] over a list that is not empty. *)
Fixpoint insert_sorted_loop {A} (cmpfunc : A -> A -> Z) (elm : A) (l : list A) : list A :=
  match l with
  | [] => []
  | tmp :: rest =>
      if cmpfunc elm tmp <? 0 then elm :: tmp :: rest
      else match rest with
           | [] => [tmp; elm]
           | _ => tmp :: insert_sorted_loop cmpfunc elm rest
           end
  end.

Definition TAILQ_INSERT_SORTED {A} (cmpfunc : A -> A -> Z) (elm : A) (l : list A) : list A :=
  match l with [] => [elm] | _ => insert_sorted_loop cmpfunc elm l end.

Definition rd_kafka_msgq_enq_sorted0 (q : rd_kafka_msgq) (rkm : rd_kafka_msg)
  (order_cmp : rd_kafka_msg -> rd_kafka_msg -> Z) : rd_kafka_msgq * Z :=
  let cnt := i32 (rkmq_msg_cnt q + 1) in
  (mk_msgq (TAILQ_INSERT_SORTED order_cmp rkm (rkmq_msgs q)) cnt
     (i64 (rkmq_msg_bytes q + msg_size rkm)) (rkmq_wakeup q), cnt).

(** The scan of [rd_kafka_msgq_find_pos], with the accumulated count and bytes:
    the code adds up the sizes of [rkm], the message to insert. *)
Fixpoint find_pos_loop (cmp : rd_kafka_msg -> rd_kafka_msg -> Z) (rkm : rd_kafka_msg)
  (l : list rd_kafka_msg) (i : nat) (cnt bytes : Z) : option (nat * Z * Z) :=
  match l with
  | [] => None
  | curr :: l =>
      if cmp rkm curr <? 0 then Some (i, cnt, bytes)
      else find_pos_loop cmp rkm l (S i) (i32 (cnt + 1)) (i64 (bytes + msg_size rkm))
  end.

(** The insert position, its count and bytes; [None] is NULL. *)
Definition rd_kafka_msgq_find_pos (q : rd_kafka_msgq) (start_pos : option nat)
  (rkm : rd_kafka_msg) (cmp : rd_kafka_msg -> rd_kafka_msg -> Z) : option (nat * Z * Z) :=
  let start := match start_pos with Some i => i | None => 0%nat end in
  find_pos_loop cmp rkm (drop start (rkmq_msgs q)) start 0 0.

(** The left and the right queue. *)
Definition rd_kafka_msgq_split (leftq rightq : rd_kafka_msgq) (first_right : nat)
  (cnt bytes : Z) : option (rd_kafka_msgq * rd_kafka_msgq) :=
  let* _ := rd_assert (negb (Nat.eqb first_right 0)) in
  Some (mk_msgq (take first_right (rkmq_msgs leftq)) cnt bytes (rkmq_wakeup leftq),
        mk_msgq (drop first_right (rkmq_msgs leftq)) (i32 (rkmq_msg_cnt leftq - cnt))
          (i64 (rkmq_msg_bytes leftq - bytes)) (rkmq_wakeup rightq)).

(** ** Merging *)

(** [TAILQ_INSERT_LIST_BEFORE] at the element of index [i]: an empty list can
    only be prepended. *)
Definition TAILQ_INSERT_LIST_BEFORE {A} (d : list A) (i : nat) (s : list A) : option (list A) :=
  match i, s with
  | O, _ => Some (s ++ d)
  | S _, [] => None
  | S _, _ => Some (take i d ++ s ++ drop i d)
  end.

Section Merge.

Variable cmp : rd_kafka_msg -> rd_kafka_msg -> Z.

(** The two queues, and where the element [insert_before] is now. *)
Definition rd_kafka_msgq_insert_msgq_before (destq : rd_kafka_msgq)
  (insert_before : option nat) (srcq : rd_kafka_msgq)
  : option (rd_kafka_msgq * rd_kafka_msgq * option nat) :=
  match insert_before with
  | None => let '(d, s) := rd_kafka_msgq_concat destq srcq in Some (d, s, None)
  | Some ib =>
      let* ibm := rkmq_msgs destq !! ib in
      let* slast := rd_kafka_msgq_last srcq in
      let tmpq := RD_KAFKA_MSGQ_INITIALIZER in
      let* (srcq, tmpq) :=
        if cmp slast ibm >? 0 then
          let* (new_sfirst, cnt, bytes) := rd_kafka_msgq_find_pos srcq None ibm cmp in
          rd_kafka_msgq_split srcq tmpq new_sfirst cnt bytes
        else Some (srcq, rd_kafka_msgq_init tmpq) in
      let* msgs := TAILQ_INSERT_LIST_BEFORE (rkmq_msgs destq) ib (rkmq_msgs srcq) in
      let destq := mk_msgq msgs (i32 (rkmq_msg_cnt destq + rkmq_msg_cnt srcq))
                     (i64 (rkmq_msg_bytes destq + rkmq_msg_bytes srcq)) (rkmq_wakeup destq) in
      let shift := length (rkmq_msgs srcq) in
      let '(srcq, _) := rd_kafka_msgq_move (mk_msgq [] 0 0 (rkmq_wakeup srcq)) tmpq in
      Some (destq, srcq, Some (ib + shift)%nat)
  end.

(** The loop of [rd_kafka_msgq_insert_msgq]; every round takes a message from
    the source, so their number is enough fuel. *)
Fixpoint insert_msgq_loop (fuel : nat) (destq : rd_kafka_msgq) (start_pos : option nat)
  (srcq : rd_kafka_msgq) : option (rd_kafka_msgq * rd_kafka_msgq) :=
  match rd_kafka_msgq_first srcq with
  | None => Some (destq, srcq)
  | Some sfirst =>
      match fuel with
      | O => None
      | S fuel =>
          let insert_before :=
            (fun r => fst (fst r)) <$> rd_kafka_msgq_find_pos destq start_pos sfirst cmp in
          let* (destq, srcq, start_pos) :=
            rd_kafka_msgq_insert_msgq_before destq insert_before srcq in
          insert_msgq_loop fuel destq start_pos srcq
      end
  end.

Definition rd_kafka_msgq_insert_msgq (destq srcq : rd_kafka_msgq)
  : option (rd_kafka_msgq * rd_kafka_msgq) :=
  if RD_KAFKA_MSGQ_EMPTY srcq then Some (destq, srcq)
  else if RD_KAFKA_MSGQ_EMPTY destq then Some (rd_kafka_msgq_move destq srcq)
  else
    let* dlast := rd_kafka_msgq_last destq in
    let* sfirst := rd_kafka_msgq_first srcq in
    if cmp dlast sfirst <? 0 then Some (rd_kafka_msgq_concat destq srcq)
    else
      let* (destq, srcq) :=
        insert_msgq_loop (length (rkmq_msgs srcq)) destq None srcq in
      let* _ := rd_assert (RD_KAFKA_MSGQ_EMPTY srcq) in
      Some (destq, srcq).

(** ** Retries *)

(** A status is not downgraded from any form of persisted. *)
Definition retry_status (old status : rd_kafka_msg_status) : rd_kafka_msg_status :=
  if bool_decide (status = RD_KAFKA_MSG_STATUS_NOT_PERSISTED)
     && negb (bool_decide (old = RD_KAFKA_MSG_STATUS_NOT_PERSISTED))
  then old else status.

(** The scan of [rd_kafka_retry_msgq]: the element at index [i] is looked at,
    [n] elements being left.  The element stays at its index if not dequeued. *)
Fixpoint retry_scan (n : nat) (srcq : rd_kafka_msgq) (i : nat) (retryable : rd_kafka_msgq)
  (incr_retry max_retries backoff : Z) (status : rd_kafka_msg_status)
  : option (rd_kafka_msgq * rd_kafka_msgq) :=
  match n with
  | O => Some (srcq, retryable)
  | S n =>
      let* rkm := rkmq_msgs srcq !! i in
      if i32 (rkm_retries rkm + incr_retry) >? max_retries
      then retry_scan n srcq (S i) retryable incr_retry max_retries backoff status
      else
        let* (srcq, rkm) := rd_kafka_msgq_deq srcq i true in
        let rkm := msg_set_retry rkm backoff (i32 (rkm_retries rkm + incr_retry)) in
        let rkm := msg_set_status rkm (retry_status (rkm_status rkm) status) in
        let '(retryable, _) := rd_kafka_msgq_enq retryable rkm in
        retry_scan n srcq i retryable incr_retry max_retries backoff status
  end.

(** Destination, source and return value. *)
Definition rd_kafka_retry_msgq (destq srcq : rd_kafka_msgq)
  (incr_retry max_retries backoff : Z) (status : rd_kafka_msg_status)
  : option (rd_kafka_msgq * rd_kafka_msgq * Z) :=
  let* (srcq, retryable) :=
    retry_scan (length (rkmq_msgs srcq)) srcq 0 RD_KAFKA_MSGQ_INITIALIZER
      incr_retry max_retries backoff status in
  if RD_KAFKA_MSGQ_EMPTY retryable then Some (destq, srcq, 0)
  else
    let* (destq, _) := rd_kafka_msgq_insert_msgq destq retryable in
    Some (destq, srcq, 1).

End Merge.

(** ** Time-outs and acknowledgements *)

(** The scan of [rd_kafka_msgq_age_scan] over the [n] messages of the queue, and
    the next timeout it sets. *)
Fixpoint age_scan_loop (n : nat) (q timedout : rd_kafka_msgq) (now next : Z)
  : option (rd_kafka_msgq * rd_kafka_msgq * Z) :=
  match n, rd_kafka_msgq_first q with
  | S n, Some rkm =>
      if rkm_ts_timeout rkm >? now then Some (q, timedout, rkm_ts_timeout rkm)
      else
        let* (q, rkm) := rd_kafka_msgq_deq q 0 true in
        let '(timedout, _) := rd_kafka_msgq_enq timedout rkm in
        age_scan_loop n q timedout now next
  | _, _ => Some (q, timedout, next)
  end.

(** The queues, the return value and [*abs_next_timeout]. *)
Definition rd_kafka_msgq_age_scan (q timedout : rd_kafka_msgq) (now : Z)
  : option (rd_kafka_msgq * rd_kafka_msgq * Z * Z) :=
  let cnt := rkmq_msg_cnt timedout in
  let* (q, timedout, next) := age_scan_loop (length (rkmq_msgs q)) q timedout now 0 in
  Some (q, timedout, i32 (rkmq_msg_cnt timedout - cnt), next).

Fixpoint set_metadata_loop (l : list rd_kafka_msg) (broker_id base_offset timestamp : Z)
  (status : rd_kafka_msg_status) : list rd_kafka_msg :=
  match l with
  | [] => []
  | rkm :: l =>
      let rkm := msg_set_delivery rkm broker_id base_offset
                   (if timestamp =? -1 then rkm_tstype rkm else RD_KAFKA_TIMESTAMP_LOG_APPEND_TIME)
                   (if timestamp =? -1 then rkm_timestamp rkm else timestamp) in
      msg_set_status rkm (retry_status (rkm_status rkm) status)
      :: set_metadata_loop l broker_id (i64 (base_offset + 1)) timestamp status
  end.

Definition rd_kafka_msgq_set_metadata (q : rd_kafka_msgq) (broker_id base_offset timestamp : Z)
  (status : rd_kafka_msg_status) : rd_kafka_msgq :=
  mk_msgq (set_metadata_loop (rkmq_msgs q) broker_id base_offset timestamp status)
    (rkmq_msg_cnt q) (rkmq_msg_bytes q) (rkmq_wakeup q).

(** The loop of [rd_kafka_msgq_move_acked] over the [n] messages of the source. *)
Fixpoint move_acked_loop (n : nat) (dest src : rd_kafka_msgq) (last_msgid : Z)
  (status : rd_kafka_msg_status) : option (rd_kafka_msgq * rd_kafka_msgq) :=
  match n, rd_kafka_msgq_first src with
  | S n, Some rkm =>
      if rkm_msgid rkm <=? last_msgid then
        let* (src, rkm) := rd_kafka_msgq_deq src 0 true in
        let '(dest, _) := rd_kafka_msgq_enq dest (msg_set_status rkm status) in
        move_acked_loop n dest src last_msgid status
      else Some (dest, src)
  | _, _ => Some (dest, src)
  end.

Definition rd_kafka_msgq_move_acked (dest src : rd_kafka_msgq) (last_msgid : Z)
  (status : rd_kafka_msg_status) : option (rd_kafka_msgq * rd_kafka_msgq) :=
  move_acked_loop (length (rkmq_msgs src)) dest src last_msgid status.

(** ** Wake-ups *)

Definition rd_kafka_msgq_may_wakeup (q : rd_kafka_msgq) (now : Z) : bool :=
  let w := rkmq_wakeup q in
  if wk_signalled w then false
  else if now >=? wk_abstime w then true
  else if (rkmq_msg_cnt q =? 1) && wk_on_first w then true
  else if (rkmq_msg_cnt q >=? wk_msg_cnt w) || (rkmq_msg_bytes q >? wk_msg_bytes w) then true
  else false.

(** The queue with its wake-up thresholds, [*next_wakeup] and the return value.
    The two queues may be one: only the wake-up fields are written. *)
Definition rd_kafka_msgq_allow_wakeup_at (rkmq dest_rkmq : rd_kafka_msgq)
  (next_wakeup : option Z) (now linger_us batch_msg_cnt batch_msg_bytes : Z)
  : rd_kafka_msgq * option Z * bool :=
  let w := rkmq_wakeup rkmq in
  let '(on_first, abstime, next_wakeup, msg_cnt, msg_bytes) :=
    match rd_kafka_msgq_first dest_rkmq with
    | None => (true, i64 (now + linger_us), next_wakeup, 0, 0)
    | Some rkm =>
        let abstime :=
          if rkm_ts_backoff rkm >? now then rkm_ts_backoff rkm
          else let t := i64 (rkm_ts_enq rkm + linger_us) in if t <=? now then now else t in
        (false, abstime,
         match next_wakeup with
         | Some n => Some (if abstime <? n then abstime else n)
         | None => None
         end,
         rd_kafka_msgq_len dest_rkmq, i64 (rd_kafka_msgq_size dest_rkmq))
    end in
  if (msg_cnt >=? batch_msg_cnt) || (msg_bytes >=? batch_msg_bytes)
     || ((msg_cnt >? 0) && (now >=? abstime)) then
    (mk_msgq (rkmq_msgs rkmq) (rkmq_msg_cnt rkmq) (rkmq_msg_bytes rkmq)
       (mk_wakeup abstime (wk_msg_cnt w) (wk_msg_bytes w) on_first true), next_wakeup, true)
  else
    (mk_msgq (rkmq_msgs rkmq) (rkmq_msg_cnt rkmq) (rkmq_msg_bytes rkmq)
       (mk_wakeup abstime (i32 (batch_msg_cnt - msg_cnt)) (i64 (batch_msg_bytes - msg_bytes))
          on_first false), next_wakeup, false).
