(* ===== verification/MsgqFacts.v ===== *)
(** * Properties of message queues

    Queues hold their counters to their contents, sorted queues stay sorted, and
    no message is lost or duplicated on the way. *)

From stdpp Require Import sorting.
From S2P Require Import Prelude Msgq.

(** ** Orders

    What the queues ask of a [msg_order_cmp]: it compares a key, which the
    message id decides. *)

Class MsgOrder (cmp : rd_kafka_msg -> rd_kafka_msg -> Z) := {
  mo_key : rd_kafka_msg -> Z;
  mo_cmp : forall a b, cmp a b = RD_CMP (mo_key a) (mo_key b);
  mo_msgid : forall a b, rkm_msgid a = rkm_msgid b -> mo_key a = mo_key b }.

#[export] Instance fifo_order : MsgOrder rd_kafka_msg_cmp_msgid :=
  {| mo_key := rkm_msgid; mo_cmp := fun _ _ => eq_refl; mo_msgid := fun _ _ H => H |}.

#[export] Instance lifo_order : MsgOrder rd_kafka_msg_cmp_msgid_lifo.
Proof.
  refine {| mo_key := fun m => - rkm_msgid m |}; [| lia].
  intros a b. unfold rd_kafka_msg_cmp_msgid_lifo, RD_CMP.
  repeat match goal with |- context [if ?c then _ else _] => destruct c eqn:? end; lia.
Defined.

Lemma RD_CMP_lt a b : (RD_CMP a b <? 0) = (a <? b).
Proof.
  unfold RD_CMP. rewrite Z.gtb_ltb.
  destruct (Z.ltb_spec a b); [reflexivity |]. now destruct (Z.ltb_spec b a).
Qed.

Lemma RD_CMP_gt a b : (RD_CMP a b >? 0) = (b <? a).
Proof.
  unfold RD_CMP. rewrite !Z.gtb_ltb.
  destruct (Z.ltb_spec a b); [symmetry; apply Z.ltb_ge; cbn; lia |].
  now destruct (Z.ltb_spec b a).
Qed.

(** ** Contents and counters *)

Definition sum_bytes (l : list rd_kafka_msg) : Z := foldr (fun m a => msg_size m + a) 0 l.

(** The counters are those of the messages, at their width. *)
Definition counted (q : rd_kafka_msgq) : Prop :=
  rkmq_msg_cnt q = i32 (zlen (rkmq_msgs q)) /\
  rkmq_msg_bytes q = i64 (sum_bytes (rkmq_msgs q)).

(** A queue that fits its counters. *)
Definition small (q : rd_kafka_msgq) : Prop :=
  zlen (rkmq_msgs q) < 2 ^ 31 /\ sum_bytes (rkmq_msgs q) < 2 ^ 63.

Lemma sum_bytes_app a b : sum_bytes (a ++ b) = sum_bytes a + sum_bytes b.
Proof. unfold sum_bytes. induction a; cbn; lia. Qed.

Lemma sum_bytes_cons m l : sum_bytes (m :: l) = msg_size m + sum_bytes l.
Proof. reflexivity. Qed.

Lemma msg_size_range m : 0 <= msg_size m < 2 ^ 64.
Proof. now apply wrap_range. Qed.

Lemma sum_bytes_nonneg l : 0 <= sum_bytes l.
Proof. induction l as [| m l IH]; [easy |]. rewrite sum_bytes_cons. pose proof (msg_size_range m). lia. Qed.

#[export] Instance sum_bytes_perm : Proper (Permutation ==> eq) sum_bytes.
Proof. intros a b H. unfold sum_bytes. induction H; cbn; lia. Qed.

(** Closes a goal on the counters of a queue made from counted queues. *)
Ltac counts :=
  unfold counted in *; cbn [rkmq_msgs rkmq_msg_cnt rkmq_msg_bytes] in *;
  repeat match goal with H : _ /\ _ |- _ => destruct H end;
  repeat match goal with
  | H : rkmq_msg_cnt _ = _ |- _ => rewrite H; clear H
  | H : rkmq_msg_bytes _ = _ |- _ => rewrite H; clear H
  end;
  rewrite ?swrap_add_l, ?swrap_add_r, ?swrap_sub_l, ?swrap_sub_r by lia;
  rewrite ?length_app, ?sum_bytes_app, ?sum_bytes_cons;
  split; f_equal; cbn [length sum_bytes foldr]; lia.

Lemma counted_empty w : counted (mk_msgq [] 0 0 w).
Proof. split; reflexivity. Qed.

Lemma counted_small q :
  counted q -> small q ->
  rkmq_msg_cnt q = zlen (rkmq_msgs q) /\ rkmq_msg_bytes q = sum_bytes (rkmq_msgs q).
Proof.
  intros [H1 H2] [S1 S2]. pose proof (sum_bytes_nonneg (rkmq_msgs q)).
  rewrite H1, H2, !swrap_small by (lia || (unfold in_i; lia)). auto.
Qed.

Lemma concat_spec dst src :
  counted dst -> counted src ->
  let '(d, s) := rd_kafka_msgq_concat dst src in
  rkmq_msgs d = rkmq_msgs dst ++ rkmq_msgs src /\ counted d /\ rkmq_msgs s = [] /\ counted s.
Proof.
  intros. cbn. split; [reflexivity |]. split; [counts |].
  split; [reflexivity | apply counted_empty].
Qed.

Lemma enq_spec q m :
  counted q -> rkmq_msgs (fst (rd_kafka_msgq_enq q m)) = rkmq_msgs q ++ [m] /\
  counted (fst (rd_kafka_msgq_enq q m)).
Proof. intros. split; [reflexivity |]. unfold rd_kafka_msgq_enq. cbn [fst]. counts. Qed.

(** Removal, by position. *)
Lemma deq_spec q l1 m l2 :
  counted q -> small q -> rkmq_msgs q = l1 ++ m :: l2 ->
  exists q', rd_kafka_msgq_deq q (length l1) true = Some (q', m) /\
    rkmq_msgs q' = l1 ++ l2 /\ counted q' /\ small q' /\ rkmq_wakeup q' = rkmq_wakeup q.
Proof.
  intros Hc Hs E. destruct (counted_small q Hc Hs) as [E1 E2]. destruct Hs as [S1 S2].
  rewrite E, length_app in E1, S1. cbn [length] in E1, S1.
  rewrite E, sum_bytes_app, sum_bytes_cons in E2, S2.
  pose proof (sum_bytes_nonneg l1). pose proof (sum_bytes_nonneg l2). pose proof (msg_size_range m).
  unfold rd_kafka_msgq_deq. rewrite E, list_lookup_middle by reflexivity.
  rewrite (swrap_small 64) by (lia || (unfold in_i; lia)).
  ztest. cbn [rd_assert].
  eexists. split; [reflexivity |]. cbn [rkmq_msgs].
  assert (delete (length l1) (l1 ++ m :: l2) = l1 ++ l2) as Hd.
  { rewrite delete_take_drop, take_app_length. f_equal.
    replace (S (length l1)) with (length l1 + 1)%nat by lia.
    rewrite <- drop_drop, drop_app_length. reflexivity. }
  rewrite Hd. split; [reflexivity |]. split.
  - rewrite E1, E2. split; cbn [rkmq_msgs rkmq_msg_cnt rkmq_msg_bytes]; f_equal;
      rewrite ?length_app, ?sum_bytes_app; lia.
  - unfold small. cbn [rkmq_msgs]. rewrite length_app, sum_bytes_app. repeat split; lia.
Qed.

(** ** Sorted queues *)

Section Sorted.

Context (cmp : rd_kafka_msg -> rd_kafka_msg -> Z) `{!MsgOrder cmp}.

Definition sorted (l : list rd_kafka_msg) : Prop :=
  StronglySorted (fun a b => mo_key a <= mo_key b) l.

Lemma cmp_lt a b : (cmp a b <? 0) = (mo_key a <? mo_key b).
Proof. rewrite mo_cmp. apply RD_CMP_lt. Qed.

Lemma cmp_gt a b : (cmp a b >? 0) = (mo_key b <? mo_key a).
Proof. rewrite mo_cmp. apply RD_CMP_gt. Qed.

Lemma sorted_app a b :
  sorted (a ++ b) <->
  sorted a /\ sorted b /\ Forall (fun x => Forall (fun y => mo_key x <= mo_key y) b) a.
Proof.
  unfold sorted. rewrite StronglySorted_app. split.
  - intros (H & Ha & Hb). repeat split; try assumption.
    apply Forall_forall. intros x Hx. apply Forall_forall. intros y Hy.
    apply H; now apply list_elem_of_In.
  - intros (Ha & Hb & H). repeat split; try assumption. intros x y Hx Hy.
    apply list_elem_of_In in Hx. apply list_elem_of_In in Hy.
    rewrite Forall_forall in H. specialize (H x Hx). rewrite Forall_forall in H. auto.
Qed.

(** Where the scan stops. *)
Lemma find_pos_spec rkm l : forall i c b,
  (find_pos_loop cmp rkm l i (i32 c) (i64 b) = None /\
   Forall (fun m => mo_key m <= mo_key rkm) l) \/
  (exists l1 curr l2, l = l1 ++ curr :: l2 /\
     find_pos_loop cmp rkm l i (i32 c) (i64 b) =
       Some ((i + length l1)%nat, i32 (c + zlen l1), i64 (b + zlen l1 * msg_size rkm)) /\
     Forall (fun m => mo_key m <= mo_key rkm) l1 /\ mo_key rkm < mo_key curr).
Proof.
  induction l as [| curr l IH]; intros i c b; [left; split; [reflexivity | constructor] |].
  cbn [find_pos_loop]. rewrite cmp_lt. destruct (Z.ltb_spec (mo_key rkm) (mo_key curr)).
  - right. exists [], curr, l. cbn [length app]. split; [reflexivity |]. split; [ceq |]. now split; [constructor |].
  - rewrite !swrap_add_l by lia. destruct (IH (S i) (c + 1) (b + msg_size rkm)) as
      [[-> Hf] | (l1 & x & l2 & -> & -> & Hf & Hx)]; [left; auto | right].
    exists (curr :: l1), x, l2. cbn [length app]. split; [reflexivity |]. split; [ceq |]. split; [constructor |]; assumption.
Qed.

Lemma list_snoc_last {A} (l : list A) x : head l = Some x -> exists f y, l = f ++ [y].
Proof. destruct l using rev_ind; [discriminate | eauto]. Qed.

Lemma insert_list_before_mid {A} (d1 : list A) x d2 s :
  s <> [] -> TAILQ_INSERT_LIST_BEFORE (d1 ++ x :: d2) (length d1) s = Some (d1 ++ s ++ x :: d2).
Proof.
  intros Hs. destruct d1 as [| y d1]; [reflexivity |]. cbn [length TAILQ_INSERT_LIST_BEFORE].
  destruct s; [easy |].
  change (S (length d1)) with (length (y :: d1)). now rewrite take_app_length, drop_app_length.
Qed.

(** From the insert position of a source's first message on: all of the source
    goes there, or what does not go past the message at the position. *)
Lemma insert_before_spec destq srcq d1 ib d2 s1 :
  rkmq_msgs destq = d1 ++ ib :: d2 -> head (rkmq_msgs srcq) = Some s1 ->
  mo_key s1 < mo_key ib -> sorted (rkmq_msgs srcq) ->
  exists a b destq' srcq',
    rd_kafka_msgq_insert_msgq_before cmp destq (Some (length d1)) srcq =
      Some (destq', srcq', Some (length (d1 ++ a))) /\
    rkmq_msgs srcq = a ++ b /\ a <> [] /\
    rkmq_msgs destq' = d1 ++ a ++ ib :: d2 /\ rkmq_msgs srcq' = b /\
    Forall (fun m => mo_key m <= mo_key ib) a /\ Forall (fun m => mo_key ib < mo_key m) b /\
    rkmq_msg_cnt destq' = i32 (rkmq_msg_cnt destq + rkmq_msg_cnt srcq - rkmq_msg_cnt srcq') /\
    rkmq_msg_bytes destq' = i64 (rkmq_msg_bytes destq + rkmq_msg_bytes srcq - rkmq_msg_bytes srcq') /\
    (b = [] -> rkmq_msg_cnt srcq' = 0 /\ rkmq_msg_bytes srcq' = 0).
Proof.
  intros Ed Es Hlt Hsort. unfold rd_kafka_msgq_insert_msgq_before.
  rewrite Ed, list_lookup_middle by reflexivity.
  destruct (list_snoc_last (rkmq_msgs srcq) s1 Es) as (front & slast & Esrc).
  assert (rd_kafka_msgq_last srcq = Some slast) as ->
    by (unfold rd_kafka_msgq_last; rewrite Esrc; apply last_snoc).
  rewrite cmp_gt.
  destruct (Z.ltb_spec (mo_key ib) (mo_key slast)) as [Hgt | Hle].
  - unfold rd_kafka_msgq_find_pos. rewrite drop_0.
    destruct (find_pos_spec ib (rkmq_msgs srcq) 0 0 0) as
      [[_ Hf] | (a & x & b & E & Efp & Ha & Hx)].
    { rewrite Esrc in Hf. apply Forall_app in Hf as [_ Hf]. apply Forall_cons_iff in Hf. lia. }
    change (i32 0) with 0 in Efp. change (i64 0) with 0 in Efp. rewrite Efp.
    assert (a <> []) as Hne.
    { intros ->. rewrite E in Es. cbn in Es. injection Es as ->. lia. }
    unfold rd_kafka_msgq_split. cbn [Nat.add].
    destruct (Nat.eqb_spec (length a) 0); [now destruct a |]. cbn [negb rd_assert].
    cbn [rkmq_msgs].
    assert (take (length a) (rkmq_msgs srcq) = a) as Et by (rewrite E; apply take_app_length).
    assert (drop (length a) (rkmq_msgs srcq) = x :: b) as Edr by (rewrite E; apply drop_app_length).
    rewrite Et, Edr.
    rewrite insert_list_before_mid by assumption.
    exists a, (x :: b). do 2 eexists. split; [cbn; rewrite length_app; reflexivity |].
    split; [exact E |]. split; [exact Hne |]. cbn [fst rkmq_msgs rkmq_msg_cnt rkmq_msg_bytes].
    split; [reflexivity |]. split; [reflexivity |]. split; [exact Ha |]. split.
    { rewrite E in Hsort. apply sorted_app in Hsort as (_ & Hb & _).
      apply StronglySorted_inv in Hb as [_ Hb]. constructor; [exact Hx |].
      eapply Forall_impl; [| exact Hb]. cbn. lia. }
    rewrite !swrap_sub_r by lia. split; [ceq |]. split; [ceq | discriminate].
  - cbn [rkmq_msgs rd_kafka_msgq_init].
    assert (rkmq_msgs srcq <> []) as Hne by (rewrite Esrc; now destruct front).
    rewrite insert_list_before_mid by exact Hne.
    exists (rkmq_msgs srcq), []. do 2 eexists. split; [cbn; rewrite length_app; reflexivity |].
    split; [now rewrite app_nil_r |]. split; [exact Hne |].
    cbn [fst rkmq_msgs rkmq_msg_cnt rkmq_msg_bytes].
    split; [reflexivity |]. split; [reflexivity |]. split.
    { rewrite Esrc in *. apply sorted_app in Hsort as (_ & _ & Hf). apply Forall_app.
      split; [| now constructor]. eapply Forall_impl; [| exact Hf]. cbn. intros y Hy.
      apply Forall_cons_iff in Hy. lia. }
    split; [constructor |]. split; [ceq |]. split; [ceq | easy].
Qed.

(** The counters of two queues together. *)
Definition counted_pair (a b : rd_kafka_msgq) : Prop :=
  i32 (rkmq_msg_cnt a + rkmq_msg_cnt b) = i32 (zlen (rkmq_msgs a) + zlen (rkmq_msgs b)) /\
  i64 (rkmq_msg_bytes a + rkmq_msg_bytes b) =
    i64 (sum_bytes (rkmq_msgs a) + sum_bytes (rkmq_msgs b)).

Lemma find_pos_from destq d1 d2 start s :
  rkmq_msgs destq = d1 ++ d2 -> start = Some (length d1) \/ start = None /\ d1 = [] ->
  rd_kafka_msgq_find_pos destq start s cmp = find_pos_loop cmp s d2 (length d1) 0 0.
Proof.
  intros E Hs. unfold rd_kafka_msgq_find_pos.
  destruct Hs as [-> | [-> ->]]; rewrite E; [now rewrite drop_app_length | now rewrite drop_0].
Qed.

Lemma insert_loop_empty fuel destq start srcq :
  rkmq_msgs srcq = [] -> insert_msgq_loop cmp fuel destq start srcq = Some (destq, srcq).
Proof. intros E. destruct fuel; cbn; unfold rd_kafka_msgq_first; now rewrite E. Qed.

(** The loop, with everything before the scan's start at or below the source. *)
Lemma insert_loop_spec fuel : forall destq srcq d1 d2 start,
  (length (rkmq_msgs srcq) <= fuel)%nat ->
  rkmq_msgs destq = d1 ++ d2 -> sorted (d1 ++ d2) -> sorted (rkmq_msgs srcq) ->
  Forall (fun d => Forall (fun s => mo_key d <= mo_key s) (rkmq_msgs srcq)) d1 ->
  start = Some (length d1) \/ start = None /\ d1 = [] ->
  counted_pair destq srcq ->
  (rkmq_msgs srcq = [] -> counted destq /\ counted srcq) ->
  exists destq' srcq', insert_msgq_loop cmp fuel destq start srcq = Some (destq', srcq') /\
    rkmq_msgs srcq' = [] /\ sorted (rkmq_msgs destq') /\
    rkmq_msgs destq' ≡ₚ (d1 ++ d2) ++ rkmq_msgs srcq /\ counted destq' /\ counted srcq'.
Proof.
  induction fuel as [| fuel IH]; intros destq srcq d1 d2 start Hf Ed Hsd Hss Hd1 Hst Hcp Hend;
    cbn [insert_msgq_loop]; unfold rd_kafka_msgq_first;
    destruct (head (rkmq_msgs srcq)) as [s1 |] eqn:Es.
  1: { destruct (rkmq_msgs srcq); [discriminate | cbn in Hf; lia]. }
  1, 3: assert (rkmq_msgs srcq = []) as E by (now destruct (rkmq_msgs srcq));
    exists destq, srcq; rewrite E, app_nil_r, Ed; destruct (Hend E);
    do 2 (split; [reflexivity |]); split; [assumption |]; split; [reflexivity | split; assumption].
  assert (Forall (fun d => mo_key d <= mo_key s1) d1) as Hd1s.
  { eapply Forall_impl; [| exact Hd1]. cbn. intros d Hd.
    destruct (rkmq_msgs srcq); [discriminate |]. injection Es as ->.
    now apply Forall_cons_iff in Hd. }
  assert (Forall (fun m => mo_key s1 <= mo_key m) (rkmq_msgs srcq)) as Hs1.
  { destruct (rkmq_msgs srcq) as [| s l]; [discriminate |]. injection Es as ->.
    apply StronglySorted_inv in Hss as [_ Hl]. constructor; [lia | exact Hl]. }
  rewrite (find_pos_from destq d1 d2 start s1 Ed Hst).
  destruct (find_pos_spec s1 d2 (length d1) 0 0) as
    [[Efp Hall] | (p & ib & d3 & -> & Efp & Hp & Hib)];
    change (i32 0) with 0 in Efp; change (i64 0) with 0 in Efp; rewrite Efp;
    cbn [fmap option_fmap option_map fst].
  - (* past the end: everything is appended *)
    cbn [rd_kafka_msgq_insert_msgq_before].
    destruct (rd_kafka_msgq_concat destq srcq) as [d s] eqn:Ec.
    unfold rd_kafka_msgq_concat in Ec. injection Ec as <- <-.
    rewrite insert_loop_empty by reflexivity.
    do 2 eexists. split; [reflexivity |]. cbn [rkmq_msgs rd_kafka_msgq_init].
    split; [reflexivity |]. rewrite Ed. split.
    { apply sorted_app. split; [assumption |]. split; [assumption |].
      apply Forall_app. split; [assumption |].
      eapply Forall_impl; [| exact Hall]. cbn. intros d Hd.
      eapply Forall_impl; [| exact Hs1]. cbn. lia. }
    split; [reflexivity |]. split; [| apply counted_empty].
    destruct Hcp as [C1 C2]. rewrite Ed in C1, C2. split; cbn [rkmq_msgs rkmq_msg_cnt rkmq_msg_bytes].
    + rewrite C1. ceq. rewrite !length_app. lia.
    + rewrite C2. ceq. now rewrite !sum_bytes_app.
  - rewrite app_assoc in Ed. rewrite <- length_app.
    destruct (insert_before_spec destq srcq (d1 ++ p) ib d3 s1 Ed Es Hib Hss) as
      (a & b & destq' & srcq' & -> & Eab & Hne & Ed' & Es' & Ha & Hb & Hcnt & Hbytes & Hlast).
    assert (Forall (fun d => mo_key d <= mo_key s1) (d1 ++ p)) as Hd1p by (apply Forall_app; auto).
    rewrite app_assoc in Hsd.
    rewrite Eab in Hss, Hs1, Hf. apply sorted_app in Hss as (Hsa & Hsb & Hsab).
    apply Forall_app in Hs1 as [Hs1a Hs1b].
    pose proof Hsd as Hsd'. apply sorted_app in Hsd' as (Hsp & Hsi & Hspi).
    assert (sorted ((d1 ++ p) ++ a ++ ib :: d3)) as Hs'.
    { apply sorted_app. split; [exact Hsp |]. split.
      - apply sorted_app. split; [exact Hsa |]. split; [exact Hsi |].
        eapply Forall_impl; [| exact Ha]. cbn. intros x Hx. constructor; [exact Hx |].
        apply StronglySorted_inv in Hsi as [_ Hi]. eapply Forall_impl; [| exact Hi]. cbn. lia.
      - apply Forall_forall. intros d Hd. apply Forall_app. split.
        + eapply Forall_impl; [| exact Hs1a]. cbn. rewrite Forall_forall in Hd1p.
          pose proof (Hd1p d Hd). cbn in *. lia.
        + rewrite Forall_forall in Hspi. now apply Hspi. }
    assert (counted_pair destq' srcq') as Hcp'.
    { destruct Hcp as [C1 C2]. rewrite Ed, Eab in C1, C2.
      split; rewrite Ed', Es', ?Hcnt, ?Hbytes, swrap_add_l by lia.
      - etransitivity; [| etransitivity; [exact C1 |]]; ceq. rewrite !length_app. cbn [length]. lia.
      - etransitivity; [| etransitivity; [exact C2 |]]; ceq.
        rewrite !sum_bytes_app, !sum_bytes_cons. lia. }
    destruct (IH destq' srcq' ((d1 ++ p) ++ a) (ib :: d3) (Some (length ((d1 ++ p) ++ a))))
      as (dq & sq & E & H1 & H2 & H3 & H4 & H5).
    + rewrite Es'. rewrite length_app in Hf. destruct a; [easy | cbn in Hf; lia].
    + now rewrite <- app_assoc.
    + now rewrite <- app_assoc.
    + now rewrite Es'.
    + rewrite Es'. apply Forall_app. split.
      * eapply Forall_impl; [| exact Hd1p]. cbn. intros d Hd.
        eapply Forall_impl; [| exact Hs1b]. cbn. lia.
      * exact Hsab.
    + now left.
    + exact Hcp'.
    + rewrite Es'. intros ->. destruct (Hlast eq_refl) as [L1 L2].
      destruct Hcp' as [C1 C2]. rewrite Es', L1, L2 in *. rewrite Z.add_0_r in C1, C2.
      change (sum_bytes []) with 0 in C2. change (zlen (@nil rd_kafka_msg)) with 0 in C1.
      rewrite Z.add_0_r in C1, C2. unfold counted. rewrite Es', L1, L2. repeat split; try reflexivity.
      * rewrite <- C1, Hcnt, swrap_swrap by lia. reflexivity.
      * rewrite <- C2, Hbytes, swrap_swrap by lia. reflexivity.
    + exists dq, sq. split; [exact E |]. split; [exact H1 |]. split; [exact H2 |].
      split; [| auto]. rewrite H3, Es', Eab. rewrite <- !app_assoc.
      apply Permutation_app_head, Permutation_app_head.
      rewrite (Permutation_app_comm a). rewrite <- !app_assoc. cbn [app].
      change (ib :: d3 ++ a ++ b) with ((ib :: d3) ++ a ++ b).
      change (ib :: d3 ++ b ++ a) with ((ib :: d3) ++ b ++ a).
      apply Permutation_app_head, Permutation_app_comm.
Qed.

Lemma insert_msgq_spec destq srcq :
  sorted (rkmq_msgs destq) -> sorted (rkmq_msgs srcq) -> counted destq -> counted srcq ->
  exists destq' srcq', rd_kafka_msgq_insert_msgq cmp destq srcq = Some (destq', srcq') /\
    rkmq_msgs srcq' = [] /\ sorted (rkmq_msgs destq') /\
    rkmq_msgs destq' ≡ₚ rkmq_msgs destq ++ rkmq_msgs srcq /\ counted destq' /\ counted srcq'.
Proof.
  intros Hd Hs Hcd Hcs. unfold rd_kafka_msgq_insert_msgq, RD_KAFKA_MSGQ_EMPTY.
  destruct (rkmq_msgs srcq) as [| s1 s] eqn:Es.
  { exists destq, srcq. rewrite Es, app_nil_r. auto 10. }
  destruct (rkmq_msgs destq) as [| d0 d] eqn:Ed.
  { do 2 eexists. split; [reflexivity |]. cbn [rkmq_msgs]. rewrite Es.
    split; [reflexivity |]. split; [exact Hs |]. split; [reflexivity |].
    split; [| apply counted_empty]. destruct Hcs as [C1 C2]. rewrite Es in C1, C2. now split. }
  destruct (list_snoc_last (d0 :: d) d0 eq_refl) as (f & dlast & Ef).
  assert (rd_kafka_msgq_last destq = Some dlast) as ->
    by (unfold rd_kafka_msgq_last; rewrite Ed, Ef; apply last_snoc).
  assert (rd_kafka_msgq_first srcq = Some s1) as -> by (unfold rd_kafka_msgq_first; now rewrite Es).
  rewrite cmp_lt. destruct (Z.ltb_spec (mo_key dlast) (mo_key s1)) as [Hlt | Hge].
  - pose proof (concat_spec destq srcq Hcd Hcs) as Hc.
    destruct (rd_kafka_msgq_concat destq srcq) as [d' s'].
    destruct Hc as (E1 & C1 & E2 & C2). exists d', s'. rewrite E1, E2, Es, Ed.
    split; [reflexivity |]. split; [reflexivity |]. split; [| auto].
    apply sorted_app. split; [exact Hd |]. split; [exact Hs |].
    assert (Forall (fun x => mo_key x <= mo_key dlast) (d0 :: d)) as Hl.
    { rewrite Ef in *. apply sorted_app in Hd as (_ & _ & Hl). apply Forall_app.
      split; [| now constructor]. eapply Forall_impl; [| exact Hl]. cbn. intros x Hx.
      now apply Forall_cons_iff in Hx. }
    apply StronglySorted_inv in Hs as [_ Hs].
    eapply Forall_impl; [| exact Hl]. cbn. intros x Hx. constructor; [lia |].
    eapply Forall_impl; [| exact Hs]. cbn. lia.
  - rewrite <- Es in *. rewrite <- Ed in *.
    destruct (insert_loop_spec (length (rkmq_msgs srcq)) destq srcq [] (rkmq_msgs destq) None)
      as (d' & s' & -> & E1 & H2 & H3 & H4 & H5); try assumption; auto.
    { destruct Hcd as [C1 C2], Hcs as [C3 C4]. split.
      - rewrite C1, C3, swrap_add_l, swrap_add_r by lia. reflexivity.
      - rewrite C2, C4, swrap_add_l, swrap_add_r by lia. reflexivity. }
    unfold RD_KAFKA_MSGQ_EMPTY. rewrite E1. cbn [rd_assert]. exists d', s'. auto 10.
Qed.

(** ** Single insertions *)

Lemma insert_sorted_spec m l :
  sorted l -> exists l1 l2, l = l1 ++ l2 /\ TAILQ_INSERT_SORTED cmp m l = l1 ++ m :: l2 /\
    Forall (fun x => mo_key x <= mo_key m) l1 /\ Forall (fun x => mo_key m < mo_key x) l2.
Proof.
  intros Hs. destruct l as [| a l]; [now exists [], [] |]. cbn [TAILQ_INSERT_SORTED].
  assert (forall a b l, insert_sorted_loop cmp m (a :: b :: l) =
            if cmp m a <? 0 then m :: a :: b :: l else a :: insert_sorted_loop cmp m (b :: l))
    as Hstep by reflexivity.
  revert a Hs. induction l as [| b l IH]; intros a Hs; [cbn [insert_sorted_loop] | rewrite Hstep];
    rewrite cmp_lt; destruct (Z.ltb_spec (mo_key m) (mo_key a)).
  1, 3: apply StronglySorted_inv in Hs as [_ Hs]; exists []; eexists;
    split; [reflexivity |]; split; [reflexivity |]; split; [constructor |];
    constructor; [assumption |]; eapply Forall_impl; [| exact Hs]; cbn; lia.
  - exists [a], []. repeat split; repeat constructor. lia.
  - apply StronglySorted_inv in Hs as [Hs _].
    destruct (IH b Hs) as (l1 & l2 & E & -> & H1 & H2).
    exists (a :: l1), l2. rewrite E. repeat split; [now constructor | assumption].
Qed.

(** ** Retries *)

Definition retriable (incr max : Z) (m : rd_kafka_msg) : bool :=
  negb (i32 (rkm_retries m + incr) >? max).

Definition retried (incr backoff : Z) (status : rd_kafka_msg_status) (m : rd_kafka_msg)
  : rd_kafka_msg :=
  let m' := msg_set_retry m backoff (i32 (rkm_retries m + incr)) in
  msg_set_status m' (retry_status (rkm_status m') status).

Lemma retry_scan_spec incr max backoff status l : forall kept srcq retryable,
  rkmq_msgs srcq = kept ++ l -> counted srcq -> small srcq -> counted retryable ->
  exists srcq' retryable',
    retry_scan (length l) srcq (length kept) retryable incr max backoff status =
      Some (srcq', retryable') /\
    rkmq_msgs srcq' = kept ++ filter (fun m => retriable incr max m = false) l /\
    rkmq_msgs retryable' = rkmq_msgs retryable ++
      map (retried incr backoff status) (filter (fun m => retriable incr max m = true) l) /\
    counted srcq' /\ counted retryable'.
Proof.
  induction l as [| m l IH]; intros kept srcq retryable E Hc Hs Hr.
  { exists srcq, retryable. cbn. rewrite !app_nil_r in *. auto. }
  cbn [length retry_scan]. rewrite E, list_lookup_middle by reflexivity.
  unfold retriable in *. rewrite !filter_cons.
  destruct (i32 (rkm_retries m + incr) >? max) eqn:Eg; cbn [negb].
  - rewrite decide_True, decide_False by easy.
    destruct (IH (kept ++ [m]) srcq retryable) as (s' & r' & H1 & H2 & H3 & H4 & H5); auto.
    { now rewrite <- app_assoc. }
    rewrite length_app, Nat.add_1_r in H1. exists s', r'. rewrite H1, H2, <- app_assoc. auto.
  - rewrite decide_False, decide_True by easy.
    destruct (deq_spec srcq kept m l Hc Hs E) as (q' & -> & E' & Hc' & Hs' & _).
    destruct (enq_spec retryable (retried incr backoff status m) Hr) as [Ee Ce].
    match goal with |- context [rd_kafka_msgq_enq retryable ?x] =>
      change x with (retried incr backoff status m) end.
    destruct (rd_kafka_msgq_enq retryable _) as [rq x]. cbn [fst] in Ee, Ce.
    destruct (IH kept q' rq E' Hc' Hs' Ce) as (s' & r' & H1 & H2 & H3 & H4 & H5).
    exists s', r'. rewrite H1, H2, H3, Ee, <- app_assoc. auto.
Qed.

Lemma sorted_map f l : (forall m, mo_key (f m) = mo_key m) -> sorted l -> sorted (map f l).
Proof.
  intros Hf Hs. induction Hs as [| a l _ IH Ha]; cbn; constructor; [exact IH |].
  apply Forall_map. eapply Forall_impl; [| exact Ha]. cbn. intros x Hx. now rewrite !Hf.
Qed.

Lemma sorted_filter (P : rd_kafka_msg -> Prop) `{!forall m, Decision (P m)} l :
  sorted l -> sorted (filter P l).
Proof.
  intros Hs. induction Hs as [| a l _ IH Ha]; [constructor |]. rewrite filter_cons.
  destruct (decide (P a)); [| exact IH]. constructor; [exact IH |].
  clear IH. induction Ha as [| b l Hb _ IHl]; [constructor |]. rewrite filter_cons.
  destruct (decide (P b)); [now constructor | exact IHl].
Qed.

(** Splitting the source and merging what is retried. *)
Lemma retry_msgq_spec destq srcq incr max backoff status :
  sorted (rkmq_msgs destq) -> sorted (rkmq_msgs srcq) ->
  counted destq -> counted srcq -> small srcq ->
  let moved := filter (fun m => retriable incr max m = true) (rkmq_msgs srcq) in
  exists destq' srcq',
    rd_kafka_retry_msgq cmp destq srcq incr max backoff status =
      Some (destq', srcq', match moved with [] => 0 | _ => 1 end) /\
    rkmq_msgs srcq' = filter (fun m => retriable incr max m = false) (rkmq_msgs srcq) /\
    rkmq_msgs destq' ≡ₚ rkmq_msgs destq ++ map (retried incr backoff status) moved /\
    sorted (rkmq_msgs destq') /\ counted destq' /\ counted srcq'.
Proof.
  intros Hd Hs Cd Cs Ss moved. unfold rd_kafka_retry_msgq.
  destruct (retry_scan_spec incr max backoff status (rkmq_msgs srcq) [] srcq
              RD_KAFKA_MSGQ_INITIALIZER eq_refl Cs Ss (counted_empty _))
    as (s' & r' & E & H1 & H2 & H3 & H4).
  cbn [length] in E. rewrite E. cbn [app] in H1, H2. cbn [RD_KAFKA_MSGQ_INITIALIZER rkmq_msgs app] in H2.
  fold moved in H2. unfold RD_KAFKA_MSGQ_EMPTY. rewrite H2.
  destruct moved as [| m moved'] eqn:Em; cbn [map].
  { exists destq, s'. rewrite app_nil_r. auto 10. }
  rewrite <- Em in H2. cbn [map] in H2.
  destruct (insert_msgq_spec destq r' Hd) as (d & r & -> & _ & Hsd & Hp & Cd' & _); try assumption.
  { rewrite H2. apply sorted_map; [intros; now apply mo_msgid |]. now apply sorted_filter. }
  exists d, s'. rewrite H2, Em in Hp. conj.
Qed.

End Sorted.

(** ** Scans from the head *)

(** The messages up to the first whose time is not up. *)
Definition due (now : Z) (m : rd_kafka_msg) : bool := negb (rkm_ts_timeout m >? now).

Lemma age_scan_spec now l : forall q timedout next,
  rkmq_msgs q = l -> counted q -> small q -> counted timedout ->
  exists pre rest q' t', l = pre ++ rest /\
    age_scan_loop (length l) q timedout now next =
      Some (q', t', match rest with [] => next | m :: _ => rkm_ts_timeout m end) /\
    Forall (fun m => rkm_ts_timeout m <= now) pre /\
    match rest with [] => True | m :: _ => now < rkm_ts_timeout m end /\
    rkmq_msgs q' = rest /\ rkmq_msgs t' = rkmq_msgs timedout ++ pre /\ counted q' /\ counted t'.
Proof.
  induction l as [| m l IH]; intros q timedout next E Hc Hs Ht.
  { exists [], [], q, timedout. rewrite !app_nil_r. cbn [length age_scan_loop app]. conj. }
  cbn [length age_scan_loop]. unfold rd_kafka_msgq_first. rewrite E. cbn [list.head hd_error].
  rewrite Z.gtb_ltb. destruct (Z.ltb_spec now (rkm_ts_timeout m)).
  { exists [], (m :: l), q, timedout. rewrite !app_nil_r. conj. }
  destruct (deq_spec q [] m l Hc Hs E) as (q1 & Ed & E1 & Hc1 & Hs1 & _). cbn [length] in Ed. rewrite Ed.
  destruct (enq_spec timedout m Ht) as [Ee Ce].
  destruct (rd_kafka_msgq_enq timedout m) as [tq x]. cbn [fst] in Ee, Ce.
  destruct (IH q1 tq next E1 Hc1 Hs1 Ce) as (pre & rest & q' & t' & -> & -> & H1 & H2 & H3 & H4 & H5 & H6).
  exists (m :: pre), rest, q', t'. rewrite H4, Ee, <- app_assoc.
  split; [reflexivity |]. split; [reflexivity |]. split; [constructor; [lia | assumption] |]. auto.
Qed.

(** ** Properties *)

(** C25. Merging queues keeps every message and the order.  With either ordering
    function, inserting one sorted queue into another in bulk, chunk by chunk at
    the positions found, ends without a failed assertion: the destination holds
    the messages of both, sorted, the source is empty, and the counters are
    again those of the contents. *)
Theorem insert_msgq_merges cmp `{!MsgOrder cmp} destq srcq :
  sorted cmp (rkmq_msgs destq) -> sorted cmp (rkmq_msgs srcq) ->
  counted destq -> counted srcq ->
  exists destq' srcq', rd_kafka_msgq_insert_msgq cmp destq srcq = Some (destq', srcq') /\
    sorted cmp (rkmq_msgs destq') /\
    rkmq_msgs destq' ≡ₚ rkmq_msgs destq ++ rkmq_msgs srcq /\ counted destq' /\
    RD_KAFKA_MSGQ_EMPTY srcq' = true /\ counted srcq'.
Proof.
  intros Hd Hs Cd Cs.
  destruct (insert_msgq_spec cmp destq srcq Hd Hs Cd Cs) as (d & s & H & E & H1 & H2 & H3 & H4).
  exists d, s. unfold RD_KAFKA_MSGQ_EMPTY. rewrite E. auto 10.
Qed.

(** A message of id [id], with [id] bytes and [id] retries. *)
Definition demo_msg (id : Z) : rd_kafka_msg :=
  mk_msg id None 0 RD_KAFKA_PARTITION_UA 0 RD_KAFKA_TIMESTAMP_CREATE_TIME 0
    RD_KAFKA_MSG_STATUS_NOT_PERSISTED 0 (10 * id) 0 0 id 0 id None None.
Definition demo_q (ids : list Z) : rd_kafka_msgq :=
  mk_msgq (map demo_msg ids) (zlen ids) (sum_bytes (map demo_msg ids)) no_wakeup.

Lemma insert_msgq_merges_witness :
  exists d s, rd_kafka_msgq_insert_msgq rd_kafka_msg_cmp_msgid
      (demo_q [1; 2; 3; 7; 10]) (demo_q [4; 5; 6; 8; 11]) = Some (d, s) /\
    map rkm_msgid (rkmq_msgs d) = [1; 2; 3; 4; 5; 6; 7; 8; 10; 11] /\ counted d.
Proof.
  destruct (insert_msgq_merges rd_kafka_msg_cmp_msgid (demo_q [1; 2; 3; 7; 10])
              (demo_q [4; 5; 6; 8; 11])) as (d & s & H & _ & _ & Hc & _ & _).
  - repeat constructor; vm_compute; congruence.
  - repeat constructor; vm_compute; congruence.
  - split; vm_compute; reflexivity.
  - split; vm_compute; reflexivity.
  - exists d, s. split; [exact H |]. split; [| exact Hc].
    vm_compute in H. injection H as <- _. reflexivity.
Defined.

(** A sorted insertion puts the message behind those it does not precede and
    before all it precedes: messages with equal ids stay in the order they were
    enqueued.  The queue's counters follow, and the count is returned. *)
Lemma enq_sorted_position cmp `{!MsgOrder cmp} q rkm :
  sorted cmp (rkmq_msgs q) -> counted q ->
  exists l1 l2, rkmq_msgs q = l1 ++ l2 /\
    rkmq_msgs (fst (rd_kafka_msgq_enq_sorted0 q rkm cmp)) = l1 ++ rkm :: l2 /\
    Forall (fun m => cmp rkm m >= 0) l1 /\ Forall (fun m => cmp rkm m < 0) l2 /\
    sorted cmp (l1 ++ rkm :: l2) /\ counted (fst (rd_kafka_msgq_enq_sorted0 q rkm cmp)) /\
    snd (rd_kafka_msgq_enq_sorted0 q rkm cmp) = i32 (zlen (rkmq_msgs q) + 1).
Proof.
  intros Hs Hc. destruct (insert_sorted_spec cmp rkm (rkmq_msgs q) Hs) as (l1 & l2 & E & Ei & H1 & H2).
  exists l1, l2. split; [exact E |].
  unfold rd_kafka_msgq_enq_sorted0. cbn [fst snd rkmq_msgs]. rewrite Ei.
  split; [reflexivity |]. split.
  { eapply Forall_impl; [| exact H1]. cbn. intros x Hx. pose proof (cmp_lt cmp rkm x). lia. }
  split. { eapply Forall_impl; [| exact H2]. cbn. intros x Hx. pose proof (cmp_lt cmp rkm x). lia. }
  split.
  { rewrite E in Hs. apply sorted_app in Hs as (Ha & Hb & Hab).
    apply sorted_app. split; [exact Ha |]. split.
    - constructor; [exact Hb |]. eapply Forall_impl; [| exact H2]. cbn. lia.
    - apply Forall_forall. intros x Hx. rewrite Forall_forall in H1, Hab.
      constructor; [now apply H1 | now apply Hab]. }
  destruct Hc as [C1 C2]. rewrite E in C1, C2. split; [split |]; cbn [rkmq_msgs rkmq_msg_cnt rkmq_msg_bytes];
    rewrite ?C1, ?C2, ?E, ?swrap_add_l by lia; ceq;
    rewrite ?length_app, ?sum_bytes_app, ?sum_bytes_cons; cbn [length]; lia.
Qed.

Lemma enq_sorted_position_witness :
  exists l1 l2, map rkm_msgid (l1 ++ demo_msg 4 :: l2) = [1; 3; 4; 4; 9] /\
    rkmq_msgs (fst (rd_kafka_msgq_enq_sorted0 (demo_q [1; 3; 4; 9]) (demo_msg 4)
                      rd_kafka_msg_cmp_msgid)) = l1 ++ demo_msg 4 :: l2 /\ length l2 = 1%nat.
Proof.
  destruct (enq_sorted_position rd_kafka_msg_cmp_msgid (demo_q [1; 3; 4; 9]) (demo_msg 4))
    as (l1 & l2 & E & E2 & H1 & H2 & _).
  - repeat constructor; vm_compute; congruence.
  - split; vm_compute; reflexivity.
  - exists l1, l2. split; [rewrite <- E2; vm_compute; reflexivity |]. split; [exact E2 |].
    assert (l1 ++ l2 = map demo_msg [1; 3; 4; 9]) as El by (rewrite <- E; reflexivity).
    cbn [map] in El.
    destruct l1 as [| ? [| ? [| ? [| ? [| ? l1]]]]]; cbn [app] in El; simplify_eq;
      try reflexivity;
      repeat match goal with H : Forall _ (_ :: _) |- _ => apply Forall_cons_iff in H as [? H] end;
      match goal with
      | H : _ < 0 |- _ => exfalso; revert H; vm_compute; congruence
      | H : _ >= 0 |- _ => exfalso; apply H; vm_compute; reflexivity
      end.
Defined.

(** Retrying splits the source.  The messages with retries left go to their
    sorted positions in the destination, with their retry count, backoff and
    status updated (a status is never downgraded to not persisted); the others
    stay in the source, in order.  The value returned is 0 when nothing could be
    retried and 1 when something was, even if all was. *)
Lemma retry_msgq_splits cmp `{!MsgOrder cmp} destq srcq incr max backoff status :
  sorted cmp (rkmq_msgs destq) -> sorted cmp (rkmq_msgs srcq) ->
  counted destq -> counted srcq -> small srcq ->
  let moved := filter (fun m => retriable incr max m = true) (rkmq_msgs srcq) in
  exists destq' srcq',
    rd_kafka_retry_msgq cmp destq srcq incr max backoff status =
      Some (destq', srcq', match moved with [] => 0 | _ => 1 end) /\
    rkmq_msgs srcq' = filter (fun m => retriable incr max m = false) (rkmq_msgs srcq) /\
    rkmq_msgs destq' ≡ₚ rkmq_msgs destq ++ map (retried incr backoff status) moved /\
    sorted cmp (rkmq_msgs destq') /\ counted destq' /\ counted srcq'.
Proof. apply retry_msgq_spec. Qed.

Lemma retry_msgq_splits_witness :
  exists d s, rd_kafka_retry_msgq rd_kafka_msg_cmp_msgid (demo_q [2; 9]) (demo_q [1; 3; 5; 6])
      1 5 77 RD_KAFKA_MSG_STATUS_NOT_PERSISTED = Some (d, s, 1) /\
    map rkm_msgid (rkmq_msgs s) = [5; 6] /\
    map (fun m => (rkm_msgid m, rkm_retries m)) (rkmq_msgs d) = [(1, 2); (2, 2); (3, 4); (9, 9)].
Proof.
  destruct (retry_msgq_splits rd_kafka_msg_cmp_msgid (demo_q [2; 9]) (demo_q [1; 3; 5; 6])
              1 5 77 RD_KAFKA_MSG_STATUS_NOT_PERSISTED) as (d & s & H & _).
  - repeat constructor; vm_compute; congruence.
  - repeat constructor; vm_compute; congruence.
  - split; vm_compute; reflexivity.
  - split; vm_compute; reflexivity.
  - split; vm_compute; reflexivity.
  - exists d, s. split; [exact H |]. vm_compute in H. injection H as <- <-. split; reflexivity.
Defined.

(** The time-out scan takes the head of the queue.  It moves, in order, the
    messages up to the first that is not due, returns how many they are and
    reports when that one will be, or 0 if none is left; a message that is due
    behind one that is not stays in the queue. *)
Lemma age_scan_moves_due q timedout now :
  counted q -> small q -> counted timedout ->
  zlen (rkmq_msgs q) + zlen (rkmq_msgs timedout) < 2 ^ 31 ->
  exists pre rest q' t', rkmq_msgs q = pre ++ rest /\
    rd_kafka_msgq_age_scan q timedout now =
      Some (q', t', zlen pre, match rest with [] => 0 | m :: _ => rkm_ts_timeout m end) /\
    Forall (fun m => rkm_ts_timeout m <= now) pre /\
    match rest with [] => True | m :: _ => now < rkm_ts_timeout m end /\
    rkmq_msgs q' = rest /\ rkmq_msgs t' = rkmq_msgs timedout ++ pre /\ counted q' /\ counted t'.
Proof.
  intros Hc Hs Ht Hm. unfold rd_kafka_msgq_age_scan.
  destruct (age_scan_spec now (rkmq_msgs q) q timedout 0 eq_refl Hc Hs Ht)
    as (pre & rest & q' & t' & E & -> & H1 & H2 & H3 & H4 & H5 & H6).
  exists pre, rest, q', t'. split; [exact E |]. split; [| auto 10].
  do 3 f_equal. destruct H6 as [C1 _], Ht as [C2 _]. rewrite C1, C2, H4, swrap_sub_l, swrap_sub_r by lia.
  rewrite length_app. rewrite E, length_app in Hm. rewrite swrap_small; [lia | lia |]. unfold in_i. lia.
Qed.

Lemma age_scan_moves_due_witness :
  exists q' t', rd_kafka_msgq_age_scan (demo_q [1; 2; 5; 3]) (demo_q []) 35 = Some (q', t', 2, 50) /\
    map rkm_msgid (rkmq_msgs q') = [5; 3] /\ map rkm_msgid (rkmq_msgs t') = [1; 2].
Proof.
  destruct (age_scan_moves_due (demo_q [1; 2; 5; 3]) (demo_q []) 35)
    as (pre & rest & q' & t' & _ & H & _).
  - split; vm_compute; reflexivity.
  - split; vm_compute; reflexivity.
  - split; vm_compute; reflexivity.
  - vm_compute. reflexivity.
  - exists q', t'. pose proof H as H0. vm_compute in H. injection H as <- <- _ _.
    split; [vm_compute; reflexivity |]. split; reflexivity.
Defined.

(** The byte count of an insert position is not the bytes before it.  The scan
    adds the size of the message to insert once per message passed over, so the
    count is right and the bytes are a multiple of that message's size: with
    messages of 1, 2 and 3 bytes before the position of one of 5, it reports 15. *)
Theorem find_pos_bytes cmp `{!MsgOrder cmp} q rkm i cnt bytes :
  rd_kafka_msgq_find_pos q None rkm cmp = Some (i, cnt, bytes) ->
  cnt = i32 (zlen (take i (rkmq_msgs q))) /\
  bytes = i64 (zlen (take i (rkmq_msgs q)) * msg_size rkm).
Proof.
  intros H. rewrite (find_pos_from cmp q [] (rkmq_msgs q) None rkm) in H by auto.
  destruct (find_pos_spec cmp rkm (rkmq_msgs q) 0 0 0) as [[E _] | (l1 & x & l2 & El & E & _)];
    change (i32 0) with 0 in E; change (i64 0) with 0 in E; cbn [length] in H;
    rewrite E in H; [discriminate |].
  injection H as <- <- <-. rewrite El. cbn [Nat.add]. rewrite take_app_length. split; ceq.
Qed.

Lemma find_pos_bytes_witness :
  rd_kafka_msgq_find_pos (demo_q [1; 2; 3; 7]) None (demo_msg 5) rd_kafka_msg_cmp_msgid
    = Some (3%nat, 3, 15) /\
  sum_bytes (take 3 (rkmq_msgs (demo_q [1; 2; 3; 7]))) = 6 /\
  15 = i64 (zlen (take 3 (rkmq_msgs (demo_q [1; 2; 3; 7]))) * msg_size (demo_msg 5)).
Proof.
  split; [vm_compute; reflexivity |]. split; [vm_compute; reflexivity |].
  eapply (find_pos_bytes rd_kafka_msg_cmp_msgid (demo_q [1; 2; 3; 7]) (demo_msg 5)).
  vm_compute. reflexivity.
Defined.
