(* ===== verification/Producer.v ===== *)
(** * From produce() to the partition queue (src/cbits/hs_rdkafka_msg.c,
      hs_rdkafka_partition.c, hs_rdinterval.h, hs_rdkafka_proto.h)

    A message is given a partition by the topic's partitioner, a message id by the
    partition, and a place in the partition's queue; a batch of them a sequence
    number. *)

From S2P Require Import Prelude Msgq MsgqFacts Hash.

(** ** Intervals *)

Record rd_interval_t := mk_interval {
  ri_ts_last : Z;
  ri_fixed : Z;
  ri_backoff : Z }.

Definition rd_interval_init : rd_interval_t := mk_interval 0 0 0.

(** [now] is the time passed or, for 0, what [rd_clock] returns. The interval and
    the return value. *)
Definition rd_interval0 (ri : rd_interval_t) (interval_us now : Z) (immediate : bool)
  : rd_interval_t * Z :=
  let interval_us := if interval_us =? 0 then ri_fixed ri else interval_us in
  let diff := if negb (ri_ts_last ri =? 0) || negb immediate
              then i64 (now - (ri_ts_last ri + interval_us + ri_backoff ri))
              else 1 in
  if diff >? 0 then (mk_interval now (ri_fixed ri) 0, diff) else (ri, diff).

Definition rd_interval ri interval_us now := rd_interval0 ri interval_us now false.
Definition rd_interval_immediate ri interval_us now := rd_interval0 ri interval_us now true.

Definition rd_interval_reset (ri : rd_interval_t) : rd_interval_t :=
  mk_interval 0 (ri_fixed ri) 0.
Definition rd_interval_reset_to_now (ri : rd_interval_t) (now : Z) : rd_interval_t :=
  mk_interval now (ri_fixed ri) 0.
Definition rd_interval_backoff (ri : rd_interval_t) (backoff_us : Z) : rd_interval_t :=
  mk_interval (ri_ts_last ri) (ri_fixed ri) backoff_us.
Definition rd_interval_expedite (ri : rd_interval_t) (expedite_us : Z) : rd_interval_t :=
  if expedite_us =? 0 then mk_interval 0 (ri_fixed ri) (ri_backoff ri)
  else mk_interval (ri_ts_last ri) (ri_fixed ri) (- expedite_us).
Definition rd_interval_fixed (ri : rd_interval_t) (fixed_us : Z) : rd_interval_t :=
  mk_interval (ri_ts_last ri) fixed_us (ri_backoff ri).
Definition rd_interval_disable (ri : rd_interval_t) : rd_interval_t :=
  mk_interval 6000000000000000000 (ri_fixed ri) (ri_backoff ri).
Definition rd_interval_disabled (ri : rd_interval_t) : bool :=
  ri_ts_last ri =? 6000000000000000000.

(** ** Partitions *)

(** What producing uses of a [rd_kafka_toppar_t]: [rktp_broker] is whether it has
    a proper broker, [rktp_msgq_wakeup_q] whether there is a queue to wake. *)
Record rd_kafka_toppar := mk_toppar {
  rktp_partition : Z;
  rktp_msgid : Z;
  rktp_msgq : rd_kafka_msgq;
  rktp_broker : bool;
  rktp_msgq_wakeup_q : bool;
  rktp_producer_enq_msgs : Z }.

Inductive queuing_strategy : Set := RD_KAFKA_QUEUE_FIFO | RD_KAFKA_QUEUE_LIFO.

(** Set by [rd_kafka_topic_new0]. *)
Definition msg_order_cmp (s : queuing_strategy) : rd_kafka_msg -> rd_kafka_msg -> Z :=
  match s with
  | RD_KAFKA_QUEUE_FIFO => rd_kafka_msg_cmp_msgid
  | RD_KAFKA_QUEUE_LIFO => rd_kafka_msg_cmp_msgid_lifo
  end.

Definition set_signalled (q : rd_kafka_msgq) : rd_kafka_msgq :=
  let w := rkmq_wakeup q in
  mk_msgq (rkmq_msgs q) (rkmq_msg_cnt q) (rkmq_msg_bytes q)
    (mk_wakeup (wk_abstime w) (wk_msg_cnt w) (wk_msg_bytes w) (wk_on_first w) true).

(** The partition, and whether the broker thread is woken. *)
Definition rd_kafka_toppar_enq_msg (s : queuing_strategy) (rktp : rd_kafka_toppar)
  (rkm : rd_kafka_msg) (now : Z) : rd_kafka_toppar * bool :=
  let ua := rktp_partition rktp =? RD_KAFKA_PARTITION_UA in
  let '(rkm, msgid) :=
    if (rkm_msgid rkm =? 0) && negb ua
    then let id := u64 (rktp_msgid rktp + 1) in (msg_set_msgid rkm id, id)
    else (rkm, rktp_msgid rktp) in
  let '(q, _) :=
    if ua || match s with RD_KAFKA_QUEUE_FIFO => true | RD_KAFKA_QUEUE_LIFO => false end
    then rd_kafka_msgq_enq (rktp_msgq rktp) rkm
    else rd_kafka_msgq_enq_sorted0 (rktp_msgq rktp) rkm (msg_order_cmp s) in
  let wake := negb ua && rd_kafka_msgq_may_wakeup q now && rktp_msgq_wakeup_q rktp in
  let q := if wake then set_signalled q else q in
  (mk_toppar (rktp_partition rktp) msgid q (rktp_broker rktp) (rktp_msgq_wakeup_q rktp)
     (rktp_producer_enq_msgs rktp), wake).

(** ** Topics *)

Inductive rkt_state_t : Set :=
| RD_KAFKA_TOPIC_S_UNKNOWN
| RD_KAFKA_TOPIC_S_EXISTS
| RD_KAFKA_TOPIC_S_NOTEXISTS
| RD_KAFKA_TOPIC_S_ERROR.

(** The topic: its partition array [rkt_p], as long as [rkt_partition_cnt] says,
    and its unassigned partition.  [rkt_linger_ms] is the client's
    [sticky_partition_linger_ms]. *)
Record rd_kafka_topic := mk_topic {
  rkt_state : rkt_state_t;
  rkt_err : Z;
  rkt_p : list rd_kafka_toppar;
  rkt_ua : option rd_kafka_toppar;
  rkt_sticky_partition : Z;
  rkt_sticky_intvl : rd_interval_t;
  rkt_partitioner : partitioner;
  rkt_random_partitioner : bool;
  rkt_strategy : queuing_strategy;
  rkt_linger_ms : Z }.

Definition rkt_partition_cnt (rkt : rd_kafka_topic) : Z := zlen (rkt_p rkt).

(** The choice made in [rd_kafka_topic_new0]. *)
Definition random_partitioner_conf (linger_ms : Z) (p : partitioner) : bool :=
  negb ((linger_ms >? 0) && negb (bool_decide (p = PartConsistent))
        && negb (bool_decide (p = PartMurmur2)) && negb (bool_decide (p = PartFnv1a))).

Definition topic_set_sticky (rkt : rd_kafka_topic) (part : Z) (intvl : rd_interval_t)
  : rd_kafka_topic :=
  mk_topic (rkt_state rkt) (rkt_err rkt) (rkt_p rkt) (rkt_ua rkt) part intvl
    (rkt_partitioner rkt) (rkt_random_partitioner rkt) (rkt_strategy rkt) (rkt_linger_ms rkt).
Definition topic_set_p (rkt : rd_kafka_topic) (p : list rd_kafka_toppar) : rd_kafka_topic :=
  mk_topic (rkt_state rkt) (rkt_err rkt) p (rkt_ua rkt) (rkt_sticky_partition rkt)
    (rkt_sticky_intvl rkt) (rkt_partitioner rkt) (rkt_random_partitioner rkt) (rkt_strategy rkt)
    (rkt_linger_ms rkt).
Definition topic_set_ua (rkt : rd_kafka_topic) (ua : option rd_kafka_toppar) : rd_kafka_topic :=
  mk_topic (rkt_state rkt) (rkt_err rkt) (rkt_p rkt) ua (rkt_sticky_partition rkt)
    (rkt_sticky_intvl rkt) (rkt_partitioner rkt) (rkt_random_partitioner rkt) (rkt_strategy rkt)
    (rkt_linger_ms rkt).

(** Which partition a number stands for. *)
Inductive toppar_ref : Type :=
| RefPart (i : nat)
| RefUA.

(** [rd_kafka_toppar_get0]; [None] is NULL. *)
Definition rd_kafka_toppar_get (rkt : rd_kafka_topic) (partition : Z) (ua_on_miss : bool)
  : option (toppar_ref * rd_kafka_toppar) :=
  if (partition >=? 0) && (partition <? rkt_partition_cnt rkt) then
    match rkt_p rkt !! Z.to_nat partition with
    | Some rktp => Some (RefPart (Z.to_nat partition), rktp)
    | None => None
    end
  else if (partition =? RD_KAFKA_PARTITION_UA) || ua_on_miss then
    match rkt_ua rkt with Some rktp => Some (RefUA, rktp) | None => None end
  else None.

Definition rd_kafka_topic_partition_available (rkt : rd_kafka_topic) (partition : Z) : bool :=
  match rd_kafka_toppar_get rkt partition false with
  | Some (_, rktp) => rktp_broker rktp
  | None => false
  end.

Section Assign.

(** [rd_clock] when it is read, and the numbers two calls to [rand()] return. *)
Variables clock rand1 rand2 : Z.

Definition rd_kafka_msg_sticky_partition (rkt : rd_kafka_topic) (partition_cnt : Z)
  : rd_kafka_topic * Z :=
  let intvl :=
    if negb (rd_kafka_topic_partition_available rkt (rkt_sticky_partition rkt))
    then rd_interval_expedite (rkt_sticky_intvl rkt) 0 else rkt_sticky_intvl rkt in
  let '(intvl, r) := rd_interval intvl (i32 (rkt_linger_ms rkt * 1000)) clock in
  let part :=
    if r >? 0 then
      rd_kafka_msg_partitioner_random (rd_kafka_topic_partition_available rkt) rand1 rand2
        partition_cnt
    else rkt_sticky_partition rkt in
  (topic_set_sticky rkt part intvl, part).

Definition RD_KAFKA_RESP_ERR__UNKNOWN_TOPIC : Z := -188.
Definition RD_KAFKA_RESP_ERR__UNKNOWN_PARTITION : Z := -190.

(** The switch: the topic and the partition or the error. *)
Definition choose_partition (rkt : rd_kafka_topic) (rkm : rd_kafka_msg) (addr : Z)
  : rd_kafka_topic * (Z + Z) :=
  match rkt_state rkt with
  | RD_KAFKA_TOPIC_S_UNKNOWN => (rkt, inr RD_KAFKA_PARTITION_UA)
  | RD_KAFKA_TOPIC_S_NOTEXISTS => (rkt, inl RD_KAFKA_RESP_ERR__UNKNOWN_TOPIC)
  | RD_KAFKA_TOPIC_S_ERROR => (rkt, inl (rkt_err rkt))
  | RD_KAFKA_TOPIC_S_EXISTS =>
      if rkt_partition_cnt rkt =? 0 then (rkt, inr RD_KAFKA_PARTITION_UA)
      else
        let '(rkt, partition) :=
          if rkm_partition rkm =? RD_KAFKA_PARTITION_UA then
            if negb (rkt_random_partitioner rkt)
               && (match rkm_key rkm with None => true | Some _ => false end
                   || (rkm_key_len rkm =? 0)
                      && bool_decide (rkt_partitioner rkt = PartConsistentRandom))
            then rd_kafka_msg_sticky_partition rkt (rkt_partition_cnt rkt)
            else (rkt, run_partitioner (rd_kafka_topic_partition_available rkt) rand1 rand2 addr
                         (rkt_partitioner rkt) (rkm_key rkm) (rkt_partition_cnt rkt))
          else (rkt, rkm_partition rkm) in
        if partition >=? rkt_partition_cnt rkt
        then (rkt, inl RD_KAFKA_RESP_ERR__UNKNOWN_PARTITION)
        else (rkt, inr partition)
  end.

Definition toppar_count_enq (rktp : rd_kafka_toppar) : rd_kafka_toppar :=
  mk_toppar (rktp_partition rktp) (rktp_msgid rktp) (rktp_msgq rktp) (rktp_broker rktp)
    (rktp_msgq_wakeup_q rktp) (rktp_producer_enq_msgs rktp + 1).

(** The topic and the return value: 0 or the error.  A transactional producer then
    also registers the partition with the transaction, which is not modelled. *)
Definition rd_kafka_msg_partitioner (rkt : rd_kafka_topic) (rkm : rd_kafka_msg) (addr : Z)
  : rd_kafka_topic * Z :=
  let '(rkt, r) := choose_partition rkt rkm addr in
  match r with
  | inl err => (rkt, err)
  | inr partition =>
      match rd_kafka_toppar_get rkt partition false with
      | None =>
          (rkt, match rkt_state rkt with
                | RD_KAFKA_TOPIC_S_NOTEXISTS => RD_KAFKA_RESP_ERR__UNKNOWN_TOPIC
                | _ => RD_KAFKA_RESP_ERR__UNKNOWN_PARTITION
                end)
      | Some (r, rktp) =>
          let rkm := if rkm_partition rkm =? RD_KAFKA_PARTITION_UA
                     then msg_set_partition rkm partition else rkm in
          let '(rktp, _) :=
            rd_kafka_toppar_enq_msg (rkt_strategy rkt) (toppar_count_enq rktp) rkm clock in
          (match r with
           | RefPart i => topic_set_p rkt (<[i := rktp]> (rkt_p rkt))
           | RefUA => topic_set_ua rkt (Some rktp)
           end, 0)
      end
  end.

End Assign.

(** ** Batches *)

Record rd_kafka_pid := mk_pid { pid_id : Z; pid_epoch : Z }.

Definition rd_kafka_pid_valid (pid : rd_kafka_pid) : bool := negb (pid_id pid =? -1).
Definition rd_kafka_pid_eq (a b : rd_kafka_pid) : bool :=
  (pid_id a =? pid_id b) && (pid_epoch a =? pid_epoch b).
Definition rd_kafka_pid_cmp (a b : rd_kafka_pid) : Z :=
  if pid_id a <? pid_id b then -1 else if pid_id a >? pid_id b then 1
  else i32 (pid_epoch a - pid_epoch b).
Definition rd_kafka_pid_reset : rd_kafka_pid := mk_pid (-1) (-1).
Definition rd_kafka_pid_bump (old : rd_kafka_pid) : rd_kafka_pid :=
  mk_pid (pid_id old) (i16 (Z.land (pid_epoch old + 1) (2 ^ 15 - 1))).

(** The broker's sequence numbers are 31 bits of the 64-bit counter. *)
Definition rd_kafka_seq_wrap (seq : Z) : Z := i32 (Z.land seq (2 ^ 31 - 1)).

Record rd_kafka_msgbatch := mk_batch {
  rkmb_msgq : rd_kafka_msgq;
  rkmb_pid : rd_kafka_pid;
  rkmb_first_seq : Z;
  rkmb_first_msgid : Z;
  rkmb_epoch_base_msgid : Z;
  rkmb_last_msgid : Z }.

Definition rd_kafka_msgbatch_init (pid : rd_kafka_pid) (epoch_base_msgid : Z)
  : rd_kafka_msgbatch :=
  mk_batch (mk_msgq [] 0 0 no_wakeup) pid (-1) 0 epoch_base_msgid 0.

Definition rd_kafka_msgbatch_set_first_msg (b : rd_kafka_msgbatch) (rkm : rd_kafka_msg)
  : option rd_kafka_msgbatch :=
  let* _ := rd_assert (rkmb_first_msgid b =? 0) in
  if negb (rd_kafka_pid_valid (rkmb_pid b)) then Some b
  else Some (mk_batch (rkmb_msgq b) (rkmb_pid b)
               (rd_kafka_seq_wrap (i64 (rkm_msgid rkm - rkmb_epoch_base_msgid b)))
               (i64 (rkm_msgid rkm)) (rkmb_epoch_base_msgid b) (rkm_last_msgid rkm)).

(** ** Lemmas *)

(** The messages a topic holds, all partitions and the unassigned one. *)
Definition toppar_msgs (t : rd_kafka_toppar) : list rd_kafka_msg := rkmq_msgs (rktp_msgq t).
Definition topic_msgs (rkt : rd_kafka_topic) : list rd_kafka_msg :=
  concat (map toppar_msgs (rkt_p rkt)) ++
  match rkt_ua rkt with Some t => toppar_msgs t | None => [] end.

(** The partition array is indexed by partition number. *)
Definition topic_ok (rkt : rd_kafka_topic) : Prop :=
  (forall i t, rkt_p rkt !! i = Some t -> rktp_partition t = Z.of_nat i) /\
  (forall t, rkt_ua rkt = Some t -> rktp_partition t = RD_KAFKA_PARTITION_UA) /\
  (rkt_state rkt = RD_KAFKA_TOPIC_S_ERROR -> rkt_err rkt <> 0).

Lemma insert_sorted_perm {A} (cmp : A -> A -> Z) x l : TAILQ_INSERT_SORTED cmp x l ≡ₚ x :: l.
Proof.
  destruct l as [| a l]; [reflexivity |]. cbn [TAILQ_INSERT_SORTED]. revert a.
  induction l as [| b l IH]; intros a.
  - cbn. destruct (_ <? 0); [reflexivity | apply Permutation_swap].
  - change (insert_sorted_loop cmp x (a :: b :: l)) with
      (if cmp x a <? 0 then x :: a :: b :: l else a :: insert_sorted_loop cmp x (b :: l)).
    destruct (_ <? 0); [reflexivity |]. rewrite IH. apply Permutation_swap.
Qed.

(** The message as the partition stores it. *)
Definition stored (t : rd_kafka_toppar) (rkm : rd_kafka_msg) : rd_kafka_msg :=
  if (rkm_msgid rkm =? 0) && negb (rktp_partition t =? RD_KAFKA_PARTITION_UA)
  then msg_set_msgid rkm (u64 (rktp_msgid t + 1)) else rkm.

Lemma enq_msg_spec s t rkm now :
  let t' := fst (rd_kafka_toppar_enq_msg s t rkm now) in
  toppar_msgs t' ≡ₚ stored t rkm :: toppar_msgs t /\ rktp_partition t' = rktp_partition t /\
  toppar_msgs t' =
    (if (rktp_partition t =? RD_KAFKA_PARTITION_UA)
        || match s with RD_KAFKA_QUEUE_FIFO => true | RD_KAFKA_QUEUE_LIFO => false end
     then toppar_msgs t ++ [stored t rkm]
     else TAILQ_INSERT_SORTED (msg_order_cmp s) (stored t rkm) (toppar_msgs t)) /\
  rktp_msgid t' = (if (rkm_msgid rkm =? 0) && negb (rktp_partition t =? RD_KAFKA_PARTITION_UA)
                   then u64 (rktp_msgid t + 1) else rktp_msgid t).
Proof.
  assert (toppar_msgs (fst (rd_kafka_toppar_enq_msg s t rkm now)) =
    (if (rktp_partition t =? RD_KAFKA_PARTITION_UA)
        || match s with RD_KAFKA_QUEUE_FIFO => true | RD_KAFKA_QUEUE_LIFO => false end
     then toppar_msgs t ++ [stored t rkm]
     else TAILQ_INSERT_SORTED (msg_order_cmp s) (stored t rkm) (toppar_msgs t)) /\
    rktp_partition (fst (rd_kafka_toppar_enq_msg s t rkm now)) = rktp_partition t /\
    rktp_msgid (fst (rd_kafka_toppar_enq_msg s t rkm now)) =
      (if (rkm_msgid rkm =? 0) && negb (rktp_partition t =? RD_KAFKA_PARTITION_UA)
       then u64 (rktp_msgid t + 1) else rktp_msgid t)) as (E1 & E2 & E3).
  { unfold rd_kafka_toppar_enq_msg, stored, toppar_msgs, rd_kafka_msgq_enq, rd_kafka_msgq_enq_sorted0.
    destruct ((rkm_msgid rkm =? 0) && _); destruct (_ || _); cbn [fst rktp_msgq rktp_partition rktp_msgid];
      (destruct (_ && _ && _); cbn [rktp_msgq rkmq_msgs set_signalled]; auto). }
  cbv zeta. split; [| auto]. rewrite E1.
  destruct (_ || _); [symmetry; apply Permutation_cons_append | apply insert_sorted_perm].
Qed.

Lemma concat_insert (l : list rd_kafka_toppar) i t t' m :
  l !! i = Some t -> toppar_msgs t' ≡ₚ m :: toppar_msgs t ->
  concat (map toppar_msgs (<[i := t']> l)) ≡ₚ m :: concat (map toppar_msgs l).
Proof.
  intros Hi Hp. apply list_elem_of_split_length in Hi as (l1 & l2 & -> & ->).
  rewrite insert_app_r_alt, Nat.sub_diag by lia. cbn [list_insert insert].
  rewrite !map_app, !concat_app. cbn [map concat]. rewrite Hp. cbn [app].
  symmetry. apply Permutation_middle.
Qed.

Lemma toppar_get_spec rkt partition r t :
  topic_ok rkt -> rd_kafka_toppar_get rkt partition false = Some (r, t) ->
  rktp_partition t = partition /\
  match r with
  | RefPart i => rkt_p rkt !! i = Some t /\ partition = Z.of_nat i
  | RefUA => rkt_ua rkt = Some t
  end.
Proof.
  intros (Hp & Hu & _). unfold rd_kafka_toppar_get.
  destruct (_ && _) eqn:Eb.
  - apply andb_true_iff in Eb as [H1 H2].
    destruct (rkt_p rkt !! _) as [x |] eqn:Ex; [intros [= <- <-] | discriminate].
    rewrite (Hp _ _ Ex). split; [lia |]. split; [exact Ex | lia].
  - rewrite orb_false_r. destruct (Z.eqb_spec partition RD_KAFKA_PARTITION_UA) as [-> |]; [| discriminate].
    destruct (rkt_ua rkt) as [x |] eqn:Ex; [intros [= <- <-] | discriminate]. auto.
Qed.

(** All but the sticky partition. *)
Definition same_queues (a b : rd_kafka_topic) : Prop :=
  rkt_p a = rkt_p b /\ rkt_ua a = rkt_ua b /\ rkt_state a = rkt_state b /\
  rkt_err a = rkt_err b /\ rkt_strategy a = rkt_strategy b.

Lemma sticky_same clock r1 r2 rkt cnt :
  same_queues (fst (rd_kafka_msg_sticky_partition clock r1 r2 rkt cnt)) rkt.
Proof.
  unfold rd_kafka_msg_sticky_partition. destruct (rd_interval _ _ _). now repeat split.
Qed.

Lemma choose_partition_same clock r1 r2 rkt rkm addr :
  same_queues (fst (choose_partition clock r1 r2 rkt rkm addr)) rkt.
Proof.
  assert (same_queues rkt rkt) as Hr by now repeat split.
  unfold choose_partition. destruct (rkt_state rkt); try exact Hr.
  destruct (rkt_partition_cnt rkt =? 0); [exact Hr |].
  destruct (rkm_partition rkm =? _); [destruct (negb _ && _) |];
    try (destruct (_ >=? _); exact Hr).
  pose proof (sticky_same clock r1 r2 rkt (rkt_partition_cnt rkt)) as Hs.
  destruct (rd_kafka_msg_sticky_partition _ _ _ _ _) as [rkt' p]. destruct (p >=? _); exact Hs.
Qed.

(** The errors of the switch are not 0. *)
Lemma choose_partition_err clock r1 r2 rkt rkm addr err :
  (rkt_state rkt = RD_KAFKA_TOPIC_S_ERROR -> rkt_err rkt <> 0) ->
  snd (choose_partition clock r1 r2 rkt rkm addr) = inl err -> err <> 0.
Proof.
  intros Hok. unfold choose_partition.
  destruct (rkt_state rkt); cbn [snd]; try discriminate; try (intros [= <-]; [discriminate || auto]).
  destruct (rkt_partition_cnt rkt =? 0); [discriminate |].
  destruct (if rkm_partition rkm =? _ then _ else _) as [t p].
  destruct (p >=? _); cbn; [intros [= <-]; discriminate | discriminate].
Qed.

Lemma choose_partition_ok clock r1 r2 rkt rkm addr p :
  snd (choose_partition clock r1 r2 rkt rkm addr) = inr p ->
  p = RD_KAFKA_PARTITION_UA \/ rkm_partition rkm = RD_KAFKA_PARTITION_UA \/ p = rkm_partition rkm.
Proof.
  unfold choose_partition.
  destruct (rkt_state rkt); cbn [snd]; try discriminate; try (intros [= <-]; auto; fail).
  destruct (rkt_partition_cnt rkt =? 0); [intros [= <-]; auto |].
  destruct (Z.eqb_spec (rkm_partition rkm) RD_KAFKA_PARTITION_UA) as [E | E]; [auto |].
  destruct (_ >=? _); cbn; [discriminate | intros [= <-]; auto].
Qed.

Lemma stored_fields t rkm :
  rkm_partition (stored t rkm) = rkm_partition rkm /\ rkm_len (stored t rkm) = rkm_len rkm /\
  rkm_key (stored t rkm) = rkm_key rkm.
Proof. unfold stored. destruct (_ && _); auto. Qed.

Lemma topic_ok_same a b : same_queues a b -> topic_ok b -> topic_ok a.
Proof. intros (E1 & E2 & E3 & E4 & _). unfold topic_ok. now rewrite E1, E2, E3, E4. Qed.

(** ** Properties *)

(** Producing neither loses, duplicates nor misplaces a message.  On success
    the topic holds exactly one message more, the one produced, with its partition
    and id filled in, in the queue of the partition that its partition field names
    or in the unassigned one; on an error every queue is as before. *)
Lemma msg_partitioner_enqueues clock r1 r2 rkt rkm addr :
  topic_ok rkt ->
  let '(rkt', err) := rd_kafka_msg_partitioner clock r1 r2 rkt rkm addr in
  (err <> 0 -> rkt_p rkt' = rkt_p rkt /\ rkt_ua rkt' = rkt_ua rkt) /\
  (err = 0 -> exists m t',
     topic_msgs rkt' ≡ₚ m :: topic_msgs rkt /\ m ∈ toppar_msgs t' /\
     rkm_len m = rkm_len rkm /\ rkm_key m = rkm_key rkm /\
     ((exists i, rkt_p rkt' !! i = Some t' /\ rkm_partition m = Z.of_nat i) \/
      rkt_ua rkt' = Some t')).
Proof.
  intros Hok. unfold rd_kafka_msg_partitioner.
  pose proof (choose_partition_same clock r1 r2 rkt rkm addr) as Hsame.
  pose proof (choose_partition_err clock r1 r2 rkt rkm addr) as Herr.
  pose proof (choose_partition_ok clock r1 r2 rkt rkm addr) as Hch.
  destruct (choose_partition clock r1 r2 rkt rkm addr) as [rk [e | p]]; cbn [fst snd] in *.
  { specialize (Herr e (proj2 (proj2 Hok)) eq_refl). destruct Hsame as (? & ? & _).
    split; [auto | contradiction]. }
  pose proof (topic_ok_same _ _ Hsame Hok) as Hok'. destruct Hsame as (Ep & Eu & _).
  destruct (rd_kafka_toppar_get rk p false) as [[r t] |] eqn:Eg.
  2: { split; [auto | now destruct (rkt_state rk)]. }
  destruct (toppar_get_spec rk p r t Hok' Eg) as [Etp Hr].
  set (m := if rkm_partition rkm =? RD_KAFKA_PARTITION_UA then msg_set_partition rkm p else rkm).
  pose proof (enq_msg_spec (rkt_strategy rk) (toppar_count_enq t) m clock) as He. cbv zeta in He.
  destruct (rd_kafka_toppar_enq_msg _ _ _ _) as [t' wk]. cbn [fst] in He.
  destruct He as (Hp & Et' & _). cbn [toppar_count_enq] in Hp.
  split; [easy |]. intros _.
  destruct (stored_fields (toppar_count_enq t) m) as (F1 & F2 & F3).
  exists (stored (toppar_count_enq t) m), t'.
  assert (rkm_len m = rkm_len rkm /\ rkm_key m = rkm_key rkm) as [G1 G2]
    by (unfold m; destruct (_ =? _); auto).
  assert (stored (toppar_count_enq t) m ∈ toppar_msgs t') as Hin by (rewrite Hp; left).
  rewrite F2, F3, G1, G2. destruct r as [i |].
  - destruct Hr as [Hi Epi]. split; [| split; [exact Hin |]; split; [reflexivity |]; split; [reflexivity |]].
    + unfold topic_msgs, topic_set_p. cbn [rkt_p rkt_ua].
      rewrite (concat_insert _ i t t' _ Hi Hp), Ep, Eu. reflexivity.
    + left. exists i. cbn [topic_set_p rkt_p]. split.
      * apply list_lookup_insert_eq. now apply lookup_lt_Some in Hi.
      * rewrite F1. unfold m. destruct (Z.eqb_spec (rkm_partition rkm) RD_KAFKA_PARTITION_UA).
        -- exact Epi.
        -- destruct (Hch p eq_refl) as [-> | [? | ?]]; [unfold RD_KAFKA_PARTITION_UA in *; lia | easy | congruence].
  - split; [| split; [exact Hin |]; split; [reflexivity |]; split; [reflexivity | now right]].
    unfold topic_msgs, topic_set_ua. cbn [rkt_p rkt_ua]. rewrite <- Ep, <- Eu, Hr, Hp.
    symmetry. apply Permutation_middle.
Qed.

Definition demo_toppar (p : Z) : rd_kafka_toppar :=
  mk_toppar p 0 RD_KAFKA_MSGQ_INITIALIZER true false 0.
Definition demo_topic : rd_kafka_topic :=
  mk_topic RD_KAFKA_TOPIC_S_EXISTS 0 [demo_toppar 0; demo_toppar 1; demo_toppar 2]
    (Some (demo_toppar (-1))) 0 rd_interval_init PartMurmur2Random true RD_KAFKA_QUEUE_FIFO 10.
Definition demo_keyed : rd_kafka_msg :=
  mk_msg 3 (Some [107; 97; 102; 107; 97]) 5 RD_KAFKA_PARTITION_UA 0 RD_KAFKA_TIMESTAMP_CREATE_TIME 0
    RD_KAFKA_MSG_STATUS_NOT_PERSISTED 0 0 0 0 0 0 0
    (Some [1; 2; 3]) None.

Lemma msg_partitioner_enqueues_witness :
  exists rkt' m t', rd_kafka_msg_partitioner 50 1 2 demo_topic demo_keyed 0 = (rkt', 0) /\
    topic_msgs rkt' ≡ₚ m :: topic_msgs demo_topic /\ m ∈ toppar_msgs t' /\
    rkm_key m = Some [107; 97; 102; 107; 97].
Proof.
  assert (topic_ok demo_topic) as Hok.
  { split; [| split].
    - intros [| [| [| i]]] t H; cbn in H; try injection H as <-; try reflexivity. discriminate.
    - intros t [= <-]. reflexivity.
    - discriminate. }
  pose proof (msg_partitioner_enqueues 50 1 2 demo_topic demo_keyed 0 Hok) as H.
  destruct (rd_kafka_msg_partitioner 50 1 2 demo_topic demo_keyed 0) as [rkt' err] eqn:E.
  assert (err = 0) as -> by (vm_compute in E; now injection E).
  destruct H as [_ H]. destruct (H eq_refl) as (m & t' & H1 & H2 & _ & H3 & _).
  exists rkt', m, t'. auto.
Defined.

(** The messages of a partition: sorted by the topic's order, with distinct ids,
    none above the partition's counter. *)
Definition ids_ok (s : queuing_strategy) (t : rd_kafka_toppar) : Prop :=
  NoDup (map rkm_msgid (toppar_msgs t)) /\
  Forall (fun m => 1 <= rkm_msgid m <= rktp_msgid t) (toppar_msgs t) /\
  match s with
  | RD_KAFKA_QUEUE_FIFO => sorted rd_kafka_msg_cmp_msgid (toppar_msgs t)
  | RD_KAFKA_QUEUE_LIFO => sorted rd_kafka_msg_cmp_msgid_lifo (toppar_msgs t)
  end.

(** A partition hands out message ids in order.  Enqueuing a new message on a
    partition gives it the next id and keeps the queue sorted by the topic's
    queuing strategy, with distinct ids: at the tail for FIFO, which is enough as
    the new id is the greatest, and at its sorted position, the head, for LIFO. *)
Lemma toppar_enq_ids s t rkm now :
  ids_ok s t -> rkm_msgid rkm = 0 -> rktp_partition t <> RD_KAFKA_PARTITION_UA ->
  0 <= rktp_msgid t < 2 ^ 64 - 1 ->
  let t' := fst (rd_kafka_toppar_enq_msg s t rkm now) in
  ids_ok s t' /\ rktp_msgid t' = rktp_msgid t + 1 /\
  toppar_msgs t' = match s with
                   | RD_KAFKA_QUEUE_FIFO => toppar_msgs t ++ [msg_set_msgid rkm (rktp_msgid t + 1)]
                   | RD_KAFKA_QUEUE_LIFO => msg_set_msgid rkm (rktp_msgid t + 1) :: toppar_msgs t
                   end.
Proof.
  intros (Hnd & Hb & Hs) H0 Hua Hmax. cbv zeta.
  pose proof (enq_msg_spec s t rkm now) as (Hp & _ & Hl & Hid). unfold stored in *.
  rewrite H0 in *. replace (rktp_partition t =? RD_KAFKA_PARTITION_UA) with false in *
    by (symmetry; now apply Z.eqb_neq).
  rewrite (wrap_small 64) in * by lia. cbn [Z.eqb andb negb orb] in *.
  set (m := msg_set_msgid rkm (rktp_msgid t + 1)) in *.
  set (t' := fst (rd_kafka_toppar_enq_msg s t rkm now)) in *.
  assert (toppar_msgs t' = match s with
            | RD_KAFKA_QUEUE_FIFO => toppar_msgs t ++ [m]
            | RD_KAFKA_QUEUE_LIFO => m :: toppar_msgs t end) as El.
  { rewrite Hl. destruct s; [reflexivity |]. cbn [msg_order_cmp].
    destruct (toppar_msgs t) as [| a l]; [reflexivity |]. cbn [TAILQ_INSERT_SORTED insert_sorted_loop].
    apply Forall_cons_iff in Hb as [Ha _].
    rewrite (cmp_lt rd_kafka_msg_cmp_msgid_lifo m a). cbn [mo_key lifo_order m msg_set_msgid rkm_msgid].
    now ztest. }
  split; [| split; [exact Hid | exact El]]. split; [| split].
  - rewrite Hp. cbn [map]. constructor; [| exact Hnd].
    intros Hin. apply list_elem_of_In, in_map_iff in Hin as (x & Ex & Hx).
    rewrite Forall_forall in Hb. specialize (Hb x Hx). cbn in Ex, Hb. lia.
  - rewrite Hid, Hp. constructor; [cbn; lia |]. eapply Forall_impl; [| exact Hb]. cbn. lia.
  - rewrite El. destruct s.
    + apply sorted_app. split; [exact Hs |]. split; [repeat constructor |].
      eapply Forall_impl; [| exact Hb]. cbn. intros x Hx. repeat constructor. cbn. lia.
    + constructor; [exact Hs |]. eapply Forall_impl; [| exact Hb]. cbn. lia.
Qed.

Lemma toppar_enq_ids_witness :
  exists t', fst (rd_kafka_toppar_enq_msg RD_KAFKA_QUEUE_LIFO
      (fst (rd_kafka_toppar_enq_msg RD_KAFKA_QUEUE_LIFO (demo_toppar 1) demo_keyed 0)) demo_keyed 0) = t' /\
    map rkm_msgid (toppar_msgs t') = [2; 1] /\ ids_ok RD_KAFKA_QUEUE_LIFO t'.
Proof.
  eexists. split; [reflexivity |]. split; [vm_compute; reflexivity |].
  destruct (toppar_enq_ids RD_KAFKA_QUEUE_LIFO (demo_toppar 1) demo_keyed 0) as [H1 _];
    [repeat constructor | reflexivity | discriminate | vm_compute; split; congruence |].
  destruct (toppar_enq_ids RD_KAFKA_QUEUE_LIFO _ demo_keyed 0 H1) as [H2 _];
    [reflexivity | discriminate | vm_compute; split; congruence | exact H2].
Defined.

Lemma seq_wrap_mod seq : rd_kafka_seq_wrap seq = seq mod 2 ^ 31.
Proof.
  unfold rd_kafka_seq_wrap. change (2 ^ 31 - 1) with (Z.ones 31).
  rewrite Z.land_ones by lia. pose proof (Z.mod_pos_bound seq (2 ^ 31) ltac:(lia)).
  apply swrap_small; [lia |]. unfold in_i. lia.
Qed.

(** Sequence numbers go on from one batch to the next.  Of two batches of the
    same producer epoch, the second starting [n] messages after the first, the
    second's base sequence is the first's plus [n], modulo 2^31: the broker sees
    no gap where the 31-bit sequence wraps. *)
Lemma msgbatch_sequence pid base rkm1 rkm2 n b1 b2 :
  rd_kafka_pid_valid pid = true ->
  rkm_msgid rkm2 = rkm_msgid rkm1 + n ->
  rd_kafka_msgbatch_set_first_msg (rd_kafka_msgbatch_init pid base) rkm1 = Some b1 ->
  rd_kafka_msgbatch_set_first_msg (rd_kafka_msgbatch_init pid base) rkm2 = Some b2 ->
  rkmb_first_seq b2 = (rkmb_first_seq b1 + n) mod 2 ^ 31 /\
  0 <= rkmb_first_seq b1 < 2 ^ 31.
Proof.
  intros Hv Hn. unfold rd_kafka_msgbatch_set_first_msg, rd_kafka_msgbatch_init.
  cbn [rkmb_first_msgid rkmb_pid Z.eqb rd_assert rkmb_epoch_base_msgid]. rewrite Hv. cbn [negb].
  intros [= <-] [= <-]. cbn [rkmb_first_seq]. rewrite !seq_wrap_mod, Hn.
  destruct (swrap_cong 64 (rkm_msgid rkm1 - base) ltac:(lia)) as [k1 ->].
  destruct (swrap_cong 64 (rkm_msgid rkm1 + n - base) ltac:(lia)) as [k2 ->].
  split; [| now apply Z.mod_pos_bound].
  rewrite Zplus_mod_idemp_l.
  replace (rkm_msgid rkm1 + n - base + k2 * 2 ^ 64)
    with (rkm_msgid rkm1 + n - base + (k2 * 2 ^ 33) * 2 ^ 31) by lia.
  replace (rkm_msgid rkm1 - base + k1 * 2 ^ 64 + n)
    with (rkm_msgid rkm1 + n - base + (k1 * 2 ^ 33) * 2 ^ 31) by lia.
  now rewrite !Z_mod_plus_full.
Qed.

Lemma msgbatch_sequence_witness :
  exists b1 b2,
    rd_kafka_msgbatch_set_first_msg (rd_kafka_msgbatch_init (mk_pid 7 0) 0)
      (msg_set_msgid demo_keyed (2 ^ 31 - 1)) = Some b1 /\
    rd_kafka_msgbatch_set_first_msg (rd_kafka_msgbatch_init (mk_pid 7 0) 0)
      (msg_set_msgid demo_keyed (2 ^ 31 + 4)) = Some b2 /\
    rkmb_first_seq b1 = 2147483647 /\ rkmb_first_seq b2 = 4 /\
    rkmb_first_seq b2 = (rkmb_first_seq b1 + 5) mod 2 ^ 31.
Proof.
  do 2 eexists. split; [reflexivity |]. split; [reflexivity |].
  split; [vm_compute; reflexivity |]. split; [vm_compute; reflexivity |].
  apply (msgbatch_sequence (mk_pid 7 0) 0 (msg_set_msgid demo_keyed (2 ^ 31 - 1))
           (msg_set_msgid demo_keyed (2 ^ 31 + 4)) 5); reflexivity.
Defined.
