(* ===== verification/Sort.v ===== *)
(** * C strings, comparators and qsort()

    What the code uses of the C library: the order of [strcmp], and the contract
    of [qsort], of which the order of equal elements is no part. *)

From Stdlib Require Import String OrdersEx.
From stdpp Require Import strings sorting.
From S2P Require Import Prelude Msgq.

(** The sign of [strcmp(a, b)]: the order of the bytes as unsigned characters. *)
Definition strcmp (a b : string) : Z :=
  match String.compare a b with Lt => -1 | Eq => 0 | Gt => 1 end.

(** The cases of [strcmp], with its value. *)
Lemma strcmp_cases a b :
  strcmp a b = 0 /\ a = b \/
  strcmp a b = -1 /\ String_as_OT.lt a b \/
  strcmp a b = 1 /\ String_as_OT.lt b a.
Proof.
  unfold strcmp. change (a ?= b)%string with (String_as_OT.compare a b).
  destruct (String_as_OT.compare_spec a b); tauto.
Qed.

Lemma strcmp_eq a b : strcmp a b = 0 <-> a = b.
Proof.
  destruct (strcmp_cases a b) as [[-> E] | [[-> H] | [-> H]]]; split; try done;
    intros ->; destruct (StrictOrder_Irreflexive _ H).
Qed.

Lemma strcmp_lt a b : strcmp a b < 0 <-> String_as_OT.lt a b.
Proof.
  destruct (strcmp_cases a b) as [[-> E] | [[-> H] | [-> H]]]; split; try done.
  - intros H. rewrite E in H. destruct (StrictOrder_Irreflexive _ H).
  - intros H0. destruct (StrictOrder_Irreflexive _ (StrictOrder_Transitive _ _ _ H H0)).
Qed.

Lemma strcmp_opp a b : strcmp a b = - strcmp b a.
Proof.
  unfold strcmp. rewrite String.compare_antisym. now destruct (String.compare b a).
Qed.

(** ** Comparators *)

(** What C asks of a comparator: the sign turns around with the arguments, and
    not being above is transitive. *)
Class Comparator {A} (cmp : A -> A -> Z) : Prop := {
  cmp_flip : forall a b, cmp a b <= 0 <-> 0 <= cmp b a;
  cmp_trans : forall a b c, cmp a b <= 0 -> cmp b c <= 0 -> cmp a c <= 0 }.

#[export] Instance RD_CMP_comparator : Comparator RD_CMP.
Proof.
  split; unfold RD_CMP; intros *;
    repeat match goal with |- context [if ?c then _ else _] => destruct c eqn:? end; lia.
Qed.

#[export] Instance strcmp_comparator : Comparator strcmp.
Proof.
  split.
  - intros a b. rewrite (strcmp_opp a b). lia.
  - intros a b c H1 H2.
    destruct (Z.eq_dec (strcmp a b) 0) as [E | E]; [apply strcmp_eq in E as ->; exact H2 |].
    destruct (Z.eq_dec (strcmp b c) 0) as [E' | E']; [apply strcmp_eq in E' as <-; exact H1 |].
    assert (strcmp a c < 0); [| lia]. apply strcmp_lt.
    apply (StrictOrder_Transitive _ b); apply strcmp_lt; lia.
Qed.

(** ** qsort() *)

(** [cmp] is a comparator on the elements of a list. *)
Definition comparator_on {A} (cmp : A -> A -> Z) (l : list A) : Prop :=
  (forall a b, a ∈ l -> b ∈ l -> cmp a b <= 0 <-> 0 <= cmp b a) /\
  (forall a b c, a ∈ l -> b ∈ l -> c ∈ l -> cmp a b <= 0 -> cmp b c <= 0 -> cmp a c <= 0).

Lemma comparator_everywhere {A} (cmp : A -> A -> Z) l : Comparator cmp -> comparator_on cmp l.
Proof. intros [F T]. split; [intros; apply F | intros; eapply T; eauto]. Qed.

Lemma comparator_on_sub {A} (cmp : A -> A -> Z) l k :
  (forall x, x ∈ k -> x ∈ l) -> comparator_on cmp l -> comparator_on cmp k.
Proof. intros S [F T]. split; [intros; apply F; auto | intros a b c Ha Hb Hc; apply (T a b c); auto]. Qed.

(** Given one, [qsort] leaves the elements in its order.  What it does with equal
    elements, or with a function that is no comparator, is not said. *)
Class Qsort (qsort : forall A, (A -> A -> Z) -> list A -> list A) : Prop := {
  qsort_perm : forall A (cmp : A -> A -> Z) l, comparator_on cmp l -> qsort A cmp l ≡ₚ l;
  qsort_sorted : forall A (cmp : A -> A -> Z) l,
    comparator_on cmp l -> StronglySorted (fun a b => cmp a b <= 0) (qsort A cmp l) }.

#[local] Ltac elem_cons := rewrite ?elem_of_cons; tauto.

(** A sort that meets the contract. *)
Fixpoint isort_insert {A} (cmp : A -> A -> Z) (x : A) (l : list A) : list A :=
  match l with
  | [] => [x]
  | y :: l => if cmp x y <=? 0 then x :: y :: l else y :: isort_insert cmp x l
  end.

Definition isort (A : Type) (cmp : A -> A -> Z) (l : list A) : list A :=
  foldr (isort_insert cmp) [] l.

Lemma isort_insert_perm {A} (cmp : A -> A -> Z) x l : isort_insert cmp x l ≡ₚ x :: l.
Proof.
  induction l as [| y l IH]; cbn; [reflexivity |].
  destruct (cmp x y <=? 0); [reflexivity |]. rewrite IH. apply Permutation_swap.
Qed.

Lemma isort_perm {A} (cmp : A -> A -> Z) l : isort A cmp l ≡ₚ l.
Proof.
  induction l as [| x l IH]; [reflexivity |]. cbn. rewrite isort_insert_perm. now apply Permutation_skip.
Qed.

Lemma isort_insert_sorted {A} (cmp : A -> A -> Z) x l :
  comparator_on cmp (x :: l) -> StronglySorted (fun a b => cmp a b <= 0) l ->
  StronglySorted (fun a b => cmp a b <= 0) (isort_insert cmp x l).
Proof.
  intros Hc IH. induction IH as [| y k Hk IH Hy]; cbn; [repeat constructor |].
  destruct Hc as [F T]. destruct (Z.leb_spec (cmp x y) 0) as [H | H].
  - constructor; [now constructor |]. constructor; [exact H |].
    apply list.Forall_forall. intros z Hz. rewrite list.Forall_forall in Hy.
    apply (T x y z); [elem_cons.. | exact H | now apply Hy].
  - constructor.
    + apply IH. apply (comparator_on_sub _ (x :: y :: k)); [intros z; rewrite !elem_of_cons; tauto | now split].
    + rewrite isort_insert_perm. constructor; [| exact Hy].
      apply F; [elem_cons.. | lia].
Qed.

#[export] Instance isort_qsort : Qsort isort.
Proof.
  split; intros A cmp l Hc; [apply isort_perm |].
  induction l as [| x l IH]; [constructor |]. cbn.
  apply isort_insert_sorted.
  - apply (comparator_on_sub _ (x :: l)); [| exact Hc]. intros z Hz.
    fold (isort A cmp l) in Hz. rewrite isort_perm in Hz. exact Hz.
  - apply IH. apply (comparator_on_sub _ (x :: l)); [intros z; rewrite !elem_of_cons; tauto | exact Hc].
Qed.
