(* ===== verification/TpList.v ===== *)
(** * Topic partition lists (src/cbits/hs_rdkafka_partition.c)

    [rd_kafka_topic_partition_list_t]: a growable array of topic partitions with
    offsets, metadata and errors, each element possibly holding a reference to the
    client's partition object.  A pointer to an element is its index. *)

From Stdlib Require Import Ascii.
From stdpp Require Import gmap strings.
From S2P Require Import Prelude Msgq Sort.

(** ** Data *)

(** [rktpar_private] is the identity of the [rd_kafka_toppar_t] the element holds a
    reference to. *)
Record rd_kafka_topic_partition := mk_tp {
  rktpar_topic : string;
  rktpar_partition : Z;
  rktpar_offset : Z;
  rktpar_metadata : option bytes;
  rktpar_metadata_size : Z;
  rktpar_opaque : Z;
  rktpar_err : Z;
  rktpar_private : option nat }.

(** [elems] holds the [cnt] elements in use of the [size] allocated. *)
Record rd_kafka_topic_partition_list := mk_tpl {
  rktpl_elems : list rd_kafka_topic_partition;
  rktpl_size : Z }.

Definition rktpl_cnt (l : rd_kafka_topic_partition_list) : Z := zlen (rktpl_elems l).
Definition tpl_set_elems (l : rd_kafka_topic_partition_list) es := mk_tpl es (rktpl_size l).

Definition RD_KAFKA_OFFSET_INVALID : Z := -1001.
Definition RD_KAFKA_OFFSET_IS_LOGICAL (off : Z) : bool := off <? 0.
Definition RD_KAFKA_RESP_ERR_NO_ERROR : Z := 0.
Definition RD_KAFKA_RESP_ERR__UNKNOWN_PARTITION : Z := -190.

Definition tp_set_offset (t : rd_kafka_topic_partition) (offset : Z) : rd_kafka_topic_partition :=
  mk_tp (rktpar_topic t) (rktpar_partition t) offset (rktpar_metadata t)
    (rktpar_metadata_size t) (rktpar_opaque t) (rktpar_err t) (rktpar_private t).
Definition tp_set_err (t : rd_kafka_topic_partition) (err : Z) : rd_kafka_topic_partition :=
  mk_tp (rktpar_topic t) (rktpar_partition t) (rktpar_offset t) (rktpar_metadata t)
    (rktpar_metadata_size t) (rktpar_opaque t) err (rktpar_private t).

(** ** References to partition objects *)

(** The reference count of every partition object. *)
Abbreviation toppar_refs := (gmap nat Z).
Definition refcnt (refs : toppar_refs) (p : nat) : Z := default 0 (refs !! p).

Definition rd_kafka_toppar_keep (refs : toppar_refs) (p : nat) : toppar_refs :=
  <[p := i32 (refcnt refs p + 1)]> refs.

(** [rd_refcnt_sub] asserts that the count stays above zero. *)
Definition rd_kafka_toppar_destroy (refs : toppar_refs) (p : nat) : option toppar_refs :=
  let r := i32 (refcnt refs p - 1) in
  let* _ := rd_assert (0 <=? r) in
  Some (<[p := r]> refs).

Definition rd_kafka_topic_partition_destroy0 (refs : toppar_refs) (t : rd_kafka_topic_partition)
  : option toppar_refs :=
  match rktpar_private t with Some p => rd_kafka_toppar_destroy refs p | None => Some refs end.

(** ** Construction and destruction *)

Definition rd_kafka_topic_partition_list_grow (l : rd_kafka_topic_partition_list) (add_size : Z)
  : rd_kafka_topic_partition_list :=
  let add_size := if add_size <? rktpl_size l then RD_MAX (rktpl_size l) 32 else add_size in
  mk_tpl (rktpl_elems l) (i32 (rktpl_size l + add_size)).

Definition rd_kafka_topic_partition_list_init (size : Z) : rd_kafka_topic_partition_list :=
  let l := mk_tpl [] 0 in
  if size >? 0 then rd_kafka_topic_partition_list_grow l size else l.

Definition rd_kafka_topic_partition_list_new (size : Z) : rd_kafka_topic_partition_list :=
  let l := mk_tpl [] 0 in
  if size >? 0 then rd_kafka_topic_partition_list_grow l size else l.

Definition rd_kafka_topic_partition_new (topic : string) (partition : Z)
  : rd_kafka_topic_partition := mk_tp topic partition 0 None 0 0 0 None.

Definition rd_kafka_topic_partition_copy (src : rd_kafka_topic_partition)
  : rd_kafka_topic_partition :=
  rd_kafka_topic_partition_new (rktpar_topic src) (rktpar_partition src).

(** The loop of [rd_kafka_topic_partition_list_clear] and [_destroy]. *)
Fixpoint destroy_elems (refs : toppar_refs) (es : list rd_kafka_topic_partition)
  : option toppar_refs :=
  match es with
  | [] => Some refs
  | e :: es => let* refs := rd_kafka_topic_partition_destroy0 refs e in destroy_elems refs es
  end.

Definition rd_kafka_topic_partition_list_clear (refs : toppar_refs)
  (l : rd_kafka_topic_partition_list) : option (toppar_refs * rd_kafka_topic_partition_list) :=
  let* refs := destroy_elems refs (rktpl_elems l) in
  Some (refs, tpl_set_elems l []).

Definition rd_kafka_topic_partition_list_destroy (refs : toppar_refs)
  (l : rd_kafka_topic_partition_list) : option toppar_refs :=
  destroy_elems refs (rktpl_elems l).

(** ** Adding *)

(** Also returns the index of the new element. *)
Definition rd_kafka_topic_partition_list_add0 (refs : toppar_refs)
  (l : rd_kafka_topic_partition_list) (topic : string) (partition : Z) (private : option nat)
  : option (toppar_refs * rd_kafka_topic_partition_list * nat) :=
  let l := if rktpl_cnt l =? rktpl_size l then rd_kafka_topic_partition_list_grow l 1 else l in
  let* _ := rd_assert (rktpl_cnt l <? rktpl_size l) in
  let rktpar := mk_tp topic partition RD_KAFKA_OFFSET_INVALID None 0 0 0 private in
  let refs := match private with Some p => rd_kafka_toppar_keep refs p | None => refs end in
  Some (refs, tpl_set_elems l (rktpl_elems l ++ [rktpar]), length (rktpl_elems l)).

Definition rd_kafka_topic_partition_list_add (l : rd_kafka_topic_partition_list)
  (topic : string) (partition : Z) : option (rd_kafka_topic_partition_list * nat) :=
  let* (_, l, i) := rd_kafka_topic_partition_list_add0 ∅ l topic partition None in
  Some (l, i).

Fixpoint add_range_loop (n : nat) (l : rd_kafka_topic_partition_list) (topic : string)
  (start stop : Z) : option rd_kafka_topic_partition_list :=
  match n with
  | O => None
  | S n =>
      if start <=? stop then
        let* (l, _) := rd_kafka_topic_partition_list_add l topic start in
        add_range_loop n l topic (i32 (start + 1)) stop
      else Some l
  end.

Definition rd_kafka_topic_partition_list_add_range (l : rd_kafka_topic_partition_list)
  (topic : string) (start stop : Z) : option rd_kafka_topic_partition_list :=
  add_range_loop (S (Z.to_nat (stop + 1 - start))) l topic start stop.

(** ** Copying *)

(** [rd_malloc] and [memcpy] of [n] bytes. *)
Definition memdup (md : option bytes) (n : Z) : option bytes :=
  let* bs := md in
  if n <=? zlen bs then Some (ztake n bs) else None.

Definition rd_kafka_topic_partition_update (dst src : rd_kafka_topic_partition)
  : option rd_kafka_topic_partition :=
  let upd md size :=
    mk_tp (rktpar_topic dst) (rktpar_partition dst) (rktpar_offset src) md size
      (rktpar_opaque src) (rktpar_err src) (rktpar_private dst) in
  if rktpar_metadata_size src >? 0 then
    let* bs := memdup (rktpar_metadata src) (rktpar_metadata_size src) in
    Some (upd (Some bs) (rktpar_metadata_size src))
  else Some (upd (rktpar_metadata dst) (rktpar_metadata_size dst)).

Definition rd_kafka_topic_partition_list_add_copy (refs : toppar_refs)
  (l : rd_kafka_topic_partition_list) (rktpar : rd_kafka_topic_partition)
  : option (toppar_refs * rd_kafka_topic_partition_list) :=
  let* (refs, l, i) := rd_kafka_topic_partition_list_add0 refs l (rktpar_topic rktpar)
                         (rktpar_partition rktpar) (rktpar_private rktpar) in
  let* dst := rktpl_elems l !! i in
  let* dst := rd_kafka_topic_partition_update dst rktpar in
  Some (refs, tpl_set_elems l (<[i := dst]> (rktpl_elems l))).

(** The loop of [_list_copy] and [_list_add_list]. *)
Fixpoint add_copies (refs : toppar_refs) (dst : rd_kafka_topic_partition_list)
  (es : list rd_kafka_topic_partition)
  : option (toppar_refs * rd_kafka_topic_partition_list) :=
  match es with
  | [] => Some (refs, dst)
  | e :: es =>
      let* (refs, dst) := rd_kafka_topic_partition_list_add_copy refs dst e in
      add_copies refs dst es
  end.

Definition rd_kafka_topic_partition_list_copy (refs : toppar_refs)
  (src : rd_kafka_topic_partition_list)
  : option (toppar_refs * rd_kafka_topic_partition_list) :=
  add_copies refs (rd_kafka_topic_partition_list_new (rktpl_size src)) (rktpl_elems src).

(** [dst] and [src] are different lists. *)
Definition rd_kafka_topic_partition_list_add_list (refs : toppar_refs)
  (dst src : rd_kafka_topic_partition_list)
  : option (toppar_refs * rd_kafka_topic_partition_list) :=
  if rktpl_cnt src =? 0 then Some (refs, dst)
  else
    let dst := if rktpl_size dst <? i32 (rktpl_cnt dst + rktpl_cnt src)
               then rd_kafka_topic_partition_list_grow dst (rktpl_cnt src) else dst in
    add_copies refs dst (rktpl_elems src).

(** [match] is the caller's. *)
Fixpoint match_loop (mtch : rd_kafka_topic_partition -> bool) (refs : toppar_refs)
  (newlist : rd_kafka_topic_partition_list) (es : list rd_kafka_topic_partition)
  : option (toppar_refs * rd_kafka_topic_partition_list) :=
  match es with
  | [] => Some (refs, newlist)
  | e :: es =>
      if negb (mtch e) then match_loop mtch refs newlist es
      else
        let* (refs, newlist) := rd_kafka_topic_partition_list_add_copy refs newlist e in
        match_loop mtch refs newlist es
  end.

Definition rd_kafka_topic_partition_list_match (mtch : rd_kafka_topic_partition -> bool)
  (refs : toppar_refs) (l : rd_kafka_topic_partition_list)
  : option (toppar_refs * rd_kafka_topic_partition_list) :=
  match_loop mtch refs (rd_kafka_topic_partition_list_new 0) (rktpl_elems l).

(** ** Comparing and finding *)

Definition rd_kafka_topic_partition_cmp (a b : rd_kafka_topic_partition) : Z :=
  let r := strcmp (rktpar_topic a) (rktpar_topic b) in
  if negb (r =? 0) then r else RD_CMP (rktpar_partition a) (rktpar_partition b).

Definition rd_kafka_topic_partition_cmp_topic (a b : rd_kafka_topic_partition) : Z :=
  strcmp (rktpar_topic a) (rktpar_topic b).

Definition rd_kafka_topic_partition_cmp_opaque := rd_kafka_topic_partition_cmp.

(** [str[i]] is a signed char. *)
Fixpoint rd_string_hash_loop (hash : Z) (str : string) : Z :=
  match str with
  | EmptyString => hash
  | String c str =>
      rd_string_hash_loop
        (u32 (u32 (Z.shiftl hash 5) + hash + i8 (Z.of_N (Ascii.N_of_ascii c)))) str
  end.
Definition rd_string_hash (str : string) : Z := rd_string_hash_loop 5381 str.

Definition rd_kafka_topic_partition_hash (a : rd_kafka_topic_partition) : Z :=
  let r := i32 (31 * 17 + rktpar_partition a) in
  u32 (i32 (31 * r) + rd_string_hash (rktpar_topic a)).

Fixpoint list_find0_loop (cmp : rd_kafka_topic_partition -> rd_kafka_topic_partition -> Z)
  (skel : rd_kafka_topic_partition) (i : Z) (es : list rd_kafka_topic_partition) : Z :=
  match es with
  | [] => -1
  | e :: es => if cmp skel e =? 0 then i else list_find0_loop cmp skel (i + 1) es
  end.

Definition rd_kafka_topic_partition_list_find0 (l : rd_kafka_topic_partition_list)
  (topic : string) (partition : Z)
  (cmp : rd_kafka_topic_partition -> rd_kafka_topic_partition -> Z) : Z :=
  list_find0_loop cmp (mk_tp topic partition 0 None 0 0 0 None) 0 (rktpl_elems l).

(** [None] is NULL. *)
Definition rd_kafka_topic_partition_list_find (l : rd_kafka_topic_partition_list)
  (topic : string) (partition : Z) : option nat :=
  let i := rd_kafka_topic_partition_list_find0 l topic partition rd_kafka_topic_partition_cmp in
  if i =? -1 then None else Some (Z.to_nat i).

Definition rd_kafka_topic_partition_list_find_idx (l : rd_kafka_topic_partition_list)
  (topic : string) (partition : Z) : Z :=
  rd_kafka_topic_partition_list_find0 l topic partition rd_kafka_topic_partition_cmp.

Definition rd_kafka_topic_partition_list_find_topic (l : rd_kafka_topic_partition_list)
  (topic : string) : option nat :=
  let i := rd_kafka_topic_partition_list_find0 l topic RD_KAFKA_PARTITION_UA
             rd_kafka_topic_partition_cmp_topic in
  if i =? -1 then None else Some (Z.to_nat i).

Definition rd_kafka_topic_partition_list_upsert (l : rd_kafka_topic_partition_list)
  (topic : string) (partition : Z) : option (rd_kafka_topic_partition_list * nat) :=
  match rd_kafka_topic_partition_list_find l topic partition with
  | Some i => Some (l, i)
  | None => rd_kafka_topic_partition_list_add l topic partition
  end.

(** Each element of [a] is looked for in [b]. *)
Definition rd_kafka_topic_partition_list_cmp (a b : rd_kafka_topic_partition_list)
  (cmp : rd_kafka_topic_partition -> rd_kafka_topic_partition -> Z) : Z :=
  let r := i32 (rktpl_cnt a - rktpl_cnt b) in
  if negb (r =? 0) || (rktpl_cnt a =? 0) then r
  else if forallb (fun e => existsb (fun e' => cmp e e' =? 0) (rktpl_elems b)) (rktpl_elems a)
  then 0 else 1.

(** ** Removing *)

Definition rd_kafka_topic_partition_list_del_by_idx (refs : toppar_refs)
  (l : rd_kafka_topic_partition_list) (idx : Z)
  : option (toppar_refs * rd_kafka_topic_partition_list * Z) :=
  if (idx <? 0) || (idx >=? rktpl_cnt l) then Some (refs, l, 0)
  else
    let* e := rktpl_elems l !! Z.to_nat idx in
    let* refs := rd_kafka_topic_partition_destroy0 refs e in
    Some (refs, tpl_set_elems l (ztake idx (rktpl_elems l) ++ zdrop (idx + 1) (rktpl_elems l)), 1).

Definition rd_kafka_topic_partition_list_del (refs : toppar_refs)
  (l : rd_kafka_topic_partition_list) (topic : string) (partition : Z)
  : option (toppar_refs * rd_kafka_topic_partition_list * Z) :=
  let i := rd_kafka_topic_partition_list_find0 l topic partition rd_kafka_topic_partition_cmp in
  if i =? -1 then Some (refs, l, 0) else rd_kafka_topic_partition_list_del_by_idx refs l i.

(** ** Offsets, errors, metadata *)

Definition rd_kafka_topic_partition_list_set_offset (l : rd_kafka_topic_partition_list)
  (topic : string) (partition offset : Z) : rd_kafka_topic_partition_list * Z :=
  match rd_kafka_topic_partition_list_find l topic partition with
  | None => (l, RD_KAFKA_RESP_ERR__UNKNOWN_PARTITION)
  | Some i =>
      (tpl_set_elems l (alter (fun t => tp_set_offset t offset) i (rktpl_elems l)),
       RD_KAFKA_RESP_ERR_NO_ERROR)
  end.

Definition rd_kafka_topic_partition_list_reset_offsets (l : rd_kafka_topic_partition_list)
  (offset : Z) : rd_kafka_topic_partition_list :=
  tpl_set_elems l (map (fun t => tp_set_offset t offset) (rktpl_elems l)).

(** The stored and the committed offset of a partition object. *)
Definition toppar_offsets : Type := nat -> Z * Z.

Definition set_offsets_step (tps : toppar_offsets) (from_rktp : bool) (def_value : Z)
  (t : rd_kafka_topic_partition) : option rd_kafka_topic_partition :=
  if from_rktp then
    let* p := rktpar_private t in
    let '(stored, committed) := tps p in
    Some (tp_set_offset t (if stored >? committed then stored else RD_KAFKA_OFFSET_INVALID))
  else
    Some (if RD_KAFKA_OFFSET_IS_LOGICAL (rktpar_offset t) then tp_set_offset t def_value else t).

Fixpoint set_offsets_loop (tps : toppar_offsets) (from_rktp : bool) (def_value : Z)
  (es : list rd_kafka_topic_partition) (valid_cnt : Z)
  : option (list rd_kafka_topic_partition * Z) :=
  match es with
  | [] => Some ([], valid_cnt)
  | e :: es =>
      let* e := set_offsets_step tps from_rktp def_value e in
      let valid_cnt := if negb (RD_KAFKA_OFFSET_IS_LOGICAL (rktpar_offset e))
                       then valid_cnt + 1 else valid_cnt in
      let* (es, valid_cnt) := set_offsets_loop tps from_rktp def_value es valid_cnt in
      Some (e :: es, valid_cnt)
  end.

Definition rd_kafka_topic_partition_list_set_offsets (tps : toppar_offsets)
  (l : rd_kafka_topic_partition_list) (from_rktp : bool) (def_value : Z)
  : option (rd_kafka_topic_partition_list * Z) :=
  let* (es, valid_cnt) := set_offsets_loop tps from_rktp def_value (rktpl_elems l) 0 in
  Some (tpl_set_elems l es, valid_cnt).

Definition rd_kafka_topic_partition_list_count_abs_offsets (l : rd_kafka_topic_partition_list)
  : Z :=
  foldl (fun valid_cnt e => if negb (RD_KAFKA_OFFSET_IS_LOGICAL (rktpar_offset e))
                            then valid_cnt + 1 else valid_cnt) 0 (rktpl_elems l).

Fixpoint list_update_loop (src : rd_kafka_topic_partition_list)
  (es : list rd_kafka_topic_partition) : option (list rd_kafka_topic_partition) :=
  match es with
  | [] => Some []
  | d :: es =>
      let* d :=
        match rd_kafka_topic_partition_list_find src (rktpar_topic d) (rktpar_partition d) with
        | None => Some d
        | Some i =>
            let* s := rktpl_elems src !! i in
            let '(md, size) := match rktpar_metadata d with
                               | Some _ => (None, 0)
                               | None => (None, rktpar_metadata_size d)
                               end in
            let* (md, size) :=
              if rktpar_metadata_size s >? 0 then
                let* bs := memdup (rktpar_metadata s) (rktpar_metadata_size s) in
                Some (Some bs, rktpar_metadata_size s)
              else Some (md, size) in
            Some (mk_tp (rktpar_topic d) (rktpar_partition d) (rktpar_offset s) md size
                    (rktpar_opaque d) (rktpar_err s) (rktpar_private d))
        end in
      let* es := list_update_loop src es in
      Some (d :: es)
  end.

Definition rd_kafka_topic_partition_list_update (dst src : rd_kafka_topic_partition_list)
  : option rd_kafka_topic_partition_list :=
  let* es := list_update_loop src (rktpl_elems dst) in
  Some (tpl_set_elems dst es).

Definition rd_kafka_topic_partition_list_set_err (l : rd_kafka_topic_partition_list) (err : Z)
  : rd_kafka_topic_partition_list :=
  tpl_set_elems l (map (fun t => tp_set_err t err) (rktpl_elems l)).

Fixpoint get_err_loop (es : list rd_kafka_topic_partition) : Z :=
  match es with
  | [] => RD_KAFKA_RESP_ERR_NO_ERROR
  | e :: es => if negb (rktpar_err e =? 0) then rktpar_err e else get_err_loop es
  end.
Definition rd_kafka_topic_partition_list_get_err (l : rd_kafka_topic_partition_list) : Z :=
  get_err_loop (rktpl_elems l).

(** [cb] is the caller's. *)
Definition rd_kafka_topic_partition_list_sum (l : rd_kafka_topic_partition_list)
  (cb : rd_kafka_topic_partition -> Z) : Z :=
  foldl (fun sum e => u64 (sum + cb e)) 0 (rktpl_elems l).

(** ** Subscriptions *)

(** [*topic == '^']. *)
Definition is_regex (topic : string) : bool :=
  match topic with String c _ => Ascii.eqb c "^"%char | EmptyString => false end.

Definition rd_kafka_topic_partition_list_regex_cnt (l : rd_kafka_topic_partition_list) : Z :=
  foldl (fun cnt e => cnt + (if is_regex (rktpar_topic e) then 1 else 0)) 0 (rktpl_elems l).

(** [rd_regex_match] is the bundled regular expression library: 1 for a match, 0
    for none, -1 for an invalid pattern.  Returns also what [matched_by_regex]
    points to afterwards, from what it pointed to. *)
Definition rd_kafka_topic_partition_match (rd_regex_match : string -> string -> Z)
  (rktpar : rd_kafka_topic_partition) (topic : string) (matched_by_regex : Z) : Z * Z :=
  if is_regex (rktpar_topic rktpar) then
    let ret := rd_regex_match (rktpar_topic rktpar) topic in
    if ret =? -1 then (0, matched_by_regex)
    else (ret, if negb (ret =? 0) then 1 else matched_by_regex)
  else if strcmp (rktpar_topic rktpar) topic =? 0 then (1, 0)
  else (0, matched_by_regex).

(** ** Sorting *)

Section Sorting.
Context (qsort : forall A, (A -> A -> Z) -> list A -> list A).

(** [cmp] is NULL or a comparator with its opaque argument. *)
Definition rd_kafka_topic_partition_list_sort (l : rd_kafka_topic_partition_list)
  (cmp : option (rd_kafka_topic_partition -> rd_kafka_topic_partition -> Z))
  : rd_kafka_topic_partition_list :=
  tpl_set_elems l
    (qsort _ (default rd_kafka_topic_partition_cmp_opaque cmp) (rktpl_elems l)).

Definition rd_kafka_topic_partition_list_sort_by_topic (l : rd_kafka_topic_partition_list)
  : rd_kafka_topic_partition_list :=
  rd_kafka_topic_partition_list_sort l (Some rd_kafka_topic_partition_cmp_opaque).

Fixpoint has_duplicates_loop (ignore_partition : bool) (p1 : rd_kafka_topic_partition)
  (es : list rd_kafka_topic_partition) : bool :=
  match es with
  | [] => false
  | p2 :: es =>
      if ((rktpar_partition p1 =? rktpar_partition p2) || ignore_partition)
         && (strcmp (rktpar_topic p1) (rktpar_topic p2) =? 0) then true
      else has_duplicates_loop ignore_partition p2 es
  end.

(** The list, sorted, and the answer. *)
Definition rd_kafka_topic_partition_list_has_duplicates (l : rd_kafka_topic_partition_list)
  (ignore_partition : bool) : rd_kafka_topic_partition_list * bool :=
  if rktpl_cnt l <=? 1 then (l, false)
  else
    let l := rd_kafka_topic_partition_list_sort_by_topic l in
    (l, match rktpl_elems l with
        | [] => false
        | p1 :: es => has_duplicates_loop ignore_partition p1 es
        end).
End Sorting.
