(* ===== verification/TpListFacts.v ===== *)
(** * Topic partition lists are finite maps

    The lemmas on [TpList]: the keys and the comparator, the room
    of a list, the references it owns, and what its operations mean for the finite
    map from topic and partition to element that a list without duplicates is. *)

From stdpp Require Import gmap strings sorting.
From S2P Require Import Prelude Msgq Sort TpList.

(** ** Keys *)

Definition tp_key (t : rd_kafka_topic_partition) : string * Z :=
  (rktpar_topic t, rktpar_partition t).

Lemma tp_cmp_eq a b : rd_kafka_topic_partition_cmp a b = 0 <-> tp_key a = tp_key b.
Proof.
  unfold rd_kafka_topic_partition_cmp, tp_key.
  destruct (Z.eqb_spec (strcmp (rktpar_topic a) (rktpar_topic b)) 0) as [E | E]; cbn.
  - apply strcmp_eq in E as ->. unfold RD_CMP.
    repeat case_match; zbool; split; intros; simplify_eq; try lia; f_equal; lia.
  - split; [done |]. intros [= E' _]. apply strcmp_eq in E'. done.
Qed.

Lemma strcmp_refl a : strcmp a a = 0.
Proof. now apply strcmp_eq. Qed.

(** The sign of the comparison of two lexicographically ordered pairs. *)
#[export] Instance tp_cmp_comparator : Comparator rd_kafka_topic_partition_cmp.
Proof.
  assert (H : forall a b, rd_kafka_topic_partition_cmp a b <= 0 <->
    strcmp (rktpar_topic a) (rktpar_topic b) < 0 \/
    rktpar_topic a = rktpar_topic b /\ rktpar_partition a <= rktpar_partition b).
  { intros a b. unfold rd_kafka_topic_partition_cmp, RD_CMP.
    destruct (Z.eqb_spec (strcmp (rktpar_topic a) (rktpar_topic b)) 0) as [E | E]; cbn.
    - rewrite E. apply strcmp_eq in E. repeat case_match; zbool; intuition lia.
    - rewrite <- strcmp_eq. intuition lia. }
  split.
  - intros a b. rewrite H.
    transitivity (~ rd_kafka_topic_partition_cmp b a < 0); [| lia].
    unfold rd_kafka_topic_partition_cmp, RD_CMP.
    rewrite <- strcmp_eq, (strcmp_opp (rktpar_topic a)).
    destruct (Z.eqb_spec (strcmp (rktpar_topic b) (rktpar_topic a)) 0) as [E | E]; cbn;
      repeat case_match; zbool; lia.
  - intros a b c. rewrite !H. intros [Hab | [Eab Hab]] [Hbc | [Ebc Hbc]].
    + left. rewrite strcmp_lt in *. etransitivity; eassumption.
    + left. now rewrite <- Ebc.
    + left. now rewrite Eab.
    + right. split; [congruence | lia].
Qed.

(** ** Finding *)

Lemma list_find0_loop_spec cmp skel es i :
  (list_find0_loop cmp skel i es = -1 /\ Forall (fun e => cmp skel e <> 0) es) \/
  exists k e, list_find0_loop cmp skel i es = i + Z.of_nat k /\ es !! k = Some e /\
    cmp skel e = 0 /\ Forall (fun e => cmp skel e <> 0) (take k es).
Proof.
  revert i. induction es as [| e es IH]; intros i; cbn; [left; split; [done | constructor] |].
  destruct (Z.eqb_spec (cmp skel e) 0) as [E | E].
  - right. exists 0%nat, e. cbn. conj.
  - destruct (IH (i + 1)) as [[-> H] | (k & e' & -> & Hk & H0 & H)].
    + left. split; [done | now constructor].
    + right. exists (S k), e'. cbn. conj. now constructor.
Qed.

Lemma list_find_None l t p :
  rd_kafka_topic_partition_list_find l t p = None <-> (t, p) ∉ map tp_key (rktpl_elems l).
Proof.
  unfold rd_kafka_topic_partition_list_find, rd_kafka_topic_partition_list_find0.
  destruct (list_find0_loop_spec rd_kafka_topic_partition_cmp
              (mk_tp t p 0 None 0 0 0 None) (rktpl_elems l) 0)
    as [[-> H] | (k & e & -> & Hk & H0 & H)].
  - split; [intros _ Hin | done]. apply list_elem_of_fmap in Hin as (e & E & Hin).
    rewrite list.Forall_forall in H. apply (H e Hin). now apply tp_cmp_eq.
  - ztest. split; [done |]. intros Hn. destruct Hn. apply tp_cmp_eq in H0.
    change (t, p) with (tp_key (mk_tp t p 0 None 0 0 0 None)). rewrite H0.
    apply list_elem_of_fmap. exists e. split; [done |]. now apply list_elem_of_lookup_2 in Hk.
Qed.

Lemma list_find_Some l t p i :
  rd_kafka_topic_partition_list_find l t p = Some i ->
  exists e, rktpl_elems l !! i = Some e /\ tp_key e = (t, p).
Proof.
  unfold rd_kafka_topic_partition_list_find, rd_kafka_topic_partition_list_find0.
  destruct (list_find0_loop_spec rd_kafka_topic_partition_cmp
              (mk_tp t p 0 None 0 0 0 None) (rktpl_elems l) 0)
    as [[-> H] | (k & e & -> & Hk & H0 & H)]; [done |].
  ztest. intros [= <-]. rewrite Z.add_0_l, Nat2Z.id. exists e. split; [done |].
  now apply tp_cmp_eq in H0.
Qed.

(** ** The map of a list *)

Abbreviation tp_map := (gmap (string * Z) rd_kafka_topic_partition).

Definition elems_map (es : list rd_kafka_topic_partition) : tp_map :=
  list_to_map (map (fun e => (tp_key e, e)) es).
#[local] Arguments elems_map : simpl never.

Definition keys_distinct (l : rd_kafka_topic_partition_list) : Prop :=
  NoDup (map tp_key (rktpl_elems l)).

Lemma elems_fst es : (map (fun e => (tp_key e, e)) es).*1 = map tp_key es.
Proof. induction es; cbn; [done | now f_equal]. Qed.

Lemma elems_map_None es k : elems_map es !! k = None <-> k ∉ map tp_key es.
Proof. unfold elems_map. rewrite <- elems_fst. symmetry. apply not_elem_of_list_to_map. Qed.

Lemma elems_map_lookup es i e :
  NoDup (map tp_key es) -> es !! i = Some e -> elems_map es !! tp_key e = Some e.
Proof.
  intros Hd Hi. apply elem_of_list_to_map_1; [now rewrite elems_fst |].
  apply list_elem_of_fmap. exists e. split; [done |]. now apply list_elem_of_lookup_2 in Hi.
Qed.

(** A lookup in the map is a search of the list. *)
Lemma list_find_map l t p :
  keys_distinct l ->
  elems_map (rktpl_elems l) !! (t, p)
  = (i ← rd_kafka_topic_partition_list_find l t p; rktpl_elems l !! i).
Proof.
  intros Hd. destruct (rd_kafka_topic_partition_list_find l t p) as [i |] eqn:E; cbn.
  - apply list_find_Some in E as (e & He & <-). rewrite He. now apply elems_map_lookup with i.
  - now apply elems_map_None, list_find_None.
Qed.

(** Replacing an element keeping its key. *)
Lemma keys_insert es i e e' :
  es !! i = Some e -> tp_key e' = tp_key e -> map tp_key (<[i := e']> es) = map tp_key es.
Proof.
  intros Hi Hk. change (tp_key <$> <[i := e']> es = tp_key <$> es).
  rewrite list_fmap_insert. apply list_insert_id. now rewrite list_lookup_fmap, Hi, Hk.
Qed.

Lemma elems_map_cons e es : elems_map (e :: es) = <[tp_key e := e]> (elems_map es).
Proof. done. Qed.

Lemma elems_map_insert es i e e' :
  NoDup (map tp_key es) -> es !! i = Some e -> tp_key e' = tp_key e ->
  elems_map (<[i := e']> es) = <[tp_key e := e']> (elems_map es).
Proof.
  revert i. induction es as [| x es IH]; intros i Hd Hi Hk; [done |].
  cbn in Hd. apply list.NoDup_cons in Hd as [Hx Hd].
  destruct i as [| i]; cbn in Hi.
  - change (<[0%nat := e']> (x :: es)) with (e' :: es).
    injection Hi as ->. rewrite !elems_map_cons, Hk. now rewrite insert_insert_eq.
  - change (<[S i := e']> (x :: es)) with (x :: <[i := e']> es).
    rewrite !elems_map_cons, (IH i) by done. rewrite insert_insert_ne; [done |].
    intros E. apply Hx. rewrite E. apply list_elem_of_fmap. exists e.
    split; [done |]. now apply list_elem_of_lookup_2 in Hi.
Qed.

Lemma elems_map_app es e :
  tp_key e ∉ map tp_key es -> elems_map (es ++ [e]) = <[tp_key e := e]> (elems_map es).
Proof.
  induction es as [| x es IH]; intros Hn; [done |].
  cbn [app]. rewrite !elems_map_cons. cbn in Hn. rewrite elem_of_cons in Hn.
  rewrite IH by tauto. apply insert_insert_ne. intros E. apply Hn. left. now symmetry.
Qed.

Lemma elems_map_delete es i e :
  NoDup (map tp_key es) -> es !! i = Some e ->
  elems_map (take i es ++ drop (S i) es) = delete (tp_key e) (elems_map es).
Proof.
  revert i. induction es as [| x es IH]; intros i Hd Hi; [done |].
  cbn in Hd. apply list.NoDup_cons in Hd as [Hx Hd].
  destruct i as [| i]; cbn in Hi |- *.
  - injection Hi as ->. rewrite drop_0, elems_map_cons.
    rewrite delete_insert_id; [done |]. now apply elems_map_None.
  - rewrite !elems_map_cons, (IH i) by done. rewrite delete_insert_ne; [done |].
    intros E. apply Hx. rewrite <- E. apply list_elem_of_fmap. exists e.
    split; [done |]. now apply list_elem_of_lookup_2 in Hi.
Qed.

Lemma elems_map_fmap f es :
  (forall e, tp_key (f e) = tp_key e) -> elems_map (map f es) = f <$> elems_map es.
Proof.
  intros Hf. induction es as [| x es IH]; [symmetry; apply fmap_empty |].
  cbn [map]. rewrite !elems_map_cons, fmap_insert, IH, Hf. done.
Qed.

Lemma keys_fmap f es :
  (forall e, tp_key (f e) = tp_key e) -> map tp_key (map f es) = map tp_key es.
Proof. intros Hf. rewrite map_map. apply map_ext. intros e. apply Hf. Qed.

(** ** Room *)

(** As many elements as fit the array; a list that never held 2^29 elements stays
    within its [int]s. *)
Definition tpl_wf (l : rd_kafka_topic_partition_list) : Prop :=
  rktpl_cnt l <= rktpl_size l < 2 ^ 31.

Definition TPL_MAX : Z := 2 ^ 29.

Lemma tpl_grow_wf l n :
  tpl_wf l -> 0 < n <= TPL_MAX -> rktpl_size l < rktpl_cnt l + n -> rktpl_cnt l <= TPL_MAX ->
  let l' := rd_kafka_topic_partition_list_grow l n in
  tpl_wf l' /\ rktpl_elems l' = rktpl_elems l /\ rktpl_cnt l + n <= rktpl_size l'.
Proof.
  unfold tpl_wf, TPL_MAX, rd_kafka_topic_partition_list_grow, RD_MAX, rktpl_cnt.
  intros H Hn Hs Hc. cbn.
  assert (E : forall z, 0 <= z < 2 ^ 31 -> i32 z = z)
    by (intros z Hz; apply swrap_small; [lia | unfold in_i; lia]).
  destruct (Z.ltb_spec n (rktpl_size l)); [destruct (Z.gtb_spec (rktpl_size l) 32) |];
    (rewrite E; [split; [| split; [done |]] |]; lia).
Qed.

(** An element can always be added. *)
Lemma tpl_add0_spec refs l t p o :
  tpl_wf l -> rktpl_cnt l < TPL_MAX ->
  exists l', rd_kafka_topic_partition_list_add0 refs l t p o
    = Some (match o with Some q => rd_kafka_toppar_keep refs q | None => refs end, l',
            length (rktpl_elems l)) /\
    tpl_wf l' /\
    rktpl_elems l' = rktpl_elems l ++ [mk_tp t p RD_KAFKA_OFFSET_INVALID None 0 0 0 o].
Proof.
  intros Hwf Hc. unfold rd_kafka_topic_partition_list_add0.
  assert (Hg : exists l1,
    (if rktpl_cnt l =? rktpl_size l then rd_kafka_topic_partition_list_grow l 1 else l) = l1 /\
    tpl_wf l1 /\ rktpl_elems l1 = rktpl_elems l /\ rktpl_cnt l < rktpl_size l1).
  { destruct (Z.eqb_spec (rktpl_cnt l) (rktpl_size l)) as [E | E].
    - destruct (tpl_grow_wf l 1) as (Hw & He & Hs); [done | unfold TPL_MAX in *; lia.. |].
      eexists. conj. exact Hw.
    - exists l. unfold tpl_wf in *. conj. }
  destruct Hg as (l1 & -> & Hw & He & Hs). unfold rd_assert.
  replace (rktpl_cnt l1) with (rktpl_cnt l) by (unfold rktpl_cnt; now rewrite He).
  ztest. rewrite He. eexists. conj.
  unfold tpl_wf, rktpl_cnt in *. cbn. rewrite length_app. cbn. lia.
Qed.

Lemma tpl_add_spec l t p :
  tpl_wf l -> rktpl_cnt l < TPL_MAX ->
  exists l', rd_kafka_topic_partition_list_add l t p = Some (l', length (rktpl_elems l)) /\
    tpl_wf l' /\
    rktpl_elems l' = rktpl_elems l ++ [mk_tp t p RD_KAFKA_OFFSET_INVALID None 0 0 0 None].
Proof.
  intros Hwf Hc. unfold rd_kafka_topic_partition_list_add.
  destruct (tpl_add0_spec ∅ l t p None Hwf Hc) as (l' & -> & H). eauto.
Qed.

Lemma tpl_new_wf n :
  0 <= n < 2 ^ 31 -> tpl_wf (rd_kafka_topic_partition_list_new n) /\
  rktpl_elems (rd_kafka_topic_partition_list_new n) = [].
Proof.
  intros H. unfold rd_kafka_topic_partition_list_new, rd_kafka_topic_partition_list_grow, tpl_wf,
    rktpl_cnt.
  destruct (Z.gtb_spec n 0); cbn; [| split; [lia | done]].
  ztest. rewrite swrap_small; [split; [lia | done] | lia | unfold in_i; lia].
Qed.

Lemma tpl_set_elems_wf l es :
  (length es <= length (rktpl_elems l))%nat -> tpl_wf l -> tpl_wf (tpl_set_elems l es).
Proof. unfold tpl_wf, rktpl_cnt. cbn. lia. Qed.

Lemma tpl_set_elems_wf_eq l es :
  length es = length (rktpl_elems l) -> tpl_wf l -> tpl_wf (tpl_set_elems l es).
Proof. intros H. apply tpl_set_elems_wf. lia. Qed.

(** ** References *)

(** How often the list refers to a partition object. *)
Definition held (es : list rd_kafka_topic_partition) (p : nat) : Z :=
  zlen (filter (fun e => rktpar_private e = Some p) es).

(** [ext p] references to [p] are held elsewhere, the others by the list. *)
Definition refs_balanced (ext : nat -> Z) (refs : toppar_refs)
  (es : list rd_kafka_topic_partition) : Prop :=
  forall p, refcnt refs p = ext p + held es p.

Definition ext_ok (ext : nat -> Z) : Prop := forall p, 0 <= ext p <= TPL_MAX.

Lemma held_cons e es p :
  held (e :: es) p = (if decide (rktpar_private e = Some p) then 1 else 0) + held es p.
Proof. unfold held. rewrite list.filter_cons. destruct (decide _); cbn; lia. Qed.

Lemma held_nil p : held [] p = 0.
Proof. done. Qed.

Lemma held_app es es' p : held (es ++ es') p = held es p + held es' p.
Proof. unfold held. rewrite list.filter_app, length_app. lia. Qed.

Lemma held_bound es p : 0 <= held es p <= zlen es.
Proof. unfold held. pose proof (list.length_filter (fun e => rktpar_private e = Some p) es). lia. Qed.

Lemma held_insert es i e e' p :
  es !! i = Some e -> rktpar_private e' = rktpar_private e -> held (<[i := e']> es) p = held es p.
Proof.
  intros Hi Hp. rewrite <- (take_drop_middle _ _ _ Hi) at 2.
  rewrite insert_take_drop by (apply lookup_lt_Some in Hi; lia).
  rewrite !held_app, !held_cons, Hp. done.
Qed.

Lemma refcnt_insert refs p q z :
  refcnt (<[p := z]> refs) q = if decide (p = q) then z else refcnt refs q.
Proof.
  unfold refcnt. destruct (decide (p = q)) as [-> | N];
    [now rewrite lookup_insert_eq | now rewrite lookup_insert_ne].
Qed.

Lemma keep_balanced ext refs es e p :
  refs_balanced ext refs es -> ext_ok ext -> zlen es < TPL_MAX -> rktpar_private e = Some p ->
  refs_balanced ext (rd_kafka_toppar_keep refs p) (es ++ [e]).
Proof.
  intros Hb He Hl Hp q. unfold rd_kafka_toppar_keep.
  rewrite refcnt_insert, held_app, held_cons, held_nil, Hp. specialize (Hb q) as Hq.
  destruct (decide (p = q)) as [-> | N].
  - rewrite decide_True by done. pose proof (held_bound es q). specialize (He q).
    unfold TPL_MAX in *. rewrite swrap_small; [lia | lia | unfold in_i; lia].
  - rewrite decide_False by congruence. lia.
Qed.

(** Destroying an element gives back its reference, for which there is one. *)
Lemma destroy0_balanced ext refs e es :
  refs_balanced ext refs (e :: es) -> ext_ok ext -> zlen es < TPL_MAX ->
  exists refs', rd_kafka_topic_partition_destroy0 refs e = Some refs' /\
    refs_balanced ext refs' es.
Proof.
  intros Hb He Hl. unfold rd_kafka_topic_partition_destroy0.
  destruct (rktpar_private e) as [p |] eqn:Hp.
  - unfold rd_kafka_toppar_destroy, rd_assert.
    assert (E : i32 (refcnt refs p - 1) = ext p + held es p).
    { rewrite (Hb p), held_cons, Hp, decide_True by done. pose proof (held_bound es p).
      specialize (He p). unfold TPL_MAX in *.
      rewrite swrap_small; [lia | lia | unfold in_i; lia]. }
    pose proof (held_bound es p). pose proof (He p). rewrite E. ztest.
    eexists. split; [done |]. intros q. rewrite refcnt_insert. specialize (Hb q).
    rewrite held_cons, Hp in Hb. destruct (decide (p = q)) as [-> | N]; [done |].
    rewrite decide_False in Hb by congruence. lia.
  - exists refs. split; [done |]. intros q. specialize (Hb q).
    rewrite held_cons, Hp in Hb. exact Hb.
Qed.

(** The order of the elements does not matter. *)
#[export] Instance held_perm : Proper (Permutation ==> eq ==> eq) held.
Proof. intros es es' H p ? <-. unfold held. now rewrite H. Qed.

#[export] Instance refs_balanced_perm ext refs : Proper (Permutation ==> iff) (refs_balanced ext refs).
Proof. intros es es' H. unfold refs_balanced. now setoid_rewrite H. Qed.

Lemma destroy_elems_balanced ext refs es es' :
  refs_balanced ext refs (es ++ es') -> ext_ok ext -> zlen (es ++ es') <= TPL_MAX ->
  exists refs', destroy_elems refs es = Some refs' /\ refs_balanced ext refs' es'.
Proof.
  revert refs. induction es as [| e es IH]; intros refs Hb He Hl; [eauto |].
  cbn in Hl |- *. destruct (destroy0_balanced ext refs e (es ++ es')) as (refs' & -> & Hb');
    [done | done | lia |].
  apply IH; [done | done | lia].
Qed.
