(* ===== verification/TpListProps.v ===== *)
(** * Properties of topic partition lists

    A list without duplicates is a finite map; references to partition objects are
    neither lost nor leaked; duplicates, comparison and copies. *)

From stdpp Require Import gmap strings sorting.
From S2P Require Import Prelude Msgq Sort TpList TpListFacts.

(** ** The map an application sees *)

Inductive tpl_op : Set :=
  | TUpsert (topic : string) (partition : Z)
  | TFind (topic : string) (partition : Z)
  | TSetOffset (topic : string) (partition offset : Z)
  | TDel (topic : string) (partition : Z)
  | TResetOffsets (offset : Z)
  | TSetErr (err : Z).

(** The element pointed to by the result, or the number returned. *)
Definition answer : Type := option rd_kafka_topic_partition * Z.
Definition tpl_state : Type := toppar_refs * rd_kafka_topic_partition_list.

Definition tpl_step (st : tpl_state) (op : tpl_op) : option (tpl_state * answer) :=
  let '(refs, l) := st in
  match op with
  | TUpsert t p =>
      let* (l, i) := rd_kafka_topic_partition_list_upsert l t p in
      Some (refs, l, (rktpl_elems l !! i, 0))
  | TFind t p =>
      Some (st, (i ← rd_kafka_topic_partition_list_find l t p; rktpl_elems l !! i, 0))
  | TSetOffset t p o =>
      let '(l, err) := rd_kafka_topic_partition_list_set_offset l t p o in
      Some (refs, l, (None, err))
  | TDel t p =>
      let* (refs, l, n) := rd_kafka_topic_partition_list_del refs l t p in
      Some (refs, l, (None, n))
  | TResetOffsets o =>
      Some (refs, rd_kafka_topic_partition_list_reset_offsets l o, (None, 0))
  | TSetErr err => Some (refs, rd_kafka_topic_partition_list_set_err l err, (None, 0))
  end.

(** The same on the map. *)
Definition tp_fresh (t : string) (p : Z) : rd_kafka_topic_partition :=
  mk_tp t p RD_KAFKA_OFFSET_INVALID None 0 0 0 None.

Definition map_step (m : tp_map) (op : tpl_op) : tp_map * answer :=
  match op with
  | TUpsert t p =>
      match m !! (t, p) with
      | Some e => (m, (Some e, 0))
      | None => (<[(t, p) := tp_fresh t p]> m, (Some (tp_fresh t p), 0))
      end
  | TFind t p => (m, (m !! (t, p), 0))
  | TSetOffset t p o =>
      match m !! (t, p) with
      | Some e => (<[(t, p) := tp_set_offset e o]> m, (None, RD_KAFKA_RESP_ERR_NO_ERROR))
      | None => (m, (None, RD_KAFKA_RESP_ERR__UNKNOWN_PARTITION))
      end
  | TDel t p => (delete (t, p) m, (None, if decide (is_Some (m !! (t, p))) then 1 else 0))
  | TResetOffsets o => ((fun e => tp_set_offset e o) <$> m, (None, 0))
  | TSetErr err => ((fun e => tp_set_err e err) <$> m, (None, 0))
  end.

Fixpoint tpl_run (st : tpl_state) (ops : list tpl_op) : option (tpl_state * list answer) :=
  match ops with
  | [] => Some (st, [])
  | op :: ops =>
      let* (st, a) := tpl_step st op in
      let* (st, as_) := tpl_run st ops in
      Some (st, a :: as_)
  end.

Fixpoint map_run (m : tp_map) (ops : list tpl_op) : tp_map * list answer :=
  match ops with
  | [] => (m, [])
  | op :: ops =>
      let '(m, a) := map_step m op in
      let '(m, as_) := map_run m ops in
      (m, a :: as_)
  end.

(** The list has room for [n] more elements, no duplicates, and holds the
    references that are not [ext]. *)
Record tpl_ok (ext : nat -> Z) (n : Z) (st : tpl_state) : Prop := {
  ok_wf : tpl_wf (snd st);
  ok_room : rktpl_cnt (snd st) + n <= TPL_MAX;
  ok_keys : keys_distinct (snd st);
  ok_refs : refs_balanced ext (fst st) (rktpl_elems (snd st)) }.

Definition step_refines (ext : nat -> Z) (n : Z) (st : tpl_state) (op : tpl_op) : Prop :=
  exists st' a, tpl_step st op = Some (st', a) /\ tpl_ok ext n st' /\
    map_step (elems_map (rktpl_elems (snd st))) op = (elems_map (rktpl_elems (snd st')), a).

(** An operation that changes fields of elements other than the key and the
    reference keeps what is kept per list. *)
Lemma tpl_ok_fields ext n refs l es :
  tpl_ok ext n (refs, l) -> map tp_key es = map tp_key (rktpl_elems l) ->
  (forall p, held es p = held (rktpl_elems l) p) -> tpl_ok ext n (refs, tpl_set_elems l es).
Proof.
  intros [Hw Hr Hk Hb] Ek Eh. cbn in *.
  assert (length es = length (rktpl_elems l)) as El
    by (rewrite <- (length_map tp_key es), Ek; apply length_map).
  split; cbn.
  - now apply tpl_set_elems_wf_eq.
  - unfold rktpl_cnt in *. cbn. lia.
  - unfold keys_distinct. cbn. now rewrite Ek.
  - intros p. now rewrite Eh.
Qed.

Lemma held_fmap f es p :
  (forall e, rktpar_private (f e) = rktpar_private e) -> held (map f es) p = held es p.
Proof.
  intros Hf. induction es as [| e es IH]; [done |]. cbn [map]. rewrite !held_cons, Hf, IH. done.
Qed.

Lemma tpl_ok_weaken ext n n' st : tpl_ok ext n st -> n' <= n -> tpl_ok ext n' st.
Proof. intros [] ?. split; [done | lia | done | done]. Qed.

Lemma upsert_refines ext n refs l t p :
  tpl_ok ext (n + 1) (refs, l) -> 0 <= n -> step_refines ext n (refs, l) (TUpsert t p).
Proof.
  intros Hok Hn. pose proof Hok as [Hw Hr Hk Hb]. cbn in Hw, Hr, Hk, Hb.
  unfold step_refines, tpl_step, map_step, rd_kafka_topic_partition_list_upsert.
  cbn [snd]. rewrite (list_find_map l t p Hk).
  destruct (rd_kafka_topic_partition_list_find l t p) as [i |] eqn:Ef; cbn.
  - apply list_find_Some in Ef as (e & He & _). rewrite He.
    eexists _, _. conj. now apply tpl_ok_weaken with (n + 1); [| lia].
  - destruct (tpl_add_spec l t p) as (l' & -> & Hw' & He); [done | lia |].
    assert (Hnew : (t, p) ∉ map tp_key (rktpl_elems l)) by now apply list_find_None.
    eexists _, _. split; [done |]. rewrite He, lookup_app_r, Nat.sub_diag by lia. split.
    + split; cbn; rewrite ?He; [done | | |].
      * unfold rktpl_cnt in *. rewrite He, length_app. cbn. lia.
      * unfold keys_distinct in *. rewrite He, map_app. cbn. apply list.NoDup_app.
        split; [done |]. split; [| apply NoDup_singleton].
        intros k Hk' ->%list_elem_of_singleton. now apply Hnew.
      * intros q. rewrite held_app, held_cons, held_nil, (Hb q), decide_False by done. lia.
    + cbn. rewrite He, elems_map_app by done. done.
Qed.

Lemma set_offset_refines ext n refs l t p o :
  tpl_ok ext n (refs, l) -> step_refines ext n (refs, l) (TSetOffset t p o).
Proof.
  intros Hok. pose proof (ok_keys _ _ _ Hok) as Hk. cbn in Hk.
  unfold step_refines, tpl_step, map_step, rd_kafka_topic_partition_list_set_offset.
  cbn [snd]. rewrite (list_find_map l t p Hk).
  destruct (rd_kafka_topic_partition_list_find l t p) as [i |] eqn:Ef; cbn.
  - apply list_find_Some in Ef as (e & He & Ek). rewrite He.
    assert (alter (fun t => tp_set_offset t o) i (rktpl_elems l)
            = <[i := tp_set_offset e o]> (rktpl_elems l)) as ->.
    { apply list_eq. intros j. destruct (decide (i = j)) as [<- | N].
      - rewrite list_lookup_alter_eq, list_lookup_insert_eq, He; [done |].
        now apply lookup_lt_Some in He.
      - now rewrite list_lookup_alter_ne, list_lookup_insert_ne. }
    eexists _, _. split; [done |]. split.
    + apply tpl_ok_fields; [done | now apply keys_insert with e |].
      intros q. now apply held_insert with e.
    + cbn [snd rktpl_elems tpl_set_elems]. now rewrite (elems_map_insert _ i e), Ek.
  - eexists _, _. split; [done |]. split; [exact Hok | done].
Qed.

Lemma del_refines ext n refs l t p :
  tpl_ok ext n (refs, l) -> 0 <= n -> ext_ok ext -> step_refines ext n (refs, l) (TDel t p).
Proof.
  intros Hok Hn He. pose proof Hok as [Hw Hr Hk Hb]. cbn in Hw, Hr, Hk, Hb.
  unfold step_refines, tpl_step, map_step, rd_kafka_topic_partition_list_del.
  cbn [snd fst]. rewrite (list_find_map l t p Hk).
  unfold rd_kafka_topic_partition_list_find.
  destruct (list_find0_loop_spec rd_kafka_topic_partition_cmp
              (mk_tp t p 0 None 0 0 0 None) (rktpl_elems l) 0) as [[E H] | (k & e & E & Hk' & H0 & H)].
  - unfold rd_kafka_topic_partition_list_find0. rewrite E. cbn.
    eexists _, _. split; [done |]. split; [done |]. cbn. f_equal. apply delete_id.
    apply elems_map_None. intros (e & E' & Hin)%list_elem_of_fmap.
    rewrite list.Forall_forall in H. apply (H e Hin). now apply tp_cmp_eq.
  - unfold rd_kafka_topic_partition_list_find0. rewrite E. ztest.
    rewrite Z.add_0_l, Nat2Z.id. cbn. rewrite Hk'. cbn.
    apply tp_cmp_eq in H0. change (t, p) with (tp_key (mk_tp t p 0 None 0 0 0 None)). rewrite H0.
    pose proof (lookup_lt_Some _ _ _ Hk') as Hlt.
    unfold rd_kafka_topic_partition_list_del_by_idx, rktpl_cnt. ztest. cbn. rewrite Nat2Z.id, Hk'.
    pose proof (take_drop_middle _ _ _ Hk') as Hsplit.
    assert (Hp : rktpl_elems l ≡ₚ e :: take k (rktpl_elems l) ++ drop (S k) (rktpl_elems l))
      by (rewrite <- Hsplit at 1; symmetry; apply Permutation_middle).
    destruct (destroy0_balanced ext refs e (take k (rktpl_elems l) ++ drop (S k) (rktpl_elems l)))
      as (refs' & -> & Hb').
    { now rewrite <- Hp. }
    { done. }
    { unfold rktpl_cnt in Hr. rewrite length_app, length_take, length_drop. lia. }
    unfold ztake, zdrop. rewrite Nat2Z.id, Z2Nat.inj_add, Nat2Z.id by lia.
    rewrite Nat.add_comm. cbn [Nat.add Z.to_nat Pos.to_nat].
    eexists _, _. split; [done |]. split.
    + split; cbn.
      * apply tpl_set_elems_wf; [| done]. rewrite length_app, length_take, length_drop. lia.
      * unfold rktpl_cnt in *. cbn. rewrite length_app, length_take, length_drop. lia.
      * unfold keys_distinct in *. cbn. rewrite Hp in Hk. cbn in Hk.
        now apply list.NoDup_cons in Hk.
      * done.
    + cbn [snd rktpl_elems tpl_set_elems]. rewrite (elems_map_delete _ _ e) by done. done.
Qed.

Lemma fields_refine ext n refs l (f : rd_kafka_topic_partition -> rd_kafka_topic_partition) :
  (forall e, tp_key (f e) = tp_key e) -> (forall e, rktpar_private (f e) = rktpar_private e) ->
  tpl_ok ext n (refs, l) ->
  tpl_ok ext n (refs, tpl_set_elems l (map f (rktpl_elems l))) /\
  f <$> elems_map (rktpl_elems l) = elems_map (map f (rktpl_elems l)).
Proof.
  intros Hf Hp Hok. split; [| symmetry; now apply elems_map_fmap].
  apply tpl_ok_fields; [done | now apply keys_fmap |]. intros q. now apply held_fmap.
Qed.

Lemma tpl_step_refines ext n st op :
  tpl_ok ext (n + 1) st -> 0 <= n -> ext_ok ext -> step_refines ext n st op.
Proof.
  destruct st as [refs l]. intros Hok Hn He.
  pose proof (tpl_ok_weaken _ _ n _ Hok ltac:(lia)) as Hok'.
  destruct op as [t p | t p | t p o | t p | o | err].
  - now apply upsert_refines.
  - eexists _, _. split; [done |]. split; [exact Hok' |]. unfold map_step. cbn [snd]. now rewrite list_find_map by apply Hok.
  - now apply set_offset_refines.
  - now apply del_refines.
  - destruct (fields_refine ext n refs l (fun e => tp_set_offset e o)) as [H1 H2]; [done.. |].
    eexists _, _. split; [done |]. split; [exact H1 |]. cbn. now rewrite H2.
  - destruct (fields_refine ext n refs l (fun e => tp_set_err e err)) as [H1 H2]; [done.. |].
    eexists _, _. split; [done |]. split; [exact H1 |]. cbn. now rewrite H2.
Qed.

(** C23. A topic partition list used through upsert, find, set_offset, del,
    reset_offsets and set_err is a finite map from topic and partition to element:
    no run aborts, every answer is the map's, no key is ever in the list twice,
    and deletions give back exactly the references the elements held. *)
Theorem tpl_refines_map ext refs l ops
  (Hok : tpl_ok ext (zlen ops) (refs, l)) (He : ext_ok ext) :
  exists refs' l' as_,
    tpl_run (refs, l) ops = Some ((refs', l'), as_) /\
    map_run (elems_map (rktpl_elems l)) ops = (elems_map (rktpl_elems l'), as_) /\
    keys_distinct l' /\ refs_balanced ext refs' (rktpl_elems l').
Proof.
  revert refs l Hok. induction ops as [| op ops IH]; intros refs l Hok.
  - exists refs, l, []. conj; apply Hok.
  - destruct (tpl_step_refines ext (zlen ops) (refs, l) op) as ([refs1 l1] & a & E & Hok1 & Em);
      [| lia | done |].
    { eapply tpl_ok_weaken; [exact Hok |]. cbn. lia. }
    destruct (IH _ _ Hok1) as (refs' & l' & as_ & Er & Emr & H).
    exists refs', l', (a :: as_). cbn [tpl_run map_run]. rewrite E, Er. cbn [snd] in Em.
    rewrite Em, Emr. conj; apply H.
Qed.

Lemma tpl_refines_map_witness :
  exists refs' l' as_,
    tpl_run (∅, rd_kafka_topic_partition_list_new 0)
      [TUpsert "a" 1; TSetOffset "a" 1 7; TUpsert "b" 0; TDel "b" 0; TDel "b" 0; TFind "a" 1]
    = Some ((refs', l'), as_) /\
    map_run ∅ [TUpsert "a" 1; TSetOffset "a" 1 7; TUpsert "b" 0; TDel "b" 0; TDel "b" 0; TFind "a" 1]
    = (elems_map (rktpl_elems l'), as_) /\
    keys_distinct l' /\ refs_balanced (fun _ => 0) refs' (rktpl_elems l').
Proof.
  apply (tpl_refines_map (fun _ => 0) ∅ (rd_kafka_topic_partition_list_new 0)).
  - split; [now vm_compute | vm_compute; discriminate | constructor | done].
  - intros p. unfold TPL_MAX. lia.
Defined.

(** ** Ownership of partition objects *)

(** What can be done with a list that may hold duplicates. *)
Inductive own_op : Type :=
  | OAdd (topic : string) (partition : Z) (private : option nat)
  | ODelIdx (idx : Z)
  | OAddList (src : rd_kafka_topic_partition_list)
  | OClear
  | OCopyDestroy.

Definition own_step (st : tpl_state) (op : own_op) : option tpl_state :=
  let '(refs, l) := st in
  match op with
  | OAdd t p o =>
      let* (refs, l, _) := rd_kafka_topic_partition_list_add0 refs l t p o in Some (refs, l)
  | ODelIdx i =>
      let* (refs, l, _) := rd_kafka_topic_partition_list_del_by_idx refs l i in Some (refs, l)
  | OAddList src => rd_kafka_topic_partition_list_add_list refs l src
  | OClear => rd_kafka_topic_partition_list_clear refs l
  | OCopyDestroy =>
      let* (refs, copy) := rd_kafka_topic_partition_list_copy refs l in
      let* refs := rd_kafka_topic_partition_list_destroy refs copy in
      Some (refs, l)
  end.

Fixpoint own_run (st : tpl_state) (ops : list own_op) : option tpl_state :=
  match ops with
  | [] => Some st
  | op :: ops => let* st := own_step st op in own_run st ops
  end.

(** The metadata pointer of an element points to as many bytes as it says. *)
Definition md_ok (e : rd_kafka_topic_partition) : Prop :=
  0 < rktpar_metadata_size e ->
  exists bs, rktpar_metadata e = Some bs /\ rktpar_metadata_size e <= zlen bs.

(** The elements an operation may add. *)
Definition op_room (op : own_op) : Z :=
  match op with OAdd _ _ _ => 1 | OAddList src => rktpl_cnt src | _ => 0 end.

Definition op_ok (op : own_op) : Prop :=
  match op with OAddList src => Forall md_ok (rktpl_elems src) | _ => True end.

(** What a copy holds of an element. *)
Definition tp_copy (e : rd_kafka_topic_partition) : rd_kafka_topic_partition :=
  mk_tp (rktpar_topic e) (rktpar_partition e) (rktpar_offset e)
    (if rktpar_metadata_size e >? 0
     then bs ← rktpar_metadata e; Some (ztake (rktpar_metadata_size e) bs) else None)
    (if rktpar_metadata_size e >? 0 then rktpar_metadata_size e else 0)
    (rktpar_opaque e) (rktpar_err e) (rktpar_private e).

Lemma tp_copy_md_ok e : md_ok e -> md_ok (tp_copy e).
Proof.
  unfold md_ok, tp_copy. cbn. destruct (Z.gtb_spec (rktpar_metadata_size e) 0); [| lia].
  intros H' _. destruct (H' ltac:(lia)) as (bs & -> & Hl). cbn. eexists. split; [done |].
  unfold ztake. rewrite length_take. lia.
Qed.

Lemma add_copy_spec refs l e :
  tpl_wf l -> rktpl_cnt l < TPL_MAX -> md_ok e ->
  exists l', rd_kafka_topic_partition_list_add_copy refs l e
    = Some (match rktpar_private e with Some q => rd_kafka_toppar_keep refs q | None => refs end,
            l') /\
    tpl_wf l' /\ rktpl_elems l' = rktpl_elems l ++ [tp_copy e].
Proof.
  intros Hwf Hc Hmd. unfold rd_kafka_topic_partition_list_add_copy.
  destruct (tpl_add0_spec refs l (rktpar_topic e) (rktpar_partition e) (rktpar_private e))
    as (l' & -> & Hw & He); [done.. |].
  rewrite He, lookup_app_r, Nat.sub_diag by lia. cbn.
  unfold rd_kafka_topic_partition_update, tp_copy. cbn.
  assert (Hi : forall y x, <[length (rktpl_elems l) := x]> (rktpl_elems l ++ [y])
                         = rktpl_elems l ++ [x]).
  { intros y x. rewrite insert_app_r_alt, Nat.sub_diag by lia. done. }
  assert (Hlen : forall x, length (rktpl_elems l ++ [x]) = length (rktpl_elems l')).
  { intros x. rewrite He, !length_app. done. }
  destruct (Z.gtb_spec (rktpar_metadata_size e) 0).
  - destruct (Hmd ltac:(lia)) as (bs & -> & Hl). unfold memdup. ztest. rewrite Hi.
    eexists. split; [done |]. cbn. split; [now apply tpl_set_elems_wf_eq | done].
  - rewrite Hi. eexists. split; [done |]. cbn. split; [now apply tpl_set_elems_wf_eq | done].
Qed.

Lemma keep_private_balanced ext refs es e :
  refs_balanced ext refs es -> ext_ok ext -> zlen es < TPL_MAX ->
  refs_balanced ext
    (match rktpar_private e with Some q => rd_kafka_toppar_keep refs q | None => refs end)
    (es ++ [e]).
Proof.
  intros Hb He Hl. destruct (rktpar_private e) as [q |] eqn:E; [now apply keep_balanced |].
  intros p. rewrite (Hb p), held_app, held_cons, held_nil, E, decide_False by done. lia.
Qed.

Lemma app_snoc_perm {A} (l : list A) x rest : (l ++ [x]) ++ rest ≡ₚ (l ++ rest) ++ [x].
Proof. rewrite <- !app_assoc. apply Permutation_app_head, Permutation_app_comm. Qed.

(** [rest] are elements of other lists. *)
Lemma add_copies_spec ext refs l rest es :
  tpl_wf l -> zlen (rktpl_elems l ++ rest) + zlen es <= TPL_MAX -> Forall md_ok es ->
  ext_ok ext -> refs_balanced ext refs (rktpl_elems l ++ rest) ->
  exists refs' l', add_copies refs l es = Some (refs', l') /\ tpl_wf l' /\
    rktpl_elems l' = rktpl_elems l ++ map tp_copy es /\
    refs_balanced ext refs' (rktpl_elems l' ++ rest).
Proof.
  revert refs l. induction es as [| e es IH]; intros refs l Hw Hc Hmd He Hb.
  - exists refs, l. cbn. rewrite app_nil_r. conj.
  - apply list.Forall_cons in Hmd as [Hme Hmd]. rewrite length_app in Hc. cbn in Hc.
    destruct (add_copy_spec refs l e) as (l1 & Ec & Hw1 & He1);
      [done | unfold rktpl_cnt; lia | done |].
    destruct (IH (match rktpar_private e with
                  | Some q => rd_kafka_toppar_keep refs q | None => refs end) l1)
      as (refs' & l' & E & Hw' & He' & Hb'); [done | | done | done | |].
    + rewrite He1, !length_app. cbn. lia.
    + rewrite He1, app_snoc_perm. apply (keep_private_balanced ext refs _ (tp_copy e)); [done.. |].
      rewrite length_app. lia.
    + exists refs', l'. cbn [add_copies map]. rewrite Ec, E. conj.
      now rewrite He', He1, <- app_assoc.
Qed.

Lemma add_list_spec ext refs l src :
  tpl_wf l -> rktpl_cnt l + rktpl_cnt src <= TPL_MAX -> Forall md_ok (rktpl_elems src) ->
  ext_ok ext -> refs_balanced ext refs (rktpl_elems l) ->
  exists refs' l', rd_kafka_topic_partition_list_add_list refs l src = Some (refs', l') /\
    tpl_wf l' /\ rktpl_elems l' = rktpl_elems l ++ map tp_copy (rktpl_elems src) /\
    refs_balanced ext refs' (rktpl_elems l').
Proof.
  intros Hw Hc Hmd He Hb. unfold rd_kafka_topic_partition_list_add_list.
  destruct (Z.eqb_spec (rktpl_cnt src) 0) as [E | E].
  - exists refs, l. unfold rktpl_cnt in E. destruct (rktpl_elems src); [| done].
    cbn. rewrite app_nil_r. conj.
  - assert (0 < rktpl_cnt src) by (unfold rktpl_cnt in *; lia).
    assert (0 <= rktpl_cnt l) by (unfold rktpl_cnt; lia).
    rewrite swrap_small by (try lia; unfold in_i, TPL_MAX in *; lia).
    assert (Hg : exists l1, (if rktpl_size l <? rktpl_cnt l + rktpl_cnt src
        then rd_kafka_topic_partition_list_grow l (rktpl_cnt src) else l) = l1 /\
        tpl_wf l1 /\ rktpl_elems l1 = rktpl_elems l).
    { destruct (Z.ltb_spec (rktpl_size l) (rktpl_cnt l + rktpl_cnt src)); [| eauto].
      destruct (tpl_grow_wf l (rktpl_cnt src)) as (Hw1 & He1 & _); [done | lia.. |]. eauto. }
    destruct Hg as (l1 & -> & Hw1 & He1).
    destruct (add_copies_spec ext refs l1 [] (rktpl_elems src)) as (refs' & l' & Ea & Hw' & He' & Hb');
      rewrite ?He1, ?app_nil_r in *; [done.. |].
    exists refs', l'. conj.
Qed.

(** A copy is destroyed to leave the references as they were. *)
Lemma copy_destroy_spec ext refs l :
  tpl_wf l -> 2 * rktpl_cnt l <= TPL_MAX -> Forall md_ok (rktpl_elems l) ->
  ext_ok ext -> refs_balanced ext refs (rktpl_elems l) ->
  exists refs1 copy refs2,
    rd_kafka_topic_partition_list_copy refs l = Some (refs1, copy) /\
    rktpl_elems copy = map tp_copy (rktpl_elems l) /\
    rd_kafka_topic_partition_list_destroy refs1 copy = Some refs2 /\
    refs_balanced ext refs2 (rktpl_elems l).
Proof.
  intros Hw Hc Hmd He Hb. unfold rd_kafka_topic_partition_list_copy.
  destruct (tpl_new_wf (rktpl_size l)) as [Hnw Hne]; [unfold tpl_wf, rktpl_cnt in Hw; lia |].
  destruct (add_copies_spec ext refs (rd_kafka_topic_partition_list_new (rktpl_size l))
              (rktpl_elems l) (rktpl_elems l)) as (refs1 & copy & E & Hw' & He' & Hb');
    rewrite ?Hne in *; [done | unfold rktpl_cnt in Hc; cbn; lia | done.. |].
  destruct (destroy_elems_balanced ext refs1 (rktpl_elems copy) (rktpl_elems l))
    as (refs2 & E2 & Hb2); [done | done | |].
  { rewrite length_app, He'. cbn. rewrite length_map. unfold rktpl_cnt in Hc. lia. }
  exists refs1, copy, refs2. conj.
Qed.

(** What every operation keeps, with room for [n] more elements. *)
Record own_ok (ext : nat -> Z) (n : Z) (st : tpl_state) : Prop := {
  own_wf : tpl_wf (snd st);
  own_room : 2 * (rktpl_cnt (snd st) + n) <= TPL_MAX;
  own_md : Forall md_ok (rktpl_elems (snd st));
  own_refs : refs_balanced ext (fst st) (rktpl_elems (snd st)) }.

Lemma own_step_ok ext n st op :
  own_ok ext (n + op_room op) st -> 0 <= n -> ext_ok ext -> op_ok op ->
  exists st', own_step st op = Some st' /\ own_ok ext n st'.
Proof.
  destruct st as [refs l]. intros [Hw Hr Hmd Hb] Hn He Hop. cbn in Hw, Hr, Hmd, Hb.
  assert (0 <= rktpl_cnt l) by (unfold rktpl_cnt; lia).
  destruct op as [t p o | i | src | |]; cbn in Hr, Hop |- *.
  - destruct (tpl_add0_spec refs l t p o) as (l' & -> & Hw' & He'); [done | lia |].
    eexists. split; [done |]. split; cbn; [done | | |]; rewrite ?He'.
    + unfold rktpl_cnt in *. rewrite He', length_app. cbn. lia.
    + apply list.Forall_app. split; [done |]. repeat constructor. intros H1. cbn in H1. lia.
    + apply (keep_private_balanced ext refs (rktpl_elems l) (mk_tp t p _ None 0 0 0 o)); [done.. |].
      unfold rktpl_cnt in Hr. lia.
  - unfold rd_kafka_topic_partition_list_del_by_idx.
    destruct ((i <? 0) || (i >=? rktpl_cnt l)) eqn:Ei.
    { eexists. split; [done |]. split; cbn; [done | lia | done | done]. }
    zbool. unfold rktpl_cnt in *.
    destruct (lookup_lt_is_Some_2 (rktpl_elems l) (Z.to_nat i)) as [e Hi]; [lia |]. rewrite Hi.
    assert (Hp : rktpl_elems l ≡ₚ e :: ztake i (rktpl_elems l) ++ zdrop (i + 1) (rktpl_elems l)).
    { unfold ztake, zdrop. replace (Z.to_nat (i + 1)) with (S (Z.to_nat i)) by lia.
      rewrite <- (take_drop_middle _ _ _ Hi) at 1. symmetry. apply Permutation_middle. }
    pose proof (Permutation_length Hp) as Hl. cbn in Hl.
    destruct (destroy0_balanced ext refs e
                (ztake i (rktpl_elems l) ++ zdrop (i + 1) (rktpl_elems l))) as (refs' & -> & Hb').
    { now rewrite <- Hp. } { done. } { lia. }
    eexists. split; [done |]. split; cbn.
    + apply tpl_set_elems_wf; [lia | done].
    + unfold rktpl_cnt. cbn. lia.
    + rewrite Hp in Hmd. now apply list.Forall_cons in Hmd as [_ Hmd].
    + done.
  - destruct (add_list_spec ext refs l src) as (refs' & l' & -> & Hw' & He' & Hb');
      [done | unfold rktpl_cnt in *; lia | done.. |].
    eexists. split; [done |]. split; cbn; [done | | | done].
    + unfold rktpl_cnt in *. rewrite He', length_app, length_map. lia.
    + rewrite He'. apply list.Forall_app. split; [done |]. apply list.Forall_fmap.
      eapply list.Forall_impl; [exact Hop |]. apply tp_copy_md_ok.
  - unfold rd_kafka_topic_partition_list_clear.
    destruct (destroy_elems_balanced ext refs (rktpl_elems l) []) as (refs' & -> & Hb');
      rewrite ?app_nil_r; [done | done | unfold rktpl_cnt in *; lia |].
    eexists. split; [done |]. split; cbn; [| | constructor | done].
    + apply tpl_set_elems_wf; [cbn; lia | done].
    + unfold rktpl_cnt in *. cbn. lia.
  - destruct (copy_destroy_spec ext refs l) as (refs1 & copy & refs2 & -> & _ & -> & Hb2);
      [done | lia | done.. |].
    eexists. split; [done |]. split; cbn; [done | lia | done | done].
Qed.

Fixpoint ops_room (ops : list own_op) : Z :=
  match ops with [] => 0 | op :: ops => op_room op + ops_room ops end.

Lemma op_room_nonneg op : 0 <= op_room op.
Proof. destruct op; cbn; unfold rktpl_cnt; lia. Qed.

Lemma ops_room_nonneg ops : 0 <= ops_room ops.
Proof. induction ops as [| op ops IH]; cbn; [lia |]. pose proof (op_room_nonneg op). lia. Qed.

(** C24. Whatever is added to, copied to and from, deleted from and cleared out of a
    list, with duplicates or not, no reference count underflows; and destroying the
    list in the end leaves on every partition object the references held
    elsewhere. *)
Theorem tpl_references_returned ext refs l ops
  (Hok : own_ok ext (ops_room ops) (refs, l)) (He : ext_ok ext) (Hops : Forall op_ok ops) :
  exists refs1 l' refs2,
    own_run (refs, l) ops = Some (refs1, l') /\
    rd_kafka_topic_partition_list_destroy refs1 l' = Some refs2 /\
    forall p, refcnt refs2 p = ext p.
Proof.
  revert refs l Hok. induction Hops as [| op ops Hop Hops IH]; intros refs l Hok.
  - destruct Hok as [Hw Hr Hmd Hb]. cbn [fst snd ops_room] in *.
    destruct (destroy_elems_balanced ext refs (rktpl_elems l) []) as (refs' & E & Hb');
      rewrite ?app_nil_r; [done | done | unfold rktpl_cnt in *; lia |].
    exists refs, l, refs'. conj. intros p. rewrite (Hb' p), held_nil. lia.
  - cbn in Hok. rewrite Z.add_comm in Hok.
    destruct (own_step_ok ext (ops_room ops) (refs, l) op) as ([refs1 l1] & E & Hok1);
      [done | apply ops_room_nonneg | done | done |].
    cbn [own_run]. rewrite E. now apply IH.
Qed.

Lemma tpl_references_returned_witness :
  exists refs1 l' refs2,
    own_run (<[3%nat := 1]> ∅, rd_kafka_topic_partition_list_new 1)
      [OAdd "a" 1 (Some 3%nat); OAdd "a" 1 (Some 3%nat); OAdd "b" 0 None;
       OAddList (mk_tpl [mk_tp "c" 0 5 (Some [1; 2]) 2 0 0 (Some 4%nat)] 1);
       OCopyDestroy; ODelIdx 0] = Some (refs1, l') /\
    rd_kafka_topic_partition_list_destroy refs1 l' = Some refs2 /\
    forall p, refcnt refs2 p = if decide (p = 3)%nat then 1 else 0.
Proof.
  apply tpl_references_returned.
  - split; [now vm_compute | now vm_compute | constructor |].
    intros p. cbn [fst]. rewrite refcnt_insert, held_nil.
    destruct (decide (3 = p)%nat), (decide (p = 3)%nat); (reflexivity || congruence).
  - intros p. unfold TPL_MAX. destruct (decide (p = 3)%nat); lia.
  - repeat constructor. intros _. exists [1; 2]. now vm_compute.
Defined.

(** ** Duplicates *)

Section Duplicates.
Context (qsort : forall A, (A -> A -> Z) -> list A -> list A) `{!Qsort qsort}.

(** What two elements share when they count as duplicates. *)
Definition dup_key (ignore_partition : bool) (e : rd_kafka_topic_partition) : string * Z :=
  (rktpar_topic e, if ignore_partition then 0 else rktpar_partition e).

Lemma dup_test ip p1 p2 :
  ((rktpar_partition p1 =? rktpar_partition p2) || ip)
    && (strcmp (rktpar_topic p1) (rktpar_topic p2) =? 0) = true
  <-> dup_key ip p1 = dup_key ip p2.
Proof.
  unfold dup_key. rewrite andb_true_iff, orb_true_iff, Z.eqb_eq, Z.eqb_eq, strcmp_eq.
  destruct ip; split; intros; simplify_eq; intuition congruence.
Qed.

(** Between two elements that agree, a sorted list has only elements that
    agree. *)
Lemma tp_cmp_between ip a b c :
  rd_kafka_topic_partition_cmp a b <= 0 -> rd_kafka_topic_partition_cmp b c <= 0 ->
  dup_key ip a = dup_key ip c -> dup_key ip a = dup_key ip b.
Proof.
  unfold rd_kafka_topic_partition_cmp, dup_key, RD_CMP. intros Hab Hbc [= Et Ep].
  assert (T : rktpar_topic a = rktpar_topic b).
  { rewrite Et in Hab |- *. rewrite (strcmp_opp (rktpar_topic c)) in Hab.
    destruct (Z.eqb_spec (strcmp (rktpar_topic b) (rktpar_topic c)) 0) as [E | E];
      [now apply strcmp_eq in E |]. exfalso. cbn in Hbc.
    destruct (Z.eqb_spec (- strcmp (rktpar_topic b) (rktpar_topic c)) 0); cbn in Hab; lia. }
  rewrite T in *. f_equal. destruct ip; [done |].
  rewrite <- Et, strcmp_refl in *. cbn in Hab, Hbc. repeat case_match; zbool; lia.
Qed.

Lemma has_duplicates_loop_spec ip p1 es :
  StronglySorted (fun a b => rd_kafka_topic_partition_cmp a b <= 0) (p1 :: es) ->
  has_duplicates_loop ip p1 es = false <-> NoDup (map (dup_key ip) (p1 :: es)).
Proof.
  revert p1. induction es as [| p2 es IH]; intros p1 Hs.
  { split; [intros _; apply NoDup_singleton | done]. }
  cbn [has_duplicates_loop]. inversion Hs as [| ? ? Hs2 H1]; subst.
  destruct (((rktpar_partition p1 =? rktpar_partition p2) || ip)
    && (strcmp (rktpar_topic p1) (rktpar_topic p2) =? 0)) eqn:E.
  - apply dup_test in E. split; [done |]. cbn. rewrite list.NoDup_cons, E.
    intros [Hn _]. destruct Hn. apply elem_of_cons. now left.
  - rewrite (IH p2 Hs2). cbn [map]. rewrite (list.NoDup_cons (dup_key ip p1)).
    split; [| tauto]. intros Hn. split; [| exact Hn].
    intros Hin. apply not_true_iff_false in E. rewrite dup_test in E. destruct E.
    rewrite elem_of_cons in Hin. destruct Hin as [Heq | Hin]; [done |].
    apply list_elem_of_fmap in Hin as (c & Ec & Hc).
    apply list.Forall_cons in H1 as [H12 _]. inversion Hs2 as [| ? ? _ H2]; subst.
    rewrite list.Forall_forall in H2. now apply (tp_cmp_between ip p1 p2 c); [| apply H2 |].
Qed.

(** The duplicate check, which looks at neighbours of the sorted list only,
    finds a duplicate exactly when two elements of the list agree on the topic
    and, unless it is ignored, on the partition; the list keeps its elements and
    its room. *)
Lemma has_duplicates_spec l ip :
  let '(l', dup) := rd_kafka_topic_partition_list_has_duplicates qsort l ip in
  rktpl_elems l' ≡ₚ rktpl_elems l /\ rktpl_size l' = rktpl_size l /\
  (dup = false <-> NoDup (map (dup_key ip) (rktpl_elems l))).
Proof.
  unfold rd_kafka_topic_partition_list_has_duplicates.
  destruct (Z.leb_spec (rktpl_cnt l) 1) as [H | H].
  - conj. unfold rktpl_cnt in H. split; [intros _ | done].
    destruct (rktpl_elems l) as [| e [| ]]; cbn in *; [constructor | apply NoDup_singleton | lia].
  - cbn. unfold rd_kafka_topic_partition_cmp_opaque.
    assert (Hc : comparator_on rd_kafka_topic_partition_cmp (rktpl_elems l))
      by (apply comparator_everywhere, _).
    pose proof (qsort_perm _ _ _ Hc) as Hp. pose proof (qsort_sorted _ _ _ Hc) as Hs.
    revert Hp Hs. generalize (qsort _ rd_kafka_topic_partition_cmp (rktpl_elems l)).
    intros k Hp Hs. split; [exact Hp |]. split; [done |]. rewrite <- Hp.
    destruct k as [| p1 es].
    + split; [intros _; constructor | done].
    + now apply has_duplicates_loop_spec.
Qed.
End Duplicates.

Lemma has_duplicates_spec_witness :
  let l := mk_tpl [mk_tp "a" 1 0 None 0 0 0 None; mk_tp "b" 0 0 None 0 0 0 None;
                   mk_tp "a" 2 0 None 0 0 0 None] 3 in
  let '(l', dup) := rd_kafka_topic_partition_list_has_duplicates isort l true in
  rktpl_elems l' ≡ₚ rktpl_elems l /\ rktpl_size l' = rktpl_size l /\
  (dup = false <-> NoDup (map (dup_key true) (rktpl_elems l))).
Proof. intros l. apply (has_duplicates_spec isort l true). Defined.

(** ** Comparison and copies *)

Lemma tp_cmp_exists es e :
  existsb (fun e' => rd_kafka_topic_partition_cmp e e' =? 0) es = true
  <-> tp_key e ∈ map tp_key es.
Proof.
  rewrite existsb_exists, list_elem_of_fmap. split.
  - intros (e' & Hin & E). zbool. exists e'. rewrite list_elem_of_In.
    split; [now apply tp_cmp_eq | done].
  - intros (e' & E & Hin). exists e'. rewrite <- list_elem_of_In.
    split; [done |]. apply Z.eqb_eq. now apply tp_cmp_eq.
Qed.

(** The same topics and partitions, in any order. *)
Definition same_partitions (a b : rd_kafka_topic_partition_list) : Prop :=
  map tp_key (rktpl_elems a) ≡ₚ map tp_key (rktpl_elems b).

(** Two lists without duplicates compare equal exactly when they hold the same
    topics and partitions, in any order.  Only the first list need be free of
    duplicates. *)
Lemma tpl_cmp_same_keys a b
  (Ha : keys_distinct a) (Hca : rktpl_cnt a <= TPL_MAX) (Hcb : rktpl_cnt b <= TPL_MAX) :
  rd_kafka_topic_partition_list_cmp a b rd_kafka_topic_partition_cmp = 0
  <-> same_partitions a b.
Proof.
  unfold rd_kafka_topic_partition_list_cmp, rktpl_cnt, keys_distinct, same_partitions, TPL_MAX in *.
  rewrite swrap_small by (try lia; unfold in_i; lia).
  destruct (Z.eqb_spec (zlen (rktpl_elems a) - zlen (rktpl_elems b)) 0) as [E | E]; cbn.
  2: { split; [done |]. intros Hp%Permutation_length. rewrite !length_map in Hp. lia. }
  destruct (Z.eqb_spec (zlen (rktpl_elems a)) 0) as [Ea | Ea].
  { split; [| intros _; lia]. intros _.
    destruct (rktpl_elems a), (rktpl_elems b); (done || (cbn in *; lia)). }
  transitivity (forall k, k ∈ map tp_key (rktpl_elems a) -> k ∈ map tp_key (rktpl_elems b)).
  - destruct (forallb _ (rktpl_elems a)) eqn:F.
    + split; [| done]. intros _ k (e & -> & Hin)%list_elem_of_fmap.
      rewrite forallb_forall in F. apply tp_cmp_exists, F. now apply list_elem_of_In.
    + split; [done |]. intros Hall. apply not_true_iff_false in F. destruct F.
      apply forallb_forall. intros e Hin%list_elem_of_In. apply tp_cmp_exists, Hall.
      apply list_elem_of_fmap. eauto.
  - split; [| intros Hp k Hk; now rewrite <- Hp ].
    intros Hall. apply submseteq_length_Permutation;
      [now apply NoDup_submseteq | rewrite !length_map; lia].
Qed.

(** With a duplicate in the first list the comparison is not symmetric. *)
Lemma tpl_cmp_duplicates :
  let t p := mk_tp "t" p 0 None 0 0 0 None in
  rd_kafka_topic_partition_list_cmp (mk_tpl [t 0; t 0] 2) (mk_tpl [t 0; t 1] 2)
    rd_kafka_topic_partition_cmp = 0 /\
  rd_kafka_topic_partition_list_cmp (mk_tpl [t 0; t 1] 2) (mk_tpl [t 0; t 0] 2)
    rd_kafka_topic_partition_cmp = 1.
Proof. now split. Qed.

Lemma tpl_cmp_same_keys_witness :
  let t p := mk_tp "t" p 0 None 0 0 0 None in
  rd_kafka_topic_partition_list_cmp (mk_tpl [t 0; t 1] 2) (mk_tpl [t 1; t 0] 2)
    rd_kafka_topic_partition_cmp = 0
  <-> same_partitions (mk_tpl [t 0; t 1] 2) (mk_tpl [t 1; t 0] 2).
Proof.
  apply tpl_cmp_same_keys; [| now vm_compute ..].
  unfold keys_distinct. cbn. apply (bool_decide_unpack _). now vm_compute.
Defined.

(** What an element becomes, given what the other list has under its key. *)
Definition merged (s : option rd_kafka_topic_partition) (d d' : rd_kafka_topic_partition) : Prop :=
  match s with
  | None => d' = d
  | Some s =>
      tp_key d' = tp_key d /\ rktpar_opaque d' = rktpar_opaque d /\
      rktpar_private d' = rktpar_private d /\
      rktpar_offset d' = rktpar_offset s /\ rktpar_err d' = rktpar_err s /\
      rktpar_metadata d' = rktpar_metadata (tp_copy s) /\
      (0 < rktpar_metadata_size s -> rktpar_metadata_size d' = rktpar_metadata_size s)
  end.

Lemma list_update_loop_merges src es :
  keys_distinct src -> Forall md_ok (rktpl_elems src) ->
  exists es', list_update_loop src es = Some es' /\
    Forall2 (fun d d' => merged (elems_map (rktpl_elems src) !! tp_key d) d d') es es'.
Proof.
  intros Hs Hmd. induction es as [| d es (es' & E & IH)]; [now exists [] |].
  cbn [list_update_loop]. rewrite E.
  pose proof (list_find_map src (rktpar_topic d) (rktpar_partition d) Hs) as Hm.
  destruct (rd_kafka_topic_partition_list_find src _ _) as [i |] eqn:Ef; cbn in Hm.
  - destruct (list_find_Some _ _ _ _ Ef) as (s & Hi & _). rewrite Hi in Hm |- *.
    assert (Hms : md_ok s)
      by (rewrite list.Forall_forall in Hmd; eapply Hmd, list_elem_of_lookup_2, Hi).
    destruct (Z.gtb_spec (rktpar_metadata_size s) 0) as [G | G].
    + destruct (Hms ltac:(lia)) as (bs & Eb & Hl). rewrite Eb. unfold memdup. ztest.
      destruct (rktpar_metadata d); (eexists; split; [done |]; constructor; [| exact IH]);
        unfold tp_key in *; rewrite Hm; cbn; ztest; rewrite Eb; conj.
    + destruct (rktpar_metadata d); (eexists; split; [done |]; constructor; [| exact IH]);
        unfold tp_key in *; rewrite Hm; cbn; ztest; conj.
  - eexists. split; [done |]. constructor; [| exact IH]. unfold tp_key in *. now rewrite Hm.
Qed.

(** Updating a list from another changes exactly the elements whose topic and
    partition the other has: they take its offset, error and metadata and keep their
    application pointer and partition object; the others are as they were. *)
Lemma list_update_merges dst src
  (Hs : keys_distinct src) (Hmd : Forall md_ok (rktpl_elems src)) :
  exists dst',
    rd_kafka_topic_partition_list_update dst src = Some dst' /\
    rktpl_size dst' = rktpl_size dst /\
    Forall2 (fun d d' => merged (elems_map (rktpl_elems src) !! tp_key d) d d')
      (rktpl_elems dst) (rktpl_elems dst').
Proof.
  unfold rd_kafka_topic_partition_list_update.
  destruct (list_update_loop_merges src (rktpl_elems dst)) as (es' & -> & H); [done.. |].
  eexists. split; [done |]. split; [done | exact H].
Qed.

Lemma list_update_merges_witness :
  let dst := mk_tpl [mk_tp "t" 0 1 (Some [9]) 1 5 0 (Some 2%nat); mk_tp "t" 1 1 None 0 0 0 None] 2 in
  let src := mk_tpl [mk_tp "t" 0 7 None 0 0 3 None] 1 in
  exists dst',
    rd_kafka_topic_partition_list_update dst src = Some dst' /\
    rktpl_size dst' = rktpl_size dst /\
    Forall2 (fun d d' => merged (elems_map (rktpl_elems src) !! tp_key d) d d')
      (rktpl_elems dst) (rktpl_elems dst').
Proof.
  apply list_update_merges; [apply (bool_decide_unpack _); now vm_compute |].
  repeat constructor. intros H. cbn in H. lia.
Defined.
