(* ===== verification/Assignor.v ===== *)
(** * Consumer group assignors (src/cbits/hs_rdkafka_assignor.c,
      hs_rdkafka_range_assignor.c, hs_rdkafka_roundrobin_assignor.c)

    The leader of a group maps the cluster's topics to the members subscribed to
    them and runs the range or the round-robin assignor.  A pointer to a member is
    its index in the array of members, a pointer to a topic its index in the
    metadata. *)

From stdpp Require Import gmap strings.
From S2P Require Import Prelude Msgq Sort TpList.

(** ** Data *)

Record rd_kafka_group_member := mk_member {
  rkgm_subscription : rd_kafka_topic_partition_list;
  rkgm_assignment : rd_kafka_topic_partition_list;
  rkgm_owned : option rd_kafka_topic_partition_list;
  rkgm_eligible : list nat;
  rkgm_member_id : string;
  rkgm_group_instance_id : option string }.

Definition member_set_assignment (m : rd_kafka_group_member) a :=
  mk_member (rkgm_subscription m) a (rkgm_owned m) (rkgm_eligible m) (rkgm_member_id m)
    (rkgm_group_instance_id m).
Definition member_set_eligible (m : rd_kafka_group_member) e :=
  mk_member (rkgm_subscription m) (rkgm_assignment m) (rkgm_owned m) e (rkgm_member_id m)
    (rkgm_group_instance_id m).

Record rd_kafka_metadata_topic := mk_mdt { mdt_topic : string; mdt_partition_cnt : Z }.

Record rd_kafka_assignor_topic := mk_at {
  at_metadata : rd_kafka_metadata_topic;
  at_members : list nat }.

Definition rd_kafka_resp_err : Type := Z.

(** ** Comparators *)

(** Bytes as unsigned characters. *)
Fixpoint memcmp (a b : string) (n : nat) : Z :=
  match n, a, b with
  | S n, String x a, String y b =>
      let d := Z.of_N (Ascii.N_of_ascii x) - Z.of_N (Ascii.N_of_ascii y) in
      if d =? 0 then memcmp a b n else d
  | _, _, _ => 0
  end.

Definition rd_kafkap_str_cmp (a b : string) : Z :=
  let la := Z.of_nat (String.length a) in
  let lb := Z.of_nat (String.length b) in
  let minlen := RD_MIN la lb in
  let r := memcmp a b (Z.to_nat minlen) in
  if negb (r =? 0) then r else RD_CMP la lb.

Definition rd_kafka_group_member_cmp (a b : rd_kafka_group_member) : Z :=
  match rkgm_group_instance_id a, rkgm_group_instance_id b with
  | Some ia, Some ib => rd_kafkap_str_cmp ia ib
  | _, _ => rd_kafkap_str_cmp (rkgm_member_id a) (rkgm_member_id b)
  end.

Definition rd_kafka_assignor_topic_cmp (a b : rd_kafka_assignor_topic) : Z :=
  strcmp (mdt_topic (at_metadata a)) (mdt_topic (at_metadata b)).

(** The comparator on pointers into the array of members. *)
Definition member_ptr_cmp (members : list rd_kafka_group_member) (i j : nat) : Z :=
  match members !! i, members !! j with
  | Some a, Some b => rd_kafka_group_member_cmp a b
  | _, _ => 0
  end.

(** Gives back what the member holds; the member itself is zeroed. *)
Definition rd_kafka_group_member_clear (refs : toppar_refs) (m : rd_kafka_group_member)
  : option (toppar_refs * rd_kafka_group_member) :=
  let* refs := match rkgm_owned m with
               | Some l => rd_kafka_topic_partition_list_destroy refs l
               | None => Some refs end in
  let* refs := rd_kafka_topic_partition_list_destroy refs (rkgm_subscription m) in
  let* refs := rd_kafka_topic_partition_list_destroy refs (rkgm_assignment m) in
  Some (refs, mk_member (mk_tpl [] 0) (mk_tpl [] 0) None [] "" None).

Section Matching.
(** The bundled regular expressions: [rd_regex_match pattern str] compiles and
    matches, [rd_regex_exec] matches a compiled pattern. *)
Context (rd_regex_match : string -> string -> Z) (rd_regex_exec : string -> string -> bool).

(** ** Subscriptions *)

Definition rd_kafka_group_member_find_subscription (m : rd_kafka_group_member) (topic : string)
  : bool :=
  existsb (fun rktpar => negb (fst (rd_kafka_topic_partition_match rd_regex_match rktpar topic 0)
                               =? 0))
    (rktpl_elems (rkgm_subscription m)).

(** [eligible], [matched] and [has_regex] after the loop. *)
Fixpoint subscription_match_loop (ti : nat) (topic : string)
  (subs : list rd_kafka_topic_partition) (eligible : list nat) (matched has_regex : Z)
  : list nat * Z * Z :=
  match subs with
  | [] => (eligible, matched, has_regex)
  | rktpar :: subs =>
      let '(r, matched_by_regex) := rd_kafka_topic_partition_match rd_regex_match rktpar topic 0 in
      if negb (r =? 0)
      then subscription_match_loop ti topic subs (eligible ++ [ti]) (matched + 1)
             (has_regex + matched_by_regex)
      else subscription_match_loop ti topic subs eligible matched has_regex
  end.

(** The member, the members of the topic, and the return value. *)
Definition rd_kafka_member_subscription_match (m : rd_kafka_group_member) (i ti : nat)
  (topic : string) (topic_members : list nat) : rd_kafka_group_member * list nat * Z :=
  let '(eligible, matched, has_regex) :=
    subscription_match_loop ti topic (rktpl_elems (rkgm_subscription m)) (rkgm_eligible m) 0 0 in
  let m := member_set_eligible m eligible in
  let topic_members := if negb (matched =? 0) then topic_members ++ [i] else topic_members in
  (m, topic_members,
   if (has_regex =? 0) && (zlen eligible =? rktpl_cnt (rkgm_subscription m)) then 1 else 0).

(** The loop over the members for one topic. *)
Fixpoint topic_members_loop (ti : nat) (topic : string) (i : nat)
  (members : list rd_kafka_group_member) (topic_members : list nat)
  : list rd_kafka_group_member * list nat :=
  match members with
  | [] => ([], topic_members)
  | m :: members =>
      let '(m, topic_members, _) :=
        rd_kafka_member_subscription_match m i ti topic topic_members in
      let '(members, topic_members) :=
        topic_members_loop ti topic (S i) members topic_members in
      (m :: members, topic_members)
  end.

Definition rd_kafka_pattern_match (plist : list string) (str : string) : bool :=
  existsb (fun rkpat => rd_regex_exec rkpat str) plist.

Fixpoint subscriptions_map_loop (topic_blacklist : option (list string)) (ti : nat)
  (topics : list rd_kafka_metadata_topic) (members : list rd_kafka_group_member)
  (eligible_topics : list rd_kafka_assignor_topic)
  : list rd_kafka_group_member * list rd_kafka_assignor_topic :=
  match topics with
  | [] => (members, eligible_topics)
  | t :: topics =>
      if match topic_blacklist with
         | Some plist => rd_kafka_pattern_match plist (mdt_topic t)
         | None => false
         end
      then subscriptions_map_loop topic_blacklist (S ti) topics members eligible_topics
      else
        let '(members, topic_members) := topic_members_loop ti (mdt_topic t) 0 members [] in
        let eligible_topics :=
          if zlen topic_members =? 0 then eligible_topics
          else eligible_topics ++ [mk_at t topic_members] in
        subscriptions_map_loop topic_blacklist (S ti) topics members eligible_topics
  end.

Definition rd_kafka_member_subscriptions_map (topic_blacklist : option (list string))
  (metadata : list rd_kafka_metadata_topic) (members : list rd_kafka_group_member)
  : list rd_kafka_group_member * list rd_kafka_assignor_topic :=
  subscriptions_map_loop topic_blacklist 0 metadata members [].

(** ** Assignors *)

Context (qsort : forall A, (A -> A -> Z) -> list A -> list A).

(** Adds to the assignment of a member. *)
Definition assign_range (members : list rd_kafka_group_member) (m : nat) (topic : string)
  (start stop : Z) : option (list rd_kafka_group_member) :=
  let* rkgm := members !! m in
  let* a := rd_kafka_topic_partition_list_add_range (rkgm_assignment rkgm) topic start stop in
  Some (<[m := member_set_assignment rkgm a]> members).

Fixpoint range_members_loop (topic : string) (numPartitionsPerConsumer
  consumersWithExtraPartition : Z) (i : Z) (topic_members : list nat)
  (members : list rd_kafka_group_member) : option (list rd_kafka_group_member) :=
  match topic_members with
  | [] => Some members
  | m :: topic_members =>
      let start := i32 (numPartitionsPerConsumer * i + RD_MIN i consumersWithExtraPartition) in
      let length := i32 (numPartitionsPerConsumer
                         + (if i + 1 >? consumersWithExtraPartition then 0 else 1)) in
      let* members :=
        if length =? 0 then Some members
        else assign_range members m topic start (i32 (start + length - 1)) in
      range_members_loop topic numPartitionsPerConsumer consumersWithExtraPartition (i + 1)
        topic_members members
  end.

Fixpoint range_topics_loop (eligible_topics : list rd_kafka_assignor_topic)
  (members : list rd_kafka_group_member) : option (list rd_kafka_group_member) :=
  match eligible_topics with
  | [] => Some members
  | t :: eligible_topics =>
      let topic_members := qsort nat (member_ptr_cmp members) (at_members t) in
      let cnt := zlen topic_members in
      if cnt =? 0 then None
      else
        let cntp := mdt_partition_cnt (at_metadata t) in
        let* members := range_members_loop (mdt_topic (at_metadata t)) (Z.quot cntp cnt)
                          (Z.rem cntp cnt) 0 topic_members members in
        range_topics_loop eligible_topics members
  end.

Definition rd_kafka_range_assignor_assign_cb (members : list rd_kafka_group_member)
  (eligible_topics : list rd_kafka_assignor_topic)
  : option (list rd_kafka_group_member * rd_kafka_resp_err) :=
  let* members := range_topics_loop eligible_topics members in
  Some (members, 0).

(** The do-while loop: from [next], the first member subscribed to the topic.
    [next] is an [int] and [member_cnt] a [size_t]. *)
Fixpoint next_member (n : nat) (members : list rd_kafka_group_member) (next : Z)
  (topic : string) : option Z :=
  match n with
  | O => None
  | S n =>
      if zlen members =? 0 then None
      else
        let next := i32 (u64 (next + 1) mod zlen members) in
        let* m := members !! Z.to_nat next in
        if negb (rd_kafka_group_member_find_subscription m topic)
        then next_member n members next topic
        else Some next
  end.

(** The partitions [partition], [partition + 1], ..., [n] of them. *)
Fixpoint roundrobin_partitions_loop (n : nat) (topic : string) (partition : Z)
  (members : list rd_kafka_group_member) (next : Z)
  : option (list rd_kafka_group_member * Z) :=
  match n with
  | O => Some (members, next)
  | S n =>
      let* next := next_member (length members) members next topic in
      let* rkgm := members !! Z.to_nat next in
      let* (a, _) := rd_kafka_topic_partition_list_add (rkgm_assignment rkgm) topic partition in
      roundrobin_partitions_loop n topic (partition + 1)
        (<[Z.to_nat next := member_set_assignment rkgm a]> members) next
  end.

Fixpoint roundrobin_topics_loop (eligible_topics : list rd_kafka_assignor_topic)
  (members : list rd_kafka_group_member) (next : Z) : option (list rd_kafka_group_member) :=
  match eligible_topics with
  | [] => Some members
  | t :: eligible_topics =>
      let* (members, next) :=
        roundrobin_partitions_loop (Z.to_nat (mdt_partition_cnt (at_metadata t)))
          (mdt_topic (at_metadata t)) 0 members next in
      roundrobin_topics_loop eligible_topics members next
  end.

Definition rd_kafka_roundrobin_assignor_assign_cb (members : list rd_kafka_group_member)
  (eligible_topics : list rd_kafka_assignor_topic)
  : option (list rd_kafka_group_member * rd_kafka_resp_err) :=
  let eligible_topics := qsort _ rd_kafka_assignor_topic_cmp eligible_topics in
  let members := qsort _ rd_kafka_group_member_cmp members in
  let* members := roundrobin_topics_loop eligible_topics members (-1) in
  Some (members, 0).

(** [assign_cb] is the assignor's; the logging is left out. *)
Definition rd_kafka_assignor_run
  (assign_cb : list rd_kafka_group_member -> list rd_kafka_assignor_topic ->
               option (list rd_kafka_group_member * rd_kafka_resp_err))
  (topic_blacklist : option (list string)) (metadata : list rd_kafka_metadata_topic)
  (members : list rd_kafka_group_member)
  : option (list rd_kafka_group_member * rd_kafka_resp_err) :=
  let '(members, eligible_topics) :=
    rd_kafka_member_subscriptions_map topic_blacklist metadata members in
  assign_cb members eligible_topics.
End Matching.
