(* ===== verification/AssignorFacts.v ===== *)
(** * Lemmas on the assignors

    The order of members, the map from topics to subscribers, and what the loops of
    the two assignors add to the assignments. *)

From Stdlib Require Import Ascii String OrdersEx.
From stdpp Require Import gmap strings sorting list_numbers.
From S2P Require Import Prelude Msgq Sort TpList TpListFacts Assignor.

(** ** The order of member ids *)

(** [rd_kafkap_str_cmp] has the sign of [strcmp]. *)
Lemma memcmp_compare a b n :
  n = Nat.min (String.length a) (String.length b) ->
  (memcmp a b n < 0 -> strcmp a b = -1) /\ (0 < memcmp a b n -> strcmp a b = 1) /\
  (memcmp a b n = 0 -> strcmp a b = RD_CMP (Z.of_nat (String.length a)) (Z.of_nat (String.length b))).
Proof.
  revert b n. induction a as [| x a IH]; intros [| y b] n ->; cbn; [done | | |].
  - split; [lia |]. split; [lia |]. intros _. unfold RD_CMP. repeat case_match; zbool; (done || lia).
  - split; [lia |]. split; [lia |]. intros _. unfold RD_CMP. repeat case_match; zbool; (done || lia).
  - specialize (IH b _ eq_refl). unfold strcmp. cbn [String.compare].
    unfold Ascii.compare. rewrite <- (N2Z.inj_compare).
    destruct (Z.eqb_spec (Z.of_N (N_of_ascii x) - Z.of_N (N_of_ascii y)) 0) as [E | E].
    + replace (Z.of_N (N_of_ascii x)) with (Z.of_N (N_of_ascii y)) by lia.
      rewrite Z.compare_refl. unfold strcmp in IH. destruct IH as (H1 & H2 & H3).
      conj. intros H. rewrite (H3 H). unfold RD_CMP. repeat case_match; zbool; lia.
    + destruct (Z.compare_spec (Z.of_N (N_of_ascii x)) (Z.of_N (N_of_ascii y))); conj.
Qed.

Lemma kafkap_str_cmp_sgn a b : Z.sgn (rd_kafkap_str_cmp a b) = strcmp a b.
Proof.
  unfold rd_kafkap_str_cmp.
  replace (Z.to_nat (RD_MIN _ _)) with (Nat.min (String.length a) (String.length b))
    by (unfold RD_MIN; case_match; zlia).
  destruct (memcmp_compare a b _ eq_refl) as (H1 & H2 & H3).
  set (r := memcmp a b _) in *. destruct (Z.eqb_spec r 0) as [E | E]; cbn.
  - rewrite (H3 E). unfold RD_CMP. repeat case_match; zbool; lia.
  - destruct (Z_lt_ge_dec r 0); [rewrite H1 | rewrite H2]; lia.
Qed.

#[export] Instance kafkap_str_cmp_comparator : Comparator rd_kafkap_str_cmp.
Proof.
  assert (H : forall a b, rd_kafkap_str_cmp a b <= 0 <-> strcmp a b <= 0)
    by (intros a b; rewrite <- kafkap_str_cmp_sgn; lia).
  split.
  - intros a b. rewrite H, (cmp_flip a b), <- kafkap_str_cmp_sgn. lia.
  - intros a b c. rewrite !H. apply cmp_trans.
Qed.

(** Members are ordered when all are static or all are dynamic. *)
Definition uniform_members (members : list rd_kafka_group_member) : Prop :=
  Forall (fun m => is_Some (rkgm_group_instance_id m)) members \/
  Forall (fun m => rkgm_group_instance_id m = None) members.

Lemma member_cmp_comparator members :
  uniform_members members -> comparator_on rd_kafka_group_member_cmp members.
Proof.
  intros [H | H]; rewrite list.Forall_forall in H; unfold rd_kafka_group_member_cmp; split.
  - intros a b Ha Hb. destruct (H a Ha) as [ia ->], (H b Hb) as [ib ->]. apply cmp_flip.
  - intros a b c Ha Hb Hc. destruct (H a Ha) as [ia ->], (H b Hb) as [ib ->], (H c Hc) as [ic ->].
    apply cmp_trans.
  - intros a b Ha Hb. rewrite (H a Ha), (H b Hb). apply cmp_flip.
  - intros a b c Ha Hb Hc. rewrite (H a Ha), (H b Hb). apply cmp_trans.
Qed.

Lemma ptr_cmp_comparator members l :
  uniform_members members -> (forall i, i ∈ l -> (i < length members)%nat) ->
  comparator_on (member_ptr_cmp members) l.
Proof.
  intros Hu%member_cmp_comparator Hl. destruct Hu as [F T].
  assert (G : forall i, i ∈ l -> exists m, members !! i = Some m /\ m ∈ members).
  { intros i Hi. destruct (lookup_lt_is_Some_2 members i (Hl i Hi)) as [m Hm].
    exists m. split; [done |]. now apply list_elem_of_lookup_2 in Hm. }
  unfold member_ptr_cmp. split.
  - intros i j Hi Hj. destruct (G i Hi) as (a & -> & Ha), (G j Hj) as (b & -> & Hb). now apply F.
  - intros i j k Hi Hj Hk.
    destruct (G i Hi) as (a & -> & Ha), (G j Hj) as (b & -> & Hb), (G k Hk) as (c & -> & Hc).
    now apply T.
Qed.

(** ** Subscribers *)

Section Matching.
Context (rd_regex_match : string -> string -> Z) (rd_regex_exec : string -> string -> bool).

Abbreviation find_sub := (rd_kafka_group_member_find_subscription rd_regex_match).

(** The members subscribed to a topic, from member [i] on. *)
Fixpoint subscribers (topic : string) (i : nat) (members : list rd_kafka_group_member)
  : list nat :=
  match members with
  | [] => []
  | m :: members =>
      if find_sub m topic then i :: subscribers topic (S i) members
      else subscribers topic (S i) members
  end.

Lemma subscribers_spec topic i members j :
  j ∈ subscribers topic i members <->
  exists k m, j = (i + k)%nat /\ members !! k = Some m /\ find_sub m topic = true.
Proof.
  revert i. induction members as [| m members IH]; intros i; cbn.
  - split; [now intros ?%elem_of_nil |]. intros (k & m & _ & H & _). now rewrite lookup_nil in H.
  - assert (E : j ∈ subscribers topic (S i) members <->
      exists k m', j = (i + S k)%nat /\ (m :: members) !! S k = Some m' /\ find_sub m' topic = true).
    { rewrite IH. split; intros (k & m' & -> & H); exists k, m'; (split; [lia | exact H]). }
    destruct (find_sub m topic) eqn:Em; rewrite ?elem_of_cons, E; split.
    + intros [-> | (k & m' & H)]; [exists 0%nat, m; split; [lia | done] | eauto].
    + intros ([| k] & m' & -> & H); [left; lia | right; eauto].
    + intros (k & m' & H); eauto.
    + intros ([| k] & m' & -> & H & H'); [cbn in H; congruence | eauto].
Qed.

Lemma subscribers_ge topic i members j : j ∈ subscribers topic i members -> (i <= j)%nat.
Proof. rewrite subscribers_spec. intros (k & m & -> & _). lia. Qed.

Lemma subscribers_NoDup topic i members : NoDup (subscribers topic i members).
Proof.
  revert i. induction members as [| m members IH]; intros i; cbn; [constructor |].
  destruct (find_sub m topic); [| apply IH].
  apply list.NoDup_cons. split; [| apply IH]. intros H%subscribers_ge. lia.
Qed.

(** A change that keeps the subscriptions keeps the subscribers. *)
Lemma subscribers_ext topic i ms ms' :
  Forall2 (fun m m' => rkgm_subscription m' = rkgm_subscription m) ms ms' ->
  subscribers topic i ms' = subscribers topic i ms.
Proof.
  intros H. revert i. induction H as [| m m' ms ms' E H IH]; intros i; cbn; [done |].
  unfold rd_kafka_group_member_find_subscription. rewrite E. now rewrite IH.
Qed.

Lemma subscription_match_loop_matched ti topic subs e k h :
  0 <= k ->
  let '(_, matched, _) := subscription_match_loop rd_regex_match ti topic subs e k h in
  k <= matched /\
  (matched = k <->
   existsb (fun r => negb (fst (rd_kafka_topic_partition_match rd_regex_match r topic 0) =? 0)) subs
   = false).
Proof.
  revert e k h. induction subs as [| r subs IH]; intros e k h Hk; cbn; [split; [lia | done] |].
  destruct (rd_kafka_topic_partition_match rd_regex_match r topic 0) as [ret mbr]. cbn [fst].
  destruct (negb (ret =? 0)); cbn [orb].
  - specialize (IH (e ++ [ti]) (k + 1) (h + mbr) ltac:(lia)).
    destruct (subscription_match_loop _ _ _ _ _ _ _) as [[e' m'] h'].
    split; [lia |]. split; [lia | done].
  - apply IH. lia.
Qed.

Definition upto_eligible (m m' : rd_kafka_group_member) : Prop :=
  m' = member_set_eligible m (rkgm_eligible m').

Lemma member_match_spec m i ti topic acc :
  let '(m', acc', _) := rd_kafka_member_subscription_match rd_regex_match m i ti topic acc in
  upto_eligible m m' /\ acc' = if find_sub m topic then acc ++ [i] else acc.
Proof.
  unfold rd_kafka_member_subscription_match, rd_kafka_group_member_find_subscription.
  pose proof (subscription_match_loop_matched ti topic (rktpl_elems (rkgm_subscription m))
                (rkgm_eligible m) 0 0 ltac:(lia)) as H.
  destruct (subscription_match_loop _ _ _ _ _ _ _) as [[e' k'] h']. destruct H as [Hk H].
  split; [done |]. destruct (existsb _ _); destruct (Z.eqb_spec k' 0); cbn; try done; exfalso; intuition congruence.
Qed.

Lemma topic_members_loop_spec ti topic i members acc :
  let '(members', acc') := topic_members_loop rd_regex_match ti topic i members acc in
  Forall2 upto_eligible members members' /\ acc' = acc ++ subscribers topic i members.
Proof.
  revert i acc. induction members as [| m members IH]; intros i acc; cbn.
  - split; [constructor | now rewrite app_nil_r].
  - pose proof (member_match_spec m i ti topic acc) as H.
    destruct (rd_kafka_member_subscription_match _ _ _ _ _ _) as [[m' acc1] r].
    destruct H as [Hm ->]. specialize (IH (S i) (if find_sub m topic then acc ++ [i] else acc)).
    destruct (topic_members_loop _ _ _ _ _ _) as [ms' acc'].
    destruct IH as [Hms ->]. split; [now constructor |].
    destruct (find_sub m topic); [now rewrite <- app_assoc | done].
Qed.

Lemma upto_eligible_subscription ms ms' :
  Forall2 upto_eligible ms ms' ->
  Forall2 (fun m m' => rkgm_subscription m' = rkgm_subscription m) ms ms'.
Proof. apply Forall2_impl. intros m m' ->. done. Qed.

#[export] Instance upto_eligible_preorder : PreOrder upto_eligible.
Proof. split; [now intros [] | now intros m1 m2 m3 -> ->]. Qed.

(** The topics an assignor is given. *)
Definition blacklisted (blacklist : option (list string)) (topic : string) : bool :=
  match blacklist with
  | Some plist => rd_kafka_pattern_match rd_regex_exec plist topic
  | None => false
  end.

Definition topic_eligible (blacklist : option (list string))
  (members : list rd_kafka_group_member) (t : rd_kafka_metadata_topic)
  : option rd_kafka_assignor_topic :=
  if blacklisted blacklist (mdt_topic t) then None
  else match subscribers (mdt_topic t) 0 members with
       | [] => None
       | ms => Some (mk_at t ms)
       end.

Lemma subscriptions_map_loop_spec blacklist ti topics members acc :
  let '(members', ats) :=
    subscriptions_map_loop rd_regex_match rd_regex_exec blacklist ti topics members acc in
  Forall2 upto_eligible members members' /\
  ats = acc ++ omap (topic_eligible blacklist members) topics.
Proof.
  revert ti members acc. induction topics as [| t topics IH]; intros ti members acc; cbn.
  - split; [reflexivity | now rewrite app_nil_r].
  - fold (blacklisted blacklist (mdt_topic t)). unfold topic_eligible at 1.
    destruct (blacklisted blacklist (mdt_topic t)) eqn:Eb; [apply IH |].
    pose proof (topic_members_loop_spec ti (mdt_topic t) 0 members []) as H.
    destruct (topic_members_loop _ _ _ _ _ _) as [ms1 acc1]. destruct H as [Hm ->]. cbn [app].
    set (acc2 := if _ =? 0 then acc else _).
    specialize (IH (S ti) ms1 acc2).
    destruct (subscriptions_map_loop _ _ _ _ _ _ _) as [ms' ats]. destruct IH as [Hms ->].
    split; [now transitivity ms1 |].
    assert (E : forall t', topic_eligible blacklist ms1 t' = topic_eligible blacklist members t').
    { intros t'. unfold topic_eligible.
      now rewrite (subscribers_ext _ _ members ms1) by now apply upto_eligible_subscription. }
    assert (E' : omap (topic_eligible blacklist ms1) topics
                 = omap (topic_eligible blacklist members) topics)
      by (apply list_omap_ext, list.Forall_Forall2_diag, list.Forall_true; exact E).
    rewrite E'. subst acc2.
    destruct (subscribers (mdt_topic t) 0 members) as [| s ss]; cbn; [done |].
    ztest. now rewrite <- app_assoc.
Qed.
End Matching.

(** ** Assignments *)

(** The partitions a member is assigned, in order. *)
Definition akeys (members : list rd_kafka_group_member) (j : nat) : list (string * Z) :=
  match members !! j with
  | Some m => map tp_key (rktpl_elems (rkgm_assignment m))
  | None => []
  end.

(** Room for [n] more partitions on every member. *)
Definition assign_room (n : Z) (members : list rd_kafka_group_member) : Prop :=
  Forall (fun m => tpl_wf (rkgm_assignment m) /\ rktpl_cnt (rkgm_assignment m) + n <= TPL_MAX)
    members.

(** The same members up to their assignments. *)
Definition upto_assignment (m m' : rd_kafka_group_member) : Prop :=
  m' = member_set_assignment m (rkgm_assignment m').

#[export] Instance upto_assignment_preorder : PreOrder upto_assignment.
Proof. split; [now intros [] | now intros m1 m2 m3 -> ->]. Qed.

Lemma upto_assignment_cmp m m' n n' :
  upto_assignment m m' -> upto_assignment n n' ->
  rd_kafka_group_member_cmp m' n' = rd_kafka_group_member_cmp m n.
Proof. intros -> ->. done. Qed.

Lemma upto_assignment_ptr_cmp ms ms' i j :
  Forall2 upto_assignment ms ms' -> member_ptr_cmp ms' i j = member_ptr_cmp ms i j.
Proof.
  intros H. unfold member_ptr_cmp.
  destruct (ms !! i) as [a |] eqn:Ei.
  - destruct (Forall2_lookup_l _ _ _ _ _ H Ei) as (a' & -> & Ha).
    destruct (ms !! j) as [b |] eqn:Ej.
    + destruct (Forall2_lookup_l _ _ _ _ _ H Ej) as (b' & -> & Hb). now apply upto_assignment_cmp.
    + apply lookup_ge_None in Ej. rewrite (lookup_ge_None_2 ms') by (erewrite <- Forall2_length; eauto).
      done.
  - apply lookup_ge_None in Ei. rewrite (lookup_ge_None_2 ms') by (erewrite <- Forall2_length; eauto).
    done.
Qed.

Lemma upto_assignment_subscription ms ms' :
  Forall2 upto_assignment ms ms' ->
  Forall2 (fun m m' => rkgm_subscription m' = rkgm_subscription m) ms ms'.
Proof. apply Forall2_impl. intros m m' ->. done. Qed.

Lemma assign_room_weaken n n' ms : assign_room n ms -> n' <= n -> assign_room n' ms.
Proof. intros H ?. eapply list.Forall_impl; [exact H |]. cbn. intros m [? ?]. split; [done | lia]. Qed.

(** Replacing the assignment of member [j]. *)
Lemma set_assignment_spec n members j m a ks :
  members !! j = Some m -> assign_room n members -> 0 <= zlen ks <= n ->
  tpl_wf a -> map tp_key (rktpl_elems a) = akeys members j ++ ks ->
  let members' := <[j := member_set_assignment m a]> members in
  Forall2 upto_assignment members members' /\ assign_room (n - zlen ks) members' /\
  forall i, akeys members' i = akeys members i ++ (if decide (j = i) then ks else []).
Proof.
  intros Hj Hr Hn Hw Ek members'. pose proof (lookup_lt_Some _ _ _ Hj) as Hlt. split; [| split].
  - rewrite <- (list_insert_id members j m) at 1 by done.
    apply Forall2_insert; [reflexivity | now destruct m].
  - apply list.Forall_insert; [apply assign_room_weaken with n; [done | lia] |].
    cbn. split; [done |]. unfold assign_room in Hr. rewrite list.Forall_lookup in Hr.
    destruct (Hr j m Hj) as [_ Hc]. unfold rktpl_cnt in *.
    apply (f_equal length) in Ek. unfold akeys in Ek.
    rewrite Hj, length_app, !length_map in Ek. lia.
  - intros i. unfold akeys, members'. destruct (decide (j = i)) as [<- | N].
    + rewrite list_lookup_insert_eq by done. cbn. now rewrite Ek.
    + rewrite list_lookup_insert_ne by done. now rewrite app_nil_r.
Qed.

Lemma add_range_loop_spec n l topic start stop :
  tpl_wf l -> (Z.to_nat (stop + 1 - start) < n)%nat -> start <= stop + 1 ->
  0 <= start -> stop + 1 < 2 ^ 31 -> rktpl_cnt l + (stop + 1 - start) <= TPL_MAX ->
  exists l', add_range_loop n l topic start stop = Some l' /\ tpl_wf l' /\
    map tp_key (rktpl_elems l')
    = map tp_key (rktpl_elems l) ++ map (pair topic) (seqZ start (stop + 1 - start)).
Proof.
  revert l start. induction n as [| n IH]; intros l start Hw Hn Hs H0 Hmax Hc; [lia |].
  cbn [add_range_loop]. destruct (Z.leb_spec start stop) as [Hle | Hgt].
  - destruct (tpl_add_spec l topic start) as (l1 & -> & Hw1 & He1); [done | lia |].
    rewrite swrap_small by (try lia; unfold in_i; lia).
    destruct (IH l1 (start + 1)) as (l' & -> & Hw' & Ek); [done | lia.. | |].
    { unfold rktpl_cnt in *. rewrite He1, length_app. cbn. lia. }
    exists l'. split; [done |]. split; [done |]. rewrite Ek, He1, map_app, <- app_assoc. cbn.
    rewrite (seqZ_cons start) by lia. cbn. do 4 f_equal; lia.
  - exists l. split; [done |]. split; [done |].
    rewrite seqZ_nil by lia. now rewrite app_nil_r.
Qed.

Lemma assign_range_spec n members j topic start len :
  (j < length members)%nat -> assign_room n members -> 0 <= start -> 0 <= len <= n ->
  start + len < 2 ^ 31 ->
  exists members', assign_range members j topic start (start + len - 1) = Some members' /\
    Forall2 upto_assignment members members' /\ assign_room (n - len) members' /\
    forall i, akeys members' i
      = akeys members i ++ (if decide (j = i) then map (pair topic) (seqZ start len) else []).
Proof.
  intros Hj Hr Hs Hl Hmax. unfold assign_range, rd_kafka_topic_partition_list_add_range.
  destruct (lookup_lt_is_Some_2 _ _ Hj) as [m Hm]. rewrite Hm.
  pose proof Hr as Hr'. unfold assign_room in Hr'. rewrite list.Forall_lookup in Hr'.
  destruct (Hr' j m Hm) as [Hw Hc].
  destruct (add_range_loop_spec (S (Z.to_nat (start + len - 1 + 1 - start))) (rkgm_assignment m)
              topic start (start + len - 1)) as (a & -> & Hwa & Ek); [done | lia.. |].
  eexists. split; [done |].
  replace (start + len - 1 + 1 - start) with len in Ek by lia.
  assert (Hlen : zlen (map (pair topic) (seqZ start len)) = len)
    by (rewrite length_map, length_seqZ; lia).
  destruct (set_assignment_spec n members j m a (map (pair topic) (seqZ start len)))
    as (H1 & H2 & H3); [done | done | lia | done | unfold akeys; now rewrite Hm |].
  rewrite Hlen in H2. split; [done |]. split; [done | exact H3].
Qed.

(** ** Ranges *)

(** The range of the [i]th of the members of a topic: [q] partitions each, and one
    more for the first [r]. *)
Definition share_start (q r i : Z) : Z := q * i + Z.min i r.
Definition share (q r i : Z) : list Z := seqZ (share_start q r i) (q + if i + 1 >? r then 0 else 1).

(** The partitions of member [j] when the ranges from [i] on go to [order]. *)
Fixpoint shares (q r i : Z) (order : list nat) (j : nat) : list Z :=
  match order with
  | [] => []
  | m :: order => (if decide (m = j) then share q r i else []) ++ shares q r (i + 1) order j
  end.

Lemma share_start_step q r i :
  share_start q r (i + 1) = share_start q r i + (q + if i + 1 >? r then 0 else 1).
Proof. unfold share_start. destruct (Z.gtb_spec (i + 1) r); lia. Qed.

Lemma share_start_mono q r i n : 0 <= q -> 0 <= r -> 0 <= i -> 0 <= n ->
  0 <= share_start q r i <= share_start q r (i + n).
Proof. unfold share_start. nia. Qed.

Lemma shares_notin q r i order j : j ∉ order -> shares q r i order j = [].
Proof.
  revert i. induction order as [| m order IH]; intros i Hn; cbn; [done |].
  rewrite elem_of_cons in Hn. rewrite decide_False by (intros ->; tauto). apply IH. tauto.
Qed.

Lemma shares_lookup q r i order k j :
  NoDup order -> order !! k = Some j -> shares q r i order j = share q r (i + Z.of_nat k).
Proof.
  revert i k. induction order as [| m order IH]; intros i k Hd Hk; [done |].
  apply list.NoDup_cons in Hd as [Hm Hd]. cbn. destruct k as [| k]; cbn in Hk.
  - injection Hk as ->. rewrite decide_True by done.
    rewrite shares_notin, app_nil_r by done. f_equal. lia.
  - rewrite decide_False, (IH _ k) by (done || intros ->; apply list_elem_of_lookup_2 in Hk; done).
    cbn. f_equal. lia.
Qed.

Lemma shares_concat q r i order :
  NoDup order -> 0 <= q -> 0 <= r -> 0 <= i ->
  concat (map (shares q r i order) order)
  = seqZ (share_start q r i) (share_start q r (i + zlen order) - share_start q r i).
Proof.
  intros Hd Hq Hr. revert i. induction order as [| m order IH]; intros i Hi.
  - cbn. now rewrite Z.add_0_r, Z.sub_diag.
  - apply list.NoDup_cons in Hd as [Hm Hd]. cbn [map concat length].
    assert (E : map (shares q r i (m :: order)) order = map (shares q r (i + 1) order) order).
    { apply list_fmap_ext. intros k j Hj. cbn.
      rewrite decide_False; [done |]. intros ->. now apply list_elem_of_lookup_2 in Hj. }
    rewrite E, (IH Hd (i + 1)) by lia. cbn. rewrite decide_True, shares_notin, app_nil_r by done.
    unfold share. pose proof (share_start_step q r i) as Es.
    set (len := q + if i + 1 >? r then 0 else 1) in *.
    assert (0 <= len) by (subst len; case_match; lia).
    pose proof (share_start_mono q r (i + 1) (zlen order) ltac:(lia) ltac:(lia) ltac:(lia) ltac:(lia)).
    replace (i + Z.of_nat (S (length order))) with (i + 1 + zlen order) by lia.
    replace (share_start q r (i + 1 + zlen order) - share_start q r i)
      with (len + (share_start q r (i + 1 + zlen order) - share_start q r (i + 1))) by lia.
    rewrite seqZ_app by lia. now rewrite <- Es.
Qed.

Lemma range_members_loop_spec topic q r i order members B :
  0 <= q -> 0 <= r -> 0 <= i -> 0 <= B -> share_start q r (i + zlen order) < 2 ^ 31 ->
  i + zlen order < 2 ^ 31 ->
  Forall (fun j => (j < length members)%nat) order ->
  assign_room (B + (share_start q r (i + zlen order) - share_start q r i)) members ->
  exists members', range_members_loop topic q r i order members = Some members' /\
    Forall2 upto_assignment members members' /\ assign_room B members' /\
    forall j, akeys members' j = akeys members j ++ map (pair topic) (shares q r i order j).
Proof.
  intros Hq Hr. revert i members. induction order as [| m order IH];
    intros i members Hi HB Hmax Hmax2 Hlt Hroom; cbn [range_members_loop shares].
  - exists members. split; [done |]. split; [reflexivity |]. split.
    + eapply assign_room_weaken; [exact Hroom |]. rewrite Z.add_0_r. lia.
    + intros j. now rewrite app_nil_r.
  - apply list.Forall_cons in Hlt as [Hm Hlt]. cbn [length] in Hmax, Hmax2, Hroom.
    replace (i + Z.of_nat (S (length order))) with (i + 1 + zlen order) in Hmax, Hmax2, Hroom by lia.
    set (len := q + if i + 1 >? r then 0 else 1).
    pose proof (share_start_step q r i) as Es. fold len in Es.
    pose proof (share_start_mono q r (i + 1) (zlen order) Hq Hr ltac:(lia) ltac:(lia)) as Hmono.
    pose proof (share_start_mono q r i 0 Hq Hr Hi ltac:(lia)) as H0.
    assert (Hlen : 0 <= len) by (subst len; case_match; lia).
    replace (RD_MIN i r) with (Z.min i r) by (unfold RD_MIN; case_match; zlia).
    fold (share_start q r i).
    rewrite (swrap_small 32 (share_start q r i)), (swrap_small 32 len) by (try lia; unfold in_i; lia).
    assert (Hstep : exists ms1, (if len =? 0 then Some members
        else assign_range members m topic (share_start q r i) (i32 (share_start q r i + len - 1)))
        = Some ms1 /\
        Forall2 upto_assignment members ms1 /\
        assign_room (B + (share_start q r (i + 1 + zlen order) - share_start q r (i + 1))) ms1 /\
        forall j, akeys ms1 j
          = akeys members j ++ (if decide (m = j) then map (pair topic) (share q r i) else [])).
    { destruct (Z.eqb_spec len 0) as [E | E].
      - exists members. split; [done |]. split; [reflexivity |]. split.
        + eapply assign_room_weaken; [exact Hroom |]. lia.
        + intros j. unfold share. fold len. rewrite E, seqZ_nil by lia. cbn.
          destruct (decide _); now rewrite app_nil_r.
      - rewrite swrap_small by (try lia; unfold in_i; lia).
        destruct (assign_range_spec _ members m topic (share_start q r i) len Hm Hroom)
          as (ms1 & -> & Hu & Hr1 & Hk); [lia.. |].
        exists ms1. split; [done |]. split; [done |]. split; [| exact Hk].
        eapply assign_room_weaken; [exact Hr1 |]. lia. }
    destruct Hstep as (ms1 & -> & Hu1 & Hr1 & Hk1).
    destruct (IH (i + 1) ms1) as (ms' & -> & Hu' & Hr' & Hk'); [lia | done | done | done | | done |].
    { now rewrite <- (list.Forall2_length _ _ _ Hu1). }
    exists ms'. split; [done |]. split; [now transitivity ms1 |]. split; [done |].
    intros j. rewrite Hk', Hk1, <- app_assoc, map_app. do 2 f_equal. now destruct (decide _).
Qed.

Definition at_cnt (t : rd_kafka_assignor_topic) : Z := mdt_partition_cnt (at_metadata t).
Definition at_topic (t : rd_kafka_assignor_topic) : string := mdt_topic (at_metadata t).

(** The partitions of [j] in a topic whose members are ordered so. *)
Definition topic_shares (t : rd_kafka_assignor_topic) (order : list nat) (j : nat) : list Z :=
  shares (at_cnt t / zlen order) (at_cnt t mod zlen order) 0 order j.

Definition topics_cnt (ats : list rd_kafka_assignor_topic) : Z :=
  foldr (fun t n => at_cnt t + n) 0 ats.

(** A topic an assignor can be given: with members of the group, each once. *)
Definition at_ok (n : nat) (t : rd_kafka_assignor_topic) : Prop :=
  0 <= at_cnt t < 2 ^ 31 /\ NoDup (at_members t) /\ at_members t <> [] /\
  zlen (at_members t) < 2 ^ 31 /\ Forall (fun j => (j < n)%nat) (at_members t).

Lemma topics_cnt_nonneg n ats : Forall (at_ok n) ats -> 0 <= topics_cnt ats.
Proof. induction 1 as [| t ats [] ? IH]; cbn; [lia |]. unfold topics_cnt in IH. lia. Qed.

Lemma share_start_total cnt n : 0 <= cnt -> 0 < n -> share_start (cnt / n) (cnt mod n) n = cnt.
Proof.
  intros Hc Hn. unfold share_start. pose proof (Z.mod_pos_bound cnt n Hn).
  rewrite Z.min_r by lia. pose proof (Z.div_mod cnt n ltac:(lia)). lia.
Qed.

(** An order of the members of a topic. *)
Definition member_order (members : list rd_kafka_group_member) (ms order : list nat) : Prop :=
  order ≡ₚ ms /\ StronglySorted (fun i j => member_ptr_cmp members i j <= 0) order.

Lemma member_order_upto members members' ms order :
  Forall2 upto_assignment members members' -> member_order members' ms order ->
  member_order members ms order.
Proof.
  intros H [Hp Hs]. split; [done |]. clear Hp.
  induction Hs as [| x l Hs IH Hx]; [constructor |]. constructor; [exact IH |].
  eapply list.Forall_impl; [exact Hx |]. cbn. intros y. now rewrite (upto_assignment_ptr_cmp _ _ _ _ H).
Qed.

Lemma uniform_upto members members' :
  Forall2 upto_assignment members members' -> uniform_members members -> uniform_members members'.
Proof.
  intros H [Hu | Hu]; [left | right]; revert Hu; induction H as [| m m' ms ms' E H IH];
    intros Hu; [constructor | | constructor |]; apply list.Forall_cons in Hu as [Hm Hu];
    (constructor; [now rewrite E | now apply IH]).
Qed.

(** One topic. *)
Lemma range_topic_spec (qsort : forall A, (A -> A -> Z) -> list A -> list A) `{!Qsort qsort}
  t members B :
  at_ok (length members) t -> uniform_members members -> 0 <= B ->
  assign_room (B + at_cnt t) members ->
  let order := qsort nat (member_ptr_cmp members) (at_members t) in
  member_order members (at_members t) order /\ zlen order <> 0 /\
  exists members',
    range_members_loop (at_topic t) (Z.quot (at_cnt t) (zlen order)) (Z.rem (at_cnt t) (zlen order))
      0 order members = Some members' /\
    Forall2 upto_assignment members members' /\ assign_room B members' /\
    forall j, akeys members' j = akeys members j ++ map (pair (at_topic t)) (topic_shares t order j).
Proof.
  intros (Hc & Hd & Hne & Hl & Hlt) Hu HB Hroom order.
  assert (Hcmp : comparator_on (member_ptr_cmp members) (at_members t)).
  { apply ptr_cmp_comparator; [done |]. rewrite list.Forall_forall in Hlt. exact Hlt. }
  assert (Ho : member_order members (at_members t) order)
    by (split; [now apply qsort_perm | now apply qsort_sorted]).
  pose proof (Permutation_length (proj1 Ho)) as Hlen.
  assert (Hpos : 0 < zlen order) by (destruct (at_members t); cbn in Hlen; [done | lia]).
  split; [done |]. split; [lia |].
  rewrite Z.quot_div_nonneg, Z.rem_mod_nonneg by lia.
  pose proof (Z.mod_pos_bound (at_cnt t) (zlen order) Hpos).
  pose proof (Z.div_pos (at_cnt t) (zlen order) ltac:(lia) Hpos).
  pose proof (share_start_total (at_cnt t) (zlen order) ltac:(lia) Hpos) as Etot.
  apply range_members_loop_spec; rewrite ?Z.add_0_l, ?Etot; try lia.
  - rewrite (proj1 Ho). exact Hlt.
  - eapply assign_room_weaken; [exact Hroom |]. unfold share_start. lia.
Qed.

Lemma at_ok_upto (members members' : list rd_kafka_group_member) ats :
  Forall2 upto_assignment members members' -> Forall (at_ok (length members)) ats ->
  Forall (at_ok (length members')) ats.
Proof. intros H. now rewrite (list.Forall2_length _ _ _ H). Qed.

Lemma range_topics_loop_spec (qsort : forall A, (A -> A -> Z) -> list A -> list A) `{!Qsort qsort}
  ats members :
  Forall (at_ok (length members)) ats -> uniform_members members ->
  assign_room (topics_cnt ats) members ->
  exists members' orders,
    range_topics_loop qsort ats members = Some members' /\
    Forall2 upto_assignment members members' /\
    Forall2 (fun t order => member_order members (at_members t) order) ats orders /\
    forall j, akeys members' j = akeys members j ++
      concat (zip_with (fun t order => map (pair (at_topic t)) (topic_shares t order j)) ats orders).
Proof.
  intros Hok. revert members Hok. induction ats as [| t ats IH]; intros members Hok Hu Hroom.
  - exists members, []. split; [done |]. split; [reflexivity |]. split; [constructor |].
    intros j. now rewrite app_nil_r.
  - apply list.Forall_cons in Hok as [Ht Hok]. cbn [topics_cnt foldr] in Hroom.
    pose proof (topics_cnt_nonneg _ _ Hok) as H0. unfold topics_cnt in H0.
    rewrite Z.add_comm in Hroom.
    destruct (range_topic_spec qsort t members _ Ht Hu H0 Hroom) as (Ho & Hz & ms1 & E & Hu1 & Hr1 & Hk1).
    cbn [range_topics_loop]. fold (at_cnt t) (at_topic t). ztest. rewrite E.
    destruct (IH ms1) as (ms' & orders & -> & Hu' & Hos & Hk');
      [now apply at_ok_upto with members | now apply uniform_upto with members | done |].
    exists ms', (qsort nat (member_ptr_cmp members) (at_members t) :: orders).
    split; [done |]. split; [now transitivity ms1 |]. split.
    + constructor; [done |]. revert Hos. apply Forall2_impl.
      intros t' o. now apply member_order_upto.
    + intros j. rewrite Hk', Hk1, <- app_assoc. done.
Qed.

(** ** Dealing out *)

(** From [prev] on, cyclically, [o] is the first with [sub]. *)
Definition next_owner (sub : Z -> bool) (n prev o : Z) : Prop :=
  exists d, 0 <= d < n /\ o = (prev + 1 + d) mod n /\ sub o = true /\
    forall d', 0 <= d' < d -> sub ((prev + 1 + d') mod n) = false.

(** Each partition goes to the next owner after the one before. *)
Fixpoint owners_ok (sub : string -> Z -> bool) (n prev : Z) (pairs : list (string * Z))
  (owners : list Z) : Prop :=
  match pairs, owners with
  | [], [] => True
  | p :: pairs, o :: owners =>
      next_owner (sub (fst p)) n prev o /\ owners_ok sub n o pairs owners
  | _, _ => False
  end.

(** What is dealt to [j]. *)
Fixpoint dealt (pairs : list (string * Z)) (owners : list Z) (j : nat) : list (string * Z) :=
  match pairs, owners with
  | p :: pairs, o :: owners =>
      (if decide (Z.to_nat o = j) then [p] else []) ++ dealt pairs owners j
  | _, _ => []
  end.

Lemma last_cons {A} (o : A) os d : List.last (o :: os) d = List.last os o.
Proof. revert o d. induction os as [| x os IH]; intros o d; [done |]. now rewrite (IH x o), <- (IH x d). Qed.

Lemma owners_ok_app sub n prev ps os ps' os' :
  owners_ok sub n prev ps os -> owners_ok sub n (List.last os prev) ps' os' ->
  owners_ok sub n prev (ps ++ ps') (os ++ os') /\
  forall j, dealt (ps ++ ps') (os ++ os') j = dealt ps os j ++ dealt ps' os' j.
Proof.
  revert prev os. induction ps as [| p ps IH]; intros prev [| o os] H H'; try done.
  destruct H as [Ho H]. cbn [app owners_ok dealt].
  rewrite last_cons in H'. destruct (IH o os H H') as [H1 H2].
  split; [now split |]. intros j. now rewrite H2, app_assoc.
Qed.

Lemma mod_step next n d : 0 < n -> ((next + 1) mod n + 1 + (d - 1)) mod n = (next + 1 + d) mod n.
Proof.
  intros H. rewrite <- Z.add_assoc, Z.add_mod_idemp_l by lia. f_equal. lia.
Qed.

Section Roundrobin.
Context (rd_regex_match : string -> string -> Z).

Definition subscribed (members : list rd_kafka_group_member) (topic : string) (o : Z) : bool :=
  match members !! Z.to_nat o with
  | Some m => rd_kafka_group_member_find_subscription rd_regex_match m topic
  | None => false
  end.

Lemma subscribed_upto members members' topic o :
  Forall2 upto_assignment members members' ->
  subscribed members' topic o = subscribed members topic o.
Proof.
  intros H. unfold subscribed. destruct (members !! Z.to_nat o) as [m |] eqn:E.
  - destruct (Forall2_lookup_l _ _ _ _ _ H E) as (m' & -> & ->). done.
  - apply lookup_ge_None in E. rewrite (list.Forall2_length _ _ _ H) in E.
    now rewrite lookup_ge_None_2.
Qed.

(** Enough fuel: one turn around the members, if one is subscribed. *)
Lemma next_member_spec fuel members next topic :
  0 < zlen members < 2 ^ 31 -> -1 <= next < zlen members ->
  (exists d, 0 <= d < Z.of_nat fuel /\
     subscribed members topic ((next + 1 + d) mod zlen members) = true) ->
  exists o, next_member rd_regex_match fuel members next topic = Some o /\
    exists d, 0 <= d < Z.of_nat fuel /\ o = (next + 1 + d) mod zlen members /\
      subscribed members topic o = true /\
      forall d', 0 <= d' < d -> subscribed members topic ((next + 1 + d') mod zlen members) = false.
Proof.
  intros Hn. revert next. induction fuel as [| fuel IH]; intros next Hnext (d & Hd & Hs); [lia |].
  cbn [next_member]. ztest.
  rewrite (wrap_small 64 (next + 1)) by lia.
  pose proof (Z.mod_pos_bound (next + 1) (zlen members) ltac:(lia)) as Hb.
  rewrite swrap_small by (try lia; unfold in_i; lia).
  destruct (lookup_lt_is_Some_2 members (Z.to_nat ((next + 1) mod zlen members))) as [m Hm]; [lia |].
  rewrite Hm.
  assert (Em : subscribed members topic ((next + 1) mod zlen members)
               = rd_kafka_group_member_find_subscription rd_regex_match m topic)
    by (unfold subscribed; now rewrite Hm).
  destruct (rd_kafka_group_member_find_subscription rd_regex_match m topic) eqn:Ef; cbn.
  - eexists. split; [done |]. exists 0. rewrite Z.add_0_r. conj.
  - assert (Hd0 : d <> 0) by (intros ->; rewrite Z.add_0_r in Hs; congruence).
    destruct (IH ((next + 1) mod zlen members)) as (o & E & d1 & Hd1 & -> & Hs1 & Hno).
    { lia. }
    { exists (d - 1). split; [lia |]. now rewrite mod_step by lia. }
    pose proof (mod_step next (zlen members) (d1 + 1) ltac:(lia)) as Eo.
    replace (d1 + 1 - 1) with d1 in Eo by lia. rewrite Eo in E, Hs1.
    eexists. split; [exact E |]. exists (d1 + 1). split; [lia |]. split; [done |].
    split; [exact Hs1 |].
    intros d' Hd'. destruct (Z.eq_dec d' 0) as [-> | N]; [now rewrite Z.add_0_r |].
    rewrite <- (mod_step next (zlen members) d') by lia. apply Hno. lia.
Qed.

Lemma next_member_owner members next topic :
  0 < zlen members < 2 ^ 31 -> -1 <= next < zlen members ->
  (exists k, 0 <= k < zlen members /\ subscribed members topic k = true) ->
  exists o, next_member rd_regex_match (length members) members next topic = Some o /\
    next_owner (subscribed members topic) (zlen members) next o /\ 0 <= o < zlen members.
Proof.
  intros Hn Hnext (k & Hk & Hs).
  destruct (next_member_spec (length members) members next topic Hn Hnext)
    as (o & E & d & Hd & -> & Hso & Hno).
  - exists ((k - (next + 1)) mod zlen members). split; [apply Z.mod_pos_bound; lia |].
    rewrite Z.add_mod_idemp_r by lia. replace (next + 1 + (k - (next + 1))) with k by lia.
    now rewrite Z.mod_small.
  - eexists. split; [exact E |]. split; [exists d; conj | apply Z.mod_pos_bound; lia].
Qed.

Lemma last_range (P : Z -> Prop) os prev : P prev -> Forall P os -> P (List.last os prev).
Proof.
  intros Hp H. revert prev Hp. induction H as [| o os Ho H IH]; intros prev Hp; [done |].
  rewrite last_cons. now apply IH.
Qed.

Lemma owners_ok_ext sub sub' n prev ps os :
  (forall t o, sub' t o = sub t o) -> owners_ok sub' n prev ps os -> owners_ok sub n prev ps os.
Proof.
  intros E. revert prev os. induction ps as [| p ps IH]; intros prev [| o os]; try done.
  intros [(d & Hd & Ho & Hs & Hno) H]. split; [| now apply IH].
  exists d. rewrite <- !E. conj. intros d' Hd'. rewrite <- E. now apply Hno.
Qed.

Lemma roundrobin_partitions_loop_spec n topic partition members next B :
  0 < zlen members < 2 ^ 31 -> -1 <= next < zlen members -> 0 <= B ->
  (exists k, 0 <= k < zlen members /\ subscribed members topic k = true) ->
  assign_room (B + Z.of_nat n) members ->
  let pairs := map (pair topic) (seqZ partition (Z.of_nat n)) in
  exists members' owners,
    roundrobin_partitions_loop rd_regex_match n topic partition members next
    = Some (members', List.last owners next) /\
    Forall2 upto_assignment members members' /\ assign_room B members' /\
    owners_ok (subscribed members) (zlen members) next pairs owners /\
    Forall (fun o => -1 <= o < zlen members) owners /\
    forall j, akeys members' j = akeys members j ++ dealt pairs owners j.
Proof.
  intros Hn Hnext HB Hsub. revert partition members next Hn Hnext Hsub.
  induction n as [| n IH]; intros partition members next Hn Hnext Hsub Hroom pairs.
  - exists members, []. cbn. split; [done |]. split; [reflexivity |].
    split; [eapply assign_room_weaken; [exact Hroom | lia] |]. split; [done |].
    split; [constructor |]. intros j. now rewrite app_nil_r.
  - cbn [roundrobin_partitions_loop].
    destruct (next_member_owner members next topic Hn Hnext Hsub) as (o & -> & Ho & Hor).
    destruct (lookup_lt_is_Some_2 members (Z.to_nat o)) as [m Hm]; [lia |]. rewrite Hm.
    pose proof Hroom as Hr'. unfold assign_room in Hr'. rewrite list.Forall_lookup in Hr'.
    destruct (Hr' _ m Hm) as [Hw Hc].
    destruct (tpl_add_spec (rkgm_assignment m) topic partition) as (a & -> & Hwa & Hea);
      [done | lia |].
    destruct (set_assignment_spec (B + Z.of_nat (S n)) members (Z.to_nat o) m a [(topic, partition)])
      as (Hu1 & Hr1 & Hk1); [done | done | cbn; lia | done | |].
    { unfold akeys. now rewrite Hm, Hea, map_app. }
    set (ms1 := <[Z.to_nat o := member_set_assignment m a]> members) in *.
    assert (El : zlen ms1 = zlen members) by (now rewrite <- (list.Forall2_length _ _ _ Hu1)).
    destruct (IH (partition + 1) ms1 o) as (ms' & owners & -> & Hu' & Hr2 & Hos & Hrange & Hk');
      rewrite ?El; try lia.
    { destruct Hsub as (k & Hk & Hs). exists k. now rewrite (subscribed_upto members). }
    { eapply assign_room_weaken; [exact Hr1 |]. cbn. lia. }
    exists ms', (o :: owners). split; [now rewrite last_cons |].
    split; [now transitivity ms1 |]. split; [done |].
    subst pairs. rewrite seqZ_cons by lia. cbn [map owners_ok dealt fst].
    replace (Z.pred (Z.of_nat (S n))) with (Z.of_nat n) by lia.
    replace (Z.succ partition) with (partition + 1) by lia. rewrite El in *. split; [split; [done |] |].
    + eapply owners_ok_ext; [| exact Hos]. intros t k. now apply subscribed_upto.
    + split; [constructor; [lia | done] |]. intros j. rewrite Hk', Hk1, <- app_assoc. done.
Qed.

(** The partitions dealt out, topic by topic. *)
Definition topics_pairs (ats : list rd_kafka_assignor_topic) : list (string * Z) :=
  concat (map (fun t => map (pair (at_topic t)) (seqZ 0 (at_cnt t))) ats).

Lemma roundrobin_topics_loop_spec ats members next :
  0 < zlen members < 2 ^ 31 -> -1 <= next < zlen members ->
  Forall (fun t => 0 <= at_cnt t /\
    exists k, 0 <= k < zlen members /\ subscribed members (at_topic t) k = true) ats ->
  assign_room (topics_cnt ats) members ->
  exists members' owners,
    roundrobin_topics_loop rd_regex_match ats members next = Some members' /\
    Forall2 upto_assignment members members' /\
    owners_ok (subscribed members) (zlen members) next (topics_pairs ats) owners /\
    forall j, akeys members' j = akeys members j ++ dealt (topics_pairs ats) owners j.
Proof.
  revert members next. induction ats as [| t ats IH]; intros members next Hn Hnext Hats Hroom.
  - exists members, []. split; [done |]. split; [reflexivity |]. split; [done |].
    intros j. now rewrite app_nil_r.
  - apply list.Forall_cons in Hats as [[Hc Hs] Hats].
    assert (H0 : 0 <= topics_cnt ats).
    { clear -Hats. induction Hats as [| t ats [] ? IH]; cbn; [lia |]. unfold topics_cnt in IH. lia. }
    destruct (roundrobin_partitions_loop_spec (Z.to_nat (at_cnt t)) (at_topic t) 0 members next
                (topics_cnt ats)) as (ms1 & os1 & E1 & Hu1 & Hr1 & Ho1 & Hrange & Hk1);
      [done.. | |].
    { eapply assign_room_weaken; [exact Hroom |]. cbn. unfold topics_cnt. lia. }
    rewrite Z2Nat.id in Ho1, Hk1 by lia.
    cbn [roundrobin_topics_loop]. fold (at_cnt t) (at_topic t). rewrite E1.
    assert (El : zlen ms1 = zlen members) by (now rewrite <- (list.Forall2_length _ _ _ Hu1)).
    destruct (IH ms1 (List.last os1 next)) as (ms' & os2 & -> & Hu2 & Ho2 & Hk2); rewrite ?El.
    { done. }
    { now apply (last_range (fun o => -1 <= o < zlen members)). }
    { eapply list.Forall_impl; [exact Hats |]. cbn. intros t' [Hc' (k & Hk & Hsk)].
      split; [done |]. exists k. now rewrite (subscribed_upto members). }
    { done. }
    rewrite El in Ho2.
    destruct (owners_ok_app _ _ _ _ _ (topics_pairs ats) os2 Ho1) as [Ho Hd].
    { eapply owners_ok_ext; [| exact Ho2]. intros t' k. now apply subscribed_upto. }
    exists ms', (os1 ++ os2). split; [done |]. split; [now transitivity ms1 |].
    split; [exact Ho |]. intros j. rewrite Hk2, Hk1, <- app_assoc.
    unfold topics_pairs at 2. cbn [map concat]. fold (topics_pairs ats). now rewrite Hd.
Qed.
End Roundrobin.
