(* ===== verification/AssignorProps.v ===== *)
(** * Properties of the assignors

    Every partition of a topic with a subscriber goes to exactly one of its
    subscribers: in contiguous ranges per topic, or dealt out over the sorted topics
    and members. *)

From stdpp Require Import gmap strings sorting list_numbers.
From S2P Require Import Prelude Msgq Sort TpList TpListFacts Assignor AssignorFacts.

Section Groups.
Context (rd_regex_match : string -> string -> Z) (rd_regex_exec : string -> string -> bool).
Context (qsort : forall A, (A -> A -> Z) -> list A -> list A) `{!Qsort qsort}.

Abbreviation find_sub := (rd_kafka_group_member_find_subscription rd_regex_match).
Abbreviation run := (rd_kafka_assignor_run rd_regex_match rd_regex_exec).
Abbreviation eligible := (topic_eligible rd_regex_match rd_regex_exec).

Definition metadata_cnt (metadata : list rd_kafka_metadata_topic) : Z :=
  foldr (fun t n => mdt_partition_cnt t + n) 0 metadata.

(** What the leader of a group starts from: topics of different names, members
    without assignments, all of them static or none. *)
Record group_ok (metadata : list rd_kafka_metadata_topic) (members : list rd_kafka_group_member)
  : Prop := {
  grp_topics : NoDup (map mdt_topic metadata);
  grp_cnts : Forall (fun t => 0 <= mdt_partition_cnt t) metadata;
  grp_total : metadata_cnt metadata <= TPL_MAX;
  grp_members : zlen members < 2 ^ 31;
  grp_empty : Forall (fun m => tpl_wf (rkgm_assignment m) /\ rktpl_elems (rkgm_assignment m) = [])
                members;
  grp_uniform : uniform_members members }.

(** The members a topic is assigned to. *)
Definition topic_members (blacklist : option (list string))
  (members : list rd_kafka_group_member) (topic : string) : list nat :=
  if blacklisted rd_regex_exec blacklist topic then []
  else subscribers rd_regex_match topic 0 members.

(** The partitions of a topic a member is assigned. *)
Definition parts (members : list rd_kafka_group_member) (topic : string) (j : nat) : list Z :=
  omap (fun '(t, p) => if decide (t = topic) then Some p else None) (akeys members j).

(** *** The members an assignor sees *)

Lemma upto_eligible_room n metadata members members' :
  group_ok metadata members -> n <= TPL_MAX -> Forall2 upto_eligible members members' ->
  assign_room n members' /\ uniform_members members' /\ forall j, akeys members' j = [].
Proof.
  intros [_ _ _ _ He Hu] Hn H. split; [| split].
  - clear Hu. induction H as [| m m' ms ms' E H IH]; constructor.
    + apply list.Forall_cons in He as [[Hw Hz] _]. rewrite E. cbn.
      split; [done |]. unfold rktpl_cnt. rewrite Hz. cbn. lia.
    + apply IH. now apply list.Forall_cons in He as [_ He].
  - clear He. destruct Hu as [Hu | Hu]; [left | right]; revert Hu;
      induction H as [| m m' ms ms' E H IH]; intros Hu;
      [constructor | | constructor |]; apply list.Forall_cons in Hu as [Hm Hu];
      (constructor; [now rewrite E | now apply IH]).
  - intros j. unfold akeys. destruct (members' !! j) as [m' |] eqn:E; [| done].
    destruct (Forall2_lookup_r _ _ _ _ _ H E) as (m & Em & ->). cbn.
    rewrite list.Forall_lookup in He. destruct (He j m Em) as [_ ->]. done.
Qed.

Lemma eligible_spec blacklist members t at_ :
  eligible blacklist members t = Some at_ ->
  at_metadata at_ = t /\ at_members at_ = topic_members blacklist members (mdt_topic t) /\
  at_members at_ <> [].
Proof.
  unfold topic_eligible, topic_members. destruct (blacklisted _ _ _); [done |].
  destruct (subscribers _ _ _ _) eqn:E; [done |]. now intros [= <-].
Qed.

Lemma subscribers_lt topic members :
  Forall (fun j => (j < length members)%nat) (subscribers rd_regex_match topic 0 members).
Proof.
  apply list.Forall_forall. intros j Hj. apply subscribers_spec in Hj as (k & m & -> & Hk & _).
  now apply lookup_lt_Some in Hk.
Qed.

Lemma subscribers_length topic members :
  (length (subscribers rd_regex_match topic 0 members) <= length members)%nat.
Proof.
  rewrite <- (length_seq (length members) 0).
  apply submseteq_length, NoDup_submseteq; [apply subscribers_NoDup |].
  intros j Hj. apply elem_of_seq. pose proof (subscribers_lt topic members) as H.
  rewrite list.Forall_forall in H. specialize (H j Hj). lia.
Qed.

Lemma metadata_cnt_nonneg metadata :
  Forall (fun t => 0 <= mdt_partition_cnt t) metadata ->
  0 <= metadata_cnt metadata /\ Forall (fun t => mdt_partition_cnt t <= metadata_cnt metadata) metadata.
Proof.
  induction 1 as [| t ts Ht H [IH1 IH2]]; cbn; [split; [lia | constructor] |].
  unfold metadata_cnt in *. split; [lia |]. constructor; [lia |].
  eapply list.Forall_impl; [exact IH2 |]. cbn. lia.
Qed.

Lemma eligible_topics_ok blacklist metadata members :
  group_ok metadata members ->
  Forall (at_ok (length members)) (omap (eligible blacklist members) metadata) /\
  topics_cnt (omap (eligible blacklist members) metadata) <= metadata_cnt metadata /\
  NoDup (map at_topic (omap (eligible blacklist members) metadata)).
Proof.
  intros [Hd Hc Ht Hm _ _].
  destruct (metadata_cnt_nonneg metadata Hc) as [H0 Hle].
  split; [| split].
  - apply list.Forall_forall. intros at_ (t & Hin & E)%list_elem_of_omap.
    apply eligible_spec in E as (Et & Em & Hne). unfold at_ok, at_cnt. rewrite Et, Em in *.
    rewrite list.Forall_forall in Hc, Hle. specialize (Hc t Hin). specialize (Hle t Hin).
    unfold TPL_MAX in Ht. split; [lia |]. unfold topic_members in *.
    destruct (blacklisted _ _ _); [done |].
    pose proof (subscribers_length (mdt_topic t) members).
    split; [apply subscribers_NoDup |]. split; [done |]. split; [lia | apply subscribers_lt].
  - clear -Hc. induction Hc as [| t ts Ht H IH]; cbn; [lia |].
    unfold topics_cnt, metadata_cnt in *.
    destruct (eligible blacklist members t) as [at_ |] eqn:E; cbn; [| lia].
    apply eligible_spec in E as (Et & _). unfold at_cnt at 1. rewrite Et. lia.
  - clear -Hd. induction metadata as [| t ts IH]; cbn; [constructor |].
    cbn in Hd. apply list.NoDup_cons in Hd as [Hn Hd].
    destruct (eligible blacklist members t) as [at_ |] eqn:E; cbn; [| now apply IH].
    apply list.NoDup_cons. split; [| now apply IH].
    apply eligible_spec in E as (Et & _). unfold at_topic. rewrite Et.
    intros (at2 & E2 & (t2 & Hin & E3)%list_elem_of_omap)%list_elem_of_fmap.
    apply eligible_spec in E3 as (Et2 & _). destruct Hn. rewrite E2, Et2.
    apply list_elem_of_fmap. eauto.
Qed.

(** *** Ranges *)

Lemma parts_topic (ps : list Z) (t t' : string) :
  omap (fun '(t, p) => if decide (t = t') then Some p else None) (map (pair t) ps)
  = if decide (t = t') then ps else [].
Proof.
  induction ps as [| p ps IH]; cbn; [now destruct (decide _) |].
  rewrite IH. now destruct (decide (t = t')).
Qed.

Lemma parts_zip (f : rd_kafka_assignor_topic -> list nat -> list Z) topic ats orders :
  NoDup (map at_topic ats) -> length ats = length orders ->
  let ps := omap (fun '(t, p) => if decide (t = topic) then Some p else None)
              (concat (zip_with (fun t o => map (pair (at_topic t)) (f t o)) ats orders)) in
  (topic ∉ map at_topic ats -> ps = []) /\
  (forall i t o, ats !! i = Some t -> orders !! i = Some o -> at_topic t = topic -> ps = f t o).
Proof.
  revert orders. induction ats as [| t ats IH]; intros [| o orders] Hd Hl; try done.
  cbn in Hd. apply list.NoDup_cons in Hd as [Hn Hd].
  destruct (IH orders Hd ltac:(cbn in Hl; lia)) as [IH1 IH2].
  cbn [zip_with concat]. rewrite omap_app, parts_topic. split.
  - cbn. rewrite elem_of_cons. intros H. rewrite decide_False by (intros <-; tauto). apply IH1. tauto.
  - intros [| i] t' o' Ht Ho E; cbn in Ht, Ho.
    + injection Ht as ->. injection Ho as ->. rewrite decide_True, IH1 by (congruence || done).
      now rewrite app_nil_r.
    + rewrite decide_False; [now apply (IH2 i) |].
      intros E'. destruct Hn. rewrite E', <- E. apply list_elem_of_fmap.
      exists t'. split; [done |]. now apply list_elem_of_lookup_2 in Ht.
Qed.

(** The run of the range assignor, by topic. *)
Lemma range_run blacklist metadata members :
  group_ok metadata members ->
  exists members' ms1 orders,
    run (rd_kafka_range_assignor_assign_cb qsort) blacklist metadata members
    = Some (members', 0) /\
    Forall2 upto_eligible members ms1 /\ Forall2 upto_assignment ms1 members' /\
    let ats := omap (eligible blacklist members) metadata in
    Forall2 (fun t order => member_order ms1 (at_members t) order) ats orders /\
    forall topic j,
      parts members' topic j = omap (fun '(t, p) => if decide (t = topic) then Some p else None)
        (concat (zip_with (fun t order => map (pair (at_topic t)) (topic_shares t order j))
                   ats orders)).
Proof.
  intros Hg. unfold rd_kafka_assignor_run, rd_kafka_member_subscriptions_map.
  pose proof (subscriptions_map_loop_spec rd_regex_match rd_regex_exec blacklist 0 metadata
                members []) as H.
  destruct (subscriptions_map_loop _ _ _ _ _ _ _) as [ms1 ats]. destruct H as [Hu1 ->]. cbn [app].
  destruct (eligible_topics_ok blacklist metadata members Hg) as (Hok & Hcnt & _).
  destruct (upto_eligible_room (topics_cnt (omap (eligible blacklist members) metadata))
              metadata members ms1 Hg) as (Hr & Huni & Hk); [destruct Hg; lia | done |].
  rewrite (list.Forall2_length _ _ _ Hu1) in Hok.
  destruct (range_topics_loop_spec qsort _ ms1 Hok Huni Hr) as (ms' & orders & E & Hu2 & Ho & Hk').
  exists ms', ms1, orders. unfold rd_kafka_range_assignor_assign_cb. rewrite E.
  split; [done |]. split; [done |]. split; [done |]. split; [done |].
  intros topic j. unfold parts. now rewrite Hk', Hk.
Qed.

Lemma upto_eligible_order members ms1 ms order :
  Forall2 upto_eligible members ms1 -> member_order ms1 ms order -> member_order members ms order.
Proof.
  intros H [Hp Hs]. split; [done |].
  assert (E : forall i j, member_ptr_cmp ms1 i j = member_ptr_cmp members i j).
  { intros i j. unfold member_ptr_cmp.
    assert (L : forall i, match members !! i with
      | Some m => exists m', ms1 !! i = Some m' /\ upto_eligible m m'
      | None => ms1 !! i = None end).
    { intros k. destruct (members !! k) as [m |] eqn:Em.
      - destruct (Forall2_lookup_l _ _ _ _ _ H Em) as (m' & ? & ?). eauto.
      - apply lookup_ge_None in Em. rewrite (list.Forall2_length _ _ _ H) in Em.
        now apply lookup_ge_None_2. }
    pose proof (L i) as Li. pose proof (L j) as Lj.
    destruct (members !! i); [destruct Li as (? & -> & ->) | now rewrite Li].
    destruct (members !! j); [destruct Lj as (? & -> & ->) | now rewrite Lj]. done. }
  clear Hp. induction Hs as [| x l Hs IH Hx]; [constructor |]. constructor; [exact IH |].
  eapply list.Forall_impl; [exact Hx |]. cbn. intros y. now rewrite E.
Qed.

Lemma share_length cnt n k :
  0 <= cnt -> 0 <= k < n ->
  cnt / n <= zlen (share (cnt / n) (cnt mod n) k) <= cnt / n + 1.
Proof.
  intros Hc Hk. unfold share. rewrite length_seqZ.
  pose proof (Z.div_pos cnt n Hc ltac:(lia)). case_match; lia.
Qed.

(** C18. The range assignor gives each topic, unless it is blacklisted or has no
    subscriber, to its subscribers and only to them: in the order of the members
    they get contiguous ranges that cover partitions 0 to n - 1 once, of sizes
    that differ by at most one. *)
Theorem range_assignor_covers blacklist metadata members (Hg : group_ok metadata members) :
  exists members',
    run (rd_kafka_range_assignor_assign_cb qsort) blacklist metadata members
    = Some (members', 0) /\
    length members' = length members /\
    forall t, t ∈ metadata ->
    let topic := mdt_topic t in
    let cnt := mdt_partition_cnt t in
    exists order,
      member_order members (topic_members blacklist members topic) order /\
      (order <> [] -> concat (map (parts members' topic) order) = seqZ 0 cnt) /\
      forall j,
        (j ∉ order -> parts members' topic j = []) /\
        (j ∈ order ->
         cnt / zlen order <= zlen (parts members' topic j) <= cnt / zlen order + 1).
Proof.
  destruct (range_run blacklist metadata members Hg)
    as (members' & ms1 & orders & E & Hu1 & Hu2 & Ho & Hp).
  exists members'. split; [exact E |]. split.
  { now rewrite <- (list.Forall2_length _ _ _ Hu2), (list.Forall2_length _ _ _ Hu1). }
  intros t Hin topic cnt.
  destruct (eligible_topics_ok blacklist metadata members Hg) as (Hok & _ & Hd).
  set (ats := omap (eligible blacklist members) metadata) in *.
  assert (Hz := fun j => parts_zip (fun t o => topic_shares t o j) topic ats orders Hd
                           (list.Forall2_length _ _ _ Ho)).
  destruct (eligible blacklist members t) as [at_ |] eqn:Ee.
  - assert (Hin' : at_ ∈ ats) by (apply list_elem_of_omap; eauto).
    apply eligible_spec in Ee as (Et & Em & Hne).
    apply list_elem_of_lookup in Hin' as [i Hi].
    destruct (Forall2_lookup_l _ _ _ _ _ Ho Hi) as (order & Hoi & Hord).
    assert (Hpj : forall j, parts members' topic j = topic_shares at_ order j).
    { intros j. rewrite Hp. apply (proj2 (Hz j) i at_ order); [done | done |].
      unfold at_topic. now rewrite Et. }
    rewrite list.Forall_lookup in Hok. destruct (Hok i at_ Hi) as (Hc & Hnd & _).
    assert (Hndo : NoDup order) by now rewrite (proj1 Hord).
    unfold at_cnt in Hc. rewrite Et in Hc. fold cnt in Hc.
    fold topic in Em. exists order. rewrite <- Em. split; [now apply upto_eligible_order with ms1 |].
    rewrite (map_ext _ _ Hpj). unfold topic_shares, at_cnt. rewrite Et. fold cnt. split.
    + intros Hne'. assert (0 < zlen order) by (destruct order; cbn; [done | lia]).
      pose proof (Z.mod_pos_bound cnt (zlen order) ltac:(lia)).
      pose proof (Z.div_pos cnt (zlen order) ltac:(lia) ltac:(lia)).
      rewrite shares_concat by (done || lia). rewrite Z.add_0_l, share_start_total by lia.
      unfold share_start. rewrite Z.mul_0_r, Z.min_l, Z.sub_0_r by lia. done.
    + intros j. rewrite Hpj. unfold topic_shares, at_cnt. rewrite Et. fold cnt.
      split; [apply shares_notin |]. intros [k Hk]%list_elem_of_lookup.
      rewrite (shares_lookup _ _ _ _ k) by done.
      apply share_length; [lia |]. apply lookup_lt_Some in Hk. lia.
  - assert (Hnone : topic_members blacklist members topic = []).
    { unfold topic_eligible, topic_members in *. subst topic.
      destruct (blacklisted _ _ _); [done |]. now destruct (subscribers _ _ _ _). }
    exists []. rewrite Hnone. split; [split; [done | constructor] |]. split; [done |].
    intros j. split; [intros _ | now intros ?%elem_of_nil].
    rewrite Hp. apply (proj1 (Hz j)).
    intros (at2 & E2 & (t2 & Hin2 & E3)%list_elem_of_omap)%list_elem_of_fmap.
    pose proof (eligible_spec _ _ _ _ E3) as (Et2 & _). unfold at_topic in E2. rewrite Et2 in E2.
    assert (t2 = t); [| congruence].
    apply list_elem_of_lookup in Hin2 as [i2 Hi2]. apply list_elem_of_lookup in Hin as [i Hi].
    enough (i2 = i) by congruence.
    eapply (proj1 (NoDup_alt _) (grp_topics _ _ Hg)).
    + change (mdt_topic <$> metadata) with (map mdt_topic metadata).
      rewrite list_lookup_fmap, Hi2. reflexivity.
    + rewrite list_lookup_fmap, Hi. cbn. now rewrite <- E2.
Qed.

(** *** Round robin *)

Definition member_identity (m : rd_kafka_group_member) :=
  (rkgm_member_id m, rkgm_group_instance_id m, rkgm_subscription m).

(** Dealing loses nothing and gives nothing twice. *)
Lemma dealt_perm sub n prev pairs owners (k : nat) :
  owners_ok sub n prev pairs owners -> n <= Z.of_nat k ->
  concat (map (dealt pairs owners) (seq 0 k)) ≡ₚ pairs.
Proof.
  revert prev owners. induction pairs as [| p pairs IH]; intros prev owners H Hn.
  - assert (E : map (dealt [] owners) (seq 0 k) = map (fun _ => []) (seq 0 k))
      by now apply map_ext.
    rewrite E. clear. induction (seq 0 k); [done | exact IHl].
  - destruct owners as [| o owners]; [done |]. destruct H as [(d & Hd & -> & _) H].
    rewrite <- (IH _ _ H Hn) at 2. set (o := (prev + 1 + d) mod n) in *.
    assert (Ho : 0 <= o < n) by (subst o; apply Z.mod_pos_bound; lia).
    replace k with (Z.to_nat o + S (k - S (Z.to_nat o)))%nat by lia.
    rewrite seq_app, !map_app, !concat_app. cbn [seq map concat dealt Nat.add].
    rewrite decide_True by done. cbn [app].
    assert (E : forall a c, (forall i, (a <= i < a + c)%nat -> i <> Z.to_nat o) ->
      map (dealt (p :: pairs) (o :: owners)) (seq a c) = map (dealt pairs owners) (seq a c)).
    { intros a c Hi. apply list_fmap_ext. intros j x Hx. cbn.
      rewrite decide_False; [done |]. apply lookup_seq in Hx as [-> Hx].
      intros E. now apply (Hi (a + j)%nat); [lia |]. }
    rewrite !E by lia. symmetry. apply Permutation_middle.
Qed.

(** *** What a permutation of the members keeps *)

Lemma topics_cnt_perm ats ats' : ats ≡ₚ ats' -> topics_cnt ats = topics_cnt ats'.
Proof. induction 1; cbn; unfold topics_cnt in *; lia. Qed.

Lemma akeys_perm_nil ms ms' :
  ms' ≡ₚ ms -> (forall j, akeys ms j = []) -> forall j, akeys ms' j = [].
Proof.
  intros Hp Hk j. unfold akeys. destruct (ms' !! j) as [m |] eqn:E; [| done].
  apply list_elem_of_lookup_2 in E. rewrite Hp in E. apply list_elem_of_lookup in E as [i Hi].
  specialize (Hk i). unfold akeys in Hk. now rewrite Hi in Hk.
Qed.

Lemma eligible_subscriber blacklist (metadata : list rd_kafka_metadata_topic) members ms1 ms2 t :
  Forall2 upto_eligible members ms1 -> ms2 ≡ₚ ms1 ->
  t ∈ omap (eligible blacklist members) metadata ->
  exists k, 0 <= k < zlen ms2 /\ subscribed rd_regex_match ms2 (at_topic t) k = true.
Proof.
  intros Hu Hp (t' & _ & E)%list_elem_of_omap.
  apply eligible_spec in E as (Et & Em & Hne). unfold at_topic. rewrite Et.
  unfold topic_members in Em. destruct (blacklisted _ _ _); [now rewrite Em in Hne |].
  destruct (at_members t) as [| j js]; [done |].
  assert (Hj : j ∈ subscribers rd_regex_match (mdt_topic t') 0 members)
    by (rewrite <- Em; apply elem_of_cons; now left).
  apply subscribers_spec in Hj as (k & m & _ & Hk & Hf).
  destruct (Forall2_lookup_l _ _ _ _ _ Hu Hk) as (m' & Hk' & E').
  apply list_elem_of_lookup_2 in Hk'. rewrite <- Hp in Hk'.
  apply list_elem_of_lookup in Hk' as [i Hi]. pose proof (lookup_lt_Some _ _ _ Hi).
  exists (Z.of_nat i). split; [lia |]. unfold subscribed. rewrite Nat2Z.id, Hi.
  rewrite E'. exact Hf.
Qed.

Lemma identity_upto members members' :
  Forall2 upto_assignment members members' ->
  map member_identity members' = map member_identity members.
Proof. induction 1 as [| m m' ? ? E ? IH]; cbn; [done |]. now rewrite IH, E. Qed.

Lemma identity_eligible members members' :
  Forall2 upto_eligible members members' ->
  map member_identity members' = map member_identity members.
Proof. induction 1 as [| m m' ? ? E ? IH]; cbn; [done |]. now rewrite IH, E. Qed.

Lemma members_sorted_upto members members' :
  Forall2 upto_assignment members members' ->
  StronglySorted (fun a b => rd_kafka_group_member_cmp a b <= 0) members ->
  StronglySorted (fun a b => rd_kafka_group_member_cmp a b <= 0) members'.
Proof.
  induction 1 as [| m m' ms ms' E H IH]; intros Hs; [constructor |].
  inversion Hs as [| ? ? Hs' Hx]; subst. constructor; [now apply IH |]. clear -E H Hx.
  induction H as [| n n' ms ms' E' H IH]; [constructor |].
  apply list.Forall_cons in Hx as [Hn Hx]. constructor; [| now apply IH].
  now rewrite (upto_assignment_cmp _ _ _ _ E E').
Qed.

(** The run of the round-robin assignor. *)
Lemma roundrobin_run blacklist metadata members :
  group_ok metadata members ->
  exists members' ats owners,
    run (rd_kafka_roundrobin_assignor_assign_cb rd_regex_match qsort) blacklist metadata members
    = Some (members', 0) /\
    map member_identity members' ≡ₚ map member_identity members /\
    StronglySorted (fun a b => rd_kafka_group_member_cmp a b <= 0) members' /\
    ats ≡ₚ omap (eligible blacklist members) metadata /\
    StronglySorted (fun a b => rd_kafka_assignor_topic_cmp a b <= 0) ats /\
    owners_ok (subscribed rd_regex_match members') (zlen members) (-1) (topics_pairs ats) owners /\
    forall j, akeys members' j = dealt (topics_pairs ats) owners j.
Proof.
  intros Hg. unfold rd_kafka_assignor_run, rd_kafka_member_subscriptions_map.
  pose proof (subscriptions_map_loop_spec rd_regex_match rd_regex_exec blacklist 0 metadata
                members []) as H.
  destruct (subscriptions_map_loop _ _ _ _ _ _ _) as [ms1 ats0]. destruct H as [Hu1 ->]. cbn [app].
  destruct (eligible_topics_ok blacklist metadata members Hg) as (Hok & Hcnt & _).
  set (ats0 := omap (eligible blacklist members) metadata) in *.
  destruct (upto_eligible_room (topics_cnt ats0) metadata members ms1 Hg) as (Hr & Huni & Hk);
    [destruct Hg; lia | done |].
  unfold rd_kafka_roundrobin_assignor_assign_cb.
  pose proof (member_cmp_comparator ms1 Huni) as Hmc.
  pose proof (qsort_perm _ _ _ Hmc) as Hmp. pose proof (qsort_sorted _ _ _ Hmc) as Hms.
  assert (Htc : comparator_on rd_kafka_assignor_topic_cmp ats0).
  { apply comparator_everywhere. unfold rd_kafka_assignor_topic_cmp.
    split; intros; [apply cmp_flip | eapply cmp_trans; eauto]. }
  pose proof (qsort_perm _ _ _ Htc) as Htp. pose proof (qsort_sorted _ _ _ Htc) as Hts.
  revert Hmp Hms Htp Hts. generalize (qsort _ rd_kafka_group_member_cmp ms1).
  generalize (qsort _ rd_kafka_assignor_topic_cmp ats0). intros ats ms2 Hmp Hms Htp Hts.
  assert (Hl : length ms2 = length members)
    by now rewrite Hmp, (list.Forall2_length _ _ _ Hu1).
  assert (Hloop : exists members' owners,
    roundrobin_topics_loop rd_regex_match ats ms2 (-1) = Some members' /\
    Forall2 upto_assignment ms2 members' /\
    owners_ok (subscribed rd_regex_match ms2) (zlen ms2) (-1) (topics_pairs ats) owners /\
    forall j, akeys members' j = akeys ms2 j ++ dealt (topics_pairs ats) owners j).
  { destruct ats as [| t0 ats'] eqn:Eats.
    { exists ms2, []. split; [done |]. split; [reflexivity |]. split; [done |].
      intros j. now rewrite app_nil_r. }
    rewrite <- Eats in *.
    assert (Hsub : forall t, t ∈ ats -> exists k, 0 <= k < zlen ms2 /\
      subscribed rd_regex_match ms2 (at_topic t) k = true).
    { intros t Hin. rewrite Htp in Hin. now apply (eligible_subscriber blacklist metadata members ms1). }
    destruct (Hsub t0) as (k0 & Hk0 & _); [rewrite Eats; apply elem_of_cons; now left |].
    apply roundrobin_topics_loop_spec; [destruct Hg; lia | lia | |].
    - apply list.Forall_forall. intros t Hin. split; [| now apply Hsub].
      rewrite Htp in Hin. rewrite list.Forall_forall in Hok. destruct (Hok t Hin) as [Hc _]. lia.
    - rewrite (topics_cnt_perm _ _ Htp). unfold assign_room. rewrite Hmp. exact Hr. }
  destruct Hloop as (members' & owners & E & Hu2 & Ho & Hk').
  exists members', ats, owners. rewrite E. split; [done |]. split.
  { now rewrite (identity_upto _ _ Hu2), <- (identity_eligible _ _ Hu1), Hmp. }
  split; [now apply members_sorted_upto with ms2 |]. split; [done |]. split; [done |]. split.
  - rewrite <- Hl. eapply owners_ok_ext; [| exact Ho]. intros t o. symmetry.
    now apply subscribed_upto.
  - intros j. now rewrite Hk', (akeys_perm_nil _ _ Hmp Hk).
Qed.

(** C19. The round-robin assignor ends, on every group whose members compare, and
    deals the partitions of the topics that have a subscriber and are not
    blacklisted, topic by topic in the order of their names, over the sorted
    members: each goes to the first subscribed member after the one before it.  So
    each is in the assignment of exactly one member, who subscribes to it. *)
Theorem roundrobin_assignor_deals blacklist metadata members (Hg : group_ok metadata members) :
  exists members' ats owners,
    run (rd_kafka_roundrobin_assignor_assign_cb rd_regex_match qsort) blacklist metadata members
    = Some (members', 0) /\
    map member_identity members' ≡ₚ map member_identity members /\
    StronglySorted (fun a b => rd_kafka_group_member_cmp a b <= 0) members' /\
    ats ≡ₚ omap (eligible blacklist members) metadata /\
    StronglySorted (fun a b => rd_kafka_assignor_topic_cmp a b <= 0) ats /\
    owners_ok (subscribed rd_regex_match members') (zlen members) (-1) (topics_pairs ats) owners /\
    (forall j, akeys members' j = dealt (topics_pairs ats) owners j) /\
    concat (map (akeys members') (seq 0 (length members'))) ≡ₚ topics_pairs ats.
Proof.
  destruct (roundrobin_run blacklist metadata members Hg)
    as (members' & ats & owners & E & Hid & Hs & Hp & Hts & Ho & Hk).
  exists members', ats, owners. conj.
  rewrite (map_ext _ _ Hk). apply (dealt_perm _ _ _ _ _ _ Ho).
  apply Permutation_length in Hid. rewrite !length_map in Hid. lia.
Qed.

(** *** Identical subscriptions *)

(** Dealing in turn, from the first member on. *)
Definition in_turn (n : Z) (owners : list Z) : Prop :=
  forall k o, owners !! k = Some o -> o = Z.of_nat k mod n.

Lemma next_owner_all (sub : Z -> bool) n prev o :
  (forall k, 0 <= k < n -> sub k = true) -> next_owner sub n prev o -> o = (prev + 1) mod n.
Proof.
  intros Ha (d & Hd & -> & _ & Hno).
  destruct (Z.eq_dec d 0) as [-> | N]; [f_equal; lia |].
  specialize (Hno 0 ltac:(lia)). rewrite Ha in Hno; [done | apply Z.mod_pos_bound; lia].
Qed.

Lemma owners_ok_sub sub n prev pairs owners p :
  owners_ok sub n prev pairs owners -> p ∈ pairs -> exists o, sub (fst p) o = true.
Proof.
  revert prev owners. induction pairs as [| q pairs IH]; intros prev [| o owners] H Hin; try done.
  - now apply elem_of_nil in Hin.
  - destruct H as [(d & _ & _ & Hs & _) H]. apply elem_of_cons in Hin as [-> | Hin]; eauto.
Qed.

Lemma owners_in_turn sub n prev pairs owners :
  (forall p k, p ∈ pairs -> 0 <= k < n -> sub (fst p) k = true) ->
  owners_ok sub n prev pairs owners ->
  length owners = length pairs /\
  forall k o, owners !! k = Some o -> o = (prev + 1 + Z.of_nat k) mod n.
Proof.
  revert prev owners. induction pairs as [| p pairs IH]; intros prev [| o owners] Ha H; try done.
  destruct H as [Ho H].
  assert (Hn : 0 < n) by (destruct Ho as (d & Hd & _); lia).
  apply next_owner_all in Ho; [| intros k; apply Ha, elem_of_cons; now left].
  destruct (IH o owners) as [Hl Hk]; [| done |].
  { intros q k Hq. apply Ha, elem_of_cons. now right. }
  split; [cbn; lia |]. intros [| k] o'; cbn.
  - intros [= <-]. rewrite Z.add_0_r. exact Ho.
  - intros Hk'. rewrite (Hk _ _ Hk'), Ho, <- Z.add_assoc, Z.add_mod_idemp_l by lia.
    f_equal. lia.
Qed.

Lemma turn_count T n j : 0 <= T -> 0 <= j < n ->
  (T + 1 + (n - 1 - j)) / n = (T + (n - 1 - j)) / n + (if T mod n =? j then 1 else 0).
Proof.
  intros HT Hj. pose proof (Z.div_mod T n ltac:(lia)) as E.
  pose proof (Z.mod_pos_bound T n ltac:(lia)) as Hb. set (r := T mod n) in *. set (q := T / n) in *.
  assert (Hu : forall a x y, a = n * x + y -> 0 <= y < n -> a / n = x)
    by (intros a x y Ha Hy; symmetry; apply (Z.div_unique a n x y); lia).
  destruct (Z.eqb_spec r j) as [Ej | N].
  - rewrite (Hu _ (q + 1) 0), (Hu (T + _) q (n - 1)) by lia. lia.
  - destruct (Z_lt_ge_dec r j).
    + rewrite (Hu _ q (r + n - j)), (Hu (T + _) q (r + n - 1 - j)) by lia. lia.
    + rewrite (Hu _ (q + 1) (r - j)), (Hu (T + _) (q + 1) (r - 1 - j)) by lia. lia.
Qed.

Lemma dealt_snoc pairs owners p o j :
  length owners = length pairs ->
  dealt (pairs ++ [p]) (owners ++ [o]) j
  = dealt pairs owners j ++ (if decide (Z.to_nat o = j) then [p] else []).
Proof.
  revert owners. induction pairs as [| q pairs IH]; intros [| x owners] Hl; try done; cbn.
  - now rewrite app_nil_r.
  - rewrite IH by (cbn in Hl; lia). now rewrite app_assoc.
Qed.

(** The load of member [j] after [T] partitions. *)
Lemma dealt_in_turn n pairs owners j :
  0 < n -> 0 <= Z.of_nat j < n -> length owners = length pairs -> in_turn n owners ->
  zlen (dealt pairs owners j) = (zlen pairs + (n - 1 - Z.of_nat j)) / n.
Proof.
  intros Hn Hj. revert owners. induction pairs as [| p pairs IH] using rev_ind; intros owners Hl Ht.
  - cbn. rewrite Z.div_small by lia. done.
  - destruct owners as [| o owners' _] using rev_ind; [rewrite length_app in Hl; cbn in Hl; lia |].
    rewrite !length_app in Hl. cbn in Hl.
    rewrite dealt_snoc, length_app by lia.
    assert (Ho : o = zlen pairs mod n).
    { replace (length pairs) with (length owners') by lia. apply Ht.
      now rewrite lookup_app_r, Nat.sub_diag by lia. }
    rewrite Nat2Z.inj_add, IH; [| lia |].
    2: { intros k x Hx. apply Ht. rewrite lookup_app_l; [done |]. now apply lookup_lt_Some in Hx. }
    rewrite length_app. cbn [length]. rewrite Nat2Z.inj_add, turn_count by lia.
    pose proof (Z.mod_pos_bound (zlen pairs) n Hn).
    destruct (Z.eqb_spec (zlen pairs mod n) (Z.of_nat j)), (decide (Z.to_nat o = j)); cbn; lia.
Qed.

Lemma subscribed_all s members topic k0 :
  Forall (fun m => rkgm_subscription m = s) members ->
  subscribed rd_regex_match members topic k0 = true ->
  forall k, 0 <= k < zlen members -> subscribed rd_regex_match members topic k = true.
Proof.
  intros Hs Hk0 k Hk. unfold subscribed in *.
  destruct (members !! Z.to_nat k0) as [m0 |] eqn:E0; [| done].
  destruct (lookup_lt_is_Some_2 members (Z.to_nat k)) as [m Hm]; [lia |]. rewrite Hm.
  rewrite list.Forall_lookup in Hs.
  unfold rd_kafka_group_member_find_subscription in *.
  now rewrite (Hs _ _ Hm), <- (Hs _ _ E0).
Qed.

(** When all members have the same subscription, the round-robin assignor deals
    in turn: of T partitions member j of the n sorted members gets every nth from
    the jth on, so that no two members differ by more than one partition. *)
Lemma roundrobin_balanced blacklist metadata members s (Hg : group_ok metadata members)
  (Hs : Forall (fun m => rkgm_subscription m = s) members) :
  exists members' ats owners,
    run (rd_kafka_roundrobin_assignor_assign_cb rd_regex_match qsort) blacklist metadata members
    = Some (members', 0) /\
    ats ≡ₚ omap (eligible blacklist members) metadata /\
    let n := zlen members in
    let T := zlen (topics_pairs ats) in
    length members' = length members /\
    in_turn n owners /\
    forall j, (j < length members)%nat ->
      akeys members' j = dealt (topics_pairs ats) owners j /\
      zlen (akeys members' j) = (T + (n - 1 - Z.of_nat j)) / n /\
      T / n <= zlen (akeys members' j) <= T / n + 1.
Proof.
  destruct (roundrobin_run blacklist metadata members Hg)
    as (members' & ats & owners & E & Hid & _ & Hp & _ & Ho & Hk).
  exists members', ats, owners. split; [exact E |]. split; [exact Hp |]. cbn zeta.
  assert (Hl : length members' = length members)
    by (apply Permutation_length in Hid; now rewrite !length_map in Hid).
  split; [exact Hl |].
  assert (Hs' : Forall (fun m => rkgm_subscription m = s) members').
  { apply list.Forall_forall. intros m Hm.
    assert (Hi : member_identity m ∈ map member_identity members)
      by (rewrite <- Hid; apply list_elem_of_fmap; eauto).
    apply list_elem_of_fmap in Hi as (m0 & Ei & Hm0). rewrite list.Forall_forall in Hs.
    rewrite <- (Hs m0 Hm0). unfold member_identity in Ei. congruence. }
  assert (Ht : length owners = length (topics_pairs ats) /\ in_turn (zlen members) owners).
  { refine (owners_in_turn (subscribed rd_regex_match members') (zlen members) (-1) _ _ _ Ho).
    intros p k Hin Hk'. destruct (owners_ok_sub _ _ _ _ _ p Ho Hin) as (o & Hso).
    apply (subscribed_all s members' (fst p) o Hs' Hso). lia. }
  destruct Ht as [Hlen Ht]. split; [exact Ht |]. intros j Hj.
  assert (Hd : zlen (akeys members' j)
    = (zlen (topics_pairs ats) + (zlen members - 1 - Z.of_nat j)) / zlen members)
    by (rewrite Hk; apply dealt_in_turn; lia || done).
  split; [apply Hk |]. split; [exact Hd |]. rewrite Hd. split.
  - apply Z.div_le_mono; lia.
  - rewrite <- Z.div_add by lia. apply Z.div_le_mono; lia.
Qed.
End Groups.

(** ** A group *)

Definition sub_to (topics : list string) : rd_kafka_topic_partition_list :=
  mk_tpl (map (fun t => mk_tp t (-1) 0 None 0 0 0 None) topics) (zlen topics).
Definition fresh_member (id : string) (topics : list string) : rd_kafka_group_member :=
  mk_member (sub_to topics) (rd_kafka_topic_partition_list_new 0) None [] id None.

Definition ex_topics : list rd_kafka_metadata_topic := [mk_mdt "t1" 3; mk_mdt "t0" 4; mk_mdt "x" 2].
Definition ex_group : list rd_kafka_group_member :=
  [fresh_member "C1" ["t0"; "t1"]; fresh_member "C0" ["t1"; "t0"]; fresh_member "C2" ["t0"]].
Definition ex_same : list rd_kafka_group_member :=
  [fresh_member "C1" ["t0"; "t1"]; fresh_member "C0" ["t0"; "t1"]].

#[local] Ltac group_ok_tac :=
  split; [ apply (bool_decide_unpack _); now vm_compute | | now vm_compute | now vm_compute | | right ];
  repeat constructor; (done || (cbn; lia) || now vm_compute).

Lemma ex_group_ok : group_ok ex_topics ex_group.
Proof. group_ok_tac. Qed.

Lemma ex_same_ok : group_ok ex_topics ex_same.
Proof. group_ok_tac. Qed.

Lemma range_assignor_covers_witness :
  exists members',
    rd_kafka_assignor_run (fun _ _ => 0) (fun _ _ => false)
      (rd_kafka_range_assignor_assign_cb isort) None ex_topics ex_group = Some (members', 0) /\
    length members' = 3%nat /\
    forall t, t ∈ ex_topics ->
    let topic := mdt_topic t in
    let cnt := mdt_partition_cnt t in
    exists order,
      member_order ex_group
        (topic_members (fun _ _ => 0) (fun _ _ => false) None ex_group topic) order /\
      (order <> [] -> concat (map (parts members' topic) order) = seqZ 0 cnt) /\
      forall j,
        (j ∉ order -> parts members' topic j = []) /\
        (j ∈ order -> cnt / zlen order <= zlen (parts members' topic j) <= cnt / zlen order + 1).
Proof. exact (range_assignor_covers _ _ isort None ex_topics ex_group ex_group_ok). Defined.

Lemma roundrobin_assignor_deals_witness :
  exists members' ats owners,
    rd_kafka_assignor_run (fun _ _ => 0) (fun _ _ => false)
      (rd_kafka_roundrobin_assignor_assign_cb (fun _ _ => 0) isort) None ex_topics ex_group
    = Some (members', 0) /\
    map member_identity members' ≡ₚ map member_identity ex_group /\
    StronglySorted (fun a b => rd_kafka_group_member_cmp a b <= 0) members' /\
    ats ≡ₚ omap (topic_eligible (fun _ _ => 0) (fun _ _ => false) None ex_group) ex_topics /\
    StronglySorted (fun a b => rd_kafka_assignor_topic_cmp a b <= 0) ats /\
    owners_ok (subscribed (fun _ _ => 0) members') 3 (-1) (topics_pairs ats) owners /\
    (forall j, akeys members' j = dealt (topics_pairs ats) owners j) /\
    concat (map (akeys members') (seq 0 (length members'))) ≡ₚ topics_pairs ats.
Proof. exact (roundrobin_assignor_deals _ _ isort None ex_topics ex_group ex_group_ok). Defined.

(** The assignments the two assignors compute for the group. *)
Example ex_group_range :
  option_map (fun r => map (fun m => map tp_key (rktpl_elems (rkgm_assignment m))) (fst r))
    (rd_kafka_assignor_run (fun _ _ => 0) (fun _ _ => false)
      (rd_kafka_range_assignor_assign_cb isort) None ex_topics ex_group)
  = Some [[("t1", 2); ("t0", 2)]; [("t1", 0); ("t1", 1); ("t0", 0); ("t0", 1)]; [("t0", 3)]].
Proof. reflexivity. Qed.

Example ex_group_roundrobin :
  option_map (fun r => map (fun m => map tp_key (rktpl_elems (rkgm_assignment m))) (fst r))
    (rd_kafka_assignor_run (fun _ _ => 0) (fun _ _ => false)
      (rd_kafka_roundrobin_assignor_assign_cb (fun _ _ => 0) isort) None ex_topics ex_group)
  = Some [[("t0", 0); ("t0", 3); ("t1", 1)]; [("t0", 1); ("t1", 0); ("t1", 2)]; [("t0", 2)]].
Proof. reflexivity. Qed.

Lemma roundrobin_balanced_witness :
  exists members' ats owners,
    rd_kafka_assignor_run (fun _ _ => 0) (fun _ _ => false)
      (rd_kafka_roundrobin_assignor_assign_cb (fun _ _ => 0) isort) None ex_topics ex_same
    = Some (members', 0) /\
    ats ≡ₚ omap (topic_eligible (fun _ _ => 0) (fun _ _ => false) None ex_same) ex_topics /\
    let n := 2 in
    let T := zlen (topics_pairs ats) in
    length members' = 2%nat /\
    in_turn n owners /\
    forall j, (j < 2)%nat ->
      akeys members' j = dealt (topics_pairs ats) owners j /\
      zlen (akeys members' j) = (T + (n - 1 - Z.of_nat j)) / n /\
      T / n <= zlen (akeys members' j) <= T / n + 1.
Proof.
  apply (roundrobin_balanced (fun _ _ => 0) (fun _ _ => false) isort None ex_topics ex_same
           (sub_to ["t0"; "t1"]) ex_same_ok).
  repeat constructor.
Defined.

(** ** Groups of static and dynamic members *)

(** Static members are compared by group instance id, and by member id as soon
    as one of the two is dynamic.  Over the members of a mixed group the result is no
    order: of three members each can be below the next around a cycle, so that what
    [qsort] does with them is undefined. *)
Lemma member_cmp_mixed_cycle ia ib ic m1 m2 m3
  (Hi : strcmp ic ia < 0) (H12 : strcmp m1 m2 < 0) (H23 : strcmp m2 m3 < 0) :
  let mem id inst := mk_member (sub_to []) (sub_to []) None [] id inst in
  let a := mem m1 (Some ia) in
  let b := mem m2 ib in
  let c := mem m3 (Some ic) in
  ib = None ->
  rd_kafka_group_member_cmp a b < 0 /\ rd_kafka_group_member_cmp b c < 0 /\
  rd_kafka_group_member_cmp c a < 0 /\
  ~ comparator_on rd_kafka_group_member_cmp [a; b; c].
Proof.
  intros mem a b c ->.
  assert (Hab : rd_kafka_group_member_cmp a b < 0)
    by (pose proof (kafkap_str_cmp_sgn m1 m2); cbn; lia).
  assert (Hbc : rd_kafka_group_member_cmp b c < 0)
    by (pose proof (kafkap_str_cmp_sgn m2 m3); cbn; lia).
  assert (Hca : rd_kafka_group_member_cmp c a < 0)
    by (pose proof (kafkap_str_cmp_sgn ic ia); cbn; lia).
  split; [exact Hab |]. split; [exact Hbc |]. split; [exact Hca |].
  intros [F T].
  assert (Hac : rd_kafka_group_member_cmp a c <= 0)
    by (apply (T a b c); rewrite ?elem_of_cons; tauto || lia).
  apply F in Hac; rewrite ?elem_of_cons; tauto || lia.
Qed.

Lemma member_cmp_mixed_cycle_witness :
  let mem id inst := mk_member (sub_to []) (sub_to []) None [] id inst in
  let a := mem "m1" (Some "i9") in
  let b := mem "m2" None in
  let c := mem "m3" (Some "i1") in
  rd_kafka_group_member_cmp a b < 0 /\ rd_kafka_group_member_cmp b c < 0 /\
  rd_kafka_group_member_cmp c a < 0 /\
  ~ comparator_on rd_kafka_group_member_cmp [a; b; c].
Proof. apply (member_cmp_mixed_cycle "i9" None "i1" "m1" "m2" "m3"); now vm_compute. Defined.
