(* ===== verification/EosState.v ===== *)
(** * The state of the idempotent and transactional producer
      (src/cbits/hs_rdkafka_int.h)

    What hs_rdkafka_idempotence.c and hs_rdkafka_txnmgr.c keep in [rd_kafka_t], with
    one setter per field.  Timers are whether they are scheduled, a broker or a queue
    is its identity.  The requests sent, the replies to the application's calls and
    the other effects outside of this state are recorded in [rk_out]. *)

From stdpp Require Import gmap strings.
From S2P Require Import Prelude Producer.

Inductive rd_kafka_idemp_state : Set :=
  | IDEMP_INIT | IDEMP_TERM | IDEMP_FATAL_ERROR | IDEMP_REQ_PID | IDEMP_WAIT_TRANSPORT
  | IDEMP_WAIT_PID | IDEMP_ASSIGNED | IDEMP_DRAIN_RESET | IDEMP_DRAIN_BUMP.

Inductive rd_kafka_txn_state : Set :=
  | TXN_INIT | TXN_WAIT_PID | TXN_READY_NOT_ACKED | TXN_READY | TXN_IN_TRANSACTION
  | TXN_BEGIN_COMMIT | TXN_COMMITTING_TRANSACTION | TXN_COMMIT_NOT_ACKED
  | TXN_ABORTING_TRANSACTION | TXN_ABORT_NOT_ACKED | TXN_ABORTABLE_ERROR | TXN_FATAL_ERROR.

#[export] Instance idemp_state_dec : EqDecision rd_kafka_idemp_state.
Proof. solve_decision. Defined.
#[export] Instance txn_state_dec : EqDecision rd_kafka_txn_state.
Proof. solve_decision. Defined.

(** What is told to the application through [rd_kafka_error_t]. *)
Record api_error := mk_error {
  e_code : Z;
  e_fatal : bool;
  e_retriable : bool;
  e_txn_requires_abort : bool }.

Inductive event : Type :=
  | EvReply (rkq : nat) (error : option api_error)
  | EvFatal (err : Z)
  | EvPurge
  | EvWakeup
  | EvInitProducerId (current : option rd_kafka_pid)
  | EvFindCoordinator
  | EvAddPartitions (pid : rd_kafka_pid) (parts : list nat)
  | EvEndTxn (pid : rd_kafka_pid) (commit : bool) (rkq : nat)
  | EvRefreshBrokers.

(** The blocking call of the application: its name, its flags, and its time-out
    timer with the queue of the call. *)
Inductive api_timeout : Set := TmInit | TmAbort | TmRetriable | TmPlain.
Record curr_api := mk_api {
  api_name : string;
  api_flags : Z;
  api_tmr : option (api_timeout * nat) }.

Record rd_kafka := mk_rk {
  rk_transactional : bool;
  rk_fatal_err : Z;
  rk_fatal_cnt : Z;
  idemp_state : rd_kafka_idemp_state;
  eos_pid : rd_kafka_pid;
  epoch_cnt : Z;
  inflight_toppar_cnt : Z;
  pid_tmr : bool;
  txn_may_enq : Z;
  txn_state : rd_kafka_txn_state;
  txn_curr_coord : option nat;
  txn_wait_coord : bool;
  txn_coord_tmr : bool;
  txn_requires_epoch_bump : bool;
  txn_curr_api : curr_api;
  txn_init_rkq : option nat;
  txn_req_cnt : Z;
  txn_register_parts_tmr : bool;
  txn_pending_rktps : list nat;
  txn_waitresp_rktps : list nat;
  txn_rktps : list nat;
  rktp_flags : gmap nat Z;
  txn_dr_fails : Z;
  txn_err : Z;
  txn_init_err : Z;
  rk_out : list event }.

Definition set_rk_fatal_err (rk : rd_kafka) (v : Z) : rd_kafka :=
  mk_rk (rk_transactional rk) v (rk_fatal_cnt rk) (idemp_state rk) (eos_pid rk) (epoch_cnt rk)
    (inflight_toppar_cnt rk) (pid_tmr rk) (txn_may_enq rk) (txn_state rk) (txn_curr_coord
    rk) (txn_wait_coord rk) (txn_coord_tmr rk) (txn_requires_epoch_bump rk) (txn_curr_api
    rk) (txn_init_rkq rk) (txn_req_cnt rk) (txn_register_parts_tmr rk) (txn_pending_rktps
    rk) (txn_waitresp_rktps rk) (txn_rktps rk) (rktp_flags rk) (txn_dr_fails rk) (txn_err
    rk) (txn_init_err rk) (rk_out rk).
Definition set_rk_fatal_cnt (rk : rd_kafka) (v : Z) : rd_kafka :=
  mk_rk (rk_transactional rk) (rk_fatal_err rk) v (idemp_state rk) (eos_pid rk) (epoch_cnt rk)
    (inflight_toppar_cnt rk) (pid_tmr rk) (txn_may_enq rk) (txn_state rk) (txn_curr_coord
    rk) (txn_wait_coord rk) (txn_coord_tmr rk) (txn_requires_epoch_bump rk) (txn_curr_api
    rk) (txn_init_rkq rk) (txn_req_cnt rk) (txn_register_parts_tmr rk) (txn_pending_rktps
    rk) (txn_waitresp_rktps rk) (txn_rktps rk) (rktp_flags rk) (txn_dr_fails rk) (txn_err
    rk) (txn_init_err rk) (rk_out rk).
Definition set_idemp_state (rk : rd_kafka) (v : rd_kafka_idemp_state) : rd_kafka :=
  mk_rk (rk_transactional rk) (rk_fatal_err rk) (rk_fatal_cnt rk) v (eos_pid rk) (epoch_cnt
    rk) (inflight_toppar_cnt rk) (pid_tmr rk) (txn_may_enq rk) (txn_state rk)
    (txn_curr_coord rk) (txn_wait_coord rk) (txn_coord_tmr rk) (txn_requires_epoch_bump rk)
    (txn_curr_api rk) (txn_init_rkq rk) (txn_req_cnt rk) (txn_register_parts_tmr rk)
    (txn_pending_rktps rk) (txn_waitresp_rktps rk) (txn_rktps rk) (rktp_flags rk)
    (txn_dr_fails rk) (txn_err rk) (txn_init_err rk) (rk_out rk).
Definition set_eos_pid (rk : rd_kafka) (v : rd_kafka_pid) : rd_kafka :=
  mk_rk (rk_transactional rk) (rk_fatal_err rk) (rk_fatal_cnt rk) (idemp_state rk) v
    (epoch_cnt rk) (inflight_toppar_cnt rk) (pid_tmr rk) (txn_may_enq rk) (txn_state rk)
    (txn_curr_coord rk) (txn_wait_coord rk) (txn_coord_tmr rk) (txn_requires_epoch_bump rk)
    (txn_curr_api rk) (txn_init_rkq rk) (txn_req_cnt rk) (txn_register_parts_tmr rk)
    (txn_pending_rktps rk) (txn_waitresp_rktps rk) (txn_rktps rk) (rktp_flags rk)
    (txn_dr_fails rk) (txn_err rk) (txn_init_err rk) (rk_out rk).
Definition set_epoch_cnt (rk : rd_kafka) (v : Z) : rd_kafka :=
  mk_rk (rk_transactional rk) (rk_fatal_err rk) (rk_fatal_cnt rk) (idemp_state rk) (eos_pid
    rk) v (inflight_toppar_cnt rk) (pid_tmr rk) (txn_may_enq rk) (txn_state rk)
    (txn_curr_coord rk) (txn_wait_coord rk) (txn_coord_tmr rk) (txn_requires_epoch_bump rk)
    (txn_curr_api rk) (txn_init_rkq rk) (txn_req_cnt rk) (txn_register_parts_tmr rk)
    (txn_pending_rktps rk) (txn_waitresp_rktps rk) (txn_rktps rk) (rktp_flags rk)
    (txn_dr_fails rk) (txn_err rk) (txn_init_err rk) (rk_out rk).
Definition set_inflight_toppar_cnt (rk : rd_kafka) (v : Z) : rd_kafka :=
  mk_rk (rk_transactional rk) (rk_fatal_err rk) (rk_fatal_cnt rk) (idemp_state rk) (eos_pid
    rk) (epoch_cnt rk) v (pid_tmr rk) (txn_may_enq rk) (txn_state rk) (txn_curr_coord rk)
    (txn_wait_coord rk) (txn_coord_tmr rk) (txn_requires_epoch_bump rk) (txn_curr_api rk)
    (txn_init_rkq rk) (txn_req_cnt rk) (txn_register_parts_tmr rk) (txn_pending_rktps rk)
    (txn_waitresp_rktps rk) (txn_rktps rk) (rktp_flags rk) (txn_dr_fails rk) (txn_err rk)
    (txn_init_err rk) (rk_out rk).
Definition set_pid_tmr (rk : rd_kafka) (v : bool) : rd_kafka :=
  mk_rk (rk_transactional rk) (rk_fatal_err rk) (rk_fatal_cnt rk) (idemp_state rk) (eos_pid
    rk) (epoch_cnt rk) (inflight_toppar_cnt rk) v (txn_may_enq rk) (txn_state rk)
    (txn_curr_coord rk) (txn_wait_coord rk) (txn_coord_tmr rk) (txn_requires_epoch_bump rk)
    (txn_curr_api rk) (txn_init_rkq rk) (txn_req_cnt rk) (txn_register_parts_tmr rk)
    (txn_pending_rktps rk) (txn_waitresp_rktps rk) (txn_rktps rk) (rktp_flags rk)
    (txn_dr_fails rk) (txn_err rk) (txn_init_err rk) (rk_out rk).
Definition set_txn_may_enq (rk : rd_kafka) (v : Z) : rd_kafka :=
  mk_rk (rk_transactional rk) (rk_fatal_err rk) (rk_fatal_cnt rk) (idemp_state rk) (eos_pid
    rk) (epoch_cnt rk) (inflight_toppar_cnt rk) (pid_tmr rk) v (txn_state rk)
    (txn_curr_coord rk) (txn_wait_coord rk) (txn_coord_tmr rk) (txn_requires_epoch_bump rk)
    (txn_curr_api rk) (txn_init_rkq rk) (txn_req_cnt rk) (txn_register_parts_tmr rk)
    (txn_pending_rktps rk) (txn_waitresp_rktps rk) (txn_rktps rk) (rktp_flags rk)
    (txn_dr_fails rk) (txn_err rk) (txn_init_err rk) (rk_out rk).
Definition set_txn_state (rk : rd_kafka) (v : rd_kafka_txn_state) : rd_kafka :=
  mk_rk (rk_transactional rk) (rk_fatal_err rk) (rk_fatal_cnt rk) (idemp_state rk) (eos_pid
    rk) (epoch_cnt rk) (inflight_toppar_cnt rk) (pid_tmr rk) (txn_may_enq rk) v
    (txn_curr_coord rk) (txn_wait_coord rk) (txn_coord_tmr rk) (txn_requires_epoch_bump rk)
    (txn_curr_api rk) (txn_init_rkq rk) (txn_req_cnt rk) (txn_register_parts_tmr rk)
    (txn_pending_rktps rk) (txn_waitresp_rktps rk) (txn_rktps rk) (rktp_flags rk)
    (txn_dr_fails rk) (txn_err rk) (txn_init_err rk) (rk_out rk).
Definition set_txn_curr_coord (rk : rd_kafka) (v : option nat) : rd_kafka :=
  mk_rk (rk_transactional rk) (rk_fatal_err rk) (rk_fatal_cnt rk) (idemp_state rk) (eos_pid
    rk) (epoch_cnt rk) (inflight_toppar_cnt rk) (pid_tmr rk) (txn_may_enq rk) (txn_state rk)
    v (txn_wait_coord rk) (txn_coord_tmr rk) (txn_requires_epoch_bump rk) (txn_curr_api rk)
    (txn_init_rkq rk) (txn_req_cnt rk) (txn_register_parts_tmr rk) (txn_pending_rktps rk)
    (txn_waitresp_rktps rk) (txn_rktps rk) (rktp_flags rk) (txn_dr_fails rk) (txn_err rk)
    (txn_init_err rk) (rk_out rk).
Definition set_txn_wait_coord (rk : rd_kafka) (v : bool) : rd_kafka :=
  mk_rk (rk_transactional rk) (rk_fatal_err rk) (rk_fatal_cnt rk) (idemp_state rk) (eos_pid
    rk) (epoch_cnt rk) (inflight_toppar_cnt rk) (pid_tmr rk) (txn_may_enq rk) (txn_state rk)
    (txn_curr_coord rk) v (txn_coord_tmr rk) (txn_requires_epoch_bump rk) (txn_curr_api rk)
    (txn_init_rkq rk) (txn_req_cnt rk) (txn_register_parts_tmr rk) (txn_pending_rktps rk)
    (txn_waitresp_rktps rk) (txn_rktps rk) (rktp_flags rk) (txn_dr_fails rk) (txn_err rk)
    (txn_init_err rk) (rk_out rk).
Definition set_txn_coord_tmr (rk : rd_kafka) (v : bool) : rd_kafka :=
  mk_rk (rk_transactional rk) (rk_fatal_err rk) (rk_fatal_cnt rk) (idemp_state rk) (eos_pid
    rk) (epoch_cnt rk) (inflight_toppar_cnt rk) (pid_tmr rk) (txn_may_enq rk) (txn_state rk)
    (txn_curr_coord rk) (txn_wait_coord rk) v (txn_requires_epoch_bump rk) (txn_curr_api rk)
    (txn_init_rkq rk) (txn_req_cnt rk) (txn_register_parts_tmr rk) (txn_pending_rktps rk)
    (txn_waitresp_rktps rk) (txn_rktps rk) (rktp_flags rk) (txn_dr_fails rk) (txn_err rk)
    (txn_init_err rk) (rk_out rk).
Definition set_txn_requires_epoch_bump (rk : rd_kafka) (v : bool) : rd_kafka :=
  mk_rk (rk_transactional rk) (rk_fatal_err rk) (rk_fatal_cnt rk) (idemp_state rk) (eos_pid
    rk) (epoch_cnt rk) (inflight_toppar_cnt rk) (pid_tmr rk) (txn_may_enq rk) (txn_state rk)
    (txn_curr_coord rk) (txn_wait_coord rk) (txn_coord_tmr rk) v (txn_curr_api rk)
    (txn_init_rkq rk) (txn_req_cnt rk) (txn_register_parts_tmr rk) (txn_pending_rktps rk)
    (txn_waitresp_rktps rk) (txn_rktps rk) (rktp_flags rk) (txn_dr_fails rk) (txn_err rk)
    (txn_init_err rk) (rk_out rk).
Definition set_txn_curr_api (rk : rd_kafka) (v : curr_api) : rd_kafka :=
  mk_rk (rk_transactional rk) (rk_fatal_err rk) (rk_fatal_cnt rk) (idemp_state rk) (eos_pid
    rk) (epoch_cnt rk) (inflight_toppar_cnt rk) (pid_tmr rk) (txn_may_enq rk) (txn_state rk)
    (txn_curr_coord rk) (txn_wait_coord rk) (txn_coord_tmr rk) (txn_requires_epoch_bump rk)
    v (txn_init_rkq rk) (txn_req_cnt rk) (txn_register_parts_tmr rk) (txn_pending_rktps rk)
    (txn_waitresp_rktps rk) (txn_rktps rk) (rktp_flags rk) (txn_dr_fails rk) (txn_err rk)
    (txn_init_err rk) (rk_out rk).
Definition set_txn_init_rkq (rk : rd_kafka) (v : option nat) : rd_kafka :=
  mk_rk (rk_transactional rk) (rk_fatal_err rk) (rk_fatal_cnt rk) (idemp_state rk) (eos_pid
    rk) (epoch_cnt rk) (inflight_toppar_cnt rk) (pid_tmr rk) (txn_may_enq rk) (txn_state rk)
    (txn_curr_coord rk) (txn_wait_coord rk) (txn_coord_tmr rk) (txn_requires_epoch_bump rk)
    (txn_curr_api rk) v (txn_req_cnt rk) (txn_register_parts_tmr rk) (txn_pending_rktps rk)
    (txn_waitresp_rktps rk) (txn_rktps rk) (rktp_flags rk) (txn_dr_fails rk) (txn_err rk)
    (txn_init_err rk) (rk_out rk).
Definition set_txn_req_cnt (rk : rd_kafka) (v : Z) : rd_kafka :=
  mk_rk (rk_transactional rk) (rk_fatal_err rk) (rk_fatal_cnt rk) (idemp_state rk) (eos_pid
    rk) (epoch_cnt rk) (inflight_toppar_cnt rk) (pid_tmr rk) (txn_may_enq rk) (txn_state rk)
    (txn_curr_coord rk) (txn_wait_coord rk) (txn_coord_tmr rk) (txn_requires_epoch_bump rk)
    (txn_curr_api rk) (txn_init_rkq rk) v (txn_register_parts_tmr rk) (txn_pending_rktps rk)
    (txn_waitresp_rktps rk) (txn_rktps rk) (rktp_flags rk) (txn_dr_fails rk) (txn_err rk)
    (txn_init_err rk) (rk_out rk).
Definition set_txn_register_parts_tmr (rk : rd_kafka) (v : bool) : rd_kafka :=
  mk_rk (rk_transactional rk) (rk_fatal_err rk) (rk_fatal_cnt rk) (idemp_state rk) (eos_pid
    rk) (epoch_cnt rk) (inflight_toppar_cnt rk) (pid_tmr rk) (txn_may_enq rk) (txn_state rk)
    (txn_curr_coord rk) (txn_wait_coord rk) (txn_coord_tmr rk) (txn_requires_epoch_bump rk)
    (txn_curr_api rk) (txn_init_rkq rk) (txn_req_cnt rk) v (txn_pending_rktps rk)
    (txn_waitresp_rktps rk) (txn_rktps rk) (rktp_flags rk) (txn_dr_fails rk) (txn_err rk)
    (txn_init_err rk) (rk_out rk).
Definition set_txn_pending_rktps (rk : rd_kafka) (v : list nat) : rd_kafka :=
  mk_rk (rk_transactional rk) (rk_fatal_err rk) (rk_fatal_cnt rk) (idemp_state rk) (eos_pid
    rk) (epoch_cnt rk) (inflight_toppar_cnt rk) (pid_tmr rk) (txn_may_enq rk) (txn_state rk)
    (txn_curr_coord rk) (txn_wait_coord rk) (txn_coord_tmr rk) (txn_requires_epoch_bump rk)
    (txn_curr_api rk) (txn_init_rkq rk) (txn_req_cnt rk) (txn_register_parts_tmr rk) v
    (txn_waitresp_rktps rk) (txn_rktps rk) (rktp_flags rk) (txn_dr_fails rk) (txn_err rk)
    (txn_init_err rk) (rk_out rk).
Definition set_txn_waitresp_rktps (rk : rd_kafka) (v : list nat) : rd_kafka :=
  mk_rk (rk_transactional rk) (rk_fatal_err rk) (rk_fatal_cnt rk) (idemp_state rk) (eos_pid
    rk) (epoch_cnt rk) (inflight_toppar_cnt rk) (pid_tmr rk) (txn_may_enq rk) (txn_state rk)
    (txn_curr_coord rk) (txn_wait_coord rk) (txn_coord_tmr rk) (txn_requires_epoch_bump rk)
    (txn_curr_api rk) (txn_init_rkq rk) (txn_req_cnt rk) (txn_register_parts_tmr rk)
    (txn_pending_rktps rk) v (txn_rktps rk) (rktp_flags rk) (txn_dr_fails rk) (txn_err rk)
    (txn_init_err rk) (rk_out rk).
Definition set_txn_rktps (rk : rd_kafka) (v : list nat) : rd_kafka :=
  mk_rk (rk_transactional rk) (rk_fatal_err rk) (rk_fatal_cnt rk) (idemp_state rk) (eos_pid
    rk) (epoch_cnt rk) (inflight_toppar_cnt rk) (pid_tmr rk) (txn_may_enq rk) (txn_state rk)
    (txn_curr_coord rk) (txn_wait_coord rk) (txn_coord_tmr rk) (txn_requires_epoch_bump rk)
    (txn_curr_api rk) (txn_init_rkq rk) (txn_req_cnt rk) (txn_register_parts_tmr rk)
    (txn_pending_rktps rk) (txn_waitresp_rktps rk) v (rktp_flags rk) (txn_dr_fails rk)
    (txn_err rk) (txn_init_err rk) (rk_out rk).
Definition set_rktp_flags (rk : rd_kafka) (v : gmap nat Z) : rd_kafka :=
  mk_rk (rk_transactional rk) (rk_fatal_err rk) (rk_fatal_cnt rk) (idemp_state rk) (eos_pid
    rk) (epoch_cnt rk) (inflight_toppar_cnt rk) (pid_tmr rk) (txn_may_enq rk) (txn_state rk)
    (txn_curr_coord rk) (txn_wait_coord rk) (txn_coord_tmr rk) (txn_requires_epoch_bump rk)
    (txn_curr_api rk) (txn_init_rkq rk) (txn_req_cnt rk) (txn_register_parts_tmr rk)
    (txn_pending_rktps rk) (txn_waitresp_rktps rk) (txn_rktps rk) v (txn_dr_fails rk)
    (txn_err rk) (txn_init_err rk) (rk_out rk).
Definition set_txn_dr_fails (rk : rd_kafka) (v : Z) : rd_kafka :=
  mk_rk (rk_transactional rk) (rk_fatal_err rk) (rk_fatal_cnt rk) (idemp_state rk) (eos_pid
    rk) (epoch_cnt rk) (inflight_toppar_cnt rk) (pid_tmr rk) (txn_may_enq rk) (txn_state rk)
    (txn_curr_coord rk) (txn_wait_coord rk) (txn_coord_tmr rk) (txn_requires_epoch_bump rk)
    (txn_curr_api rk) (txn_init_rkq rk) (txn_req_cnt rk) (txn_register_parts_tmr rk)
    (txn_pending_rktps rk) (txn_waitresp_rktps rk) (txn_rktps rk) (rktp_flags rk) v (txn_err
    rk) (txn_init_err rk) (rk_out rk).
Definition set_txn_err (rk : rd_kafka) (v : Z) : rd_kafka :=
  mk_rk (rk_transactional rk) (rk_fatal_err rk) (rk_fatal_cnt rk) (idemp_state rk) (eos_pid
    rk) (epoch_cnt rk) (inflight_toppar_cnt rk) (pid_tmr rk) (txn_may_enq rk) (txn_state rk)
    (txn_curr_coord rk) (txn_wait_coord rk) (txn_coord_tmr rk) (txn_requires_epoch_bump rk)
    (txn_curr_api rk) (txn_init_rkq rk) (txn_req_cnt rk) (txn_register_parts_tmr rk)
    (txn_pending_rktps rk) (txn_waitresp_rktps rk) (txn_rktps rk) (rktp_flags rk)
    (txn_dr_fails rk) v (txn_init_err rk) (rk_out rk).
Definition set_txn_init_err (rk : rd_kafka) (v : Z) : rd_kafka :=
  mk_rk (rk_transactional rk) (rk_fatal_err rk) (rk_fatal_cnt rk) (idemp_state rk) (eos_pid
    rk) (epoch_cnt rk) (inflight_toppar_cnt rk) (pid_tmr rk) (txn_may_enq rk) (txn_state rk)
    (txn_curr_coord rk) (txn_wait_coord rk) (txn_coord_tmr rk) (txn_requires_epoch_bump rk)
    (txn_curr_api rk) (txn_init_rkq rk) (txn_req_cnt rk) (txn_register_parts_tmr rk)
    (txn_pending_rktps rk) (txn_waitresp_rktps rk) (txn_rktps rk) (rktp_flags rk)
    (txn_dr_fails rk) (txn_err rk) v (rk_out rk).
Definition set_rk_out (rk : rd_kafka) (v : list event) : rd_kafka :=
  mk_rk (rk_transactional rk) (rk_fatal_err rk) (rk_fatal_cnt rk) (idemp_state rk) (eos_pid
    rk) (epoch_cnt rk) (inflight_toppar_cnt rk) (pid_tmr rk) (txn_may_enq rk) (txn_state rk)
    (txn_curr_coord rk) (txn_wait_coord rk) (txn_coord_tmr rk) (txn_requires_epoch_bump rk)
    (txn_curr_api rk) (txn_init_rkq rk) (txn_req_cnt rk) (txn_register_parts_tmr rk)
    (txn_pending_rktps rk) (txn_waitresp_rktps rk) (txn_rktps rk) (rktp_flags rk)
    (txn_dr_fails rk) (txn_err rk) (txn_init_err rk) v.

Definition emit (rk : rd_kafka) (e : event) : rd_kafka := set_rk_out rk (rk_out rk ++ [e]).
