(* ===== verification/Eos.v ===== *)
(** * The idempotent producer and the transaction manager
      (src/cbits/hs_rdkafka_idempotence.c, hs_rdkafka_txnmgr.c)

    The acquisition of producer ids, the drains before an id is given up, fatal and
    abortable errors, and the transaction state machine with the handlers of the
    application's calls and of the coordinator's responses.  Each function takes the
    state and returns it, or [None] where an assertion of the code fails.  What
    other parts of the client answer (is a broker up, was a request accepted) are
    arguments. *)

From stdpp Require Import gmap strings.
From S2P Require Import Prelude Producer EosState.

(** ** Errors *)

Definition ERR_NO_ERROR : Z := 0.
Definition ERR__BAD_MSG : Z := -199.
Definition ERR__DESTROY : Z := -197.
Definition ERR__TRANSPORT : Z := -195.
Definition ERR__TIMED_OUT : Z := -185.
Definition ERR__STATE : Z := -172.
Definition ERR__OUTDATED : Z := -167.
Definition ERR__TIMED_OUT_QUEUE : Z := -166.
Definition ERR__UNSUPPORTED_FEATURE : Z := -165.
Definition ERR__FATAL : Z := -150.
Definition ERR__INCONSISTENT : Z := -149.
Definition ERR__UNKNOWN_BROKER : Z := -146.
Definition ERR__FENCED : Z := -144.
Definition ERR_UNKNOWN_TOPIC_OR_PART : Z := 3.
Definition ERR_COORDINATOR_LOAD_IN_PROGRESS : Z := 14.
Definition ERR_COORDINATOR_NOT_AVAILABLE : Z := 15.
Definition ERR_NOT_COORDINATOR : Z := 16.
Definition ERR_TOPIC_AUTHORIZATION_FAILED : Z := 29.
Definition ERR_CLUSTER_AUTHORIZATION_FAILED : Z := 31.
Definition ERR_INVALID_PRODUCER_EPOCH : Z := 47.
Definition ERR_INVALID_TXN_STATE : Z := 48.
Definition ERR_INVALID_PRODUCER_ID_MAPPING : Z := 49.
Definition ERR_INVALID_TRANSACTION_TIMEOUT : Z := 50.
Definition ERR_CONCURRENT_TRANSACTIONS : Z := 51.
Definition ERR_TRANSACTIONAL_ID_AUTHORIZATION_FAILED : Z := 53.
Definition ERR_OPERATION_NOT_ATTEMPTED : Z := 55.
Definition ERR_UNKNOWN_PRODUCER_ID : Z := 59.
Definition ERR_PRODUCER_FENCED : Z := 90.

Definition ACTION_PERMANENT : Z := 1.
Definition ACTION_REFRESH : Z := 4.
Definition ACTION_RETRY : Z := 8.
Definition ACTION_FATAL : Z := 512.

(** [err] is one of the cases of a [switch]. *)
Definition err_in (err : Z) (errs : list Z) : bool := existsb (Z.eqb err) errs.
(** [actions & flag]. *)
Definition has_action (actions flag : Z) : bool := negb (Z.land actions flag =? 0).

Definition plain_error (code : Z) : api_error := mk_error code false false false.
Definition fatal_error (code : Z) : api_error := mk_error code true false false.
Definition retriable_error (code : Z) : api_error := mk_error code false true false.
Definition abort_error (code : Z) : api_error := mk_error code false false true.

(** ** Fatal errors (hs_rdkafka.c) *)

(** The client is an idempotent producer, so the code is always looked up. *)
Definition rd_kafka_fatal_error_code (rk : rd_kafka) : Z := rk_fatal_err rk.

Definition rd_kafka_set_fatal_error0 (rk : rd_kafka) (err : Z) : rd_kafka :=
  let rk := set_rk_fatal_cnt rk (i32 (rk_fatal_cnt rk + 1)) in
  if negb (rk_fatal_err rk =? 0) then rk
  else emit (set_rk_fatal_err rk err) (EvFatal err).

(** ** Transaction states *)

Definition rd_kafka_txn_normalize_err (err : Z) : Z :=
  if err_in err [ERR_INVALID_PRODUCER_EPOCH; ERR_PRODUCER_FENCED] then ERR__FENCED else err.

(** Whether [curr] may become [new_state], and whether the change is ignored. *)
Definition rd_kafka_txn_state_transition_is_valid (curr new_state : rd_kafka_txn_state)
  : bool * bool :=
  let from s := bool_decide (curr = s) in
  match new_state with
  | TXN_INIT => (false, false)
  | TXN_WAIT_PID => (from TXN_INIT, false)
  | TXN_READY_NOT_ACKED => (from TXN_WAIT_PID, false)
  | TXN_READY => (from TXN_READY_NOT_ACKED || from TXN_COMMIT_NOT_ACKED || from TXN_ABORT_NOT_ACKED, false)
  | TXN_IN_TRANSACTION => (from TXN_READY, false)
  | TXN_BEGIN_COMMIT => (from TXN_IN_TRANSACTION, false)
  | TXN_COMMITTING_TRANSACTION => (from TXN_BEGIN_COMMIT, false)
  | TXN_COMMIT_NOT_ACKED => (from TXN_BEGIN_COMMIT || from TXN_COMMITTING_TRANSACTION, false)
  | TXN_ABORTING_TRANSACTION => (from TXN_IN_TRANSACTION || from TXN_ABORTABLE_ERROR, false)
  | TXN_ABORT_NOT_ACKED => (from TXN_ABORTING_TRANSACTION, false)
  | TXN_ABORTABLE_ERROR =>
      if from TXN_ABORTING_TRANSACTION || from TXN_FATAL_ERROR then (true, true)
      else (from TXN_IN_TRANSACTION || from TXN_BEGIN_COMMIT || from TXN_COMMITTING_TRANSACTION, false)
  | TXN_FATAL_ERROR => (true, false)
  end.

Definition rd_kafka_txn_set_state (rk : rd_kafka) (new_state : rd_kafka_txn_state)
  : option rd_kafka :=
  if bool_decide (txn_state rk = new_state) then Some rk
  else
    let '(valid, ignore) := rd_kafka_txn_state_transition_is_valid (txn_state rk) new_state in
    let* _ := rd_assert valid in
    if ignore then Some rk
    else
      let rk := if bool_decide (txn_state rk = TXN_IN_TRANSACTION) then set_txn_may_enq rk 0
                else if bool_decide (new_state = TXN_IN_TRANSACTION) then set_txn_may_enq rk 1
                else rk in
      Some (set_txn_state rk new_state).

(** [None] if the state is one of [states], else the error to return. *)
Definition rd_kafka_txn_require_state (rk : rd_kafka) (states : list rd_kafka_txn_state)
  : option api_error :=
  if bool_decide (txn_state rk ∈ states) then None
  else Some (match txn_state rk with
             | TXN_FATAL_ERROR => fatal_error (txn_err rk)
             | TXN_ABORTABLE_ERROR => abort_error (txn_err rk)
             | _ => plain_error ERR__STATE
             end).

(** ** Replies to the application *)

(** [rkq] may be NULL. *)
Definition rd_kafka_txn_curr_api_reply_error (rk : rd_kafka) (rkq : option nat)
  (error : option api_error) : rd_kafka :=
  match rkq with None => rk | Some q => emit rk (EvReply q error) end.

Definition rd_kafka_txn_curr_api_reply (rk : rd_kafka) (rkq : option nat) (actions err : Z)
  : rd_kafka :=
  let error :=
    if negb (err =? 0) then
      Some (if has_action actions ACTION_FATAL then fatal_error err
            else if has_action actions ACTION_PERMANENT then abort_error err
            else if has_action actions ACTION_RETRY then retriable_error err
            else plain_error err)
    else None in
  rd_kafka_txn_curr_api_reply_error rk rkq error.

(** ** Errors of the transaction *)

Definition rd_kafka_txn_set_fatal_error (rk : rd_kafka) (err : Z) : option rd_kafka :=
  let rk := rd_kafka_set_fatal_error0 rk err in
  let rk := set_txn_err rk err in
  let rk := match txn_init_rkq rk with
            | Some _ => set_txn_init_rkq
                          (rd_kafka_txn_curr_api_reply_error rk (txn_init_rkq rk)
                             (Some (fatal_error err))) None
            | None => rk
            end in
  rd_kafka_txn_set_state rk TXN_FATAL_ERROR.

Definition rd_kafka_txn_set_abortable_error0 (rk : rd_kafka) (err : Z)
  (requires_epoch_bump : bool) : option rd_kafka :=
  if negb (rk_fatal_err rk =? 0) then Some rk
  else
    let rk := if requires_epoch_bump then set_txn_requires_epoch_bump rk true else rk in
    if negb (txn_err rk =? 0) then Some rk
    else
      let rk := set_txn_err rk err in
      let* rk := rd_kafka_txn_set_state rk TXN_ABORTABLE_ERROR in
      Some (emit rk EvPurge).

Definition rd_kafka_txn_set_abortable_error (rk : rd_kafka) (err : Z) : option rd_kafka :=
  rd_kafka_txn_set_abortable_error0 rk err false.
Definition rd_kafka_txn_set_abortable_error_with_bump (rk : rd_kafka) (err : Z)
  : option rd_kafka := rd_kafka_txn_set_abortable_error0 rk err true.

(** ** States of the idempotent producer *)

Definition rd_kafka_txn_idemp_state_change (rk : rd_kafka) (idemp_state : rd_kafka_idemp_state)
  : option rd_kafka :=
  let* (rk, reply_assigned) :=
    match idemp_state, txn_state rk with
    | IDEMP_ASSIGNED, TXN_WAIT_PID =>
        let* rk := rd_kafka_txn_set_state rk TXN_READY_NOT_ACKED in Some (rk, true)
    | IDEMP_ASSIGNED, TXN_ABORTING_TRANSACTION =>
        let* rk := rd_kafka_txn_set_state rk TXN_ABORT_NOT_ACKED in Some (rk, true)
    | IDEMP_FATAL_ERROR, TXN_FATAL_ERROR => Some (rk, false)
    | IDEMP_FATAL_ERROR, _ =>
        let* rk := rd_kafka_txn_set_state rk TXN_FATAL_ERROR in
        let err := if negb (txn_err rk =? 0) then txn_err rk else ERR__FATAL in
        Some (match txn_init_rkq rk with
              | Some _ => set_txn_init_rkq
                            (rd_kafka_txn_curr_api_reply_error rk (txn_init_rkq rk)
                               (Some (fatal_error err))) None
              | None => rk
              end, false)
    | _, _ => Some (rk, false)
    end in
  if reply_assigned && bool_decide (is_Some (txn_init_rkq rk)) then
    Some (set_txn_init_rkq (rd_kafka_txn_curr_api_reply rk (txn_init_rkq rk) 0 ERR_NO_ERROR) None)
  else Some rk.

(** The change itself. *)
Definition idemp_enter_state (rk : rd_kafka) (new_state : rd_kafka_idemp_state)
  : option rd_kafka :=
  let rk := set_idemp_state rk new_state in
  if rk_transactional rk then rd_kafka_txn_idemp_state_change rk new_state else Some rk.

Definition rd_kafka_idemp_set_state (rk : rd_kafka) (new_state : rd_kafka_idemp_state)
  : option rd_kafka :=
  if bool_decide (idemp_state rk = new_state) then Some rk
  else if negb (rd_kafka_fatal_error_code rk =? 0)
          && bool_decide (new_state ∉ [IDEMP_FATAL_ERROR; IDEMP_TERM; IDEMP_DRAIN_RESET;
                                       IDEMP_DRAIN_BUMP])
  then (* the same call with IDEMP_FATAL_ERROR, which is not denied *)
    if bool_decide (idemp_state rk = IDEMP_FATAL_ERROR) then Some rk
    else idemp_enter_state rk IDEMP_FATAL_ERROR
  else idemp_enter_state rk new_state.

Definition rd_kafka_idemp_get_pid0 (rk : rd_kafka) : rd_kafka_pid :=
  if bool_decide (idemp_state rk = IDEMP_ASSIGNED) then eos_pid rk else rd_kafka_pid_reset.

Definition rd_kafka_idemp_pid_timer_restart (rk : rd_kafka) : rd_kafka := set_pid_tmr rk true.
Definition rd_kafka_txn_coord_timer_start (rk : rd_kafka) : option rd_kafka :=
  let* _ := rd_assert (rk_transactional rk) in
  Some (set_txn_coord_tmr rk true).
Definition rd_kafka_txn_schedule_register_partitions (rk : rd_kafka) : rd_kafka :=
  set_txn_register_parts_tmr rk true.

(** Whether a fatal error was raised. *)
Definition rd_kafka_idemp_check_error (rk : rd_kafka) (err : Z) (is_fatal : bool)
  : option (rd_kafka * bool) :=
  let '(is_fatal, err) :=
    if err_in err [ERR__UNSUPPORTED_FEATURE; ERR_INVALID_TRANSACTION_TIMEOUT;
                   ERR_TRANSACTIONAL_ID_AUTHORIZATION_FAILED; ERR_CLUSTER_AUTHORIZATION_FAILED]
    then (true, err)
    else if err_in err [ERR_INVALID_PRODUCER_EPOCH; ERR_PRODUCER_FENCED]
    then (true, ERR__FENCED)
    else (is_fatal, err) in
  if negb is_fatal then Some (rk, false)
  else
    let* rk := if rk_transactional rk then rd_kafka_txn_set_fatal_error rk err
               else Some (rd_kafka_set_fatal_error0 rk err) in
    let* rk := rd_kafka_idemp_set_state rk IDEMP_FATAL_ERROR in
    Some (rk, true).

(** What the rest of the client answers: whether a broker usable for idempotence is
    up and how many brokers are, whether the broker of the request is up, and what
    sending each request returns. *)
Record net := mk_net {
  net_usable : bool;
  net_up_cnt : Z;
  net_is_up : bool;
  net_initpid_err : Z;
  net_findcoord_err : Z;
  net_request_err : Z }.

(** A broker, or the error. *)
Definition rd_kafka_idemp_broker_any (n : net) : bool * Z :=
  if net_usable n then (true, 0)
  else (false, if net_up_cnt n >? 0 then ERR__UNSUPPORTED_FEATURE else ERR__TRANSPORT).

(** Whether a fatal error was raised. *)
Definition rd_kafka_txn_coord_query (rk : rd_kafka) (n : net) : option (rd_kafka * bool) :=
  let* _ := rd_assert (rk_transactional rk) in
  if txn_wait_coord rk then Some (rk, false)
  else
    let '(rkb, err) := rd_kafka_idemp_broker_any n in
    if negb rkb then
      let* (rk, fatal) := rd_kafka_idemp_check_error rk err false in
      if fatal then Some (rk, true)
      else let* rk := rd_kafka_txn_coord_timer_start rk in Some (rk, false)
    else
      let err := net_findcoord_err n in
      if negb (err =? 0) then
        let* (rk, fatal) := rd_kafka_idemp_check_error rk err false in
        if fatal then Some (rk, true)
        else let* rk := rd_kafka_txn_coord_timer_start rk in Some (rk, false)
      else Some (set_txn_wait_coord (emit rk EvFindCoordinator) true, false).

(** The case WAIT_TRANSPORT of the state machine. *)
Definition fsm_wait_transport (rk : rd_kafka) (n : net) : option rd_kafka :=
  let* (rk, rkb, fatal) :=
    if rk_transactional rk then
      let* _ := rd_assert (bool_decide (is_Some (txn_curr_coord rk))) in
      Some (rk, true, false)
    else
      let '(rkb, err) := rd_kafka_idemp_broker_any n in
      if negb rkb then
        let* (rk, fatal) := rd_kafka_idemp_check_error rk err false in
        Some (rk, rkb, fatal)
      else Some (rk, rkb, false) in
  if fatal then Some rk
  else if negb rkb || negb (net_is_up n) then Some (rd_kafka_idemp_pid_timer_restart rk)
  else
    let err := net_initpid_err n in
    let is_fatal := rk_transactional rk && (err =? ERR__UNSUPPORTED_FEATURE)
                    && rd_kafka_pid_valid (eos_pid rk) in
    if negb (err =? 0) then
      let* (rk, fatal) := rd_kafka_idemp_check_error rk err is_fatal in
      if fatal then Some rk else Some (rd_kafka_idemp_pid_timer_restart rk)
    else
      let current := if rk_transactional rk && rd_kafka_pid_valid (eos_pid rk)
                     then Some (eos_pid rk) else None in
      rd_kafka_idemp_set_state (emit rk (EvInitProducerId current)) IDEMP_WAIT_PID.

(** The loop around the [switch]: [redo] is taken once at most. *)
Fixpoint pid_fsm_redo (fuel : nat) (rk : rd_kafka) (n : net) : option rd_kafka :=
  match fuel with
  | O => None
  | S fuel =>
      match idemp_state rk with
      | IDEMP_REQ_PID =>
          if negb (rk_transactional rk) || bool_decide (is_Some (txn_curr_coord rk)) then
            let* rk := rd_kafka_idemp_set_state rk IDEMP_WAIT_TRANSPORT in
            pid_fsm_redo fuel rk n
          else let* (rk, _) := rd_kafka_txn_coord_query rk n in Some rk
      | IDEMP_WAIT_TRANSPORT => fsm_wait_transport rk n
      | _ => Some rk
      end
  end.

Definition rd_kafka_idemp_pid_fsm (rk : rd_kafka) (n : net) : option rd_kafka :=
  if negb (rd_kafka_fatal_error_code rk =? 0) then Some rk else pid_fsm_redo 2 rk n.

Definition rd_kafka_idemp_pid_timer_cb (rk : rd_kafka) (n : net) : option rd_kafka :=
  rd_kafka_idemp_pid_fsm rk n.

(** ** The coordinator *)

(** Whether it changed; [rkb] may be NULL. *)
Definition rd_kafka_txn_coord_set (rk : rd_kafka) (rkb : option nat) (n : net)
  : option (rd_kafka * bool) :=
  if bool_decide (txn_curr_coord rk = rkb) then
    let* rk := match rkb with None => rd_kafka_txn_coord_timer_start rk | Some _ => Some rk end in
    Some (rk, false)
  else
    let rk := set_txn_curr_coord rk rkb in
    let* rk := match rkb with
               | None => rd_kafka_txn_coord_timer_start rk
               | Some _ => rd_kafka_idemp_pid_fsm rk n
               end in
    Some (rk, true).

Definition rd_kafka_txn_coord_timer_cb (rk : rd_kafka) (n : net) : option rd_kafka :=
  let* (rk, _) := rd_kafka_txn_coord_query rk n in Some rk.

(** [err] is the error of the response or of the request, [rkb] the coordinator it
    names if that broker is known ([None] with the node id -1 when [NodeId] is). *)
Definition rd_kafka_txn_handle_FindCoordinator (rk : rd_kafka) (err NodeId : Z)
  (rkb : option nat) (n : net) : option rd_kafka :=
  let rk := set_txn_wait_coord rk false in
  let err := if negb (err =? 0) then err
             else if NodeId =? -1 then ERR_COORDINATOR_NOT_AVAILABLE
             else match rkb with None => ERR__UNKNOWN_BROKER | Some _ => 0 end in
  if err =? 0 then let* (rk, _) := rd_kafka_txn_coord_set rk rkb n in Some rk
  else if err =? ERR__DESTROY then Some rk
  else if err_in err [ERR_TRANSACTIONAL_ID_AUTHORIZATION_FAILED; ERR_CLUSTER_AUTHORIZATION_FAILED]
  then
    let* rk := rd_kafka_txn_set_fatal_error rk err in
    rd_kafka_idemp_set_state rk IDEMP_FATAL_ERROR
  else
    let rk := if err =? ERR__UNKNOWN_BROKER then emit rk EvRefreshBrokers else rk in
    let* (rk, _) := rd_kafka_txn_coord_set rk None n in Some rk.

(** The order of the states in the enumeration. *)
Definition before_assigned (s : rd_kafka_idemp_state) : bool :=
  match s with
  | IDEMP_INIT | IDEMP_TERM | IDEMP_FATAL_ERROR | IDEMP_REQ_PID | IDEMP_WAIT_TRANSPORT
  | IDEMP_WAIT_PID => true
  | _ => false
  end.

Definition rd_kafka_txn_coord_monitor_cb (rk : rd_kafka) (is_up : bool) (n : net)
  : option rd_kafka :=
  if negb is_up then rd_kafka_txn_coord_timer_start rk
  else if before_assigned (idemp_state rk) then rd_kafka_idemp_pid_fsm rk n
  else if bool_decide (idemp_state rk = IDEMP_ASSIGNED)
  then Some (rd_kafka_txn_schedule_register_partitions rk)
  else Some rk.

(** ** Producer ids *)

Definition rd_kafka_idemp_request_pid_failed (rk : rd_kafka) (err : Z) (n : net)
  : option rd_kafka :=
  if err =? ERR__DESTROY then Some rk
  else
    let* (rk, fatal) := rd_kafka_idemp_check_error rk err false in
    if fatal then Some rk
    else
      let* rk :=
        if rk_transactional rk && err_in err [ERR_NOT_COORDINATOR; ERR_COORDINATOR_NOT_AVAILABLE]
        then let* (rk, _) := rd_kafka_txn_coord_set rk None n in Some rk
        else Some rk in
      let rk := set_txn_init_err rk err in
      let* rk := rd_kafka_idemp_set_state rk IDEMP_REQ_PID in
      Some (rd_kafka_idemp_pid_timer_restart rk).

Definition rd_kafka_idemp_pid_update (rk : rd_kafka) (pid : rd_kafka_pid) (n : net)
  : option rd_kafka :=
  if negb (bool_decide (idemp_state rk = IDEMP_WAIT_PID)) then Some rk
  else if negb (rd_kafka_pid_valid pid) then rd_kafka_idemp_request_pid_failed rk ERR__BAD_MSG n
  else
    let rk := set_eos_pid rk pid in
    let rk := set_epoch_cnt rk (i32 (epoch_cnt rk + 1)) in
    let* rk := rd_kafka_idemp_set_state rk IDEMP_ASSIGNED in
    Some (emit rk EvWakeup).

(** [err] is the error of the response or of the request (hs_rdkafka_request.c). *)
Definition rd_kafka_handle_InitProducerId (rk : rd_kafka) (err : Z) (pid : rd_kafka_pid) (n : net)
  : option rd_kafka :=
  if err =? 0 then rd_kafka_idemp_pid_update rk pid n
  else if err =? ERR__DESTROY then Some rk
  else rd_kafka_idemp_request_pid_failed rk err n.

Definition rd_kafka_idemp_drain_done (rk : rd_kafka) : option rd_kafka :=
  let* (rk, restart_tmr, wakeup_brokers) :=
    if bool_decide (idemp_state rk = IDEMP_DRAIN_RESET) then
      let* rk := rd_kafka_idemp_set_state rk IDEMP_REQ_PID in
      Some (rk, true, false)
    else if bool_decide (idemp_state rk = IDEMP_DRAIN_BUMP) && rd_kafka_pid_valid (eos_pid rk) then
      if rk_transactional rk then
        let* rk := rd_kafka_idemp_set_state rk IDEMP_REQ_PID in
        Some (rk, true, false)
      else
        let rk := set_eos_pid rk (rd_kafka_pid_bump (eos_pid rk)) in
        let* rk := rd_kafka_idemp_set_state rk IDEMP_ASSIGNED in
        Some (rk, false, true)
    else Some (rk, false, false) in
  let rk := if restart_tmr then rd_kafka_idemp_pid_timer_restart rk else rk in
  Some (if wakeup_brokers then emit rk EvWakeup else rk).

Definition rd_kafka_idemp_check_drain_done (rk : rd_kafka) : option rd_kafka :=
  if inflight_toppar_cnt rk =? 0 then rd_kafka_idemp_drain_done rk else Some rk.

Definition rd_kafka_idemp_drain_reset (rk : rd_kafka) : option rd_kafka :=
  let* rk := rd_kafka_idemp_set_state rk IDEMP_DRAIN_RESET in
  rd_kafka_idemp_check_drain_done rk.

Definition rd_kafka_idemp_drain_epoch_bump (rk : rd_kafka) (err : Z) : option rd_kafka :=
  let* rk := rd_kafka_idemp_set_state rk IDEMP_DRAIN_BUMP in
  let* rk := if rk_transactional rk then rd_kafka_txn_set_abortable_error_with_bump rk err
             else Some rk in
  rd_kafka_idemp_check_drain_done rk.

Definition rd_kafka_idemp_inflight_toppar_sub (rk : rd_kafka) : option rd_kafka :=
  let r := i32 (inflight_toppar_cnt rk - 1) in
  let rk := set_inflight_toppar_cnt rk r in
  if r =? 0 then rd_kafka_idemp_drain_done rk
  else let* _ := rd_assert (0 <=? r) in Some rk.

Definition rd_kafka_idemp_inflight_toppar_add (rk : rd_kafka) : rd_kafka :=
  set_inflight_toppar_cnt rk (i32 (inflight_toppar_cnt rk + 1)).

Definition rd_kafka_idemp_start (rk : rd_kafka) (terminating : bool) : option rd_kafka :=
  if terminating then Some rk
  else
    let* rk := rd_kafka_idemp_set_state rk IDEMP_REQ_PID in
    Some (rd_kafka_idemp_pid_timer_restart rk).

Definition rd_kafka_idemp_init (transactional : bool) : option rd_kafka :=
  let rk := mk_rk transactional 0 0 IDEMP_INIT rd_kafka_pid_reset 0 0 false 0 TXN_INIT None false
              false false (mk_api "" 0 None) None 0 false [] [] [] ∅ 0 0 0 [] in
  if transactional then Some rk else rd_kafka_idemp_start rk false.

(** The macro [rd_kafka_idemp_set_fatal_error]. *)
Definition rd_kafka_idemp_set_fatal_error (rk : rd_kafka) (err : Z) : option rd_kafka :=
  if rk_transactional rk then rd_kafka_txn_set_fatal_error rk err
  else Some (rd_kafka_set_fatal_error0 rk err).
