(* ===== verification/Txn.v ===== *)
(** * Transactions (src/cbits/hs_rdkafka_txnmgr.c)

    The partitions of a transaction, the handlers the main thread runs for the
    application's calls, the coordinator's responses, and the application's side of a
    blocking call.  [q] is the reply queue of the call. *)

From stdpp Require Import gmap strings.
From S2P Require Import Prelude Producer EosState Eos.

(** ** The partitions of a transaction *)

Definition RD_KAFKA_TOPPAR_F_PEND_TXN : Z := 256.
Definition RD_KAFKA_TOPPAR_F_IN_TXN : Z := 512.

Definition toppar_flags (rk : rd_kafka) (p : nat) : Z := default 0 (rktp_flags rk !! p).
Definition set_toppar_flags (rk : rd_kafka) (p : nat) (f : Z) : rd_kafka :=
  set_rktp_flags rk (<[p := f]> (rktp_flags rk)).

Definition TXN_FLAGS : Z := Z.lor RD_KAFKA_TOPPAR_F_PEND_TXN RD_KAFKA_TOPPAR_F_IN_TXN.

(** The pending partitions are kept sorted by [le], the order of their topics. *)
Fixpoint insert_rktp (le : nat -> nat -> bool) (p : nat) (l : list nat) : list nat :=
  match l with
  | [] => [p]
  | x :: l => if negb (le x p) then p :: x :: l else x :: insert_rktp le p l
  end.

Definition rd_kafka_txn_add_partition (le : nat -> nat -> bool) (rk : rd_kafka) (p : nat)
  : rd_kafka :=
  if negb (Z.land (toppar_flags rk p) TXN_FLAGS =? 0) then rk
  else
    let rk := set_toppar_flags rk p (Z.lor (toppar_flags rk p) RD_KAFKA_TOPPAR_F_PEND_TXN) in
    let schedule := match txn_pending_rktps rk with [] => true | _ => false end in
    let rk := set_txn_pending_rktps rk (insert_rktp le p (txn_pending_rktps rk)) in
    if schedule then rd_kafka_txn_schedule_register_partitions rk else rk.

Definition rd_kafka_txn_partition_registered (rk : rd_kafka) (p : nat) : option rd_kafka :=
  if Z.land (toppar_flags rk p) RD_KAFKA_TOPPAR_F_PEND_TXN =? 0 then Some rk
  else
    let* _ := rd_assert (Z.land (toppar_flags rk p) TXN_FLAGS =? RD_KAFKA_TOPPAR_F_PEND_TXN) in
    let rk := set_toppar_flags rk p
                (Z.lor (Z.ldiff (toppar_flags rk p) RD_KAFKA_TOPPAR_F_PEND_TXN)
                   RD_KAFKA_TOPPAR_F_IN_TXN) in
    let rk := set_txn_waitresp_rktps rk (filter (fun x => x <> p) (txn_waitresp_rktps rk)) in
    Some (set_txn_rktps rk (txn_rktps rk ++ [p])).

Definition clear_flag (f : Z) (flags : gmap nat Z) (ps : list nat) : gmap nat Z :=
  foldl (fun m p => <[p := Z.ldiff (default 0 (m !! p)) f]> m) flags ps.

Definition rd_kafka_txn_clear_pending_partitions (rk : rd_kafka) : rd_kafka :=
  let rk := set_rktp_flags rk
              (clear_flag RD_KAFKA_TOPPAR_F_PEND_TXN (rktp_flags rk) (txn_pending_rktps rk)) in
  let rk := set_txn_pending_rktps rk [] in
  let rk := set_rktp_flags rk
              (clear_flag RD_KAFKA_TOPPAR_F_PEND_TXN (rktp_flags rk) (txn_waitresp_rktps rk)) in
  set_txn_waitresp_rktps rk [].

Definition rd_kafka_txn_clear_partitions (rk : rd_kafka) : rd_kafka :=
  let rk := set_rktp_flags rk
              (clear_flag RD_KAFKA_TOPPAR_F_IN_TXN (rktp_flags rk) (txn_rktps rk)) in
  set_txn_rktps rk [].

Definition rd_kafka_txn_register_partitions (rk : rd_kafka) (n : net) : rd_kafka :=
  match rd_kafka_txn_require_state rk [TXN_IN_TRANSACTION; TXN_BEGIN_COMMIT] with
  | Some _ => rk
  | None =>
      let pid := rd_kafka_idemp_get_pid0 rk in
      if negb (net_is_up n) then rk
      else if bool_decide (txn_pending_rktps rk = []) then rk
      else if negb (bool_decide (txn_waitresp_rktps rk = [])) then rk
      else if negb (rd_kafka_pid_valid pid) then rk
      else if negb (net_request_err n =? 0) then rk
      else
        let rk := emit rk (EvAddPartitions pid (txn_pending_rktps rk)) in
        let rk := set_txn_waitresp_rktps rk (txn_waitresp_rktps rk ++ txn_pending_rktps rk) in
        let rk := set_txn_pending_rktps rk [] in
        set_txn_req_cnt rk (txn_req_cnt rk + 1)
  end.

(** One partition of the response: what it adds to [actions], the error it leaves,
    whether the coordinator is to be looked up, the backoff, and whether the rest of
    the response is skipped. *)
Definition addparts_error (ErrorCode err : Z) (backoff : Z) : Z * Z * Z * Z * bool :=
  if ErrorCode =? 0 then (0, err, 0, backoff, false)
  else if err_in ErrorCode [ERR_NOT_COORDINATOR; ERR_COORDINATOR_NOT_AVAILABLE] then
    (ACTION_RETRY, ErrorCode, ErrorCode, backoff, true)
  else if ErrorCode =? ERR_CONCURRENT_TRANSACTIONS then (ACTION_RETRY, ErrorCode, 0, 20, true)
  else if err_in ErrorCode [ERR_COORDINATOR_LOAD_IN_PROGRESS; ERR_UNKNOWN_TOPIC_OR_PART] then
    (ACTION_RETRY, ErrorCode, 0, backoff, true)
  else if err_in ErrorCode [ERR_INVALID_PRODUCER_EPOCH; ERR_PRODUCER_FENCED;
                            ERR_TRANSACTIONAL_ID_AUTHORIZATION_FAILED; ERR_INVALID_TXN_STATE;
                            ERR_CLUSTER_AUTHORIZATION_FAILED] then
    (ACTION_FATAL, ErrorCode, 0, backoff, true)
  else if err_in ErrorCode [ERR_UNKNOWN_PRODUCER_ID; ERR_INVALID_PRODUCER_ID_MAPPING] then
    (ACTION_PERMANENT, ErrorCode, 0, backoff, true)
  else if ErrorCode =? ERR_OPERATION_NOT_ATTEMPTED then
    (ACTION_PERMANENT, if err =? 0 then ErrorCode else err, 0, backoff, false)
  else (ACTION_PERMANENT, ErrorCode, 0, backoff, false).

(** The partitions of the response in order, [None] one the client does not know;
    [parse_err] is the error of a response that ends there. *)
Fixpoint addparts_loop (rk : rd_kafka) (parts : list (option nat * Z)) (parse_err : Z)
  (actions err reset_coord_err backoff : Z) : option (rd_kafka * Z * Z * Z * Z) :=
  match parts with
  | [] =>
      if negb (parse_err =? 0)
      then Some (rk, Z.lor actions ACTION_PERMANENT, parse_err, reset_coord_err, backoff)
      else
        Some (if actions =? 0 then emit rk EvWakeup else rk, actions, err, reset_coord_err, backoff)
  | (None, _) :: parts => addparts_loop rk parts parse_err actions err reset_coord_err backoff
  | (Some p, ErrorCode) :: parts =>
      let* rk := if ErrorCode =? 0 then rd_kafka_txn_partition_registered rk p else Some rk in
      let '(p_actions, err, rc, backoff, request_error) := addparts_error ErrorCode err backoff in
      let actions := Z.lor actions p_actions in
      let reset_coord_err := if rc =? 0 then reset_coord_err else rc in
      if request_error then Some (rk, actions, err, reset_coord_err, backoff)
      else addparts_loop rk parts parse_err actions err reset_coord_err backoff
  end.

(** [TAILQ_CONCAT_SORTED]: the partitions still waiting become pending again. *)
Definition rktps_concat_sorted (le : nat -> nat -> bool) (dst src : list nat) : list nat :=
  match dst with
  | [] => src
  | _ => foldl (fun dst p => insert_rktp le p dst) dst src
  end.

(** From the label [done] on. *)
Definition addparts_done (le : nat -> nat -> bool) (rk : rd_kafka)
  (actions err reset_coord_err : Z) (n : net) : option rd_kafka :=
  let* rk := if negb (err =? 0) then
               let* _ := rd_assert (txn_req_cnt rk >? 0) in
               Some (set_txn_req_cnt rk (txn_req_cnt rk - 1))
             else Some rk in
  if err_in err [ERR__DESTROY; ERR__OUTDATED] then Some rk
  else
    let '(rk, actions) :=
      if err =? 0 then (rk, actions)
      else (set_txn_req_cnt rk (txn_req_cnt rk + 1), Z.lor actions ACTION_RETRY) in
    let* rk := if negb (reset_coord_err =? 0) then
                 let* (rk, _) := rd_kafka_txn_coord_set rk None n in Some rk
               else Some rk in
    let rk := set_txn_pending_rktps rk
                (rktps_concat_sorted le (txn_pending_rktps rk) (txn_waitresp_rktps rk)) in
    let rk := set_txn_waitresp_rktps rk [] in
    let err := rd_kafka_txn_normalize_err err in
    if has_action actions ACTION_FATAL then rd_kafka_txn_set_fatal_error rk err
    else if has_action actions ACTION_PERMANENT then rd_kafka_txn_set_abortable_error rk err
    else Some (rd_kafka_txn_schedule_register_partitions rk).

Definition rd_kafka_txn_handle_AddPartitionsToTxn (le : nat -> nat -> bool) (rk : rd_kafka)
  (err : Z) (parts : list (option nat * Z)) (parse_err : Z) (n : net) : option rd_kafka :=
  if negb (err =? 0) then addparts_done le rk 0 err 0 n
  else
    let* _ := rd_assert (negb (bool_decide (txn_state rk = TXN_COMMITTING_TRANSACTION))) in
    if bool_decide (txn_state rk ∉ [TXN_IN_TRANSACTION; TXN_BEGIN_COMMIT])
    then addparts_done le rk 0 ERR__OUTDATED 0 n
    else
      let* (rk, actions, err, reset_coord_err, _) := addparts_loop rk parts parse_err 0 0 0 500 in
      addparts_done le rk actions err reset_coord_err n.

(** ** The application's calls, in the main thread *)

Definition rd_kafka_txn_op_init_transactions (rk : rd_kafka) (q : nat) (terminating : bool)
  : option rd_kafka :=
  match rd_kafka_txn_require_state rk [TXN_INIT; TXN_WAIT_PID; TXN_READY_NOT_ACKED] with
  | Some error => Some (rd_kafka_txn_curr_api_reply_error rk (Some q) (Some error))
  | None =>
      if bool_decide (txn_state rk = TXN_READY_NOT_ACKED)
      then Some (rd_kafka_txn_curr_api_reply_error rk (Some q) None)
      else
        let* rk := rd_kafka_txn_set_state rk TXN_WAIT_PID in
        let rk := set_txn_init_rkq rk (Some q) in
        let rk := set_txn_init_err rk 0 in
        rd_kafka_idemp_start rk terminating
  end.

Definition rd_kafka_txn_op_ack_init_transactions (rk : rd_kafka) (q : nat) : option rd_kafka :=
  let error := rd_kafka_txn_require_state rk [TXN_READY_NOT_ACKED] in
  let* rk := match error with
             | Some _ => Some rk
             | None => rd_kafka_txn_set_state rk TXN_READY
             end in
  Some (rd_kafka_txn_curr_api_reply_error rk (Some q) error).

Definition rd_kafka_txn_op_begin_transaction (rk : rd_kafka) (q : nat) : option rd_kafka :=
  let error := rd_kafka_txn_require_state rk [TXN_READY] in
  let* rk :=
    match error with
    | Some _ => Some rk
    | None =>
        let* _ := rd_assert (bool_decide (txn_rktps rk = [])) in
        let* rk := rd_kafka_txn_set_state rk TXN_IN_TRANSACTION in
        let* _ := rd_assert (txn_req_cnt rk =? 0) in
        let rk := set_txn_dr_fails rk 0 in
        Some (emit (set_txn_err rk 0) EvWakeup)
    end in
  Some (rd_kafka_txn_curr_api_reply_error rk (Some q) error).

Definition rd_kafka_txn_complete (rk : rd_kafka) : option rd_kafka :=
  let rk := rd_kafka_txn_clear_pending_partitions rk in
  let rk := rd_kafka_txn_clear_partitions rk in
  let rk := set_txn_requires_epoch_bump rk false in
  let rk := set_txn_req_cnt rk 0 in
  rd_kafka_txn_set_state rk TXN_READY.

Definition rd_kafka_txn_op_begin_commit (rk : rd_kafka) (q : nat) : option rd_kafka :=
  let error :=
    rd_kafka_txn_require_state rk [TXN_IN_TRANSACTION; TXN_BEGIN_COMMIT; TXN_COMMIT_NOT_ACKED] in
  let* rk := match error with
             | Some _ => Some rk
             | None => if bool_decide (txn_state rk = TXN_COMMIT_NOT_ACKED) then Some rk
                       else rd_kafka_txn_set_state rk TXN_BEGIN_COMMIT
             end in
  Some (rd_kafka_txn_curr_api_reply_error rk (Some q) error).

(** The label [done] of the commit. *)
Definition commit_done (rk : rd_kafka) (q : nat) (error : option api_error) : option rd_kafka :=
  let* rk := match error with
             | Some e => if e_txn_requires_abort e
                         then rd_kafka_txn_set_abortable_error rk (e_code e) else Some rk
             | None => Some rk
             end in
  Some (rd_kafka_txn_curr_api_reply_error rk (Some q) error).

Definition rd_kafka_txn_op_commit_transaction (rk : rd_kafka) (q : nat) (n : net)
  : option rd_kafka :=
  match rd_kafka_txn_require_state rk [TXN_BEGIN_COMMIT; TXN_COMMIT_NOT_ACKED] with
  | Some error => commit_done rk q (Some error)
  | None =>
      if bool_decide (txn_state rk = TXN_COMMIT_NOT_ACKED) then commit_done rk q None
      else if txn_dr_fails rk >? 0 then commit_done rk q (Some (abort_error ERR__INCONSISTENT))
      else if txn_req_cnt rk =? 0 then
        let* rk := rd_kafka_txn_set_state rk TXN_COMMIT_NOT_ACKED in commit_done rk q None
      else
        let pid := rd_kafka_idemp_get_pid0 rk in
        if negb (rd_kafka_pid_valid pid) then commit_done rk q (Some (retriable_error ERR__STATE))
        else if negb (net_request_err n =? 0)
        then commit_done rk q (Some (retriable_error (net_request_err n)))
        else rd_kafka_txn_set_state (emit rk (EvEndTxn pid true q)) TXN_COMMITTING_TRANSACTION
  end.

Definition rd_kafka_txn_op_commit_transaction_ack (rk : rd_kafka) (q : nat) : option rd_kafka :=
  let error := rd_kafka_txn_require_state rk [TXN_COMMIT_NOT_ACKED] in
  let* rk := match error with Some _ => Some rk | None => rd_kafka_txn_complete rk end in
  Some (rd_kafka_txn_curr_api_reply_error rk (Some q) error).

Definition rd_kafka_txn_op_begin_abort (rk : rd_kafka) (q : nat) : option rd_kafka :=
  let error :=
    rd_kafka_txn_require_state rk [TXN_IN_TRANSACTION; TXN_ABORTING_TRANSACTION;
                                   TXN_ABORTABLE_ERROR; TXN_ABORT_NOT_ACKED] in
  let* rk := match error with
             | Some _ => Some rk
             | None =>
                 if bool_decide (txn_state rk = TXN_ABORT_NOT_ACKED) then Some rk
                 else
                   let* rk := rd_kafka_txn_set_state rk TXN_ABORTING_TRANSACTION in
                   Some (rd_kafka_txn_clear_pending_partitions rk)
             end in
  Some (rd_kafka_txn_curr_api_reply_error rk (Some q) error).

Definition rd_kafka_txn_op_abort_transaction (rk : rd_kafka) (q : nat) (n : net)
  : option rd_kafka :=
  let reply rk error := Some (rd_kafka_txn_curr_api_reply_error rk (Some q) error) in
  match rd_kafka_txn_require_state rk [TXN_ABORTING_TRANSACTION; TXN_ABORT_NOT_ACKED] with
  | Some error => reply rk (Some error)
  | None =>
      if bool_decide (txn_state rk = TXN_ABORT_NOT_ACKED) then reply rk None
      else if txn_requires_epoch_bump rk || negb (bool_decide (idemp_state rk = IDEMP_ASSIGNED)) then
        if bool_decide (idemp_state rk = IDEMP_ASSIGNED) then
          let* rk := rd_kafka_txn_set_state rk TXN_ABORT_NOT_ACKED in reply rk None
        else Some (set_txn_init_rkq rk (Some q))
      else if txn_req_cnt rk =? 0 then
        let* rk := rd_kafka_txn_set_state rk TXN_ABORT_NOT_ACKED in reply rk None
      else
        let pid := rd_kafka_idemp_get_pid0 rk in
        if negb (rd_kafka_pid_valid pid) then reply rk (Some (retriable_error ERR__STATE))
        else if negb (net_request_err n =? 0)
        then reply rk (Some (retriable_error (net_request_err n)))
        else Some (emit rk (EvEndTxn pid false q))
  end.

Definition rd_kafka_txn_op_abort_transaction_ack (rk : rd_kafka) (q : nat) : option rd_kafka :=
  let error := rd_kafka_txn_require_state rk [TXN_ABORT_NOT_ACKED] in
  let* rk := match error with Some _ => Some rk | None => rd_kafka_txn_complete rk end in
  Some (rd_kafka_txn_curr_api_reply_error rk (Some q) error).

(** ** The end of a transaction *)

(** The actions for an error of EndTxn, and whether the coordinator is reset. *)
Definition endtxn_actions (err : Z) : Z * bool :=
  if err_in err [0; ERR__DESTROY; ERR__TIMED_OUT; ERR__OUTDATED] then (0, false)
  else if err =? ERR__TRANSPORT then (Z.lor ACTION_RETRY ACTION_REFRESH, false)
  else if err_in err [ERR_COORDINATOR_NOT_AVAILABLE; ERR_NOT_COORDINATOR]
  then (ACTION_RETRY, true)
  else if err_in err [ERR_COORDINATOR_LOAD_IN_PROGRESS; ERR_CONCURRENT_TRANSACTIONS]
  then (ACTION_RETRY, false)
  else if err_in err [ERR_UNKNOWN_PRODUCER_ID; ERR_INVALID_PRODUCER_ID_MAPPING]
  then (ACTION_PERMANENT, false)
  else if err_in err [ERR_INVALID_PRODUCER_EPOCH; ERR_PRODUCER_FENCED;
                      ERR_TRANSACTIONAL_ID_AUTHORIZATION_FAILED;
                      ERR_CLUSTER_AUTHORIZATION_FAILED; ERR_INVALID_TXN_STATE]
  then (ACTION_FATAL, false)
  else (ACTION_PERMANENT, false).

(** From the [switch] on; [retry] is what [rd_kafka_buf_retry] returns. *)
Definition endtxn_finish (rk : rd_kafka) (err : Z) (q : nat) (may_retry retry : bool) (n : net)
  : option rd_kafka :=
  let '(actions, reset) := endtxn_actions err in
  let* rk := if reset then let* (rk, _) := rd_kafka_txn_coord_set rk None n in Some rk
             else Some rk in
  let err := rd_kafka_txn_normalize_err err in
  let* (rk, retried) :=
    if has_action actions ACTION_FATAL then
      let* rk := rd_kafka_txn_set_fatal_error rk err in Some (rk, false)
    else
      let* rk := if has_action actions ACTION_REFRESH then rd_kafka_txn_coord_timer_start rk
                 else Some rk in
      if has_action actions ACTION_PERMANENT then
        let* rk := rd_kafka_txn_set_abortable_error rk err in Some (rk, false)
      else Some (rk, may_retry && has_action actions ACTION_RETRY && retry) in
  if retried then Some rk
  else if negb (err =? 0) then Some (rd_kafka_txn_curr_api_reply rk (Some q) actions err)
  else Some (rd_kafka_txn_curr_api_reply rk (Some q) 0 0).

(** [err] is the error of the response or of the request. *)
Definition rd_kafka_txn_handle_EndTxn (rk : rd_kafka) (err : Z) (is_commit : bool) (q : nat)
  (retry : bool) (n : net) : option rd_kafka :=
  if err =? ERR__DESTROY then Some rk
  else
    match txn_state rk with
    | TXN_ABORTABLE_ERROR =>
        let actions := if negb (err =? 0) then ACTION_PERMANENT
                       else if is_commit then ACTION_FATAL else ACTION_PERMANENT in
        Some (rd_kafka_txn_curr_api_reply rk (Some q) actions (txn_err rk))
    | s =>
        let may_retry := bool_decide (s = TXN_COMMITTING_TRANSACTION)
                         || bool_decide (s = TXN_ABORTING_TRANSACTION) in
        let err := if negb may_retry && (err =? 0) then ERR__OUTDATED else err in
        let* rk := if err =? 0 then
                     rd_kafka_txn_set_state rk
                       (if is_commit then TXN_COMMIT_NOT_ACKED else TXN_ABORT_NOT_ACKED)
                   else Some rk in
        endtxn_finish rk err q may_retry retry n
    end.

(** ** The application's side of a blocking call *)

Definition F_ABORT_ON_TIMEOUT : Z := 1.
Definition F_RETRIABLE_ON_TIMEOUT : Z := 2.
Definition F_FOR_REUSE : Z := 4.
Definition F_REUSE : Z := 8.

(** The callbacks of the time-out timer, which is no longer scheduled then. *)
Definition api_timeout_cb (rk : rd_kafka) (kind : api_timeout) (q : nat) : option rd_kafka :=
  match kind with
  | TmAbort =>
      let* rk := rd_kafka_txn_set_abortable_error rk ERR__TIMED_OUT in
      Some (rd_kafka_txn_curr_api_reply_error rk (Some q) (Some (abort_error ERR__TIMED_OUT)))
  | TmRetriable =>
      Some (rd_kafka_txn_curr_api_reply_error rk (Some q) (Some (retriable_error ERR__TIMED_OUT)))
  | TmPlain => Some (rd_kafka_txn_curr_api_reply rk (Some q) 0 ERR__TIMED_OUT)
  | TmInit =>
      let err := if txn_init_err rk =? 0 then ERR__TIMED_OUT else txn_init_err rk in
      Some (rd_kafka_txn_curr_api_reply_error rk (Some q)
              (Some (if err_in err [ERR__TIMED_OUT; ERR__TIMED_OUT_QUEUE]
                     then retriable_error err else plain_error err)))
  end.

(** The timer fires. *)
Definition curr_api_timer_fires (rk : rd_kafka) : option rd_kafka :=
  let api := txn_curr_api rk in
  match api_tmr api with
  | Some (kind, q) =>
      api_timeout_cb (set_txn_curr_api rk (mk_api (api_name api) (api_flags api) None)) kind q
  | None => Some rk
  end.

Definition rd_kafka_txn_curr_api_reset (rk : rd_kafka) (for_reuse : bool) : rd_kafka :=
  let api := txn_curr_api rk in
  set_txn_curr_api rk
    (if for_reuse then mk_api (api_name api) (api_flags api) None else mk_api "" 0 None).

(** [rd_kafka_txn_curr_api_req] up to sending the op: the error of a conflicting
    call, or none.  [timeout_ms] is not negative, as [rd_kafka_txn_curr_api_req] makes
    it. *)
Definition curr_api_req_start (rk : rd_kafka) (name : string) (flags : Z) (q : nat)
  : option (rd_kafka * option api_error) :=
  let reuse := negb (Z.land flags F_REUSE =? 0) in
  let flags := Z.ldiff flags F_REUSE in
  let api := txn_curr_api rk in
  let for_reuse := negb (Z.land (api_flags api) F_FOR_REUSE =? 0) in
  if (for_reuse && negb reuse) || (negb for_reuse && negb (bool_decide (api_name api = ""%string)))
  then Some (rk, Some (plain_error ERR__STATE))
  else
    let* _ := rd_assert (eqb for_reuse reuse) in
    let kind := if bool_decide (name = "init_transactions"%string) then TmInit
                else if negb (Z.land flags F_ABORT_ON_TIMEOUT =? 0) then TmAbort
                else if negb (Z.land flags F_RETRIABLE_ON_TIMEOUT =? 0) then TmRetriable
                else TmPlain in
    Some (set_txn_curr_api rk (mk_api name (Z.lor (api_flags api) flags) (Some (kind, q))), None).

(** And from the reply on. *)
Definition curr_api_req_finish (rk : rd_kafka) (flags : Z) (error : option api_error) : rd_kafka :=
  let for_reuse := negb (Z.land flags F_FOR_REUSE =? 0) in
  rd_kafka_txn_curr_api_reset rk
    (match error with Some _ => false | None => for_reuse end).

(** What produce() and the broker threads ask (hs_rdkafka_txnmgr.h). *)
Definition rd_kafka_txn_may_enq_msg (rk : rd_kafka) : bool :=
  negb (rk_transactional rk) || negb (txn_may_enq rk =? 0).
Definition rd_kafka_txn_may_send_msg (rk : rd_kafka) : bool :=
  bool_decide (txn_state rk ∈ [TXN_IN_TRANSACTION; TXN_BEGIN_COMMIT]).
Definition rd_kafka_txn_toppar_may_send_msg (rk : rd_kafka) (p : nat) : bool :=
  negb (Z.land (toppar_flags rk p) RD_KAFKA_TOPPAR_F_IN_TXN =? 0).

(** ** Termination *)

Definition rd_kafka_txns_term (rk : rd_kafka) : rd_kafka :=
  let rk := set_txn_init_rkq rk None in
  let rk := set_txn_coord_tmr rk false in
  let rk := set_txn_register_parts_tmr rk false in
  let rk := rd_kafka_txn_clear_pending_partitions rk in
  rd_kafka_txn_clear_partitions rk.

Definition rd_kafka_idemp_term (rk : rd_kafka) : option rd_kafka :=
  let rk := if rk_transactional rk then rd_kafka_txns_term rk else rk in
  let* rk := rd_kafka_idemp_set_state rk IDEMP_TERM in
  Some (set_pid_tmr rk false).
