(* ===== verification/EosProps.v ===== *)
(** * Properties of the idempotent and transactional producer

    Everything that happens to the producer is an input; the properties are about
    all sequences of inputs, or about the ones named. *)

From stdpp Require Import gmap strings.
From S2P Require Import Prelude Producer EosState Eos Txn.

(** ** Inputs *)

Inductive input : Type :=
  | IInitTransactions (q : nat) (terminating : bool)
  | IAckInit (q : nat)
  | IBegin (q : nat)
  | IAddPartition (p : nat)
  | IRegister (n : net)
  | IAddPartitionsResponse (err : Z) (parts : list (option nat * Z)) (parse_err : Z) (n : net)
  | IBeginCommit (q : nat)
  | ICommit (q : nat) (n : net)
  | ICommitAck (q : nat)
  | IBeginAbort (q : nat)
  | IAbort (q : nat) (n : net)
  | IAbortAck (q : nat)
  | IEndTxnResponse (err : Z) (commit : bool) (q : nat) (retry : bool) (n : net)
  | IPidTimer (n : net)
  | IInitProducerIdResponse (err : Z) (pid : rd_kafka_pid) (n : net)
  | ICoordTimer (n : net)
  | IFindCoordinatorResponse (err NodeId : Z) (rkb : option nat) (n : net)
  | ICoordMonitor (is_up : bool) (n : net)
  | IInflightAdd
  | IInflightSub
  | IDrainReset
  | IDrainEpochBump (err : Z)
  | IFatal (err : Z)
  | ISetFatal (err : Z)
  | IApiStart (name : string) (flags : Z) (q : nat)
  | IApiFinish (flags : Z) (error : option api_error)
  | IApiTimer
  | IDeliveryFailed
  | ITerm.

(** Partitions are ordered by their identity.  [IFatal] is a fatal error by
    [rd_kafka_idemp_set_fatal_error], [ISetFatal] one by [rd_kafka_set_fatal_error], which
    leaves the transaction state alone: the writer of a batch that cannot be made again
    and [rd_kafka_test_fatal_error] raise it. *)
Definition eos_step (rk : rd_kafka) (i : input) : option rd_kafka :=
  match i with
  | IInitTransactions q t => rd_kafka_txn_op_init_transactions rk q t
  | IAckInit q => rd_kafka_txn_op_ack_init_transactions rk q
  | IBegin q => rd_kafka_txn_op_begin_transaction rk q
  | IAddPartition p => Some (rd_kafka_txn_add_partition Nat.leb rk p)
  | IRegister n => Some (rd_kafka_txn_register_partitions (set_txn_register_parts_tmr rk false) n)
  | IAddPartitionsResponse err parts perr n =>
      rd_kafka_txn_handle_AddPartitionsToTxn Nat.leb rk err parts perr n
  | IBeginCommit q => rd_kafka_txn_op_begin_commit rk q
  | ICommit q n => rd_kafka_txn_op_commit_transaction rk q n
  | ICommitAck q => rd_kafka_txn_op_commit_transaction_ack rk q
  | IBeginAbort q => rd_kafka_txn_op_begin_abort rk q
  | IAbort q n => rd_kafka_txn_op_abort_transaction rk q n
  | IAbortAck q => rd_kafka_txn_op_abort_transaction_ack rk q
  | IEndTxnResponse err c q r n => rd_kafka_txn_handle_EndTxn rk err c q r n
  | IPidTimer n => rd_kafka_idemp_pid_timer_cb (set_pid_tmr rk false) n
  | IInitProducerIdResponse err pid n => rd_kafka_handle_InitProducerId rk err pid n
  | ICoordTimer n => rd_kafka_txn_coord_timer_cb (set_txn_coord_tmr rk false) n
  | IFindCoordinatorResponse err id rkb n => rd_kafka_txn_handle_FindCoordinator rk err id rkb n
  | ICoordMonitor up n => rd_kafka_txn_coord_monitor_cb rk up n
  | IInflightAdd => Some (rd_kafka_idemp_inflight_toppar_add rk)
  | IInflightSub => rd_kafka_idemp_inflight_toppar_sub rk
  | IDrainReset => rd_kafka_idemp_drain_reset rk
  | IDrainEpochBump err => rd_kafka_idemp_drain_epoch_bump rk err
  | IFatal err => rd_kafka_idemp_set_fatal_error rk err
  | ISetFatal err => Some (rd_kafka_set_fatal_error0 rk err)
  | IApiStart name flags q => let* (rk, _) := curr_api_req_start rk name flags q in Some rk
  | IApiFinish flags error => Some (curr_api_req_finish rk flags error)
  | IApiTimer => curr_api_timer_fires rk
  | IDeliveryFailed => Some (set_txn_dr_fails rk (txn_dr_fails rk + 1))
  | ITerm => rd_kafka_idemp_term rk
  end.

Fixpoint eos_run (rk : rd_kafka) (is_ : list input) : option rd_kafka :=
  match is_ with
  | [] => Some rk
  | i :: is_ => let* rk := eos_step rk i in eos_run rk is_
  end.

(** Errors that are raised are errors. *)
Definition input_ok (i : input) : Prop :=
  match i with IFatal err | ISetFatal err => err <> 0 | _ => True end.

(** No fatal error passes the transaction state by. *)
Definition not_set_fatal (i : input) : bool := match i with ISetFatal _ => false | _ => true end.

(** ** What always holds *)

Section Invariant.
(** All fatal errors go by the transaction state. *)
Context (D : bool).

Record eos_inv (rk : rd_kafka) : Prop := {
  inv_pid : idemp_state rk = IDEMP_ASSIGNED -> rd_kafka_pid_valid (eos_pid rk) = true;
  inv_enq : txn_may_enq rk = if decide (txn_state rk = TXN_IN_TRANSACTION) then 1 else 0;
  inv_idemp_fatal : idemp_state rk = IDEMP_FATAL_ERROR -> rk_fatal_err rk <> 0;
  inv_txn_fatal : txn_state rk = TXN_FATAL_ERROR -> rk_fatal_err rk <> 0;
  inv_fatal_txn : D = true -> rk_transactional rk = true -> rk_fatal_err rk <> 0 ->
                  txn_state rk = TXN_FATAL_ERROR }.

(** What a change may not do, beside keeping the invariant. *)
Record eos_keeps (rk rk' : rd_kafka) : Prop := {
  kp_inv : eos_inv rk -> eos_inv rk';
  kp_txn : rk_transactional rk' = rk_transactional rk;
  kp_fatal : rk_fatal_err rk <> 0 -> rk_fatal_err rk' = rk_fatal_err rk;
  kp_idemp : rk_fatal_err rk <> 0 -> idemp_state rk <> IDEMP_ASSIGNED ->
             idemp_state rk' <> IDEMP_ASSIGNED;
  kp_txn_state : txn_state rk = TXN_FATAL_ERROR -> txn_state rk' = TXN_FATAL_ERROR }.

#[local] Instance eos_keeps_preorder : PreOrder eos_keeps.
Proof.
  split; [intros rk; split; auto |].
  intros a b c [A1 A2 A3 A4 A5] [B1 B2 B3 B4 B5]. split; auto.
  - congruence.
  - intros H. rewrite (B3 ltac:(rewrite (A3 H); exact H)). auto.
  - intros H H'. apply B4; [now rewrite (A3 H) | auto].
Qed.

(** The fields all this is about. *)
Definition eos_core (rk : rd_kafka) :=
  (rk_transactional rk, rk_fatal_err rk, idemp_state rk, eos_pid rk, txn_may_enq rk, txn_state rk).

Lemma core_keeps rk rk' : eos_core rk' = eos_core rk -> eos_keeps rk rk'.
Proof.
  unfold eos_core. intros [= E1 E2 E3 E4 E5 E6].
  split; rewrite ?E1, ?E2, ?E3, ?E6; auto.
  intros [H1 H2 H3 H4 H5]. split; rewrite ?E1, ?E2, ?E3, ?E4, ?E5, ?E6; auto.
Qed.

Lemma keeps_core rk rk1 rk' : eos_keeps rk rk1 -> eos_core rk' = eos_core rk1 -> eos_keeps rk rk'.
Proof. intros H E. transitivity rk1; [done | now apply core_keeps]. Qed.

Lemma core_keeps_l rk rk1 rk' : eos_core rk1 = eos_core rk -> eos_keeps rk1 rk' -> eos_keeps rk rk'.
Proof. intros E H. transitivity rk1; [now apply core_keeps | done]. Qed.

Lemma reply_core rk q e : eos_core (rd_kafka_txn_curr_api_reply_error rk q e) = eos_core rk.
Proof. now destruct q. Qed.

Lemma reply_core' rk q a e : eos_core (rd_kafka_txn_curr_api_reply rk q a e) = eos_core rk.
Proof. apply reply_core. Qed.

(** [rd_assert] and the [option] of the models, in hypotheses. *)
Ltac step_in H :=
  match type of H with
  | Some _ = Some _ => injection H as H
  | None = Some _ => discriminate H
  | context [rd_assert ?b] => destruct b eqn:?; cbn [rd_assert] in H
  | context [match ?x with _ => _ end] => destruct x eqn:?
  end.
Ltac steps_in H := repeat step_in H.

Lemma txn_set_state_keeps rk s rk' :
  rd_kafka_txn_set_state rk s = Some rk' -> (s = TXN_FATAL_ERROR -> rk_fatal_err rk <> 0) ->
  eos_keeps rk rk'.
Proof.
  unfold rd_kafka_txn_set_state. intros H Hs.
  destruct (bool_decide_reflect (txn_state rk = s)) as [E | E]; [now injection H as <- |].
  destruct (rd_kafka_txn_state_transition_is_valid (txn_state rk) s) as [valid ignore] eqn:V.
  destruct valid; [| done]. cbn in H. destruct ignore; [now injection H as <- |].
  injection H as <-.
  assert (Hf : txn_state rk <> TXN_FATAL_ERROR).
  { intros Ef. rewrite Ef in V, E. destruct s; vm_compute in V; congruence. }
  destruct (bool_decide_reflect (txn_state rk = TXN_IN_TRANSACTION)) as [E1 | E1];
    [| destruct (bool_decide_reflect (s = TXN_IN_TRANSACTION)) as [E2 | E2]];
    (split; cbn; auto; [| congruence];
     intros [H1 H2 H3 H4 H5]; split; cbn; auto;
     [| intros HD T F; destruct (Hf (H5 HD T F))]).
  - rewrite decide_False; [done |]. congruence.
  - now rewrite decide_True.
  - rewrite decide_False by done. now rewrite decide_False in H2.
Qed.

Lemma idemp_enter_keeps rk s rk' :
  idemp_enter_state rk s = Some rk' -> idemp_state rk <> s ->
  (s = IDEMP_FATAL_ERROR -> rk_fatal_err rk <> 0) ->
  (s = IDEMP_ASSIGNED -> rd_kafka_pid_valid (eos_pid rk) = true /\ rk_fatal_err rk = 0) ->
  eos_keeps rk rk'.
Proof.
  unfold idemp_enter_state. intros H Hne Hf Ha.
  assert (Hk : eos_keeps rk (set_idemp_state rk s)).
  { split; cbn; auto.
    - intros [H1 H2 H3 H4 H5]. split; cbn; auto. intros E. now apply Ha.
    - intros Hfat _ E. destruct (Ha E). contradiction. }
  destruct (rk_transactional rk) eqn:T; cbn in H; rewrite ?T in H; [| now injection H as <-].
  etransitivity; [exact Hk |]. set (rk1 := set_idemp_state rk s) in *.
  assert (Hf1 : s = IDEMP_FATAL_ERROR -> rk_fatal_err rk1 <> 0) by exact Hf.
  unfold rd_kafka_txn_idemp_state_change in H.
  assert (G : forall st rk2, rd_kafka_txn_set_state rk1 st = Some rk2 ->
    (st = TXN_FATAL_ERROR -> s = IDEMP_FATAL_ERROR) -> eos_keeps rk1 rk2)
    by (intros; eapply txn_set_state_keeps; eauto).
  destruct s; try (cbn in H; injection H as <-; reflexivity);
    destruct (txn_state rk1) eqn:Et; try (cbn in H; injection H as <-; reflexivity);
    match type of H with
    | context [rd_kafka_txn_set_state rk1 ?st] =>
        destruct (rd_kafka_txn_set_state rk1 st) as [rk2 |] eqn:E2; [| discriminate H];
        specialize (G st rk2 E2 ltac:(done))
    end;
    cbn [andb] in H; destruct (txn_init_rkq rk2) eqn:Q; cbn in H; injection H as <-;
    (eapply keeps_core; [exact G | reflexivity]).
Qed.

Lemma idemp_set_state_keeps rk s rk' :
  rd_kafka_idemp_set_state rk s = Some rk' ->
  (s = IDEMP_FATAL_ERROR -> rk_fatal_err rk <> 0) ->
  (s = IDEMP_ASSIGNED -> rd_kafka_pid_valid (eos_pid rk) = true) ->
  eos_keeps rk rk'.
Proof.
  unfold rd_kafka_idemp_set_state, rd_kafka_fatal_error_code. intros H Hf Ha.
  destruct (bool_decide_reflect (idemp_state rk = s)) as [E | E]; [now injection H as <- |].
  destruct (Z.eqb_spec (rk_fatal_err rk) 0) as [F | F]; cbn [negb andb] in H.
  - eapply idemp_enter_keeps; eauto.
  - destruct (bool_decide_reflect (s ∉ [IDEMP_FATAL_ERROR; IDEMP_TERM; IDEMP_DRAIN_RESET;
                                       IDEMP_DRAIN_BUMP])) as [Hd | Hd].
    + destruct (bool_decide_reflect (idemp_state rk = IDEMP_FATAL_ERROR)) as [E' | E'];
        [now injection H as <- |].
      eapply idemp_enter_keeps; eauto. done.
    + eapply idemp_enter_keeps; eauto. intros ->. destruct Hd. apply (bool_decide_unpack _). now vm_compute.
Qed.

Lemma set_fatal_error0_fatal rk err :
  err <> 0 -> rk_fatal_err (rd_kafka_set_fatal_error0 rk err) <> 0.
Proof.
  intros He. unfold rd_kafka_set_fatal_error0. cbn.
  destruct (Z.eqb_spec (rk_fatal_err rk) 0); cbn; [exact He | done].
Qed.

Lemma set_fatal_error0_core rk err :
  exists f, eos_core (rd_kafka_set_fatal_error0 rk err) = eos_core (set_rk_fatal_err rk f) /\
    (rk_fatal_err rk <> 0 -> f = rk_fatal_err rk).
Proof.
  unfold rd_kafka_set_fatal_error0. cbn.
  destruct (Z.eqb_spec (rk_fatal_err rk) 0) as [E | E]; [exists err | exists (rk_fatal_err rk)];
    (split; [reflexivity | congruence]).
Qed.

(** A fatal error of a producer without transactions, or that passes their state by. *)
Lemma set_fatal_error0_keeps rk err :
  err <> 0 -> (D = true -> rk_transactional rk = false) -> eos_keeps rk (rd_kafka_set_fatal_error0 rk err).
Proof.
  intros He T. pose proof (set_fatal_error0_fatal rk err He) as Hf.
  destruct (set_fatal_error0_core rk err) as (f & E & Hold). unfold eos_core in E. cbn in E.
  injection E as E1 E2 E3 E4 E5 E6.
  split; rewrite ?E1, ?E3, ?E6; auto; [| rewrite E2; exact Hold].
  intros [H1 H2 H3 H4 H5].
  split; rewrite ?E1, ?E3, ?E4, ?E5, ?E6; auto. intros HD T'. specialize (T HD). congruence.
Qed.

(** And of one with transactions, whose transaction state follows. *)
Lemma txn_set_fatal_error_keeps rk err rk' :
  rd_kafka_txn_set_fatal_error rk err = Some rk' -> err <> 0 ->
  eos_keeps rk rk' /\ rk_fatal_err rk' <> 0.
Proof.
  unfold rd_kafka_txn_set_fatal_error. intros H He.
  pose proof (set_fatal_error0_fatal rk err He) as Hf.
  destruct (set_fatal_error0_core rk err) as (f & E & Hold).
  set (rk1 := rd_kafka_set_fatal_error0 rk err) in *.
  assert (Hc : exists rk2, eos_core rk2 = eos_core (set_rk_fatal_err rk f) /\
             rd_kafka_txn_set_state rk2 TXN_FATAL_ERROR = Some rk').
  { cbn in H. destruct (txn_init_rkq rk1); (eexists; split; [| exact H]); rewrite <- E; reflexivity. }
  assert (Hf' : f <> 0) by (unfold eos_core in E; cbn in E; congruence).
  clear H E Hf. clearbody rk1. clear rk1. destruct Hc as (rk2 & E & H).
  unfold rd_kafka_txn_set_state in H. unfold eos_core in E. cbn in E.
  injection E as E1 E2 E3 E4 E5 E6.
  destruct (bool_decide_reflect (txn_state rk2 = TXN_FATAL_ERROR)) as [Et | Et].
  - injection H as <-. split; [| congruence].
    split; [| now rewrite E1 | now rewrite E2 | now rewrite E3 | congruence].
    intros [H1 H2 H3 H4 H5]. split; rewrite ?E1, ?E2, ?E3, ?E4, ?E5, ?E6; auto.
    intros _ _. congruence.
  - cbn in H. injection H as <-.
    assert (Hq : forall en, en = 0 -> eos_keeps rk (set_txn_state (set_txn_may_enq rk2 en) TXN_FATAL_ERROR)).
    { intros en ->. split; cbn; [| done | now rewrite E2 | now rewrite E3 | done].
      intros [H1 H2 H3 H4 H5]. split; cbn; rewrite ?E1, ?E2, ?E3, ?E4; auto. }
    destruct (bool_decide_reflect (txn_state rk2 = TXN_IN_TRANSACTION)) as [Ei | Ei];
      (split; [| cbn; congruence]); [now apply Hq |].
    split; cbn; [| done | now rewrite E2 | now rewrite E3 | done].
    intros [H1 H2 H3 H4 H5]. split; cbn; rewrite ?E1, ?E2, ?E3, ?E4, ?E5; auto.
    rewrite H2, decide_False; [done |]. congruence.
Qed.

(** ** Every operation *)

Lemma txn_set_state_keeps' rk s rk' :
  rd_kafka_txn_set_state rk s = Some rk' -> s <> TXN_FATAL_ERROR -> eos_keeps rk rk'.
Proof. intros H Hs. eapply txn_set_state_keeps; [exact H | contradiction]. Qed.

Lemma set_abortable_error0_keeps rk err b rk' :
  rd_kafka_txn_set_abortable_error0 rk err b = Some rk' -> eos_keeps rk rk'.
Proof.
  unfold rd_kafka_txn_set_abortable_error0. intros H.
  destruct (negb (rk_fatal_err rk =? 0)); [now injection H as <- |].
  set (rk1 := if b then set_txn_requires_epoch_bump rk true else rk) in *.
  apply (core_keeps_l rk rk1); [subst rk1; now destruct b |].
  destruct (negb (txn_err rk1 =? 0)); [now injection H as <- |].
  destruct (rd_kafka_txn_set_state _ _) as [rk2 |] eqn:E; [| discriminate H].
  injection H as <-. apply (keeps_core _ rk2); [| reflexivity].
  apply (core_keeps_l _ (set_txn_err rk1 err)); [reflexivity |].
  eapply txn_set_state_keeps'; [exact E | done].
Qed.

Lemma check_error_keeps rk err f rk' b :
  rd_kafka_idemp_check_error rk err f = Some (rk', b) -> err <> 0 -> eos_keeps rk rk'.
Proof.
  unfold rd_kafka_idemp_check_error. intros H He.
  destruct (if err_in err _ then _ else _) as [f' err'] eqn:E.
  assert (He' : err' <> 0).
  { destruct (err_in err [ERR__UNSUPPORTED_FEATURE; _; _; _]); [now injection E as _ <- |].
    destruct (err_in err _); injection E as _ <-; [discriminate | done]. }
  clear E. destruct f'; cbn [negb] in H; [| now injection H as <- _].
  destruct (rk_transactional rk) eqn:T.
  - destruct (rd_kafka_txn_set_fatal_error rk err') as [rk1 |] eqn:E1; [| discriminate H].
    destruct (txn_set_fatal_error_keeps _ _ _ E1 He') as [K F].
    destruct (rd_kafka_idemp_set_state rk1 _) as [rk2 |] eqn:E2; [| discriminate H].
    injection H as <- _. transitivity rk1; [exact K |].
    eapply idemp_set_state_keeps; [exact E2 | done | done].
  - destruct (rd_kafka_idemp_set_state _ _) as [rk2 |] eqn:E2; [| discriminate H].
    injection H as <- _. etransitivity; [now apply (set_fatal_error0_keeps rk err') |].
    eapply idemp_set_state_keeps; [exact E2 | intros _; now apply set_fatal_error0_fatal | done].
Qed.

(** Forward through a call: to show that [f rk = Some rk'] keeps, every branch of [f]
    is a chain of calls that do. *)
Ltac unchain :=
  repeat match goal with
  | H : Some _ = Some _ |- _ => injection H; clear H; intros; subst
  | H : (_, _) = (_, _) |- _ => injection H; clear H; intros; subst
  | H : None = Some _ |- _ => discriminate H
  | H : rd_assert ?b = Some _ |- _ => destruct b eqn:?; [clear H | discriminate H]
  | H : (match ?x with _ => _ end) = Some _ |- _ =>
      let E := fresh "E" in destruct x eqn:E
  | H : (match ?x with _ => _ end) = (_, _) |- _ =>
      let E := fresh "E" in destruct x eqn:E
  end.

Ltac keep_one :=
  match goal with
  | |- eos_keeps ?a ?a => reflexivity
  | E : rd_kafka_txn_set_state ?a _ = Some ?b |- eos_keeps _ ?b =>
      transitivity a; [| apply (txn_set_state_keeps' _ _ _ E); discriminate]
  | E : rd_kafka_idemp_set_state ?a _ = Some ?b |- eos_keeps _ ?b =>
      transitivity a; [| apply (idemp_set_state_keeps _ _ _ E); [try discriminate | try discriminate]]
  | E : rd_kafka_txn_set_abortable_error ?a _ = Some ?b |- eos_keeps _ ?b =>
      transitivity a; [| exact (set_abortable_error0_keeps _ _ _ _ E)]
  | E : rd_kafka_txn_set_abortable_error_with_bump ?a _ = Some ?b |- eos_keeps _ ?b =>
      transitivity a; [| exact (set_abortable_error0_keeps _ _ _ _ E)]
  | E : rd_kafka_txn_set_fatal_error ?a _ = Some ?b |- eos_keeps _ ?b =>
      transitivity a; [| apply (txn_set_fatal_error_keeps _ _ _ E)]
  | E : rd_kafka_idemp_check_error ?a _ _ = Some (?b, _) |- eos_keeps _ ?b =>
      transitivity a; [| apply (check_error_keeps _ _ _ _ _ E)]
  | E : rd_kafka_txn_coord_timer_start ?a = Some ?b |- eos_keeps _ ?b =>
      unfold rd_kafka_txn_coord_timer_start in E; unchain
  | |- eos_keeps _ (rd_kafka_txn_curr_api_reply_error ?a _ _) =>
      apply (keeps_core _ a); [| apply reply_core]
  | |- eos_keeps _ (rd_kafka_txn_curr_api_reply ?a _ _ _) =>
      apply (keeps_core _ a); [| apply reply_core']
  | |- eos_keeps _ (?f ?a ?v) => apply (keeps_core _ a); [| reflexivity]
  | |- eos_keeps _ (?f ?a) => apply (keeps_core _ a); [| reflexivity]
  end.
Lemma nz_of x : negb (x =? 0) = true -> x <> 0.
Proof. destruct (Z.eqb_spec x 0); done. Qed.

Ltac nonzero :=
  match goal with
  | |- (if ?b then _ else _) <> 0 => destruct b; discriminate
  | H : negb (?x =? 0) = true |- ?x <> 0 => exact (nz_of x H)
  | H : (?x =? 0) = false |- ?x <> 0 => now apply Z.eqb_neq
  | |- _ <> 0 => discriminate
  end.
Ltac keep := unchain; repeat keep_one; try assumption; try nonzero; try discriminate.

Lemma coord_query_keeps rk n rk' b :
  rd_kafka_txn_coord_query rk n = Some (rk', b) -> eos_keeps rk rk'.
Proof.
  unfold rd_kafka_txn_coord_query, rd_kafka_idemp_broker_any. intros H. keep.
Qed.

Lemma fsm_wait_transport_keeps rk n rk' :
  fsm_wait_transport rk n = Some rk' -> eos_keeps rk rk'.
Proof.
  unfold fsm_wait_transport, rd_kafka_idemp_broker_any. intros H. keep.
Qed.

(** The fuel of the redo is enough: more of it changes nothing. *)
Lemma pid_fsm_fuel k rk n :
  rk_fatal_err rk = 0 -> pid_fsm_redo (2 + k) rk n = pid_fsm_redo 2 rk n.
Proof.
  intros F. cbn [pid_fsm_redo Nat.add]. destruct (idemp_state rk) eqn:A; try reflexivity.
  destruct (negb (rk_transactional rk) || _); [| reflexivity].
  unfold rd_kafka_idemp_set_state, rd_kafka_fatal_error_code, idemp_enter_state. rewrite A, F.
  rewrite bool_decide_false by done. cbn. now destruct (rk_transactional rk).
Qed.

Lemma pid_fsm_keeps rk n rk' : rd_kafka_idemp_pid_fsm rk n = Some rk' -> eos_keeps rk rk'.
Proof.
  unfold rd_kafka_idemp_pid_fsm. intros H. unchain; [reflexivity |].
  clear E. revert rk H. generalize 2%nat. intros fuel. induction fuel as [| fuel IH]; [done |].
  cbn [pid_fsm_redo]. intros rk H. unchain; try reflexivity.
  - etransitivity; [| apply IH; exact H]. keep.
  - eapply coord_query_keeps; eassumption.
  - eapply fsm_wait_transport_keeps; eassumption.
Qed.

Lemma coord_set_keeps rk rkb n rk' b :
  rd_kafka_txn_coord_set rk rkb n = Some (rk', b) -> eos_keeps rk rk'.
Proof.
  unfold rd_kafka_txn_coord_set. intros H. unchain; try keep;
    (etransitivity; [| eapply pid_fsm_keeps; eassumption]; keep).
Qed.

Lemma core_set_flags rk v : eos_core (set_rktp_flags rk v) = eos_core rk.
Proof. reflexivity. Qed.
Lemma core_set_pending rk v : eos_core (set_txn_pending_rktps rk v) = eos_core rk.
Proof. reflexivity. Qed.
Lemma core_set_waitresp rk v : eos_core (set_txn_waitresp_rktps rk v) = eos_core rk.
Proof. reflexivity. Qed.
Lemma core_set_rktps rk v : eos_core (set_txn_rktps rk v) = eos_core rk.
Proof. reflexivity. Qed.

Lemma clear_pending_core rk : eos_core (rd_kafka_txn_clear_pending_partitions rk) = eos_core rk.
Proof.
  unfold rd_kafka_txn_clear_pending_partitions. cbv zeta.
  now rewrite core_set_waitresp, core_set_flags, core_set_pending, core_set_flags.
Qed.

Lemma clear_partitions_core rk : eos_core (rd_kafka_txn_clear_partitions rk) = eos_core rk.
Proof. unfold rd_kafka_txn_clear_partitions. now rewrite core_set_rktps, core_set_flags. Qed.

(** The same, knowing these. *)
Ltac keep_call :=
  match goal with
  | |- eos_keeps _ (rd_kafka_txn_clear_partitions ?a) =>
      apply (keeps_core _ a); [| apply clear_partitions_core]
  | |- eos_keeps _ (rd_kafka_txn_clear_pending_partitions ?a) =>
      apply (keeps_core _ a); [| apply clear_pending_core]
  | E : rd_kafka_txn_coord_query ?a _ = Some (?b, _) |- eos_keeps _ ?b =>
      transitivity a; [| exact (coord_query_keeps _ _ _ _ E)]
  | E : rd_kafka_txn_coord_set ?a _ _ = Some (?b, _) |- eos_keeps _ ?b =>
      transitivity a; [| exact (coord_set_keeps _ _ _ _ _ E)]
  | E : rd_kafka_idemp_pid_fsm ?a _ = Some ?b |- eos_keeps _ ?b =>
      transitivity a; [| exact (pid_fsm_keeps _ _ _ E)]
  | |- _ => keep_one
  end.
Ltac keeps := unchain; repeat keep_call; try assumption; try nonzero; try discriminate.

Lemma handle_FindCoordinator_keeps rk err id rkb n rk' :
  rd_kafka_txn_handle_FindCoordinator rk err id rkb n = Some rk' -> eos_keeps rk rk'.
Proof.
  unfold rd_kafka_txn_handle_FindCoordinator. set (err' := if negb (err =? 0) then _ else _).
  intros H. destruct (err' =? 0) eqn:E0; [keeps |].
  unchain.
  - reflexivity || keeps.
  - assert (He : err' <> 0) by now apply Z.eqb_neq.
    destruct (txn_set_fatal_error_keeps _ _ _ E2 He) as [K F].
    etransitivity; [| apply (idemp_set_state_keeps _ _ _ H); [done | discriminate]].
    etransitivity; [| exact K]. keeps.
  - destruct (err' =? ERR__UNKNOWN_BROKER); keeps.
Qed.

Lemma pid_bump_valid p : rd_kafka_pid_valid p = true -> rd_kafka_pid_valid (rd_kafka_pid_bump p) = true.
Proof. done. Qed.

Lemma request_pid_failed_keeps rk err n rk' :
  rd_kafka_idemp_request_pid_failed rk err n = Some rk' -> err <> 0 -> eos_keeps rk rk'.
Proof. unfold rd_kafka_idemp_request_pid_failed. intros H He. keeps. Qed.

Lemma set_pid_keeps rk pid :
  rd_kafka_pid_valid pid = true -> eos_keeps rk (set_eos_pid rk pid).
Proof. intros V. split; cbn; auto. intros [H1 H2 H3 H4 H5]. split; cbn; auto. Qed.

Lemma pid_update_keeps rk pid n rk' :
  rd_kafka_idemp_pid_update rk pid n = Some rk' -> eos_keeps rk rk'.
Proof.
  unfold rd_kafka_idemp_pid_update. intros H. unchain; [reflexivity | |].
  - eapply request_pid_failed_keeps; [eassumption | discriminate].
  - apply negb_false_iff in E0. keeps; [now apply set_pid_keeps | done].
Qed.

Lemma drain_done_keeps rk rk' : rd_kafka_idemp_drain_done rk = Some rk' -> eos_keeps rk rk'.
Proof.
  unfold rd_kafka_idemp_drain_done. intros H. unchain; keeps;
    apply andb_true_iff in E1 as [_ V]; [now apply set_pid_keeps | done].
Qed.

Lemma check_drain_done_keeps rk rk' :
  rd_kafka_idemp_check_drain_done rk = Some rk' -> eos_keeps rk rk'.
Proof.
  unfold rd_kafka_idemp_check_drain_done. intros H.
  destruct (_ =? _); [now apply drain_done_keeps | now injection H as <-].
Qed.

Lemma idemp_start_keeps rk b rk' : rd_kafka_idemp_start rk b = Some rk' -> eos_keeps rk rk'.
Proof. unfold rd_kafka_idemp_start. intros H. keeps. Qed.

(** *** The partitions *)

Lemma partition_registered_core rk p rk' :
  rd_kafka_txn_partition_registered rk p = Some rk' -> eos_core rk' = eos_core rk.
Proof. unfold rd_kafka_txn_partition_registered. intros H. now unchain. Qed.

Lemma register_partitions_core rk n : eos_core (rd_kafka_txn_register_partitions rk n) = eos_core rk.
Proof.
  unfold rd_kafka_txn_register_partitions.
  repeat match goal with |- context [match ?x with _ => _ end] => destruct x; try reflexivity end.
Qed.

Lemma add_partition_core le rk p : eos_core (rd_kafka_txn_add_partition le rk p) = eos_core rk.
Proof.
  unfold rd_kafka_txn_add_partition.
  destruct (negb _); [done |]. now destruct (match txn_pending_rktps _ with [] => _ | _ => _ end).
Qed.

(** The loop over the response leaves an error whenever it asks for an action. *)
Lemma addparts_loop_spec parts : forall rk perr actions err rc bo rk' actions' err' rc' bo',
  addparts_loop rk parts perr actions err rc bo = Some (rk', actions', err', rc', bo') ->
  (actions <> 0 -> err <> 0) ->
  eos_core rk' = eos_core rk /\ (actions' <> 0 -> err' <> 0).
Proof.
  induction parts as [| [[p |] ec] parts IH]; intros * H Ha; cbn [addparts_loop] in H.
  - unchain; [split; [done |]; intros _; now apply nz_of |].
    destruct (actions' =? 0); auto.
  - destruct (if ec =? 0 then _ else _) as [rk1 |] eqn:E; [| discriminate H].
    assert (Hc : eos_core rk1 = eos_core rk).
    { destruct (ec =? 0); [eapply partition_registered_core, E | now injection E as <-]. }
    destruct (addparts_error ec err bo) as [[[[pa err1] rc1] bo1] re] eqn:Ee.
    assert (Ha' : Z.lor actions pa <> 0 -> err1 <> 0).
    { unfold addparts_error in Ee. destruct (Z.eqb_spec ec 0) as [-> | Hec].
      - injection Ee as <- <- _ _ _. now rewrite Z.lor_0_r.
      - intros _. unchain; first [exact Hec | now destruct (Z.eqb_spec err 0)]. }
    cbv zeta in H. destruct re; [unchain; auto |].
    apply IH in H as [H1 H2]; [| exact Ha']. split; [congruence | exact H2].
  - now apply IH in H.
Qed.

Lemma normalize_nonzero err : err <> 0 -> rd_kafka_txn_normalize_err err <> 0.
Proof. unfold rd_kafka_txn_normalize_err. now destruct (err_in _ _). Qed.

Lemma addparts_done_keeps le rk actions err rc n rk' :
  addparts_done le rk actions err rc n = Some rk' -> (actions <> 0 -> err <> 0) -> eos_keeps rk rk'.
Proof.
  unfold addparts_done. intros H Ha.
  destruct (if negb (err =? 0) then _ else _) as [rk1 |] eqn:E1; [| discriminate H].
  assert (K1 : eos_keeps rk rk1) by keeps.
  transitivity rk1; [exact K1 |]. clear K1 E1.
  destruct (err_in err _); [now injection H as <- |].
  destruct (if err =? 0 then _ else _) as [rk2 a2] eqn:E2.
  assert (H2 : eos_core rk2 = eos_core rk1 /\ (a2 <> 0 -> err <> 0)).
  { destruct (Z.eqb_spec err 0); injection E2 as <- <-; auto. }
  destruct H2 as [C2 Ha2]. clear E2. apply (core_keeps_l _ rk2); [exact C2 |].
  destruct (if negb (rc =? 0) then _ else _) as [rk3 |] eqn:E3; [| discriminate H].
  assert (K3 : eos_keeps rk2 rk3) by keeps. clear E3.
  transitivity rk3; [exact K3 |]. cbv zeta in H.
  destruct (has_action a2 ACTION_FATAL) eqn:Fa; [| keeps].
  assert (He : err <> 0) by (apply Ha2; intros ->; discriminate Fa).
  keeps. now apply normalize_nonzero.
Qed.

Lemma handle_AddPartitionsToTxn_keeps le rk err parts perr n rk' :
  rd_kafka_txn_handle_AddPartitionsToTxn le rk err parts perr n = Some rk' -> eos_keeps rk rk'.
Proof.
  unfold rd_kafka_txn_handle_AddPartitionsToTxn. intros H.
  destruct (negb (err =? 0)); [eapply addparts_done_keeps; [exact H | done] |].
  destruct (rd_assert _); [| discriminate H].
  destruct (bool_decide _); [eapply addparts_done_keeps; [exact H | done] |].
  destruct (addparts_loop _ _ _ _ _ _ _) as [[[[[rk1 a] e] rc] bo] |] eqn:E; [| discriminate H].
  apply addparts_loop_spec in E as [C Ha]; [| done].
  apply (core_keeps_l _ rk1); [exact C |]. eapply addparts_done_keeps; [exact H | exact Ha].
Qed.

(** *** The application's calls *)

Lemma op_init_keeps rk q t rk' :
  rd_kafka_txn_op_init_transactions rk q t = Some rk' -> eos_keeps rk rk'.
Proof.
  unfold rd_kafka_txn_op_init_transactions. intros H. unchain; try (keeps; fail).
  etransitivity; [| eapply idemp_start_keeps; exact H]. keeps.
Qed.

Lemma complete_keeps rk rk' : rd_kafka_txn_complete rk = Some rk' -> eos_keeps rk rk'.
Proof.
  intros H. apply (core_keeps_l _ (rd_kafka_txn_clear_partitions
                                     (rd_kafka_txn_clear_pending_partitions rk))).
  - now rewrite clear_partitions_core, clear_pending_core.
  - revert H. unfold rd_kafka_txn_complete. cbv zeta.
    generalize (rd_kafka_txn_clear_partitions (rd_kafka_txn_clear_pending_partitions rk)).
    intros rk1 H. keeps.
Qed.

Lemma commit_done_keeps rk q e rk' : commit_done rk q e = Some rk' -> eos_keeps rk rk'.
Proof. unfold commit_done. intros H. keeps. Qed.

Lemma op_commit_keeps rk q n rk' :
  rd_kafka_txn_op_commit_transaction rk q n = Some rk' -> eos_keeps rk rk'.
Proof.
  unfold rd_kafka_txn_op_commit_transaction. intros H. unchain;
    try (eapply commit_done_keeps; eassumption); [| keeps].
  etransitivity; [| eapply commit_done_keeps; eassumption]. keeps.
Qed.

Lemma op_ack_keeps rk q st rk' :
  (let error := rd_kafka_txn_require_state rk [st] in
   let* rk := match error with Some _ => Some rk | None => rd_kafka_txn_complete rk end in
   Some (rd_kafka_txn_curr_api_reply_error rk (Some q) error)) = Some rk' -> eos_keeps rk rk'.
Proof.
  cbv zeta. intros H. unchain; keeps. now apply complete_keeps.
Qed.

Lemma endtxn_actions_nonzero err :
  has_action (fst (endtxn_actions err)) ACTION_FATAL = true -> err <> 0.
Proof. intros H ->. discriminate H. Qed.

Lemma endtxn_finish_keeps rk err q mr r n rk' :
  endtxn_finish rk err q mr r n = Some rk' -> eos_keeps rk rk'.
Proof.
  unfold endtxn_finish. intros H. pose proof (endtxn_actions_nonzero err) as He.
  destruct (endtxn_actions err) as [actions reset]. cbn [fst] in He. unchain; keeps;
    apply normalize_nonzero; auto.
Qed.

Lemma handle_EndTxn_keeps rk err c q r n rk' :
  rd_kafka_txn_handle_EndTxn rk err c q r n = Some rk' -> eos_keeps rk rk'.
Proof.
  unfold rd_kafka_txn_handle_EndTxn. intros H.
  destruct (err =? ERR__DESTROY); [now injection H as <- |].
  assert (G : forall rk0 s e mr, match s with
      | true => rd_kafka_txn_set_state rk0 (if c then TXN_COMMIT_NOT_ACKED else TXN_ABORT_NOT_ACKED)
      | false => Some rk0 end = Some e ->
    forall err', endtxn_finish e err' q mr r n = Some rk' -> eos_keeps rk0 rk').
  { intros rk0 s e mr E err' H'. etransitivity; [| eapply endtxn_finish_keeps; exact H'].
    destruct s; [destruct c |]; keeps. }
  destruct (txn_state rk); try (destruct (if _ =? 0 then _ else _) as [rk1 |] eqn:E in H;
    [| discriminate H]; exact (G _ _ _ _ E _ H)).
  keeps.
Qed.

Lemma timeout_cb_keeps rk k q rk' : api_timeout_cb rk k q = Some rk' -> eos_keeps rk rk'.
Proof. destruct k; cbn [api_timeout_cb]; intros H; keeps. Qed.

Lemma timer_fires_keeps rk rk' : curr_api_timer_fires rk = Some rk' -> eos_keeps rk rk'.
Proof.
  unfold curr_api_timer_fires. intros H. unchain; [| reflexivity].
  etransitivity; [| eapply timeout_cb_keeps; exact H]. keeps.
Qed.

(** Every input keeps what it has to. *)
Lemma eos_step_keeps rk i rk' :
  input_ok i -> (D = true -> not_set_fatal i = true) -> eos_step rk i = Some rk' -> eos_keeps rk rk'.
Proof.
  intros Hi Hd. destruct i; cbn [eos_step input_ok not_set_fatal] in *; intros H.
  - eapply op_init_keeps, H.
  - unfold rd_kafka_txn_op_ack_init_transactions in H. keeps.
  - unfold rd_kafka_txn_op_begin_transaction in H. keeps.
  - injection H as <-. apply core_keeps, add_partition_core.
  - injection H as <-. etransitivity; [| apply core_keeps, register_partitions_core]. keeps.
  - eapply handle_AddPartitionsToTxn_keeps, H.
  - unfold rd_kafka_txn_op_begin_commit in H. keeps.
  - eapply op_commit_keeps, H.
  - eapply op_ack_keeps, H.
  - unfold rd_kafka_txn_op_begin_abort in H. keeps.
  - unfold rd_kafka_txn_op_abort_transaction in H. keeps.
  - eapply op_ack_keeps, H.
  - eapply handle_EndTxn_keeps, H.
  - unfold rd_kafka_idemp_pid_timer_cb in H. keeps.
  - unfold rd_kafka_handle_InitProducerId in H. unchain; [| reflexivity |].
    + eapply pid_update_keeps, H.
    + eapply request_pid_failed_keeps; [exact H | nonzero].
  - unfold rd_kafka_txn_coord_timer_cb in H. keeps.
  - eapply handle_FindCoordinator_keeps, H.
  - unfold rd_kafka_txn_coord_monitor_cb in H. keeps.
  - keeps.
  - unfold rd_kafka_idemp_inflight_toppar_sub in H. unchain; [| keeps].
    etransitivity; [| apply drain_done_keeps; exact H]. keeps.
  - unfold rd_kafka_idemp_drain_reset in H. unchain.
    etransitivity; [| apply check_drain_done_keeps; exact H]. keeps.
  - unfold rd_kafka_idemp_drain_epoch_bump in H. unchain;
      (etransitivity; [| apply check_drain_done_keeps; exact H]); keeps.
  - unfold rd_kafka_idemp_set_fatal_error in H. destruct (rk_transactional rk) eqn:T.
    + now apply (txn_set_fatal_error_keeps _ _ _ H).
    + injection H as <-. apply set_fatal_error0_keeps; [done |]. now intros _.
  - injection H as <-. apply set_fatal_error0_keeps; [done |]. intros HD. now specialize (Hd HD).
  - unfold curr_api_req_start in H. keeps.
  - unfold curr_api_req_finish, rd_kafka_txn_curr_api_reset in H. keeps.
  - now apply timer_fires_keeps.
  - keeps.
  - unfold rd_kafka_idemp_term in H. destruct (rk_transactional rk) eqn:T; keeps.
Qed.

Lemma eos_run_keeps is_ : forall rk rk',
  Forall input_ok is_ -> (D = true -> Forall (fun i => not_set_fatal i = true) is_) ->
  eos_run rk is_ = Some rk' -> eos_keeps rk rk'.
Proof.
  induction is_ as [| i is_ IH]; intros rk rk' Hi Hd H; cbn [eos_run] in H; [now injection H as <- |].
  apply list.Forall_cons in Hi as [Hi His].
  destruct (eos_step rk i) as [rk1 |] eqn:E; [| discriminate H].
  transitivity rk1.
  - apply (eos_step_keeps _ i); [done | | done]. intros HD. specialize (Hd HD). now inversion Hd.
  - apply IH; [done | | done]. intros HD. specialize (Hd HD). now inversion Hd.
Qed.

Lemma init_inv b rk : rd_kafka_idemp_init b = Some rk -> eos_inv rk.
Proof. destruct b; intros [= <-]; split; cbn; done. Qed.

End Invariant.

(** ** What holds of every run *)

(** C15. Whatever happens to a producer after [rd_kafka_idemp_init], as long as no
    assertion fails and fatal errors are raised with an error code that is not 0: a state ASSIGNED has a valid producer id, so the id handed to the
    requests ([rd_kafka_idemp_get_pid0]) is valid exactly then; a transactional
    producer accepts messages ([rd_kafka_txn_may_enq_msg]) exactly in the state
    IN_TRANSACTION; and both the transaction state FATAL_ERROR and the idempotent state
    FATAL_ERROR imply that a fatal error was raised.  The converse holds of a
    transactional producer unless a fatal error was raised by [rd_kafka_set_fatal_error]
    itself, which does not change the transaction state. *)
Theorem eos_invariants (transactional : bool) (rk0 rk : rd_kafka) (is_ : list input)
  (Hinit : rd_kafka_idemp_init transactional = Some rk0)
  (Hok : Forall input_ok is_) (Hrun : eos_run rk0 is_ = Some rk) :
  (rd_kafka_pid_valid (rd_kafka_idemp_get_pid0 rk) = true <-> idemp_state rk = IDEMP_ASSIGNED) /\
  rk_transactional rk = transactional /\
  (transactional = true ->
   (rd_kafka_txn_may_enq_msg rk = true <-> txn_state rk = TXN_IN_TRANSACTION) /\
   (forallb not_set_fatal is_ = true -> rk_fatal_err rk <> 0 -> txn_state rk = TXN_FATAL_ERROR)) /\
  (txn_state rk = TXN_FATAL_ERROR -> rk_fatal_err rk <> 0) /\
  (idemp_state rk = IDEMP_FATAL_ERROR -> rk_fatal_err rk <> 0).
Proof.
  destruct (eos_run_keeps (forallb not_set_fatal is_) _ _ _ Hok
    ltac:(intros H; now apply Forall_forall, forallb_forall) Hrun) as [K T _ _ _].
  destruct (K (init_inv _ _ _ Hinit)) as [P Q F X Y].
  assert (T0 : rk_transactional rk0 = transactional).
  { destruct transactional; injection Hinit as <-; reflexivity. }
  rewrite T0 in T. split_and!; [| done | | done | done].
  - unfold rd_kafka_idemp_get_pid0. destruct (bool_decide_reflect (idemp_state rk = IDEMP_ASSIGNED)).
    + rewrite P by done. done.
    + split; [discriminate | contradiction].
  - intros ->. unfold rd_kafka_txn_may_enq_msg. rewrite T, Q. cbn [negb orb].
    split; [destruct (decide _); split; try done |]. intros HD. now apply Y.
Qed.

(** A transactional producer that was just made, and what becomes of it. *)
Definition eos_init : rd_kafka :=
  mk_rk true 0 0 IDEMP_INIT rd_kafka_pid_reset 0 0 false 0 TXN_INIT None false
    false false (mk_api "" 0 None) None 0 false [] [] [] ∅ 0 0 0 [].
Definition run_or_init (is_ : list input) : rd_kafka := default eos_init (eos_run eos_init is_).

Lemma eos_invariants_witness :
  let rk := run_or_init [IInitTransactions 1 false; IFatal 7] in
  rk_fatal_err rk <> 0 /\ txn_state rk = TXN_FATAL_ERROR.
Proof.
  intros rk. assert (H : eos_run eos_init [IInitTransactions 1 false; IFatal 7] = Some rk)
    by (vm_compute; reflexivity).
  assert (Hok : Forall input_ok [IInitTransactions 1 false; IFatal 7])
    by (repeat constructor; discriminate).
  assert (Hi : rd_kafka_idemp_init true = Some eos_init) by reflexivity.
  assert (F : rk_fatal_err rk <> 0) by (vm_compute; discriminate).
  destruct (eos_invariants true eos_init rk _ Hi Hok H) as (_ & _ & T & _).
  split; [exact F |]. now apply T.
Defined.

(** A fatal error that passes the transaction state by: the application goes on to
    produce in its transaction. *)
Example fatal_in_transaction :
  (fun rk => (txn_state rk, rk_fatal_err rk, rd_kafka_txn_may_enq_msg rk)) <$>
    eos_run (set_txn_may_enq (set_txn_state eos_init TXN_IN_TRANSACTION) 1) [ISetFatal 7] =
  Some (TXN_IN_TRANSACTION, 7, true).
Proof. reflexivity. Qed.

(** C26. A fatal error is final: after one was raised it stays the error reported, a
    producer whose id is not in use never gets one again (so that no message is sent
    any more), and the transaction state FATAL_ERROR is never left. *)
Theorem fatal_is_final (rk rk' : rd_kafka) (is_ : list input)
  (Hfatal : rk_fatal_err rk <> 0)
  (Hok : Forall input_ok is_) (Hrun : eos_run rk is_ = Some rk') :
  rk_fatal_err rk' = rk_fatal_err rk /\
  (idemp_state rk <> IDEMP_ASSIGNED ->
   rd_kafka_pid_valid (rd_kafka_idemp_get_pid0 rk') = false) /\
  (txn_state rk = TXN_FATAL_ERROR -> txn_state rk' = TXN_FATAL_ERROR).
Proof.
  destruct (eos_run_keeps false _ _ _ Hok ltac:(discriminate) Hrun) as [_ _ F I T]. split_and!; [auto | | exact T].
  intros H. unfold rd_kafka_idemp_get_pid0. now rewrite bool_decide_false by auto.
Qed.

Lemma fatal_is_final_witness :
  let rk := run_or_init [IInitTransactions 1 false; IFatal 7] in
  let rk' := default rk (eos_run rk [IPidTimer (mk_net true 1 true 0 0 0); IBegin 2; IAbort 3 (mk_net true 1 true 0 0 0)]) in
  rd_kafka_pid_valid (rd_kafka_idemp_get_pid0 rk') = false /\ txn_state rk' = TXN_FATAL_ERROR.
Proof.
  intros rk rk'.
  assert (F : rk_fatal_err rk <> 0) by (vm_compute; discriminate).
  assert (H : eos_run rk [IPidTimer (mk_net true 1 true 0 0 0); IBegin 2;
                          IAbort 3 (mk_net true 1 true 0 0 0)] = Some rk')
    by (vm_compute; reflexivity).
  assert (Hok : Forall input_ok [IPidTimer (mk_net true 1 true 0 0 0); IBegin 2;
                                 IAbort 3 (mk_net true 1 true 0 0 0)]) by (repeat constructor).
  destruct (fatal_is_final rk rk' _ F Hok H) as (_ & P & T).
  split; [apply P | apply T]; vm_compute; [discriminate | reflexivity].
Defined.
