(* ===== verification/TxnProps.v ===== *)
(** * What transactions do

    The course of a transaction that is committed, of one that is aborted because the
    producer id's epoch has to be bumped, of the drain before a bump, and the orders
    of events in which an assertion of the code fails. *)

From stdpp Require Import gmap strings sorting.
From S2P Require Import Prelude Producer EosState Eos Txn EosProps.

(** ** Draining *)

Definition int32_max : Z := 2 ^ 31 - 1.

(** What the drain of a producer without transactions leaves at each point: with
    requests in flight the id is withheld, then its epoch is bumped. *)
Definition drain_bump_spec (rk rk' : rd_kafka) (subs : Z) : Prop :=
  rk_fatal_err rk' = 0 /\
  if subs <? inflight_toppar_cnt rk then
    idemp_state rk' = IDEMP_DRAIN_BUMP /\ eos_pid rk' = eos_pid rk /\
    inflight_toppar_cnt rk' = inflight_toppar_cnt rk - subs /\
    rk_out rk' = rk_out rk /\
    rd_kafka_idemp_get_pid0 rk' = rd_kafka_pid_reset
  else
    idemp_state rk' = IDEMP_ASSIGNED /\ inflight_toppar_cnt rk' = 0 /\
    rd_kafka_idemp_get_pid0 rk' = rd_kafka_pid_bump (eos_pid rk) /\
    rk_out rk' = rk_out rk ++ [EvWakeup].

Lemma idemp_set_state_plain rk s :
  rk_transactional rk = false -> rk_fatal_err rk = 0 ->
  rd_kafka_idemp_set_state rk s = Some (if bool_decide (idemp_state rk = s) then rk
                                        else set_idemp_state rk s).
Proof.
  intros T F. unfold rd_kafka_idemp_set_state, rd_kafka_fatal_error_code, idemp_enter_state.
  rewrite F. cbn. rewrite T. now case_bool_decide.
Qed.

(** The last request in flight ends the drain. *)
Lemma drain_done_bump rk :
  rk_transactional rk = false -> rk_fatal_err rk = 0 -> idemp_state rk = IDEMP_DRAIN_BUMP ->
  rd_kafka_pid_valid (eos_pid rk) = true ->
  rd_kafka_idemp_drain_done rk =
    Some (emit (set_idemp_state (set_eos_pid rk (rd_kafka_pid_bump (eos_pid rk))) IDEMP_ASSIGNED)
            EvWakeup).
Proof.
  intros T F S V. unfold rd_kafka_idemp_drain_done. rewrite S, V, T. cbn [bool_decide].
  rewrite bool_decide_false, bool_decide_true by done. cbn [andb].
  rewrite idemp_set_state_plain by done. cbn. now rewrite S.
Qed.

Lemma inflight_subs subs : forall rk,
  rk_transactional rk = false -> rk_fatal_err rk = 0 -> idemp_state rk = IDEMP_DRAIN_BUMP ->
  rd_kafka_pid_valid (eos_pid rk) = true ->
  Z.of_nat subs <= inflight_toppar_cnt rk <= int32_max -> 0 < inflight_toppar_cnt rk ->
  exists rk', eos_run rk (replicate subs IInflightSub) = Some rk' /\
    drain_bump_spec rk rk' (Z.of_nat subs).
Proof.
  unfold int32_max. induction subs as [| subs IH]; intros rk T F S V B P.
  - exists rk. split; [done |]. split; [done |].
    ztest.
    split_and!; try done; [lia |]. unfold rd_kafka_idemp_get_pid0. now rewrite S.
  - cbn [replicate eos_run eos_step]. unfold rd_kafka_idemp_inflight_toppar_sub.
    rewrite (swrap_small 32 (inflight_toppar_cnt rk - 1)) by (unfold in_i; lia).
    destruct (Z.eqb_spec (inflight_toppar_cnt rk - 1) 0) as [E | E].
    + assert (subs = 0%nat) as -> by lia. rewrite drain_done_bump by done.
      eexists. split; [reflexivity |]. split; [done |].
      ztest.
      split_and!; try reflexivity. exact E.
    + ztest. cbn [rd_assert].
      destruct (IH (set_inflight_toppar_cnt rk (inflight_toppar_cnt rk - 1)))
        as (rk' & R & F' & D); cbn; try done; try lia.
      exists rk'. split; [exact R |]. split; [exact F' |]. cbn in D.
      destruct (Z.ltb_spec (Z.of_nat subs) (inflight_toppar_cnt rk - 1)); ztest; [| exact D]. destruct D as (D1 & D2 & D3 & D4 & D5).
      split_and!; try done; lia.
Qed.

(** C31. An idempotent producer that has to bump its epoch drains first: with [k]
    partitions in flight, until the [k]th of them is done the producer id is withheld
    from new requests and unchanged; the [k]th takes it back into use with the next
    epoch and wakes the brokers up.  With nothing in flight that happens at once. *)
Theorem drain_epoch_bump_drains (rk : rd_kafka) (err : Z) (subs : nat)
  (Hplain : rk_transactional rk = false) (Hfatal : rk_fatal_err rk = 0)
  (Hassigned : idemp_state rk = IDEMP_ASSIGNED) (Hpid : rd_kafka_pid_valid (eos_pid rk) = true)
  (Hcnt : 0 <= inflight_toppar_cnt rk <= int32_max)
  (Hsubs : Z.of_nat subs <= inflight_toppar_cnt rk) :
  exists rk', eos_run rk (IDrainEpochBump err :: replicate subs IInflightSub) = Some rk' /\
    drain_bump_spec rk rk' (Z.of_nat subs).
Proof.
  cbn [eos_run eos_step]. unfold rd_kafka_idemp_drain_epoch_bump.
  rewrite idemp_set_state_plain by done. rewrite Hassigned.
  change (bool_decide (IDEMP_ASSIGNED = IDEMP_DRAIN_BUMP)) with false. cbn -[replicate eos_run].
  rewrite Hplain. unfold rd_kafka_idemp_check_drain_done. cbn [inflight_toppar_cnt set_idemp_state].
  destruct (Z.eqb_spec (inflight_toppar_cnt rk) 0) as [E | E].
  - assert (subs = 0%nat) as -> by lia. rewrite drain_done_bump by done.
    eexists. split; [reflexivity |]. split; [done |]. rewrite E.
    change (Z.of_nat 0 <? 0) with false. cbn iota. split_and!; try reflexivity. exact E.
  - destruct (inflight_subs subs (set_idemp_state rk IDEMP_DRAIN_BUMP)) as (rk' & R & D);
      try done; [cbn; lia.. |].
    exists rk'. split; [exact R | exact D].
Qed.

Lemma drain_epoch_bump_drains_witness :
  let rk := set_inflight_toppar_cnt (set_eos_pid (set_idemp_state (default eos_init
    (rd_kafka_idemp_init false)) IDEMP_ASSIGNED) (mk_pid 7 32767)) 2 in
  exists rk', eos_run rk (IDrainEpochBump 45 :: replicate 2 IInflightSub) = Some rk' /\
    drain_bump_spec rk rk' 2.
Proof.
  intros rk. apply (drain_epoch_bump_drains rk 45 2); try (vm_compute; reflexivity);
    vm_compute; (split; discriminate) || discriminate.
Defined.

(** ** The flags of a partition *)

Lemma land_ldiff_comm f a b : Z.land (Z.ldiff f a) b = Z.ldiff (Z.land f b) a.
Proof. apply Z.bits_inj. intros i. rewrite Z.land_spec, !Z.ldiff_spec, Z.land_spec. btauto. Qed.

Lemma flags_pend f : Z.land f TXN_FLAGS = 0 ->
  Z.land (Z.lor f RD_KAFKA_TOPPAR_F_PEND_TXN) TXN_FLAGS = RD_KAFKA_TOPPAR_F_PEND_TXN.
Proof. intros E. now rewrite Z.land_lor_distr_l, E. Qed.

Lemma flags_registered f : Z.land f TXN_FLAGS = RD_KAFKA_TOPPAR_F_PEND_TXN ->
  Z.land (Z.lor (Z.ldiff f RD_KAFKA_TOPPAR_F_PEND_TXN) RD_KAFKA_TOPPAR_F_IN_TXN) TXN_FLAGS
    = RD_KAFKA_TOPPAR_F_IN_TXN.
Proof. intros E. now rewrite Z.land_lor_distr_l, land_ldiff_comm, E. Qed.

Lemma flags_cleared f : Z.land f TXN_FLAGS = RD_KAFKA_TOPPAR_F_IN_TXN ->
  Z.land (Z.ldiff f RD_KAFKA_TOPPAR_F_IN_TXN) TXN_FLAGS = 0.
Proof. intros E. now rewrite land_ldiff_comm, E. Qed.

Lemma clear_flag_lookup f ps p : forall m,
  NoDup ps ->
  default 0 (clear_flag f m ps !! p) =
    if decide (p ∈ ps) then Z.ldiff (default 0 (m !! p)) f else default 0 (m !! p).
Proof.
  induction ps as [| x ps IH]; intros m Hnd.
  { now rewrite decide_False by apply not_elem_of_nil. }
  apply list.NoDup_cons in Hnd as [Hx Hnd].
  change (clear_flag f m (x :: ps)) with (clear_flag f (<[x := Z.ldiff (default 0 (m !! x)) f]> m) ps).
  rewrite IH by done.
  destruct (decide (p = x)) as [-> | Hne].
  - rewrite decide_False, decide_True by (done || now left). now rewrite lookup_insert_eq.
  - rewrite lookup_insert_ne by done. destruct (decide (p ∈ ps)).
    + now rewrite decide_True by (now right).
    + rewrite decide_False; [done |]. intros [? | ?]%elem_of_cons; contradiction.
Qed.

Lemma insert_rktp_perm le p l : insert_rktp le p l ≡ₚ p :: l.
Proof.
  induction l as [| x l IH]; cbn; [done |]. destruct (negb _); [done |].
  rewrite IH. apply Permutation_swap.
Qed.

(** ** The partitions of a transaction, one phase at a time *)

Definition set_parts (rk : rd_kafka) (flags : gmap nat Z) (pending : list nat) (tmr : bool) :=
  set_txn_register_parts_tmr (set_txn_pending_rktps (set_rktp_flags rk flags) pending) tmr.

Lemma add_partitions_run ps : forall rk,
  NoDup ps -> (forall p, p ∈ ps -> Z.land (toppar_flags rk p) TXN_FLAGS = 0) ->
  exists flags pending tmr,
    eos_run rk (map IAddPartition ps) = Some (set_parts rk flags pending tmr) /\
    pending ≡ₚ ps ++ txn_pending_rktps rk /\
    forall p, default 0 (flags !! p) =
      if decide (p ∈ ps) then Z.lor (toppar_flags rk p) RD_KAFKA_TOPPAR_F_PEND_TXN
      else toppar_flags rk p.
Proof.
  induction ps as [| x ps IH]; intros rk Hnd Hf.
  - exists (rktp_flags rk), (txn_pending_rktps rk), (txn_register_parts_tmr rk).
    split_and!; [now destruct rk | done | intros p; now rewrite decide_False by apply not_elem_of_nil].
  - apply list.NoDup_cons in Hnd as [Hx Hnd]. cbn [map eos_run eos_step].
    assert (E : exists b, rd_kafka_txn_add_partition Nat.leb rk x =
      set_parts rk (<[x := Z.lor (toppar_flags rk x) RD_KAFKA_TOPPAR_F_PEND_TXN]> (rktp_flags rk))
        (insert_rktp Nat.leb x (txn_pending_rktps rk)) b).
    { unfold rd_kafka_txn_add_partition. rewrite (Hf x) by now left. cbn [Z.eqb negb].
      unfold set_toppar_flags. cbn [txn_pending_rktps set_rktp_flags].
      destruct (txn_pending_rktps rk); [exists true | exists (txn_register_parts_tmr rk)];
        reflexivity. }
    destruct E as [b ->]. set (rk1 := set_parts _ _ _ _).
    assert (Hl : forall p, toppar_flags rk1 p = if decide (p = x)
      then Z.lor (toppar_flags rk x) RD_KAFKA_TOPPAR_F_PEND_TXN else toppar_flags rk p).
    { intros p. unfold toppar_flags at 1. cbn. destruct (decide (p = x)) as [-> | Hne];
        [now rewrite lookup_insert_eq | now rewrite lookup_insert_ne]. }
    destruct (IH rk1 Hnd) as (flags & pending & tmr & R & P & F).
    { intros p Hp. rewrite Hl, decide_False by (intros ->; contradiction). apply Hf. now right. }
    exists flags, pending, tmr. split_and!; [exact R | |].
    + rewrite P. cbn. rewrite insert_rktp_perm. now rewrite Permutation_middle.
    + intros p. rewrite F, !Hl. destruct (decide (p = x)) as [-> | Hne].
      * now rewrite decide_False, decide_True by (done || now left).
      * destruct (decide (p ∈ ps)); [now rewrite decide_True by now right |].
        rewrite decide_False; [done |]. intros [? | ?]%elem_of_cons; contradiction.
Qed.

Lemma concat_sorted_nil le dst : rktps_concat_sorted le dst [] = dst.
Proof. now destruct dst. Qed.

(** The network answers. *)
Record net_good (n : net) : Prop := {
  ng_up : net_is_up n = true;
  ng_req : net_request_err n = 0 }.

Definition may_register (rk : rd_kafka) : Prop :=
  (txn_state rk = TXN_IN_TRANSACTION \/ txn_state rk = TXN_BEGIN_COMMIT) /\
  idemp_state rk = IDEMP_ASSIGNED /\ rd_kafka_pid_valid (eos_pid rk) = true.

Lemma register_sends rk n :
  may_register rk -> net_good n -> txn_pending_rktps rk <> [] -> txn_waitresp_rktps rk = [] ->
  rd_kafka_txn_register_partitions rk n =
    set_txn_req_cnt (set_txn_pending_rktps (set_txn_waitresp_rktps
      (emit rk (EvAddPartitions (eos_pid rk) (txn_pending_rktps rk)))
      (txn_pending_rktps rk)) []) (txn_req_cnt rk + 1).
Proof.
  intros (S & A & V) [U R] P W.
  unfold rd_kafka_txn_register_partitions, rd_kafka_txn_require_state, rd_kafka_idemp_get_pid0.
  rewrite bool_decide_true by (destruct S as [-> | ->]; set_solver).
  rewrite A, U, W, R, bool_decide_false by done. cbn [negb bool_decide decide].
  rewrite !bool_decide_true, V by done. cbn [negb Z.eqb].
  change (txn_waitresp_rktps (emit rk ?e)) with (txn_waitresp_rktps rk). now rewrite W.
Qed.

(** The partitions of the response that were accepted. *)
Lemma registered_one rk p :
  Z.land (toppar_flags rk p) TXN_FLAGS = RD_KAFKA_TOPPAR_F_PEND_TXN ->
  rd_kafka_txn_partition_registered rk p =
    Some (set_txn_rktps (set_txn_waitresp_rktps (set_toppar_flags rk p
      (Z.lor (Z.ldiff (toppar_flags rk p) RD_KAFKA_TOPPAR_F_PEND_TXN) RD_KAFKA_TOPPAR_F_IN_TXN))
      (filter (fun x => x <> p) (txn_waitresp_rktps rk))) (txn_rktps rk ++ [p])).
Proof.
  intros E. unfold rd_kafka_txn_partition_registered.
  assert (Z.land (toppar_flags rk p) RD_KAFKA_TOPPAR_F_PEND_TXN = RD_KAFKA_TOPPAR_F_PEND_TXN) as ->.
  { change RD_KAFKA_TOPPAR_F_PEND_TXN with (Z.land TXN_FLAGS RD_KAFKA_TOPPAR_F_PEND_TXN) at 1.
    rewrite Z.land_assoc, E. reflexivity. }
  rewrite E. reflexivity.
Qed.

Lemma addparts_loop_ok ps bo : forall rk,
  NoDup ps ->
  (forall p, p ∈ ps -> Z.land (toppar_flags rk p) TXN_FLAGS = RD_KAFKA_TOPPAR_F_PEND_TXN) ->
  (forall p, p ∈ txn_waitresp_rktps rk -> p ∈ ps) ->
  exists flags,
    addparts_loop rk (map (fun p => (Some p, 0)) ps) 0 0 0 0 bo =
      Some (emit (set_txn_rktps (set_txn_waitresp_rktps (set_rktp_flags rk flags) [])
              (txn_rktps rk ++ ps)) EvWakeup, 0, 0, 0, bo) /\
    forall p, Z.land (default 0 (flags !! p)) TXN_FLAGS =
      if decide (p ∈ ps) then RD_KAFKA_TOPPAR_F_IN_TXN else Z.land (toppar_flags rk p) TXN_FLAGS.
Proof.
  induction ps as [| x ps IH]; intros rk Hnd Hf Hw.
  - exists (rktp_flags rk). split; [| intros p; now rewrite decide_False by apply not_elem_of_nil].
    cbn. replace (set_txn_rktps _ _) with rk; [done |].
    assert (txn_waitresp_rktps rk = []) as W.
    { destruct (txn_waitresp_rktps rk) as [| y l]; [done |].
      exfalso. apply (not_elem_of_nil y), Hw. now left. }
    destruct rk; cbn in *. subst. now rewrite app_nil_r.
  - apply list.NoDup_cons in Hnd as [Hx Hnd]. cbn [map addparts_loop Z.eqb].
    rewrite registered_one by (apply Hf; now left). set (rk1 := set_txn_rktps _ _).
    assert (Hl : forall p, p <> x -> toppar_flags rk1 p = toppar_flags rk p).
    { intros p Hp. unfold toppar_flags at 1. cbn. now rewrite lookup_insert_ne. }
    assert (Hlx : Z.land (toppar_flags rk1 x) TXN_FLAGS = RD_KAFKA_TOPPAR_F_IN_TXN).
    { unfold toppar_flags at 1. cbn. rewrite lookup_insert_eq. cbn.
      apply flags_registered, Hf. now left. }
    cbn [addparts_error Z.eqb Z.lor].
    destruct (IH rk1 Hnd) as (flags & R & F).
    + intros p Hp. rewrite Hl by (intros ->; contradiction). apply Hf. now right.
    + intros p. cbn. rewrite list_elem_of_filter. intros [Hne Hp].
      now apply Hw, elem_of_cons in Hp as [? | ?].
    + exists flags. split; [change (Z.lor 0 0) with 0; rewrite R; cbn; now rewrite <- app_assoc |].
      intros p. rewrite F. destruct (decide (p = x)) as [-> | Hne].
      * now rewrite decide_False, decide_True by (done || now left).
      * rewrite Hl by done. destruct (decide (p ∈ ps)); [now rewrite decide_True by now right |].
        rewrite decide_False; [done |]. intros [? | ?]%elem_of_cons; contradiction.
Qed.

Lemma handle_AddPartitions_ok rk ps n :
  txn_state rk = TXN_IN_TRANSACTION \/ txn_state rk = TXN_BEGIN_COMMIT ->
  NoDup ps ->
  (forall p, p ∈ ps -> Z.land (toppar_flags rk p) TXN_FLAGS = RD_KAFKA_TOPPAR_F_PEND_TXN) ->
  (forall p, p ∈ txn_waitresp_rktps rk -> p ∈ ps) ->
  exists flags,
    rd_kafka_txn_handle_AddPartitionsToTxn Nat.leb rk 0 (map (fun p => (Some p, 0)) ps) 0 n =
      Some (set_txn_register_parts_tmr (emit (set_txn_rktps (set_txn_waitresp_rktps
        (set_rktp_flags rk flags) []) (txn_rktps rk ++ ps)) EvWakeup) true) /\
    forall p, Z.land (default 0 (flags !! p)) TXN_FLAGS =
      if decide (p ∈ ps) then RD_KAFKA_TOPPAR_F_IN_TXN else Z.land (toppar_flags rk p) TXN_FLAGS.
Proof.
  intros S Hnd Hf Hw. destruct (addparts_loop_ok ps 500 rk Hnd Hf Hw) as (flags & R & F).
  exists flags. split; [| exact F]. unfold rd_kafka_txn_handle_AddPartitionsToTxn.
  cbn [Z.eqb negb]. rewrite bool_decide_false by (destruct S; congruence). cbn [negb rd_assert].
  rewrite bool_decide_false by (destruct S as [-> | ->]; set_solver).
  rewrite R. unfold addparts_done. cbn [negb Z.eqb err_in existsb orb].
  cbn -[rktps_concat_sorted]. now rewrite concat_sorted_nil.
Qed.

(** ** A transaction that is committed *)

(** A producer between two transactions. *)
Record txn_clean (rk : rd_kafka) : Prop := {
  tc_transactional : rk_transactional rk = true;
  tc_state : txn_state rk = TXN_READY;
  tc_assigned : idemp_state rk = IDEMP_ASSIGNED;
  tc_pid : rd_kafka_pid_valid (eos_pid rk) = true;
  tc_pending : txn_pending_rktps rk = [];
  tc_waitresp : txn_waitresp_rktps rk = [];
  tc_rktps : txn_rktps rk = [];
  tc_req : txn_req_cnt rk = 0;
  tc_flags : forall p, Z.land (toppar_flags rk p) TXN_FLAGS = 0 }.

(** A transaction on the partitions [ps] up to the coordinator's answer for all of
    them, in the order it answers, and from the commit on. *)
Definition produce_part (q : nat) (ps answered : list nat) (n : net) : list input :=
  IBegin q :: map IAddPartition ps ++
  [IRegister n; IAddPartitionsResponse 0 (map (fun p => (Some p, 0)) answered) 0 n].
Definition commit_part (q : nat) (n : net) : list input :=
  [IBeginCommit q; ICommit q n; IEndTxnResponse 0 true q false n; ICommitAck q].

Lemma eos_run_app a b rk :
  eos_run rk (a ++ b) = let* rk := eos_run rk a in eos_run rk b.
Proof.
  revert rk. induction a as [| i a IH]; intros rk; [done |]. cbn [app eos_run].
  destruct (eos_step rk i); [apply IH | done].
Qed.

(** Decides the closed propositions of the goal. *)
Ltac bd :=
  repeat match goal with
  | |- context [bool_decide ?P] =>
      let v := eval vm_compute in (bool_decide P) in
      match v with
      | true => change (bool_decide P) with true
      | false => change (bool_decide P) with false
      end; cbn
  end.

Lemma begin_run rk q :
  txn_clean rk ->
  eos_step rk (IBegin q) =
    Some (emit (emit (set_txn_err (set_txn_dr_fails (set_txn_state (set_txn_may_enq rk 1)
      TXN_IN_TRANSACTION) 0) 0) EvWakeup) (EvReply q None)).
Proof.
  intros [T S A V P W R Q F]. cbn [eos_step].
  unfold rd_kafka_txn_op_begin_transaction, rd_kafka_txn_require_state, rd_kafka_txn_set_state.
  rewrite S, R. bd. rewrite Q. reflexivity.
Qed.

(** The state once the partitions are registered. *)
Record in_txn (rk0 rk : rd_kafka) (ps : list nat) : Prop := {
  it_transactional : rk_transactional rk = rk_transactional rk0;
  it_assigned : idemp_state rk = idemp_state rk0;
  it_pid : eos_pid rk = eos_pid rk0;
  it_state : txn_state rk = TXN_IN_TRANSACTION;
  it_pending : txn_pending_rktps rk = [];
  it_waitresp : txn_waitresp_rktps rk = [];
  it_rktps : txn_rktps rk = ps;
  it_req : txn_req_cnt rk = 1;
  it_dr : txn_dr_fails rk = 0;
  it_flags : forall p, Z.land (toppar_flags rk p) TXN_FLAGS =
    if decide (p ∈ ps) then RD_KAFKA_TOPPAR_F_IN_TXN else 0 }.

Lemma produce_part_run rk q ps answered n :
  txn_clean rk -> net_good n -> NoDup ps -> ps <> [] -> answered ≡ₚ ps ->
  exists rk1 sent,
    eos_run rk (produce_part q ps answered n) = Some rk1 /\ in_txn rk rk1 answered /\
    sent ≡ₚ ps /\
    rk_out rk1 = rk_out rk ++ [EvWakeup; EvReply q None; EvAddPartitions (eos_pid rk) sent;
                               EvWakeup].
Proof.
  intros C N Hnd Hne Ha. unfold produce_part. cbn [eos_run]. rewrite begin_run by done.
  set (rk1 := emit _ _). destruct C as [T S A V P W R Q F].
  destruct (add_partitions_run ps rk1 Hnd) as (flags & pending & tmr & E & Pp & Fl).
  { intros p _. apply F. }
  rewrite eos_run_app, E. set (rk2 := set_parts _ _ _ _). cbn [eos_run eos_step].
  assert (Hp : pending ≡ₚ ps) by (rewrite Pp; cbn; now rewrite P, app_nil_r).
  assert (Hpne : pending <> []).
  { intros ->. exact (Hne (Permutation_nil Hp)). }
  rewrite register_sends; [| split; [now left | done] | done | exact Hpne | exact W].
  set (rk3 := set_txn_req_cnt _ _).
  destruct (handle_AddPartitions_ok rk3 answered n) as (flags' & E' & Fl').
  - now left.
  - now rewrite Ha.
  - intros p Hin. unfold toppar_flags. cbn. rewrite Fl, decide_True by now rewrite <- Ha.
    apply flags_pend, F.
  - intros p. cbn. now rewrite Hp, Ha.
  - rewrite E'. eexists _, pending. split; [reflexivity |]. split_and!; [| exact Hp |].
    + split; cbn; try reflexivity; [now rewrite R | now rewrite Q |].
      intros p. change (toppar_flags _ p) with (default 0 (flags' !! p)). rewrite Fl'.
      destruct (decide (p ∈ answered)) as [| Hn]; [done |].
      change (toppar_flags rk3 p) with (default 0 (flags !! p)).
      rewrite Fl, decide_False by now rewrite <- Ha. apply F.
    + cbn. now rewrite <- !app_assoc.
Qed.

Lemma complete_run rk :
  txn_state rk = TXN_COMMIT_NOT_ACKED \/ txn_state rk = TXN_ABORT_NOT_ACKED ->
  txn_pending_rktps rk = [] -> txn_waitresp_rktps rk = [] ->
  rd_kafka_txn_complete rk =
    Some (set_txn_state (set_txn_req_cnt (set_txn_requires_epoch_bump
      (set_txn_rktps (set_rktp_flags rk
         (clear_flag RD_KAFKA_TOPPAR_F_IN_TXN (rktp_flags rk) (txn_rktps rk))) []) false) 0)
      TXN_READY).
Proof.
  intros S P W. unfold rd_kafka_txn_complete.
  assert (rd_kafka_txn_clear_pending_partitions rk = rk) as ->.
  { unfold rd_kafka_txn_clear_pending_partitions. rewrite P. destruct rk; cbn in *. now subst. }
  unfold rd_kafka_txn_set_state. cbn [txn_state set_txn_req_cnt set_txn_requires_epoch_bump
    rd_kafka_txn_clear_partitions set_txn_rktps set_rktp_flags].
  destruct S as [-> | ->]; bd; reflexivity.
Qed.

#[local] Arguments rd_kafka_txn_handle_EndTxn : simpl never.
#[local] Arguments rd_kafka_txn_complete : simpl never.

Lemma endtxn_ok rk q r n (c : bool) :
  txn_state rk = (if c then TXN_COMMITTING_TRANSACTION else TXN_ABORTING_TRANSACTION) ->
  rd_kafka_txn_handle_EndTxn rk 0 c q r n =
    Some (emit (set_txn_state rk (if c then TXN_COMMIT_NOT_ACKED else TXN_ABORT_NOT_ACKED))
            (EvReply q None)).
Proof.
  intros S. unfold rd_kafka_txn_handle_EndTxn, rd_kafka_txn_set_state. rewrite S.
  destruct c; bd; reflexivity.
Qed.

(** What the steps of the end of a transaction leave alone. *)
Definition frame (rk : rd_kafka) :=
  (rk_transactional rk, idemp_state rk, eos_pid rk, txn_pending_rktps rk, txn_waitresp_rktps rk,
   (txn_rktps rk, rktp_flags rk, txn_req_cnt rk, txn_dr_fails rk)).

Lemma in_txn_inflight rk0 rk ps k :
  in_txn rk0 rk ps -> in_txn rk0 (set_inflight_toppar_cnt rk k) ps.
Proof. intros []. now split. Qed.

Lemma begin_commit_step rk q :
  txn_state rk = TXN_IN_TRANSACTION ->
  exists rk', eos_step rk (IBeginCommit q) = Some rk' /\ txn_state rk' = TXN_BEGIN_COMMIT /\
    frame rk' = frame rk /\ rk_out rk' = rk_out rk ++ [EvReply q None].
Proof.
  intros S. cbn [eos_step].
  unfold rd_kafka_txn_op_begin_commit, rd_kafka_txn_require_state, rd_kafka_txn_set_state.
  rewrite S. bd. eexists. split_and!; reflexivity.
Qed.

Lemma commit_step rk q n :
  txn_state rk = TXN_BEGIN_COMMIT -> idemp_state rk = IDEMP_ASSIGNED ->
  rd_kafka_pid_valid (eos_pid rk) = true -> txn_dr_fails rk = 0 -> txn_req_cnt rk = 1 ->
  net_good n ->
  exists rk', eos_step rk (ICommit q n) = Some rk' /\ txn_state rk' = TXN_COMMITTING_TRANSACTION /\
    frame rk' = frame rk /\ rk_out rk' = rk_out rk ++ [EvEndTxn (eos_pid rk) true q].
Proof.
  intros S A V D R [_ N]. cbn [eos_step].
  unfold rd_kafka_txn_op_commit_transaction, rd_kafka_txn_require_state, rd_kafka_idemp_get_pid0.
  rewrite S, D, R, A. bd. rewrite V, N. cbn. unfold rd_kafka_txn_set_state. cbn. rewrite S. bd.
  eexists. split_and!; reflexivity.
Qed.

Lemma endtxn_step rk q r n (c : bool) :
  txn_state rk = (if c then TXN_COMMITTING_TRANSACTION else TXN_ABORTING_TRANSACTION) ->
  exists rk', eos_step rk (IEndTxnResponse 0 c q r n) = Some rk' /\
    txn_state rk' = (if c then TXN_COMMIT_NOT_ACKED else TXN_ABORT_NOT_ACKED) /\
    frame rk' = frame rk /\ rk_out rk' = rk_out rk ++ [EvReply q None].
Proof. intros S. cbn [eos_step]. rewrite endtxn_ok by done. eexists. split_and!; reflexivity. Qed.

(** The application's acknowledgement, after either end. *)
Lemma ack_step rk q (c : bool) :
  txn_state rk = (if c then TXN_COMMIT_NOT_ACKED else TXN_ABORT_NOT_ACKED) ->
  rk_transactional rk = true -> idemp_state rk = IDEMP_ASSIGNED ->
  rd_kafka_pid_valid (eos_pid rk) = true ->
  txn_pending_rktps rk = [] -> txn_waitresp_rktps rk = [] -> NoDup (txn_rktps rk) ->
  (forall p, Z.land (toppar_flags rk p) TXN_FLAGS =
     if decide (p ∈ txn_rktps rk) then RD_KAFKA_TOPPAR_F_IN_TXN else 0) ->
  exists rk', eos_step rk (if c then ICommitAck q else IAbortAck q) = Some rk' /\
    txn_clean rk' /\ eos_pid rk' = eos_pid rk /\ rk_out rk' = rk_out rk ++ [EvReply q None].
Proof.
  intros S T A V P W Hnd F.
  assert (E : eos_step rk (if c then ICommitAck q else IAbortAck q) =
    let* rk := rd_kafka_txn_complete rk in Some (emit rk (EvReply q None))).
  { destruct c; cbn [eos_step];
      [unfold rd_kafka_txn_op_commit_transaction_ack | unfold rd_kafka_txn_op_abort_transaction_ack];
      unfold rd_kafka_txn_require_state; rewrite S; bd; reflexivity. }
  rewrite E, complete_run; [| destruct c; auto | exact P | exact W].
  eexists. split; [reflexivity |]. split_and!; [| reflexivity | reflexivity].
  split; cbn; try done. intros p.
  transitivity (Z.land (default 0 (clear_flag RD_KAFKA_TOPPAR_F_IN_TXN (rktp_flags rk)
                                     (txn_rktps rk) !! p)) TXN_FLAGS); [reflexivity |].
  rewrite clear_flag_lookup by done. pose proof (F p) as Fp. unfold toppar_flags in Fp.
  destruct (decide (p ∈ txn_rktps rk)); [now apply flags_cleared | exact Fp].
Qed.

Lemma commit_part_run rk rk1 q ps n :
  txn_clean rk -> net_good n -> NoDup ps -> in_txn rk rk1 ps ->
  exists rk', eos_run rk1 (commit_part q n) = Some rk' /\ txn_clean rk' /\
    rk_out rk' = rk_out rk1 ++ [EvReply q None; EvEndTxn (eos_pid rk) true q; EvReply q None;
                                EvReply q None].
Proof.
  intros [T _ A V _ _ _ _ _] N Hnd [T1 A1 V1 S1 P1 W1 R1 Q1 D1 F1].
  rewrite T in T1. rewrite A in A1. rewrite <- V1 in *.
  destruct (begin_commit_step rk1 q S1) as (rk2 & E2 & S2 & [= ] & O2).
  destruct (commit_step rk2 q n) as (rk3 & E3 & S3 & [= ] & O3); try congruence.
  destruct (endtxn_step rk3 q false n true S3) as (rk4 & E4 & S4 & [= ] & O4).
  destruct (ack_step rk4 q true S4) as (rk5 & E5 & C5 & _ & O5); try congruence.
  { intros p. unfold toppar_flags in *. replace (rktp_flags rk4) with (rktp_flags rk1) by congruence.
    rewrite F1. replace (txn_rktps rk4) with ps by congruence. done. }
  exists rk5. unfold commit_part. cbn [eos_run]. rewrite E2, E3, E4.
  cbn [eos_step] in E5 |- *. rewrite E5. split_and!; [done | done |].
  rewrite O5, O4, O3, O2, <- !app_assoc. cbn. congruence.
Qed.

(** C14. A transaction that is committed.  From a producer between transactions, begin,
    produce to any partitions, have the coordinator register them in whatever order it
    answers, and commit: no assertion fails; the partitions may send exactly from the
    registration on, and only those; the application's calls are all answered without
    an error; one AddPartitionsToTxn with the partitions and one EndTxn are sent, with
    the producer's id; and the producer is between transactions again, with no trace of
    this one. *)
Theorem transaction_commits (rk : rd_kafka) (q : nat) (ps answered : list nat) (n : net)
  (Hclean : txn_clean rk) (Hnet : net_good n) (Hnd : NoDup ps) (Hne : ps <> [])
  (Hperm : answered ≡ₚ ps) :
  exists rk1 rk' sent,
    eos_run rk (produce_part q ps answered n) = Some rk1 /\
    (forall p, rd_kafka_txn_toppar_may_send_msg rk1 p = bool_decide (p ∈ ps)) /\
    rd_kafka_txn_may_send_msg rk1 = true /\
    eos_run rk1 (commit_part q n) = Some rk' /\
    txn_clean rk' /\ sent ≡ₚ ps /\
    rk_out rk' = rk_out rk ++
      [EvWakeup; EvReply q None; EvAddPartitions (eos_pid rk) sent; EvWakeup;
       EvReply q None; EvEndTxn (eos_pid rk) true q; EvReply q None; EvReply q None].
Proof.
  destruct (produce_part_run rk q ps answered n) as (rk1 & sent & R1 & I1 & Hs & O1); try done.
  assert (Hnd' : NoDup answered) by now rewrite Hperm.
  destruct (commit_part_run rk rk1 q answered n Hclean Hnet Hnd' I1) as (rk' & R2 & C2 & O2).
  exists rk1, rk', sent. split_and!; try done.
  - intros p. unfold rd_kafka_txn_toppar_may_send_msg.
    pose proof (it_flags _ _ _ I1 p) as Fp.
    assert (E : Z.land (toppar_flags rk1 p) RD_KAFKA_TOPPAR_F_IN_TXN =
                if decide (p ∈ answered) then RD_KAFKA_TOPPAR_F_IN_TXN else 0).
    { change RD_KAFKA_TOPPAR_F_IN_TXN with (Z.land TXN_FLAGS RD_KAFKA_TOPPAR_F_IN_TXN) at 1.
      rewrite Z.land_assoc, Fp. now destruct (decide _). }
    rewrite E. destruct (decide (p ∈ answered)) as [Hp | Hp]; rewrite Hperm in Hp;
      [now rewrite bool_decide_true | now rewrite bool_decide_false].
  - unfold rd_kafka_txn_may_send_msg. now rewrite (it_state _ _ _ I1).
  - rewrite O2, O1. now rewrite <- !app_assoc.
Qed.

(** ** A transaction that is aborted for a new epoch *)

(** What the steps of such an abort leave alone; [txn_state], [idemp_state] and
    [txn_init_rkq] are stated apart. *)
Definition aframe (rk : rd_kafka) :=
  (rk_transactional rk, rk_fatal_err rk, eos_pid rk, txn_pending_rktps rk, txn_waitresp_rktps rk,
   (txn_rktps rk, rktp_flags rk, txn_curr_coord rk)).

(** A drain that is under way, or done. *)
Definition draining (rk : rd_kafka) : rd_kafka_idemp_state :=
  if inflight_toppar_cnt rk =? 0 then IDEMP_REQ_PID else IDEMP_DRAIN_BUMP.

Lemma drain_set_state rk s :
  rk_fatal_err rk = 0 -> idemp_state rk <> s -> s = IDEMP_DRAIN_BUMP \/ s = IDEMP_REQ_PID ->
  rd_kafka_idemp_set_state rk s = Some (set_idemp_state rk s).
Proof.
  intros F Hne Hs. unfold rd_kafka_idemp_set_state, rd_kafka_fatal_error_code, idemp_enter_state.
  rewrite bool_decide_false, F by done. cbn. destruct (rk_transactional rk); [| done].
  destruct Hs as [-> | ->]; reflexivity.
Qed.

Lemma drain_done_reset rk :
  rk_transactional rk = true -> rk_fatal_err rk = 0 -> idemp_state rk = IDEMP_DRAIN_BUMP ->
  rd_kafka_pid_valid (eos_pid rk) = true ->
  rd_kafka_idemp_drain_done rk = Some (set_pid_tmr (set_idemp_state rk IDEMP_REQ_PID) true).
Proof.
  intros T F S V. unfold rd_kafka_idemp_drain_done. rewrite S, V, T. bd.
  rewrite drain_set_state by (rewrite ?S; auto). reflexivity.
Qed.

Lemma drain_step rk err :
  rk_transactional rk = true -> rk_fatal_err rk = 0 -> txn_err rk = 0 ->
  idemp_state rk = IDEMP_ASSIGNED -> txn_state rk = TXN_IN_TRANSACTION ->
  rd_kafka_pid_valid (eos_pid rk) = true ->
  exists rk', eos_step rk (IDrainEpochBump err) = Some rk' /\
    txn_state rk' = TXN_ABORTABLE_ERROR /\ idemp_state rk' = draining rk /\
    inflight_toppar_cnt rk' = inflight_toppar_cnt rk /\ txn_requires_epoch_bump rk' = true /\
    aframe rk' = aframe rk /\ rk_out rk' = rk_out rk ++ [EvPurge].
Proof.
  intros T F E A S V. cbn [eos_step]. unfold rd_kafka_idemp_drain_epoch_bump.
  rewrite drain_set_state by (rewrite ?A; auto).
  cbn [rk_transactional set_idemp_state]. rewrite T.
  unfold rd_kafka_txn_set_abortable_error_with_bump, rd_kafka_txn_set_abortable_error0.
  cbn. rewrite F. cbn. rewrite E. cbn. unfold rd_kafka_txn_set_state. cbn. rewrite S. bd.
  unfold rd_kafka_idemp_check_drain_done, draining. cbn.
  destruct (inflight_toppar_cnt rk =? 0).
  - rewrite drain_done_reset by done. eexists. split_and!; reflexivity.
  - eexists. split_and!; reflexivity.
Qed.

Lemma begin_abort_step rk q :
  txn_state rk = TXN_ABORTABLE_ERROR -> txn_pending_rktps rk = [] -> txn_waitresp_rktps rk = [] ->
  exists rk', eos_step rk (IBeginAbort q) = Some rk' /\
    txn_state rk' = TXN_ABORTING_TRANSACTION /\ idemp_state rk' = idemp_state rk /\
    inflight_toppar_cnt rk' = inflight_toppar_cnt rk /\
    aframe rk' = aframe rk /\ rk_out rk' = rk_out rk ++ [EvReply q None].
Proof.
  intros S P W. cbn [eos_step].
  unfold rd_kafka_txn_op_begin_abort, rd_kafka_txn_require_state, rd_kafka_txn_set_state.
  rewrite S. bd. unfold rd_kafka_txn_clear_pending_partitions. cbn. rewrite P, W.
  eexists. split_and!; try reflexivity. unfold aframe. cbn. now rewrite P, W.
Qed.

Lemma abort_waits_step rk q n :
  txn_state rk = TXN_ABORTING_TRANSACTION -> idemp_state rk <> IDEMP_ASSIGNED ->
  eos_step rk (IAbort q n) = Some (set_txn_init_rkq rk (Some q)).
Proof.
  intros S A. cbn [eos_step]. unfold rd_kafka_txn_op_abort_transaction, rd_kafka_txn_require_state.
  rewrite S. bd. rewrite bool_decide_false by done. cbn. now rewrite orb_true_r.
Qed.

(** The rest of what is in flight. *)
Lemma abort_subs k : forall rk,
  rk_transactional rk = true -> rk_fatal_err rk = 0 -> idemp_state rk = draining rk ->
  rd_kafka_pid_valid (eos_pid rk) = true ->
  inflight_toppar_cnt rk = Z.of_nat k -> Z.of_nat k <= int32_max ->
  exists rk', eos_run rk (replicate k IInflightSub) = Some rk' /\
    txn_state rk' = txn_state rk /\ idemp_state rk' = IDEMP_REQ_PID /\
    txn_init_rkq rk' = txn_init_rkq rk /\ aframe rk' = aframe rk /\ rk_out rk' = rk_out rk.
Proof.
  unfold int32_max. induction k as [| k IH]; intros rk T F A V K B.
  - exists rk. unfold draining in A. rewrite K in A. split_and!; done.
  - assert (A' : idemp_state rk = IDEMP_DRAIN_BUMP).
    { rewrite A. unfold draining. now ztest. }
    cbn [replicate eos_run eos_step]. unfold rd_kafka_idemp_inflight_toppar_sub.
    rewrite K, (swrap_small 32) by (unfold in_i; lia).
    replace (Z.of_nat (Datatypes.S k) - 1) with (Z.of_nat k) by lia.
    destruct k as [| k].
    + cbn [Z.of_nat Z.eqb]. rewrite drain_done_reset by done.
      eexists. split; [reflexivity |]. split_and!; reflexivity.
    + ztest. cbn [rd_assert].
      destruct (IH (set_inflight_toppar_cnt rk (Z.of_nat (Datatypes.S k))))
        as (rk' & R & H); try done; [lia |].
      exists rk'. split; [exact R | exact H].
Qed.

(** The timer asks for the new id. *)
Lemma pid_timer_step rk n coord :
  rk_transactional rk = true -> rk_fatal_err rk = 0 -> idemp_state rk = IDEMP_REQ_PID ->
  txn_curr_coord rk = Some coord -> rd_kafka_pid_valid (eos_pid rk) = true ->
  net_good n -> net_initpid_err n = 0 ->
  exists rk', eos_step rk (IPidTimer n) = Some rk' /\
    txn_state rk' = txn_state rk /\ idemp_state rk' = IDEMP_WAIT_PID /\
    txn_init_rkq rk' = txn_init_rkq rk /\ aframe rk' = aframe rk /\
    rk_out rk' = rk_out rk ++ [EvInitProducerId (Some (eos_pid rk))].
Proof.
  intros T F A C V [U _] I. cbn [eos_step].
  unfold rd_kafka_idemp_pid_timer_cb, rd_kafka_idemp_pid_fsm, rd_kafka_fatal_error_code. cbn.
  rewrite F. cbn. rewrite A, T, C. bd.
  unfold rd_kafka_idemp_set_state, rd_kafka_fatal_error_code, idemp_enter_state. cbn.
  rewrite A, F. bd. rewrite T. cbn. unfold fsm_wait_transport. cbn. rewrite T, C, U, I. bd.
  rewrite V. cbn. unfold rd_kafka_idemp_set_state, rd_kafka_fatal_error_code, idemp_enter_state.
  cbn. rewrite F. bd. rewrite T. eexists. split_and!; reflexivity.
Qed.

(** Its arrival ends the abort. *)
Lemma pid_response_step rk pid q n :
  rk_transactional rk = true -> rk_fatal_err rk = 0 -> idemp_state rk = IDEMP_WAIT_PID ->
  txn_state rk = TXN_ABORTING_TRANSACTION -> txn_init_rkq rk = Some q ->
  rd_kafka_pid_valid pid = true ->
  exists rk', eos_step rk (IInitProducerIdResponse 0 pid n) = Some rk' /\
    txn_state rk' = TXN_ABORT_NOT_ACKED /\ idemp_state rk' = IDEMP_ASSIGNED /\
    txn_init_rkq rk' = None /\ aframe rk' = aframe (set_eos_pid rk pid) /\
    rk_out rk' = rk_out rk ++ [EvReply q None; EvWakeup].
Proof.
  intros T F A S Q V. cbn [eos_step].
  unfold rd_kafka_handle_InitProducerId, rd_kafka_idemp_pid_update. cbn. rewrite A, V. bd.
  unfold rd_kafka_idemp_set_state, rd_kafka_fatal_error_code, idemp_enter_state. cbn.
  rewrite A, F. bd. rewrite T. unfold rd_kafka_txn_idemp_state_change. cbn. rewrite S.
  unfold rd_kafka_txn_set_state. cbn. rewrite S. bd. rewrite Q. bd.
  eexists. split_and!; try reflexivity. cbn. now rewrite <- app_assoc.
Qed.

(** C27. A transaction whose producer id has to be replaced (a partition lost track of
    its sequence numbers: [rd_kafka_idemp_drain_epoch_bump] with [k] partitions in
    flight) is aborted by the application without the coordinator being asked to end
    it: the queued messages are purged, the abort waits for the drain and for the
    coordinator's answer to the request for the next epoch of the current id, and the
    application's call is answered, without an error, once that arrives.  Then the
    producer is between transactions again, with the new id; no EndTxn was sent. *)
Theorem transaction_aborts_for_epoch (rk0 rk : rd_kafka) (ps : list nat) (coord k q : nat)
  (err : Z) (pid : rd_kafka_pid) (n : net)
  (Hin : in_txn rk0 rk ps) (Hclean : txn_clean rk0) (Hnd : NoDup ps)
  (Hfatal : rk_fatal_err rk = 0) (Herr : txn_err rk = 0)
  (Hcoord : txn_curr_coord rk = Some coord)
  (Hk : inflight_toppar_cnt rk = Z.of_nat k) (Hmax : Z.of_nat k <= int32_max)
  (Hnet : net_good n) (Hinit : net_initpid_err n = 0)
  (Hpid : rd_kafka_pid_valid pid = true) :
  exists rk', eos_run rk ([IDrainEpochBump err; IBeginAbort q; IAbort q n] ++
      replicate k IInflightSub ++
      [IPidTimer n; IInitProducerIdResponse 0 pid n; IAbortAck q]) = Some rk' /\
    txn_clean rk' /\ eos_pid rk' = pid /\
    rk_out rk' = rk_out rk ++
      [EvPurge; EvReply q None; EvInitProducerId (Some (eos_pid rk)); EvReply q None; EvWakeup;
       EvReply q None].
Proof.
  destruct Hclean as [T _ A V _ _ _ _ _]. destruct Hin as [T1 A1 V1 S1 P1 W1 R1 _ _ F1].
  rewrite T in T1. rewrite A in A1. rewrite <- V1 in V.
  destruct (drain_step rk err) as (rk2 & E2 & S2 & A2 & K2 & _ & [= ] & O2); try congruence.
  destruct (begin_abort_step rk2 q) as (rk3 & E3 & S3 & A3 & K3 & [= ] & O3); try congruence.
  assert (Hd : idemp_state rk3 = draining rk3).
  { rewrite A3, A2. unfold draining. now rewrite K3, K2. }
  assert (Hna : idemp_state rk3 <> IDEMP_ASSIGNED).
  { rewrite Hd. unfold draining. now destruct (_ =? 0). }
  destruct (abort_subs k (set_txn_init_rkq rk3 (Some q))) as (rk4 & E4 & S4 & A4 & Q4 & [= ] & O4);
    try (cbn; congruence); [exact Hd |]. cbn in S4, Q4, O4.
  destruct (pid_timer_step rk4 n coord) as (rk5 & E5 & S5 & A5 & Q5 & [= ] & O5); try congruence.
  destruct (pid_response_step rk5 pid q n) as (rk6 & E6 & S6 & A6 & Q6 & X & O6); try congruence.
  unfold aframe in X. cbn in X. injection X as X1 X2 X3 X4 X5 X6 X7 X8.
  destruct (ack_step rk6 q false S6) as (rk7 & E7 & C7 & V7 & O7); try congruence.
  { intros p. unfold toppar_flags in *. replace (rktp_flags rk6) with (rktp_flags rk) by congruence.
    rewrite F1. replace (txn_rktps rk6) with ps by congruence. done. }
  exists rk7. cbn [app eos_run]. rewrite E2, E3, abort_waits_step, eos_run_app, E4 by done.
  cbn [eos_run]. rewrite E5, E6. cbn [eos_step] in E7 |- *. rewrite E7.
  split_and!; [done | done | congruence |].
  rewrite O7, O6, O5, O4, O3, O2, <- !app_assoc. cbn. congruence.
Qed.

(** ** A concrete producer *)

Definition net_ok : net := mk_net true 1 true 0 0 0.

(** [init_transactions()] as it goes: the coordinator is found and gives an id. *)
Definition start_up : list input :=
  [IInitTransactions 1 false; IPidTimer net_ok; IFindCoordinatorResponse 0 1 (Some 1%nat) net_ok;
   IInitProducerIdResponse 0 (mk_pid 7 0) net_ok; IAckInit 2].

Definition rk_started : rd_kafka := run_or_init start_up.

Lemma started_clean : txn_clean rk_started.
Proof. split; vm_compute; reflexivity. Qed.

Lemma net_ok_good : net_good net_ok.
Proof. split; reflexivity. Qed.

Lemma transaction_commits_witness :
  eos_run eos_init start_up = Some rk_started /\
  exists rk1 rk' sent,
    eos_run rk_started (produce_part 3 [5; 4]%nat [4; 5]%nat net_ok) = Some rk1 /\
    eos_run rk1 (commit_part 3 net_ok) = Some rk' /\ sent ≡ₚ [5; 4]%nat.
Proof.
  split; [vm_compute; reflexivity |].
  destruct (transaction_commits rk_started 3 [5; 4]%nat [4; 5]%nat net_ok started_clean net_ok_good)
    as (rk1 & rk' & sent & R1 & _ & _ & R2 & _ & S & _).
  - apply (bool_decide_unpack _). vm_compute. exact I.
  - discriminate.
  - apply Permutation_swap.
  - exists rk1, rk', sent. split; [exact R1 | split; [exact R2 | exact S]].
Defined.

Lemma transaction_aborts_for_epoch_witness :
  let rk := set_inflight_toppar_cnt (default rk_started
    (eos_run rk_started (produce_part 3 [5; 4]%nat [4; 5]%nat net_ok))) 2 in
  exists rk', eos_run rk ([IDrainEpochBump 45; IBeginAbort 3; IAbort 3 net_ok] ++
      replicate 2 IInflightSub ++
      [IPidTimer net_ok; IInitProducerIdResponse 0 (mk_pid 7 1) net_ok; IAbortAck 3]) = Some rk' /\
    txn_clean rk'.
Proof.
  intros rk. assert (Hin : in_txn rk_started rk [4; 5]%nat).
  { destruct (produce_part_run rk_started 3 [5; 4]%nat [4; 5]%nat net_ok started_clean net_ok_good)
      as (rk1 & sent & R & H & _).
    - apply (bool_decide_unpack _). vm_compute. exact I.
    - discriminate.
    - apply Permutation_swap.
    - subst rk. rewrite R. cbn [default from_option]. now apply in_txn_inflight. }
  destruct (transaction_aborts_for_epoch rk_started rk [4; 5]%nat 1 2 3 45 (mk_pid 7 1) net_ok Hin
    started_clean) as (rk' & R & C & _); try (vm_compute; reflexivity).
  - apply (bool_decide_unpack _). vm_compute. exact I.
  - vm_compute. discriminate.
  - exact net_ok_good.
  - exists rk'. split; [exact R | exact C].
Defined.

(** ** Orders of events that end in a failed assertion *)

(** The process does not survive the input. *)
Definition asserts (rk : rd_kafka) (i : input) : Prop := eos_step rk i = None.

(** A commit that timed out locally may still succeed on the coordinator.  If its
    response arrives once the application has begun to abort, as the error it got told
    it to, [rd_kafka_txn_handle_EndTxn] moves the state from ABORTING_TRANSACTION to
    COMMIT_NOT_ACKED, which is not a valid transition: the assertion in
    [rd_kafka_txn_set_state] fails. *)
Lemma late_commit_response_asserts0 (rk : rd_kafka) (q : nat) (retry : bool) (n : net)
  (Hstate : txn_state rk = TXN_ABORTING_TRANSACTION) :
  asserts rk (IEndTxnResponse 0 true q retry n).
Proof.
  unfold asserts. cbn [eos_step]. unfold rd_kafka_txn_handle_EndTxn. rewrite Hstate. bd.
  unfold rd_kafka_txn_set_state. now rewrite Hstate.
Qed.

(** The calls of commit_transaction() up to the request. *)
Definition commit_sent : list input :=
  let begin := F_FOR_REUSE + F_ABORT_ON_TIMEOUT in
  let commit := F_REUSE + F_FOR_REUSE + F_ABORT_ON_TIMEOUT in
  start_up ++ produce_part 3 [5; 4]%nat [4; 5]%nat net_ok ++
  [IApiStart "commit_transaction (begin)" begin 4; IBeginCommit 4; IApiFinish begin None;
   IApiStart "commit_transaction" commit 5; ICommit 5 net_ok].

(** The time-out timer of commit_transaction() is only stopped by the application's
    thread, after it was woken up by the reply.  If it fires in between, when the
    transaction is committed already, [rd_kafka_txn_curr_api_abort_timeout_cb] moves
    COMMIT_NOT_ACKED (or READY, after the acknowledgement) to ABORTABLE_ERROR, which is
    not a valid transition: the assertion in [rd_kafka_txn_set_state] fails. *)
Lemma late_timeout_asserts0 (rk : rd_kafka) (q : nat)
  (Hstate : txn_state rk = TXN_COMMIT_NOT_ACKED \/ txn_state rk = TXN_READY)
  (Hfatal : rk_fatal_err rk = 0) (Herr : txn_err rk = 0)
  (Htmr : api_tmr (txn_curr_api rk) = Some (TmAbort, q)) :
  asserts rk IApiTimer.
Proof.
  unfold asserts. cbn [eos_step]. unfold curr_api_timer_fires. rewrite Htmr.
  cbn [api_timeout_cb]. unfold rd_kafka_txn_set_abortable_error, rd_kafka_txn_set_abortable_error0.
  cbn. rewrite Hfatal. cbn. rewrite Herr. cbn. unfold rd_kafka_txn_set_state. cbn.
  now destruct Hstate as [-> | ->].
Qed.

(** While a transactional producer waits for its coordinator's connection to ask for
    a producer id, a coordinator query that fails makes the coordinator unknown but
    leaves the state WAIT_TRANSPORT: when the producer id timer fires next, the
    assertion that the coordinator is known fails in [rd_kafka_idemp_pid_fsm]. *)
Lemma lost_coordinator_asserts0 (rk : rd_kafka) (n : net)
  (Htxn : rk_transactional rk = true) (Hfatal : rk_fatal_err rk = 0)
  (Hstate : idemp_state rk = IDEMP_WAIT_TRANSPORT) (Hcoord : txn_curr_coord rk = None) :
  asserts rk (IPidTimer n).
Proof.
  unfold asserts. cbn [eos_step].
  unfold rd_kafka_idemp_pid_timer_cb, rd_kafka_idemp_pid_fsm, rd_kafka_fatal_error_code. cbn.
  rewrite Hfatal. cbn. rewrite Hstate. unfold fsm_wait_transport. cbn. now rewrite Htxn, Hcoord.
Qed.

(** The three orders of events. *)
Inductive late_event (rk : rd_kafka) : input -> Prop :=
| late_commit_response q retry n :
    txn_state rk = TXN_ABORTING_TRANSACTION -> late_event rk (IEndTxnResponse 0 true q retry n)
| late_timeout q :
    txn_state rk = TXN_COMMIT_NOT_ACKED \/ txn_state rk = TXN_READY ->
    rk_fatal_err rk = 0 -> txn_err rk = 0 -> api_tmr (txn_curr_api rk) = Some (TmAbort, q) ->
    late_event rk IApiTimer
| lost_coordinator n :
    rk_transactional rk = true -> rk_fatal_err rk = 0 ->
    idemp_state rk = IDEMP_WAIT_TRANSPORT -> txn_curr_coord rk = None -> late_event rk (IPidTimer n).

(** Three orders of events fail an assertion and end the process: the response to a
    commit that succeeds after the application has begun to abort, as the time-out told
    it to; the time-out of a commit that fires when the transaction is committed already;
    and the producer id timer after a failed query has made the coordinator unknown. *)
Lemma late_events_assert (rk : rd_kafka) (i : input) (Hlate : late_event rk i) : asserts rk i.
Proof.
  destruct Hlate.
  - now apply late_commit_response_asserts0.
  - now apply (late_timeout_asserts0 rk q).
  - now apply lost_coordinator_asserts0.
Qed.

(** All three are reached from the start. *)
Lemma late_events_assert_witness :
  let net_down := mk_net true 1 false 0 0 0 in
  let events1 := commit_sent ++
    [IApiTimer; IApiFinish 0 (Some (abort_error ERR__TIMED_OUT));
     IApiStart "abort_transaction (begin)" (F_FOR_REUSE + F_RETRIABLE_ON_TIMEOUT) 6;
     IBeginAbort 6] in
  let events2 := commit_sent ++ [IEndTxnResponse 0 true 5 false net_ok] in
  let events3 :=
    [IInitTransactions 1 false; IPidTimer net_ok; IFindCoordinatorResponse 0 1 (Some 1%nat) net_down;
     ICoordMonitor false net_down; ICoordTimer net_down;
     IFindCoordinatorResponse ERR_COORDINATOR_NOT_AVAILABLE 0 None net_down] in
  (EvEndTxn (mk_pid 7 0) true 5 ∈ rk_out (run_or_init events1) /\
   asserts (run_or_init events1) (IEndTxnResponse 0 true 5 false net_ok)) /\
  asserts (run_or_init events2) IApiTimer /\
  (pid_tmr (run_or_init events3) = true /\ asserts (run_or_init events3) (IPidTimer net_down)) /\
  Forall (fun evs => eos_run eos_init evs = Some (run_or_init evs)) [events1; events2; events3].
Proof.
  intros net_down events1 events2 events3. split; [split |]; [| | split; [| split; [split |]]].
  - apply list_elem_of_lookup. exists 10%nat. vm_compute. reflexivity.
  - apply late_events_assert. constructor. vm_compute. reflexivity.
  - apply late_events_assert. apply (late_timeout _ 5); [left | | |]; vm_compute; reflexivity.
  - vm_compute. reflexivity.
  - apply late_events_assert. constructor; vm_compute; reflexivity.
  - apply List.Forall_cons; [| apply List.Forall_cons; [| apply List.Forall_cons; [| constructor]]];
      vm_compute; reflexivity.
Defined.
