(* ===== verification/Avl.v ===== *)
(** * The AVL tree (src/cbits/hs_rdavl.h, hs_rdavl.c)

    [rd_avl_t], the search tree of the metadata cache and of the aborted transactions
    of a fetch.  A node is a tree; the comparator is the one the tree was made with.
    The locks are not modelled. *)

From stdpp Require Import list.
From S2P Require Import Prelude Sort.

Inductive rd_avl_dir : Set := RD_AVL_LEFT | RD_AVL_RIGHT.

#[export] Instance rd_avl_dir_dec : EqDecision rd_avl_dir.
Proof. solve_decision. Defined.

(** The opposite direction map. *)
Definition odirmap (dir : rd_avl_dir) : rd_avl_dir :=
  match dir with RD_AVL_RIGHT => RD_AVL_LEFT | RD_AVL_LEFT => RD_AVL_RIGHT end.

(** [RAN_NULL] is the null pointer. *)
Inductive rd_avl_node (A : Type) : Type :=
  | RAN_NULL
  | RAN (left : rd_avl_node A) (ran_elm : A) (ran_height : Z) (right : rd_avl_node A).
Arguments RAN_NULL {A}.
Arguments RAN {A} _ _ _ _.

Section Nodes.
Context {A : Type}.

Definition RD_AVL_NODE_HEIGHT (ran : rd_avl_node A) : Z :=
  match ran with RAN_NULL => 0 | RAN _ _ h _ => h end.

(** [ran->ran_p[dir]], and its assignment. *)
Definition ran_p (ran : rd_avl_node A) (dir : rd_avl_dir) : option (rd_avl_node A) :=
  match ran with
  | RAN_NULL => None
  | RAN l _ _ r => Some (match dir with RD_AVL_LEFT => l | RD_AVL_RIGHT => r end)
  end.
Definition set_ran_p (ran : rd_avl_node A) (dir : rd_avl_dir) (c : rd_avl_node A) : option (rd_avl_node A) :=
  match ran with
  | RAN_NULL => None
  | RAN l e h r =>
      Some (match dir with RD_AVL_LEFT => RAN c e h r | RD_AVL_RIGHT => RAN l e h c end)
  end.

Definition RD_AVL_NODE_DELTA (ran : rd_avl_node A) : option Z :=
  match ran with
  | RAN_NULL => None
  | RAN l _ _ r => Some (RD_AVL_NODE_HEIGHT l - RD_AVL_NODE_HEIGHT r)
  end.

Definition RD_DELTA_MAX : Z := 1.

(** [balance] is [rd_avl_balance_node], which calls this function. *)
Definition rd_avl_rotate (balance : rd_avl_node A -> option (rd_avl_node A))
  (ran : rd_avl_node A) (dir : rd_avl_dir) : option (rd_avl_node A) :=
  let odir := odirmap dir in
  let* n := ran_p ran odir in
  let* c := ran_p n dir in
  let* ran := set_ran_p ran odir c in
  let* b := balance ran in
  let* n := set_ran_p n dir b in
  balance n.

Fixpoint rd_avl_balance_node (fuel : nat) (ran : rd_avl_node A) : option (rd_avl_node A) :=
  match fuel with
  | O => None
  | S fuel =>
      let balance := rd_avl_balance_node fuel in
      let* d := RD_AVL_NODE_DELTA ran in
      if d <? - RD_DELTA_MAX then
        let* r := ran_p ran RD_AVL_RIGHT in
        let* dr := RD_AVL_NODE_DELTA r in
        let* ran := if dr >? 0 then
                      let* r := rd_avl_rotate balance r RD_AVL_RIGHT in
                      set_ran_p ran RD_AVL_RIGHT r
                    else Some ran in
        rd_avl_rotate balance ran RD_AVL_LEFT
      else if d >? RD_DELTA_MAX then
        let* l := ran_p ran RD_AVL_LEFT in
        let* dl := RD_AVL_NODE_DELTA l in
        let* ran := if dl <? 0 then
                      let* l := rd_avl_rotate balance l RD_AVL_LEFT in
                      set_ran_p ran RD_AVL_LEFT l
                    else Some ran in
        rd_avl_rotate balance ran RD_AVL_RIGHT
      else
        match ran with
        | RAN_NULL => None
        | RAN l e _ r =>
            let h0 := 0 in
            let h1 := if RD_AVL_NODE_HEIGHT l >? h0 then RD_AVL_NODE_HEIGHT l else h0 in
            let h2 := if RD_AVL_NODE_HEIGHT r >? h1 then RD_AVL_NODE_HEIGHT r else h1 in
            Some (RAN l e (h2 + 1) r)
        end
  end.

(** The recursion goes down the higher child: its height is enough fuel. *)
Definition balance_fuel (ran : rd_avl_node A) : nat :=
  match ran with
  | RAN_NULL => 1
  | RAN l _ _ r => Z.to_nat (Z.max (RD_AVL_NODE_HEIGHT l) (RD_AVL_NODE_HEIGHT r)) + 6
  end.
Definition balance_node (ran : rd_avl_node A) : option (rd_avl_node A) :=
  rd_avl_balance_node (balance_fuel ran) ran.

Fixpoint rd_avl_move (dst src : rd_avl_node A) (dir : rd_avl_dir) : option (rd_avl_node A) :=
  match dst with
  | RAN_NULL => Some src
  | RAN l e h r =>
      let* dst := match dir with
                  | RD_AVL_LEFT => let* l := rd_avl_move l src dir in Some (RAN l e h r)
                  | RD_AVL_RIGHT => let* r := rd_avl_move r src dir in Some (RAN l e h r)
                  end in
      balance_node dst
  end.

Definition rd_avl_remove_node0 (ran : rd_avl_node A) : option (rd_avl_node A) :=
  let* l := ran_p ran RD_AVL_LEFT in
  let* r := ran_p ran RD_AVL_RIGHT in
  rd_avl_move l r RD_AVL_RIGHT.

Context (cmp : A -> A -> Z).

(** The tree, and the existing element that was replaced. *)
Fixpoint rd_avl_insert_node (parent ran : rd_avl_node A) (elm : A)
  : option (rd_avl_node A * option A) :=
  match parent with
  | RAN_NULL => Some (ran, None)
  | RAN l e h r =>
      let d := cmp elm e in
      if d =? 0 then Some (RAN l elm h r, Some e)
      else if d <? 0 then
        let* (l, existing) := rd_avl_insert_node l ran elm in
        let* parent := balance_node (RAN l e h r) in
        Some (parent, existing)
      else
        let* (r, existing) := rd_avl_insert_node r ran elm in
        let* parent := balance_node (RAN l e h r) in
        Some (parent, existing)
  end.

Fixpoint rd_avl_remove_elm0 (parent : rd_avl_node A) (elm : A) : option (rd_avl_node A) :=
  match parent with
  | RAN_NULL => Some RAN_NULL
  | RAN l e h r =>
      let d := cmp elm e in
      if d =? 0 then rd_avl_remove_node0 parent
      else if d <? 0 then
        let* l := rd_avl_remove_elm0 l elm in balance_node (RAN l e h r)
      else
        let* r := rd_avl_remove_elm0 r elm in balance_node (RAN l e h r)
  end.

Fixpoint rd_avl_find_node (begin : rd_avl_node A) (elm : A) : rd_avl_node A :=
  match begin with
  | RAN_NULL => RAN_NULL
  | RAN l e _ r =>
      let d := cmp elm e in
      if d =? 0 then begin
      else if d <? 0 then rd_avl_find_node l elm
      else rd_avl_find_node r elm
  end.

(** ** The tree *)

Record rd_avl := mk_avl { ravl_root : rd_avl_node A }.

Definition rd_avl_init : rd_avl := mk_avl RAN_NULL.

(** [memset] leaves the new node's height 0. *)
Definition rd_avl_insert (ravl : rd_avl) (elm : A) : option (rd_avl * option A) :=
  let ran := RAN RAN_NULL elm 0 RAN_NULL in
  let* (root, existing) := rd_avl_insert_node (ravl_root ravl) ran elm in
  Some (mk_avl root, existing).

Definition rd_avl_remove_elm (ravl : rd_avl) (elm : A) : option rd_avl :=
  let* root := rd_avl_remove_elm0 (ravl_root ravl) elm in
  Some (mk_avl root).

Definition rd_avl_find (ravl : rd_avl) (elm : A) : option A :=
  match rd_avl_find_node (ravl_root ravl) elm with
  | RAN_NULL => None
  | RAN _ e _ _ => Some e
  end.
End Nodes.

Arguments rd_avl : clear implicits.
