(* ===== verification/AvlProps.v ===== *)
(** * Properties of the AVL tree

    Under any sequence of insertions, removals and searches the tree is a sorted list
    without duplicates, and stays balanced; its depth is logarithmic. *)

From stdpp Require Import list sorting.
From S2P Require Import Prelude Msgq Sort Avl.

(** ** Rebalancing

    It ends, keeps the order of the elements and restores the balance of a node whose
    subtrees are balanced, however far apart their heights are. *)

Section Balance.
Context {A : Type}.
Abbreviation node := (rd_avl_node A).
Abbreviation ht := (@RD_AVL_NODE_HEIGHT A).

(** The elements in order. *)
Fixpoint inorder (t : node) : list A :=
  match t with
  | RAN_NULL => []
  | RAN l e _ r => inorder l ++ e :: inorder r
  end.

(** The balance of a tree in terms of the heights it stores.  A node that was just
    inserted has height 0 until a child or a rotation changes that. *)
Fixpoint avl (t : node) : Prop :=
  match t with
  | RAN_NULL => True
  | RAN l _ h r =>
      avl l /\ avl r /\ -1 <= ht l - ht r <= 1 /\
      (h = 1 + Z.max (ht l) (ht r) \/ h = 0 /\ l = RAN_NULL /\ r = RAN_NULL)
  end.

Lemma avl_height t : avl t -> 0 <= ht t.
Proof.
  induction t as [| l IHl e h r IHr]; cbn; [lia |]. intros (Al & Ar & _ & [-> | [-> _]]); [| lia].
  specialize (IHl Al). specialize (IHr Ar). lia.
Qed.

(** A node by its subtree on the side [o] and the one on the other side. *)
Definition nd (o : rd_avl_dir) (a : node) (x : A) (h : Z) (b : node) : node :=
  match o with RD_AVL_LEFT => RAN a x h b | RD_AVL_RIGHT => RAN b x h a end.

Lemma nd_height o a x h b : ht (nd o a x h b) = h.
Proof. now destruct o. Qed.

Lemma odirmap_inv o : odirmap (odirmap o) = o.
Proof. now destruct o. Qed.

Lemma nd_opp o a x h b : nd o a x h b = nd (odirmap o) b x h a.
Proof. now destruct o. Qed.

Lemma nd_avl o a x b :
  avl a -> avl b -> -1 <= ht a - ht b <= 1 -> avl (nd o a x (1 + Z.max (ht a) (ht b)) b).
Proof. intros Ha Hb D. destruct o; cbn; split_and!; auto; lia. Qed.

(** A tree higher than 1 is a node of balanced subtrees. *)
Lemma avl_inv o t :
  avl t -> 0 < ht t -> exists a x b, t = nd o a x (ht t) b /\ avl a /\ avl b /\
    -1 <= ht a - ht b <= 1 /\ ht t = 1 + Z.max (ht a) (ht b).
Proof.
  destruct t as [| l e h r]; cbn; [lia |]. intros (Al & Ar & D & E) P.
  destruct E as [E | [E _]]; [| lia].
  destruct o; [exists l, e, r | exists r, e, l]; cbn; (split_and!; [done | done | done | lia | lia | lia]).
Qed.

(** [t] is rebalanced to [t'] with fuel [n] and any above. *)
Definition balances (n : nat) (t t' : node) : Prop :=
  forall f, (n <= f)%nat -> rd_avl_balance_node f t = Some t'.

Lemma balances_more n m t t' : balances n t t' -> (n <= m)%nat -> balances m t t'.
Proof. intros B L f Hf. apply B. lia. Qed.

Lemma height_max p q :
  0 <= p -> 0 <= q ->
  (if (if 0 <? p then p else 0) <? q then q else if 0 <? p then p else 0) + 1 = 1 + Z.max p q.
Proof.
  intros Pp Pq. destruct (Z.ltb_spec 0 p) as [L | L];
    [destruct (Z.ltb_spec p q) | destruct (Z.ltb_spec 0 q)]; lia.
Qed.

Lemma bal_flat o a x h b :
  0 <= ht a -> 0 <= ht b -> -1 <= ht a - ht b <= 1 ->
  balances 1 (nd o a x h b) (nd o a x (1 + Z.max (ht a) (ht b)) b).
Proof.
  intros Pa Pb D [| f] Hf; [lia |]. unfold RD_DELTA_MAX.
  destruct o; cbn [nd rd_avl_balance_node RD_AVL_NODE_DELTA]; unfold RD_DELTA_MAX; ztest;
    f_equal; f_equal; rewrite height_max by done; lia.
Qed.

(** A rotation, once the inner node is rebalanced. *)
Lemma rotate_eq bal o a x h b1 y hb b2 t1 :
  bal (nd o a x h b1) = Some t1 ->
  rd_avl_rotate bal (nd o a x h (nd o b1 y hb b2)) o = bal (nd o t1 y hb b2).
Proof. intros E. destruct o; cbn in *; now rewrite E. Qed.

Lemma bal_single n o a x h b1 y hb b2 t1 t2 :
  0 <= ht a -> hb - ht a > 1 -> ht b1 <= ht b2 ->
  balances n (nd o a x h b1) t1 -> balances n (nd o t1 y hb b2) t2 ->
  balances (S n) (nd o a x h (nd o b1 y hb b2)) t2.
Proof.
  intros Pa D Le B1 B2 [| f] Hf; [lia |].
  rewrite <- (B2 f) by lia. rewrite <- (rotate_eq _ o a x h b1 y hb b2 t1) by (apply B1; lia).
  destruct o; cbn [nd rd_avl_balance_node RD_AVL_NODE_DELTA RD_AVL_NODE_HEIGHT ran_p];
    unfold RD_DELTA_MAX; ztest; reflexivity.
Qed.

Lemma bal_double n o a x h c1 z hc c2 y hb b2 u d1 w hd d2 t1 t2 :
  0 <= ht a -> hb - ht a > 1 -> hc > ht b2 ->
  balances n (nd o c2 y hb b2) u ->
  balances n (nd o c1 z hc u) (nd o d1 w hd d2) ->
  balances n (nd o a x h d1) t1 -> balances n (nd o t1 w hd d2) t2 ->
  balances (S n) (nd o a x h (nd o (nd o c1 z hc c2) y hb b2)) t2.
Proof.
  intros Pa D Gt Bu Bb B1 B2 [| f] Hf; [lia |].
  rewrite <- (B2 f) by lia. rewrite <- (rotate_eq _ o a x h d1 w hd d2 t1) by (apply B1; lia).
  assert (R : rd_avl_rotate (rd_avl_balance_node f) (nd o (nd o c1 z hc c2) y hb b2) (odirmap o)
              = Some (nd o d1 w hd d2)).
  { rewrite <- (Bb f) by lia. rewrite !(nd_opp o). apply rotate_eq. rewrite <- nd_opp. apply Bu. lia. }
  destruct o; cbn [odirmap nd] in R |- *;
    cbn [rd_avl_balance_node RD_AVL_NODE_DELTA RD_AVL_NODE_HEIGHT ran_p];
    unfold RD_DELTA_MAX; ztest; rewrite R; reflexivity.
Qed.

(** Two balanced trees and an element between them become one, [m] or [m + 1] high. *)
Definition joins (n : nat) (t : node) (m : Z) : Prop :=
  exists t', balances n t t' /\ avl t' /\ m <= ht t' <= m + 1.

Lemma joins_more n k t m : joins n t m -> (n <= k)%nat -> joins k t m.
Proof. intros (t' & B & P) L. exists t'. split; [now apply (balances_more n) | done]. Qed.

Lemma join_flat o a x h b :
  avl a -> avl b -> -1 <= ht a - ht b <= 1 ->
  balances 1 (nd o a x h b) (nd o a x (1 + Z.max (ht a) (ht b)) b) /\
  avl (nd o a x (1 + Z.max (ht a) (ht b)) b).
Proof.
  intros Aa Ab D. split; [apply bal_flat; auto using avl_height | now apply nd_avl].
Qed.

Lemma join_single n o a x h b1 y hb b2 t1 :
  avl a -> avl b2 -> (1 <= n)%nat -> hb = 1 + ht b2 -> ht b1 <= ht b2 -> hb - ht a > 1 ->
  balances n (nd o a x h b1) t1 -> avl t1 -> -1 <= ht t1 - ht b2 <= 1 ->
  exists t', balances (S n) (nd o a x h (nd o b1 y hb b2)) t' /\ avl t' /\
    ht t' = 1 + Z.max (ht t1) (ht b2).
Proof.
  intros Aa Ab2 Hn E Le G B1 At1 D. pose proof (avl_height a Aa).
  destruct (join_flat o t1 y hb b2 At1 Ab2 D) as [B2 At2].
  eexists. split; [eapply bal_single; [done | lia | done | exact B1 | eapply balances_more; eauto] |].
  split; [exact At2 |]. rewrite nd_height. lia.
Qed.

Lemma join_double n o a x h c1 z c2 y b2 t1 :
  avl a -> avl c1 -> avl c2 -> avl b2 -> (1 <= n)%nat -> let k := ht b2 in
  ht c1 = k -> k - 1 <= ht c2 <= k -> ht a <= k ->
  balances n (nd o a x h c1) t1 -> avl t1 -> k <= ht t1 <= k + 1 ->
  exists t', balances (S n) (nd o a x h (nd o (nd o c1 z (k + 1) c2) y (k + 2) b2)) t' /\
    avl t' /\ ht t' = k + 2.
Proof.
  intros Aa Ac1 Ac2 Ab2 Hn k Ec1 Hc2 G B1 At1 D. pose proof (avl_height a Aa).
  destruct (join_flat o c2 y (k + 2) b2 Ac2 Ab2) as [Bu Au]; [lia |].
  set (u := nd o c2 y (1 + Z.max (ht c2) (ht b2)) b2) in *.
  assert (Hu : ht u = k + 1) by (unfold u; rewrite nd_height; lia).
  destruct (join_flat o c1 z (k + 1) u Ac1 Au) as [Bb _]; [lia |].
  destruct (join_flat o t1 z (1 + Z.max (ht c1) (ht u)) u At1 Au) as [B2 At2]; [lia |].
  eexists. split.
  - eapply bal_double; [done | lia | lia |..];
      first [exact B1 | eapply balances_more; [eassumption | lia]].
  - split; [exact At2 |]. rewrite nd_height. lia.
Qed.

(** Where the outer subtree of the inner one is the higher, the first rotation undoes
    itself. *)
Lemma join_undone n o a x h c1 z c2 y b2 t1 t2 :
  avl a -> avl c1 -> avl c2 -> avl b2 -> (2 <= n)%nat -> let k := ht b2 in
  ht c1 = k - 1 -> ht c2 = k -> ht a <= k ->
  let b1 := nd o c1 z (k + 1) c2 in
  balances n (nd o a x h b1) t1 -> balances n (nd o t1 y (k + 2) b2) t2 ->
  balances (S n) (nd o a x h (nd o b1 y (k + 2) b2)) t2.
Proof.
  intros Aa Ac1 Ac2 Ab2 Hn k Ec1 Ec2 G b1 B1 B2.
  pose proof (avl_height a Aa). pose proof (avl_height c1 Ac1).
  destruct (join_flat o c2 y (k + 2) b2 Ac2 Ab2) as [Bu Au]; [lia |].
  destruct (join_flat o c1 z (1 + Z.max (ht c2) (ht b2)) c2 Ac1 Ac2) as [Bi Ai]; [lia |].
  assert (Bi' : balances 1 (nd o c1 z (k + 1) c2) b1).
  { unfold b1. replace (k + 1) with (1 + Z.max (ht c1) (ht c2)) at 2 by lia. apply join_flat; auto; lia. }
  assert (Ab1 : avl b1).
  { unfold b1. replace (k + 1) with (1 + Z.max (ht c1) (ht c2)) by lia. apply nd_avl; auto; lia. }
  assert (Bo : balances 1 (nd o b1 y (k + 1) b2) (nd o b1 y (k + 2) b2)).
  { replace (k + 2) with (1 + Z.max (ht b1) (ht b2)) by (unfold b1; rewrite nd_height; lia).
    apply join_flat; auto. unfold b1. rewrite nd_height. lia. }
  unfold b1 at 1. eapply (bal_double n o a x h c1 z (k + 1) c2 y (k + 2) b2); [done | lia | lia | .. | exact B1 | exact B2].
  - eapply balances_more; [exact Bu | lia].
  - replace (1 + Z.max (ht c2) (ht b2)) with (k + 1) by lia. eapply balances_more; [| exact Hn].
    apply (bal_single 1 o c1 z (k + 1) c2 y (k + 1) b2 b1); [done | lia | lia | exact Bi' | exact Bo].
Qed.

(** Subtrees whose heights differ by two. *)
Lemma join_two o a x h b :
  avl a -> avl b -> ht b = ht a + 2 -> joins 3 (nd o a x h b) (ht b).
Proof.
  intros Aa Ab E. pose proof (avl_height a Aa) as Pa.
  destruct (avl_inv o b Ab) as (b1 & y & b2 & Eb & Ab1 & Ab2 & Db & Hb); [lia |].
  pose proof (avl_height b1 Ab1). pose proof (avl_height b2 Ab2). rewrite Eb.
  destruct (Z_le_gt_dec (ht b1) (ht b2)) as [L | G].
  { destruct (join_flat o a x h b1 Aa Ab1) as [B1 A1]; [lia |].
    destruct (join_single 1 o a x h b1 y (ht b) b2 _ Aa Ab2 ltac:(lia) ltac:(lia) L ltac:(lia) B1 A1)
      as (t & B & At & Ht); [rewrite nd_height; lia |]. rewrite !nd_height in *.
    exists t. split; [eapply balances_more; [exact B | lia] |]. split; [exact At | lia]. }
  destruct (avl_inv o b1 Ab1) as (c1 & z & c2 & Ec & Ac1 & Ac2 & Dc & Hc); [lia |].
  rewrite nd_height. assert (E1 : ht b1 = ht b2 + 1) by lia. rewrite E1 in Ec.
  assert (E2 : ht b = ht b2 + 2) by lia. rewrite Ec, E2.
  destruct (Z.eq_dec (ht c1) (ht b2)) as [Ec1 | Nc1].
  { destruct (join_flat o a x h c1 Aa Ac1) as [B1 A1]; [lia |].
    destruct (join_double 1 o a x h c1 z c2 y b2 _ Aa Ac1 Ac2 Ab2 ltac:(lia) Ec1 ltac:(lia)
      ltac:(lia) B1 A1) as (t & B & At & Ht); [rewrite nd_height; lia |].
    exists t. split; [eapply balances_more; [exact B | lia] |]. split; [exact At |]. lia. }
  destruct (join_flat o a x h b1 Aa Ab1) as [B1 A1]; [lia |]. rewrite Ec in B1.
  destruct (join_flat (odirmap o) b2 y (ht b2 + 2) c2 Ab2 Ac2) as [B2 A2]; [lia |].
  destruct (join_double 1 (odirmap o) b2 y (ht b2 + 2) c2 z c1 x a _ Ab2 Ac2 Ac1 Aa ltac:(lia)
    ltac:(lia) ltac:(lia) ltac:(lia) B2 A2) as (t & B & At & Ht); [rewrite nd_height; lia |].
  exists t. split; [| split; [exact At | lia]].
  apply (join_undone 2 o a x h c1 z c2 y b2 _ t Aa Ac1 Ac2 Ab2 ltac:(lia) ltac:(lia) ltac:(lia)
    ltac:(lia) (balances_more 1 2 _ _ B1 ltac:(lia))).
  revert B. rewrite nd_height, !(nd_opp (odirmap o)), !odirmap_inv.
  replace (ht a + 1) with (ht b2 + 1) by lia.
  replace (1 + Z.max (ht a) (ht b2 + 1)) with (ht a + 2) by lia. exact id.
Qed.

Lemma join_higher k : forall o a x h b,
  avl a -> avl b -> ht a <= ht b -> ht b <= Z.of_nat k -> joins (k + 4) (nd o a x h b) (ht b).
Proof.
  induction k as [| k IH]; intros o a x h b Aa Ab L K.
  { pose proof (avl_height a Aa). destruct (join_flat o a x h b Aa Ab) as [B At]; [lia |].
    eexists. split; [eapply balances_more; [exact B | lia] |]. split; [exact At |].
    rewrite nd_height. lia. }
  pose proof (avl_height a Aa) as Pa.
  destruct (Z_le_gt_dec (ht b - ht a) 1) as [D1 | D1].
  { destruct (join_flat o a x h b Aa Ab) as [B At]; [lia |].
    eexists. split; [eapply balances_more; [exact B | lia] |]. split; [exact At |].
    rewrite nd_height. lia. }
  destruct (Z.eq_dec (ht b) (ht a + 2)) as [D2 | D2].
  { eapply joins_more; [now apply join_two | lia]. }
  destruct (avl_inv o b Ab) as (b1 & y & b2 & Eb & Ab1 & Ab2 & Db & Hb); [lia |].
  pose proof (avl_height b1 Ab1). pose proof (avl_height b2 Ab2). rewrite Eb, nd_height.
  destruct (Z_le_gt_dec (ht b1) (ht b2)) as [Le | G].
  { destruct (IH o a x h b1 Aa Ab1) as (t1 & B1 & A1 & H1); [lia.. |].
    destruct (join_single (k + 4) o a x h b1 y (ht b) b2 t1 Aa Ab2 ltac:(lia) ltac:(lia) Le
      ltac:(lia) B1 A1) as (t & B & At & Ht); [lia |].
    exists t. split; [exact B |]. split; [exact At | lia]. }
  destruct (avl_inv o b1 Ab1) as (c1 & z & c2 & Ec & Ac1 & Ac2 & Dc & Hc); [lia |].
  assert (E1 : ht b1 = ht b2 + 1) by lia. rewrite E1 in Ec.
  assert (E2 : ht b = ht b2 + 2) by lia. rewrite E2.
  destruct (Z.eq_dec (ht c1) (ht b2)) as [Ec1 | Nc1].
  { destruct (IH o a x h c1 Aa Ac1) as (t1 & B1 & A1 & H1); [lia.. |]. rewrite Ec.
    destruct (join_double (k + 4) o a x h c1 z c2 y b2 t1 Aa Ac1 Ac2 Ab2 ltac:(lia) Ec1 ltac:(lia)
      ltac:(lia) B1 A1) as (t & B & At & Ht); [lia |].
    exists t. split; [exact B |]. split; [exact At | lia]. }
  destruct (IH o a x h b1 Aa Ab1) as (t1 & B1 & A1 & H1); [lia.. |].
  assert (J2 : joins (k + 4) (nd o t1 y (ht b2 + 2) b2) (ht b2 + 2)).
  { destruct (Z.eq_dec (ht t1) (ht b2 + 2)) as [Et | Nt].
    - rewrite <- Et. rewrite nd_opp. eapply joins_more; [now apply join_two | lia].
    - destruct (join_flat o t1 y (ht b2 + 2) b2 A1 Ab2) as [B At]; [lia |].
      eexists. split; [eapply balances_more; [exact B | lia] |]. split; [exact At |].
      rewrite nd_height. lia. }
  destruct J2 as (t & B2 & At & Ht). exists t. split; [| split; [exact At | lia]].
  rewrite Ec in B1 |- *.
  exact (join_undone (k + 4) o a x h c1 z c2 y b2 t1 t Aa Ac1 Ac2 Ab2 ltac:(lia) ltac:(lia)
    ltac:(lia) ltac:(lia) B1 B2).
Qed.

(** With the fuel of [balance_node]. *)
Lemma balance_node_avl l x h r :
  avl l -> avl r -> exists t', balance_node (RAN l x h r) = Some t' /\ avl t'.
Proof.
  intros Al Ar. unfold balance_node, balance_fuel.
  set (k := Z.to_nat (Z.max (ht l) (ht r))). pose proof (avl_height l Al). pose proof (avl_height r Ar).
  assert (J : exists m, joins (k + 4) (RAN l x h r) m).
  { destruct (Z_le_gt_dec (ht l) (ht r)).
    - exists (ht r). apply (join_higher k RD_AVL_LEFT); auto; lia.
    - exists (ht l). apply (join_higher k RD_AVL_RIGHT); auto; lia. }
  destruct J as (m & t & B & At & _). exists t. split; [apply B; lia | exact At].
Qed.

(** Rotations keep the order of the elements. *)
Lemma rotate_inorder bal t dir t' :
  (forall s s', bal s = Some s' -> inorder s' = inorder s) ->
  rd_avl_rotate bal t dir = Some t' -> inorder t' = inorder t.
Proof.
  intros IH E. destruct t as [| l e h r]; [destruct dir; discriminate E |].
  unfold rd_avl_rotate in E. destruct dir; cbn in E.
  - destruct r as [| rl re rh rr]; [discriminate E |]. cbn in E.
    destruct (bal (RAN l e h rl)) as [b |] eqn:Eb; [| discriminate E].
    apply IH in Eb, E. rewrite E. cbn in *. rewrite Eb. now rewrite <- app_assoc.
  - destruct l as [| ll le lh lr]; [discriminate E |]. cbn in E.
    destruct (bal (RAN lr e h r)) as [b |] eqn:Eb; [| discriminate E].
    apply IH in Eb, E. rewrite E. cbn in *. rewrite Eb. now rewrite <- app_assoc.
Qed.

Lemma balance_inorder f : forall t t',
  rd_avl_balance_node f t = Some t' -> inorder t' = inorder t.
Proof.
  induction f as [| f IH]; intros t t' E; [discriminate E |].
  cbn [rd_avl_balance_node] in E. destruct t as [| l e h r]; [discriminate E |].
  cbn [RD_AVL_NODE_DELTA ran_p set_ran_p] in E.
  destruct (_ <? _).
  - destruct (RD_AVL_NODE_DELTA r) as [dr |]; [| discriminate E].
    destruct (dr >? 0); [| exact (rotate_inorder _ _ _ _ IH E)].
    destruct (rd_avl_rotate _ r _) as [r' |] eqn:Er; [| discriminate E].
    apply (rotate_inorder _ _ _ _ IH) in Er, E. rewrite E. cbn. now rewrite Er.
  - destruct (_ >? _); [| now injection E as <-].
    destruct (RD_AVL_NODE_DELTA l) as [dl |]; [| discriminate E].
    destruct (dl <? 0); [| exact (rotate_inorder _ _ _ _ IH E)].
    destruct (rd_avl_rotate _ l _) as [l' |] eqn:El; [| discriminate E].
    apply (rotate_inorder _ _ _ _ IH) in El, E. rewrite E. cbn. now rewrite El.
Qed.

Lemma balance_node_spec l x h r :
  avl l -> avl r -> exists t', balance_node (RAN l x h r) = Some t' /\ avl t' /\
    inorder t' = inorder l ++ x :: inorder r.
Proof.
  intros Al Ar. destruct (balance_node_avl l x h r Al Ar) as (t & E & At).
  exists t. split; [exact E |]. split; [exact At | exact (balance_inorder _ _ _ E)].
Qed.

Lemma move_spec l r :
  avl l -> avl r -> exists t', rd_avl_move l r RD_AVL_RIGHT = Some t' /\ avl t' /\
    inorder t' = inorder l ++ inorder r.
Proof.
  intros Al Ar. induction l as [| ll _ e h lr IH]; [exists r; auto |].
  cbn in Al. destruct Al as (All & Alr & _). destruct (IH Alr) as (t & E & At & It).
  cbn [rd_avl_move]. rewrite E. destruct (balance_node_spec ll e h t All At) as (t' & E' & At' & It').
  exists t'. split; [exact E' |]. split; [exact At' |]. rewrite It', It. cbn. now rewrite <- app_assoc.
Qed.
End Balance.

(** ** Sorted lists *)

Section Order.
Context {A : Type} (cmp : A -> A -> Z) {Cmp : Comparator cmp}.

(** Elements in strict order. *)
Definition sorted_elms (l : list A) : Prop := StronglySorted (fun a b => cmp a b < 0) l.

(** The same operations on the list of the elements. *)
Definition elms_find (elm : A) (l : list A) : option A :=
  head (filter (fun x => cmp elm x = 0) l).
Definition elms_insert (elm : A) (l : list A) : list A :=
  filter (fun x => 0 < cmp elm x) l ++ elm :: filter (fun x => cmp elm x < 0) l.
Definition elms_remove (elm : A) (l : list A) : list A :=
  filter (fun x => cmp elm x <> 0) l.

Lemma cmp_lt_flip a b : cmp a b < 0 <-> 0 < cmp b a.
Proof. pose proof (cmp_flip a b). pose proof (cmp_flip b a). lia. Qed.

Lemma cmp_zero_flip a b : cmp a b = 0 -> cmp b a = 0.
Proof. pose proof (cmp_flip a b). pose proof (cmp_flip b a). lia. Qed.

Lemma cmp_refl a : cmp a a = 0.
Proof. pose proof (cmp_flip a a). lia. Qed.

(** What is below or equal to [a] is below what is above [a]. *)
Lemma cmp_le_lt a b c : cmp a b <= 0 -> cmp b c < 0 -> cmp a c < 0.
Proof.
  intros H1 H2. pose proof (cmp_trans (cmp:=cmp) a b c H1 ltac:(lia)).
  destruct (Z.eq_dec (cmp a c) 0) as [E |]; [| lia].
  pose proof (cmp_flip b c) as F. pose proof (cmp_flip c b) as F'.
  apply cmp_zero_flip in E. pose proof (cmp_trans (cmp:=cmp) c a b ltac:(lia) H1). lia.
Qed.

Lemma cmp_lt_le a b c : cmp a b < 0 -> cmp b c <= 0 -> cmp a c < 0.
Proof.
  intros H1 H2. apply cmp_lt_flip. apply cmp_lt_flip in H1.
  pose proof (cmp_flip b c) as F. pose proof (cmp_flip c b) as F'.
  pose proof (cmp_trans (cmp:=cmp) a b c ltac:(pose proof (cmp_flip a b); pose proof (cmp_flip b a); lia) H2).
  destruct (Z.eq_dec (cmp a c) 0) as [E |]; [| pose proof (cmp_flip a c); pose proof (cmp_flip c a); lia].
  apply cmp_zero_flip in E. pose proof (cmp_trans (cmp:=cmp) b c a H2 ltac:(lia)). lia.
Qed.

Lemma sorted_mid l e r :
  sorted_elms (l ++ e :: r) <->
  sorted_elms l /\ sorted_elms r /\ Forall (fun x => cmp x e < 0) l /\
  Forall (fun x => cmp e x < 0) r.
Proof.
  unfold sorted_elms. induction l as [| x l IH]; cbn.
  - split; [intros S; inversion S; subst; split_and!; auto; constructor |].
    intros (_ & S & _ & F). now constructor.
  - split.
    + intros S. inversion_clear S as [| ? ? S' F]. apply IH in S' as (S1 & S2 & F1 & F2).
      apply list.Forall_app in F as [Fl Fe]. apply list.Forall_cons in Fe as [Fx _].
      split_and!; auto; constructor; auto.
    + intros (S1 & S2 & F1 & F2). inversion_clear S1 as [| ? ? S1' Fx].
      apply list.Forall_cons in F1 as [Hx F1]. constructor; [apply IH; auto |].
      apply list.Forall_app. split; [exact Fx |]. constructor; [exact Hx |].
      eapply list.Forall_impl; [exact F2 |]. cbn. intros y Hy. apply (cmp_lt_le x e); [exact Hx | lia].
Qed.

(** Where [elm] is found, in a sorted list cut at [e]. *)
Lemma below_all elm e l :
  cmp e elm <= 0 -> Forall (fun x => cmp x e < 0) l -> Forall (fun x => 0 < cmp elm x) l.
Proof.
  intros H F. eapply list.Forall_impl; [exact F |]. cbn. intros x Hx. apply cmp_lt_flip.
  now apply (cmp_lt_le x e).
Qed.
Lemma above_all elm e r :
  cmp elm e <= 0 -> Forall (fun x => cmp e x < 0) r -> Forall (fun x => cmp elm x < 0) r.
Proof. intros H F. eapply list.Forall_impl; [exact F |]. cbn. intros x. now apply cmp_le_lt. Qed.

Ltac drop_lists :=
  repeat match goal with
  | F : Forall ?Q ?l |- context [@filter _ _ _ ?P ?D ?l] =>
      first [ rewrite (filter_all P l) by (eapply list.Forall_impl; [exact F | cbn; intros; lia])
            | rewrite (filter_none P l) by (eapply list.Forall_impl; [exact F | cbn; intros; lia]) ]
  end.

Section Cut.
Context (elm e : A) (l r : list A) (S : sorted_elms (l ++ e :: r)).

Lemma cut_eq :
  cmp elm e = 0 ->
  elms_find elm (l ++ e :: r) = Some e /\ elms_insert elm (l ++ e :: r) = l ++ elm :: r /\
  elms_remove elm (l ++ e :: r) = l ++ r.
Proof.
  intros E. apply sorted_mid in S as (_ & _ & Fl & Fr).
  apply (below_all elm) in Fl; [| apply cmp_zero_flip in E; lia].
  apply (above_all elm) in Fr; [| lia].
  unfold elms_find, elms_insert, elms_remove. rewrite !list.filter_app.
  rewrite filter_cons_True, !filter_cons_False by lia. drop_lists.
  split_and!; cbn; now rewrite ?app_nil_r.
Qed.

Lemma cut_lt :
  cmp elm e < 0 ->
  elms_find elm (l ++ e :: r) = elms_find elm l /\
  elms_insert elm (l ++ e :: r) = elms_insert elm l ++ e :: r /\
  elms_remove elm (l ++ e :: r) = elms_remove elm l ++ e :: r.
Proof.
  intros E. apply sorted_mid in S as (_ & _ & Fl & Fr).
  apply (above_all elm) in Fr; [| lia].
  unfold elms_find, elms_insert, elms_remove. rewrite !list.filter_app.
  rewrite !filter_cons_False, !filter_cons_True by lia.
  split_and!; drop_lists; cbn; rewrite ?app_nil_r, <- ?app_assoc; done.
Qed.

Lemma cut_gt :
  0 < cmp elm e ->
  elms_find elm (l ++ e :: r) = elms_find elm r /\
  elms_insert elm (l ++ e :: r) = l ++ e :: elms_insert elm r /\
  elms_remove elm (l ++ e :: r) = l ++ e :: elms_remove elm r.
Proof.
  intros E. apply sorted_mid in S as (_ & _ & Fl & Fr).
  apply (below_all elm) in Fl; [| apply cmp_lt_flip in E; lia].
  unfold elms_find, elms_insert, elms_remove. rewrite !list.filter_app.
  rewrite filter_cons_False, filter_cons_True, filter_cons_False, filter_cons_True by lia.
  split_and!; drop_lists; cbn; rewrite ?app_nil_r, <- ?app_assoc; done.
Qed.
End Cut.

Lemma insert_sorted_elms elm l : sorted_elms l -> sorted_elms (elms_insert elm l).
Proof.
  intros S. apply sorted_mid.
  assert (Sf : forall P `{!forall x, Decision (P x)}, sorted_elms (filter P l)).
  { intros P D. induction S as [| x l S IH F]; [constructor |].
    destruct (decide (P x)); [rewrite filter_cons_True by done | now rewrite filter_cons_False].
    constructor; [exact IH |]. apply list.Forall_forall. intros y [_ Hy]%list_elem_of_filter.
    exact (proj1 (list.Forall_forall _ _) F y Hy). }
  split_and!; auto; apply list.Forall_forall; intros x [Hx _]%list_elem_of_filter;
    [now apply cmp_lt_flip | done].
Qed.

Lemma remove_sorted_elms elm l : sorted_elms l -> sorted_elms (elms_remove elm l).
Proof.
  intros S. unfold elms_remove. induction S as [| x l S IH F]; [constructor |].
  destruct (decide (cmp elm x <> 0)); [rewrite filter_cons_True by done | now rewrite filter_cons_False].
  constructor; [exact IH |]. apply list.Forall_forall. intros y [_ Hy]%list_elem_of_filter.
  exact (proj1 (list.Forall_forall _ _) F y Hy).
Qed.

(** ** The operations on trees *)

Lemma insert_node_spec elm t :
  avl t -> sorted_elms (inorder t) ->
  exists t', rd_avl_insert_node cmp t (RAN RAN_NULL elm 0 RAN_NULL) elm =
      Some (t', elms_find elm (inorder t)) /\
    avl t' /\ inorder t' = elms_insert elm (inorder t).
Proof.
  induction t as [| l IHl e h r IHr]; intros At S.
  { eexists. split; [reflexivity |]. cbn. split_and!; auto; lia. }
  cbn [avl inorder] in *. destruct At as (Al & Ar & D & E).
  pose proof (proj1 (sorted_mid _ _ _) S) as (Sl & Sr & _). cbn [rd_avl_insert_node].
  destruct (Z.eqb_spec (cmp elm e) 0) as [C | C].
  { destruct (cut_eq elm e _ _ S C) as (-> & -> & _). eexists. split; [reflexivity |].
    cbn. split_and!; auto; lia. }
  destruct (Z.ltb_spec (cmp elm e) 0) as [C' | C'].
  - destruct (IHl Al Sl) as (l' & -> & Al' & Il).
    destruct (cut_lt elm e _ _ S C') as (-> & -> & _).
    destruct (balance_node_spec l' e h r Al' Ar) as (t & -> & At & It).
    eexists. split; [reflexivity |]. split; [exact At | now rewrite It, Il].
  - destruct (IHr Ar Sr) as (r' & -> & Ar' & Ir).
    destruct (cut_gt elm e _ _ S ltac:(lia)) as (-> & -> & _).
    destruct (balance_node_spec l e h r' Al Ar') as (t & -> & At & It).
    eexists. split; [reflexivity |]. split; [exact At | now rewrite It, Ir].
Qed.

Lemma remove_elm0_spec elm t :
  avl t -> sorted_elms (inorder t) ->
  exists t', rd_avl_remove_elm0 cmp t elm = Some t' /\
    avl t' /\ inorder t' = elms_remove elm (inorder t).
Proof.
  induction t as [| l IHl e h r IHr]; intros At S; [exists RAN_NULL; auto |].
  cbn [avl inorder] in *. destruct At as (Al & Ar & D & E).
  pose proof (proj1 (sorted_mid _ _ _) S) as (Sl & Sr & _). cbn [rd_avl_remove_elm0].
  destruct (Z.eqb_spec (cmp elm e) 0) as [C | C].
  { destruct (cut_eq elm e _ _ S C) as (_ & _ & ->). apply move_spec; done. }
  destruct (Z.ltb_spec (cmp elm e) 0) as [C' | C'].
  - destruct (IHl Al Sl) as (l' & -> & Al' & Il).
    destruct (cut_lt elm e _ _ S C') as (_ & _ & ->).
    destruct (balance_node_spec l' e h r Al' Ar) as (t & -> & At & It).
    exists t. split; [done |]. split; [exact At | now rewrite It, Il].
  - destruct (IHr Ar Sr) as (r' & -> & Ar' & Ir).
    destruct (cut_gt elm e _ _ S ltac:(lia)) as (_ & _ & ->).
    destruct (balance_node_spec l e h r' Al Ar') as (t & -> & At & It).
    exists t. split; [done |]. split; [exact At | now rewrite It, Ir].
Qed.

Lemma find_spec elm t :
  sorted_elms (inorder t) ->
  rd_avl_find cmp (mk_avl t) elm = elms_find elm (inorder t).
Proof.
  unfold rd_avl_find. cbn [ravl_root]. induction t as [| l IHl e h r IHr]; intros S; [done |].
  cbn [inorder] in *. pose proof (proj1 (sorted_mid _ _ _) S) as (Sl & Sr & _).
  cbn [rd_avl_find_node]. destruct (Z.eqb_spec (cmp elm e) 0) as [C | C].
  { now destruct (cut_eq elm e _ _ S C) as (-> & _). }
  destruct (Z.ltb_spec (cmp elm e) 0) as [C' | C'].
  - destruct (cut_lt elm e _ _ S C') as (-> & _). now apply IHl.
  - destruct (cut_gt elm e _ _ S ltac:(lia)) as (-> & _). now apply IHr.
Qed.

(** ** Sequences of operations *)

Inductive avl_op : Type := OpInsert (elm : A) | OpRemove (elm : A) | OpFind (elm : A).

(** Each operation has a result: the element replaced or found. *)
Definition avl_step (ravl : rd_avl A) (op : avl_op) : option (rd_avl A * option A) :=
  match op with
  | OpInsert elm => rd_avl_insert cmp ravl elm
  | OpRemove elm => let* ravl := rd_avl_remove_elm cmp ravl elm in Some (ravl, None)
  | OpFind elm => Some (ravl, rd_avl_find cmp ravl elm)
  end.
Definition elms_step (l : list A) (op : avl_op) : list A * option A :=
  match op with
  | OpInsert elm => (elms_insert elm l, elms_find elm l)
  | OpRemove elm => (elms_remove elm l, None)
  | OpFind elm => (l, elms_find elm l)
  end.

Fixpoint avl_run (ravl : rd_avl A) (ops : list avl_op) : option (rd_avl A * list (option A)) :=
  match ops with
  | [] => Some (ravl, [])
  | op :: ops =>
      let* (ravl, r) := avl_step ravl op in
      let* (ravl, rs) := avl_run ravl ops in
      Some (ravl, r :: rs)
  end.
Fixpoint elms_run (l : list A) (ops : list avl_op) : list A * list (option A) :=
  match ops with
  | [] => (l, [])
  | op :: ops =>
      let '(l, r) := elms_step l op in
      let '(l, rs) := elms_run l ops in (l, r :: rs)
  end.

Lemma avl_step_refines t op :
  avl t -> sorted_elms (inorder t) ->
  exists t', avl_step (mk_avl t) op = Some (mk_avl t', snd (elms_step (inorder t) op)) /\
    avl t' /\ inorder t' = fst (elms_step (inorder t) op) /\ sorted_elms (inorder t').
Proof.
  intros At S. destruct op as [elm | elm | elm]; cbn [avl_step elms_step fst snd].
  - unfold rd_avl_insert. cbn [ravl_root].
    destruct (insert_node_spec elm t At S) as (t' & -> & At' & It).
    exists t'. split_and!; auto. rewrite It. now apply insert_sorted_elms.
  - unfold rd_avl_remove_elm. cbn [ravl_root].
    destruct (remove_elm0_spec elm t At S) as (t' & -> & At' & It).
    exists t'. split_and!; auto. rewrite It. now apply remove_sorted_elms.
  - exists t. rewrite find_spec by done. auto.
Qed.

Lemma avl_run_refines ops : forall t,
  avl t -> sorted_elms (inorder t) ->
  exists t', avl_run (mk_avl t) ops = Some (mk_avl t', snd (elms_run (inorder t) ops)) /\
    avl t' /\ inorder t' = fst (elms_run (inorder t) ops) /\ sorted_elms (inorder t').
Proof.
  induction ops as [| op ops IH]; intros t At S; [exists t; auto |].
  destruct (avl_step_refines t op At S) as (t1 & E1 & A1 & I1 & S1).
  destruct (IH t1 A1 S1) as (t2 & E2 & A2 & I2 & S2). cbn [avl_run elms_run].
  rewrite E1, E2. exists t2. rewrite I1 in *.
  destruct (elms_step (inorder t) op) as [l r]. cbn [fst snd] in *. destruct (elms_run l ops).
  split_and!; auto.
Qed.

(** ** The depth of a tree *)

Fixpoint depth (t : rd_avl_node A) : Z :=
  match t with RAN_NULL => 0 | RAN l _ _ r => 1 + Z.max (depth l) (depth r) end.

Lemma depth_height (t : rd_avl_node A) : avl t -> RD_AVL_NODE_HEIGHT t <= depth t <= RD_AVL_NODE_HEIGHT t + 1.
Proof.
  induction t as [| l IHl e h r IHr]; cbn; [lia |]. intros (Al & Ar & _ & [-> | (-> & -> & ->)]).
  - specialize (IHl Al). specialize (IHr Ar). lia.
  - cbn. lia.
Qed.

Lemma pow_split a b m :
  0 <= m -> 0 < a -> 0 < b -> 2 ^ (m + 1) <= a * a -> 2 ^ m <= b * b ->
  2 ^ (m + 2) <= (a + b) * (a + b).
Proof.
  intros Hm Pa Pb Ha Hb.
  assert (E1 : 2 ^ (m + 1) = 2 * 2 ^ m) by (rewrite Z.pow_add_r by lia; lia).
  assert (E2 : 2 ^ (m + 2) = 4 * 2 ^ m) by (rewrite Z.pow_add_r by lia; lia).
  rewrite E1 in Ha. rewrite E2. assert (0 < 2 ^ m) by lia. set (p := 2 ^ m) in *.
  assert (p <= a * b) by nia. nia.
Qed.

Lemma avl_size (t : rd_avl_node A) :
  avl t -> 2 ^ RD_AVL_NODE_HEIGHT t <= (zlen (inorder t) + 1) * (zlen (inorder t) + 1).
Proof.
  induction t as [| l IHl e h r IHr]; cbn [avl inorder RD_AVL_NODE_HEIGHT]; [cbn; lia |].
  intros (Al & Ar & D & E). pose proof (avl_height l Al). pose proof (avl_height r Ar).
  rewrite length_app. cbn [length]. specialize (IHl Al). specialize (IHr Ar).
  destruct E as [-> | (-> & _)]; [| cbn; nia].
  set (hl := RD_AVL_NODE_HEIGHT l) in *. set (hr := RD_AVL_NODE_HEIGHT r) in *.
  assert (Mono : forall p q x, 0 <= p <= q -> 2 ^ q <= x -> 2 ^ p <= x).
  { intros p q x Hp Hq. pose proof (Z.pow_le_mono_r 2 p q). lia. }
  replace (Z.of_nat (length (inorder l) + S (length (inorder r))) + 1)
    with ((zlen (inorder l) + 1) + (zlen (inorder r) + 1)) by lia.
  destruct (Z.eq_dec (Z.max hl hr) 0) as [Z0 | Z0]; [rewrite Z0; cbn; nia |].
  destruct (Z_le_gt_dec hr hl).
  - replace (1 + Z.max hl hr) with ((hl - 1) + 2) by lia. apply pow_split; try lia.
    + now replace (hl - 1 + 1) with hl by lia.
    + apply (Mono _ hr); [lia | exact IHr].
  - replace (1 + Z.max hl hr) with ((hr - 1) + 2) by lia. rewrite (Z.add_comm (Z.of_nat (length (inorder l)) + 1)).
    apply pow_split; try lia.
    + now replace (hr - 1 + 1) with hr by lia.
    + apply (Mono _ hl); [lia | exact IHl].
Qed.
End Order.

(** The depths of the subtrees of every node differ by at most [k]. *)
Fixpoint spread {A} (k : Z) (t : rd_avl_node A) : Prop :=
  match t with
  | RAN_NULL => True
  | RAN l _ _ r => spread k l /\ spread k r /\ - k <= depth l - depth r <= k
  end.

Lemma avl_spread {A} (t : rd_avl_node A) : avl t -> spread 2 t.
Proof.
  induction t as [| l IHl e h r IHr]; cbn; [done |]. intros (Al & Ar & D & _).
  split_and!; auto; pose proof (depth_height l Al); pose proof (depth_height r Ar); lia.
Qed.

(** C32. Whatever elements are inserted, removed and searched for, in whatever order,
    the tree answers as the sorted list of its elements does, an element replacing the
    one that compares equal; no operation reads through a null pointer or rotates
    without end; and the tree stays sorted and, in terms of the heights it stores,
    balanced. *)
Theorem avl_refines_sorted_list {A} (cmp : A -> A -> Z) (ops : list (avl_op (A:=A)))
  (Hcmp : Comparator cmp) :
  exists t, avl_run cmp rd_avl_init ops = Some (mk_avl t, snd (elms_run cmp [] ops)) /\
    inorder t = fst (elms_run cmp [] ops) /\ sorted_elms cmp (inorder t) /\ avl t.
Proof.
  destruct (avl_run_refines cmp ops RAN_NULL) as (t & E & At & It & St); [exact I | constructor |].
  exists t. auto.
Qed.

Lemma avl_refines_sorted_list_witness :
  let ops := map OpInsert [5; 2; 8; 1; 9; 3; 7] ++ [OpRemove 5; OpFind 8; OpInsert 2; OpFind 5] in
  exists t, avl_run RD_CMP rd_avl_init ops = Some (mk_avl t, snd (elms_run RD_CMP [] ops)) /\
    inorder t = [1; 2; 3; 7; 8; 9] /\
    snd (elms_run RD_CMP [] ops) = replicate 8 None ++ [Some 8; Some 2; None].
Proof.
  intros ops. destruct (avl_refines_sorted_list RD_CMP ops _) as (t & E & It & _).
  exists t. split; [exact E |]. split; [rewrite It; vm_compute; reflexivity | vm_compute; reflexivity].
Defined.

(** The depth of a tree of [n] elements is at most one more than twice the
    logarithm of [n + 1], and the depths of the subtrees of a node differ by at most
    two: a new node's height is left at 0, like that of no node at all, so that the
    difference of one that the code keeps between the heights it stores (its
    [RD_DELTA_MAX]) lets the depths differ by two. *)
Lemma avl_depth_bound {A} (cmp : A -> A -> Z) (ops : list (avl_op (A:=A)))
  (t : rd_avl_node A) (results : list (option A)) (Hcmp : Comparator cmp)
  (Hrun : avl_run cmp rd_avl_init ops = Some (mk_avl t, results)) :
  2 ^ (depth t - 1) <= (zlen (inorder t) + 1) ^ 2 /\ spread 2 t.
Proof.
  destruct (avl_run_refines cmp ops RAN_NULL) as (t' & E & At & _); [exact I | constructor |].
  assert (t' = t) as -> by (unfold rd_avl_init in Hrun; congruence).
  split; [| now apply avl_spread]. pose proof (avl_size t At) as Hs. pose proof (depth_height t At).
  pose proof (avl_height t At). rewrite Z.pow_2_r.
  pose proof (Z.pow_le_mono_r 2 (depth t - 1) (RD_AVL_NODE_HEIGHT t)). lia.
Qed.

(** Three insertions make a chain. *)
Lemma avl_depth_bound_witness :
  let t := RAN RAN_NULL 1 2 (RAN RAN_NULL 2 1 (RAN RAN_NULL 3 0 RAN_NULL)) in
  2 ^ (depth t - 1) <= (zlen (inorder t) + 1) ^ 2 /\ spread 2 t /\ ~ spread 1 t.
Proof.
  intros t.
  destruct (avl_depth_bound RD_CMP (map OpInsert [1; 2; 3]) t [None; None; None] _) as [D S];
    [vm_compute; reflexivity |].
  split; [exact D |]. split; [exact S |]. vm_compute. intros (_ & _ & H & _). now apply H.
Defined.
