(* ===== verification/Timer.v ===== *)
(** * Timers (src/cbits/hs_rdkafka_timer.h, hs_rdkafka_timer.c)

    [rd_kafka_timers_t]: the list of the scheduled timers, in the order of their next
    firing, and the loop that fires them.  A timer is embedded in the object it belongs
    to; here it is its identity, and [rkts_tmrs] is that memory.  Times are microseconds
    since the machine was started, far from the ends of 64 bits.  The clock is read
    several times in an operation: [rd_clock n] is what the [n]th reading returns. *)

From stdpp Require Import gmap list.
From S2P Require Import Prelude Msgq.

(** A callback is known by a number; what it is given is [rtmr_arg]. *)
Record rd_kafka_timer := mk_timer {
  rtmr_next : Z;
  rtmr_interval : Z;
  rtmr_oneshot : bool;
  rtmr_callback : nat;
  rtmr_arg : nat }.

(** As zeroed memory. *)
Definition rtmr_zero : rd_kafka_timer := mk_timer 0 0 false 0 0.

Record rd_kafka_timers := mk_timers {
  rkts_timers : list nat;
  rkts_tmrs : gmap nat rd_kafka_timer;
  rkts_enabled : bool;
  rkts_clock : nat }.

Definition tmr (rkts : rd_kafka_timers) (p : nat) : rd_kafka_timer :=
  default rtmr_zero (rkts_tmrs rkts !! p).
Definition set_tmr (rkts : rd_kafka_timers) (p : nat) (t : rd_kafka_timer) : rd_kafka_timers :=
  mk_timers (rkts_timers rkts) (<[p := t]> (rkts_tmrs rkts)) (rkts_enabled rkts) (rkts_clock rkts).
Definition set_queue (rkts : rd_kafka_timers) (l : list nat) : rd_kafka_timers :=
  mk_timers l (rkts_tmrs rkts) (rkts_enabled rkts) (rkts_clock rkts).

Definition set_next (rkts : rd_kafka_timers) (p : nat) (next : Z) : rd_kafka_timers :=
  let t := tmr rkts p in
  set_tmr rkts p (mk_timer next (rtmr_interval t) (rtmr_oneshot t) (rtmr_callback t) (rtmr_arg t)).
Definition set_interval (rkts : rd_kafka_timers) (p : nat) (interval : Z) : rd_kafka_timers :=
  let t := tmr rkts p in
  set_tmr rkts p (mk_timer (rtmr_next t) interval (rtmr_oneshot t) (rtmr_callback t) (rtmr_arg t)).

Definition rd_kafka_timer_started (t : rd_kafka_timer) : bool := negb (rtmr_interval t =? 0).
Definition rd_kafka_timer_scheduled (t : rd_kafka_timer) : bool := negb (rtmr_next t =? 0).
Definition rd_kafka_timer_cmp (a b : rd_kafka_timer) : Z := RD_CMP (rtmr_next a) (rtmr_next b).

(** [TAILQ_REMOVE] *)
Fixpoint tailq_remove (p : nat) (l : list nat) : list nat :=
  match l with
  | [] => []
  | x :: l => if decide (x = p) then l else x :: tailq_remove p l
  end.

Definition rd_kafka_timer_unschedule (rkts : rd_kafka_timers) (p : nat) : rd_kafka_timers :=
  set_next (set_queue rkts (tailq_remove p (rkts_timers rkts))) p 0.

(** [TAILQ_INSERT_SORTED] *)
Fixpoint insert_timer (rkts : rd_kafka_timers) (p : nat) (l : list nat) : list nat :=
  match l with
  | [] => [p]
  | x :: l =>
      if rd_kafka_timer_cmp (tmr rkts p) (tmr rkts x) <? 0 then p :: x :: l
      else x :: insert_timer rkts p l
  end.

Definition rd_kafka_timer_schedule_next (rkts : rd_kafka_timers) (p : nat) (abs_time : Z)
  : rd_kafka_timers :=
  let rkts := set_next rkts p abs_time in
  match rkts_timers rkts with
  | [] => set_queue rkts [p]
  | first :: _ =>
      if rtmr_next (tmr rkts first) >? rtmr_next (tmr rkts p)
      then set_queue rkts (p :: rkts_timers rkts)
      else set_queue rkts (insert_timer rkts p (rkts_timers rkts))
  end.

(** The return value, and the timers. *)
Definition rd_kafka_timer_stop (rkts : rd_kafka_timers) (p : nat) : Z * rd_kafka_timers :=
  if negb (rd_kafka_timer_started (tmr rkts p)) then (0, rkts)
  else
    let rkts := if rd_kafka_timer_scheduled (tmr rkts p)
                then rd_kafka_timer_unschedule rkts p else rkts in
    (1, set_interval rkts p 0).

Definition rd_kafka_timer_is_started (rkts : rd_kafka_timers) (p : nat) : bool :=
  negb (rtmr_interval (tmr rkts p) =? 0).

Section Clock.
Context (rd_clock : nat -> Z).

(** One reading of the clock. *)
Definition clock (rkts : rd_kafka_timers) : Z * rd_kafka_timers :=
  (rd_clock (rkts_clock rkts),
   mk_timers (rkts_timers rkts) (rkts_tmrs rkts) (rkts_enabled rkts) (S (rkts_clock rkts))).

Definition rd_kafka_timer_schedule (rkts : rd_kafka_timers) (p : nat) (extra_us : Z)
  : rd_kafka_timers :=
  if rtmr_interval (tmr rkts p) =? 0 then rkts
  else if negb (rkts_enabled rkts) then rkts
  else
    let '(now, rkts) := clock rkts in
    rd_kafka_timer_schedule_next rkts p (now + rtmr_interval (tmr rkts p) + extra_us).

Definition rd_kafka_timer_start0 (rkts : rd_kafka_timers) (p : nat) (interval : Z)
  (oneshot restart : bool) (callback arg : nat) : rd_kafka_timers :=
  if negb restart && rd_kafka_timer_scheduled (tmr rkts p) then rkts
  else
    let '(_, rkts) := rd_kafka_timer_stop rkts p in
    let rkts := set_tmr rkts p
      (mk_timer (rtmr_next (tmr rkts p)) (if interval =? 0 then 1 else interval) oneshot
         callback arg) in
    rd_kafka_timer_schedule rkts p 0.

(** The interval of 64 bits is taken not to overflow, as all times are. *)
Definition rd_kafka_timer_exp_backoff (rkts : rd_kafka_timers) (p : nat) : rd_kafka_timers :=
  let rkts :=
    if rd_kafka_timer_scheduled (tmr rkts p) then
      rd_kafka_timer_unschedule (set_interval rkts p (rtmr_interval (tmr rkts p) * 2)) p
    else rkts in
  rd_kafka_timer_schedule rkts p 0.

Definition rd_kafka_timer_override_once (rkts : rd_kafka_timers) (p : nat) (interval : Z)
  : rd_kafka_timers :=
  let rkts := if rd_kafka_timer_scheduled (tmr rkts p)
              then rd_kafka_timer_unschedule rkts p else rkts in
  let '(now, rkts) := clock rkts in
  rd_kafka_timer_schedule_next rkts p (now + interval).

Definition rd_kafka_timer_next (rkts : rd_kafka_timers) (p : nat) : Z * rd_kafka_timers :=
  let '(now, rkts) := clock rkts in
  (if rd_kafka_timer_scheduled (tmr rkts p) then
     let delta := rtmr_next (tmr rkts p) - now in
     if delta <? 0 then 0 else delta
   else -1, rkts).

Definition rd_kafka_timers_next (rkts : rd_kafka_timers) (timeout_us : Z)
  : Z * rd_kafka_timers :=
  let '(now, rkts) := clock rkts in
  (match rkts_timers rkts with
   | p :: _ =>
       let sleeptime := rtmr_next (tmr rkts p) - now in
       if sleeptime <? 0 then 0
       else if sleeptime >? timeout_us then timeout_us
       else sleeptime
   | [] => timeout_us
   end, rkts).

(** ** Firing *)

(** What a callback does to the timers. *)
Inductive timer_op : Type :=
  | TStart (p : nat) (interval : Z) (oneshot restart : bool) (callback arg : nat)
  | TStop (p : nat)
  | TBackoff (p : nat)
  | TOverride (p : nat) (interval : Z).

Definition timer_step (rkts : rd_kafka_timers) (op : timer_op) : rd_kafka_timers :=
  match op with
  | TStart p interval oneshot restart callback arg =>
      rd_kafka_timer_start0 rkts p interval oneshot restart callback arg
  | TStop p => snd (rd_kafka_timer_stop rkts p)
  | TBackoff p => rd_kafka_timer_exp_backoff rkts p
  | TOverride p interval => rd_kafka_timer_override_once rkts p interval
  end.

Context (callback : nat -> nat -> rd_kafka_timers -> list timer_op).

(** One round of the inner loop: the timer [p], which is the first and due. *)
Definition fire (rkts : rd_kafka_timers) (p : nat) : rd_kafka_timers :=
  let rkts := rd_kafka_timer_unschedule rkts p in
  let rkts := if rtmr_oneshot (tmr rkts p) then set_interval rkts p 0 else rkts in
  let rkts := foldl timer_step rkts
                (callback (rtmr_callback (tmr rkts p)) (rtmr_arg (tmr rkts p)) rkts) in
  if rd_kafka_timer_started (tmr rkts p) && negb (rd_kafka_timer_scheduled (tmr rkts p))
  then rd_kafka_timer_schedule rkts p 0 else rkts.

(** The inner loop, with the timers it fired. *)
Fixpoint timers_run_loop (fuel : nat) (rkts : rd_kafka_timers) (now : Z)
  : option (rd_kafka_timers * list nat) :=
  match rkts_timers rkts with
  | [] => Some (rkts, [])
  | p :: _ =>
      if rtmr_next (tmr rkts p) <=? now then
        match fuel with
        | O => None
        | S fuel =>
            let* (rkts, fired) := timers_run_loop fuel (fire rkts p) now in
            Some (rkts, p :: fired)
        end
      else Some (rkts, [])
  end.

(** With [RD_POLL_NOWAIT], the only time-out it is called with: the outer loop is left
    after one round. *)
Definition rd_kafka_timers_run (fuel : nat) (rkts : rd_kafka_timers) (terminating : bool)
  : option (rd_kafka_timers * list nat) :=
  let '(now, rkts) := clock rkts in
  if terminating then Some (rkts, [])
  else
    let '(now, rkts) := clock rkts in
    timers_run_loop fuel rkts now.

Fixpoint timers_destroy_loop (fuel : nat) (rkts : rd_kafka_timers) : option rd_kafka_timers :=
  match rkts_timers rkts with
  | [] => Some rkts
  | p :: _ =>
      match fuel with
      | O => None
      | S fuel => timers_destroy_loop fuel (snd (rd_kafka_timer_stop rkts p))
      end
  end.

Definition rd_kafka_timers_destroy (fuel : nat) (rkts : rd_kafka_timers)
  : option rd_kafka_timers :=
  timers_destroy_loop fuel
    (mk_timers (rkts_timers rkts) (rkts_tmrs rkts) false (rkts_clock rkts)).
End Clock.

(** The timers of a client that was just made, over the memory they are in. *)
Definition rd_kafka_timers_init (tmrs : gmap nat rd_kafka_timer) : rd_kafka_timers :=
  mk_timers [] tmrs true 0.
