(* ===== verification/TimerProps.v ===== *)
(** * Properties of the timers

    The list of timers holds the scheduled ones, once each, in the order of their next
    firing; running the timers ends and fires what is due; destruction ends, except when
    a timer that was not started was given a firing time. *)

From stdpp Require Import gmap list sorting.
From S2P Require Import Prelude Msgq MsgqFacts Timer.

Implicit Types (s : rd_kafka_timers) (p q : nat) (l : list nat) (now : Z).

(** The timer [p] of a queue. *)
Abbreviation next s p := (rtmr_next (tmr s p)).
Abbreviation interval s p := (rtmr_interval (tmr s p)).

Definition by_next s : list nat -> Prop := StronglySorted (fun a b => next s a <= next s b).

Record timers_inv s : Prop := {
  ti_sorted : by_next s (rkts_timers s);
  ti_nodup : NoDup (rkts_timers s);
  ti_sched : forall p, p ∈ rkts_timers s <-> next s p <> 0;
  ti_started : forall p, p ∈ rkts_timers s -> 0 < interval s p;
  ti_interval : forall p, 0 <= interval s p }.

(** The timers to fire at [now], in the order of the queue. *)
Definition due (now : Z) s : list nat :=
  filter (fun p => next s p <= now) (rkts_timers s).

(** ** The memory of timers *)

Lemma tmr_set_eq s p t : tmr (set_tmr s p t) p = t.
Proof. unfold tmr, set_tmr. cbn. now rewrite lookup_insert_eq. Qed.

Lemma tmr_set_ne s p q t : q <> p -> tmr (set_tmr s p t) q = tmr s q.
Proof. intros. unfold tmr, set_tmr. cbn. now rewrite lookup_insert_ne by congruence. Qed.

Lemma tmr_next_eq s p n :
  tmr (set_next s p n) p =
  mk_timer n (interval s p) (rtmr_oneshot (tmr s p)) (rtmr_callback (tmr s p)) (rtmr_arg (tmr s p)).
Proof. apply tmr_set_eq. Qed.

Lemma tmr_next_ne s p q n : q <> p -> tmr (set_next s p n) q = tmr s q.
Proof. apply tmr_set_ne. Qed.

Lemma tmr_interval_eq s p i :
  tmr (set_interval s p i) p =
  mk_timer (next s p) i (rtmr_oneshot (tmr s p)) (rtmr_callback (tmr s p)) (rtmr_arg (tmr s p)).
Proof. apply tmr_set_eq. Qed.

Lemma by_next_ext s s' l :
  (forall q, q ∈ l -> next s' q = next s q) -> by_next s l -> by_next s' l.
Proof.
  unfold by_next. intros E. induction 1 as [| a l Hs IH Ha]; constructor.
  - apply IH. intros. apply E. rewrite elem_of_cons. auto.
  - rewrite list.Forall_forall in *. intros q Hq.
    rewrite !E by (rewrite elem_of_cons; auto). now apply Ha.
Qed.

Lemma filter_due_ext s s' now l :
  (forall q, q ∈ l -> next s' q = next s q) ->
  filter (fun p => next s' p <= now) l = filter (fun p => next s p <= now) l.
Proof.
  intros E. induction l as [| a l IH]; [reflexivity |]. rewrite !filter_cons.
  rewrite E by (rewrite elem_of_cons; auto).
  rewrite IH by (intros; apply E; rewrite elem_of_cons; auto). reflexivity.
Qed.

(** ** Removing and inserting *)

Lemma tailq_remove_filter p l : NoDup l -> tailq_remove p l = filter (fun q => q <> p) l.
Proof.
  induction 1 as [| x l Hx Hl IH]; [reflexivity |]. cbn [tailq_remove].
  rewrite filter_cons. destruct (decide (x = p)) as [-> | N].
  - rewrite decide_False by auto. symmetry. clear IH. induction l as [| y l IH]; [reflexivity |].
    rewrite elem_of_cons in Hx. rewrite filter_cons, decide_True by (intros ->; tauto).
    f_equal. apply IH; [tauto | now inversion Hl].
  - rewrite decide_True by auto. now f_equal.
Qed.

Lemma tailq_remove_head p l : tailq_remove p (p :: l) = l.
Proof. cbn [tailq_remove]. now rewrite decide_True. Qed.

Lemma by_next_filter s (P : nat -> Prop) `{forall x, Decision (P x)} l :
  by_next s l -> by_next s (filter P l).
Proof.
  unfold by_next. induction 1 as [| a l Hs IH Ha]; [constructor |].
  rewrite filter_cons. case_decide; [| assumption]. constructor; [assumption |].
  rewrite list.Forall_forall in *. intros q Hq. apply list_elem_of_filter in Hq as [_ Hq]. auto.
Qed.

(** Where a timer goes: behind those that fire at the same time. *)
Lemma insert_timer_split s p l :
  by_next s l ->
  exists l1 l2, l = l1 ++ l2 /\ insert_timer s p l = l1 ++ p :: l2 /\
    Forall (fun q => next s q <= next s p) l1 /\ Forall (fun q => next s p < next s q) l2.
Proof.
  induction 1 as [| x l Hs (l1 & l2 & -> & E & F1 & F2) Hx].
  - exists [], []. cbn. auto.
  - cbn [insert_timer]. unfold rd_kafka_timer_cmp. rewrite RD_CMP_lt.
    destruct (Z.ltb_spec (next s p) (next s x)) as [H | H].
    + exists [], (x :: l1 ++ l2). cbn. split; [reflexivity |]. split; [reflexivity |].
      split; [constructor |]. constructor; [assumption |].
      eapply list.Forall_impl; [exact Hx |]. cbn. lia.
    + exists (x :: l1), l2. rewrite E. cbn. auto.
Qed.

Lemma schedule_next_split s p t :
  by_next (set_next s p t) (rkts_timers s) ->
  exists l1 l2, rkts_timers s = l1 ++ l2 /\
    rd_kafka_timer_schedule_next s p t = set_queue (set_next s p t) (l1 ++ p :: l2) /\
    Forall (fun q => next (set_next s p t) q <= t) l1 /\
    Forall (fun q => t < next (set_next s p t) q) l2.
Proof.
  intros Hs. unfold rd_kafka_timer_schedule_next. set (s1 := set_next s p t) in *.
  assert (next s1 p = t) as Ep by (unfold s1; now rewrite tmr_next_eq).
  change (rkts_timers s1) with (rkts_timers s).
  destruct (rkts_timers s) as [| f l] eqn:E; [exists [], []; cbn; auto |].
  rewrite Ep, Z.gtb_ltb. destruct (Z.ltb_spec t (next s1 f)) as [H | H].
  - exists [], (f :: l). split; [reflexivity |]. split; [reflexivity |]. split; [constructor |].
    apply StronglySorted_inv in Hs as [Hs1 Hf]. constructor; [assumption |].
    eapply list.Forall_impl; [exact Hf |]. cbn. lia.
  - destruct (insert_timer_split s1 p (f :: l) Hs) as (l1 & l2 & E1 & E2 & F1 & F2).
    rewrite Ep in F1, F2. exists l1, l2. rewrite E2. auto.
Qed.

(** ** The two changes of the queue *)

Lemma unschedule_inv s p : timers_inv s -> timers_inv (rd_kafka_timer_unschedule s p).
Proof.
  intros [Hs Hn Hc Ht Hi]. unfold rd_kafka_timer_unschedule.
  set (s1 := set_queue s (tailq_remove p (rkts_timers s))).
  assert (rkts_timers (set_next s1 p 0) = filter (fun q => q <> p) (rkts_timers s)) as EL.
  { cbn. now apply tailq_remove_filter. }
  assert (forall q, q <> p -> tmr (set_next s1 p 0) q = tmr s q) as EN
    by (intros q Hq; rewrite tmr_next_ne by assumption; reflexivity).
  assert (tmr (set_next s1 p 0) p = mk_timer 0 (interval s p) (rtmr_oneshot (tmr s p))
            (rtmr_callback (tmr s p)) (rtmr_arg (tmr s p))) as EP by apply (tmr_next_eq s1).
  split; rewrite ?EL.
  - apply by_next_ext with s; [| now apply by_next_filter].
    intros q Hq. apply list_elem_of_filter in Hq as [Hq _]. now rewrite EN.
  - now apply list.NoDup_filter.
  - intros q. rewrite list_elem_of_filter. destruct (decide (q = p)) as [-> | N].
    + rewrite EP. cbn. tauto.
    + rewrite EN, Hc by assumption. tauto.
  - intros q Hq. apply list_elem_of_filter in Hq as [N Hq]. rewrite EN by assumption. auto.
  - intros q. destruct (decide (q = p)) as [-> | N]; [rewrite EP; cbn; apply Hi |].
    rewrite EN by assumption. auto.
Qed.

Lemma unschedule_tmr s p q : q <> p -> tmr (rd_kafka_timer_unschedule s p) q = tmr s q.
Proof. intros. unfold rd_kafka_timer_unschedule. now rewrite tmr_next_ne. Qed.

Lemma unschedule_next0 s p : next (rd_kafka_timer_unschedule s p) p = 0.
Proof. unfold rd_kafka_timer_unschedule. now rewrite tmr_next_eq. Qed.

Lemma unschedule_interval s p : interval (rd_kafka_timer_unschedule s p) p = interval s p.
Proof. unfold rd_kafka_timer_unschedule. now rewrite tmr_next_eq. Qed.

Lemma unschedule_due now s p :
  timers_inv s ->
  due now (rd_kafka_timer_unschedule s p) = filter (fun q => q <> p) (due now s).
Proof.
  intros [_ Hn _ _ _]. unfold due.
  change (rkts_timers (rd_kafka_timer_unschedule s p)) with (tailq_remove p (rkts_timers s)).
  rewrite tailq_remove_filter by assumption.
  rewrite (filter_due_ext s).
  - rewrite !list_filter_filter. apply list_filter_iff. intros x. tauto.
  - intros q Hq. apply list_elem_of_filter in Hq as [Hq _]. now rewrite unschedule_tmr.
Qed.

(** Scheduling a timer that is not scheduled. *)
Lemma schedule_next_inv s p t :
  timers_inv s -> next s p = 0 -> 0 < interval s p -> t <> 0 ->
  timers_inv (rd_kafka_timer_schedule_next s p t) /\
  (forall q, q <> p -> tmr (rd_kafka_timer_schedule_next s p t) q = tmr s q) /\
  interval (rd_kafka_timer_schedule_next s p t) p = interval s p /\
  (forall now, now < t -> due now (rd_kafka_timer_schedule_next s p t) = due now s).
Proof.
  intros [Hs Hn Hc Ht Hi] Hp Hpi Ht0.
  assert (p ∉ rkts_timers s) as Np by (rewrite Hc; lia).
  set (s1 := set_next s p t).
  assert (forall q, q <> p -> tmr s1 q = tmr s q) as EN by (intros; now apply tmr_next_ne).
  assert (next s1 p = t) as EP by (unfold s1; now rewrite tmr_next_eq).
  assert (interval s1 p = interval s p) as EI by (unfold s1; now rewrite tmr_next_eq).
  assert (forall q, q ∈ rkts_timers s -> tmr s1 q = tmr s q) as EL
    by (intros q Hq; apply EN; congruence).
  destruct (schedule_next_split s p t) as (l1 & l2 & E & -> & F1 & F2);
    [apply by_next_ext with s; [intros q Hq; now rewrite EL | assumption] |]. fold s1 in F1, F2 |- *.
  change (tmr (set_queue s1 (l1 ++ p :: l2))) with (tmr s1).
  assert (forall q, q ∈ l1 ++ p :: l2 <-> q = p \/ q ∈ rkts_timers s) as Hel
    by (intros q; rewrite E, !elem_of_app, elem_of_cons; tauto).
  split; [split | split; [| split]]; cbn [rkts_timers set_queue].
  - apply by_next_ext with s1; [reflexivity |].
    assert (by_next s1 (l1 ++ l2)) as Hs1 by (rewrite <- E; apply by_next_ext with s;
      [intros q Hq; now rewrite EL | assumption]).
    unfold by_next in *. apply StronglySorted_app in Hs1 as (H12 & Hl1 & Hl2).
    apply StronglySorted_app. split; [| split; [assumption |]].
    + intros a b Ha [-> | Hb]%elem_of_cons; [| now apply H12].
      rewrite list.Forall_forall in F1. rewrite EP. now apply F1.
    + constructor; [assumption |]. rewrite EP. eapply list.Forall_impl; [exact F2 |]. cbn. lia.
  - rewrite E in Hn, Np. apply list.NoDup_app in Hn as (N1 & N12 & N2). rewrite elem_of_app in Np.
    apply list.NoDup_app. split; [assumption |]. split; [| apply list.NoDup_cons; tauto].
    intros x Hx. rewrite elem_of_cons. intros [-> | Hx2]; [tauto | now apply (N12 x)].
  - intros q. rewrite Hel. change (next (set_queue s1 (l1 ++ p :: l2)) q) with (next s1 q).
    destruct (decide (q = p)) as [-> | N]; [rewrite EP; tauto |]. rewrite EN, Hc by assumption. tauto.
  - intros q. rewrite Hel. change (interval (set_queue s1 (l1 ++ p :: l2)) q) with (interval s1 q).
    intros [-> | Hq]; [lia |]. rewrite EL by assumption. auto.
  - intros q. change (interval (set_queue s1 (l1 ++ p :: l2)) q) with (interval s1 q).
    destruct (decide (q = p)) as [-> | N]; [rewrite EI; apply Hi |]. rewrite EN by assumption. apply Hi.
  - assumption.
  - assumption.
  - intros now Hnow. unfold due. cbn [rkts_timers set_queue].
    change (tmr (set_queue s1 (l1 ++ p :: l2))) with (tmr s1).
    rewrite <- (filter_due_ext s s1 now (rkts_timers s)) by (intros q Hq; now rewrite EL).
    change (tmr (set_queue s1 (l1 ++ p :: l2))) with (tmr s1).
    rewrite E, !list.filter_app, filter_cons, decide_False by lia. reflexivity.
Qed.

(** ** Operations *)

Definition op_timer (op : timer_op) : nat :=
  match op with TStart p _ _ _ _ _ | TStop p | TBackoff p | TOverride p _ => p end.

(** What the callers keep to: no negative interval, and only a timer that was started
    is given another time. *)
Definition op_ok s (op : timer_op) : Prop :=
  match op with
  | TStart _ i _ _ _ _ => 0 <= i
  | TOverride p i => 0 < i /\ 0 < interval s p
  | TStop _ | TBackoff _ => True
  end.

Section Clock.
Context (rd_clock : nat -> Z).

(** The machine's clock was started before now and does not go back. *)
Class MonotonicClock : Prop := {
  clock_pos : forall n, 0 < rd_clock n;
  clock_mono : forall n m, (n <= m)%nat -> rd_clock n <= rd_clock m }.

Context `{Hclock : !MonotonicClock}.

(** From [s] to [s'] the queue stays well-formed, nothing becomes due at [now], an
    instant past, and only the timers of [T] change. *)
Record tstep (now : Z) (T : nat -> Prop) s s' : Prop := {
  ts_inv : timers_inv s';
  ts_clock : (rkts_clock s <= rkts_clock s')%nat;
  ts_enabled : rkts_enabled s' = rkts_enabled s;
  ts_due : sublist (due now s') (due now s);
  ts_frame : forall q, ~ T q -> tmr s' q = tmr s q }.

Lemma tstep_refl now T s : timers_inv s -> tstep now T s s.
Proof. split; auto. Qed.

Lemma tstep_trans now T s1 s2 s3 : tstep now T s1 s2 -> tstep now T s2 s3 -> tstep now T s1 s3.
Proof.
  intros [A1 A2 A3 A4 A5] [B1 B2 B3 B4 B5]. split; [assumption | lia | congruence | |].
  - now transitivity (due now s2).
  - intros q Hq. rewrite B5, A5; auto.
Qed.

Lemma tstep_weaken now (T T' : nat -> Prop) s s' :
  (forall q, T q -> T' q) -> tstep now T s s' -> tstep now T' s s'.
Proof. intros H [A1 A2 A3 A4 A5]. split; auto. Qed.

(** Changing what does not decide the place of a timer. *)
Lemma set_tmr_step now s p t :
  timers_inv s -> rtmr_next t = next s p -> 0 <= rtmr_interval t ->
  (next s p = 0 \/ 0 < rtmr_interval t) -> tstep now (eq p) s (set_tmr s p t).
Proof.
  intros [Hs Hn Hc Ht Hi] En Ei Hp.
  assert (forall q, next (set_tmr s p t) q = next s q) as EN
    by (intros q; destruct (decide (q = p)) as [-> |]; [rewrite tmr_set_eq | rewrite tmr_set_ne]; auto).
  assert (forall q, q <> p -> tmr (set_tmr s p t) q = tmr s q) as EF by (intros; now apply tmr_set_ne).
  split; [split | | | |]; try (cbn; lia || reflexivity || assumption).
  - apply by_next_ext with s; auto.
  - intros q. rewrite EN. apply Hc.
  - intros q Hq. destruct (decide (q = p)) as [-> | N]; [| rewrite EF by assumption; now apply Ht].
    rewrite tmr_set_eq. destruct Hp as [Hp |]; [| assumption]. now apply Hc in Hq.
  - intros q. destruct (decide (q = p)) as [-> | N]; [now rewrite tmr_set_eq | now rewrite EF].
  - unfold due. rewrite (filter_due_ext s) by (intros; apply EN). reflexivity.
  - intros q Hq. apply EF. congruence.
Qed.

Lemma set_interval_step now s p i :
  timers_inv s -> 0 <= i -> (next s p = 0 \/ 0 < i) -> tstep now (eq p) s (set_interval s p i).
Proof. intros. now apply set_tmr_step. Qed.

Lemma unschedule_step now s p :
  timers_inv s -> tstep now (eq p) s (rd_kafka_timer_unschedule s p).
Proof.
  intros. split; [now apply unschedule_inv | reflexivity | reflexivity | |].
  - rewrite unschedule_due by assumption. apply sublist_filter.
  - intros q Hq. apply unschedule_tmr. congruence.
Qed.

Lemma schedule_abs_step now s p i :
  timers_inv s -> next s p = 0 -> 0 < interval s p -> 0 < i -> now <= rd_clock (rkts_clock s) ->
  let '(t, s') := clock rd_clock s in tstep now (eq p) s (rd_kafka_timer_schedule_next s' p (t + i)).
Proof.
  intros Hinv Hn Hp Hi Hnow. cbn. pose proof (clock_pos (rkts_clock s)).
  set (s' := mk_timers _ _ _ _).
  destruct (schedule_next_inv s' p (rd_clock (rkts_clock s) + i)) as (H1 & H2 & H3 & H4);
    [destruct Hinv; split; assumption | assumption | assumption | lia |].
  split; [assumption | | | |].
  - unfold rd_kafka_timer_schedule_next. repeat case_match; cbn; lia.
  - unfold rd_kafka_timer_schedule_next. repeat case_match; reflexivity.
  - rewrite H4 by lia. reflexivity.
  - intros q Hq. apply H2. congruence.
Qed.

Lemma schedule_step now s p :
  timers_inv s -> next s p = 0 -> now <= rd_clock (rkts_clock s) ->
  tstep now (eq p) s (rd_kafka_timer_schedule rd_clock s p 0).
Proof.
  intros Hinv Hn Hnow. unfold rd_kafka_timer_schedule. pose proof (ti_interval s Hinv p).
  destruct (Z.eqb_spec (interval s p) 0) as [E | E]; [now apply tstep_refl |].
  destruct (rkts_enabled s); [| now apply tstep_refl]. cbn [negb].
  pose proof (schedule_abs_step now s p (interval s p)) as H1. cbn in H1 |- *.
  change (tmr (mk_timers _ (rkts_tmrs s) _ _)) with (tmr s) in *. rewrite Z.add_0_r. apply H1; auto; lia.
Qed.

Lemma scheduled_spec s p : rd_kafka_timer_scheduled (tmr s p) = negb (next s p =? 0).
Proof. reflexivity. Qed.

(** Taking a timer off the queue if it is on it. *)
Lemma unschedule_if_step now s p :
  timers_inv s ->
  let s' := if rd_kafka_timer_scheduled (tmr s p) then rd_kafka_timer_unschedule s p else s in
  tstep now (eq p) s s' /\ next s' p = 0 /\ interval s' p = interval s p /\ rkts_clock s' = rkts_clock s.
Proof.
  intros Hinv. cbn. rewrite scheduled_spec. destruct (Z.eqb_spec (next s p) 0) as [E | E]; cbn [negb].
  - split; [now apply tstep_refl | auto].
  - split; [now apply unschedule_step |].
    rewrite unschedule_next0, unschedule_interval. auto.
Qed.

Lemma stop_step now s p :
  timers_inv s ->
  let s' := snd (rd_kafka_timer_stop s p) in
  tstep now (eq p) s s' /\ next s' p = 0 /\ interval s' p = 0 /\ rkts_clock s' = rkts_clock s.
Proof.
  intros Hinv. cbn. unfold rd_kafka_timer_stop, rd_kafka_timer_started.
  destruct (Z.eqb_spec (interval s p) 0) as [E | E]; cbn [negb snd].
  - split; [now apply tstep_refl |]. split; [| auto].
    destruct (Z.eq_dec (next s p) 0) as [| N]; [assumption |].
    apply (ti_sched s Hinv), (ti_started s Hinv) in N. lia.
  - destruct (unschedule_if_step now s p Hinv) as (H1 & H2 & H3 & H4). cbn in *.
    set (s1 := if rd_kafka_timer_scheduled _ then _ else _) in *.
    split; [| rewrite tmr_interval_eq; auto].
    eapply tstep_trans; [exact H1 |]. apply set_interval_step; [apply H1 | lia | auto].
Qed.

Lemma timer_step_step now s op :
  timers_inv s -> op_ok s op -> now <= rd_clock (rkts_clock s) ->
  tstep now (eq (op_timer op)) s (timer_step rd_clock s op).
Proof.
  intros Hinv Hok Hnow. destruct op as [p i o r c a | p | p | p i]; cbn [timer_step op_timer op_ok] in *.
  - unfold rd_kafka_timer_start0. case_match; [now apply tstep_refl |].
    pose proof (stop_step now s p Hinv) as (H1 & H2 & H3 & H4).
    destruct (rd_kafka_timer_stop s p) as [? s1]. cbn [snd] in *.
    set (s2 := set_tmr _ _ _).
    assert (tstep now (eq p) s1 s2) as H5.
    { apply set_tmr_step; [apply H1 | reflexivity | |]; cbn; destruct (Z.eqb_spec i 0); auto; lia. }
    eapply tstep_trans; [exact H1 |]. eapply tstep_trans; [exact H5 |].
    apply schedule_step; [apply H5 | unfold s2; rewrite tmr_set_eq; assumption |].
    change (rkts_clock s2) with (rkts_clock s1). congruence.
  - now apply stop_step.
  - unfold rd_kafka_timer_exp_backoff. rewrite scheduled_spec.
    destruct (Z.eqb_spec (next s p) 0) as [E | E]; cbn [negb]; [now apply schedule_step |].
    assert (0 < interval s p) by (now apply (ti_started s Hinv), (ti_sched s Hinv)).
    assert (tstep now (eq p) s (set_interval s p (interval s p * 2))) as H1
      by (apply set_interval_step; [assumption | lia | right; lia]).
    assert (tstep now (eq p) s (rd_kafka_timer_unschedule (set_interval s p (interval s p * 2)) p)) as H2
      by (eapply tstep_trans; [exact H1 | apply unschedule_step, H1]).
    eapply tstep_trans; [exact H2 |].
    apply schedule_step; [apply H2 | apply unschedule_next0 | exact Hnow].
  - destruct Hok as [Hi Hp]. unfold rd_kafka_timer_override_once.
    destruct (unschedule_if_step now s p Hinv) as (H1 & H2 & H3 & H4). cbv zeta in H1, H2, H3, H4.
    set (s1 := if rd_kafka_timer_scheduled _ then _ else _) in *.
    eapply tstep_trans; [exact H1 |].
    apply (schedule_abs_step now s1 p i); [apply H1 | assumption | lia | assumption | congruence].
Qed.

Lemma clock_later s n now : now <= rd_clock n -> (n <= rkts_clock s)%nat -> now <= rd_clock (rkts_clock s).
Proof. intros H Hle. pose proof (clock_mono _ _ Hle). lia. Qed.

(** ** Firing *)

Context (callback : nat -> nat -> rd_kafka_timers -> list timer_op).

Fixpoint ops_ok s (ops : list timer_op) : Prop :=
  match ops with
  | [] => True
  | op :: ops => op_ok s op /\ ops_ok (timer_step rd_clock s op) ops
  end.

Definition callbacks_ok : Prop := forall c a s, timers_inv s -> ops_ok s (callback c a s).

(** No callback touches the timer. *)
Definition untouched q : Prop := forall c a s, q ∉ (op_timer <$> callback c a s).

Lemma ops_step now s ops (T : nat -> Prop) :
  timers_inv s -> ops_ok s ops -> now <= rd_clock (rkts_clock s) ->
  (forall op, op ∈ ops -> T (op_timer op)) ->
  tstep now T s (foldl (timer_step rd_clock) s ops).
Proof.
  revert s. induction ops as [| op ops IH]; intros s Hinv Hok Hnow HT; [now apply tstep_refl |].
  destruct Hok as [Hop Hok]. cbn [foldl].
  pose proof (timer_step_step now s op Hinv Hop Hnow) as Hs.
  eapply tstep_trans; [eapply tstep_weaken; [| exact Hs] |].
  - intros q <-. apply HT. now constructor.
  - apply IH; [apply Hs | assumption | | intros; apply HT; now constructor].
    now apply clock_later with (rkts_clock s); [| apply Hs].
Qed.

(** A timer that fires leaves the due ones, and what its callback does not touch stays. *)
Lemma fire_step now s p (Hcb : callbacks_ok) :
  timers_inv s -> now <= rd_clock (rkts_clock s) ->
  tstep now (fun q => q = p \/ ~ untouched q) (rd_kafka_timer_unschedule s p) (fire rd_clock callback s p).
Proof.
  intros Hinv Hnow. unfold fire.
  pose proof (unschedule_inv s p Hinv) as Hu. pose proof (unschedule_next0 s p) as Hn.
  assert (now <= rd_clock (rkts_clock (rd_kafka_timer_unschedule s p))) as Hnu by exact Hnow.
  generalize dependent (rd_kafka_timer_unschedule s p). clear s Hinv Hnow. intros s Hu Hn Hnow.
  assert (tstep now (eq p) s (if rtmr_oneshot (tmr s p) then set_interval s p 0 else s)) as H1
    by (case_match; [apply set_interval_step; [assumption | lia | auto] | now apply tstep_refl]).
  set (s1 := if rtmr_oneshot _ then _ else _) in *.
  set (ops := callback _ _ s1).
  assert (now <= rd_clock (rkts_clock s1)) as Hnow1 by (apply clock_later with (rkts_clock s); [easy | apply H1]).
  assert (tstep now (fun q => q = p \/ ~ untouched q) s1 (foldl (timer_step rd_clock) s1 ops)) as H2.
  { apply ops_step; [apply H1 | apply Hcb, H1 | assumption |]. intros op Hop. right. intros Hun.
    apply (Hun (rtmr_callback (tmr s1 p)) (rtmr_arg (tmr s1 p)) s1), list_elem_of_fmap. eauto. }
  set (s2 := foldl _ s1 ops) in *.
  eapply tstep_trans; [eapply tstep_weaken; [| exact H1]; intros; left; congruence |].
  eapply tstep_trans; [exact H2 |]. rewrite scheduled_spec.
  destruct (Z.eqb_spec (next s2 p) 0) as [E | E]; [| rewrite andb_false_r; apply tstep_refl, H2].
  rewrite andb_true_r. case_match; [| apply tstep_refl, H2].
  eapply tstep_weaken; [| apply schedule_step]; [intros q <-; now left | apply H2 | assumption |].
  now apply clock_later with (rkts_clock s1); [| apply H2].
Qed.

(** The head of the queue decides whether something is due. *)
Lemma due_head now s :
  timers_inv s ->
  match rkts_timers s with
  | [] => due now s = []
  | p :: _ =>
      if next s p <=? now
      then due now s = p :: due now (rd_kafka_timer_unschedule s p)
      else due now s = []
  end.
Proof.
  intros Hinv. pose proof (unschedule_due now s) as Hu. pose proof Hinv as [Hs Hn _ _ _].
  unfold due in *. destruct (rkts_timers s) as [| p l]; [reflexivity |].
  apply StronglySorted_inv in Hs as [_ Hp]. apply list.NoDup_cons in Hn as [Hpl Hl].
  destruct (Z.leb_spec (next s p) now) as [H | H].
  - rewrite Hu by assumption. rewrite filter_cons, decide_True by assumption. f_equal.
    rewrite filter_cons, decide_False by auto.
    symmetry. apply filter_all, list.Forall_forall. intros q [_ Hq]%list_elem_of_filter. congruence.
  - apply filter_none, list.Forall_forall. intros q Hq.
    apply elem_of_cons in Hq as [-> | Hq]; [lia |]. rewrite list.Forall_forall in Hp. specialize (Hp q Hq). lia.
Qed.

Lemma run_loop_spec (Hcb : callbacks_ok) now fuel s :
  timers_inv s -> now <= rd_clock (rkts_clock s) -> (length (due now s) <= fuel)%nat ->
  exists s' fired, timers_run_loop rd_clock callback fuel s now = Some (s', fired) /\
    timers_inv s' /\ due now s' = [] /\ sublist fired (due now s) /\
    rkts_enabled s' = rkts_enabled s /\
    (forall q, q ∈ due now s -> untouched q -> q ∈ fired).
Proof.
  revert s. induction fuel as [| fuel IH]; intros s Hinv Hnow Hf; pose proof (due_head now s Hinv) as Hd.
  - destruct (due now s) eqn:E; [| cbn in Hf; lia]. cbn [timers_run_loop].
    destruct (rkts_timers s) as [| p l] eqn:El; [exists s, []; set_solver |].
    destruct (next s p <=? now); [discriminate | exists s, []; set_solver].
  - cbn [timers_run_loop].
    destruct (rkts_timers s) as [| p l] eqn:El; [exists s, []; rewrite Hd; set_solver |].
    destruct (next s p <=? now); [| exists s, []; rewrite Hd; set_solver].
    pose proof (fire_step now s p Hcb Hinv Hnow) as [F1 F2 F3 F4 F5].
    set (s1 := fire rd_clock callback s p) in *. rewrite Hd in Hf. cbn [length] in Hf.
    pose proof (sublist_length _ _ F4).
    destruct (IH s1) as (s2 & fired & -> & G1 & G2 & G3 & G4 & G5);
      [assumption | now apply clock_later with (rkts_clock s) | lia |].
    exists s2, (p :: fired). rewrite Hd. split; [reflexivity |].
    split; [assumption |]. split; [assumption |].
    split; [apply sublist_skip; now transitivity (due now s1) |].
    split; [now rewrite G4, F3 |].
    intros q Hq Hun. rewrite elem_of_cons in Hq |- *. destruct (decide (q = p)) as [-> | N]; [now left |].
    right. destruct Hq as [-> | Hq]; [congruence |]. apply G5; [| assumption].
    unfold due in Hq |- *. apply list_elem_of_filter in Hq as [Hq1 Hq2]. apply list_elem_of_filter.
    assert (tmr s1 q = tmr (rd_kafka_timer_unschedule s p) q) as E by (apply F5; tauto).
    rewrite E. split; [assumption |]. apply (ti_sched s1 F1). rewrite E.
    now apply (ti_sched _ (unschedule_inv s p Hinv)).
Qed.

Lemma clock_inv s : timers_inv s -> timers_inv (snd (clock rd_clock s)).
Proof. intros []. split; assumption. Qed.

Lemma timers_run_spec (Hcb : callbacks_ok) s fuel :
  timers_inv s -> (length (rkts_timers s) <= fuel)%nat ->
  exists s' fired, rd_kafka_timers_run rd_clock callback fuel s false = Some (s', fired) /\
    let now := rd_clock (S (rkts_clock s)) in
    timers_inv s' /\ due now s' = [] /\ sublist fired (due now s) /\
    (forall q, q ∈ due now s -> untouched q -> q ∈ fired).
Proof.
  intros Hinv Hf. unfold rd_kafka_timers_run. cbn [clock].
  set (now := rd_clock (S (rkts_clock s))).
  destruct (run_loop_spec Hcb now fuel
              (mk_timers (rkts_timers s) (rkts_tmrs s) (rkts_enabled s) (S (S (rkts_clock s)))))
    as (s' & fired & E & H1 & H2 & H3 & H4 & H5).
  - now apply (clock_inv (snd (clock rd_clock s))), clock_inv.
  - apply clock_mono. cbn. lia.
  - unfold due. cbn [rkts_timers]. etransitivity; [apply sublist_length, sublist_filter | assumption].
  - cbn in E. exists s', fired. auto.
Qed.

(** ** Runs *)

Inductive timers_reach (tmrs : gmap nat rd_kafka_timer) : rd_kafka_timers -> Prop :=
  | reach_init : timers_reach tmrs (rd_kafka_timers_init tmrs)
  | reach_op s op : timers_reach tmrs s -> op_ok s op -> timers_reach tmrs (timer_step rd_clock s op)
  | reach_clock s timeout :
      timers_reach tmrs s -> timers_reach tmrs (snd (rd_kafka_timers_next rd_clock s timeout))
  | reach_run s s' fired :
      timers_reach tmrs s ->
      rd_kafka_timers_run rd_clock callback (length (rkts_timers s)) s false = Some (s', fired) ->
      timers_reach tmrs s'.

Lemma timers_init_inv tmrs :
  (forall p, default rtmr_zero (tmrs !! p) = rtmr_zero) -> timers_inv (rd_kafka_timers_init tmrs).
Proof.
  intros H. assert (forall p, tmr (rd_kafka_timers_init tmrs) p = rtmr_zero) as E by exact H.
  split; cbn [rkts_timers rd_kafka_timers_init]; [constructor | constructor | | |]; intros p.
  - rewrite E. cbn. rewrite elem_of_nil. lia.
  - now rewrite elem_of_nil.
  - now rewrite E.
Qed.

Lemma reach_inv tmrs s (Hcb : callbacks_ok) :
  (forall p, default rtmr_zero (tmrs !! p) = rtmr_zero) -> timers_reach tmrs s -> timers_inv s.
Proof.
  intros H0. induction 1 as [| s op Hr IH Hop | s timeout Hr IH | s s' fired Hr IH Hrun].
  - now apply timers_init_inv.
  - destruct (timer_step_step 0 s op IH Hop) as [Hi _ _ _ _]; [| assumption].
    pose proof (clock_pos (rkts_clock s)). lia.
  - now apply clock_inv in IH.
  - destruct (timers_run_spec Hcb s _ IH (le_n _)) as (s2 & f2 & E & Hi & _). congruence.
Qed.

End Clock.

(** ** Destruction *)

Lemma destroy_loop_spec fuel s :
  timers_inv s -> (length (rkts_timers s) <= fuel)%nat ->
  exists s', timers_destroy_loop fuel s = Some s' /\ timers_inv s' /\ rkts_timers s' = [] /\
    forall p, interval s' p = (if decide (p ∈ rkts_timers s) then 0 else interval s p).
Proof.
  revert s. induction fuel as [| fuel IH]; intros s Hinv Hf.
  - destruct (rkts_timers s) as [| p l] eqn:E; [| cbn in Hf; lia].
    cbn [timers_destroy_loop]. rewrite E. exists s. auto.
  - cbn [timers_destroy_loop]. destruct (rkts_timers s) as [| p l] eqn:E.
    + exists s. auto.
    + pose proof (stop_step 0 s p Hinv) as ([S1 S2 S3 S4 S5] & Hn & Hi & Hc).
      assert (rkts_timers (snd (rd_kafka_timer_stop s p)) = l) as El.
      { unfold rd_kafka_timer_stop, rd_kafka_timer_started.
        assert (0 < interval s p) by (apply (ti_started s Hinv); rewrite E; now constructor).
        assert (next s p <> 0) by (apply (ti_sched s Hinv); rewrite E; now constructor).
        rewrite scheduled_spec. ztest. cbn [negb snd].
        cbn [rkts_timers set_interval set_tmr rd_kafka_timer_unschedule set_next set_queue].
        now rewrite E, tailq_remove_head. }
      set (s1 := snd (rd_kafka_timer_stop s p)) in *.
      destruct (IH s1 S1) as (s' & E1 & E2 & E3 & E4); [rewrite El; cbn in Hf; lia |].
      exists s'. split; [assumption |]. split; [assumption |]. split; [assumption |].
      intros q. rewrite E4, El. pose proof (ti_nodup s Hinv) as Hnd. rewrite E in Hnd.
      apply list.NoDup_cons in Hnd as [Hpl _].
      destruct (decide (q = p)) as [-> | N].
      * rewrite decide_False by assumption. rewrite decide_True by now constructor. assumption.
      * rewrite S5 by congruence. do 2 case_decide; rewrite ?elem_of_cons in *; tauto || congruence.
Qed.

(** A timer on the queue that is not started is never taken off it. *)
Lemma tailq_remove_ne p q l : p <> q -> p ∈ l -> p ∈ tailq_remove q l.
Proof.
  intros N. induction l as [| x l IH]; [easy |]. cbn [tailq_remove]. rewrite elem_of_cons.
  case_decide; [subst; intros [|]; congruence | rewrite elem_of_cons; tauto].
Qed.

Lemma destroy_loop_stuck fuel s p :
  p ∈ rkts_timers s -> interval s p = 0 -> timers_destroy_loop fuel s = None.
Proof.
  revert s. induction fuel as [| fuel IH]; intros s Hp Hi; cbn [timers_destroy_loop];
    destruct (rkts_timers s) as [| x l] eqn:E; try now apply elem_of_nil in Hp. { reflexivity. }
  apply IH; unfold rd_kafka_timer_stop, rd_kafka_timer_started;
    (destruct (decide (x = p)) as [-> | N]; [rewrite Hi; cbn; congruence |]).
  - destruct (interval s x =? 0); cbn [negb snd]; [congruence |].
    case_match; cbn [rkts_timers set_interval set_tmr rd_kafka_timer_unschedule set_next set_queue];
      rewrite E; [apply tailq_remove_ne; congruence | assumption].
  - destruct (interval s x =? 0); cbn [negb snd]; [assumption |].
    unfold set_interval. rewrite tmr_set_ne by congruence.
    case_match; [| assumption]. now rewrite unschedule_tmr by congruence.
Qed.

Lemma insert_timer_elem s p l : p ∈ insert_timer s p l.
Proof.
  induction l as [| x l IH]; cbn [insert_timer]; [now constructor |].
  case_match; [now constructor | now constructor].
Qed.

Lemma schedule_next_elem s p t : p ∈ rkts_timers (rd_kafka_timer_schedule_next s p t).
Proof.
  unfold rd_kafka_timer_schedule_next. repeat case_match; cbn [rkts_timers set_queue];
    [now constructor | now constructor | apply insert_timer_elem].
Qed.

Lemma schedule_next_interval s p t q :
  interval (rd_kafka_timer_schedule_next s p t) q = interval s q.
Proof.
  assert (interval (set_next s p t) q = interval s q) as E.
  { destruct (decide (q = p)) as [-> |]; [now rewrite tmr_next_eq | now rewrite tmr_next_ne]. }
  unfold rd_kafka_timer_schedule_next. repeat case_match; exact E.
Qed.

(** A timer that backs itself off in its own callback fires again after the interval it
    has, not after twice of it: it is off the queue while its callback runs. *)
Lemma fire_backoff_keeps_interval rd_clock callback s p `{Hclock : !MonotonicClock rd_clock} :
  timers_inv s -> rkts_enabled s = true -> rtmr_oneshot (tmr s p) = false -> 0 < interval s p ->
  (forall s', callback (rtmr_callback (tmr s p)) (rtmr_arg (tmr s p)) s' = [TBackoff p]) ->
  interval (fire rd_clock callback s p) p = interval s p /\
  next (fire rd_clock callback s p) p = rd_clock (rkts_clock s) + interval s p.
Proof.
  intros Hinv He Ho Hi Hcb. unfold fire. set (s1 := rd_kafka_timer_unschedule s p).
  assert (tmr s1 p = mk_timer 0 (interval s p) false (rtmr_callback (tmr s p)) (rtmr_arg (tmr s p))) as E1.
  { unfold s1, rd_kafka_timer_unschedule. rewrite tmr_next_eq, <- Ho. reflexivity. }
  rewrite E1. cbn [rtmr_oneshot]. rewrite E1. cbn [rtmr_callback rtmr_arg]. rewrite Hcb.
  cbn [foldl timer_step]. unfold rd_kafka_timer_exp_backoff, rd_kafka_timer_schedule.
  assert ((interval s1 p =? 0) = false) as Ei by (rewrite E1; cbn; ztest; reflexivity).
  assert (rd_kafka_timer_scheduled (tmr s1 p) = false) as Es by (now rewrite E1).
  rewrite Es, Ei.
  change (rkts_enabled s1) with (rkts_enabled s). rewrite He. cbn [negb clock].
  set (s1' := mk_timers _ _ _ (S _)). rewrite Z.add_0_r.
  assert (interval s1' p = interval s p) as EI by (change (interval s1 p = interval s p); now rewrite E1).
  assert (forall t, next (rd_kafka_timer_schedule_next s1' p t) p = t) as EN.
  { intros t. unfold rd_kafka_timer_schedule_next.
    repeat case_match; exact (f_equal rtmr_next (tmr_next_eq s1' p t)). }
  pose proof (clock_pos rd_clock (rkts_clock s)).
  change (rkts_clock s1) with (rkts_clock s). rewrite EI.
  assert (rd_kafka_timer_scheduled (tmr (rd_kafka_timer_schedule_next s1' p
            (rd_clock (rkts_clock s) + interval s p)) p) = true) as ES.
  { rewrite scheduled_spec, EN. now ztest. }
  rewrite ES, andb_false_r, EN, schedule_next_interval. auto.
Qed.

(** ** The properties *)

(** The timers of a client are new. *)
Definition fresh (tmrs : gmap nat rd_kafka_timer) : Prop :=
  forall p, default rtmr_zero (tmrs !! p) = rtmr_zero.

(** C33. Running the timers ends, whatever their callbacks start, stop, delay or back off,
    in as many rounds at most as there are timers on the queue: nothing is left that was
    due when the clock was read, each due timer fired at most once and in the order of the
    queue, and every due timer fired that no callback touches. *)
Theorem timers_run_terminates rd_clock callback tmrs s
  `{Hclock : !MonotonicClock rd_clock} (Hcb : callbacks_ok rd_clock callback) (Hfresh : fresh tmrs)
  (Hs : timers_reach rd_clock callback tmrs s) :
  let now := rd_clock (S (rkts_clock s)) in
  exists s' fired,
    rd_kafka_timers_run rd_clock callback (length (rkts_timers s)) s false = Some (s', fired) /\
    due now s' = [] /\ sublist fired (due now s) /\
    forall q, q ∈ due now s -> untouched callback q -> q ∈ fired.
Proof.
  pose proof (reach_inv rd_clock callback tmrs s Hcb Hfresh Hs) as Hinv.
  destruct (timers_run_spec rd_clock callback Hcb s _ Hinv (le_n _)) as (s' & fired & E & H1 & H2).
  exists s', fired. auto.
Qed.

(** C34. In every state that operations and runs reach, the queue holds the scheduled timers,
    once each, all of them started, in the order of their next firing, and the time to the
    next one is that to the earliest of the scheduled timers, no less than 0 and no more
    than the time-out asked for. *)
Theorem timers_queue_ordered rd_clock callback tmrs s
  `{Hclock : !MonotonicClock rd_clock} (Hcb : callbacks_ok rd_clock callback) (Hfresh : fresh tmrs)
  (Hs : timers_reach rd_clock callback tmrs s) timeout (Ht : 0 <= timeout) :
  StronglySorted (fun a b => next s a <= next s b) (rkts_timers s) /\ NoDup (rkts_timers s) /\
  (forall p, p ∈ rkts_timers s <-> rd_kafka_timer_scheduled (tmr s p) = true) /\
  (forall p, p ∈ rkts_timers s -> rd_kafka_timer_is_started s p = true) /\
  (let d := fst (rd_kafka_timers_next rd_clock s timeout) in
   let left p := fst (rd_kafka_timer_next rd_clock s p) in
   0 <= d <= timeout /\ (forall p, p ∈ rkts_timers s -> d <= left p) /\
   (d = timeout \/ exists p, p ∈ rkts_timers s /\ d = left p)).
Proof.
  pose proof (reach_inv rd_clock callback tmrs s Hcb Hfresh Hs) as [I1 I2 I3 I4 I5].
  assert (forall p, p ∈ rkts_timers s <-> rd_kafka_timer_scheduled (tmr s p) = true) as Is.
  { intros p. rewrite I3, scheduled_spec. destruct (Z.eqb_spec (next s p) 0); cbn; split; congruence. }
  split; [exact I1 |]. split; [exact I2 |]. split; [exact Is |]. split.
  { intros p Hp. unfold rd_kafka_timer_is_started. specialize (I4 p Hp). now ztest. }
  cbv zeta. set (now := rd_clock (rkts_clock s)).
  assert (forall p, p ∈ rkts_timers s ->
    fst (rd_kafka_timer_next rd_clock s p) = Z.max 0 (next s p - now)) as El.
  { intros p Hp. unfold rd_kafka_timer_next. cbn.
    change (tmr (mk_timers (rkts_timers s) (rkts_tmrs s) _ _)) with (tmr s).
    apply Is in Hp. rewrite Hp. fold now. destruct (Z.ltb_spec (next s p - now) 0); lia. }
  change (fst (rd_kafka_timers_next rd_clock s timeout)) with
    (match rkts_timers s with
     | p :: _ => let sleep := next s p - now in
         if sleep <? 0 then 0 else if sleep >? timeout then timeout else sleep
     | [] => timeout
     end).
  destruct (rkts_timers s) as [| p l] eqn:E; [split; [lia | split; [set_solver | now left]] |].
  cbv zeta. apply StronglySorted_inv in I1 as [_ Hp]. rewrite list.Forall_forall in Hp.
  assert (forall q, q ∈ p :: l -> next s p <= next s q) as Hmin
    by (intros q [-> | Hq]%elem_of_cons; [lia | auto]).
  assert (p ∈ p :: l) as Hpin by now constructor.
  destruct (Z.ltb_spec (next s p - now) 0);
    [| rewrite Z.gtb_ltb; destruct (Z.ltb_spec timeout (next s p - now))];
    (split; [lia |]; split; [intros q Hq; rewrite El by assumption; specialize (Hmin q Hq); lia |]).
  - right. exists p. rewrite El by assumption. split; [assumption | lia].
  - now left.
  - right. exists p. rewrite El by assumption. split; [assumption | lia].
Qed.

(** Destroying the timers ends with an empty queue and every timer that was on it
    stopped, from every state the other operations reach; but once a timer that is not
    started is given a time by [rd_kafka_timer_override_once], the loop stops that timer
    for ever without taking it off the queue. *)
Lemma timers_destroy_ends rd_clock callback tmrs s
  `{Hclock : !MonotonicClock rd_clock} (Hcb : callbacks_ok rd_clock callback) (Hfresh : fresh tmrs)
  (Hs : timers_reach rd_clock callback tmrs s) :
  (exists s', rd_kafka_timers_destroy (length (rkts_timers s)) s = Some s' /\ rkts_timers s' = [] /\
    forall p, rd_kafka_timer_scheduled (tmr s' p) = false /\
              (p ∈ rkts_timers s -> rd_kafka_timer_is_started s' p = false)) /\
  (forall p i fuel, rd_kafka_timer_is_started s p = false ->
    rd_kafka_timers_destroy fuel (rd_kafka_timer_override_once rd_clock s p i) = None).
Proof.
  pose proof (reach_inv rd_clock callback tmrs s Hcb Hfresh Hs) as Hinv. split.
  - unfold rd_kafka_timers_destroy.
    destruct (destroy_loop_spec (length (rkts_timers s))
                (mk_timers (rkts_timers s) (rkts_tmrs s) false (rkts_clock s))) as (s' & E & H1 & H2 & H3);
      [destruct Hinv; now split | reflexivity |].
    exists s'. split; [exact E |]. split; [exact H2 |]. intros p. split.
    + rewrite scheduled_spec. apply negb_false_iff, Z.eqb_eq.
      destruct (Z.eq_dec (next s' p) 0) as [| N]; [assumption |].
      apply (ti_sched s' H1) in N. rewrite H2 in N. now apply elem_of_nil in N.
    + intros Hp. unfold rd_kafka_timer_is_started. rewrite H3, decide_True by assumption. reflexivity.
  - intros p i fuel Hp. unfold rd_kafka_timer_is_started in Hp.
    apply negb_false_iff, Z.eqb_eq in Hp.
    pose proof (unschedule_if_step 0 s p Hinv) as (_ & _ & Hi & _). cbv zeta in Hi.
    unfold rd_kafka_timer_override_once.
    set (s1 := if rd_kafka_timer_scheduled _ then _ else _) in *. cbn [clock].
    unfold rd_kafka_timers_destroy. apply destroy_loop_stuck with p; cbn [rkts_timers].
    + apply schedule_next_elem.
    + etransitivity; [apply (schedule_next_interval (mk_timers _ _ _ _)) |].
      change (interval s1 p = 0). congruence.
Qed.

(** ** A run *)

(** A clock of 10 us a reading.  Callback 0 does nothing, callback 1 backs its own timer
    off, callback 2 stops a timer and starts it again as a one-shot. *)
Definition ex_clock (n : nat) : Z := 1000 + 10 * Z.of_nat n.
Definition ex_callback (c a : nat) (s : rd_kafka_timers) : list timer_op :=
  match c with
  | 0%nat => []
  | 1%nat => [TBackoff a]
  | _ => [TStop a; TStart a 500 true true 0 0]
  end.

#[export] Instance ex_clock_monotonic : MonotonicClock ex_clock.
Proof. split; unfold ex_clock; lia. Qed.

Lemma ex_callbacks_ok : callbacks_ok ex_clock ex_callback.
Proof. intros [| [|]] a s _; cbn; auto. repeat split; lia. Qed.

Definition ex_start : rd_kafka_timers :=
  foldl (timer_step ex_clock) (rd_kafka_timers_init ∅)
    [TStart 1 5 false true 1 1; TStart 2 3 true true 2 3; TStart 3 10 false true 0 0;
     TStart 4 9000 false true 0 0].

Lemma ex_fresh : fresh ∅.
Proof. intros p. now rewrite lookup_empty. Qed.

Lemma ex_start_reach : timers_reach ex_clock ex_callback ∅ ex_start.
Proof.
  unfold ex_start. cbn [foldl].
  repeat (apply reach_op; [| cbn; lia]). apply reach_init.
Qed.

Lemma timers_run_terminates_witness :
  rkts_timers ex_start = [1; 2; 3; 4]%nat /\
  exists s' fired,
    rd_kafka_timers_run ex_clock ex_callback 4 ex_start false = Some (s', fired) /\
    due 1050 s' = [] /\ sublist fired (due 1050 ex_start) /\
    forall q, q ∈ due 1050 ex_start -> untouched ex_callback q -> q ∈ fired.
Proof.
  split; [vm_compute; reflexivity |].
  apply (timers_run_terminates ex_clock ex_callback ∅ ex_start ex_callbacks_ok ex_fresh ex_start_reach).
Defined.

Lemma timers_queue_ordered_witness :
  rkts_timers ex_start = [1; 2; 3; 4]%nat /\
  NoDup (rkts_timers ex_start) /\
  fst (rd_kafka_timers_next ex_clock ex_start 100) = 0.
Proof.
  split; [vm_compute; reflexivity |].
  destruct (timers_queue_ordered ex_clock ex_callback ∅ ex_start ex_callbacks_ok ex_fresh
              ex_start_reach 100 ltac:(lia)) as (_ & H & _).
  split; [exact H | vm_compute; reflexivity].
Defined.

Lemma timers_destroy_ends_witness :
  (exists s', rd_kafka_timers_destroy 4 ex_start = Some s' /\ rkts_timers s' = []) /\
  (forall fuel, rd_kafka_timers_destroy fuel (rd_kafka_timer_override_once ex_clock ex_start 5 7) = None).
Proof.
  destruct (timers_destroy_ends ex_clock ex_callback ∅ ex_start ex_callbacks_ok ex_fresh
              ex_start_reach) as [(s' & E & H & _) H2].
  split; [exists s'; split; [exact E | exact H] |]. intros fuel. apply H2. vm_compute. reflexivity.
Defined.
