(* ===== verification/KafkaBuf.v ===== *)
(** * Request and response buffers (src/cbits/hs_rdkafka_buf.h, hs_rdkafka_buf.c)

    [rd_kafka_buf_t]: the writers of Kafka's types on a segmented buffer, with the CRC
    of what is written in between, and the readers of them through a slice.  A reader
    is a macro that leaves the function by [goto err_parse] when the input is short or
    malformed, with the error in [rkbuf_err]: here a computation of [parse]. *)

From S2P Require Import Prelude Varint RdBuf Slice Crc.

Definition RD_KAFKA_RESP_ERR__UNDERFLOW : Z := -155.
Definition RD_KAFKA_RESP_ERR__BAD_MSG : Z := -199.

(** The bytes of [htobe16/32/64] of a value: the most significant first. *)
Fixpoint be_enc (n : nat) (v : Z) : bytes :=
  match n with
  | O => []
  | S n => Z.land (Z.shiftr v (8 * Z.of_nat n)) 255 :: be_enc n v
  end.
Definition be_dec (b : bytes) : Z := foldl (fun a x => a * 256 + x) 0 b.

(** ** Writing *)

(** [rkbuf_crc] is the CRC in progress, if [RD_KAFKA_OP_F_CRC] is set. *)
Record rd_kafka_buf := mk_rkbuf {
  rkbuf_buf : rd_buf;
  rkbuf_crc : option Z;
  rkbuf_flexver : bool }.

Section Write.
Context (junk : Z -> Z).

Definition rkbuf_crc_add (rkbuf : rd_kafka_buf) (data : bytes) : option Z :=
  (fun c => rd_crc32_update c data) <$> rkbuf_crc rkbuf.

(** The buffer and the position of what was written. *)
Definition rd_kafka_buf_write (rkbuf : rd_kafka_buf) (data : bytes) : option (rd_kafka_buf * Z) :=
  let* (b, r) := rd_buf_write junk (rkbuf_buf rkbuf) (Some data) (zlen data) in
  Some (mk_rkbuf b (rkbuf_crc_add rkbuf data) (rkbuf_flexver rkbuf), r).

Definition rd_kafka_buf_push (rkbuf : rd_kafka_buf) (data : bytes) (free_cb : option Z)
  : option rd_kafka_buf :=
  let* b := rd_buf_push junk (rkbuf_buf rkbuf) data (zlen data) free_cb in
  Some (mk_rkbuf b (rkbuf_crc_add rkbuf data) (rkbuf_flexver rkbuf)).

Definition rd_kafka_buf_update (rkbuf : rd_kafka_buf) (off : Z) (data : bytes) : option rd_kafka_buf :=
  let* _ := rd_assert (match rkbuf_crc rkbuf with None => true | Some _ => false end) in
  let* (b, _) := rd_buf_write_update (rkbuf_buf rkbuf) off data (zlen data) in
  Some (mk_rkbuf b (rkbuf_crc rkbuf) (rkbuf_flexver rkbuf)).

Definition rd_kafka_buf_write_i8 rkbuf (v : Z) := rd_kafka_buf_write rkbuf (be_enc 1 v).
Definition rd_kafka_buf_write_i16 rkbuf (v : Z) := rd_kafka_buf_write rkbuf (be_enc 2 v).
Definition rd_kafka_buf_write_i32 rkbuf (v : Z) := rd_kafka_buf_write rkbuf (be_enc 4 v).
Definition rd_kafka_buf_write_i64 rkbuf (v : Z) := rd_kafka_buf_write rkbuf (be_enc 8 v).
Definition rd_kafka_buf_update_i16 rkbuf off (v : Z) := rd_kafka_buf_update rkbuf off (be_enc 2 v).
Definition rd_kafka_buf_update_i32 rkbuf off (v : Z) := rd_kafka_buf_update rkbuf off (be_enc 4 v).
Definition rd_kafka_buf_update_u32 rkbuf off (v : Z) := rd_kafka_buf_update rkbuf off (be_enc 4 v).
Definition rd_kafka_buf_update_i64 rkbuf off (v : Z) := rd_kafka_buf_update rkbuf off (be_enc 8 v).

Definition rd_kafka_buf_write_varint (rkbuf : rd_kafka_buf) (v : Z) : option (rd_kafka_buf * Z) :=
  let* (_, varint) := rd_uvarint_enc_i64 (RD_UVARINT_ENC_SIZEOF 8) v in
  rd_kafka_buf_write rkbuf varint.
Definition rd_kafka_buf_write_uvarint (rkbuf : rd_kafka_buf) (v : Z) : option (rd_kafka_buf * Z) :=
  let* (_, varint) := rd_uvarint_enc_u64 (RD_UVARINT_ENC_SIZEOF 8) v in
  rd_kafka_buf_write rkbuf varint.

(** [None] is the null string; the strings have at most 32767 bytes. *)
Definition rd_kafka_buf_write_kstr (rkbuf : rd_kafka_buf) (kstr : option bytes)
  : option (rd_kafka_buf * Z) :=
  if negb (rkbuf_flexver rkbuf) then
    match kstr with
    | None => rd_kafka_buf_write_i16 rkbuf (-1)
    | Some str =>
        let* (rkbuf, r) := rd_kafka_buf_write_i16 rkbuf (zlen str) in
        let* (rkbuf, _) := rd_kafka_buf_write rkbuf str in
        Some (rkbuf, r)
    end
  else
    let len := match kstr with None => 0 | Some str => zlen str + 1 end in
    let* (rkbuf, r) := rd_kafka_buf_write_uvarint rkbuf len in
    let* (rkbuf, _) := match kstr with
                       | Some str => if len >? 1 then rd_kafka_buf_write rkbuf str else Some (rkbuf, r)
                       | None => Some (rkbuf, r)
                       end in
    Some (rkbuf, r).

Definition rd_kafka_buf_write_bytes (rkbuf : rd_kafka_buf) (payload : option bytes) (size : Z)
  : option (rd_kafka_buf * Z) :=
  let size := match payload with None => -1 | Some _ => size end in
  let* (rkbuf, r) := rd_kafka_buf_write_i32 rkbuf size in
  match payload with
  | None => Some (rkbuf, r)
  | Some payload =>
      let* (rkbuf, _) := rd_kafka_buf_write rkbuf payload in
      Some (rkbuf, r)
  end.

Definition rd_kafka_buf_crc_init (rkbuf : rd_kafka_buf) : option rd_kafka_buf :=
  let* _ := rd_assert (match rkbuf_crc rkbuf with None => true | Some _ => false end) in
  Some (mk_rkbuf (rkbuf_buf rkbuf) (Some rd_crc32_init) (rkbuf_flexver rkbuf)).

Definition rd_kafka_buf_crc_finalize (rkbuf : rd_kafka_buf) : rd_kafka_buf * Z :=
  (mk_rkbuf (rkbuf_buf rkbuf) None (rkbuf_flexver rkbuf),
   rd_crc32_finalize (default 0 (rkbuf_crc rkbuf))).

(** Sizes of a string on the wire, and of the request header without the client id. *)
Definition RD_KAFKAP_STR_SIZE (kstr : option bytes) : Z :=
  2 + match kstr with Some s => zlen s | None => 0 end.
Definition RD_KAFKAP_REQHDR_SIZE : Z := 4 + 2 + 2 + 4.

Definition rd_kafka_buf_new0 (segcnt size : Z) : option rd_kafka_buf :=
  let* b := rd_buf_init segcnt size in Some (mk_rkbuf b None false).

Definition rd_kafka_buf_new_request0 (client_id : option bytes) (ApiKey segcnt size : Z)
  (is_flexver : bool) : option rd_kafka_buf :=
  let size := size + RD_KAFKAP_REQHDR_SIZE + RD_KAFKAP_STR_SIZE client_id
              + (if is_flexver then 1 + 1 else 0) in
  let* rkbuf := rd_kafka_buf_new0 (segcnt + 1) size in
  let* (rkbuf, _) := rd_kafka_buf_write_i32 rkbuf 0 in
  let* (rkbuf, _) := rd_kafka_buf_write_i16 rkbuf ApiKey in
  let* (rkbuf, _) := rd_kafka_buf_write_i16 rkbuf 0 in
  let* (rkbuf, _) := rd_kafka_buf_write_i32 rkbuf 0 in
  let* (rkbuf, _) := rd_kafka_buf_write_kstr rkbuf client_id in
  if is_flexver then
    let rkbuf := mk_rkbuf (rkbuf_buf rkbuf) (rkbuf_crc rkbuf) true in
    let* (rkbuf, _) := rd_kafka_buf_write_i8 rkbuf 0 in
    Some rkbuf
  else Some rkbuf.

End Write.

(** ** Reading

    The state is [rkbuf_reader]; the result is what is read, or the [rkbuf_err] with
    which the function is left for [err_parse]. *)

Definition reader (A : Type) : Type := rd_slice -> option (rd_slice * (A + Z)).

Definition r_ret {A} (x : A) : reader A := fun s => Some (s, inl x).
Definition r_fail {A} (err : Z) : reader A := fun s => Some (s, inr err).
Definition r_bind {A B} (m : reader A) (k : A -> reader B) : reader B := fun s =>
  let* (s, r) := m s in
  match r with inl x => k x s | inr err => Some (s, inr err) end.

Declare Scope reader_scope.
Delimit Scope reader_scope with reader.
Notation "'let!' x ':=' m 'in' k" := (r_bind m (fun x => k))
  (at level 10, x pattern, m at level 100, k at level 200) : reader_scope.

(** A kafkap string or byte array: its length, -1 for NULL, and its data. *)
Record kafkap_bytes := mk_kbytes { kb_len : Z; kb_data : option bytes }.

(** [RD_KAFKAP_STR_LEN] and [RD_KAFKAP_BYTES_LEN]. *)
Definition RD_KAFKAP_LEN (len : Z) : Z := if len =? -1 then 0 else len.

Section Read.
Context (rb : rd_buf).
Local Open Scope reader_scope.

Definition rd_kafka_buf_read_remain (s : rd_slice) : Z := rd_slice_remains rb s.

Definition rd_kafka_buf_check_len (len : Z) : reader unit := fun s =>
  if u64 len >? rd_kafka_buf_read_remain s then Some (s, inr RD_KAFKA_RESP_ERR__UNDERFLOW)
  else Some (s, inl tt).

(** [rd_slice_read], and the check made if it returns 0. *)
Definition read_or_check (len : Z) : reader bytes := fun s =>
  let* (s, r, dst) := rd_slice_read rb s len in
  if r =? 0 then (let! _ := rd_kafka_buf_check_len len in r_ret dst) s else Some (s, inl dst).

Definition rd_kafka_buf_skip (len : Z) : reader unit :=
  let len1 := u64 len in
  if len1 =? 0 then r_ret tt else let! _ := read_or_check len1 in r_ret tt.

Definition rd_kafka_buf_skip_to (pos : Z) : reader unit := fun s =>
  rd_kafka_buf_skip (pos - rd_slice_offset rb s) s.

Definition rd_kafka_buf_read (len : Z) : reader bytes := read_or_check (u64 len).

Definition rd_kafka_buf_peek (offset len : Z) : reader bytes := fun s =>
  let* (r, dst) := rd_slice_peek rb s offset (u64 len) in
  if r =? 0 then (let! _ := rd_kafka_buf_check_len (offset + u64 len) in r_ret dst) s else Some (s, inl dst).

Definition rd_kafka_buf_read_i64 : reader Z := let! b := rd_kafka_buf_read 8 in r_ret (i64 (be_dec b)).
Definition rd_kafka_buf_read_i32 : reader Z := let! b := rd_kafka_buf_read 4 in r_ret (i32 (be_dec b)).
Definition rd_kafka_buf_read_i16 : reader Z := let! b := rd_kafka_buf_read 2 in r_ret (i16 (be_dec b)).
Definition rd_kafka_buf_read_i8 : reader Z := let! b := rd_kafka_buf_read 1 in r_ret (i8 (be_dec b)).
Definition rd_kafka_buf_peek_i8 (of_ : Z) : reader Z :=
  let! b := rd_kafka_buf_peek of_ 1 in r_ret (i8 (be_dec b)).

(** A number is stored whenever the return value is not 0. *)
Definition rd_kafka_buf_read_varint : reader Z := fun s =>
  let* (s, r, v) := rd_slice_read_varint rb s in
  if RD_UVARINT_UNDERFLOW r then Some (s, inr RD_KAFKA_RESP_ERR__UNDERFLOW)
  else let* v := v in Some (s, inl v).

Definition rd_kafka_buf_read_uvarint : reader Z := fun s =>
  let* (s, r, v) := rd_slice_read_uvarint rb s in
  if RD_UVARINT_UNDERFLOW r then Some (s, inr RD_KAFKA_RESP_ERR__UNDERFLOW)
  else let* v := v in Some (s, inl v).

(** Data that is there but not contiguous passes the check, and the pointer is NULL. *)
Definition contig_or_check (len : Z) : reader (option bytes) := fun s =>
  let* (s, p) := rd_slice_ensure_contig rb s (u64 len) in
  match p with
  | Some p => Some (s, inl (Some p))
  | None => (let! _ := rd_kafka_buf_check_len len in r_ret None) s
  end.

Definition rd_kafka_buf_read_str (flexver : bool) : reader kafkap_bytes :=
  let! len := (if flexver then let! uva := rd_kafka_buf_read_uvarint in r_ret (i32 (i32 uva - 1))
               else rd_kafka_buf_read_i16) in
  if len =? -1 then r_ret (mk_kbytes len None)
  else if len =? 0 then r_ret (mk_kbytes len (Some []))
  else let! p := contig_or_check len in r_ret (mk_kbytes len p).

Definition rd_kafka_buf_skip_str : reader unit :=
  let! slen := rd_kafka_buf_read_i16 in rd_kafka_buf_skip (RD_KAFKAP_LEN slen).

Definition read_bytes_data (klen size : Z) : reader kafkap_bytes :=
  if klen =? -1 then r_ret (mk_kbytes 0 None)
  else if klen =? 0 then r_ret (mk_kbytes klen (Some []))
  else let! p := contig_or_check size in r_ret (mk_kbytes klen p).

Definition rd_kafka_buf_read_bytes : reader kafkap_bytes :=
  let! klen := rd_kafka_buf_read_i32 in read_bytes_data klen klen.

Definition rd_kafka_buf_read_bytes_varint : reader kafkap_bytes :=
  let! len2 := rd_kafka_buf_read_varint in read_bytes_data (i32 len2) len2.

Definition rd_kafka_buf_read_ptr (size : Z) : reader (option bytes) := contig_or_check size.

End Read.

(** The buffer that points to [size] bytes of memory, and its reader. *)
Definition rd_kafka_buf_new_shadow (junk : Z -> Z) (ptr : bytes) (free_cb : option Z)
  : option (rd_buf * rd_slice) :=
  let* b := rd_buf_init 1 0 in
  let* b := rd_buf_push junk b ptr (zlen ptr) free_cb in
  let* s := rd_slice_init_full b in
  Some (b, s).
