(* ===== verification/RecordBatch.v ===== *)
(** * The record batch format

    Message set v2 as the protocol documents it, as bytes: what a writer has to produce
    and a reader to understand.  A message is well formed ([msg_ok]) if its fields agree
    with one another, as [rd_kafka_msg_new0] leaves them. *)

From S2P Require Import Prelude Varint Header Msgq KafkaBuf Crc.

(** ** Varints *)

Definition zvarint (num : Z) : bytes := leb128 (uvarint_size (zigzag num)) (zigzag num).

Lemma zvarint_range num : in_i 64 num -> 1 <= zlen (zvarint num) <= 10.
Proof.
  intros H. pose proof (zigzag_range num H) as Hz. unfold zvarint. rewrite length_leb128.
  pose proof (uvarint_size_digits (zigzag num) ltac:(apply Hz)) as Hd.
  pose proof (ndigits_u64 _ _ Hd ltac:(apply Hz)).
  pose proof (uvarint_size_pos (zigzag num) ltac:(apply Hz)). lia.
Qed.

(** A number of [7 * k] bits takes [k] bytes. *)
Lemma zvarint_len num k :
  1 <= k -> - 2 ^ (7 * k - 1) <= num < 2 ^ (7 * k - 1) -> 1 <= zlen (zvarint num) <= k.
Proof.
  intros Hk Hn. unfold zvarint. rewrite length_leb128.
  assert (2 ^ (7 * k) = 2 * 2 ^ (7 * k - 1)) as E
    by (rewrite <- Z.pow_succ_r by lia; f_equal; lia).
  assert (0 <= zigzag num < 2 ^ (7 * k)) as Hz by (unfold zigzag; destruct (Z.ltb_spec num 0); lia).
  pose proof (uvarint_size_digits (zigzag num) ltac:(lia)) as Hd.
  pose proof (ndigits_le _ k _ Hd ltac:(lia) ltac:(lia)).
  pose proof (uvarint_size_pos (zigzag num) ltac:(lia)). lia.
Qed.

Lemma zvarint_is_byte num : in_i 64 num -> Forall is_byte (zvarint num).
Proof.
  intros H. apply leb128_is_byte, uvarint_size_digits. now destruct (zigzag_range num H).
Qed.

Lemma enc_i64_zvarint dstsize num :
  in_i 64 num -> zlen (zvarint num) <= dstsize ->
  rd_uvarint_enc_i64 dstsize num = Some (zlen (zvarint num), zvarint num).
Proof.
  intros H Hd. pose proof (zigzag_range num H). unfold rd_uvarint_enc_i64.
  rewrite zigzag_enc by assumption. pose proof (zvarint_range num H).
  unfold zvarint in *. rewrite length_leb128 in *.
  rewrite uvarint_enc_fuel by (assumption || lia). ztest. reflexivity.
Qed.

(** Numbers of 32 bits fit the buffers of [RD_UVARINT_ENC_SIZEOF(int32_t)] bytes. *)
Lemma zvarint_len_i32 num : in_i 32 num -> 1 <= zlen (zvarint num) <= 5.
Proof. unfold in_i. intros H. apply zvarint_len; lia. Qed.

(** ** Records *)

Definition kv_bytes (o : option bytes) : bytes :=
  match o with Some b => zvarint (zlen b) ++ b | None => zvarint (-1) end.

Definition header_bytes (h : rd_kafka_header) : bytes :=
  zvarint (zlen (rkhdr_name h)) ++ rkhdr_name h ++ kv_bytes (rkhdr_value h).

Definition headers_bytes (l : list rd_kafka_header) : bytes := concat (map header_bytes l).

Definition msg_headers (m : rd_kafka_msg) : list rd_kafka_header :=
  match rkm_headers m with Some hdrs => rkhdrs_list hdrs | None => [] end.

Definition record_body (first_timestamp offset : Z) (m : rd_kafka_msg) : bytes :=
  [0] ++ zvarint (i64 (rkm_timestamp m - first_timestamp)) ++ zvarint offset
  ++ kv_bytes (rkm_key m) ++ kv_bytes (rkm_payload m)
  ++ zvarint (zlen (msg_headers m)) ++ headers_bytes (msg_headers m).

Definition record_bytes (first_timestamp offset : Z) (m : rd_kafka_msg) : bytes :=
  let b := record_body first_timestamp offset m in zvarint (zlen b) ++ b.

(** The records of consecutive messages. *)
Fixpoint records_bytes (first_timestamp offset : Z) (l : list rd_kafka_msg) : bytes :=
  match l with
  | [] => []
  | m :: l => record_bytes first_timestamp offset m ++ records_bytes first_timestamp (offset + 1) l
  end.

(** ** The batch *)

(** The fields after the CRC, which the CRC covers. *)
Definition batch_tail (attributes last_offset_delta base_timestamp max_timestamp pid epoch
  base_sequence count : Z) (records : bytes) : bytes :=
  be_enc 2 attributes ++ be_enc 4 last_offset_delta ++ be_enc 8 base_timestamp
  ++ be_enc 8 max_timestamp ++ be_enc 8 pid ++ be_enc 2 epoch ++ be_enc 4 base_sequence
  ++ be_enc 4 count ++ records.

Definition batch_bytes (base_offset leader_epoch : Z) (tail : bytes) : bytes :=
  be_enc 8 base_offset ++ be_enc 4 (zlen tail + 9) ++ be_enc 4 leader_epoch ++ be_enc 1 2
  ++ be_enc 4 (crc_reference POLY 0 tail) ++ tail.

(** ** Well-formed headers and messages *)

Definition opt_len (o : option bytes) : Z := match o with Some b => zlen b | None => 0 end.

Record header_ok (h : rd_kafka_header) : Prop := {
  ho_name : zlen (rkhdr_name h) < 2 ^ 31;
  ho_value : opt_len (rkhdr_value h) < 2 ^ 31 }.

Record headers_ok (hdrs : rd_kafka_headers) : Prop := {
  hs_each : Forall header_ok (rkhdrs_list hdrs);
  hs_size : rkhdrs_ser_size hdrs = zlen (headers_bytes (rkhdrs_list hdrs));
  hs_max : rkhdrs_ser_size hdrs < 2 ^ 31 }.

Record msg_ok (m : rd_kafka_msg) : Prop := {
  mk_len : rkm_len m = opt_len (rkm_payload m);
  mk_key_len : rkm_key_len m = opt_len (rkm_key m);
  mk_len_max : rkm_len m < 2 ^ 31;
  mk_key_max : rkm_key_len m < 2 ^ 31;
  mk_hdrs : forall hdrs, rkm_headers m = Some hdrs -> headers_ok hdrs }.

Lemma kv_len o : opt_len o < 2 ^ 31 -> opt_len o < zlen (kv_bytes o) <= opt_len o + 5.
Proof.
  unfold kv_bytes. destruct o as [b |]; cbn [opt_len]; intros H.
  - pose proof (zvarint_len_i32 (zlen b) ltac:(unfold in_i; lia)). zlen_lia.
  - pose proof (zvarint_len_i32 (-1) ltac:(unfold in_i; lia)). lia.
Qed.

Lemma header_len h : header_ok h -> 2 <= zlen (header_bytes h).
Proof.
  intros [H1 H2]. unfold header_bytes. pose proof (kv_len _ H2).
  pose proof (zvarint_len_i32 (zlen (rkhdr_name h)) ltac:(unfold in_i; lia)).
  destruct (rkhdr_value h); cbn [opt_len] in *; zlen_lia.
Qed.

Lemma headers_count l : Forall header_ok l -> 2 * zlen l <= zlen (headers_bytes l).
Proof.
  induction 1 as [| h l Hh _ IH]; [cbn; lia |]. unfold headers_bytes in *. cbn [map concat].
  pose proof (header_len h Hh). zlen_lia.
Qed.

Lemma headers_app a b : headers_bytes (a ++ b) = headers_bytes a ++ headers_bytes b.
Proof. unfold headers_bytes. now rewrite map_app, concat_app. Qed.

Definition msg_hdr_size (m : rd_kafka_msg) : Z :=
  match rkm_headers m with Some hdrs => rkhdrs_ser_size hdrs | None => 0 end.

Lemma msg_hdr_ok m :
  msg_ok m -> Forall header_ok (msg_headers m) /\
  msg_hdr_size m = zlen (headers_bytes (msg_headers m)) /\ msg_hdr_size m < 2 ^ 31.
Proof.
  intros H. unfold msg_hdr_size, msg_headers. destruct (rkm_headers m) as [hdrs |] eqn:E.
  - destruct (mk_hdrs _ H hdrs E). auto.
  - split; [constructor |]. split; [reflexivity | lia].
Qed.

(** The size of a record: the varints but the two of the timestamp and the offset have
    at most five bytes. *)
Lemma record_body_len ts off m :
  msg_ok m -> in_i 31 off ->
  6 + rkm_len m + rkm_key_len m + msg_hdr_size m <= zlen (record_body ts off m) <=
  31 + rkm_len m + rkm_key_len m + msg_hdr_size m.
Proof.
  intros Hm Ho. destruct (msg_hdr_ok m Hm) as (H1 & H2 & H3). pose proof (headers_count _ H1).
  unfold record_body. rewrite (mk_len _ Hm), (mk_key_len _ Hm).
  pose proof (mk_len_max _ Hm) as Hl. rewrite (mk_len _ Hm) in Hl.
  pose proof (mk_key_max _ Hm) as Hk. rewrite (mk_key_len _ Hm) in Hk.
  pose proof (kv_len _ Hl). pose proof (kv_len _ Hk).
  pose proof (zvarint_range (i64 (rkm_timestamp m - ts)) (swrap_range 64 _ ltac:(lia))).
  pose proof (zvarint_len_i32 off ltac:(unfold in_i in *; lia)).
  pose proof (zvarint_len_i32 (zlen (msg_headers m)) ltac:(unfold in_i; lia)). zlen_lia.
Qed.

Lemma record_len ts off m :
  msg_ok m -> in_i 31 off ->
  7 + rkm_len m + rkm_key_len m + msg_hdr_size m <= zlen (record_bytes ts off m) <=
  36 + rkm_len m + rkm_key_len m + msg_hdr_size m.
Proof.
  intros Hm Ho. pose proof (record_body_len ts off m Hm Ho).
  destruct (msg_hdr_ok m Hm) as (_ & _ & H3).
  pose proof (mk_len_max _ Hm). pose proof (mk_key_max _ Hm).
  pose proof (zvarint_len (zlen (record_body ts off m)) 5 ltac:(lia) ltac:(lia)).
  unfold record_bytes. cbv zeta. rewrite zlen_app. lia.
Qed.

Lemma records_app ts l1 : forall off l2,
  records_bytes ts off (l1 ++ l2) =
  records_bytes ts off l1 ++ records_bytes ts (off + zlen l1) l2.
Proof.
  induction l1 as [| m l1 IH]; intros off l2; cbn [app records_bytes].
  - f_equal. cbn. lia.
  - rewrite IH, <- app_assoc. do 3 f_equal. cbn [length]. lia.
Qed.
