(* ===== verification/HeaderProps.v ===== *)
(** * Message headers, facts

    The size of a list of headers is that of its bytes on the wire, whatever operations
    made it; looking up and removing headers by name, against [filter]. *)

From S2P Require Import Prelude Varint Header Msgq KafkaBuf RecordBatch.

(** ** The size *)

(** Each header, and the list, know their sizes. *)
Definition sized (h : rd_kafka_header) : Prop := rkhdr_ser_size h = zlen (header_bytes h).

Record headers_wf (hdrs : rd_kafka_headers) : Prop := {
  hw_ok : headers_ok hdrs;
  hw_sized : Forall sized (rkhdrs_list hdrs) }.

Lemma headers_new_wf : headers_wf rd_kafka_headers_new.
Proof. repeat constructor. Qed.

Lemma varint_size_spec n : 0 <= n < 2 ^ 31 -> varint_size n = Some (zlen (zvarint n)).
Proof.
  intros H. unfold varint_size. pose proof (zvarint_len_i32 n ltac:(unfold in_i; lia)).
  change (RD_UVARINT_ENC_SIZEOF 4) with 5.
  rewrite enc_i64_zvarint by (unfold in_i; lia). reflexivity.
Qed.

(** A null value takes one byte, as an empty one does. *)
Lemma kv_value_len v : opt_len v < 2 ^ 31 -> zlen (kv_bytes v) = zlen (zvarint (opt_len v)) + opt_len v.
Proof. destruct v as [b |]; intros H; [unfold kv_bytes; cbn [opt_len]; zlen_lia | reflexivity]. Qed.

Lemma header_add_spec hdrs name value :
  headers_wf hdrs -> zlen name < 2 ^ 31 -> opt_len value < 2 ^ 31 ->
  let h := mk_header (zlen (header_bytes (mk_header 0 name value))) name value in
  rkhdrs_ser_size hdrs + rkhdr_ser_size h < 2 ^ 31 ->
  rd_kafka_header_add hdrs name value =
    Some (mk_headers (rkhdrs_list hdrs ++ [h]) (rkhdrs_ser_size hdrs + rkhdr_ser_size h)) /\
  headers_wf (mk_headers (rkhdrs_list hdrs ++ [h]) (rkhdrs_ser_size hdrs + rkhdr_ser_size h)).
Proof.
  intros [[He Hs Hm] Hz] Hn Hv h Hmax. unfold rd_kafka_header_add.
  change (match value with Some v => zlen v | None => 0 end) with (opt_len value).
  assert (0 <= opt_len value) by (destruct value; cbn; lia).
  rewrite !varint_size_spec by lia. pose proof (zvarint_len_i32 (zlen name) ltac:(unfold in_i; lia)).
  pose proof (zvarint_len_i32 (opt_len value) ltac:(unfold in_i; lia)).
  assert (zlen (header_bytes (mk_header 0 name value)) =
    zlen name + opt_len value + zlen (zvarint (zlen name)) + zlen (zvarint (opt_len value))) as El.
  { unfold header_bytes. cbn [rkhdr_name rkhdr_value]. rewrite !zlen_app, kv_value_len by assumption. lia. }
  assert (0 <= rkhdrs_ser_size hdrs) by (rewrite Hs; lia).
  cbn [rkhdr_ser_size h] in *. unfold h. rewrite El in *.
  rewrite (wrap_small 64 (zlen name + _)), wrap_small by lia. rewrite wrap_small by lia.
  split; [reflexivity |]. split.
  - constructor; cbn [rkhdrs_list rkhdrs_ser_size]; [| | lia].
    + apply Forall_app. split; [assumption |]. constructor; [split; assumption | constructor].
    + rewrite headers_app, zlen_app, Hs. f_equal. unfold headers_bytes. cbn [map concat].
      rewrite app_nil_r. symmetry. exact El.
  - apply Forall_app. split; [assumption |]. constructor; [symmetry; exact El | constructor].
Qed.

(** ** Removal and lookup *)

Definition named (name : bytes) (h : rd_kafka_header) : bool := header_is_named h name.
Definition cnamed (name : bytes) (h : rd_kafka_header) : bool := rd_kafka_header_cmp_str h name.

Definition ser_sum (l : list rd_kafka_header) : Z := foldr (fun h n => rkhdr_ser_size h + n) 0 l.

Lemma ser_sum_app a b : ser_sum (a ++ b) = ser_sum a + ser_sum b.
Proof. unfold ser_sum. induction a; cbn; lia. Qed.

Lemma ser_sum_sized l : Forall sized l -> ser_sum l = zlen (headers_bytes l).
Proof.
  unfold headers_bytes. induction 1 as [| h l Hh _ IH]; [reflexivity |]. cbn [map concat].
  rewrite zlen_app, <- IH, <- Hh. reflexivity.
Qed.

Lemma filter_split {A} (p : A -> bool) l :
  List.filter p l ++ List.filter (fun x => negb (p x)) l ≡ₚ l.
Proof.
  induction l as [| x l IH]; [reflexivity |]. cbn. destruct (p x); cbn; rewrite ?IH; [reflexivity |].
  rewrite <- Permutation_middle. now rewrite IH.
Qed.

Lemma Forall_bfilter {A} (P : A -> Prop) (p : A -> bool) l : Forall P l -> Forall P (List.filter p l).
Proof. induction 1; cbn; [constructor |]. destruct (p x); auto. Qed.
#[local] Hint Resolve Forall_bfilter : core.

Lemma ser_sum_perm a b : a ≡ₚ b -> ser_sum a = ser_sum b.
Proof. unfold ser_sum. induction 1; cbn in *; lia. Qed.

Lemma sized_pos h : header_ok h -> sized h -> 0 < rkhdr_ser_size h.
Proof. intros H ->. pose proof (header_len h H). lia. Qed.

Lemma ser_sum_pos l : Forall header_ok l -> Forall sized l -> 0 <= ser_sum l.
Proof. intros _ H. rewrite ser_sum_sized by assumption. lia. Qed.

Lemma header_remove_loop_spec name l2 : forall l1 s,
  Forall header_ok l1 -> Forall sized l1 -> 0 <= s -> s + ser_sum l1 < 2 ^ 64 ->
  header_remove_loop (length l1) (l1 ++ l2) name s =
    (List.filter (fun h => negb (cnamed name h)) l1 ++ l2,
     s + ser_sum (List.filter (cnamed name) l1)).
Proof.
  intros l1. revert l2. induction l1 as [| h l1 IH] using rev_ind; intros l2 s Hok Hs H0 Hm.
  { cbn. now rewrite Z.add_0_r. }
  apply Forall_app in Hok as [Hok Hh]. apply Forall_app in Hs as [Hs Hsh].
  rewrite Forall_cons_iff in Hh, Hsh. destruct Hh as [Hh _], Hsh as [Hsh _].
  pose proof (sized_pos h Hh Hsh). pose proof (ser_sum_pos l1 Hok Hs).
  rewrite ser_sum_app in Hm. unfold ser_sum at 2 in Hm. cbn [foldr] in Hm.
  rewrite length_app. cbn [length]. rewrite Nat.add_1_r. cbn [header_remove_loop].
  rewrite <- app_assoc. cbn [app]. rewrite list_lookup_middle by reflexivity.
  rewrite !List.filter_app. cbn [List.filter]. fold (cnamed name h).
  destruct (cnamed name h) eqn:E; cbn [negb].
  - rewrite delete_middle, wrap_small by lia. rewrite IH by (assumption || lia).
    rewrite app_nil_r, ser_sum_app. unfold ser_sum at 3. cbn [foldr]. f_equal. lia.
  - rewrite IH by (assumption || lia). now rewrite <- app_assoc, app_nil_r.
Qed.

Lemma header_remove_spec hdrs name :
  headers_wf hdrs ->
  let kept := List.filter (fun h => negb (cnamed name h)) (rkhdrs_list hdrs) in
  rd_kafka_header_remove hdrs name =
    (mk_headers kept (zlen (headers_bytes kept)),
     if existsb (cnamed name) (rkhdrs_list hdrs) then 0 else RD_KAFKA_RESP_ERR__NOENT) /\
  headers_wf (mk_headers kept (zlen (headers_bytes kept))).
Proof.
  intros [[He Hs Hm] Hz] kept. set (l := rkhdrs_list hdrs) in *.
  pose proof (ser_sum_sized l Hz) as Hsum.
  assert (ser_sum (List.filter (cnamed name) l) + ser_sum kept = ser_sum l) as Hpart.
  { rewrite <- ser_sum_app. apply ser_sum_perm, filter_split. }
  assert (Forall header_ok kept /\ Forall sized kept) as [Hko Hks].
  { unfold kept. auto. }
  assert (0 <= ser_sum (List.filter (cnamed name) l)) as Hpos.
  { apply ser_sum_pos; auto. }
  pose proof (ser_sum_pos kept Hko Hks).
  assert ((ser_sum (List.filter (cnamed name) l) =? 0) = negb (existsb (cnamed name) l)) as Hex.
  { clear - He Hz. induction l as [| h l IH]; [reflexivity |]. cbn. rewrite Forall_cons_iff in He, Hz.
    destruct He as [Hh He], Hz as [Hsh Hz]. specialize (IH He Hz). destruct (cnamed name h); cbn [negb orb]; [| exact IH].
    pose proof (sized_pos h Hh Hsh). unfold ser_sum. cbn [foldr]. fold (ser_sum (List.filter (cnamed name) l)).
    pose proof (ser_sum_pos (List.filter (cnamed name) l) ltac:(auto) ltac:(auto)). lia. }
  split.
  - unfold rd_kafka_header_remove. fold l.
    pose proof (header_remove_loop_spec name [] l 0 He Hz ltac:(lia) ltac:(lia)) as E.
    rewrite !app_nil_r in E. rewrite E, Z.add_0_l. fold kept. rewrite Hex.
    destruct (existsb (cnamed name) l) eqn:Ex; cbn [negb].
    + do 2 f_equal. rewrite <- ser_sum_sized by assumption. rewrite wrap_small; lia.
    + do 2 f_equal. rewrite Hs, <- Hsum, <- (ser_sum_sized kept) by assumption. lia.
  - split; [| assumption]. constructor; cbn [rkhdrs_list rkhdrs_ser_size]; [assumption | reflexivity |].
    rewrite <- ser_sum_sized by assumption. lia.
Qed.

Lemma get_last_loop_spec name l2 : forall l1,
  get_last_loop (length l1) (l1 ++ l2) name = list.last (List.filter (named name) l1).
Proof.
  intros l1. revert l2. induction l1 as [| h l1 IH] using rev_ind; intros l2; [reflexivity |].
  rewrite length_app, <- app_assoc, List.filter_app. cbn [length app List.filter].
  rewrite Nat.add_1_r. cbn [get_last_loop]. rewrite list_lookup_middle by reflexivity.
  fold (named name h). destruct (named name h).
  - symmetry. apply last_snoc.
  - rewrite app_nil_r. apply IH.
Qed.

Lemma header_get_loop_spec name idx : forall l mi,
  mi <= idx ->
  header_get_loop l idx mi name = List.filter (named name) l !! Z.to_nat (idx - mi).
Proof.
  induction l as [| h l IH]; intros mi Hi; cbn [header_get_loop List.filter]; [reflexivity |].
  fold (named name h). destruct (named name h); [| now apply IH].
  destruct (Z.eqb_spec mi idx) as [-> |].
  - now rewrite Z.sub_diag.
  - rewrite IH by lia. replace (Z.to_nat (idx - mi)) with (S (Z.to_nat (idx - (mi + 1)))) by lia.
    reflexivity.
Qed.

(** Copying a list adds its headers again. *)
Lemma headers_copy_loop_spec l : forall dst,
  headers_wf dst -> Forall header_ok l -> Forall sized l ->
  rkhdrs_ser_size dst + ser_sum l < 2 ^ 31 ->
  headers_copy_loop l dst =
    Some (mk_headers (rkhdrs_list dst ++ l) (rkhdrs_ser_size dst + ser_sum l)).
Proof.
  induction l as [| h l IH]; intros dst Hd Hok Hs Hm; cbn [headers_copy_loop].
  - rewrite app_nil_r. unfold ser_sum. cbn. rewrite Z.add_0_r. now destruct dst.
  - rewrite Forall_cons_iff in Hok, Hs. destruct Hok as [Hh Hok], Hs as [Hsh Hs].
    pose proof (ser_sum_pos l Hok Hs) as Hp. unfold ser_sum in Hm. cbn [foldr] in Hm. fold (ser_sum l) in Hm.
    assert (mk_header (zlen (header_bytes (mk_header 0 (rkhdr_name h) (rkhdr_value h)))) (rkhdr_name h)
      (rkhdr_value h) = h) as Eh.
    { destruct h as [sz n v]. unfold sized in Hsh. cbn in Hsh |- *. now rewrite Hsh. }
    destruct (header_add_spec dst (rkhdr_name h) (rkhdr_value h) Hd (ho_name _ Hh) (ho_value _ Hh)) as [E Hw].
    { rewrite Eh. lia. }
    rewrite Eh in E, Hw. rewrite E. rewrite IH by (assumption || (cbn [rkhdrs_ser_size]; lia)).
    cbn [rkhdrs_list rkhdrs_ser_size]. rewrite <- app_assoc. cbn [app]. do 2 f_equal.
    unfold ser_sum. cbn [foldr]. lia.
Qed.

Lemma headers_copy_spec hdrs : headers_wf hdrs -> rd_kafka_headers_copy hdrs = Some hdrs.
Proof.
  intros [[He Hs Hm] Hz]. unfold rd_kafka_headers_copy. rewrite headers_copy_loop_spec; try assumption.
  - rewrite ser_sum_sized, <- Hs by assumption. now destruct hdrs.
  - apply headers_new_wf.
  - rewrite ser_sum_sized, <- Hs by assumption. exact Hm.
Qed.

(** ** The properties *)

(** What an application does with a list, and the same on a list of names and values. *)
Inductive hdr_op : Type :=
| HAdd (name : bytes) (value : option bytes)
| HRemove (name : bytes)
| HCopy.

Definition hdr_step (hdrs : rd_kafka_headers) (op : hdr_op) : option (rd_kafka_headers * Z) :=
  match op with
  | HAdd name value => let* hdrs := rd_kafka_header_add hdrs name value in Some (hdrs, 0)
  | HRemove name => Some (rd_kafka_header_remove hdrs name)
  | HCopy => let* hdrs := rd_kafka_headers_copy hdrs in Some (hdrs, 0)
  end.

Definition spec_step (l : list (bytes * option bytes)) (op : hdr_op) : list (bytes * option bytes) * Z :=
  match op with
  | HAdd name value => (l ++ [(name, value)], 0)
  | HRemove name =>
      (List.filter (fun h => negb (bool_decide (c_string (fst h) = name))) l,
       if existsb (fun h => bool_decide (c_string (fst h) = name)) l then 0 else RD_KAFKA_RESP_ERR__NOENT)
  | HCopy => (l, 0)
  end.

(** The list after the operations and what each returned. *)
Fixpoint hdr_run (hdrs : rd_kafka_headers) (ops : list hdr_op) : option (rd_kafka_headers * list Z) :=
  match ops with
  | [] => Some (hdrs, [])
  | op :: ops =>
      let* (hdrs, err) := hdr_step hdrs op in
      let* (hdrs, errs) := hdr_run hdrs ops in
      Some (hdrs, err :: errs)
  end.

Fixpoint spec_run (l : list (bytes * option bytes)) (ops : list hdr_op) :=
  match ops with
  | [] => (l, [])
  | op :: ops =>
      let '(l, err) := spec_step l op in
      let '(l, errs) := spec_run l ops in
      (l, err :: errs)
  end.

Definition name_value (h : rd_kafka_header) : bytes * option bytes := (rkhdr_name h, rkhdr_value h).

(** The room the added headers take, 10 bytes for the lengths of each. *)
Fixpoint ops_size (ops : list hdr_op) : Z :=
  match ops with
  | [] => 0
  | HAdd name value :: ops => 10 + zlen name + opt_len value + ops_size ops
  | _ :: ops => ops_size ops
  end.

Lemma ops_size_pos ops : 0 <= ops_size ops.
Proof. induction ops as [| [name [v |] | |] ops IH]; cbn [ops_size opt_len]; lia. Qed.

Lemma map_filter_name_value (p : bytes * option bytes -> bool) l :
  map name_value (List.filter (fun h => p (name_value h)) l) = List.filter p (map name_value l).
Proof. induction l as [| h l IH]; [reflexivity |]. cbn. destruct (p (name_value h)); cbn; now rewrite IH. Qed.

Lemma existsb_name_value (p : bytes * option bytes -> bool) l :
  existsb (fun h => p (name_value h)) l = existsb p (map name_value l).
Proof. induction l as [| h l IH]; [reflexivity |]. cbn. now rewrite IH. Qed.

Lemma hdr_step_spec hdrs op n :
  headers_wf hdrs -> rkhdrs_ser_size hdrs + ops_size [op] + n < 2 ^ 31 -> 0 <= n ->
  exists hdrs' err, hdr_step hdrs op = Some (hdrs', err) /\ headers_wf hdrs' /\
    rkhdrs_ser_size hdrs' + n < 2 ^ 31 /\ rkhdrs_ser_size hdrs' <= rkhdrs_ser_size hdrs + ops_size [op] /\
    spec_step (map name_value (rkhdrs_list hdrs)) op = (map name_value (rkhdrs_list hdrs'), err).
Proof.
  intros Hw Hm Hn. assert (0 <= rkhdrs_ser_size hdrs) as H0 by (rewrite (hs_size _ (hw_ok _ Hw)); lia).
  destruct op as [name value | name |]; cbn [hdr_step spec_step ops_size] in *.
  - assert (0 <= opt_len value) by (destruct value; cbn; lia).
    assert (zlen (header_bytes (mk_header 0 name value)) <= 10 + zlen name + opt_len value) as Hl.
    { unfold header_bytes. cbn [rkhdr_name rkhdr_value]. pose proof (kv_len value ltac:(lia)).
      pose proof (zvarint_len_i32 (zlen name) ltac:(unfold in_i; lia)). zlen_lia. }
    destruct (header_add_spec hdrs name value Hw ltac:(lia) ltac:(lia)) as [E Hw']; [cbn; lia |].
    rewrite E. do 2 eexists. split; [reflexivity |]. split; [exact Hw' |]. cbn [rkhdrs_ser_size rkhdrs_list rkhdr_ser_size].
    split; [lia |]. split; [lia |]. now rewrite map_app.
  - destruct (header_remove_spec hdrs name Hw) as [-> Hw']. do 2 eexists. split; [reflexivity |].
    split; [exact Hw' |]. cbn [rkhdrs_ser_size rkhdrs_list].
    set (p := fun h : bytes * option bytes => bool_decide (c_string (fst h) = name)).
    assert (zlen (headers_bytes (List.filter (fun h => negb (cnamed name h)) (rkhdrs_list hdrs))) <=
      rkhdrs_ser_size hdrs).
    { destruct Hw as [[He Hs _] Hz]. rewrite Hs, <- !ser_sum_sized by auto.
      rewrite <- (ser_sum_perm _ _ (filter_split (cnamed name) (rkhdrs_list hdrs))), ser_sum_app.
      pose proof (ser_sum_pos (List.filter (cnamed name) (rkhdrs_list hdrs)) ltac:(auto) ltac:(auto)). lia. }
    split; [lia |]. split; [lia |].
    f_equal.
    + symmetry. apply (map_filter_name_value (fun h => negb (p h))).
    + now rewrite <- (existsb_name_value p).
  - rewrite headers_copy_spec by assumption. do 2 eexists. split; [reflexivity |]. split; [assumption |]. split; [lia |]. split; [lia | reflexivity].
Qed.

Lemma hdr_run_spec ops : forall hdrs,
  headers_wf hdrs -> rkhdrs_ser_size hdrs + ops_size ops < 2 ^ 31 ->
  exists hdrs' errs, hdr_run hdrs ops = Some (hdrs', errs) /\ headers_wf hdrs' /\
    spec_run (map name_value (rkhdrs_list hdrs)) ops = (map name_value (rkhdrs_list hdrs'), errs).
Proof.
  induction ops as [| op ops IH]; intros hdrs Hw Hm; cbn [hdr_run spec_run].
  - eauto.
  - assert (ops_size (op :: ops) = ops_size [op] + ops_size ops) as Es by (destruct op; cbn; lia).
    pose proof (ops_size_pos ops).
    destruct (hdr_step_spec hdrs op (ops_size ops) Hw ltac:(lia) ltac:(lia)) as (h1 & err & -> & Hw1 & Hm1 & _ & ->).
    destruct (IH h1 Hw1 Hm1) as (h2 & errs & -> & Hw2 & ->). eauto 10.
Qed.

(** Whatever headers an application adds, removes and copies, the operations do what
    they do on a plain list of names and values, and the serialized size the list keeps
    is exactly the number of bytes its headers take in a record: what the message set
    writer relies on when it writes the length of a record before the record. *)
Lemma headers_refine_list ops :
  ops_size ops < 2 ^ 31 ->
  exists hdrs errs, hdr_run rd_kafka_headers_new ops = Some (hdrs, errs) /\
    spec_run [] ops = (map name_value (rkhdrs_list hdrs), errs) /\
    rkhdrs_ser_size hdrs = zlen (headers_bytes (rkhdrs_list hdrs)).
Proof.
  intros Hm. destruct (hdr_run_spec ops rd_kafka_headers_new headers_new_wf Hm) as (h & e & E & Hw & Es).
  exists h, e. split; [exact E |]. split; [exact Es |]. apply (hs_size _ (hw_ok _ Hw)).
Qed.

Theorem headers_refine_list_witness :
  exists hdrs, hdr_run rd_kafka_headers_new [HAdd [97] (Some [1; 2]); HAdd [98] None; HRemove [97]; HCopy; HRemove [99]] =
    Some (hdrs, [0; 0; 0; 0; RD_KAFKA_RESP_ERR__NOENT]) /\
    rkhdrs_ser_size hdrs = zlen (headers_bytes (rkhdrs_list hdrs)) /\ rkhdrs_ser_size hdrs = 3.
Proof.
  destruct (headers_refine_list [HAdd [97] (Some [1; 2]); HAdd [98] None; HRemove [97]; HCopy; HRemove [99]])
    as (hdrs & errs & E & Es & Hs); [cbn; lia |].
  exists hdrs. vm_compute in E. injection E as <- <-. repeat split; exact Hs.
Defined.

(** Looking up a header finds, for an index, the header of that index among those of
    the name, and without one the last of them, comparing sizes as well as characters;
    removal goes by the characters up to the first NUL alone, so a header whose name
    holds a NUL is removed under a name no lookup finds it by. *)
Lemma header_lookup_by_name hdrs name :
  (forall idx, 0 <= idx ->
     rd_kafka_header_get hdrs idx name =
       header_result (List.filter (named name) (rkhdrs_list hdrs) !! Z.to_nat idx)) /\
  rd_kafka_header_get_last hdrs name =
    header_result (list.last (List.filter (named name) (rkhdrs_list hdrs))) /\
  (forall h, In h (rkhdrs_list hdrs) -> named name h = true -> cnamed name h = true) /\
  exists h2 nm, rd_kafka_header_get_last h2 nm = None /\
    snd (rd_kafka_header_remove h2 nm) = 0 /\ rkhdrs_list (fst (rd_kafka_header_remove h2 nm)) = [].
Proof.
  split; [| split; [| split]].
  - intros idx Hi. unfold rd_kafka_header_get. rewrite header_get_loop_spec by lia. now rewrite Z.sub_0_r.
  - unfold rd_kafka_header_get_last. rewrite <- (app_nil_r (rkhdrs_list hdrs)) at 2.
    now rewrite get_last_loop_spec.
  - intros h _. unfold named, header_is_named, cnamed. intros H. zbool. assumption.
  - exists (mk_headers [mk_header 5 [97; 0; 98] None] 5), [97]. now vm_compute.
Qed.
