(* ===== verification/KafkaBufFacts.v ===== *)
(** * What request buffers promise

    A request buffer refines a byte string as its segmented buffer does, and its memory
    stays within a multiple of the data, so that no write fails for want of address
    space.  The integers in network order read back. *)

From S2P Require Import Prelude Varint RdBuf RdBufFacts Slice SliceFacts RdBufProps Crc KafkaBuf.

(** ** Integers in network order *)

Lemma length_be_enc n v : length (be_enc n v) = n.
Proof. induction n; cbn; congruence. Qed.

Lemma zlen_be_enc n v : zlen (be_enc n v) = Z.of_nat n.
Proof. now rewrite length_be_enc. Qed.

#[export] Hint Rewrite zlen_be_enc : zlist.

Lemma be_enc_is_byte n v : Forall is_byte (be_enc n v).
Proof.
  induction n; constructor; [| assumption]. unfold is_byte.
  change 255 with (Z.ones 8). rewrite Z.land_ones by lia. apply Z.mod_pos_bound. lia.
Qed.

Lemma be_dec_cons x b : be_dec (x :: b) = x * 256 ^ zlen b + be_dec b.
Proof.
  unfold be_dec. cbn [foldl]. change (0 * 256 + x) with x.
  enough (forall l a, foldl (fun a x => a * 256 + x) a l
                      = a * 256 ^ zlen l + foldl (fun a x => a * 256 + x) 0 l) as H by apply H.
  induction l as [| y l IH]; intros a; [cbn; lia |]. cbn [foldl].
  rewrite IH, (IH (0 * 256 + y)). cbn [length]. rewrite Nat2Z.inj_succ, Z.pow_succ_r by lia. lia.
Qed.

Lemma be_dec_enc n v : be_dec (be_enc n v) = v mod 256 ^ Z.of_nat n.
Proof.
  induction n as [| n IH]; [cbn; now rewrite Z.mod_1_r |]. cbn [be_enc].
  rewrite be_dec_cons, IH, length_be_enc.
  change 255 with (Z.ones 8). rewrite Z.land_ones, Z.shiftr_div_pow2 by lia.
  rewrite Z.pow_mul_r by lia. change (2 ^ 8) with 256.
  rewrite Nat2Z.inj_succ, Z.pow_succ_r by lia.
  rewrite (Z.mul_comm 256), (Z.rem_mul_r v) by lia. lia.
Qed.

(** Only the bits that fit count. *)
Lemma be_enc_mod m v n : (n <= m)%nat -> be_enc n (v mod 2 ^ (8 * Z.of_nat m)) = be_enc n v.
Proof.
  induction n as [| n IH]; intros Hm; [reflexivity |]. cbn [be_enc]. rewrite IH by lia. f_equal.
  change 255 with (Z.ones 8). apply Z.bits_inj'. intros i Hi. rewrite !Z.land_spec.
  destruct (Z.lt_ge_cases i 8).
  - rewrite !Z.shiftr_spec, Z.mod_pow2_bits_low by lia. reflexivity.
  - rewrite Z.ones_spec_high by lia. now rewrite !andb_false_r.
Qed.

Lemma be_enc_u32 v : be_enc 4 (u32 v) = be_enc 4 v.
Proof. apply (be_enc_mod 4). lia. Qed.

Lemma be_enc_i32 v : be_enc 4 (i32 v) = be_enc 4 v.
Proof. rewrite <- be_enc_u32, wrap_swrap by lia. apply be_enc_u32. Qed.

(** ** The memory of a buffer *)

Lemma get_writable0_size b : rbuf_size (fst (fst (rd_buf_get_writable0 b))) = rbuf_size b.
Proof. unfold rd_buf_get_writable0. repeat case_match; reflexivity. Qed.

Lemma append_segment_size b s :
  rbuf_size (rd_buf_append_segment b s) = rbuf_size b + seg_size s.
Proof.
  unfold rd_buf_append_segment. destruct (rbuf_wpos b); [| reflexivity].
  match goal with |- context [rd_buf_get_writable0 ?x] => pose proof (get_writable0_size x) as H;
    destruct (rd_buf_get_writable0 x) as [[? ?] ?] end.
  cbn in H |- *. assumption.
Qed.

Lemma write_loop_size fuel : forall b p rem b',
  write_loop fuel b p rem = Some b' -> rbuf_size b' = rbuf_size b.
Proof.
  induction fuel as [| fuel IH]; intros b p rem b'; cbn [write_loop];
    destruct (rem <=? 0); try (intros; congruence).
  pose proof (get_writable0_size b) as H. destruct (rd_buf_get_writable0 b) as [[b1 ?] [i |]]; [| discriminate].
  intros E. apply IH in E. cbn in E, H. congruence.
Qed.

Section Grow.
Context (junk : Z -> Z).

Lemma alloc_segment0_size b size :
  let '(b', s) := rd_buf_alloc_segment0 junk b size in
  rbuf_size b' = rbuf_size b /\ seg_size s = size.
Proof.
  unfold rd_buf_alloc_segment0, extra_alloc.
  destruct (_ >? rbuf_extra_size b); [destruct (_ >? rbuf_extra_size b) |]; split; reflexivity.
Qed.

Lemma write_ensure_size b n b' :
  wf b -> rbuf_erased b = 0 -> 0 <= n < 2 ^ 62 -> 0 <= rbuf_size b < 2 ^ 62 ->
  rd_buf_write_ensure junk b n 0 = Some b' ->
  rbuf_size b' = rbuf_size b \/
  rbuf_size b < rbuf_len b + n /\ rbuf_size b' <= rbuf_size b + (256 + 2 * n + rbuf_size b / 2).
Proof.
  intros Hb He Hn Hs. destruct (write_remains_wf b Hb) as (_ & Hl & Er & Hr).
  unfold rd_buf_write_ensure. cbn [write_ensure_loop].
  destruct (Z.ltb_spec (rd_buf_write_remains b) n) as [Hlt | Hge]; [| intros [= ->]; now left].
  change (if 0 =? 0 then 0 else _) with 0. unfold rd_buf_alloc_segment.
  rewrite orb_true_r. set (sz := RD_MAX _ _).
  pose proof (alloc_segment0_size b sz) as Ha.
  destruct (rd_buf_alloc_segment0 junk b sz) as [b1 s]. destruct Ha as [H1 H2].
  intros E. right. split; [lia |].
  assert (sz <= 256 + 2 * n + rbuf_size b / 2) as Hsz.
  { unfold sz. rewrite !RD_MAX_max, wrap_small by lia. change (SIZEOF_SEGMENT * 4) with 256.
    assert (0 <= rbuf_size b / 2) by (apply Z.div_pos; lia). lia. }
  assert (rbuf_size (rd_buf_append_segment b1 s) = rbuf_size b + sz) as Es
    by (rewrite append_segment_size; congruence).
  destruct (rd_buf_write_remains (rd_buf_append_segment b1 s) <? n).
  { destruct (rd_buf_alloc_segment0 junk (rd_buf_append_segment b1 s) _); discriminate. }
  injection E as <-. lia.
Qed.

Lemma rd_buf_write_size b p n b' r :
  wf b -> rbuf_erased b = 0 -> 0 <= n < 2 ^ 62 -> 0 <= rbuf_size b < 2 ^ 62 ->
  rd_buf_write junk b p n = Some (b', r) ->
  rbuf_size b' = rbuf_size b \/
  rbuf_size b < rbuf_len b + n /\ rbuf_size b' <= rbuf_size b + (256 + 2 * n + rbuf_size b / 2).
Proof.
  intros Hb He Hn Hs. unfold rd_buf_write.
  destruct (rd_buf_write_ensure junk b n 0) as [b1 |] eqn:E1; [| discriminate].
  destruct (write_loop _ b1 p n) as [b2 |] eqn:E2; [| discriminate].
  apply write_loop_size in E2. intros [= <- _]. rewrite E2. now apply write_ensure_size.
Qed.

Lemma segment_split_size b i absof b' t :
  rd_segment_split junk b i absof = Some (b', t) -> rbuf_size b' + seg_size t = rbuf_size b.
Proof.
  unfold rd_segment_split. destruct (rd_assert _); [| discriminate].
  destruct (rbuf_segments b !! i); [| discriminate]. destruct (rd_assert _); [| discriminate].
  pose proof (alloc_segment0_size b 0) as Ha. destruct (rd_buf_alloc_segment0 junk b 0) as [b1 n].
  destruct Ha as [Ha _]. intros [= <- <-]. cbn. lia.
Qed.

Lemma rd_buf_push_size b p fcb w b' :
  rd_buf_push0 junk b p (zlen p) fcb w = Some b' -> rbuf_size b' = rbuf_size b + zlen p.
Proof.
  assert (forall b0 (t : option rd_segment) b2,
    (let '(b1, s) := rd_buf_alloc_segment0 junk b0 0 in
     let s := mk_segment p (zlen p) (zlen p) (seg_absof s) fcb
                (if w then seg_flags s else Z.lor (seg_flags s) RD_SEGMENT_F_RDONLY) in
     match t with
     | Some t => Some (rd_buf_append_segment (rd_buf_append_segment b1 s) t)
     | None => Some (rd_buf_append_segment b1 s)
     end) = Some b2 ->
    rbuf_size b2 = rbuf_size b0 + zlen p + match t with Some t => seg_size t | None => 0 end) as Hend.
  { intros b0 t b2. pose proof (alloc_segment0_size b0 0) as Ha.
    destruct (rd_buf_alloc_segment0 junk b0 0) as [b1 s]. destruct Ha as [Ha _].
    cbv zeta. destruct t; intros H; injection H as <-; rewrite !append_segment_size; cbn [seg_size]; lia. }
  unfold rd_buf_push0. set (prev := match rbuf_wpos b with Some _ => _ | None => _ end).
  destruct prev as [[i ps] |]; [destruct (rd_segment_write_remains ps >? 0) |].
  - destruct (rd_segment_split junk b i _) as [[b1 t] |] eqn:E; [| discriminate].
    apply segment_split_size in E. intros H. apply (Hend b1 (Some t)) in H. lia.
  - intros H. apply (Hend b None) in H. lia.
  - intros H. apply (Hend b None) in H. lia.
Qed.
End Grow.

(** ** Where a buffer can be seeked to

    A position in memory the buffer owns stays one: writes touch no other memory, and
    what is pushed lies behind it. *)

Definition not_ro (p : Z) (s : rd_segment) : Prop :=
  seg_absof s <= p < seg_absof s + seg_of s -> rd_segment_is_rdonly s = false.

Section Writable.
Context (junk : Z -> Z) (p : Z).

Lemma not_ro_alter f i l :
  (forall s, l !! i = Some s -> not_ro p s -> not_ro p (f s)) ->
  Forall (not_ro p) l -> Forall (not_ro p) (seg_alter f i l).
Proof.
  intros Hf Hl. apply Forall_alter; [assumption |]. intros x Hx. now apply Hf.
Qed.

Lemma writable_scan_some l : forall k i len,
  writable_scan l k = Some (i, len) ->
  (k <= i)%nat /\ exists s, l !! (i - k)%nat = Some s /\ len = rd_segment_write_remains s.
Proof.
  induction l as [| s l IH]; intros k i len; cbn [writable_scan]; [discriminate |].
  destruct (Z.eqb_spec (rd_segment_write_remains s) 0) as [E0 | E0].
  - destruct (writable_scan l (S k)) as [[i' len'] |] eqn:E; intros [= <- <-].
    + destruct (IH _ _ _ E) as (Hi & s' & Hs & Hl). split; [lia |]. exists s'.
      replace (i' - k)%nat with (S (i' - S k)) by lia. auto.
    + split; [lia |]. exists s. rewrite Nat.sub_diag. auto.
  - intros [= <- <-]. split; [lia |]. exists s. rewrite Nat.sub_diag. auto.
Qed.

(** The segment found: what it has room for is the room reported. *)
Lemma get_writable0_seg b b' len i :
  rd_buf_get_writable0 b = (b', len, Some i) ->
  exists s, rbuf_segments b !! i = Some s /\ len = rd_segment_write_remains s.
Proof.
  unfold rd_buf_get_writable0. destruct (rbuf_wpos b) as [w |]; [| discriminate].
  destruct (writable_scan (drop w (rbuf_segments b)) w) as [[i' len'] |] eqn:E; [| discriminate].
  destruct (writable_scan_some _ _ _ _ E) as (Hi & s & Hs & Hl). rewrite lookup_drop in Hs.
  replace (w + (i' - w))%nat with i' in Hs by lia.
  destruct (len' =? 0) eqn:E0; intros [= _ <- <-]; zbool; exists s; split; congruence.
Qed.

Lemma rdonly_no_room s : rd_segment_write_remains s <> 0 -> rd_segment_is_rdonly s = false.
Proof. unfold rd_segment_write_remains. destruct (rd_segment_is_rdonly s); congruence. Qed.

Lemma get_writable0_writable b :
  writable_at b p -> writable_at (fst (fst (rd_buf_get_writable0 b))) p.
Proof.
  unfold writable_at. intros H. pose proof (get_writable0_seg b) as Hseg.
  unfold rd_buf_get_writable0 in *. destruct (rbuf_wpos b) as [w |]; [| assumption].
  destruct (writable_scan _ w) as [[i room] |]; [| assumption].
  destruct (Z.eqb_spec room 0) as [E0 | E0]; [assumption |]. cbn [fst rbuf_segments buf_set_segments].
  apply (not_ro_alter _ _ _); [| exact H]. intros s Hs Hg.
  destruct (Hseg _ _ _ eq_refl) as (s' & Hs' & E). rewrite E in E0. cbn [buf_set_wpos rbuf_segments] in *.
  assert (s' = s) as -> by congruence. apply rdonly_no_room in E0.
  intros _. destruct (_ && _); assumption.
Qed.

Lemma append_segment_writable b s :
  writable_at b p -> rd_segment_is_rdonly s = false \/ p < rbuf_len b ->
  writable_at (rd_buf_append_segment b s) p.
Proof.
  intros H Hs. unfold rd_buf_append_segment.
  match goal with |- writable_at (match rbuf_wpos ?x with _ => _ end) p =>
    assert (writable_at x p) as Hx end.
  { unfold writable_at in *. cbn [rbuf_segments]. apply Forall_app. split; [assumption |].
    constructor; [| constructor]. cbn [seg_set_absof seg_absof seg_of].
    intros Hp. destruct Hs; [assumption | lia]. }
  destruct (rbuf_wpos _); [| exact Hx]. apply get_writable0_writable in Hx.
  now destruct (rd_buf_get_writable0 _) as [[? ?] ?].
Qed.

Lemma alloc_segment0_writable b size :
  let '(b', s) := rd_buf_alloc_segment0 junk b size in
  rbuf_segments b' = rbuf_segments b /\ rbuf_len b' = rbuf_len b /\ rd_segment_is_rdonly s = false /\
  (seg_flags s = 0 \/ seg_flags s = RD_SEGMENT_F_FREE).
Proof.
  unfold rd_buf_alloc_segment0, extra_alloc.
  destruct (_ >? rbuf_extra_size b); [destruct (_ >? rbuf_extra_size b) |]; cbn; auto.
Qed.

Lemma write_ensure_writable fuel mx : forall b mn b',
  write_ensure_loop junk fuel b mn mx = Some b' -> writable_at b p -> writable_at b' p.
Proof.
  induction fuel as [| fuel IH]; intros b mn b'; cbn [write_ensure_loop]; [discriminate |].
  destruct (_ <? mn); [| now intros [= <-]]. unfold rd_buf_alloc_segment.
  match goal with |- context [rd_buf_alloc_segment0 junk b ?x] =>
    pose proof (alloc_segment0_writable b x) as Ha; destruct (rd_buf_alloc_segment0 junk b x) as [b1 s] end.
  destruct Ha as (E1 & E2 & E3 & _). intros E Hb. eapply IH; [exact E |].
  apply append_segment_writable; [| now left]. unfold writable_at in *. now rewrite E1.
Qed.

Lemma write_loop_writable fuel : forall b src rem b',
  write_loop fuel b src rem = Some b' -> writable_at b p -> writable_at b' p.
Proof.
  induction fuel as [| fuel IH]; intros b src rem b'; cbn [write_loop];
    destruct (rem <=? 0) eqn:Erem; try (intros [= <-]; auto; fail); try discriminate.
  pose proof (get_writable0_seg b) as Hseg. pose proof (get_writable0_writable b) as Hw.
  destruct (rd_buf_get_writable0 b) as [[b1 room] [i |]] eqn:Eg; [| discriminate].
  destruct (Hseg _ _ _ eq_refl) as (s & Hs & Hroom). cbn [fst] in Hw.
  intros E Hb. eapply IH; [exact E |]. specialize (Hw Hb). unfold writable_at in *.
  cbn [rbuf_segments buf_set_segments buf_set_len]. apply (not_ro_alter _ _ _); [| exact Hw].
  intros s1 Hs1 Hg.
  assert (rd_segment_is_rdonly s1 = rd_segment_is_rdonly s) as Ero.
  { revert Eg Hs1. unfold rd_buf_get_writable0. destruct (rbuf_wpos b); [| discriminate].
    destruct (writable_scan _ _) as [[i' len'] |]; [| discriminate].
    destruct (len' =? 0); intros [= <- <- <-]; cbn [buf_set_wpos rbuf_segments buf_set_segments].
    - intros. congruence.
    - unfold seg_alter. rewrite list_lookup_alter_eq, Hs. cbn.
      intros [= E1]. rewrite <- E1. destruct (_ && _); reflexivity. }
  unfold not_ro in *. destruct (Z.eq_dec room 0) as [E0 | E0].
  - replace (RD_MIN rem room) with 0 by (rewrite RD_MIN_min; zbool; lia).
    rewrite Z.add_0_r. destruct src; exact Hg.
  - intros _. rewrite Hroom in E0. apply rdonly_no_room in E0. rewrite <- Ero in E0.
    destruct src; exact E0.
Qed.

Lemma rd_buf_write_writable b src n b' r :
  rd_buf_write junk b src n = Some (b', r) -> writable_at b p -> writable_at b' p.
Proof.
  unfold rd_buf_write, rd_buf_write_ensure.
  destruct (write_ensure_loop junk 2 b n 0) as [b1 |] eqn:E1; [| discriminate].
  destruct (write_loop _ b1 src n) as [b2 |] eqn:E2; [| discriminate]. intros [= <- _] H.
  eapply write_loop_writable, write_ensure_writable; eassumption.
Qed.

Lemma write_update_loop_writable segs : forall len absof src off size segs' off',
  write_update_loop segs len absof src off size = Some (segs', off') ->
  Forall (not_ro p) segs -> Forall (not_ro p) segs'.
Proof.
  induction segs as [| s segs IH]; intros len absof src off size segs' off'; cbn [write_update_loop];
    destruct (off <? size); try (intros [= <- <-]; auto; fail); try discriminate.
  destruct (rd_assert _); [| discriminate]. unfold rd_segment_write_update.
  destruct (rd_assert _); [| discriminate].
  match goal with |- context [write_update_loop segs ?a ?b ?c ?d ?e] =>
    destruct (write_update_loop segs a b c d e) as [[rest off2] |] eqn:E end; [| discriminate].
  intros [= <- <-] H. apply Forall_cons_iff in H as [Hs H]. constructor; [exact Hs | eauto].
Qed.

Lemma rd_buf_update_writable b off d n b' r :
  rd_buf_write_update b off d n = Some (b', r) -> writable_at b p -> writable_at b' p.
Proof.
  unfold rd_buf_write_update. destruct (rd_buf_get_segment_at_offset _ _ _) as [i |]; [| discriminate].
  destruct (write_update_loop _ _ _ _ _ _) as [[segs o] |] eqn:E; [| discriminate].
  intros [= <- _] H. unfold writable_at in *. cbn [rbuf_segments buf_set_segments].
  rewrite <- (take_drop i (rbuf_segments b)) in H. apply Forall_app in H as [H1 H2].
  apply Forall_app. split; [assumption |]. eapply write_update_loop_writable; eassumption.
Qed.

Lemma append_segment_len b s : rbuf_len (rd_buf_append_segment b s) = rbuf_len b + seg_of s.
Proof.
  unfold rd_buf_append_segment. destruct (rbuf_wpos _); [| reflexivity].
  unfold rd_buf_get_writable0. cbn [rbuf_wpos].
  destruct (writable_scan _ _) as [[? ?] |]; [destruct (_ =? 0) |]; reflexivity.
Qed.

Lemma segment_split_writable b i s absof b' t :
  rd_segment_split junk b i absof = Some (b', t) -> rbuf_segments b !! i = Some s ->
  rd_segment_is_rdonly s = false -> absof = seg_absof s + seg_of s -> writable_at b p ->
  writable_at b' p /\ rbuf_len b' = rbuf_len b /\ rd_segment_is_rdonly t = false.
Proof.
  unfold rd_segment_split. destruct (rd_assert _); [| discriminate]. intros H Hs Hro -> Hb.
  rewrite Hs in H. destruct (rd_assert _); [| discriminate].
  pose proof (alloc_segment0_writable b 0) as Ha. destruct (rd_buf_alloc_segment0 junk b 0) as [b1 n].
  destruct Ha as (E1 & E2 & _ & E4). injection H as <- <-.
  cbn [rbuf_segments rbuf_len buf_set_size buf_set_len buf_set_segments seg_of].
  replace (seg_absof s + seg_of s - seg_absof s) with (seg_of s) by lia. rewrite E1, E2.
  split; [| split; [lia |]].
  - unfold writable_at in *. cbn [rbuf_segments buf_set_size buf_set_len buf_set_segments].
    apply Forall_insert; [assumption |]. intros _. exact Hro.
  - unfold rd_segment_is_rdonly in *. cbn [seg_flags]. apply negb_false_iff, Z.eqb_eq in Hro.
    apply negb_false_iff, Z.eqb_eq. rewrite Z.land_lor_distr_l, Hro. now destruct E4 as [-> | ->].
Qed.

Lemma rd_buf_push_writable_at b d n fcb w b' :
  rd_buf_push0 junk b d n fcb w = Some b' -> p < rbuf_len b -> writable_at b p -> writable_at b' p.
Proof.
  assert (forall b0 (t : option rd_segment) b2,
    (let '(b1, s) := rd_buf_alloc_segment0 junk b0 0 in
     let s := mk_segment d n n (seg_absof s) fcb
                (if w then seg_flags s else Z.lor (seg_flags s) RD_SEGMENT_F_RDONLY) in
     match t with
     | Some t => Some (rd_buf_append_segment (rd_buf_append_segment b1 s) t)
     | None => Some (rd_buf_append_segment b1 s)
     end) = Some b2 ->
    p < rbuf_len b0 -> writable_at b0 p ->
    match t with Some t => rd_segment_is_rdonly t = false | None => True end -> writable_at b2 p) as Hend.
  { intros b0 t b2. pose proof (alloc_segment0_writable b0 0) as Ha.
    destruct (rd_buf_alloc_segment0 junk b0 0) as [b1 s]. destruct Ha as (E1 & E2 & _).
    cbv zeta. set (s' := mk_segment d n n _ fcb _). intros H Hp Hb Ht.
    assert (writable_at (rd_buf_append_segment b1 s') p) as H1.
    { apply append_segment_writable; [| right; lia]. unfold writable_at in *. now rewrite E1. }
    destruct t; injection H as <-; [| assumption]. apply append_segment_writable; auto. }
  unfold rd_buf_push0. set (prev := match rbuf_wpos b with Some _ => _ | None => _ end).
  assert (forall i s, prev = Some (i, s) -> rbuf_segments b !! i = Some s) as Hprev.
  { unfold prev. destruct (rbuf_wpos b) as [k |]; [| discriminate].
    destruct (rbuf_segments b !! k) eqn:E; [| discriminate]. intros i s' [= <- <-]. exact E. }
  destruct prev as [[i ps] |]; [destruct (rd_segment_write_remains ps >? 0) eqn:Er |].
  - destruct (rd_segment_split junk b i _) as [[b1 t] |] eqn:E; [| discriminate].
    intros H Hp Hb. assert (rd_segment_is_rdonly ps = false) as Hro by (apply rdonly_no_room; zlia).
    destruct (segment_split_writable _ _ _ _ _ _ E (Hprev _ _ eq_refl) Hro eq_refl Hb) as (H1 & H2 & H3).
    apply (Hend b1 (Some t)) in H; [assumption | lia | assumption | assumption].
  - intros H Hp Hb. now apply (Hend b None) in H.
  - intros H Hp Hb. now apply (Hend b None) in H.
Qed.

End Writable.

Lemma wf_writable_m1 b : wf b -> writable_at b (-1).
Proof.
  intros Hb. destruct (wf_has_view b Hb) as (front & back & V). unfold writable_at.
  rewrite (vw_segs _ _ _ V). apply Forall_app. pose proof (vw_ok _ _ _ V) as Hok.
  apply Forall_app in Hok as [Hok _]. split.
  - eapply Forall_impl; [| exact (placed_absof_ge 0 _ Hok (vw_placed _ _ _ V))]. cbn. intros; lia.
  - eapply Forall_impl; [| exact (vw_ahead _ _ _ V)]. cbn. intros s (_ & Hr & _) _. exact Hr.
Qed.

Lemma destroy_tail_size n : forall b b',
  Forall (fun s => 0 <= seg_size s) (rbuf_segments b) -> destroy_tail n b = Some b' ->
  rbuf_size b' <= rbuf_size b.
Proof.
  induction n as [| n IH]; intros b b' Hb; cbn [destroy_tail]; [intros [= <-]; lia |].
  unfold rd_buf_destroy_segment. destruct (rbuf_segments b !! _) as [s |] eqn:Es; [| discriminate].
  destruct (rd_assert _); [| discriminate]. intros E.
  pose proof (proj1 (list.Forall_lookup _ _) Hb _ _ Es) as Hs. cbn in Hs.
  apply IH in E; [cbn [rbuf_size] in E; lia |]. cbn [rbuf_segments]. now apply Forall_delete.
Qed.

Lemma rd_buf_write_seek_size b absof b' r :
  wf b -> rd_buf_write_seek b absof = Some (b', r) -> rbuf_size b' <= rbuf_size b.
Proof.
  intros Hb. assert (Forall (fun s => 0 <= seg_size s) (rbuf_segments b)) as Hs.
  { destruct (wf_has_view b Hb) as (front & back & V). rewrite (vw_segs _ _ _ V).
    eapply Forall_impl; [| exact (vw_ok _ _ _ V)]. cbn. intros s [? _]. lia. }
  unfold rd_buf_write_seek. destruct (rd_buf_get_segment_at_offset _ _ _); [| intros [= <- _]; lia].
  destruct (rbuf_segments b !! _); [| discriminate]. cbv zeta.
  destruct (_ >? _); [intros [= <- _]; lia |].
  destruct (destroy_tail _ b) as [b1 |] eqn:E; [| discriminate].
  apply destroy_tail_size in E; [| assumption]. destruct (rd_assert _); [| discriminate].
  intros [= <- _]. exact E.
Qed.

(** ** A buffer that holds [c] *)

(** Clients stay within messages of 2^58 bytes. *)
Definition kb (K : Z) (rkbuf : rd_kafka_buf) (c : bytes) : Prop :=
  buf_state (rkbuf_buf rkbuf) c /\ rbuf_size (rkbuf_buf rkbuf) <= 4 * zlen c + K.

Definition kb_base (K : Z) : Prop := 256 <= K < 2 ^ 60.

Section Writers.
Context (junk : Z -> Z) (K : Z) (HK : kb_base K).

(** Appending [d] to the contents, with its CRC. *)
Lemma write_kb r c d :
  kb K r c -> zlen c + zlen d < 2 ^ 58 ->
  exists r', rd_kafka_buf_write junk r d = Some (r', zlen c) /\ kb K r' (c ++ d) /\
    rkbuf_crc r' = rkbuf_crc_add r d /\ rkbuf_flexver r' = rkbuf_flexver r.
Proof.
  intros [Hs Hk] Hd. pose proof (buf_state_len _ _ Hs) as Hl. unfold kb_base in HK.
  destruct Hs as (Hb & Hw & He & Hc).
  pose proof (write_remains_wf _ Hb) as (? & ? & Er & Hr).
  destruct (rd_buf_write_spec junk (rkbuf_buf r) (Some d) (zlen d)) as
    (b & x & E & H1 & H2 & H3 & H4 & H5 & H6 & H7); [assumption | lia | lia | cbn; lia |].
  pose proof (fun A B => rd_buf_write_size junk _ _ _ _ _ Hb He A B E) as Hsz.
  specialize (Hsz ltac:(lia) ltac:(lia)).
  unfold rd_kafka_buf_write. rewrite E, Hl. eexists. split; [reflexivity |].
  split; [| split; reflexivity]. split; cbn [rkbuf_buf].
  - split; [assumption |]. split; [now apply H7 |]. split; [congruence |].
    rewrite H2, Hc. f_equal. now apply H4.
  - rewrite zlen_app. pose proof (Z.mul_div_le (rbuf_size (rkbuf_buf r)) 2). lia.
Qed.

Lemma push_kb r c d fcb :
  kb K r c -> zlen c + zlen d < 2 ^ 58 ->
  exists r', rd_kafka_buf_push junk r d fcb = Some r' /\ kb K r' (c ++ d) /\
    rkbuf_crc r' = rkbuf_crc_add r d /\ rkbuf_flexver r' = rkbuf_flexver r.
Proof.
  intros [Hs Hk] Hd. unfold kb_base in HK. destruct Hs as (Hb & Hw & He & Hc).
  unfold rd_kafka_buf_push, rd_buf_push.
  destruct (rd_buf_push_spec junk (rkbuf_buf r) d fcb false) as (b & E & H1 & H2 & H3 & H4 & H5);
    [assumption | assumption | lia |].
  pose proof (rd_buf_push_size _ _ _ _ _ _ E). rewrite E. eexists. split; [reflexivity |].
  split; [| split; reflexivity]. split; cbn [rkbuf_buf].
  - split; [assumption |]. split; [assumption |]. split; [congruence |]. now rewrite H3, Hc.
  - rewrite zlen_app. lia.
Qed.

Lemma update_kb r c off d :
  kb K r c -> rkbuf_crc r = None -> 0 <= off < zlen c -> off + zlen d <= zlen c ->
  exists r', rd_kafka_buf_update r off d = Some r' /\ kb K r' (overwrite c off d) /\
    rkbuf_crc r' = None /\ rkbuf_flexver r' = rkbuf_flexver r.
Proof.
  intros [Hs Hk] Hcrc Ho Hd. pose proof (buf_state_len _ _ Hs) as Hl.
  destruct Hs as (Hb & Hw & He & Hc).
  destruct (rd_buf_write_update_spec (rkbuf_buf r) off d) as (b & E & H1 & H2 & H3 & H4 & H5);
    [assumption | lia | lia |].
  assert (rbuf_size b = rbuf_size (rkbuf_buf r)) as Hsz.
  { revert E. unfold rd_buf_write_update. repeat case_match; try discriminate.
    all: intros [= <- _]; reflexivity. }
  unfold rd_kafka_buf_update. rewrite Hcrc, E. eexists. split; [reflexivity |].
  split; [| split; reflexivity]. split; cbn [rkbuf_buf].
  - split; [assumption |]. split; [auto |]. split; [congruence |]. now rewrite H2, Hc.
  - rewrite overwrite_len by lia. lia.
Qed.
End Writers.
