(* ===== verification/MsgWriter.v ===== *)
(** * The message set writer (src/cbits/hs_rdkafka_msgset_writer.c)

    [rd_kafka_msgset_create_ProduceRequest]: takes messages off the transmit queue of a
    partition, as many as fit, and writes them into a Produce request: message set v2
    (record batch) for brokers that have it, the older formats otherwise.  The codecs
    are libraries: [codec] is what they make of the messages. *)

From S2P Require Import Prelude Varint RdBuf Slice Crc Header Msgq Producer KafkaBuf.

(** ** The broker and the configuration *)

Definition RD_KAFKA_FEATURE_MSGVER1 : Z := 0x1.
Definition RD_KAFKA_FEATURE_THROTTLETIME : Z := 0x8.
Definition RD_KAFKA_FEATURE_LZ4 : Z := 0x80.
Definition RD_KAFKA_FEATURE_MSGVER2 : Z := 0x200.
Definition RD_KAFKA_FEATURE_UNITTEST : Z := 0x4000.

Definition RD_KAFKA_COMPRESSION_NONE : Z := 0.
Definition RD_KAFKA_COMPRESSION_LZ4 : Z := 3.

Definition RD_KAFKAP_Produce : Z := 0.

(** What is known of the broker: its features and, by [ApiKey], its version ranges. *)
Record rd_kafka_broker := mk_rkb {
  rkb_features : Z;
  rkb_ApiVersions : list (Z * (Z * Z)) }.

Definition rd_kafka_broker_ApiVersion_supported (rkb : rd_kafka_broker) (ApiKey minver maxver : Z) : Z :=
  if negb (Z.land (rkb_features rkb) RD_KAFKA_FEATURE_UNITTEST =? 0) then maxver
  else
    match find (fun r => fst r =? ApiKey) (rkb_ApiVersions rkb) with
    | None => -1
    | Some (_, (MinVer, MaxVer)) =>
        if MaxVer <? maxver then if MaxVer <? minver then -1 else MaxVer
        else if MinVer >? maxver then -1
        else maxver
    end.

Record produce_conf := mk_conf {
  client_id : option bytes;
  transactional_id : option bytes;
  max_msg_size : Z;
  batch_size : Z;
  batch_num_messages : Z;
  msg_copy_max_size : Z;
  required_acks : Z;
  request_timeout_ms : Z;
  compression_codec : Z;
  strategy : queuing_strategy }.

(** The topic and the partition number. *)
Record produce_toppar := mk_ptp { ptp_topic : bytes; ptp_partition : Z }.

Definition rd_kafka_ProduceRequest_max_version : Z := 7.

(** ** Versions *)

Record msgset_version := mk_msgver {
  msetw_ApiVersion : Z;
  msetw_MsgVersion : Z;
  msetw_features : Z;
  msetw_compression : Z;
  msetw_relative_offsets : bool }.

(** The feature and the version a codec requires. *)
Definition compr_req (codec : Z) : Z * Z :=
  if codec =? RD_KAFKA_COMPRESSION_LZ4 then (RD_KAFKA_FEATURE_LZ4, 0) else (0, 0).

(** [None] is the return value -1. *)
Definition rd_kafka_msgset_writer_select_MsgVersion (rkb : rd_kafka_broker) (codec : Z)
  : option msgset_version :=
  let has f := Z.land (rkb_features rkb) f in
  let '(min_ApiVersion, MsgVersion, features) :=
    if negb (has RD_KAFKA_FEATURE_MSGVER2 =? 0) then (3, 2, has RD_KAFKA_FEATURE_MSGVER2)
    else if negb (has RD_KAFKA_FEATURE_MSGVER1 =? 0) then (2, 1, has RD_KAFKA_FEATURE_MSGVER1)
    else if negb (has RD_KAFKA_FEATURE_THROTTLETIME =? 0) then (1, 0, has RD_KAFKA_FEATURE_THROTTLETIME)
    else (0, 0, 0) in
  let '(req_feature, req_ApiVersion) := compr_req codec in
  let '(compression, features, min_ApiVersion) :=
    if negb (codec =? RD_KAFKA_COMPRESSION_NONE)
       && ((rd_kafka_broker_ApiVersion_supported rkb RD_KAFKAP_Produce 0 req_ApiVersion =? -1)
           || (negb (req_feature =? 0) && (has req_feature =? 0)))
    then (RD_KAFKA_COMPRESSION_NONE, features, min_ApiVersion)
    else (codec, Z.lor features req_feature,
          if min_ApiVersion <? req_ApiVersion then req_ApiVersion else min_ApiVersion) in
  let relative_offsets :=
    if MsgVersion =? 2 then true
    else if MsgVersion =? 1 then negb (compression =? RD_KAFKA_COMPRESSION_NONE)
    else false in
  let ApiVersion := rd_kafka_broker_ApiVersion_supported rkb RD_KAFKAP_Produce min_ApiVersion
                      rd_kafka_ProduceRequest_max_version in
  if ApiVersion =? -1 then None
  else Some (mk_msgver ApiVersion MsgVersion features compression relative_offsets).

(** ** Sizes *)

Definition RD_KAFKAP_MESSAGESET_V0_HDR_SIZE : Z := 8 + 4.
Definition RD_KAFKAP_MESSAGE_V0_HDR_SIZE : Z := 4 + 1 + 1 + 4 + 4.
Definition RD_KAFKAP_MESSAGE_V1_HDR_SIZE : Z := 4 + 1 + 1 + 8 + 4 + 4.
Definition RD_KAFKAP_MESSAGE_V0_OVERHEAD : Z :=
  RD_KAFKAP_MESSAGESET_V0_HDR_SIZE + RD_KAFKAP_MESSAGE_V0_HDR_SIZE.
Definition RD_KAFKAP_MESSAGE_V1_OVERHEAD : Z :=
  RD_KAFKAP_MESSAGESET_V0_HDR_SIZE + RD_KAFKAP_MESSAGE_V1_HDR_SIZE.
Definition RD_KAFKAP_MESSAGE_V2_MAX_OVERHEAD : Z :=
  RD_UVARINT_ENC_SIZEOF 4 + 1 + RD_UVARINT_ENC_SIZEOF 8 + RD_UVARINT_ENC_SIZEOF 4
  + RD_UVARINT_ENC_SIZEOF 4 + RD_UVARINT_ENC_SIZEOF 4 + RD_UVARINT_ENC_SIZEOF 4.
Definition RD_KAFKAP_MSGSET_V0_SIZE : Z := 0.
Definition RD_KAFKAP_MSGSET_V2_SIZE : Z := 8 + 4 + 4 + 1 + 4 + 2 + 4 + 8 + 8 + 8 + 2 + 4 + 4.

Definition RD_KAFKAP_MSGSET_V2_OF_Length : Z := 8.
Definition RD_KAFKAP_MSGSET_V2_OF_Attributes : Z := 8 + 4 + 4 + 1 + 4.
Definition RD_KAFKAP_MSGSET_V2_OF_LastOffsetDelta : Z := 8 + 4 + 4 + 1 + 4 + 2.
Definition RD_KAFKAP_MSGSET_V2_OF_BaseTimestamp : Z := 8 + 4 + 4 + 1 + 4 + 2 + 4.
Definition RD_KAFKAP_MSGSET_V2_OF_MaxTimestamp : Z := 8 + 4 + 4 + 1 + 4 + 2 + 4 + 8.
Definition RD_KAFKAP_MSGSET_V2_OF_BaseSequence : Z := 8 + 4 + 4 + 1 + 4 + 2 + 4 + 8 + 8 + 8 + 2.
Definition RD_KAFKAP_MSGSET_V2_OF_RecordCount : Z := 8 + 4 + 4 + 1 + 4 + 2 + 4 + 8 + 8 + 8 + 2 + 4.

Definition rd_kafka_headers_serialized_size (hdrs : rd_kafka_headers) : Z := rkhdrs_ser_size hdrs.

Definition msg_overhead (MsgVersion : Z) : Z :=
  if MsgVersion =? 0 then RD_KAFKAP_MESSAGE_V0_OVERHEAD
  else if MsgVersion =? 1 then RD_KAFKAP_MESSAGE_V1_OVERHEAD
  else RD_KAFKAP_MESSAGE_V2_MAX_OVERHEAD.

Definition rd_kafka_msg_wire_size (rkm : rd_kafka_msg) (MsgVersion : Z) : Z :=
  let size := u64 (msg_overhead MsgVersion + rkm_len rkm + rkm_key_len rkm) in
  match rkm_headers rkm with
  | Some hdrs => if MsgVersion =? 2 then u64 (size + rd_kafka_headers_serialized_size hdrs) else size
  | None => size
  end.

(** ** Messages *)

Section Write.
Context (junk : Z -> Z).

(** Small payloads are copied if there is room, others are linked. *)
Definition rd_kafka_msgset_writer_write_msg_payload (conf : produce_conf) (rkbuf : rd_kafka_buf)
  (len : Z) (payload : bytes) (free_cb : option Z) : option rd_kafka_buf :=
  if (len <=? msg_copy_max_size conf) && (rd_buf_write_remains (rkbuf_buf rkbuf) >? len)
  then let* (rkbuf, _) := rd_kafka_buf_write junk rkbuf payload in Some rkbuf
  else rd_kafka_buf_push junk rkbuf payload free_cb.

(** The loop over the headers. *)
Fixpoint write_headers_loop (rkbuf : rd_kafka_buf) (l : list rd_kafka_header) : option rd_kafka_buf :=
  match l with
  | [] => Some rkbuf
  | hdr :: l =>
      let* (rkbuf, _) := rd_kafka_buf_write_varint junk rkbuf (rkhdr_name_size hdr) in
      let* (rkbuf, _) := rd_kafka_buf_write junk rkbuf (rkhdr_name hdr) in
      let* (rkbuf, _) := rd_kafka_buf_write_varint junk rkbuf
                           (match rkhdr_value hdr with Some _ => rkhdr_value_size hdr | None => -1 end) in
      let* (rkbuf, _) := rd_kafka_buf_write junk rkbuf (default [] (rkhdr_value hdr)) in
      write_headers_loop rkbuf l
  end.

Definition rd_kafka_msgset_writer_write_msg_headers (rkbuf : rd_kafka_buf) (hdrs : rd_kafka_headers)
  : option rd_kafka_buf := write_headers_loop rkbuf (rkhdrs_list hdrs).

(** The buffer and the size written. *)
Definition rd_kafka_msgset_writer_write_msg_v0_1 (conf : produce_conf) (MsgVersion : Z)
  (rkbuf : rd_kafka_buf) (rkm : rd_kafka_msg) (Offset MsgAttributes : Z) (free_cb : option Z)
  : option (rd_kafka_buf * Z) :=
  let* (rkbuf, _) := rd_kafka_buf_write_i64 junk rkbuf Offset in
  let MessageSize := u64 (4 + 1 + 1 + 4 + rkm_key_len rkm + 4 + rkm_len rkm) in
  let MessageSize := if MsgVersion =? 1 then u64 (MessageSize + 8) else MessageSize in
  let* (rkbuf, _) := rd_kafka_buf_write_i32 junk rkbuf (i32 MessageSize) in
  let* (rkbuf, of_Crc) := rd_kafka_buf_write_i32 junk rkbuf 0 in
  let* rkbuf := rd_kafka_buf_crc_init rkbuf in
  let* (rkbuf, _) := rd_kafka_buf_write_i8 junk rkbuf MsgVersion in
  let* (rkbuf, _) := rd_kafka_buf_write_i8 junk rkbuf MsgAttributes in
  let* rkbuf := if MsgVersion =? 1 then
                  let* (rkbuf, _) := rd_kafka_buf_write_i64 junk rkbuf (rkm_timestamp rkm) in Some rkbuf
                else Some rkbuf in
  let* (rkbuf, _) := rd_kafka_buf_write_bytes junk rkbuf (rkm_key rkm) (rkm_key_len rkm) in
  let* rkbuf := match rkm_payload rkm with
                | Some payload =>
                    let* (rkbuf, _) := rd_kafka_buf_write_i32 junk rkbuf (i32 (rkm_len rkm)) in
                    rd_kafka_msgset_writer_write_msg_payload conf rkbuf (rkm_len rkm) payload free_cb
                | None =>
                    let* (rkbuf, _) := rd_kafka_buf_write_i32 junk rkbuf (-1) in Some rkbuf
                end in
  let '(rkbuf, crc) := rd_kafka_buf_crc_finalize rkbuf in
  let* rkbuf := rd_kafka_buf_update_u32 rkbuf of_Crc crc in
  Some (rkbuf, u64 (8 + 4 + MessageSize)).

Definition rd_kafka_msgset_writer_write_msg_v2 (conf : produce_conf) (first_timestamp : Z)
  (rkbuf : rd_kafka_buf) (rkm : rd_kafka_msg) (Offset : Z) (free_cb : option Z)
  : option (rd_kafka_buf * Z) :=
  let '(HeaderCount, HeaderSize) :=
    match rkm_headers rkm with
    | Some hdrs => (rd_kafka_header_cnt hdrs, rkhdrs_ser_size hdrs)
    | None => (0, 0)
    end in
  let* (sz_TimestampDelta, varint_TimestampDelta) :=
    rd_uvarint_enc_i64 (RD_UVARINT_ENC_SIZEOF 8) (i64 (rkm_timestamp rkm - first_timestamp)) in
  let* (sz_OffsetDelta, varint_OffsetDelta) := rd_uvarint_enc_i64 (RD_UVARINT_ENC_SIZEOF 8) Offset in
  let* (sz_KeyLen, varint_KeyLen) :=
    rd_uvarint_enc_i32 (RD_UVARINT_ENC_SIZEOF 4)
      (match rkm_key rkm with Some _ => i32 (rkm_key_len rkm) | None => -1 end) in
  let* (sz_ValueLen, varint_ValueLen) :=
    rd_uvarint_enc_i32 (RD_UVARINT_ENC_SIZEOF 4)
      (match rkm_payload rkm with Some _ => i32 (rkm_len rkm) | None => -1 end) in
  let* (sz_HeaderCount, varint_HeaderCount) :=
    rd_uvarint_enc_i32 (RD_UVARINT_ENC_SIZEOF 4) HeaderCount in
  let MessageSize := u64 (1 + sz_TimestampDelta + sz_OffsetDelta + sz_KeyLen + rkm_key_len rkm
                          + sz_ValueLen + rkm_len rkm + sz_HeaderCount + HeaderSize) in
  let* (sz_Length, varint_Length) := rd_uvarint_enc_i64 (RD_UVARINT_ENC_SIZEOF 4) (i64 MessageSize) in
  let* (rkbuf, _) := rd_kafka_buf_write junk rkbuf varint_Length in
  let MessageSize := u64 (MessageSize + sz_Length) in
  let* (rkbuf, _) := rd_kafka_buf_write_i8 junk rkbuf 0 in
  let* (rkbuf, _) := rd_kafka_buf_write junk rkbuf varint_TimestampDelta in
  let* (rkbuf, _) := rd_kafka_buf_write junk rkbuf varint_OffsetDelta in
  let* (rkbuf, _) := rd_kafka_buf_write junk rkbuf varint_KeyLen in
  let* rkbuf := match rkm_key rkm with
                | Some key => let* (rkbuf, _) := rd_kafka_buf_write junk rkbuf key in Some rkbuf
                | None => Some rkbuf
                end in
  let* (rkbuf, _) := rd_kafka_buf_write junk rkbuf varint_ValueLen in
  let* rkbuf := match rkm_payload rkm with
                | Some payload =>
                    rd_kafka_msgset_writer_write_msg_payload conf rkbuf (rkm_len rkm) payload free_cb
                | None => Some rkbuf
                end in
  let* (rkbuf, _) := rd_kafka_buf_write junk rkbuf varint_HeaderCount in
  let* rkbuf := match rkm_headers rkm with
                | Some hdrs => rd_kafka_msgset_writer_write_msg_headers rkbuf hdrs
                | None => Some rkbuf
                end in
  Some (rkbuf, MessageSize).

(** The attribute for a message with a timestamp is 0, [RD_KAFKA_MSG_ATTR_CREATE_TIME]. *)
Definition rd_kafka_msgset_writer_write_msg (conf : produce_conf) (MsgVersion first_timestamp : Z)
  (rkbuf : rd_kafka_buf) (rkm : rd_kafka_msg) (Offset MsgAttributes : Z) (free_cb : option Z)
  : option (rd_kafka_buf * Z) :=
  let pre_pos := rd_buf_write_pos (rkbuf_buf rkbuf) in
  let* (rkbuf, outlen) :=
    if MsgVersion =? 2
    then rd_kafka_msgset_writer_write_msg_v2 conf first_timestamp rkbuf rkm Offset free_cb
    else rd_kafka_msgset_writer_write_msg_v0_1 conf MsgVersion rkbuf rkm Offset MsgAttributes free_cb in
  let actual_written := u64 (rd_buf_write_pos (rkbuf_buf rkbuf) - pre_pos) in
  let* _ := rd_assert (outlen <=? rd_kafka_msg_wire_size rkm MsgVersion) in
  let* _ := rd_assert (outlen =? actual_written) in
  Some (rkbuf, outlen).

(** ** Headers of the request and of the message set *)

(** The buffer, the offset of the message set and that of its CRC. *)
Definition rd_kafka_msgset_writer_write_MessageSet_v2_header (ver : msgset_version)
  (pid : rd_kafka_pid) (rkbuf : rd_kafka_buf) : option (rd_kafka_buf * Z * Z) :=
  let* _ := rd_assert (msetw_ApiVersion ver >=? 3) in
  let* _ := rd_assert (msetw_MsgVersion ver =? 2) in
  let* (rkbuf, of_start) := rd_kafka_buf_write_i64 junk rkbuf 0 in
  let* (rkbuf, _) := rd_kafka_buf_write_i32 junk rkbuf 0 in
  let* (rkbuf, _) := rd_kafka_buf_write_i32 junk rkbuf 0 in
  let* (rkbuf, _) := rd_kafka_buf_write_i8 junk rkbuf (msetw_MsgVersion ver) in
  let* (rkbuf, of_CRC) := rd_kafka_buf_write_i32 junk rkbuf 0 in
  let* (rkbuf, _) := rd_kafka_buf_write_i16 junk rkbuf 0 in
  let* (rkbuf, _) := rd_kafka_buf_write_i32 junk rkbuf 0 in
  let* (rkbuf, _) := rd_kafka_buf_write_i64 junk rkbuf 0 in
  let* (rkbuf, _) := rd_kafka_buf_write_i64 junk rkbuf 0 in
  let* (rkbuf, _) := rd_kafka_buf_write_i64 junk rkbuf (pid_id pid) in
  let* (rkbuf, _) := rd_kafka_buf_write_i16 junk rkbuf (pid_epoch pid) in
  let* (rkbuf, _) := rd_kafka_buf_write_i32 junk rkbuf (-1) in
  let* (rkbuf, _) := rd_kafka_buf_write_i32 junk rkbuf 0 in
  Some (rkbuf, of_start, of_CRC).

(** The buffer, the offset of the size of the message set, that of the message set and
    that of its CRC. *)
Definition rd_kafka_msgset_writer_write_Produce_header (conf : produce_conf) (rktp : produce_toppar)
  (ver : msgset_version) (pid : rd_kafka_pid) (rkbuf : rd_kafka_buf)
  : option (rd_kafka_buf * Z * Z * Z) :=
  let* (rkbuf, _) := if msetw_ApiVersion ver >=? 3
                     then rd_kafka_buf_write_kstr junk rkbuf (transactional_id conf)
                     else Some (rkbuf, 0) in
  let* (rkbuf, _) := rd_kafka_buf_write_i16 junk rkbuf (required_acks conf) in
  let* (rkbuf, _) := rd_kafka_buf_write_i32 junk rkbuf (request_timeout_ms conf) in
  let* (rkbuf, _) := rd_kafka_buf_write_i32 junk rkbuf 1 in
  let* (rkbuf, _) := rd_kafka_buf_write_kstr junk rkbuf (Some (ptp_topic rktp)) in
  let* (rkbuf, _) := rd_kafka_buf_write_i32 junk rkbuf 1 in
  let* (rkbuf, _) := rd_kafka_buf_write_i32 junk rkbuf (ptp_partition rktp) in
  let* (rkbuf, of_MessageSetSize) := rd_kafka_buf_write_i32 junk rkbuf 0 in
  if msetw_MsgVersion ver =? 2 then
    let* (rkbuf, of_start, of_CRC) :=
      rd_kafka_msgset_writer_write_MessageSet_v2_header ver pid rkbuf in
    Some (rkbuf, of_MessageSetSize, of_start, of_CRC)
  else Some (rkbuf, of_MessageSetSize, 0, 0).


(** ** The writer *)

Definition RD_KAFKA_MSG_ATTR_CREATE_TIME : Z := 0.
Definition RD_KAFKA_MSGSET_V2_ATTR_TRANSACTIONAL : Z := Z.shiftl 1 4.
Definition INT32_MAX : Z := 2 ^ 31 - 1.

(** [rd_kafka_msgset_writer_t] once the headers are written. *)
Record rd_kafka_msgset_writer := mk_msetw {
  msetw_ver : msgset_version;
  msetw_msgcntmax : Z;
  msetw_of_MessageSetSize : Z;
  msetw_of_start : Z;
  msetw_of_CRC : Z;
  msetw_firstmsg_of : Z;
  msetw_pid : rd_kafka_pid }.

(** [queued_bytes] is the size of the queue. *)
Definition msgset_bufsize (conf : produce_conf) (rktp : produce_toppar) (ver : msgset_version)
  (queued_bytes msgcntmax : Z) : option Z :=
  let* _ := rd_assert ((0 <=? msetw_ApiVersion ver) && (msetw_ApiVersion ver <=? 7)) in
  let* _ := rd_assert ((0 <=? msetw_MsgVersion ver) && (msetw_MsgVersion ver <=? 2)) in
  let hdrsize := (if msetw_ApiVersion ver >=? 3 then RD_KAFKAP_STR_SIZE (transactional_id conf) else 0)
                 + (2 + 4 + 4 + RD_KAFKAP_STR_SIZE (Some (ptp_topic rktp)) + 4 + 4 + 4) in
  let msgsetsize := 4 + (if msetw_MsgVersion ver =? 2 then RD_KAFKAP_MSGSET_V2_SIZE else 0) in
  let bufsize := hdrsize + msgsetsize in
  let bufsize := if msg_copy_max_size conf >? 0
                 then u64 (bufsize + RD_MIN queued_bytes (u64 (msg_copy_max_size conf * msgcntmax)))
                 else bufsize in
  let bufsize := u64 (bufsize + msg_overhead (msetw_MsgVersion ver) * msgcntmax) in
  Some (if bufsize >? max_msg_size conf then max_msg_size conf else bufsize).

Definition rd_kafka_msgset_writer_alloc_buf (conf : produce_conf) (rktp : produce_toppar)
  (ver : msgset_version) (queued_bytes msgcntmax : Z) : option rd_kafka_buf :=
  let* bufsize := msgset_bufsize conf rktp ver queued_bytes msgcntmax in
  rd_kafka_buf_new_request0 junk (client_id conf) RD_KAFKAP_Produce (msgcntmax / 2 + 10) bufsize false.

(** The return value 0, -1 with the first message put off, or a writer. *)
Inductive msetw_init_result : Type :=
| MsetwEmpty
| MsetwNoVersion (rkmq : rd_kafka_msgq)
| MsetwReady (msetw : rd_kafka_msgset_writer) (rkbuf : rd_kafka_buf) (batch : rd_kafka_msgbatch).

(** The first message backs off until [ts]. *)
Definition msgq_backoff_first (rkmq : rd_kafka_msgq) (ts : Z) : rd_kafka_msgq :=
  match rkmq_msgs rkmq with
  | [] => rkmq
  | rkm :: l => mk_msgq (msg_set_backoff rkm ts :: l) (rkmq_msg_cnt rkmq) (rkmq_msg_bytes rkmq)
                  (rkmq_wakeup rkmq)
  end.

Definition rd_kafka_msgset_writer_init (conf : produce_conf) (rkb : rd_kafka_broker)
  (rktp : produce_toppar) (rkmq : rd_kafka_msgq) (pid : rd_kafka_pid) (epoch_base_msgid now : Z)
  : option msetw_init_result :=
  let msgcnt := rd_kafka_msgq_len rkmq in
  if msgcnt =? 0 then Some MsetwEmpty
  else
    let msgcntmax := RD_MIN msgcnt (batch_num_messages conf) in
    match rd_kafka_msgset_writer_select_MsgVersion rkb (compression_codec conf) with
    | None => let* _ := rd_kafka_msgq_first rkmq in
              Some (MsetwNoVersion (msgq_backoff_first rkmq (now + 5 * 1000 * 1000)))
    | Some ver =>
        let* rkbuf := rd_kafka_msgset_writer_alloc_buf conf rktp ver (rd_kafka_msgq_size rkmq) msgcntmax in
        let* (rkbuf, of_MessageSetSize, of_start, of_CRC) :=
          rd_kafka_msgset_writer_write_Produce_header conf rktp ver pid rkbuf in
        let firstmsg_of := rd_buf_write_pos (rkbuf_buf rkbuf) in
        Some (MsetwReady (mk_msetw ver msgcntmax of_MessageSetSize of_start of_CRC firstmsg_of pid)
                rkbuf (rd_kafka_msgbatch_init pid epoch_base_msgid))
    end.

(** ** Messages of the queue *)

Definition batch_set_msgq (b : rd_kafka_msgbatch) (q : rd_kafka_msgq) : rd_kafka_msgbatch :=
  mk_batch q (rkmb_pid b) (rkmb_first_seq b) (rkmb_first_msgid b) (rkmb_epoch_base_msgid b)
    (rkmb_last_msgid b).

(** The variables of the loop; [wl_kvlen] is [msetw_messages_kvlen]. *)
Record msgq_writing := mk_wl {
  wl_batch : rd_kafka_msgbatch;
  wl_rkbuf : rd_kafka_buf;
  wl_len : Z;
  wl_msgcnt : Z;
  wl_kvlen : Z;
  wl_MaxTimestamp : Z }.

(** Whether to stop before [rkm]. *)
Definition msetw_stops (conf : produce_conf) (msetw : rd_kafka_msgset_writer) (now : Z)
  (st : msgq_writing) (rkm : rd_kafka_msg) : bool :=
  let last_msgid := rkmb_last_msgid (wl_batch st) in
  (negb (last_msgid =? 0) && (last_msgid <? rkm_msgid rkm))
  || ((wl_msgcnt st =? msetw_msgcntmax msetw)
      || ((wl_msgcnt st >? 0)
          && (u64 (wl_len st + rd_kafka_msg_wire_size rkm (msetw_MsgVersion (msetw_ver msetw)))
              >? RD_MIN (max_msg_size conf) (batch_size conf))))
  || (rkm_ts_backoff rkm >? now).

(** One round: the message moves to the batch and is written. *)
Definition msetw_write_next (conf : produce_conf) (msetw : rd_kafka_msgset_writer)
  (timestamp : Z) (rkmq : rd_kafka_msgq) (st : msgq_writing)
  : option (rd_kafka_msgq * msgq_writing) :=
  let* (rkmq, rkm) := rd_kafka_msgq_deq rkmq 0 true in
  let batch := batch_set_msgq (wl_batch st) (fst (rd_kafka_msgq_enq (rkmb_msgq (wl_batch st)) rkm)) in
  let kvlen := u64 (wl_kvlen st + rkm_len rkm + rkm_key_len rkm) in
  let MaxTimestamp := if wl_MaxTimestamp st <? rkm_timestamp rkm then rkm_timestamp rkm
                      else wl_MaxTimestamp st in
  let* (rkbuf, outlen) :=
    rd_kafka_msgset_writer_write_msg conf (msetw_MsgVersion (msetw_ver msetw)) timestamp
      (wl_rkbuf st) rkm (wl_msgcnt st) 0 None in
  Some (rkmq, mk_wl batch rkbuf (u64 (wl_len st + outlen)) (i32 (wl_msgcnt st + 1)) kvlen MaxTimestamp).

Fixpoint write_msgq_loop (n : nat) (conf : produce_conf) (msetw : rd_kafka_msgset_writer)
  (timestamp now : Z) (rkmq : rd_kafka_msgq) (st : msgq_writing)
  : option (rd_kafka_msgq * msgq_writing) :=
  match n with
  | O => None
  | S n =>
      let* rkm := rd_kafka_msgq_first rkmq in
      if msetw_stops conf msetw now st rkm then Some (rkmq, st)
      else
        let* (rkmq, st) := msetw_write_next conf msetw timestamp rkmq st in
        match rd_kafka_msgq_first rkmq with
        | None => Some (rkmq, st)
        | Some _ => write_msgq_loop n conf msetw timestamp now rkmq st
        end
  end.

(** The queue, the writing, the timestamp of the first message, and whether the return
    value is 1: it is 0 after the fatal error [RD_KAFKA_RESP_ERR__INCONSISTENT]. *)
Definition rd_kafka_msgset_writer_write_msgq (conf : produce_conf) (msetw : rd_kafka_msgset_writer)
  (now : Z) (rkmq : rd_kafka_msgq) (batch : rd_kafka_msgbatch) (rkbuf : rd_kafka_buf)
  : option (rd_kafka_msgq * msgq_writing * Z * bool) :=
  let len := rd_buf_len (rkbuf_buf rkbuf) in
  let* rkm := rd_kafka_msgq_first rkmq in
  let timestamp := rkm_timestamp rkm in
  let* batch := rd_kafka_msgbatch_set_first_msg batch rkm in
  let* (rkmq, st) := write_msgq_loop (length (rkmq_msgs rkmq)) conf msetw timestamp now rkmq
                       (mk_wl batch rkbuf len 0 0 0) in
  if (wl_msgcnt st >? 0) && negb (rkmb_last_msgid (wl_batch st) =? 0) then
    let* lastmsg := rd_kafka_msgq_last (rkmb_msgq (wl_batch st)) in
    Some (rkmq, st, timestamp, rkm_msgid lastmsg =? rkmb_last_msgid (wl_batch st))
  else Some (rkmq, st, timestamp, true).

(** ** Compression *)

Section Codec.

(** [codec c MsgVersion data] is what the codec [c] makes of [data], [None] if it fails. *)
Context (codec : Z -> Z -> bytes -> option bytes).

Definition RD_KAFKA_COMPRESSION_GZIP : Z := 1.
Definition RD_KAFKA_COMPRESSION_SNAPPY : Z := 2.

(** The message that wraps a compressed message set of an older format. *)
Definition wrapper_msg (data : bytes) (timestamp : Z) : rd_kafka_msg :=
  mk_msg (zlen data) None 0 0 0 RD_KAFKA_TIMESTAMP_NOT_AVAILABLE timestamp
    RD_KAFKA_MSG_STATUS_NOT_PERSISTED 0 0 0 0 0 0 0 (Some data) None.

(** The codecs read the slice to its end, chunk by chunk. *)
Definition slice_data (rb : rd_buf) (s : rd_slice) : option bytes :=
  let* (_, data) := reader_loop rb (reader_fuel rb) (fun acc p => acc ++ p) [] s in Some data.

(** The buffer, the size of the messages and the attributes; [None] inside is the return
    value -1. *)
Definition rd_kafka_msgset_writer_compress (conf : produce_conf) (msetw : rd_kafka_msgset_writer)
  (timestamp : Z) (rkbuf : rd_kafka_buf) (len : Z) : option (option (rd_kafka_buf * Z * Z)) :=
  let rbuf := rkbuf_buf rkbuf in
  let compression := msetw_compression (msetw_ver msetw) in
  let MsgVersion := msetw_MsgVersion (msetw_ver msetw) in
  let* _ := rd_assert (rd_buf_len rbuf >=? u64 (msetw_firstmsg_of msetw + len)) in
  let* r := rd_slice_init rbuf (msetw_firstmsg_of msetw) len in
  match r with
  | SliceErr => None
  | SliceOk slice =>
      let* _ := rd_assert ((compression =? RD_KAFKA_COMPRESSION_GZIP)
                           || (compression =? RD_KAFKA_COMPRESSION_SNAPPY)
                           || (compression =? RD_KAFKA_COMPRESSION_LZ4)) in
      let* data := slice_data rbuf slice in
      match codec compression MsgVersion data with
      | None => Some None
      | Some ciov =>
          if zlen ciov >? len then Some None
          else
            let Attributes := Z.lor 0 compression in
            let* (rbuf, _) := rd_buf_write_seek rbuf (msetw_firstmsg_of msetw) in
            let rkbuf := mk_rkbuf rbuf (rkbuf_crc rkbuf) (rkbuf_flexver rkbuf) in
            let* _ := rd_assert (zlen ciov <? INT32_MAX) in
            if MsgVersion =? 2 then
              let* rbuf := rd_buf_push junk rbuf ciov (zlen ciov) (Some RD_FREE) in
              Some (Some (mk_rkbuf rbuf (rkbuf_crc rkbuf) (rkbuf_flexver rkbuf), zlen ciov, Attributes))
            else
              let* (rkbuf, outlen) :=
                rd_kafka_msgset_writer_write_msg conf MsgVersion timestamp rkbuf
                  (wrapper_msg ciov timestamp) 0 compression (Some RD_FREE) in
              Some (Some (rkbuf, outlen, Attributes))
      end
  end.

(** ** Completion *)

(** [addr k] is the address of the k-th chunk. *)
Context (addr : nat -> Z).

Definition rd_kafka_msgset_writer_calc_crc_v2 (msetw : rd_kafka_msgset_writer) (rkbuf : rd_kafka_buf)
  : option rd_kafka_buf :=
  let rbuf := rkbuf_buf rkbuf in
  let* r := rd_slice_init rbuf (msetw_of_CRC msetw + 4)
              (u64 (rd_buf_write_pos rbuf - msetw_of_CRC msetw - 4)) in
  match r with
  | SliceErr => None
  | SliceOk slice =>
      let* (_, crc) := rd_slice_crc32c addr rbuf slice in
      rd_kafka_buf_update_i32 rkbuf (msetw_of_CRC msetw) (i32 crc)
  end.

Definition rd_kafka_msgset_writer_finalize_MessageSet_v2_header (conf : produce_conf)
  (msetw : rd_kafka_msgset_writer) (batch : rd_kafka_msgbatch) (timestamp MaxTimestamp Attributes : Z)
  (messages_len : Z) (rkbuf : rd_kafka_buf) : option (rd_kafka_buf * Z) :=
  let msgcnt := rd_kafka_msgq_len (rkmb_msgq batch) in
  let of_start := msetw_of_start msetw in
  let* _ := rd_assert (msgcnt >? 0) in
  let* _ := rd_assert (msetw_ApiVersion (msetw_ver msetw) >=? 3) in
  let MessageSetSize := u64 (RD_KAFKAP_MSGSET_V2_SIZE + messages_len) in
  let* rkbuf := rd_kafka_buf_update_i32 rkbuf (of_start + RD_KAFKAP_MSGSET_V2_OF_Length)
                  (i32 MessageSetSize - (8 + 4)) in
  let Attributes := Z.lor Attributes RD_KAFKA_MSG_ATTR_CREATE_TIME in
  let Attributes := match transactional_id conf with
                    | Some _ => Z.lor Attributes RD_KAFKA_MSGSET_V2_ATTR_TRANSACTIONAL
                    | None => Attributes
                    end in
  let* rkbuf := rd_kafka_buf_update_i16 rkbuf (of_start + RD_KAFKAP_MSGSET_V2_OF_Attributes) Attributes in
  let* rkbuf := rd_kafka_buf_update_i32 rkbuf (of_start + RD_KAFKAP_MSGSET_V2_OF_LastOffsetDelta)
                  (msgcnt - 1) in
  let* rkbuf := rd_kafka_buf_update_i64 rkbuf (of_start + RD_KAFKAP_MSGSET_V2_OF_BaseTimestamp)
                  timestamp in
  let* rkbuf := rd_kafka_buf_update_i64 rkbuf (of_start + RD_KAFKAP_MSGSET_V2_OF_MaxTimestamp)
                  MaxTimestamp in
  let* rkbuf := rd_kafka_buf_update_i32 rkbuf (of_start + RD_KAFKAP_MSGSET_V2_OF_BaseSequence)
                  (rkmb_first_seq batch) in
  let* rkbuf := rd_kafka_buf_update_i32 rkbuf (of_start + RD_KAFKAP_MSGSET_V2_OF_RecordCount) msgcnt in
  let* rkbuf := rd_kafka_msgset_writer_calc_crc_v2 msetw rkbuf in
  Some (rkbuf, MessageSetSize).

(** The buffer and [MessageSetSize]. *)
Definition rd_kafka_msgset_writer_finalize_MessageSet (conf : produce_conf)
  (msetw : rd_kafka_msgset_writer) (batch : rd_kafka_msgbatch) (timestamp MaxTimestamp Attributes : Z)
  (messages_len : Z) (rkbuf : rd_kafka_buf) : option (rd_kafka_buf * Z) :=
  let* (rkbuf, MessageSetSize) :=
    if msetw_MsgVersion (msetw_ver msetw) =? 2
    then rd_kafka_msgset_writer_finalize_MessageSet_v2_header conf msetw batch timestamp MaxTimestamp
           Attributes messages_len rkbuf
    else Some (rkbuf, u64 (RD_KAFKAP_MSGSET_V0_SIZE + messages_len)) in
  let* rkbuf := rd_kafka_buf_update_i32 rkbuf (msetw_of_MessageSetSize msetw) (i32 MessageSetSize) in
  Some (rkbuf, MessageSetSize).

(** A request ready for transmission: the batch with its producer id, and what the
    counters of the partition and the caller are told. *)
Record produce_request := mk_preq {
  preq_rkbuf : rd_kafka_buf;
  preq_ver : msgset_version;
  preq_batch : rd_kafka_msgbatch;
  preq_MessageSetSize : Z;
  preq_tx_msgs : Z;
  preq_tx_msg_bytes : Z }.

Definition ver_set_compression (v : msgset_version) (c : Z) : msgset_version :=
  mk_msgver (msetw_ApiVersion v) (msetw_MsgVersion v) (msetw_features v) c (msetw_relative_offsets v).

(** [None] inside is the return value NULL: there are no messages. *)
Definition rd_kafka_msgset_writer_finalize (conf : produce_conf) (msetw : rd_kafka_msgset_writer)
  (timestamp : Z) (st : msgq_writing) : option (option produce_request) :=
  let rkbuf := wl_rkbuf st in
  let batch := wl_batch st in
  let cnt := rd_kafka_msgq_len (rkmb_msgq batch) in
  if cnt =? 0 then Some None
  else
    let len := u64 (rd_buf_write_pos (rkbuf_buf rkbuf) - msetw_firstmsg_of msetw) in
    let* _ := rd_assert (len >? 0) in
    let* _ := rd_assert (len <=? u64 (max_msg_size conf)) in
    let batch := mk_batch (rkmb_msgq batch) (msetw_pid msetw) (rkmb_first_seq batch)
                   (rkmb_first_msgid batch) (rkmb_epoch_base_msgid batch) (rkmb_last_msgid batch) in
    let ver := msetw_ver msetw in
    let* (rkbuf, len, Attributes, ver) :=
      if negb (msetw_compression ver =? 0) then
        let* r := rd_kafka_msgset_writer_compress conf msetw timestamp rkbuf len in
        match r with
        | None => Some (rkbuf, len, 0, ver_set_compression ver 0)
        | Some (rkbuf, len, Attributes) => Some (rkbuf, len, Attributes, ver)
        end
      else Some (rkbuf, len, 0, ver) in
    let* (rkbuf, MessageSetSize) :=
      rd_kafka_msgset_writer_finalize_MessageSet conf msetw batch timestamp (wl_MaxTimestamp st)
        Attributes len rkbuf in
    Some (Some (mk_preq rkbuf ver batch MessageSetSize cnt (wl_kvlen st))).

(** The queue, the request if there is one, and whether the fatal error
    [RD_KAFKA_RESP_ERR__INCONSISTENT] is raised.  [now0] is the clock of the
    initialization, [now] that of the loop. *)
Definition rd_kafka_msgset_create_ProduceRequest (conf : produce_conf) (rkb : rd_kafka_broker)
  (rktp : produce_toppar) (rkmq : rd_kafka_msgq) (pid : rd_kafka_pid) (epoch_base_msgid now0 now : Z)
  : option (rd_kafka_msgq * option produce_request * bool) :=
  let* r := rd_kafka_msgset_writer_init conf rkb rktp rkmq pid epoch_base_msgid now0 in
  match r with
  | MsetwEmpty => Some (rkmq, None, false)
  | MsetwNoVersion rkmq => Some (rkmq, None, false)
  | MsetwReady msetw rkbuf batch =>
      let* (rkmq, st, timestamp, ok) :=
        rd_kafka_msgset_writer_write_msgq conf msetw now rkmq batch rkbuf in
      let* (rkmq, st) :=
        if negb ok then
          let* (rkmq, msgq) := rd_kafka_msgq_insert_msgq (msg_order_cmp (strategy conf)) rkmq
                                 (rkmb_msgq (wl_batch st)) in
          Some (rkmq, mk_wl (batch_set_msgq (wl_batch st) msgq) (wl_rkbuf st) (wl_len st)
                        (wl_msgcnt st) (wl_kvlen st) (wl_MaxTimestamp st))
        else Some (rkmq, st) in
      let* r := rd_kafka_msgset_writer_finalize conf msetw timestamp st in
      Some (rkmq, r, negb ok)
  end.

End Codec.

End Write.
