(* ===== verification/MsgWriterFacts.v ===== *)
(** * What the message set writer writes

    The steps of the writer against the record batch format: each appends the bytes of
    its part of the format, whatever the segments of the buffer. *)

From S2P Require Import Prelude Varint RdBuf RdBufFacts RdBufProps Slice SliceFacts Crc.
From S2P Require Import Header Msgq MsgqFacts Producer KafkaBuf KafkaBufFacts RecordBatch MsgWriter.

(** ** Appending *)

(** The CRC in progress of the bytes [d]. *)
Definition crc_val (d : bytes) : Z := rd_crc32_update rd_crc32_init d.

Lemma crc_val_range d : in_u 32 (crc_val d).
Proof.
  unfold crc_val, rd_crc32_update, in_u. change 0xffffffff with (Z.ones 32).
  rewrite Z.land_ones by lia. apply Z.mod_pos_bound. lia.
Qed.

Lemma crc_val_app a b : crc_val (a ++ b) = rd_crc32_update (crc_val a) b.
Proof.
  unfold crc_val, rd_crc32_update. rewrite List.fold_left_app.
  match goal with |- context [fold_left ?f a _] =>
    assert (forall l x, in_u 32 x -> in_u 32 (fold_left f l x)) as Hr end.
  { induction l as [| y l IH]; intros x Hx; [assumption |]. cbn [fold_left]. apply IH.
    cbv zeta. unfold in_u. change 0xffffffff with (Z.ones 32). rewrite Z.land_ones by lia.
    apply Z.mod_pos_bound. lia. }
  f_equal. f_equal. symmetry. apply mask_small, Hr. unfold in_u, rd_crc32_init. lia.
Qed.

(** A buffer that holds [c]; [crc] are the bytes the CRC in progress has seen, [P] a
    position in memory of the buffer's own, or behind it. *)
Definition kbs (K P : Z) (r : rd_kafka_buf) (c : bytes) (crc : option bytes) (fx : bool) : Prop :=
  kb K r c /\ rkbuf_crc r = crc_val <$> crc /\ rkbuf_flexver r = fx /\ writable_at (rkbuf_buf r) P.

Definition crc_upd (crc : option bytes) (d : bytes) : option bytes := (fun x => x ++ d) <$> crc.

Lemma crc_upd_app crc a b : crc_upd crc (a ++ b) = crc_upd (crc_upd crc a) b.
Proof. destruct crc; [| reflexivity]. cbn. now rewrite app_assoc. Qed.

Lemma crc_upd_nil crc : crc_upd crc [] = crc.
Proof. destruct crc; [| reflexivity]. cbn. now rewrite app_nil_r. Qed.

Lemma zlen_default o : zlen (default [] o) = opt_len o.
Proof. now destruct o. Qed.

#[export] Hint Rewrite zlen_default : zlist.

(** Lengths of what is appended. *)
Ltac len_lia := repeat (rewrite ?zlen_be_enc in *; autorewrite with zlist in *;
  cbn [length opt_len] in *); lia.

(** A string of the protocol. *)
Definition kstr_bytes (s : option bytes) : bytes :=
  match s with None => be_enc 2 (-1) | Some s => be_enc 2 (zlen s) ++ s end.

Lemma zlen_kstr s : zlen (kstr_bytes s) = 2 + opt_len s.
Proof. destruct s; cbn [kstr_bytes opt_len]; len_lia. Qed.

#[export] Hint Rewrite zlen_kstr : zlist.

Section Append.
Context (junk : Z -> Z) (K P : Z) (HK : kb_base K).

Lemma write_kbs r c crc fx d :
  kbs K P r c crc fx -> zlen c + zlen d < 2 ^ 58 ->
  exists r', rd_kafka_buf_write junk r d = Some (r', zlen c) /\ kbs K P r' (c ++ d) (crc_upd crc d) fx.
Proof.
  intros (Hk & Hc & Hf & Hp) Hd. destruct (write_kb junk K HK r c d Hk Hd) as (r' & E & Hk' & Hc' & Hf').
  exists r'. split; [exact E |]. split; [assumption |]. split; [| split; [congruence |]]; cycle 1.
  { revert E. unfold rd_kafka_buf_write. destruct (rd_buf_write _ _ _ _) as [[b x] |] eqn:E; [| discriminate].
    intros [= <- _]. eapply rd_buf_write_writable; eassumption. }
  rewrite Hc'. unfold rkbuf_crc_add, crc_upd. rewrite Hc. destruct crc; [| reflexivity].
  cbn. now rewrite crc_val_app.
Qed.

Lemma push_kbs r c crc fx d fcb :
  kbs K P r c crc fx -> zlen c + zlen d < 2 ^ 58 -> P < zlen c ->
  exists r', rd_kafka_buf_push junk r d fcb = Some r' /\ kbs K P r' (c ++ d) (crc_upd crc d) fx.
Proof.
  intros (Hk & Hc & Hf & Hp) Hd HP.
  destruct (push_kb junk K HK r c d fcb Hk Hd) as (r' & E & Hk' & Hc' & Hf').
  exists r'. split; [exact E |]. split; [assumption |]. split; [| split; [congruence |]]; cycle 1.
  { revert E. unfold rd_kafka_buf_push, rd_buf_push. destruct (rd_buf_push0 _ _ _ _ _ _) eqn:E; [| discriminate].
    intros [= <-]. eapply rd_buf_push_writable_at; [eassumption | | assumption].
    now rewrite (buf_state_len _ _ (proj1 Hk)). }
  rewrite Hc'. unfold rkbuf_crc_add, crc_upd. rewrite Hc. destruct crc; [| reflexivity].
  cbn. now rewrite crc_val_app.
Qed.

Lemma overwrite_mid (a b b' c : bytes) :
  zlen b' = zlen b -> overwrite (a ++ b ++ c) (zlen a) b' = a ++ b' ++ c.
Proof.
  intros H. unfold overwrite. rewrite H.
  rewrite ztake_app, ztake_all, Z.sub_diag, ztake_nonpos, app_nil_r by lia.
  rewrite !zdrop_app. f_equal. f_equal.
  rewrite zdrop_all, zdrop_all by lia. cbn [app]. rewrite zdrop_nonpos by lia. reflexivity.
Qed.

(** Filling in a field: [b] after [a]. *)
Lemma update_kbs r a b b' c fx :
  kbs K P r (a ++ b ++ c) None fx -> zlen b' = zlen b -> 0 < zlen b ->
  exists r', rd_kafka_buf_update r (zlen a) b' = Some r' /\ kbs K P r' (a ++ b' ++ c) None fx.
Proof.
  intros (Hk & Hc & Hf & Hw) Hl Hp.
  destruct (update_kb K r (a ++ b ++ c) (zlen a) b' Hk Hc) as (r' & E & Hk' & Hc' & Hf');
    [len_lia | len_lia |].
  exists r'. split; [exact E |]. rewrite overwrite_mid in Hk' by assumption.
  split; [assumption |]. split; [assumption |]. split; [congruence |].
  revert E. unfold rd_kafka_buf_update. destruct (rd_assert _); [| discriminate].
  destruct (rd_buf_write_update _ _ _ _) as [[bf x] |] eqn:E; [| discriminate].
  intros [= <-]. eapply rd_buf_update_writable; eassumption.
Qed.

Lemma write_varint_kbs r c crc fx v :
  kbs K P r c crc fx -> in_i 64 v -> zlen c + 10 < 2 ^ 58 ->
  exists r', rd_kafka_buf_write_varint junk r v = Some (r', zlen c) /\
    kbs K P r' (c ++ zvarint v) (crc_upd crc (zvarint v)) fx.
Proof.
  intros H Hv Hc. pose proof (zvarint_range v Hv). unfold rd_kafka_buf_write_varint.
  rewrite enc_i64_zvarint by (assumption || (change (RD_UVARINT_ENC_SIZEOF 8) with 10; lia)).
  apply write_kbs; [assumption | lia].
Qed.

Lemma write_kstr_kbs r c crc s :
  kbs K P r c crc false -> zlen c + 2 + opt_len s < 2 ^ 58 ->
  exists r', rd_kafka_buf_write_kstr junk r s = Some (r', zlen c) /\
    kbs K P r' (c ++ kstr_bytes s) (crc_upd crc (kstr_bytes s)) false.
Proof.
  intros H Hc. pose proof H as (_ & _ & Hf & _). unfold rd_kafka_buf_write_kstr. rewrite Hf. cbn [negb].
  destruct s as [s |]; cbn [opt_len] in Hc.
  - destruct (write_kbs _ _ _ _ (be_enc 2 (zlen s)) H) as (r1 & E1 & H1); [len_lia |].
    destruct (write_kbs _ _ _ _ s H1) as (r2 & E2 & H2); [len_lia |].
    unfold rd_kafka_buf_write_i16. rewrite E1, E2. exists r2. split; [reflexivity |].
    unfold kstr_bytes. now rewrite app_assoc, crc_upd_app.
  - apply write_kbs; [assumption | len_lia].
Qed.

Lemma write_bytes_kbs r c crc fx p size :
  kbs K P r c crc fx -> size = opt_len p -> zlen c + 4 + size < 2 ^ 58 ->
  exists r', rd_kafka_buf_write_bytes junk r p size = Some (r', zlen c) /\
    let d := match p with None => be_enc 4 (-1) | Some b => be_enc 4 (zlen b) ++ b end in
    kbs K P r' (c ++ d) (crc_upd crc d) fx.
Proof.
  intros H -> Hc. unfold rd_kafka_buf_write_bytes, rd_kafka_buf_write_i32.
  destruct p as [b |]; cbn [opt_len] in *.
  - destruct (write_kbs _ _ _ _ (be_enc 4 (zlen b)) H) as (r1 & -> & H1); [len_lia |].
    destruct (write_kbs _ _ _ _ b H1) as (r2 & -> & H2); [len_lia |].
    exists r2. split; [reflexivity |]. cbv zeta. now rewrite app_assoc, crc_upd_app.
  - destruct (write_kbs _ _ _ _ (be_enc 4 (-1)) H) as (r1 & -> & H1); [len_lia |].
    now exists r1.
Qed.

Lemma write_payload_kbs conf r c crc fx b fcb :
  kbs K P r c crc fx -> zlen c + zlen b < 2 ^ 58 -> P < zlen c ->
  exists r', rd_kafka_msgset_writer_write_msg_payload junk conf r (zlen b) b fcb = Some r' /\
    kbs K P r' (c ++ b) (crc_upd crc b) fx.
Proof.
  intros H Hc HP. unfold rd_kafka_msgset_writer_write_msg_payload. destruct (_ && _).
  - destruct (write_kbs _ _ _ _ b H Hc) as (r' & -> & H'). now exists r'.
  - now apply push_kbs.
Qed.

Lemma headers_loop_kbs l : forall r c crc fx,
  kbs K P r c crc fx -> Forall header_ok l -> zlen c + zlen (headers_bytes l) < 2 ^ 57 ->
  exists r', write_headers_loop junk r l = Some r' /\
    kbs K P r' (c ++ headers_bytes l) (crc_upd crc (headers_bytes l)) fx.
Proof.
  induction l as [| h l IH]; intros r c crc fx H Hl Hc.
  - exists r. cbn. now rewrite app_nil_r, crc_upd_nil.
  - apply Forall_cons_iff in Hl as [Hh Hl]. pose proof (header_len h Hh) as Hhl. destruct Hh as [Hn Hv].
    change (headers_bytes (h :: l)) with (header_bytes h ++ headers_bytes l) in Hc |- *.
    unfold header_bytes in Hc.
    assert (in_i 64 (zlen (rkhdr_name h))) as Hn64 by (unfold in_i; lia).
    pose proof (zvarint_range _ Hn64) as Hzn.
    cbn [write_headers_loop]. unfold rkhdr_name_size, rkhdr_value_size.
    destruct (write_varint_kbs _ _ _ _ (zlen (rkhdr_name h)) H Hn64) as (r1 & -> & H1); [len_lia |].
    destruct (write_kbs _ _ _ _ (rkhdr_name h) H1) as (r2 & -> & H2); [len_lia |].
    set (v := match rkhdr_value h with Some _ => _ | None => _ end).
    assert (in_i 64 v /\ zvarint v ++ default [] (rkhdr_value h) = kv_bytes (rkhdr_value h)) as [Hv64 Ev].
    { unfold v, kv_bytes, in_i. destruct (rkhdr_value h); cbn [opt_len default] in *;
        [split; [lia | reflexivity] | rewrite app_nil_r; split; [lia | reflexivity]]. }
    assert (zlen (zvarint v) + zlen (default [] (rkhdr_value h)) = zlen (kv_bytes (rkhdr_value h)))
      as Hlv by (rewrite <- Ev; len_lia).
    pose proof (zvarint_range v Hv64).
    destruct (write_varint_kbs _ _ _ _ v H2 Hv64) as (r3 & -> & H3); [len_lia |].
    destruct (write_kbs _ _ _ _ (default [] (rkhdr_value h)) H3) as (r4 & -> & H4); [len_lia |].
    rewrite <- !app_assoc, <- !crc_upd_app, Ev in H4.
    destruct (IH _ _ _ _ H4 Hl) as (r5 & -> & H5); [clear - Hc; len_lia |].
    exists r5. split; [reflexivity |]. revert H5. unfold header_bytes.
    now rewrite <- !app_assoc, <- !crc_upd_app, <- !app_assoc.
Qed.

(** ** Messages *)

(** The body of a message v0 or v1, which its CRC covers. *)
Definition msg_v0_1_body (MsgVersion MsgAttributes : Z) (m : rd_kafka_msg) : bytes :=
  be_enc 1 MsgVersion ++ be_enc 1 MsgAttributes
  ++ (if MsgVersion =? 1 then be_enc 8 (rkm_timestamp m) else [])
  ++ match rkm_key m with Some b => be_enc 4 (zlen b) ++ b | None => be_enc 4 (-1) end
  ++ match rkm_payload m with Some b => be_enc 4 (zlen b) ++ b | None => be_enc 4 (-1) end.

Definition msg_v0_1_bytes (MsgVersion MsgAttributes offset : Z) (m : rd_kafka_msg) : bytes :=
  let b := msg_v0_1_body MsgVersion MsgAttributes m in
  be_enc 8 offset ++ be_enc 4 (zlen b + 4) ++ be_enc 4 (rd_crc32 b) ++ b.

(** Sizes of a well-formed message stay within [size_t] and [int64_t]. *)
Ltac msg_bounds Hm :=
  let H1 := fresh in let H2 := fresh in
  destruct (msg_hdr_ok _ Hm) as (H1 & H2 & ?); pose proof (headers_count _ H1);
  pose proof (mk_len_max _ Hm); pose proof (mk_key_max _ Hm);
  pose proof (mk_len _ Hm); pose proof (mk_key_len _ Hm).

Lemma opt_len_nonneg o : 0 <= opt_len o.
Proof. destruct o; cbn; lia. Qed.

Lemma write_key_kbs r c crc fx o :
  kbs K P r c crc fx -> zlen c + opt_len o < 2 ^ 58 ->
  exists r', match o with
             | Some key => let* (x, _) := rd_kafka_buf_write junk r key in Some x
             | None => Some r
             end = Some r' /\ kbs K P r' (c ++ default [] o) (crc_upd crc (default [] o)) fx.
Proof.
  intros H Hc. destruct o as [key |]; cbn [opt_len default] in *.
  - destruct (write_kbs _ _ _ _ key H Hc) as (r' & -> & H'). now exists r'.
  - exists r. now rewrite app_nil_r, crc_upd_nil.
Qed.

Lemma write_value_kbs conf r c crc fx o len fcb :
  kbs K P r c crc fx -> len = opt_len o -> zlen c + len < 2 ^ 58 -> P < zlen c ->
  exists r', match o with
             | Some payload => rd_kafka_msgset_writer_write_msg_payload junk conf r len payload fcb
             | None => Some r
             end = Some r' /\ kbs K P r' (c ++ default [] o) (crc_upd crc (default [] o)) fx.
Proof.
  intros H -> Hc HP. destruct o as [b |]; cbn [opt_len default] in *.
  - now apply write_payload_kbs.
  - exists r. now rewrite app_nil_r, crc_upd_nil.
Qed.

Lemma write_headers_kbs r c crc fx m :
  kbs K P r c crc fx -> msg_ok m -> zlen c < 2 ^ 56 ->
  exists r', match rkm_headers m with
             | Some hdrs => rd_kafka_msgset_writer_write_msg_headers junk r hdrs
             | None => Some r
             end = Some r' /\
    kbs K P r' (c ++ headers_bytes (msg_headers m)) (crc_upd crc (headers_bytes (msg_headers m))) fx.
Proof.
  intros H Hm Hc. destruct (msg_hdr_ok m Hm) as (H1 & H2 & H3). unfold msg_headers in *.
  destruct (rkm_headers m) as [hdrs |].
  - apply headers_loop_kbs; [assumption | assumption |]. unfold msg_hdr_size in *. lia.
  - exists r. cbn. now rewrite app_nil_r, crc_upd_nil.
Qed.

Lemma write_msg_v2_kbs conf ts r c fx m off fcb :
  kbs K P r c None fx -> msg_ok m -> in_i 31 off -> zlen c < 2 ^ 55 -> P <= zlen c ->
  exists r', rd_kafka_msgset_writer_write_msg_v2 junk conf ts r m off fcb =
    Some (r', zlen (record_bytes ts off m)) /\
    kbs K P r' (c ++ record_bytes ts off m) None fx.
Proof.
  intros H Hm Ho Hc HP. msg_bounds Hm.
  pose proof (opt_len_nonneg (rkm_payload m)). pose proof (opt_len_nonneg (rkm_key m)).
  pose proof (record_body_len ts off m Hm Ho) as Hbl.
  unfold rd_kafka_msgset_writer_write_msg_v2.
  replace (match rkm_headers m with Some hdrs => (rd_kafka_header_cnt hdrs, rkhdrs_ser_size hdrs)
           | None => (0, 0) end) with (zlen (msg_headers m), msg_hdr_size m)
    by (unfold msg_headers, msg_hdr_size; destruct (rkm_headers m); reflexivity).
  set (td := i64 (rkm_timestamp m - ts)).
  assert (in_i 64 td) as Htd by (apply swrap_range; lia).
  assert (in_i 64 off) as Ho64 by (unfold in_i in *; lia).
  set (kl := match rkm_key m with Some _ => i32 (rkm_key_len m) | None => -1 end).
  set (vl := match rkm_payload m with Some _ => i32 (rkm_len m) | None => -1 end).
  assert (in_i 32 kl /\ zvarint kl ++ default [] (rkm_key m) = kv_bytes (rkm_key m)) as [Hkl Ekl].
  { unfold kl, kv_bytes. destruct (rkm_key m) as [b |]; cbn [opt_len default] in *.
    - rewrite swrap_small by (unfold in_i; lia). split; [unfold in_i; lia |].
      now replace (rkm_key_len m) with (zlen b).
    - rewrite app_nil_r. split; [unfold in_i; lia | reflexivity]. }
  assert (in_i 32 vl /\ zvarint vl ++ default [] (rkm_payload m) = kv_bytes (rkm_payload m)) as [Hvl Evl].
  { unfold vl, kv_bytes. destruct (rkm_payload m) as [b |]; cbn [opt_len default] in *.
    - rewrite swrap_small by (unfold in_i; lia). split; [unfold in_i; lia |].
      now replace (rkm_len m) with (zlen b).
    - rewrite app_nil_r. split; [unfold in_i; lia | reflexivity]. }
  assert (in_i 32 (zlen (msg_headers m))) as Hhc by (unfold in_i; lia).
  change (RD_UVARINT_ENC_SIZEOF 8) with 10. change (RD_UVARINT_ENC_SIZEOF 4) with 5.
  unfold rd_uvarint_enc_i32.
  pose proof (zvarint_range td Htd). pose proof (zvarint_range off Ho64).
  pose proof (zvarint_len_i32 kl Hkl). pose proof (zvarint_len_i32 vl Hvl).
  pose proof (zvarint_len_i32 _ Hhc).
  rewrite !enc_i64_zvarint by (assumption || (unfold in_i in *; lia)).
  pose proof (f_equal (fun l => zlen l) Ekl) as Lkl. pose proof (f_equal (fun l => zlen l) Evl) as Lvl.
  cbn beta in Lkl, Lvl. rewrite zlen_app in Lkl, Lvl.
  rewrite zlen_default in Lkl, Lvl. pose proof (zvarint_len_i32 0 ltac:(unfold in_i; lia)).
  set (T := zlen (record_body ts off m)) in *.
  replace (u64 (1 + _ + _ + _ + _ + _ + _ + _ + _)) with T.
  2: { unfold T, record_body. fold td. rewrite wrap_small; len_lia. }
  rewrite (swrap_small 64 T) by (unfold in_i; lia).
  pose proof (zvarint_len T 5 ltac:(lia) ltac:(lia)) as HT.
  rewrite enc_i64_zvarint by (unfold in_i in *; lia).
  destruct (write_kbs _ _ _ _ (zvarint T) H) as (r1 & -> & K1); [len_lia |].
  unfold rd_kafka_buf_write_i8.
  destruct (write_kbs _ _ _ _ (be_enc 1 0) K1) as (r2 & -> & K2); [len_lia |].
  destruct (write_kbs _ _ _ _ (zvarint td) K2) as (r3 & -> & K3); [len_lia |].
  destruct (write_kbs _ _ _ _ (zvarint off) K3) as (r4 & -> & K4); [len_lia |].
  destruct (write_kbs _ _ _ _ (zvarint kl) K4) as (r5 & -> & K5); [len_lia |].
  destruct (write_key_kbs _ _ _ _ (rkm_key m) K5) as (r6 & -> & K6); [len_lia |].
  destruct (write_kbs _ _ _ _ (zvarint vl) K6) as (r7 & -> & K7); [len_lia |].
  destruct (write_value_kbs conf _ _ _ _ (rkm_payload m) (rkm_len m) fcb K7) as (r8 & -> & K8); [lia | len_lia | len_lia |].
  destruct (write_kbs _ _ _ _ (zvarint (zlen (msg_headers m))) K8) as (r9 & -> & K9); [len_lia |].
  destruct (write_headers_kbs _ _ _ _ m K9 Hm) as (r10 & -> & K10); [len_lia |].
  exists r10. split.
  - rewrite wrap_small by lia. unfold record_bytes. cbv zeta. fold T. rewrite zlen_app. fold T.
    do 2 f_equal. lia.
  - replace (record_bytes ts off m) with
      (zvarint T ++ [0] ++ zvarint td ++ zvarint off ++ kv_bytes (rkm_key m)
       ++ kv_bytes (rkm_payload m) ++ zvarint (zlen (msg_headers m))
       ++ headers_bytes (msg_headers m)) by reflexivity.
    rewrite <- Ekl, <- Evl, <- !app_assoc. rewrite <- !app_assoc in K10. exact K10.
Qed.

Lemma crc_init_kbs r c fx :
  kbs K P r c None fx ->
  exists r', rd_kafka_buf_crc_init r = Some r' /\ kbs K P r' c (Some []) fx.
Proof.
  intros ((Hs & Hl) & Hc & Hf & Hp). unfold rd_kafka_buf_crc_init. rewrite Hc. eexists.
  split; [reflexivity |]. split; [now split |]. now split.
Qed.

Lemma crc_finalize_kbs r c d fx :
  kbs K P r c (Some d) fx ->
  exists r', rd_kafka_buf_crc_finalize r = (r', rd_crc32 d) /\ kbs K P r' c None fx.
Proof.
  intros ((Hs & Hl) & Hc & Hf & Hp). unfold rd_kafka_buf_crc_finalize. rewrite Hc. eexists.
  split; [reflexivity |]. split; [now split |]. now split.
Qed.

Lemma write_ts_kbs r c crc fx ver ts :
  kbs K P r c crc fx -> zlen c < 2 ^ 56 ->
  exists r', (if ver =? 1 then let* (x, _) := rd_kafka_buf_write junk r (be_enc 8 ts) in Some x
              else Some r) = Some r' /\
    let d := if ver =? 1 then be_enc 8 ts else [] in kbs K P r' (c ++ d) (crc_upd crc d) fx.
Proof.
  intros H Hc. destruct (ver =? 1).
  - destruct (write_kbs _ _ _ _ (be_enc 8 ts) H) as (r' & -> & H'); [len_lia | now exists r'].
  - exists r. cbv zeta. now rewrite app_nil_r, crc_upd_nil.
Qed.

Lemma write_msg_value_kbs conf r c crc fx m fcb :
  kbs K P r c crc fx -> msg_ok m -> zlen c < 2 ^ 56 -> P <= zlen c ->
  exists r', match rkm_payload m with
             | Some payload =>
                 let* (x, _) := rd_kafka_buf_write junk r (be_enc 4 (i32 (rkm_len m))) in
                 rd_kafka_msgset_writer_write_msg_payload junk conf x (rkm_len m) payload fcb
             | None => let* (x, _) := rd_kafka_buf_write junk r (be_enc 4 (-1)) in Some x
             end = Some r' /\
    let d := match rkm_payload m with Some b => be_enc 4 (zlen b) ++ b | None => be_enc 4 (-1) end in
    kbs K P r' (c ++ d) (crc_upd crc d) fx.
Proof.
  intros H Hm Hc HP. pose proof (mk_len _ Hm) as Hl. pose proof (mk_len_max _ Hm).
  destruct (rkm_payload m) as [b |]; cbn [opt_len] in Hl.
  - rewrite be_enc_i32, Hl.
    destruct (write_kbs _ _ _ _ (be_enc 4 (zlen b)) H) as (r1 & -> & H1); [len_lia |].
    destruct (write_payload_kbs conf _ _ _ _ b fcb H1) as (r2 & -> & H2); [len_lia | len_lia |].
    exists r2. split; [reflexivity |]. cbv zeta. now rewrite app_assoc, crc_upd_app.
  - destruct (write_kbs _ _ _ _ (be_enc 4 (-1)) H) as (r1 & -> & H1); [len_lia | now exists r1].
Qed.

Lemma write_msg_v0_1_kbs conf ver r c fx m off attr fcb :
  kbs K P r c None fx -> msg_ok m -> zlen c < 2 ^ 55 -> P <= zlen c -> ver = 0 \/ ver = 1 ->
  exists r', rd_kafka_msgset_writer_write_msg_v0_1 junk conf ver r m off attr fcb =
    Some (r', zlen (msg_v0_1_bytes ver attr off m)) /\
    kbs K P r' (c ++ msg_v0_1_bytes ver attr off m) None fx.
Proof.
  intros H Hm Hc HP Hver. msg_bounds Hm.
  pose proof (opt_len_nonneg (rkm_payload m)). pose proof (opt_len_nonneg (rkm_key m)).
  set (kb := match rkm_key m with Some b => be_enc 4 (zlen b) ++ b | None => be_enc 4 (-1) end).
  set (vb := match rkm_payload m with Some b => be_enc 4 (zlen b) ++ b | None => be_enc 4 (-1) end).
  set (tb := if ver =? 1 then be_enc 8 (rkm_timestamp m) else []).
  assert (zlen kb = 4 + rkm_key_len m) as Lk
    by (unfold kb; destruct (rkm_key m); cbn [opt_len] in *; len_lia).
  assert (zlen vb = 4 + rkm_len m) as Lv
    by (unfold vb; destruct (rkm_payload m); cbn [opt_len] in *; len_lia).
  assert (zlen tb = if ver =? 1 then 8 else 0) as Lt by (unfold tb; destruct (ver =? 1); reflexivity).
  assert (zlen tb <= 8) by (rewrite Lt; destruct (ver =? 1); lia).
  unfold rd_kafka_msgset_writer_write_msg_v0_1.
  unfold rd_kafka_buf_write_i64, rd_kafka_buf_write_i32, rd_kafka_buf_write_i8.
  set (ms := if ver =? 1 then u64 (u64 _ + 8) else u64 _).
  assert (ms = 14 + rkm_key_len m + rkm_len m + zlen tb) as Ems.
  { unfold ms. rewrite Lt. destruct (ver =? 1); repeat rewrite wrap_small; lia. }
  assert (msg_v0_1_bytes ver attr off m =
    be_enc 8 off ++ be_enc 4 (i32 ms) ++ be_enc 4 (rd_crc32 (be_enc 1 ver ++ be_enc 1 attr ++ tb ++ kb ++ vb))
    ++ be_enc 1 ver ++ be_enc 1 attr ++ tb ++ kb ++ vb) as Eb.
  { unfold msg_v0_1_bytes, msg_v0_1_body. fold kb vb tb. cbv zeta. rewrite be_enc_i32.
    do 4 f_equal. len_lia. }
  destruct (write_kbs _ _ _ _ (be_enc 8 off) H) as (r1 & -> & K1); [len_lia |].
  destruct (write_kbs _ _ _ _ (be_enc 4 (i32 ms)) K1) as (r2 & -> & K2); [len_lia |].
  destruct (write_kbs _ _ _ _ (be_enc 4 0) K2) as (r3 & -> & K3); [len_lia |].
  destruct (crc_init_kbs _ _ _ K3) as (r4 & -> & K4).
  destruct (write_kbs _ _ _ _ (be_enc 1 ver) K4) as (r5 & -> & K5); [len_lia |].
  destruct (write_kbs _ _ _ _ (be_enc 1 attr) K5) as (r6 & -> & K6); [len_lia |].
  destruct (write_ts_kbs _ _ _ _ ver (rkm_timestamp m) K6) as (r7 & -> & K7); [len_lia |]. fold tb in K7.
  destruct (write_bytes_kbs _ _ _ _ (rkm_key m) (rkm_key_len m) K7) as (r8 & -> & K8); [lia | len_lia |].
  cbv zeta in K8. fold kb in K8.
  destruct (write_msg_value_kbs conf _ _ _ _ m fcb K8 Hm) as (r9 & -> & K9); [len_lia | len_lia |]. fold vb in K9.
  set (d := be_enc 1 ver ++ be_enc 1 attr ++ tb ++ kb ++ vb) in *.
  assert (kbs K P r9 ((c ++ be_enc 8 off ++ be_enc 4 (i32 ms)) ++ be_enc 4 0 ++ d) (Some d) fx) as K10.
  { unfold d. unfold crc_upd in K9. cbn [fmap option_fmap option_map app] in K9.
    rewrite <- !app_assoc in *. exact K9. }
  destruct (crc_finalize_kbs _ _ _ _ K10) as (r10 & -> & K11).
  unfold rd_kafka_buf_update_u32. rewrite <- app_assoc.
  destruct (update_kbs r10 (c ++ be_enc 8 off ++ be_enc 4 (i32 ms)) (be_enc 4 0)
    (be_enc 4 (rd_crc32 d)) _ _ K11) as (r11 & -> & K12); [len_lia | len_lia |].
  exists r11. split.
  - f_equal. f_equal. rewrite Eb. unfold d. rewrite wrap_small; len_lia.
  - rewrite Eb. rewrite <- !app_assoc in K12. exact K12.
Qed.

Definition msg_bytes (ver ts off attr : Z) (m : rd_kafka_msg) : bytes :=
  if ver =? 2 then record_bytes ts off m else msg_v0_1_bytes ver attr off m.

Lemma wire_size_small ver m :
  msg_ok m -> rd_kafka_msg_wire_size m ver =
    msg_overhead ver + rkm_len m + rkm_key_len m + (if ver =? 2 then msg_hdr_size m else 0).
Proof.
  intros Hm. msg_bounds Hm.
  pose proof (opt_len_nonneg (rkm_payload m)). pose proof (opt_len_nonneg (rkm_key m)).
  assert (0 <= msg_overhead ver <= 36) by (unfold msg_overhead; repeat case_match; vm_compute; split; congruence).
  unfold rd_kafka_msg_wire_size, rd_kafka_headers_serialized_size.
  unfold msg_hdr_size in *. destruct (rkm_headers m) eqn:E, (ver =? 2); rewrite ?E in *;
    rewrite ?wrap_small; rewrite ?wrap_small; lia.
Qed.

Lemma msg_bytes_len ver ts off attr m :
  msg_ok m -> in_i 31 off -> ver = 0 \/ ver = 1 \/ ver = 2 ->
  1 <= zlen (msg_bytes ver ts off attr m) <= rd_kafka_msg_wire_size m ver /\
  rd_kafka_msg_wire_size m ver <= 36 + rkm_len m + rkm_key_len m + msg_hdr_size m.
Proof.
  intros Hm Ho Hv. rewrite wire_size_small by assumption. msg_bounds Hm.
  pose proof (opt_len_nonneg (rkm_payload m)). pose proof (opt_len_nonneg (rkm_key m)).
  unfold msg_bytes. pose proof (record_len ts off m Hm Ho).
  assert (ver = 0 \/ ver = 1 -> zlen (msg_v0_1_bytes ver attr off m)
    = msg_overhead ver + rkm_len m + rkm_key_len m) as Hold.
  { intros Hv'. unfold msg_v0_1_bytes, msg_v0_1_body. cbv zeta.
    destruct Hv' as [-> | ->]; destruct (rkm_key m), (rkm_payload m); cbn [opt_len] in *;
      change (0 =? 1) with false; change (1 =? 1) with true; cbv iota;
      change (msg_overhead 0) with 26; change (msg_overhead 1) with 34; len_lia. }
  change (msg_overhead 0) with 26 in *. change (msg_overhead 1) with 34 in *.
  destruct Hv as [-> | [-> | ->]]; cbn [Z.eqb Pos.eqb]; change (msg_overhead 0) with 26 in *;
    change (msg_overhead 1) with 34 in *; change (msg_overhead 2) with 36 in *;
    try rewrite Hold by auto; lia.
Qed.

Lemma write_pos_kbs r c crc fx : kbs K P r c crc fx -> rd_buf_write_pos (rkbuf_buf r) = zlen c.
Proof.
  intros ((Hs & _) & _). pose proof (buf_state_len _ _ Hs) as <-. destruct Hs as (Hw & _).
  now apply write_pos_len.
Qed.

(** A message is written in full, in no more room than was foreseen for it. *)
Lemma write_msg_kbs conf ver ts r c fx m off attr fcb :
  kbs K P r c None fx -> msg_ok m -> in_i 31 off -> zlen c < 2 ^ 55 -> P <= zlen c ->
  ver = 0 \/ ver = 1 \/ ver = 2 ->
  exists r', rd_kafka_msgset_writer_write_msg junk conf ver ts r m off attr fcb =
    Some (r', zlen (msg_bytes ver ts off attr m)) /\
    kbs K P r' (c ++ msg_bytes ver ts off attr m) None fx.
Proof.
  intros H Hm Ho Hc HP Hv. pose proof (msg_bytes_len ver ts off attr m Hm Ho Hv) as [Hl Hw].
  msg_bounds Hm. pose proof (opt_len_nonneg (rkm_payload m)). pose proof (opt_len_nonneg (rkm_key m)).
  unfold rd_kafka_msgset_writer_write_msg.
  assert (exists r', (if ver =? 2
      then rd_kafka_msgset_writer_write_msg_v2 junk conf ts r m off fcb
      else rd_kafka_msgset_writer_write_msg_v0_1 junk conf ver r m off attr fcb) =
      Some (r', zlen (msg_bytes ver ts off attr m)) /\
      kbs K P r' (c ++ msg_bytes ver ts off attr m) None fx) as (r' & -> & K1).
  { unfold msg_bytes. destruct (Z.eqb_spec ver 2).
    - now apply write_msg_v2_kbs.
    - apply write_msg_v0_1_kbs; try assumption. lia. }
  exists r'. split; [| assumption].
  rewrite (write_pos_kbs _ _ _ _ H), (write_pos_kbs _ _ _ _ K1). unfold rd_assert.
  rewrite wrap_small by len_lia. ztest.
  replace (zlen (msg_bytes ver ts off attr m) =? zlen (c ++ msg_bytes ver ts off attr m) - zlen c)
    with true by (symmetry; apply Z.eqb_eq; len_lia).
  reflexivity.
Qed.

(** ** The headers *)

Definition request_header (client_id : option bytes) (ApiKey : Z) : bytes :=
  be_enc 4 0 ++ be_enc 2 ApiKey ++ be_enc 2 0 ++ be_enc 4 0 ++ kstr_bytes client_id.

Lemma new_request0_kbs client_id ApiKey segcnt size :
  opt_len client_id < 2 ^ 15 -> 0 < segcnt + 1 ->
  exists r, rd_kafka_buf_new_request0 junk client_id ApiKey segcnt size false = Some r /\
    kbs K P r (request_header client_id ApiKey) None false.
Proof.
  intros Hc Hseg. unfold rd_kafka_buf_new_request0, rd_kafka_buf_new0.
  destruct (rd_buf_init (segcnt + 1) _) as [b |] eqn:Eb; cycle 1.
  { exfalso. revert Eb. unfold rd_buf_init. ztest. discriminate. }
  assert (kbs K P (mk_rkbuf b None false) [] None false) as H0.
  { split; [| split; [reflexivity | split; [reflexivity |]]]; cycle 1.
    { revert Eb. unfold rd_buf_init, writable_at. destruct (segcnt + 1 =? 0); [destruct (rd_assert _) |];
        try discriminate; intros [= <-]; constructor. }
    split; [eapply buf_state_init; eassumption |].
    revert Eb. unfold rd_buf_init. destruct (segcnt + 1 =? 0); [destruct (rd_assert _) |];
      try discriminate; intros [= <-]; cbn; unfold kb_base in HK; lia. }
  unfold rd_kafka_buf_write_i32, rd_kafka_buf_write_i16.
  destruct (write_kbs _ _ _ _ (be_enc 4 0) H0) as (r1 & -> & K1); [len_lia |].
  destruct (write_kbs _ _ _ _ (be_enc 2 ApiKey) K1) as (r2 & -> & K2); [len_lia |].
  destruct (write_kbs _ _ _ _ (be_enc 2 0) K2) as (r3 & -> & K3); [len_lia |].
  destruct (write_kbs _ _ _ _ (be_enc 4 0) K3) as (r4 & -> & K4); [len_lia |].
  destruct (write_kstr_kbs _ _ _ client_id K4) as (r5 & -> & K5); [len_lia |].
  exists r5. split; [reflexivity |]. rewrite <- !app_assoc in K5. exact K5.
Qed.

(** The header of a message set v2: its fields before the CRC, and after. *)
Definition v2_front (len crc : Z) : bytes :=
  be_enc 8 0 ++ be_enc 4 len ++ be_enc 4 0 ++ be_enc 1 2 ++ be_enc 4 crc.

Definition produce_header (conf : produce_conf) (rktp : produce_toppar) (ver : msgset_version) : bytes :=
  (if msetw_ApiVersion ver >=? 3 then kstr_bytes (transactional_id conf) else [])
  ++ be_enc 2 (required_acks conf) ++ be_enc 4 (request_timeout_ms conf) ++ be_enc 4 1
  ++ kstr_bytes (Some (ptp_topic rktp)) ++ be_enc 4 1 ++ be_enc 4 (ptp_partition rktp).

(** Strings of the protocol, as the configuration has them. *)
Record conf_ok (conf : produce_conf) (rktp : produce_toppar) : Prop := {
  co_client : opt_len (client_id conf) < 2 ^ 15;
  co_txn : opt_len (transactional_id conf) < 2 ^ 15;
  co_topic : zlen (ptp_topic rktp) < 2 ^ 15;
  co_max : 0 <= max_msg_size conf <= 10 ^ 9;
  co_batch : 0 < batch_size conf < 2 ^ 31;
  co_num : 0 < batch_num_messages conf < 2 ^ 30;
  co_copy : 0 <= msg_copy_max_size conf < 2 ^ 31 }.

Lemma write_v2_header_kbs ver pid r c :
  kbs K P r c None false -> zlen c < 2 ^ 50 -> 3 <= msetw_ApiVersion ver -> msetw_MsgVersion ver = 2 ->
  exists r', rd_kafka_msgset_writer_write_MessageSet_v2_header junk ver pid r =
      Some (r', zlen c, zlen c + 17) /\
    kbs K P r' (c ++ v2_front 0 0 ++ batch_tail 0 0 0 0 (pid_id pid) (pid_epoch pid) (-1) 0 []) None false.
Proof.
  intros H Hc Ha Hm. unfold rd_kafka_msgset_writer_write_MessageSet_v2_header, rd_assert. rewrite Hm.
  ztest. unfold rd_kafka_buf_write_i64, rd_kafka_buf_write_i32, rd_kafka_buf_write_i16, rd_kafka_buf_write_i8.
  destruct (write_kbs _ _ _ _ (be_enc 8 0) H) as (r1 & -> & K1); [len_lia |].
  destruct (write_kbs _ _ _ _ (be_enc 4 0) K1) as (r2 & -> & K2); [len_lia |].
  destruct (write_kbs _ _ _ _ (be_enc 4 0) K2) as (r3 & -> & K3); [len_lia |].
  destruct (write_kbs _ _ _ _ (be_enc 1 2) K3) as (r4 & -> & K4); [len_lia |].
  destruct (write_kbs _ _ _ _ (be_enc 4 0) K4) as (r5 & -> & K5); [len_lia |].
  destruct (write_kbs _ _ _ _ (be_enc 2 0) K5) as (r6 & -> & K6); [len_lia |].
  destruct (write_kbs _ _ _ _ (be_enc 4 0) K6) as (r7 & -> & K7); [len_lia |].
  destruct (write_kbs _ _ _ _ (be_enc 8 0) K7) as (r8 & -> & K8); [len_lia |].
  destruct (write_kbs _ _ _ _ (be_enc 8 0) K8) as (r9 & -> & K9); [len_lia |].
  destruct (write_kbs _ _ _ _ (be_enc 8 (pid_id pid)) K9) as (r10 & -> & K10); [len_lia |].
  destruct (write_kbs _ _ _ _ (be_enc 2 (pid_epoch pid)) K10) as (r11 & -> & K11); [len_lia |].
  destruct (write_kbs _ _ _ _ (be_enc 4 (-1)) K11) as (r12 & -> & K12); [len_lia |].
  destruct (write_kbs _ _ _ _ (be_enc 4 0) K12) as (r13 & -> & K13); [len_lia |].
  exists r13. split; [f_equal; f_equal; f_equal; len_lia |].
  unfold v2_front, batch_tail. rewrite app_nil_r, <- !app_assoc. rewrite <- !app_assoc in K13. exact K13.
Qed.

Definition v2_header0 (ver : msgset_version) (pid : rd_kafka_pid) : bytes :=
  if msetw_MsgVersion ver =? 2
  then v2_front 0 0 ++ batch_tail 0 0 0 0 (pid_id pid) (pid_epoch pid) (-1) 0 [] else [].

Lemma write_Produce_header_kbs conf rktp ver pid r c :
  kbs K P r c None false -> conf_ok conf rktp -> zlen c < 2 ^ 40 ->
  (msetw_MsgVersion ver = 2 -> 3 <= msetw_ApiVersion ver) ->
  let c1 := c ++ produce_header conf rktp ver in
  exists r', rd_kafka_msgset_writer_write_Produce_header junk conf rktp ver pid r =
      Some (r', zlen c1, if msetw_MsgVersion ver =? 2 then zlen c1 + 4 else 0,
            if msetw_MsgVersion ver =? 2 then zlen c1 + 21 else 0) /\
    kbs K P r' (c1 ++ be_enc 4 0 ++ v2_header0 ver pid) None false.
Proof.
  intros H Hco Hc Hv. unfold rd_kafka_msgset_writer_write_Produce_header.
  pose proof (co_txn _ _ Hco). pose proof (co_topic _ _ Hco).
  pose proof (opt_len_nonneg (transactional_id conf)).
  set (tb := if msetw_ApiVersion ver >=? 3 then kstr_bytes (transactional_id conf) else []).
  assert (zlen tb <= 2 + opt_len (transactional_id conf)) as Ltb
    by (unfold tb; destruct (_ >=? _); len_lia).
  assert (exists r' p, (if msetw_ApiVersion ver >=? 3
      then rd_kafka_buf_write_kstr junk r (transactional_id conf) else Some (r, 0)) = Some (r', p) /\
      kbs K P r' (c ++ tb) None false) as (r1 & p1 & -> & K1).
  { unfold tb. destruct (_ >=? _).
    - destruct (write_kstr_kbs _ _ _ (transactional_id conf) H) as (r1 & E & K1); [len_lia | eauto].
    - exists r, 0. now rewrite app_nil_r. }
  unfold rd_kafka_buf_write_i32, rd_kafka_buf_write_i16.
  destruct (write_kbs _ _ _ _ (be_enc 2 (required_acks conf)) K1) as (r2 & -> & K2); [len_lia |].
  destruct (write_kbs _ _ _ _ (be_enc 4 (request_timeout_ms conf)) K2) as (r3 & -> & K3); [len_lia |].
  destruct (write_kbs _ _ _ _ (be_enc 4 1) K3) as (r4 & -> & K4); [len_lia |].
  destruct (write_kstr_kbs _ _ _ (Some (ptp_topic rktp)) K4) as (r5 & -> & K5); [cbn [opt_len]; len_lia |].
  destruct (write_kbs _ _ _ _ (be_enc 4 1) K5) as (r6 & -> & K6); [cbn [opt_len]; len_lia |].
  destruct (write_kbs _ _ _ _ (be_enc 4 (ptp_partition rktp)) K6) as (r7 & -> & K7); [cbn [opt_len]; len_lia |].
  set (c1 := c ++ produce_header conf rktp ver).
  match type of K7 with kbs _ _ _ ?x _ _ => replace x with c1 in K7
    by (unfold c1, produce_header; fold tb; now rewrite <- !app_assoc) end.
  assert (zlen c1 < 2 ^ 41) as L1
    by (unfold c1, produce_header; fold tb; repeat rewrite zlen_app; rewrite !zlen_kstr; cbn [opt_len]; len_lia).
  change (crc_upd None _) with (@None bytes) in K7.
  destruct (write_kbs _ _ _ _ (be_enc 4 0) K7) as (r8 & -> & K8); [len_lia |].
  cbv zeta. unfold v2_header0. destruct (Z.eqb_spec (msetw_MsgVersion ver) 2) as [E2 | E2].
  - destruct (write_v2_header_kbs ver pid _ _ K8) as (r9 & -> & K9); [len_lia | auto | assumption |].
    exists r9. split; [f_equal; f_equal; [f_equal |]; len_lia |].
    now rewrite app_assoc.
  - exists r8. rewrite app_nil_r. now split.
Qed.


(** ** The messages of the queue *)

(** Consecutive messages, from [off] on. *)
Fixpoint msgs_bytes (ver ts off : Z) (l : list rd_kafka_msg) : bytes :=
  match l with
  | [] => []
  | m :: l => msg_bytes ver ts off 0 m ++ msgs_bytes ver ts (off + 1) l
  end.

Lemma msgs_bytes_snoc ver ts l m : forall off,
  msgs_bytes ver ts off (l ++ [m]) =
  msgs_bytes ver ts off l ++ msg_bytes ver ts (off + zlen l) 0 m.
Proof.
  induction l as [| x l IH]; intros off; cbn [app msgs_bytes].
  - rewrite app_nil_r. do 2 f_equal. cbn. lia.
  - rewrite IH, <- app_assoc. do 3 f_equal. cbn [length]. lia.
Qed.

Lemma msgs_bytes_v2 ts l : forall off, msgs_bytes 2 ts off l = records_bytes ts off l.
Proof. induction l as [| m l IH]; intros off; [reflexivity |]. cbn. now rewrite IH. Qed.

Definition max_timestamp (l : list rd_kafka_msg) : Z :=
  foldl (fun a m => Z.max a (rkm_timestamp m)) 0 l.

(** [rd_kafka_msg_new0] lets no other message through. *)
Definition msg_fits (conf : produce_conf) (m : rd_kafka_msg) : Prop :=
  msg_ok m /\ 36 + rkm_len m + rkm_key_len m + msg_hdr_size m <= max_msg_size conf.

(** The messages [taken] behind a header of [hlen] bytes are none behind the batch that is
    being rebuilt, and each but the first had room behind those before. *)
Definition batch_within (conf : produce_conf) (ver hlen ts : Z) (b : rd_kafka_msgbatch)
  (taken : list rd_kafka_msg) : Prop :=
  (rkmb_last_msgid b <> 0 -> Forall (fun m => rkm_msgid m <= rkmb_last_msgid b) taken) /\
  forall a m c, taken = a ++ m :: c -> a <> [] ->
    hlen + zlen (msgs_bytes ver ts 0 a) + rd_kafka_msg_wire_size m ver
      <= Z.min (max_msg_size conf) (batch_size conf).

Section Loop.
Context (conf : produce_conf) (rktp : produce_toppar) (Hconf : conf_ok conf rktp).
Context (msetw : rd_kafka_msgset_writer) (ts now : Z) (c0 : bytes).
Let ver := msetw_MsgVersion (msetw_ver msetw).
Context (Hver : ver = 0 \/ ver = 1 \/ ver = 2) (Hc0 : zlen c0 < 2 ^ 50)
  (HP : P = zlen c0)
  (Hmax : 0 < msetw_msgcntmax msetw < 2 ^ 30).

(** The state after the messages [taken] were written for the batch [b]. *)
Record wl_inv (b : rd_kafka_msgbatch) (taken : list rd_kafka_msg) (st : msgq_writing) : Prop := {
  wi_buf : kbs K P (wl_rkbuf st) (c0 ++ msgs_bytes ver ts 0 taken) None false;
  wi_len : wl_len st = zlen (c0 ++ msgs_bytes ver ts 0 taken);
  wi_cnt : wl_msgcnt st = zlen taken;
  wi_cnt_max : zlen taken <= msetw_msgcntmax msetw;
  wi_batch : exists q, wl_batch st = batch_set_msgq b q /\ rkmq_msgs q = taken /\ counted q;
  wi_kvlen : wl_kvlen st = u64 (sum_bytes taken);
  wi_ts : wl_MaxTimestamp st = max_timestamp taken;
  wi_size : zlen (msgs_bytes ver ts 0 taken) <= max_msg_size conf;
  wi_nonempty : taken <> [] -> 0 < zlen (msgs_bytes ver ts 0 taken);
  wi_within : batch_within conf ver (zlen c0) ts b taken }.

Lemma write_next_spec b taken st m rest rkmq :
  wl_inv b taken st -> rkmq_msgs rkmq = m :: rest -> counted rkmq -> small rkmq ->
  msg_fits conf m -> msetw_stops conf msetw now st m = false ->
  exists rkmq' st', msetw_write_next junk conf msetw ts rkmq st = Some (rkmq', st') /\
    rkmq_msgs rkmq' = rest /\ counted rkmq' /\ small rkmq' /\ wl_inv b (taken ++ [m]) st'.
Proof.
  intros [Hbuf Hlen Hcnt Hcm (q & Hq & Hqm & Hqc) Hkv Hts Hsz Hne (W1 & W3)] Eq Hcq Hsq [Hm Hfit] Hstop.
  unfold msetw_stops in Hstop. fold ver in Hstop. zbool.
  pose proof (co_max _ _ Hconf). pose proof (co_batch _ _ Hconf).
  assert (in_i 31 (zlen taken)) as Ho by (unfold in_i; lia).
  destruct (msg_bytes_len ver ts (zlen taken) 0 m Hm Ho Hver) as [Lm Lw].
  destruct (deq_spec rkmq [] m rest Hcq Hsq Eq) as (q1 & E1 & Eq1 & Hc1 & Hs1 & _).
  unfold msetw_write_next. cbn [length] in E1. rewrite E1.
  destruct (write_msg_kbs conf ver ts _ _ _ m (wl_msgcnt st) 0 None Hbuf Hm) as (r' & E2 & K2);
    [now rewrite Hcnt | len_lia | len_lia | assumption |].
  fold ver. rewrite E2. do 2 eexists. split; [reflexivity |].
  split; [assumption |]. split; [assumption |]. split; [assumption |].
  assert (msgs_bytes ver ts 0 (taken ++ [m]) =
    msgs_bytes ver ts 0 taken ++ msg_bytes ver ts (wl_msgcnt st) 0 m) as Es
    by (rewrite msgs_bytes_snoc; f_equal; f_equal; lia).
  rewrite <- Hcnt in Lm.
  constructor; cbn [wl_rkbuf wl_len wl_msgcnt wl_batch wl_kvlen wl_MaxTimestamp].
  - rewrite Es, app_assoc. exact K2.
  - rewrite Es, Hlen. rewrite wrap_small; len_lia.
  - rewrite Hcnt, swrap_small by (unfold in_i; lia). len_lia.
  - len_lia.
  - rewrite Hq. destruct (enq_spec q m Hqc) as [He Hce].
    exists (fst (rd_kafka_msgq_enq q m)). split; [reflexivity |]. rewrite He, Hqm. now split.
  - rewrite Hkv, sum_bytes_app. change (sum_bytes [m]) with (msg_size m + 0).
    rewrite Z.add_0_r. unfold msg_size, wrap.
    rewrite Zplus_mod_idemp_r, <- Z.add_assoc, Zplus_mod_idemp_l. reflexivity.
  - unfold max_timestamp. rewrite foldl_app, Hts. cbn [foldl]. fold (max_timestamp taken).
    destruct (Z.ltb_spec (max_timestamp taken) (rkm_timestamp m)); lia.
  - rewrite Es. destruct (decide (taken = [])) as [-> | Hn].
    + cbn [msgs_bytes app]. lia.
    + assert (0 < wl_msgcnt st) by (rewrite Hcnt; destruct taken; [congruence | cbn; lia]).
      match goal with H : (_ && _) = false |- _ =>
        rewrite Z.gtb_ltb in H; replace (0 <? wl_msgcnt st) with true in H by (symmetry; lia);
        cbn [andb] in H end.
      zbool. rewrite RD_MIN_min, Hlen, wrap_small in * by len_lia. len_lia.
  - intros _. rewrite Es. len_lia.
  - assert (rkmb_last_msgid (wl_batch st) = rkmb_last_msgid b) as El by now rewrite Hq. rewrite El in *.
    split.
    + intros Hl. apply Forall_app. split; [auto |]. repeat constructor.
      match goal with H : (_ && (_ <? rkm_msgid m)) = false |- _ => apply andb_false_iff in H as [H | H] end;
        zbool; congruence || lia.
    + intros a m' c E Ha. destruct c as [| y c] using rev_ind.
      * apply app_inj_tail in E as [<- <-].
        assert (0 < wl_msgcnt st) by (rewrite Hcnt; destruct taken; [congruence | cbn; lia]).
        match goal with H : (_ && (_ >? RD_MIN _ _)) = false |- _ =>
          rewrite Z.gtb_ltb in H; replace (0 <? wl_msgcnt st) with true in H by (symmetry; lia);
          cbn [andb] in H end.
        zbool. rewrite RD_MIN_min, Hlen, wrap_small in * by len_lia. len_lia.
      * clear IHc. rewrite app_comm_cons, app_assoc in E. apply app_inj_tail in E as [E _]. eapply W3; eassumption.
Qed.

Lemma write_msgq_loop_spec b n : forall rest rkmq st taken,
  rkmq_msgs rkmq = rest -> length rest = n -> rest <> [] -> counted rkmq -> small rkmq ->
  Forall (msg_fits conf) rest -> wl_inv b taken st ->
  exists rkmq' st' more rest', rest = more ++ rest' /\
    write_msgq_loop junk n conf msetw ts now rkmq st = Some (rkmq', st') /\
    rkmq_msgs rkmq' = rest' /\ counted rkmq' /\ small rkmq' /\ wl_inv b (taken ++ more) st' /\
    (more = [] -> exists m, head rest = Some m /\ msetw_stops conf msetw now st m = true) /\
    forall m, head rest' = Some m -> msetw_stops conf msetw now st' m = true.
Proof.
  induction n as [| n IH]; intros rest rkmq st taken Eq Hn Hne Hc Hs Hall Hinv;
    destruct rest as [| m rest]; try discriminate; [congruence |].
  apply Forall_cons_iff in Hall as [Hm Hall]. injection Hn as Hn. cbn [write_msgq_loop].
  unfold rd_kafka_msgq_first at 1. rewrite Eq. cbn [head].
  destruct (msetw_stops conf msetw now st m) eqn:Estop.
  { exists rkmq, st, [], (m :: rest). rewrite app_nil_r. split; [reflexivity |].
    do 5 (split; [first [assumption | reflexivity] |]). split; [intros _; now exists m |].
    intros ? [= <-]. assumption. }
  destruct (write_next_spec b taken st m rest rkmq Hinv Eq Hc Hs Hm Estop)
    as (q1 & st1 & -> & Eq1 & Hc1 & Hs1 & Hinv1).
  unfold rd_kafka_msgq_first at 1. rewrite Eq1.
  destruct rest as [| m2 rest]; cbn [head].
  { exists q1, st1, [m], []. split; [reflexivity |]. split; [reflexivity |].
    split; [assumption |]. split; [assumption |]. split; [assumption |]. split; [assumption |].
    split; [discriminate | intros ? [=]]. }
  destruct (IH (m2 :: rest) q1 st1 (taken ++ [m]) Eq1 Hn ltac:(discriminate) Hc1 Hs1 Hall Hinv1)
    as (q2 & st2 & more & rest' & E & E2 & Eq2 & Hc2 & Hs2 & Hinv2 & _ & Hlast).
  exists q2, st2, (m :: more), rest'. rewrite E. split; [reflexivity |].
  split; [exact E2 |]. rewrite <- app_assoc in Hinv2.
  do 4 (split; [assumption |]). split; [discriminate | assumption].
Qed.

End Loop.

End Append.

(** ** Filling in the header *)

(** A buffer without a CRC in progress. *)
Definition kbn (K : Z) (r : rd_kafka_buf) (c : bytes) : Prop := kb K r c /\ rkbuf_crc r = None.

Lemma kbs_kbn K P r c fx : kbs K P r c None fx -> kbn K r c.
Proof. intros (H & Hc & _). now split. Qed.

Lemma kbn_mono K K' r c : K <= K' -> kbn K r c -> kbn K' r c.
Proof. intros H ((Hs & Hl) & Hc). split; [split; [assumption | lia] | assumption]. Qed.

Section Fields.
Context (K : Z) (pre : bytes).

(** The data after [pre] as a list of fields: one of them is replaced. *)
Lemma update_field r fs i b b' p :
  kbn K r (pre ++ concat fs) -> fs !! i = Some b -> zlen b' = zlen b -> 0 < zlen b ->
  p = zlen pre + zlen (concat (take i fs)) ->
  exists r', rd_kafka_buf_update r p b' = Some r' /\ kbn K r' (pre ++ concat (<[i := b']> fs)).
Proof.
  intros [Hk Hc] Hi Hl Hp ->.
  assert (pre ++ concat fs = (pre ++ concat (take i fs)) ++ b ++ concat (drop (S i) fs)) as E.
  { rewrite <- app_assoc. f_equal. rewrite <- (take_drop_middle fs i b Hi) at 1.
    now rewrite concat_app. }
  assert (pre ++ concat (<[i := b']> fs) = (pre ++ concat (take i fs)) ++ b' ++ concat (drop (S i) fs)) as E'.
  { rewrite <- app_assoc. f_equal. rewrite insert_take_drop by (eapply lookup_lt_Some; eassumption).
    now rewrite concat_app. }
  rewrite E in Hk. rewrite <- zlen_app.
  destruct (update_kb K r _ (zlen (pre ++ concat (take i fs))) b' Hk Hc) as (r' & Eu & Hk' & Hc' & _);
    [len_lia | len_lia |].
  exists r'. split; [exact Eu |]. rewrite overwrite_mid in Hk' by assumption. rewrite E'. now split.
Qed.
End Fields.

(** The records behind the fields of the header, with the CRC in place. *)
Lemma calc_crc_spec addr K msetw r pre d tail :
  kbn K r (pre ++ d ++ tail) -> zlen d = 4 -> msetw_of_CRC msetw = zlen pre -> 0 < zlen tail ->
  zlen (pre ++ d ++ tail) < 2 ^ 57 -> Forall is_byte tail ->
  exists r', rd_kafka_msgset_writer_calc_crc_v2 addr msetw r = Some r' /\
    kbn K r' (pre ++ be_enc 4 (crc_reference POLY 0 tail) ++ tail).
Proof.
  intros [Hk Hc] Hd Hof Hp Hmax Hb. pose proof Hk as [Hs _].
  pose proof (buf_state_len _ _ Hs) as Hl. pose proof Hs as (Hwf & _ & _ & Hcont).
  unfold rd_kafka_msgset_writer_calc_crc_v2. rewrite Hof, (write_pos_len _ Hwf), Hl.
  replace (u64 (zlen (pre ++ d ++ tail) - zlen pre - 4)) with (zlen tail) by (rewrite wrap_small; len_lia).
  destruct (proj1 (slice_init_state (rkbuf_buf r) (zlen pre + 4) (zlen tail) Hwf ltac:(len_lia)
    ltac:(lia) ltac:(len_lia)) ltac:(len_lia) ltac:(len_lia)) as (s & -> & Hss).
  assert (sub (rd_buf_content (rkbuf_buf r)) (zlen pre + 4) (zlen tail) = tail) as Esub.
  { rewrite Hcont. unfold sub. rewrite app_assoc, zdrop_app, zdrop_all, zlen_app by len_lia.
    cbn [app]. rewrite zdrop_nonpos, ztake_all by lia. reflexivity. }
  destruct (slice_crc32c_window addr _ _ _ _ Hss ltac:(now rewrite Esub)) as (s1 & -> & _).
  rewrite Esub. unfold rd_kafka_buf_update_i32. rewrite be_enc_i32.
  destruct (update_kb K r _ (zlen pre) (be_enc 4 (crc_reference POLY 0 tail)) Hk Hc)
    as (r' & E & Hk' & Hc' & _); [len_lia | len_lia |].
  exists r'. split; [exact E |]. rewrite overwrite_mid in Hk' by len_lia. now split.
Qed.

Lemma batch_tail_is_byte a b c d e f g h l :
  Forall is_byte l -> Forall is_byte (batch_tail a b c d e f g h l).
Proof.
  intros H. unfold batch_tail. repeat (apply Forall_app; split); auto using be_enc_is_byte.
Qed.

Definition batch_attributes (conf : produce_conf) (attributes : Z) : Z :=
  match transactional_id conf with Some _ => Z.lor attributes 16 | None => attributes end.

(** The whole message set: its size and its bytes. *)
Definition messageset_bytes (conf : produce_conf) (ver : msgset_version) (pid : rd_kafka_pid)
  (first_seq ts maxts attributes cnt : Z) (data : bytes) : bytes :=
  if msetw_MsgVersion ver =? 2
  then batch_bytes 0 0 (batch_tail (batch_attributes conf attributes) (cnt - 1) ts maxts
         (pid_id pid) (pid_epoch pid) first_seq cnt data)
  else data.

Lemma messageset_len conf ver pid fs ts mts a cnt data :
  zlen (messageset_bytes conf ver pid fs ts mts a cnt data) =
  (if msetw_MsgVersion ver =? 2 then 61 else 0) + zlen data.
Proof.
  unfold messageset_bytes, batch_bytes, batch_tail. destruct (_ =? 2); [| reflexivity]. len_lia.
Qed.

(** The field [i] of the buffer of [H] is the one updated next. *)
Ltac upd_field H i :=
  match goal with
  | |- context [rd_kafka_buf_update ?r ?p ?b] =>
      let r' := fresh "r" in let H' := fresh H in
      destruct (update_field _ _ r _ i _ b p H eq_refl) as (r' & -> & H');
        [reflexivity | reflexivity
        | cbn [take concat]; len_lia
        | cbn [insert list_insert] in H'; clear H; rename H' into H]
  end.

Lemma finalize_MessageSet_spec addr K conf msetw batch ts maxts attributes r pre data :
  let ver := msetw_ver msetw in
  let cnt := rd_kafka_msgq_len (rkmb_msgq batch) in
  kbn K r (pre ++ be_enc 4 0 ++ v2_header0 ver (msetw_pid msetw) ++ data) ->
  (msetw_MsgVersion ver = 2 -> 3 <= msetw_ApiVersion ver) -> 0 < cnt ->
  msetw_of_MessageSetSize msetw = zlen pre ->
  (msetw_MsgVersion ver = 2 -> msetw_of_start msetw = zlen pre + 4 /\ msetw_of_CRC msetw = zlen pre + 21) ->
  zlen pre + zlen data < 2 ^ 50 -> Forall is_byte data ->
  let set_ := messageset_bytes conf ver (msetw_pid msetw) (rkmb_first_seq batch) ts maxts attributes
                cnt data in
  exists r', rd_kafka_msgset_writer_finalize_MessageSet addr conf msetw batch ts maxts
      attributes (zlen data) r = Some (r', zlen set_) /\
    kbn K r' (pre ++ be_enc 4 (zlen set_) ++ set_).
Proof.
  intros ver cnt Hk Hv Hcnt Ho1 Ho2 Hmax Hb. cbv zeta.
  set (bs := messageset_bytes _ _ _ _ _ _ _ _ _).
  assert (zlen bs = (if msetw_MsgVersion ver =? 2 then 61 else 0) + zlen data) as Ls
    by apply messageset_len.
  unfold rd_kafka_msgset_writer_finalize_MessageSet. fold ver.
  unfold v2_header0 in Hk.
  assert (bs = if msetw_MsgVersion ver =? 2
    then batch_bytes 0 0 (batch_tail (batch_attributes conf attributes) (cnt - 1) ts maxts
      (pid_id (msetw_pid msetw)) (pid_epoch (msetw_pid msetw)) (rkmb_first_seq batch) cnt data)
    else data) as Ebs by reflexivity.
  clearbody bs. destruct (Z.eqb_spec (msetw_MsgVersion ver) 2) as [E2 | E2]; cycle 1.
  { rewrite Ebs. change RD_KAFKAP_MSGSET_V0_SIZE with 0. rewrite wrap_small by lia.
    unfold rd_kafka_buf_update_i32. rewrite be_enc_i32, Z.add_0_l.
    destruct (update_field K pre r [be_enc 4 0; data] 0%nat (be_enc 4 0) (be_enc 4 (zlen data))
      (msetw_of_MessageSetSize msetw)) as (r' & -> & Hk'); try reflexivity.
    - cbn [concat]. rewrite app_nil_r. exact Hk.
    - cbn. lia.
    - exists r'. split; [reflexivity |]. cbn [insert list_insert concat] in Hk'.
      rewrite app_nil_r in Hk'. exact Hk'. }
  destruct (Ho2 E2) as [Hos Hoc]. pose proof (Hv E2) as Hver.
  pose (fs := [be_enc 4 0; be_enc 8 0; be_enc 4 0; be_enc 4 0; be_enc 1 2; be_enc 4 0; be_enc 2 0;
    be_enc 4 0; be_enc 8 0; be_enc 8 0; be_enc 8 (pid_id (msetw_pid msetw));
    be_enc 2 (pid_epoch (msetw_pid msetw)); be_enc 4 (-1); be_enc 4 0; data]).
  assert (kbn K r (pre ++ concat fs)) as H0.
  { unfold fs. cbn [concat]. rewrite app_nil_r. unfold v2_front, batch_tail in Hk.
    rewrite <- !app_assoc in Hk. cbn [app] in Hk. exact Hk. }
  unfold rd_kafka_msgset_writer_finalize_MessageSet_v2_header. cbv zeta. fold ver cnt.
  unfold rd_assert. rewrite Z.gtb_ltb, Z.geb_leb. ztest.
  change RD_KAFKAP_MSGSET_V2_SIZE with 61. rewrite (wrap_small 64) by lia.
  unfold rd_kafka_buf_update_i32, rd_kafka_buf_update_i16, rd_kafka_buf_update_i64.
  unfold fs in H0. rewrite Hos.
  unfold RD_KAFKAP_MSGSET_V2_OF_Length, RD_KAFKAP_MSGSET_V2_OF_Attributes,
    RD_KAFKAP_MSGSET_V2_OF_LastOffsetDelta, RD_KAFKAP_MSGSET_V2_OF_BaseTimestamp,
    RD_KAFKAP_MSGSET_V2_OF_MaxTimestamp, RD_KAFKAP_MSGSET_V2_OF_BaseSequence,
    RD_KAFKAP_MSGSET_V2_OF_RecordCount.
  upd_field H0 2%nat. upd_field H0 6%nat. upd_field H0 7%nat. upd_field H0 8%nat.
  upd_field H0 9%nat. upd_field H0 12%nat. upd_field H0 13%nat.
  replace (be_enc 4 (i32 (61 + zlen data) - (8 + 4))) with (be_enc 4 (49 + zlen data)) in H0.
  2: { rewrite <- (be_enc_i32 (i32 _ - _)), swrap_sub_l, be_enc_i32 by lia. f_equal. lia. }
  change RD_KAFKA_MSG_ATTR_CREATE_TIME with 0 in H0. rewrite Z.lor_0_r in H0.
  change RD_KAFKA_MSGSET_V2_ATTR_TRANSACTIONAL with 16 in H0.
  fold (batch_attributes conf attributes) in H0.
  set (tail := batch_tail (batch_attributes conf attributes) (cnt - 1) ts maxts
    (pid_id (msetw_pid msetw)) (pid_epoch (msetw_pid msetw)) (rkmb_first_seq batch) cnt data) in *.
  set (pre1 := pre ++ be_enc 4 0 ++ be_enc 8 0 ++ be_enc 4 (49 + zlen data) ++ be_enc 4 0 ++ be_enc 1 2).
  assert (zlen tail = 40 + zlen data) as Lt by (unfold tail, batch_tail; len_lia).
  assert (zlen pre1 = zlen pre + 21) as Lp by (unfold pre1; len_lia).
  assert (kbn K r6 (pre1 ++ be_enc 4 0 ++ tail)) as H1.
  { cbn [concat] in H0. rewrite app_nil_r in H0. unfold pre1, tail, batch_tail.
    rewrite <- !app_assoc. exact H0. }
  destruct (calc_crc_spec addr K msetw r6 pre1 (be_enc 4 0) tail H1) as (r7 & -> & H2);
    [len_lia | lia | lia | rewrite !zlen_app; len_lia | now apply batch_tail_is_byte |].
  rewrite be_enc_i32.
  destruct (update_field K pre r7 [be_enc 4 0; bs] 0%nat (be_enc 4 0) (be_enc 4 (61 + zlen data))
    (msetw_of_MessageSetSize msetw)) as (r8 & -> & H3); try reflexivity.
  - cbn [concat]. rewrite app_nil_r, Ebs. unfold batch_bytes. rewrite Lt.
    replace (40 + zlen data + 9) with (49 + zlen data) by lia.
    unfold pre1 in H2. rewrite <- !app_assoc in H2. exact H2.
  - cbn. lia.
  - exists r8. rewrite Ls. split; [reflexivity |].
    cbn [insert list_insert concat] in H3. rewrite app_nil_r in H3. exact H3.
Qed.
