(* ===== verification/MsgWriterProps.v ===== *)
(** * Creating a Produce request

    [rd_kafka_msgset_create_ProduceRequest] as a whole: which messages it takes, what it
    puts on the wire for them, and that no assertion of it fails. *)

From S2P Require Import Prelude Varint RdBuf RdBufFacts Slice SliceFacts RdBufProps Crc.
From S2P Require Import Header Msgq MsgqFacts Producer KafkaBuf KafkaBufFacts RecordBatch MsgWriter MsgWriterFacts.

(** ** Compression *)

Section Codec.
Context (junk : Z -> Z) (codec : Z -> Z -> bytes -> option bytes).

(** What a message set of [data] becomes, if compression makes it smaller. *)
Definition compressed (ver compression ts : Z) (data : bytes) : option bytes :=
  match codec compression ver data with
  | Some z => if zlen z >? zlen data then None
              else Some (if ver =? 2 then z else msg_bytes ver ts 0 compression (wrapper_msg z ts))
  | None => None
  end.

Lemma slice_data_spec rb absof size s :
  slice_state rb absof size s 0 -> slice_data rb s = Some (sub (rd_buf_content rb) absof size).
Proof.
  intros Hs. unfold slice_data.
  destruct (slice_window rb absof size s Hs bytes (fun acc p => acc ++ p) []) as (s' & chunks & -> & <- & _).
  f_equal. rewrite <- (app_nil_l (concat chunks)). generalize (@nil Z) as acc.
  induction chunks as [| x chunks IH]; intros acc; cbn [fold_left concat].
  - now rewrite app_nil_r.
  - now rewrite IH, app_assoc.
Qed.

(** Seeking back to where the messages start. *)
Lemma seek_kbs K r a d :
  kbs K (zlen a) r (a ++ d) None false -> 0 < zlen d -> zlen (a ++ d) < 2 ^ 50 -> kb_base K ->
  exists b, rd_buf_write_seek (rkbuf_buf r) (zlen a) = Some (b, 0) /\
    kbs (4 * zlen (a ++ d) + K) (-1) (mk_rkbuf b (rkbuf_crc r) (rkbuf_flexver r)) a None false.
Proof.
  intros ((Hs & Hsz) & Hc & Hf & Hw) Hd Hm HK. pose proof (buf_state_len _ _ Hs) as Hl.
  destruct Hs as (Hb & Hwp & He & Hcont).
  destruct (rd_buf_write_seek_spec (rkbuf_buf r) (zlen a) Hb) as (b & E & H1 & H2 & H3 & H4 & H5);
    [rewrite Hl, zlen_app; lia |].
  exists b. split; [exact E |]. pose proof (rd_buf_write_seek_size _ _ _ _ Hb E) as Hsz2.
  specialize (H5 He Hw). split; [| split; [assumption | split; [assumption |]]].
  - split; cbn [rkbuf_buf]; [| lia]. split; [assumption |]. split; [assumption |]. split; [congruence |].
    rewrite H1, Hcont, ztake_app, ztake_all, Z.sub_diag, ztake_nonpos, app_nil_r by lia.
    reflexivity.
  - now apply wf_writable_m1.
Qed.

Lemma compress_spec K conf msetw ts r c0 data :
  let ver := msetw_MsgVersion (msetw_ver msetw) in
  let compression := msetw_compression (msetw_ver msetw) in
  kbs K (zlen c0) r (c0 ++ data) None false -> K = 256 -> zlen c0 < 2 ^ 40 ->
  0 < zlen data < 2 ^ 31 - 1 -> msetw_firstmsg_of msetw = zlen c0 ->
  ver = 0 \/ ver = 1 \/ ver = 2 -> 1 <= compression <= 3 ->
  match compressed ver compression ts data with
  | None => rd_kafka_msgset_writer_compress junk codec conf msetw ts r (zlen data) = Some None
  | Some d => exists r', rd_kafka_msgset_writer_compress junk codec conf msetw ts r (zlen data) =
      Some (Some (r', zlen d, compression)) /\ kbn (2 ^ 59) r' (c0 ++ d)
  end.
Proof.
  intros ver compression Hk -> Hc0 Hd Hof Hver Hcomp.
  pose proof Hk as ((Hs & _) & Hcrc & Hfx & _). pose proof (buf_state_len _ _ Hs) as Hl.
  destruct Hs as (Hb & _ & _ & Hcont).
  unfold rd_kafka_msgset_writer_compress, rd_assert. rewrite Hof. unfold rd_buf_len. rewrite Hl.
  replace (zlen (c0 ++ data) >=? u64 (zlen c0 + zlen data)) with true
    by (rewrite wrap_small by lia; rewrite Z.geb_leb; symmetry; apply Z.leb_le; len_lia).
  destruct (proj1 (slice_init_state (rkbuf_buf r) (zlen c0) (zlen data) Hb ltac:(len_lia)
    ltac:(lia) ltac:(lia)) ltac:(len_lia) ltac:(len_lia)) as (s & -> & Hss).
  fold compression ver.
  replace ((compression =? RD_KAFKA_COMPRESSION_GZIP) || (compression =? RD_KAFKA_COMPRESSION_SNAPPY)
           || (compression =? RD_KAFKA_COMPRESSION_LZ4)) with true.
  2: { assert (compression = 1 \/ compression = 2 \/ compression = 3) as [-> | [-> | ->]] by lia; reflexivity. }
  rewrite (slice_data_spec _ _ _ _ Hss), Hcont.
  replace (sub (c0 ++ data) (zlen c0) (zlen data)) with data.
  2: { unfold sub. rewrite zdrop_app, zdrop_all, Z.sub_diag by lia. cbn [app].
       now rewrite zdrop_nonpos, ztake_all by lia. }
  unfold compressed. destruct (codec compression ver data) as [z |]; [| reflexivity].
  destruct (zlen z >? zlen data) eqn:Ez; [reflexivity |]. zbool.
  assert (kb_base 256) as H256 by (unfold kb_base; lia).
  destruct (seek_kbs 256 r c0 data Hk ltac:(lia) ltac:(len_lia) H256) as (b & -> & Hk2).
  rewrite Z.lor_0_l. unfold INT32_MAX. ztest.
  set (K2 := 4 * zlen (c0 ++ data) + 256) in *.
  assert (kb_base K2) as HK2 by (unfold kb_base, K2; len_lia).
  destruct (Z.eqb_spec ver 2) as [E2 | E2].
  - destruct (push_kb junk K2 HK2 _ c0 z (Some RD_FREE) (proj1 Hk2) ltac:(lia)) as (r' & E & Hk3 & Hc3 & _).
    unfold rd_kafka_buf_push in E. cbn [rkbuf_buf] in E.
    destruct (rd_buf_push junk b z (zlen z) (Some RD_FREE)) as [b' |]; [| discriminate].
    injection E as <-. eexists. split; [reflexivity |].
    apply (kbn_mono K2); [unfold K2; len_lia |]. cbn in Hc3. split; cbn [rkbuf_crc].
    + destruct Hk3 as [A B]. now split.
    + rewrite Hcrc. reflexivity.
  - assert (msg_ok (wrapper_msg z ts)) as Hm.
    { constructor; cbn; try reflexivity; try lia. discriminate. }
    destruct (write_msg_kbs junk K2 (-1) HK2 conf ver ts _ c0 false (wrapper_msg z ts) 0 compression
      (Some RD_FREE) Hk2 Hm) as (r' & -> & Hk3); [unfold in_i; lia | lia | lia | assumption |].
    eexists. split; [reflexivity |].
    apply (kbn_mono K2); [unfold K2; len_lia |]. eapply kbs_kbn; eassumption.
Qed.

End Codec.

(** ** The versions chosen *)

Lemma ApiVersion_supported_range rkb key mn mx :
  mn <= mx -> let r := rd_kafka_broker_ApiVersion_supported rkb key mn mx in r = -1 \/ mn <= r <= mx.
Proof.
  intros H. unfold rd_kafka_broker_ApiVersion_supported.
  destruct (negb _); [lia |]. destruct (find _ _) as [[k [a b]] |]; [| now left].
  destruct (b <? mx) eqn:E1; [destruct (b <? mn) eqn:E2 | destruct (a >? mx)]; zbool; auto; lia.
Qed.

Record ver_ok (v : msgset_version) : Prop := {
  vo_msg : msetw_MsgVersion v = 0 \/ msetw_MsgVersion v = 1 \/ msetw_MsgVersion v = 2;
  vo_api : 0 <= msetw_ApiVersion v <= 7;
  vo_v2 : msetw_MsgVersion v = 2 -> 3 <= msetw_ApiVersion v;
  vo_compr : 0 <= msetw_compression v <= 3 }.

Lemma select_MsgVersion_ok rkb c v :
  0 <= c <= 3 -> rd_kafka_msgset_writer_select_MsgVersion rkb c = Some v -> ver_ok v.
Proof.
  intros Hc. unfold rd_kafka_msgset_writer_select_MsgVersion. cbv zeta.
  destruct (negb (Z.land (rkb_features rkb) RD_KAFKA_FEATURE_MSGVER2 =? 0));
  [| destruct (negb (Z.land (rkb_features rkb) RD_KAFKA_FEATURE_MSGVER1 =? 0));
  [| destruct (negb (Z.land (rkb_features rkb) RD_KAFKA_FEATURE_THROTTLETIME =? 0))]];
  (unfold compr_req; destruct (c =? RD_KAFKA_COMPRESSION_LZ4);
   match goal with |- context [if ?b then (RD_KAFKA_COMPRESSION_NONE, _, _) else _] => destruct b end;
   change (3 <? 0) with false; change (2 <? 0) with false; change (1 <? 0) with false;
   change (0 <? 0) with false; cbv iota beta;
   match goal with |- context [rd_kafka_broker_ApiVersion_supported ?r ?k ?a ?b] =>
     pose proof (ApiVersion_supported_range r k a b ltac:(vm_compute; congruence)) as Hr end;
   unfold rd_kafka_ProduceRequest_max_version in *; cbv zeta in Hr;
   match goal with |- context [?a =? -1] => destruct (Z.eqb_spec a (-1)) end;
   try discriminate; intros [= <-];
   constructor; cbn [msetw_MsgVersion msetw_ApiVersion msetw_compression];
   unfold RD_KAFKA_COMPRESSION_NONE; lia).
Qed.

(** ** Completing the request *)

Definition octets (m : rd_kafka_msg) : Prop :=
  Forall is_byte (default [] (rkm_payload m)) /\ Forall is_byte (default [] (rkm_key m)) /\
  Forall (fun h => Forall is_byte (rkhdr_name h) /\ Forall is_byte (default [] (rkhdr_value h)))
    (msg_headers m).

Ltac bytes_ := repeat (apply Forall_app; split); auto using be_enc_is_byte.

Lemma kv_is_byte o : opt_len o < 2 ^ 31 -> Forall is_byte (default [] o) -> Forall is_byte (kv_bytes o).
Proof.
  intros Hl Ho. unfold kv_bytes. destruct o as [b |]; cbn [opt_len default] in *; bytes_;
    apply zvarint_is_byte; unfold in_i; lia.
Qed.

Lemma headers_is_byte l :
  Forall header_ok l ->
  Forall (fun h => Forall is_byte (rkhdr_name h) /\ Forall is_byte (default [] (rkhdr_value h))) l ->
  Forall is_byte (headers_bytes l).
Proof.
  induction 1 as [| h l [Hn Hv] _ IH]; intros H; [constructor |].
  apply Forall_cons_iff in H as [[H1 H2] H]. change (headers_bytes (h :: l)) with (header_bytes h ++ headers_bytes l).
  unfold header_bytes. bytes_; [| now apply kv_is_byte].
  apply zvarint_is_byte. unfold in_i. lia.
Qed.

Lemma msg_bytes_is_byte ver ts off attr m :
  msg_ok m -> octets m -> in_i 31 off -> Forall is_byte (msg_bytes ver ts off attr m).
Proof.
  intros Hm (H1 & H2 & H3) Ho. destruct (msg_hdr_ok m Hm) as (Hh1 & Hh2 & Hh3).
  pose proof (mk_len _ Hm) as Hl. pose proof (mk_key_len _ Hm) as Hkl.
  pose proof (mk_len_max _ Hm). pose proof (mk_key_max _ Hm). pose proof (headers_count _ Hh1).
  unfold msg_bytes. destruct (ver =? 2).
  - pose proof (record_body_len ts off m Hm Ho) as Hbl.
    pose proof (opt_len_nonneg (rkm_payload m)). pose proof (opt_len_nonneg (rkm_key m)).
    unfold record_bytes. cbv zeta. apply Forall_app. split; [apply zvarint_is_byte; unfold in_i; lia |].
    unfold record_body. rewrite Hl in *. rewrite Hkl in *. bytes_; first [apply zvarint_is_byte; unfold in_i in *; lia | now apply kv_is_byte
      | apply zvarint_is_byte, swrap_range; lia | now apply headers_is_byte
      | repeat constructor; unfold is_byte; lia].
  - unfold msg_v0_1_bytes, msg_v0_1_body. cbv zeta. bytes_; destruct (ver =? 1), (rkm_key m), (rkm_payload m);
      cbn [default] in *; bytes_.
Qed.

Lemma msgs_bytes_is_byte ver ts l : forall off,
  Forall msg_ok l -> Forall octets l -> 0 <= off -> off + zlen l < 2 ^ 30 ->
  Forall is_byte (msgs_bytes ver ts off l).
Proof.
  induction l as [| m l IH]; intros off H1 H2 H0 Ho; [constructor |]. cbn [msgs_bytes length] in *.
  apply Forall_cons_iff in H1 as [Hm H1]. apply Forall_cons_iff in H2 as [Hom H2]. apply Forall_app. split.
  - apply msg_bytes_is_byte; try assumption. unfold in_i. lia.
  - apply IH; try assumption; lia.
Qed.

(** A queue that a producer may hold: its messages fit and its counters agree. *)
Record xmit_ok (conf : produce_conf) (q : rd_kafka_msgq) : Prop := {
  xo_counted : counted q;
  xo_small : small q;
  xo_fits : Forall (msg_fits conf) (rkmq_msgs q);
  xo_octets : Forall octets (rkmq_msgs q) }.

#[export] Instance msg_order_cmp_order (s : queuing_strategy) : MsgOrder (msg_order_cmp s).
Proof. destruct s; exact _. Defined.

Section Create.
Context (junk : Z -> Z) (codec : Z -> Z -> bytes -> option bytes) (addr : nat -> Z).
Context (Hcodec : forall c v d z, codec c v d = Some z -> Forall is_byte z).
Context (conf : produce_conf) (rktp : produce_toppar) (Hconf : conf_ok conf rktp).

Lemma H256 : kb_base 256.
Proof. unfold kb_base. lia. Qed.

(** The attributes and the bytes of the messages. *)
Definition encoded (v : msgset_version) (ts : Z) (l : list rd_kafka_msg) : Z * bytes :=
  let data := msgs_bytes (msetw_MsgVersion v) ts 0 l in
  if msetw_compression v =? 0 then (0, data)
  else match compressed codec (msetw_MsgVersion v) (msetw_compression v) ts data with
       | Some d => (msetw_compression v, d)
       | None => (0, data)
       end.

Lemma compressed_is_byte ver c ts data d :
  ver = 0 \/ ver = 1 \/ ver = 2 -> 0 < zlen data < 2 ^ 31 ->
  compressed codec ver c ts data = Some d -> Forall is_byte d /\ zlen d < zlen data + 100.
Proof.
  intros Hv Hd. unfold compressed. destruct (codec c ver data) as [z |] eqn:E; [| discriminate].
  destruct (zlen z >? zlen data) eqn:Ez; [discriminate |]. zbool. intros [= <-].
  apply Hcodec in E. assert (msg_ok (wrapper_msg z ts)) as Hm
    by (constructor; cbn; try reflexivity; try lia; discriminate).
  destruct (Z.eqb_spec ver 2); [split; [assumption | lia] |].
  destruct (msg_bytes_len ver ts 0 c (wrapper_msg z ts) Hm ltac:(unfold in_i; lia) Hv) as [H1 H2].
  change (rkm_len (wrapper_msg z ts)) with (zlen z) in H2.
  change (rkm_key_len (wrapper_msg z ts)) with 0 in H2. change (msg_hdr_size (wrapper_msg z ts)) with 0 in H2.
  split; [| lia]. apply msg_bytes_is_byte; [assumption | | unfold in_i; lia].
  unfold octets. cbn. auto.
Qed.

Lemma batch_set_msgq_len b q l :
  rkmq_msgs q = l -> counted q -> zlen l < 2 ^ 30 -> rd_kafka_msgq_len (rkmb_msgq (batch_set_msgq b q)) = zlen l.
Proof.
  intros E [Hc _] Hl. unfold rd_kafka_msgq_len. cbn. rewrite Hc, E, swrap_swrap, swrap_small by (unfold in_i; lia).
  reflexivity.
Qed.

Lemma finalize_spec msetw ts pre b taken st :
  let v := msetw_ver msetw in
  let c0 := pre ++ be_enc 4 0 ++ v2_header0 v (msetw_pid msetw) in
  ver_ok v -> zlen c0 < 2 ^ 40 -> msetw_firstmsg_of msetw = zlen c0 ->
  msetw_of_MessageSetSize msetw = zlen pre ->
  (msetw_MsgVersion v = 2 -> msetw_of_start msetw = zlen pre + 4 /\ msetw_of_CRC msetw = zlen pre + 21) ->
  wl_inv 256 (zlen c0) conf msetw ts c0 b taken st -> taken <> [] ->
  Forall (msg_fits conf) taken -> Forall octets taken -> zlen taken < 2 ^ 30 ->
  let '(attributes, data) := encoded v ts taken in
  let set_ := messageset_bytes conf v (msetw_pid msetw) (rkmb_first_seq b) ts (max_timestamp taken)
                attributes (zlen taken) data in
  exists req, rd_kafka_msgset_writer_finalize junk codec addr conf msetw ts st = Some (Some req) /\
    kbn (2 ^ 59) (preq_rkbuf req) (pre ++ be_enc 4 (zlen set_) ++ set_) /\
    rkmq_msgs (rkmb_msgq (preq_batch req)) = taken /\ counted (rkmb_msgq (preq_batch req)) /\
    preq_batch req = mk_batch (rkmb_msgq (preq_batch req)) (msetw_pid msetw) (rkmb_first_seq b)
      (rkmb_first_msgid b) (rkmb_epoch_base_msgid b) (rkmb_last_msgid b) /\
    preq_MessageSetSize req = zlen set_ /\ preq_tx_msgs req = zlen taken /\
    preq_tx_msg_bytes req = u64 (sum_bytes taken).
Proof.
  intros v c0 Hv Hc0 Hof Ho1 Ho2 [Hbuf Hlen Hcnt Hcm (q & Hq & Hqm & Hqc) Hkv Hts Hsz Hne] Hnil Hfit Hoct Hmx.
  fold v in Hbuf, Hlen, Hsz, Hne. set (ver := msetw_MsgVersion v) in *. set (data0 := msgs_bytes ver ts 0 taken) in *.
  pose proof (co_max _ _ Hconf) as Hmax. specialize (Hne Hnil).
  assert (0 < zlen taken) as Htk by (destruct taken; [congruence | cbn; lia]).
  pose proof (batch_set_msgq_len b q taken Hqm Hqc Hmx) as Hql.
  assert (Forall is_byte data0) as Hb0.
  { apply msgs_bytes_is_byte; try assumption; try lia.
    eapply Forall_impl; [| exact Hfit]. now intros m [Hm _]. }
  unfold rd_kafka_msgset_writer_finalize. rewrite Hq, Hql. ztest.
  rewrite (write_pos_kbs _ _ _ _ _ _ Hbuf), Hof, zlen_app. fold data0.
  replace (u64 (zlen c0 + zlen data0 - zlen c0)) with (zlen data0) by (rewrite wrap_small; lia).
  unfold rd_assert. rewrite (wrap_small 64 (max_msg_size conf)) by lia. ztest. fold v.
  assert (exists r2 v2, (if negb (msetw_compression v =? 0) then
       let* r := rd_kafka_msgset_writer_compress junk codec conf msetw ts (wl_rkbuf st) (zlen data0) in
       match r with
       | None => Some (wl_rkbuf st, zlen data0, 0, ver_set_compression v 0)
       | Some (rkbuf, len, Attributes) => Some (rkbuf, len, Attributes, v)
       end else Some (wl_rkbuf st, zlen data0, 0, v)) =
     Some (r2, zlen (snd (encoded v ts taken)), fst (encoded v ts taken), v2) /\
     kbn (2 ^ 59) r2 (c0 ++ snd (encoded v ts taken)) /\
     Forall is_byte (snd (encoded v ts taken)) /\ zlen (snd (encoded v ts taken)) < 2 ^ 32)
    as (r2 & v2 & -> & Hk2 & Hb2 & Hl2).
  { pose proof (kbn_mono 256 (2 ^ 59) _ _ ltac:(lia) (kbs_kbn _ _ _ _ _ Hbuf)) as Hkb.
    unfold encoded. fold ver data0. destruct (Z.eqb_spec (msetw_compression v) 0) as [E0 | E0].
    - exists (wl_rkbuf st), v. cbn [negb fst snd]. repeat split; try assumption; try apply Hkb; lia.
    - pose proof (vo_compr _ Hv).
      pose proof (compress_spec junk codec 256 conf msetw ts (wl_rkbuf st) c0 data0 Hbuf eq_refl Hc0
        ltac:(lia) Hof (vo_msg _ Hv) ltac:(fold v; lia)) as Hcs. cbv zeta in Hcs. fold v ver in Hcs.
      cbn [negb]. destruct (compressed codec ver (msetw_compression v) ts data0) as [d |] eqn:Ed; cbn [fst snd].
      + destruct Hcs as (r' & -> & Hk'). exists r', v. split; [reflexivity |]. split; [assumption |].
        destruct (compressed_is_byte ver _ ts data0 d (vo_msg _ Hv) ltac:(lia) Ed). split; [assumption | lia].
      + rewrite Hcs. exists (wl_rkbuf st), (ver_set_compression v 0).
        repeat split; try assumption; try apply Hkb; lia. }
  destruct (encoded v ts taken) as [attributes data]. cbn [fst snd] in *.
  set (b2 := mk_batch _ (msetw_pid msetw) _ _ _ _).
  assert (rd_kafka_msgq_len (rkmb_msgq b2) = zlen taken) as Hq2 by exact Hql.
  pose proof (finalize_MessageSet_spec addr (2 ^ 59) conf msetw b2 ts (wl_MaxTimestamp st) attributes r2 pre data)
    as Hfin. cbv zeta in Hfin. rewrite Hq2, Hts in Hfin.
  destruct Hfin as (r' & Er & Hk'); try assumption.
  - unfold c0 in Hk2. rewrite <- !app_assoc in Hk2. exact Hk2.
  - apply (vo_v2 _ Hv).
  - unfold c0 in Hc0. rewrite zlen_app in Hc0. lia.
  - rewrite Hts, Er. eexists. split; [reflexivity |]. cbn [preq_rkbuf preq_batch preq_MessageSetSize
      preq_tx_msgs preq_tx_msg_bytes].
    split; [exact Hk' |]. split; [exact Hqm |]. split; [exact Hqc |]. now repeat split.
Qed.

(** The batch of the first message. *)
Definition first_batch (pid : rd_kafka_pid) (base : Z) (m : rd_kafka_msg) : rd_kafka_msgbatch :=
  if rd_kafka_pid_valid pid
  then mk_batch RD_KAFKA_MSGQ_INITIALIZER pid (rd_kafka_seq_wrap (i64 (rkm_msgid m - base)))
         (i64 (rkm_msgid m)) base (rkm_last_msgid m)
  else rd_kafka_msgbatch_init pid base.

Lemma set_first_msg_spec pid base m :
  rd_kafka_msgbatch_set_first_msg (rd_kafka_msgbatch_init pid base) m = Some (first_batch pid base m).
Proof.
  unfold rd_kafka_msgbatch_set_first_msg, first_batch. cbn. now destruct (rd_kafka_pid_valid pid).
Qed.

(** All of the request before the size of the message set. *)
Definition request_prefix (v : msgset_version) : bytes :=
  request_header (client_id conf) RD_KAFKAP_Produce ++ produce_header conf rktp v.

Lemma request_prefix_len v : zlen (request_prefix v) < 2 ^ 20.
Proof.
  pose proof (co_client _ _ Hconf). pose proof (co_txn _ _ Hconf). pose proof (co_topic _ _ Hconf).
  unfold request_prefix, request_header, produce_header. destruct (_ >=? 3); len_lia.
Qed.

Lemma init_spec rkb rkmq pid base now0 v :
  rd_kafka_msgset_writer_select_MsgVersion rkb (compression_codec conf) = Some v -> ver_ok v ->
  counted rkmq -> small rkmq -> rkmq_msgs rkmq <> [] ->
  let pre := request_prefix v in
  let c0 := pre ++ be_enc 4 0 ++ v2_header0 v pid in
  exists msetw r, rd_kafka_msgset_writer_init junk conf rkb rktp rkmq pid base now0 =
      Some (MsetwReady msetw r (rd_kafka_msgbatch_init pid base)) /\
    kbs 256 (zlen c0) r c0 None false /\ zlen c0 < 2 ^ 40 /\
    msetw_ver msetw = v /\ msetw_pid msetw = pid /\ msetw_firstmsg_of msetw = zlen c0 /\
    msetw_of_MessageSetSize msetw = zlen pre /\
    (msetw_MsgVersion v = 2 -> msetw_of_start msetw = zlen pre + 4 /\ msetw_of_CRC msetw = zlen pre + 21) /\
    msetw_msgcntmax msetw = Z.min (zlen (rkmq_msgs rkmq)) (batch_num_messages conf).
Proof.
  intros Ev Hv Hc Hs Hne pre c0. pose proof (request_prefix_len v) as Hpre. fold pre in Hpre.
  assert (zlen c0 < 2 ^ 40) as Hc0.
  { unfold c0, v2_header0, v2_front, batch_tail. destruct (_ =? 2); len_lia. }
  destruct (counted_small rkmq Hc Hs) as [Hn _]. pose proof (proj1 Hs) as Hs1.
  pose proof (co_num _ _ Hconf) as Hnum.
  assert (0 < zlen (rkmq_msgs rkmq)) by (destruct (rkmq_msgs rkmq); [congruence | cbn; lia]).
  unfold rd_kafka_msgset_writer_init, rd_kafka_msgq_len. rewrite Hn, swrap_small by (unfold in_i; lia).
  ztest. rewrite Ev, RD_MIN_min. set (mx := Z.min _ _).
  unfold rd_kafka_msgset_writer_alloc_buf, msgset_bufsize, rd_assert.
  pose proof (vo_api _ Hv). pose proof (vo_msg _ Hv). ztest. cbn [andb].
  match goal with |- context [rd_kafka_buf_new_request0 _ _ _ ?a ?b _] =>
    destruct (new_request0_kbs junk 256 (zlen c0) H256 (client_id conf) RD_KAFKAP_Produce a b)
      as (r & -> & Hk); [apply (co_client _ _ Hconf) | |] end.
  { assert (0 <= mx / 2) by (apply Z.div_pos; lia). lia. }
  destruct (write_Produce_header_kbs junk 256 (zlen c0) H256 conf rktp v pid r _ Hk Hconf) as (r' & -> & Hk').
  { clear - Hpre. unfold pre, request_prefix in Hpre. len_lia. }
  { apply (vo_v2 _ Hv). }
  fold (request_prefix v) in Hk' |- *. fold pre in Hk' |- *.
  fold c0 in Hk'. rewrite (write_pos_kbs _ _ _ _ _ _ Hk').
  do 2 eexists. split; [reflexivity |]. cbn [msetw_ver msetw_pid msetw_firstmsg_of
    msetw_of_MessageSetSize msetw_of_start msetw_of_CRC msetw_msgcntmax].
  do 6 (split; [first [assumption | reflexivity] |]). split; [| reflexivity].
  intros ->. auto.
Qed.


(** The length of what comes before the messages. *)
Definition header_len (v : msgset_version) (pid : rd_kafka_pid) : Z :=
  zlen (request_prefix v ++ be_enc 4 0 ++ v2_header0 v pid).

(** Why a batch that holds [taken] ends before [m]: [m] is behind the batch that is being
    rebuilt, there is no more room, or [m] is backing off. *)
Definition batch_ends (v : msgset_version) (pid : rd_kafka_pid) (b : rd_kafka_msgbatch) (ts now n : Z)
  (taken : list rd_kafka_msg) (m : rd_kafka_msg) : Prop :=
  rkmb_last_msgid b <> 0 /\ rkmb_last_msgid b < rkm_msgid m \/
  zlen taken = Z.min n (batch_num_messages conf) \/
  taken <> [] /\ Z.min (max_msg_size conf) (batch_size conf) <
    header_len v pid + zlen (msgs_bytes (msetw_MsgVersion v) ts 0 taken) + rd_kafka_msg_wire_size m (msetw_MsgVersion v) \/
  now < rkm_ts_backoff m.

(** The batch cannot be the one of the first transmission. *)
Definition inconsistent (b : rd_kafka_msgbatch) (taken : list rd_kafka_msg) : bool :=
  match list.last taken with
  | Some m => negb (rkmb_last_msgid b =? 0) && negb (rkm_msgid m =? rkmb_last_msgid b)
  | None => false
  end.

Lemma write_msgq_spec msetw pid base now rkmq m0 rest0 r v :
  let c0 := request_prefix v ++ be_enc 4 0 ++ v2_header0 v pid in
  let b := first_batch pid base m0 in
  let ts := rkm_timestamp m0 in
  ver_ok v -> msetw_ver msetw = v -> kbs 256 (zlen c0) r c0 None false -> zlen c0 < 2 ^ 40 ->
  msetw_msgcntmax msetw = Z.min (zlen (rkmq_msgs rkmq)) (batch_num_messages conf) ->
  xmit_ok conf rkmq -> rkmq_msgs rkmq = m0 :: rest0 ->
  exists rkmq' st taken rest,
    rd_kafka_msgset_writer_write_msgq junk conf msetw now rkmq (rd_kafka_msgbatch_init pid base) r =
      Some (rkmq', st, ts, negb (inconsistent b taken)) /\
    rkmq_msgs rkmq = taken ++ rest /\ rkmq_msgs rkmq' = rest /\ counted rkmq' /\
    wl_inv 256 (zlen c0) conf msetw ts c0 b taken st /\ zlen taken <= batch_num_messages conf /\
    forall m, head rest = Some m ->
      batch_ends v pid b ts now (zlen (rkmq_msgs rkmq)) taken m.
Proof.
  intros c0 b ts Hv Ev Hk Hc0 Hmx [Hc Hs Hfit _] Eq. pose proof (co_num _ _ Hconf) as Hnum.
  pose proof (co_max _ _ Hconf) as Hmax. pose proof (co_batch _ _ Hconf) as Hbatch.
  unfold rd_kafka_msgset_writer_write_msgq. unfold rd_kafka_msgq_first at 1. rewrite Eq. cbn [head].
  rewrite set_first_msg_spec. fold b ts.
  set (st0 := mk_wl b r _ 0 0 0).
  assert (wl_inv 256 (zlen c0) conf msetw ts c0 b [] st0) as H0.
  { pose proof Hk as ((Hbs & _) & _). pose proof (buf_state_len _ _ Hbs) as Hl.
    unfold st0. constructor; cbn [wl_rkbuf wl_len wl_msgcnt wl_batch wl_kvlen wl_MaxTimestamp msgs_bytes].
    - now rewrite app_nil_r.
    - unfold rd_buf_len. now rewrite app_nil_r.
    - reflexivity.
    - cbn. lia.
    - exists (rkmb_msgq b). unfold b, first_batch. destruct (rd_kafka_pid_valid pid); cbn;
        (split; [reflexivity |]; split; [reflexivity | apply counted_empty]).
    - reflexivity.
    - reflexivity.
    - cbn. lia.
    - congruence.
    - split; [constructor |]. intros a m c E Ha. destruct a; [congruence | discriminate]. }
  destruct (write_msgq_loop_spec junk 256 (zlen c0) H256 conf rktp Hconf msetw ts now c0
      ltac:(rewrite Ev; apply (vo_msg _ Hv)) ltac:(lia) eq_refl
      ltac:(rewrite Hmx, Eq; cbn [length]; lia) b (length (rkmq_msgs rkmq)) (rkmq_msgs rkmq) rkmq st0 []
      eq_refl eq_refl ltac:(now rewrite Eq) Hc Hs Hfit H0)
    as (q' & st & taken & rest & Er & E & Eq' & Hc' & Hs' & Hinv & _ & Hend).
  rewrite <- Eq, E. cbn [app] in Hinv. exists q', st, taken, rest.
  pose proof Hinv as [_ Hlen Hcnt Hcm (q & Hq & Hqm & _) _ _ Hsz _ _].
  assert (rkmb_last_msgid (wl_batch st) = rkmb_last_msgid b) as Hlast by now rewrite Hq.
  split; [| split; [exact Er |]; split; [exact Eq' |]; split; [exact Hc' |]; split; [exact Hinv |];
    split; [lia |]].
  - rewrite Hlast, Hcnt. unfold inconsistent, rd_kafka_msgq_last. rewrite Hq. cbn [batch_set_msgq rkmb_msgq].
    rewrite Hqm. destruct (list.last taken) as [m |] eqn:El.
    + replace (zlen taken >? 0) with true; cycle 1.
      { symmetry. rewrite Z.gtb_ltb. apply Z.ltb_lt. destruct taken; [discriminate | cbn; lia]. }
      cbn [andb]. destruct (rkmb_last_msgid b =? 0); cbn [negb andb]; [reflexivity |].
      now rewrite negb_involutive.
    + destruct taken; [reflexivity | exfalso]. apply list.last_None in El. discriminate.
  - intros m Hm. specialize (Hend m Hm). unfold msetw_stops in Hend. rewrite Hlast, Hcnt, Hlen, Ev in Hend.
    unfold batch_ends, header_len. fold c0. rewrite zlen_app in Hend. rewrite Hmx in Hend.
    assert (0 <= rd_kafka_msg_wire_size m (msetw_MsgVersion v) < 2 ^ 60) as Hw.
    { assert (msg_fits conf m) as [Hmok ?].
      { eapply (proj1 (list.Forall_forall _ _) Hfit). rewrite Er. apply elem_of_app. right.
        destruct rest; [discriminate |]. injection Hm as ->. left. }
      destruct (msg_bytes_len (msetw_MsgVersion v) ts 0 0 m Hmok ltac:(unfold in_i; lia) (vo_msg _ Hv)). lia. }
    rewrite Ev in Hsz. rewrite wrap_small, RD_MIN_min in Hend by lia.
    apply orb_true_iff in Hend as [Hend | Hend]; [apply orb_true_iff in Hend as [Hend | Hend] |].
    + zbool. left. split; [assumption | lia].
    + apply orb_true_iff in Hend as [Hend | Hend]; zbool; [auto |]. right. right. left.
      split; [| lia]. intros ->. cbn in *. lia.
    + zbool. auto.
Qed.


(** What is sent for the messages [taken]. *)
Definition request_bytes (v : msgset_version) (pid : rd_kafka_pid) (first_seq ts : Z)
  (taken : list rd_kafka_msg) : bytes :=
  let '(attributes, data) := encoded v ts taken in
  let set_ := messageset_bytes conf v pid first_seq ts (max_timestamp taken) attributes
                (zlen taken) data in
  request_prefix v ++ be_enc 4 (zlen set_) ++ set_.

(** The request for [taken]. *)
Record request_for (v : msgset_version) (b : rd_kafka_msgbatch) (pid : rd_kafka_pid) (ts : Z)
  (taken : list rd_kafka_msg) (req : produce_request) : Prop := {
  rf_wire : rd_buf_content (rkbuf_buf (preq_rkbuf req)) = request_bytes v pid (rkmb_first_seq b) ts taken;
  rf_msgs : rkmq_msgs (rkmb_msgq (preq_batch req)) = taken;
  rf_counted : counted (rkmb_msgq (preq_batch req));
  rf_batch : preq_batch req = mk_batch (rkmb_msgq (preq_batch req)) pid (rkmb_first_seq b)
    (rkmb_first_msgid b) (rkmb_epoch_base_msgid b) (rkmb_last_msgid b);
  rf_tx : preq_tx_msgs req = zlen taken /\ preq_tx_msg_bytes req = u64 (sum_bytes taken);
  rf_size : zlen (msgs_bytes (msetw_MsgVersion v) ts 0 taken) <= max_msg_size conf;
  rf_len : rd_buf_len (rkbuf_buf (preq_rkbuf req)) = zlen (request_bytes v pid (rkmb_first_seq b) ts taken) }.

Lemma create_spec rkb rkmq pid base now0 now v m0 rest0 :
  let b := first_batch pid base m0 in
  0 <= compression_codec conf <= 3 ->
  rd_kafka_msgset_writer_select_MsgVersion rkb (compression_codec conf) = Some v ->
  xmit_ok conf rkmq -> sorted (msg_order_cmp (strategy conf)) (rkmq_msgs rkmq) ->
  rkmq_msgs rkmq = m0 :: rest0 ->
  exists rkmq' r taken rest,
    rd_kafka_msgset_create_ProduceRequest junk codec addr conf rkb rktp rkmq pid base now0 now =
      Some (rkmq', r, inconsistent b taken) /\
    rkmq_msgs rkmq = taken ++ rest /\ counted rkmq' /\ zlen taken <= batch_num_messages conf /\
    (forall m, head rest = Some m ->
       batch_ends v pid b (rkm_timestamp m0) now (zlen (rkmq_msgs rkmq)) taken m) /\
    batch_within conf (msetw_MsgVersion v) (header_len v pid) (rkm_timestamp m0) b taken /\
    if inconsistent b taken
    then r = None /\ rkmq_msgs rkmq' ≡ₚ rkmq_msgs rkmq /\
         sorted (msg_order_cmp (strategy conf)) (rkmq_msgs rkmq')
    else rkmq_msgs rkmq' = rest /\
         match r with
         | None => taken = []
         | Some req => taken <> [] /\ request_for v b pid (rkm_timestamp m0) taken req
         end.
Proof.
  intros b Hcomp Ev Hq Hsort Eq. pose proof (select_MsgVersion_ok _ _ _ Hcomp Ev) as Hv.
  pose proof (co_num _ _ Hconf) as Hnum.
  destruct (init_spec rkb rkmq pid base now0 v Ev Hv (xo_counted _ _ Hq) (xo_small _ _ Hq)
    ltac:(now rewrite Eq)) as (msetw & rb & Ei & Hk & Hc0 & Emv & Epid & Eof & Eo1 & Eo2 & Emx).
  destruct (write_msgq_spec msetw pid base now rkmq m0 rest0 rb v Hv Emv Hk Hc0 Emx Hq Eq)
    as (q' & st & taken & rest & Ew & Esp & Eq' & Hc' & Hinv & Hnt & Hends).
  fold b in Ew, Hinv, Hends. unfold rd_kafka_msgset_create_ProduceRequest. rewrite Ei, Ew, negb_involutive.
  assert (Forall (msg_fits conf) taken /\ Forall octets taken) as [Hft Hot].
  { pose proof (xo_fits _ _ Hq) as H1. pose proof (xo_octets _ _ Hq) as H2. rewrite Esp in H1, H2.
    apply Forall_app in H1 as [? _]. now apply Forall_app in H2 as [? _]. }
  pose proof (wi_batch _ _ _ _ _ _ _ _ _ Hinv) as (q & Eqb & Eqm & Hqc).
  pose proof (wi_within _ _ _ _ _ _ _ _ _ Hinv) as Hin. rewrite Emv in Hin. fold (header_len v pid) in Hin.
  destruct (inconsistent b taken) eqn:Einc.
  - assert (sorted (msg_order_cmp (strategy conf)) (rkmq_msgs q') /\
            sorted (msg_order_cmp (strategy conf)) (rkmq_msgs (rkmb_msgq (wl_batch st)))) as [S1 S2].
    { rewrite Eqb. cbn [batch_set_msgq rkmb_msgq]. rewrite Eqm, Eq'. rewrite Esp in Hsort.
      apply sorted_app in Hsort. tauto. }
    destruct (insert_msgq_spec (msg_order_cmp (strategy conf)) q' (rkmb_msgq (wl_batch st)) S1 S2 Hc')
      as (q2 & s2 & Eins & Es2 & Hs2 & Hp2 & Hc2 & Hcs2).
    { rewrite Eqb. exact Hqc. }
    rewrite Eins. cbn [negb]. unfold rd_kafka_msgset_writer_finalize. cbn [wl_batch].
    rewrite (batch_set_msgq_len (wl_batch st) s2 []) by (assumption || reflexivity || (cbn; lia)).
    change (zlen (@nil rd_kafka_msg)) with 0. cbn [Z.eqb].
    exists q2, None, taken, rest. split; [now rewrite Einc |].
    split; [exact Esp |]. split; [assumption |]. split; [lia |]. split; [exact Hends |].
    split; [exact Hin |]. rewrite Einc. split; [reflexivity |]. split; [| assumption].
    rewrite Hp2, Eqb. cbn [batch_set_msgq rkmb_msgq]. rewrite Eqm, Eq', Esp. apply Permutation_app_comm.
  - cbn [negb]. destruct (decide (taken = [])) as [-> | Hne].
    + unfold rd_kafka_msgset_writer_finalize. rewrite Eqb, (batch_set_msgq_len b q []) by
        (assumption || (cbn; lia)).
      change (zlen (@nil rd_kafka_msg)) with 0. cbn [Z.eqb].
      exists q', None, [], rest. rewrite Einc. auto 10.
    + pose proof (finalize_spec msetw (rkm_timestamp m0) (request_prefix v) b taken st) as Hfin.
      cbv zeta in Hfin. rewrite Emv, Epid in Hfin.
      specialize (Hfin Hv Hc0 Eof Eo1 Eo2 Hinv Hne Hft Hot ltac:(lia)).
      destruct (encoded v (rkm_timestamp m0) taken) as [attributes data] eqn:Een.
      destruct Hfin as (req & -> & Hk3 & H1 & H2 & H3 & H4 & H5 & H6).
      exists q', (Some req), taken, rest. rewrite Einc. do 6 (split; [auto |]). split; [assumption |].
      split; [assumption |]. pose proof (wi_size _ _ _ _ _ _ _ _ _ Hinv) as Hsize. rewrite Emv in Hsize.
      destruct Hk3 as [[Hst _] _]. pose proof (buf_state_len _ _ Hst) as Hl. destruct Hst as (_ & _ & _ & Hcont).
      constructor; auto; unfold request_bytes; rewrite Een; [exact Hcont | exact Hl].
Qed.

End Create.

(** ** The properties *)

(** C1. Whatever the queue of a producer holds, creating a Produce request fails no
    assertion: it takes the first messages of the queue, up to the first one that is
    behind the batch being rebuilt, has no room, or backs off, each of them with room and
    none behind the batch being rebuilt, and its bytes are those of the protocol for these messages: the request header, the Produce header, the size of
    the message set, and the record batch, compressed if that makes it smaller, with its
    lengths, counts, timestamps, producer id, sequence number and CRC.  If the batch of a
    first transmission cannot be rebuilt nothing is sent, the fatal error is raised, and
    the messages are back in the queue, in its order. *)
Theorem create_ProduceRequest_wire junk codec addr conf rkb rktp rkmq pid base now0 now v m0 rest0 :
  (forall c v d z, codec c v d = Some z -> Forall is_byte z) -> conf_ok conf rktp ->
  0 <= compression_codec conf <= 3 ->
  rd_kafka_msgset_writer_select_MsgVersion rkb (compression_codec conf) = Some v ->
  xmit_ok conf rkmq -> sorted (msg_order_cmp (strategy conf)) (rkmq_msgs rkmq) ->
  rkmq_msgs rkmq = m0 :: rest0 ->
  exists rkmq' r taken rest,
    rd_kafka_msgset_create_ProduceRequest junk codec addr conf rkb rktp rkmq pid base now0 now =
      Some (rkmq', r, inconsistent (first_batch pid base m0) taken) /\
    rkmq_msgs rkmq = taken ++ rest /\ counted rkmq' /\ zlen taken <= batch_num_messages conf /\
    (forall m, head rest = Some m ->
       batch_ends conf rktp v pid (first_batch pid base m0) (rkm_timestamp m0) now
         (zlen (rkmq_msgs rkmq)) taken m) /\
    batch_within conf (msetw_MsgVersion v) (header_len conf rktp v pid) (rkm_timestamp m0)
      (first_batch pid base m0) taken /\
    if inconsistent (first_batch pid base m0) taken
    then r = None /\ rkmq_msgs rkmq' ≡ₚ rkmq_msgs rkmq /\
         sorted (msg_order_cmp (strategy conf)) (rkmq_msgs rkmq')
    else rkmq_msgs rkmq' = rest /\
         match r with
         | None => taken = []
         | Some req => taken <> [] /\
             request_for codec conf rktp v (first_batch pid base m0) pid (rkm_timestamp m0) taken req
         end.
Proof. intros Hcodec Hconf. now apply create_spec. Qed.

(** A topic, a configuration and two messages, one with a header, in a queue. *)
Definition ex_conf : produce_conf :=
  mk_conf (Some [114]) None 1000000 1000000 10000 65535 (-1) 30000 0 RD_KAFKA_QUEUE_FIFO.
Definition ex_rkb : rd_kafka_broker := mk_rkb 0x208 [(0, (0, 8))].
Definition ex_rktp : produce_toppar := mk_ptp [116] 3.
Definition ex_msg (msgid ts : Z) (key : option bytes) (hdrs : option rd_kafka_headers) : rd_kafka_msg :=
  mk_msg 2 key (opt_len key) 3 (-1001) RD_KAFKA_TIMESTAMP_CREATE_TIME ts
    RD_KAFKA_MSG_STATUS_NOT_PERSISTED (-1) 0 0 0 msgid 0 0 (Some [104; 105]) hdrs.
Definition ex_msgs : list rd_kafka_msg :=
  [ex_msg 1 1000 (Some [107]) None; ex_msg 2 1005 None (rd_kafka_header_add rd_kafka_headers_new [97] (Some [98]))].
Definition ex_queue : rd_kafka_msgq := mk_msgq ex_msgs 2 5 no_wakeup.

Lemma ex_conf_ok : conf_ok ex_conf ex_rktp.
Proof. constructor; cbn; lia. Qed.

Lemma ex_queue_ok : xmit_ok ex_conf ex_queue.
Proof.
  constructor.
  - now split.
  - split; reflexivity.
  - repeat apply List.Forall_cons; [| | constructor].
    + split; [constructor; cbn; try lia; discriminate | cbn; lia].
    + split; [constructor; cbn; try lia | vm_compute; discriminate].
      intros hdrs E. vm_compute in E. injection E as <-. constructor; [| reflexivity | reflexivity].
      repeat constructor; cbn; lia.
  - repeat apply List.Forall_cons; [| | constructor]; unfold octets, is_byte; cbn;
      repeat split; repeat constructor; cbn; lia.
Qed.

Lemma ex_queue_sorted : sorted (msg_order_cmp RD_KAFKA_QUEUE_FIFO) ex_msgs.
Proof. repeat constructor; cbn; lia. Qed.

Definition ex_ver : msgset_version := mk_msgver 7 2 0x200 0 true.
Definition ex_pid : rd_kafka_pid := mk_pid 5 0.

Theorem create_ProduceRequest_wire_witness :
  let create := rd_kafka_msgset_create_ProduceRequest (fun _ => 0) (fun _ _ _ => None) (fun _ => 0) in
  exists rkmq' req,
    create ex_conf ex_rkb ex_rktp ex_queue ex_pid 1 0 50 = Some (rkmq', Some req, false) /\
    rd_buf_content (rkbuf_buf (preq_rkbuf req)) =
      request_prefix ex_conf ex_rktp ex_ver
      ++ be_enc 4 (61 + zlen (records_bytes 1000 0 ex_msgs))
      ++ batch_bytes 0 0 (batch_tail 0 1 1000 1005 5 0 0 2 (records_bytes 1000 0 ex_msgs)).
Proof.
  cbv zeta.
  destruct (create_ProduceRequest_wire (fun _ => 0) (fun _ _ _ => None) (fun _ => 0) ex_conf ex_rkb ex_rktp
    ex_queue ex_pid 1 0 50 ex_ver _ _ ltac:(discriminate) ex_conf_ok ltac:(cbn; lia) eq_refl ex_queue_ok
    ex_queue_sorted eq_refl) as (q & r & taken & rest & E & Hl & _ & _ & Hend & _ & H).
  assert (rest = [] /\ taken = ex_msgs) as [-> ->].
  { destruct rest as [| m rest]; [rewrite app_nil_r in Hl; split; [reflexivity | exact (eq_sym Hl)] |]. exfalso. clear E H. specialize (Hend m eq_refl).
    destruct taken as [| t1 [| t2 taken]]; cbn [app] in Hl;
      [injection Hl as <- _ | injection Hl as <- <- _
      | apply (f_equal length) in Hl; cbn in Hl; rewrite length_app in Hl; cbn in Hl; lia];
      vm_compute in Hend; intuition congruence. }
  destruct H as [Hq H]. destruct r as [req |]; [| discriminate H]. exists q, req.
  split; [exact E |]. destruct H as [_ H]. rewrite (rf_wire _ _ _ _ _ _ _ _ _ H). reflexivity.
Defined.
