(* ===== verification/MsgReader.v ===== *)
(** * The message set reader (src/cbits/hs_rdkafka_msgset_reader.c)

    [rd_kafka_msgset_parse]: the message sets of a partition in a Fetch response, in the
    three formats, become ops with messages on the partition's fetch queue; aborted
    transactions are left out.  The codecs are libraries: [codecs] is what they make of
    the data.  A parser is a computation on the read position and the reader's state,
    left by [goto err_parse] with an error code. *)

From stdpp Require Import sorting.
From S2P Require Import Prelude Varint RdBuf Slice Crc Header Msgq Sort Avl KafkaBuf MsgWriter.

Definition RD_KAFKA_RESP_ERR__BAD_COMPRESSION : Z := -198.
Definition RD_KAFKA_RESP_ERR__NOT_IMPLEMENTED : Z := -170.
Definition RD_KAFKA_RESP_ERR_MSG_SIZE_TOO_LARGE : Z := 10.

Definition RD_KAFKA_MSG_ATTR_COMPRESSION_MASK : Z := 0x7.
Definition RD_KAFKA_MSG_ATTR_LOG_APPEND_TIME : Z := Z.shiftl 1 3.
Definition RD_KAFKA_MSGSET_V2_ATTR_CONTROL : Z := Z.shiftl 1 5.
Definition RD_KAFKA_CTRL_MSG_ABORT : Z := 0.

(** ** Aborted transactions

    The nodes are on the list; the tree has their producer ids with the positions of the
    nodes on the list, for the pointers. *)

Record aborted_txn_start_offsets := mk_start_offsets {
  so_pid : Z;
  so_offsets_idx : Z;
  so_offsets : list Z }.

Record rd_kafka_aborted_txns := mk_aborted {
  at_avl : rd_avl (Z * nat);
  at_list : list aborted_txn_start_offsets }.

Definition rd_kafka_aborted_txn_cmp_by_pid (a b : Z * nat) : Z := RD_CMP (fst a) (fst b).

Definition rd_kafka_aborted_txns_new : rd_kafka_aborted_txns := mk_aborted rd_avl_init [].

Definition rd_kafka_aborted_txns_offsets_for_pid (t : rd_kafka_aborted_txns) (pid : Z) : option nat :=
  snd <$> rd_avl_find rd_kafka_aborted_txn_cmp_by_pid (at_avl t) (pid, 0%nat).

(** The state and the return value. *)
Definition rd_kafka_aborted_txns_next_offset (t : rd_kafka_aborted_txns) (pid : Z)
  (increment_idx : bool) (max_offset : Z) : option (rd_kafka_aborted_txns * Z) :=
  match rd_kafka_aborted_txns_offsets_for_pid t pid with
  | None => Some (t, -1)
  | Some k =>
      let* node := at_list t !! k in
      if so_offsets_idx node >=? zlen (so_offsets node) then Some (t, -1)
      else
        let* abort_start_offset := so_offsets node !! Z.to_nat (so_offsets_idx node) in
        if abort_start_offset >? max_offset then Some (t, -1)
        else if increment_idx then
          let node := mk_start_offsets (so_pid node) (so_offsets_idx node + 1) (so_offsets node) in
          Some (mk_aborted (at_avl t) (<[k := node]> (at_list t)), abort_start_offset)
        else Some (t, abort_start_offset)
  end.

Definition rd_kafka_aborted_txns_pop_offset t pid max_offset :=
  rd_kafka_aborted_txns_next_offset t pid true max_offset.
Definition rd_kafka_aborted_txns_get_offset t pid :=
  rd_kafka_aborted_txns_next_offset t pid false (2 ^ 63 - 1).

Definition rd_kafka_aborted_txns_add (t : rd_kafka_aborted_txns) (pid first_offset : Z)
  : option rd_kafka_aborted_txns :=
  let* (t, k) :=
    match rd_kafka_aborted_txns_offsets_for_pid t pid with
    | Some k => Some (t, k)
    | None =>
        let k := length (at_list t) in
        let* (avl, _) := rd_avl_insert rd_kafka_aborted_txn_cmp_by_pid (at_avl t) (pid, k) in
        Some (mk_aborted avl (at_list t ++ [mk_start_offsets pid 0 []]), k)
    end in
  let* node := at_list t !! k in
  Some (mk_aborted (at_avl t)
          (<[k := mk_start_offsets (so_pid node) (so_offsets_idx node) (so_offsets node ++ [first_offset])]>
             (at_list t))).

(** Equal offsets are the same: any sort gives this list. *)
Definition rd_kafka_aborted_txns_sort (t : rd_kafka_aborted_txns) : rd_kafka_aborted_txns :=
  mk_aborted (at_avl t)
    (map (fun el => mk_start_offsets (so_pid el) (so_offsets_idx el) (merge_sort Z.le (so_offsets el)))
       (at_list t)).

(** ** The reader's state *)

(** An op with a message, whose headers are not parsed yet, or with an error. *)
Inductive fetch_op : Type :=
| OpFetch (rkm : rd_kafka_msg) (binhdrs : kafkap_bytes) (control : bool)
| OpConsumerErr (err offset : Z).

(** The reader; the last three are the fields of the partition and what the Fetch
    response says of aborted transactions, NULL if nothing. *)
Record rd_kafka_msgset_reader_t := mk_msetr {
  msetr_rkq : list fetch_op;
  msetr_msgcnt : Z;
  msetr_msg_bytes : Z;
  msetr_next_offset : Z;
  msetr_ctrl_cnt : Z;
  msetr_aborted_cnt : Z;
  msetr_compression : Z;
  rktp_fetch_offset : Z;
  rktp_fetch_msg_max_bytes : Z;
  msetr_aborted_txns : option rd_kafka_aborted_txns }.

(** What is fixed when the reader is set up: [msetr_relative_offsets] and [msetr_outer]. *)
Record msetr_outer := mk_outer {
  outer_relative : bool;
  outer_offset : Z;
  outer_tstype : rd_kafka_timestamp_type;
  outer_timestamp : Z }.

Record fetch_conf := mk_fetch_conf {
  check_crcs : bool;
  read_committed : bool;
  fetch_broker_id : Z;
  fetch_partition : Z }.

Record msgset_v2_hdr := mk_v2_hdr {
  v2_BaseOffset : Z;
  v2_Attributes : Z;
  v2_BaseTimestamp : Z;
  v2_MaxTimestamp : Z;
  v2_PID : Z }.

(** What the codecs make of compressed data, [None] if they fail; the decoder for LZ4 is
    told whether the framing is proper, and its error is one of the protocol's. *)
Record codecs := mk_codecs {
  rd_gz_decompress : bytes -> option bytes;
  rd_kafka_snappy_java_uncompress : bytes -> option bytes;
  rd_kafka_snappy_uncompress : bytes -> option bytes;
  rd_kafka_lz4_decompress : bool -> bytes -> bytes + Z }.

Definition set_rkq (m : rd_kafka_msgset_reader_t) (v : list fetch_op) :=
  mk_msetr v (msetr_msgcnt m) (msetr_msg_bytes m) (msetr_next_offset m) (msetr_ctrl_cnt m)
    (msetr_aborted_cnt m) (msetr_compression m) (rktp_fetch_offset m) (rktp_fetch_msg_max_bytes m)
    (msetr_aborted_txns m).
Definition set_msgcnt (m : rd_kafka_msgset_reader_t) (v bytes : Z) :=
  mk_msetr (msetr_rkq m) v bytes (msetr_next_offset m) (msetr_ctrl_cnt m)
    (msetr_aborted_cnt m) (msetr_compression m) (rktp_fetch_offset m) (rktp_fetch_msg_max_bytes m)
    (msetr_aborted_txns m).
Definition set_next_offset (m : rd_kafka_msgset_reader_t) (v : Z) :=
  mk_msetr (msetr_rkq m) (msetr_msgcnt m) (msetr_msg_bytes m) v (msetr_ctrl_cnt m)
    (msetr_aborted_cnt m) (msetr_compression m) (rktp_fetch_offset m) (rktp_fetch_msg_max_bytes m)
    (msetr_aborted_txns m).
Definition set_cnts (m : rd_kafka_msgset_reader_t) (ctrl aborted : Z) :=
  mk_msetr (msetr_rkq m) (msetr_msgcnt m) (msetr_msg_bytes m) (msetr_next_offset m) ctrl
    aborted (msetr_compression m) (rktp_fetch_offset m) (rktp_fetch_msg_max_bytes m)
    (msetr_aborted_txns m).
Definition set_compression (m : rd_kafka_msgset_reader_t) (v : Z) :=
  mk_msetr (msetr_rkq m) (msetr_msgcnt m) (msetr_msg_bytes m) (msetr_next_offset m) (msetr_ctrl_cnt m)
    (msetr_aborted_cnt m) v (rktp_fetch_offset m) (rktp_fetch_msg_max_bytes m) (msetr_aborted_txns m).
Definition set_fetch_offset (m : rd_kafka_msgset_reader_t) (v : Z) :=
  mk_msetr (msetr_rkq m) (msetr_msgcnt m) (msetr_msg_bytes m) (msetr_next_offset m) (msetr_ctrl_cnt m)
    (msetr_aborted_cnt m) (msetr_compression m) v (rktp_fetch_msg_max_bytes m) (msetr_aborted_txns m).
Definition set_fetch_max (m : rd_kafka_msgset_reader_t) (v : Z) :=
  mk_msetr (msetr_rkq m) (msetr_msgcnt m) (msetr_msg_bytes m) (msetr_next_offset m) (msetr_ctrl_cnt m)
    (msetr_aborted_cnt m) (msetr_compression m) (rktp_fetch_offset m) v (msetr_aborted_txns m).
Definition set_aborted_txns (m : rd_kafka_msgset_reader_t) (v : option rd_kafka_aborted_txns) :=
  mk_msetr (msetr_rkq m) (msetr_msgcnt m) (msetr_msg_bytes m) (msetr_next_offset m) (msetr_ctrl_cnt m)
    (msetr_aborted_cnt m) (msetr_compression m) (rktp_fetch_offset m) (rktp_fetch_msg_max_bytes m) v.

Definition msetr_enq (m : rd_kafka_msgset_reader_t) (rko : fetch_op) := set_rkq m (msetr_rkq m ++ [rko]).

Definition rd_kafka_consumer_err (m : rd_kafka_msgset_reader_t) (err offset : Z) :=
  msetr_enq m (OpConsumerErr err offset).

(** ** Parsers *)

Definition parser (A : Type) : Type :=
  rd_slice -> rd_kafka_msgset_reader_t -> option (rd_slice * rd_kafka_msgset_reader_t * (A + Z)).

Definition p_ret {A} (x : A) : parser A := fun s m => Some (s, m, inl x).
Definition p_bind {A B} (p : parser A) (k : A -> parser B) : parser B := fun s m =>
  let* (s, m, r) := p s m in
  match r with inl x => k x s m | inr err => Some (s, m, inr err) end.
Definition p_read {A} (r : reader A) : parser A := fun s m =>
  let* (s, x) := r s in Some (s, m, x).
Definition p_fail {A} (err : Z) : parser A := fun s m => Some (s, m, inr err).
Definition p_state : parser rd_kafka_msgset_reader_t := fun s m => Some (s, m, inl m).
Definition p_slice : parser rd_slice := fun s m => Some (s, m, inl s).
Definition p_update (f : rd_kafka_msgset_reader_t -> rd_kafka_msgset_reader_t) : parser unit :=
  fun s m => Some (s, f m, inl tt).
(** A value the code would not survive to use. *)
Definition p_some {A} (o : option A) : parser A := fun s m => let* x := o in Some (s, m, inl x).

Declare Scope parser_scope.
Delimit Scope parser_scope with parser.
Notation "'let?' x ':=' p 'in' k" := (p_bind p (fun x => k))
  (at level 10, x pattern, p at level 100, k at level 200) : parser_scope.

(** The return value of a function that ends with [err_parse]. *)
Definition p_result (p : parser Z) : rd_slice -> rd_kafka_msgset_reader_t ->
  option (rd_slice * rd_kafka_msgset_reader_t * Z) := fun s m =>
  let* (s, m, r) := p s m in
  Some (s, m, match r with inl err => err | inr err => err end).

(** ** Messages *)

Section Messages.
Context (conf : fetch_conf) (outer : msetr_outer) (addr : nat -> Z) (rb : rd_buf).
Local Open Scope parser_scope.

(** The op of a message, with no timestamp yet. *)
Definition rd_kafka_op_new_fetch_msg (offset key_len : Z) (key : option bytes) (val_len : Z)
  (val : option bytes) : rd_kafka_msg :=
  mk_msg val_len key key_len (fetch_partition conf) offset RD_KAFKA_TIMESTAMP_NOT_AVAILABLE 0
    RD_KAFKA_MSG_STATUS_PERSISTED 0 0 0 0 0 0 0 val None.

Definition rd_kafka_op_new_ctrl_msg (offset : Z) : fetch_op :=
  OpFetch (rd_kafka_op_new_fetch_msg offset 0 None 0 None) (mk_kbytes 0 None) true.

(** [RD_KAFKAP_BYTES_IS_NULL(b) ? NULL : b.data] *)
Definition kbytes_data (b : kafkap_bytes) : option bytes :=
  if kb_len b =? -1 then None else kb_data b.

Definition msg_set_timestamp (m : rd_kafka_msg) (tstype : rd_kafka_timestamp_type) (timestamp : Z)
  : rd_kafka_msg :=
  msg_set_delivery m (fetch_broker_id conf) (rkm_offset m) tstype timestamp.

(** The message is queued and counted. *)
Definition msetr_add_msg (m : rd_kafka_msgset_reader_t) (rkm : rd_kafka_msg) (binhdrs : kafkap_bytes) :=
  let m := msetr_enq m (OpFetch rkm binhdrs false) in
  set_msgcnt m (i32 (msetr_msgcnt m + 1)) (i64 (msetr_msg_bytes m + rkm_key_len rkm + rkm_len rkm)).

(** [decompress MsgVersion Attributes Timestamp Offset compressed compressed_size] *)
Definition msg_v0_1_body
  (decompress : Z -> Z -> Z -> Z -> option bytes -> Z -> parser Z) : parser Z :=
  let? Offset := p_read (rd_kafka_buf_read_i64 rb) in
  let? MessageSize := p_read (rd_kafka_buf_read_i32 rb) in
  let? s := p_slice in
  let message_end := u64 (rd_slice_offset rb s + MessageSize) in
  let? Crc := p_read (rd_kafka_buf_read_i32 rb) in
  let? s := p_slice in
  let? r := p_some (rd_slice_narrow_copy_relative rb s (u64 (i32 (MessageSize - 4)))) in
  let? crc_slice := match r with
                    | SliceOk c => p_ret (Some c)
                    | SliceErr => let? _ := p_read (rd_kafka_buf_check_len rb (i32 (MessageSize - 4))) in
                                  p_ret None
                    end in
  let? MagicByte := p_read (rd_kafka_buf_read_i8 rb) in
  let? Attributes := p_read (rd_kafka_buf_read_i8 rb) in
  let compressed := negb (Z.land Attributes RD_KAFKA_MSG_ATTR_COMPRESSION_MASK =? 0) in
  let? (Timestamp, hdrsize, relative_offsets) :=
    if MagicByte =? 1 then
      let? Timestamp := p_read (rd_kafka_buf_read_i64 rb) in
      p_ret (Timestamp, 6 + 8, negb compressed && outer_relative outer)
    else p_ret (0, 6, false) in
  if MessageSize <? hdrsize then p_fail RD_KAFKA_RESP_ERR__BAD_MSG
  else
    let? _ := p_read (rd_kafka_buf_check_len rb (MessageSize - hdrsize)) in
    let? crc_ok :=
      if check_crcs conf then
        let? c := p_some crc_slice in
        let? (_, calc_crc) := p_some (rd_slice_crc32 rb c) in
        p_ret (Crc =? i32 calc_crc)
      else p_ret true in
    if negb crc_ok then
      let? _ := p_update (fun m => rd_kafka_consumer_err m RD_KAFKA_RESP_ERR__BAD_MSG Offset) in
      let? _ := p_read (rd_kafka_buf_skip_to rb message_end) in
      p_ret 0
    else
      let? Key := p_read (rd_kafka_buf_read_bytes rb) in
      let? Value := p_read (rd_kafka_buf_read_bytes rb) in
      let? m := p_state in
      if negb relative_offsets && (Offset <? rktp_fetch_offset m) then p_ret 0
      else if compressed then
        decompress MagicByte Attributes Timestamp Offset (kb_data Value) (RD_KAFKAP_LEN (kb_len Value))
      else
        let rkm := rd_kafka_op_new_fetch_msg Offset (u64 (RD_KAFKAP_LEN (kb_len Key))) (kbytes_data Key)
                     (u64 (RD_KAFKAP_LEN (kb_len Value))) (kbytes_data Value) in
        let rkm :=
          match outer_tstype outer with
          | RD_KAFKA_TIMESTAMP_LOG_APPEND_TIME =>
              msg_set_timestamp rkm RD_KAFKA_TIMESTAMP_LOG_APPEND_TIME (outer_timestamp outer)
          | _ =>
              if (MagicByte >=? 1) && negb (Timestamp =? 0) then
                msg_set_timestamp rkm
                  (if negb (Z.land Attributes RD_KAFKA_MSG_ATTR_LOG_APPEND_TIME =? 0)
                   then RD_KAFKA_TIMESTAMP_LOG_APPEND_TIME else RD_KAFKA_TIMESTAMP_CREATE_TIME) Timestamp
              else msg_set_timestamp rkm RD_KAFKA_TIMESTAMP_NOT_AVAILABLE 0
          end in
        let? _ := p_update (fun m => msetr_add_msg m rkm (mk_kbytes 0 None)) in
        p_ret 0.

Definition rd_kafka_msgset_reader_msg_v0_1 decompress := p_result (msg_v0_1_body decompress).

(** A control message from its key on. *)
Definition ctrl_msg_body (hdr : msgset_v2_hdr) (Offset message_end : Z) : parser Z :=
  let? KeySize := p_read (rd_kafka_buf_read_varint rb) in
  if KeySize <? 2 then p_fail RD_KAFKA_RESP_ERR__BAD_MSG
  else
    let? Version := p_read (rd_kafka_buf_read_i16 rb) in
    if negb (Version =? 0) then
      let? _ := p_read (rd_kafka_buf_skip_to rb message_end) in p_ret 0
    else if negb (KeySize =? 4) then p_fail RD_KAFKA_RESP_ERR__BAD_MSG
    else
      let? Type_ := p_read (rd_kafka_buf_read_i16 rb) in
      let? s := p_slice in
      let? _ := p_read (rd_kafka_buf_skip rb (i32 (u64 (message_end - rd_slice_offset rb s)))) in
      let? m := p_state in
      let? _ :=
        match msetr_aborted_txns m with
        | Some t =>
            if (Type_ =? RD_KAFKA_CTRL_MSG_ABORT) && read_committed conf then
              let? (t, _) := p_some (rd_kafka_aborted_txns_pop_offset t (v2_PID hdr) Offset) in
              p_update (fun m => set_aborted_txns m (Some t))
            else p_ret tt
        | None => p_ret tt
        end in
      let? _ := p_update (fun m => let m := msetr_enq m (rd_kafka_op_new_ctrl_msg Offset) in
                                   set_msgcnt m (i32 (msetr_msgcnt m + 1)) (msetr_msg_bytes m)) in
      p_ret 0.

Definition msg_v2_body (hdr : msgset_v2_hdr) : parser Z :=
  let? Length := p_read (rd_kafka_buf_read_varint rb) in
  let? s := p_slice in
  let message_end := u64 (rd_slice_offset rb s + u64 Length) in
  let? MsgAttributes := p_read (rd_kafka_buf_read_i8 rb) in
  let? TimestampDelta := p_read (rd_kafka_buf_read_varint rb) in
  let? OffsetDelta := p_read (rd_kafka_buf_read_varint rb) in
  let Offset := i64 (v2_BaseOffset hdr + OffsetDelta) in
  let? m := p_state in
  if Offset <? rktp_fetch_offset m then
    let? _ := p_read (rd_kafka_buf_skip_to rb message_end) in p_ret 0
  else if negb (Z.land (v2_Attributes hdr) RD_KAFKA_MSGSET_V2_ATTR_CONTROL =? 0) then
    ctrl_msg_body hdr Offset message_end
  else
    let? Key := p_read (rd_kafka_buf_read_bytes_varint rb) in
    let? Value := p_read (rd_kafka_buf_read_bytes_varint rb) in
    let? s := p_slice in
    let Headers_len := i32 (u64 (message_end - rd_slice_offset rb s)) in
    let? Headers_data := p_read (rd_kafka_buf_read_ptr rb Headers_len) in
    let rkm := rd_kafka_op_new_fetch_msg Offset (u64 (RD_KAFKAP_LEN (kb_len Key))) (kbytes_data Key)
                 (u64 (RD_KAFKAP_LEN (kb_len Value))) (kbytes_data Value) in
    let rkm :=
      if negb (Z.land (v2_Attributes hdr) RD_KAFKA_MSG_ATTR_LOG_APPEND_TIME =? 0)
         || negb (Z.land MsgAttributes RD_KAFKA_MSG_ATTR_LOG_APPEND_TIME =? 0)
      then msg_set_timestamp rkm RD_KAFKA_TIMESTAMP_LOG_APPEND_TIME (v2_MaxTimestamp hdr)
      else msg_set_timestamp rkm RD_KAFKA_TIMESTAMP_CREATE_TIME
             (i64 (v2_BaseTimestamp hdr + TimestampDelta)) in
    let? _ := p_update (fun m => msetr_add_msg m rkm (mk_kbytes Headers_len Headers_data)) in
    p_ret 0.

Definition rd_kafka_msgset_reader_msg_v2 (hdr : msgset_v2_hdr) := p_result (msg_v2_body hdr).

(** The loop over the messages; each takes a byte at least, so the bytes that remain and
    one more round are enough fuel. *)
Fixpoint msgs_v2_loop (n : nat) (hdr : msgset_v2_hdr) (s : rd_slice) (m : rd_kafka_msgset_reader_t)
  : option (rd_slice * rd_kafka_msgset_reader_t * Z) :=
  if rd_kafka_buf_read_remain rb s =? 0 then Some (s, m, 0)
  else
    match n with
    | O => None
    | S n =>
        let* (s, m, err) := rd_kafka_msgset_reader_msg_v2 hdr s m in
        if negb (err =? 0) then Some (s, m, err) else msgs_v2_loop n hdr s m
    end.

(** Whether the message set is part of an aborted transaction. *)
Definition msgset_aborted (hdr : msgset_v2_hdr) (m : rd_kafka_msgset_reader_t) : option bool :=
  match msetr_aborted_txns m with
  | Some t =>
      if Z.land (v2_Attributes hdr)
           (Z.lor RD_KAFKA_MSGSET_V2_ATTR_TRANSACTIONAL RD_KAFKA_MSGSET_V2_ATTR_CONTROL)
         =? RD_KAFKA_MSGSET_V2_ATTR_TRANSACTIONAL
      then
        let* (_, txn_start_offset) := rd_kafka_aborted_txns_get_offset t (v2_PID hdr) in
        Some (negb (txn_start_offset =? -1) && (v2_BaseOffset hdr >=? txn_start_offset))
      else Some false
  | None => Some false
  end.

Definition rd_kafka_msgset_reader_msgs_v2 (hdr : msgset_v2_hdr) (s : rd_slice)
  (m : rd_kafka_msgset_reader_t) : option (rd_slice * rd_kafka_msgset_reader_t * Z) :=
  let* aborted := msgset_aborted hdr m in
  if aborted then
    let* (s, r) := rd_kafka_buf_skip rb (rd_slice_remains rb s) s in
    match r with
    | inl _ => Some (s, set_cnts m (msetr_ctrl_cnt m) (i32 (msetr_aborted_cnt m + 1)), 0)
    | inr err => Some (s, m, err)
    end
  else msgs_v2_loop (Z.to_nat (rd_slice_remains rb s)) hdr s m.

End Messages.

(** ** Message sets *)

(** The magic bytes before a chunk of snappy-java. *)
Definition snappy_java_magic : bytes := [0x82; 83; 78; 65; 80; 80; 89; 0].
Definition snappy_java_hdrlen : Z := 8 + 4 + 4.

Section Reader.
Context (conf : fetch_conf) (cod : codecs) (junk : Z -> Z) (addr : nat -> Z).
Local Open Scope parser_scope.

(** What the compressed data is, or an error. *)
Definition uncompress (codec MsgVersion : Z) (compressed : bytes) : bytes + Z :=
  let or_bad (r : option bytes) := match r with Some d => inl d | None => inr RD_KAFKA_RESP_ERR__BAD_COMPRESSION end in
  if codec =? RD_KAFKA_COMPRESSION_GZIP then or_bad (rd_gz_decompress cod compressed)
  else if codec =? RD_KAFKA_COMPRESSION_SNAPPY then
    or_bad (if (zlen compressed >? snappy_java_hdrlen + 4)
               && bool_decide (take 8 compressed = snappy_java_magic)
            then rd_kafka_snappy_java_uncompress cod (zdrop snappy_java_hdrlen compressed)
            else rd_kafka_snappy_uncompress cod compressed)
  else if codec =? RD_KAFKA_COMPRESSION_LZ4 then rd_kafka_lz4_decompress cod (MsgVersion >=? 1) compressed
  else inr RD_KAFKA_RESP_ERR__NOT_IMPLEMENTED.

(** [run] is [rd_kafka_msgset_reader_run] on a buffer, for a message set inside another.
    The inner reader's ops end up on the outer's queue, where [run] leaves them; the
    partition's fields are shared. *)
Definition reader_run_t : Type :=
  msetr_outer -> rd_buf -> rd_slice -> rd_kafka_msgset_reader_t -> bool -> list fetch_op ->
  option (rd_slice * rd_kafka_msgset_reader_t * list fetch_op * Z).

Definition inner_outer (MsgVersion Attributes Timestamp Offset : Z) : msetr_outer :=
  if MsgVersion =? 1 then
    if negb (Z.land Attributes RD_KAFKA_MSG_ATTR_LOG_APPEND_TIME =? 0)
    then mk_outer true Offset RD_KAFKA_TIMESTAMP_LOG_APPEND_TIME Timestamp
    else mk_outer true Offset RD_KAFKA_TIMESTAMP_NOT_AVAILABLE 0
  else mk_outer false 0 RD_KAFKA_TIMESTAMP_NOT_AVAILABLE 0.

Definition rd_kafka_msgset_reader_init (fetch_offset fetch_msg_max_bytes : Z)
  (aborted_txns : option rd_kafka_aborted_txns) : rd_kafka_msgset_reader_t :=
  mk_msetr [] 0 0 0 0 0 0 fetch_offset fetch_msg_max_bytes aborted_txns.

(** [hdr] is the message set's header for MsgVersion 2. *)
Definition rd_kafka_msgset_reader_decompress (run : reader_run_t) (hdr : option msgset_v2_hdr)
  (MsgVersion Attributes Timestamp Offset : Z) (compressed : option bytes) (compressed_size : Z)
  (m : rd_kafka_msgset_reader_t) : option (rd_kafka_msgset_reader_t * Z) :=
  let codec := Z.land Attributes RD_KAFKA_MSG_ATTR_COMPRESSION_MASK in
  let m := set_compression m codec in
  let* compressed := match compressed with
                     | Some c => Some c
                     | None => if compressed_size =? 0 then Some [] else None
                     end in
  match uncompress codec MsgVersion compressed with
  | inr err => Some (rd_kafka_consumer_err m err Offset, err)
  | inl data =>
      let* (rkbufz, reader) := rd_kafka_buf_new_shadow junk data (Some RD_FREE) in
      match hdr with
      | None =>
          let inner := rd_kafka_msgset_reader_init (rktp_fetch_offset m) (rktp_fetch_msg_max_bytes m) None in
          let* (_, inner, rkq, err) :=
            run (inner_outer MsgVersion Attributes Timestamp Offset) rkbufz reader inner true (msetr_rkq m) in
          let m := set_rkq m rkq in
          let m := set_fetch_max (set_fetch_offset m (rktp_fetch_offset inner)) (rktp_fetch_msg_max_bytes inner) in
          Some (set_msgcnt m (i32 (msetr_msgcnt m + msetr_msgcnt inner))
                  (i64 (msetr_msg_bytes m + msetr_msg_bytes inner)), err)
      | Some hdr =>
          let* (_, m, err) := rd_kafka_msgset_reader_msgs_v2 conf rkbufz hdr reader m in
          Some (m, err)
      end
  end.

(** The header of a message set of MsgVersion 2, up to the messages: the header, the last
    offset and the size of the messages, or [None] after a failed CRC check. *)
Definition v2_header_body (rb : rd_buf) : parser (option (msgset_v2_hdr * Z * Z)) :=
  let? BaseOffset := p_read (rd_kafka_buf_read_i64 rb) in
  let? Length := p_read (rd_kafka_buf_read_i32 rb) in
  let? s := p_slice in
  let len_start := rd_slice_offset rb s in
  if Length <? RD_KAFKAP_MSGSET_V2_SIZE - 8 - 4 then p_fail RD_KAFKA_RESP_ERR__BAD_MSG
  else
    let? _ := p_read (rd_kafka_buf_read_i32 rb) in
    let? _ := p_read (rd_kafka_buf_read_i8 rb) in
    let? Crc := p_read (rd_kafka_buf_read_i32 rb) in
    let crc_len := u64 (Length - 4 - 1 - 4) in
    let? crc_ok :=
      if check_crcs conf then
        let? s := p_slice in
        let? r := p_some (rd_slice_narrow_copy_relative rb s crc_len) in
        match r with
        | SliceErr => let? _ := p_read (rd_kafka_buf_check_len rb crc_len) in p_some None
        | SliceOk c =>
            let? (_, calc_crc) := p_some (rd_slice_crc32c addr rb c) in
            p_ret (u32 Crc =? calc_crc)
        end
      else p_ret true in
    if negb crc_ok then
      let? _ := p_update (fun m => rd_kafka_consumer_err m RD_KAFKA_RESP_ERR__BAD_MSG BaseOffset) in
      let? _ := p_read (rd_kafka_buf_skip_to rb crc_len) in
      p_ret None
    else
      let? Attributes := p_read (rd_kafka_buf_read_i16 rb) in
      let? LastOffsetDelta := p_read (rd_kafka_buf_read_i32 rb) in
      let LastOffset := i64 (BaseOffset + LastOffsetDelta) in
      let? BaseTimestamp := p_read (rd_kafka_buf_read_i64 rb) in
      let? MaxTimestamp := p_read (rd_kafka_buf_read_i64 rb) in
      let? PID := p_read (rd_kafka_buf_read_i64 rb) in
      let? _ := p_read (rd_kafka_buf_read_i16 rb) in
      let? _ := p_read (rd_kafka_buf_read_i32 rb) in
      let? _ := p_read (rd_kafka_buf_read_i32 rb) in
      let? s := p_slice in
      let payload_size := u64 (Length - u64 (rd_slice_offset rb s - len_start)) in
      if payload_size >? rd_kafka_buf_read_remain rb s then p_fail RD_KAFKA_RESP_ERR__UNDERFLOW
      else p_ret (Some (mk_v2_hdr BaseOffset Attributes BaseTimestamp MaxTimestamp PID, LastOffset, payload_size)).

(** The messages of the set; [None] is a failed assertion. *)
Definition v2_payload (run : reader_run_t) (rb : rd_buf) (hdr : msgset_v2_hdr) (payload_size : Z) : parser unit :=
  fun s m =>
  if negb (Z.land (v2_Attributes hdr) RD_KAFKA_MSG_ATTR_COMPRESSION_MASK =? 0) then
    let* (s, compressed) := rd_slice_ensure_contig rb s payload_size in
    let* compressed := compressed in
    let* (m, err) :=
      rd_kafka_msgset_reader_decompress run (Some hdr) 2 (v2_Attributes hdr) (v2_BaseTimestamp hdr)
        (v2_BaseOffset hdr) (Some compressed) payload_size m in
    Some (s, m, if negb (err =? 0) then inr err else inl tt)
  else
    let save_slice := s in
    let* r := rd_slice_narrow_relative rb s payload_size in
    match r with
    | SliceErr => (let? _ := p_read (rd_kafka_buf_check_len rb payload_size) in p_some None) s m
    | SliceOk s =>
        let* (s, m, err) := rd_kafka_msgset_reader_msgs_v2 conf rb hdr s m in
        Some (rd_slice_widen s save_slice, m, if negb (err =? 0) then inr err else inl tt)
    end.

Definition v2_body (run : reader_run_t) (rb : rd_buf) : parser Z :=
  let? h := v2_header_body rb in
  match h with
  | None => p_ret 0
  | Some (hdr, LastOffset, payload_size) =>
      let? m := p_state in
      let? _ :=
        if LastOffset <? rktp_fetch_offset m then p_read (rd_kafka_buf_skip rb payload_size)
        else
          let? _ := p_update (fun m => if negb (Z.land (v2_Attributes hdr) RD_KAFKA_MSGSET_V2_ATTR_CONTROL =? 0)
                                       then set_cnts m (i32 (msetr_ctrl_cnt m + 1)) (msetr_aborted_cnt m)
                                       else m) in
          v2_payload run rb hdr payload_size in
      let? _ := p_update (fun m => set_next_offset m (i64 (LastOffset + 1))) in
      p_ret 0
  end.

Definition rd_kafka_msgset_reader_v2 (run : reader_run_t) (rb : rd_buf) := p_result (v2_body run rb).

(** The MsgVersion, or the return value: an unsupported message set is skipped. *)
Definition peek_body (rb : rd_buf) : parser (Z + Z) :=
  let? s := p_slice in
  let? MagicByte := p_read (rd_kafka_buf_peek_i8 rb (u64 (rd_slice_offset rb s + 8 + 4 + 4))) in
  if (MagicByte <? 0) || (MagicByte >? 2) then
    let? Offset := p_read (rd_kafka_buf_read_i64 rb) in
    let? _ := p_update (fun m =>
                if Offset >=? rktp_fetch_offset m
                then set_fetch_offset (rd_kafka_consumer_err m RD_KAFKA_RESP_ERR__NOT_IMPLEMENTED Offset)
                       (i64 (Offset + 1))
                else m) in
    let? Length := p_read (rd_kafka_buf_read_i32 rb) in
    let? _ := p_read (rd_kafka_buf_skip rb Length) in
    p_ret (inr RD_KAFKA_RESP_ERR__NOT_IMPLEMENTED)
  else p_ret (inl MagicByte).

Definition rd_kafka_msgset_reader_peek_msg_version (rb : rd_buf) (s : rd_slice)
  (m : rd_kafka_msgset_reader_t) : option (rd_slice * rd_kafka_msgset_reader_t * (Z + Z)) :=
  let* (s, m, r) := peek_body rb s m in
  Some (s, m, match r with inl r => r | inr _ => inr RD_KAFKA_RESP_ERR__BAD_MSG end).

(** The loop over the message sets; every round but the last takes a byte at least. *)
Fixpoint reader_sets_loop (n : nat) (run : reader_run_t) (outer : msetr_outer) (rb : rd_buf)
  (s : rd_slice) (m : rd_kafka_msgset_reader_t)
  : option (rd_slice * rd_kafka_msgset_reader_t * Z) :=
  match n with
  | O => None
  | S n =>
      let* (s, m, r) := rd_kafka_msgset_reader_peek_msg_version rb s m in
      match r with
      | inr err =>
          if err =? RD_KAFKA_RESP_ERR__BAD_MSG then Some (s, m, 0)
          else Some (s, m, err)
      | inl MagicByte =>
          let* (s, m, err) :=
            if MagicByte =? 2 then rd_kafka_msgset_reader_v2 run rb s m
            else rd_kafka_msgset_reader_msg_v0_1 conf outer rb
                   (fun v a t o c n s m =>
                      let* (m, err) := rd_kafka_msgset_reader_decompress run None v a t o c n m in
                      Some (s, m, inl err)) s m in
          if (err =? 0) && (rd_slice_remains rb s >? 0) then reader_sets_loop n run outer rb s m
          else Some (s, m, err)
      end
  end.

Definition rd_kafka_msgset_reader (run : reader_run_t) (outer : msetr_outer) (rb : rd_buf) (s : rd_slice)
  (m : rd_kafka_msgset_reader_t) : option (rd_slice * rd_kafka_msgset_reader_t * Z) :=
  reader_sets_loop (S (Z.to_nat (rd_slice_remains rb s))) run outer rb s m.

(** ** The queue of ops *)

(** The last message that is no error. *)
Definition rd_kafka_q_last (q : list fetch_op) : option rd_kafka_msg :=
  list.last (omap (fun rko => match rko with OpFetch rkm _ _ => Some rkm | _ => None end) q).

Definition msg_set_offset (m : rd_kafka_msg) (v : Z) : rd_kafka_msg :=
  msg_set_delivery m (rkm_broker_id m) v (rkm_tstype m) (rkm_timestamp m).

Definition rd_kafka_q_fix_offsets (q : list fetch_op) (min_offset base_offset : Z) : list fetch_op :=
  omap (fun rko => match rko with
                   | OpFetch rkm binhdrs ctrl =>
                       let offset := i64 (rkm_offset rkm + base_offset) in
                       if offset <? min_offset then None
                       else Some (OpFetch (msg_set_offset rkm offset) binhdrs ctrl)
                   | _ => Some rko
                   end) q.

(** The state and the last offset, -1 if there is none. *)
Definition rd_kafka_msgset_reader_postproc (outer : msetr_outer) (m : rd_kafka_msgset_reader_t)
  : rd_kafka_msgset_reader_t * Z :=
  match rd_kafka_q_last (msetr_rkq m) with
  | None => (m, -1)
  | Some rkm =>
      let last_offset := rkm_offset rkm in
      if negb (last_offset =? -1) && outer_relative outer then
        (set_rkq m (rd_kafka_q_fix_offsets (msetr_rkq m) (rktp_fetch_offset m)
                      (i64 (outer_offset outer - last_offset))), last_offset)
      else (m, last_offset)
  end.

(** The outcome when there is no op: the size limit may have been too tight. *)
Definition run_no_ops (m : rd_kafka_msgset_reader_t) (err : Z) : rd_kafka_msgset_reader_t * Z :=
  let no_underflow := if err =? RD_KAFKA_RESP_ERR__UNDERFLOW then 0 else err in
  if msetr_ctrl_cnt m >? 0 then (m, no_underflow)
  else if rktp_fetch_msg_max_bytes m <? Z.shiftl 1 30 then
    (set_fetch_max m (i32 (rktp_fetch_msg_max_bytes m * 2)), no_underflow)
  else if (err =? 0) && (msetr_aborted_cnt m =? 0) then
    (rd_kafka_consumer_err m RD_KAFKA_RESP_ERR_MSG_SIZE_TOO_LARGE (rktp_fetch_offset m), err)
  else if msetr_aborted_cnt m >? 0 then (m, no_underflow)
  else (m, err).

(** [par_rkq] is the queue the ops go to, if it is [ready].  The results are the read
    position, the reader's state, that queue and the return value.  [depth] bounds the
    nesting of compressed message sets, which the stack bounds. *)
Fixpoint rd_kafka_msgset_reader_run (depth : nat) (outer : msetr_outer) (rb : rd_buf) (s : rd_slice)
  (m : rd_kafka_msgset_reader_t) (ready : bool) (par_rkq : list fetch_op)
  : option (rd_slice * rd_kafka_msgset_reader_t * list fetch_op * Z) :=
  match depth with
  | O => None
  | S depth =>
      let* (s, m, err) := rd_kafka_msgset_reader (rd_kafka_msgset_reader_run depth) outer rb s m in
      let '(m, err, last_offset) :=
        match msetr_rkq m with
        | [] => let '(m, err) := run_no_ops m err in (m, err, -1)
        | _ =>
            let '(m, last_offset) := rd_kafka_msgset_reader_postproc outer m in
            (m, if (err =? RD_KAFKA_RESP_ERR__UNDERFLOW) && (msetr_msgcnt m >? 0) then 0 else err, last_offset)
        end in
      let '(par_rkq, m) :=
        if ready || bool_decide (msetr_rkq m = []) then
          (par_rkq ++ msetr_rkq m,
           if negb (last_offset =? -1) then set_fetch_offset m (i64 (last_offset + 1)) else m)
        else (par_rkq, m) in
      let m := if msetr_next_offset m >? rktp_fetch_offset m
               then set_fetch_offset m (msetr_next_offset m) else m in
      let* (s, _, _) := rd_slice_read rb s (rd_slice_remains rb s) in
      Some (s, m, par_rkq, err)
  end.

(** The read position, the partition's fetch offset, its fetch size and the aborted
    transactions in the reader, the fetch queue and the return value. *)
Definition rd_kafka_msgset_parse (depth : nat) (rb : rd_buf) (s : rd_slice)
  (fetch_offset fetch_msg_max_bytes : Z) (aborted_txns : option rd_kafka_aborted_txns)
  (ready : bool) (fetchq : list fetch_op) :=
  rd_kafka_msgset_reader_run depth (mk_outer false 0 RD_KAFKA_TIMESTAMP_NOT_AVAILABLE 0) rb s
    (rd_kafka_msgset_reader_init fetch_offset fetch_msg_max_bytes aborted_txns) ready fetchq.

End Reader.

(** ** Headers, parsed on the first access (src/cbits/hs_rdkafka_msg.c) *)

Section Headers.
Context (junk : Z -> Z).
Local Open Scope reader_scope.

(** A header's name and value, NULL for the length -1. *)
Definition read_header (rb : rd_buf) : reader (option bytes * option (option bytes)) :=
  let! KeyLen := rd_kafka_buf_read_varint rb in
  let! Key := rd_kafka_buf_read_ptr rb KeyLen in
  let! ValueLen := rd_kafka_buf_read_varint rb in
  if ValueLen =? -1 then r_ret (Key, None)
  else let! Value := rd_kafka_buf_read_ptr rb ValueLen in r_ret (Key, Some Value).

(** The data of a header that is there is contiguous: a shadow buffer has one segment. *)
Fixpoint headers_parse_loop (n : nat) (rb : rd_buf) (hdrs : rd_kafka_headers) : reader rd_kafka_headers :=
  match n with
  | O => r_ret hdrs
  | S n => fun s =>
      let* (s, r) := read_header rb s in
      match r with
      | inr err => Some (s, inr err)
      | inl (Key, Value) =>
          let* Key := Key in
          let* Value := match Value with
                        | None => Some None
                        | Some Value => let* Value := Value in Some (Some Value)
                        end in
          let* hdrs := rd_kafka_header_add hdrs Key Value in
          headers_parse_loop n rb hdrs s
      end
  end.

(** [rkm_headers], or the error. *)
Definition rd_kafka_msg_headers_parse (binhdrs : kafkap_bytes) : option (rd_kafka_headers + Z) :=
  let len := RD_KAFKAP_LEN (kb_len binhdrs) in
  if len =? 0 then Some (inr RD_KAFKA_RESP_ERR__NOENT)
  else
    let* data := kb_data binhdrs in
    let* (rb, s) := rd_kafka_buf_new_shadow junk data None in
    let* (s, r) := rd_kafka_buf_read_varint rb s in
    match r with
    | inr err => Some (inr err)
    | inl HeaderCount =>
        if HeaderCount <=? 0 then Some (inr RD_KAFKA_RESP_ERR__NOENT)
        else if HeaderCount >? 100000 then Some (inr RD_KAFKA_RESP_ERR__BAD_MSG)
        else
          let* (_, r) := headers_parse_loop (Z.to_nat HeaderCount) rb rd_kafka_headers_new s in
          Some r
    end.

End Headers.
