(* ===== verification/ReadFacts.v ===== *)
(** * Reading from contiguous data

    What a received buffer is: the slice and the data it covers lie in one segment.  A
    reader then takes its bytes off the front of what is left ([window]), or fails. *)

From S2P Require Import Prelude Varint RdBuf Slice SliceFacts Crc KafkaBuf KafkaBufFacts RecordBatch.

(** ** The window of a slice *)

(** The slice [s] covers the offsets [st..en) of the segment [i], stands at [pos], and
    [r] is what is left. *)
Record window (rb : rd_buf) (i : nat) (seg : rd_segment) (st en : Z) (s : rd_slice) (pos : Z)
  (r : bytes) : Prop := {
  wd_seg : sl_seg s = Some i /\ rbuf_segments rb !! i = Some seg;
  wd_ends : sl_start s = st /\ sl_end s = en;
  wd_rof : seg_absof seg + sl_rof s = pos;
  wd_in : 0 <= seg_absof seg /\ seg_absof seg <= st <= pos /\ pos <= en <= seg_absof seg + seg_of seg /\
          seg_absof seg + seg_of seg < 2 ^ 62;
  wd_mem : seg_of seg <= zlen (seg_p seg) /\ en <= rbuf_len rb;
  wd_after : Forall (fun x => en <= seg_absof x) (drop (S i) (rbuf_segments rb));
  wd_rest : r = sub (seg_p seg) (pos - seg_absof seg) (en - pos) }.

Section Window.
Context (rb : rd_buf) (i : nat) (seg : rd_segment) (st en : Z).
Abbreviation win := (window rb i seg st en).

Lemma win_len s pos r : win s pos r -> zlen r = en - pos.
Proof. intros [_ _ _ (? & ? & ? & _) Hm _ ->]. unfold sub. zlen_lia. Qed.

Lemma win_seg s pos r : win s pos r -> slice_seg rb s = Some seg.
Proof. intros [[E1 E2] _ _ _ _ _ _]. unfold slice_seg. now rewrite E1. Qed.

Lemma win_abs s pos r : win s pos r -> rd_slice_abs_offset rb s = pos.
Proof.
  intros H. unfold rd_slice_abs_offset. rewrite (win_seg _ _ _ H).
  destruct H as [_ _ <- ? _ _ _]. apply wrap_small; lia.
Qed.

Lemma win_remains s pos r : win s pos r -> rd_slice_remains rb s = zlen r.
Proof.
  intros H. unfold rd_slice_remains. rewrite (win_abs _ _ _ H), (win_len _ _ _ H).
  destruct H as [_ [_ ->] _ ? _ _ _]. apply wrap_small; lia.
Qed.

Lemma win_offset s pos r : win s pos r -> rd_slice_offset rb s = pos - st.
Proof.
  intros H. unfold rd_slice_offset. rewrite (win_seg _ _ _ H).
  destruct H as [_ [-> _] <- ? _ _ _]. apply wrap_small; lia.
Qed.

(** The slice after [n] bytes. *)
Lemma win_at s pos r n :
  win s pos r -> 0 <= n <= zlen r ->
  win (slice_set_pos s i (sl_rof s + n)) (pos + n) (zdrop n r).
Proof.
  intros H Hn. rewrite (win_len _ _ _ H) in Hn. destruct H as [[E1 E2] [E3 E4] E5 E6 E7 E8 ->].
  constructor; cbn; auto; try lia. unfold sub. rewrite zdrop_take, zdrop_drop by lia.
  f_equal; [lia |]. f_equal. lia.
Qed.

(** A chunk is all that is left up to the slice's end. *)
Lemma win_reader s pos r n :
  win s pos r -> 0 < n <= zlen r ->
  let s1 := slice_set_end s (pos + n) in
  rd_slice_reader rb s1 = Some (slice_set_pos s1 i (sl_rof s + n), ztake n r).
Proof.
  intros H Hn s1. pose proof (win_len _ _ _ H) as Hl. destruct H as [[E1 E2] [E3 E4] E5 E6 E7 E8 ->].
  unfold rd_slice_reader, rd_slice_reader0. cbn [s1 slice_set_end sl_seg sl_rof sl_end sl_start].
  rewrite E1. rewrite (drop_S _ _ _ E2). cbn [reader_seek].
  replace (seg_of seg =? sl_rof s) with false by lia. rewrite andb_false_r.
  rewrite Z.geb_leb. ztest. rewrite Nat.eqb_refl. cbn [negb].
  assert (rd_slice_remains rb s1 = n) as ->.
  { unfold rd_slice_remains, rd_slice_abs_offset, slice_seg. cbn [s1 slice_set_end sl_seg sl_rof sl_end].
    rewrite E1, E2, (wrap_small 64 (seg_absof seg + sl_rof s)), wrap_small by lia. lia. }
  rewrite RD_MIN_min, wrap_small by lia. replace (Z.min _ _) with n by lia.
  unfold sub. rewrite ztake_take. replace (Z.min n (en - pos)) with n by lia.
  replace (pos - seg_absof seg) with (sl_rof s) by lia. reflexivity.
Qed.

Lemma win_reader_end s pos r :
  win s pos r -> rd_slice_reader rb (slice_set_end s pos) = Some (slice_set_end s pos, []).
Proof.
  intros [[E1 E2] [E3 E4] E5 E6 E7 _ _]. unfold rd_slice_reader, rd_slice_reader0.
  cbn [slice_set_end sl_seg sl_rof sl_end sl_start]. rewrite E1, (drop_S _ _ _ E2). cbn [reader_seek].
  replace (seg_absof seg + sl_rof s <? pos) with false by lia. cbn [andb]. rewrite Z.geb_leb. ztest.
  reflexivity.
Qed.

(** Folding over the chunks of the next [n] bytes sees one chunk, or none. *)
Lemma win_loop {A} (f : A -> bytes -> A) acc s pos r n :
  win s pos r -> 0 <= n <= zlen r ->
  reader_loop rb (reader_fuel rb) f acc (slice_set_end s (pos + n)) =
  Some (slice_set_end (slice_set_pos s i (sl_rof s + n)) (pos + n),
        match ztake n r with [] => acc | p => f acc p end).
Proof.
  intros H Hn. unfold reader_fuel. cbn [reader_loop]. destruct (Z.eq_dec n 0) as [-> |].
  - rewrite !Z.add_0_r. rewrite (win_reader_end _ _ _ H), ztake_nonpos by lia. do 2 f_equal.
    destruct H as [[E1 _] _ _ _ _ _ _]. destruct s. cbn in *. now rewrite E1.
  - rewrite (win_reader _ _ _ n H) by lia.
    assert (zlen (ztake n r) = n) as Hl by zlen_lia.
    destruct (ztake n r) as [| x l] eqn:E; [cbn in Hl; lia |].
    change (slice_set_pos (slice_set_end s (pos + n)) i (sl_rof s + n))
      with (slice_set_end (slice_set_pos s i (sl_rof s + n)) (pos + n)).
    pose proof (win_at _ _ _ n H ltac:(lia)) as H1. now rewrite (win_reader_end _ _ _ H1).
Qed.

Lemma win_read s pos r n :
  win s pos r -> 0 <= n ->
  rd_slice_read rb s n =
  if n <=? zlen r then Some (slice_set_pos s i (sl_rof s + n), n, ztake n r) else Some (s, 0, []).
Proof.
  intros H Hn. unfold rd_slice_read. rewrite (win_remains _ _ _ H), (win_abs _ _ _ H).
  destruct (Z.leb_spec n (zlen r)); ztest; [| reflexivity].
  pose proof (win_len _ _ _ H). rewrite wrap_small by (destruct H; lia).
  rewrite (win_loop _ _ _ _ _ n H) by lia. destruct (ztake n r); reflexivity.
Qed.

Lemma win_contig s pos r n :
  win s pos r -> 0 <= n ->
  rd_slice_ensure_contig rb s n =
  if n <=? zlen r then Some (slice_set_pos s i (sl_rof s + n), Some (ztake n r)) else Some (s, None).
Proof.
  intros H Hn. unfold rd_slice_ensure_contig. rewrite (win_remains _ _ _ H), (win_seg _ _ _ H).
  destruct (Z.leb_spec n (zlen r)); ztest; [| reflexivity].
  pose proof (win_len _ _ _ H) as Hl. rewrite (win_read _ _ _ n H) by lia. ztest.
  destruct H as [[E1 E2] [E3 E4] E5 E6 E7 E8 ->]. rewrite wrap_small by lia. ztest. do 3 f_equal. unfold sub. rewrite ztake_take.
  f_equal; [lia |]. f_equal. lia.
Qed.

(** Narrowing to the next [n] bytes. *)
Lemma win_narrow s pos r n :
  win s pos r -> 0 <= n <= zlen r ->
  rd_slice_narrow_relative rb s n = Some (SliceOk (slice_set_end s (pos + n))) /\
  rd_slice_narrow_copy_relative rb s n = Some (SliceOk (slice_set_end s (pos + n))) /\
  window rb i seg st (pos + n) (slice_set_end s (pos + n)) pos (ztake n r).
Proof.
  intros H Hn. pose proof (win_len _ _ _ H) as Hl.
  unfold rd_slice_narrow_relative, rd_slice_narrow_copy_relative, rd_slice_narrow, rd_slice_narrow_copy.
  rewrite (win_offset _ _ _ H).
  assert (rd_slice_abs_offset rb (slice_set_end s (pos + n)) = pos) as Ha
    by (pose proof (win_abs _ _ _ H) as Ha; unfold rd_slice_abs_offset in *;
        change (slice_seg rb (slice_set_end s (pos + n))) with (slice_seg rb s);
        rewrite (win_seg _ _ _ H) in *; exact Ha).
  destruct H as [[E1 E2] [E3 E4] E5 E6 E7 E8 ->]. rewrite E3, E4, (wrap_small 64 (pos - st + n)) by lia.
  rewrite (wrap_small 64 (st + _)) by lia.
  replace (st + (pos - st + n)) with (pos + n) by lia.
  rewrite Z.gtb_ltb. ztest. rewrite Ha. cbn [slice_set_end sl_end]. ztest.
  split; [reflexivity |]. split; [reflexivity |]. constructor; cbn; auto; try lia.
  - eapply list.Forall_impl; [exact E8 |]. cbn. intros x Hx. lia.
  - unfold sub. rewrite ztake_take. f_equal. lia.
Qed.

Lemma win_narrow_err s pos r n :
  win s pos r -> zlen r < n < 2 ^ 62 ->
  rd_slice_narrow_relative rb s n = Some SliceErr /\ rd_slice_narrow_copy_relative rb s n = Some SliceErr.
Proof.
  intros H Hn. pose proof (win_len _ _ _ H) as Hl.
  unfold rd_slice_narrow_relative, rd_slice_narrow_copy_relative, rd_slice_narrow, rd_slice_narrow_copy.
  rewrite (win_offset _ _ _ H). destruct H as [[E1 E2] [E3 E4] E5 E6 E7 E8 ->].
  rewrite E3, E4, (wrap_small 64 (pos - st + n)), wrap_small by lia.
  rewrite Z.gtb_ltb. ztest. auto.
Qed.

(** Peeking [n] bytes from the offset [o] of the window. *)
Lemma win_peek s pos r o n :
  win s pos r -> pos - st <= o < 2 ^ 63 -> 0 <= n ->
  rd_slice_peek rb s o n =
  if (o <? en - st) && (o + n <=? en - st) then Some (n, ztake n (zdrop (o - (pos - st)) r)) else Some (0, []).
Proof.
  intros H Ho Hn. pose proof (win_len _ _ _ H) as Hl.
  assert (o < en - st -> win (slice_set_pos s i (sl_rof s + (o - (pos - st)))) (st + o)
    (zdrop (o - (pos - st)) r)) as Hat.
  { intros Hlt. pose proof (win_at _ _ _ (o - (pos - st)) H ltac:(lia)) as H1.
    replace (pos + (o - (pos - st))) with (st + o) in H1 by lia. exact H1. }
  unfold rd_slice_peek, rd_slice_seek. pose proof H as [[E1 E2] [E3 E4] E5 E6 E7 E8 _].
  rewrite E3, E4, wrap_small, Z.geb_leb by lia.
  destruct (Z.leb_spec en (st + o)) as [Hge | Hlt]; cbn [Z.eqb]; [ztest; reflexivity |].
  specialize (Hat ltac:(lia)). rewrite E1.
  assert (rd_buf_get_segment_at_offset rb (Some i) (st + o) = Some i) as ->.
  { unfold rd_buf_get_segment_at_offset. rewrite E2, Z.geb_leb. ztest. rewrite (drop_S _ _ _ E2).
    cbn [offset_scan]. rewrite Z.geb_leb. ztest. reflexivity. }
  rewrite E2. replace (st + o - seg_absof seg) with (sl_rof s + (o - (pos - st))) by lia.
  cbn [slice_set_pos sl_rof sl_start sl_end]. rewrite E3, E4, !Z.geb_leb. ztest. cbn [andb rd_assert].
  change (0 =? -1) with false. cbn match.
  rewrite (win_read _ _ _ n Hat) by lia. rewrite zlen_drop.
  destruct (Z.leb_spec (o + n) (en - st)); ztest; reflexivity.
Qed.

(** The varints: the segment may go on behind the slice, which the reader minds. *)
Lemma win_uvarint s pos r :
  win s pos r ->
  match rd_uvarint_dec r with
  | None => rd_slice_read_uvarint rb s = None
  | Some (n, None) => n = 0 /\ rd_slice_read_uvarint rb s = Some (s, 0, None)
  | Some (n, Some v) => rd_slice_read_uvarint rb s = Some (slice_set_pos s i (sl_rof s + n), n, Some v) /\
                        1 <= n <= zlen r
  end.
Proof.
  intros H. pose proof (win_len _ _ _ H) as Hl. destruct H as [[E1 E2] [E3 E4] E5 E6 E7 E8 Er].
  unfold rd_slice_read_uvarint, rd_uvarint_dec. rewrite E1, (drop_S _ _ _ E2). cbn [uvarint_segs].
  rewrite E4. set (data := zdrop (sl_rof s) (ztake (seg_of seg) (seg_p seg))).
  assert (ztake (en - (seg_absof seg + sl_rof s)) data = r) as Hd.
  { unfold data. rewrite Er, zdrop_take, ztake_take by lia. unfold sub. f_equal; [lia |]. f_equal. lia. }
  pose proof (uvarint_bytes_spec data [] (seg_absof seg) (sl_rof s) en 0 0 ltac:(lia) ltac:(lia)) as Hb.
  change (7 * 0) with 0 in Hb. rewrite app_nil_r, Hd in Hb. cbv zeta in Hb.
  assert (zlen data = seg_of seg - sl_rof s) as Hdl by (unfold data; zlen_lia).
  destruct (uvarint_bytes data _ _ _ _ _) as [[num rof shift | num shift |] |].
  - destruct Hb as (k & Hk & -> & Hlt & -> & ->).
    replace (7 * (0 + k + 1) / 7) with (k + 1) by (rewrite Z.mul_comm, Z.div_mul; lia).
    split; [| lia]. replace (0 + k + 1) with (k + 1) by lia. replace (sl_rof s + k + 1) with (sl_rof s + (k + 1)) by lia.
    reflexivity.
  - destruct Hb as (-> & Hle & ->). rewrite ztake_nonpos by lia. cbn [uvarint_dec_loop].
    split; [reflexivity |]. revert E8. generalize (drop (S i) (rbuf_segments rb)) as l. generalize (S i) as j.
    intros j l Hf. revert j. induction Hf as [| x l Hx _ IH]; intros j; [reflexivity |]. cbn [uvarint_segs].
    destruct (zdrop 0 (ztake (seg_of x) (seg_p x))) as [| b d]; cbn [uvarint_bytes]; [apply IH |].
    rewrite Z.geb_leb. ztest. reflexivity.
  - rewrite Hb. auto.
  - now rewrite Hb.
Qed.

(** ** Readers that find what they look for *)

Lemma win_next s pos a r :
  win s pos (a ++ r) -> win (slice_set_pos s i (sl_rof s + zlen a)) (pos + zlen a) r.
Proof.
  intros H. pose proof (win_at s pos _ (zlen a) H ltac:(zlen_lia)) as H1.
  now rewrite zdrop_app, zdrop_all, Z.sub_diag, zdrop_nonpos in H1 by lia.
Qed.

Lemma win_bound s pos r : win s pos r -> zlen r < 2 ^ 62.
Proof. intros H. rewrite (win_len _ _ _ H). destruct H. lia. Qed.

Lemma read_or_check_ok s pos a r n :
  win s pos (a ++ r) -> n = zlen a ->
  exists s', read_or_check rb n s = Some (s', inl a) /\ win s' (pos + n) r.
Proof.
  intros H ->. pose proof (win_next s pos a r H) as H1.
  pose proof (win_len _ _ _ H) as Hl. rewrite zlen_app in Hl.
  unfold read_or_check. rewrite (win_read s pos _ (zlen a) H), zlen_app by lia. ztest.
  rewrite ztake_app, ztake_all, Z.sub_diag, ztake_nonpos, app_nil_r by lia.
  set (s1 := slice_set_pos _ _ _) in *.
  eexists. split; [| exact H1]. destruct (zlen a =? 0) eqn:E; [| reflexivity].
  unfold r_bind, rd_kafka_buf_check_len, r_ret. apply Z.eqb_eq in E. rewrite E.
  rewrite wrap_small by lia. unfold rd_kafka_buf_read_remain.
  rewrite (win_remains _ _ _ H1). now ztest.
Qed.

Lemma buf_read_ok s pos a r n :
  win s pos (a ++ r) -> n = zlen a ->
  exists s', rd_kafka_buf_read rb n s = Some (s', inl a) /\ win s' (pos + n) r.
Proof.
  intros H Hn. pose proof (win_bound _ _ _ H) as Hb. rewrite zlen_app in Hb. unfold rd_kafka_buf_read.
  rewrite wrap_small by lia. now apply read_or_check_ok.
Qed.

Lemma buf_skip_ok s pos a r n :
  win s pos (a ++ r) -> n = zlen a ->
  exists s', rd_kafka_buf_skip rb n s = Some (s', inl tt) /\ win s' (pos + n) r.
Proof.
  intros H ->. pose proof (win_bound _ _ _ H) as Hb. rewrite zlen_app in Hb. unfold rd_kafka_buf_skip.
  rewrite wrap_small by lia. destruct (Z.eqb_spec (zlen a) 0) as [E | E].
  - destruct a; [| cbn in E; lia]. exists s. split; [reflexivity |]. cbn [length app] in *. now rewrite Z.add_0_r.
  - destruct (read_or_check_ok s pos a r _ H eq_refl) as (s' & E1 & H1). exists s'. split; [| exact H1].
    unfold r_bind. now rewrite E1.
Qed.

(** A read of more than what is left. *)
Lemma check_len_short s pos r n :
  win s pos r -> zlen r < n < 2 ^ 63 ->
  rd_kafka_buf_check_len rb n s = Some (s, inr RD_KAFKA_RESP_ERR__UNDERFLOW).
Proof.
  intros H Hn. unfold rd_kafka_buf_check_len, rd_kafka_buf_read_remain.
  rewrite (win_remains _ _ _ H), wrap_small by lia. now ztest.
Qed.

Lemma buf_read_short s pos r n :
  win s pos r -> zlen r < n < 2 ^ 63 ->
  rd_kafka_buf_read rb n s = Some (s, inr RD_KAFKA_RESP_ERR__UNDERFLOW).
Proof.
  intros H Hn. unfold rd_kafka_buf_read, read_or_check. rewrite wrap_small by lia.
  rewrite (win_read _ _ _ n H) by lia. ztest. unfold r_bind.
  now rewrite (check_len_short _ _ _ _ H) by lia.
Qed.

Lemma int_dec n v : in_i (8 * Z.of_nat n) v -> (0 < n)%nat ->
  swrap (8 * Z.of_nat n) (be_dec (be_enc n v)) = v.
Proof.
  intros Hv Hn. rewrite be_dec_enc. replace (256 ^ Z.of_nat n) with (2 ^ (8 * Z.of_nat n))
    by (rewrite Z.pow_mul_r by lia; reflexivity).
  change (v mod 2 ^ (8 * Z.of_nat n)) with (wrap (8 * Z.of_nat n) v).
  rewrite swrap_wrap by lia. apply swrap_small; [lia | assumption].
Qed.

(** A number of [8 * n] bits. *)
Lemma buf_read_int n (k : bytes -> Z) s pos v r :
  (forall b, k b = swrap (8 * Z.of_nat n) (be_dec b)) -> (0 < n)%nat -> in_i (8 * Z.of_nat n) v ->
  win s pos (be_enc n v ++ r) ->
  exists s', r_bind (rd_kafka_buf_read rb (Z.of_nat n)) (fun b => r_ret (k b)) s = Some (s', inl v) /\
    win s' (pos + Z.of_nat n) r.
Proof.
  intros Hk Hn Hv H. destruct (buf_read_ok s pos (be_enc n v) r (Z.of_nat n) H) as (s' & E & H1).
  { now rewrite length_be_enc. }
  exists s'. split; [| exact H1]. unfold r_bind, r_ret. rewrite E, Hk. now rewrite int_dec.
Qed.

Lemma read_i64_ok s pos v r :
  in_i 64 v -> win s pos (be_enc 8 v ++ r) ->
  exists s', rd_kafka_buf_read_i64 rb s = Some (s', inl v) /\ win s' (pos + 8) r.
Proof. intros Hv H. now apply (buf_read_int 8 (fun b => i64 (be_dec b))) with (v := v); try lia. Qed.

Lemma read_i32_ok s pos v r :
  in_i 32 v -> win s pos (be_enc 4 v ++ r) ->
  exists s', rd_kafka_buf_read_i32 rb s = Some (s', inl v) /\ win s' (pos + 4) r.
Proof. intros Hv H. now apply (buf_read_int 4 (fun b => i32 (be_dec b))) with (v := v); try lia. Qed.

Lemma read_i16_ok s pos v r :
  in_i 16 v -> win s pos (be_enc 2 v ++ r) ->
  exists s', rd_kafka_buf_read_i16 rb s = Some (s', inl v) /\ win s' (pos + 2) r.
Proof. intros Hv H. now apply (buf_read_int 2 (fun b => i16 (be_dec b))) with (v := v); try lia. Qed.

Lemma read_i8_ok s pos v r :
  in_i 8 v -> win s pos (be_enc 1 v ++ r) ->
  exists s', rd_kafka_buf_read_i8 rb s = Some (s', inl v) /\ win s' (pos + 1) r.
Proof. intros Hv H. now apply (buf_read_int 1 (fun b => i8 (be_dec b))) with (v := v); try lia. Qed.

Lemma read_int_short n (k : bytes -> Z) s pos r :
  win s pos r -> zlen r < n < 2 ^ 63 ->
  r_bind (rd_kafka_buf_read rb n) (fun b => r_ret (k b)) s = Some (s, inr RD_KAFKA_RESP_ERR__UNDERFLOW).
Proof. intros H Hn. unfold r_bind. now rewrite (buf_read_short _ _ _ _ H Hn). Qed.

Lemma dec_zvarint v r :
  in_i 64 v -> rd_uvarint_dec (zvarint v ++ r) = Some (zlen (zvarint v), Some (zigzag v)).
Proof.
  intros Hv. unfold zvarint. rewrite uvarint_dec_digits by (now apply zigzag_range).
  now rewrite length_leb128.
Qed.

Lemma slice_varint_ok s pos v r :
  in_i 64 v -> win s pos (zvarint v ++ r) ->
  exists s', rd_slice_read_varint rb s = Some (s', zlen (zvarint v), Some v) /\
    win s' (pos + zlen (zvarint v)) r.
Proof.
  intros Hv H. pose proof (win_uvarint _ _ _ H) as Hu. rewrite dec_zvarint in Hu by assumption.
  destruct Hu as [Hu [Hu1 _]]. pose proof (win_next _ _ _ _ H) as H1. eexists. split; [| exact H1].
  unfold rd_slice_read_varint. rewrite Hu. rewrite Z.gtb_ltb. ztest.
  rewrite zigzag_casts by (now apply zigzag_range). now rewrite zigzag_dec_enc.
Qed.

Lemma read_varint_ok s pos v r :
  in_i 64 v -> win s pos (zvarint v ++ r) ->
  exists s', rd_kafka_buf_read_varint rb s = Some (s', inl v) /\ win s' (pos + zlen (zvarint v)) r.
Proof.
  intros Hv H. destruct (slice_varint_ok s pos v r Hv H) as (s' & E & H1). exists s'.
  split; [| exact H1]. unfold rd_kafka_buf_read_varint. rewrite E.
  pose proof (zvarint_range v Hv). unfold RD_UVARINT_UNDERFLOW. now ztest.
Qed.

Lemma read_ptr_ok s pos a r n :
  win s pos (a ++ r) -> n = zlen a ->
  exists s', rd_kafka_buf_read_ptr rb n s = Some (s', inl (Some a)) /\ win s' (pos + n) r.
Proof.
  intros H ->. pose proof (win_bound _ _ _ H) as Hb. rewrite zlen_app in Hb.
  pose proof (win_next _ _ _ _ H) as H1. eexists. split; [| exact H1].
  unfold rd_kafka_buf_read_ptr, contig_or_check. rewrite wrap_small by lia.
  rewrite (win_contig _ _ _ _ H), zlen_app by lia. ztest.
  now rewrite ztake_app, ztake_all, Z.sub_diag, ztake_nonpos, app_nil_r by lia.
Qed.

(** A length and the data, or a null. *)
Lemma read_bytes_varint_ok s pos o r :
  opt_len o < 2 ^ 31 -> win s pos (kv_bytes o ++ r) ->
  exists s', rd_kafka_buf_read_bytes_varint rb s = Some (s', inl (mk_kbytes (opt_len o) o)) /\
    win s' (pos + zlen (kv_bytes o)) r.
Proof.
  intros Ho H. unfold rd_kafka_buf_read_bytes_varint, r_bind, kv_bytes in *.
  destruct o as [b |]; cbn [opt_len] in *.
  - rewrite <- app_assoc in H. rewrite zlen_app.
    destruct (read_varint_ok s pos (zlen b) _ ltac:(unfold in_i; lia) H) as (s1 & -> & H1).
    unfold read_bytes_data. rewrite swrap_small by (unfold in_i; lia). ztest.
    destruct (Z.eqb_spec (zlen b) 0) as [E | E].
    + destruct b; [| cbn in E; lia]. exists s1. split; [reflexivity |].
      cbn [length app] in *. now rewrite Z.add_0_r.
    + destruct (read_ptr_ok s1 _ b r (zlen b) H1 eq_refl) as (s2 & E2 & H2). exists s2.
      unfold rd_kafka_buf_read_ptr in E2. unfold r_bind. rewrite E2. rewrite Z.add_assoc. auto.
  - destruct (read_varint_ok s pos (-1) _ ltac:(unfold in_i; lia) H) as (s1 & -> & H1).
    exists s1. auto.
Qed.

(** ** Readers of any data

    Whatever the bytes are, a reader returns: it moves on in the window, or it fails with
    an error. *)

Definition safe {A} (m : reader A) : Prop := forall s pos r, win s pos r ->
  exists s' x, m s = Some (s', x) /\
    match x with inl _ => exists pos' r', win s' pos' r' | inr e => e <> 0 end.

Lemma safe_ret {A} (x : A) : safe (r_ret x).
Proof. intros s pos r H. exists s, (inl x). split; [reflexivity |]. now exists pos, r. Qed.

Lemma safe_fail {A} e : e <> 0 -> safe (@r_fail A e).
Proof. intros He s pos r H. exists s, (inr e). split; [reflexivity | exact He]. Qed.

Lemma safe_bind {A B} (m : reader A) (k : A -> reader B) :
  safe m -> (forall x, safe (k x)) -> safe (r_bind m k).
Proof.
  intros Hm Hk s pos r H. destruct (Hm s pos r H) as (s1 & [x | e] & E & H1); unfold r_bind; rewrite E.
  - destruct H1 as (pos1 & r1 & H1). now apply (Hk x s1 pos1 r1).
  - exists s1, (inr e). auto.
Qed.

Lemma safe_read_or_check n : 0 <= n < 2 ^ 64 -> safe (read_or_check rb n).
Proof.
  intros Hn s pos r H. destruct (Z.leb_spec n (zlen r)).
  - rewrite <- (ztake_drop n r) in H.
    destruct (read_or_check_ok s pos _ _ n H) as (s' & E & H'); [zlen_lia |].
    exists s', (inl (ztake n r)). split; [exact E |]. now exists (pos + n), (zdrop n r).
  - unfold read_or_check. rewrite (win_read _ _ _ n H) by lia. ztest. unfold r_bind, rd_kafka_buf_check_len.
    unfold rd_kafka_buf_read_remain. rewrite (win_remains _ _ _ H), wrap_small by lia. ztest.
    do 2 eexists. split; [reflexivity |]. discriminate.
Qed.

Lemma safe_read n : safe (rd_kafka_buf_read rb n).
Proof. apply safe_read_or_check. now apply wrap_range. Qed.

Lemma safe_skip n : safe (rd_kafka_buf_skip rb n).
Proof.
  unfold rd_kafka_buf_skip. destruct (_ =? 0); [apply safe_ret |].
  apply safe_bind; [apply safe_read_or_check; now apply wrap_range | intros; apply safe_ret].
Qed.

Lemma safe_int n (k : bytes -> Z) : safe (r_bind (rd_kafka_buf_read rb n) (fun b => r_ret (k b))).
Proof. apply safe_bind; [apply safe_read | intros; apply safe_ret]. Qed.

Lemma safe_i64 : safe (rd_kafka_buf_read_i64 rb).
Proof. apply safe_int. Qed.
Lemma safe_i32 : safe (rd_kafka_buf_read_i32 rb).
Proof. apply safe_int. Qed.
Lemma safe_i16 : safe (rd_kafka_buf_read_i16 rb).
Proof. apply safe_int. Qed.
Lemma safe_i8 : safe (rd_kafka_buf_read_i8 rb).
Proof. apply safe_int. Qed.

Lemma safe_skip_str : safe (rd_kafka_buf_skip_str rb).
Proof. apply safe_bind; [apply safe_i16 | intros; apply safe_skip]. Qed.

Lemma safe_contig n : safe (contig_or_check rb n).
Proof.
  intros s pos r H. unfold contig_or_check. pose proof (wrap_range 64 n ltac:(lia)) as Hn.
  rewrite (win_contig _ _ _ _ H) by lia. destruct (Z.leb_spec (u64 n) (zlen r)).
  - pose proof (win_at _ _ _ (u64 n) H ltac:(lia)) as H1.
    do 2 eexists. split; [reflexivity |]. do 2 eexists. exact H1.
  - unfold r_bind, rd_kafka_buf_check_len, rd_kafka_buf_read_remain. rewrite (win_remains _ _ _ H). ztest.
    do 2 eexists. split; [reflexivity |]. discriminate.
Qed.

Lemma safe_read_str : safe (rd_kafka_buf_read_str rb false).
Proof.
  apply safe_bind; [apply safe_i16 |]. intros len. destruct (_ =? -1); [apply safe_ret |].
  destruct (_ =? 0); [apply safe_ret |]. apply safe_bind; [apply safe_contig | intros; apply safe_ret].
Qed.

End Window.

(** ** Buffers that point to memory *)

(** The buffer made for [data] is one window of it; there is none of no data. *)
Lemma shadow_window junk data free_cb :
  0 < zlen data < 2 ^ 60 ->
  exists rb s, rd_kafka_buf_new_shadow junk data free_cb = Some (rb, s) /\
    exists seg, window rb 0 seg 0 (zlen data) s 0 data.
Proof.
  intros H. set (seg := mk_segment data (zlen data) (zlen data) 0 free_cb RD_SEGMENT_F_RDONLY).
  assert (exists rb, rd_kafka_buf_new_shadow junk data free_cb = (let* s := rd_slice_init_full rb in Some (rb, s))
    /\ rbuf_segments rb = [seg] /\ rbuf_len rb = zlen data) as (rb & -> & Hs & Hl).
  { unfold rd_kafka_buf_new_shadow, rd_buf_init. cbn.
    set (x := rd_buf_alloc_segment0 _ _ _). vm_compute in x. subst x. cbn.
    eexists. split; [reflexivity |]. split; reflexivity. }
  unfold rd_slice_init_full, rd_slice_init, rd_buf_get_segment_at_offset, rd_buf_len.
  rewrite Hs, Hl, Z.geb_leb. ztest. cbn [drop offset_scan seg seg_absof seg_of].
  change (0 >=? 0) with true. ztest. cbn [andb]. cbn [lookup list_lookup].
  unfold rd_slice_init_seg. rewrite Hs, Hl. cbn [lookup list_lookup seg seg_absof].
  change (0 - 0) with 0. change (0 + 0) with 0. change (u64 0) with 0. rewrite wrap_small by lia.
  ztest. cbn [sl_start sl_end]. unfold rd_buf_len. rewrite Hl. change (0 >=? 0) with true. ztest.
  cbn [andb rd_assert]. do 2 eexists. split; [reflexivity |]. exists seg.
  constructor; cbn; auto; try lia.
  - now rewrite Hs.
  - rewrite Hs. constructor.
  - unfold sub. rewrite zdrop_nonpos, Z.sub_0_r, ztake_all by lia. reflexivity.
Qed.
