(* ===== verification/Aborted.v ===== *)
(** * Aborted transactions, facts

    What the tree and the list of [rd_kafka_aborted_txns_t] are: for each producer id the
    offsets its aborted transactions start at, those that were popped left out. *)

From stdpp Require Import list sorting.
From S2P Require Import Prelude Msgq Sort Avl AvlProps MsgReader.

Abbreviation cmp_pid := rd_kafka_aborted_txn_cmp_by_pid.

#[export] Instance cmp_pid_comparator : Comparator cmp_pid.
Proof.
  split; unfold rd_kafka_aborted_txn_cmp_by_pid.
  - intros a b. apply cmp_flip.
  - intros a b c. apply cmp_trans.
Qed.

Lemma cmp_pid_zero a b : cmp_pid a b = 0 <-> fst a = fst b.
Proof.
  unfold rd_kafka_aborted_txn_cmp_by_pid, RD_CMP.
  repeat match goal with |- context [if ?c then _ else _] => destruct c eqn:? end; zbool; lia.
Qed.

(** ** The tree *)

(** In a sorted list the search finds what is in it. *)
Lemma elms_find_in l pid k0 x :
  sorted_elms cmp_pid l -> (elms_find cmp_pid (pid, k0) l = Some x <-> x ∈ l /\ fst x = pid).
Proof.
  intros Hs. unfold elms_find. set (f := filter _ l). assert (Hf : forall y, y ∈ f <-> y ∈ l /\ fst y = pid).
  { intros y. unfold f. rewrite list_elem_of_filter, cmp_pid_zero. cbn. intuition. }
  split.
  - intros Hh. apply Hf. destruct f; [discriminate |]. injection Hh as ->. left.
  - intros Hx%Hf. assert (sorted_elms cmp_pid f) as Hsf.
    { unfold f. clear -Hs. induction Hs as [| y l Hs IH Hy]; [constructor |].
      destruct (decide (cmp_pid (pid, k0) y = 0)); [rewrite filter_cons_True by done | now rewrite filter_cons_False].
      constructor; [exact IH |]. apply list.Forall_forall. intros z [_ Hz]%list_elem_of_filter.
      exact (proj1 (list.Forall_forall _ _) Hy z Hz). }
    destruct f as [| y f]; [inversion Hx |]. cbn. f_equal.
    apply elem_of_cons in Hx as [-> | Hx]; [reflexivity | exfalso].
    inversion_clear Hsf as [| ? ? _ Hy]. pose proof (proj1 (list.Forall_forall _ _) Hy x Hx) as Hlt. cbn in Hlt.
    destruct (proj1 (Hf x)) as [_ E1]; [now right |]. destruct (proj1 (Hf y)) as [_ E2]; [left |].
    pose proof (proj2 (cmp_pid_zero y x)). rewrite E1, E2 in *. lia.
Qed.

Definition at_elms (t : rd_kafka_aborted_txns) : list (Z * nat) := inorder (ravl_root (at_avl t)).

Record at_inv (t : rd_kafka_aborted_txns) : Prop := {
  ai_avl : avl (ravl_root (at_avl t));
  ai_sorted : sorted_elms cmp_pid (at_elms t);
  ai_nodes : forall pid k, (pid, k) ∈ at_elms t ->
    exists n, at_list t !! k = Some n /\ so_pid n = pid /\ 0 <= so_offsets_idx n <= zlen (so_offsets n) }.

Lemma offsets_for_pid_spec t pid k :
  at_inv t -> (rd_kafka_aborted_txns_offsets_for_pid t pid = Some k <-> (pid, k) ∈ at_elms t).
Proof.
  intros H. unfold rd_kafka_aborted_txns_offsets_for_pid. destruct t as [[root] l]. cbn [at_avl].
  rewrite (find_spec cmp_pid _ _ (ai_sorted _ H)). unfold at_elms. cbn [at_avl ravl_root].
  pose proof (ai_sorted _ H) as Hs. unfold at_elms in Hs. cbn [at_avl ravl_root] in Hs.
  pose proof (elms_find_in (inorder root) pid 0%nat) as Hf.
  destruct (elms_find cmp_pid (pid, 0%nat) (inorder root)) as [[p j] |] eqn:E; cbn.
  - destruct (proj1 (Hf _ Hs) eq_refl) as [Hin Hp]. cbn in Hp. subst p. split; [intros [= ->]; assumption |].
    intros Hk. apply (conj Hk) in Hs as Hx. destruct Hx as [_ _].
    pose proof (proj2 (Hf (pid, k) Hs) (conj Hk eq_refl)) as E2. congruence.
  - split; [discriminate |]. intros Hk. pose proof (proj2 (Hf (pid, k) Hs) (conj Hk eq_refl)). congruence.
Qed.

(** The offsets of a producer id that are left. *)
Definition remaining (t : rd_kafka_aborted_txns) (pid : Z) : list Z :=
  match rd_kafka_aborted_txns_offsets_for_pid t pid with
  | Some k => match at_list t !! k with Some n => drop (Z.to_nat (so_offsets_idx n)) (so_offsets n) | None => [] end
  | None => []
  end.

(** The node of a producer id that has one. *)
Lemma node_of_pid t pid k :
  at_inv t -> rd_kafka_aborted_txns_offsets_for_pid t pid = Some k ->
  exists n, at_list t !! k = Some n /\ so_pid n = pid /\ 0 <= so_offsets_idx n <= zlen (so_offsets n) /\
    remaining t pid = drop (Z.to_nat (so_offsets_idx n)) (so_offsets n).
Proof.
  intros H E. destruct (ai_nodes _ H pid k) as (n & En & Ep & Ei); [now apply offsets_for_pid_spec |].
  exists n. do 3 (split; [assumption |]). unfold remaining. now rewrite E, En.
Qed.

(** A node replaced by another of the same producer id. *)
Lemma update_node t pid k n n' :
  at_inv t -> rd_kafka_aborted_txns_offsets_for_pid t pid = Some k -> at_list t !! k = Some n ->
  so_pid n' = pid -> 0 <= so_offsets_idx n' <= zlen (so_offsets n') ->
  let t' := mk_aborted (at_avl t) (<[k := n']> (at_list t)) in
  at_inv t' /\ forall q, remaining t' q =
    if decide (q = pid) then drop (Z.to_nat (so_offsets_idx n')) (so_offsets n') else remaining t q.
Proof.
  intros H E En Ep Ei t'.
  assert (Hk : (pid, k) ∈ at_elms t) by now apply offsets_for_pid_spec.
  assert (Hother : forall q j, (q, j) ∈ at_elms t -> q <> pid -> j <> k).
  { intros q j Hq Hn ->. destruct (ai_nodes _ H q k Hq) as (n1 & E1 & P1 & _).
    destruct (ai_nodes _ H pid k Hk) as (n2 & E2 & P2 & _). congruence. }
  assert (H' : at_inv t').
  { constructor; [apply (ai_avl _ H) | apply (ai_sorted _ H) |]. intros q j Hq. unfold t'. cbn [at_list].
    destruct (decide (q = pid)) as [-> | Hne].
    - assert (j = k) as -> by (apply (offsets_for_pid_spec t pid j H) in Hq; congruence).
      exists n'. rewrite list_lookup_insert_eq by (apply lookup_lt_is_Some; eauto). auto.
    - rewrite list_lookup_insert_ne by (intros <-; now apply (Hother q k)). now apply (ai_nodes _ H). }
  split; [exact H' |]. intros q. unfold remaining, t'. cbn [at_list].
  change (rd_kafka_aborted_txns_offsets_for_pid (mk_aborted (at_avl t) _) q)
    with (rd_kafka_aborted_txns_offsets_for_pid t q).
  destruct (decide (q = pid)) as [-> | Hne].
  - rewrite E, list_lookup_insert_eq by (apply lookup_lt_is_Some; eauto). reflexivity.
  - destruct (rd_kafka_aborted_txns_offsets_for_pid t q) as [j |] eqn:Eq; [| reflexivity].
    rewrite list_lookup_insert_ne; [reflexivity |]. intros <-.
    apply (Hother q k); [now apply offsets_for_pid_spec | assumption | reflexivity].
Qed.

(** ** The operations *)

Definition pid_at (q pid : Z) (a b : list Z) : list Z := if decide (q = pid) then a else b.

Lemma drop_head {A} n (l : list A) :
  match drop n l with
  | [] => (length l <= n)%nat
  | x :: r => l !! n = Some x /\ drop (S n) l = r
  end.
Proof.
  destruct (l !! n) as [x |] eqn:E.
  - now rewrite (drop_S _ _ _ E).
  - apply lookup_ge_None in E. now rewrite drop_ge.
Qed.

Lemma next_offset_spec t pid inc mx :
  at_inv t ->
  match remaining t pid with
  | [] => rd_kafka_aborted_txns_next_offset t pid inc mx = Some (t, -1)
  | o :: rest =>
      if mx <? o then rd_kafka_aborted_txns_next_offset t pid inc mx = Some (t, -1)
      else exists t', rd_kafka_aborted_txns_next_offset t pid inc mx = Some (t', o) /\ at_inv t' /\
        forall q, remaining t' q = if inc then pid_at q pid rest (remaining t q) else remaining t q
  end.
Proof.
  intros H. unfold rd_kafka_aborted_txns_next_offset.
  destruct (rd_kafka_aborted_txns_offsets_for_pid t pid) as [k |] eqn:E.
  2: { unfold remaining. now rewrite E. }
  destruct (node_of_pid t pid k H E) as (n & En & Ep & Ei & ->). rewrite En.
  pose proof (drop_head (Z.to_nat (so_offsets_idx n)) (so_offsets n)) as Hd.
  destruct (drop _ (so_offsets n)) as [| o rest].
  - rewrite Z.geb_leb. now ztest.
  - destruct Hd as [Ho Hr]. pose proof (lookup_lt_Some _ _ _ Ho). rewrite Z.geb_leb. ztest. rewrite Ho, Z.gtb_ltb.
    destruct (mx <? o); [reflexivity |]. destruct inc; [| eauto].
    destruct (update_node t pid k n (mk_start_offsets (so_pid n) (so_offsets_idx n + 1) (so_offsets n)) H E En Ep)
      as [H' Hq]; [cbn; lia |].
    eexists. split; [reflexivity |]. split; [exact H' |]. intros q. rewrite Hq. cbn [so_offsets_idx so_offsets].
    unfold pid_at. replace (Z.to_nat (so_offsets_idx n + 1)) with (S (Z.to_nat (so_offsets_idx n))) by lia.
    now rewrite Hr.
Qed.

(** No transaction was popped yet. *)
Definition fresh (t : rd_kafka_aborted_txns) : Prop := Forall (fun n => so_offsets_idx n = 0) (at_list t).

(** A node for a producer id that has none. *)
Lemma new_node t pid :
  at_inv t -> fresh t -> rd_kafka_aborted_txns_offsets_for_pid t pid = None ->
  let k := length (at_list t) in
  exists avl old, rd_avl_insert cmp_pid (at_avl t) (pid, k) = Some (avl, old) /\
    let t1 := mk_aborted avl (at_list t ++ [mk_start_offsets pid 0 []]) in
    at_inv t1 /\ fresh t1 /\ rd_kafka_aborted_txns_offsets_for_pid t1 pid = Some k /\
    forall q, remaining t1 q = remaining t q.
Proof.
  intros H Hfr E k. destruct t as [[root] l]. cbn [at_avl at_list] in *.
  destruct (avl_step_refines cmp_pid root (OpInsert (pid, k)) (ai_avl _ H) (ai_sorted _ H))
    as (root' & Ei & A' & I' & S'). cbn [avl_step elms_step fst snd] in Ei, I'.
  do 2 eexists. split; [exact Ei |]. set (t1 := mk_aborted (mk_avl root') (l ++ [mk_start_offsets pid 0 []])). cbv zeta.
  assert (Hno : forall j, (pid, j) ∉ inorder root).
  { intros j Hj. apply (offsets_for_pid_spec (mk_aborted (mk_avl root) l) pid j H) in Hj. congruence. }
  assert (Hin : forall x, x ∈ inorder root' <-> x = (pid, k) \/ x ∈ inorder root).
  { intros x. rewrite I'. unfold elms_insert. rewrite elem_of_app, elem_of_cons, !list_elem_of_filter.
    assert (x ∈ inorder root -> cmp_pid (pid, k) x <> 0).
    { intros Hx E0. apply cmp_pid_zero in E0. destruct x as [p j]. cbn in E0. subst p. now apply (Hno j). }
    destruct (Z.lt_trichotomy 0 (cmp_pid (pid, k) x)) as [? | [? | ?]]; intuition lia. }
  assert (H1 : at_inv t1).
  { constructor; [exact A' | exact S' |]. intros q j Hj. unfold t1. cbn [at_list].
    apply Hin in Hj as [[= -> ->] | Hj].
    - exists (mk_start_offsets pid 0 []). split; [now apply list_lookup_middle | cbn; split; [reflexivity | lia]].
    - destruct (ai_nodes _ H q j Hj) as (n & En & Hn). exists n. split; [| exact Hn].
      now apply lookup_app_l_Some. }
  assert (Ek : rd_kafka_aborted_txns_offsets_for_pid t1 pid = Some k).
  { apply (offsets_for_pid_spec t1 pid k H1). unfold at_elms, t1. cbn. apply Hin. now left. }
  split; [exact H1 |]. split; [| split; [exact Ek |]].
  { unfold fresh, t1. cbn. apply list.Forall_app. split; [exact Hfr | repeat constructor]. }
  intros q. unfold remaining. destruct (decide (q = pid)) as [-> | Hne].
  { rewrite Ek, E. unfold t1. cbn [at_list]. now rewrite (list_lookup_middle l [] _ k). }
  assert (rd_kafka_aborted_txns_offsets_for_pid t1 q =
          rd_kafka_aborted_txns_offsets_for_pid (mk_aborted (mk_avl root) l) q) as ->.
  { apply option_eq. intros j. rewrite (offsets_for_pid_spec t1 q j H1),
      (offsets_for_pid_spec (mk_aborted (mk_avl root) l) q j H). unfold at_elms, t1. cbn. rewrite Hin.
    intuition congruence. }
  destruct (rd_kafka_aborted_txns_offsets_for_pid _ q) as [j |] eqn:Eq; [| reflexivity].
  destruct (node_of_pid (mk_aborted (mk_avl root) l) q j H Eq) as (n & En & _). cbn [at_list] in En.
  unfold t1. cbn [at_list]. now rewrite En, (lookup_app_l_Some _ _ _ _ En).
Qed.

Lemma append_offset t pid k o :
  at_inv t -> fresh t -> rd_kafka_aborted_txns_offsets_for_pid t pid = Some k ->
  exists n, at_list t !! k = Some n /\
    let t' := mk_aborted (at_avl t)
      (<[k := mk_start_offsets (so_pid n) (so_offsets_idx n) (so_offsets n ++ [o])]> (at_list t)) in
    at_inv t' /\ fresh t' /\ forall q, remaining t' q = pid_at q pid (remaining t q ++ [o]) (remaining t q).
Proof.
  intros H Hfr E. destruct (node_of_pid t pid k H E) as (n & En & Ep & Ei & Er). exists n. split; [exact En |].
  assert (so_offsets_idx n = 0) as E0 by (eapply (proj1 (list.Forall_lookup _ _) Hfr); eassumption).
  destruct (update_node t pid k n (mk_start_offsets (so_pid n) (so_offsets_idx n) (so_offsets n ++ [o])) H E En Ep)
    as [H2 Hq2]; [cbn; rewrite length_app; lia |].
  split; [exact H2 |]. split.
  - unfold fresh. cbn. apply Forall_insert; [exact Hfr | exact E0].
  - intros q. rewrite Hq2. unfold pid_at. cbn [so_offsets_idx so_offsets]. rewrite E0 in *. cbn in Er |- *.
    destruct (decide (q = pid)) as [-> |]; [| reflexivity]. now rewrite Er, !drop_0.
Qed.

Lemma aborted_add_spec t pid o :
  at_inv t -> fresh t ->
  exists t', rd_kafka_aborted_txns_add t pid o = Some t' /\ at_inv t' /\ fresh t' /\
    forall q, remaining t' q = pid_at q pid (remaining t q ++ [o]) (remaining t q).
Proof.
  intros H Hfr. unfold rd_kafka_aborted_txns_add.
  destruct (rd_kafka_aborted_txns_offsets_for_pid t pid) as [k |] eqn:E.
  - destruct (append_offset t pid k o H Hfr E) as (n & -> & H'). eauto.
  - destruct (new_node t pid H Hfr E) as (avl & old & -> & H1 & Hf1 & E1 & Hq1).
    destruct (append_offset _ pid _ o H1 Hf1 E1) as (n & -> & H2 & Hf2 & Hq2).
    eexists. split; [reflexivity |]. split; [exact H2 |]. split; [exact Hf2 |].
    intros q. now rewrite Hq2, Hq1.
Qed.

Lemma aborted_sort_spec t :
  at_inv t -> fresh t ->
  let t' := rd_kafka_aborted_txns_sort t in
  at_inv t' /\ forall q, remaining t' q = merge_sort Z.le (remaining t q).
Proof.
  intros H Hfr t'. assert (H' : at_inv t').
  { constructor; [apply (ai_avl _ H) | apply (ai_sorted _ H) |]. intros q k Hq.
    destruct (ai_nodes _ H q k Hq) as (n & En & Ep & Ei). unfold t'. cbn [rd_kafka_aborted_txns_sort at_list].
    rewrite list_lookup_fmap, En. eexists. split; [reflexivity |]. cbn [so_pid so_offsets_idx so_offsets].
    rewrite (Permutation_length (merge_sort_Permutation _ _)). auto. }
  split; [exact H' |]. intros q. unfold remaining, t'.
  change (rd_kafka_aborted_txns_offsets_for_pid (rd_kafka_aborted_txns_sort t) q)
    with (rd_kafka_aborted_txns_offsets_for_pid t q).
  destruct (rd_kafka_aborted_txns_offsets_for_pid t q) as [k |]; [| reflexivity].
  cbn [rd_kafka_aborted_txns_sort at_list]. rewrite list_lookup_fmap.
  destruct (at_list t !! k) as [n |] eqn:En; [| reflexivity]. cbn [fmap option_fmap option_map so_offsets_idx so_offsets].
  pose proof (proj1 (list.Forall_lookup _ _) Hfr k n En) as E0. cbn in E0. now rewrite E0.
Qed.

(** ** The list of a Fetch response *)

(** What a fetch makes of the aborted transactions in a response: producer ids and first
    offsets. *)
Fixpoint aborted_txns_add_all (l : list (Z * Z)) (t : rd_kafka_aborted_txns) : option rd_kafka_aborted_txns :=
  match l with
  | [] => Some t
  | (pid, o) :: l => let* t := rd_kafka_aborted_txns_add t pid o in aborted_txns_add_all l t
  end.

Definition first_offsets (l : list (Z * Z)) (pid : Z) : list Z := map snd (filter (fun x => fst x = pid) l).

Lemma aborted_new_inv : at_inv rd_kafka_aborted_txns_new /\ fresh rd_kafka_aborted_txns_new.
Proof. split; [constructor; try exact I; try constructor | constructor]. intros pid k H. inversion H. Qed.

Lemma aborted_add_all_spec l : forall t,
  at_inv t -> fresh t ->
  exists t', aborted_txns_add_all l t = Some t' /\ at_inv t' /\ fresh t' /\
    forall q, remaining t' q = remaining t q ++ first_offsets l q.
Proof.
  induction l as [| [pid o] l IH]; intros t H Hf; cbn [aborted_txns_add_all].
  - exists t. unfold first_offsets. cbn. split; [reflexivity |]. split; [assumption |]. split; [assumption |].
    intros q. now rewrite app_nil_r.
  - destruct (aborted_add_spec t pid o H Hf) as (t1 & -> & H1 & F1 & Q1).
    destruct (IH t1 H1 F1) as (t2 & -> & H2 & F2 & Q2). exists t2.
    split; [reflexivity |]. split; [assumption |]. split; [assumption |].
    intros q. rewrite Q2, Q1. unfold first_offsets, pid_at.
    destruct (decide (q = pid)) as [-> | Hne].
    + rewrite filter_cons_True by reflexivity. cbn [map snd]. now rewrite <- app_assoc.
    + now rewrite filter_cons_False by (cbn; congruence).
Qed.

Lemma aborted_txns_of_spec l :
  exists t, aborted_txns_add_all l rd_kafka_aborted_txns_new = Some t /\
    at_inv (rd_kafka_aborted_txns_sort t) /\
    forall q, remaining (rd_kafka_aborted_txns_sort t) q = merge_sort Z.le (first_offsets l q).
Proof.
  destruct aborted_new_inv as [H0 F0].
  destruct (aborted_add_all_spec l _ H0 F0) as (t & E & H & F & Q).
  destruct (aborted_sort_spec t H F) as [H' Q']. exists t. split; [exact E |]. split; [exact H' |].
  intros q. now rewrite Q', Q.
Qed.
