(* ===== verification/MsgReaderFacts.v ===== *)
(** * The message set reader, facts

    What the reader makes of a record and of a batch as the protocol has them. *)

From S2P Require Import Prelude Varint RdBuf Slice Crc Header Msgq KafkaBuf KafkaBufFacts RecordBatch.
From S2P Require Import MsgWriter MsgReader ReadFacts Aborted.

(** ** Parsers step by step *)

Lemma bind_read {A B} (m : reader A) (k : A -> parser B) s st s' x :
  m s = Some (s', inl x) -> p_bind (p_read m) k s st = k x s' st.
Proof. intros E. unfold p_bind, p_read. now rewrite E. Qed.

Lemma bind_fail {A B} (m : reader A) (k : A -> parser B) s st s' err :
  m s = Some (s', inr err) -> p_bind (p_read m) k s st = Some (s', st, inr err).
Proof. intros E. unfold p_bind, p_read. now rewrite E. Qed.

Lemma bind_state {B} (k : rd_kafka_msgset_reader_t -> parser B) s st :
  p_bind p_state k s st = k st s st.
Proof. reflexivity. Qed.

Lemma bind_slice {B} (k : rd_slice -> parser B) s st : p_bind p_slice k s st = k s s st.
Proof. reflexivity. Qed.

Lemma bind_ret {A B} (x : A) (k : A -> parser B) s st : p_bind (p_ret x) k s st = k x s st.
Proof. reflexivity. Qed.

Lemma bind_update {B} f (k : unit -> parser B) s st : p_bind (p_update f) k s st = k tt s (f st).
Proof. reflexivity. Qed.

Lemma bind_some {A B} (o : option A) x (k : A -> parser B) s st :
  o = Some x -> p_bind (p_some o) k s st = k x s st.
Proof. intros ->. reflexivity. Qed.

(** The next read, by the lemma [L] on what is left. *)
Ltac rd_step L :=
  let s := fresh "s" in let E := fresh "E" in let H := fresh "W" in
  destruct L as (s & E & H); rewrite (bind_read _ _ _ _ _ _ E); clear E.

(** ** Messages *)

Section Messages.
Context (conf : fetch_conf) (hdr : msgset_v2_hdr).

(** The headers as they are stored with a message, unparsed. *)
Definition binhdrs_of (m : rd_kafka_msg) : bytes :=
  zvarint (zlen (msg_headers m)) ++ headers_bytes (msg_headers m).

Definition log_append (attributes : Z) : bool :=
  negb (Z.land attributes RD_KAFKA_MSG_ATTR_LOG_APPEND_TIME =? 0).

(** The message a consumer gets for [m] at the offset. *)
Definition consumed_msg (m : rd_kafka_msg) (offset : Z) : rd_kafka_msg :=
  mk_msg (opt_len (rkm_payload m)) (rkm_key m) (opt_len (rkm_key m)) (fetch_partition conf) offset
    (if log_append (v2_Attributes hdr) then RD_KAFKA_TIMESTAMP_LOG_APPEND_TIME
     else RD_KAFKA_TIMESTAMP_CREATE_TIME)
    (if log_append (v2_Attributes hdr) then v2_MaxTimestamp hdr else rkm_timestamp m)
    RD_KAFKA_MSG_STATUS_PERSISTED (fetch_broker_id conf) 0 0 0 0 0 0 (rkm_payload m) None.

Definition consumed (m : rd_kafka_msg) (offset : Z) : fetch_op :=
  OpFetch (consumed_msg m offset) (mk_kbytes (zlen (binhdrs_of m)) (Some (binhdrs_of m))) false.

(** The messages from an offset on that are not behind the fetch offset. *)
Fixpoint consumed_all (fetch_offset offset : Z) (l : list rd_kafka_msg) : list fetch_op :=
  match l with
  | [] => []
  | m :: l =>
      (if offset <? fetch_offset then [] else [consumed m offset]) ++ consumed_all fetch_offset (offset + 1) l
  end.

(** What they add to the counts. *)
Definition op_size (rko : fetch_op) : Z :=
  match rko with OpFetch rkm _ _ => rkm_key_len rkm + rkm_len rkm | _ => 0 end.

Definition add_op (m : rd_kafka_msgset_reader_t) (rko : fetch_op) : rd_kafka_msgset_reader_t :=
  set_msgcnt (msetr_enq m rko) (i32 (msetr_msgcnt m + 1)) (i64 (msetr_msg_bytes m + op_size rko)).

Definition add_ops (m : rd_kafka_msgset_reader_t) (l : list fetch_op) : rd_kafka_msgset_reader_t :=
  fold_left add_op l m.

Lemma kbytes_data_opt o : kbytes_data (mk_kbytes (opt_len o) o) = o.
Proof.
  unfold kbytes_data. cbn [kb_len kb_data]. destruct o; cbn [opt_len]; [| reflexivity].
  now ztest.
Qed.

Lemma kbytes_len_opt o : RD_KAFKAP_LEN (opt_len o) = opt_len o.
Proof. unfold RD_KAFKAP_LEN. destruct o; cbn [opt_len]; [| reflexivity]. now ztest. Qed.

Context (rb : rd_buf) (i : nat) (seg : rd_segment).

(** A well-formed message that is not in a control batch. *)
Lemma msg_v2_ok st en s pos m off r msetr :
  window rb i seg st en s pos (record_bytes (v2_BaseTimestamp hdr) off m ++ r) ->
  msg_ok m -> in_i 64 (rkm_timestamp m) -> in_i 31 off ->
  zlen (record_bytes (v2_BaseTimestamp hdr) off m) < 2 ^ 31 ->
  in_i 64 (v2_BaseOffset hdr + off) ->
  Z.land (v2_Attributes hdr) RD_KAFKA_MSGSET_V2_ATTR_CONTROL = 0 ->
  exists s', rd_kafka_msgset_reader_msg_v2 conf rb hdr s msetr =
      Some (s', add_ops msetr (if v2_BaseOffset hdr + off <? rktp_fetch_offset msetr then []
                               else [consumed m (v2_BaseOffset hdr + off)]), 0) /\
    window rb i seg st en s' (pos + zlen (record_bytes (v2_BaseTimestamp hdr) off m)) r.
Proof.
  intros W Hm Hts Hoff Hlen Hbase Hctrl.
  pose proof (record_body_len (v2_BaseTimestamp hdr) off m Hm Hoff) as Hbody.
  assert (record_bytes (v2_BaseTimestamp hdr) off m =
    zvarint (zlen (record_body (v2_BaseTimestamp hdr) off m)) ++ record_body (v2_BaseTimestamp hdr) off m)
    as Er by reflexivity.
  remember (record_body (v2_BaseTimestamp hdr) off m) as body eqn:Eb.
  rewrite Er in *. rewrite zlen_app in *. rewrite <- app_assoc in W.
  pose proof (zvarint_range (zlen body) ltac:(unfold in_i; lia)) as Hvl.
  unfold rd_kafka_msgset_reader_msg_v2, p_result, msg_v2_body.
  rd_step (read_varint_ok _ _ _ _ _ _ _ (zlen body) _ ltac:(unfold in_i; lia) W).
  rewrite bind_slice, (win_offset _ _ _ _ _ _ _ _ W0).
  pose proof (wd_in _ _ _ _ _ _ _ _ W) as Hin. pose proof (win_len _ _ _ _ _ _ _ _ W0) as Hl0.
  rewrite zlen_app in Hl0.
  rewrite (wrap_small 64 (zlen body)), wrap_small by lia. set (message_end := _ + zlen body).
  set (rest := kv_bytes (rkm_key m) ++ kv_bytes (rkm_payload m) ++ binhdrs_of m).
  assert (body = be_enc 1 0 ++ zvarint (i64 (rkm_timestamp m - v2_BaseTimestamp hdr)) ++ zvarint off ++ rest)
    as Eb' by exact Eb.
  rewrite Eb', <- !app_assoc in W0.
  rd_step (read_i8_ok _ _ _ _ _ _ _ 0 _ ltac:(unfold in_i; lia) W0).
  rd_step (read_varint_ok _ _ _ _ _ _ _ _ _ ltac:(apply swrap_range; lia) W1).
  rd_step (read_varint_ok _ _ _ _ _ _ _ off _ ltac:(unfold in_i in *; lia) W2).
  rewrite bind_state, swrap_small by (lia || assumption).
  assert (exists p3, window rb i seg st en s3 p3 (rest ++ r) /\ message_end - (p3 - st) = zlen rest /\
    st <= p3 < 2 ^ 62 /\ zlen rest + zlen r = en - p3 /\ zlen rest < 2 ^ 31) as (p3 & W3' & Hend & Hp3 & Hl3 & Hlr).
  { pose proof (win_len _ _ _ _ _ _ _ _ W3) as Hl. rewrite zlen_app in Hl. eexists. split; [exact W3 |].
    pose proof (wd_in _ _ _ _ _ _ _ _ W3). unfold message_end.
    rewrite Eb' in Hlen at 2. rewrite !zlen_app in Hlen. lia. }
  clear W0 W1 W2 W3.
  destruct (v2_BaseOffset hdr + off <? rktp_fetch_offset msetr).
  - destruct (buf_skip_ok _ _ _ _ _ _ _ rest r (zlen rest) W3' eq_refl) as (s' & E & W').
    rewrite (bind_read _ _ s3 _ s' tt).
    2: { unfold rd_kafka_buf_skip_to. rewrite (win_offset _ _ _ _ _ _ _ _ W3'). rewrite <- E. f_equal. lia. }
    exists s'. split; [reflexivity |]. replace (pos + _) with (p3 + zlen rest); [assumption |].
    unfold message_end in *. lia.
  - rewrite Hctrl. cbn [Z.eqb negb]. unfold rest in W3'. rewrite <- !app_assoc in W3'.
    pose proof (mk_len_max _ Hm) as Hx. rewrite (mk_len _ Hm) in Hx.
    pose proof (mk_key_max _ Hm) as Hy. rewrite (mk_key_len _ Hm) in Hy.
    rd_step (read_bytes_varint_ok _ _ _ _ _ _ _ _ _ Hy W3').
    rd_step (read_bytes_varint_ok _ _ _ _ _ _ _ _ _ Hx W0).
    rewrite bind_slice, (win_offset _ _ _ _ _ _ _ _ W1).
    pose proof (kv_len _ Hx). pose proof (kv_len _ Hy).
    assert (i32 (u64 (message_end - (p3 + zlen (kv_bytes (rkm_key m)) + zlen (kv_bytes (rkm_payload m)) - st)))
      = zlen (binhdrs_of m)) as ->.
    { unfold rest in Hend, Hlr. rewrite !zlen_app in Hend, Hlr. rewrite wrap_small by lia.
      rewrite swrap_small by (lia || (unfold in_i; lia)). lia. }
    rd_step (read_ptr_ok _ _ _ _ _ _ _ _ _ (zlen (binhdrs_of m)) W1 eq_refl).
    rewrite bind_update. eexists. split.
    2: { replace (pos + _) with (p3 + zlen (kv_bytes (rkm_key m)) + zlen (kv_bytes (rkm_payload m))
           + zlen (binhdrs_of m)); [exact W2 |].
         unfold message_end, rest in *. rewrite !zlen_app in *. lia. }
    unfold p_ret. do 3 f_equal. unfold log_append. change (Z.land 0 RD_KAFKA_MSG_ATTR_LOG_APPEND_TIME) with 0.
    cbn [Z.eqb negb]. rewrite orb_false_r. unfold add_ops. cbn [fold_left]. unfold add_op, msetr_add_msg.
    cbn [kb_len].
    rewrite !kbytes_len_opt, !kbytes_data_opt.
    assert (0 <= opt_len (rkm_payload m)) by (destruct (rkm_payload m); cbn; lia).
    assert (0 <= opt_len (rkm_key m)) by (destruct (rkm_key m); cbn; lia).
    rewrite !wrap_small by lia. unfold consumed, consumed_msg, log_append, binhdrs_of.
    assert (i64 (v2_BaseTimestamp hdr + i64 (rkm_timestamp m - v2_BaseTimestamp hdr)) = rkm_timestamp m) as ->.
    { rewrite swrap_add_r by lia. replace (_ + (_ - _)) with (rkm_timestamp m) by lia.
      apply swrap_small; [lia | assumption]. }
    destruct (_ =? 0); cbn; now rewrite Z.add_assoc.
Qed.

(** Messages a batch may hold. *)
Definition rec_ok (bts : Z) (m : rd_kafka_msg) : Prop :=
  msg_ok m /\ in_i 64 (rkm_timestamp m) /\ 36 + rkm_len m + rkm_key_len m + msg_hdr_size m < 2 ^ 31.

Lemma add_ops_app m a b : add_ops m (a ++ b) = add_ops (add_ops m a) b.
Proof. apply fold_left_app. Qed.

Lemma add_ops_fields l : forall m,
  rktp_fetch_offset (add_ops m l) = rktp_fetch_offset m /\
  msetr_aborted_txns (add_ops m l) = msetr_aborted_txns m /\
  msetr_next_offset (add_ops m l) = msetr_next_offset m /\
  msetr_rkq (add_ops m l) = msetr_rkq m ++ l.
Proof.
  induction l as [| x l IH]; intros m; cbn [add_ops fold_left].
  - now rewrite app_nil_r.
  - destruct (IH (add_op m x)) as (E1 & E2 & E3 & E4). unfold add_ops in *. rewrite E1, E2, E3, E4.
    cbn. now rewrite <- app_assoc.
Qed.

Lemma record_pos bts off m : 0 < zlen (record_bytes bts off m).
Proof.
  unfold record_bytes. cbv zeta. rewrite zlen_app. assert (1 <= zlen (record_body bts off m)); [| lia].
  unfold record_body. rewrite zlen_app. cbn [length]. lia.
Qed.

Lemma records_len bts l : forall off,
  Forall (rec_ok bts) l -> 0 <= off -> off + zlen l < 2 ^ 30 -> zlen l <= zlen (records_bytes bts off l).
Proof.
  induction l as [| m l IH]; intros off Hl H0 Ho; [cbn; lia |]. cbn [records_bytes length] in *.
  apply Forall_cons_iff in Hl as [_ Hl]. rewrite zlen_app. pose proof (record_pos bts off m).
  specialize (IH (off + 1) Hl ltac:(lia) ltac:(lia)). lia.
Qed.

Lemma msgs_v2_loop_ok st l : forall n en s pos off msetr,
  window rb i seg st en s pos (records_bytes (v2_BaseTimestamp hdr) off l) -> (length l <= n)%nat ->
  Forall (rec_ok (v2_BaseTimestamp hdr)) l -> 0 <= off -> off + zlen l < 2 ^ 30 ->
  in_i 64 (v2_BaseOffset hdr) -> in_i 64 (v2_BaseOffset hdr + off + zlen l) ->
  Z.land (v2_Attributes hdr) RD_KAFKA_MSGSET_V2_ATTR_CONTROL = 0 ->
  exists s', msgs_v2_loop conf rb n hdr s msetr =
      Some (s', add_ops msetr (consumed_all (rktp_fetch_offset msetr) (v2_BaseOffset hdr + off) l), 0) /\
    window rb i seg st en s' en [].
Proof.
  induction l as [| m l IH]; intros n en s pos off msetr W Hn Hl H0 Ho Hb1 Hb2 Hc; cbn [records_bytes] in W.
  - exists s. pose proof (win_len _ _ _ _ _ _ _ _ W) as Hlen. cbn in Hlen.
    replace pos with en in W by lia. split; [| exact W]. unfold msgs_v2_loop, rd_kafka_buf_read_remain.
    destruct n; rewrite (win_remains _ _ _ _ _ _ _ _ W); reflexivity.
  - apply Forall_cons_iff in Hl as [(Hm & Hts & Hsz) Hl]. cbn [length] in *.
    destruct n as [| n]; [lia |]. cbn [msgs_v2_loop consumed_all].
    unfold rd_kafka_buf_read_remain. rewrite (win_remains _ _ _ _ _ _ _ _ W), zlen_app.
    pose proof (record_pos (v2_BaseTimestamp hdr) off m). ztest.
    pose proof (record_len (v2_BaseTimestamp hdr) off m Hm ltac:(unfold in_i; lia)).
    destruct (msg_v2_ok st en s pos m off _ msetr W Hm Hts ltac:(unfold in_i; lia) ltac:(lia)
      ltac:(unfold in_i in *; lia) Hc) as (s1 & -> & W1). cbn [negb Z.eqb].
    destruct (IH n en s1 _ (off + 1) (add_ops msetr (if v2_BaseOffset hdr + off <? rktp_fetch_offset msetr then []
      else [consumed m (v2_BaseOffset hdr + off)])) W1 ltac:(lia) Hl ltac:(lia) ltac:(lia) Hb1
      ltac:(replace (_ + (off + 1) + zlen l) with (v2_BaseOffset hdr + off + Z.of_nat (S (length l))) by lia; assumption)
      Hc) as (s2 & E & W2).
    exists s2. split; [| exact W2]. rewrite E, <- add_ops_app.
    destruct (add_ops_fields (if v2_BaseOffset hdr + off <? rktp_fetch_offset msetr then []
      else [consumed m (v2_BaseOffset hdr + off)]) msetr) as (-> & _).
    now rewrite Z.add_assoc.
Qed.

End Messages.

(** ** Batches *)

(** A batch as the broker stores it: its header, the bytes of its records, which may be
    compressed, and the messages they are. *)
Record batch := mk_bt {
  bt_base : Z;
  bt_epoch : Z;
  bt_attributes : Z;
  bt_last_delta : Z;
  bt_base_ts : Z;
  bt_max_ts : Z;
  bt_pid : Z;
  bt_pid_epoch : Z;
  bt_seq : Z;
  bt_count : Z;
  bt_data : bytes;
  bt_msgs : list rd_kafka_msg }.

Definition bt_tail (b : batch) : bytes :=
  batch_tail (bt_attributes b) (bt_last_delta b) (bt_base_ts b) (bt_max_ts b) (bt_pid b) (bt_pid_epoch b)
    (bt_seq b) (bt_count b) (bt_data b).
Definition bt_bytes (b : batch) : bytes := batch_bytes (bt_base b) (bt_epoch b) (bt_tail b).
Definition bt_hdr (b : batch) : msgset_v2_hdr :=
  mk_v2_hdr (bt_base b) (bt_attributes b) (bt_base_ts b) (bt_max_ts b) (bt_pid b).
Definition bt_last (b : batch) : Z := bt_base b + bt_last_delta b.
Definition bt_records (b : batch) : bytes := records_bytes (bt_base_ts b) 0 (bt_msgs b).
Definition bt_codec (b : batch) : Z := Z.land (bt_attributes b) RD_KAFKA_MSG_ATTR_COMPRESSION_MASK.

(** The header is in range. *)
Record batch_hdr_ok (b : batch) : Prop := {
  bh_base : 0 <= bt_base b < 2 ^ 62;
  bh_epoch : in_i 32 (bt_epoch b);
  bh_attributes : in_i 16 (bt_attributes b);
  bh_delta : 0 <= bt_last_delta b < 2 ^ 30 - 1;
  bh_times : in_i 64 (bt_base_ts b) /\ in_i 64 (bt_max_ts b);
  bh_pid : in_i 64 (bt_pid b) /\ in_i 16 (bt_pid_epoch b) /\ in_i 32 (bt_seq b) /\ in_i 32 (bt_count b);
  bh_bytes : Forall is_byte (bt_data b) /\ zlen (bt_data b) < 2 ^ 30 }.

(** A batch with messages. *)
Record batch_ok (cod : codecs) (b : batch) : Prop := {
  bo_hdr : batch_hdr_ok b;
  bo_control : Z.land (bt_attributes b) RD_KAFKA_MSGSET_V2_ATTR_CONTROL = 0;
  bo_msgs : Forall (rec_ok (bt_base_ts b)) (bt_msgs b) /\ zlen (bt_msgs b) <= bt_last_delta b + 1;
  bo_data : if bt_codec b =? 0 then bt_data b = bt_records b
            else uncompress cod (bt_codec b) 2 (bt_data b) = inl (bt_records b) /\
                 0 < zlen (bt_records b) < 2 ^ 60 }.

Lemma batch_bytes_len b : zlen (bt_bytes b) = 61 + zlen (bt_data b).
Proof.
  unfold bt_bytes, batch_bytes, bt_tail, batch_tail. rewrite !zlen_app, !length_be_enc. lia.
Qed.

Lemma bt_tail_len b : zlen (bt_tail b) = 40 + zlen (bt_data b).
Proof. unfold bt_tail, batch_tail. rewrite !zlen_app, !length_be_enc. lia. Qed.

Lemma bt_tail_is_byte b : batch_hdr_ok b -> Forall is_byte (bt_tail b).
Proof.
  intros H. destruct (bh_bytes _ H) as [Hd _]. unfold bt_tail, batch_tail.
  repeat (apply Forall_app; split); auto using be_enc_is_byte.
Qed.

Section Batches.
Context (conf : fetch_conf) (cod : codecs) (junk : Z -> Z) (addr : nat -> Z).
Context (rb : rd_buf) (i : nat) (seg : rd_segment) (st : Z).

(** The CRC of the next bytes, through a slice narrowed to them. *)
Lemma crc32c_win en s pos r n :
  window rb i seg st en s pos r -> 0 <= n <= zlen r -> Forall is_byte (ztake n r) ->
  exists s1, rd_slice_crc32c addr rb (slice_set_end s (pos + n)) = Some (s1, crc_reference POLY 0 (ztake n r)).
Proof.
  intros W Hn Hb. unfold rd_slice_crc32c.
  rewrite (win_loop rb i seg st en _ _ s pos r n W Hn).
  destruct (ztake n r) as [| x p] eqn:E; eexists; [reflexivity |]. do 2 f_equal.
  pose proof (fold_crc32c addr [x :: p] 0 0 ltac:(unfold in_u; lia)) as Hf. cbn [concat] in Hf.
  rewrite app_nil_r in Hf. specialize (Hf Hb). cbn [fold_left] in Hf. exact Hf.
Qed.

(** The CRC check of the header passes. *)
Lemma v2_crc_ok {B} (k : bool -> parser B) en s pos b r msetr :
  window rb i seg st en s pos (bt_tail b ++ r) -> batch_hdr_ok b ->
  p_bind (if check_crcs conf then
            p_bind p_slice (fun s =>
            p_bind (p_some (rd_slice_narrow_copy_relative rb s (zlen (bt_tail b)))) (fun x =>
            match x with
            | SliceErr => p_bind (p_read (rd_kafka_buf_check_len rb (zlen (bt_tail b)))) (fun _ => p_some None)
            | SliceOk c =>
                p_bind (p_some (rd_slice_crc32c addr rb c)) (fun '(_, calc_crc) =>
                p_ret (u32 (i32 (crc_reference POLY 0 (bt_tail b))) =? calc_crc))
            end))
          else p_ret true) k s msetr = k true s msetr.
Proof.
  intros W Hb. destruct (check_crcs conf); [| reflexivity].
  pose proof (bt_tail_is_byte b Hb) as Hby.
  destruct (win_narrow rb i seg st en s pos _ (zlen (bt_tail b)) W ltac:(zlen_lia)) as (_ & Hn & _).
  destruct (crc32c_win en s pos _ (zlen (bt_tail b)) W ltac:(zlen_lia)) as (s1 & Ec);
    rewrite ztake_app, ztake_all, Z.sub_diag, ztake_nonpos, app_nil_r in * by lia; [assumption |].
  unfold p_bind, p_slice, p_some, p_ret. rewrite Hn, Ec.
  pose proof (crc_reference_range POLY 0 _ POLY_range ltac:(unfold in_u; lia) Hby) as Hr.
  rewrite wrap_swrap, wrap_small, Z.eqb_refl by (lia || assumption). reflexivity.
Qed.

Lemma v2_header_ok en s pos b r msetr :
  window rb i seg st en s pos (bt_bytes b ++ r) -> batch_hdr_ok b ->
  exists s', v2_header_body conf addr rb s msetr =
      Some (s', msetr, inl (Some (bt_hdr b, bt_last b, zlen (bt_data b)))) /\
    window rb i seg st en s' (pos + 61) (bt_data b ++ r).
Proof.
  intros W Hb. pose proof (bt_tail_len b) as Htl. destruct (bh_bytes _ Hb) as [Hby Hdl].
  destruct (bh_pid _ Hb) as (Hpid & Hpe & Hseq & Hcnt). destruct (bh_times _ Hb) as [Ht1 Ht2].
  pose proof (bh_base _ Hb). pose proof (bh_delta _ Hb).
  assert (bt_bytes b = be_enc 8 (bt_base b) ++ be_enc 4 (zlen (bt_tail b) + 9) ++ be_enc 4 (bt_epoch b)
    ++ be_enc 1 2 ++ be_enc 4 (i32 (crc_reference POLY 0 (bt_tail b))) ++ bt_tail b) as Eb
    by (now rewrite be_enc_i32).
  rewrite Eb, <- !app_assoc in W. clear Eb. unfold v2_header_body.
  rd_step (read_i64_ok _ _ _ _ _ _ _ (bt_base b) _ ltac:(unfold in_i; lia) W).
  rd_step (read_i32_ok _ _ _ _ _ _ _ (zlen (bt_tail b) + 9) _ ltac:(unfold in_i; lia) W0).
  rewrite bind_slice, (win_offset _ _ _ _ _ _ _ _ W1).
  change (RD_KAFKAP_MSGSET_V2_SIZE - 8 - 4) with 49. ztest.
  rd_step (read_i32_ok _ _ _ _ _ _ _ (bt_epoch b) _ (bh_epoch _ Hb) W1).
  rd_step (read_i8_ok _ _ _ _ _ _ _ 2 _ ltac:(unfold in_i; lia) W2).
  rd_step (read_i32_ok _ _ _ _ _ _ _ _ _ (swrap_range 32 _ ltac:(lia)) W3).
  replace (zlen (bt_tail b) + 9 - 4 - 1 - 4) with (zlen (bt_tail b)) by lia.
  rewrite (wrap_small 64 (zlen (bt_tail b))) by lia.
  rewrite (v2_crc_ok _ en s4 _ b r msetr W4 Hb). cbn [negb].
  unfold bt_tail, batch_tail in W4. rewrite <- !app_assoc in W4.
  rd_step (read_i16_ok _ _ _ _ _ _ _ _ _ (bh_attributes _ Hb) W4).
  rd_step (read_i32_ok _ _ _ _ _ _ _ (bt_last_delta b) _ ltac:(unfold in_i; lia) W5).
  rd_step (read_i64_ok _ _ _ _ _ _ _ _ _ Ht1 W6).
  rd_step (read_i64_ok _ _ _ _ _ _ _ _ _ Ht2 W7).
  rd_step (read_i64_ok _ _ _ _ _ _ _ _ _ Hpid W8).
  rd_step (read_i16_ok _ _ _ _ _ _ _ _ _ Hpe W9).
  rd_step (read_i32_ok _ _ _ _ _ _ _ _ _ Hseq W10).
  rd_step (read_i32_ok _ _ _ _ _ _ _ _ _ Hcnt W11).
  rewrite bind_slice, (win_offset _ _ _ _ _ _ _ _ W12). unfold rd_kafka_buf_read_remain.
  rewrite (win_remains _ _ _ _ _ _ _ _ W12), zlen_app.
  match goal with |- context [u64 (?a - st - ?c)] => replace (a - st - c) with 49 by lia end. change (u64 49) with 49.
  replace (zlen (bt_tail b) + 9 - 49) with (zlen (bt_data b)) by lia. rewrite !(wrap_small 64 (zlen (bt_data b))) by lia.
  ztest. rewrite swrap_small by (lia || (unfold in_i; lia)).
  eexists. split; [reflexivity |]. replace (pos + 61) with (pos + 8 + 4 + 4 + 1 + 4 + 2 + 4 + 8 + 8 + 8 + 2 + 4 + 4) by lia.
  exact W12.
Qed.

(** ** What a batch does to the reader *)

Definition set_codec (m : rd_kafka_msgset_reader_t) (codec : Z) : rd_kafka_msgset_reader_t :=
  if codec =? 0 then m else set_compression m codec.

Definition bt_aborted (m : rd_kafka_msgset_reader_t) (b : batch) : bool :=
  default false (msgset_aborted (bt_hdr b) m).

Definition batch_effect (m : rd_kafka_msgset_reader_t) (b : batch) : rd_kafka_msgset_reader_t :=
  set_next_offset
    (if bt_last b <? rktp_fetch_offset m then m
     else
       let m := set_codec m (bt_codec b) in
       if bt_aborted m b then set_cnts m (msetr_ctrl_cnt m) (i32 (msetr_aborted_cnt m + 1))
       else add_ops m (consumed_all conf (bt_hdr b) (rktp_fetch_offset m) (bt_base b) (bt_msgs b)))
    (bt_last b + 1).

(** The aborted transactions of the response. *)
Definition aborted_ok (o : option rd_kafka_aborted_txns) : Prop := forall t, o = Some t -> at_inv t.

Lemma get_offset_ok t pid :
  at_inv t -> exists t' v, rd_kafka_aborted_txns_get_offset t pid = Some (t', v).
Proof.
  intros H. pose proof (next_offset_spec t pid false (2 ^ 63 - 1) H) as Hs.
  unfold rd_kafka_aborted_txns_get_offset. destruct (remaining t pid) as [| o l]; [eauto |].
  destruct (_ <? o); [eauto |]. destruct Hs as (t' & -> & _). eauto.
Qed.

Lemma msgset_aborted_some hdr m :
  aborted_ok (msetr_aborted_txns m) -> msgset_aborted hdr m = Some (default false (msgset_aborted hdr m)).
Proof.
  intros H. unfold msgset_aborted. destruct (msetr_aborted_txns m) as [t |]; [| reflexivity].
  destruct (_ =? _); [| reflexivity].
  destruct (get_offset_ok t (v2_PID hdr) (H t eq_refl)) as (t' & v & ->). reflexivity.
Qed.

(** The records, uncompressed, in a window of their own. *)
Lemma msgs_v2_ok rb' i' seg' st' en s pos b m :
  window rb' i' seg' st' en s pos (bt_records b) -> batch_ok cod b -> aborted_ok (msetr_aborted_txns m) ->
  exists s', rd_kafka_msgset_reader_msgs_v2 conf rb' (bt_hdr b) s m =
    Some (s', if bt_aborted m b then set_cnts m (msetr_ctrl_cnt m) (i32 (msetr_aborted_cnt m + 1))
              else add_ops m (consumed_all conf (bt_hdr b) (rktp_fetch_offset m) (bt_base b) (bt_msgs b)), 0) /\
    window rb' i' seg' st' en s' en [].
Proof.
  intros W Hb Ha. unfold rd_kafka_msgset_reader_msgs_v2.
  rewrite (msgset_aborted_some _ _ Ha). fold (bt_aborted m b).
  pose proof (bh_base _ (bo_hdr _ _ Hb)). pose proof (bh_delta _ (bo_hdr _ _ Hb)). destruct (bo_msgs _ _ Hb) as [Hms Hcnt].
  destruct (bt_aborted m b).
  - rewrite (win_remains _ _ _ _ _ _ _ _ W).
    rewrite <- (app_nil_r (bt_records b)) in W.
    destruct (buf_skip_ok _ _ _ _ _ _ _ (bt_records b) [] _ W eq_refl) as (s' & -> & W').
    exists s'. split; [reflexivity |]. pose proof (win_len _ _ _ _ _ _ _ _ W') as Hl. cbn in Hl.
    replace (pos + zlen (bt_records b)) with en in W' by lia. exact W'.
  - rewrite (win_remains _ _ _ _ _ _ _ _ W).
    destruct (msgs_v2_loop_ok conf (bt_hdr b) rb' i' seg' st' (bt_msgs b) (Z.to_nat (zlen (bt_records b))) en s pos 0 m W)
      as (s' & E & W').
    + pose proof (records_len (bt_base_ts b) (bt_msgs b) 0 Hms ltac:(lia) ltac:(lia)) as Hrl.
      fold (bt_records b) in Hrl. lia.
    + exact Hms.
    + lia.
    + lia.
    + cbn. unfold in_i. lia.
    + cbn. unfold in_i. lia.
    + apply (bo_control _ _ Hb).
    + exists s'. cbn [v2_BaseOffset bt_hdr] in E. rewrite Z.add_0_r in E. auto.
Qed.

Lemma win_widen en s pos a r s' :
  window rb i seg st en s pos (a ++ r) -> window rb i seg st (pos + zlen a) s' (pos + zlen a) [] ->
  window rb i seg st en (rd_slice_widen s' s) (pos + zlen a) r.
Proof.
  intros W W'. pose proof (win_next _ _ _ _ _ _ _ _ _ W) as W1.
  destruct W' as [[E1 E2] [E3 E4] E5 E6 E7 E8 _]. destruct W1 as [_ [_ F4] _ F6 F7 F8 F9].
  constructor; cbn; auto.
Qed.

Lemma v2_payload_ok run en s pos b r m :
  window rb i seg st en s pos (bt_data b ++ r) -> batch_ok cod b -> aborted_ok (msetr_aborted_txns m) ->
  let m1 := set_codec m (bt_codec b) in
  exists s', v2_payload conf cod junk run rb (bt_hdr b) (zlen (bt_data b)) s m =
    Some (s', if bt_aborted m1 b then set_cnts m1 (msetr_ctrl_cnt m1) (i32 (msetr_aborted_cnt m1 + 1))
              else add_ops m1 (consumed_all conf (bt_hdr b) (rktp_fetch_offset m1) (bt_base b) (bt_msgs b)), inl tt) /\
    window rb i seg st en s' (pos + zlen (bt_data b)) r.
Proof.
  intros W Hb Ha m1. pose proof (bo_data _ _ Hb) as Hd. unfold m1, set_codec. clear m1.
  unfold v2_payload. cbn [v2_Attributes bt_hdr]. fold (bt_codec b).
  destruct (Z.eqb_spec (bt_codec b) 0) as [E0 | E0]; cbn [negb].
  - destruct (win_narrow rb i seg st en s pos _ (zlen (bt_data b)) W ltac:(zlen_lia)) as (-> & _ & Wn).
    rewrite ztake_app, ztake_all, Z.sub_diag, ztake_nonpos, app_nil_r in Wn by lia.
    assert (window rb i seg st (pos + zlen (bt_data b)) (slice_set_end s (pos + zlen (bt_data b))) pos (bt_records b))
      as Wr by (rewrite <- Hd; exact Wn).
    destruct (msgs_v2_ok rb i seg st _ _ pos b m Wr Hb Ha) as (s' & E & W').
    fold (bt_hdr b). rewrite E. eexists. split; [reflexivity |].
    now apply win_widen with (a := bt_data b).
  - destruct Hd as [Hd Hl].
    rewrite (win_contig _ _ _ _ _ _ _ _ (zlen (bt_data b)) W), zlen_app by lia. ztest.
    rewrite ztake_app, ztake_all, Z.sub_diag, ztake_nonpos, app_nil_r by lia.
    unfold rd_kafka_msgset_reader_decompress. fold (bt_codec b). rewrite Hd.
    destruct (shadow_window junk (bt_records b) (Some RD_FREE) Hl) as (rbz & sz & -> & segz & Wz).
    destruct (msgs_v2_ok rbz 0 segz 0 _ sz 0 b (set_compression m (bt_codec b)) Wz Hb Ha) as (s' & E & _).
    fold (bt_hdr b). rewrite E. eexists. split; [reflexivity |]. now apply win_next.
Qed.

Lemma v2_ok run en s pos b r m :
  window rb i seg st en s pos (bt_bytes b ++ r) -> batch_ok cod b -> aborted_ok (msetr_aborted_txns m) ->
  exists s', rd_kafka_msgset_reader_v2 conf cod junk addr run rb s m = Some (s', batch_effect m b, 0) /\
    window rb i seg st en s' (pos + zlen (bt_bytes b)) r.
Proof.
  intros W Hb Ha. unfold rd_kafka_msgset_reader_v2, p_result, v2_body.
  pose proof (bh_base _ (bo_hdr _ _ Hb)). pose proof (bh_delta _ (bo_hdr _ _ Hb)).
  destruct (v2_header_ok en s pos b r m W (bo_hdr _ _ Hb)) as (s1 & E & W1).
  unfold p_bind at 1. rewrite E. rewrite bind_state. rewrite batch_bytes_len, Z.add_assoc.
  assert (i64 (bt_last b + 1) = bt_last b + 1) as Hi
    by (apply swrap_small; [lia | unfold bt_last, in_i; lia]).
  unfold batch_effect. cbv zeta. destruct (bt_last b <? rktp_fetch_offset m).
  - destruct (buf_skip_ok _ _ _ _ _ _ _ _ _ _ W1 eq_refl) as (s2 & E2 & W2).
    rewrite (bind_read _ _ _ _ _ _ E2), bind_update, Hi. exists s2. auto.
  - cbn [v2_Attributes bt_hdr]. rewrite (bo_control _ _ Hb). cbn [Z.eqb negb].
    destruct (v2_payload_ok run en s1 _ b r m W1 Hb Ha) as (s2 & E2 & W2). cbv zeta in E2.
    unfold p_bind, p_update, p_ret. rewrite E2.
    rewrite Hi. exists s2. split; [reflexivity | exact W2].
Qed.

(** ** Control batches *)

(** A marker's record: the version of its key is 0; what follows the type is skipped. *)
Definition ctrl_body (ts_delta type : Z) (rest : bytes) : bytes :=
  be_enc 1 0 ++ zvarint ts_delta ++ zvarint 0 ++ zvarint 4 ++ be_enc 2 0 ++ be_enc 2 type ++ rest.
Definition ctrl_record (ts_delta type : Z) (rest : bytes) : bytes :=
  zvarint (zlen (ctrl_body ts_delta type rest)) ++ ctrl_body ts_delta type rest.

Record mark_ok (b : batch) (type : Z) : Prop := {
  mo_hdr : batch_hdr_ok b;
  mo_control : Z.land (bt_attributes b) RD_KAFKA_MSGSET_V2_ATTR_CONTROL <> 0;
  mo_codec : bt_codec b = 0;
  mo_delta : bt_last_delta b = 0;
  mo_type : in_i 16 type;
  mo_data : exists ts_delta rest, in_i 64 ts_delta /\ bt_data b = ctrl_record ts_delta type rest }.

(** An abort marker ends the first transaction that is left. *)
Definition mark_txns (m : rd_kafka_msgset_reader_t) (b : batch) (type : Z) : option rd_kafka_aborted_txns :=
  match msetr_aborted_txns m with
  | Some t =>
      if (type =? RD_KAFKA_CTRL_MSG_ABORT) && read_committed conf
      then fst <$> rd_kafka_aborted_txns_pop_offset t (bt_pid b) (bt_base b) else Some t
  | None => None
  end.

Definition mark_effect (m : rd_kafka_msgset_reader_t) (b : batch) (type : Z) : rd_kafka_msgset_reader_t :=
  set_next_offset
    (if bt_base b <? rktp_fetch_offset m then m
     else
       let m := set_cnts m (i32 (msetr_ctrl_cnt m + 1)) (msetr_aborted_cnt m) in
       let m := set_aborted_txns m (mark_txns m b type) in
       let m := msetr_enq m (rd_kafka_op_new_ctrl_msg conf (bt_base b)) in
       set_msgcnt m (i32 (msetr_msgcnt m + 1)) (msetr_msg_bytes m))
    (bt_base b + 1).

Lemma pop_offset_ok t pid mx :
  at_inv t -> exists t' v, rd_kafka_aborted_txns_pop_offset t pid mx = Some (t', v) /\ at_inv t'.
Proof.
  intros H. pose proof (next_offset_spec t pid true mx H) as Hs.
  unfold rd_kafka_aborted_txns_pop_offset. destruct (remaining t pid) as [| o l]; [eauto |].
  destruct (_ <? o); [eauto |]. destruct Hs as (t' & -> & H' & _). eauto.
Qed.

Lemma mark_txns_ok m b type : aborted_ok (msetr_aborted_txns m) -> aborted_ok (mark_txns m b type).
Proof.
  intros H t. unfold mark_txns. destruct (msetr_aborted_txns m) as [t0 |]; [| discriminate].
  destruct (_ && _); [| apply H].
  destruct (pop_offset_ok t0 (bt_pid b) (bt_base b) (H t0 eq_refl)) as (t' & v & -> & H'). cbn. congruence.
Qed.

(** The record of a marker that is not behind the fetch offset. *)
Lemma ctrl_msg_ok en s pos b type m :
  window rb i seg st en s pos (bt_data b) -> mark_ok b type -> aborted_ok (msetr_aborted_txns m) ->
  rktp_fetch_offset m <= bt_base b ->
  exists s', rd_kafka_msgset_reader_msg_v2 conf rb (bt_hdr b) s m =
      Some (s', let m := set_aborted_txns m (mark_txns m b type) in
                let m := msetr_enq m (rd_kafka_op_new_ctrl_msg conf (bt_base b)) in
                set_msgcnt m (i32 (msetr_msgcnt m + 1)) (msetr_msg_bytes m), 0) /\
    window rb i seg st en s' en [].
Proof.
  intros W Hm Ha Hfo. destruct (mo_data _ _ Hm) as (tsd & rest & Htsd & Hd). pose proof (mo_hdr _ _ Hm) as Hh.
  pose proof (bh_base _ Hh). destruct (bh_bytes _ Hh) as [_ Hdl]. rewrite Hd in W, Hdl. unfold ctrl_record in W, Hdl.
  rewrite zlen_app in Hdl. set (body := ctrl_body tsd type rest) in *.
  unfold rd_kafka_msgset_reader_msg_v2, p_result, msg_v2_body.
  pose proof (zvarint_range (zlen body) ltac:(unfold in_i; lia)) as Hvl.
  rd_step (read_varint_ok _ _ _ _ _ _ _ (zlen body) _ ltac:(unfold in_i; lia) W).
  rewrite bind_slice, (win_offset _ _ _ _ _ _ _ _ W0).
  pose proof (wd_in _ _ _ _ _ _ _ _ W0) as Hin. pose proof (win_len _ _ _ _ _ _ _ _ W0) as Hl0.
  rewrite (wrap_small 64 (zlen body)), wrap_small by lia. set (message_end := _ + zlen body).
  unfold body, ctrl_body in W0.
  rd_step (read_i8_ok _ _ _ _ _ _ _ 0 _ ltac:(unfold in_i; lia) W0).
  rd_step (read_varint_ok _ _ _ _ _ _ _ tsd _ Htsd W1).
  rd_step (read_varint_ok _ _ _ _ _ _ _ 0 _ ltac:(unfold in_i; lia) W2).
  rewrite bind_state. cbn [v2_BaseOffset v2_Attributes bt_hdr]. rewrite Z.add_0_r, swrap_small by (lia || (unfold in_i; lia)).
  ztest. destruct (Z.eqb_spec (Z.land (bt_attributes b) RD_KAFKA_MSGSET_V2_ATTR_CONTROL) 0) as [E0 | _];
    [now destruct (mo_control _ _ Hm) |]. cbn [negb].
  unfold ctrl_msg_body.
  destruct (read_varint_ok _ _ _ _ _ _ _ 4 _ ltac:(unfold in_i; lia) W3) as (s4 & E4 & W4).
  rewrite (bind_read _ _ _ _ _ _ E4). change (4 <? 2) with false. cbn match.
  destruct (read_i16_ok _ _ _ _ _ _ _ 0 _ ltac:(unfold in_i; lia) W4) as (s5 & E5 & W5).
  rewrite (bind_read _ _ _ _ _ _ E5). change (negb (0 =? 0)) with false. change (negb (4 =? 4)) with false. cbn match.
  destruct (read_i16_ok _ _ _ _ _ _ _ type _ (mo_type _ _ Hm) W5) as (s6 & E6 & W6).
  rewrite (bind_read _ _ _ _ _ _ E6), bind_slice, (win_offset _ _ _ _ _ _ _ _ W6).
  match type of W6 with window _ _ _ _ _ _ ?p _ => set (p6 := p) in * end.
  rewrite <- (app_nil_r rest) in W6.
  pose proof (win_len _ _ _ _ _ _ _ _ W6) as Hl6. rewrite zlen_app in Hl6. cbn [length] in Hl6.
  assert (zlen body = en - p6 + (p6 - (pos + zlen (zvarint (zlen body))))) as Hb6 by lia.
  match goal with |- context [message_end - ?x] => change x with (p6 - st) end.
  assert (i32 (u64 (message_end - (p6 - st))) = zlen rest) as ->.
  { unfold message_end. pose proof (wd_in _ _ _ _ _ _ _ _ W6). rewrite wrap_small by lia.
    rewrite swrap_small by (lia || (unfold in_i; lia)). lia. }
  destruct (buf_skip_ok _ _ _ _ _ _ _ rest [] (zlen rest) W6 eq_refl) as (s7 & E7 & W7).
  rewrite (bind_read _ _ _ _ _ _ E7), bind_state. exists s7. split.
  2: { pose proof (win_len _ _ _ _ _ _ _ _ W7) as Hl7. cbn in Hl7. now replace (p6 + zlen rest) with en in W7 by lia. }
  unfold mark_txns. destruct (msetr_aborted_txns m) as [t |] eqn:Et.
  - destruct (_ && _).
    + destruct (pop_offset_ok t (bt_pid b) (bt_base b) (Ha t eq_refl)) as (t' & v & E & _).
      unfold p_bind, p_some, p_update. change (v2_PID (bt_hdr b)) with (bt_pid b). rewrite E. reflexivity.
    + rewrite bind_ret, bind_update. unfold p_ret. do 3 f_equal. now destruct m; cbn in *; subst.
  - rewrite bind_ret, bind_update. unfold p_ret. do 3 f_equal. now destruct m; cbn in *; subst.
Qed.

Lemma mark_not_aborted m b type : mark_ok b type -> msgset_aborted (bt_hdr b) m = Some false.
Proof.
  intros Hb. unfold msgset_aborted. destruct (msetr_aborted_txns m); [| reflexivity]. cbn [v2_Attributes bt_hdr].
  destruct (Z.eqb_spec (Z.land (bt_attributes b) (Z.lor RD_KAFKA_MSGSET_V2_ATTR_TRANSACTIONAL
    RD_KAFKA_MSGSET_V2_ATTR_CONTROL)) RD_KAFKA_MSGSET_V2_ATTR_TRANSACTIONAL) as [E |]; [exfalso | reflexivity].
  apply (mo_control _ _ Hb). apply (f_equal (fun x => Z.land x RD_KAFKA_MSGSET_V2_ATTR_CONTROL)) in E.
  rewrite <- Z.land_assoc in E. exact E.
Qed.

Lemma mark_v2_ok run en s pos b type r m :
  window rb i seg st en s pos (bt_bytes b ++ r) -> mark_ok b type -> aborted_ok (msetr_aborted_txns m) ->
  exists s', rd_kafka_msgset_reader_v2 conf cod junk addr run rb s m = Some (s', mark_effect m b type, 0) /\
    window rb i seg st en s' (pos + zlen (bt_bytes b)) r.
Proof.
  intros W Hb Ha. unfold rd_kafka_msgset_reader_v2, p_result, v2_body. pose proof (mo_hdr _ _ Hb) as Hh.
  pose proof (bh_base _ Hh). assert (bt_last b = bt_base b) as El by (unfold bt_last; rewrite (mo_delta _ _ Hb); lia).
  destruct (v2_header_ok en s pos b r m W Hh) as (s1 & E & W1).
  unfold p_bind at 1. rewrite E, El, bind_state, batch_bytes_len, Z.add_assoc.
  assert (i64 (bt_base b + 1) = bt_base b + 1) as Hi by (apply swrap_small; [lia | unfold in_i; lia]).
  unfold mark_effect. cbv zeta. destruct (Z.ltb_spec (bt_base b) (rktp_fetch_offset m)).
  - destruct (buf_skip_ok _ _ _ _ _ _ _ _ _ _ W1 eq_refl) as (s2 & E2 & W2).
    rewrite (bind_read _ _ _ _ _ _ E2), bind_update, Hi. exists s2. auto.
  - cbn [v2_Attributes bt_hdr].
    destruct (Z.eqb_spec (Z.land (bt_attributes b) RD_KAFKA_MSGSET_V2_ATTR_CONTROL) 0) as [E0 | _];
      [now destruct (mo_control _ _ Hb) |]. cbn [negb].
    unfold p_bind, p_update, v2_payload. cbn [v2_Attributes bt_hdr]. fold (bt_codec b).
    rewrite (mo_codec _ _ Hb). change (negb (0 =? 0)) with false. cbn match.
    destruct (win_narrow rb i seg st en s1 _ _ (zlen (bt_data b)) W1 ltac:(zlen_lia)) as (-> & _ & Wn).
    rewrite ztake_app, ztake_all, Z.sub_diag, ztake_nonpos, app_nil_r in Wn by lia.
    set (m1 := set_cnts m (i32 (msetr_ctrl_cnt m + 1)) (msetr_aborted_cnt m)).
    destruct (ctrl_msg_ok _ _ _ b type m1 Wn Hb Ha ltac:(assumption)) as (s2 & E2 & W2).
    assert (0 < zlen (bt_data b)) as Hpos.
    { destruct (mo_data _ _ Hb) as (tsd & rest & _ & ->). unfold ctrl_record, ctrl_body. rewrite !zlen_app, !length_be_enc. lia. }
    unfold rd_kafka_msgset_reader_msgs_v2. rewrite (mark_not_aborted m1 b type Hb).
    rewrite (win_remains _ _ _ _ _ _ _ _ Wn).
    destruct (Z.to_nat (zlen (bt_data b))) as [| n] eqn:En; [lia |]. cbn [msgs_v2_loop].
    unfold rd_kafka_buf_read_remain. rewrite (win_remains _ _ _ _ _ _ _ _ Wn), E2. ztest. cbn [negb Z.eqb].
    assert (msgs_v2_loop conf rb n (bt_hdr b) s2 = fun m => Some (s2, m, 0)) as ->.
    { destruct n; cbn [msgs_v2_loop]; unfold rd_kafka_buf_read_remain; rewrite (win_remains _ _ _ _ _ _ _ _ W2); reflexivity. }
    cbn [negb Z.eqb]. rewrite Hi. unfold p_ret. eexists. split; [reflexivity |].
    now apply win_widen with (a := bt_data b).
Qed.

(** ** A batch the response ends in *)

(** The result of a parser that runs out of data. *)
Definition runs_short {A} (en : Z) (x : option (rd_slice * rd_kafka_msgset_reader_t * (A + Z)))
  (m : rd_kafka_msgset_reader_t) : Prop :=
  exists s' pos' r', x = Some (s', m, inr RD_KAFKA_RESP_ERR__UNDERFLOW) /\ window rb i seg st en s' pos' r'.

Lemma short_fail {A B} (rd : reader A) (k : A -> parser B) en s pos r m :
  window rb i seg st en s pos r -> rd s = Some (s, inr RD_KAFKA_RESP_ERR__UNDERFLOW) ->
  runs_short en (p_bind (p_read rd) k s m) m.
Proof. intros W E. exists s, pos, r. split; [now apply bind_fail | exact W]. Qed.

(** A field of [n] bytes at the start of what is cut off after [k]. *)
Lemma short_field {A B} (rd : reader A) (x : A) (kont : A -> parser B) en s pos a rest k m :
  window rb i seg st en s pos (ztake k (a ++ rest)) ->
  (k < zlen a -> rd s = Some (s, inr RD_KAFKA_RESP_ERR__UNDERFLOW)) ->
  (forall r, window rb i seg st en s pos (a ++ r) ->
     exists s', rd s = Some (s', inl x) /\ window rb i seg st en s' (pos + zlen a) r) ->
  (forall s', zlen a <= k -> window rb i seg st en s' (pos + zlen a) (ztake (k - zlen a) rest) ->
     runs_short en (kont x s' m) m) ->
  runs_short en (p_bind (p_read rd) kont s m) m.
Proof.
  intros W Hshort Hok Hk. destruct (Z.lt_ge_cases k (zlen a)) as [Hlt | Hge].
  - eapply short_fail; [exact W | auto].
  - rewrite ztake_app, ztake_all in W by lia. destruct (Hok _ W) as (s' & E & W').
    rewrite (bind_read _ _ _ _ _ _ E). auto.
Qed.

(** The next field of a header that is cut off, read by the lemma [L]. *)
Ltac short_step L :=
  eapply short_field;
  [ eassumption
  | intros; eapply read_int_short; [eassumption | rewrite ?zlen_take, ?zlen_app, ?length_be_enc in *; lia]
  | intros; eapply L; [| eassumption]
  | rewrite ?length_be_enc; intros ].

Lemma v2_header_short en s pos b k m :
  window rb i seg st en s pos (ztake k (bt_bytes b)) -> batch_hdr_ok b -> 0 <= k < zlen (bt_bytes b) ->
  runs_short en (v2_header_body conf addr rb s m) m.
Proof.
  intros W Hb Hk. pose proof (bt_tail_len b) as Htl. destruct (bh_bytes _ Hb) as [Hby Hdl].
  destruct (bh_pid _ Hb) as (Hpid & Hpe & Hseq & Hcnt). destruct (bh_times _ Hb) as [Ht1 Ht2].
  pose proof (bh_base _ Hb). pose proof (bh_delta _ Hb). rewrite batch_bytes_len in Hk.
  assert (bt_bytes b = be_enc 8 (bt_base b) ++ be_enc 4 (zlen (bt_tail b) + 9) ++ be_enc 4 (bt_epoch b)
    ++ be_enc 1 2 ++ be_enc 4 (i32 (crc_reference POLY 0 (bt_tail b))) ++ bt_tail b) as Eb
    by (now rewrite be_enc_i32).
  rewrite Eb in W. clear Eb. unfold v2_header_body.
  short_step read_i64_ok. { unfold in_i; lia. }
  short_step read_i32_ok. { unfold in_i; lia. }
  rewrite bind_slice. change (RD_KAFKAP_MSGSET_V2_SIZE - 8 - 4) with 49. ztest.
  short_step read_i32_ok. { apply (bh_epoch _ Hb). }
  short_step read_i8_ok. { unfold in_i; lia. }
  short_step read_i32_ok. { apply swrap_range; lia. }
  replace (zlen (bt_tail b) + 9 - 4 - 1 - 4) with (zlen (bt_tail b)) by lia.
  rewrite (wrap_small 64 (zlen (bt_tail b))) by lia.
  match goal with W : window _ _ _ _ _ ?x ?p (ztake ?k (bt_tail b)) |- _ =>
    rename x into s4; rename W into W4; remember p as p4 eqn:Ep4; remember k as k4 eqn:Ek4 end.
  assert (k4 < zlen (bt_tail b)) as Hk4 by lia.
  destruct (check_crcs conf).
  - destruct (win_narrow_err _ _ _ _ _ _ _ _ (zlen (bt_tail b)) W4) as [_ Hn]; [rewrite zlen_take; lia |].
    exists s4, p4, (ztake k4 (bt_tail b)). split; [| exact W4].
    unfold p_bind, p_slice, p_some, p_read. rewrite Hn.
    rewrite (check_len_short _ _ _ _ _ _ _ _ (zlen (bt_tail b)) W4); [reflexivity | rewrite zlen_take; lia].
  - rewrite bind_ret. cbn [negb].
    match goal with W : window _ _ _ _ _ ?x _ (ztake _ (be_enc 4 (bt_epoch b) ++ _)) |- _ => rename W into W2 end.
    unfold bt_tail, batch_tail in W4.
    short_step read_i16_ok. { apply (bh_attributes _ Hb). }
    short_step read_i32_ok. { unfold in_i; lia. }
    short_step read_i64_ok. { apply Ht1. }
    short_step read_i64_ok. { apply Ht2. }
    short_step read_i64_ok. { apply Hpid. }
    short_step read_i16_ok. { apply Hpe. }
    short_step read_i32_ok. { apply Hseq. }
    short_step read_i32_ok. { apply Hcnt. }
    match goal with W : window _ _ _ _ _ ?x ?p (ztake _ (bt_data b)) |- _ =>
      rename x into s9; rename W into W9 end.
    rewrite bind_slice, (win_offset _ _ _ _ _ _ _ _ W9), (win_offset _ _ _ _ _ _ _ _ W2).
    match goal with |- context [u64 (?a - st - ?c)] => replace (a - st - c) with 49 by lia end.
    change (u64 49) with 49.
    replace (zlen (bt_tail b) + 9 - 49) with (zlen (bt_data b)) by lia. rewrite (wrap_small 64 (zlen (bt_data b))) by lia.
    unfold rd_kafka_buf_read_remain. rewrite (win_remains _ _ _ _ _ _ _ _ W9), zlen_take. ztest.
    eexists _, _, _. split; [reflexivity | exact W9].
Qed.

Lemma v2_short run en s pos b k m :
  window rb i seg st en s pos (ztake k (bt_bytes b)) -> batch_hdr_ok b -> 0 <= k < zlen (bt_bytes b) ->
  exists s' pos' r', rd_kafka_msgset_reader_v2 conf cod junk addr run rb s m =
    Some (s', m, RD_KAFKA_RESP_ERR__UNDERFLOW) /\ window rb i seg st en s' pos' r'.
Proof.
  intros W Hb Hk. destruct (v2_header_short en s pos b k m W Hb Hk) as (s' & pos' & r' & E & W').
  exists s', pos', r'. split; [| exact W']. unfold rd_kafka_msgset_reader_v2, p_result, v2_body, p_bind at 1.
  now rewrite E.
Qed.

(** ** The loop over the batches *)

(** The magic byte, if it is there. *)
Lemma peek_ok en s pos r m :
  window rb i seg st en s pos r -> 17 <= zlen r -> r !! 16%nat = Some 2 ->
  rd_kafka_msgset_reader_peek_msg_version rb s m = Some (s, m, inl 2).
Proof.
  intros W Hl H2. pose proof (win_len _ _ _ _ _ _ _ _ W). pose proof (wd_in _ _ _ _ _ _ _ _ W).
  unfold rd_kafka_msgset_reader_peek_msg_version, peek_body. rewrite bind_slice, (win_offset _ _ _ _ _ _ _ _ W).
  rewrite wrap_small by lia. unfold rd_kafka_buf_peek_i8, rd_kafka_buf_peek, r_bind, p_bind, p_read.
  change (u64 1) with 1. rewrite (win_peek _ _ _ _ _ _ _ _ (pos - st + 8 + 4 + 4) 1 W) by lia. ztest. cbn [andb].
  change (1 =? 0) with false. cbn match.
  replace (pos - st + 8 + 4 + 4 - (pos - st)) with 16 by lia.
  assert (ztake 1 (zdrop 16 r) = [2]) as ->.
  { unfold ztake, zdrop. change (Z.to_nat 16) with 16%nat. change (Z.to_nat 1) with 1%nat.
    rewrite (drop_S _ _ _ H2). reflexivity. }
  reflexivity.
Qed.

Lemma peek_short en s pos r m :
  window rb i seg st en s pos r -> zlen r < 17 ->
  rd_kafka_msgset_reader_peek_msg_version rb s m = Some (s, m, inr RD_KAFKA_RESP_ERR__BAD_MSG).
Proof.
  intros W Hl. pose proof (win_len _ _ _ _ _ _ _ _ W). pose proof (wd_in _ _ _ _ _ _ _ _ W).
  unfold rd_kafka_msgset_reader_peek_msg_version, peek_body. rewrite bind_slice, (win_offset _ _ _ _ _ _ _ _ W).
  rewrite wrap_small by lia. unfold rd_kafka_buf_peek_i8, rd_kafka_buf_peek, r_bind, p_bind, p_read.
  change (u64 1) with 1. rewrite (win_peek _ _ _ _ _ _ _ _ (pos - st + 8 + 4 + 4) 1 W) by lia.
  replace ((pos - st + 8 + 4 + 4 <? en - st) && (pos - st + 8 + 4 + 4 + 1 <=? en - st)) with false.
  2: { symmetry. apply andb_false_iff. right. apply Z.leb_gt. lia. }
  change (0 =? 0) with true. cbn match.
  rewrite (check_len_short _ _ _ _ _ _ _ _ _ W) by lia. reflexivity.
Qed.

Lemma bt_magic b : bt_bytes b !! 16%nat = Some 2.
Proof. reflexivity. Qed.

(** What may follow the last whole batch: a part of one more. *)
Definition cut_off (t : bytes) : Prop :=
  exists b k, batch_hdr_ok b /\ 0 <= k < zlen (bt_bytes b) /\ t = ztake k (bt_bytes b).

Lemma lookup_ztake_byte k (b : batch) :
  17 <= k -> ztake k (bt_bytes b) !! 16%nat = Some 2.
Proof. intros Hk. unfold ztake. rewrite lookup_take, decide_True by lia. apply bt_magic. Qed.

Lemma sets_loop_cut n run outer en s pos t m :
  window rb i seg st en s pos t -> cut_off t ->
  exists s' pos' r', reader_sets_loop conf cod junk addr (S n) run outer rb s m =
      Some (s', m, if zlen t <? 17 then 0 else RD_KAFKA_RESP_ERR__UNDERFLOW) /\
    window rb i seg st en s' pos' r'.
Proof.
  intros W (b & k & Hb & Hk & Et). cbn [reader_sets_loop]. destruct (Z.lt_ge_cases (zlen t) 17) as [Hs | Hs].
  - rewrite (peek_short _ _ _ _ _ W Hs). ztest. exists s, pos, t. auto.
  - assert (17 <= k) as Hk17 by (subst t; rewrite zlen_take in Hs; lia).
    rewrite (peek_ok _ _ _ _ m W Hs) by (rewrite Et; now apply lookup_ztake_byte).
    change (2 =? 2) with true. cbn match. rewrite Et in W.
    destruct (v2_short run en s pos b k m W Hb Hk) as (s' & pos' & r' & -> & W').
    cbn [andb Z.eqb]. ztest. exists s', pos', r'. auto.
Qed.

Lemma batch_effect_aborted m b : msetr_aborted_txns (batch_effect m b) = msetr_aborted_txns m.
Proof.
  unfold batch_effect. cbn [set_next_offset msetr_aborted_txns].
  destruct (_ <? _); [reflexivity |]. cbv zeta.
  assert (forall c, msetr_aborted_txns (set_codec m c) = msetr_aborted_txns m) as Hc
    by (intros c; unfold set_codec; now destruct (c =? 0)).
  destruct (bt_aborted _ b); cbn; [apply Hc |].
  now rewrite (proj1 (proj2 (add_ops_fields _ _))), Hc.
Qed.

Lemma mark_effect_aborted m b type :
  aborted_ok (msetr_aborted_txns m) -> aborted_ok (msetr_aborted_txns (mark_effect m b type)).
Proof.
  intros H. unfold mark_effect. cbn [set_next_offset msetr_aborted_txns].
  destruct (_ <? _); [exact H |]. cbn. now apply mark_txns_ok.
Qed.

(** What a partition's log has: batches of messages, and transaction markers. *)
Inductive entry : Type :=
| EData (b : batch)
| EMark (b : batch) (type : Z).

Definition entry_batch (e : entry) : batch := match e with EData b | EMark b _ => b end.
Definition entry_bytes (e : entry) : bytes := bt_bytes (entry_batch e).
Definition entry_ok (e : entry) : Prop :=
  match e with EData b => batch_ok cod b | EMark b type => mark_ok b type end.
Definition entry_effect (m : rd_kafka_msgset_reader_t) (e : entry) : rd_kafka_msgset_reader_t :=
  match e with EData b => batch_effect m b | EMark b type => mark_effect m b type end.

Lemma entry_v2_ok run en s pos e r m :
  window rb i seg st en s pos (entry_bytes e ++ r) -> entry_ok e -> aborted_ok (msetr_aborted_txns m) ->
  (exists s', rd_kafka_msgset_reader_v2 conf cod junk addr run rb s m = Some (s', entry_effect m e, 0) /\
    window rb i seg st en s' (pos + zlen (entry_bytes e)) r) /\
  aborted_ok (msetr_aborted_txns (entry_effect m e)).
Proof.
  destruct e as [b | b type]; cbn [entry_ok entry_effect entry_batch]; intros W He Ha.
  - split; [now apply v2_ok | now rewrite batch_effect_aborted].
  - split; [now apply mark_v2_ok | now apply mark_effect_aborted].
Qed.

Lemma sets_loop_ok run outer en es : forall n s pos t m,
  window rb i seg st en s pos (concat (map entry_bytes es) ++ t) -> Forall entry_ok es ->
  t = [] \/ cut_off t -> (length es < n)%nat -> 0 < zlen (concat (map entry_bytes es) ++ t) ->
  aborted_ok (msetr_aborted_txns m) ->
  exists s' err pos' r', reader_sets_loop conf cod junk addr n run outer rb s m =
      Some (s', fold_left entry_effect es m, err) /\
    window rb i seg st en s' pos' r' /\
    (err = 0 \/ 17 <= zlen t /\ err = RD_KAFKA_RESP_ERR__UNDERFLOW).
Proof.
  induction es as [| e es IH]; intros n s pos t m W Hes Ht Hn Hpos Ha; cbn [map concat app fold_left] in *.
  - destruct n as [| n]; [lia |]. destruct Ht as [-> | Ht]; [cbn in Hpos; lia |].
    destruct (sets_loop_cut n run outer en s pos t m W Ht) as (s' & pos' & r' & -> & W').
    exists s', (if zlen t <? 17 then 0 else RD_KAFKA_RESP_ERR__UNDERFLOW), pos', r'.
    split; [reflexivity |]. split; [exact W' |]. destruct (Z.ltb_spec (zlen t) 17); auto.
  - apply Forall_cons_iff in Hes as [He Hes]. destruct n as [| n]; [lia |]. cbn [reader_sets_loop length] in *.
    rewrite <- app_assoc in W. pose proof (batch_bytes_len (entry_batch e)) as Hbl. fold (entry_bytes e) in Hbl.
    rewrite (peek_ok _ _ _ _ m W).
    2: rewrite zlen_app; lia.
    2: rewrite lookup_app_l by lia; apply bt_magic.
    change (2 =? 2) with true. cbn match.
    destruct (entry_v2_ok run en s pos e _ m W He Ha) as [(s1 & -> & W1) Ha1]. cbn [Z.eqb andb].
    rewrite (win_remains _ _ _ _ _ _ _ _ W1).
    destruct (zlen (concat (map entry_bytes es) ++ t) >? 0) eqn:E.
    + apply IH with (pos := pos + zlen (entry_bytes e)); auto; lia.
    + assert (concat (map entry_bytes es) ++ t = []) as E0
        by (apply nil_length_inv; zlia).
      apply app_eq_nil in E0 as [E0 ->].
      destruct es as [| e2 es]; [| cbn [map concat] in E0; apply app_eq_nil in E0 as [E0 _]; discriminate].
      cbn [fold_left]. exists s1, 0, (pos + zlen (entry_bytes e)), []. auto.
Qed.

End Batches.
