(* ===== verification/MsgReaderProps.v ===== *)
(** * The message set reader, properties

    What a Fetch response with record batches becomes on the fetch queue; the round trip
    of what a producer wrote; aborted transactions; malformed input. *)

From S2P Require Import Prelude Varint RdBuf Slice Crc Header HeaderProps Msgq KafkaBuf KafkaBufFacts RecordBatch.
From S2P Require Import MsgWriter MsgWriterFacts MsgWriterProps MsgReader ReadFacts Aborted MsgReaderFacts.

(** ** Runs over batches *)

Section Runs.
Context (conf : fetch_conf) (cod : codecs) (junk : Z -> Z) (addr : nat -> Z).

(** What reaches the application of a batch. *)
Definition delivered (fetch_offset : Z) (tx : option rd_kafka_aborted_txns) (b : batch) : list fetch_op :=
  if bt_last b <? fetch_offset then []
  else if bt_aborted (rd_kafka_msgset_reader_init 0 0 tx) b then []
  else consumed_all conf (bt_hdr b) fetch_offset (bt_base b) (bt_msgs b).

(** Of an entry of the log; and the aborted transactions after it. *)
Definition entry_delivers (fetch_offset : Z) (tx : option rd_kafka_aborted_txns) (e : entry) : list fetch_op :=
  match e with
  | EData b => delivered fetch_offset tx b
  | EMark b _ => if bt_base b <? fetch_offset then [] else [rd_kafka_op_new_ctrl_msg conf (bt_base b)]
  end.
Definition entry_txns (fetch_offset : Z) (tx : option rd_kafka_aborted_txns) (e : entry)
  : option rd_kafka_aborted_txns :=
  match e with
  | EData _ => tx
  | EMark b type =>
      if bt_base b <? fetch_offset then tx else mark_txns conf (rd_kafka_msgset_reader_init 0 0 tx) b type
  end.

Fixpoint delivered_all fetch_offset tx (es : list entry) : list fetch_op :=
  match es with
  | [] => []
  | e :: es => entry_delivers fetch_offset tx e ++ delivered_all fetch_offset (entry_txns fetch_offset tx e) es
  end.

Definition entry_last (e : entry) : Z := bt_last (entry_batch e).

(** The fields of the reader after the entries. *)
Record effects (m m' : rd_kafka_msgset_reader_t) (ops : list fetch_op) (next : Z)
  (tx : option rd_kafka_aborted_txns) : Prop := {
  ef_rkq : msetr_rkq m' = msetr_rkq m ++ ops;
  ef_msgcnt : msetr_msgcnt m' = i32 (msetr_msgcnt m + zlen ops);
  ef_next : msetr_next_offset m' = next;
  ef_offset : rktp_fetch_offset m' = rktp_fetch_offset m;
  ef_max : rktp_fetch_msg_max_bytes m' = rktp_fetch_msg_max_bytes m;
  ef_txns : msetr_aborted_txns m' = tx }.

Lemma add_ops_effects ops : forall m,
  in_i 32 (msetr_msgcnt m) -> effects m (add_ops m ops) ops (msetr_next_offset m) (msetr_aborted_txns m).
Proof.
  induction ops as [| x ops IH] using rev_ind; intros m Hc.
  - constructor; cbn; rewrite ?app_nil_r; auto. rewrite Z.add_0_r. symmetry. now apply swrap_small.
  - rewrite add_ops_app. cbn [add_ops fold_left].
    destruct (IH m Hc) as [E1 E2 E3 E4 E5 E6]. constructor; cbn; auto.
    + now rewrite E1, app_assoc.
    + rewrite E2, length_app. cbn [length]. rewrite swrap_add_l by lia. f_equal. lia.
Qed.

Lemma entry_effect_spec m e :
  in_i 32 (msetr_msgcnt m) -> entry_ok cod e ->
  effects m (entry_effect conf m e) (entry_delivers (rktp_fetch_offset m) (msetr_aborted_txns m) e)
    (entry_last e + 1) (entry_txns (rktp_fetch_offset m) (msetr_aborted_txns m) e).
Proof.
  intros Hc He. pose proof (add_ops_effects [] m Hc) as H0. cbn [add_ops fold_left] in H0.
  unfold entry_last. destruct e as [b | b type]; cbn [entry_effect entry_delivers entry_txns entry_batch].
  - unfold batch_effect, delivered.
    destruct (_ <? _); [destruct H0; now constructor |]. cbv zeta. set (m1 := set_codec m (bt_codec b)).
    assert (effects m m1 [] (msetr_next_offset m) (msetr_aborted_txns m) /\ in_i 32 (msetr_msgcnt m1)) as [H1 Hc1].
    { unfold m1, set_codec. destruct (_ =? 0); [auto |]. split; [destruct H0; now constructor | exact Hc]. }
    assert (bt_aborted m1 b = bt_aborted (rd_kafka_msgset_reader_init 0 0 (msetr_aborted_txns m)) b) as ->
      by (unfold bt_aborted, msgset_aborted; now rewrite (ef_txns _ _ _ _ _ H1)).
    destruct (bt_aborted _ b); [destruct H1; now constructor |].
    rewrite (ef_offset _ _ _ _ _ H1). set (ops := consumed_all _ _ _ _ _).
    destruct (add_ops_effects ops m1 Hc1) as [E1 E2 E3 E4 E5 E6], H1 as [F1 F2 F3 F4 F5 F6].
    constructor; cbn; try congruence.
    + now rewrite E1, F1, app_nil_r.
    + rewrite E2, F2. cbn [length]. now rewrite Z.add_0_r, (swrap_small 32 (msetr_msgcnt m)).
  - assert (bt_last b = bt_base b) as -> by (unfold bt_last; rewrite (mo_delta _ _ He); lia).
    unfold mark_effect. destruct (_ <? _); [destruct H0; now constructor |]. now constructor.
Qed.

Definition next_after (next : Z) (es : list entry) : Z :=
  match list.last es with Some e => entry_last e + 1 | None => next end.

Lemma entries_effect_spec es : forall m,
  in_i 32 (msetr_msgcnt m) -> Forall (entry_ok cod) es ->
  exists tx, effects m (fold_left (entry_effect conf) es m)
    (delivered_all (rktp_fetch_offset m) (msetr_aborted_txns m) es) (next_after (msetr_next_offset m) es) tx.
Proof.
  unfold next_after. induction es as [| e es IH]; intros m Hc Hes; cbn [fold_left delivered_all].
  - eexists. apply (add_ops_effects [] m Hc).
  - apply Forall_cons_iff in Hes as [He Hes].
    pose proof (entry_effect_spec m e Hc He) as [E1 E2 E3 E4 E5 E6].
    destruct (IH (entry_effect conf m e)) as (tx & [F1 F2 F3 F4 F5 F6]); [| assumption |].
    { rewrite E2. apply swrap_range. lia. }
    exists tx. rewrite E4, E6 in F1, F2. constructor; try congruence.
    + now rewrite F1, E1, app_assoc.
    + rewrite F2, E2, length_app, swrap_add_l by lia. f_equal. lia.
    + rewrite F3, E3. destruct es as [| e2 es]; [reflexivity |]. rewrite last_cons_cons.
      destruct (list.last (e2 :: es)) eqn:E; [reflexivity |]. now apply last_None in E.
Qed.

(** The ops are messages. *)
Definition op_within (lo hi : Z) (rko : fetch_op) : Prop :=
  exists rkm hd c, rko = OpFetch rkm hd c /\ lo <= rkm_offset rkm <= hi.

Lemma op_within_weaken lo hi lo' hi' rko : lo' <= lo -> hi <= hi' -> op_within lo hi rko -> op_within lo' hi' rko.
Proof. intros H1 H2 (rkm & hd & c & -> & H). exists rkm, hd, c. split; [reflexivity | lia]. Qed.

Lemma consumed_all_within hdr fo : forall l off,
  Forall (op_within off (off + zlen l - 1)) (consumed_all conf hdr fo off l).
Proof.
  induction l as [| m l IH]; intros off; cbn [consumed_all]; [constructor |]. cbn [length].
  apply Forall_app. split.
  - destruct (_ <? _); constructor; [| constructor]. do 3 eexists. split; [reflexivity |]. cbn. lia.
  - eapply list.Forall_impl; [apply IH |]. intros rko. apply op_within_weaken; lia.
Qed.

Lemma entry_within fo tx e :
  entry_ok cod e -> Forall (op_within (bt_base (entry_batch e)) (entry_last e)) (entry_delivers fo tx e).
Proof.
  destruct e as [b | b type]; cbn [entry_ok entry_delivers entry_batch]; intros He.
  - unfold delivered. destruct (_ <? _); [constructor |]. destruct (bt_aborted _ _); [constructor |].
    destruct (bo_msgs _ _ He) as [_ Hn]. eapply list.Forall_impl; [apply consumed_all_within |].
    intros rko. apply op_within_weaken; [lia |]. unfold entry_last, bt_last. cbn. lia.
  - destruct (_ <? _); constructor; [| constructor]. do 3 eexists. split; [reflexivity |].
    unfold entry_last, bt_last. cbn. rewrite (mo_delta _ _ He). lia.
Qed.

Lemma entry_hdr_ok e : entry_ok cod e -> batch_hdr_ok (entry_batch e).
Proof. destruct e; intros He; [apply (bo_hdr _ _ He) | apply (mo_hdr _ _ He)]. Qed.

Lemma delivered_within fo hi es : forall tx,
  Forall (entry_ok cod) es -> Forall (fun e => entry_last e <= hi) es ->
  Forall (op_within 0 hi) (delivered_all fo tx es).
Proof.
  induction es as [| e es IH]; intros tx Hes Hhi; cbn [delivered_all]; [constructor |].
  apply Forall_cons_iff in Hes as [He Hes]. apply Forall_cons_iff in Hhi as [Hh Hhi].
  apply Forall_app. split; [| now apply IH]. eapply list.Forall_impl; [now apply entry_within |].
  intros rko. apply op_within_weaken; [| assumption]. apply (bh_base _ (entry_hdr_ok e He)).
Qed.

(** The last of them. *)
Lemma q_last_within lo hi ops :
  Forall (op_within lo hi) ops -> ops <> [] ->
  exists rkm, rd_kafka_q_last ops = Some rkm /\ lo <= rkm_offset rkm <= hi.
Proof.
  intros Hf Hne. destruct ops as [| x ops _] using rev_ind; [congruence |].
  apply Forall_app in Hf as [_ Hx]. apply Forall_cons_iff in Hx as [(rkm & hd & c & -> & Hp) _].
  exists rkm. split; [| exact Hp]. unfold rd_kafka_q_last. rewrite omap_app. cbn. apply last_snoc.
Qed.

(** ** The whole of a partition's data *)

Context (rb : rd_buf) (i : nat) (seg : rd_segment) (st en : Z).

(** The rest of the slice is skipped. *)
Lemma read_rest s pos r :
  window rb i seg st en s pos r ->
  exists s' p, rd_slice_read rb s (rd_slice_remains rb s) = Some (s', zlen r, p) /\ rd_slice_remains rb s' = 0.
Proof.
  intros W. rewrite (win_remains _ _ _ _ _ _ _ _ W), (win_read _ _ _ _ _ _ _ _ _ W) by lia. ztest.
  do 2 eexists. split; [reflexivity |].
  pose proof (win_at _ _ _ _ _ _ _ _ (zlen r) W ltac:(lia)) as W'.
  rewrite (win_remains _ _ _ _ _ _ _ _ W'), zdrop_all by lia. reflexivity.
Qed.

(** There is fuel for every entry. *)
Lemma entries_bytes_len (es : list entry) : (length es <= length (concat (map entry_bytes es)))%nat.
Proof.
  induction es as [| e es IH]; cbn [map concat]; [cbn; lia |]. rewrite length_app.
  pose proof (batch_bytes_len (entry_batch e)). unfold entry_bytes at 1. cbn [length]. lia.
Qed.

(** The queue is the one the application reads. *)
Lemma parse_ops d s pos es e t fo mx tx fetchq :
  window rb i seg st en s pos (concat (map entry_bytes (es ++ [e])) ++ t) ->
  Forall (entry_ok cod) (es ++ [e]) -> t = [] \/ cut_off t -> aborted_ok tx ->
  Forall (fun e1 => entry_last e1 <= entry_last e) es ->
  let ops := delivered_all fo tx (es ++ [e]) in
  ops <> [] -> zlen ops < 2 ^ 31 ->
  exists s' m', rd_kafka_msgset_parse conf cod junk addr (S d) rb s fo mx tx true fetchq =
      Some (s', m', fetchq ++ ops, 0) /\
    rktp_fetch_offset m' = entry_last e + 1 /\ rktp_fetch_msg_max_bytes m' = mx /\
    msetr_msgcnt m' = zlen ops /\ rd_slice_remains rb s' = 0.
Proof.
  intros W Hes Ht Ha Hlast ops Hne Hlen. unfold rd_kafka_msgset_parse. cbn [rd_kafka_msgset_reader_run].
  set (m0 := rd_kafka_msgset_reader_init fo mx tx). unfold rd_kafka_msgset_reader.
  rewrite (win_remains _ _ _ _ _ _ _ _ W).
  pose proof (entries_bytes_len (es ++ [e])) as Hfuel. set (all := concat (map entry_bytes (es ++ [e]))) in *.
  destruct (sets_loop_ok conf cod junk addr rb i seg st
    (rd_kafka_msgset_reader_run conf cod junk addr d) (mk_outer false 0 RD_KAFKA_TIMESTAMP_NOT_AVAILABLE 0)
    en (es ++ [e]) (S (Z.to_nat (zlen (all ++ t)))) s pos t m0 W Hes Ht) as (s1 & err & pos1 & r1 & -> & W1 & Herr);
    [rewrite (length_app all); lia | fold all; rewrite zlen_app; rewrite length_app in Hfuel; cbn in Hfuel; lia | exact Ha |].
  destruct (entries_effect_spec (es ++ [e]) m0 ltac:(unfold in_i; cbn; lia) Hes) as (tx' & [E1 E2 E3 E5 E6 _]).
  set (m1 := fold_left (entry_effect conf) (es ++ [e]) m0) in *. cbn in E1, E2, E3, E5, E6. fold ops in E1, E2.
  unfold next_after in E3. rewrite last_snoc in E3. rewrite Z.add_0_l, swrap_small in E2 by (unfold in_i; lia).
  assert (batch_hdr_ok (entry_batch e)) as He.
  { apply Forall_app in Hes as [_ He]. apply Forall_cons_iff in He as [He _]. now apply entry_hdr_ok. }
  pose proof (bh_base _ He). pose proof (bh_delta _ He).
  destruct (q_last_within 0 (entry_last e) ops) as (rkm & Eq & Ho); [| exact Hne |].
  { apply delivered_within; [assumption |]. apply Forall_app. split; [assumption |]. now repeat constructor. }
  destruct (msetr_rkq m1) as [| x q] eqn:Erkq; [congruence |].
  unfold rd_kafka_msgset_reader_postproc. rewrite Erkq, E1, Eq. cbn [outer_relative]. rewrite andb_false_r.
  rewrite Erkq, E1, E2. cbn [orb].
  assert (0 < zlen ops) by (destruct ops; [congruence | cbn; lia]).
  assert ((if (err =? RD_KAFKA_RESP_ERR__UNDERFLOW) && (zlen ops >? 0) then 0 else err) = 0) as ->.
  { destruct Herr as [-> | [_ ->]]; [now destruct (_ && _) |]. rewrite Z.gtb_ltb. now ztest. }
  replace (rkm_offset rkm =? -1) with false by lia. cbn [negb].
  destruct (read_rest _ _ _ W1) as (s2 & p & -> & Hr).
  rewrite swrap_small by (lia || (unfold in_i, entry_last, bt_last in *; lia)).
  cbn [msetr_next_offset set_fetch_offset rktp_fetch_offset].
  rewrite E3. do 2 eexists. split; [reflexivity |]. rewrite Z.gtb_ltb.
  destruct (Z.ltb_spec (rkm_offset rkm + 1) (entry_last e + 1)); cbn; repeat split; auto; lia.
Qed.

(** What the application is told, and the error that is returned, when [t] is all that
    came of a batch. *)
Definition partial_ops (mx fo : Z) (t : bytes) : list fetch_op :=
  if (mx <? 2 ^ 30) || (17 <=? zlen t) then []
  else [OpConsumerErr RD_KAFKA_RESP_ERR_MSG_SIZE_TOO_LARGE fo].
Definition partial_err (mx : Z) (t : bytes) : Z :=
  if (mx <? 2 ^ 30) || (zlen t <? 17) then 0 else RD_KAFKA_RESP_ERR__UNDERFLOW.

(** A part of a batch is all there is. *)
Lemma parse_cut d s pos t fo mx tx fetchq :
  window rb i seg st en s pos t -> cut_off t -> 0 <= fo -> 0 < mx < 2 ^ 31 ->
  exists s' m',
    rd_kafka_msgset_parse conf cod junk addr (S d) rb s fo mx tx true fetchq =
      Some (s', m',
        fetchq ++ partial_ops mx fo t, partial_err mx t) /\
    rktp_fetch_offset m' = fo /\ rktp_fetch_msg_max_bytes m' = (if mx <? 2 ^ 30 then 2 * mx else mx) /\
    rd_slice_remains rb s' = 0.
Proof.
  intros W Ht Hfo Hmx. unfold rd_kafka_msgset_parse, partial_ops, partial_err. cbn [rd_kafka_msgset_reader_run].
  unfold rd_kafka_msgset_reader.
  match goal with |- context [reader_sets_loop _ _ _ _ (S ?n) ?run ?outer _ _ ?m] =>
    destruct (sets_loop_cut conf cod junk addr rb i seg st n run outer en s pos t m W Ht)
      as (s1 & pos1 & r1 & -> & W1) end.
  destruct (read_rest _ _ _ W1) as (s2 & p & E & Hr). cbn [msetr_rkq rd_kafka_msgset_reader_init].
  assert ((0 >? fo) = false) as Hz by (rewrite Z.gtb_ltb; now ztest).
  unfold run_no_ops. cbn. rewrite E. change (Z.shiftl 1 30) with (2 ^ 30).
  destruct (Z.ltb_spec mx (2 ^ 30)); cbn [orb].
  - cbn. rewrite Hz. do 2 eexists. split; [destruct (zlen t <? 17); reflexivity |].
    split; [reflexivity |]. split; [| exact Hr]. cbn. rewrite swrap_small by (lia || (unfold in_i; lia)). lia.
  - rewrite Z.leb_antisym. destruct (zlen t <? 17); cbn; rewrite Hz;
      (do 2 eexists; split; [reflexivity | auto]).
Qed.

End Runs.

(** ** Headers *)

Section Headers.
Context (junk : Z -> Z).

Lemma read_header_ok rb i seg st en s pos h r :
  header_ok h -> window rb i seg st en s pos (header_bytes h ++ r) ->
  exists s', read_header rb s = Some (s', inl (Some (rkhdr_name h), Some <$> rkhdr_value h)) /\
    window rb i seg st en s' (pos + zlen (header_bytes h)) r.
Proof.
  intros [Hn Hv] W. unfold header_bytes in *. rewrite <- !app_assoc in W. rewrite !zlen_app.
  unfold read_header, r_bind.
  destruct (read_varint_ok _ _ _ _ _ _ _ (zlen (rkhdr_name h)) _ ltac:(unfold in_i; lia) W) as (s1 & -> & W1).
  destruct (read_ptr_ok _ _ _ _ _ _ _ _ _ (zlen (rkhdr_name h)) W1 eq_refl) as (s2 & -> & W2).
  destruct (rkhdr_value h) as [v |]; cbn [kv_bytes opt_len fmap option_fmap option_map] in *.
  - rewrite <- app_assoc in W2. rewrite zlen_app.
    destruct (read_varint_ok _ _ _ _ _ _ _ (zlen v) _ ltac:(unfold in_i; lia) W2) as (s3 & -> & W3).
    replace (zlen v =? -1) with false by lia.
    destruct (read_ptr_ok _ _ _ _ _ _ _ _ _ (zlen v) W3 eq_refl) as (s4 & -> & W4).
    exists s4. rewrite !Z.add_assoc. auto.
  - destruct (read_varint_ok _ _ _ _ _ _ _ (-1) _ ltac:(unfold in_i; lia) W2) as (s3 & -> & W3).
    exists s3. rewrite !Z.add_assoc. auto.
Qed.

(** The headers are added as a copy adds them. *)
Lemma headers_parse_loop_ok rb i seg st en l : forall s pos dst dst',
  Forall header_ok l -> window rb i seg st en s pos (headers_bytes l) -> headers_copy_loop l dst = Some dst' ->
  exists s', headers_parse_loop (length l) rb dst s = Some (s', inl dst').
Proof.
  induction l as [| h l IH]; intros s pos dst dst' Hl W Hc; cbn [length headers_parse_loop headers_copy_loop] in *.
  - injection Hc as <-. now exists s.
  - apply Forall_cons_iff in Hl as [Hh Hl]. change (headers_bytes (h :: l)) with (header_bytes h ++ headers_bytes l) in W.
    destruct (read_header_ok _ _ _ _ _ _ _ _ _ Hh W) as (s1 & -> & W1).
    destruct (rd_kafka_header_add dst (rkhdr_name h) (rkhdr_value h)) as [dst1 |] eqn:E; [| discriminate].
    destruct (IH s1 _ dst1 dst' Hl W1 Hc) as (s2 & E2). exists s2.
    destruct (rkhdr_value h); cbn [fmap option_fmap option_map]; rewrite E; exact E2.
Qed.

(** What the application gets when it asks for a message's headers. *)
Definition parsed_headers (hdrs : option rd_kafka_headers) : rd_kafka_headers + Z :=
  match hdrs with
  | Some h => if zlen (rkhdrs_list h) =? 0 then inr RD_KAFKA_RESP_ERR__NOENT
              else if zlen (rkhdrs_list h) >? 100000 then inr RD_KAFKA_RESP_ERR__BAD_MSG else inl h
  | None => inr RD_KAFKA_RESP_ERR__NOENT
  end.

Lemma headers_parse_ok m :
  (forall h, rkm_headers m = Some h -> headers_wf h) ->
  rd_kafka_msg_headers_parse junk (mk_kbytes (zlen (binhdrs_of m)) (Some (binhdrs_of m))) =
    Some (parsed_headers (rkm_headers m)).
Proof.
  intros Hw. set (l := msg_headers m).
  assert (Forall header_ok l /\ zlen (headers_bytes l) < 2 ^ 31) as [Hl Hb].
  { unfold l, msg_headers. destruct (rkm_headers m) as [h |] eqn:E; [| split; [constructor | cbn; lia]].
    destruct (hw_ok _ (Hw h eq_refl)) as [H1 H2 H3]. split; [assumption | lia]. }
  pose proof (headers_count l Hl) as Hcnt.
  pose proof (zvarint_len_i32 (zlen l) ltac:(unfold in_i; lia)) as Hv.
  assert (zlen (binhdrs_of m) = zlen (zvarint (zlen l)) + zlen (headers_bytes l)) as Hlen
    by (unfold binhdrs_of; now rewrite zlen_app).
  unfold rd_kafka_msg_headers_parse, RD_KAFKAP_LEN. cbn [kb_len kb_data]. replace (zlen (binhdrs_of m) =? -1) with false by lia.
  replace (zlen (binhdrs_of m) =? 0) with false by lia.
  destruct (shadow_window junk (binhdrs_of m) None ltac:(lia)) as (rb & s & -> & seg & W).
  unfold binhdrs_of in W at 2. fold l in W.
  destruct (read_varint_ok _ _ _ _ _ _ _ (zlen l) _ ltac:(unfold in_i; lia) W) as (s1 & -> & W1).
  unfold parsed_headers, l, msg_headers in *. destruct (rkm_headers m) as [h |]; [| reflexivity].
  destruct (Z.eqb_spec (zlen (rkhdrs_list h)) 0) as [-> | Hne]; [reflexivity |].
  replace (zlen (rkhdrs_list h) <=? 0) with false by lia.
  destruct (_ >? 100000); [reflexivity |]. rewrite Nat2Z.id.
  destruct (headers_parse_loop_ok _ _ _ _ _ _ _ _ _ _ Hl W1 (headers_copy_spec h (Hw h eq_refl))) as (s2 & ->).
  reflexivity.
Qed.

End Headers.

(** ** The property *)

(** When a response has only a part of one batch nothing is delivered and the fetch
    offset stays; the fetch size is doubled, so that a batch of any size up to 2^30 bytes
    is fetched whole after at most 30 fetches.  A size of 2^30 or more is not raised: then
    the application is told that the message is too large if fewer than 17 bytes of it
    came, and only the return value says so if more came. *)
Lemma partial_batch_outcome conf cod junk addr rb i seg st en d s pos t fo mx tx fetchq :
  window rb i seg st en s pos t -> cut_off t -> 0 <= fo -> 0 < mx < 2 ^ 31 ->
  exists s' m',
    rd_kafka_msgset_parse conf cod junk addr (S d) rb s fo mx tx true fetchq =
      Some (s', m',
        fetchq ++ partial_ops mx fo t, partial_err mx t) /\
    rktp_fetch_offset m' = fo /\ rktp_fetch_msg_max_bytes m' = (if mx <? 2 ^ 30 then 2 * mx else mx) /\
    rd_slice_remains rb s' = 0.
Proof. apply parse_cut. Qed.

(** Fifteen bytes of a batch, at the largest fetch size. *)
Definition ex_batch : batch := mk_bt 10 0 0 0 1000 1000 (-1) 0 (-1) 0 [] [].
Definition ex_fetch_conf : fetch_conf := mk_fetch_conf true false 1 3.

Theorem partial_batch_outcome_witness :
  exists rb s s' m',
    rd_kafka_msgset_parse ex_fetch_conf (mk_codecs (fun _ => None) (fun _ => None) (fun _ => None) (fun _ _ => inr 0))
      (fun _ => 0) (fun _ => 0) 1 rb s 10 (2 ^ 30) None true [] =
      Some (s', m', [OpConsumerErr RD_KAFKA_RESP_ERR_MSG_SIZE_TOO_LARGE 10], 0) /\ rktp_fetch_offset m' = 10.
Proof.
  destruct (shadow_window (fun _ => 0) (ztake 15 (bt_bytes ex_batch)) None ltac:(vm_compute; auto))
    as (rb & s & _ & seg & W).
  destruct (partial_batch_outcome ex_fetch_conf
    (mk_codecs (fun _ => None) (fun _ => None) (fun _ => None) (fun _ _ => inr 0)) (fun _ => 0) (fun _ => 0)
    rb 0 seg 0 _ 0 s 0 _ 10 (2 ^ 30) None [] W) as (s' & m' & E1 & E2 & _).
  - exists ex_batch, 15. split; [| split; [vm_compute; split; [discriminate | reflexivity] | reflexivity]].
    constructor; cbn; unfold in_i; try lia. split; [constructor | lia].
  - lia.
  - lia.
  - exists rb, s, s', m'. split; [exact E1 | exact E2].
Defined.
