(* ===== verification/RoundTrip.v ===== *)
(** * From the producer to the consumer

    The message set a producer writes, as the broker stores it, read by a consumer: the
    writer and the reader composed. *)

From S2P Require Import Prelude Varint RdBuf RdBufFacts Slice Crc Header HeaderProps Msgq MsgqFacts Producer.
From S2P Require Import KafkaBuf KafkaBufFacts RecordBatch MsgWriter MsgWriterFacts MsgWriterProps.
From S2P Require Import MsgReader ReadFacts Aborted MsgReaderFacts MsgReaderProps.

(** ** The broker *)

(** The broker sets the first offset and its leader epoch, which the CRC does not cover. *)
Definition broker_store (base epoch : Z) (set_ : bytes) : bytes :=
  be_enc 8 base ++ ztake 4 (zdrop 8 set_) ++ be_enc 4 epoch ++ zdrop 16 set_.

Lemma broker_store_batch base epoch tail :
  broker_store base epoch (batch_bytes 0 0 tail) = batch_bytes base epoch tail.
Proof. reflexivity. Qed.

(** ** What the application sees *)

Record app_msg := mk_app {
  am_key : option bytes;
  am_payload : option bytes;
  am_timestamp : Z;
  am_offset : Z;
  am_headers : option (rd_kafka_headers + Z) }.

Section Views.
Context (junk : Z -> Z).

(** A message taken from the fetch queue; its headers are parsed when asked for. *)
Definition app_view (rko : fetch_op) : option app_msg :=
  match rko with
  | OpFetch rkm binhdrs false =>
      Some (mk_app (rkm_key rkm) (rkm_payload rkm) (rkm_timestamp rkm) (rkm_offset rkm)
              (rd_kafka_msg_headers_parse junk binhdrs))
  | _ => None
  end.

(** A message as the producer's application made it, at an offset. *)
Definition produced_view (m : rd_kafka_msg) (offset : Z) : app_msg :=
  mk_app (rkm_key m) (rkm_payload m) (rkm_timestamp m) offset (Some (parsed_headers (rkm_headers m))).

Definition produced_views (base : Z) (l : list rd_kafka_msg) : list app_msg :=
  imap (fun k m => produced_view m (base + Z.of_nat k)) l.

Lemma produced_views_cons base m l :
  produced_views base (m :: l) = produced_view m base :: produced_views (base + 1) l.
Proof.
  unfold produced_views. cbn [imap]. f_equal; [f_equal; lia |]. apply imap_ext. intros k x _. cbn.
  f_equal. lia.
Qed.

(** Messages behind the fetch offset are left out. *)
Lemma consumed_all_views conf hdr fo l : forall base,
  log_append (v2_Attributes hdr) = false ->
  Forall (fun m => forall h, rkm_headers m = Some h -> headers_wf h) l ->
  map app_view (consumed_all conf hdr fo base l) =
  map Some (drop (Z.to_nat (fo - base)) (produced_views base l)).
Proof.
  intros base Hla. revert base. induction l as [| m l IH]; intros base Hw.
  - cbn. now rewrite drop_nil.
  - apply Forall_cons_iff in Hw as [Hm Hw]. cbn [consumed_all]. rewrite produced_views_cons, map_app, IH by assumption.
    destruct (Z.ltb_spec base fo).
    + replace (Z.to_nat (fo - base)) with (S (Z.to_nat (fo - (base + 1)))) by lia. reflexivity.
    + replace (Z.to_nat (fo - base)) with O by lia. replace (Z.to_nat (fo - (base + 1))) with O by lia.
      rewrite !drop_0. cbn [map app app_view consumed]. rewrite headers_parse_ok by assumption.
      unfold produced_view, consumed_msg. cbn. now rewrite Hla.
Qed.

End Views.

(** ** The batch *)

Section Batch.
Context (codec : Z -> Z -> bytes -> option bytes) (cod : codecs).
Context (Hcodec : forall c v d z, codec c v d = Some z -> Forall is_byte z).
Context (Hinv : forall c d z, 1 <= c <= 3 -> codec c 2 d = Some z -> uncompress cod c 2 z = inl d).
Context (conf : produce_conf) (rktp : produce_toppar).

(** The batch of a produce request, stored. *)
Definition stored_batch (v : msgset_version) (pid : rd_kafka_pid) (first_seq ts base epoch : Z)
  (taken : list rd_kafka_msg) : batch :=
  let '(attributes, data) := encoded codec v ts taken in
  mk_bt base epoch (batch_attributes conf attributes) (zlen taken - 1) ts (max_timestamp taken)
    (pid_id pid) (pid_epoch pid) first_seq (zlen taken) data taken.

Lemma stored_batch_bytes v pid first_seq ts base epoch taken :
  msetw_MsgVersion v = 2 ->
  broker_store base epoch
    (zdrop (zlen (request_prefix conf rktp v) + 4) (request_bytes codec conf rktp v pid first_seq ts taken)) =
  bt_bytes (stored_batch v pid first_seq ts base epoch taken).
Proof.
  intros Hv. unfold request_bytes, stored_batch. destruct (encoded _ _ _ _) as [attributes data].
  cbv zeta. set (set_ := messageset_bytes _ _ _ _ _ _ _ _ _).
  replace (zdrop _ _) with set_.
  2: { assert (zlen (request_prefix conf rktp v ++ be_enc 4 (zlen set_)) = zlen (request_prefix conf rktp v) + 4)
         as El by (now rewrite zlen_app, length_be_enc).
       now rewrite app_assoc, zdrop_app, El, zdrop_all, Z.sub_diag, zdrop_nonpos by lia. }
  unfold set_, messageset_bytes. rewrite Hv. apply broker_store_batch.
Qed.

Lemma msgs_records ts l : forall off, msgs_bytes 2 ts off l = records_bytes ts off l.
Proof. induction l as [| m l IH]; intros off; [reflexivity |]. cbn [msgs_bytes records_bytes]. now rewrite IH. Qed.

Lemma batch_attributes_spec a :
  0 <= a <= 3 ->
  in_i 16 (batch_attributes conf a) /\ Z.land (batch_attributes conf a) RD_KAFKA_MSG_ATTR_COMPRESSION_MASK = a /\
  Z.land (batch_attributes conf a) RD_KAFKA_MSGSET_V2_ATTR_CONTROL = 0 /\
  log_append (batch_attributes conf a) = false.
Proof.
  intros Ha. assert (a = 0 \/ a = 1 \/ a = 2 \/ a = 3) as [-> | [-> | [-> | ->]]] by lia;
    unfold batch_attributes; destruct (transactional_id conf); (split; [vm_compute; split; congruence | now vm_compute]).
Qed.

Lemma max_timestamp_range l :
  Forall (fun m => in_i 64 (rkm_timestamp m)) l -> in_i 64 (max_timestamp l).
Proof.
  intros Hl. unfold max_timestamp. assert (in_i 64 0) as H0 by (unfold in_i; lia). revert H0.
  generalize 0 as a. induction Hl as [| m l Hm _ IH]; intros a Ha; [exact Ha |]. cbn [foldl]. apply IH.
  destruct (Z.max_spec a (rkm_timestamp m)) as [[_ ->] | [_ ->]]; assumption.
Qed.

Lemma encoded_spec v ts taken :
  msetw_MsgVersion v = 2 -> ver_ok v -> zlen (records_bytes ts 0 taken) < 2 ^ 30 ->
  Forall is_byte (records_bytes ts 0 taken) ->
  let '(a, data) := encoded codec v ts taken in
  0 <= a <= 3 /\ Forall is_byte data /\ zlen data < 2 ^ 30 /\
  (if a =? 0 then data = records_bytes ts 0 taken else uncompress cod a 2 data = inl (records_bytes ts 0 taken)).
Proof.
  intros E2 Hv Hl Hb. pose proof (vo_compr _ Hv) as Hc. unfold encoded, compressed. rewrite E2, msgs_records.
  set (data := records_bytes ts 0 taken) in *.
  assert (0 <= 0 <= 3 /\ Forall is_byte data /\ zlen data < 2 ^ 30 /\ data = data) as H0
    by (split; [lia | auto]).
  destruct (Z.eqb_spec (msetw_compression v) 0) as [E0 | E0]; [exact H0 |]. change (2 =? 2) with true. cbn match.
  destruct (codec (msetw_compression v) 2 data) as [z |] eqn:Ez; [| exact H0].
  destruct (Z.gtb_spec (zlen z) (zlen data)); [exact H0 |].
  split; [lia |]. split; [now apply Hcodec in Ez |]. split; [lia |]. ztest. apply Hinv; [lia | exact Ez].
Qed.

Lemma stored_batch_ok v pid first_seq ts base epoch taken :
  msetw_MsgVersion v = 2 -> ver_ok v -> conf_ok conf rktp ->
  Forall (msg_fits conf) taken -> Forall octets taken -> Forall (fun m => in_i 64 (rkm_timestamp m)) taken ->
  zlen (records_bytes ts 0 taken) < 2 ^ 30 -> taken <> [] -> zlen taken < 2 ^ 30 -> in_i 64 ts ->
  in_i 64 (pid_id pid) -> in_i 16 (pid_epoch pid) -> in_i 32 first_seq ->
  0 <= base < 2 ^ 62 -> in_i 32 epoch ->
  batch_ok cod (stored_batch v pid first_seq ts base epoch taken).
Proof.
  intros E2 Hv Hconf Hfit Hoct Htime Hl Hne Hn Hts Hpid Hep Hseq Hbase Hle.
  pose proof (co_max _ _ Hconf) as Hmax.
  assert (0 < zlen taken) by (destruct taken; [congruence | cbn; lia]).
  assert (Forall (rec_ok ts) taken) as Hrec.
  { apply list.Forall_forall. intros m Hm. pose proof (proj1 (list.Forall_forall _ _) Hfit m Hm) as [Hm1 Hm2].
    pose proof (proj1 (list.Forall_forall _ _) Htime m Hm). split; [assumption | split; [assumption | lia]]. }
  assert (Forall is_byte (records_bytes ts 0 taken)) as Hb.
  { rewrite <- msgs_records. apply msgs_bytes_is_byte; try assumption; try lia.
    eapply list.Forall_impl; [exact Hfit |]. now intros m [Hm _]. }
  pose proof (records_len ts taken 0 Hrec ltac:(lia) ltac:(lia)).
  pose proof (encoded_spec v ts taken E2 Hv Hl Hb) as He. unfold stored_batch.
  destruct (encoded codec v ts taken) as [a data]. destruct He as (Ha & Hd & Hdl & Hx).
  destruct (batch_attributes_spec a Ha) as (B1 & B2 & B3 & B4).
  constructor; [constructor | ..]; cbn [bt_base bt_epoch bt_attributes bt_last_delta bt_base_ts bt_max_ts bt_pid
    bt_pid_epoch bt_seq bt_count bt_data bt_msgs]; auto; try lia.
  - split; [assumption | now apply max_timestamp_range].
  - repeat split; try assumption; unfold in_i in *; lia.
  - split; [assumption | lia].
  - unfold bt_codec, bt_records. cbn [bt_attributes bt_data bt_base_ts bt_msgs]. rewrite B2.
    destruct (a =? 0); [assumption |]. split; [assumption | lia].
Qed.

End Batch.

Lemma stored_delivered codec conf fconf v pid first_seq ts base epoch taken fo :
  fo < base + zlen taken ->
  let b := stored_batch codec conf v pid first_seq ts base epoch taken in
  delivered fconf fo None b = consumed_all fconf (bt_hdr b) fo base taken.
Proof.
  intros Hfo b. unfold delivered, bt_last, b, stored_batch. destruct (encoded _ _ _ _) as [a data].
  cbn [bt_base bt_last_delta bt_msgs bt_hdr]. replace (_ <? fo) with false by lia. reflexivity.
Qed.

(** ** The property *)

(** C2. What is produced is consumed: the record batch of a Produce request, stored by a
    broker that only sets its base offset and leader epoch, puts the messages of the
    request on the fetch queue, in their order and from the fetch offset on, each with its
    key, payload, timestamp, headers and offset, null keys, payloads and header values
    being told from empty ones, whether or not the batch is compressed; and the next
    fetch is from the offset after the last of them. *)
Theorem produced_is_consumed codec cod conf rkb rktp rkmq pid base_msgid now0 now v m0 rest0
  rkmq' req bad junk addr fconf rb i seg st en s pos base epoch fo mx d fetchq :
  (forall c u x z, codec c u x = Some z -> Forall is_byte z) ->
  (forall c x z, 1 <= c <= 3 -> codec c 2 x = Some z -> uncompress cod c 2 z = inl x) ->
  conf_ok conf rktp -> 0 <= compression_codec conf <= 3 ->
  rd_kafka_msgset_writer_select_MsgVersion rkb (compression_codec conf) = Some v -> msetw_MsgVersion v = 2 ->
  xmit_ok conf rkmq -> sorted (msg_order_cmp (strategy conf)) (rkmq_msgs rkmq) -> rkmq_msgs rkmq = m0 :: rest0 ->
  Forall (fun m => in_i 64 (rkm_timestamp m)) (rkmq_msgs rkmq) ->
  Forall (fun m => forall h, rkm_headers m = Some h -> headers_wf h) (rkmq_msgs rkmq) ->
  in_i 64 (pid_id pid) -> in_i 16 (pid_epoch pid) ->
  rd_kafka_msgset_create_ProduceRequest junk codec addr conf rkb rktp rkmq pid base_msgid now0 now =
    Some (rkmq', Some req, bad) ->
  let taken := rkmq_msgs (rkmb_msgq (preq_batch req)) in
  let set_ := zdrop (zlen (request_prefix conf rktp v) + 4) (rd_buf_content (rkbuf_buf (preq_rkbuf req))) in
  window rb i seg st en s pos (broker_store base epoch set_) ->
  0 <= base < 2 ^ 62 -> in_i 32 epoch -> fo < base + zlen taken ->
  exists s' m' ops,
    rd_kafka_msgset_parse fconf cod junk addr (S d) rb s fo mx None true fetchq = Some (s', m', fetchq ++ ops, 0) /\
    map (app_view junk) ops = map Some (drop (Z.to_nat (fo - base)) (produced_views base taken)) /\
    rktp_fetch_offset m' = base + zlen taken.
Proof.
  intros Hcodec Hinv Hconf Hcomp Hv E2 Hq Hsort Eq Htime Hhdr Hpid Hep Hcreate taken set_ W Hbase Hle Hfo.
  pose proof (co_max _ _ Hconf) as Hmax. pose proof (co_num _ _ Hconf) as Hnum.
  destruct (create_spec junk codec addr Hcodec conf rktp Hconf rkb rkmq pid base_msgid now0 now v m0 rest0
    Hcomp Hv Hq Hsort Eq) as (q' & r & tk & rest & E & Esp & _ & Hnt & _ & _ & H).
  rewrite E in Hcreate. injection Hcreate as -> -> _.
  destruct (inconsistent _ tk); [now destruct H |]. destruct H as (_ & Hne & [F1 F2 F3 F4 F5 F6]).
  subst taken. rewrite F2 in *. rewrite E2, msgs_records in F6.
  unfold set_ in W. rewrite F1, stored_batch_bytes in W by assumption.
  set (fs := rkmb_first_seq (first_batch pid base_msgid m0)) in *. set (ts := rkm_timestamp m0) in *.
  set (b := stored_batch codec conf v pid fs ts base epoch tk) in *.
  assert (forall P, Forall P (rkmq_msgs rkmq) -> Forall P tk) as Htk
    by (intros P HP; rewrite Esp in HP; now apply Forall_app in HP).
  assert (batch_ok cod b) as Hb.
  { apply stored_batch_ok with (rktp := rktp); auto; try lia.
    - now apply (select_MsgVersion_ok _ _ _ Hcomp Hv).
    - apply Htk, (xo_fits _ _ Hq).
    - apply Htk, (xo_octets _ _ Hq).
    - rewrite Eq in Htime. now apply Forall_cons_iff in Htime as [Ht _].
    - unfold fs, first_batch. destruct (rd_kafka_pid_valid pid); cbn [rkmb_first_seq rd_kafka_msgbatch_init].
      + rewrite seq_wrap_mod. unfold in_i.
        match goal with |- context [?x mod ?y] => pose proof (Z.mod_pos_bound x y ltac:(lia)) end. lia.
      + unfold in_i. lia. }
  pose proof (stored_delivered codec conf fconf v pid fs ts base epoch tk fo Hfo) as Hd. cbv zeta in Hd. fold b in Hd.
  assert (log_append (v2_Attributes (bt_hdr b)) = false /\ bt_last b + 1 = base + zlen tk) as [Hla Hlast].
  { pose proof (encoded_spec codec cod Hcodec Hinv v ts tk E2 (select_MsgVersion_ok _ _ _ Hcomp Hv) ltac:(lia)) as He.
    unfold b, stored_batch, bt_last. destruct (encoded codec v ts tk) as [a data]. cbn. split; [| lia].
    apply batch_attributes_spec, He. rewrite <- msgs_records.
    apply msgs_bytes_is_byte; [| apply Htk, (xo_octets _ _ Hq) | lia | lia].
    eapply list.Forall_impl; [apply Htk, (xo_fits _ _ Hq) |]. now intros m [Hm _]. }
  pose proof (consumed_all_views junk fconf (bt_hdr b) fo tk base Hla (Htk _ Hhdr)) as Hviews.
  pose proof (f_equal length Hviews) as Hlen. rewrite !length_map, length_drop in Hlen.
  unfold produced_views in Hlen. rewrite length_imap in Hlen.
  rewrite <- (app_nil_r (bt_bytes b)) in W.
  assert (delivered_all fconf fo None ([] ++ [EData b]) = consumed_all fconf (bt_hdr b) fo base tk) as Hall
    by (cbn [app delivered_all entry_delivers]; now rewrite app_nil_r).
  destruct (parse_ops fconf cod junk addr rb i seg st en d s pos [] (EData b) [] fo mx None fetchq)
    as (s' & m' & Ep & Ef & _); rewrite ?Hall in *; auto.
  - cbn [app map concat]. unfold entry_bytes. cbn [entry_batch]. now rewrite !app_nil_r in *.
  - constructor; [exact Hb | constructor].
  - intros t [=].
  - intros E0. rewrite E0 in Hlen. cbn in Hlen. destruct tk; [congruence | cbn in *; lia].
  - lia.
  - exists s', m', (consumed_all fconf (bt_hdr b) fo base tk). rewrite Ef. unfold entry_last. cbn [entry_batch].
    rewrite Hlast. auto.
Qed.

(** The messages of the example, compressed by leaving out the first byte, are consumed
    from the second on. *)
Definition ex_conf_gz : produce_conf :=
  mk_conf (Some [114]) None 1000000 1000000 10000 65535 (-1) 30000 1 RD_KAFKA_QUEUE_FIFO.
Definition ex_codec (c u : Z) (x : bytes) : option bytes :=
  match x with
  | y :: z => if (c =? 1) && (y =? 18) && forallb (fun b => (0 <=? b) && (b <? 256)) z then Some z else None
  | [] => None
  end.
Definition ex_codecs : codecs :=
  mk_codecs (fun z => Some (18 :: z)) (fun _ => None) (fun _ => None) (fun _ _ => inr (-1)).
Definition ex_fetch : fetch_conf := mk_fetch_conf true true 1 3.
Abbreviation ex_create := (rd_kafka_msgset_create_ProduceRequest (fun _ => 0) ex_codec (fun _ => 0)
  ex_conf_gz ex_rkb ex_rktp ex_queue ex_pid 1 0 50).

Lemma ex_codec_spec c u x z :
  ex_codec c u x = Some z -> c = 1 /\ x = 18 :: z /\ Forall is_byte z.
Proof.
  unfold ex_codec. destruct x as [| y x]; [discriminate |].
  destruct (c =? 1) eqn:Ec; [| discriminate]. destruct (y =? 18) eqn:Ey; [| discriminate].
  destruct (forallb _ x) eqn:Ef; [| discriminate]. intros [= <-]. zbool. subst. do 2 (split; [reflexivity |]).
  apply list.Forall_forall. intros b Hb. rewrite forallb_forall in Ef.
  apply list_elem_of_In in Hb. specialize (Ef b Hb). zbool. unfold is_byte. lia.
Qed.

Lemma some_pair {A B} (a a' : A) (b b' : B) : Some (a, b) = Some (a', b') -> a = a' /\ b = b'.
Proof. intros [= -> ->]. auto. Qed.

Theorem produced_is_consumed_witness :
  exists q req bad rb s s' m' ops,
    ex_create = Some (q, Some req, bad) /\
    rd_kafka_msgset_parse ex_fetch ex_codecs (fun _ => 0) (fun _ => 0) 1 rb s 501 1048576 None true [] =
      Some (s', m', ops, 0) /\
    map (app_view (fun _ => 0)) ops =
      [Some (mk_app None (Some [104; 105]) 1005 501
               (Some (inl (mk_headers [mk_header 4 [97] (Some [98])] 4))))] /\
    rktp_fetch_offset m' = 502.
Proof.
  assert ((let* (_, r, _) := ex_create in let* req := r in
           Some (rkmq_msgs (rkmb_msgq (preq_batch req)),
                 zlen (broker_store 500 3 (zdrop (zlen (request_prefix ex_conf_gz ex_rktp
                   (mk_msgver 7 2 0x200 1 true)) + 4) (rd_buf_content (rkbuf_buf (preq_rkbuf req)))))))
          = Some (ex_msgs, 83)) as T by (vm_compute; reflexivity).
  destruct ex_create as [[[q [req |]] bad] |] eqn:E; try discriminate T.
  apply some_pair in T as [T1 T2].
  destruct (shadow_window (fun _ => 0) (broker_store 500 3 (zdrop (zlen (request_prefix ex_conf_gz ex_rktp
                   (mk_msgver 7 2 0x200 1 true)) + 4) (rd_buf_content (rkbuf_buf (preq_rkbuf req))))) None)
    as (rb & s & _ & seg & W); [rewrite T2; lia |]. rewrite T2 in W at 1.
  destruct (produced_is_consumed ex_codec ex_codecs ex_conf_gz ex_rkb ex_rktp ex_queue ex_pid 1 0 50
    (mk_msgver 7 2 0x200 1 true) (ex_msg 1 1000 (Some [107]) None) (tail ex_msgs) q req bad (fun _ => 0) (fun _ => 0) ex_fetch rb 0 seg 0 83 s 0 500 3 501
    1048576 0 []) as (s' & m' & ops & E1 & E2 & E3).
  - intros c u x z Hz. exact (proj2 (proj2 (ex_codec_spec _ _ _ _ Hz))).
  - intros c x z _ Hz. apply ex_codec_spec in Hz as (-> & -> & _). reflexivity.
  - constructor; cbn; lia.
  - cbn. lia.
  - reflexivity.
  - reflexivity.
  - destruct ex_queue_ok as [H1 H2 H3 H4]. exact (Build_xmit_ok ex_conf_gz ex_queue H1 H2 H3 H4).
  - exact ex_queue_sorted.
  - reflexivity.
  - repeat apply List.Forall_cons; [| | constructor]; unfold in_i; cbn; lia.
  - repeat apply List.Forall_cons; [| | constructor]; intros h Hh; vm_compute in Hh; [discriminate Hh |].
    injection Hh as <-. constructor; [constructor; [| reflexivity | reflexivity] |]; repeat constructor; cbn; lia.
  - unfold in_i. cbn. lia.
  - unfold in_i. cbn. lia.
  - exact E.
  - exact W.
  - lia.
  - unfold in_i. lia.
  - rewrite T1. cbn. lia.
  - rewrite T1 in *. exists q, req, bad, rb, s, s', m', ops. auto.
Defined.
