(* ===== verification/ReadCommitted.v ===== *)
(** * Reading a log with transactions

    What a consumer gets of a partition's log that has transactions of producers: the
    batches of aborted transactions are left out, and nothing else is. *)

From stdpp Require Import list sorting.
From S2P Require Import Prelude Varint RdBuf Slice Crc Header Msgq Sort KafkaBuf RecordBatch MsgWriter.
From S2P Require Import MsgReader ReadFacts Aborted MsgReaderFacts MsgReaderProps.

(** ** The log *)

(** A transaction of a producer: the offset of its first batch, that of its marker, and
    how it ended. *)
Record txn := mk_txn {
  tx_first : Z;
  tx_marker : Z;
  tx_aborted : bool }.

(** The transactions of a producer, one after another. *)
Definition txns_ok (l : list txn) : Prop :=
  Forall (fun t => 0 <= tx_first t < tx_marker t) l /\
  StronglySorted (fun a b => tx_marker a < tx_first b) l.

Definition transactional (b : batch) : bool :=
  negb (Z.land (bt_attributes b) RD_KAFKA_MSGSET_V2_ATTR_TRANSACTIONAL =? 0).

(** The batch lies within the transaction. *)
Definition within (b : batch) (t : txn) : bool := (tx_first t <=? bt_base b) && (bt_last b <? tx_marker t).

Section Log.
Context (T : Z -> list txn).

(** The batch is one of an aborted transaction. *)
Definition in_aborted_txn (b : batch) : bool :=
  transactional b && existsb (fun t => tx_aborted t && within b t) (T (bt_pid b)).

Definition entry_in_log (e : entry) : Prop :=
  match e with
  | EData b => transactional b = true -> exists t, t ∈ T (bt_pid b) /\ within b t = true
  | EMark b type => exists t, t ∈ T (bt_pid b) /\ tx_marker t = bt_base b /\
                      (type = RD_KAFKA_CTRL_MSG_ABORT <-> tx_aborted t = true)
  end.

Definition is_mark_of (pid marker : Z) (e : entry) : Prop :=
  match e with EData _ => False | EMark b _ => bt_pid b = pid /\ bt_base b = marker end.

Definition entries_ordered (es : list entry) : Prop :=
  StronglySorted (fun a b => entry_last a < bt_base (entry_batch b)) es.

(** The entries are the log up to [top], from [c] on, as far as markers go. *)
Definition has_markers (c top : Z) (es : list entry) : Prop :=
  forall pid t, t ∈ T pid -> tx_aborted t = true -> c <= tx_marker t <= top ->
  Exists (is_mark_of pid (tx_marker t)) es.

Record log_ok (fo top : Z) (es : list entry) : Prop := {
  lo_txns : forall pid, txns_ok (T pid);
  lo_order : entries_ordered es;
  lo_top : Forall (fun e => entry_last e <= top) es;
  lo_in : Forall entry_in_log es;
  lo_marks : has_markers fo top es }.

(** ** Transactions that are still to be left out *)

Definition live (c hi : Z) (t : txn) : Prop := tx_aborted t = true /\ c <= tx_marker t /\ tx_first t <= hi.

#[local] Instance live_dec c hi t : Decision (live c hi t).
Proof. unfold live. apply _. Defined.

Definition live_offsets (c hi pid : Z) : list Z := map tx_first (filter (live c hi) (T pid)).

(** What the broker tells: the aborted transactions that end at the fetch offset or
    later and start before some offset [hi], in any order. *)
Definition response_lists (fo hi : Z) (l : list (Z * Z)) : Prop :=
  forall pid, first_offsets l pid ≡ₚ live_offsets fo hi pid.

Lemma txns_distinct l a b :
  txns_ok l -> a ∈ l -> b ∈ l -> a = b \/ tx_marker a < tx_first b \/ tx_marker b < tx_first a.
Proof.
  intros [_ Hs]. induction Hs as [| x l Hs IH Hx]; intros Ha Hb; [inversion Ha |].
  apply elem_of_cons in Ha as [-> | Ha]; apply elem_of_cons in Hb as [-> | Hb]; auto;
    [right; left | right; right]; now apply (proj1 (list.Forall_forall _ _) Hx).
Qed.

Lemma txn_range l t : txns_ok l -> t ∈ l -> 0 <= tx_first t < tx_marker t.
Proof. intros [Hf _] Ht. now apply (proj1 (list.Forall_forall _ _) Hf). Qed.

(** The offsets are in order. *)
Lemma live_sorted c hi (l : list txn) : txns_ok l -> StronglySorted Z.lt (map tx_first (filter (live c hi) l)).
Proof.
  intros [Hf Hs]. induction Hs as [| t l Hs IH Ht]; [constructor |]. apply list.Forall_cons in Hf as [H1 Hf].
  destruct (decide (live c hi t)); [rewrite filter_cons_True by done | rewrite filter_cons_False by done]; [| auto].
  cbn [map]. constructor; [auto |]. apply list.Forall_forall. intros x Hx.
  apply list_elem_of_fmap in Hx as (t' & -> & Ht'). apply list_elem_of_filter in Ht' as [_ Ht'].
  pose proof (proj1 (list.Forall_forall _ _) Ht t' Ht'). cbn in *. lia.
Qed.

(** No marker is passed. *)
Lemma live_same c c' hi (l : list txn) :
  c <= c' -> (forall t, t ∈ l -> tx_aborted t = true -> c <= tx_marker t < c' -> False) ->
  filter (live c hi) l = filter (live c' hi) l.
Proof.
  intros Hc. induction l as [| t l IH]; intros Hno; [reflexivity |].
  assert (live c hi t <-> live c' hi t) as Hiff.
  { unfold live. split; [| intuition lia]. intros (H1 & H2 & H3). specialize (Hno t ltac:(left) H1).
    destruct (Z.lt_ge_cases (tx_marker t) c'); [now destruct Hno | auto]. }
  assert (filter (live c hi) l = filter (live c' hi) l) as IH' by (apply IH; intros t' Ht'; apply Hno; now right).
  destruct (decide (live c hi t)).
  - rewrite !filter_cons_True by tauto. now f_equal.
  - rewrite !filter_cons_False by tauto. exact IH'.
Qed.

(** One is. *)
Lemma live_next c c' hi (l : list txn) t :
  txns_ok l -> t ∈ l -> live c hi t -> tx_marker t < c' -> c <= c' ->
  (forall t', t' ∈ l -> tx_aborted t' = true -> c <= tx_marker t' < c' -> t' = t) ->
  filter (live c hi) l = t :: filter (live c' hi) l.
Proof.
  intros Hl Ht Hlive Hm Hc Honly. induction l as [| x l IH]; [inversion Ht |].
  pose proof Hl as [Hf Hs]. apply list.Forall_cons in Hf as [Hx Hf].
  inversion_clear Hs as [| ? ? Hs' Hxl].
  apply elem_of_cons in Ht as [-> | Ht].
  - rewrite filter_cons_True by done. rewrite filter_cons_False by (unfold live; lia). f_equal.
    apply live_same; [assumption |]. intros t' Ht' Ha Hr.
    pose proof (Honly t' ltac:(now right) Ha Hr) as ->.
    pose proof (proj1 (list.Forall_forall _ _) Hxl x Ht'). cbn in *. lia.
  - pose proof (proj1 (list.Forall_forall _ _) Hxl t Ht) as Hxt. cbn in Hxt.
    pose proof (txn_range l t (conj Hf Hs') Ht).
    assert (~ live c hi x) as Hnx.
    { intros (H1 & H2 & _). assert (x = t) by (apply Honly; [now left | assumption | lia]). subst. lia. }
    rewrite filter_cons_False by assumption. rewrite filter_cons_False by (unfold live in *; lia).
    apply IH; auto; [now split |]. intros t' Ht'. apply Honly. now right.
Qed.

(** ** The reader against the log *)

Context (conf : fetch_conf) (cod : codecs).

(** What a consumer of committed messages gets of an entry. *)
Definition committed_delivers (fo : Z) (e : entry) : list fetch_op :=
  match e with
  | EData b =>
      if bt_last b <? fo then [] else if in_aborted_txn b then []
      else consumed_all conf (bt_hdr b) fo (bt_base b) (bt_msgs b)
  | EMark b _ => if bt_base b <? fo then [] else [rd_kafka_op_new_ctrl_msg conf (bt_base b)]
  end.

(** The aborted transactions that the reader still has. *)
Definition tx_left (tx : option rd_kafka_aborted_txns) (pid : Z) : list Z :=
  match tx with Some t => remaining t pid | None => [] end.

Lemma transactional_bits a :
  Z.land a RD_KAFKA_MSGSET_V2_ATTR_CONTROL = 0 ->
  (Z.land a (Z.lor RD_KAFKA_MSGSET_V2_ATTR_TRANSACTIONAL RD_KAFKA_MSGSET_V2_ATTR_CONTROL)
   =? RD_KAFKA_MSGSET_V2_ATTR_TRANSACTIONAL) = negb (Z.land a RD_KAFKA_MSGSET_V2_ATTR_TRANSACTIONAL =? 0).
Proof.
  intros H. rewrite Z.land_lor_distr_r, H, Z.lor_0_r. change RD_KAFKA_MSGSET_V2_ATTR_TRANSACTIONAL with (2 ^ 4).
  destruct (Z.testbit a 4) eqn:E.
  - assert (Z.land a (2 ^ 4) = 2 ^ 4) as ->; [| reflexivity]. apply Z.bits_inj'. intros n Hn.
    rewrite Z.land_spec. destruct (Z.eq_dec n 4) as [-> | Hne]; [now rewrite E |].
    rewrite Z.pow2_bits_false by lia. apply andb_false_r.
  - assert (Z.land a (2 ^ 4) = 0) as ->; [| reflexivity]. apply Z.bits_inj'. intros n Hn.
    rewrite Z.land_spec, Z.bits_0. destruct (Z.eq_dec n 4) as [-> | Hne]; [now rewrite E |].
    rewrite Z.pow2_bits_false by lia. apply andb_false_r.
Qed.

(** Whether a batch is left out depends on the first offset that is left. *)
Lemma bt_aborted_head tx b :
  aborted_ok tx -> Z.land (bt_attributes b) RD_KAFKA_MSGSET_V2_ATTR_CONTROL = 0 ->
  Forall (fun o => 0 <= o < 2 ^ 63) (tx_left tx (bt_pid b)) ->
  bt_aborted (rd_kafka_msgset_reader_init 0 0 tx) b =
  transactional b && match tx_left tx (bt_pid b) with o :: _ => o <=? bt_base b | [] => false end.
Proof.
  intros Ha Hc Hr. unfold bt_aborted, msgset_aborted. cbn [msetr_aborted_txns rd_kafka_msgset_reader_init v2_Attributes bt_hdr].
  destruct tx as [t |]; [| cbn; now rewrite andb_false_r].
  rewrite (transactional_bits _ Hc). fold (transactional b). destruct (transactional b); [cbn [andb] | reflexivity].
  pose proof (next_offset_spec t (bt_pid b) false (2 ^ 63 - 1) (Ha t eq_refl)) as Hs.
  unfold rd_kafka_aborted_txns_get_offset. cbn [tx_left] in *.
  change (v2_PID (bt_hdr b)) with (bt_pid b). change (v2_BaseOffset (bt_hdr b)) with (bt_base b).
  destruct (remaining t (bt_pid b)) as [| o l]; [rewrite Hs; reflexivity |].
  apply list.Forall_cons in Hr as [Hr _]. replace (2 ^ 63 - 1 <? o) with false in Hs by lia.
  destruct Hs as (t' & -> & _). cbn [default]. replace (o =? -1) with false by lia. rewrite Z.geb_leb. reflexivity.
Qed.

(** The cursor [c]: all before it is done with.  The markers still to come are this
    entry's or behind it. *)
Lemma next_marker c top e es pid t :
  log_ok c top (e :: es) -> t ∈ T pid -> tx_aborted t = true -> c <= tx_marker t ->
  is_mark_of pid (tx_marker t) e \/ entry_last e < tx_marker t.
Proof.
  intros [Htx Hord Htop Hin Hmk] Ht Ha Hm. apply list.Forall_cons in Htop as [Htop _].
  destruct (Z.le_gt_cases (tx_marker t) (entry_last e)) as [Hle | Hgt]; [left | now right].
  pose proof (Hmk pid t Ht Ha ltac:(lia)) as Hex. apply list.Exists_exists in Hex as (e2 & Hin2 & Hmark).
  apply elem_of_cons in Hin2 as [-> | Hin2]; [exact Hmark | exfalso].
  inversion_clear Hord as [| ? ? _ Hlt]. pose proof (proj1 (list.Forall_forall _ _) Hlt e2 Hin2) as Hlt2. cbn in Hlt2.
  destruct e2 as [| b2 ty]; [exact Hmark |]. destruct Hmark as [_ Hb]. cbn in Hlt2. lia.
Qed.

Lemma log_ok_tail c top e es c' :
  log_ok c top (e :: es) -> batch_hdr_ok (entry_batch e) -> c <= c' -> entry_last e < c' -> log_ok c' top es.
Proof.
  intros [Htx Hord Htop Hin Hmk] Hh Hc Hl. pose proof (bh_delta _ Hh). apply list.Forall_cons in Htop as [Htop1 Htop].
  apply list.Forall_cons in Hin as [_ Hin]. inversion_clear Hord as [| ? ? Hord' _].
  constructor; auto. intros pid t Ht Ha Hm. pose proof (Hmk pid t Ht Ha ltac:(lia)) as Hex.
  apply Exists_cons in Hex as [He | Hex]; [exfalso | exact Hex].
  destruct e as [| b ty]; [exact He |]. destruct He as [_ Hb]. unfold entry_last, bt_last in Hl.
  cbn in *. lia.
Qed.

(** The transactions after that of a batch which is not aborted start behind it. *)
Lemma later_txns c top b es t t' :
  log_ok c top (EData b :: es) -> t ∈ T (bt_pid b) -> within b t = true -> tx_aborted t = false ->
  t' ∈ T (bt_pid b) -> tx_aborted t' = true -> c <= tx_marker t' -> 0 <= bt_last_delta b ->
  bt_base b < tx_first t'.
Proof.
  intros Hlog Ht Hwt Eab Ht' Ha' Hm' Hd. pose proof (lo_txns _ _ _ Hlog (bt_pid b)) as Htx.
  unfold within in Hwt. zbool. pose proof (txn_range _ t' Htx Ht'). unfold bt_last in *.
  destruct (txns_distinct _ t t' Htx Ht Ht') as [-> | [? | ?]]; [congruence | lia |].
  destruct (next_marker _ _ _ _ _ _ Hlog Ht' Ha' Hm') as [[] | Hlt].
  unfold entry_last, bt_last in Hlt. cbn in Hlt. lia.
Qed.

Lemma data_aborted c hi top tx b es :
  log_ok c top (EData b :: es) -> top <= hi < 2 ^ 63 -> aborted_ok tx -> entry_ok cod (EData b) ->
  (forall pid, tx_left tx pid = live_offsets c hi pid) -> c <= bt_last b + 1 ->
  bt_aborted (rd_kafka_msgset_reader_init 0 0 tx) b = in_aborted_txn b.
Proof.
  intros Hlog Hhi Ha He Hleft Hc. pose proof Hlog as [Htx Hord Htop Hin _]. specialize (Htx (bt_pid b)).
  pose proof (bh_base _ (bo_hdr _ _ He)). pose proof (bh_delta _ (bo_hdr _ _ He)).
  apply list.Forall_cons in Htop as [Htop _]. apply list.Forall_cons in Hin as [Hin _].
  unfold entry_last, bt_last in *. cbn [entry_batch entry_in_log] in *.
  rewrite (bt_aborted_head tx b Ha (bo_control _ _ He)); rewrite Hleft.
  2: { apply list.Forall_forall. intros o Ho. apply list_elem_of_fmap in Ho as (t & -> & Ht).
       apply list_elem_of_filter in Ht as [(_ & _ & H1) Ht]. pose proof (txn_range _ t Htx Ht). lia. }
  unfold in_aborted_txn. destruct (transactional b); [cbn [andb] | reflexivity].
  destruct (Hin eq_refl) as (t & Ht & Hwt). pose proof (live_sorted c hi _ Htx) as Hsorted.
  apply eq_iff_eq_true. rewrite existsb_exists.
  destruct (tx_aborted t) eqn:Eab.
  - assert (tx_first t ∈ live_offsets c hi (bt_pid b)) as Hlt.
    { unfold live_offsets. apply list_elem_of_fmap. exists t. split; [reflexivity |].
      apply list_elem_of_filter. split; [| exact Ht].
      unfold live, within, bt_last in *. zbool. split; [exact Eab | lia]. }
    split.
    + intros _. exists t. split; [now apply list_elem_of_In | now rewrite Eab].
    + intros _. unfold live_offsets in *. destruct (map tx_first _) as [| o l]; [inversion Hlt |].
      unfold within in Hwt. zbool. apply Z.leb_le. apply elem_of_cons in Hlt as [E | Hlt]; [lia |].
      inversion_clear Hsorted as [| ? ? _ Hol]. pose proof (proj1 (list.Forall_forall _ _) Hol _ Hlt). cbn in *. lia.
  - pose proof (fun t' => later_txns c top b es t t' Hlog Ht Hwt Eab) as Hlater. split.
    + unfold live_offsets. destruct (filter (live c hi) (T (bt_pid b))) as [| t' l] eqn:Ef; [discriminate |]. cbn [map].
      assert (t' ∈ filter (live c hi) (T (bt_pid b))) as Ht' by (rewrite Ef; left).
      apply list_elem_of_filter in Ht' as [(H1 & H2 & _) Ht']. intros Hle. zbool.
      specialize (Hlater t' Ht' H1 H2 ltac:(lia)). lia.
    + intros (t' & Ht' & Hx). apply list_elem_of_In in Ht'. unfold within, bt_last in Hx. zbool.
      specialize (Hlater t' Ht' ltac:(assumption) ltac:(lia) ltac:(lia)). lia.
Qed.

(** A marker takes its transaction off the list. *)
Lemma mark_left c hi top tx b type es :
  read_committed conf = true -> log_ok c top (EMark b type :: es) -> top <= hi < 2 ^ 63 -> aborted_ok tx ->
  mark_ok b type -> (forall pid, tx_left tx pid = live_offsets c hi pid) -> c <= bt_base b ->
  forall pid, tx_left (mark_txns conf (rd_kafka_msgset_reader_init 0 0 tx) b type) pid =
    live_offsets (bt_base b + 1) hi pid.
Proof.
  intros Hrc Hlog Hhi Ha He Hleft Hc pid. pose proof Hlog as [Htx Hord Htop Hin _].
  apply list.Forall_cons in Htop as [Htop _]. apply list.Forall_cons in Hin as [Hin _].
  assert (entry_last (EMark b type) = bt_base b) as El
    by (unfold entry_last, bt_last; cbn; rewrite (mo_delta _ _ He); lia).
  rewrite El in Htop. destruct Hin as (t & Ht & Em & Hty).
  assert (forall q t', t' ∈ T q -> tx_aborted t' = true -> c <= tx_marker t' < bt_base b + 1 -> q = bt_pid b /\ t' = t) as Honly.
  { intros q t' Ht' Ha' Hm. destruct (next_marker _ _ _ _ _ _ Hlog Ht' Ha' ltac:(lia)) as [[Eq Eb] | Hlt]; [| lia].
    subst q. split; [reflexivity |].
    pose proof (txn_range _ t (Htx _) Ht). pose proof (txn_range _ t' (Htx _) Ht').
    destruct (txns_distinct _ t' t (Htx _) Ht' Ht) as [-> | [? | ?]]; [reflexivity | lia | lia]. }
  unfold mark_txns. cbn [msetr_aborted_txns rd_kafka_msgset_reader_init]. rewrite Hrc, andb_true_r.
  destruct (Z.eqb_spec type RD_KAFKA_CTRL_MSG_ABORT) as [Et | Et].
  - pose proof (proj1 Hty Et) as Eab. pose proof (txn_range _ t (Htx _) Ht).
    assert (filter (live c hi) (T (bt_pid b)) = t :: filter (live (bt_base b + 1) hi) (T (bt_pid b))) as Hn.
    { apply live_next; auto; [unfold live; split; [exact Eab | lia] | lia | lia |].
      intros t' Ht' Ha' Hm. now apply (Honly (bt_pid b)). }
    pose proof (Hleft (bt_pid b)) as Hl. unfold live_offsets in Hl. rewrite Hn in Hl. cbn [map] in Hl.
    destruct tx as [t0 |]; [| discriminate Hl]. cbn [tx_left] in *.
    pose proof (next_offset_spec t0 (bt_pid b) true (bt_base b) (Ha t0 eq_refl)) as Hs. rewrite Hl in Hs.
    replace (bt_base b <? tx_first t) with false in Hs by lia.
    unfold rd_kafka_aborted_txns_pop_offset. destruct Hs as (t1 & -> & _ & Hq). cbn [fmap option_fmap option_map fst tx_left].
    rewrite Hq. unfold pid_at. destruct (decide (pid = bt_pid b)) as [-> | Hne]; [reflexivity |].
    rewrite Hleft. unfold live_offsets. f_equal. apply live_same; [lia |].
    intros t' Ht' Ha' Hm. now destruct (Honly pid t' Ht' Ha' Hm).
  - assert (tx_aborted t = false) as Eab by (apply not_true_iff_false; intuition).
    transitivity (tx_left tx pid); [now destruct tx |]. rewrite Hleft. unfold live_offsets. f_equal.
    apply live_same; [lia |]. intros t' Ht' Ha' Hm. destruct (Honly pid t' Ht' Ha' Hm) as [_ ->]. congruence.
Qed.

Lemma delivered_committed fo hi top es : forall c tx,
  read_committed conf = true -> log_ok c top es -> top <= hi < 2 ^ 63 -> aborted_ok tx ->
  Forall (entry_ok cod) es -> (forall pid, tx_left tx pid = live_offsets c hi pid) -> fo <= c ->
  Forall (fun e => c <= Z.max fo (bt_base (entry_batch e))) es ->
  delivered_all conf fo tx es = concat (map (committed_delivers fo) es).
Proof.
  induction es as [| e es IH]; intros c tx Hrc Hlog Hhi Ha Hes Hleft Hfo Hc; cbn [delivered_all map concat]; [reflexivity |].
  apply list.Forall_cons in Hes as [He Hes]. apply list.Forall_cons in Hc as [Hc1 Hc].
  pose proof (bh_delta _ (entry_hdr_ok cod e He)) as Hd. pose proof (entry_hdr_ok cod e He) as Hh.
  pose proof (lo_order _ _ _ Hlog) as Hord. inversion_clear Hord as [| ? ? _ Hlt].
  assert (forall c' tx', c <= c' -> entry_last e < c' -> c' <= Z.max c (entry_last e + 1) -> aborted_ok tx' ->
    (forall pid, tx_left tx' pid = live_offsets c' hi pid) ->
    delivered_all conf fo tx' es = concat (map (committed_delivers fo) es)) as IH'.
  { intros c' tx' H1 H2 H3 Ha' Hl'. apply (IH c'); auto; [now apply (log_ok_tail c top e) | lia |].
    apply list.Forall_forall. intros e2 He2. pose proof (proj1 (list.Forall_forall _ _) Hlt e2 He2).
    pose proof (proj1 (list.Forall_forall _ _) Hc e2 He2). cbn in *. lia. }
  assert (forall (Hno : forall pid t, t ∈ T pid -> tx_aborted t = true -> c <= tx_marker t < Z.max c (entry_last e + 1) -> False),
    delivered_all conf fo tx es = concat (map (committed_delivers fo) es)) as Hskip.
  { intros Hno. apply (IH' (Z.max c (entry_last e + 1))); auto; try lia. intros pid. rewrite Hleft.
    unfold live_offsets. f_equal. apply live_same; [lia |]. intros t. apply Hno. }
  destruct e as [b | b type]; cbn [entry_delivers entry_txns committed_delivers].
  - f_equal.
    + unfold delivered. destruct (Z.ltb_spec (bt_last b) fo); [reflexivity |].
      rewrite (data_aborted c hi top tx b es); auto. unfold bt_last in *. cbn in *. lia.
    + apply Hskip. intros pid t Ht Hab Hm.
      destruct (next_marker _ _ _ _ _ _ Hlog Ht Hab ltac:(lia)) as [[] | Hgt]. lia.
  - assert (entry_last (EMark b type) = bt_base b) as El
      by (unfold entry_last, bt_last; cbn; rewrite (mo_delta _ _ He); lia).
    rewrite El in *. cbn [entry_batch] in *. destruct (Z.ltb_spec (bt_base b) fo).
    + cbn [app]. apply Hskip. intros pid t Ht Hab Hm. lia.
    + f_equal. apply (IH' (bt_base b + 1)); try lia.
      * now apply mark_txns_ok.
      * now apply (mark_left c hi top tx b type es); auto; lia.
Qed.

End Log.

(** ** What the broker tells *)

(** The list of a Fetch response becomes the tree; there is none for no transaction. *)
Definition response_txns (l : list (Z * Z)) : option (option rd_kafka_aborted_txns) :=
  match l with
  | [] => Some None
  | _ => let* t := aborted_txns_add_all l rd_kafka_aborted_txns_new in Some (Some (rd_kafka_aborted_txns_sort t))
  end.

Lemma response_txns_left T fo hi l :
  (forall pid, txns_ok (T pid)) -> response_lists T fo hi l ->
  exists tx, response_txns l = Some tx /\ aborted_ok tx /\ forall pid, tx_left tx pid = live_offsets T fo hi pid.
Proof.
  intros HT Hl. assert (forall pid, merge_sort Z.le (first_offsets l pid) = live_offsets T fo hi pid) as Hsort.
  { intros pid. apply (StronglySorted_unique Z.le).
    - apply StronglySorted_merge_sort; apply _.
    - unfold live_offsets. generalize (live_sorted fo hi (T pid) (HT pid)). generalize (map tx_first (filter (live fo hi) (T pid))).
      intros l0. induction 1 as [| x l1 Hl1 IH Hx]; constructor; [exact IH |].
      eapply list.Forall_impl; [exact Hx |]. cbn. intros; lia.
    - rewrite merge_sort_Permutation. apply Hl. }
  unfold response_txns. destruct l as [| x l].
  - exists None. split; [reflexivity |]. split; [intros t [=] |]. intros pid. rewrite <- Hsort. reflexivity.
  - destruct (aborted_txns_of_spec (x :: l)) as (t & -> & Hi & Hr). eexists. split; [reflexivity |]. split.
    + intros t' [= <-]. exact Hi.
    + intros pid. cbn [tx_left]. now rewrite Hr.
Qed.

Lemma entries_last e es :
  entries_ordered (es ++ [e]) -> batch_hdr_ok (entry_batch e) -> Forall (fun e1 => entry_last e1 <= entry_last e) es.
Proof.
  intros Ho He. pose proof (bh_delta _ He). apply list.Forall_forall. intros e1 Hin.
  assert (entry_last e1 < bt_base (entry_batch e)); [| unfold entry_last, bt_last in *; lia].
  induction es as [| x es IH]; [inversion Hin |]. inversion_clear Ho as [| ? ? Ho' Hx].
  apply elem_of_cons in Hin as [-> | Hin]; [| auto].
  apply list.Forall_app in Hx as [_ Hx]. now apply list.Forall_cons in Hx as [Hx _].
Qed.

(** ** The property *)

(** C3. A consumer of committed messages gets, of any part of a log, the messages of every
    batch that is in no transaction or in one that was committed, from the fetch offset
    on and in order, and none of an aborted transaction, whatever transactions of other
    producers are interleaved with it and in whatever order the response lists them; the
    markers come as control messages.  The next fetch is from the end of the data, and a
    batch that the response has only a part of is left for it. *)
Theorem read_committed_isolation conf cod junk addr rb i seg st en d s pos T es e t fo mx top hi l fetchq :
  read_committed conf = true -> Forall (entry_ok cod) (es ++ [e]) ->
  log_ok T fo top (es ++ [e]) -> response_lists T fo hi l -> top <= hi < 2 ^ 63 ->
  window rb i seg st en s pos (concat (map entry_bytes (es ++ [e])) ++ t) -> t = [] \/ cut_off t ->
  let ops := concat (map (committed_delivers T conf fo) (es ++ [e])) in
  ops <> [] -> zlen ops < 2 ^ 31 ->
  exists tx s' m', response_txns l = Some tx /\
    rd_kafka_msgset_parse conf cod junk addr (S d) rb s fo mx tx true fetchq = Some (s', m', fetchq ++ ops, 0) /\
    rktp_fetch_offset m' = entry_last e + 1 /\ rktp_fetch_msg_max_bytes m' = mx /\ rd_slice_remains rb s' = 0.
Proof.
  intros Hrc Hes Hlog Hl Hhi W Ht ops Hne Hlen.
  destruct (response_txns_left T fo hi l (lo_txns _ _ _ _ Hlog) Hl) as (tx & Etx & Ha & Hleft).
  assert (delivered_all conf fo tx (es ++ [e]) = ops) as Hops.
  { apply (delivered_committed T conf cod fo hi top (es ++ [e]) fo); auto; [lia |].
    apply list.Forall_forall. intros; lia. }
  assert (batch_hdr_ok (entry_batch e)) as He.
  { apply list.Forall_app in Hes as [_ He]. apply list.Forall_cons in He as [He _]. now apply (entry_hdr_ok cod). }
  destruct (parse_ops conf cod junk addr rb i seg st en d s pos es e t fo mx tx fetchq W Hes Ht Ha)
    as (s' & m' & E1 & E2 & E3 & _ & E5); rewrite ?Hops in *; auto.
  { apply entries_last; [apply (lo_order _ _ _ _ Hlog) | exact He]. }
  exists tx, s', m'. auto.
Qed.

(** ** A log *)

(** A message at an offset, in a transaction of a producer or not. *)
Definition ex_data (offset pid attributes payload : Z) : batch :=
  let m := mk_msg 1 None 0 3 0 RD_KAFKA_TIMESTAMP_CREATE_TIME 1000 RD_KAFKA_MSG_STATUS_PERSISTED (-1)
             0 0 0 0 0 0 (Some [payload]) None in
  mk_bt offset 0 attributes 0 1000 1000 pid 0 0 1 (records_bytes 1000 0 [m]) [m].
Definition ex_mark (offset pid type : Z) : batch :=
  mk_bt offset 0 48 0 1000 1000 pid 0 (-1) 1 (ctrl_record 0 type [12; 0; 0; 0; 0; 0; 0; 0; 0]) [].

(** Producer 5 aborts its transaction at 12 and commits one at 15, producer 7 commits at
    14; the data at 16 is in no transaction. *)
Definition ex_log : list entry :=
  [EData (ex_data 10 5 16 65); EData (ex_data 11 7 16 66); EMark (ex_mark 12 5 0) 0; EData (ex_data 13 5 16 67);
   EMark (ex_mark 14 7 1) 1; EMark (ex_mark 15 5 1) 1].
Definition ex_last : entry := EData (ex_data 16 (-1) 0 68).
Definition ex_txns (pid : Z) : list txn :=
  if pid =? 5 then [mk_txn 10 12 true; mk_txn 13 15 false] else if pid =? 7 then [mk_txn 11 14 false] else [].
Definition rc_conf : fetch_conf := mk_fetch_conf true true 1 3.
Definition rc_codecs : codecs := mk_codecs (fun _ => None) (fun _ => None) (fun _ => None) (fun _ _ => inr (-1)).

Lemma ex_data_ok offset pid attributes payload :
  0 <= offset < 100 -> -1 <= pid < 100 -> attributes = 0 \/ attributes = 16 -> 0 <= payload < 100 ->
  batch_ok rc_codecs (ex_data offset pid attributes payload).
Proof.
  intros Ho Hp Ha Hb.
  assert (zlen (bt_data (ex_data offset pid attributes payload)) = 8) as El by reflexivity.
  constructor; [constructor | ..]; cbn [ex_data bt_base bt_epoch bt_attributes bt_last_delta bt_base_ts bt_max_ts bt_pid
    bt_pid_epoch bt_seq bt_count bt_msgs]; unfold in_i; try lia.
  - split; [| change (zlen (bt_data (ex_data offset pid attributes payload)) < 2 ^ 30); rewrite El; lia].
    vm_compute bt_data. repeat apply List.Forall_cons; try apply List.Forall_nil; unfold is_byte; lia.
  - now destruct Ha as [-> | ->].
  - split; [| cbn; lia]. apply List.Forall_cons; [| constructor].
    split; [constructor; cbn; try lia; discriminate | cbn; unfold in_i; lia].
  - unfold bt_codec. cbn [bt_attributes]. destruct Ha as [-> | ->]; reflexivity.
Qed.

Lemma ex_mark_ok offset pid type :
  0 <= offset < 100 -> -1 <= pid < 100 -> 0 <= type < 2 -> mark_ok (ex_mark offset pid type) type.
Proof.
  intros Ho Hp Ht. constructor; [constructor | ..]; cbn [ex_mark bt_base bt_epoch bt_attributes bt_last_delta bt_base_ts
    bt_max_ts bt_pid bt_pid_epoch bt_seq bt_count bt_msgs]; unfold in_i; try lia.
  - assert (type = 0 \/ type = 1) as [-> | ->] by lia; (split; [| vm_compute; reflexivity]; vm_compute bt_data;
      repeat apply List.Forall_cons; try apply List.Forall_nil; unfold is_byte; lia).
  - discriminate.
  - reflexivity.
  - exists 0, [12; 0; 0; 0; 0; 0; 0; 0; 0]. split; [unfold in_i; lia | reflexivity].
Qed.

Lemma ex_log_ok : log_ok ex_txns 10 16 (ex_log ++ [ex_last]).
Proof.
  constructor.
  - intros pid. unfold ex_txns. destruct (pid =? 5); [| destruct (pid =? 7)]; split; repeat constructor; cbn; lia.
  - repeat constructor; vm_compute; reflexivity.
  - repeat constructor; vm_compute; discriminate.
  - repeat apply List.Forall_cons; try apply List.Forall_nil; cbn.
    + intros _. exists (mk_txn 10 12 true). split; [left | reflexivity].
    + intros _. exists (mk_txn 11 14 false). split; [left | reflexivity].
    + exists (mk_txn 10 12 true). split; [left |]. now split.
    + intros _. exists (mk_txn 13 15 false). split; [right; left | reflexivity].
    + exists (mk_txn 11 14 false). split; [left |]. now split.
    + exists (mk_txn 13 15 false). split; [right; left |]. now split.
    + discriminate.
  - intros pid t Ht Ha _. unfold ex_txns in Ht. destruct (Z.eqb_spec pid 5) as [-> | _].
    + apply elem_of_cons in Ht as [-> | Ht]; [do 2 right; left; now split |].
      apply list_elem_of_singleton in Ht as ->. discriminate.
    + destruct (pid =? 7); [apply list_elem_of_singleton in Ht as ->; discriminate | inversion Ht].
Qed.

Lemma ex_response_lists : response_lists ex_txns 10 20 [(5, 10)].
Proof.
  intros pid. unfold live_offsets, ex_txns, first_offsets. destruct (Z.eqb_spec pid 5) as [-> | Hne]; [reflexivity |].
  rewrite filter_cons_False by (cbn; congruence). destruct (pid =? 7); reflexivity.
Qed.

Definition ex_payloads (ops : list fetch_op) : list (Z * option bytes) :=
  omap (fun rko => match rko with
                   | OpFetch rkm _ false => Some (rkm_offset rkm, rkm_payload rkm)
                   | _ => None
                   end) ops.

Theorem read_committed_isolation_witness :
  exists rb s tx s' m' ops, response_txns [(5, 10)] = Some tx /\
    rd_kafka_msgset_parse rc_conf rc_codecs (fun _ => 0) (fun _ => 0) 1 rb s 10 1048576 tx true [] =
      Some (s', m', ops, 0) /\
    ex_payloads ops = [(11, Some [66]); (13, Some [67]); (16, Some [68])] /\ rktp_fetch_offset m' = 17.
Proof.
  set (data := concat (map entry_bytes (ex_log ++ [ex_last])) ++ []).
  assert (zlen data = 513) as Hl by (vm_compute; reflexivity).
  destruct (shadow_window (fun _ => 0) data None ltac:(lia)) as (rb & s & _ & seg & W).
  destruct (read_committed_isolation rc_conf rc_codecs (fun _ => 0) (fun _ => 0) rb 0 seg 0 (zlen data) 0 s 0 ex_txns ex_log ex_last
    [] 10 1048576 16 20 [(5, 10)] []) as (tx & s' & m' & E1 & E2 & E3 & _).
  - reflexivity.
  - repeat apply List.Forall_cons; try apply List.Forall_nil; first [apply ex_data_ok; lia | apply ex_mark_ok; lia].
  - exact ex_log_ok.
  - exact ex_response_lists.
  - lia.
  - exact W.
  - left. reflexivity.
  - vm_compute. discriminate.
  - vm_compute. reflexivity.
  - exists rb, s, tx, s', m'. eexists. split; [exact E1 |]. split; [exact E2 |]. split; [vm_compute; reflexivity | exact E3].
Defined.
