(* ===== verification/EosTotal.v ===== *)
(** * Errors and drains fail no assertion

    The calls by which the handlers of Produce responses change the producer's state
    (Eos): as long as the transaction may be failed they return, and keep that so. *)

From stdpp Require Import gmap strings.
From S2P Require Import Prelude Producer EosState Eos.

(** A transaction that failed, or may fail. *)
Definition may_fail (rk : rd_kafka) : Prop :=
  rk_fatal_err rk <> 0 \/ txn_err rk <> 0 \/
  txn_state rk ∈ [TXN_IN_TRANSACTION; TXN_BEGIN_COMMIT; TXN_COMMITTING_TRANSACTION;
                  TXN_ABORTING_TRANSACTION; TXN_ABORTABLE_ERROR; TXN_FATAL_ERROR].

(** What these calls keep. *)
Record rk_kept (a b : rd_kafka) : Prop := {
  kt_txn : rk_transactional b = rk_transactional a;
  kt_cnt : inflight_toppar_cnt b = inflight_toppar_cnt a;
  kt_fatal : rk_fatal_err a <> 0 -> rk_fatal_err b = rk_fatal_err a;
  kt_ok : may_fail a -> may_fail b }.

#[export] Instance rk_kept_preorder : PreOrder rk_kept.
Proof.
  split; [intros rk; split; auto |].
  intros a b c [A1 A2 A3 A4] [B1 B2 B3 B4]. split; auto; try congruence.
  intros H. rewrite B3; [auto |]. now rewrite (A3 H).
Qed.

(** The call returns. *)
Definition returns (rk : rd_kafka) (r : option rd_kafka) : Prop :=
  exists rk', r = Some rk' /\ rk_kept rk rk'.

Lemma returns_bind rk r k :
  returns rk r -> (forall rk1, rk_kept rk rk1 -> returns rk1 (k rk1)) ->
  returns rk (let* rk1 := r in k rk1).
Proof.
  intros (rk1 & -> & K1) H. destruct (H rk1 K1) as (rk2 & -> & K2).
  exists rk2. split; [reflexivity |]. now transitivity rk1.
Qed.

Lemma returns_step rk rk1 r : rk_kept rk rk1 -> returns rk1 r -> returns rk r.
Proof. intros K (rk2 & -> & K2). exists rk2. split; [reflexivity |]. now transitivity rk1. Qed.

(** A state that differs in none of these fields. *)
Lemma kept_same a b :
  rk_transactional b = rk_transactional a -> inflight_toppar_cnt b = inflight_toppar_cnt a ->
  rk_fatal_err b = rk_fatal_err a ->
  txn_err b = txn_err a -> txn_state b = txn_state a -> rk_kept a b.
Proof. intros E1 E2 E3 E4 E5. split; try congruence. unfold may_fail. now rewrite E3, E4, E5. Qed.

Lemma fatal_error0_kept rk err :
  err <> 0 -> rk_kept rk (rd_kafka_set_fatal_error0 rk err) /\
  rk_fatal_err (rd_kafka_set_fatal_error0 rk err) <> 0.
Proof.
  intros He. unfold rd_kafka_set_fatal_error0. cbn.
  destruct (Z.eqb_spec (rk_fatal_err rk) 0) as [E | E]; cbn.
  - split; [| assumption]. split; cbn; auto; [congruence |]. intros _. now left.
  - split; [| assumption]. apply kept_same; reflexivity.
Qed.

Lemma txn_fatal_returns rk : rk_fatal_err rk <> 0 -> returns rk (rd_kafka_txn_set_state rk TXN_FATAL_ERROR).
Proof.
  intros Hf. unfold rd_kafka_txn_set_state. cbn. case_bool_decide.
  { exists rk. split; reflexivity. }
  cbn. eexists. split; [reflexivity |].
  assert (forall rk1, rk_fatal_err rk1 = rk_fatal_err rk -> rk_transactional rk1 = rk_transactional rk ->
    inflight_toppar_cnt rk1 = inflight_toppar_cnt rk -> rk_kept rk rk1)
    as K by (intros; split; auto; intros _; left; congruence).
  case_bool_decide; apply K; reflexivity.
Qed.

Lemma txn_set_fatal_returns rk err :
  err <> 0 -> returns rk (rd_kafka_txn_set_fatal_error rk err).
Proof.
  intros He. unfold rd_kafka_txn_set_fatal_error.
  destruct (fatal_error0_kept rk err He) as [K F].
  set (rk1 := rd_kafka_set_fatal_error0 rk err) in *. clearbody rk1.
  eapply returns_step; [exact K |].
  assert (forall rk2, rk_fatal_err rk2 = rk_fatal_err rk1 -> rk_kept rk1 rk2 ->
    returns rk1 (rd_kafka_txn_set_state rk2 TXN_FATAL_ERROR)) as H.
  { intros rk2 E2 K2. eapply returns_step; [exact K2 |]. apply txn_fatal_returns. congruence. }
  destruct (txn_init_rkq _); apply H; try reflexivity;
    (split; cbn; auto; intros _; now left).
Qed.

Lemma idemp_set_fatal_returns rk err : err <> 0 -> returns rk (rd_kafka_idemp_set_fatal_error rk err).
Proof.
  intros He. unfold rd_kafka_idemp_set_fatal_error.
  destruct (rk_transactional rk); [now apply txn_set_fatal_returns |].
  eexists. split; [reflexivity |]. now apply fatal_error0_kept.
Qed.

Lemma abortable_returns rk err b :
  may_fail rk -> err <> 0 -> returns rk (rd_kafka_txn_set_abortable_error0 rk err b).
Proof.
  intros H He. unfold rd_kafka_txn_set_abortable_error0.
  destruct (Z.eqb_spec (rk_fatal_err rk) 0) as [Ef | Ef]; cbn [negb]; [| exists rk; split; reflexivity].
  set (rk1 := if b then _ else _).
  assert (rk_kept rk rk1) as K1 by (unfold rk1; destruct b; [apply kept_same | ]; reflexivity).
  assert (may_fail rk1 /\ rk_fatal_err rk1 = 0) as [H1 Ef1] by (unfold rk1; destruct b; auto).
  clearbody rk1. eapply returns_step; [exact K1 |]. clear rk H Ef K1.
  destruct (Z.eqb_spec (txn_err rk1) 0) as [Ee | Ee]; cbn [negb]; [| exists rk1; split; reflexivity].
  destruct H1 as [? | [? | H1]]; [congruence.. |].
  assert (forall rk2, txn_err rk2 = err -> rk_transactional rk2 = rk_transactional rk1 ->
    inflight_toppar_cnt rk2 = inflight_toppar_cnt rk1 -> rk_fatal_err rk2 = rk_fatal_err rk1 ->
    rk_kept rk1 rk2) as K.
  { intros rk2 E1 E2 E3 E4. split; try congruence. intros _. right. left. congruence. }
  unfold rd_kafka_txn_set_state, rd_kafka_txn_state_transition_is_valid. cbn [txn_state set_txn_err].
  rewrite !list.elem_of_cons, list.elem_of_nil in H1.
  destruct H1 as [E | [E | [E | [E | [E | [E | []]]]]]]; rewrite E; cbn;
    (eexists; split; [reflexivity |]; apply K; reflexivity).
Qed.

(** Any state but [IDEMP_ASSIGNED], which answers the application. *)
Lemma idemp_set_state_returns rk s :
  rk_transactional rk = false \/ s <> IDEMP_ASSIGNED -> (s = IDEMP_FATAL_ERROR -> rk_fatal_err rk <> 0) ->
  returns rk (rd_kafka_idemp_set_state rk s).
Proof.
  intros Hs Hf.
  assert (forall s, rk_transactional rk = false \/ s <> IDEMP_ASSIGNED ->
    (s = IDEMP_FATAL_ERROR -> rk_fatal_err rk <> 0) -> returns rk (idemp_enter_state rk s)) as Enter.
  { clear s Hs Hf. intros s Hs Hf. unfold idemp_enter_state. cbn.
    assert (rk_kept rk (set_idemp_state rk s)) as K by (apply kept_same; reflexivity).
    destruct (rk_transactional rk) eqn:Et; [| eexists; split; [reflexivity | exact K]].
    destruct Hs as [? | Hs]; [discriminate |].
    eapply returns_step; [exact K |]. unfold rd_kafka_txn_idemp_state_change.
    set (rk1 := set_idemp_state rk s) in *.
    assert (rk_fatal_err rk1 = rk_fatal_err rk) as Ef by reflexivity. clearbody rk1.
    assert (returns rk1 (Some rk1)) as R0 by (eexists; split; reflexivity).
    destruct s; try congruence; try exact R0. specialize (Hf eq_refl).
    destruct (txn_state rk1) eqn:Es; try exact R0;
      (destruct (txn_fatal_returns rk1 ltac:(congruence)) as (rk2 & -> & K2); cbn [andb];
       eexists; split; [reflexivity |]; destruct (txn_init_rkq rk2); [| exact K2];
       etransitivity; [exact K2 | apply kept_same; reflexivity]). }
  unfold rd_kafka_idemp_set_state, rd_kafka_fatal_error_code.
  case_bool_decide; [eexists; split; reflexivity |].
  destruct (Z.eqb_spec (rk_fatal_err rk) 0); cbn [negb andb]; [auto |].
  case_bool_decide; [| auto]. case_bool_decide; [eexists; split; reflexivity |].
  apply Enter; [right; discriminate | auto].
Qed.

Lemma drain_done_returns rk : returns rk (rd_kafka_idemp_drain_done rk).
Proof.
  unfold rd_kafka_idemp_drain_done.
  assert (forall rk1 (a b : bool), rk_kept rk rk1 -> returns rk
    (let rk2 := if a then rd_kafka_idemp_pid_timer_restart rk1 else rk1 in
     Some (if b then emit rk2 EvWakeup else rk2))) as Fin.
  { intros rk1 a b K. eexists. split; [reflexivity |]. etransitivity; [exact K |].
    destruct a, b; apply kept_same; reflexivity. }
  case_bool_decide as Er.
  { destruct (idemp_set_state_returns rk IDEMP_REQ_PID) as (rk1 & -> & K1);
      [right; discriminate | discriminate | now apply (Fin rk1 true false)]. }
  destruct (bool_decide _ && _); [| now apply (Fin rk false false)].
  destruct (rk_transactional rk) eqn:Et.
  { destruct (idemp_set_state_returns rk IDEMP_REQ_PID) as (rk1 & -> & K1);
      [right; discriminate | discriminate | now apply (Fin rk1 true false)]. }
  destruct (idemp_set_state_returns (set_eos_pid rk (rd_kafka_pid_bump (eos_pid rk))) IDEMP_ASSIGNED)
    as (rk1 & -> & K1); [now left | discriminate |].
  apply (Fin rk1 false true). etransitivity; [| exact K1]. apply kept_same; reflexivity.
Qed.

Lemma check_drain_done_returns rk : returns rk (rd_kafka_idemp_check_drain_done rk).
Proof.
  unfold rd_kafka_idemp_check_drain_done. destruct (_ =? 0); [apply drain_done_returns |].
  eexists. split; reflexivity.
Qed.

Lemma drain_reset_returns rk : returns rk (rd_kafka_idemp_drain_reset rk).
Proof.
  unfold rd_kafka_idemp_drain_reset. apply returns_bind; [| intros; apply check_drain_done_returns].
  apply idemp_set_state_returns; [right |]; discriminate.
Qed.

Lemma drain_epoch_bump_returns rk err :
  (rk_transactional rk = true -> may_fail rk) -> err <> 0 ->
  returns rk (rd_kafka_idemp_drain_epoch_bump rk err).
Proof.
  intros H He. unfold rd_kafka_idemp_drain_epoch_bump.
  apply returns_bind; [apply idemp_set_state_returns; [right |]; discriminate |].
  intros rk1 K1. apply returns_bind; [| intros; apply check_drain_done_returns].
  destruct (rk_transactional rk1) eqn:Et; [| eexists; split; reflexivity].
  apply abortable_returns; [| assumption]. apply (kt_ok _ _ K1), H. now rewrite <- (kt_txn _ _ K1).
Qed.

Lemma inflight_toppar_sub_returns rk :
  0 < inflight_toppar_cnt rk < 2 ^ 31 ->
  exists rk', rd_kafka_idemp_inflight_toppar_sub rk = Some rk' /\
    inflight_toppar_cnt rk' = inflight_toppar_cnt rk - 1 /\ rk_transactional rk' = rk_transactional rk /\
    (may_fail rk -> may_fail rk').
Proof.
  intros H. unfold rd_kafka_idemp_inflight_toppar_sub. rewrite swrap_small by (unfold in_i; lia).
  set (rk1 := set_inflight_toppar_cnt rk _).
  destruct (inflight_toppar_cnt rk - 1 =? 0).
  - destruct (drain_done_returns rk1) as (rk2 & -> & K). exists rk2.
    split; [reflexivity |]. split; [exact (kt_cnt _ _ K) |]. split; [exact (kt_txn _ _ K) | exact (kt_ok _ _ K)].
  - replace (0 <=? inflight_toppar_cnt rk - 1) with true by lia. exists rk1. auto.
Qed.
