(* ===== verification/Produce.v ===== *)
(** * Results of Produce requests (src/cbits/hs_rdkafka_request.c,
      hs_rdkafka_broker.c, hs_rdkafka_partition.c, hs_rdkafka_idempotence.c)

    From the response, or the error, of a Produce request to the messages of its batch:
    which go back to the partition's queue to be sent again, which are reported to the
    application and how, what the idempotent producer does to keep each of them in the
    log once and in order, and the sequence numbers a partition expects.

    The state is one partition, [prod], with the producer's state [pt_rk] (EosState).
    What leaves the state is appended to [pt_out].  The clock is an argument; the two
    locks are held as the code holds them, so that a handler is one step.  Interceptors,
    statistics and logging are left out. *)

From stdpp Require Import gmap strings.
From S2P Require Import Prelude Header Msgq Producer EosState Eos.
From S2P Require Import RdBuf Slice KafkaBuf MsgWriter.

(** ** Errors and actions *)

Definition ERR__MSG_TIMED_OUT : Z := -192.
Definition ERR__WAIT_COORD : Z := -180.
Definition ERR__RETRY : Z := -153.
Definition ERR__PURGE_QUEUE : Z := -152.
Definition ERR__PURGE_INFLIGHT : Z := -151.
Definition ERR__GAPLESS_GUARANTEE : Z := -148.
Definition ERR_LEADER_NOT_AVAILABLE : Z := 5.
Definition ERR_NOT_LEADER_FOR_PARTITION : Z := 6.
Definition ERR_REQUEST_TIMED_OUT : Z := 7.
Definition ERR_BROKER_NOT_AVAILABLE : Z := 8.
Definition ERR_REPLICA_NOT_AVAILABLE : Z := 9.
Definition ERR_NOT_ENOUGH_REPLICAS : Z := 19.
Definition ERR_NOT_ENOUGH_REPLICAS_AFTER_APPEND : Z := 20.
Definition ERR_OUT_OF_ORDER_SEQUENCE_NUMBER : Z := 45.
Definition ERR_DUPLICATE_SEQUENCE_NUMBER : Z := 46.
Definition ERR_KAFKA_STORAGE_ERROR : Z := 56.

Definition ACTION_MSG_NOT_PERSISTED : Z := 0x40.
Definition ACTION_MSG_POSSIBLY_PERSISTED : Z := 0x80.
Definition ACTION_MSG_PERSISTED : Z := 0x100.
Definition ACTION_MSG_FLAGS : Z :=
  Z.lor ACTION_MSG_NOT_PERSISTED (Z.lor ACTION_MSG_POSSIBLY_PERSISTED ACTION_MSG_PERSISTED).

(** What is used of a request once it is answered. *)
Record request_info := mk_rqi {
  rqi_ApiKey : Z;
  rqi_ApiVersion : Z;
  rqi_sent : bool }.

(** The [switch] over the errors that are not mentioned in the call. *)
Definition default_action (err : Z) : Z :=
  if err =? 0 then 0
  else if err_in err [ERR_LEADER_NOT_AVAILABLE; ERR_NOT_LEADER_FOR_PARTITION; ERR_BROKER_NOT_AVAILABLE;
                      ERR_REPLICA_NOT_AVAILABLE; ERR_COORDINATOR_NOT_AVAILABLE; ERR_NOT_COORDINATOR;
                      ERR__WAIT_COORD]
  then Z.lor ACTION_REFRESH ACTION_MSG_NOT_PERSISTED
  else if err_in err [ERR_KAFKA_STORAGE_ERROR]
  then Z.lor ACTION_REFRESH (Z.lor ACTION_RETRY ACTION_MSG_NOT_PERSISTED)
  else if err_in err [ERR__TRANSPORT; ERR__TIMED_OUT; ERR_REQUEST_TIMED_OUT;
                      ERR_NOT_ENOUGH_REPLICAS_AFTER_APPEND]
  then Z.lor ACTION_RETRY ACTION_MSG_POSSIBLY_PERSISTED
  else if err_in err [ERR_NOT_ENOUGH_REPLICAS; ERR__TIMED_OUT_QUEUE]
  then Z.lor ACTION_RETRY ACTION_MSG_NOT_PERSISTED
  else if err_in err [ERR__PURGE_INFLIGHT; ERR__BAD_MSG]
  then Z.lor ACTION_PERMANENT ACTION_MSG_POSSIBLY_PERSISTED
  else Z.lor ACTION_PERMANENT ACTION_MSG_NOT_PERSISTED.

(** [explicit] are the pairs of an action and an error of the call. *)
Definition rd_kafka_err_action (err : Z) (request : option request_info) (explicit : list (Z * Z)) : Z :=
  if err =? 0 then 0
  else
    let actions := foldl (fun a '(exp_act, exp_err) => if err =? exp_err then Z.lor a exp_act else a)
                     0 explicit in
    if negb (actions =? 0) then actions
    else
      let actions := default_action err in
      let actions := if has_action actions (Z.lor ACTION_FATAL ACTION_PERMANENT)
                     then Z.ldiff actions ACTION_RETRY else actions in
      match request with
      | None => Z.ldiff actions ACTION_RETRY
      | Some r => if negb (rqi_ApiKey r =? RD_KAFKAP_Produce) then Z.ldiff actions ACTION_MSG_FLAGS
                  else actions
      end.

(** ** The state *)

Record toppar_err := mk_tperr {
  te_err : Z;
  te_actions : Z;
  te_ts : Z;
  te_base_msgid : Z;
  te_base_seq : Z;
  te_last_seq : Z }.

(** [rktp_eos] *)
Record toppar_eos := mk_teos {
  te_pid : rd_kafka_pid;
  acked_msgid : Z;
  epoch_base_msgid : Z;
  next_ack_seq : Z;
  next_err_seq : Z;
  wait_drain : bool }.

(** [DrOp] is the op with the delivery reports of the messages; [DrDestroyed] are
    messages destroyed as the application wants no report of them. *)
Inductive prod_event : Type :=
| DrOp (err : Z) (msgs : list rd_kafka_msg)
| DrDestroyed (err : Z) (msgs : list rd_kafka_msg)
| LeaderQuery
| TopicSetError (err : Z)
| ThrottleTime (ms : Z).

(** A partition, with the flag [RD_KAFKA_TOPIC_F_LEADER_UNAVAIL] of its topic. *)
Record prod := mk_prod {
  pt_rk : rd_kafka;
  pt_msgq : rd_kafka_msgq;
  pt_xmit_msgq : rd_kafka_msgq;
  pt_msgs_inflight : Z;
  pt_eos : toppar_eos;
  pt_last_err : toppar_err;
  pt_leader_unavail : bool;
  pt_out : list prod_event }.

Definition set_pt_rk (t : prod) v := mk_prod v (pt_msgq t) (pt_xmit_msgq t) (pt_msgs_inflight t)
  (pt_eos t) (pt_last_err t) (pt_leader_unavail t) (pt_out t).
Definition set_pt_msgq (t : prod) v := mk_prod (pt_rk t) v (pt_xmit_msgq t) (pt_msgs_inflight t)
  (pt_eos t) (pt_last_err t) (pt_leader_unavail t) (pt_out t).
Definition set_pt_xmit_msgq (t : prod) v := mk_prod (pt_rk t) (pt_msgq t) v (pt_msgs_inflight t)
  (pt_eos t) (pt_last_err t) (pt_leader_unavail t) (pt_out t).
Definition set_pt_msgs_inflight (t : prod) v := mk_prod (pt_rk t) (pt_msgq t) (pt_xmit_msgq t) v
  (pt_eos t) (pt_last_err t) (pt_leader_unavail t) (pt_out t).
Definition set_pt_eos (t : prod) v := mk_prod (pt_rk t) (pt_msgq t) (pt_xmit_msgq t) (pt_msgs_inflight t)
  v (pt_last_err t) (pt_leader_unavail t) (pt_out t).
Definition set_pt_last_err (t : prod) v := mk_prod (pt_rk t) (pt_msgq t) (pt_xmit_msgq t) (pt_msgs_inflight t)
  (pt_eos t) v (pt_leader_unavail t) (pt_out t).
Definition set_pt_leader_unavail (t : prod) v := mk_prod (pt_rk t) (pt_msgq t) (pt_xmit_msgq t)
  (pt_msgs_inflight t) (pt_eos t) (pt_last_err t) v (pt_out t).
Definition pt_emit (t : prod) (e : prod_event) := mk_prod (pt_rk t) (pt_msgq t) (pt_xmit_msgq t)
  (pt_msgs_inflight t) (pt_eos t) (pt_last_err t) (pt_leader_unavail t) (pt_out t ++ [e]).

Definition eos_set_next_ack (e : toppar_eos) v :=
  mk_teos (te_pid e) (acked_msgid e) (epoch_base_msgid e) v (next_err_seq e) (wait_drain e).
Definition eos_set_next_err (e : toppar_eos) v :=
  mk_teos (te_pid e) (acked_msgid e) (epoch_base_msgid e) (next_ack_seq e) v (wait_drain e).
Definition eos_set_acked (e : toppar_eos) v :=
  mk_teos (te_pid e) v (epoch_base_msgid e) (next_ack_seq e) (next_err_seq e) (wait_drain e).
Definition eos_set_wait_drain (e : toppar_eos) v :=
  mk_teos (te_pid e) (acked_msgid e) (epoch_base_msgid e) (next_ack_seq e) (next_err_seq e) v.

(** The configuration; [rk_drmode] is whether it is not [RD_KAFKA_DR_MODE_NONE], and
    [ut_handle_ProduceResponse] the hook of the unit tests. *)
Record resp_conf := mk_rconf {
  idempotent : bool;
  gapless : bool;
  acks : Z;
  retry_backoff_ms : Z;
  max_retries : Z;
  order : queuing_strategy;
  rk_drmode : bool;
  dr_err_only : bool;
  ut_handle_ProduceResponse : option (Z -> Z -> Z -> Z) }.

(** [rkb_nodeid], [rd_kafka_terminating] and the clock. *)
Record penv := mk_penv {
  nodeid : Z;
  terminating : bool;
  clock : Z }.

Section Handlers.
Context (conf : resp_conf) (env : penv).

(** ** Delivery reports *)

(** The state and the queue. *)
Definition rd_kafka_dr_msgq (t : prod) (rkmq : rd_kafka_msgq) (err : Z) : prod * rd_kafka_msgq :=
  if rd_kafka_msgq_len rkmq =? 0 then (t, rkmq)
  else
    let t := if negb (err =? 0) && rk_transactional (pt_rk t)
             then set_pt_rk t (set_txn_dr_fails (pt_rk t)
                                 (i64 (txn_dr_fails (pt_rk t) + rd_kafka_msgq_len rkmq)))
             else t in
    if rk_drmode conf && (negb (dr_err_only conf) || negb (err =? 0)) then
      let '(msgq, rkmq) := rd_kafka_msgq_move RD_KAFKA_MSGQ_INITIALIZER rkmq in
      (pt_emit t (DrOp err (rkmq_msgs msgq)), rkmq)
    else
      let '(destroyed, rkmq) := rd_kafka_msgq_purge rkmq in
      (pt_emit t (DrDestroyed err destroyed), rkmq).

Definition acked_status : rd_kafka_msg_status :=
  if negb (acks conf =? 0) then RD_KAFKA_MSG_STATUS_PERSISTED
  else RD_KAFKA_MSG_STATUS_POSSIBLY_PERSISTED.

Definition rd_kafka_dr_implicit_ack (t : prod) (last_msgid : Z) : option prod :=
  let status := acked_status in
  let* (acked, xmit) :=
    rd_kafka_msgq_move_acked RD_KAFKA_MSGQ_INITIALIZER (pt_xmit_msgq t) last_msgid status in
  let t := set_pt_xmit_msgq t xmit in
  let* (acked2, msgq) :=
    rd_kafka_msgq_move_acked RD_KAFKA_MSGQ_INITIALIZER (pt_msgq t) last_msgid status in
  let t := set_pt_msgq t msgq in
  let* (acked, _) := rd_kafka_msgq_insert_msgq (msg_order_cmp (order conf)) acked acked2 in
  if rd_kafka_msgq_len acked =? 0 then Some t
  else Some (fst (rd_kafka_dr_msgq t acked 0)).

(** ** Retries *)

Definition rd_kafka_toppar_leader_unavailable (t : prod) : prod :=
  pt_emit (set_pt_leader_unavail t true) LeaderQuery.

Definition rd_kafka_idemp_drain_toppar (t : prod) : prod :=
  if wait_drain (pt_eos t) then t else set_pt_eos t (eos_set_wait_drain (pt_eos t) true).

(** The state, the queue and the return value. *)
Definition rd_kafka_toppar_retry_msgq (t : prod) (rkmq : rd_kafka_msgq) (incr_retry : Z)
  (status : rd_kafka_msg_status) : option (prod * rd_kafka_msgq * Z) :=
  let backoff := i64 (clock env + i32 (retry_backoff_ms conf * 1000)) in
  if terminating env then Some (t, rkmq, 1)
  else
    let* (msgq, rkmq, r) :=
      rd_kafka_retry_msgq (msg_order_cmp (order conf)) (pt_msgq t) rkmq incr_retry
        (max_retries conf) backoff status in
    Some (set_pt_msgq t msgq, rkmq, r).

(** ** Errors of a request *)

(** [struct rd_kafka_Produce_err] *)
Record produce_err := mk_perr {
  pe_err : Z;
  pe_actions : Z;
  pe_incr_retry : Z;
  pe_status : rd_kafka_msg_status;
  pe_next_ack_seq : Z;
  pe_next_err_seq : Z;
  pe_update_next_ack : bool;
  pe_update_next_err : bool;
  pe_rktp_pid : rd_kafka_pid;
  pe_last_seq : Z }.

Definition perr_set_err (p : produce_err) v := mk_perr v (pe_actions p) (pe_incr_retry p) (pe_status p)
  (pe_next_ack_seq p) (pe_next_err_seq p) (pe_update_next_ack p) (pe_update_next_err p) (pe_rktp_pid p)
  (pe_last_seq p).
Definition perr_set_incr_retry (p : produce_err) v := mk_perr (pe_err p) (pe_actions p) v (pe_status p)
  (pe_next_ack_seq p) (pe_next_err_seq p) (pe_update_next_ack p) (pe_update_next_err p) (pe_rktp_pid p)
  (pe_last_seq p).
Definition perr_set_status (p : produce_err) v := mk_perr (pe_err p) (pe_actions p) (pe_incr_retry p) v
  (pe_next_ack_seq p) (pe_next_err_seq p) (pe_update_next_ack p) (pe_update_next_err p) (pe_rktp_pid p)
  (pe_last_seq p).
(** The actions and the status. *)
Definition perr_set_outcome (p : produce_err) actions status := mk_perr (pe_err p) actions (pe_incr_retry p)
  status (pe_next_ack_seq p) (pe_next_err_seq p) (pe_update_next_ack p) (pe_update_next_err p)
  (pe_rktp_pid p) (pe_last_seq p).
(** Which of the two expected sequence numbers are updated. *)
Definition perr_set_update (p : produce_err) ack err := mk_perr (pe_err p) (pe_actions p) (pe_incr_retry p)
  (pe_status p) (pe_next_ack_seq p) (pe_next_err_seq p) ack err (pe_rktp_pid p) (pe_last_seq p).

(** The first message of the batch remembers the last one, so that a retry is of the
    same batch. *)
Definition batch_store_last_msgid (batch : rd_kafka_msgbatch) : option rd_kafka_msgbatch :=
  let q := rkmb_msgq batch in
  let* lastmsg := rd_kafka_msgq_last q in
  match rkmq_msgs q with
  | [] => None
  | firstmsg :: rest =>
      if negb (rkm_last_msgid firstmsg =? 0) then
        let* _ := rd_assert (rkm_last_msgid firstmsg =? rkm_msgid lastmsg) in
        Some batch
      else
        Some (batch_set_msgq batch
                (mk_msgq (msg_set_last_msgid firstmsg (rkm_msgid lastmsg) :: rest) (rkmq_msg_cnt q)
                   (rkmq_msg_bytes q) (rkmq_wakeup q)))
  end.

Definition handle_out_of_order_sequence (t : prod) (batch : rd_kafka_msgbatch) (perr : produce_err)
  : option (prod * produce_err) :=
  let r := i32 (rkmb_first_seq batch - pe_next_ack_seq perr) in
  if r =? 0 then
    let* rk := rd_kafka_idemp_set_fatal_error (pt_rk t) (pe_err perr) in
    Some (set_pt_rk t rk,
          perr_set_update (perr_set_outcome perr ACTION_PERMANENT RD_KAFKA_MSG_STATUS_POSSIBLY_PERSISTED)
            false true)
  else if r >? 0 then
    let perr := perr_set_outcome (perr_set_incr_retry perr 0) ACTION_RETRY RD_KAFKA_MSG_STATUS_NOT_PERSISTED in
    let* rk := rd_kafka_idemp_drain_epoch_bump (pt_rk t) (pe_err perr) in
    Some (set_pt_rk t rk, perr_set_update perr false true)
  else
    let* rk := rd_kafka_idemp_set_fatal_error (pt_rk t) (pe_err perr) in
    Some (set_pt_rk t rk,
          perr_set_update (perr_set_outcome perr ACTION_PERMANENT RD_KAFKA_MSG_STATUS_POSSIBLY_PERSISTED)
            false false).

Definition handle_unknown_producer_id (t : prod) (batch : rd_kafka_msgbatch) (perr : produce_err)
  : option (prod * produce_err) :=
  let* firstmsg := rd_kafka_msgq_first (rkmb_msgq batch) in
  if rk_transactional (pt_rk t) then
    let* rk := rd_kafka_idemp_drain_epoch_bump (pt_rk t) (pe_err perr) in
    let* rk := rd_kafka_txn_set_abortable_error_with_bump rk ERR_UNKNOWN_PRODUCER_ID in
    Some (set_pt_rk t rk,
          perr_set_update (perr_set_outcome (perr_set_incr_retry perr 0) ACTION_PERMANENT
                             RD_KAFKA_MSG_STATUS_NOT_PERSISTED) false true)
  else if (rkm_retries firstmsg =? 0) && (pe_next_err_seq perr =? rkmb_first_seq batch) then
    let* rk := rd_kafka_idemp_drain_epoch_bump (pt_rk t) (pe_err perr) in
    Some (set_pt_rk t rk,
          perr_set_update (perr_set_outcome (perr_set_incr_retry perr 0) ACTION_RETRY
                             RD_KAFKA_MSG_STATUS_NOT_PERSISTED) false true)
  else
    let* rk := rd_kafka_idemp_set_fatal_error (pt_rk t) (pe_err perr) in
    Some (set_pt_rk t rk,
          perr_set_update (perr_set_outcome perr ACTION_PERMANENT RD_KAFKA_MSG_STATUS_POSSIBLY_PERSISTED)
            false true).

Definition rd_kafka_handle_idempotent_Produce_error (t : prod) (batch : rd_kafka_msgbatch)
  (perr : produce_err) : option (prod * rd_kafka_msgbatch * produce_err) :=
  let* batch := batch_store_last_msgid batch in
  if negb (rd_kafka_pid_eq (rkmb_pid batch) (pe_rktp_pid perr)) then
    Some (t, batch, perr_set_outcome perr ACTION_PERMANENT RD_KAFKA_MSG_STATUS_POSSIBLY_PERSISTED)
  else if pe_err perr =? ERR_OUT_OF_ORDER_SEQUENCE_NUMBER then
    let* (t, perr) := handle_out_of_order_sequence t batch perr in Some (t, batch, perr)
  else if pe_err perr =? ERR_DUPLICATE_SEQUENCE_NUMBER then
    Some (t, batch,
          perr_set_update (perr_set_outcome (perr_set_err perr 0) 0 RD_KAFKA_MSG_STATUS_PERSISTED) true true)
  else if pe_err perr =? ERR_UNKNOWN_PRODUCER_ID then
    let* (t, perr) := handle_unknown_producer_id t batch perr in Some (t, batch, perr)
  else Some (t, batch, perr).

(** The actions for the errors of this request. *)
Definition produce_actions : list (Z * Z) :=
  [(Z.lor ACTION_REFRESH ACTION_MSG_POSSIBLY_PERSISTED, ERR__TRANSPORT);
   (Z.lor ACTION_REFRESH ACTION_MSG_NOT_PERSISTED, ERR_UNKNOWN_TOPIC_OR_PART);
   (Z.lor ACTION_PERMANENT ACTION_MSG_NOT_PERSISTED, ERR_TOPIC_AUTHORIZATION_FAILED);
   (Z.lor ACTION_REFRESH (Z.lor ACTION_RETRY ACTION_MSG_NOT_PERSISTED), ERR_KAFKA_STORAGE_ERROR);
   (Z.lor ACTION_RETRY ACTION_MSG_NOT_PERSISTED, ERR_NOT_ENOUGH_REPLICAS);
   (Z.lor ACTION_RETRY ACTION_MSG_POSSIBLY_PERSISTED, ERR_NOT_ENOUGH_REPLICAS_AFTER_APPEND);
   (Z.lor ACTION_RETRY ACTION_MSG_NOT_PERSISTED, ERR__TIMED_OUT_QUEUE);
   (Z.lor ACTION_RETRY ACTION_MSG_POSSIBLY_PERSISTED, ERR__TIMED_OUT);
   (Z.lor ACTION_PERMANENT ACTION_MSG_POSSIBLY_PERSISTED, ERR__MSG_TIMED_OUT);
   (Z.lor ACTION_PERMANENT ACTION_MSG_POSSIBLY_PERSISTED, ERR_OUT_OF_ORDER_SEQUENCE_NUMBER);
   (Z.lor ACTION_PERMANENT ACTION_MSG_POSSIBLY_PERSISTED, ERR_DUPLICATE_SEQUENCE_NUMBER);
   (Z.lor ACTION_PERMANENT ACTION_MSG_NOT_PERSISTED, ERR_UNKNOWN_PRODUCER_ID);
   (Z.lor ACTION_PERMANENT ACTION_MSG_NOT_PERSISTED, ERR_INVALID_PRODUCER_EPOCH);
   (ACTION_RETRY, ERR__RETRY)].

(** The status the actions stand for. *)
Definition status_of_actions (perr : produce_err) : produce_err :=
  if has_action (pe_actions perr) ACTION_MSG_POSSIBLY_PERSISTED
  then perr_set_status perr RD_KAFKA_MSG_STATUS_POSSIBLY_PERSISTED
  else if has_action (pe_actions perr) ACTION_MSG_NOT_PERSISTED
  then perr_set_status perr RD_KAFKA_MSG_STATUS_NOT_PERSISTED
  else if has_action (pe_actions perr) ACTION_MSG_PERSISTED
  then perr_set_status perr RD_KAFKA_MSG_STATUS_PERSISTED
  else perr.

Definition store_last_err (t : prod) (batch : rd_kafka_msgbatch) (perr : produce_err) : prod :=
  set_pt_last_err t (mk_tperr (pe_err perr) (pe_actions perr) (clock env) (rkmb_first_msgid batch)
                       (rkmb_first_seq batch) (pe_last_seq perr)).

(** The branch of the actions REFRESH and RETRY, up to the queue of the batch, [msgq];
    what is left in it was retried too often. *)
Definition produce_error_retry (t : prod) (request : option request_info) (msgq : rd_kafka_msgq)
  (perr : produce_err) : option (prod * rd_kafka_msgq * produce_err) :=
  let '(t, perr) :=
    if has_action (pe_actions perr) ACTION_REFRESH then
      (rd_kafka_toppar_leader_unavailable t,
       if negb (pe_err perr =? ERR__TRANSPORT) && negb (pe_err perr =? ERR_KAFKA_STORAGE_ERROR)
       then perr_set_incr_retry perr 0 else perr)
    else (t, perr) in
  let* request := request in
  let perr := if negb (rqi_sent request) then perr_set_incr_retry perr 0 else perr in
  let perr := if pe_incr_retry perr =? 0 then perr_set_status perr RD_KAFKA_MSG_STATUS_NOT_PERSISTED
              else perr in
  let '(t, perr) :=
    if idempotent conf then
      (rd_kafka_idemp_drain_toppar t,
       perr_set_update perr (bool_decide (pe_status perr = RD_KAFKA_MSG_STATUS_POSSIBLY_PERSISTED)) true)
    else (t, perr) in
  let* (t, msgq, _) := rd_kafka_toppar_retry_msgq t msgq (pe_incr_retry perr) (pe_status perr) in
  Some (t, msgq, perr).

(** A permanent error of an idempotent producer. *)
Definition produce_error_permanent (t : prod) (perr : produce_err) : option (prod * produce_err) :=
  let rk := pt_rk t in
  let* rk :=
    if rk_transactional rk && (pe_err perr =? ERR_INVALID_PRODUCER_EPOCH) then
      let* rk := rd_kafka_txn_set_fatal_error rk ERR__FENCED in
      rd_kafka_idemp_drain_reset rk
    else if rk_transactional rk then rd_kafka_txn_set_abortable_error rk (pe_err perr)
    else if gapless conf then
      let* rk := rd_kafka_idemp_set_fatal_error rk ERR__GAPLESS_GUARANTEE in
      rd_kafka_idemp_drain_reset rk
    else rd_kafka_idemp_drain_epoch_bump rk (pe_err perr) in
  Some (set_pt_rk t rk, perr_set_update perr false true).

(** The return value is false if nothing is left to do with the request. *)
Definition rd_kafka_handle_Produce_error (t : prod) (request : option request_info)
  (batch : rd_kafka_msgbatch) (perr : produce_err)
  : option (prod * rd_kafka_msgbatch * produce_err * bool) :=
  if pe_err perr =? ERR__DESTROY then Some (t, batch, perr, false)
  else
    let perr := mk_perr (pe_err perr) (rd_kafka_err_action (pe_err perr) request produce_actions)
                  (pe_incr_retry perr) RD_KAFKA_MSG_STATUS_NOT_PERSISTED (next_ack_seq (pt_eos t))
                  (next_err_seq (pt_eos t)) (pe_update_next_ack perr) (pe_update_next_err perr)
                  (te_pid (pt_eos t)) (pe_last_seq perr) in
    let* (t, batch, perr) :=
      if idempotent conf then rd_kafka_handle_idempotent_Produce_error t batch perr
      else Some (t, batch, perr) in
    let perr := status_of_actions perr in
    let t := store_last_err t batch perr in
    let retry := has_action (pe_actions perr) (Z.lor ACTION_REFRESH ACTION_RETRY) in
    let* (t, batch, perr) :=
      if retry then
        let* (t, msgq, perr) := produce_error_retry t request (rkmb_msgq batch) perr in
        Some (t, batch_set_msgq batch msgq, perr)
      else Some (t, batch, perr) in
    if retry && (rd_kafka_msgq_len (rkmb_msgq batch) =? 0) then Some (t, batch, perr, false)
    else
      let* (t, perr) :=
        if has_action (pe_actions perr) ACTION_PERMANENT && idempotent conf
        then produce_error_permanent t perr else Some (t, perr) in
      let '(t, perr) :=
        if (pe_err perr =? ERR__TIMED_OUT) || (pe_err perr =? ERR__TIMED_OUT_QUEUE)
        then (t, perr_set_err perr ERR__MSG_TIMED_OUT)
        else if pe_err perr =? ERR_TOPIC_AUTHORIZATION_FAILED
        then (pt_emit t (TopicSetError (pe_err perr)), perr)
        else (t, perr) in
      Some (t, batch, perr, true).

(** ** Successes *)

Definition rd_kafka_handle_idempotent_Produce_success (t : prod) (batch : rd_kafka_msgbatch)
  (next_seq : Z) : option prod :=
  let* firstmsg := rd_kafka_msgq_first (rkmb_msgq batch) in
  let* lastmsg := rd_kafka_msgq_last (rkmb_msgq batch) in
  let first_msgid := rkm_msgid firstmsg in
  let last_msgid := rkm_msgid lastmsg in
  let eos := pt_eos t in
  let* (t, fatal) :=
    if acked_msgid eos <? u64 (first_msgid - 1) then
      let* t := rd_kafka_dr_implicit_ack t last_msgid in Some (t, false)
    else if negb (rkmb_first_seq batch =? next_ack_seq eos) && (rkmb_first_seq batch =? next_err_seq eos)
    then Some (set_pt_eos t (eos_set_next_err eos next_seq), true)
    else Some (t, false) in
  let eos := pt_eos t in
  let eos := if negb fatal then
               eos_set_next_ack (if next_err_seq eos =? next_ack_seq eos
                                 then eos_set_next_err eos next_seq else eos) next_seq
             else eos in
  let eos := if last_msgid >? acked_msgid eos then eos_set_acked eos last_msgid else eos in
  let t := set_pt_eos t eos in
  if fatal then
    let* rk := rd_kafka_idemp_set_fatal_error (pt_rk t) ERR__INCONSISTENT in Some (set_pt_rk t rk)
  else Some t.

(** ** Results *)

(** [struct rd_kafka_Produce_result] *)
Record produce_result := mk_pres { pr_offset : Z; pr_timestamp : Z }.

Definition pt_update_seqs (t : prod) (perr : produce_err) (next_seq : Z) : prod :=
  let eos := pt_eos t in
  let eos := if pe_update_next_ack perr then eos_set_next_ack eos next_seq else eos in
  let eos := if pe_update_next_err perr then eos_set_next_err eos next_seq else eos in
  set_pt_eos t eos.

(** The state and the batch. *)
Definition rd_kafka_msgbatch_handle_Produce_result (t : prod) (batch : rd_kafka_msgbatch) (err : Z)
  (presult : produce_result) (request : option request_info) : option (prod * rd_kafka_msgbatch) :=
  let len := rd_kafka_msgq_len (rkmb_msgq batch) in
  let* _ := rd_assert (pt_msgs_inflight t >=? len) in
  let inflight := i32 (pt_msgs_inflight t - len) in
  let t := set_pt_msgs_inflight t inflight in
  let last_inflight := inflight =? 0 in
  let next_seq := rd_kafka_seq_wrap (i32 (rkmb_first_seq batch + len)) in
  let* (t, batch, err, status) :=
    if err =? 0 then
      let* t := if idempotent conf then rd_kafka_handle_idempotent_Produce_success t batch next_seq
                else Some t in
      Some (t, batch, err, acked_status)
    else
      let perr := mk_perr err 0 1 RD_KAFKA_MSG_STATUS_POSSIBLY_PERSISTED 0 0 true true
                    (mk_pid 0 0) (i32 (rkmb_first_seq batch + len - 1)) in
      let* (t, batch, perr, _) := rd_kafka_handle_Produce_error t request batch perr in
      Some (pt_update_seqs t perr next_seq, batch, pe_err perr, pe_status perr) in
  let '(t, batch) :=
    if rd_kafka_msgq_len (rkmb_msgq batch) >? 0 then
      let msgq := rd_kafka_msgq_set_metadata (rkmb_msgq batch) (nodeid env) (pr_offset presult)
                    (pr_timestamp presult) status in
      let '(t, msgq) := rd_kafka_dr_msgq t msgq err in
      (t, batch_set_msgq batch msgq)
    else (t, batch) in
  let* t := if idempotent conf && last_inflight then
              let* rk := rd_kafka_idemp_inflight_toppar_sub (pt_rk t) in Some (set_pt_rk t rk)
            else Some t in
  Some (t, batch).

(** ** Responses *)

#[local] Open Scope reader_scope.

(** [ErrorCode] and [Offset]. *)
Definition produce_response_hdr (rb : rd_buf) : reader (Z * Z) :=
  let! TopicArrayCnt := rd_kafka_buf_read_i32 rb in
  if negb (TopicArrayCnt =? 1) then r_fail ERR__BAD_MSG
  else
    let! _ := rd_kafka_buf_skip_str rb in
    let! PartitionArrayCnt := rd_kafka_buf_read_i32 rb in
    if negb (PartitionArrayCnt =? 1) then r_fail ERR__BAD_MSG
    else
      let! _ := rd_kafka_buf_read_i32 rb in
      let! ErrorCode := rd_kafka_buf_read_i16 rb in
      let! Offset := rd_kafka_buf_read_i64 rb in
      r_ret (ErrorCode, Offset).

(** What follows the timestamp: the throttle time. *)
Definition produce_response_tail (rb : rd_buf) (ApiVersion : Z) : reader (option Z) :=
  let! _ := if ApiVersion >=? 5 then rd_kafka_buf_read_i64 rb else r_ret (-1) in
  if ApiVersion >=? 1 then let! Throttle_Time := rd_kafka_buf_read_i32 rb in r_ret (Some Throttle_Time)
  else r_ret None.

(** The state, the result as far as it was read, and the return value. *)
Definition rd_kafka_handle_Produce_parse (t : prod) (rb : rd_buf) (s : rd_slice) (ApiVersion : Z)
  (result : produce_result) : option (prod * produce_result * Z) :=
  let* (s, r) := produce_response_hdr rb s in
  match r with
  | inr err => Some (t, result, err)
  | inl (ErrorCode, Offset) =>
      let result := mk_pres Offset (-1) in
      let* (s, r) := (if ApiVersion >=? 2 then rd_kafka_buf_read_i64 rb else r_ret (-1)) s in
      match r with
      | inr err => Some (t, result, err)
      | inl timestamp =>
          let result := mk_pres Offset timestamp in
          let* (_, r) := produce_response_tail rb ApiVersion s in
          match r with
          | inr err => Some (t, result, err)
          | inl throttle =>
              Some (match throttle with Some ms => pt_emit t (ThrottleTime ms) | None => t end,
                    result, ErrorCode)
          end
      end
  end.

Definition RD_KAFKA_OFFSET_INVALID : Z := -1001.

(** [reply] is NULL without acknowledgements and for local errors. *)
Definition rd_kafka_handle_Produce (t : prod) (err : Z) (reply : option (rd_buf * rd_slice))
  (request : request_info) (batch : rd_kafka_msgbatch) : option (prod * rd_kafka_msgbatch) :=
  let result := mk_pres RD_KAFKA_OFFSET_INVALID (-1) in
  let err := match ut_handle_ProduceResponse conf with
             | Some f => f (nodeid env) (rkmb_first_msgid batch) err
             | None => err
             end in
  let* (t, result, err) :=
    match reply with
    | Some (rb, s) =>
        if err =? 0 then rd_kafka_handle_Produce_parse t rb s (rqi_ApiVersion request) result
        else Some (t, result, err)
    | None => Some (t, result, err)
    end in
  rd_kafka_msgbatch_handle_Produce_result t batch err result (Some request).

End Handlers.
