(* ===== verification/ProduceFacts.v ===== *)
(** * What Produce results do to the messages

    Step by step, for [Produce]: what each call leaves in the queues, in the batch and in
    the reports. *)

From Stdlib Require Import Sorted.
From stdpp Require Import gmap strings.
From S2P Require Import Prelude Header Msgq MsgqFacts Producer EosState Eos EosTotal.
From S2P Require Import MsgWriter Produce.

(** ** Messages, wherever they are *)

(** What stays the same of a message: not its delivery state. *)
Definition core (m : rd_kafka_msg) : rd_kafka_msg :=
  mk_msg (rkm_len m) (rkm_key m) (rkm_key_len m) (rkm_partition m) 0 RD_KAFKA_TIMESTAMP_NOT_AVAILABLE 0
    RD_KAFKA_MSG_STATUS_NOT_PERSISTED 0 (rkm_ts_timeout m) (rkm_ts_enq m) 0 (rkm_msgid m) 0 0
    (rkm_payload m) (rkm_headers m).

Definition event_msgs (e : prod_event) : list rd_kafka_msg :=
  match e with DrOp _ l | DrDestroyed _ l => l | _ => [] end.

(** The messages of the delivery reports. *)
Definition reported (evs : list prod_event) : list rd_kafka_msg := concat (map event_msgs evs).

(** The messages of the two queues of a partition. *)
Definition held (t : prod) : list rd_kafka_msg := rkmq_msgs (pt_msgq t) ++ rkmq_msgs (pt_xmit_msgq t).

Lemma reported_app a b : reported (a ++ b) = reported a ++ reported b.
Proof. unfold reported. now rewrite map_app, concat_app. Qed.

(** From one state and batch to another every message is kept once, in a queue, in the
    batch, or in a report that is new. *)
Definition accounts (t : prod) (q : list rd_kafka_msg) (t' : prod) (q' : list rd_kafka_msg) : Prop :=
  exists evs, pt_out t' = pt_out t ++ evs /\
    map core (held t' ++ q' ++ reported evs) ≡ₚ map core (held t ++ q).

Lemma accounts_refl t q : accounts t q t q.
Proof. exists []. now rewrite !app_nil_r. Qed.

Lemma accounts_trans t1 q1 t2 q2 t3 q3 :
  accounts t1 q1 t2 q2 -> accounts t2 q2 t3 q3 -> accounts t1 q1 t3 q3.
Proof.
  intros (e1 & E1 & P1) (e2 & E2 & P2). exists (e1 ++ e2). split; [now rewrite E2, E1, app_assoc |].
  rewrite <- P1, reported_app. rewrite !map_app in *.
  rewrite !app_assoc in *. rewrite <- P2. rewrite <- !app_assoc. do 2 f_equiv. apply Permutation_app_comm.
Qed.

(** Nothing but fields that hold no messages changed. *)
Lemma accounts_same t t' q q' :
  pt_out t' = pt_out t -> held t' = held t -> map core q' = map core q -> accounts t q t' q'.
Proof.
  intros Eo Eh Eq. exists []. split; [now rewrite app_nil_r |].
  rewrite Eh, !map_app, Eq. cbn. now rewrite app_nil_r.
Qed.

Lemma accounts_emit t q e : event_msgs e = [] -> accounts t q (pt_emit t e) q.
Proof.
  intros E. exists [e]. split; [reflexivity |]. unfold reported, held. cbn. rewrite E. now rewrite !app_nil_r.
Qed.

(** ** Queues *)

Section Facts.
Context (conf : resp_conf) (env : penv).

Definition cmp : rd_kafka_msg -> rd_kafka_msg -> Z := msg_order_cmp (order conf).

#[export] Instance cmp_order : MsgOrder cmp.
Proof. unfold cmp. destruct (order conf); apply _. Defined.

(** A queue in order with its counters. *)
Definition queue_ok (q : rd_kafka_msgq) : Prop := counted q /\ sorted cmp (rkmq_msgs q).

Lemma core_key a b : core a = core b -> mo_key (cmp := cmp) a = mo_key (cmp := cmp) b.
Proof. intros E. apply mo_msgid. apply (f_equal rkm_msgid) in E. exact E. Qed.

Lemma map_cons_eq {A B} (f : A -> B) a l b l' :
  map f (a :: l) = map f (b :: l') -> f a = f b /\ map f l = map f l'.
Proof. now intros [= E1 E2]. Qed.

Lemma sorted_core l l' : map core l = map core l' -> sorted cmp l -> sorted cmp l'.
Proof.
  revert l'. induction l as [| a l IH]; intros [| b l'] E Hs; try discriminate; [constructor |].
  apply map_cons_eq in E as [Eab El]. apply StronglySorted_inv in Hs as [Hs Ha].
  constructor; [now apply IH |]. rewrite <- (core_key a b Eab). clear - Ha El.
  revert l' El. induction Ha as [| x l Hx _ IHl]; intros [| y l'] El; try discriminate; constructor;
    apply map_cons_eq in El as [Exy El].
  - now rewrite <- (core_key x y).
  - now apply IHl.
Qed.

(** One size per message. *)
Lemma core_sum_bytes l l' : map core l = map core l' -> sum_bytes l = sum_bytes l'.
Proof.
  revert l'. induction l as [| a l IH]; intros [| b l'] E; try discriminate; [reflexivity |].
  apply map_cons_eq in E as [Eab El]. rewrite !sum_bytes_cons, (IH l' El). f_equal.
  unfold msg_size. pose proof (f_equal rkm_len Eab). pose proof (f_equal rkm_key_len Eab). cbn in *. congruence.
Qed.

Lemma core_length {l l' : list rd_kafka_msg} : map core l = map core l' -> zlen l = zlen l'.
Proof. intros E. apply (f_equal length) in E. rewrite !length_map in E. lia. Qed.

(** The same queue with other messages of the same content. *)
Lemma requeue q l :
  map core l = map core (rkmq_msgs q) -> queue_ok q ->
  queue_ok (mk_msgq l (rkmq_msg_cnt q) (rkmq_msg_bytes q) (rkmq_wakeup q)) /\
  (small q -> small (mk_msgq l (rkmq_msg_cnt q) (rkmq_msg_bytes q) (rkmq_wakeup q))).
Proof.
  intros E [[C1 C2] Hs]. unfold queue_ok, counted, small. cbn [rkmq_msgs rkmq_msg_cnt rkmq_msg_bytes].
  rewrite (core_sum_bytes _ _ E), (core_length E). repeat split; auto.
  - eapply sorted_core; [symmetry; exact E | exact Hs].
  - now destruct H.
  - now destruct H.
Qed.

Lemma queue_len q : counted q -> zlen (rkmq_msgs q) < 2 ^ 31 -> rd_kafka_msgq_len q = zlen (rkmq_msgs q).
Proof.
  intros [C _] H. unfold rd_kafka_msgq_len. rewrite C, (swrap_small 32 (zlen _)), swrap_small;
    try lia; unfold in_i; lia.
Qed.

Lemma status_core m s : core (msg_set_status m s) = core m.
Proof. reflexivity. Qed.

Lemma retried_core i b s l : map core (map (retried i b s) l) = map core l.
Proof. rewrite map_map. apply map_ext. reflexivity. Qed.

Lemma retried_status_core s l : map core (map (fun m => msg_set_status m s) l) = map core l.
Proof. rewrite map_map. apply map_ext. reflexivity. Qed.

Lemma metadata_core l : forall br off ts s, map core (set_metadata_loop l br off ts s) = map core l.
Proof. induction l as [| m l IH]; intros; cbn [set_metadata_loop map]; [reflexivity |]. now rewrite IH. Qed.

Lemma split_by {A} (f : A -> bool) (l : list A) :
  filter (fun x => f x = true) l ++ filter (fun x => f x = false) l ≡ₚ l.
Proof.
  induction l as [| a l IH]; [reflexivity |]. rewrite !filter_cons.
  destruct (f a) eqn:E; cbn [decide decide_rel bool_eq_dec app].
  - rewrite decide_True, decide_False by congruence. cbn. now rewrite IH.
  - rewrite decide_False, decide_True by congruence. rewrite <- Permutation_middle. now rewrite IH.
Qed.

(** ** Delivery reports *)

(** The report of some messages. *)
Definition dr_event (err : Z) (l : list rd_kafka_msg) : prod_event :=
  if rk_drmode conf && (negb (dr_err_only conf) || negb (err =? 0)) then DrOp err l else DrDestroyed err l.

Definition dr_events (err : Z) (l : list rd_kafka_msg) : list prod_event :=
  match l with [] => [] | _ => [dr_event err l] end.

Lemma reported_dr err l : reported (dr_events err l) = l.
Proof.
  unfold reported, dr_events, dr_event. destruct l; [reflexivity |].
  destruct (rk_drmode conf && _); cbn; now rewrite app_nil_r.
Qed.

Record dr_done (t : prod) (err : Z) (l : list rd_kafka_msg) (t' : prod) : Prop := {
  dd_out : pt_out t' = pt_out t ++ dr_events err l;
  dd_msgq : pt_msgq t' = pt_msgq t;
  dd_xmit : pt_xmit_msgq t' = pt_xmit_msgq t;
  dd_inflight : pt_msgs_inflight t' = pt_msgs_inflight t;
  dd_eos : pt_eos t' = pt_eos t;
  dd_rk : rk_kept (pt_rk t) (pt_rk t') }.

Lemma dr_msgq_spec t q err :
  counted q -> zlen (rkmq_msgs q) < 2 ^ 31 ->
  exists t' q', rd_kafka_dr_msgq conf t q err = (t', q') /\ rkmq_msgs q' = [] /\
    dr_done t err (rkmq_msgs q) t'.
Proof.
  intros Hc Hs. unfold rd_kafka_dr_msgq. rewrite queue_len by assumption.
  destruct (rkmq_msgs q) as [| m l] eqn:Eq.
  { exists t, q. split; [reflexivity |]. split; [assumption |].
    split; try reflexivity. cbn. now rewrite app_nil_r. }
  rewrite (proj2 (Z.eqb_neq (zlen (m :: l)) 0)) by (cbn [length]; lia).
  set (t1 := if _ && rk_transactional (pt_rk t) then _ else t).
  assert (pt_out t1 = pt_out t /\ pt_msgq t1 = pt_msgq t /\ pt_xmit_msgq t1 = pt_xmit_msgq t /\
    pt_msgs_inflight t1 = pt_msgs_inflight t /\ pt_eos t1 = pt_eos t /\ rk_kept (pt_rk t) (pt_rk t1))
    as (E1 & E2 & E3 & E4 & E5 & K).
  { unfold t1. destruct (_ && _); repeat split; try reflexivity; auto. }
  clearbody t1. unfold rd_kafka_msgq_move, rd_kafka_msgq_purge, rd_kafka_msgq_init.
  destruct (rk_drmode conf && _) eqn:Ed;
    (do 2 eexists; split; [reflexivity |]; split; [reflexivity |];
     split; cbn; unfold dr_event; rewrite ?Ed, ?E1, ?E2, ?E3, ?E4, ?E5, ?Eq; auto).
Qed.

(** ** Acknowledgements *)

Lemma move_acked_spec l : forall dest src last status,
  rkmq_msgs src = l -> counted src -> small src -> counted dest ->
  exists pre rest dest' src', l = pre ++ rest /\
    move_acked_loop (length l) dest src last status = Some (dest', src') /\
    Forall (fun m => rkm_msgid m <= last) pre /\
    match rest with [] => True | m :: _ => last < rkm_msgid m end /\
    rkmq_msgs src' = rest /\ counted src' /\ small src' /\ rkmq_wakeup src' = rkmq_wakeup src /\
    rkmq_msgs dest' = rkmq_msgs dest ++ map (fun m => msg_set_status m status) pre /\ counted dest'.
Proof.
  induction l as [| m l IH]; intros dest src last status E Hc Hs Hd.
  { exists [], [], dest, src. cbn. rewrite app_nil_r. conj. }
  cbn [length move_acked_loop]. unfold rd_kafka_msgq_first. rewrite E. cbn [head].
  destruct (Z.leb_spec (rkm_msgid m) last).
  - destruct (deq_spec src [] m l Hc Hs E) as (q1 & Ed & E1 & Hc1 & Hs1 & Ew). cbn [length] in Ed. rewrite Ed.
    destruct (enq_spec dest (msg_set_status m status) Hd) as [Ee Ce].
    destruct (rd_kafka_msgq_enq dest _) as [d1 x]. cbn [fst] in Ee, Ce.
    destruct (IH d1 q1 last status E1 Hc1 Hs1 Ce)
      as (pre & rest & d' & s' & -> & -> & H1 & H2 & H3 & H4 & H5 & H6 & H7 & H8).
    exists (m :: pre), rest, d', s'. rewrite H7, Ee, <- app_assoc, H6, Ew.
    split; [reflexivity |]. split; [reflexivity |]. split; [constructor; [lia | assumption] |]. cbn. auto 10.
  - exists [], (m :: l), dest, src. cbn. rewrite app_nil_r. conj.
Qed.

(** The messages up to [last] that are at the head of a queue. *)
Definition acked_prefix (last : Z) (l pre rest : list rd_kafka_msg) : Prop :=
  l = pre ++ rest /\ Forall (fun m => rkm_msgid m <= last) pre /\
  match rest with [] => True | m :: _ => last < rkm_msgid m end.

Lemma implicit_ack_spec t last :
  queue_ok (pt_xmit_msgq t) -> queue_ok (pt_msgq t) -> small (pt_xmit_msgq t) -> small (pt_msgq t) ->
  zlen (held t) < 2 ^ 31 ->
  exists pre1 rest1 pre2 rest2 acked t',
    acked_prefix last (rkmq_msgs (pt_xmit_msgq t)) pre1 rest1 /\
    acked_prefix last (rkmq_msgs (pt_msgq t)) pre2 rest2 /\
    rd_kafka_dr_implicit_ack conf t last = Some t' /\
    rkmq_msgs (pt_xmit_msgq t') = rest1 /\ rkmq_msgs (pt_msgq t') = rest2 /\
    queue_ok (pt_xmit_msgq t') /\ queue_ok (pt_msgq t') /\
    acked ≡ₚ map (fun m => msg_set_status m (acked_status conf)) (pre1 ++ pre2) /\ sorted cmp acked /\
    pt_out t' = pt_out t ++ dr_events 0 acked /\ pt_eos t' = pt_eos t /\
    pt_msgs_inflight t' = pt_msgs_inflight t /\ rk_kept (pt_rk t) (pt_rk t').
Proof.
  intros [Cx Sx] [Cq Sq] Mx Mq Hlen. unfold rd_kafka_dr_implicit_ack, rd_kafka_msgq_move_acked.
  destruct (move_acked_spec _ RD_KAFKA_MSGQ_INITIALIZER (pt_xmit_msgq t) last (acked_status conf) eq_refl
              Cx Mx (counted_empty _)) as (p1 & r1 & d1 & x' & E1 & -> & Hp1 & Hr1 & Ex & Cx' & _ & _ & Ed1 & Cd1).
  cbn [pt_msgq set_pt_xmit_msgq].
  destruct (move_acked_spec _ RD_KAFKA_MSGQ_INITIALIZER (pt_msgq t) last (acked_status conf) eq_refl
              Cq Mq (counted_empty _)) as (p2 & r2 & d2 & q' & E2 & -> & Hp2 & Hr2 & Eq & Cq' & _ & _ & Ed2 & Cd2).
  cbn [rkmq_msgs RD_KAFKA_MSGQ_INITIALIZER app] in Ed1, Ed2.
  rewrite E1 in Sx. rewrite E2 in Sq. pose proof Sx as Sx0. pose proof Sq as Sq0.
  apply sorted_app in Sx0 as (Sp1 & Sr1 & _). apply sorted_app in Sq0 as (Sp2 & Sr2 & _).
  destruct (insert_msgq_spec cmp d1 d2) as (acked & d2' & Ei & _ & Sa & Pa & Ca & _); try assumption.
  { rewrite Ed1. eapply sorted_core; [symmetry; apply retried_status_core | exact Sp1]. }
  { rewrite Ed2. eapply sorted_core; [symmetry; apply retried_status_core | exact Sp2]. }
  fold cmp. rewrite Ei. rewrite Ed1, Ed2, <- map_app in Pa.
  assert (zlen (rkmq_msgs acked) < 2 ^ 31) as La.
  { rewrite Pa, length_map. unfold held in Hlen. rewrite E1, E2 in Hlen. rewrite !length_app in *. lia. }
  rewrite queue_len by assumption.
  exists p1, r1, p2, r2, (rkmq_msgs acked).
  destruct (dr_msgq_spec (set_pt_msgq (set_pt_xmit_msgq t x') q') acked 0 Ca La)
    as (t' & q'' & Edr & _ & [D1 D2 D3 D4 D5 D6]). cbn in D1, D2, D3, D4, D5, D6.
  destruct (Z.eqb_spec (zlen (rkmq_msgs acked)) 0) as [E0 | E0].
  - exists (set_pt_msgq (set_pt_xmit_msgq t x') q'). cbn.
    destruct (rkmq_msgs acked); [| cbn [length] in E0; lia]. cbn. rewrite app_nil_r.
    unfold acked_prefix, queue_ok. rewrite Ex, Eq. conj.
  - rewrite Edr. exists t'. cbn [fst]. unfold acked_prefix, queue_ok. rewrite D2, D3, Ex, Eq. conj.
Qed.

(** ** Retries *)

Lemma toppar_retry_spec t q incr status :
  queue_ok (pt_msgq t) -> queue_ok q -> small q ->
  exists back q' msgq', let t' := set_pt_msgq t msgq' in
    rd_kafka_toppar_retry_msgq conf env t q incr status = Some (t', q', back) /\
    queue_ok (pt_msgq t') /\ queue_ok q' /\ small q' /\
    (if terminating env then msgq' = pt_msgq t /\ q' = q
     else let bo := i64 (clock env + i32 (retry_backoff_ms conf * 1000)) in
          rkmq_msgs msgq' ≡ₚ rkmq_msgs (pt_msgq t) ++
            map (retried incr bo status)
              (filter (fun m => retriable incr (max_retries conf) m = true) (rkmq_msgs q)) /\
          rkmq_msgs q' = filter (fun m => retriable incr (max_retries conf) m = false) (rkmq_msgs q)).
Proof.
  intros [Ct St] [Cq Sq] Mq. unfold rd_kafka_toppar_retry_msgq.
  destruct (terminating env).
  { exists 1, q, (pt_msgq t). split; [now destruct t |]. unfold queue_ok. cbn. auto 10. }
  destruct (retry_msgq_spec cmp (pt_msgq t) q incr (max_retries conf)
    (i64 (clock env + i32 (retry_backoff_ms conf * 1000))) status St Sq Ct Cq Mq)
    as (d & q' & E & Eq & Pd & Sd & Cd & Cq').
  fold cmp. rewrite E. do 3 eexists. split; [reflexivity |]. cbn.
  split; [split; assumption |].
  assert (sorted cmp (rkmq_msgs q')) by (rewrite Eq; now apply sorted_filter).
  split; [split; assumption |]. split; [| split; assumption].
  unfold small. rewrite Eq.
  pose proof (split_by (fun m => retriable incr (max_retries conf) m) (rkmq_msgs q)) as Hp.
  destruct Mq as [M1 M2]. rewrite <- Hp in M1, M2. rewrite length_app, sum_bytes_app in *.
  pose proof (sum_bytes_nonneg (filter (fun m => retriable incr (max_retries conf) m = true) (rkmq_msgs q))).
  lia.
Qed.

End Facts.

(** ** Errors keep every message

    The error handlers of [Produce]: they return, and between them the messages of the
    batch go back to the partition's queue or stay in the batch to be reported. *)

Section Errors.
Context (conf : resp_conf) (env : penv).

(** ** The batch *)

(** The first message of the batch has its last one's id, or none yet. *)
Definition last_ok (l : list rd_kafka_msg) : Prop :=
  exists m r x, l = m :: r /\ list.last l = Some x /\ (rkm_last_msgid m = 0 \/ rkm_last_msgid m = rkm_msgid x).

Definition with_last (l : list rd_kafka_msg) : list rd_kafka_msg :=
  match l, list.last l with
  | m :: r, Some x => msg_set_last_msgid m (rkm_msgid x) :: r
  | _, _ => l
  end.

Definition set_msgs (q : rd_kafka_msgq) (l : list rd_kafka_msg) : rd_kafka_msgq :=
  mk_msgq l (rkmq_msg_cnt q) (rkmq_msg_bytes q) (rkmq_wakeup q).

Lemma with_last_core l : map core (with_last l) = map core l.
Proof. unfold with_last. destruct l as [| m r]; [reflexivity |]. now destruct (list.last (m :: r)). Qed.

Lemma store_last_msgid_spec batch :
  last_ok (rkmq_msgs (rkmb_msgq batch)) ->
  batch_store_last_msgid batch =
    Some (batch_set_msgq batch (set_msgs (rkmb_msgq batch) (with_last (rkmq_msgs (rkmb_msgq batch))))).
Proof.
  intros (m & r & x & E & El & Hl). unfold batch_store_last_msgid, rd_kafka_msgq_last, with_last.
  rewrite El, E. rewrite E in El. rewrite El. destruct (Z.eqb_spec (rkm_last_msgid m) 0) as [E0 | E0]; cbn [negb]; [reflexivity |].
  destruct Hl as [? | Hl]; [congruence |]. rewrite Hl, Z.eqb_refl. cbn [rd_assert].
  destruct batch as [q ? ? ? ? ?]. cbn in *. destruct q as [ms ? ? ?]. cbn in *. subst ms.
  do 3 f_equal. destruct m. cbn in *. now subst.
Qed.

(** ** Special errors *)

(** An error of the batch that nothing else is to be done with has no action. *)
Definition settled (p : produce_err) : Prop := pe_err p <> 0 \/ pe_actions p = 0.

Lemma special_error_spec t batch perr :
  last_ok (rkmq_msgs (rkmb_msgq batch)) -> pe_err perr <> 0 ->
  (rk_transactional (pt_rk t) = true -> may_fail (pt_rk t)) ->
  exists rk' perr',
    rd_kafka_handle_idempotent_Produce_error t batch perr =
      Some (set_pt_rk t rk', batch_set_msgq batch
              (set_msgs (rkmb_msgq batch) (with_last (rkmq_msgs (rkmb_msgq batch)))), perr') /\
    rk_kept (pt_rk t) rk' /\ settled perr' /\
    (rd_kafka_pid_eq (rkmb_pid batch) (pe_rktp_pid perr) = true \/ pe_actions perr' = ACTION_PERMANENT).
Proof.
  intros Hl He Ht. unfold rd_kafka_handle_idempotent_Produce_error.
  rewrite (store_last_msgid_spec batch Hl). set (b := batch_set_msgq batch _).
  change (rkmb_pid b) with (rkmb_pid batch).
  assert (forall perr', settled perr' ->
    rd_kafka_pid_eq (rkmb_pid batch) (pe_rktp_pid perr) = true \/ pe_actions perr' = ACTION_PERMANENT ->
    exists rk' p, Some (t, b, perr') = Some (set_pt_rk t rk', b, p) /\ rk_kept (pt_rk t) rk' /\ settled p /\
      (rd_kafka_pid_eq (rkmb_pid batch) (pe_rktp_pid perr) = true \/ pe_actions p = ACTION_PERMANENT)) as Hsame.
  { intros p Hp Hpid. exists (pt_rk t), p. split; [now destruct t | split; [reflexivity | auto]]. }
  assert (settled perr) as Hs by now left.
  destruct (rd_kafka_pid_eq (rkmb_pid batch) (pe_rktp_pid perr)); cbn [negb];
    [| apply Hsame; [now left | now right]].
  destruct (pe_err perr =? ERR_OUT_OF_ORDER_SEQUENCE_NUMBER).
  { unfold handle_out_of_order_sequence. cbn [pe_err perr_set_outcome perr_set_incr_retry].
    destruct (i32 _ =? 0); [| destruct (i32 _ >? 0)].
    - destruct (idemp_set_fatal_returns (pt_rk t) (pe_err perr) He) as (rk' & -> & K). exists rk'. eexists. split; [reflexivity |]. split; [exact K | split; [now left | auto]].
    - destruct (drain_epoch_bump_returns (pt_rk t) (pe_err perr) Ht He) as (rk' & -> & K). exists rk'. eexists. split; [reflexivity |]. split; [exact K | split; [now left | auto]].
    - destruct (idemp_set_fatal_returns (pt_rk t) (pe_err perr) He) as (rk' & -> & K). exists rk'. eexists. split; [reflexivity |]. split; [exact K | split; [now left | auto]]. }
  destruct (pe_err perr =? ERR_DUPLICATE_SEQUENCE_NUMBER); [apply Hsame; [now right | now left] |].
  destruct (pe_err perr =? ERR_UNKNOWN_PRODUCER_ID); [| apply Hsame; auto].
  unfold handle_unknown_producer_id, rd_kafka_msgq_first.
  destruct Hl as (m & r & x & El & Elast & _).
  assert (exists m', head (rkmq_msgs (rkmb_msgq b)) = Some m') as (m' & ->).
  { unfold b, with_last. rewrite El in *. cbn [batch_set_msgq rkmb_msgq set_msgs rkmq_msgs].
    rewrite Elast. now eexists. }
  cbn [pe_err perr_set_outcome perr_set_incr_retry].
  destruct (rk_transactional (pt_rk t)) eqn:Et; [| destruct (_ && _)].
  - assert (rk_transactional (pt_rk t) = true -> may_fail (pt_rk t)) as Ht' by auto.
    destruct (drain_epoch_bump_returns (pt_rk t) (pe_err perr) Ht' He) as (rk1 & -> & K1).
    destruct (abortable_returns rk1 ERR_UNKNOWN_PRODUCER_ID true) as (rk2 & E2 & K2);
      [apply (kt_ok _ _ K1); auto | discriminate |].
    unfold rd_kafka_txn_set_abortable_error_with_bump. rewrite E2.
    do 2 eexists. split; [reflexivity |]. split; [now transitivity rk1 | split; [now left | auto]].
  - destruct (drain_epoch_bump_returns (pt_rk t) (pe_err perr)) as (rk1 & -> & K1); [congruence | assumption |].
    exists rk1. eexists. split; [reflexivity |]. split; [exact K1 | split; [now left | auto]].
  - destruct (idemp_set_fatal_returns (pt_rk t) (pe_err perr) He) as (rk' & -> & K). exists rk'. eexists. split; [reflexivity |]. split; [exact K | split; [now left | auto]].
Qed.

(** ** Permanent errors *)

Lemma permanent_error_spec t perr :
  pe_err perr <> 0 -> (rk_transactional (pt_rk t) = true -> may_fail (pt_rk t)) ->
  exists rk', produce_error_permanent conf t perr = Some (set_pt_rk t rk', perr_set_update perr false true) /\
    rk_kept (pt_rk t) rk'.
Proof.
  intros He Ht. unfold produce_error_permanent.
  assert (forall r, returns (pt_rk t) r -> exists rk',
    (let* rk := r in Some (set_pt_rk t rk, perr_set_update perr false true)) =
      Some (set_pt_rk t rk', perr_set_update perr false true) /\ rk_kept (pt_rk t) rk') as H.
  { intros r (rk' & -> & K). eauto. }
  destruct (rk_transactional (pt_rk t)) eqn:Et; cbn [andb].
  - destruct (_ =? ERR_INVALID_PRODUCER_EPOCH); apply H.
    + apply returns_bind; [now apply txn_set_fatal_returns | intros; apply drain_reset_returns].
    + apply abortable_returns; auto.
  - destruct (gapless conf); apply H.
    + apply returns_bind; [now apply idemp_set_fatal_returns | intros; apply drain_reset_returns].
    + apply drain_epoch_bump_returns; [congruence | assumption].
Qed.

(** ** Retries *)

(** What changes of a partition while an error is handled. *)
Record err_kept (t t' : prod) : Prop := {
  ek_rk : rk_kept (pt_rk t) (pt_rk t');
  ek_xmit : pt_xmit_msgq t' = pt_xmit_msgq t;
  ek_inflight : pt_msgs_inflight t' = pt_msgs_inflight t;
  ek_msgq : queue_ok conf (pt_msgq t) -> queue_ok conf (pt_msgq t') }.

Lemma err_kept_trans a b c : err_kept a b -> err_kept b c -> err_kept a c.
Proof. intros [A1 A2 A3 A4] [B1 B2 B3 B4]. split; [etransitivity; eauto | congruence | congruence | auto]. Qed.

Lemma err_kept_same t t' :
  rk_kept (pt_rk t) (pt_rk t') -> pt_xmit_msgq t' = pt_xmit_msgq t ->
  pt_msgs_inflight t' = pt_msgs_inflight t -> pt_msgq t' = pt_msgq t -> err_kept t t'.
Proof. intros K E1 E2 E3. split; auto. now rewrite E3. Qed.

Lemma err_kept_eq t t' :
  pt_rk t' = pt_rk t -> pt_xmit_msgq t' = pt_xmit_msgq t ->
  pt_msgs_inflight t' = pt_msgs_inflight t -> pt_msgq t' = pt_msgq t -> err_kept t t'.
Proof. intros E. apply err_kept_same. now rewrite E. Qed.

(** The messages [b] of a batch are all left in it, as [q'], or some of them are put back. *)
Definition backoff_time : Z := i64 (clock env + i32 (retry_backoff_ms conf * 1000)).

Definition put_back (incr : Z) (status : rd_kafka_msg_status) (b : list rd_kafka_msg) : list rd_kafka_msg :=
  map (retried incr backoff_time status) (filter (fun m => retriable incr (max_retries conf) m = true) b).

Definition too_often (incr : Z) (b : list rd_kafka_msg) : list rd_kafka_msg :=
  filter (fun m => retriable incr (max_retries conf) m = false) b.

Definition outcome (t : prod) (b : list rd_kafka_msg) (t' : prod) (q' : list rd_kafka_msg) : Prop :=
  (pt_msgq t' = pt_msgq t /\ q' = b) \/
  (exists incr status,
     rkmq_msgs (pt_msgq t') ≡ₚ rkmq_msgs (pt_msgq t) ++ put_back incr status b /\
     q' = too_often incr b /\ (idempotent conf = true -> wait_drain (pt_eos t') = true)).

(** Messages put back are not in the batch any more. *)
Lemma retry_accounts t q incr status :
  queue_ok conf (pt_msgq t) -> queue_ok conf q -> small q ->
  exists t' q' back, rd_kafka_toppar_retry_msgq conf env t q incr status = Some (t', q', back) /\
    err_kept t t' /\ queue_ok conf q' /\ small q' /\ accounts t (rkmq_msgs q) t' (rkmq_msgs q') /\
    ((idempotent conf = true -> wait_drain (pt_eos t) = true) -> outcome t (rkmq_msgs q) t' (rkmq_msgs q')).
Proof.
  intros Ht Hq Mq.
  destruct (toppar_retry_spec conf env t q incr status Ht Hq Mq) as (back & q' & msgq' & E & H1 & H2 & H3 & H4).
  do 3 eexists. split; [exact E |]. split; [split; try reflexivity; auto |].
  split; [assumption |]. split; [assumption |].
  split; cycle 1.
  { intros Hw. destruct (terminating env); [left; now destruct H4 as [-> ->] |].
    right. exists incr, status. destruct H4 as [Hp Eq]. auto. }
  exists []. split; [cbn; now rewrite app_nil_r |]. unfold held. cbn [pt_msgq pt_xmit_msgq set_pt_msgq reported map concat]. rewrite app_nil_r.
  destruct (terminating env); [destruct H4 as [-> ->]; reflexivity |]. cbv zeta in H4.
  destruct H4 as [Hp ->].
  rewrite !map_app. rewrite Hp, map_app, retried_core, <- map_app.
  rewrite <- (split_by (fun m => retriable incr (max_retries conf) m) (rkmq_msgs q)) at 3.
  rewrite !map_app. solve_Permutation.
Qed.

Lemma retry_branch_spec t rq q perr :
  queue_ok conf (pt_msgq t) -> queue_ok conf q -> small q ->
  exists t' q' perr', produce_error_retry conf env t (Some rq) q perr = Some (t', q', perr') /\
    err_kept t t' /\ queue_ok conf q' /\ small q' /\ accounts t (rkmq_msgs q) t' (rkmq_msgs q') /\
    outcome t (rkmq_msgs q) t' (rkmq_msgs q') /\ pe_err perr' = pe_err perr /\ pe_actions perr' = pe_actions perr.
Proof.
  intros Ht Hq Mq. unfold produce_error_retry.
  destruct (if has_action (pe_actions perr) ACTION_REFRESH then _ else _) as [t1 p1] eqn:E1.
  assert (err_kept t t1 /\ accounts t (rkmq_msgs q) t1 (rkmq_msgs q) /\ pe_err p1 = pe_err perr /\
    pe_actions p1 = pe_actions perr /\ pt_msgq t1 = pt_msgq t) as (K1 & A1 & Ee1 & Ea1 & Eq1).
  { destruct (has_action _ _); injection E1 as <- <-.
    - split; [apply err_kept_eq; reflexivity |]. split.
      + eapply accounts_trans; [| now apply accounts_emit]. now apply accounts_same.
      + now destruct (_ && _).
    - split; [apply err_kept_eq; reflexivity |]. split; [apply accounts_refl | auto 10]. }
  set (p2 := if negb (rqi_sent rq) then _ else p1). set (p3 := if pe_incr_retry p2 =? 0 then _ else p2).
  assert (pe_err p3 = pe_err perr /\ pe_actions p3 = pe_actions perr) as [Ee3 Ea3].
  { rewrite <- Ee1, <- Ea1. unfold p3, p2. clear. destruct (negb _), (pe_incr_retry _ =? 0); auto. }
  clearbody p3.
  destruct (if idempotent conf then _ else _) as [t4 p4] eqn:E4.
  assert (err_kept t1 t4 /\ accounts t1 (rkmq_msgs q) t4 (rkmq_msgs q) /\ pe_err p4 = pe_err perr /\
    pe_actions p4 = pe_actions perr /\ pt_msgq t4 = pt_msgq t1 /\
    (idempotent conf = true -> wait_drain (pt_eos t4) = true)) as (K4 & A4 & Ee4 & Ea4 & Eq4 & Hw4).
  { destruct (idempotent conf); injection E4 as <- <-.
    - unfold rd_kafka_idemp_drain_toppar. destruct (wait_drain (pt_eos t1)) eqn:Ew;
        (split; [apply err_kept_eq; reflexivity |]; split; [now apply accounts_same | auto 10]).
    - split; [apply err_kept_eq; reflexivity |]. split; [apply accounts_refl |].
      do 3 (split; [assumption || reflexivity |]). discriminate. }
  assert (err_kept t t4) as K by (eapply err_kept_trans; eassumption).
  destruct (retry_accounts t4 q (pe_incr_retry p4) (pe_status p4) (ek_msgq _ _ K Ht) Hq Mq)
    as (t5 & q5 & back & -> & K5 & Hq5 & Mq5 & A5 & O5).
  exists t5, q5, p4. split; [reflexivity |]. split; [eapply err_kept_trans; eassumption |].
  split; [assumption |]. split; [assumption |]. split.
  { eapply accounts_trans; [exact A1 |]. eapply accounts_trans; eassumption. }
  split; [| auto]. specialize (O5 Hw4). unfold outcome in *. rewrite Eq4, Eq1 in O5. exact O5.
Qed.

(** ** The handler *)

Lemma status_of_actions_err p :
  pe_err (status_of_actions p) = pe_err p /\ pe_actions (status_of_actions p) = pe_actions p.
Proof. unfold status_of_actions. repeat destruct (has_action _ _); auto. Qed.

(** The messages of the batch once an error is handled: the first one of an idempotent
    producer's batch remembers the last. *)
Definition marked (b : list rd_kafka_msg) : list rd_kafka_msg :=
  if idempotent conf then with_last b else b.

Lemma marked_core b : map core (marked b) = map core b.
Proof. unfold marked. destruct (idempotent conf); [apply with_last_core | reflexivity]. Qed.

(** What an error leaves of the partition and the batch.  Nothing of an idempotent
    producer's batch is put back unless the partition still has its producer id. *)
Record error_done (t : prod) (batch : rd_kafka_msgbatch) (t' : prod) (q' : rd_kafka_msgq) : Prop := {
  ed_kept : err_kept t t';
  ed_queue : queue_ok conf q' /\ small q';
  ed_accounts : accounts t (rkmq_msgs (rkmb_msgq batch)) t' (rkmq_msgs q');
  ed_outcome : pt_msgq t' = pt_msgq t \/
    outcome t (marked (rkmq_msgs (rkmb_msgq batch))) t' (rkmq_msgs q') /\
    (idempotent conf = true -> rd_kafka_pid_eq (rkmb_pid batch) (te_pid (pt_eos t)) = true) }.

(** What is done before the actions are taken. *)
Lemma classify_spec t batch p1 :
  queue_ok conf (rkmb_msgq batch) -> small (rkmb_msgq batch) ->
  last_ok (rkmq_msgs (rkmb_msgq batch)) -> pe_err p1 <> 0 ->
  (rk_transactional (pt_rk t) = true -> may_fail (pt_rk t)) ->
  exists rk2 q2 p2,
    (if idempotent conf then rd_kafka_handle_idempotent_Produce_error t batch p1 else Some (t, batch, p1)) =
      Some (set_pt_rk t rk2, batch_set_msgq batch q2, p2) /\ rk_kept (pt_rk t) rk2 /\
    (queue_ok conf q2 /\ small q2) /\ rkmq_msgs q2 = marked (rkmq_msgs (rkmb_msgq batch)) /\ settled p2 /\
    (idempotent conf = true ->
     rd_kafka_pid_eq (rkmb_pid batch) (pe_rktp_pid p1) = true \/ pe_actions p2 = ACTION_PERMANENT).
Proof.
  intros Hq Mq Hl He Hf. unfold marked. destruct (idempotent conf).
  - destruct (special_error_spec t batch p1 Hl He Hf) as (rk' & p' & -> & K & S & Hp).
    destruct (requeue conf (rkmb_msgq batch) (with_last (rkmq_msgs (rkmb_msgq batch)))
      (with_last_core _) Hq) as [Hq2 Mq2].
    do 3 eexists. split; [reflexivity |]. split; [assumption |]. split; [exact (conj Hq2 (Mq2 Mq)) |].
    split; [reflexivity |]. auto.
  - exists (pt_rk t), (rkmb_msgq batch), p1. split; [now destruct t, batch |].
    split; [reflexivity |]. split; [auto |]. split; [reflexivity |]. split; [now left | discriminate].
Qed.

(** What is done after the retries. *)
Definition error_rest (t : prod) (perr : produce_err) : option (prod * produce_err) :=
  let* (t, perr) := if has_action (pe_actions perr) ACTION_PERMANENT && idempotent conf
                    then produce_error_permanent conf t perr else Some (t, perr) in
  Some (if (pe_err perr =? ERR__TIMED_OUT) || (pe_err perr =? ERR__TIMED_OUT_QUEUE)
        then (t, perr_set_err perr ERR__MSG_TIMED_OUT)
        else if pe_err perr =? ERR_TOPIC_AUTHORIZATION_FAILED
        then (pt_emit t (TopicSetError (pe_err perr)), perr)
        else (t, perr)).

Lemma error_rest_spec t perr :
  settled perr -> (rk_transactional (pt_rk t) = true -> may_fail (pt_rk t)) ->
  exists t' perr', error_rest t perr = Some (t', perr') /\ err_kept t t' /\ pt_msgq t' = pt_msgq t /\
    pt_eos t' = pt_eos t /\ forall q, accounts t q t' q.
Proof.
  intros S Hf. unfold error_rest.
  assert (exists t1 p1, (if has_action (pe_actions perr) ACTION_PERMANENT && idempotent conf
                    then produce_error_permanent conf t perr else Some (t, perr)) = Some (t1, p1) /\
    err_kept t t1 /\ pt_msgq t1 = pt_msgq t /\ pt_eos t1 = pt_eos t /\ forall q, accounts t q t1 q)
    as (t1 & p1 & -> & K & E1 & E2 & A).
  { destruct (has_action _ _ && _) eqn:Eh.
    - destruct (permanent_error_spec t perr) as (rk' & -> & K); [| assumption |].
      + destruct S as [? | Ea]; [assumption |]. rewrite Ea in Eh. discriminate.
      + do 2 eexists. split; [reflexivity |]. split; [now apply err_kept_same |]. split; [reflexivity |].
        split; [reflexivity |]. intros q. now apply accounts_same.
    - exists t, perr. split; [reflexivity |]. split; [now apply err_kept_eq |]. split; [reflexivity |].
      split; [reflexivity |]. intros q. apply accounts_refl. }
  destruct (_ || _); [| destruct (_ =? ERR_TOPIC_AUTHORIZATION_FAILED)];
    (do 2 eexists; split; [reflexivity |]); auto 10.
  split; [eapply err_kept_trans; [exact K | now apply err_kept_eq] |]. split; [assumption |].
  split; [assumption |]. intros q. eapply accounts_trans; [apply A | now apply accounts_emit].
Qed.

Lemma handle_Produce_error_spec t rq batch perr :
  queue_ok conf (pt_msgq t) -> queue_ok conf (rkmb_msgq batch) -> small (rkmb_msgq batch) ->
  last_ok (rkmq_msgs (rkmb_msgq batch)) -> pe_err perr <> 0 ->
  (rk_transactional (pt_rk t) = true -> may_fail (pt_rk t)) ->
  exists t' q' perr' ret,
    rd_kafka_handle_Produce_error conf env t (Some rq) batch perr =
      Some (t', batch_set_msgq batch q', perr', ret) /\ error_done t batch t' q'.
Proof.
  intros Ht Hq Mq Hl He Hf. unfold rd_kafka_handle_Produce_error.
  destruct (pe_err perr =? ERR__DESTROY).
  { exists t, (rkmb_msgq batch), perr, false. split; [now destruct batch |].
    split; [now apply err_kept_eq | auto | apply accounts_refl | now left]. }
  set (p1 := mk_perr _ _ _ _ _ _ _ _ _ _).
  destruct (classify_spec t batch p1 Hq Mq Hl He Hf)
    as (rk2 & q2 & p2 & -> & K2 & [Hq2 Mq2] & Eq2 & S2 & Hp2).
  change (pe_rktp_pid p1) with (te_pid (pt_eos t)) in Hp2. clearbody p1.
  destruct (status_of_actions_err p2) as [Ee3 Ea3].
  set (p3 := status_of_actions p2) in *. set (t3 := store_last_err _ _ _ _).
  assert (map core (rkmq_msgs q2) = map core (rkmq_msgs (rkmb_msgq batch))) as Ec2
    by (rewrite Eq2; apply marked_core).
  assert (err_kept t t3 /\ accounts t (rkmq_msgs (rkmb_msgq batch)) t3 (rkmq_msgs q2) /\ pt_msgq t3 = pt_msgq t)
    as (K3 & A3 & Em3) by (split; [now apply err_kept_same | split; [now apply accounts_same | reflexivity]]).
  assert (settled p3) as S3 by (unfold settled in *; now rewrite Ee3, Ea3).
  rewrite <- Ea3 in Hp2. clearbody p3 t3. clear p2 Ee3 Ea3 S2 K2. cbn [rkmb_msgq batch_set_msgq].
  assert (forall t4, err_kept t t4 -> rk_transactional (pt_rk t4) = true -> may_fail (pt_rk t4)) as Hf4.
  { intros t4 K H. apply (kt_ok _ _ (ek_rk _ _ K)), Hf. now rewrite <- (kt_txn _ _ (ek_rk _ _ K)). }
  destruct (has_action (pe_actions p3) (Z.lor ACTION_REFRESH ACTION_RETRY)) eqn:Er; cbn [andb].
  - destruct (retry_branch_spec t3 rq q2 p3 (ek_msgq _ _ K3 Ht) Hq2 Mq2)
      as (t4 & q4 & p4 & -> & K4 & Hq4 & Mq4 & A4 & O4 & Ee4 & Ea4).
    assert (err_kept t t4) as K by (eapply err_kept_trans; eassumption).
    assert (accounts t (rkmq_msgs (rkmb_msgq batch)) t4 (rkmq_msgs q4)) as A by (eapply accounts_trans; eassumption).
    assert (forall t5, pt_msgq t5 = pt_msgq t4 -> pt_eos t5 = pt_eos t4 ->
      outcome t (marked (rkmq_msgs (rkmb_msgq batch))) t5 (rkmq_msgs q4)) as O.
    { intros t5 E1 E2. unfold outcome in *. rewrite E1, E2, <- Eq2. now rewrite Em3 in O4. }
    assert (idempotent conf = true -> rd_kafka_pid_eq (rkmb_pid batch) (te_pid (pt_eos t)) = true) as Hpid.
    { intros H. destruct (Hp2 H) as [? | Ea]; [assumption |]. rewrite Ea in Er. discriminate. }
    destruct (_ =? 0).
    { do 4 eexists. split; [reflexivity |]. split; auto. }
    destruct (error_rest_spec t4 p4) as (t5 & p5 & E5 & K5 & Em5 & Ee5 & A5).
    { unfold settled in *. now rewrite Ee4, Ea4. }
    { now apply Hf4. }
    unfold error_rest in E5. destruct (if _ && idempotent conf then _ else _) as [[t6 p6] |]; [| discriminate].
    injection E5 as E5. rewrite E5. do 4 eexists. split; [reflexivity |].
    split; [eapply err_kept_trans; eassumption | auto | eapply accounts_trans; [exact A | apply A5] | auto].
  - destruct (error_rest_spec t3 p3 S3 (Hf4 t3 K3)) as (t5 & p5 & E5 & K5 & Em5 & Ee5 & A5).
    unfold error_rest in E5. destruct (if _ && idempotent conf then _ else _) as [[t6 p6] |]; [| discriminate].
    injection E5 as E5. rewrite E5. do 4 eexists. split; [reflexivity |].
    split; [eapply err_kept_trans; eassumption | auto | eapply accounts_trans; [exact A3 | apply A5] |].
    left. congruence.
Qed.

End Errors.
