(* ===== verification/ProduceProps.v ===== *)
(** * Properties of Produce results

    Whatever a broker answers to a Produce request, and whatever else ends it, each of its
    messages is kept exactly once. *)

From stdpp Require Import gmap strings.
From S2P Require Import Prelude EosState Eos EosProps.
From S2P Require Import Header Msgq MsgqFacts Producer EosTotal.
From S2P Require Import RdBuf Slice KafkaBuf ReadFacts MsgWriter Produce ProduceFacts.

Section Results.
Context (conf : resp_conf) (env : penv).

(** ** The state a result is handled in *)

(** The partition and the batch of a request that is in flight. *)
Record in_flight (t : prod) (batch : rd_kafka_msgbatch) : Prop := {
  if_msgq : queue_ok conf (pt_msgq t) /\ small (pt_msgq t);
  if_xmit : queue_ok conf (pt_xmit_msgq t) /\ small (pt_xmit_msgq t);
  if_held : zlen (held t) < 2 ^ 31;
  if_batch : queue_ok conf (rkmb_msgq batch) /\ small (rkmb_msgq batch);
  if_last : last_ok (rkmq_msgs (rkmb_msgq batch));
  if_count : zlen (rkmq_msgs (rkmb_msgq batch)) <= pt_msgs_inflight t < 2 ^ 31;
  if_toppars : idempotent conf = true -> 0 < inflight_toppar_cnt (pt_rk t) < 2 ^ 31;
  if_txn : rk_transactional (pt_rk t) = true -> may_fail (pt_rk t) }.

(** What handling the result of one request leaves of the partition. *)
Record result_done (t t' : prod) (n : Z) : Prop := {
  rd_msgq : queue_ok conf (pt_msgq t');
  rd_xmit : queue_ok conf (pt_xmit_msgq t');
  rd_inflight : pt_msgs_inflight t' = pt_msgs_inflight t - n;
  rd_txn : rk_transactional (pt_rk t') = rk_transactional (pt_rk t) /\ (may_fail (pt_rk t) -> may_fail (pt_rk t'));
  rd_toppars : inflight_toppar_cnt (pt_rk t') = inflight_toppar_cnt (pt_rk t) -
    (if idempotent conf && (pt_msgs_inflight t' =? 0) then 1 else 0) }.

(** Where messages may have gone: nowhere but out of the queues, or, unchanged but for
    their delivery state, back to the partition's queue.  An idempotent producer then has
    the partition drained, and the partition has the producer id of the batch. *)
Definition fate (t : prod) (batch : rd_kafka_msgbatch) (t' : prod) : Prop :=
  (exists gone, held t ≡ₚ held t' ++ gone) \/
  exists incr status,
    rkmq_msgs (pt_msgq t') ≡ₚ rkmq_msgs (pt_msgq t) ++
      put_back conf env incr status (marked conf (rkmq_msgs (rkmb_msgq batch))) /\
    pt_xmit_msgq t' = pt_xmit_msgq t /\
    (idempotent conf = true -> wait_drain (pt_eos t') = true /\
     rd_kafka_pid_eq (rkmb_pid batch) (te_pid (pt_eos t)) = true).

Lemma fate_same t0 t batch t' t1 :
  fate t batch t' -> pt_msgq t1 = pt_msgq t' -> pt_xmit_msgq t1 = pt_xmit_msgq t' ->
  wait_drain (pt_eos t1) = wait_drain (pt_eos t') ->
  pt_msgq t0 = pt_msgq t -> pt_xmit_msgq t0 = pt_xmit_msgq t -> te_pid (pt_eos t0) = te_pid (pt_eos t) ->
  fate t0 batch t1.
Proof. intros H E1 E2 E3 E4 E5 E6. unfold fate, held in *. now rewrite E1, E2, E3, E4, E5, E6. Qed.

Lemma accounts_length t q t' q' : accounts t q t' q' -> (length (held t') + length q' <= length (held t) + length q)%nat.
Proof.
  intros (evs & _ & P). apply Permutation_length in P. rewrite !length_map, !length_app in P. lia.
Qed.

(** ** Successes *)

Lemma success_spec t batch next_seq :
  queue_ok conf (pt_xmit_msgq t) /\ small (pt_xmit_msgq t) ->
  queue_ok conf (pt_msgq t) /\ small (pt_msgq t) -> zlen (held t) < 2 ^ 31 ->
  rkmq_msgs (rkmb_msgq batch) <> [] ->
  exists t', rd_kafka_handle_idempotent_Produce_success conf t batch next_seq = Some t' /\
    rk_kept (pt_rk t) (pt_rk t') /\ pt_msgs_inflight t' = pt_msgs_inflight t /\
    queue_ok conf (pt_msgq t') /\ queue_ok conf (pt_xmit_msgq t') /\
    (exists gone, held t ≡ₚ held t' ++ gone) /\ forall q, accounts t q t' q.
Proof.
  intros [Hx Mx] [Hq Mq] Hlen Hne. unfold rd_kafka_handle_idempotent_Produce_success.
  unfold rd_kafka_msgq_first, rd_kafka_msgq_last.
  destruct (rkmq_msgs (rkmb_msgq batch)) as [| m r] eqn:Eb; [congruence |]. cbn [head].
  destruct (list.last (m :: r)) as [x |] eqn:El; [| now apply list.last_None in El].
  set (r1 := if acked_msgid (pt_eos t) <? u64 (rkm_msgid m - 1) then _ else _).
  assert (exists t1 fatal, r1 = Some (t1, fatal) /\ rk_kept (pt_rk t) (pt_rk t1) /\
    pt_msgs_inflight t1 = pt_msgs_inflight t /\
    queue_ok conf (pt_msgq t1) /\ queue_ok conf (pt_xmit_msgq t1) /\
    (exists gone, held t ≡ₚ held t1 ++ gone) /\ forall q, accounts t q t1 q)
    as (t1 & fatal & -> & K1 & E1 & Hq1 & Hx1 & G1 & A1).
  { unfold r1. clear r1. destruct (_ <? _).
    - destruct (implicit_ack_spec conf t (rkm_msgid x) Hx Hq Mx Mq Hlen)
        as (p1 & s1 & p2 & s2 & acked & t1 & (P1 & _) & (P2 & _) & -> & Ex1 & Eq1 & Hx1 & Hq1 & Pa & _ & Eo & _ & Ei & K).
      exists t1, false. split; [reflexivity |]. split; [exact K |]. split; [exact Ei |].
      split; [assumption |]. split; [assumption |]. split.
      { exists (p2 ++ p1). unfold held. rewrite Ex1, Eq1, P1, P2. solve_Permutation. }
      intros q. exists (dr_events conf 0 acked). split; [exact Eo |]. rewrite reported_dr.
      unfold held. rewrite Ex1, Eq1, P1, P2, !map_app. rewrite Pa, retried_status_core, map_app.
      solve_Permutation.
    - destruct (_ && _); (do 2 eexists; split; [reflexivity |]); cbn;
        (split; [reflexivity |]; split; [reflexivity |]; split; [assumption |]; split; [assumption |];
         split; [exists []; now rewrite app_nil_r |]; intros q; now apply accounts_same). }
  set (e2 := if rkm_msgid x >? _ then _ else _). clearbody e2.
  assert (forall q, accounts t q (set_pt_eos t1 e2) q) as A2.
  { intros q. eapply accounts_trans; [apply A1 |]. now apply accounts_same. }
  destruct fatal; [| exists (set_pt_eos t1 e2); auto 12].
  destruct (idemp_set_fatal_returns (pt_rk (set_pt_eos t1 e2)) ERR__INCONSISTENT) as (rk' & -> & K2);
    [discriminate |].
  eexists. split; [reflexivity |]. cbn. split; [now transitivity (pt_rk t1) |].
  split; [assumption |]. split; [assumption |]. split; [assumption |]. split; [exact G1 |].
  intros q. eapply accounts_trans; [apply A2 |]. now apply accounts_same.
Qed.

(** ** Results *)

Lemma handle_Produce_result_spec t batch err presult rq :
  in_flight t batch ->
  exists t' batch',
    rd_kafka_msgbatch_handle_Produce_result conf env t batch err presult (Some rq) = Some (t', batch') /\
    rkmq_msgs (rkmb_msgq batch') = [] /\ accounts t (rkmq_msgs (rkmb_msgq batch)) t' [] /\
    fate t batch t' /\ result_done t t' (zlen (rkmq_msgs (rkmb_msgq batch))).
Proof.
  intros [Hq Hx Hh [Hb Mb] Hl Hn Htp Htx]. unfold rd_kafka_msgbatch_handle_Produce_result.
  rewrite queue_len by (apply Hb || apply Mb).
  set (n := zlen (rkmq_msgs (rkmb_msgq batch))) in *. set (next_seq := rd_kafka_seq_wrap _).
  rewrite Z.geb_leb. replace (n <=? pt_msgs_inflight t) with true by lia. cbn [rd_assert].
  rewrite swrap_small by (unfold in_i; lia). set (t1 := set_pt_msgs_inflight t _).
  assert (rkmq_msgs (rkmb_msgq batch) <> []) as Hne by (destruct Hl as (m & r & x & -> & _); discriminate).
  set (r2 := if err =? 0 then _ else _).
  assert (exists t2 q2 e2 s2, r2 = Some (t2, batch_set_msgq batch q2, e2, s2) /\
    rk_kept (pt_rk t) (pt_rk t2) /\ pt_msgs_inflight t2 = pt_msgs_inflight t - n /\
    queue_ok conf (pt_msgq t2) /\ queue_ok conf (pt_xmit_msgq t2) /\ queue_ok conf q2 /\ small q2 /\
    accounts t (rkmq_msgs (rkmb_msgq batch)) t2 (rkmq_msgs q2) /\ fate t batch t2)
    as (t2 & q2 & e2 & s2 & -> & K2 & Ei2 & Hq2 & Hx2 & Hb2 & Mb2 & A2 & F2).
  { unfold r2. clear r2. destruct (Z.eqb_spec err 0) as [-> | He].
    - assert (batch = batch_set_msgq batch (rkmb_msgq batch)) as Eb by now destruct batch.
      destruct (idempotent conf).
      + destruct (success_spec t1 batch next_seq Hx Hq Hh Hne) as (t2 & -> & K & Ei & Hq2 & Hx2 & G & A).
        exists t2, (rkmb_msgq batch). rewrite <- Eb. do 2 eexists. split; [reflexivity |].
        split; [exact K |]. split; [exact Ei |]. do 4 (split; [assumption |]). split.
        { eapply accounts_trans; [now apply (accounts_same t t1) | apply A]. }
        left. exact G.
      + exists t1, (rkmb_msgq batch). rewrite <- Eb. do 2 eexists. split; [reflexivity |].
        split; [reflexivity |]. split; [reflexivity |]. split; [apply Hq |]. split; [apply Hx |].
        split; [assumption |]. split; [assumption |]. split; [now apply accounts_same |].
        left. exists []. now rewrite app_nil_r.
    - set (perr := mk_perr _ _ _ _ _ _ _ _ _ _).
      destruct (handle_Produce_error_spec conf env t1 rq batch perr (proj1 Hq) Hb Mb Hl He Htx)
        as (t2 & q2 & p2 & ret & -> & [K [Hb2 Mb2] A O]).
      do 4 eexists. split; [reflexivity |]. split; [exact (ek_rk _ _ _ K) |].
      split; [exact (ek_inflight _ _ _ K) |]. split; [exact (ek_msgq _ _ _ K (proj1 Hq)) |].
      split; [cbn; rewrite (ek_xmit _ _ _ K); apply Hx |]. split; [assumption |]. split; [assumption |]. split.
      { eapply accounts_trans; [now apply (accounts_same t t1) |].
        eapply accounts_trans; [exact A | now apply accounts_same]. }
      apply (fate_same t t1 batch t2); try reflexivity.
      + destruct O as [E | [[[E _] | (incr & st & P & _ & Hw)] Hp]].
        * left. exists []. unfold held. now rewrite app_nil_r, E, (ek_xmit _ _ _ K).
        * left. exists []. unfold held. now rewrite app_nil_r, E, (ek_xmit _ _ _ K).
        * right. exists incr, st. rewrite (ek_xmit _ _ _ K). auto.
      + unfold pt_update_seqs. cbn. now destruct (pe_update_next_ack p2), (pe_update_next_err p2). }
  cbn [rkmb_msgq batch_set_msgq].
  rewrite queue_len by (apply Hb2 || apply Mb2).
  set (r3 := if zlen (rkmq_msgs q2) >? 0 then _ else _).
  assert (exists t3 b3, r3 = (t3, b3) /\ rkmq_msgs (rkmb_msgq b3) = [] /\
    rk_kept (pt_rk t) (pt_rk t3) /\ pt_msgs_inflight t3 = pt_msgs_inflight t - n /\
    queue_ok conf (pt_msgq t3) /\ queue_ok conf (pt_xmit_msgq t3) /\
    accounts t (rkmq_msgs (rkmb_msgq batch)) t3 [] /\ fate t batch t3)
    as (t3 & b3 & -> & Eb3 & K3 & Ei3 & Hq3 & Hx3 & A3 & F3).
  { unfold r3. clear r3. rewrite Z.gtb_ltb. destruct (Z.ltb_spec 0 (zlen (rkmq_msgs q2))).
    - set (mq := rd_kafka_msgq_set_metadata _ _ _ _ _).
      assert (map core (rkmq_msgs mq) = map core (rkmq_msgs q2)) as Em by apply metadata_core.
      destruct (requeue conf q2 (rkmq_msgs mq) Em Hb2) as [[Cm _] Hsm]. specialize (Hsm Mb2).
      change (counted mq) in Cm. destruct Hsm as [Lm _]. cbn [rkmq_msgs] in Lm.
      destruct (dr_msgq_spec conf t2 mq e2 Cm Lm) as (t3 & q3 & -> & Eq3 & [D1 D2 D3 D4 D5 D6]).
      do 2 eexists. split; [reflexivity |]. split; [exact Eq3 |]. split; [now transitivity (pt_rk t2) |].
      split; [congruence |]. rewrite D2, D3. split; [assumption |]. split; [assumption |].
      split; [| apply (fate_same t t batch t2); congruence].
      eapply accounts_trans; [exact A2 |]. exists (dr_events conf e2 (rkmq_msgs mq)). split; [exact D1 |].
      rewrite reported_dr. unfold held. rewrite D2, D3. cbn [app]. now rewrite !map_app, Em.
    - destruct (rkmq_msgs q2) eqn:E2; [| cbn [length] in *; lia].
      exists t2, (batch_set_msgq batch q2). auto 10. }
  destruct (idempotent conf && _) eqn:Ef.
  - apply andb_true_iff in Ef as [Ef El']. pose proof Ef as Ef'.
    destruct (inflight_toppar_sub_returns (pt_rk t3)) as (rk4 & -> & C4 & T4 & M4).
    { rewrite (kt_cnt _ _ K3). auto. }
    do 2 eexists. split; [reflexivity |]. split; [exact Eb3 |].
    split; [eapply accounts_trans; [exact A3 | now apply accounts_same] |].
    split; [now apply (fate_same t t batch t3) |]. constructor; try assumption.
    + cbn. split; [now rewrite T4, (kt_txn _ _ K3) | intros Hm; apply M4, (kt_ok _ _ K3), Hm].
    + cbn. rewrite C4, (kt_cnt _ _ K3), Ei3, Ef', El'. reflexivity.
  - do 2 eexists. split; [reflexivity |]. split; [exact Eb3 |]. split; [exact A3 |]. split; [assumption |].
    constructor; try assumption.
    + split; [exact (kt_txn _ _ K3) | exact (kt_ok _ _ K3)].
    + rewrite (kt_cnt _ _ K3), Ei3, Ef. lia.
Qed.

(** ** Responses *)

Lemma produce_hdr_safe rb i seg st en : safe rb i seg st en (produce_response_hdr rb).
Proof.
  unfold produce_response_hdr. apply safe_bind; [apply safe_i32 |]. intros n.
  destruct (negb _); [now apply safe_fail |]. apply safe_bind; [apply safe_skip_str |]. intros _.
  apply safe_bind; [apply safe_i32 |]. intros k. destruct (negb _); [now apply safe_fail |].
  apply safe_bind; [apply safe_i32 |]. intros _. apply safe_bind; [apply safe_i16 |]. intros ec.
  apply safe_bind; [apply safe_i64 |]. intros off. apply safe_ret.
Qed.

Lemma produce_tail_safe rb i seg st en v : safe rb i seg st en (produce_response_tail rb v).
Proof.
  unfold produce_response_tail. apply safe_bind.
  - destruct (_ >=? _); [apply safe_i64 | apply safe_ret].
  - intros _. destruct (_ >=? _); [| apply safe_ret]. apply safe_bind; [apply safe_i32 |]. intros. apply safe_ret.
Qed.

(** A response is read to its end, or up to where it is cut off or damaged. *)
Lemma parse_spec t rb s v pres i seg st en pos r :
  window rb i seg st en s pos r ->
  exists t' pres' err, rd_kafka_handle_Produce_parse t rb s v pres = Some (t', pres', err) /\
    (t' = t \/ exists ms, t' = pt_emit t (ThrottleTime ms)).
Proof.
  intros W. unfold rd_kafka_handle_Produce_parse.
  destruct (produce_hdr_safe rb i seg st en s pos r W) as (s1 & [[ec off] | e] & -> & H1); [| eauto 10].
  destruct H1 as (pos1 & r1 & W1).
  assert (safe rb i seg st en (if v >=? 2 then rd_kafka_buf_read_i64 rb else r_ret (-1))) as Hs
    by (destruct (v >=? 2); [apply safe_i64 | apply safe_ret]).
  destruct (Hs s1 pos1 r1 W1) as (s2 & [ts | e] & -> & H2); [| eauto 10].
  destruct H2 as (pos2 & r2 & W2).
  destruct (produce_tail_safe rb i seg st en v s2 pos2 r2 W2) as (s3 & [th | e] & -> & _); [| eauto 10].
  do 3 eexists. split; [reflexivity |]. destruct th; eauto.
Qed.

(** A reply is a buffer with any bytes, or there is none. *)
Definition any_reply (reply : option (rd_buf * rd_slice)) : Prop :=
  match reply with
  | None => True
  | Some (rb, s) => exists i seg st en pos r, window rb i seg st en s pos r
  end.

Lemma handle_Produce_spec t err reply rq batch :
  in_flight t batch -> any_reply reply ->
  exists t' batch',
    rd_kafka_handle_Produce conf env t err reply rq batch = Some (t', batch') /\
    rkmq_msgs (rkmb_msgq batch') = [] /\ accounts t (rkmq_msgs (rkmb_msgq batch)) t' [] /\
    fate t batch t' /\ result_done t t' (zlen (rkmq_msgs (rkmb_msgq batch))).
Proof.
  intros Hf Hr. unfold rd_kafka_handle_Produce.
  set (e1 := match ut_handle_ProduceResponse conf with Some _ => _ | None => _ end). clearbody e1.
  destruct reply as [[rb s] |]; [| now apply handle_Produce_result_spec].
  destruct (e1 =? 0); [| now apply handle_Produce_result_spec].
  destruct Hr as (i & seg & st & en & pos & r & W).
  destruct (parse_spec t rb s (rqi_ApiVersion rq) (mk_pres RD_KAFKA_OFFSET_INVALID (-1)) i seg st en pos r W)
    as (t1 & pres1 & err1 & -> & Ht).
  destruct Ht as [-> | (ms & ->)]; [now apply handle_Produce_result_spec |].
  assert (in_flight (pt_emit t (ThrottleTime ms)) batch) as Hf1 by (destruct Hf; now constructor).
  destruct (handle_Produce_result_spec (pt_emit t (ThrottleTime ms)) batch err1 pres1 rq Hf1)
    as (t' & b' & -> & Eb & A & F & [D1 D2 D3]).
  do 2 eexists. split; [reflexivity |]. split; [exact Eb |].
  split; [| split; [now apply (fate_same t (pt_emit t (ThrottleTime ms)) batch t') | now constructor]].
  eapply accounts_trans; [| exact A]. now apply accounts_emit.
Qed.

(** ** Acknowledgements *)

(** In order of ids the messages up to [last] are those at the head. *)
Lemma acked_prefix_filter last l pre rest :
  order conf = RD_KAFKA_QUEUE_FIFO -> sorted (cmp conf) l -> acked_prefix last l pre rest ->
  pre = filter (fun m => rkm_msgid m <= last) l /\ rest = filter (fun m => last < rkm_msgid m) l.
Proof.
  intros Ho Hs (-> & Hp & Hr). apply sorted_app in Hs as (_ & Hs & _).
  assert (Forall (fun m => last < rkm_msgid m) rest) as Hr'.
  { destruct Hs as [| m rest Hs Hm]; [constructor |]. constructor; [assumption |].
    eapply list.Forall_impl; [exact Hm |]. clear - Ho Hr. destruct conf. cbn in *. subst. cbn. lia. }
  rewrite !list.filter_app. split.
  - rewrite filter_all by assumption. rewrite filter_none; [now rewrite app_nil_r |].
    eapply list.Forall_impl; [exact Hr' |]. cbn. lia.
  - rewrite filter_none, filter_all; [reflexivity | assumption |].
    eapply list.Forall_impl; [exact Hp |]. cbn. lia.
Qed.

(** The messages a success acknowledges beside those of the batch that ends with [last]. *)
Definition implied (t : prod) (first last : Z) : list rd_kafka_msg :=
  if acked_msgid (pt_eos t) <? first - 1 then filter (fun m => rkm_msgid m <= last) (held t) else [].

Definition remaining (t : prod) (first last : Z) : list rd_kafka_msg :=
  if acked_msgid (pt_eos t) <? first - 1 then filter (fun m => last < rkm_msgid m) (held t) else held t.

(** What a success makes of the partition's sequence numbers. *)
Definition acked_eos (e : toppar_eos) (last next_seq : Z) : toppar_eos :=
  mk_teos (te_pid e) (Z.max last (acked_msgid e)) (epoch_base_msgid e) next_seq
    (if next_err_seq e =? next_ack_seq e then next_seq else next_err_seq e) (wait_drain e).

(** A success that was not expected: its messages are the next to be acknowledged, but a
    request was expected to fail at this sequence number. *)
Definition unexpected (t : prod) (batch : rd_kafka_msgbatch) (first : Z) : bool :=
  negb (acked_msgid (pt_eos t) <? first - 1) && negb (rkmb_first_seq batch =? next_ack_seq (pt_eos t))
  && (rkmb_first_seq batch =? next_err_seq (pt_eos t)).

(** It is the next sequence number for errors that is moved on then. *)
Definition unexpected_eos (e : toppar_eos) (last next_seq : Z) : toppar_eos :=
  mk_teos (te_pid e) (Z.max last (acked_msgid e)) (epoch_base_msgid e) (next_ack_seq e) next_seq (wait_drain e).

Definition success_eos (t : prod) (batch : rd_kafka_msgbatch) (first last next_seq : Z) : toppar_eos :=
  if unexpected t batch first then unexpected_eos (pt_eos t) last next_seq
  else acked_eos (pt_eos t) last next_seq.

Lemma fatal_is_set rk err rk' :
  rd_kafka_idemp_set_fatal_error rk err = Some rk' -> err <> 0 -> rk_fatal_err rk' <> 0.
Proof.
  unfold rd_kafka_idemp_set_fatal_error. intros H He. destruct (rk_transactional rk).
  - now apply (txn_set_fatal_error_keeps true _ _ _ H).
  - injection H as <-. now apply set_fatal_error0_fatal.
Qed.

Lemma success_acks t batch next_seq m0 x :
  order conf = RD_KAFKA_QUEUE_FIFO -> queue_ok conf (pt_xmit_msgq t) /\ small (pt_xmit_msgq t) ->
  queue_ok conf (pt_msgq t) /\ small (pt_msgq t) -> zlen (held t) < 2 ^ 31 ->
  head (rkmq_msgs (rkmb_msgq batch)) = Some m0 -> list.last (rkmq_msgs (rkmb_msgq batch)) = Some x ->
  1 <= rkm_msgid m0 < 2 ^ 64 ->
  exists t' acked, rd_kafka_handle_idempotent_Produce_success conf t batch next_seq = Some t' /\
    acked ≡ₚ map (fun m => msg_set_status m (acked_status conf)) (implied t (rkm_msgid m0) (rkm_msgid x)) /\
    sorted (cmp conf) acked /\ held t' ≡ₚ remaining t (rkm_msgid m0) (rkm_msgid x) /\
    pt_out t' = pt_out t ++ dr_events conf 0 acked /\
    pt_eos t' = success_eos t batch (rkm_msgid m0) (rkm_msgid x) next_seq /\
    (unexpected t batch (rkm_msgid m0) = true -> rk_fatal_err (pt_rk t') <> 0).
Proof.
  intros Ho [Hx Mx] [Hq Mq] Hlen Hhead Hlast Hid. unfold success_eos, unexpected.
  unfold rd_kafka_handle_idempotent_Produce_success, rd_kafka_msgq_first, rd_kafka_msgq_last, implied, remaining.
  rewrite Hhead, Hlast, wrap_small by lia.
  assert (forall e, (if rkm_msgid x >? acked_msgid (eos_set_next_ack e next_seq)
      then eos_set_acked (eos_set_next_ack e next_seq) (rkm_msgid x) else eos_set_next_ack e next_seq) =
    mk_teos (te_pid e) (Z.max (rkm_msgid x) (acked_msgid e)) (epoch_base_msgid e) next_seq (next_err_seq e)
      (wait_drain e)) as He.
  { intros e. cbn. rewrite Z.gtb_ltb. destruct (Z.ltb_spec (acked_msgid e) (rkm_msgid x));
      [rewrite Z.max_l by lia | rewrite Z.max_r by lia]; now destruct e. }
  destruct (Z.ltb_spec (acked_msgid (pt_eos t)) (rkm_msgid m0 - 1)).
  - destruct (implicit_ack_spec conf t (rkm_msgid x) Hx Hq Mx Mq Hlen)
      as (p1 & s1 & p2 & s2 & acked & t1 & P1 & P2 & -> & Ex1 & Eq1 & _ & _ & Pa & Sa & Eo & Ee & _).
    apply (acked_prefix_filter _ _ _ _ Ho (proj2 Hx)) in P1 as [E1 E2].
    apply (acked_prefix_filter _ _ _ _ Ho (proj2 Hq)) in P2 as [E3 E4].
    eexists _, acked. split; [reflexivity |].
    split; [rewrite Pa, E1, E3; unfold held; rewrite list.filter_app; apply Permutation_map, Permutation_app_comm |].
    split; [assumption |].
    split; [unfold held; cbn [set_pt_eos pt_msgq pt_xmit_msgq]; now rewrite Ex1, Eq1, E2, E4, list.filter_app |].
    split; [exact Eo |]. cbn [pt_eos set_pt_eos pt_rk negb andb]. rewrite Ee. split; [| discriminate].
    cbn [negb]. rewrite He. unfold acked_eos. destruct (next_err_seq (pt_eos t) =? next_ack_seq (pt_eos t)); reflexivity.
  - cbn [negb andb]. destruct (negb _ && _).
    + destruct (idemp_set_fatal_returns (pt_rk t) ERR__INCONSISTENT) as (rk' & Ek & _); [discriminate |].
      eexists (set_pt_rk (set_pt_eos t (unexpected_eos (pt_eos t) (rkm_msgid x) next_seq)) rk'), [].
      cbn [negb]. split; [| split; [reflexivity |]; split; [constructor |]; split; [reflexivity |]; split;
        [cbn; now rewrite app_nil_r | split; [reflexivity | intros _; now apply (fatal_is_set _ _ _ Ek)]]].
      cbn [pt_rk set_pt_eos pt_eos]. rewrite Ek. do 2 f_equal. unfold unexpected_eos. cbn. rewrite Z.gtb_ltb.
      destruct (Z.ltb_spec (acked_msgid (pt_eos t)) (rkm_msgid x));
        [rewrite Z.max_l by lia | rewrite Z.max_r by lia]; now destruct (pt_eos t).
    + exists (set_pt_eos t (acked_eos (pt_eos t) (rkm_msgid x) next_seq)), []. cbn [negb].
      split; [| split; [reflexivity |]; split; [constructor |]; split; [reflexivity |]; split;
        [cbn; now rewrite app_nil_r | split; [reflexivity | discriminate]]].
      cbn [negb]. rewrite He. unfold acked_eos. destruct (next_err_seq (pt_eos t) =? next_ack_seq (pt_eos t)); reflexivity.
Qed.

Lemma result_success_spec t batch presult rq m0 x :
  in_flight t batch -> idempotent conf = true -> order conf = RD_KAFKA_QUEUE_FIFO ->
  head (rkmq_msgs (rkmb_msgq batch)) = Some m0 -> list.last (rkmq_msgs (rkmb_msgq batch)) = Some x ->
  1 <= rkm_msgid m0 < 2 ^ 64 ->
  let msgs := rkmq_msgs (rkmb_msgq batch) in
  exists t' batch' acked,
    rd_kafka_msgbatch_handle_Produce_result conf env t batch 0 presult (Some rq) = Some (t', batch') /\
    acked ≡ₚ map (fun m => msg_set_status m (acked_status conf)) (implied t (rkm_msgid m0) (rkm_msgid x)) /\
    sorted (cmp conf) acked /\ held t' ≡ₚ remaining t (rkm_msgid m0) (rkm_msgid x) /\
    pt_out t' = pt_out t ++ dr_events conf 0 acked ++ dr_events conf 0
      (set_metadata_loop msgs (nodeid env) (pr_offset presult) (pr_timestamp presult) (acked_status conf)) /\
    pt_eos t' = success_eos t batch (rkm_msgid m0) (rkm_msgid x)
                  (rd_kafka_seq_wrap (i32 (rkmb_first_seq batch + zlen msgs))) /\
    (unexpected t batch (rkm_msgid m0) = true -> rk_fatal_err (pt_rk t') <> 0).
Proof.
  intros [Hq Hx Hh [Hb Mb] Hl Hn Htp Htx] Hi Ho Hhead Hlast Hid msgs.
  unfold rd_kafka_msgbatch_handle_Produce_result. rewrite queue_len by (apply Hb || apply Mb). fold msgs.
  fold msgs in Hn. rewrite Z.geb_leb. replace (zlen msgs <=? pt_msgs_inflight t) with true by lia. cbn [rd_assert].
  rewrite (swrap_small 32 (pt_msgs_inflight t - _)) by (unfold in_i; lia). set (t1 := set_pt_msgs_inflight t _).
  rewrite Z.eqb_refl, Hi. set (ns := rd_kafka_seq_wrap _).
  destruct (success_acks t1 batch ns m0 x Ho Hx Hq Hh Hhead Hlast Hid)
    as (t2 & acked & E2 & Pa & Sa & Ph & Eo & Ee & Ef).
  destruct (success_spec t1 batch ns Hx Hq Hh) as (t2' & E2' & K2 & _).
  { unfold rd_kafka_msgq_first in Hhead. intros E. now rewrite E in Hhead. }
  rewrite E2 in E2'. injection E2' as <-. rewrite E2.
  rewrite queue_len by (apply Hb || apply Mb). fold msgs.
  assert ((zlen msgs >? 0) = true) as ->.
  { subst msgs. destruct (rkmq_msgs (rkmb_msgq batch)); [discriminate | reflexivity]. }
  set (mq := rd_kafka_msgq_set_metadata _ _ _ _ _).
  assert (map core (rkmq_msgs mq) = map core (rkmq_msgs (rkmb_msgq batch))) as Em by apply metadata_core.
  destruct (requeue conf _ (rkmq_msgs mq) Em Hb) as [[Cm _] Hsm]. specialize (Hsm Mb).
  change (counted mq) in Cm. destruct Hsm as [Lm _]. cbn [rkmq_msgs] in Lm.
  destruct (dr_msgq_spec conf t2 mq 0 Cm Lm) as (t3 & q3 & -> & _ & [D1 D2 D3 _ D5 D6]).
  assert (exists t4, ((if true && (pt_msgs_inflight t - zlen msgs =? 0) then
      let* rk := rd_kafka_idemp_inflight_toppar_sub (pt_rk t3) in Some (set_pt_rk t3 rk) else Some t3) = Some t4) /\ held t4 = held t2 /\ pt_out t4 = pt_out t3 /\ pt_eos t4 = pt_eos t2 /\
      (rk_fatal_err (pt_rk t2) <> 0 -> rk_fatal_err (pt_rk t4) <> 0)) as (t4 & -> & E4 & O4 & S4 & F4).
  { cbn [andb]. destruct (_ =? 0).
    - destruct (inflight_toppar_sub_returns (pt_rk t3)) as (rk4 & Ek4 & _).
      { rewrite (kt_cnt _ _ D6), (kt_cnt _ _ K2). auto. }
      rewrite Ek4. exists (set_pt_rk t3 rk4). unfold held. cbn. rewrite D2, D3. split_and!; [done.. |].
      intros F2. pose proof (kp_fatal _ _ _ (eos_step_keeps false _ IInflightSub _ I ltac:(discriminate) Ek4)) as F3.
      rewrite F3; rewrite (kt_fatal _ _ D6 F2); exact F2.
    - exists t3. unfold held. rewrite D2, D3. split_and!; [done.. |].
      intros F2. now rewrite (kt_fatal _ _ D6 F2). }
  do 2 eexists. exists acked. split; [reflexivity |]. split; [exact Pa |]. split; [exact Sa |].
  split; [rewrite E4; exact Ph |]. split; [now rewrite O4, D1, Eo, <- app_assoc |].
  split; [now rewrite S4, Ee | intros Hu; now apply F4, Ef].
Qed.

End Results.

(** ** Sequence numbers that wrap *)

(** Two requests of ten messages in flight, the sequence numbers wrapping between them.
    The first fails; that the second then fails too counts as a rewound sequence and is
    a fatal error, where it would be put back anywhere else in the sequence. *)
Lemma sequence_wrap_is_fatal t batch perr :
  pe_next_ack_seq perr = 2 ^ 31 - 8 -> pe_err perr = ERR_OUT_OF_ORDER_SEQUENCE_NUMBER ->
  rkmb_first_seq batch = rd_kafka_seq_wrap (i32 (pe_next_ack_seq perr + 10)) ->
  exists t' perr', handle_out_of_order_sequence t batch perr = Some (t', perr') /\
    pe_actions perr' = ACTION_PERMANENT /\
    rd_kafka_idemp_set_fatal_error (pt_rk t) ERR_OUT_OF_ORDER_SEQUENCE_NUMBER = Some (pt_rk t').
Proof.
  intros E Ee Hf. unfold handle_out_of_order_sequence. rewrite Hf, E, Ee.
  change (rd_kafka_seq_wrap (i32 (2 ^ 31 - 8 + 10))) with 2.
  change (i32 (2 - (2 ^ 31 - 8)) =? 0) with false. change (i32 (2 - (2 ^ 31 - 8)) >? 0) with false. cbv iota.
  destruct (idemp_set_fatal_returns (pt_rk t) ERR_OUT_OF_ORDER_SEQUENCE_NUMBER) as (rk' & E' & _); [discriminate |].
  rewrite E'. do 2 eexists. auto.
Qed.

(** ** The properties *)

(** C6. Whatever ends a Produce request, an error or a response of any bytes, whole, cut
    off or damaged, its handler fails no assertion and leaves the batch empty: each message
    of the batch and of the partition is then, once and with its content unchanged, in one
    of the partition's queues or in a new delivery report.  The queues stay in order with
    their counters, and the messages in flight go down by those of the batch.  Messages
    are only put back to be sent again; an idempotent producer does so only while the
    partition has the producer id of the batch, and then drains the partition first. *)
Theorem handle_Produce_keeps_messages conf env t err reply rq batch :
  in_flight conf t batch -> any_reply reply ->
  exists t' batch',
    rd_kafka_handle_Produce conf env t err reply rq batch = Some (t', batch') /\
    rkmq_msgs (rkmb_msgq batch') = [] /\ accounts t (rkmq_msgs (rkmb_msgq batch)) t' [] /\
    fate conf env t batch t' /\ result_done conf t t' (zlen (rkmq_msgs (rkmb_msgq batch))).
Proof. apply handle_Produce_spec. Qed.

(** An idempotent producer with the messages 1 and 2 in flight and 5 in the queue. *)
Definition ex_rconf : resp_conf := mk_rconf true false (-1) 100 10 RD_KAFKA_QUEUE_FIFO true false None.
Definition ex_env : penv := mk_penv 1 false 5000000.
Definition ex_rk : rd_kafka :=
  mk_rk false 0 0 IDEMP_ASSIGNED (mk_pid 5 0) 0 1 false 0 TXN_INIT None false false false
    (mk_api "" 0 None) None 0 false [] [] [] ∅ 0 0 0 [].
Definition ex_prod : prod :=
  mk_prod ex_rk (demo_q [5]) (demo_q []) 2 (mk_teos (mk_pid 5 0) 0 1 0 0 false) (mk_tperr 0 0 0 0 0 0) false [].
Definition ex_batch : rd_kafka_msgbatch :=
  mk_batch (mk_msgq (map (fun m => msg_set_last_msgid m 0) (map demo_msg [1; 2])) 2 3 no_wakeup)
    (mk_pid 5 0) 0 1 1 0.

Lemma ex_in_flight : in_flight ex_rconf ex_prod ex_batch.
Proof.
  constructor.
  - split; [split; [split; reflexivity | repeat constructor] | split; reflexivity].
  - split; [split; [split; reflexivity | constructor] | split; reflexivity].
  - reflexivity.
  - split; [split; [split; reflexivity |] | split; reflexivity]. repeat constructor; vm_compute; discriminate.
  - do 3 eexists. split; [reflexivity |]. split; [reflexivity | now left].
  - cbn. lia.
  - cbn. lia.
  - discriminate.
Qed.

Theorem handle_Produce_keeps_messages_witness :
  exists t' batch',
    rd_kafka_handle_Produce ex_rconf ex_env ex_prod ERR__TIMED_OUT None (mk_rqi 0 7 true) ex_batch =
      Some (t', batch') /\
    map rkm_msgid (held t') = [1; 2; 5] /\ pt_out t' = [] /\
    accounts ex_prod (rkmq_msgs (rkmb_msgq ex_batch)) t' [].
Proof.
  destruct (handle_Produce_keeps_messages ex_rconf ex_env ex_prod ERR__TIMED_OUT None (mk_rqi 0 7 true)
    ex_batch ex_in_flight I) as (t' & b' & E & _ & A & _).
  assert (map rkm_msgid (held t') = [1; 2; 5] /\ pt_out t' = []) as [H1 H2].
  { clear A. vm_compute in E. injection E as <- _. split; reflexivity. }
  exists t', b'. split; [exact E |]. split; [exact H1 |]. split; [exact H2 | exact A].
Defined.

(** C28. A successful Produce of an idempotent producer whose queues are in FIFO order, when
    the partition is as [in_flight] says (queues sorted, fewer than 2^31 messages, the batch
    counted as in flight, a transaction state from which errors can be raised) and its first
    message has an id: its messages are reported with the offsets and timestamp of the response; when messages
    before them are not acknowledged yet, all the messages of the partition up to the last
    of the batch are first reported, in order and with the same status, and leave the
    queues, and no other message does.  The highest acknowledged id never goes down, and the
    next sequence number to be acknowledged is the one behind the batch, unless a failure was
    expected at this place: then it stays, the next one expected to fail is moved on, and
    a fatal error is raised. *)
Theorem successful_Produce_acknowledges conf env t batch presult rq m0 x :
  in_flight conf t batch -> idempotent conf = true -> order conf = RD_KAFKA_QUEUE_FIFO ->
  head (rkmq_msgs (rkmb_msgq batch)) = Some m0 -> list.last (rkmq_msgs (rkmb_msgq batch)) = Some x ->
  1 <= rkm_msgid m0 < 2 ^ 64 ->
  exists t' batch' acked,
    rd_kafka_msgbatch_handle_Produce_result conf env t batch 0 presult (Some rq) = Some (t', batch') /\
    acked ≡ₚ map (fun m => msg_set_status m (acked_status conf)) (implied t (rkm_msgid m0) (rkm_msgid x)) /\
    sorted (cmp conf) acked /\ held t' ≡ₚ remaining t (rkm_msgid m0) (rkm_msgid x) /\
    pt_out t' = pt_out t ++ dr_events conf 0 acked ++ dr_events conf 0
      (set_metadata_loop (rkmq_msgs (rkmb_msgq batch)) (nodeid env) (pr_offset presult) (pr_timestamp presult)
         (acked_status conf)) /\
    pt_eos t' = success_eos t batch (rkm_msgid m0) (rkm_msgid x)
                  (rd_kafka_seq_wrap (i32 (rkmb_first_seq batch + zlen (rkmq_msgs (rkmb_msgq batch))))) /\
    (unexpected t batch (rkm_msgid m0) = true -> rk_fatal_err (pt_rk t') <> 0).
Proof. apply result_success_spec. Qed.

(** The messages 3 and 4 succeed while 1, 2 and 5 are still to be sent. *)
Definition ex_prod_lost : prod :=
  mk_prod ex_rk (demo_q [2; 5]) (demo_q [1]) 2 (mk_teos (mk_pid 5 0) 0 1 0 0 false) (mk_tperr 0 0 0 0 0 0) false [].
Definition ex_batch_late : rd_kafka_msgbatch :=
  mk_batch (mk_msgq (map demo_msg [3; 4]) 2 7 no_wakeup) (mk_pid 5 0) 2 3 1 0.

Lemma ex_in_flight_late : in_flight ex_rconf ex_prod_lost ex_batch_late.
Proof.
  assert (forall m l, Forall (fun x => rkm_msgid m <= rkm_msgid x) l -> sorted (cmp ex_rconf) l ->
    sorted (cmp ex_rconf) (m :: l)) as Hs.
  { intros m l H1 H2. constructor; [assumption |]. eapply list.Forall_impl; [exact H1 |]. cbn. lia. }
  constructor.
  - split; [split; [split; reflexivity |] | split; reflexivity].
    apply Hs; [repeat constructor; cbn; lia |]. apply Hs; constructor.
  - split; [split; [split; reflexivity |] | split; reflexivity]. apply Hs; constructor.
  - reflexivity.
  - split; [split; [split; reflexivity |] | split; reflexivity].
    apply Hs; [repeat constructor; cbn; lia |]. apply Hs; constructor.
  - do 3 eexists. split; [reflexivity |]. split; [reflexivity | now left].
  - cbn. lia.
  - cbn. lia.
  - discriminate.
Qed.

Theorem successful_Produce_acknowledges_witness :
  exists t' batch',
    rd_kafka_msgbatch_handle_Produce_result ex_rconf ex_env ex_prod_lost ex_batch_late 0 (mk_pres 40 (-1))
      (Some (mk_rqi 0 7 true)) = Some (t', batch') /\
    map rkm_msgid (held t') = [5] /\ map rkm_msgid (reported (pt_out t')) = [1; 2; 3; 4] /\
    map rkm_offset (reported (pt_out t')) = [0; 0; 40; 41] /\
    pt_eos t' = acked_eos (pt_eos ex_prod_lost) 4 4.
Proof.
  destruct (successful_Produce_acknowledges ex_rconf ex_env ex_prod_lost ex_batch_late (mk_pres 40 (-1))
    (mk_rqi 0 7 true) (demo_msg 3) (demo_msg 4) ex_in_flight_late eq_refl eq_refl eq_refl eq_refl
    ltac:(cbn; lia)) as (t' & b' & acked & E & _ & _ & _ & _ & Ee & _).
  exists t', b'. split; [exact E |]. split; [vm_compute in E; injection E as <- _; reflexivity |].
  split; [vm_compute in E; injection E as <- _; reflexivity |].
  split; [vm_compute in E; injection E as <- _; reflexivity | exact Ee].
Defined.
