(* ===== verification/Retry.v ===== *)
(** * A retried batch is the same batch

    From the writer (MsgWriter) over an error (Produce) back to the writer: the batch of an
    idempotent producer that goes back to the queue is sent again as it was, so that the
    broker can tell the second from the first. *)

From Stdlib Require Import Sorted.
From stdpp Require Import gmap strings sorting.
From S2P Require Import Prelude Header Msgq MsgqFacts Producer EosState Eos EosTotal.
From S2P Require Import RdBuf RdBufFacts Slice KafkaBuf RecordBatch ReadFacts MsgWriter MsgWriterFacts MsgWriterProps.
From S2P Require Import Produce ProduceFacts ProduceProps.

(** ** Queues ordered by id *)

Definition by_id (l : list rd_kafka_msg) : Prop := StronglySorted (fun a b => rkm_msgid a <= rkm_msgid b) l.

Lemma cmp_by_id conf l : order conf = RD_KAFKA_QUEUE_FIFO -> sorted (cmp conf) l <-> by_id l.
Proof. destruct conf. cbn. intros ->. reflexivity. Qed.

Lemma strategy_by_id s l : s = RD_KAFKA_QUEUE_FIFO -> sorted (msg_order_cmp s) l <-> by_id l.
Proof. intros ->. reflexivity. Qed.

Lemma by_id_filter (P : rd_kafka_msg -> Prop) `{!forall m, Decision (P m)} l : by_id l -> by_id (filter P l).
Proof. exact (sorted_filter rd_kafka_msg_cmp_msgid P l). Qed.

(** A queue in order of ids is split by any id. *)
Lemma by_id_split k l :
  by_id l -> l = filter (fun m => rkm_msgid m <= k) l ++ filter (fun m => ~ rkm_msgid m <= k) l.
Proof.
  induction 1 as [| m l Hs IH Hm]; [reflexivity |]. rewrite !filter_cons.
  destruct (decide (rkm_msgid m <= k)).
  - rewrite (decide_False (P := ~ _)) by tauto. cbn [app]. now f_equal.
  - rewrite decide_True by assumption.
    assert (Forall (fun x => ~ rkm_msgid x <= k) l) as Hl
      by (eapply list.Forall_impl; [exact Hm |]; cbn; lia).
    rewrite filter_none by exact Hl. cbn [app]. f_equal. symmetry. now apply filter_all.
Qed.

(** Messages with ids below all others are at the head. *)
Lemma by_id_head l a x k :
  by_id l -> by_id a -> NoDup (map rkm_msgid a) -> l ≡ₚ a ++ x ->
  Forall (fun m => rkm_msgid m <= k) a -> Forall (fun m => k < rkm_msgid m) x ->
  exists others, l = a ++ others /\ others ≡ₚ x.
Proof.
  intros Hl Ha Hnd Hp Hka Hkx.
  assert (filter (fun m => rkm_msgid m <= k) l ≡ₚ a) as Ea.
  { rewrite Hp, list.filter_app. rewrite (filter_all _ a) by assumption.
    rewrite (filter_none _ x); [now rewrite app_nil_r |].
    eapply list.Forall_impl; [exact Hkx |]. cbn. lia. }
  assert (filter (fun m => rkm_msgid m <= k) l = a) as Ea'.
  { eapply StronglySorted_unique_strong; [| apply by_id_filter; exact Hl | exact Ha | exact Ea].
    cbn. intros x1 x2 H1 H2 L1 L2. rewrite Ea in H1.
    apply list_elem_of_lookup in H1 as [i Hi], H2 as [j Hj].
    assert (i = j) as ->; [| congruence].
    eapply (NoDup_lookup (map rkm_msgid a)); [exact Hnd | |];
      rewrite list_lookup_fmap, ?Hi, ?Hj; cbn; [reflexivity | f_equal; lia]. }
  pose proof (by_id_split k l Hl) as Es. rewrite Ea' in Es.
  eexists. split; [exact Es |]. rewrite Es in Hp. now apply Permutation_app_inv_l in Hp.
Qed.

(** ** What is sent of a message *)

(** A message without its delivery state. *)
Definition norm (m : rd_kafka_msg) : rd_kafka_msg :=
  msg_set_last_msgid (msg_set_status (msg_set_retry m 0 0) RD_KAFKA_MSG_STATUS_NOT_PERSISTED) 0.

Lemma norm_bytes ver ts l : forall off, msgs_bytes ver ts off (map norm l) = msgs_bytes ver ts off l.
Proof.
  induction l as [| m l IH]; intros off; [reflexivity |]. cbn [map msgs_bytes]. rewrite IH. f_equal.
Qed.

Lemma norm_timestamp l : max_timestamp (map norm l) = max_timestamp l.
Proof.
  unfold max_timestamp. generalize 0. induction l as [| m l IH]; intros a; [reflexivity |]. cbn [map foldl]. apply IH.
Qed.

Lemma norm_resent i bo st l : map norm (map (retried i bo st) (with_last l)) = map norm l.
Proof.
  rewrite map_map. unfold with_last. destruct l as [| m l]; [reflexivity |].
  destruct (list.last (m :: l)); apply map_ext || (cbn [map]; f_equal; apply map_ext); reflexivity.
Qed.

Lemma norm_same_bytes ver ts off l l' : map norm l = map norm l' -> msgs_bytes ver ts off l = msgs_bytes ver ts off l'.
Proof. intros E. now rewrite <- (norm_bytes ver ts l), E, norm_bytes. Qed.

Lemma norm_same_request codec conf rktp v pid seq ts l l' :
  map norm l = map norm l' ->
  request_bytes codec conf rktp v pid seq ts l = request_bytes codec conf rktp v pid seq ts l'.
Proof.
  intros E. unfold request_bytes, encoded. rewrite (norm_same_bytes _ _ _ _ _ E).
  rewrite <- (norm_timestamp l), E, norm_timestamp.
  assert (zlen l = zlen l') as -> by (apply (f_equal length) in E; rewrite !length_map in E; lia).
  reflexivity.
Qed.

Lemma norm_fits conf m : msg_fits conf m <-> msg_fits conf (norm m).
Proof.
  unfold msg_fits. change (msg_hdr_size (norm m)) with (msg_hdr_size m).
  change (rkm_len (norm m)) with (rkm_len m). change (rkm_key_len (norm m)) with (rkm_key_len m).
  split; intros [[] H]; (split; [constructor; assumption | assumption]).
Qed.

Lemma Forall_norm (P : rd_kafka_msg -> Prop) l l' :
  (forall m, P m <-> P (norm m)) -> map norm l = map norm l' -> Forall P l -> Forall P l'.
Proof.
  intros HP E H. revert l' E. induction H as [| m l Hm _ IH]; intros [| m' l'] E; try discriminate; [constructor |].
  apply map_cons_eq in E as [E1 E2]. constructor; [| now apply IH].
  apply (proj2 (HP m')). rewrite <- E1. now apply (proj1 (HP m)).
Qed.

(** ** Building the batch again *)

Section Rebuild.
Context (junk : Z -> Z) (codec : Z -> Z -> bytes -> option bytes) (addr : nat -> Z).
Context (Hcodec : forall c v d z, codec c v d = Some z -> Forall is_byte z).
Context (conf : produce_conf) (rktp : produce_toppar) (Hconf : conf_ok conf rktp).
Context (Hcomp : 0 <= compression_codec conf <= 3).
Context (rkb : rd_kafka_broker) (v : msgset_version).
Context (Hv : rd_kafka_msgset_writer_select_MsgVersion rkb (compression_codec conf) = Some v).
Context (pid : rd_kafka_pid) (Hpid : rd_kafka_pid_valid pid = true) (base : Z).

(** A prefix [b'] of the queue that is the batch [b] once sent, marked as such. *)
Lemma rebuild b0 b b' others q now0 now m1 x :
  b' <> [] -> map norm b' = map norm b ->
  batch_within conf (msetw_MsgVersion v) (header_len conf rktp v pid) (rkm_timestamp m1) b0 b ->
  zlen b <= batch_num_messages conf ->
  head b' = Some m1 -> list.last b' = Some x -> rkm_last_msgid m1 = rkm_msgid x -> rkm_msgid x <> 0 ->
  Forall (fun m => rkm_msgid m <= rkm_msgid x) b' -> Forall (fun m => rkm_msgid x < rkm_msgid m) others ->
  Forall (fun m => rkm_ts_backoff m <= now) b' ->
  xmit_ok conf q -> sorted (msg_order_cmp (strategy conf)) (rkmq_msgs q) -> rkmq_msgs q = b' ++ others ->
  exists q' req,
    rd_kafka_msgset_create_ProduceRequest junk codec addr conf rkb rktp q pid base now0 now =
      Some (q', Some req, false) /\
    rkmq_msgs q' = others /\
    request_for codec conf rktp v (first_batch pid base m1) pid (rkm_timestamp m1) b' req.
Proof.
  intros Hne Enorm [_ Hroom] Hnum Hhead Hlast Hmark Hx Hle Hothers Hback Hq Hs Eq.
  destruct b' as [| m1' b'']; [congruence |]. injection Hhead as ->. set (b' := m1 :: b'') in *.
  destruct (create_spec junk codec addr Hcodec conf rktp Hconf rkb q pid base now0 now v m1 (b'' ++ others)
    Hcomp Hv Hq Hs Eq) as (q' & r & taken & rest & E & Esp & _ & Hnt & Hends & [Hin _] & Hr).
  assert (rkmb_last_msgid (first_batch pid base m1) = rkm_msgid x) as Elast
    by (unfold first_batch; now rewrite Hpid).
  rewrite Elast in Hin. specialize (Hin Hx).
  assert (taken = b' /\ rest = others) as [-> ->].
  { rewrite Eq in Esp. apply app_eq_inv in Esp as [(c & -> & ->) | (c & E1 & E2)].
    - destruct c as [| m c]; [now rewrite app_nil_r |]. exfalso.
      specialize (Hends m eq_refl). unfold batch_ends in Hends. rewrite Elast in Hends.
      apply Forall_app in Hle as [_ Hle]. apply Forall_cons_iff in Hle as [Hm _].
      apply Forall_app in Hback as [_ Hback]. apply Forall_cons_iff in Hback as [Hbm _].
      assert (zlen b = zlen (taken ++ m :: c)) as Eb
        by (apply (f_equal length) in Enorm; rewrite !length_map in Enorm; lia).
      rewrite Eq, !length_app in Hends. rewrite length_app in Eb. cbn [length] in Eb, Hends.
      destruct Hends as [[_ H] | [H | [[Hn H] | H]]]; [lia | lia | | lia].
      symmetry in Enorm. rewrite map_app in Enorm. cbn [map] in Enorm.
      apply map_eq_app in Enorm as (b1 & b2 & -> & E1 & E2). destruct b2 as [| m' b2]; [discriminate |].
      apply map_cons_eq in E2 as [Em _].
      assert (b1 <> []) as Hn1 by (intros ->; apply (f_equal length) in E1; rewrite !length_map in E1; destruct taken; [congruence | discriminate]).
      specialize (Hroom b1 m' b2 eq_refl Hn1). rewrite (norm_same_bytes _ _ _ _ _ E1) in Hroom.
      change (rd_kafka_msg_wire_size m') with (rd_kafka_msg_wire_size (norm m')) in Hroom.
      rewrite Em in Hroom. change (rd_kafka_msg_wire_size (norm m)) with (rd_kafka_msg_wire_size m) in Hroom. lia.
    - destruct c as [| m c]; [rewrite app_nil_r in E1; auto |]. exfalso. subst taken others.
      apply Forall_app in Hin as [_ Hin]. apply Forall_cons_iff in Hin as [Hin _].
      apply Forall_cons_iff in Hothers as [Ho _]. lia. }
  assert (inconsistent (first_batch pid base m1) b' = false) as Einc.
  { unfold inconsistent. rewrite Hlast, Elast, Z.eqb_refl. apply andb_false_r. }
  rewrite Einc in E, Hr. destruct Hr as [Eq' Hr].
  destruct r as [req |]; [| discriminate]. exists q', req. destruct Hr as [_ Hr]. auto.
Qed.

End Rebuild.

(** ** From the error to the next request *)

Lemma map_id_resent i bo st l : map rkm_msgid (map (retried i bo st) (with_last l)) = map rkm_msgid l.
Proof.
  pose proof (f_equal (map rkm_msgid) (norm_resent i bo st l)) as E. rewrite !map_map in E. rewrite map_map. exact E.
Qed.

(** In a queue in order of ids none is above the last. *)
Lemma by_id_last l x : by_id l -> list.last l = Some x -> Forall (fun m => rkm_msgid m <= rkm_msgid x) l.
Proof.
  intros Hs Hl. destruct l as [| y l _] using rev_ind; [discriminate |].
  rewrite list.last_snoc in Hl. injection Hl as ->.
  apply StronglySorted_app in Hs as (H & _ & _). apply Forall_app. split; [| repeat constructor; lia].
  apply list.Forall_forall. intros m Hm. apply (H m x Hm). left.
Qed.

Lemma by_id_ids l l' : map rkm_msgid l = map rkm_msgid l' -> by_id l -> by_id l'.
Proof.
  intros E Hs. revert l' E. induction Hs as [| m l Hs IH Hm]; intros [| m' l'] E; try discriminate; [constructor |].
  apply map_cons_eq in E as [E1 E2]. constructor; [now apply IH |].
  rewrite <- E1. clear - Hm E2. revert l' E2.
  induction Hm as [| y l Hy _ IH]; intros [| y' l'] E; try discriminate; constructor;
    apply map_cons_eq in E as [E1 E2]; [lia | now apply IH].
Qed.

Lemma filter_length_all {A} (P : A -> Prop) `{!forall x, Decision (P x)} l :
  (length l <= length (filter P l))%nat -> filter P l = l.
Proof.
  induction l as [| x l IH]; [reflexivity |]. rewrite filter_cons. cbn [length].
  destruct (decide (P x)); cbn [length]; intros Hle; [f_equal; apply IH; lia |].
  pose proof (length_filter P l). lia.
Qed.

Section Resend.
Context (junk : Z -> Z) (codec : Z -> Z -> bytes -> option bytes) (addr : nat -> Z).
Context (conf : produce_conf) (rktp : produce_toppar) (rkb : rd_kafka_broker) (v : msgset_version).
Context (pid : rd_kafka_pid) (base : Z) (rconf : resp_conf).

Abbreviation create q := (rd_kafka_msgset_create_ProduceRequest junk codec addr conf rkb rktp q pid base).

(** A producer that is idempotent, with its settings. *)
Record idempotent_setup : Prop := {
  is_codec : forall c v d z, codec c v d = Some z -> Forall is_byte z;
  is_conf : conf_ok conf rktp /\ 0 <= compression_codec conf <= 3;
  is_version : rd_kafka_msgset_writer_select_MsgVersion rkb (compression_codec conf) = Some v;
  is_pid : rd_kafka_pid_valid pid = true;
  is_order : strategy conf = RD_KAFKA_QUEUE_FIFO /\ order rconf = RD_KAFKA_QUEUE_FIFO;
  is_idempotent : idempotent rconf = true }.

(** The queue a request is made from, in order of the ids the partition hands out. *)
Definition xmit_ids (q : rd_kafka_msgq) : Prop :=
  xmit_ok conf q /\ by_id (rkmq_msgs q) /\ NoDup (map rkm_msgid (rkmq_msgs q)) /\
  Forall (fun m => 0 < rkm_msgid m) (rkmq_msgs q).

(** All the partition holds is behind the batch and may be sent with it. *)
Record behind (t : prod) (b : list rd_kafka_msg) : Prop := {
  bh_ids : Forall (fun m => Forall (fun y => rkm_msgid m < rkm_msgid y) (held t)) b;
  bh_fits : Forall (msg_fits conf) (held t) /\ Forall octets (held t);
  bh_small : zlen (held t ++ b) < 2 ^ 31 /\ sum_bytes (held t ++ b) < 2 ^ 63 }.

(** The first transmission: the batch is a prefix of the queue. *)
Lemma first_sent q0 q1 req now0 now m0 rest0 :
  idempotent_setup -> xmit_ids q0 -> rkmq_msgs q0 = m0 :: rest0 ->
  create q0 now0 now = Some (q1, Some req, false) ->
  let b := rkmq_msgs (rkmb_msgq (preq_batch req)) in
  b <> [] /\ request_for codec conf rktp v (first_batch pid base m0) pid (rkm_timestamp m0) b req /\
  batch_within conf (msetw_MsgVersion v) (header_len conf rktp v pid) (rkm_timestamp m0)
    (first_batch pid base m0) b /\ zlen b <= batch_num_messages conf /\
  exists rest, rkmq_msgs q0 = b ++ rest.
Proof.
  intros [Hc [H1 H2] Hv Hp [H3 _] _] (Hq & Hs & _ & _) Eq E.
  destruct (create_spec junk codec addr Hc conf rktp H1 rkb q0 pid base now0 now v m0 rest0 H2 Hv Hq
    ltac:(now apply strategy_by_id) Eq) as (q' & r & taken & rest & E' & Esp & _ & Hnt & _ & Hin & Hr).
  rewrite E in E'. injection E' as <- <- Einc. rewrite <- Einc in Hr. destruct Hr as (_ & Hne & Hr).
  cbv zeta. rewrite (rf_msgs _ _ _ _ _ _ _ _ _ Hr). eauto 10.
Qed.

(** A batch of which nothing was reported is all in the partition's queue. *)
Lemma all_put_back env t err reply rq batch t' b' evs :
  in_flight rconf t batch -> any_reply reply -> idempotent rconf = true ->
  rd_kafka_handle_Produce rconf env t err reply rq batch = Some (t', b') ->
  pt_out t' = pt_out t ++ evs -> reported evs = [] ->
  exists i st, let b := rkmq_msgs (rkmb_msgq batch) in
    rkmq_msgs (pt_msgq t') ≡ₚ
      rkmq_msgs (pt_msgq t) ++ map (retried i (backoff_time rconf env) st) (with_last b) /\
    pt_xmit_msgq t' = pt_xmit_msgq t /\ wait_drain (pt_eos t') = true /\
    rd_kafka_pid_eq (rkmb_pid batch) (te_pid (pt_eos t)) = true /\
    queue_ok rconf (pt_msgq t') /\ queue_ok rconf (pt_xmit_msgq t').
Proof.
  intros Hf Hr Hi E Eo Er.
  destruct (handle_Produce_spec rconf env t err reply rq batch Hf Hr)
    as (t1 & b1 & E1 & _ & (evs' & Eo' & P) & F & [D1 D2 _ _ _]).
  rewrite E in E1. injection E1 as <- <-. rewrite Eo in Eo'. apply app_inv_head in Eo' as <-.
  rewrite Er in P. apply Permutation_length in P. cbn [app] in P. rewrite app_nil_r, !length_map, length_app in P.
  set (b := rkmq_msgs (rkmb_msgq batch)) in *.
  assert (b <> []) as Hne by (destruct (if_last _ _ _ Hf) as (m & r & x & E1 & _); unfold b; rewrite E1; discriminate).
  destruct F as [(gone & F) | (i & st & Pm & Ex & Hw)].
  { apply Permutation_length in F. rewrite length_app in F. destruct b; [congruence | cbn [length] in P; lia]. }
  destruct (Hw Hi) as [Hw1 Hw2]. unfold marked in Pm. rewrite Hi in Pm. fold b in Pm.
  exists i, st. cbv zeta. split; [| auto 10]. rewrite Pm. unfold put_back.
  rewrite filter_length_all; [reflexivity |].
  assert (length (with_last b) = length b) as ->
    by (pose proof (f_equal length (with_last_core b)) as El; now rewrite !length_map in El).
  unfold held in P. rewrite !length_app, Ex in P. apply Permutation_length in Pm.
  unfold put_back in Pm. rewrite length_app, length_map in Pm. lia.
Qed.

End Resend.

(** The batch that is put back, at its ends. *)
Lemma resent_ends i bo st b m0 r x :
  b = m0 :: r -> list.last b = Some x ->
  let b' := map (retried i bo st) (with_last b) in
  exists m1 x', b' <> [] /\ head b' = Some m1 /\ rkm_timestamp m1 = rkm_timestamp m0 /\ rkm_msgid m1 = rkm_msgid m0 /\
    rkm_last_msgid m1 = rkm_msgid x /\ list.last b' = Some x' /\ rkm_msgid x' = rkm_msgid x.
Proof.
  intros E Hx. cbv zeta. pose proof (map_id_resent i bo st b) as Hids.
  apply (f_equal list.last) in Hids.
  change (list.last (rkm_msgid <$> map (retried i bo st) (with_last b)) = list.last (rkm_msgid <$> b)) in Hids.
  rewrite (list.fmap_last rkm_msgid (map _ _)), (list.fmap_last rkm_msgid b), Hx in Hids.
  destruct (list.last (map _ _)) as [x' |] eqn:Hx'; [| discriminate]. injection Hids as Ex'.
  subst b. unfold with_last in Hx' |- *. rewrite Hx in Hx' |- *. cbn [map] in Hx' |- *.
  do 2 eexists. split; [discriminate |]. split; [reflexivity |]. split; [reflexivity |]. split; [reflexivity |].
  split; [reflexivity |]. split; [reflexivity | exact Ex'].
Qed.

(** The partition's queues once what was put back, [bk], is merged with what is held. *)
Lemma merged_queue conf rconf t t' b bk q2 s2 x x' :
  strategy conf = RD_KAFKA_QUEUE_FIFO -> order rconf = RD_KAFKA_QUEUE_FIFO ->
  queue_ok rconf (pt_msgq t') -> queue_ok rconf (pt_xmit_msgq t') ->
  rkmq_msgs (pt_msgq t') ≡ₚ rkmq_msgs (pt_msgq t) ++ bk -> pt_xmit_msgq t' = pt_xmit_msgq t ->
  rd_kafka_msgq_insert_msgq (msg_order_cmp (order rconf)) (pt_xmit_msgq t') (pt_msgq t') = Some (q2, s2) ->
  behind conf t b -> map norm bk = map norm b -> by_id b -> NoDup (map rkm_msgid b) ->
  Forall (msg_fits conf) b -> Forall octets b ->
  list.last b = Some x -> list.last bk = Some x' -> rkm_msgid x' = rkm_msgid x ->
  exists others, rkmq_msgs q2 = bk ++ others /\ others ≡ₚ held t /\ xmit_ok conf q2 /\ by_id (rkmq_msgs q2) /\
    Forall (fun m => rkm_msgid m <= rkm_msgid x') bk /\ Forall (fun m => rkm_msgid x' < rkm_msgid m) others.
Proof.
  intros Ho1 Ho2 [Cm Sm] [Cx Sx] Pm Ex Ei [Hids [Hf1 Hf2] [Hn1 Hn2]] En Hsb Hnd Hbf Hbo Hx Hx' Ex'.
  pose proof (f_equal (map rkm_msgid) En) as Eids. rewrite !map_map in Eids.
  change (map rkm_msgid bk = map rkm_msgid b) in Eids.
  pose proof (f_equal (map core) En) as Ecore. rewrite !map_map in Ecore.
  change (map core bk = map core b) in Ecore.
  assert (by_id bk) as Hsbk by (eapply by_id_ids; [symmetry; exact Eids | exact Hsb]).
  destruct (insert_msgq_spec (cmp rconf) (pt_xmit_msgq t') (pt_msgq t') Sx Sm Cx Cm)
    as (q2' & s2' & Ei' & _ & S2 & P2 & C2 & _).
  unfold cmp in Ei'. rewrite Ei in Ei'. injection Ei' as <- <-.
  apply (cmp_by_id rconf) in S2; [| assumption].
  assert (rkmq_msgs q2 ≡ₚ bk ++ held t) as P.
  { rewrite P2, Pm, Ex. unfold held. solve_Permutation. }
  pose proof (by_id_last bk x' Hsbk Hx') as Hle.
  assert (Forall (fun m => rkm_msgid x' < rkm_msgid m) (held t)) as Hlt.
  { rewrite Ex'. apply (proj1 (list.Forall_forall _ _) Hids). eapply list.last_Some_elem_of. exact Hx. }
  destruct (by_id_head (rkmq_msgs q2) bk (held t) (rkm_msgid x') S2 Hsbk) as (others & Eq2 & Po);
    [now rewrite Eids | exact P | exact Hle | exact Hlt |].
  exists others. split; [exact Eq2 |]. split; [exact Po |]. split; [| split; [exact S2 |]; split; [exact Hle | now rewrite Po]].
  constructor; [assumption | | |].
  - unfold small. rewrite P. rewrite length_app, sum_bytes_app, (core_sum_bytes _ _ Ecore) in *.
    assert (length bk = length b) as -> by (apply (f_equal length) in Ecore; now rewrite !length_map in Ecore). lia.
  - rewrite P. apply Forall_app. split; [| assumption]. now apply (Forall_norm _ b); [apply norm_fits | |].
  - rewrite P. apply Forall_app. split; [| assumption]. now apply (Forall_norm _ b).
Qed.

(** C7. A batch that goes back to the queue is sent again as the same batch.  Take any batch
    of an idempotent producer and any response or error that makes no delivery report of
    it, with everything else in the partition behind it.  The partition still has its
    producer id and is being drained; and the first request made of the partition's queues
    once the backoff is over, with that id, has the same messages, sequence number and
    bytes as the first, whatever was added to the queue: the broker sees a duplicate, not
    new messages. *)
Theorem retried_batch_is_resent junk codec addr conf rktp rkb v pid base rconf env
  q0 q1 req now0 now m0 rest0 t err reply rq t' b' evs q2 s2 now0' now' :
  let create := rd_kafka_msgset_create_ProduceRequest junk codec addr conf rkb rktp in
  let b := rkmq_msgs (rkmb_msgq (preq_batch req)) in
  idempotent_setup codec conf rktp rkb v pid rconf ->
  xmit_ids conf q0 -> rkmq_msgs q0 = m0 :: rest0 -> create q0 pid base now0 now = Some (q1, Some req, false) ->
  in_flight rconf t (preq_batch req) -> behind conf t b -> any_reply reply ->
  rd_kafka_handle_Produce rconf env t err reply rq (preq_batch req) = Some (t', b') ->
  pt_out t' = pt_out t ++ evs -> reported evs = [] ->
  rd_kafka_msgq_insert_msgq (msg_order_cmp (order rconf)) (pt_xmit_msgq t') (pt_msgq t') = Some (q2, s2) ->
  backoff_time rconf env <= now' ->
  rd_kafka_pid_eq pid (te_pid (pt_eos t)) = true /\ wait_drain (pt_eos t') = true /\
  exists q3 req', create q2 pid base now0' now' = Some (q3, Some req', false) /\
    rd_buf_content (rkbuf_buf (preq_rkbuf req')) = rd_buf_content (rkbuf_buf (preq_rkbuf req)) /\
    rkmb_first_seq (preq_batch req') = rkmb_first_seq (preq_batch req) /\
    map norm (rkmq_msgs (rkmb_msgq (preq_batch req'))) = map norm b /\ rkmq_msgs q3 ≡ₚ held t.
Proof.
  intros create b Hset Hq0 Eq0 E Hf Hbh Hr Eh Eo Er Ei Hnow.
  destruct (first_sent junk codec addr conf rktp rkb v pid base rconf q0 q1 req now0 now m0 rest0 Hset Hq0 Eq0 E)
    as (Hne & Hreq & Hin & Hnum & rest & Epre). fold b in Hne, Hreq, Hin, Hnum, Epre |- *.
  destruct (all_put_back rconf env t err reply rq (preq_batch req) t' b' evs Hf Hr (is_idempotent _ _ _ _ _ _ _ Hset)
    Eh Eo Er) as (i & st & Pm & Ex & Hw & Hp & [Cm Sm] & [Cx Sx]). fold b in Pm.
  rewrite (rf_batch _ _ _ _ _ _ _ _ _ Hreq) in Hp. cbn [rkmb_pid] in Hp.
  split; [exact Hp |]. split; [exact Hw |].
  destruct Hset as [Hc [Hcf Hcm] Hv Hpid [Ho1 Ho2] Hi]. destruct Hq0 as (Hq0 & Hs0 & Hnd & Hpos).
  clearbody b. set (bk := map _ (with_last b)) in Pm. rewrite Epre in Eq0, Hs0, Hnd, Hpos.
  assert (exists r, b = m0 :: r) as [r Eb] by (destruct b; [congruence | injection Eq0 as -> _; eauto]).
  destruct (list.last b) as [x |] eqn:Hx; [| rewrite Eb in Hx; now apply list.last_None in Hx].
  destruct (resent_ends i (backoff_time rconf env) st b m0 r x Eb Hx)
    as (m1 & x' & Hne' & Hh & Ets & Eid & Elm & Hl & Ex'). fold bk in Hne', Hh, Hl.
  destruct Hq0 as [_ _ Hfit Hoct]. rewrite Epre in Hfit, Hoct.
  apply Forall_app in Hfit as [Hfit _]. apply Forall_app in Hoct as [Hoct _].
  rewrite map_app in Hnd. apply list.NoDup_app in Hnd as (Hnd & _).
  apply StronglySorted_app in Hs0 as (_ & Hsb & _). apply Forall_app in Hpos as [Hpos _].
  assert (map norm bk = map norm b) as En by apply norm_resent.
  destruct (merged_queue conf rconf t t' b bk q2 s2 x x' Ho1 Ho2 (conj Cm Sm) (conj Cx Sx) Pm Ex Ei Hbh En Hsb Hnd
    Hfit Hoct Hx Hl Ex') as (others & Eq2 & Po & Hq2 & S2 & Hle & Hlt).
  destruct (rebuild junk codec addr Hc conf rktp Hcf Hcm rkb v Hv pid Hpid base (first_batch pid base m0) b bk others q2
    now0' now' m1 x') as (q3 & req' & E3 & Eq3 & Hreq'); try assumption.
  - now rewrite Ets.
  - congruence.
  - rewrite Ex'. apply list.last_Some_elem_of in Hx. rewrite list.Forall_forall in Hpos. specialize (Hpos x Hx). lia.
  - unfold bk. apply List.Forall_map, list.Forall_true. intros m. cbn. exact Hnow.
  - now apply strategy_by_id.
  - exists q3, req'. split; [exact E3 |].
    rewrite (rf_wire _ _ _ _ _ _ _ _ _ Hreq'), (rf_wire _ _ _ _ _ _ _ _ _ Hreq).
    rewrite (rf_msgs _ _ _ _ _ _ _ _ _ Hreq'), (rf_batch _ _ _ _ _ _ _ _ _ Hreq'), (rf_batch _ _ _ _ _ _ _ _ _ Hreq).
    cbn [rkmb_first_seq]. assert (rkmb_first_seq (first_batch pid base m1) = rkmb_first_seq (first_batch pid base m0)) as ->
      by (unfold first_batch; rewrite Hpid; cbn; now rewrite Eid).
    rewrite Ets. split; [now apply norm_same_request |]. split; [reflexivity |].
    split; [exact En | now rewrite Eq3].
Qed.

(** The two messages of [ex_queue] are sent and time out, while a third is queued. *)
Definition ex_sent : rd_kafka_msgbatch := mk_batch (mk_msgq ex_msgs 2 5 no_wakeup) ex_pid 0 1 1 0.
Definition ex_third : rd_kafka_msg := ex_msg 3 1010 None None.
Definition ex_partition : prod :=
  mk_prod ex_rk (mk_msgq [ex_third] 1 2 no_wakeup) RD_KAFKA_MSGQ_INITIALIZER 2
    (mk_teos ex_pid 0 1 0 0 false) (mk_tperr 0 0 0 0 0 0) false [].
Abbreviation ex_create q now0 now := (rd_kafka_msgset_create_ProduceRequest (fun _ => 0) (fun _ _ _ => None)
  (fun _ => 0) ex_conf ex_rkb ex_rktp q ex_pid 1 now0 now).

Lemma ex_setup : idempotent_setup (fun _ _ _ => None) ex_conf ex_rktp ex_rkb ex_ver ex_pid ex_rconf.
Proof.
  constructor; try reflexivity.
  - discriminate.
  - split; [exact ex_conf_ok | cbn; lia].
  - split; reflexivity.
Qed.

Lemma ex_ids : xmit_ids ex_conf ex_queue.
Proof.
  split; [exact ex_queue_ok |]. split; [exact ex_queue_sorted |]. split.
  - cbn. repeat constructor; rewrite ?list.elem_of_cons, ?list.elem_of_nil; intuition discriminate.
  - repeat constructor; cbn; lia.
Qed.

Lemma ex_sent_in_flight req : preq_batch req = ex_sent -> in_flight ex_rconf ex_partition (preq_batch req).
Proof.
  intros ->. constructor.
  - split; [split; [split; reflexivity | repeat constructor] | split; reflexivity].
  - split; [split; [split; reflexivity | constructor] | split; reflexivity].
  - reflexivity.
  - split; [split; [split; reflexivity |] | split; reflexivity]. exact ex_queue_sorted.
  - do 3 eexists. split; [reflexivity |]. split; [reflexivity | now left].
  - cbn. lia.
  - cbn. lia.
  - discriminate.
Qed.

Lemma ex_behind : behind ex_conf ex_partition ex_msgs.
Proof.
  constructor.
  - repeat constructor; cbn; lia.
  - split; (constructor; [| constructor]).
    + split; [constructor; cbn; try lia; discriminate | cbn; lia].
    + unfold octets, is_byte; cbn; repeat split; repeat constructor; cbn; lia.
  - split; reflexivity.
Qed.

Theorem retried_batch_is_resent_witness :
  exists q1 req t' b' q2 s2 q3 req',
    ex_create ex_queue 0 50 = Some (q1, Some req, false) /\
    rd_kafka_handle_Produce ex_rconf ex_env ex_partition ERR__TIMED_OUT None (mk_rqi 0 7 true) (preq_batch req) =
      Some (t', b') /\
    rd_kafka_msgq_insert_msgq rd_kafka_msg_cmp_msgid (pt_xmit_msgq t') (pt_msgq t') = Some (q2, s2) /\
    map rkm_msgid (rkmq_msgs q2) = [1; 2; 3] /\
    ex_create q2 0 5100000 = Some (q3, Some req', false) /\
    rd_buf_content (rkbuf_buf (preq_rkbuf req')) = rd_buf_content (rkbuf_buf (preq_rkbuf req)).
Proof.
  assert (exists q1 req, ex_create ex_queue 0 50 = Some (q1, Some req, false) /\ preq_batch req = ex_sent)
    as (q1 & req & E1 & Eb).
  { vm_compute. do 2 eexists. split; reflexivity. }
  assert (exists t' b' q2 s2,
    rd_kafka_handle_Produce ex_rconf ex_env ex_partition ERR__TIMED_OUT None (mk_rqi 0 7 true) ex_sent = Some (t', b') /\
    rd_kafka_msgq_insert_msgq rd_kafka_msg_cmp_msgid (pt_xmit_msgq t') (pt_msgq t') = Some (q2, s2) /\
    map rkm_msgid (rkmq_msgs q2) = [1; 2; 3] /\ pt_out t' = [])
    as (t' & b' & q2 & s2 & E2 & E3 & E4 & E5).
  { do 4 eexists. split; [vm_compute; reflexivity |]. split; [vm_compute; reflexivity |]. split; reflexivity. }
  rewrite <- Eb in E2.
  destruct (retried_batch_is_resent (fun _ => 0) (fun _ _ _ => None) (fun _ => 0) ex_conf ex_rktp ex_rkb ex_ver ex_pid 1
    ex_rconf ex_env ex_queue q1 req 0 50 _ _ ex_partition ERR__TIMED_OUT None (mk_rqi 0 7 true) t' b' [] q2 s2 0 5100000
    ex_setup ex_ids eq_refl E1 (ex_sent_in_flight req Eb)) as (_ & _ & q3 & req' & E6 & E7 & _).
  - rewrite Eb. exact ex_behind.
  - exact I.
  - exact E2.
  - exact E5.
  - reflexivity.
  - exact E3.
  - discriminate.
  - exists q1, req, t', b', q2, s2, q3, req'. split; [exact E1 |]. split; [exact E2 |]. split; [exact E3 |].
    split; [exact E4 |]. split; [exact E6 | exact E7].
Defined.
