(* ===== verification/Bufq.v ===== *)
(** * The request queues of a broker (src/cbits/hs_rdkafka_broker.c, hs_rdkafka_buf.c)

    A request waits in [rkb_outbufs] to be written to the connection, in [rkb_waitresps]
    for its response, and after a failure that its callback wants to retry in
    [rkb_retrybufs].  The model is one broker thread: enqueueing, sending (in parts, as
    the transport takes them), responses, time-outs, purges and the loss of the connection.

    The transport is an argument of [rd_kafka_send], the clock is an argument, and what a
    request's callback does to the queues is the parameter [resp_cb]: whether it retries
    its request.  The requests it may enqueue besides are later operations.  What leaves
    the broker thread is appended to [rkb_log]. *)

From stdpp Require Import gmap strings.
From S2P Require Import Prelude EosState Eos MsgWriter.

(** ** Requests *)

(** [enum rd_kafka_broker_state_t], in its order. *)
Inductive broker_state : Type :=
| STATE_INIT | STATE_DOWN | STATE_TRY_CONNECT | STATE_CONNECT | STATE_SSL_HANDSHAKE
| STATE_AUTH_LEGACY | STATE_UP | STATE_UPDATE | STATE_APIVERSION_QUERY | STATE_AUTH_HANDSHAKE
| STATE_AUTH_REQ.

#[export] Instance broker_state_eq_dec : EqDecision broker_state.
Proof. solve_decision. Defined.

Definition state_num (s : broker_state) : Z :=
  match s with
  | STATE_INIT => 0 | STATE_DOWN => 1 | STATE_TRY_CONNECT => 2 | STATE_CONNECT => 3
  | STATE_SSL_HANDSHAKE => 4 | STATE_AUTH_LEGACY => 5 | STATE_UP => 6 | STATE_UPDATE => 7
  | STATE_APIVERSION_QUERY => 8 | STATE_AUTH_HANDSHAKE => 9 | STATE_AUTH_REQ => 10
  end.

Definition RD_KAFKA_FEATURE_APIVERSION : Z := 0x2.

Definition RD_KAFKAP_SaslHandshake : Z := 17.
Definition RD_KAFKAP_ApiVersion : Z := 18.

(** What stays the same of a request while it is in the queues.  [rq_id] is its address,
    [rq_replyq] whether it has a reply queue, [rq_rktp] the partition of a Produce
    request and [rq_msg_cnt] the length of its message queue. *)
Record request := mk_rq {
  rq_id : nat;
  rq_ApiKey : Z;
  rq_ApiVersion : Z;
  rq_features : Z;
  rq_prio : Z;
  rq_blocking : bool;
  rq_no_response : bool;
  rq_replyq : bool;
  rq_size : Z;
  rq_rel_timeout : Z;
  rq_abs_timeout : Z;
  rq_force_timeout : bool;
  rq_max_retries : Z;
  rq_rktp : nat;
  rq_msg_cnt : Z }.

(** [rd_kafka_buf_t] of a request.  [rb_of] is the offset of its reader, what of it is
    written. *)
Record reqbuf := mk_rb {
  rb_rq : request;
  rb_need_make : bool;
  rb_was_sent : bool;
  rb_of : Z;
  rb_corrid : Z;
  rb_connid : Z;
  rb_ts_enq : Z;
  rb_ts_sent : Z;
  rb_ts_timeout : Z;
  rb_ts_retry : Z;
  rb_retries : Z }.

(** A new request. *)
Definition new_buf (rq : request) (need_make : bool) : reqbuf := mk_rb rq need_make false 0 0 0 0 0 0 0 0.

Definition rq_set_made (rq : request) ApiVersion features size := mk_rq (rq_id rq) (rq_ApiKey rq) ApiVersion
  features (rq_prio rq) (rq_blocking rq) (rq_no_response rq) (rq_replyq rq) size (rq_rel_timeout rq)
  (rq_abs_timeout rq) (rq_force_timeout rq) (rq_max_retries rq) (rq_rktp rq) (rq_msg_cnt rq).

Definition rb_id (rb : reqbuf) : nat := rq_id (rb_rq rb).

Definition rb_set_made (rb : reqbuf) rq := mk_rb rq false (rb_was_sent rb) (rb_of rb) (rb_corrid rb)
  (rb_connid rb) (rb_ts_enq rb) (rb_ts_sent rb) (rb_ts_timeout rb) (rb_ts_retry rb) (rb_retries rb).
Definition rb_set_of (rb : reqbuf) v := mk_rb (rb_rq rb) (rb_need_make rb) (rb_was_sent rb) v (rb_corrid rb)
  (rb_connid rb) (rb_ts_enq rb) (rb_ts_sent rb) (rb_ts_timeout rb) (rb_ts_retry rb) (rb_retries rb).
Definition rb_set_corrid (rb : reqbuf) corrid connid := mk_rb (rb_rq rb) (rb_need_make rb) (rb_was_sent rb)
  (rb_of rb) corrid connid (rb_ts_enq rb) (rb_ts_sent rb) (rb_ts_timeout rb) (rb_ts_retry rb) (rb_retries rb).
Definition rb_set_sent (rb : reqbuf) sent ts := mk_rb (rb_rq rb) (rb_need_make rb) sent (rb_of rb)
  (rb_corrid rb) (rb_connid rb) (rb_ts_enq rb) ts (rb_ts_timeout rb) (rb_ts_retry rb) (rb_retries rb).
Definition rb_set_ts_timeout (rb : reqbuf) v := mk_rb (rb_rq rb) (rb_need_make rb) (rb_was_sent rb) (rb_of rb)
  (rb_corrid rb) (rb_connid rb) (rb_ts_enq rb) (rb_ts_sent rb) v (rb_ts_retry rb) (rb_retries rb).
Definition rb_set_enq (rb : reqbuf) ts := mk_rb (rb_rq rb) (rb_need_make rb) false (rb_of rb)
  (rb_corrid rb) (rb_connid rb) ts (rb_ts_sent rb) (rb_ts_timeout rb) (rb_ts_retry rb) (rb_retries rb).
(** The fields [rd_kafka_buf_retry] and [rd_kafka_broker_buf_retry] set. *)
Definition rb_set_retry (rb : reqbuf) ts_sent ts_timeout ts_retry retries := mk_rb (rb_rq rb) (rb_need_make rb)
  (rb_was_sent rb) (rb_of rb) (rb_corrid rb) (rb_connid rb) (rb_ts_enq rb) ts_sent ts_timeout ts_retry retries.

(** ** Queues of requests *)

(** [rd_kafka_bufq_t] *)
Record bufq := mk_bufq {
  rkbq_bufs : list reqbuf;
  rkbq_cnt : Z;
  rkbq_msg_cnt : Z }.

Definition produce_msgs (rb : reqbuf) : Z :=
  if rq_ApiKey (rb_rq rb) =? RD_KAFKAP_Produce then rq_msg_cnt (rb_rq rb) else 0.

(** [TAILQ_REMOVE] *)
Fixpoint remove_buf (id : nat) (l : list reqbuf) : list reqbuf :=
  match l with
  | [] => []
  | rb :: l => if (rb_id rb =? id)%nat then l else rb :: remove_buf id l
  end.

Definition rd_kafka_bufq_init : bufq := mk_bufq [] 0 0.

Definition rd_kafka_bufq_enq (q : bufq) (rb : reqbuf) : bufq :=
  mk_bufq (rkbq_bufs q ++ [rb]) (i32 (rkbq_cnt q + 1)) (i32 (rkbq_msg_cnt q + produce_msgs rb)).

Definition rd_kafka_bufq_deq (q : bufq) (rb : reqbuf) : option bufq :=
  let* _ := rd_assert (rkbq_cnt q >? 0) in
  Some (mk_bufq (remove_buf (rb_id rb) (rkbq_bufs q)) (i32 (rkbq_cnt q - 1))
          (i32 (rkbq_msg_cnt q - produce_msgs rb))).

(** The destination and the source. *)
Definition rd_kafka_bufq_concat (dst src : bufq) : bufq * bufq :=
  (mk_bufq (rkbq_bufs dst ++ rkbq_bufs src) (i32 (rkbq_cnt dst + rkbq_cnt src))
     (i32 (rkbq_msg_cnt dst + rkbq_msg_cnt src)), rd_kafka_bufq_init).

(** The change of a request in its place. *)
Definition bufq_update (q : bufq) (rb : reqbuf) : bufq :=
  mk_bufq (map (fun x => if (rb_id x =? rb_id rb)%nat then rb else x) (rkbq_bufs q)) (rkbq_cnt q)
    (rkbq_msg_cnt q).

(** The requests that follow the one of an address. *)
Fixpoint bufs_after (id : nat) (l : list reqbuf) : list reqbuf :=
  match l with
  | [] => []
  | rb :: l => if (rb_id rb =? id)%nat then l else bufs_after id l
  end.

(** ** The broker *)

(** A response; [rs_tags_err] is the error that reading the tags of its header meets. *)
Record response := mk_response {
  rs_CorrId : Z;
  rs_tags_err : option Z;
  rs_content : list Z }.

Inductive bq_event : Type :=
| EvCallback (rb : reqbuf) (err : Z) (resp : option response)
| EvTxRetry (rb : reqbuf)
| EvCorrId (rb : reqbuf) (corrid : Z)
| EvWire (connid : Z) (rb : reqbuf) (n : Z)
| EvStateBroadcast
| EvBrokerFail (err : Z)
| EvMetadataRefresh.

Record broker := mk_broker {
  rkb_state : broker_state;
  rkb_outbufs : bufq;
  rkb_waitresps : bufq;
  rkb_retrybufs : bufq;
  rkb_corrid : Z;
  rkb_connid : Z;
  rkb_max_inflight : Z;
  rkb_blocking_request_cnt : Z;
  rkb_req_timeouts : Z;
  bk_features : Z;
  bk_ApiVersions : list (Z * (Z * Z));
  rkb_persistconn_internal : Z;
  rkb_log : list bq_event }.

Definition set_state (b : broker) v := mk_broker v (rkb_outbufs b) (rkb_waitresps b) (rkb_retrybufs b)
  (rkb_corrid b) (rkb_connid b) (rkb_max_inflight b) (rkb_blocking_request_cnt b) (rkb_req_timeouts b)
  (bk_features b) (bk_ApiVersions b) (rkb_persistconn_internal b) (rkb_log b).
Definition set_outbufs (b : broker) v := mk_broker (rkb_state b) v (rkb_waitresps b) (rkb_retrybufs b)
  (rkb_corrid b) (rkb_connid b) (rkb_max_inflight b) (rkb_blocking_request_cnt b) (rkb_req_timeouts b)
  (bk_features b) (bk_ApiVersions b) (rkb_persistconn_internal b) (rkb_log b).
Definition set_waitresps (b : broker) v := mk_broker (rkb_state b) (rkb_outbufs b) v (rkb_retrybufs b)
  (rkb_corrid b) (rkb_connid b) (rkb_max_inflight b) (rkb_blocking_request_cnt b) (rkb_req_timeouts b)
  (bk_features b) (bk_ApiVersions b) (rkb_persistconn_internal b) (rkb_log b).
Definition set_retrybufs (b : broker) v := mk_broker (rkb_state b) (rkb_outbufs b) (rkb_waitresps b) v
  (rkb_corrid b) (rkb_connid b) (rkb_max_inflight b) (rkb_blocking_request_cnt b) (rkb_req_timeouts b)
  (bk_features b) (bk_ApiVersions b) (rkb_persistconn_internal b) (rkb_log b).
Definition set_corrid (b : broker) v := mk_broker (rkb_state b) (rkb_outbufs b) (rkb_waitresps b)
  (rkb_retrybufs b) v (rkb_connid b) (rkb_max_inflight b) (rkb_blocking_request_cnt b) (rkb_req_timeouts b)
  (bk_features b) (bk_ApiVersions b) (rkb_persistconn_internal b) (rkb_log b).
Definition set_features (b : broker) v := mk_broker (rkb_state b) (rkb_outbufs b) (rkb_waitresps b)
  (rkb_retrybufs b) (rkb_corrid b) (rkb_connid b) (rkb_max_inflight b) (rkb_blocking_request_cnt b)
  (rkb_req_timeouts b) v (bk_ApiVersions b) (rkb_persistconn_internal b) (rkb_log b).
(** The connection's number and how many requests may be in flight on it. *)
Definition set_conn (b : broker) connid max_inflight := mk_broker (rkb_state b) (rkb_outbufs b)
  (rkb_waitresps b) (rkb_retrybufs b) (rkb_corrid b) connid max_inflight (rkb_blocking_request_cnt b)
  (rkb_req_timeouts b) (bk_features b) (bk_ApiVersions b) (rkb_persistconn_internal b) (rkb_log b).
Definition set_blocking (b : broker) v := mk_broker (rkb_state b) (rkb_outbufs b) (rkb_waitresps b)
  (rkb_retrybufs b) (rkb_corrid b) (rkb_connid b) (rkb_max_inflight b) v (rkb_req_timeouts b)
  (bk_features b) (bk_ApiVersions b) (rkb_persistconn_internal b) (rkb_log b).
Definition set_req_timeouts (b : broker) v := mk_broker (rkb_state b) (rkb_outbufs b) (rkb_waitresps b)
  (rkb_retrybufs b) (rkb_corrid b) (rkb_connid b) (rkb_max_inflight b) (rkb_blocking_request_cnt b) v
  (bk_features b) (bk_ApiVersions b) (rkb_persistconn_internal b) (rkb_log b).
Definition set_persistconn (b : broker) v := mk_broker (rkb_state b) (rkb_outbufs b) (rkb_waitresps b)
  (rkb_retrybufs b) (rkb_corrid b) (rkb_connid b) (rkb_max_inflight b) (rkb_blocking_request_cnt b)
  (rkb_req_timeouts b) (bk_features b) (bk_ApiVersions b) v (rkb_log b).
Definition log_event (b : broker) e := mk_broker (rkb_state b) (rkb_outbufs b) (rkb_waitresps b)
  (rkb_retrybufs b) (rkb_corrid b) (rkb_connid b) (rkb_max_inflight b) (rkb_blocking_request_cnt b)
  (rkb_req_timeouts b) (bk_features b) (bk_ApiVersions b) (rkb_persistconn_internal b) (rkb_log b ++ [e]).

(** [rd_kafka_broker_set_state], its guard and its end, without the counters of brokers
    that are up and down and the monitors. *)
Definition change_state (b : broker) (state : broker_state) : broker :=
  if bool_decide (rkb_state b = state) then b else log_event (set_state b state) EvStateBroadcast.

(** [bc_internal] is [rkb_source == RD_KAFKA_INTERNAL], [bc_terminating] what
    [rd_kafka_terminating] returns. *)
Record broker_conf := mk_bconf {
  sparse_connections : bool;
  socket_timeout_ms : Z;
  bc_retry_backoff_ms : Z;
  bc_max_inflight : Z;
  socket_max_fails : Z;
  bc_internal : bool;
  bc_terminating : bool }.

Section Operations.
Context (bc : broker_conf).
(** Whether the callback of a request retries it. *)
Context (resp_cb : reqbuf -> Z -> option response -> bool).
(** The make callback of a request: its version, features and size, or an error. *)
Context (make_req_cb : request -> (Z * Z * Z) + Z).

(** ** Enqueueing *)

Definition rd_kafka_buf_calc_timeout (rb : reqbuf) (now : Z) : reqbuf :=
  let rq := rb_rq rb in
  if negb (rq_rel_timeout rq =? 0) then rb_set_ts_timeout rb (i64 (now + i32 (rq_rel_timeout rq * 1000)))
  else if negb (rq_force_timeout rq) then
    let sock_timeout := i64 (now + i32 (socket_timeout_ms bc * 1000)) in
    rb_set_ts_timeout rb (RD_MIN sock_timeout (rq_abs_timeout rq))
  else rb_set_ts_timeout rb (rq_abs_timeout rq).

(** The insertion of a prioritized request: behind those of no lower priority and behind
    any that has a correlation id, up to the first one that is neither. *)
Fixpoint prio_insert (rb : reqbuf) (l : list reqbuf) : list reqbuf :=
  match l with
  | [] => [rb]
  | prev :: l' =>
      if (rq_prio (rb_rq prev) <? rq_prio (rb_rq rb)) && (rb_corrid prev =? 0) then rb :: l
      else prev :: prio_insert rb l'
  end.

Definition rd_kafka_broker_buf_enq0 (b : broker) (rb : reqbuf) (now : Z) : broker :=
  let b := if sparse_connections bc && bool_decide (rkb_state b = STATE_INIT)
           then change_state (set_persistconn b (i32 (rkb_persistconn_internal b + 1))) STATE_TRY_CONNECT
           else b in
  let rb := rd_kafka_buf_calc_timeout (rb_set_enq rb now) now in
  let q := rkb_outbufs b in
  let bufs := if rq_prio (rb_rq rb) =? 0 then rkbq_bufs q ++ [rb] else prio_insert rb (rkbq_bufs q) in
  set_outbufs b (mk_bufq bufs (i32 (rkbq_cnt q + 1)) (i32 (rkbq_msg_cnt q + produce_msgs rb))).

(** The part of [rd_kafka_buf_finalize] that concerns the queues: the reader starts at
    the first byte. *)
Definition rd_kafka_buf_finalize (rb : reqbuf) : reqbuf := rb_set_of rb 0.

(** ** Callbacks and retries *)

Definition rd_kafka_broker_buf_retry (b : broker) (rb : reqbuf) (now : Z) : broker :=
  let b := log_event b (EvTxRetry rb) in
  let ts_retry := i64 (now + i32 (bc_retry_backoff_ms bc * 1000)) in
  let rb := rb_set_retry rb (rb_ts_sent rb) (i64 (ts_retry + 5000000)) ts_retry (rb_retries rb) in
  let rb := rb_set_corrid (rb_set_of rb 0) 0 (rb_connid rb) in
  set_retrybufs b (rd_kafka_bufq_enq (rkb_retrybufs b) rb).

(** The broker and the return value. *)
Definition rd_kafka_buf_retry (b : broker) (rb : reqbuf) (now : Z) : option (broker * bool) :=
  let incr_retry := if rb_was_sent rb then 1 else 0 in
  let* _ := rd_assert (rq_size (rb_rq rb) >? 0) in
  if bc_internal bc || bc_terminating bc || (i32 (rb_retries rb + incr_retry) >? rq_max_retries (rb_rq rb))
  then Some (b, false)
  else if negb (rq_abs_timeout (rb_rq rb) =? 0) && (rq_abs_timeout (rb_rq rb) <? now) then Some (b, false)
  else
    let rb := rb_set_retry rb 0 0 (rb_ts_retry rb) (i32 (rb_retries rb + incr_retry)) in
    Some (rd_kafka_broker_buf_retry b rb now, true).

Definition rd_kafka_buf_callback (b : broker) (err : Z) (resp : option response) (rb : reqbuf) (now : Z)
  : option broker :=
  let b := log_event b (EvCallback rb err resp) in
  if negb (err =? ERR__DESTROY) && rq_replyq (rb_rq rb) then Some b
  else if resp_cb rb err resp then let* (b, _) := rd_kafka_buf_retry b rb now in Some b
  else Some b.

(** The internal broker has no connection and fails its requests at once. *)
Definition rd_kafka_broker_buf_enq2 (b : broker) (rb : reqbuf) (now : Z) : option broker :=
  if bc_internal bc then rd_kafka_buf_callback b ERR__TRANSPORT None rb now
  else Some (rd_kafka_broker_buf_enq0 b rb now).

Definition rd_kafka_broker_buf_enq_replyq (b : broker) (rb : reqbuf) (now : Z) : option broker :=
  let rb := if negb (rb_need_make rb) then rd_kafka_buf_finalize rb else rb in
  rd_kafka_broker_buf_enq2 b rb now.

(** The loop over the retry queue, and the next wake-up. *)
Fixpoint retry_bufs_move_loop (n : nat) (b : broker) (now next_wakeup : Z) : option (broker * Z) :=
  match n, rkbq_bufs (rkb_retrybufs b) with
  | S n, rb :: _ =>
      if rb_ts_retry rb >? now then Some (b, if rb_ts_retry rb <? next_wakeup then rb_ts_retry rb else next_wakeup)
      else
        let* q := rd_kafka_bufq_deq (rkb_retrybufs b) rb in
        retry_bufs_move_loop n (rd_kafka_broker_buf_enq0 (set_retrybufs b q) rb now) now next_wakeup
  | _, _ => Some (b, next_wakeup)
  end.

Definition rd_kafka_broker_retry_bufs_move (b : broker) (now next_wakeup : Z) : option (broker * Z) :=
  retry_bufs_move_loop (length (rkbq_bufs (rkb_retrybufs b))) b now next_wakeup.

(** ** Time-outs and purges *)

(** A request no longer blocks its broker; [still] is what the counter is compared with. *)
Definition blocking_sub (b : broker) (rb : reqbuf) (still : Z) : broker :=
  if rq_blocking (rb_rq rb) then
    let cnt := i32 (rkb_blocking_request_cnt b - 1) in
    let b := set_blocking b cnt in
    if cnt =? still then log_event b EvStateBroadcast else b
  else b.

(** The queue that is scanned. *)
Inductive scan_queue : Type := ScanWaitresps | ScanRetrybufs | ScanOutbufs.

#[export] Instance scan_queue_eq_dec : EqDecision scan_queue.
Proof. solve_decision. Defined.

Definition get_queue (b : broker) (sq : scan_queue) : bufq :=
  match sq with
  | ScanWaitresps => rkb_waitresps b | ScanRetrybufs => rkb_retrybufs b | ScanOutbufs => rkb_outbufs b
  end.
Definition put_queue (b : broker) (sq : scan_queue) (q : bufq) : broker :=
  match sq with
  | ScanWaitresps => set_waitresps b q | ScanRetrybufs => set_retrybufs b q | ScanOutbufs => set_outbufs b q
  end.

(** [TAILQ_FOREACH_SAFE] over a queue the body changes: the next request was read before
    the body, and what follows it is what follows it then. *)
Definition foreach_next (b : broker) (sq : scan_queue) (next : list reqbuf) : list reqbuf :=
  match next with
  | [] => []
  | tmp :: _ => tmp :: bufs_after (rb_id tmp) (rkbq_bufs (get_queue b sq))
  end.

(** The broker, the number of requests that timed out and of those partly written.  The
    scan of the wait queue and of the retry queue does not count the latter.  The scan
    ends or starts over when a callback has changed the state of the broker, which those
    of this model, that only retry their request, do not. *)
Fixpoint timeout_scan_loop (n : nat) (b : broker) (sq : scan_queue) (rest : list reqbuf)
  (ApiKey err now cnt partial_cnt : Z) : option (broker * Z * Z) :=
  match n, rest with
  | S n, rb :: next =>
      if negb (now =? 0) && (rb_ts_timeout rb >? now) then
        timeout_scan_loop n b sq (foreach_next b sq next) ApiKey err now cnt partial_cnt
      else if negb (ApiKey =? -1) && negb (rq_ApiKey (rb_rq rb) =? ApiKey) then
        timeout_scan_loop n b sq (foreach_next b sq next) ApiKey err now cnt partial_cnt
      else
        let partial_cnt := if bool_decide (sq = ScanOutbufs) && (rb_of rb >? 0) then i32 (partial_cnt + 1)
                           else partial_cnt in
        let rb := rb_set_sent rb (rb_was_sent rb)
                    (if negb (rb_ts_sent rb =? 0) then i64 (now - rb_ts_sent rb) else i64 (now - rb_ts_enq rb)) in
        let* q := rd_kafka_bufq_deq (get_queue b sq) rb in
        let b := put_queue b sq q in
        let b := if bool_decide (sq = ScanWaitresps) then blocking_sub b rb 0 else b in
        let pre_state := rkb_state b in
        let* b := rd_kafka_buf_callback b err None rb now in
        let cnt := i32 (cnt + 1) in
        if bool_decide (rkb_state b = pre_state) then
          timeout_scan_loop n b sq (foreach_next b sq next) ApiKey err now cnt partial_cnt
        else if bool_decide (rkb_state b = STATE_DOWN) then Some (b, cnt, partial_cnt)
        else timeout_scan_loop n b sq (rkbq_bufs (get_queue b sq)) ApiKey err now cnt partial_cnt
  | _, _ => Some (b, cnt, partial_cnt)
  end.

(** A request that is retried while the retry queue is scanned is met once more. *)
Definition rd_kafka_broker_bufq_timeout_scan (b : broker) (sq : scan_queue) (ApiKey err now : Z)
  : option (broker * Z * Z) :=
  let bufs := rkbq_bufs (get_queue b sq) in
  timeout_scan_loop (2 * length bufs) b sq bufs ApiKey err now 0 0.

Fixpoint bufq_purge_loop (b : broker) (bufs : list reqbuf) (err now : Z) : option broker :=
  match bufs with
  | [] => Some b
  | rb :: bufs => let* b := rd_kafka_buf_callback b err None rb now in bufq_purge_loop b bufs err now
  end.

(** The queue is a temporary one. *)
Definition rd_kafka_bufq_purge (b : broker) (q : bufq) (err now : Z) : option broker :=
  bufq_purge_loop b (rkbq_bufs q) err now.

Fixpoint connection_reset_loop (n : nat) (b : broker) (rest : list reqbuf) (now : Z) : option broker :=
  match n, rest with
  | S n, rb :: next =>
      let key := rq_ApiKey (rb_rq rb) in
      let* b :=
        if (key =? RD_KAFKAP_ApiVersion) || (key =? RD_KAFKAP_SaslHandshake) then
          let* q := rd_kafka_bufq_deq (rkb_outbufs b) rb in
          rd_kafka_buf_callback (set_outbufs b q) ERR__DESTROY None rb now
        else
          let rb := rb_set_corrid (rb_set_of rb 0) 0 (rb_connid rb) in
          Some (set_outbufs b (bufq_update (rkb_outbufs b) (rd_kafka_buf_calc_timeout rb now))) in
      connection_reset_loop n b (foreach_next b ScanOutbufs next) now
  | _, _ => Some b
  end.

Definition rd_kafka_bufq_connection_reset (b : broker) (now : Z) : option broker :=
  let bufs := rkbq_bufs (rkb_outbufs b) in connection_reset_loop (length bufs) b bufs now.

(** The loss of the connection.  The transport and a response that is received in part are
    not part of the model, and what [rd_kafka_broker_set_error] reports is an event. *)
Definition rd_kafka_broker_fail (b : broker) (err now : Z) : option broker :=
  let b := log_event (set_req_timeouts b 0) (EvBrokerFail err) in
  let b := if bool_decide (rkb_state b = STATE_APIVERSION_QUERY)
           then set_features b (Z.ldiff (bk_features b) RD_KAFKA_FEATURE_APIVERSION) else b in
  let old_state := rkb_state b in
  let b := change_state b STATE_DOWN in
  let '(tmpq_waitresp, q) := rd_kafka_bufq_concat rd_kafka_bufq_init (rkb_waitresps b) in
  let b := set_waitresps b q in
  let '(tmpq, q) := rd_kafka_bufq_concat rd_kafka_bufq_init (rkb_outbufs b) in
  let b := set_outbufs b q in
  let b := set_blocking b 0 in
  let* b := rd_kafka_bufq_purge b tmpq_waitresp err now in
  let* b := rd_kafka_bufq_purge b tmpq (if err =? ERR__TIMED_OUT then ERR__TIMED_OUT_QUEUE else err) now in
  let* b := rd_kafka_bufq_connection_reset b now in
  Some (if negb (err =? ERR__DESTROY) && (state_num old_state >=? state_num STATE_UP)
        then log_event b EvMetadataRefresh else b).

Definition rd_kafka_broker_timeout_scan (b : broker) (now : Z) : option broker :=
  let* (b, inflight_cnt, _) := rd_kafka_broker_bufq_timeout_scan b ScanWaitresps (-1) ERR__TIMED_OUT now in
  let* (b, retry_cnt, _) := rd_kafka_broker_bufq_timeout_scan b ScanRetrybufs (-1) ERR__TIMED_OUT_QUEUE now in
  let* (b, outq_cnt, partial_cnt) :=
    rd_kafka_broker_bufq_timeout_scan b ScanOutbufs (-1) ERR__TIMED_OUT_QUEUE now in
  if i32 (inflight_cnt + retry_cnt + outq_cnt + partial_cnt) >? 0 then
    let b := set_req_timeouts b (i32 (rkb_req_timeouts b + i32 (inflight_cnt + outq_cnt))) in
    if (partial_cnt >? 0) ||
       (negb (socket_max_fails bc =? 0) && (rkb_req_timeouts b >=? socket_max_fails bc) &&
        (state_num (rkb_state b) >=? state_num STATE_UP))
    then rd_kafka_broker_fail b ERR__TIMED_OUT now
    else Some b
  else Some b.

(** The broker and the number of purged requests. *)
Fixpoint purge_by_toppar_loop (n : nat) (b : broker) (rest : list reqbuf) (rktp : nat) (err now cnt : Z)
  : option (broker * Z) :=
  match n, rest with
  | S n, rb :: next =>
      if negb (rq_ApiKey (rb_rq rb) =? RD_KAFKAP_Produce) || negb (rq_rktp (rb_rq rb) =? rktp)%nat
         || (rb_of rb >? 0)
      then purge_by_toppar_loop n b (foreach_next b ScanOutbufs next) rktp err now cnt
      else
        let* q := rd_kafka_bufq_deq (rkb_outbufs b) rb in
        let* b := rd_kafka_buf_callback (set_outbufs b q) err None rb now in
        purge_by_toppar_loop n b (foreach_next b ScanOutbufs next) rktp err now (i32 (cnt + 1))
  | _, _ => Some (b, cnt)
  end.

(** Of the requests in [rkb_outbufs], the queue of all its calls. *)
Definition rd_kafka_broker_bufq_purge_by_toppar (b : broker) (rktp : nat) (err now : Z)
  : option (broker * Z) :=
  let bufs := rkbq_bufs (rkb_outbufs b) in purge_by_toppar_loop (length bufs) b bufs rktp err now 0.

(** ** Sending *)

(** [bsearch] in the versions, which are in the order of their keys. *)
Definition rd_kafka_broker_request_supported (b : broker) (rb : reqbuf) : bool :=
  let rq := rb_rq rb in
  if rq_ApiKey rq =? RD_KAFKAP_ApiVersion then true
  else if negb (rq_features rq =? 0) then Z.land (bk_features b) (rq_features rq) =? rq_features rq
  else
    match list_find (fun v => fst v = rq_ApiKey rq) (bk_ApiVersions b) with
    | None => false
    | Some (_, (_, (MinVer, MaxVer))) => (MinVer <=? rq_ApiVersion rq) && (rq_ApiVersion rq <=? MaxVer)
    end.

(** What one round of [rd_kafka_send] ends with: another round, or the return value. *)
Inductive send_round : Type :=
| SendNext (b : broker)
| SendSent (b : broker)
| SendReturn (b : broker) (r : option Z).

(** The request at the head once it has a correlation id of its connection, which is
    also written into its header. *)
Definition assign_corrid (b : broker) (rb : reqbuf) : option (broker * reqbuf) :=
  if (rb_corrid rb =? 0) || negb (rb_connid rb =? rkb_connid b) then
    let* _ := rd_assert (rb_of rb =? 0) in
    let corrid := u32 (rkb_corrid b + 1) in
    Some (log_event (set_corrid b corrid) (EvCorrId rb (i32 corrid)), rb_set_corrid rb (i32 corrid) (rkb_connid b))
  else Some (b, rb).

(** The part of a round that follows the write of [r] bytes. *)
Definition send_written (b : broker) (rb : reqbuf) (r now : Z) : option send_round :=
  let b := log_event b (EvWire (rkb_connid b) rb r) in
  let rb := rb_set_of rb (rb_of rb + r) in
  let b := set_outbufs b (bufq_update (rkb_outbufs b) rb) in
  if rq_size (rb_rq rb) - rb_of rb >? 0 then Some (SendReturn b (Some 0))
  else
    let* q := rd_kafka_bufq_deq (rkb_outbufs b) rb in
    let b := set_outbufs b q in
    let rb := rb_set_sent rb true now in
    let b := if rq_blocking (rb_rq rb) then
               let cnt := i32 (rkb_blocking_request_cnt b + 1) in
               let b := set_blocking b cnt in
               if cnt =? 1 then log_event b EvStateBroadcast else b
             else b in
    if negb (rq_no_response (rb_rq rb)) then
      Some (SendSent (set_waitresps b (rd_kafka_bufq_enq (rkb_waitresps b) rb)))
    else
      let* b := rd_kafka_buf_callback b 0 None rb now in Some (SendSent b).

(** One round for the request at the head; [r] is what the transport returns for it. *)
Definition send_one (b : broker) (rb : reqbuf) (r : Z -> Z) (now : Z) : option send_round :=
  let made :=
    if rb_need_make rb then
      match make_req_cb (rb_rq rb) with
      | inr err => inr (rb_set_made rb (rb_rq rb), err)
      | inl (ApiVersion, features, size) =>
          inl (rd_kafka_buf_finalize (rb_set_made rb (rq_set_made (rb_rq rb) ApiVersion features size)))
      end
    else inl rb in
  match made with
  | inr (rb, err) =>
      let* q := rd_kafka_bufq_deq (rkb_outbufs b) rb in
      let* b := rd_kafka_buf_callback (set_outbufs b q) err None rb now in Some (SendNext b)
  | inl rb =>
      let b := set_outbufs b (bufq_update (rkb_outbufs b) rb) in
      if negb (rd_kafka_broker_request_supported b rb) then
        let* q := rd_kafka_bufq_deq (rkb_outbufs b) rb in
        let* b := rd_kafka_buf_callback (set_outbufs b q) ERR__UNSUPPORTED_FEATURE None rb now in
        Some (SendNext b)
      else
        let* (b, rb) := assign_corrid b rb in
        let b := set_outbufs b (bufq_update (rkb_outbufs b) rb) in
        let n := r (rq_size (rb_rq rb) - rb_of rb) in
        if n =? -1 then
          let* b := rd_kafka_broker_fail b ERR__TRANSPORT now in Some (SendReturn b None)
        else send_written b rb n now
  end.

(** The broker and the return value, [None] for -1.  [r] is what the transport returns
    for its next calls, each given the bytes that are left to write. *)
Fixpoint send_loop (n : nat) (b : broker) (r : nat -> Z -> Z) (now cnt : Z) : option (broker * option Z) :=
  match n, rkbq_bufs (rkb_outbufs b) with
  | S n, rb :: _ =>
      if (state_num (rkb_state b) >=? state_num STATE_UP) &&
         (rkbq_cnt (rkb_waitresps b) <? rkb_max_inflight b) then
        let* round := send_one b rb (r 0%nat) now in
        match round with
        | SendNext b => send_loop n b (fun k => r (S k)) now cnt
        | SendSent b => send_loop n b (fun k => r (S k)) now (u32 (cnt + 1))
        | SendReturn b ret => Some (b, ret)
        end
      else Some (b, Some (i32 cnt))
  | _, _ => Some (b, Some (i32 cnt))
  end.

(** Each round takes a request off the queue or returns, and callbacks put none on it. *)
Definition rd_kafka_send (b : broker) (r : nat -> Z -> Z) (now : Z) : option (broker * option Z) :=
  send_loop (length (rkbq_bufs (rkb_outbufs b))) b r now 0.

(** ** Responses *)

Definition rd_kafka_waitresp_find (b : broker) (corrid now : Z) : option (broker * option reqbuf) :=
  match list_find (fun rb => rb_corrid rb = corrid) (rkbq_bufs (rkb_waitresps b)) with
  | None => Some (b, None)
  | Some (_, rb) =>
      let rb := rb_set_sent rb (rb_was_sent rb) (i64 (now - rb_ts_sent rb)) in
      let b := blocking_sub b rb 1 in
      let* q := rd_kafka_bufq_deq (rkb_waitresps b) rb in
      Some (set_waitresps b q, Some rb)
  end.

(** The broker and whether a request was waiting for the response and it was read. *)
Definition rd_kafka_req_response (b : broker) (resp : response) (now : Z) : option (broker * bool) :=
  let* (b, req) := rd_kafka_waitresp_find b (rs_CorrId resp) now in
  match req with
  | None => Some (b, false)
  | Some req =>
      match (if negb (rq_ApiKey (rb_rq req) =? RD_KAFKAP_ApiVersion) then rs_tags_err resp else None) with
      | Some err => let* b := rd_kafka_buf_callback b err None req now in Some (b, false)
      | None => let* b := rd_kafka_buf_callback b 0 (Some resp) req now in Some (b, true)
      end
  end.

(** ** Connections *)

(** A connection is made, up to the state its set-up continues with. *)
Definition rd_kafka_broker_connect_done (b : broker) (state : broker_state) : broker :=
  change_state (set_conn b (i32 (rkb_connid b + 1)) 1) state.

Definition rd_kafka_broker_connect_up (b : broker) : broker :=
  change_state (set_conn b (rkb_connid b) (bc_max_inflight bc)) STATE_UP.

End Operations.
