(* ===== verification/BufqFacts.v ===== *)
(** * What the request queues keep

    The invariant of a broker's queues, with the requests that a loop holds in its hand,
    and what each step of the loops does to it. *)

From stdpp Require Import gmap strings.
From S2P Require Import Prelude EosState Eos MsgWriter Bufq.

Definition ids (l : list reqbuf) : list nat := map rb_id l.

(** ** The log *)

Definition event_called (e : bq_event) : list nat :=
  match e with EvCallback rb _ _ => [rb_id rb] | _ => [] end.
Definition event_retried (e : bq_event) : list nat :=
  match e with EvTxRetry rb => [rb_id rb] | _ => [] end.

(** The requests that were called back, and those put in the retry queue. *)
Definition called (log : list bq_event) : list nat := concat (map event_called log).
Definition retried (log : list bq_event) : list nat := concat (map event_retried log).

(** A request whose callback got a response had its correlation id and was written; and
    only those of [may_retry] are retried. *)
Definition event_ok (may_retry : nat -> Prop) (e : bq_event) : Prop :=
  match e with
  | EvCallback rb err (Some resp) => err = 0 /\ rb_corrid rb = rs_CorrId resp /\ rb_of rb = rq_size (rb_rq rb)
  | EvTxRetry rb => may_retry (rb_id rb)
  | _ => True
  end.

#[global] Arguments called : simpl never.
#[global] Arguments retried : simpl never.
#[global] Arguments ids : simpl never.

(** ** The bytes on the connections *)

(** The connection that was written to last and, of a request that is written in part, its
    address, its correlation id and how much is written. *)
Record wire_state := mk_wire {
  wr_conn : Z;
  wr_part : option (nat * Z * Z) }.

(** What is written continues the request that is written in part, or else starts one. *)
Definition wire_step (w : wire_state) (connid : Z) (rb : reqbuf) (n : Z) : option wire_state :=
  let part := if connid =? wr_conn w then wr_part w else None in
  let continues :=
    match part with
    | Some (id, corrid, written) =>
        bool_decide (rb_id rb = id) && (rb_corrid rb =? corrid) && (rb_of rb =? written)
    | None => rb_of rb =? 0
    end in
  let written := rb_of rb + n in
  if continues && (wr_conn w <=? connid) && (0 <=? n) && (written <=? rq_size (rb_rq rb)) then
    Some (mk_wire connid (if (written =? 0) || (written =? rq_size (rb_rq rb)) then None
                          else Some (rb_id rb, rb_corrid rb, written)))
  else None.

Definition wire_event (w : wire_state) (e : bq_event) : option wire_state :=
  match e with EvWire connid rb n => wire_step w connid rb n | _ => Some w end.

Fixpoint wire_run (w : wire_state) (log : list bq_event) : option wire_state :=
  match log with
  | [] => Some w
  | e :: log => let* w := wire_event w e in wire_run w log
  end.

Lemma wire_run_app log1 : forall w log2,
  wire_run w (log1 ++ log2) = (let* w := wire_run w log1 in wire_run w log2).
Proof.
  induction log1 as [| e log1 IH]; intros w log2; cbn; [reflexivity |].
  destruct (wire_event w e); cbn; [apply IH | reflexivity].
Qed.

Lemma called_app a b : called (a ++ b) = called a ++ called b.
Proof. unfold called. now rewrite map_app, concat_app. Qed.
Lemma retried_app a b : retried (a ++ b) = retried a ++ retried b.
Proof. unfold retried. now rewrite map_app, concat_app. Qed.

(** ** The invariant *)

Definition fresh (rb : reqbuf) : Prop := rb_of rb = 0 /\ rb_corrid rb = 0.

(** The head of the queue to send may be written in part. *)
Definition head_ok (b : broker) (rb : reqbuf) : Prop :=
  0 <= rb_of rb < rq_size (rb_rq rb) /\ (rb_corrid rb = 0 -> rb_of rb = 0) /\
  (rb_corrid rb <> 0 -> rb_connid rb = rkb_connid b /\ 0 < rb_corrid rb <= rkb_corrid b /\
     Forall (fun x => rb_corrid x < rb_corrid rb) (rkbq_bufs (rkb_waitresps b)) /\ rb_need_make rb = false /\
     rd_kafka_broker_request_supported b rb = true).

Definition outbufs_ok (b : broker) : Prop :=
  match rkbq_bufs (rkb_outbufs b) with
  | [] => True
  | rb :: l => head_ok b rb /\ Forall fresh l
  end.

Definition head_part (l : list reqbuf) : option (nat * Z * Z) :=
  match l with
  | rb :: _ => if rb_of rb =? 0 then None else Some (rb_id rb, rb_corrid rb, rb_of rb)
  | [] => None
  end.

Definition connected (b : broker) : Prop := state_num STATE_AUTH_LEGACY <= state_num (rkb_state b).

(** [broken]: the request that is written in part was taken away, so that the connection
    is to be closed. *)
Definition wire_ok (broken : bool) (b : broker) : Prop :=
  exists w, wire_run (mk_wire 0 None) (rkb_log b) = Some w /\ wr_conn w <= rkb_connid b /\
    (broken = false -> connected b -> head_part (rkbq_bufs (rkb_outbufs b)) =
       if wr_conn w =? rkb_connid b then wr_part w else None).

Definition waiting_ok (b : broker) (rb : reqbuf) : Prop :=
  rb_of rb = rq_size (rb_rq rb) /\ 0 < rb_corrid rb <= rkb_corrid b.

Definition cnt_ok (q : bufq) : Prop := rkbq_cnt q = zlen (rkbq_bufs q).

Definition sized (rb : reqbuf) : Prop := 0 < rq_size (rb_rq rb).

(** [E] are the requests that came in, [H] those that a loop has taken off a queue and
    not called back yet, and [N] bounds all that is there. *)
Record inv (bc : broker_conf) (N : Z) (may_retry : nat -> Prop) (broken : bool) (E : list nat) (H : list reqbuf) (b : broker) : Prop := {
  iv_acc : E ++ retried (rkb_log b) ≡ₚ
    ids (rkbq_bufs (rkb_outbufs b)) ++ ids (rkbq_bufs (rkb_waitresps b)) ++ ids (rkbq_bufs (rkb_retrybufs b)) ++
    ids H ++ called (rkb_log b);
  iv_nodup : NoDup (ids (rkbq_bufs (rkb_outbufs b)) ++ ids (rkbq_bufs (rkb_waitresps b)) ++
    ids (rkbq_bufs (rkb_retrybufs b)) ++ ids H);
  iv_cnt : cnt_ok (rkb_outbufs b) /\ cnt_ok (rkb_waitresps b) /\ cnt_ok (rkb_retrybufs b);
  iv_bound : zlen (rkbq_bufs (rkb_outbufs b)) + zlen (rkbq_bufs (rkb_waitresps b)) +
    zlen (rkbq_bufs (rkb_retrybufs b)) + zlen H <= N;
  iv_sized : Forall sized (rkbq_bufs (rkb_outbufs b)) /\ Forall sized (rkbq_bufs (rkb_waitresps b)) /\
    Forall sized (rkbq_bufs (rkb_retrybufs b)) /\ Forall sized H;
  iv_out : outbufs_ok b;
  iv_wait : Forall (waiting_ok b) (rkbq_bufs (rkb_waitresps b)) /\
    NoDup (map rb_corrid (rkbq_bufs (rkb_waitresps b)));
  iv_retry : Forall fresh (rkbq_bufs (rkb_retrybufs b));
  iv_corrid : 0 <= rkb_corrid b <= zlen (rkb_log b);
  iv_inflight : zlen (rkbq_bufs (rkb_waitresps b)) <= rkb_max_inflight b <= bc_max_inflight bc;
  iv_down : ~ connected b -> rkbq_bufs (rkb_waitresps b) = [] /\ Forall fresh (rkbq_bufs (rkb_outbufs b));
  iv_wire : wire_ok broken b;
  iv_resp : Forall (event_ok may_retry) (rkb_log b) }.

(** ** Lists of requests *)

Lemma ids_cons a b : ids (a :: b) = rb_id a :: ids b.
Proof. reflexivity. Qed.
Lemma ids_app a b : ids (a ++ b) = ids a ++ ids b.
Proof. apply map_app. Qed.

Lemma remove_mid id l1 : forall rb l2,
  rb_id rb = id -> id ∉ ids l1 -> remove_buf id (l1 ++ rb :: l2) = l1 ++ l2.
Proof.
  induction l1 as [| x l1 IH]; intros rb l2 E Hn; cbn.
  - now rewrite (proj2 (Nat.eqb_eq _ _) E).
  - rewrite ids_cons, not_elem_of_cons in Hn. destruct Hn as [Hx Hn].
    rewrite (proj2 (Nat.eqb_neq _ _)) by congruence. f_equal. now apply IH.
Qed.

Lemma after_mid id l1 : forall rb l2,
  rb_id rb = id -> id ∉ ids l1 -> bufs_after id (l1 ++ rb :: l2) = l2.
Proof.
  induction l1 as [| x l1 IH]; intros rb l2 E Hn; cbn.
  - now rewrite (proj2 (Nat.eqb_eq _ _) E).
  - rewrite ids_cons, not_elem_of_cons in Hn. destruct Hn as [Hx Hn].
    rewrite (proj2 (Nat.eqb_neq _ _)) by congruence. now apply IH.
Qed.

Lemma update_mid rb l1 x l2 :
  rb_id x = rb_id rb -> NoDup (ids (l1 ++ x :: l2)) ->
  map (fun y => if (rb_id y =? rb_id rb)%nat then rb else y) (l1 ++ x :: l2) = l1 ++ rb :: l2.
Proof.
  intros E Hd. rewrite ids_app, ids_cons in Hd. apply list.NoDup_app in Hd as (H1 & H2 & H3).
  apply list.NoDup_cons in H3 as [H3 H4].
  assert (forall l, rb_id x ∉ ids l -> map (fun y => if (rb_id y =? rb_id rb)%nat then rb else y) l = l) as Hl.
  { induction l as [| y l IH]; intros Hn; cbn; [reflexivity |]. rewrite ids_cons, not_elem_of_cons in Hn.
    rewrite (proj2 (Nat.eqb_neq _ _)) by (rewrite <- E; intuition congruence). f_equal. now apply IH. }
  rewrite map_app. cbn. rewrite (proj2 (Nat.eqb_eq _ _) E), !Hl; [reflexivity | assumption |].
  intros Hin. apply (H2 _ Hin), elem_of_cons. now left.
Qed.

Lemma foreach_suffix b sq pre next extra :
  rkbq_bufs (get_queue b sq) = pre ++ next ++ extra -> NoDup (ids (pre ++ next ++ extra)) ->
  foreach_next b sq next = match next with [] => [] | _ => next ++ extra end.
Proof.
  intros E Hd. destruct next as [| tmp post]; [reflexivity |]. cbn [foreach_next]. rewrite E.
  rewrite ids_app in Hd. apply list.NoDup_app in Hd as (_ & Hd & _). cbn [app]. f_equal.
  apply after_mid; [reflexivity |]. intros Hin. apply (Hd _ Hin), elem_of_cons. now left.
Qed.

Section Steps.
Context (bc : broker_conf) (N : Z) (HN : N < 2 ^ 28).
Context (resp_cb : reqbuf -> Z -> option response -> bool).
Context (make_req_cb : request -> (Z * Z * Z) + Z).
Context (may_retry : nat -> Prop) (Hretry : forall rb err resp, resp_cb rb err resp = true -> may_retry (rb_id rb)).

Abbreviation inv := (inv bc N may_retry).
Abbreviation response_ok := (event_ok may_retry).

(** ** Taking requests off their queues *)

Lemma deq_ok q pre rb rb' post :
  rkbq_bufs q = pre ++ rb :: post -> cnt_ok q -> zlen (rkbq_bufs q) <= N -> NoDup (ids (rkbq_bufs q)) ->
  rb_id rb' = rb_id rb ->
  exists q', rd_kafka_bufq_deq q rb' = Some q' /\ rkbq_bufs q' = pre ++ post /\ cnt_ok q'.
Proof.
  intros E C B D Ei. unfold rd_kafka_bufq_deq. unfold cnt_ok in C.
  assert (0 < zlen (rkbq_bufs q)) as Hp by (rewrite E, zlen_app; cbn [length]; lia).
  rewrite C. replace (zlen (rkbq_bufs q) >? 0) with true by (symmetry; apply Z.gtb_lt; lia). cbn [rd_assert].
  eexists. split; [reflexivity |]. cbn [rkbq_bufs]. rewrite E, Ei.
  rewrite (remove_mid _ pre rb post eq_refl).
  - split; [reflexivity |]. unfold cnt_ok. cbn [rkbq_cnt rkbq_bufs]. rewrite E, !zlen_app in *. cbn [length] in *.
    rewrite swrap_small by (unfold in_i; lia). lia.
  - rewrite E, ids_app, ids_cons in D. apply list.NoDup_app in D as (_ & D & _). intros Hin.
    apply (D _ Hin), elem_of_cons. now left.
Qed.

Lemma enq_cnt_ok q rb : cnt_ok q -> zlen (rkbq_bufs q) < N -> cnt_ok (rd_kafka_bufq_enq q rb).
Proof.
  unfold cnt_ok. intros C B. cbn. rewrite zlen_app, C. cbn [length]. rewrite swrap_small by (unfold in_i; lia). lia.
Qed.

(** ** Single steps *)

(** The fields of the state the invariant is about. *)
Definition same_core (b b' : broker) : Prop :=
  rkb_state b' = rkb_state b /\ rkb_outbufs b' = rkb_outbufs b /\ rkb_waitresps b' = rkb_waitresps b /\
  rkb_corrid b' = rkb_corrid b /\ rkb_connid b' = rkb_connid b /\ rkb_max_inflight b' = rkb_max_inflight b.

Lemma same_core_refl b : same_core b b.
Proof. repeat split. Qed.

Lemma same_core_trans a b c : same_core a b -> same_core b c -> same_core a c.
Proof. unfold same_core. intros (?&?&?&?&?&?) (?&?&?&?&?&?). repeat split; congruence. Qed.

Definition neutral (e : bq_event) : Prop :=
  event_called e = [] /\ event_retried e = [] /\ response_ok e /\ forall w, wire_event w e = Some w.

Lemma wire_neutral log e w : (forall w, wire_event w e = Some w) ->
  wire_run w (log ++ [e]) = wire_run w log.
Proof.
  intros He. rewrite wire_run_app. destruct (wire_run w log) as [w' |]; [| reflexivity].
  cbn. now rewrite He.
Qed.

Lemma inv_log br E H b e : neutral e -> inv br E H b -> inv br E H (log_event b e).
Proof.
  intros (E1 & E2 & E3 & E4) [A D C B S O W R I F X (w & Hw & Hc & Hp) P].
  constructor; try assumption.
  - cbn. rewrite called_app, retried_app. unfold called at 2, retried at 2. cbn. rewrite E1, E2. cbn.
    now rewrite !app_nil_r.
  - cbn. rewrite zlen_app. cbn [length]. lia.
  - exists w. cbn. rewrite wire_neutral by exact E4. auto.
  - cbn. apply Forall_app_2; [assumption | now constructor].
Qed.

Lemma inv_change_state br E H b st :
  (connected b <-> state_num STATE_AUTH_LEGACY <= state_num st) ->
  inv br E H b -> inv br E H (change_state b st).
Proof.
  intros Hc Hi. unfold change_state. destruct (bool_decide _); [assumption |].
  apply inv_log; [repeat split |]. destruct Hi as [A D C B S O W R I F X (w & Hw & Hw' & Hp) P].
  constructor; try assumption.
  - intros Hn. apply X. unfold connected in *. cbn in Hn. tauto.
  - exists w. split; [exact Hw |]. split; [exact Hw' |]. intros Hb Hn. apply Hp; [assumption |]. unfold connected in *. cbn in Hn. tauto.
Qed.

(** What a step does to the log and to the retry queue, and to nothing else. *)
Definition retry_timeout (now : Z) : Z := i64 (i64 (now + i32 (bc_retry_backoff_ms bc * 1000)) + 5000000).

Record called_back (now : Z) (b b' : broker) : Prop := {
  cb_core : same_core b b';
  cb_log : exists evs, rkb_log b' = rkb_log b ++ evs;
  cb_retry : exists added, rkbq_bufs (rkb_retrybufs b') = rkbq_bufs (rkb_retrybufs b) ++ added /\
    (length added <= 1)%nat /\ Forall (fun rb => rb_ts_timeout rb = retry_timeout now) added }.

Lemma nodup_perm (l l' : list nat) : l ≡ₚ l' -> NoDup l -> NoDup l'.
Proof. now intros ->. Qed.

Lemma perm_call (A : Type) (e r o w q h c : list A) x :
  e ++ r ≡ₚ o ++ w ++ q ++ (x :: h) ++ c -> e ++ r ≡ₚ o ++ w ++ q ++ h ++ c ++ [x].
Proof. intros ->. solve_Permutation. Qed.

(** A request that no queue holds goes to the retry queue. *)
Lemma retry_push br E H b rb now :
  inv br E H b -> sized rb -> may_retry (rb_id rb) ->
  zlen (rkbq_bufs (rkb_outbufs b)) + zlen (rkbq_bufs (rkb_waitresps b)) + zlen (rkbq_bufs (rkb_retrybufs b)) +
    zlen H < N ->
  rb_id rb ∉ ids (rkbq_bufs (rkb_outbufs b)) ++ ids (rkbq_bufs (rkb_waitresps b)) ++
    ids (rkbq_bufs (rkb_retrybufs b)) ++ ids H ->
  inv br E H (rd_kafka_broker_buf_retry bc b rb now) /\ same_core b (rd_kafka_broker_buf_retry bc b rb now) /\
  rkb_log (rd_kafka_broker_buf_retry bc b rb now) = rkb_log b ++ [EvTxRetry rb] /\
  exists rb', rkbq_bufs (rkb_retrybufs (rd_kafka_broker_buf_retry bc b rb now)) = rkbq_bufs (rkb_retrybufs b) ++ [rb'] /\
    rb_ts_timeout rb' = retry_timeout now.
Proof.
  intros [A D C B S O W R I F X (w & Hw & Hc & Hp) P] Hs Hmr Hb Hid. unfold rd_kafka_broker_buf_retry.
  set (rb' := rb_set_corrid _ _ _). split; [| split; [repeat split | split; [reflexivity | now exists rb']]].
  constructor; try assumption.
  - cbn [set_retrybufs log_event rkb_log rkb_outbufs rkb_waitresps rkb_retrybufs rd_kafka_bufq_enq rkbq_bufs].
    rewrite retried_app, called_app, ids_app. unfold called at 2, retried at 2. cbn [map event_called event_retried concat].
    rewrite !app_nil_r, app_assoc, A. change (ids [rb']) with [rb_id rb]. solve_Permutation.
  - cbn. rewrite ids_app. change (ids [rb']) with [rb_id rb].
    apply (nodup_perm (rb_id rb :: (ids (rkbq_bufs (rkb_outbufs b)) ++ ids (rkbq_bufs (rkb_waitresps b)) ++
      ids (rkbq_bufs (rkb_retrybufs b)) ++ ids H))); [solve_Permutation |]. now apply list.NoDup_cons.
  - destruct C as (? & ? & ?). repeat split; try assumption. apply enq_cnt_ok; [assumption |].
    change (zlen (rkbq_bufs (rkb_retrybufs b)) < N). lia.
  - cbn. rewrite zlen_app. cbn [length] in *. lia.
  - destruct S as (? & ? & ? & ?). split; [assumption |]. split; [assumption |]. split; [| assumption].
    cbn. apply Forall_app_2; [assumption |]. constructor; [exact Hs | constructor].
  - cbn. apply Forall_app_2; [assumption |]. constructor; [now split | constructor].
  - cbn in *. rewrite zlen_app. cbn [length]. lia.
  - exists w. cbn in *. rewrite wire_neutral by reflexivity. auto.
  - cbn in *. apply Forall_app_2; [assumption | now constructor].
Qed.

(** The request in hand is called back. *)
Lemma called_inv br E H b rb err resp :
  inv br E (rb :: H) b -> response_ok (EvCallback rb err resp) -> inv br E H (log_event b (EvCallback rb err resp)).
Proof.
  intros [A D C B S O W R I F X (w & Hw & Hc & Hp) P] Hr. rewrite ids_cons in A. constructor; try assumption.
  - cbn. rewrite called_app, retried_app. unfold called at 2, retried at 2. cbn. rewrite app_nil_r.
    now apply perm_call.
  - rewrite ids_cons in D. apply (list.NoDup_cons (rb_id rb)).
    eapply nodup_perm; [| exact D]. cbn. solve_Permutation.
  - cbn [length] in B. cbn. lia.
  - destruct S as (? & ? & ? & HS). inversion HS; subst. auto.
  - cbn. rewrite zlen_app. cbn [length]. lia.
  - exists w. cbn. rewrite wire_neutral by reflexivity. auto.
  - cbn. apply Forall_app_2; [assumption | now constructor].
Qed.

Lemma callback_inv br E H b rb err resp now :
  inv br E (rb :: H) b -> response_ok (EvCallback rb err resp) ->
  exists b', rd_kafka_buf_callback bc resp_cb b err resp rb now = Some b' /\
    inv br E H b' /\ called_back now b b'.
Proof.
  intros I Hr. set (b1 := log_event b (EvCallback rb err resp)).
  pose proof (called_inv _ _ _ _ _ _ _ I Hr) as I1. fold b1 in I1.
  assert (sized rb) as Hs by (destruct (iv_sized _ _ _ _ _ _ _ I) as (_ & _ & _ & HS); now inversion HS).
  unfold rd_kafka_buf_callback. fold b1.
  assert (called_back now b b1) as K1.
  { split; [repeat split | now exists [EvCallback rb err resp] |]. exists []. cbn. rewrite app_nil_r. auto with lia. }
  destruct (_ && _); [eauto |]. destruct (resp_cb rb err resp) eqn:Er; [| eauto].
  unfold rd_kafka_buf_retry. unfold sized in Hs.
  replace (rq_size (rb_rq rb) >? 0) with true by (symmetry; apply Z.gtb_lt; lia). cbn [rd_assert].
  destruct (bc_internal bc || bc_terminating bc || _); [eauto |].
  destruct (negb _ && _); [eauto |]. set (rb1 := rb_set_retry rb _ _ _ _).
  destruct (retry_push br E H b1 rb1 now I1 Hs (Hretry _ _ _ Er)) as (I2 & K2 & L2 & rb' & R2 & T2).
  - pose proof (iv_bound _ _ _ _ _ _ _ I) as B. cbn [length] in B. change (zlen (rkbq_bufs (rkb_outbufs b)) +
      zlen (rkbq_bufs (rkb_waitresps b)) + zlen (rkbq_bufs (rkb_retrybufs b)) + zlen H < N). lia.
  - pose proof (iv_nodup _ _ _ _ _ _ _ I) as D. rewrite ids_cons in D. apply (list.NoDup_cons (rb_id rb)).
    eapply nodup_perm; [| exact D]. change (rb_id rb1) with (rb_id rb). cbn. solve_Permutation.
  - eexists. split; [reflexivity |]. split; [exact I2 |]. split.
    + exact (same_core_trans _ _ _ (cb_core _ _ _ K1) K2).
    + exists [EvCallback rb err resp; EvTxRetry rb1]. rewrite L2. cbn. now rewrite <- app_assoc.
    + exists [rb']. split; [exact R2 |]. split; [cbn; lia |]. now constructor.
Qed.

(** A request is taken off the queue of a scan; [rb'] is the same one with other times. *)
Definition taken_broken (sq : scan_queue) (rb : reqbuf) : bool :=
  bool_decide (sq = ScanOutbufs) && (rb_of rb >? 0).

Lemma Forall_mid {A} (P : A -> Prop) l1 x l2 : Forall P (l1 ++ x :: l2) -> P x /\ Forall P (l1 ++ l2).
Proof.
  intros [H1 H2]%list.Forall_app. inversion H2; subst. split; [assumption | now apply Forall_app_2].
Qed.

Lemma head_part_fresh l : Forall fresh l -> head_part l = None.
Proof. destruct 1 as [| rb l [E _] _]; cbn; [reflexivity | now rewrite E]. Qed.

Lemma out_take b pre rb post q' :
  rkbq_bufs (rkb_outbufs b) = pre ++ rb :: post -> rkbq_bufs q' = pre ++ post ->
  Forall sized (pre ++ rb :: post) -> outbufs_ok b ->
  outbufs_ok (set_outbufs b q') /\
  (rb_of rb = 0 -> head_part (pre ++ rb :: post) = head_part (pre ++ post)).
Proof.
  intros E Eq S O. unfold outbufs_ok in *. cbn [set_outbufs rkb_outbufs]. rewrite Eq. rewrite E in O.
  destruct pre as [| x pre]; cbn [app] in *.
  - destruct O as [_ O]. split; [| intros Hz; cbn; rewrite Hz; cbn; now rewrite head_part_fresh].
    destruct post as [| y post]; [exact I |]. inversion O as [| ? ? [H1 H2] H3]; subst. split; [| assumption].
    do 2 apply Forall_inv_tail in S as ?S. inversion S0 as [| ? ? Hy]; subst. unfold sized in Hy.
    unfold head_ok. cbn. rewrite H1, H2. repeat split; try lia; intros; lia.
  - destruct O as [O1 O2]. split; [| reflexivity]. split; [exact O1 |]. now apply Forall_mid in O2 as [_ O2].
Qed.

(** The parts of the invariant that treat all queues alike. *)
Ltac take_common Eq Ei A D :=
  first [ rewrite Eq, !ids_app, ids_cons, Ei; rewrite A; solve_Permutation
        | rewrite Eq, !ids_app, ids_cons, Ei; eapply nodup_perm; [| exact D]; solve_Permutation
        | now match goal with |- cnt_ok _ /\ cnt_ok _ /\ cnt_ok _ => tauto end
        | rewrite Eq, !zlen_app; cbn [length]; lia ].

Lemma take_inv br E H b sq pre rb rb' post :
  inv br E H b -> rkbq_bufs (get_queue b sq) = pre ++ rb :: post ->
  rb_id rb' = rb_id rb -> rb_rq rb' = rb_rq rb ->
  exists q', rd_kafka_bufq_deq (get_queue b sq) rb' = Some q' /\ rkbq_bufs q' = pre ++ post /\
    inv (br || taken_broken sq rb) E (rb' :: H) (put_queue b sq q').
Proof.
  intros [A D C B S O W R I F X (w & Hw & Hc & Hp) P] Eb Ei Er.
  assert (NoDup (ids (rkbq_bufs (get_queue b sq))) /\ zlen (rkbq_bufs (get_queue b sq)) <= N /\
    cnt_ok (get_queue b sq)) as (Dq & Bq & Cq).
  { apply list.NoDup_app in D as (D1 & _ & D). apply list.NoDup_app in D as (D2 & _ & D).
    apply list.NoDup_app in D as (D3 & _ & _). destruct sq; cbn [get_queue]; repeat split; try tauto; lia. }
  destruct (deq_ok _ _ _ rb' _ Eb Cq Bq Dq Ei) as (q' & Ed & Eq & Cq').
  exists q'. split; [exact Ed |]. split; [exact Eq |].
  assert (sized rb) as Hsz.
  { destruct S as (S1 & S2 & S3 & _). destruct sq; cbn [get_queue] in Eb; rewrite Eb in *;
      [apply Forall_mid in S2 | apply Forall_mid in S3 | apply Forall_mid in S1]; tauto. }
  assert (sized rb') as Hsz' by (unfold sized; now rewrite Er).
  clear Ed Dq Bq Cq. destruct sq; cbn [get_queue put_queue taken_broken] in *.
  all: rewrite Eb in *; rewrite !ids_app, ids_cons in A, D; rewrite !zlen_app in B; cbn [length] in B.
  - unfold taken_broken. rewrite bool_decide_false, orb_false_r by discriminate.
    destruct W as [W1 W2]. pose proof (Forall_mid _ _ _ _ W1) as [W3 W4].
    constructor; cbn [set_waitresps rkb_outbufs rkb_waitresps rkb_retrybufs rkb_log rkb_corrid rkb_max_inflight]; try assumption;
      try take_common Eq Ei A D.
    + rewrite Eq. destruct S as (S1 & S2 & S3 & S4). apply Forall_mid in S2 as [_ S2]. auto.
    + unfold outbufs_ok, head_ok in *. cbn. destruct (rkbq_bufs (rkb_outbufs b)); [exact O |].
      destruct O as [(O1 & O2 & O3) O4]. split; [| exact O4]. split; [exact O1 |]. split; [exact O2 |].
      intros Hn. destruct (O3 Hn) as (? & ? & O5 & ?). rewrite Eq. rewrite Eb in O5. apply Forall_mid in O5 as [_ O5]. auto.
    + rewrite Eq. split; [exact W4 |]. rewrite map_app in *. cbn in W2. apply list.NoDup_app in W2 as (N1 & N2 & N3).
      apply list.NoDup_cons in N3 as [N3 N4]. apply list.NoDup_app. split; [assumption |]. split; [| assumption].
      intros y Hy Hy'. apply (N2 y Hy), elem_of_cons. now right.
    + rewrite Eq, !zlen_app in *. cbn [length] in F. lia.
    + intros Hn. destruct (X Hn) as [X1 _]. now destruct pre.
    + exists w. auto.
  - unfold taken_broken. rewrite bool_decide_false, orb_false_r by discriminate.
    constructor; cbn [set_retrybufs rkb_outbufs rkb_waitresps rkb_retrybufs rkb_log rkb_corrid rkb_max_inflight]; try assumption;
      try take_common Eq Ei A D.
    + rewrite Eq. destruct S as (S1 & S2 & S3 & S4). apply Forall_mid in S3 as [_ S3]. auto.
    + rewrite Eq. now apply Forall_mid in R as [_ R].
    + exists w. auto.
  - unfold taken_broken. rewrite bool_decide_true by reflexivity. cbn [andb].
    destruct (out_take b pre rb post q' Eb Eq (proj1 S) O) as [O' Hpart].
    constructor; cbn [set_outbufs rkb_outbufs rkb_waitresps rkb_retrybufs rkb_log rkb_corrid rkb_max_inflight]; try assumption;
      try take_common Eq Ei A D.
    + rewrite Eq. destruct S as (S1 & S2 & S3 & S4). apply Forall_mid in S1 as [_ S1]. auto.
    + intros Hn. destruct (X Hn) as [X1 X2]. split; [assumption |]. rewrite Eq. now apply Forall_mid in X2 as [_ X2].
    + exists w. cbn. split; [assumption |]. split; [assumption |]. intros Hb Hn.
      apply orb_false_iff in Hb as [Hb Hof]. rewrite <- (Hp Hb Hn), Eq. symmetry. apply Hpart.
      unfold outbufs_ok in O. rewrite Eb in O. destruct pre as [| x pre]; cbn [app] in O.
      * destruct O as [[O1 _] _]. rewrite Z.gtb_ltb in Hof. apply Z.ltb_ge in Hof. lia.
      * destruct O as [_ O]. apply Forall_mid in O as [[Hz _] _]. exact Hz.
Qed.

(** ** The scans *)

Lemma inv_queue_nodup br E b sq : inv br E [] b -> NoDup (ids (rkbq_bufs (get_queue b sq))).
Proof.
  intros [_ D _ _ _ _ _ _ _ _ _ _ _]. apply list.NoDup_app in D as (D1 & _ & D).
  apply list.NoDup_app in D as (D2 & _ & D). apply list.NoDup_app in D as (D3 & _ & _). now destruct sq.
Qed.

Lemma inv_queue_bound br E H b sq : inv br E H b -> 0 <= zlen (rkbq_bufs (get_queue b sq)) <= N.
Proof. intros [_ _ _ B _ _ _ _ _ _ _ _ _]. destruct sq; cbn; lia. Qed.

Lemma blocking_sub_inv br E H b rb still now :
  inv br E H b -> inv br E H (blocking_sub b rb still) /\ called_back now b (blocking_sub b rb still).
Proof.
  intros I. assert (forall b1, inv br E H b1 -> inv br E H (set_blocking b1 (i32 (rkb_blocking_request_cnt b - 1)))) as H1
    by (intros b1 []; constructor; assumption).
  assert (called_back now b b) as K0.
  { split; [repeat split | exists []; now rewrite app_nil_r | exists []; rewrite app_nil_r; cbn; auto with lia]. }
  unfold blocking_sub. destruct (rq_blocking _); [| auto].
  destruct (_ =? still).
  - split; [apply inv_log; [repeat split | auto] |]. split; [repeat split | now exists [EvStateBroadcast] |].
    exists []. cbn. rewrite app_nil_r. auto with lia.
  - split; [auto |]. destruct K0. now split.
Qed.

Lemma called_back_trans now a b c :
  called_back now a b -> rkb_retrybufs b = rkb_retrybufs a -> called_back now b c -> called_back now a c.
Proof.
  intros [C1 (e1 & L1) _] E [C2 (e2 & L2) (add & R2 & A2)]. split.
  - eapply same_core_trans; eassumption.
  - exists (e1 ++ e2). now rewrite L2, L1, app_assoc.
  - exists add. now rewrite R2, E.
Qed.

Lemma called_back_queue now b b' sq :
  called_back now b b' ->
  exists extra, rkbq_bufs (get_queue b' sq) = rkbq_bufs (get_queue b sq) ++ extra /\
    (length extra <= 1)%nat /\ Forall (fun rb => rb_ts_timeout rb = retry_timeout now) extra.
Proof.
  intros [(E1 & E2 & E3 & _) _ (added & R & Hn & Ha)].
 
  destruct sq; cbn [get_queue]; [exists [] | now exists added | exists []];
    rewrite ?E2, ?E3, app_nil_r; repeat split; auto with lia; constructor.
Qed.

(** The body of the scans: the request is taken off its queue and called back. *)
Lemma take_call_inv br E b sq pre rb rb' next err now still (sub : bool) :
  inv br E [] b -> rkbq_bufs (get_queue b sq) = pre ++ rb :: next ->
  rb_id rb' = rb_id rb -> rb_rq rb' = rb_rq rb ->
  exists q' b', rd_kafka_bufq_deq (get_queue b sq) rb' = Some q' /\
    rd_kafka_buf_callback bc resp_cb
      (if sub then blocking_sub (put_queue b sq q') rb' still else put_queue b sq q') err None rb' now = Some b' /\
    inv (br || taken_broken sq rb) E [] b' /\ same_core (put_queue b sq q') b' /\
    (exists evs, rkb_log b' = rkb_log b ++ evs) /\
    exists rest', rkbq_bufs (get_queue b' sq) = pre ++ rest' /\
      foreach_next b' sq next = match next with [] => [] | _ => rest' end /\ 
      exists extra, rest' = next ++ extra /\ (length extra <= 1)%nat /\
        Forall (fun rb => rb_ts_timeout rb = retry_timeout now) extra.
Proof.
  intros I Eb Ei Er. destruct (take_inv br E [] b sq pre rb rb' next I Eb Ei Er) as (q' & Ed & Eq & I1).
  exists q'. set (b1 := if sub then _ else _).
  assert (inv (br || taken_broken sq rb) E [rb'] b1 /\ called_back now (put_queue b sq q') b1 /\
    rkb_retrybufs b1 = rkb_retrybufs (put_queue b sq q')) as (I2 & K2 & R2).
  { unfold b1. destruct sub.
    - destruct (blocking_sub_inv _ _ _ _ rb' still now I1) as [I2 K2]. split; [exact I2 |]. split; [exact K2 |].
      unfold blocking_sub. destruct (rq_blocking _); [| reflexivity]. now destruct (_ =? still).
    - split; [exact I1 |]. split; [| reflexivity]. split; [repeat split | exists []; now rewrite app_nil_r |].
      exists []. rewrite app_nil_r. auto. }
  destruct (callback_inv _ E [] b1 rb' err None now I2) as (b' & -> & I3 & K3); [exact Logic.I |].
  exists b'. split; [exact Ed |]. split; [reflexivity |]. split; [exact I3 |].
  pose proof (called_back_trans _ _ _ _ K2 R2 K3) as K. split; [apply (cb_core _ _ _ K) |].
  split. { destruct (cb_log _ _ _ K) as (evs & ->). exists evs. now destruct sq. }
  destruct (called_back_queue _ _ _ sq K) as (extra & Ex & Hx).
  assert (rkbq_bufs (get_queue (put_queue b sq q') sq) = pre ++ next) as Ey by now destruct sq.
  rewrite Ey, <- app_assoc in Ex. exists (next ++ extra). split; [exact Ex |].
  pose proof (inv_queue_nodup _ _ _ sq I3) as D3. rewrite Ex in D3.
  rewrite (foreach_suffix b' sq pre next extra Ex D3). split; [reflexivity | eauto].
Qed.

(** What a scan keeps of the broker. *)
Record scanned (b b' : broker) : Prop := {
  sd_state : rkb_state b' = rkb_state b;
  sd_conn : rkb_connid b' = rkb_connid b;
  sd_log : exists evs, rkb_log b' = rkb_log b ++ evs }.

Lemma scanned_refl b : scanned b b.
Proof. split; try reflexivity. exists []. now rewrite app_nil_r. Qed.

Lemma scanned_trans a b c : scanned a b -> scanned b c -> scanned a c.
Proof.
  intros [E1 E2 (e & L)] [E3 E4 (e' & L')]. split; try congruence.
  exists (e ++ e'). now rewrite L', L, app_assoc.
Qed.

Definition alive (now : Z) (rb : reqbuf) : Prop := now < rb_ts_timeout rb.

(** The rounds that a scan needs: a request that timed out may be met once more. *)
Definition scan_rounds (now : Z) (rest : list reqbuf) : nat :=
  sum_list (map (fun rb => if now <? rb_ts_timeout rb then 1%nat else 2%nat) rest).

Lemma rounds_app now a b : scan_rounds now (a ++ b) = (scan_rounds now a + scan_rounds now b)%nat.
Proof. unfold scan_rounds. induction a as [| x a IH]; cbn; [reflexivity | rewrite IH; lia]. Qed.

Lemma rounds_le now l : (scan_rounds now l <= 2 * length l)%nat.
Proof. unfold scan_rounds. induction l as [| rb l IH]; cbn; [lia |]. destruct (_ <? _); lia. Qed.

Lemma rounds_added now extra :
  now < retry_timeout now -> Forall (fun rb => rb_ts_timeout rb = retry_timeout now) extra ->
  scan_rounds now extra = length extra.
Proof.
  intros Hr. unfold scan_rounds. induction 1 as [| rb l E _ IH]; cbn; [reflexivity |].
  rewrite E, (proj2 (Z.ltb_lt _ _) Hr), IH. reflexivity.
Qed.

(** The loop over the rest of a queue; the requests before it are not due. *)
Record scan_done (now : Z) (br : bool) (E : list nat) (sq : scan_queue) (b b' : broker) (br' : bool) : Prop := {
  sc_inv : inv br' E [] b';
  sc_kept : scanned b b';
  sc_broken : br' = true -> br = true \/ sq = ScanOutbufs }.

(** A callback does not change the state of the broker. *)
Lemma callback_state b rb err resp now b' :
  rd_kafka_buf_callback bc resp_cb b err resp rb now = Some b' -> rkb_state b' = rkb_state b.
Proof.
  unfold rd_kafka_buf_callback. destruct (_ && _); [now intros [= <-] |].
  destruct (resp_cb _ _ _); [| now intros [= <-]]. unfold rd_kafka_buf_retry, rd_assert.
  destruct (_ >? 0); [| done]. destruct (_ || _); [now intros [= <-] |].
  destruct (_ && _); now intros [= <-].
Qed.

(** Once the request that was written in part is taken away no other one is. *)
Lemma taken_fresh br E b b1 sq pre rb next q' :
  inv br E [] b -> rkbq_bufs (get_queue b sq) = pre ++ rb :: next -> rkbq_bufs q' = pre ++ next ->
  (br = true -> Forall fresh (rkbq_bufs (rkb_outbufs b))) -> same_core (put_queue b sq q') b1 ->
  (if taken_broken sq rb then i32 (Z.b2z br + 1) else Z.b2z br) = Z.b2z (br || taken_broken sq rb) /\
  (br || taken_broken sq rb = true -> Forall fresh (rkbq_bufs (rkb_outbufs b1))).
Proof.
  intros I Eb Eq Hbr (_ & EO & _). unfold taken_broken.
  destruct (decide (sq = ScanOutbufs)) as [-> | Hsq].
  - rewrite bool_decide_true by reflexivity. cbn [andb get_queue put_queue set_outbufs rkb_outbufs] in *.
    rewrite EO, Eq. rewrite Eb in Hbr. destruct (Z.gtb_spec (rb_of rb) 0) as [Hof | Hof]; cbn [orb].
    + destruct br; [destruct (Forall_mid _ _ _ _ (Hbr eq_refl)) as [[Hz _] _]; lia |]. split; [reflexivity |].
      intros _. pose proof (iv_out _ _ _ _ _ _ _ I) as O. unfold outbufs_ok in O. rewrite Eb in O.
      destruct pre as [| x pre]; cbn [app] in *; [tauto |].
      destruct O as [_ O]. apply Forall_mid in O as [[Hz _] _]. lia.
    + rewrite orb_false_r. split; [reflexivity |]. intros Hb. apply (Forall_mid _ _ _ _ (Hbr Hb)).
  - rewrite bool_decide_false by assumption. cbn [andb]. rewrite orb_false_r. split; [reflexivity |].
    intros Hb. rewrite EO. destruct sq; cbn; [auto | auto | congruence].
Qed.

Lemma timeout_loop_inv n : forall br E b sq pre rest key err now cnt,
  inv br E [] b -> rkbq_bufs (get_queue b sq) = pre ++ rest -> 0 <= cnt -> cnt + Z.of_nat n <= 2 * N ->
  (br = true -> Forall fresh (rkbq_bufs (rkb_outbufs b))) ->
  exists b' cnt' br', timeout_scan_loop bc resp_cb n b sq rest key err now cnt (Z.b2z br) = Some (b', cnt', Z.b2z br') /\
    scan_done now br E sq b b' br' /\ 0 <= cnt' <= 2 * N /\
    (now <> 0 -> key = -1 -> now < retry_timeout now -> Forall (alive now) pre -> (scan_rounds now rest <= n)%nat ->
     Forall (alive now) (rkbq_bufs (get_queue b' sq))).
Proof.
  induction n as [| n IH]; intros br E b sq pre rest key err now cnt I Eb Hc Hn Hbr.
  { exists b, cnt, br. cbn. split; [reflexivity |]. split; [split; [exact I | apply scanned_refl | auto] |].
    split; [lia |]. intros _ _ _ Hp Hr. rewrite Eb. apply Forall_app_2; [exact Hp |].
    destruct rest as [| rb rest]; [constructor |]. cbn in Hr. destruct (_ <? _); lia. }
  destruct rest as [| rb next].
  { exists b, cnt, br. cbn. split; [reflexivity |]. split; [split; [exact I | apply scanned_refl | auto] |].
    split; [lia |]. intros _ _ _ Hp _. rewrite Eb, app_nil_r. exact Hp. }
  cbn [timeout_scan_loop].
  assert (foreach_next b sq next = next) as Hf.
  { rewrite (foreach_suffix b sq (pre ++ [rb]) next []).
    - destruct next; [reflexivity | apply app_nil_r].
    - rewrite Eb, app_nil_r, <- app_assoc. reflexivity.
    - rewrite app_nil_r, <- app_assoc. cbn [app]. rewrite <- Eb. eapply inv_queue_nodup, I. }
  assert (rkbq_bufs (get_queue b sq) = (pre ++ [rb]) ++ next) as Eb2 by (rewrite Eb, <- app_assoc; reflexivity).
  destruct (negb (now =? 0) && (rb_ts_timeout rb >? now)) eqn:El.
  { rewrite Hf. destruct (IH br E b sq (pre ++ [rb]) next key err now cnt I Eb2 Hc ltac:(lia) Hbr)
      as (b' & cnt' & br' & -> & K & Hc' & Ha). exists b', cnt', br'. split; [reflexivity |]. split; [exact K |].
    split; [exact Hc' |]. intros H0 Hk Hr Hp Hm. zbool. apply Ha; try assumption.
    - apply Forall_app_2; [exact Hp |]. constructor; [unfold alive; lia | constructor].
    - cbn in Hm. destruct (_ <? _) eqn:Ef in Hm; zbool; cbn in Hm; fold (scan_rounds now next) in Hm; lia. }
  destruct (negb (key =? -1) && negb (rq_ApiKey (rb_rq rb) =? key)) eqn:Ek.
  { rewrite Hf. destruct (IH br E b sq (pre ++ [rb]) next key err now cnt I Eb2 Hc ltac:(lia) Hbr)
      as (b' & cnt' & br' & -> & K & Hc' & Ha). exists b', cnt', br'. split; [reflexivity |]. split; [exact K |].
    split; [exact Hc' |]. intros H0 -> Hr Hp Hm. discriminate. }
  set (rb' := rb_set_sent rb _ _).
  destruct (take_call_inv br E b sq pre rb rb' next err now 0 (bool_decide (sq = ScanWaitresps)) I Eb eq_refl eq_refl)
    as (q' & b1 & Ed & Ec & I1 & K1 & L1 & rest' & E1 & Ef & extra & Ex & Hx1 & Hx2).
  destruct (take_inv br E [] b sq pre rb rb' next I Eb eq_refl eq_refl) as (q2 & Ed2 & Eq & _).
  rewrite Ed in Ed2. injection Ed2 as <-. rewrite Ed, Ec.
  destruct (taken_fresh br E b b1 sq pre rb next q' I Eb Eq Hbr K1) as [Epc Hbr1].
  unfold taken_broken in Epc at 1. rewrite Epc. rewrite swrap_small by (unfold in_i; lia).
  rewrite (bool_decide_true (rkb_state b1 = _)) by apply (callback_state _ _ _ _ _ _ Ec).
  assert (scanned b b1) as Kb by (destruct K1 as (? & _ & _ & _ & ? & _); split; try exact L1; now destruct sq).
  assert (exists pre2 rest2, foreach_next b1 sq next = rest2 /\ rkbq_bufs (get_queue b1 sq) = pre2 ++ rest2 /\
    (now < retry_timeout now -> Forall (alive now) pre -> Forall (alive now) pre2) /\
    (now < retry_timeout now -> (scan_rounds now rest2 <= scan_rounds now next + 1)%nat))
    as (pre2 & rest2 & -> & E2 & Hp2 & Hm2).
  { assert (now < retry_timeout now -> Forall (alive now) extra) as Hx
      by (intros Hr; eapply list.Forall_impl; [exact Hx2 |]; unfold alive; intros ? ->; exact Hr).
    destruct next as [| y next].
    - exists (pre ++ rest'), []. rewrite app_nil_r. rewrite Ex in *. cbn [app] in *. split; [exact Ef |]. split; [exact E1 |].
      split; [intros; apply Forall_app_2; auto | cbn; lia].
    - exists pre, rest'. split; [exact Ef |]. split; [exact E1 |]. split; [auto |].
      intros Hr. rewrite Ex, rounds_app, (rounds_added now extra Hr Hx2). lia. }
  destruct (IH (br || taken_broken sq rb) E b1 sq pre2 rest2 key err now (cnt + 1) I1 E2 ltac:(lia) ltac:(lia) Hbr1)
    as (b' & cnt' & br' & -> & [K2 K3 K4] & Hc' & Ha).
  exists b', cnt', br'. split; [reflexivity |]. split; [| split; [exact Hc' |]].
  - split; [exact K2 | eapply scanned_trans; eassumption |]. intros Hb. destruct (K4 Hb) as [Hb' | ?]; [| now right].
    apply orb_true_iff in Hb' as [? | Ht]; [now left |]. right. unfold taken_broken in Ht.
    apply andb_true_iff in Ht as [Ht _]. now apply bool_decide_eq_true in Ht.
  - intros H0 Hk Hr Hp Hm. apply Ha; auto. specialize (Hm2 Hr).
    rewrite <- (Z.eqb_eq) in *. cbn in Hm. fold (scan_rounds now next) in Hm.
    assert ((now <? rb_ts_timeout rb) = false) as Hd.
    { destruct (Z.eqb_spec now 0); [congruence |]. cbn in El. rewrite Z.gtb_ltb in El. exact El. }
    rewrite Hd in Hm. lia.
Qed.

(** ** Purges and the loss of the connection *)

Lemma purge_loop_inv l : forall br E H b err now,
  inv br E (l ++ H) b ->
  exists b', bufq_purge_loop bc resp_cb b l err now = Some b' /\ inv br E H b' /\ same_core b b' /\
    (exists evs, rkb_log b' = rkb_log b ++ evs).
Proof.
  induction l as [| rb l IH]; intros br E H b err now I.
  { exists b. cbn. split; [reflexivity |]. split; [exact I |]. split; [apply same_core_refl |]. exists []. now rewrite app_nil_r. }
  cbn [bufq_purge_loop app] in *. destruct (callback_inv br E (l ++ H) b rb err None now I) as (b1 & -> & I1 & [K1 (e1 & L1) _]);
    [exact Logic.I |].
  destruct (IH br E H b1 err now I1) as (b' & -> & I' & K' & (e2 & L2)).
  exists b'. split; [reflexivity |]. split; [exact I' |]. split; [eapply same_core_trans; eassumption |].
  exists (e1 ++ e2). now rewrite L2, L1, app_assoc.
Qed.

(** All requests taken off the connection's queues. *)
Lemma emptied_inv br E b b1 :
  inv br E [] b -> rkb_state b1 = STATE_DOWN -> rkbq_bufs (rkb_outbufs b1) = [] -> rkbq_bufs (rkb_waitresps b1) = [] ->
  cnt_ok (rkb_outbufs b1) -> cnt_ok (rkb_waitresps b1) ->
  rkb_retrybufs b1 = rkb_retrybufs b -> rkb_corrid b1 = rkb_corrid b -> rkb_connid b1 = rkb_connid b ->
  rkb_max_inflight b1 = rkb_max_inflight b ->
  (exists evs, rkb_log b1 = rkb_log b ++ evs /\ Forall neutral evs) ->
  inv false E (rkbq_bufs (rkb_waitresps b) ++ rkbq_bufs (rkb_outbufs b)) b1.
Proof.
  intros [A D C B S O W R I F X (w & Hw & Hc & Hp) P] Est EO EW CO CW ER Eco Ecn Emx (evs & El & Hn).
  assert (called evs = [] /\ retried evs = [] /\ Forall response_ok evs /\ forall w, wire_run w evs = Some w)
    as (N1 & N2 & N3 & N4).
  { clear - Hn. induction Hn as [| e l (H1 & H2 & H3 & H4) _ (I1 & I2 & I3 & I4)]; [auto |].
    split; [unfold called in *; cbn; now rewrite H1, I1 |]. split; [unfold retried in *; cbn; now rewrite H2, I2 |].
    split; [now constructor |]. intros w. cbn. rewrite H4. cbn. apply I4. }
  constructor; rewrite ?EO, ?EW, ?ER, ?Eco, ?Ecn, ?Emx, ?El, ?called_app, ?retried_app, ?N1, ?N2, ?app_nil_r.
  - rewrite A, ids_app. change (ids []) with (@nil nat). cbn [app]. solve_Permutation.
  - rewrite ids_app. eapply nodup_perm; [| exact D]. change (ids []) with (@nil nat). cbn [app]. solve_Permutation.
  - tauto.
  - rewrite zlen_app. cbn [length] in *. lia.
  - destruct S as (S1 & S2 & S3 & _). split; [constructor |]. split; [constructor |]. split; [exact S3 |]. now apply Forall_app_2.
  - unfold outbufs_ok. now rewrite EO.
  - split; constructor.
  - exact R.
  - rewrite zlen_app. lia.
  - cbn [length] in *. lia.
  - auto.
  - exists w. rewrite El, wire_run_app, Hw. cbn. rewrite N4. split; [reflexivity |]. split; [now rewrite Ecn |].
    intros _ Hcon. unfold connected in Hcon. rewrite Est in Hcon. cbn in Hcon. lia.
  - now apply Forall_app_2.
Qed.

(** What the loss of the connection leaves. *)
Record failed (b b' : broker) : Prop := {
  fl_state : rkb_state b' = STATE_DOWN;
  fl_out : rkbq_bufs (rkb_outbufs b') = [];
  fl_wait : rkbq_bufs (rkb_waitresps b') = [];
  fl_conn : rkb_connid b' = rkb_connid b;
  fl_log : exists evs, rkb_log b' = rkb_log b ++ evs }.

Lemma broker_fail_inv br E b err now :
  inv br E [] b ->
  exists b', rd_kafka_broker_fail bc resp_cb b err now = Some b' /\ inv false E [] b' /\ failed b b'.
Proof.
  intros I. pose proof (iv_cnt _ _ _ _ _ _ _ I) as (CO & CW & _). unfold rd_kafka_broker_fail.
  cbn [rd_kafka_bufq_concat rd_kafka_bufq_init rkbq_bufs rkbq_cnt rkbq_msg_cnt app].
  set (b0 := if bool_decide _ then _ else _).
  assert (same_core b b0 /\ rkb_retrybufs b0 = rkb_retrybufs b /\ rkb_log b0 = rkb_log b ++ [EvBrokerFail err])
    as ((Es & EO & EW & Eco & Ecn & Emx) & ER & EL) by (unfold b0; destruct (bool_decide _); repeat split).
  clearbody b0. set (b1 := change_state b0 STATE_DOWN).
  assert (rkb_state b1 = STATE_DOWN /\ rkb_outbufs b1 = rkb_outbufs b /\ rkb_waitresps b1 = rkb_waitresps b /\
    rkb_retrybufs b1 = rkb_retrybufs b /\ rkb_corrid b1 = rkb_corrid b /\ rkb_connid b1 = rkb_connid b /\
    rkb_max_inflight b1 = rkb_max_inflight b /\ exists evs, rkb_log b1 = rkb_log b ++ evs /\ Forall neutral evs)
    as (Es1 & EO1 & EW1 & ER1 & Eco1 & Ecn1 & Emx1 & (evs & EL1 & Hn)).
  { unfold b1, change_state. destruct (bool_decide_reflect (rkb_state b0 = STATE_DOWN)) as [Hd | Hd].
    - do 7 (split; [assumption |]). exists [EvBrokerFail err]. split; [exact EL |]. repeat constructor.
    - cbn. do 7 (split; [assumption || reflexivity |]). exists [EvBrokerFail err; EvStateBroadcast]. rewrite EL, <- app_assoc.
      split; [reflexivity |]. repeat constructor. }
  rewrite EW1. cbn [set_waitresps rkb_outbufs]. rewrite EO1.
  assert (inv false E (rkbq_bufs (rkb_waitresps b) ++ rkbq_bufs (rkb_outbufs b))
    (set_blocking (set_outbufs (set_waitresps b1 rd_kafka_bufq_init) rd_kafka_bufq_init) 0)) as I1.
  { apply (emptied_inv br E b); try assumption; try reflexivity. eauto. }
  destruct (purge_loop_inv _ _ _ _ _ err now I1) as (b2 & E2 & I2 & K2 & (e2 & L2)).
  unfold rd_kafka_bufq_purge. cbn [rkbq_bufs]. fold b1. rewrite E2.
  rewrite <- (app_nil_r (rkbq_bufs (rkb_outbufs b))) in I2.
  destruct (purge_loop_inv _ _ _ _ _ (if err =? ERR__TIMED_OUT then ERR__TIMED_OUT_QUEUE else err) now I2)
    as (b3 & -> & I3 & K3 & (e3 & L3)).
  pose proof (same_core_trans _ _ _ K2 K3) as (Es3 & EO3 & EW3 & _ & Ecn3 & _).
  unfold rd_kafka_bufq_connection_reset. rewrite EO3. cbn [length rkbq_bufs set_blocking set_outbufs rkb_outbufs connection_reset_loop].
  assert (inv false E [] b3 /\ failed b b3) as [I4 F4].
  { split; [exact I3 |]. cbn in Es3, EW3, Ecn3. split; try (rewrite ?Es3, ?EO3, ?EW3, ?Ecn3; assumption || reflexivity).
    exists ((evs ++ e2) ++ e3). rewrite L3, L2. cbn. now rewrite EL1, <- !app_assoc. }
  destruct (_ && _); eexists; (split; [reflexivity |]).
  - split; [apply inv_log; [repeat split | exact I4] |]. destruct F4 as [? ? ? ? (e4 & L4)]. split; try assumption.
    exists (e4 ++ [EvMetadataRefresh]). cbn. now rewrite L4, app_assoc.
  - auto.
Qed.

Lemma timeout_scan_inv br E b sq key err now :
  inv br E [] b -> (br = true -> Forall fresh (rkbq_bufs (rkb_outbufs b))) ->
  exists b' cnt' br', timeout_scan_loop bc resp_cb (2 * length (rkbq_bufs (get_queue b sq))) b sq
      (rkbq_bufs (get_queue b sq)) key err now 0 (Z.b2z br) = Some (b', cnt', Z.b2z br') /\
    scan_done now br E sq b b' br' /\ 0 <= cnt' <= 2 * N /\
    (now <> 0 -> key = -1 -> now < retry_timeout now -> Forall (alive now) (rkbq_bufs (get_queue b' sq))).
Proof.
  intros I Hbr. pose proof (inv_queue_bound _ _ _ _ sq I).
  destruct (timeout_loop_inv (2 * length (rkbq_bufs (get_queue b sq))) br E b sq [] (rkbq_bufs (get_queue b sq)) key err now 0
    I eq_refl ltac:(lia) ltac:(lia) Hbr) as (b' & cnt' & br' & -> & K & Hc & Ha).
  exists b', cnt', br'. split; [reflexivity |]. split; [exact K |]. split; [exact Hc |].
  intros H0 Hk Hr. apply Ha; auto. apply rounds_le.
Qed.

Lemma broker_timeout_scan_inv E b now :
  inv false E [] b ->
  exists b', rd_kafka_broker_timeout_scan bc resp_cb b now = Some b' /\ inv false E [] b' /\
    (rkb_connid b' = rkb_connid b) /\ (exists evs, rkb_log b' = rkb_log b ++ evs) /\
    (connected b' -> connected b).
Proof.
  intros I. unfold rd_kafka_broker_timeout_scan, rd_kafka_broker_bufq_timeout_scan.
  destruct (timeout_scan_inv false E b ScanWaitresps (-1) ERR__TIMED_OUT now I ltac:(discriminate))
    as (b1 & c1 & br1 & E1 & [I1 K1 B1] & H1 & _).
  change (Z.b2z false) with 0 in E1. rewrite E1. clear E1.
  assert (br1 = false) as -> by (destruct br1; [destruct (B1 eq_refl); discriminate | reflexivity]).
  destruct (timeout_scan_inv false E b1 ScanRetrybufs (-1) ERR__TIMED_OUT_QUEUE now I1 ltac:(discriminate))
    as (b2 & c2 & br2 & E2 & [I2 K2 B2] & H2 & _).
  change (Z.b2z false) with 0 in E2. rewrite E2. clear E2.
  assert (br2 = false) as -> by (destruct br2; [destruct (B2 eq_refl); discriminate | reflexivity]).
  destruct (timeout_scan_inv false E b2 ScanOutbufs (-1) ERR__TIMED_OUT_QUEUE now I2 ltac:(discriminate))
    as (b3 & c3 & br3 & E3 & [I3 K3 _] & H3 & _).
  change (Z.b2z false) with 0 in E3. rewrite E3. clear E3.
  pose proof (scanned_trans _ _ _ (scanned_trans _ _ _ K1 K2) K3) as [Ks Kc (e & Kl)].
  rewrite swrap_small by (unfold in_i; destruct br3; cbn [Z.b2z]; lia).
  set (b4 := set_req_timeouts b3 _).
  assert (inv br3 E [] b4) as I4 by (destruct I3; constructor; assumption).
  destruct br3; cbn [Z.b2z] in *.
  - replace (c1 + c2 + c3 + 1 >? 0) with true by (symmetry; apply Z.gtb_lt; lia). cbn [Z.gtb Z.compare orb].
    destruct (broker_fail_inv true E b4 ERR__TIMED_OUT now I4) as (b' & -> & I' & [Fs _ _ Fc (e' & Fl)]).
    exists b'. split; [reflexivity |]. split; [exact I' |]. split; [now rewrite Fc |].
    split; [exists (e ++ e'); rewrite Fl; cbn; now rewrite Kl, app_assoc |].
    unfold connected. rewrite Fs. cbn. lia.
  - destruct (c1 + c2 + c3 + 0 >? 0).
    + cbn [Z.gtb Z.compare orb]. destruct (_ && _).
      * destruct (broker_fail_inv false E b4 ERR__TIMED_OUT now I4) as (b' & -> & I' & [Fs _ _ Fc (e' & Fl)]).
        exists b'. split; [reflexivity |]. split; [exact I' |]. split; [now rewrite Fc |].
        split; [exists (e ++ e'); rewrite Fl; cbn; now rewrite Kl, app_assoc |].
        unfold connected. rewrite Fs. cbn. lia.
      * exists b4. split; [reflexivity |]. split; [exact I4 |]. split; [exact Kc |]. split; [now exists e |].
        unfold connected. cbn. now rewrite Ks.
    + exists b3. split; [reflexivity |]. split; [exact I3 |]. split; [exact Kc |]. split; [now exists e |].
      unfold connected. now rewrite Ks.
Qed.

(** ** Enqueueing *)

Lemma calc_timeout_same rb now :
  rb_rq (rd_kafka_buf_calc_timeout bc rb now) = rb_rq rb /\ rb_of (rd_kafka_buf_calc_timeout bc rb now) = rb_of rb /\
  rb_corrid (rd_kafka_buf_calc_timeout bc rb now) = rb_corrid rb.
Proof. unfold rd_kafka_buf_calc_timeout. destruct (negb _); [| destruct (negb _)]; auto. Qed.

Lemma prio_insert_perm rb l : prio_insert rb l ≡ₚ rb :: l.
Proof.
  induction l as [| x l IH]; cbn; [reflexivity |]. destruct (_ && _); [reflexivity |]. rewrite IH. constructor.
Qed.

Lemma prio_insert_fresh rb l : fresh rb -> Forall fresh l -> Forall fresh (prio_insert rb l).
Proof. intros Hr Hl. rewrite prio_insert_perm. now constructor. Qed.

(** A request that was not written yet comes in: the queue keeps its order behind the one
    that may be written in part. *)
Lemma insert_ok b q' rb bufs :
  outbufs_ok b -> fresh rb -> sized rb -> rkbq_bufs q' = bufs ->
  bufs = rkbq_bufs (rkb_outbufs b) ++ [rb] \/ bufs = prio_insert rb (rkbq_bufs (rkb_outbufs b)) ->
  outbufs_ok (set_outbufs b q') /\ head_part bufs = head_part (rkbq_bufs (rkb_outbufs b)).
Proof.
  intros O F S Eq Hb. assert (head_ok (set_outbufs b q') rb) as Hr.
  { destruct F as [F1 F2]. unfold sized in S. unfold head_ok. rewrite F1, F2. repeat split; try lia; intros; lia. }
  unfold outbufs_ok in *. cbn [set_outbufs rkb_outbufs]. rewrite Eq. clear Eq.
  destruct (rkbq_bufs (rkb_outbufs b)) as [| x l] eqn:EO; cbn [app prio_insert] in Hb.
  - assert (bufs = [rb]) as -> by (destruct Hb; assumption). split; [now split |]. cbn. now rewrite (proj1 F).
  - destruct O as [O1 O2].
    assert (bufs = x :: l ++ [rb] \/ bufs = x :: prio_insert rb l \/ rb_corrid x = 0 /\ bufs = rb :: x :: l) as Hc.
    { destruct Hb as [-> | ->]; [now left |]. right. destruct (_ && _) eqn:Ec; [right | now left].
      apply andb_true_iff in Ec as [_ Ec]. split; [now apply Z.eqb_eq | reflexivity]. }
    destruct Hc as [-> | [-> | [Hx ->]]].
    + split; [| reflexivity]. split; [exact O1 |]. apply Forall_app_2; [exact O2 |]. now constructor.
    + split; [| reflexivity]. split; [exact O1 |]. now apply prio_insert_fresh.
    + destruct O1 as (_ & O3 & _). split; [| cbn; now rewrite (proj1 F), (O3 Hx)].
      split; [exact Hr |]. constructor; [split; auto | exact O2].
Qed.

Lemma enq0_inv br E H b rb now :
  inv br E (rb :: H) b -> fresh rb ->
  inv br E H (rd_kafka_broker_buf_enq0 bc b rb now) /\
  rkb_connid (rd_kafka_broker_buf_enq0 bc b rb now) = rkb_connid b /\
  rkb_waitresps (rd_kafka_broker_buf_enq0 bc b rb now) = rkb_waitresps b /\
  rkb_retrybufs (rd_kafka_broker_buf_enq0 bc b rb now) = rkb_retrybufs b /\
  (connected (rd_kafka_broker_buf_enq0 bc b rb now) <-> connected b) /\
  exists evs, rkb_log (rd_kafka_broker_buf_enq0 bc b rb now) = rkb_log b ++ evs.
Proof.
  intros I F. unfold rd_kafka_broker_buf_enq0. set (b0 := if _ && _ then _ else b).
  assert (inv br E (rb :: H) b0 /\ rkb_connid b0 = rkb_connid b /\ rkb_waitresps b0 = rkb_waitresps b /\
    rkb_retrybufs b0 = rkb_retrybufs b /\ (connected b0 <-> connected b) /\ exists evs, rkb_log b0 = rkb_log b ++ evs)
    as (I0 & Ec & Ew & Er & Hcon & He).
  { unfold b0. destruct (sparse_connections bc); cbn [andb]; [destruct (bool_decide_reflect (rkb_state b = STATE_INIT)) as [Hi |] |].
    - assert (forall v, inv br E (rb :: H) (set_persistconn b v)) as Hv by (intros v; destruct I; constructor; assumption).
      split; [apply inv_change_state; [unfold connected; cbn; rewrite Hi; cbn; lia | apply Hv] |].
      unfold change_state. cbn. rewrite bool_decide_false by congruence. cbn. unfold connected. cbn. rewrite Hi. cbn.
      do 3 (split; [auto |]). split; [lia | eauto].
    - do 5 (split; [auto |]). exists []. now rewrite app_nil_r.
    - do 5 (split; [auto |]). exists []. now rewrite app_nil_r. }
  clearbody b0. destruct (calc_timeout_same (rb_set_enq rb now) now) as (Q1 & Q2 & Q3).
  set (rb' := rd_kafka_buf_calc_timeout _ _ _) in *. set (bufs := if rq_prio _ =? 0 then _ else _).
  assert (fresh rb') as F' by (destruct F as [F1 F2]; split; [now rewrite Q2 | now rewrite Q3]).
  assert (rb_id rb' = rb_id rb) as Ei by (unfold rb_id; now rewrite Q1).
  destruct I0 as [A D (C1 & C2 & C3) B (S1 & S2 & S3 & S4) O W R I0 Fl X (w & Hw & Hc & Hp) P].
  assert (sized rb') as Hs by (inversion S4; subst; unfold sized; now rewrite Q1).
  assert (bufs = rkbq_bufs (rkb_outbufs b0) ++ [rb'] \/ bufs = prio_insert rb' (rkbq_bufs (rkb_outbufs b0))) as Hb
    by (unfold bufs; destruct (_ =? 0); auto).
  assert (bufs ≡ₚ rb' :: rkbq_bufs (rkb_outbufs b0)) as Pb.
  { destruct Hb as [-> | ->]; [| apply prio_insert_perm]. rewrite Permutation_app_comm. reflexivity. }
  set (q' := mk_bufq bufs _ _). destruct (insert_ok b0 q' rb' bufs O F' Hs eq_refl Hb) as [O' Ep].
  assert (ids bufs ≡ₚ rb_id rb :: ids (rkbq_bufs (rkb_outbufs b0))) as Pi
    by (rewrite <- Ei, <- ids_cons; unfold ids; now rewrite Pb).
  assert (zlen bufs = zlen (rkbq_bufs (rkb_outbufs b0)) + 1) as Hl
    by (apply Permutation_length in Pb; rewrite Pb; cbn [length]; lia).
  split; [| cbn; auto 10].
  rewrite ids_cons in A, D. cbn [length] in B.
  constructor; cbn [set_outbufs rkb_outbufs rkb_waitresps rkb_retrybufs rkb_log rkb_corrid rkb_max_inflight rkbq_bufs q'];
    try assumption.
  - rewrite A, Pi. solve_Permutation.
  - eapply nodup_perm; [| exact D]. rewrite Pi. solve_Permutation.
  - split; [| auto]. unfold cnt_ok in *. cbn. rewrite Hl, C1. rewrite swrap_small by (unfold in_i; lia). lia.
  - lia.
  - inversion S4; subst. split; [| auto]. rewrite Pb. now constructor.
  - intros Hn. destruct (X Hn) as [X1 X2]. split; [exact X1 |]. rewrite Pb. now constructor.
  - exists w. split; [exact Hw |]. split; [exact Hc |]. cbn. rewrite Ep. exact Hp.
Qed.

(** A request comes in. *)
Lemma intake br E b rb :
  inv br E [] b -> sized rb ->
  zlen (rkbq_bufs (rkb_outbufs b)) + zlen (rkbq_bufs (rkb_waitresps b)) + zlen (rkbq_bufs (rkb_retrybufs b)) < N ->
  rb_id rb ∉ ids (rkbq_bufs (rkb_outbufs b)) ++ ids (rkbq_bufs (rkb_waitresps b)) ++ ids (rkbq_bufs (rkb_retrybufs b)) ->
  inv br (rb_id rb :: E) [rb] b.
Proof.
  intros [A D C B S O W R I F X Y P] Hs Hb Hid. change (ids []) with (@nil nat) in *. rewrite app_nil_r in D. cbn [app] in A.
  constructor; try assumption; rewrite ?ids_cons; change (ids []) with (@nil nat).
  - cbn [app]. rewrite A. solve_Permutation.
  - apply (nodup_perm (rb_id rb :: (ids (rkbq_bufs (rkb_outbufs b)) ++ ids (rkbq_bufs (rkb_waitresps b)) ++
      ids (rkbq_bufs (rkb_retrybufs b))))); [solve_Permutation |]. now apply list.NoDup_cons.
  - cbn [length]. lia.
  - destruct S as (? & ? & ? & _). repeat split; try assumption. constructor; [assumption | constructor].
Qed.

Lemma enq_replyq_inv br E b rb now :
  inv br E [rb] b -> rb_of rb = 0 -> rb_corrid rb = 0 ->
  exists b', rd_kafka_broker_buf_enq_replyq bc resp_cb b rb now = Some b' /\ inv br E [] b' /\
    rkb_connid b' = rkb_connid b /\ (connected b' <-> connected b) /\ (exists evs, rkb_log b' = rkb_log b ++ evs).
Proof.
  intros I E1 E2. unfold rd_kafka_broker_buf_enq_replyq, rd_kafka_broker_buf_enq2.
  set (rb' := if negb _ then _ else _).
  assert (inv br E [rb'] b /\ fresh rb') as [I' F].
  { unfold rb'. destruct (negb _); [| split; [exact I | now split]]. split; [| now split].
    destruct I as [? ? ? ? (? & ? & ? & HS) ? ? ? ? ? ? ? ?]. constructor; try assumption. repeat split; try assumption.
    inversion HS; subst. constructor; [assumption | constructor]. }
  destruct (bc_internal bc).
  - destruct (callback_inv br E [] b rb' ERR__TRANSPORT None now I' Logic.I) as (b' & -> & Ib & [(Es & _ & _ & _ & Ec & _) L _]).
    exists b'. split; [reflexivity |]. split; [exact Ib |]. split; [exact Ec |]. split; [| exact L].
    unfold connected. now rewrite Es.
  - eexists. split; [reflexivity |]. destruct (enq0_inv br E [] b rb' now I' F) as (Ib & Ec & _ & _ & Hcon & L). auto.
Qed.

(** ** Retries *)

(** What is left in the retry queue waits for its time. *)
Definition retry_waits (now : Z) (b : broker) : Prop :=
  match rkbq_bufs (rkb_retrybufs b) with [] => True | rb :: _ => now < rb_ts_retry rb end.

Record moved (E : list nat) (br : bool) (b b' : broker) : Prop := {
  mv_inv : inv br E [] b';
  mv_conn : rkb_connid b' = rkb_connid b;
  mv_state : connected b' <-> connected b;
  mv_log : exists evs, rkb_log b' = rkb_log b ++ evs }.

Lemma moved_refl E br b : inv br E [] b -> moved E br b b.
Proof. intros I. split; [exact I | reflexivity | reflexivity |]. exists []. now rewrite app_nil_r. Qed.

Lemma retry_move_inv n : forall br E b now nw,
  inv br E [] b -> (length (rkbq_bufs (rkb_retrybufs b)) <= n)%nat ->
  exists b' nw', retry_bufs_move_loop bc n b now nw = Some (b', nw') /\ moved E br b b' /\ retry_waits now b'.
Proof.
  induction n as [| n IH]; intros br E b now nw I Hl.
  { exists b, nw. split; [reflexivity |]. split; [now apply moved_refl |]. unfold retry_waits.
    destruct (rkbq_bufs (rkb_retrybufs b)); [exact Logic.I | cbn in Hl; lia]. }
  cbn [retry_bufs_move_loop]. destruct (rkbq_bufs (rkb_retrybufs b)) as [| rb l] eqn:ER.
  { exists b, nw. split; [reflexivity |]. split; [now apply moved_refl |]. unfold retry_waits. now rewrite ER. }
  destruct (Z.gtb_spec (rb_ts_retry rb) now) as [Hw | _].
  { eexists b, _. split; [reflexivity |]. split; [now apply moved_refl |]. unfold retry_waits. rewrite ER. lia. }
  destruct (take_inv br E [] b ScanRetrybufs [] rb rb l I ER eq_refl eq_refl) as (q & Ed & Eq & I1).
  cbn [get_queue put_queue] in Ed, I1. rewrite Ed. unfold taken_broken in I1. cbn in I1. rewrite orb_false_r in I1.
  assert (fresh rb) as F by (pose proof (iv_retry _ _ _ _ _ _ _ I) as R; rewrite ER in R; now inversion R).
  destruct (enq0_inv br E [] _ rb now I1 F) as (I2 & Ec & _ & Er & Hcon & (e & L)).
  destruct (IH br E _ now nw I2) as (b' & nw' & -> & [I' Ec' Hcon' (e' & L')] & Hw).
  { rewrite Er. cbn. rewrite Eq. cbn in Hl |- *. lia. }
  exists b', nw'. split; [reflexivity |]. split; [| exact Hw]. split; [exact I' | now rewrite Ec' | now rewrite Hcon', Hcon |].
  exists (e ++ e'). rewrite L', L. cbn. now rewrite app_assoc.
Qed.

(** ** The purge of a partition's requests *)

(** The purge keeps a request of another kind or partition, and one written in part. *)
Definition purge_keeps (rktp : nat) (rb : reqbuf) : bool :=
  negb (rq_ApiKey (rb_rq rb) =? RD_KAFKAP_Produce) || negb (rq_rktp (rb_rq rb) =? rktp)%nat || (rb_of rb >? 0).

Lemma purge_toppar_inv n : forall E b pre rest rktp err now cnt,
  inv false E [] b -> rkbq_bufs (rkb_outbufs b) = pre ++ rest -> (length rest <= n)%nat ->
  Forall (fun rb => purge_keeps rktp rb = true) pre ->
  exists b' cnt', purge_by_toppar_loop bc resp_cb n b rest rktp err now cnt = Some (b', cnt') /\ inv false E [] b' /\
    scanned b b' /\ Forall (fun rb => purge_keeps rktp rb = true) (rkbq_bufs (rkb_outbufs b')).
Proof.
  induction n as [| n IH]; intros E b pre rest rktp err now cnt I Eb Hl Hpre.
  { destruct rest; [| cbn in Hl; lia]. exists b, cnt. split; [reflexivity |]. split; [exact I |].
    split; [apply scanned_refl |]. now rewrite Eb, app_nil_r. }
  destruct rest as [| rb next].
  { exists b, cnt. split; [reflexivity |]. split; [exact I |]. split; [apply scanned_refl |]. now rewrite Eb, app_nil_r. }
  cbn [purge_by_toppar_loop]. change (negb _ || negb _ || _) with (purge_keeps rktp rb).
  cbn in Hl. destruct (purge_keeps rktp rb) eqn:Es.
  - assert (rkbq_bufs (rkb_outbufs b) = (pre ++ [rb]) ++ next) as Eb2 by (rewrite Eb, <- app_assoc; reflexivity).
    assert (foreach_next b ScanOutbufs next = next) as ->.
    { rewrite (foreach_suffix b ScanOutbufs (pre ++ [rb]) next []).
      - destruct next; [reflexivity | apply app_nil_r].
      - cbn. now rewrite app_nil_r.
      - rewrite app_nil_r, <- Eb2. apply (inv_queue_nodup _ _ _ ScanOutbufs I). }
    apply (IH E b (pre ++ [rb]) next rktp err now cnt I Eb2); [lia |]. apply Forall_app_2; [exact Hpre | now constructor].
  - pose proof Es as Es'. apply orb_false_iff in Es' as [_ Hof].
    destruct (take_call_inv false E b ScanOutbufs pre rb rb next err now 0 false I Eb eq_refl eq_refl)
      as (q' & b1 & Ed & Ec & I1 & (Es1 & EO1 & _ & _ & Ec1 & _) & L1 & rest' & E1 & Ef & extra & Ex & _).
    destruct (take_inv false E [] b ScanOutbufs pre rb rb next I Eb eq_refl eq_refl) as (q2 & Ed2 & Eq2 & _).
    cbn [get_queue put_queue] in *. rewrite Ed in Ed2. injection Ed2 as <-.
    rewrite Ed, Ec. unfold taken_broken in I1. rewrite Hof in I1. cbn [andb orb] in I1.
    rewrite bool_decide_true in I1 by reflexivity. cbn [andb] in I1.
    assert (rkbq_bufs (rkb_outbufs b1) = pre ++ next) as EO2 by (rewrite EO1; exact Eq2).
    assert (foreach_next b1 ScanOutbufs next = next) as ->.
    { rewrite (foreach_suffix b1 ScanOutbufs pre next []).
      - destruct next; [reflexivity | apply app_nil_r].
      - cbn. now rewrite app_nil_r.
      - rewrite app_nil_r, <- EO2. apply (inv_queue_nodup _ _ _ ScanOutbufs I1). }
    destruct (IH E b1 pre next rktp err now (i32 (cnt + 1)) I1 EO2 ltac:(lia) Hpre) as (b' & cnt' & -> & I' & K & Hk).
    exists b', cnt'. split; [reflexivity |]. split; [exact I' |]. split; [| exact Hk]. eapply scanned_trans; [| exact K].
    split; [exact Es1 | exact Ec1 | exact L1].
Qed.

(** ** Responses *)

Lemma req_response_inv E b resp now :
  inv false E [] b ->
  exists b' r, rd_kafka_req_response bc resp_cb b resp now = Some (b', r) /\ inv false E [] b' /\ scanned b b'.
Proof.
  intros I. unfold rd_kafka_req_response, rd_kafka_waitresp_find.
  destruct (list_find _ _) as [[i rb] |] eqn:Ef.
  2: { exists b, false. split; [reflexivity |]. split; [exact I | apply scanned_refl]. }
  apply list_find_Some in Ef as (Hl & Hcor & _). apply list_elem_of_split_length in Hl as (pre & post & El & _).
  set (rb' := rb_set_sent rb _ _). cbn zeta.
  destruct (blocking_sub_inv false E [] b rb' 1 now I) as [I1 K1].
  assert (rkbq_bufs (rkb_waitresps (blocking_sub b rb' 1)) = pre ++ rb :: post) as E1.
  { destruct (cb_core _ _ _ K1) as (_ & _ & -> & _). exact El. }
  destruct (take_inv false E [] _ ScanWaitresps pre rb rb' post I1 E1 eq_refl eq_refl) as (q & Ed & Eq & I2).
  cbn [get_queue put_queue] in Ed, I2. rewrite Ed. unfold taken_broken in I2. cbn in I2.
  pose proof (iv_wait _ _ _ _ _ _ _ I) as [HW _]. rewrite El in HW. apply Forall_mid in HW as [[Hof _] _].
  assert (forall err r, (r = None \/ err = 0 /\ r = Some resp) -> exists b',
    rd_kafka_buf_callback bc resp_cb (set_waitresps (blocking_sub b rb' 1) q) err r rb' now = Some b' /\
    inv false E [] b' /\ scanned b b') as Hcall.
  { intros err r Hr. destruct (callback_inv false E [] _ rb' err r now I2) as (b' & -> & I' & [(Es & _ & _ & _ & Ec & _) (e & L) _]).
    { destruct Hr as [-> | [-> ->]]; [exact Logic.I |]. cbn. auto. }
    exists b'. split; [reflexivity |]. split; [exact I' |].
    destruct K1 as [(Es1 & _ & _ & _ & Ec1 & _) (e1 & L1) _].
    split; [now rewrite Es | now rewrite Ec |]. exists (e1 ++ e). rewrite L. cbn. now rewrite L1, app_assoc. }
  destruct (if negb (rq_ApiKey (rb_rq rb') =? RD_KAFKAP_ApiVersion) then rs_tags_err resp else None) as [err |].
  - destruct (Hcall err None (or_introl eq_refl)) as (b' & -> & ?). eauto.
  - destruct (Hcall 0 (Some resp) (or_intror (conj eq_refl eq_refl))) as (b' & -> & ?). eauto.
Qed.

(** ** Sending *)

Lemma head_update_inv br E b rb l rb2 :
  inv br E [] b -> rkbq_bufs (rkb_outbufs b) = rb :: l -> rb_id rb2 = rb_id rb -> sized rb2 -> head_ok b rb2 ->
  (br = false -> head_part [rb2] = head_part [rb]) -> (~ connected b -> fresh rb2) ->
  inv br E [] (set_outbufs b (bufq_update (rkb_outbufs b) rb2)) /\
  rkbq_bufs (bufq_update (rkb_outbufs b) rb2) = rb2 :: l.
Proof.
  intros I EO Ei Hs Hh Hpt Hf. pose proof (inv_queue_nodup _ _ _ ScanOutbufs I) as Dq. cbn [get_queue] in Dq.
  assert (rkbq_bufs (bufq_update (rkb_outbufs b) rb2) = rb2 :: l) as Eb.
  { unfold bufq_update. cbn [rkbq_bufs]. rewrite EO in *. apply (update_mid rb2 [] rb l); [congruence | exact Dq]. }
  split; [| exact Eb]. destruct I as [A D (C1 & C2 & C3) B (S1 & S2 & S3 & S4) O W R I0 Fl X (w & Hw & Hc & Hp) P].
  assert (ids (rb2 :: l) = ids (rb :: l)) as Eids by (rewrite !ids_cons; congruence).
  constructor; cbn [set_outbufs rkb_outbufs rkb_waitresps rkb_retrybufs rkb_log rkb_corrid rkb_max_inflight];
    rewrite ?Eb; try assumption.
  - rewrite Eids, <- EO. exact A.
  - rewrite Eids, <- EO. exact D.
  - split; [| auto]. unfold cnt_ok in *. rewrite Eb. cbn [bufq_update rkbq_cnt]. rewrite C1, EO. cbn [length]. lia.
  - rewrite EO in B. cbn [length] in *. lia.
  - rewrite EO in S1. inversion S1; subst. split; [now constructor | auto].
  - unfold outbufs_ok in *. cbn [set_outbufs rkb_outbufs]. rewrite Eb. rewrite EO in O. split; [exact Hh | apply O].
  - intros Hn. destruct (X Hn) as [X1 X2]. rewrite EO in X2. inversion X2; subst. split; [exact X1 |]. constructor; auto.
  - exists w. split; [exact Hw |]. split; [exact Hc |]. intros Hb Hcon. cbn [set_outbufs rkb_outbufs rkb_connid]. rewrite Eb, <- (Hp Hb Hcon), EO.
    now apply Hpt.
Qed.

(** The head has a correlation id that is greater than all that wait. *)
Lemma assign_inv E b rb l :
  inv false E [] b -> rkbq_bufs (rkb_outbufs b) = rb :: l -> rb_need_make rb = false ->
  rd_kafka_broker_request_supported b rb = true -> connected b -> rkb_corrid b < 2 ^ 31 - 1 ->
  exists b1 rb1, assign_corrid b rb = Some (b1, rb1) /\
    inv false E [] (set_outbufs b1 (bufq_update (rkb_outbufs b1) rb1)) /\
    rkbq_bufs (bufq_update (rkb_outbufs b1) rb1) = rb1 :: l /\
    rb_corrid rb1 <> 0 /\ rb_rq rb1 = rb_rq rb /\ rb_of rb1 = rb_of rb /\
    rkb_state b1 = rkb_state b /\ rkb_connid b1 = rkb_connid b /\ rkb_waitresps b1 = rkb_waitresps b /\
    rkb_max_inflight b1 = rkb_max_inflight b /\ rkb_corrid b1 <= rkb_corrid b + 1 /\ exists evs, rkb_log b1 = rkb_log b ++ evs.
Proof.
  intros I EO Hmk Hsup Hcon Hlog. pose proof (iv_out _ _ _ _ _ _ _ I) as O. unfold outbufs_ok in O. rewrite EO in O.
  destruct O as [(O1 & O2 & O3) Of]. pose proof (iv_corrid _ _ _ _ _ _ _ I) as Hcor.
  assert (sized rb) as Hs by (destruct (iv_sized _ _ _ _ _ _ _ I) as (HS & _); rewrite EO in HS; now inversion HS).
  unfold assign_corrid. destruct (Z.eqb_spec (rb_corrid rb) 0) as [Hz | Hz]; cbn [orb].
  2: { destruct (O3 Hz) as (-> & O4). rewrite Z.eqb_refl. cbn [negb]. exists b, rb. split; [reflexivity |].
       destruct (head_update_inv false E b rb l rb I EO eq_refl Hs) as [I' Eb].
       - split; [exact O1 |]. split; [exact O2 |]. intros _. split; [now destruct (O3 Hz) | exact O4].
       - reflexivity.
       - contradiction.
       - split; [exact I' |]. split; [exact Eb |]. do 7 (split; [auto |]). split; [lia |]. exists []. now rewrite app_nil_r. }
  rewrite (O2 Hz). cbn [Z.eqb rd_assert].
  assert (u32 (rkb_corrid b + 1) = rkb_corrid b + 1) as -> by (apply wrap_small; lia).
  rewrite swrap_small by (unfold in_i; lia). set (b1 := log_event _ _). set (rb1 := rb_set_corrid _ _ _).
  assert (inv false E [] b1) as I1.
  { destruct I as [A D C B S O W R I0 Fl X (w & Hw & Hc & Hp) P]. constructor; try assumption.
    - cbn. rewrite called_app, retried_app. change (retried [_]) with (@nil nat). change (called [_]) with (@nil nat).
      now rewrite !app_nil_r.
    - unfold outbufs_ok in *. cbn. rewrite EO in *. destruct O as [_ O]. split; [| exact O].
      split; [exact O1 |]. split; [exact O2 |]. intros Hn. congruence.
    - cbn. destruct W as [W1 W2]. split; [| exact W2]. eapply list.Forall_impl; [exact W1 |].
      unfold waiting_ok. cbn. intros x Hx. lia.
    - cbn. rewrite zlen_app. cbn [length]. lia.
    - exists w. cbn. rewrite wire_neutral by reflexivity. auto.
    - cbn. apply Forall_app_2; [assumption | now constructor]. }
  destruct (head_update_inv false E b1 rb l rb1 I1 EO eq_refl Hs) as [I' Eb].
  - split; [exact O1 |]. cbn. split; [lia |]. intros _. split; [reflexivity |]. split; [lia |]. split; [| split; [exact Hmk | exact Hsup]].
    pose proof (iv_wait _ _ _ _ _ _ _ I) as [HW _]. eapply list.Forall_impl; [exact HW |]. unfold waiting_ok. cbn. intros x Hx. lia.
  - intros _. cbn. now rewrite (O2 Hz).
  - unfold connected in *. cbn. tauto.
  - exists b1, rb1. split; [reflexivity |]. split; [exact I' |]. split; [exact Eb |]. cbn. do 7 (split; [lia || auto |]). split; [lia |]. eauto.
Qed.

(** Bytes are written. *)
Lemma inv_wire_event br E H b connid rb n w' :
  inv br E H b -> wire_run (mk_wire 0 None) (rkb_log b ++ [EvWire connid rb n]) = Some w' ->
  wr_conn w' <= rkb_connid b ->
  (connected b -> head_part (rkbq_bufs (rkb_outbufs b)) = if wr_conn w' =? rkb_connid b then wr_part w' else None) ->
  inv false E H (log_event b (EvWire connid rb n)).
Proof.
  intros [A D C B S O W R I0 Fl X _ P] Hw Hc Hp. constructor; try assumption.
  - cbn. rewrite called_app, retried_app. change (retried [_]) with (@nil nat). change (called [_]) with (@nil nat).
    now rewrite !app_nil_r.
  - cbn. rewrite zlen_app. cbn [length]. lia.
  - exists w'. auto.
  - cbn. apply Forall_app_2; [assumption | now constructor].
Qed.

(** The head of the queue continues what was written. *)
Lemma head_wire E b rb l n :
  inv false E [] b -> rkbq_bufs (rkb_outbufs b) = rb :: l -> connected b -> 0 <= n <= rq_size (rb_rq rb) - rb_of rb ->
  let written := rb_of rb + n in
  wire_run (mk_wire 0 None) (rkb_log b ++ [EvWire (rkb_connid b) rb n]) =
    Some (mk_wire (rkb_connid b) (if (written =? 0) || (written =? rq_size (rb_rq rb)) then None
                                  else Some (rb_id rb, rb_corrid rb, written))).
Proof.
  intros I EO Hcon Hn written. destruct (iv_wire _ _ _ _ _ _ _ I) as (w & Hw & Hc & Hp).
  specialize (Hp eq_refl Hcon). rewrite EO in Hp. cbn [head_part] in Hp.
  rewrite wire_run_app, Hw. cbn [wire_run wire_event]. unfold wire_step. rewrite (Z.eqb_sym (rkb_connid b)), <- Hp.
  fold written. assert ((wr_conn w <=? rkb_connid b) = true) as -> by lia.
  assert ((0 <=? n) = true) as -> by lia. assert ((written <=? rq_size (rb_rq rb)) = true) as -> by (unfold written; lia).
  destruct (Z.eqb_spec (rb_of rb) 0) as [Hz | Hz].
  - reflexivity.
  - rewrite bool_decide_true by reflexivity. rewrite !Z.eqb_refl. reflexivity.
Qed.

(** A written request waits for its response. *)
Lemma wait_push E b rb now :
  inv false E [rb] b -> connected b -> rb_of rb = rq_size (rb_rq rb) -> 0 < rb_corrid rb <= rkb_corrid b ->
  Forall (fun x => rb_corrid x < rb_corrid rb) (rkbq_bufs (rkb_waitresps b)) ->
  Forall fresh (rkbq_bufs (rkb_outbufs b)) ->
  rkbq_cnt (rkb_waitresps b) < rkb_max_inflight b ->
  inv false E [] (set_waitresps b (rd_kafka_bufq_enq (rkb_waitresps b) (rb_set_sent rb true now))).
Proof.
  intros [A D (C1 & C2 & C3) B (S1 & S2 & S3 & S4) O [W1 W2] R I0 Fl X Y P] Hcon Ho Hcor Hlt Hfr Hfl.
  set (rb' := rb_set_sent rb true now). change (ids [rb]) with [rb_id rb] in A, D. cbn [length] in B.
  unfold cnt_ok in C2. rewrite C2 in Hfl. inversion S4; subst.
  constructor; cbn [set_waitresps rkb_outbufs rkb_waitresps rkb_retrybufs rkb_log rkb_corrid rkb_max_inflight rd_kafka_bufq_enq rkbq_bufs];
    try assumption.
  - rewrite A, ids_app. change (ids [rb']) with [rb_id rb]. change (ids []) with (@nil nat). solve_Permutation.
  - eapply nodup_perm; [| exact D]. rewrite ids_app. change (ids [rb']) with [rb_id rb]. change (ids []) with (@nil nat).
    solve_Permutation.
  - split; [exact C1 |]. split; [| exact C3]. apply (enq_cnt_ok (rkb_waitresps b) rb'); [exact C2 | lia].
  - rewrite zlen_app. cbn [length]. lia.
  - split; [exact S1 |]. split; [apply Forall_app_2; [exact S2 |]; now constructor |]. split; [exact S3 | constructor].
  - unfold outbufs_ok in *. cbn. destruct (rkbq_bufs (rkb_outbufs b)) as [| x l]; [exact Logic.I |].
    destruct O as [(O1 & O2 & _) O4]. split; [| exact O4]. split; [exact O1 |]. split; [exact O2 |].
    inversion Hfr as [| ? ? [_ Hx] _]; subst. congruence.
  - split; [apply Forall_app_2; [exact W1 |]; constructor; [now split | constructor] |].
    rewrite map_app. cbn [map]. apply list.NoDup_app. split; [exact W2 |]. split; [| apply list.NoDup_singleton].
    intros c Hc Hc'. apply list_elem_of_singleton in Hc' as ->. apply list_elem_of_fmap in Hc as (x & Ex & Hx).
    rewrite list.Forall_forall in Hlt. specialize (Hlt x Hx). cbn in Ex. lia.
  - rewrite zlen_app. cbn [length]. lia.
  - intros Hn. contradiction.
Qed.

(** What a round of sending leaves; the queue is shorter unless the round returns. *)
Record sent_round (E : list nat) (b : broker) (l : list reqbuf) (c : Z) (b' : broker) (returns : bool) : Prop := {
  sr_inv : inv false E [] b';
  sr_conn : rkb_connid b' = rkb_connid b;
  sr_log : exists evs, rkb_log b' = rkb_log b ++ evs;
  sr_state : if returns then connected b' -> connected b else rkb_state b' = rkb_state b;
  sr_out : if returns then connected b' -> exists rb l, rkbq_bufs (rkb_outbufs b') = rb :: l /\ rb_corrid rb <> 0
           else rkbq_bufs (rkb_outbufs b') = l /\ rkb_corrid b' = c }.

Definition round_done (E : list nat) (b : broker) (l : list reqbuf) (c : Z) (r : send_round) : Prop :=
  match r with
  | SendNext b' | SendSent b' => sent_round E b l c b' false
  | SendReturn b' _ => sent_round E b l c b' true
  end.

Lemma deq_updated q rb rb1 l :
  rkbq_bufs q = rb :: l -> NoDup (ids (rkbq_bufs q)) -> rb_id rb1 = rb_id rb -> rb_rq rb1 = rb_rq rb ->
  rd_kafka_bufq_deq (bufq_update q rb1) rb1 = rd_kafka_bufq_deq q rb1.
Proof.
  intros Eq D Ei Er. unfold rd_kafka_bufq_deq, bufq_update. cbn [rkbq_cnt rkbq_bufs rkbq_msg_cnt].
  destruct (rd_assert _); [| reflexivity]. do 2 f_equal. rewrite Eq in *.
  pose proof (update_mid rb1 [] rb l (eq_sym Ei) D) as Hu. cbn [app] in Hu. rewrite Hu. cbn [remove_buf].
  rewrite (proj2 (Nat.eqb_eq _ _) eq_refl), (proj2 (Nat.eqb_eq _ _) (eq_sym Ei)). reflexivity.
Qed.

(** The whole request is written: it is off the queue and in hand. *)
Lemma fully_written E b rb l n :
  inv false E [] b -> rkbq_bufs (rkb_outbufs b) = rb :: l -> connected b -> n = rq_size (rb_rq rb) - rb_of rb ->
  let rb1 := rb_set_of rb (rb_of rb + n) in
  exists q, rd_kafka_bufq_deq (bufq_update (rkb_outbufs b) rb1) rb1 = Some q /\ rkbq_bufs q = l /\
    inv false E [rb1] (set_outbufs (log_event b (EvWire (rkb_connid b) rb n)) q).
Proof.
  intros I EO Hcon Hn rb1. pose proof (iv_out _ _ _ _ _ _ _ I) as O. unfold outbufs_ok in O. rewrite EO in O.
  destruct O as [(O1 & _) Of].
  destruct (take_inv false E [] b ScanOutbufs [] rb rb1 l I EO eq_refl eq_refl) as (q & Ed & Eq & I1).
  cbn [get_queue put_queue app] in *. exists q. rewrite (deq_updated _ rb rb1 l EO); try reflexivity.
  2: { apply (inv_queue_nodup _ _ _ ScanOutbufs I). }
  split; [exact Ed |]. split; [exact Eq |].
  apply (inv_wire_event _ E [rb1] (set_outbufs b q) (rkb_connid b) rb n
    (mk_wire (rkb_connid b) None)) in I1; [exact I1 | | cbn; lia |].
  - pose proof (head_wire E b rb l n I EO Hcon ltac:(lia)) as Hw. cbn zeta in Hw. cbn [set_outbufs rkb_log]. rewrite Hw.
    replace (rb_of rb + n) with (rq_size (rb_rq rb)) by lia. now rewrite Z.eqb_refl, orb_true_r.
  - intros _. cbn [set_outbufs rkb_outbufs]. rewrite Eq, head_part_fresh by exact Of. cbn. now rewrite Z.eqb_refl.
Qed.

Lemma blocking_add_inv E H b rb :
  inv false E H b ->
  let b' := if rq_blocking (rb_rq rb) then
              let cnt := i32 (rkb_blocking_request_cnt b + 1) in
              let b := set_blocking b cnt in
              if cnt =? 1 then log_event b EvStateBroadcast else b
            else b in
  inv false E H b' /\ same_core b b' /\ rkb_retrybufs b' = rkb_retrybufs b /\ exists evs, rkb_log b' = rkb_log b ++ evs.
Proof.
  intros I. cbn zeta. assert (exists evs, rkb_log b = rkb_log b ++ evs) as L by (exists []; now rewrite app_nil_r).
  destruct (rq_blocking _); [| split; [exact I |]; split; [apply same_core_refl | auto]].
  assert (inv false E H (set_blocking b (i32 (rkb_blocking_request_cnt b + 1)))) as I1 by (destruct I; constructor; assumption).
  destruct (_ =? 1).
  - split; [apply inv_log; [repeat split | exact I1] |]. split; [repeat split |]. split; [reflexivity |]. now exists [EvStateBroadcast].
  - split; [exact I1 |]. split; [repeat split |]. auto.
Qed.

Lemma send_written_inv E b rb l n now :
  inv false E [] b -> rkbq_bufs (rkb_outbufs b) = rb :: l -> connected b -> rb_corrid rb <> 0 ->
  rkbq_cnt (rkb_waitresps b) < rkb_max_inflight b -> 0 <= n <= rq_size (rb_rq rb) - rb_of rb ->
  exists r, send_written bc resp_cb b rb n now = Some r /\ round_done E b l (rkb_corrid b) r.
Proof.
  intros I EO Hcon Hcor Hfl Hn. unfold send_written.
  pose proof (iv_out _ _ _ _ _ _ _ I) as O. unfold outbufs_ok in O. rewrite EO in O. destruct O as [(O1 & O2 & O3) Of].
  destruct (O3 Hcor) as (O4 & O5 & O6 & O7). cbn [rb_set_of rb_rq rb_of].
  set (rb1 := rb_set_of rb (rb_of rb + n)). set (b1 := log_event b (EvWire (rkb_connid b) rb n)).
  change (rkb_outbufs b1) with (rkb_outbufs b).
  destruct (Z.gtb_spec (rq_size (rb_rq rb) - (rb_of rb + n)) 0) as [Hpart | Hfull].
  - eexists. split; [reflexivity |]. cbn [round_done].
    pose proof (head_wire E b rb l n I EO Hcon Hn) as Hw. cbn zeta in Hw.
    assert (head_ok b rb1) as Hok.
    { split; [cbn; lia |]. cbn. split; [congruence |]. intros _. auto. }
    assert (sized rb1) as Hs by (unfold sized; cbn; lia).
    assert (inv true E [] b) as It by (destruct I as [? ? ? ? ? ? ? ? ? ? ? (w & ? & ? & _) ?]; constructor; try assumption; exists w; repeat split; auto; discriminate).
    destruct (head_update_inv true E b rb l rb1 It EO eq_refl Hs Hok ltac:(discriminate) ltac:(contradiction)) as [I2 Eb].
    split; cbn [rkb_connid rkb_log b1 set_outbufs log_event]; try reflexivity; [| eauto | unfold connected; cbn; auto |].
    2: { intros _. exists rb1, l. split; [exact Eb | exact Hcor]. }
    apply (inv_wire_event true E [] _ (rkb_connid b) rb n _ I2 Hw); [cbn; lia |].
    intros _. cbn [set_outbufs rkb_outbufs wr_conn rkb_connid wr_part]. rewrite Eb, Z.eqb_refl. cbn [head_part rb1 rb_set_of rb_of].
    destruct (Z.eqb_spec (rb_of rb + n) 0); [reflexivity |].
    destruct (Z.eqb_spec (rb_of rb + n) (rq_size (rb_rq rb))); [lia | reflexivity].
  - destruct (fully_written E b rb l n I EO Hcon ltac:(lia)) as (q & Ed & Eq & I1). fold rb1 b1 in Ed, I1.
    change (rkb_outbufs (set_outbufs b1 (bufq_update (rkb_outbufs b) rb1))) with (bufq_update (rkb_outbufs b) rb1).
    rewrite Ed. change (set_outbufs (set_outbufs b1 (bufq_update (rkb_outbufs b) rb1)) q) with (set_outbufs b1 q).
    cbn [rb_set_sent rb_rq]. change (rb_rq rb1) with (rb_rq rb).
    destruct (blocking_add_inv E [rb1] (set_outbufs b1 q) rb I1) as (I2 & (Ks & KO & KW & Kc & Kn & Km) & _ & (e & KL)).
    cbn zeta in *. set (b2 := if rq_blocking (rb_rq rb) then _ else _) in *.
    assert (connected b2) as Hcon2 by (unfold connected; rewrite Ks; exact Hcon).
    assert (rb_of rb1 = rq_size (rb_rq rb1)) as Hof by (cbn; lia).
    destruct (negb (rq_no_response (rb_rq rb))).
    + eexists. split; [reflexivity |]. cbn [round_done]. split; cbn [set_waitresps rkb_connid rkb_log rkb_state rkb_outbufs].
      * apply wait_push; try assumption.
        -- rewrite Kc. exact O5.
        -- rewrite KW. exact O6.
        -- rewrite KO. cbn. rewrite Eq. exact Of.
        -- rewrite KW, Km. exact Hfl.
      * now rewrite Kn.
      * exists ([EvWire (rkb_connid b) rb n] ++ e). rewrite KL. cbn. now rewrite <- app_assoc.
      * now rewrite Ks.
      * rewrite KO. split; [exact Eq | exact Kc].
    + assert (inv false E [rb_set_sent rb1 true now] b2) as I3.
      { destruct I2 as [? ? ? ? (? & ? & ? & HS) ? ? ? ? ? ? ? ?]. constructor; try assumption. repeat split; try assumption.
        inversion HS; subst. constructor; [assumption | constructor]. }
      destruct (callback_inv false E [] b2 _ 0 None now I3 Logic.I) as (b3 & -> & I4 & [(Ks3 & KO3 & _ & Kc3 & Kn3 & _) (e3 & KL3) _]).
      eexists. split; [reflexivity |]. cbn [round_done]. split; [exact I4 | now rewrite Kn3, Kn | | now rewrite Ks3, Ks | rewrite KO3, KO; split; [exact Eq | now rewrite Kc3]].
      exists ([EvWire (rkb_connid b) rb n] ++ e ++ e3). rewrite KL3, KL. cbn. now rewrite <- !app_assoc.
Qed.

Context (Hmake : forall rq v f size, make_req_cb rq = inl (v, f, size) -> 0 < size).

(** The head of the queue is taken off and called back. *)
Lemma drop_head_inv E b rb rb1 l err now :
  inv false E [] b -> rkbq_bufs (rkb_outbufs b) = rb :: l -> rb_id rb1 = rb_id rb -> rb_rq rb1 = rb_rq rb ->
  rb_of rb = 0 ->
  exists q b', rd_kafka_bufq_deq (rkb_outbufs b) rb1 = Some q /\
    rd_kafka_buf_callback bc resp_cb (set_outbufs b q) err None rb1 now = Some b' /\ sent_round E b l (rkb_corrid b) b' false.
Proof.
  intros I EO Ei Er Hof.
  destruct (take_call_inv false E b ScanOutbufs [] rb rb1 l err now 0 false I EO Ei Er)
    as (q & b' & Ed & Ec & I1 & (Es & EO' & _ & Ecr & Ecn & _) & L & _).
  destruct (take_inv false E [] b ScanOutbufs [] rb rb1 l I EO Ei Er) as (q2 & Ed2 & Eq & _).
  cbn [get_queue put_queue app] in *. rewrite Ed in Ed2. injection Ed2 as <-.
  exists q, b'. split; [exact Ed |]. split; [exact Ec |].
  unfold taken_broken in I1. rewrite Hof in I1. cbn in I1.
  split; [exact I1 | exact Ecn | exact L | exact Es |]. cbn. rewrite EO'. split; [exact Eq | exact Ecr].
Qed.

Lemma sent_round_before E b b1 l c ret b' :
  rkb_connid b1 = rkb_connid b -> (exists evs, rkb_log b1 = rkb_log b ++ evs) -> rkb_state b1 = rkb_state b ->
  sent_round E b1 l c b' ret -> sent_round E b l c b' ret.
Proof.
  intros Ec (e & L) Es [K1 K2 (e' & K3) K4 K5]. split; [exact K1 | congruence | | | exact K5].
  - exists (e ++ e'). now rewrite K3, L, app_assoc.
  - unfold connected in *. rewrite Es in K4. exact K4.
Qed.

Lemma round_done_before E b b1 l c r :
  rkb_connid b1 = rkb_connid b -> (exists evs, rkb_log b1 = rkb_log b ++ evs) -> rkb_state b1 = rkb_state b ->
  round_done E b1 l c r -> round_done E b l c r.
Proof. intros Ec L Es. destruct r; cbn; now apply sent_round_before. Qed.

Lemma send_one_inv E b rb l r now :
  inv false E [] b -> rkbq_bufs (rkb_outbufs b) = rb :: l -> connected b ->
  rkbq_cnt (rkb_waitresps b) < rkb_max_inflight b -> (forall n, 0 <= n -> -1 <= r n <= n) ->
  rkb_corrid b < 2 ^ 31 - 1 ->
  exists res c, send_one bc resp_cb make_req_cb b rb r now = Some res /\ round_done E b l c res /\
    c <= rkb_corrid b + 1.
Proof.
  intros I EO Hcon Hfl Hr Hlog. pose proof (iv_out _ _ _ _ _ _ _ I) as O. unfold outbufs_ok in O. rewrite EO in O.
  destruct O as [Ho Of]. pose proof Ho as (O1 & O2 & O3).
  assert (sized rb) as Hs by (destruct (iv_sized _ _ _ _ _ _ _ I) as (HS & _); rewrite EO in HS; now inversion HS).
  unfold send_one. set (made := if rb_need_make rb then _ else _).
  assert (match made with
    | inr (rb1, _) => rb_id rb1 = rb_id rb /\ rb_rq rb1 = rb_rq rb /\ rb_of rb = 0
    | inl rb1 => rb_id rb1 = rb_id rb /\ sized rb1 /\ head_ok b rb1 /\ head_part [rb1] = head_part [rb] /\
        rb_need_make rb1 = false
    end) as Hmade.
  { unfold made. destruct (rb_need_make rb) eqn:Em.
    - assert (rb_corrid rb = 0) as Hz by (destruct (Z.eq_dec (rb_corrid rb) 0); [assumption |]; destruct (O3 n) as (_ & _ & _ & ? & _); congruence).
      specialize (O2 Hz). destruct (make_req_cb (rb_rq rb)) as [[[v f] size] | err] eqn:Ek; [| repeat split; assumption].
      pose proof (Hmake _ _ _ _ Ek) as Hsz. cbn. split; [reflexivity |]. split; [exact Hsz |].
      split; [| split; [now rewrite O2 | reflexivity]]. split; [cbn; lia |]. cbn. split; [reflexivity | congruence].
    - split; [reflexivity |]. split; [exact Hs |]. split; [exact Ho | auto]. }
  clearbody made. destruct made as [rb1 | [rb1 err]].
  2: { destruct Hmade as (Ei & Er & Hof). destruct (drop_head_inv E b rb rb1 l err now I EO Ei Er Hof) as (q & b' & -> & -> & K).
       eexists _, _. split; [reflexivity |]. split; [exact K | lia]. }
  destruct Hmade as (Ei & Hs1 & Hok & Hpt & Hnm).
  destruct (head_update_inv false E b rb l rb1 I EO Ei Hs1 Hok (fun _ => Hpt) ltac:(contradiction)) as [I1 E1].
  set (b1 := set_outbufs b _) in *. assert (rkbq_bufs (rkb_outbufs b1) = rb1 :: l) as EO1 by exact E1.
  pose proof (iv_out _ _ _ _ _ _ _ I1) as Ob. unfold outbufs_ok in Ob. rewrite EO1 in Ob. destruct Ob as [(P1 & P2 & P3) _].
  destruct (rd_kafka_broker_request_supported b1 rb1) eqn:Esup; cbn [negb].
  2: { assert (rb_corrid rb1 = 0) as Hz by (destruct (Z.eq_dec (rb_corrid rb1) 0) as [| Hn]; [assumption |];
         destruct (P3 Hn) as (_ & _ & _ & _ & ?); congruence).
       destruct (drop_head_inv E b1 rb1 rb1 l ERR__UNSUPPORTED_FEATURE now I1 EO1 eq_refl eq_refl (P2 Hz))
         as (q & b' & -> & -> & [K1 K2 K3 K4 K5]).
       eexists _, (rkb_corrid b1). split; [reflexivity |]. split; [now split | unfold b1; cbn; lia]. }
  destruct (assign_inv E b1 rb1 l I1 EO1 Hnm Esup Hcon Hlog)
    as (b2 & rb2 & -> & I2 & EO2 & Hc2 & Eq2 & Eo2 & Es2 & Ec2 & Ew2 & Em2 & Ecr2 & (e2 & L2)).
  set (b3 := set_outbufs b2 _) in *. assert (rkbq_bufs (rkb_outbufs b3) = rb2 :: l) as EO3 by exact EO2.
  assert (connected b3) as Hcon3 by (unfold connected, b3; cbn; rewrite Es2; exact Hcon).
  pose proof (iv_out _ _ _ _ _ _ _ I2) as O3'. unfold outbufs_ok in O3'. rewrite EO3 in O3'. destruct O3' as [(Q1 & _) _].
  set (n := r _). assert (-1 <= n <= rq_size (rb_rq rb2) - rb_of rb2) as Hn by (apply Hr; lia).
  destruct (Z.eqb_spec n (-1)).
  - destruct (broker_fail_inv false E b3 ERR__TRANSPORT now I2) as (b4 & -> & I4 & [F1 F2 F3 F4 (e4 & F5)]).
    eexists _, (rkb_corrid b2). split; [reflexivity |]. split; [| change (rkb_corrid b1) with (rkb_corrid b) in Ecr2; lia].
    cbn [round_done]. split.
    + exact I4.
    + rewrite F4. exact Ec2.
    + exists (e2 ++ e4). rewrite F5, app_assoc. f_equal. exact L2.
    + intros _. exact Hcon.
    + unfold connected. rewrite F1. cbn. lia.
  - destruct (send_written_inv E b3 rb2 l n now I2 EO3 Hcon3 Hc2) as (res & -> & K); [| lia |].
    { unfold b3. cbn. rewrite Ew2, Em2. exact Hfl. }
    exists res, (rkb_corrid b2). split; [reflexivity |]. split; [| change (rkb_corrid b1) with (rkb_corrid b) in Ecr2; lia].
    revert K. apply round_done_before.
    + exact Ec2.
    + exists e2. exact L2.
    + exact Es2.
Qed.

(** Why sending stops. *)
Definition send_stopped (b : broker) : Prop :=
  rkbq_bufs (rkb_outbufs b) = [] \/ state_num (rkb_state b) < state_num STATE_UP \/
  rkb_max_inflight b <= zlen (rkbq_bufs (rkb_waitresps b)) \/
  exists rb l, rkbq_bufs (rkb_outbufs b) = rb :: l /\ rb_corrid rb <> 0.

Record sent (E : list nat) (b b' : broker) : Prop := {
  st_inv : inv false E [] b';
  st_conn : rkb_connid b' = rkb_connid b;
  st_state : connected b' -> connected b;
  st_log : exists evs, rkb_log b' = rkb_log b ++ evs }.

Lemma send_loop_inv n : forall E b r now cnt,
  inv false E [] b -> (forall k m, 0 <= m -> -1 <= r k m <= m) -> rkb_corrid b + Z.of_nat n < 2 ^ 31 - 1 ->
  exists b' ret, send_loop bc resp_cb make_req_cb n b r now cnt = Some (b', ret) /\ sent E b b' /\
    ((length (rkbq_bufs (rkb_outbufs b)) <= n)%nat -> send_stopped b').
Proof.
  assert (forall E b, inv false E [] b -> sent E b b) as Hrefl.
  { intros E b I. split; [exact I | reflexivity | tauto |]. exists []. now rewrite app_nil_r. }
  induction n as [| n IH]; intros E b r now cnt I Hr Hc.
  { eexists _, _. split; [reflexivity |]. split; [auto |]. intros Hl. left. now apply length_zero_iff_nil; lia. }
  cbn [send_loop]. destruct (rkbq_bufs (rkb_outbufs b)) as [| rb l] eqn:EO.
  { eexists _, _. split; [reflexivity |]. split; [auto |]. now left. }
  destruct (state_num (rkb_state b) >=? state_num STATE_UP) eqn:Eup; cbn [andb].
  2: { eexists _, _. split; [reflexivity |]. split; [auto |]. right. left. cbn in *. lia. }
  destruct (Z.ltb_spec (rkbq_cnt (rkb_waitresps b)) (rkb_max_inflight b)) as [Hfl | Hfl].
  2: { eexists _, _. split; [reflexivity |]. split; [auto |]. right. right. left.
       destruct (iv_cnt _ _ _ _ _ _ _ I) as (_ & CW & _). now rewrite <- CW. }
  assert (connected b) as Hcon by (unfold connected; cbn in *; lia).
  destruct (send_one_inv E b rb l (r 0%nat) now I EO Hcon Hfl (Hr 0%nat) ltac:(lia)) as (res & c & -> & K & Hcc).
  assert (forall b1 cnt, sent_round E b l c b1 false -> exists b' ret,
    send_loop bc resp_cb make_req_cb n b1 (fun k => r (S k)) now cnt = Some (b', ret) /\ sent E b b' /\
    ((length (rb :: l) <= S n)%nat -> send_stopped b')) as Hgo.
  { intros b1 cnt1 [K1 K2 (e & K3) K4 [K5 K6]].
    destruct (IH E b1 (fun k => r (S k)) now cnt1 K1 (fun k => Hr (S k)) ltac:(lia)) as (b' & ret & -> & [I' E1 E2 (e' & E3)] & Hst).
    eexists _, _. split; [reflexivity |]. split; [split; [exact I' | congruence | auto |] |].
    - exists (e ++ e'). now rewrite E3, K3, app_assoc.
    - intros Hl. apply Hst. rewrite K5. cbn [length] in Hl. lia. }
  destruct res as [b1 | b1 | b1 ret]; [now apply Hgo | now apply Hgo |].
  destruct K as [K1 K2 K3 K4 K5]. eexists _, _. split; [reflexivity |]. split; [now split |]. intros _. unfold send_stopped.
  destruct (Z_lt_le_dec (state_num (rkb_state b1)) (state_num STATE_AUTH_LEGACY)) as [Hd | Hd].
  - right. left. cbn in *. lia.
  - right. right. right. exact (K5 Hd).
Qed.

End Steps.
