(* ===== verification/BufqProps.v ===== *)
(** * What the request queues of a broker promise

    All that happens to the queues of one broker, in any order: requests come in, are sent,
    answered, time out, are purged, retried and lost with their connection. *)

From stdpp Require Import gmap strings.
From S2P Require Import Prelude EosState Eos Bufq BufqFacts.

(** One thing that the broker thread does; [now] is its clock.  [OpXmitRetry] is the retry
    of a request whose callback ran in another thread.  [OpState] is a change of state
    that neither makes nor loses a connection, and [OpVersions] what the response to an
    ApiVersion request, or [broker.version.fallback], sets. *)
Inductive bq_op : Type :=
| OpEnq (rq : request) (need_make : bool) (now : Z)
| OpXmitRetry (rb : reqbuf) (now : Z)
| OpSend (r : nat -> Z -> Z) (now : Z)
| OpResponse (resp : response) (now : Z)
| OpTimeouts (now : Z)
| OpRetryMove (now next_wakeup : Z)
| OpPurge (rktp : nat) (err now : Z)
| OpFail (err now : Z)
| OpConnected (st : broker_state)
| OpUp
| OpState (st : broker_state)
| OpVersions (features : Z) (ApiVersions : list (Z * (Z * Z))).

Definition set_versions (b : broker) features ApiVersions := mk_broker (rkb_state b) (rkb_outbufs b)
  (rkb_waitresps b) (rkb_retrybufs b) (rkb_corrid b) (rkb_connid b) (rkb_max_inflight b)
  (rkb_blocking_request_cnt b) (rkb_req_timeouts b) features ApiVersions (rkb_persistconn_internal b) (rkb_log b).

(** The fields of a new broker; the rest is zero. *)
Definition new_broker : broker :=
  mk_broker STATE_INIT rd_kafka_bufq_init rd_kafka_bufq_init rd_kafka_bufq_init 0 0 0 0 0 0 [] 0 [].

Section Props.
Context (bc : broker_conf) (N : Z) (HN : N < 2 ^ 28).
Context (resp_cb : reqbuf -> Z -> option response -> bool).
Context (make_req_cb : request -> (Z * Z * Z) + Z).
(** A request that is made has a header. *)
Context (Hmake : forall rq v f size, make_req_cb rq = inl (v, f, size) -> 0 < size).
Context (Hconf : 1 <= bc_max_inflight bc).
(** The requests that are retried. *)
Context (may_retry : nat -> Prop) (Hretry : forall rb err resp, resp_cb rb err resp = true -> may_retry (rb_id rb)).

Definition bq_exec (b : broker) (op : bq_op) : option broker :=
  match op with
  | OpEnq rq need_make now => rd_kafka_broker_buf_enq_replyq bc resp_cb b (new_buf rq need_make) now
  | OpXmitRetry rb now => Some (rd_kafka_broker_buf_retry bc b rb now)
  | OpSend r now => let* (b, _) := rd_kafka_send bc resp_cb make_req_cb b r now in Some b
  | OpResponse resp now => let* (b, _) := rd_kafka_req_response bc resp_cb b resp now in Some b
  | OpTimeouts now => rd_kafka_broker_timeout_scan bc resp_cb b now
  | OpRetryMove now next_wakeup => let* (b, _) := rd_kafka_broker_retry_bufs_move bc b now next_wakeup in Some b
  | OpPurge rktp err now => let* (b, _) := rd_kafka_broker_bufq_purge_by_toppar bc resp_cb b rktp err now in Some b
  | OpFail err now => rd_kafka_broker_fail bc resp_cb b err now
  | OpConnected st => Some (rd_kafka_broker_connect_done b st)
  | OpUp => Some (rd_kafka_broker_connect_up bc b)
  | OpState st => Some (change_state b st)
  | OpVersions features ApiVersions => Some (set_versions b features ApiVersions)
  end.

Definition queued (b : broker) : list reqbuf :=
  rkbq_bufs (rkb_outbufs b) ++ rkbq_bufs (rkb_waitresps b) ++ rkbq_bufs (rkb_retrybufs b).

(** A request that comes in has an address of its own and at least a header, and there are
    fewer than [N] before it. *)
Definition may_enter (b : broker) (rq : request) : Prop :=
  ~ (rq_id rq ∈ ids (queued b)) /\ 0 < rq_size rq /\ zlen (queued b) < N.

(** The transport writes at most what it is given, and fewer than 2^31 correlation ids are
    handed out.  There is one connection at a time; the versions of the broker change
    while no request is written in part. *)
Definition may_happen (b : broker) (op : bq_op) : Prop :=
  match op with
  | OpEnq rq _ _ => may_enter b rq
  | OpXmitRetry rb _ => may_enter b (rb_rq rb) /\ may_retry (rb_id rb)
  | OpSend r _ => (forall k n, 0 <= n -> -1 <= r k n <= n) /\
      rkb_corrid b + zlen (rkbq_bufs (rkb_outbufs b)) < 2 ^ 31 - 1
  | OpConnected st => ~ connected b /\ state_num STATE_AUTH_LEGACY <= state_num st /\ rkb_connid b < 2 ^ 31 - 1
  | OpUp => connected b
  | OpState st => connected b <-> state_num STATE_AUTH_LEGACY <= state_num st
  | OpVersions _ _ => Forall fresh (rkbq_bufs (rkb_outbufs b))
  | _ => True
  end.

Definition entered (op : bq_op) : list nat := match op with OpEnq rq _ _ => [rq_id rq] | _ => [] end.

(** The states of a broker, with the requests that came in. *)
Inductive reached : list nat -> broker -> Prop :=
| reached_new : reached [] new_broker
| reached_op E b op b' :
    reached E b -> may_happen b op -> bq_exec b op = Some b' -> reached (entered op ++ E) b'.

(** ** Every operation keeps the invariant *)

Abbreviation inv := (inv bc N may_retry).

Lemma queued_len b : zlen (queued b) =
  zlen (rkbq_bufs (rkb_outbufs b)) + zlen (rkbq_bufs (rkb_waitresps b)) + zlen (rkbq_bufs (rkb_retrybufs b)).
Proof. unfold queued. rewrite !length_app. lia. Qed.

Lemma connected_inv E b st :
  inv false E [] b -> ~ connected b -> state_num STATE_AUTH_LEGACY <= state_num st -> rkb_connid b < 2 ^ 31 - 1 ->
  0 <= rkb_connid b -> inv false E [] (rd_kafka_broker_connect_done b st).
Proof.
  intros I Hn Hst Hc H0. unfold rd_kafka_broker_connect_done. rewrite swrap_small by (unfold in_i; lia).
  destruct I as [A D C B S O W R I0 Fl X (w & Hw & Hwc & Hp) P]. destruct (X Hn) as [EW Fo].
  unfold change_state. rewrite bool_decide_false by (cbn; intros <-; contradiction).
  apply inv_log; [repeat split |]. constructor; cbn [set_state set_conn rkb_outbufs rkb_waitresps rkb_retrybufs rkb_log
    rkb_corrid rkb_max_inflight]; try assumption.
  - unfold outbufs_ok in *. cbn. destruct (rkbq_bufs (rkb_outbufs b)) as [| x l]; [exact Logic.I |].
    destruct O as [(O1 & O2 & _) O4]. split; [| exact O4]. split; [exact O1 |]. split; [exact O2 |].
    inversion Fo as [| ? ? [_ Hx] _]; subst. congruence.
  - rewrite EW. cbn. lia.
  - auto.
  - exists w. split; [exact Hw |]. split; [cbn; lia |]. intros _ _. cbn. rewrite head_part_fresh by exact Fo.
    replace (wr_conn w =? rkb_connid b + 1) with false by lia. reflexivity.
Qed.

Lemma up_inv E b : inv false E [] b -> connected b -> inv false E [] (rd_kafka_broker_connect_up bc b).
Proof.
  intros I Hc. unfold rd_kafka_broker_connect_up. apply inv_change_state.
  - unfold connected in *. cbn in *. split; [lia | auto].
  - destruct I. constructor; try assumption. cbn. lia.
Qed.

Lemma versions_inv E b f v :
  inv false E [] b -> Forall fresh (rkbq_bufs (rkb_outbufs b)) -> inv false E [] (set_versions b f v).
Proof.
  intros [A D C B S O W R I0 Fl X (w & Hw) P] Fo. constructor; try assumption.
  - unfold outbufs_ok in *. cbn. destruct (rkbq_bufs (rkb_outbufs b)) as [| x l]; [exact Logic.I |].
    destruct O as [(O1 & O2 & _) O4]. split; [| exact O4]. split; [exact O1 |]. split; [exact O2 |].
    inversion Fo as [| ? ? [_ Hx] _]; subst. congruence.
  - now exists w.
Qed.

(** What every operation does. *)
Record bq_done (E : list nat) (b b' : broker) : Prop := {
  bd_inv : inv false E [] b';
  bd_connid : 0 <= rkb_connid b -> 0 <= rkb_connid b';
  bd_log : exists evs, rkb_log b' = rkb_log b ++ evs }.

Lemma bq_done_eq E b b' :
  inv false E [] b' -> rkb_connid b' = rkb_connid b -> (exists evs, rkb_log b' = rkb_log b ++ evs) -> bq_done E b b'.
Proof. intros I Ec L. split; [exact I | now rewrite Ec | exact L]. Qed.

Lemma log_refl b : exists evs, rkb_log b = rkb_log b ++ evs.
Proof. exists []. now rewrite app_nil_r. Qed.

Lemma change_state_kept b st : rkb_connid (change_state b st) = rkb_connid b /\
  exists evs, rkb_log (change_state b st) = rkb_log b ++ evs.
Proof.
  unfold change_state. destruct (bool_decide _); (split; [reflexivity |]); [apply log_refl | eexists; reflexivity].
Qed.

Lemma enq_inv E b rq need_make now :
  inv false E [] b -> may_enter b rq ->
  exists b', rd_kafka_broker_buf_enq_replyq bc resp_cb b (new_buf rq need_make) now = Some b' /\
    bq_done (rq_id rq :: E) b b'.
Proof.
  intros I (Hid & Hs & Hl). rewrite queued_len in Hl. unfold queued in Hid. rewrite !ids_app in Hid.
  destruct (enq_replyq_inv bc N HN resp_cb may_retry Hretry false (rq_id rq :: E) b (new_buf rq need_make) now)
    as (b' & E1 & I' & Ec & _ & L); [now apply (intake bc N may_retry false E b (new_buf rq need_make)) | reflexivity | reflexivity |].
  exists b'. split; [exact E1 | now apply bq_done_eq].
Qed.

Lemma purge_inv E b rktp err now :
  inv false E [] b ->
  exists b' cnt, rd_kafka_broker_bufq_purge_by_toppar bc resp_cb b rktp err now = Some (b', cnt) /\ bq_done E b b'.
Proof.
  intros I. unfold rd_kafka_broker_bufq_purge_by_toppar.
  destruct (purge_toppar_inv bc N HN resp_cb may_retry Hretry (length (rkbq_bufs (rkb_outbufs b))) E b []
    (rkbq_bufs (rkb_outbufs b)) rktp err now 0 I eq_refl (le_n _) (Forall_nil _)) as (b' & cnt' & Es & I' & [_ Ec L] & _).
  exists b', cnt'. split; [exact Es | now apply bq_done_eq].
Qed.

Lemma exec_inv E b op :
  inv false E [] b -> 0 <= rkb_connid b -> may_happen b op ->
  exists b', bq_exec b op = Some b' /\ bq_done (entered op ++ E) b b'.
Proof.
  intros I H0 Hop. destruct op as [rq nm now | rb now | r now | resp now | now | now nw | rktp err now | err now | st | | st | f v];
    cbn [bq_exec entered may_happen app] in *.
  - now apply enq_inv.
  - destruct Hop as ((Hid & Hs & Hl) & Hmr). rewrite queued_len in Hl. unfold queued in Hid. rewrite !ids_app in Hid.
    destruct (retry_push bc N HN may_retry false E [] b rb now I Hs Hmr) as (I' & (_ & _ & _ & _ & Ec & _) & L & _).
    + cbn. lia.
    + change (ids []) with (@nil nat). now rewrite app_nil_r.
    + eexists. split; [reflexivity |]. apply bq_done_eq; eauto.
  - destruct Hop as [Hr Hc].
    destruct (send_loop_inv bc N HN resp_cb make_req_cb may_retry Hretry Hmake _ E b r now 0 I Hr Hc)
      as (b' & ret & Es & [I' Ec _ L] & _).
    unfold rd_kafka_send. rewrite Es. exists b'. split; [reflexivity | now apply bq_done_eq].
  - destruct (req_response_inv bc N HN resp_cb may_retry Hretry E b resp now I) as (b' & ret & -> & I' & [_ Ec L]).
    exists b'. split; [reflexivity | now apply bq_done_eq].
  - destruct (broker_timeout_scan_inv bc N HN resp_cb may_retry Hretry E b now I) as (b' & -> & I' & Ec & L & _).
    exists b'. split; [reflexivity | now apply bq_done_eq].
  - destruct (retry_move_inv bc N HN may_retry (length (rkbq_bufs (rkb_retrybufs b))) false E b now nw I (le_n _))
      as (b' & nw' & Es & [I' Ec _ L] & _).
    unfold rd_kafka_broker_retry_bufs_move. rewrite Es. exists b'. split; [reflexivity | now apply bq_done_eq].
  - destruct (purge_inv E b rktp err now I) as (b' & cnt & -> & D). exists b'. now split.
  - destruct (broker_fail_inv bc N HN resp_cb may_retry Hretry false E b err now I) as (b' & -> & I' & [_ _ _ Ec L]).
    exists b'. split; [reflexivity | now apply bq_done_eq].
  - destruct Hop as (Hn & Hst & Hc). eexists. split; [reflexivity |]. unfold rd_kafka_broker_connect_done.
    destruct (change_state_kept (set_conn b (i32 (rkb_connid b + 1)) 1) st) as [Ec L].
    split; [now apply connected_inv | rewrite Ec; cbn; rewrite swrap_small by (unfold in_i; lia); lia | exact L].
  - eexists. split; [reflexivity |]. unfold rd_kafka_broker_connect_up.
    destruct (change_state_kept (set_conn b (rkb_connid b) (bc_max_inflight bc)) STATE_UP) as [Ec L].
    split; [now apply up_inv | now rewrite Ec | exact L].
  - eexists. split; [reflexivity |]. destruct (change_state_kept b st) as [Ec L].
    split; [now apply inv_change_state | now rewrite Ec | exact L].
  - eexists. split; [reflexivity |]. split; [now apply versions_inv | auto | exact (log_refl b)].
Qed.

Lemma new_inv : 0 <= N -> inv false [] [] new_broker.
Proof.
  intros HN0. constructor; cbn; try (repeat split; (constructor || lia)); try exact Logic.I.
  exists (mk_wire 0 None). split; [reflexivity |]. split; [cbn; lia |]. reflexivity.
Qed.

Lemma reached_inv E b : 0 <= N -> reached E b -> inv false E [] b /\ 0 <= rkb_connid b.
Proof.
  intros HN0. induction 1 as [| E b op b' _ [I H0] Hop Ex]; [split; [now apply new_inv | cbn; lia] |].
  destruct (exec_inv E b op I H0 Hop) as (b2 & E2 & [I2 H2 _]). rewrite Ex in E2. injection E2 as <-. auto.
Qed.

(** ** Properties *)

(** C10. Whatever happens to the queues of a broker, in whatever order, no assertion fails
    and no request is lost: each that came in, and each that was retried, is in exactly
    one of the three queues or was called back exactly once; and no request is in two
    places. *)
Theorem requests_are_kept E b op :
  0 <= N -> reached E b -> may_happen b op ->
  exists b', bq_exec b op = Some b' /\
    (entered op ++ E) ++ retried (rkb_log b') ≡ₚ ids (queued b') ++ called (rkb_log b') /\
    NoDup (ids (queued b')).
Proof.
  intros HN0 Hre Hop. destruct (reached_inv E b HN0 Hre) as [I H0].
  destruct (exec_inv E b op I H0 Hop) as (b' & E1 & [[A D _ _ _ _ _ _ _ _ _ _ _] _ _]).
  exists b'. split; [exact E1 |]. change (ids []) with (@nil nat) in *. unfold queued. rewrite !ids_app.
  rewrite app_nil_r in D. split; [rewrite A, <- !app_assoc; reflexivity | exact D].
Qed.

(** The requests that wait for a response have different correlation ids, were written
    as a whole, and are at most as many as the connection allows, one of which is the
    configured limit; and a callback that got a response without an error is that of the
    request with the correlation id of the response. *)
Lemma responses_find_their_request E b :
  0 <= N -> reached E b ->
  NoDup (map rb_corrid (rkbq_bufs (rkb_waitresps b))) /\
  Forall (fun rb => rb_of rb = rq_size (rb_rq rb)) (rkbq_bufs (rkb_waitresps b)) /\
  zlen (rkbq_bufs (rkb_waitresps b)) <= rkb_max_inflight b <= bc_max_inflight bc /\
  Forall (event_ok may_retry) (rkb_log b).
Proof.
  intros HN0 Hre. destruct (reached_inv E b HN0 Hre) as [[_ _ _ _ _ _ [W1 W2] _ _ Fl _ _ P] _].
  split; [exact W2 |]. split; [| auto]. eapply list.Forall_impl; [exact W1 |]. now intros x [Hx _].
Qed.

(** C11. On every connection requests are written one after the other: what is written next
    continues, from its very next byte, the request that was written in part, with the same
    correlation id, and otherwise starts a request; a request in part is continued
    on no other connection. *)
Theorem requests_are_written_whole E b :
  0 <= N -> reached E b -> exists w, wire_run (mk_wire 0 None) (rkb_log b) = Some w /\ wr_conn w <= rkb_connid b.
Proof.
  intros HN0 Hre. destruct (reached_inv E b HN0 Hre) as [[_ _ _ _ _ _ _ _ _ _ _ (w & Hw & Hc & _) _] _]. eauto.
Qed.

(** A scan of a queue for time-outs leaves no request in it that is due, also when the
    callbacks of those that were put them, retried, into the very queue that is scanned. *)
Lemma scan_leaves_none_due E b sq err now :
  0 <= N -> reached E b -> now <> 0 -> now < retry_timeout bc now ->
  exists b' cnt partial_cnt, rd_kafka_broker_bufq_timeout_scan bc resp_cb b sq (-1) err now = Some (b', cnt, partial_cnt) /\
    Forall (fun rb => now < rb_ts_timeout rb) (rkbq_bufs (get_queue b' sq)) /\ 0 <= partial_cnt <= 1.
Proof.
  intros HN0 Hre Hnow Hr. destruct (reached_inv E b HN0 Hre) as [I _].
  destruct (timeout_scan_inv bc N HN resp_cb may_retry Hretry false E b sq (-1) err now I ltac:(discriminate))
    as (b' & cnt & br & E1 & _ & _ & Hd).
  unfold rd_kafka_broker_bufq_timeout_scan. change 0 with (Z.b2z false) at 2. rewrite E1.
  exists b', cnt, (Z.b2z br). split; [reflexivity |]. split; [now apply Hd | destruct br; cbn; lia].
Qed.

(** Sending ends only for a reason: no request is left, the broker is not up, as many
    requests as the connection allows wait for their responses, or the transport took only
    a part of the request at the head. *)
Lemma send_stops_for_a_reason E b r now :
  0 <= N -> reached E b -> may_happen b (OpSend r now) ->
  exists b' ret, rd_kafka_send bc resp_cb make_req_cb b r now = Some (b', ret) /\
    (rkbq_bufs (rkb_outbufs b') = [] \/ state_num (rkb_state b') < state_num STATE_UP \/
     rkb_max_inflight b' <= zlen (rkbq_bufs (rkb_waitresps b')) \/
     exists rb l, rkbq_bufs (rkb_outbufs b') = rb :: l /\ rb_corrid rb <> 0).
Proof.
  intros HN0 Hre [Hr Hc]. destruct (reached_inv E b HN0 Hre) as [I _].
  destruct (send_loop_inv bc N HN resp_cb make_req_cb may_retry Hretry Hmake _ E b r now 0 I Hr Hc) as (b' & ret & Es & _ & Hst).
  exists b', ret. split; [exact Es |]. now apply Hst.
Qed.

End Props.

(** ** Witnesses *)

Definition ex_bconf : broker_conf := mk_bconf false 60000 100 2 1 false false.

(** Callbacks retry what timed out or was lost. *)
Definition ex_resp_cb (rb : reqbuf) (err : Z) (resp : option response) : bool := negb (err =? 0).
Definition ex_any (id : nat) : Prop := True.
Definition ex_make (rq : request) : (Z * Z * Z) + Z := inl (0, 0, 30).

Definition ex_rq (id : nat) (prio : Z) : request :=
  mk_rq id 3 1 0 prio false false false 20 5000 0 false 3 0 0.

(** The transport takes the first request, and four bytes of the next. *)
Definition ex_takes (k : nat) (n : Z) : Z := match k with O => n | _ => Z.min n 4 end.

Fixpoint bq_run (b : broker) (ops : list bq_op) : option broker :=
  match ops with
  | [] => Some b
  | op :: ops => let* b := bq_exec ex_bconf ex_resp_cb ex_make b op in bq_run b ops
  end.

(** Three requests; one is written as a whole, one in part, and one, with a priority, in
    front of the third but behind that one. *)
Definition ex_ops : list bq_op :=
  [OpVersions 0 [(3, (0, 9))]; OpEnq (ex_rq 1 0) false 1000; OpState STATE_CONNECT;
   OpConnected STATE_AUTH_LEGACY; OpUp; OpEnq (ex_rq 2 0) true 1000; OpSend ex_takes 2000;
   OpEnq (ex_rq 3 0) false 3000; OpEnq (ex_rq 4 1) false 3000].

Definition ex_broker : broker := Eval vm_compute in default new_broker (bq_run new_broker ex_ops).

Lemma ex_takes_ok k n : 0 <= n -> -1 <= ex_takes k n <= n.
Proof. unfold ex_takes. destruct k; lia. Qed.

Lemma ex_enter b rq : bool_decide (may_enter 1000 b rq) = true -> may_enter 1000 b rq.
Proof. apply bool_decide_eq_true. Qed.

Ltac happens :=
  cbn [may_happen];
  first [ apply ex_enter; vm_compute; reflexivity
        | split; [exact ex_takes_ok | vm_compute; reflexivity]
        | unfold connected; cbn; (split + idtac); lia
        | cbn; repeat constructor ].

Ltac advance op :=
  match goal with
  | H : reached _ _ _ _ _ ?E ?b |- _ =>
      let r := eval vm_compute in (bq_exec ex_bconf ex_resp_cb ex_make b op) in
      match r with Some ?b' => apply (reached_op _ _ _ _ _ E b op b') in H; [| happens | vm_compute; reflexivity] end
  end.

Lemma ex_reached : reached ex_bconf 1000 ex_resp_cb ex_make ex_any [4%nat; 3%nat; 2%nat; 1%nat] ex_broker.
Proof.
  pose proof (reached_new ex_bconf 1000 ex_resp_cb ex_make ex_any) as H.
  advance (OpVersions 0 [(3, (0, 9))]).
  advance (OpEnq (ex_rq 1 0) false 1000).
  advance (OpState STATE_CONNECT).
  advance (OpConnected STATE_AUTH_LEGACY).
  advance OpUp.
  advance (OpEnq (ex_rq 2 0) true 1000).
  advance (OpSend ex_takes 2000).
  advance (OpEnq (ex_rq 3 0) false 3000).
  advance (OpEnq (ex_rq 4 1) false 3000).
  exact H.
Qed.

Lemma ex_N : 1000 < 2 ^ 28.
Proof. reflexivity. Qed.
Lemma ex_N0 : 0 <= 1000.
Proof. lia. Qed.
Lemma ex_inflight : 1 <= bc_max_inflight ex_bconf.
Proof. cbn. lia. Qed.
Lemma ex_may_send : may_happen 1000 ex_any ex_broker (OpSend ex_takes 9000).
Proof. split; [exact ex_takes_ok | vm_compute; reflexivity]. Qed.

Lemma ex_any_ok rb err resp : ex_resp_cb rb err resp = true -> ex_any (rb_id rb).
Proof. exact (fun _ => I). Qed.

Lemma ex_make_ok rq v f size : ex_make rq = inl (v, f, size) -> 0 < size.
Proof. intros [= _ _ <-]. lia. Qed.

Lemma ex_timeouts :
  exists b', bq_exec ex_bconf ex_resp_cb ex_make ex_broker (OpTimeouts 9000000) = Some b' /\
    ids (rkbq_bufs (rkb_retrybufs b')) = [1; 2; 4; 3]%nat /\ called (rkb_log b') = [1; 2; 4; 3]%nat.
Proof. eexists. split; [vm_compute; reflexivity | split; reflexivity]. Qed.

Lemma ex_scan :
  exists b', rd_kafka_broker_bufq_timeout_scan ex_bconf ex_resp_cb ex_broker ScanOutbufs (-1) ERR__TIMED_OUT_QUEUE 5002000 =
      Some (b', 1, 1) /\ ids (rkbq_bufs (rkb_outbufs b')) = [4; 3]%nat.
Proof. eexists. split; [vm_compute; reflexivity | reflexivity]. Qed.

Lemma ex_sends :
  exists b', rd_kafka_send ex_bconf ex_resp_cb ex_make ex_broker ex_takes 9000 = Some (b', Some 1) /\
    ids (rkbq_bufs (rkb_waitresps b')) = [1; 2]%nat.
Proof. eexists. split; [vm_compute; reflexivity | reflexivity]. Qed.

Theorem requests_are_kept_witness :
  exists b', bq_exec ex_bconf ex_resp_cb ex_make ex_broker (OpTimeouts 9000000) = Some b' /\
    ids (rkbq_bufs (rkb_retrybufs b')) = [1; 2; 4; 3]%nat /\ called (rkb_log b') = [1; 2; 4; 3]%nat /\
    (entered (OpTimeouts 9000000) ++ [4; 3; 2; 1]%nat) ++ retried (rkb_log b') ≡ₚ
      ids (queued b') ++ called (rkb_log b').
Proof.
  destruct (requests_are_kept ex_bconf 1000 ex_N ex_resp_cb ex_make ex_make_ok ex_inflight ex_any ex_any_ok _ ex_broker
    (OpTimeouts 9000000) ex_N0 ex_reached I) as (b' & E1 & P & _).
  destruct ex_timeouts as (b2 & E2 & H). rewrite E1 in E2. injection E2 as <-.
  exists b'. split; [exact E1 |]. split; [apply H |]. split; [apply H | exact P].
Defined.

Theorem responses_find_their_request_witness :
  NoDup (map rb_corrid (rkbq_bufs (rkb_waitresps ex_broker))) /\ Forall (event_ok ex_any) (rkb_log ex_broker).
Proof.
  destruct (responses_find_their_request ex_bconf 1000 ex_N ex_resp_cb ex_make ex_make_ok ex_inflight ex_any ex_any_ok _ ex_broker
    ex_N0 ex_reached) as (H1 & _ & _ & H2). split; [exact H1 | exact H2].
Defined.

Lemma ex_written : wire_run (mk_wire 0 None) (rkb_log ex_broker) = Some (mk_wire 1 (Some (2%nat, 2, 4))).
Proof. vm_compute. reflexivity. Qed.

Theorem requests_are_written_whole_witness :
  exists w, wire_run (mk_wire 0 None) (rkb_log ex_broker) = Some w /\ wr_part w = Some (2%nat, 2, 4) /\
    wr_conn w <= rkb_connid ex_broker.
Proof.
  destruct (requests_are_written_whole ex_bconf 1000 ex_N ex_resp_cb ex_make ex_make_ok ex_inflight ex_any ex_any_ok _ ex_broker
    ex_N0 ex_reached) as (w & E1 & Hc).
  exists w. split; [exact E1 |]. pose proof ex_written as E2. rewrite E1 in E2. injection E2 as ->.
  split; [reflexivity | exact Hc].
Defined.

Theorem scan_leaves_none_due_witness :
  exists b', rd_kafka_broker_bufq_timeout_scan ex_bconf ex_resp_cb ex_broker ScanOutbufs (-1) ERR__TIMED_OUT_QUEUE 5002000 =
      Some (b', 1, 1) /\ ids (rkbq_bufs (rkb_outbufs b')) = [4; 3]%nat /\
    Forall (fun rb => 5002000 < rb_ts_timeout rb) (rkbq_bufs (get_queue b' ScanOutbufs)).
Proof.
  destruct (scan_leaves_none_due ex_bconf 1000 ex_N ex_resp_cb ex_make ex_make_ok ex_inflight ex_any ex_any_ok _ ex_broker
    ScanOutbufs ERR__TIMED_OUT_QUEUE 5002000 ex_N0 ex_reached ltac:(lia) ltac:(vm_compute; reflexivity))
    as (b' & cnt & p & E1 & F & _).
  destruct ex_scan as (b2 & E2 & H). rewrite E1 in E2. injection E2 as <- -> ->.
  exists b'. split; [exact E1 |]. split; [exact H | exact F].
Defined.

Theorem send_stops_for_a_reason_witness :
  exists b', rd_kafka_send ex_bconf ex_resp_cb ex_make ex_broker ex_takes 9000 = Some (b', Some 1) /\
    ids (rkbq_bufs (rkb_waitresps b')) = [1; 2]%nat /\
    (rkbq_bufs (rkb_outbufs b') = [] \/ state_num (rkb_state b') < state_num STATE_UP \/
     rkb_max_inflight b' <= zlen (rkbq_bufs (rkb_waitresps b')) \/
     exists rb l, rkbq_bufs (rkb_outbufs b') = rb :: l /\ rb_corrid rb <> 0).
Proof.
  destruct (send_stops_for_a_reason ex_bconf 1000 ex_N ex_resp_cb ex_make ex_make_ok ex_inflight ex_any ex_any_ok _ ex_broker
    ex_takes 9000 ex_N0 ex_reached ex_may_send) as (b' & ret & E1 & H).
  destruct ex_sends as (b2 & E2 & H2). rewrite E1 in E2. injection E2 as <- ->.
  exists b'. split; [exact E1 |]. split; [exact H2 | exact H].
Defined.
