(* ===== verification/Serve.v ===== *)
(** * A producer's partition and its broker (src/cbits/hs_rdkafka_broker.c,
      hs_rdkafka_request.c, hs_rdkafka_partition.c, hs_rdkafka_msg.c)

    The pipeline of a partition: the application's messages in [rktp_msgq], those the
    broker thread has taken over in [rktp_xmit_msgq], and those in Produce requests, which
    wait in the queues of the broker (Bufq) until their callback, [rd_kafka_handle_Produce]
    (Produce), decides what becomes of them.  [rd_kafka_toppar_producer_serve] moves them
    on; it composes the queues of Msgq, the writer of MsgWriter and the request queues.

    There is one partition.  The broker also has requests of others: the addresses of the
    partition's own requests are odd numbers.  A callback changes the partition and never
    the queues of the broker, so that the callbacks which an operation on the broker makes
    are run, in their order, when it is done. *)

From stdpp Require Import gmap strings.
From S2P Require Import Prelude Msgq Producer EosState Eos Txn RdBuf Slice KafkaBuf MsgWriter Produce Bufq.

Definition RD_KAFKA_IDEMP_MAX_INFLIGHT : Z := 5.
Definition RD_KAFKA_REQUEST_DEFAULT_RETRIES : Z := 2.

Record serve_conf := mk_sconf {
  sc_resp : resp_conf;
  sc_prod : produce_conf;
  sc_bk : broker_conf;
  queue_backpressure_thres : Z;
  buffering_max_us : Z;
  sc_toppar : produce_toppar;
  sc_rktp : nat }.

(** [pl_reqs] are the batches of the partition's requests, by the address of the request;
    [pl_msgid] is [rktp_msgid], [pl_on_broker] is [rktp_broker == rkb]. *)
Record pipeline := mk_pl {
  pl_t : prod;
  pl_bk : broker;
  pl_reqs : gmap nat produce_request;
  pl_msgid : Z;
  pl_wakeup_q : bool;
  pl_on_broker : bool;
  pl_paused : bool }.

Definition set_pl_t (p : pipeline) v := mk_pl v (pl_bk p) (pl_reqs p) (pl_msgid p) (pl_wakeup_q p)
  (pl_on_broker p) (pl_paused p).
Definition set_pl_bk (p : pipeline) v := mk_pl (pl_t p) v (pl_reqs p) (pl_msgid p) (pl_wakeup_q p)
  (pl_on_broker p) (pl_paused p).
Definition set_pl_reqs (p : pipeline) v := mk_pl (pl_t p) (pl_bk p) v (pl_msgid p) (pl_wakeup_q p)
  (pl_on_broker p) (pl_paused p).
Definition set_pl_broker (p : pipeline) wakeup_q on_broker := mk_pl (pl_t p) (pl_bk p) (pl_reqs p) (pl_msgid p)
  wakeup_q on_broker (pl_paused p).

Definition own (id : nat) : bool := Nat.odd id.

Section Serve.
Context (conf : serve_conf).
Context (junk : Z -> Z) (codec : Z -> Z -> bytes -> option bytes) (addr : nat -> Z).
(** The callbacks and make callbacks of the other requests, and how a response is
    received. *)
Context (other_cb : reqbuf -> Z -> option response -> bool) (make_req_cb : request -> (Z * Z * Z) + Z).
Context (reply_of : response -> rd_buf * rd_slice).

(** ** Callbacks *)

(** [rd_kafka_handle_Produce] retries messages, never its request. *)
Definition resp_cb (rb : reqbuf) (err : Z) (resp : option response) : bool :=
  negb (own (rb_id rb)) && other_cb rb err resp.

Definition request_info_of (rb : reqbuf) : request_info :=
  mk_rqi (rq_ApiKey (rb_rq rb)) (rq_ApiVersion (rb_rq rb)) (rb_was_sent rb).

(** The callbacks of the partition's requests; the request is then destroyed. *)
Fixpoint run_callbacks (p : pipeline) (env : penv) (evs : list bq_event) : option pipeline :=
  match evs with
  | [] => Some p
  | EvCallback rb err resp :: evs =>
      if own (rb_id rb) then
        let* req := pl_reqs p !! rb_id rb in
        let* (t, _) := rd_kafka_handle_Produce (sc_resp conf) env (pl_t p) err (reply_of <$> resp)
                         (request_info_of rb) (preq_batch req) in
        run_callbacks (set_pl_reqs (set_pl_t p t) (delete (rb_id rb) (pl_reqs p))) env evs
      else run_callbacks p env evs
  | _ :: evs => run_callbacks p env evs
  end.

(** The broker after an operation on it, and the callbacks that it made. *)
Definition with_broker (p : pipeline) (env : penv) (b : broker) : option pipeline :=
  run_callbacks (set_pl_bk p b) env (drop (length (rkb_log (pl_bk p))) (rkb_log b)).

Definition purge_by_toppar (p : pipeline) (env : penv) (err now : Z) : option pipeline :=
  let* (b, _) := rd_kafka_broker_bufq_purge_by_toppar (sc_bk conf) resp_cb (pl_bk p) (sc_rktp conf) err now in
  with_broker p env b.

(** ** Message time-outs *)

(** The partition, the number of messages that timed out and [*abs_next_timeout]. *)
Definition rd_kafka_broker_toppar_msgq_scan (t : prod) (now : Z) : option (prod * Z * Z) :=
  let abs_next_timeout := 0 in
  let* (xmit, xtimedout, xcnt, next) :=
    rd_kafka_msgq_age_scan (pt_xmit_msgq t) RD_KAFKA_MSGQ_INITIALIZER now in
  let abs_next_timeout := if negb (next =? 0) && (next <? abs_next_timeout) then next else abs_next_timeout in
  let* (msgq, qtimedout, qcnt, next) := rd_kafka_msgq_age_scan (pt_msgq t) RD_KAFKA_MSGQ_INITIALIZER now in
  let abs_next_timeout := if negb (next =? 0) && ((abs_next_timeout =? 0) || (next <? abs_next_timeout)) then next
                          else abs_next_timeout in
  let t := set_pt_msgq (set_pt_xmit_msgq t xmit) msgq in
  let cnt := i32 (xcnt + qcnt) in
  if cnt =? 0 then Some (t, 0, abs_next_timeout)
  else
    let* (xtimedout, _) := rd_kafka_msgq_insert_msgq (msg_order_cmp (order (sc_resp conf))) xtimedout qtimedout in
    let* _ := rd_kafka_msgq_first xtimedout in
    let* _ := rd_kafka_msgq_last xtimedout in
    Some (fst (rd_kafka_dr_msgq (sc_resp conf) t xtimedout ERR__MSG_TIMED_OUT), cnt, abs_next_timeout).

(** ** Requests *)

Definition rd_kafka_broker_outbufs_space (b : broker) : Z :=
  let r := i32 (queue_backpressure_thres conf - rkbq_cnt (rkb_outbufs b)) in
  if r <? 0 then 0 else r.

Definition rd_kafka_msgbatch_ready_produce (t : prod) (n : Z) : prod :=
  let inflight := i32 (pt_msgs_inflight t + n) in
  let t := set_pt_msgs_inflight t inflight in
  if (inflight =? n) && idempotent (sc_resp conf)
  then set_pt_rk t (rd_kafka_idemp_inflight_toppar_add (pt_rk t)) else t.

(** An address that is not in use. *)
Definition new_address (b : broker) : nat :=
  (2 * S (list_max (map rb_id (rkbq_bufs (rkb_outbufs b) ++ rkbq_bufs (rkb_waitresps b) ++
                               rkbq_bufs (rkb_retrybufs b)))) + 1)%nat.

(** The request of a batch, with its time-out. *)
Definition produce_rq (id : nat) (req : produce_request) (tmout now : Z) : request :=
  mk_rq id RD_KAFKAP_Produce (msetw_ApiVersion (preq_ver req)) (msetw_features (preq_ver req)) 0 false
    (required_acks (sc_prod conf) =? 0) false (rd_buf_len (rkbuf_buf (preq_rkbuf req))) 0
    (i64 (now + tmout * 1000)) false RD_KAFKA_REQUEST_DEFAULT_RETRIES (sc_rktp conf)
    (rd_kafka_msgq_len (rkmb_msgq (preq_batch req))).

(** The pipeline and the return value.  [clk] are the clock's readings: two in the writer,
    one here and one when the request is enqueued. *)
Definition rd_kafka_ProduceRequest (p : pipeline) (env : penv) (pid : rd_kafka_pid) (epoch_base_msgid : Z)
  (clk : nat -> Z) : option (pipeline * Z) :=
  let rkb := mk_rkb (bk_features (pl_bk p)) (bk_ApiVersions (pl_bk p)) in
  let* (xmit, r, inconsistent) :=
    rd_kafka_msgset_create_ProduceRequest junk codec addr (sc_prod conf) rkb (sc_toppar conf)
      (pt_xmit_msgq (pl_t p)) pid epoch_base_msgid (clk 0%nat) (clk 1%nat) in
  let t := set_pt_xmit_msgq (pl_t p) xmit in
  let t := if inconsistent then set_pt_rk t (rd_kafka_set_fatal_error0 (pt_rk t) ERR__INCONSISTENT) else t in
  match r with
  | None => Some (set_pl_t p t, 0)
  | Some req =>
      let batch := preq_batch req in
      let cnt := rd_kafka_msgq_len (rkmb_msgq batch) in
      let t := rd_kafka_msgbatch_ready_produce t cnt in
      let now := clk 2%nat in
      let* first := rd_kafka_msgq_first (rkmb_msgq batch) in
      let first_msg_timeout := Z.quot (i64 (rkm_ts_timeout first - now)) 1000 in
      let tmout := if first_msg_timeout <=? 0 then 100 else RD_MIN (2 ^ 31 - 1) first_msg_timeout in
      let id := new_address (pl_bk p) in
      let* b := rd_kafka_broker_buf_enq_replyq (sc_bk conf) resp_cb (pl_bk p)
                  (new_buf (produce_rq id req tmout now) false) (clk 3%nat) in
      let* p := with_broker (set_pl_reqs (set_pl_t p t) (<[id := req]> (pl_reqs p))) env b in
      Some (p, cnt)
  end.

(** The requests a partition may make, until none can be made. *)
Fixpoint produce_requests_loop (n : nat) (p : pipeline) (env : penv) (pid : rd_kafka_pid) (epoch_base_msgid : Z)
  (clk : nat -> nat -> Z) (cnt : Z) : option (pipeline * Z) :=
  match n with
  | O => Some (p, cnt)
  | S n =>
      let* (p, r) := rd_kafka_ProduceRequest p env pid epoch_base_msgid (clk 0%nat) in
      if r >? 0 then produce_requests_loop n p env pid epoch_base_msgid (fun k => clk (S k)) (i32 (cnt + r))
      else Some (p, cnt)
  end.

(** ** The producer id of a partition *)

Definition rd_kafka_toppar_reset_base_msgid (e : toppar_eos) (new_base_msgid : Z) : toppar_eos :=
  mk_teos (te_pid e) (acked_msgid e) new_base_msgid 0 0 (wait_drain e).

(** The partition and the return value. *)
Definition rd_kafka_toppar_pid_change (t : prod) (pid : rd_kafka_pid) (base_msgid : Z) : option (prod * bool) :=
  if pt_msgs_inflight t >? 0 then Some (t, false)
  else
    let* _ := rd_assert (negb (base_msgid =? 0)) in
    let e := pt_eos t in
    let e := mk_teos pid (acked_msgid e) (epoch_base_msgid e) (next_ack_seq e) (next_err_seq e) (wait_drain e) in
    Some (set_pt_eos t (rd_kafka_toppar_reset_base_msgid e base_msgid), true).

(** ** Serving a partition *)

Definition batch_bytes_threshold : Z :=
  i64 ((if negb (compression_codec (sc_prod conf) =? 0) then 1 else 8) * batch_size (sc_prod conf)).

Definition allow_wakeup (p : pipeline) (next_wakeup : option Z) (now : Z) (flushing : bool)
  : pipeline * option Z * bool :=
  let t := pl_t p in
  let '(msgq, next_wakeup, ready) :=
    rd_kafka_msgq_allow_wakeup_at (pt_msgq t) (pt_xmit_msgq t) next_wakeup now
      (if flushing then 1 else buffering_max_us conf) (batch_num_messages (sc_prod conf)) batch_bytes_threshold in
  (set_pl_t p (set_pt_msgq t msgq), next_wakeup, ready).

(** What the first part of the function ends with: a return, or how many requests may be
    made, whether the batch is ready and the next wake-up. *)
Inductive serve_part : Type :=
| ServeReturn (p : pipeline) (cnt next_wakeup : Z)
| ServeGo (p : pipeline) (max_requests : Z) (batch_ready : bool) (next_wakeup : Z).

(** The time-out scan. *)
Definition serve_timeouts (p : pipeline) (pid : rd_kafka_pid) (now next_wakeup : Z) (max_requests : Z)
  : option serve_part :=
  let* (t, timeoutcnt, next) := rd_kafka_broker_toppar_msgq_scan (pl_t p) now in
  let p := set_pl_t p t in
  let next_wakeup := if negb (next =? 0) && (next <? next_wakeup) then next else next_wakeup in
  if idempotent (sc_resp conf) then
    if negb (rd_kafka_pid_valid pid) then Some (ServeReturn p 0 next_wakeup)
    else if timeoutcnt >? 0 then
      let* rk := rd_kafka_idemp_drain_epoch_bump (pt_rk t) ERR__TIMED_OUT in
      Some (ServeReturn (set_pl_t p (set_pt_rk t rk)) 0 next_wakeup)
    else Some (ServeGo p max_requests false next_wakeup)
  else Some (ServeGo p max_requests false next_wakeup).

(** Whether messages may be sent, and their move to the queue of the broker thread. *)
Definition serve_move (p : pipeline) (now next_wakeup max_requests : Z) (may_send flushing : bool)
  : option serve_part :=
  let t := pl_t p in
  let rk := pt_rk t in
  if negb may_send then Some (ServeGo p 0 false next_wakeup)
  else if negb (rk_fatal_err rk =? 0) then Some (ServeGo p 0 false next_wakeup)
  else if pl_paused p then Some (ServeGo p 0 false next_wakeup)
  else if rk_transactional rk && negb (rd_kafka_txn_toppar_may_send_msg rk (sc_rktp conf))
  then Some (ServeGo p 0 false next_wakeup)
  else if max_requests >? 0 then
    let* t :=
      if rkmq_msg_cnt (pt_msgq t) >? 0 then
        let* (xmit, msgq) := rd_kafka_msgq_insert_msgq (msg_order_cmp (order (sc_resp conf))) (pt_xmit_msgq t)
                               (pt_msgq t) in
        Some (set_pt_msgq (set_pt_xmit_msgq t xmit) msgq)
      else Some t in
    let p := set_pl_t p t in
    let up := bool_decide (rkb_state (pl_bk p) = STATE_UP) in
    let '(p, nw, ready) := allow_wakeup p (if up then Some next_wakeup else None) now flushing in
    Some (ServeGo p max_requests ready (default next_wakeup nw))
  else Some (ServeGo p max_requests false next_wakeup).

(** An idempotent producer's partition drains before it goes on. *)
Definition serve_drain (p : pipeline) (env : penv) (pid : rd_kafka_pid) (now next_wakeup max_requests : Z)
  (batch_ready : bool) : option serve_part :=
  let change := negb (rd_kafka_pid_eq pid (te_pid (pt_eos (pl_t p)))) in
  let* p := if change then purge_by_toppar p env ERR__RETRY now else Some p in
  let inflight := pt_msgs_inflight (pl_t p) in
  if wait_drain (pt_eos (pl_t p)) then
    if negb (inflight =? 0) then
      let* p := if negb change then purge_by_toppar p env ERR__RETRY now else Some p in
      Some (ServeReturn p 0 next_wakeup)
    else
      let p := set_pl_t p (set_pt_eos (pl_t p) (eos_set_wait_drain (pt_eos (pl_t p)) false)) in
      Some (ServeGo p (RD_MIN max_requests (i32 (RD_KAFKA_IDEMP_MAX_INFLIGHT - inflight))) batch_ready next_wakeup)
  else Some (ServeGo p (RD_MIN max_requests (i32 (RD_KAFKA_IDEMP_MAX_INFLIGHT - inflight))) batch_ready next_wakeup).

(** The requests. *)
Definition serve_requests (p : pipeline) (env : penv) (pid : rd_kafka_pid) (clk : nat -> nat -> Z)
  (now next_wakeup max_requests : Z) (batch_ready flushing : bool) : option (pipeline * Z * Z) :=
  if max_requests <=? 0 then Some (p, 0, next_wakeup)
  else if rkmq_msg_cnt (pt_xmit_msgq (pl_t p)) =? 0 then Some (p, 0, next_wakeup)
  else
    let* rkm := rd_kafka_msgq_first (pt_xmit_msgq (pl_t p)) in
    let* (p, ok) :=
      if idempotent (sc_resp conf) && negb (rd_kafka_pid_eq pid (te_pid (pt_eos (pl_t p)))) then
        let* (t, ok) := rd_kafka_toppar_pid_change (pl_t p) pid (rkm_msgid rkm) in Some (set_pl_t p t, ok)
      else Some (p, true) in
    if negb ok then Some (p, 0, next_wakeup)
    else
      let epoch_base := if idempotent (sc_resp conf) then epoch_base_msgid (pt_eos (pl_t p)) else 0 in
      if negb (bool_decide (rkb_state (pl_bk p) = STATE_UP)) then
        let b := set_persistconn (pl_bk p) (i32 (rkb_persistconn_internal (pl_bk p) + 1)) in
        Some (set_pl_bk p b, 0, next_wakeup)
      else if negb batch_ready then Some (p, 0, next_wakeup)
      else
        let* (p, cnt) := produce_requests_loop (Z.to_nat max_requests) p env pid epoch_base clk 0 in
        if cnt >? 0 then
          let '(p, nw, _) := allow_wakeup p (Some next_wakeup) now flushing in
          Some (p, cnt, default next_wakeup nw)
        else Some (p, cnt, next_wakeup).

(** The pipeline, the number of messages and [*next_wakeup]. *)
Definition rd_kafka_toppar_producer_serve (p : pipeline) (env : penv) (pid : rd_kafka_pid) (clk : nat -> nat -> Z)
  (now next_wakeup : Z) (do_timeout_scan may_send flushing : bool) : option (pipeline * Z * Z) :=
  let max_requests := rd_kafka_broker_outbufs_space (pl_bk p) in
  if negb (pl_on_broker p) then Some (p, 0, next_wakeup)
  else
    let* r := if do_timeout_scan then serve_timeouts p pid now next_wakeup max_requests
              else Some (ServeGo p max_requests false next_wakeup) in
    match r with
    | ServeReturn p cnt next_wakeup => Some (p, cnt, next_wakeup)
    | ServeGo p max_requests _ next_wakeup =>
        let* r := serve_move p now next_wakeup max_requests may_send flushing in
        match r with
        | ServeReturn p cnt next_wakeup => Some (p, cnt, next_wakeup)
        | ServeGo p max_requests batch_ready next_wakeup =>
            let* r := if idempotent (sc_resp conf)
                      then serve_drain p env pid now next_wakeup max_requests batch_ready
                      else Some (ServeGo p max_requests batch_ready next_wakeup) in
            match r with
            | ServeReturn p cnt next_wakeup => Some (p, cnt, next_wakeup)
            | ServeGo p max_requests batch_ready next_wakeup =>
                serve_requests p env pid clk now next_wakeup max_requests batch_ready flushing
            end
        end
    end.

(** The one partition of the broker, if it has joined it.  [rk_flushing] is the counter. *)
Definition rd_kafka_broker_produce_toppars (p : pipeline) (env : penv) (clk : nat -> nat -> Z)
  (now next_wakeup : Z) (do_timeout_scan : bool) (rk_flushing : Z) : option (pipeline * Z * Z) :=
  if negb (pl_on_broker p) then Some (p, 0, next_wakeup)
  else
    let rk := pt_rk (pl_t p) in
    let pid := if idempotent (sc_resp conf) then rd_kafka_idemp_get_pid0 rk else rd_kafka_pid_reset in
    let may_send :=
      if idempotent (sc_resp conf) then
        if negb (rd_kafka_pid_valid pid) then false
        else if rk_transactional rk && negb (rd_kafka_txn_may_send_msg rk) then false else true
      else true in
    if idempotent (sc_resp conf) && (negb may_send && negb do_timeout_scan) then Some (p, 0, next_wakeup)
    else
      let flushing := may_send && (rk_flushing >? 0) in
      let* (p, cnt, this_next_wakeup) :=
        rd_kafka_toppar_producer_serve p env pid clk now next_wakeup do_timeout_scan may_send flushing in
      Some (p, cnt, if this_next_wakeup <? next_wakeup then this_next_wakeup else next_wakeup).

(** ** Migration to another broker *)

(** [RD_KAFKA_OP_PARTITION_LEAVE], of a producer; [next_broker] is whether there is one
    to go to. *)
Definition partition_leave (p : pipeline) (env : penv) (topic_err : Z) (next_broker : bool) (now : Z)
  : option pipeline :=
  if negb (pl_on_broker p) then Some p
  else
    let* p := purge_by_toppar p env ERR__RETRY now in
    let t := pl_t p in
    let* (msgq, xmit) := rd_kafka_msgq_insert_msgq (msg_order_cmp (order (sc_resp conf))) (pt_msgq t)
                           (pt_xmit_msgq t) in
    let t := set_pt_xmit_msgq (set_pt_msgq t msgq) xmit in
    let p := set_pl_broker (set_pl_t p t) false false in
    if next_broker then Some p
    else
      let* _ := rd_assert (rd_kafka_msgq_len (pt_xmit_msgq t) =? 0) in
      let '(t, msgq) := rd_kafka_dr_msgq (sc_resp conf) t (pt_msgq t)
                          (if terminating env then ERR__DESTROY
                           else if negb (topic_err =? 0) then topic_err else RD_KAFKA_RESP_ERR__UNKNOWN_PARTITION) in
      Some (set_pl_t p (set_pt_msgq t msgq)).

(** [RD_KAFKA_OP_PARTITION_JOIN], of a producer's partition that has no other broker to go
    to. *)
Definition partition_join (p : pipeline) : option pipeline :=
  let* _ := rd_assert (negb (pl_on_broker p)) in
  let* _ := rd_assert (negb (pl_wakeup_q p)) in
  let p := set_pl_broker p true true in
  Some (if idempotent (sc_resp conf) then set_pl_t p (rd_kafka_idemp_drain_toppar (pl_t p)) else p).

(** ** New messages *)

(** [rd_kafka_toppar_enq_msg] for the partition, which has a number of its own. *)
Definition produce_msg (p : pipeline) (rkm : rd_kafka_msg) (now : Z) : pipeline :=
  let t := pl_t p in
  let rktp := mk_toppar (ptp_partition (sc_toppar conf)) (pl_msgid p) (pt_msgq t) (pl_on_broker p) (pl_wakeup_q p) 0 in
  let '(rktp, _) := rd_kafka_toppar_enq_msg (order (sc_resp conf)) rktp rkm now in
  mk_pl (set_pt_msgq t (rktp_msgq rktp)) (pl_bk p) (pl_reqs p) (rktp_msgid rktp) (pl_wakeup_q p) (pl_on_broker p)
    (pl_paused p).

End Serve.
