(* ===== verification/ServeFacts.v ===== *)
(** * What the pipeline of a partition keeps

    The invariant of a producer's partition with its queues and its requests, and what the
    callbacks of the requests do to it. *)

From stdpp Require Import gmap strings.
From S2P Require Import Prelude Header Msgq MsgqFacts Producer EosState Eos EosTotal RdBuf Slice KafkaBuf MsgWriter.
From S2P Require Import MsgWriterFacts MsgWriterProps Produce ProduceFacts ProduceProps Retry.
From S2P Require Import Bufq BufqFacts BufqProps Serve.

(** ** What a result leaves of the partition's sequence state *)

Record eos_kept (t t' : prod) : Prop := {
  ke_pid : te_pid (pt_eos t') = te_pid (pt_eos t);
  ke_base : epoch_base_msgid (pt_eos t') = epoch_base_msgid (pt_eos t);
  ke_drain : wait_drain (pt_eos t) = true -> wait_drain (pt_eos t') = true }.

#[export] Instance eos_kept_preorder : PreOrder eos_kept.
Proof. split; [now intros t | intros a b c [A1 A2 A3] [B1 B2 B3]; split; [congruence | congruence | auto]]. Qed.

Lemma eos_same t t' : pt_eos t' = pt_eos t -> eos_kept t t'.
Proof. intros E. split; now rewrite E. Qed.

(** One step of a run that returns. *)
Ltac run_step H :=
  match type of H with
  | Some _ = Some _ => injection H; clear H; intros; subst
  | None = Some _ => discriminate H
  | (match ?e with _ => _ end) = _ => destruct e eqn:?
  | (let _ := ?e in _) = _ => cbv zeta in H
  end.
Ltac runs H := repeat (run_step H).

Section Kept.
Context (conf : resp_conf) (env : penv).

Lemma dr_msgq_eos t q err t' q' : rd_kafka_dr_msgq conf t q err = (t', q') -> pt_eos t' = pt_eos t.
Proof.
  unfold rd_kafka_dr_msgq. destruct (_ =? 0); [now intros [= <- <-] |].
  destruct (negb _ && _); destruct (_ && _); cbn; repeat destruct (rd_kafka_msgq_move _ _); repeat destruct (rd_kafka_msgq_purge _);
    now intros [= <- <-].
Qed.

Lemma implicit_ack_eos t last t' : rd_kafka_dr_implicit_ack conf t last = Some t' -> pt_eos t' = pt_eos t.
Proof.
  unfold rd_kafka_dr_implicit_ack. intros H. runs H; [reflexivity |].
  destruct (rd_kafka_dr_msgq conf _ r3 0) as [t2 q2] eqn:Ed. cbn. apply dr_msgq_eos in Ed. now rewrite Ed.
Qed.

Lemma retry_msgq_eos t q incr st t' q' r :
  rd_kafka_toppar_retry_msgq conf env t q incr st = Some (t', q', r) -> pt_eos t' = pt_eos t.
Proof. unfold rd_kafka_toppar_retry_msgq. intros H. now runs H. Qed.

Lemma out_of_order_eos t b p t' p' : handle_out_of_order_sequence t b p = Some (t', p') -> pt_eos t' = pt_eos t.
Proof. unfold handle_out_of_order_sequence. intros H. now runs H. Qed.

Lemma unknown_pid_eos t b p t' p' : handle_unknown_producer_id t b p = Some (t', p') -> pt_eos t' = pt_eos t.
Proof. unfold handle_unknown_producer_id. intros H. now runs H. Qed.

Lemma idempotent_error_eos t b p t' b' p' :
  rd_kafka_handle_idempotent_Produce_error t b p = Some (t', b', p') -> pt_eos t' = pt_eos t.
Proof.
  unfold rd_kafka_handle_idempotent_Produce_error. intros H. runs H; try reflexivity.
  - eapply out_of_order_eos; eassumption.
  - eapply unknown_pid_eos; eassumption.
Qed.

Lemma drain_toppar_kept t : eos_kept t (rd_kafka_idemp_drain_toppar t).
Proof. unfold rd_kafka_idemp_drain_toppar. destruct (wait_drain _) eqn:E; [reflexivity |]. now split. Qed.

Lemma error_retry_kept t rq q p t' q' p' :
  produce_error_retry conf env t rq q p = Some (t', q', p') -> eos_kept t t'.
Proof.
  unfold produce_error_retry.
  set (a := if has_action _ _ then _ else _). assert (eos_kept t (fst a)) as Ka by (unfold a; destruct (has_action _ _); now apply eos_same).
  destruct a as [t1 p1]. destruct rq as [rq |]; [| discriminate]. cbv zeta.
  set (b := if idempotent conf then _ else _).
  assert (eos_kept t (fst b)) as Kb.
  { unfold b. destruct (idempotent conf); [| exact Ka]. etransitivity; [exact Ka | apply drain_toppar_kept]. }
  destruct b as [t2 p2]. intros H. runs H. etransitivity; [exact Kb |]. apply eos_same. eapply retry_msgq_eos; eassumption.
Qed.

Lemma error_permanent_eos t p t' p' : produce_error_permanent conf t p = Some (t', p') -> pt_eos t' = pt_eos t.
Proof. unfold produce_error_permanent. intros H. now runs H. Qed.

Lemma handle_error_kept t rq b p t' b' p' ret :
  rd_kafka_handle_Produce_error conf env t rq b p = Some (t', b', p', ret) -> eos_kept t t'.
Proof.
  unfold rd_kafka_handle_Produce_error. destruct (_ =? _); [now intros [= <- _ _ _] |].
  set (p1 := mk_perr _ _ _ _ _ _ _ _ _ _).
  set (r := if idempotent conf then _ else _). destruct r as [[[t1 b1] p2] |] eqn:Er; [| discriminate].
  assert (pt_eos t1 = pt_eos t) as E1.
  { unfold r in Er. destruct (idempotent conf); [| now injection Er as -> _ _]. eapply idempotent_error_eos; eassumption. }
  clear Er r. set (t2 := store_last_err _ _ _ _). cbv zeta.
  set (r := if has_action _ _ then _ else _). destruct r as [[[t3 b3] p3] |] eqn:Er; [| discriminate].
  assert (eos_kept t t3) as K3.
  { unfold r in Er. etransitivity; [apply (eos_same t t2), E1 |]. destruct (has_action _ _).
    - runs Er. eapply error_retry_kept; eassumption.
    - injection Er as -> _ _. reflexivity. }
  clear Er r. destruct (_ && _); [now intros [= <- _ _ _] |].
  set (r := if has_action _ _ && _ then _ else _). destruct r as [[t4 p4] |] eqn:Er; [| discriminate].
  assert (eos_kept t t4) as K4.
  { etransitivity; [exact K3 |]. unfold r in Er. destruct (_ && _).
    - apply eos_same. eapply error_permanent_eos; eassumption.
    - injection Er as -> _. reflexivity. }
  destruct (_ || _); [now intros [= <- _ _ _] |]. destruct (_ =? _); [| now intros [= <- _ _ _]].
  intros [= <- _ _ _]. etransitivity; [exact K4 | now apply eos_same].
Qed.

Lemma success_kept t b ns t' : rd_kafka_handle_idempotent_Produce_success conf t b ns = Some t' -> eos_kept t t'.
Proof.
  unfold rd_kafka_handle_idempotent_Produce_success.
  destruct (rd_kafka_msgq_first _) as [m |]; [| discriminate]. destruct (rd_kafka_msgq_last _) as [x |]; [| discriminate].
  cbv zeta. set (r := if _ <? _ then _ else _). destruct r as [[t1 fatal] |] eqn:Er; [| discriminate].
  assert (eos_kept t t1) as K1.
  { unfold r in Er. destruct (_ <? _).
    - runs Er. apply eos_same. eapply implicit_ack_eos; eassumption.
    - destruct (_ && _); injection Er as <- _; now split. }
  set (e := if negb fatal then _ else _). set (e2 := if _ >? _ then _ else _).
  assert (eos_kept t1 (set_pt_eos t1 e2)) as K2.
  { unfold e2, e. split; cbn; repeat case_match; auto. }
  destruct fatal; intros H; runs H; etransitivity; try exact K1; [| exact K2].
  etransitivity; [exact K2 | now apply eos_same].
Qed.

Lemma update_seqs_kept t p ns : eos_kept t (pt_update_seqs t p ns).
Proof. unfold pt_update_seqs. destruct (pe_update_next_ack p), (pe_update_next_err p); now split. Qed.

Lemma result_kept t b err pres rq t' b' :
  rd_kafka_msgbatch_handle_Produce_result conf env t b err pres rq = Some (t', b') -> eos_kept t t'.
Proof.
  unfold rd_kafka_msgbatch_handle_Produce_result. destruct (rd_assert _); [| discriminate]. cbv zeta.
  set (t1 := set_pt_msgs_inflight t _). assert (eos_kept t t1) as K1 by now apply eos_same.
  set (r := if err =? 0 then _ else _). destruct r as [[[[t2 b2] e2] st] |] eqn:Er; [| discriminate].
  assert (eos_kept t t2) as K2.
  { etransitivity; [exact K1 |]. unfold r in Er. destruct (err =? 0).
    - destruct (idempotent conf); runs Er; [eapply success_kept; eassumption | reflexivity].
    - runs Er. etransitivity; [eapply handle_error_kept; eassumption | apply update_seqs_kept]. }
  clear Er r. set (r := if rd_kafka_msgq_len _ >? 0 then _ else _).
  assert (eos_kept t (fst r)) as K3.
  { etransitivity; [exact K2 |]. unfold r. destruct (_ >? 0); [| reflexivity].
    destruct (rd_kafka_dr_msgq _ _ _ _) eqn:Ed. apply dr_msgq_eos in Ed. now apply eos_same. }
  destruct r as [t3 b3]. destruct (_ && _); [destruct (rd_kafka_idemp_inflight_toppar_sub _); [| discriminate] |]; intros H; runs H; [| exact K3].
  etransitivity; [exact K3 | now apply eos_same].
Qed.

Lemma parse_eos t rb s v pres t' pres' err :
  rd_kafka_handle_Produce_parse t rb s v pres = Some (t', pres', err) -> pt_eos t' = pt_eos t.
Proof.
  unfold rd_kafka_handle_Produce_parse. intros H. runs H; try reflexivity.
  match goal with |- context [match ?x with _ => _ end] => destruct x end; reflexivity.
Qed.

(** A result never ends a drain, and leaves the producer id alone. *)
Lemma handle_Produce_kept t err reply rq b t' b' :
  rd_kafka_handle_Produce conf env t err reply rq b = Some (t', b') -> eos_kept t t'.
Proof.
  unfold rd_kafka_handle_Produce. set (e := match ut_handle_ProduceResponse conf with Some _ => _ | None => _ end).
  set (r := match reply with Some _ => _ | None => _ end). destruct r as [[[t1 pres] e1] |] eqn:Er; [| discriminate].
  assert (pt_eos t1 = pt_eos t) as E1.
  { unfold r in Er. destruct reply as [[rb s] |]; [| now injection Er as -> _ _].
    destruct (e =? 0); [eapply parse_eos; eassumption | now injection Er as -> _ _]. }
  intros H. etransitivity; [apply eos_same, E1 | eapply result_kept; eassumption].
Qed.

End Kept.

(** ** Messages *)

Definition batch_msgs (req : produce_request) : list rd_kafka_msg := rkmq_msgs (rkmb_msgq (preq_batch req)).

(** The messages of the requests. *)
Definition in_requests (m : gmap nat produce_request) : list rd_kafka_msg :=
  concat (map (fun kv => batch_msgs kv.2) (map_to_list m)).

(** All that the partition has and no report tells of. *)
Definition live (p : pipeline) : list rd_kafka_msg := held (pl_t p) ++ in_requests (pl_reqs p).

Lemma concat_perm {A} (l l' : list (list A)) : l ≡ₚ l' -> concat l ≡ₚ concat l'.
Proof. induction 1; cbn; [reflexivity | now f_equiv | solve_Permutation | etransitivity; eassumption]. Qed.

Lemma in_requests_insert m id req : m !! id = None -> in_requests (<[id := req]> m) ≡ₚ batch_msgs req ++ in_requests m.
Proof.
  intros H. unfold in_requests.
  change (batch_msgs req ++ concat (map (fun kv => batch_msgs kv.2) (map_to_list m)))
    with (concat (map (fun kv : nat * produce_request => batch_msgs kv.2) ((id, req) :: map_to_list m))).
  apply concat_perm, Permutation_map, map_to_list_insert, H.
Qed.

Lemma in_requests_delete m id req : m !! id = Some req -> in_requests m ≡ₚ batch_msgs req ++ in_requests (delete id m).
Proof.
  intros H. rewrite <- (in_requests_insert (delete id m) id req) by apply lookup_delete_eq.
  now rewrite insert_delete_id.
Qed.

Lemma in_requests_empty : in_requests ∅ = [].
Proof. reflexivity. Qed.

Lemma in_requests_in m id req x : m !! id = Some req -> x ∈ batch_msgs req -> x ∈ in_requests m.
Proof. intros H Hx. rewrite (in_requests_delete _ _ _ H). apply elem_of_app. now left. Qed.

(** Messages of the same content. *)
Lemma perm_sum_bytes l l' : l ≡ₚ l' -> sum_bytes l = sum_bytes l'.
Proof. induction 1; rewrite ?sum_bytes_cons in *; cbn in *; lia || congruence. Qed.

Lemma core_perm l l' : map core l ≡ₚ map core l' ->
  zlen l = zlen l' /\ sum_bytes l = sum_bytes l' /\ map rkm_msgid l ≡ₚ map rkm_msgid l'.
Proof.
  intros P. apply Permutation_map_inv in P as (l2 & E & P).
  rewrite (core_length E), (core_sum_bytes _ _ E). apply (f_equal (map rkm_msgid)) in E. rewrite !map_map in E.
  change (map rkm_msgid l = map rkm_msgid l2) in E. rewrite E.
  split; [now rewrite P | split; [apply perm_sum_bytes; now symmetry | now rewrite P]].
Qed.

Lemma small_sub l l' q : l ≡ₚ rkmq_msgs q ++ l' -> zlen l < 2 ^ 31 -> sum_bytes l < 2 ^ 63 -> small q.
Proof.
  intros P H1 H2. rewrite (perm_sum_bytes _ _ P), sum_bytes_app in H2. pose proof (sum_bytes_nonneg l').
  rewrite P, length_app in H1. split; lia.
Qed.

(** ** The invariant *)

(** The addresses of the partition's requests. *)
Definition owned (l : list nat) : list nat := filter (fun id => own id = true) l.

Lemma owned_app a b : owned (a ++ b) = owned a ++ owned b.
Proof. apply list.filter_app. Qed.

#[export] Instance owned_proper : Proper ((≡ₚ) ==> (≡ₚ)) owned.
Proof. intros a b P. unfold owned. now rewrite P. Qed.

Section Inv.
Context (conf : serve_conf) (N : Z).

Abbreviation rconf := (sc_resp conf).
Abbreviation pconf := (sc_prod conf).

(** A message that can be sent; the batch it was in is known only of an idempotent
    producer's. *)
Record good (msgid : Z) (m : rd_kafka_msg) : Prop := {
  gd_fits : msg_fits pconf m;
  gd_octets : octets m;
  gd_id : 1 <= rkm_msgid m <= msgid;
  gd_last : idempotent rconf = false -> rkm_last_msgid m = 0 }.

(** The sequence number of a batch is that of its first message under the partition's
    producer id. *)
Definition sequence_ok (e : toppar_eos) (req : produce_request) : Prop :=
  rkmb_pid (preq_batch req) = te_pid e /\
  match batch_msgs req with
  | m :: _ => rkmb_first_seq (preq_batch req) = rd_kafka_seq_wrap (i64 (rkm_msgid m - epoch_base_msgid e))
  | [] => True
  end.

Record batch_ok (e : toppar_eos) (req : produce_request) : Prop := {
  bo_queue : queue_ok rconf (rkmb_msgq (preq_batch req));
  bo_last : last_ok (batch_msgs req);
  bo_seq : idempotent rconf = true -> sequence_ok e req }.

(** All of [a] comes before all of [b]. *)
Definition all_before (a b : list rd_kafka_msg) : Prop :=
  Forall (fun m => Forall (fun y => rkm_msgid m < rkm_msgid y) b) a.

(** An idempotent producer with queues in the order of ids. *)
Definition in_order : Prop := idempotent rconf = true /\ order rconf = RD_KAFKA_QUEUE_FIFO.

(** In the order of their creation the requests have increasing ids; and what is in the
    queues comes after them, unless the partition is being drained. *)
Record ordered (p : pipeline) : Prop := {
  od_requests : forall i j a b, pl_reqs p !! i = Some a -> pl_reqs p !! j = Some b -> (i < j)%nat ->
    all_before (batch_msgs a) (batch_msgs b);
  od_held : wait_drain (pt_eos (pl_t p)) = false -> all_before (in_requests (pl_reqs p)) (held (pl_t p)) }.

(** The partitions with requests in flight, without this one. *)
Definition other_toppars (t : prod) : Z :=
  inflight_toppar_cnt (pt_rk t) - (if pt_msgs_inflight t =? 0 then 0 else 1).

Definition may_retry (id : nat) : Prop := own id = false.

(** [E] are the messages that came in; [evs] are events of the broker whose callbacks are
    yet to be run. *)
Record pinv (E : list rd_kafka_msg) (evs : list bq_event) (p : pipeline) : Prop := {
  pi_acc : map core E ≡ₚ map core (live p ++ reported (pt_out (pl_t p)));
  pi_small : zlen (live p) < 2 ^ 31 /\ sum_bytes (live p) < 2 ^ 63;
  pi_good : Forall (good (pl_msgid p)) (live p);
  pi_ids : NoDup (map rkm_msgid (live p));
  pi_msgid : 0 <= pl_msgid p < 2 ^ 63;
  pi_queues : queue_ok rconf (pt_msgq (pl_t p)) /\ queue_ok rconf (pt_xmit_msgq (pl_t p));
  pi_batches : map_Forall (fun _ => batch_ok (pt_eos (pl_t p))) (pl_reqs p);
  pi_inflight : pt_msgs_inflight (pl_t p) = zlen (in_requests (pl_reqs p));
  pi_toppars : idempotent rconf = true -> 0 <= other_toppars (pl_t p) < 2 ^ 31 - 1;
  pi_txn : rk_transactional (pt_rk (pl_t p)) = true -> live p = [] \/ may_fail (pt_rk (pl_t p));
  pi_ordered : in_order -> ordered p;
  pi_window : idempotent rconf = true -> Z.of_nat (size (pl_reqs p)) <= RD_KAFKA_IDEMP_MAX_INFLIGHT;
  pi_keys : map fst (map_to_list (pl_reqs p)) ≡ₚ owned (ids (queued (pl_bk p)) ++ called evs);
  pi_broker : (exists Eb, inv (sc_bk conf) N may_retry false Eb [] (pl_bk p)) /\ 0 <= rkb_connid (pl_bk p) }.

(** ** The callbacks *)

Context (codec_reply : response -> rd_buf * rd_slice).
Abbreviation reply_of := codec_reply.
Context (Hreply : forall r, any_reply (Some (reply_of r))).


Lemma good_norm msgid m m' :
  norm m' = norm m -> (idempotent rconf = false -> rkm_last_msgid m' = rkm_last_msgid m) -> good msgid m -> good msgid m'.
Proof.
  intros E El [G1 G2 G3 G4]. constructor.
  - apply (proj2 (norm_fits _ m')). rewrite E. exact (proj1 (norm_fits _ m) G1).
  - change (octets (norm m')). rewrite E. exact G2.
  - change (1 <= rkm_msgid (norm m') <= msgid). rewrite E. exact G3.
  - intros Hi. rewrite El by assumption. auto.
Qed.

Lemma good_put_back env msgid incr st b : Forall (good msgid) b -> Forall (good msgid) (put_back rconf env incr st (marked rconf b)).
Proof.
  intros H. assert (Forall (good msgid) (marked rconf b)) as Hm.
  { unfold marked. destruct (idempotent rconf) eqn:Ei; [| exact H]. unfold with_last.
    destruct H as [| m l Hm Hl]; [constructor |]. destruct (list.last (m :: l)); [| now constructor].
    constructor; [| exact Hl]. apply (good_norm _ m); [reflexivity | congruence | exact Hm]. }
  unfold put_back. apply Forall_map. apply list.Forall_forall. intros m [_ Hin]%list_elem_of_filter.
  apply (good_norm _ m); [reflexivity | reflexivity |]. exact (proj1 (list.Forall_forall _ _) Hm m Hin).
Qed.

Lemma in_flight_inv E evs p id req :
  pinv E evs p -> pl_reqs p !! id = Some req -> in_flight rconf (pl_t p) (preq_batch req).
Proof.
  intros [A [S1 S2] G D M [Q1 Q2] B F T X O W K _] Hl. pose proof (in_requests_delete _ _ _ Hl) as P.
  assert (live p ≡ₚ rkmq_msgs (pt_msgq (pl_t p)) ++ rkmq_msgs (pt_xmit_msgq (pl_t p)) ++ in_requests (pl_reqs p)) as P1
    by (unfold live, held; now rewrite <- app_assoc).
  destruct (B id req Hl) as [B1 B2 B3].
  assert (batch_msgs req <> []) as Hne by (destruct B2 as (m & r & x & -> & _); discriminate).
  assert (0 < zlen (batch_msgs req)) as Hpos by (destruct (batch_msgs req); [congruence | cbn [length]; lia]).
  assert (zlen (batch_msgs req) <= pt_msgs_inflight (pl_t p) < 2 ^ 31) as Hc.
  { rewrite F. unfold live in S1. rewrite length_app in S1. rewrite P, length_app in *. lia. }
  constructor.
  - split; [exact Q1 |]. eapply small_sub; [exact P1 | exact S1 | exact S2].
  - split; [exact Q2 |]. apply (small_sub (live p) (rkmq_msgs (pt_msgq (pl_t p)) ++ in_requests (pl_reqs p)));
      [| exact S1 | exact S2]. rewrite P1. solve_Permutation.
  - unfold live in S1. rewrite length_app in S1. lia.
  - split; [exact B1 |]. apply (small_sub (live p) (held (pl_t p) ++ in_requests (delete id (pl_reqs p))));
      [| exact S1 | exact S2]. unfold live. rewrite P. change (rkmq_msgs (rkmb_msgq (preq_batch req))) with (batch_msgs req).
    solve_Permutation.
  - exact B2.
  - exact Hc.
  - intros Hi. specialize (T Hi). unfold other_toppars in T. replace (pt_msgs_inflight (pl_t p) =? 0) with false in T by lia. lia.
  - intros Ht. destruct (X Ht) as [E0 | Hm]; [| exact Hm]. exfalso. unfold live in E0. apply app_eq_nil in E0 as [_ E0].
    rewrite E0 in P. apply Permutation_nil_l in P. symmetry in P. apply app_eq_nil in P as [P _]. contradiction.
Qed.

(** A step that makes no message: where the messages are kept, and the rest of the
    invariant. *)
Lemma pinv_step E evs p evs' p' new :
  pinv E evs p -> pl_msgid p' = pl_msgid p ->
  (exists Eb, inv (sc_bk conf) N may_retry false Eb [] (pl_bk p')) /\ 0 <= rkb_connid (pl_bk p') ->
  pt_out (pl_t p') = pt_out (pl_t p) ++ new ->
  map core (live p' ++ reported new) ≡ₚ map core (live p) ->
  Forall (good (pl_msgid p)) (live p') ->
  queue_ok rconf (pt_msgq (pl_t p')) /\ queue_ok rconf (pt_xmit_msgq (pl_t p')) ->
  map_Forall (fun _ => batch_ok (pt_eos (pl_t p'))) (pl_reqs p') ->
  pt_msgs_inflight (pl_t p') = zlen (in_requests (pl_reqs p')) ->
  (idempotent rconf = true -> 0 <= other_toppars (pl_t p') < 2 ^ 31 - 1) ->
  rk_transactional (pt_rk (pl_t p')) = rk_transactional (pt_rk (pl_t p)) /\ (may_fail (pt_rk (pl_t p)) -> may_fail (pt_rk (pl_t p'))) ->
  (in_order -> ordered p') ->
  (idempotent rconf = true -> Z.of_nat (size (pl_reqs p')) <= RD_KAFKA_IDEMP_MAX_INFLIGHT) ->
  map fst (map_to_list (pl_reqs p')) ≡ₚ owned (ids (queued (pl_bk p')) ++ called evs') ->
  pinv E evs' p'.
Proof.
  intros [A [S1 S2] G D M Q B F T X O W K Br] Em Eb Eo P Hg Hq Hb Hf Ht [Hx Hx'] Ho Hw Hk.
  destruct (core_perm _ _ P) as (L1 & L2 & L3). rewrite length_app in L1. rewrite sum_bytes_app in L2.
  pose proof (sum_bytes_nonneg (reported new)). rewrite map_app in L3.
  constructor; rewrite ?Em; try assumption.
  - rewrite A, Eo, reported_app, !map_app, <- P, map_app. solve_Permutation.
  - split; lia.
  - rewrite <- L3 in D. apply list.NoDup_app in D. apply D.
  - rewrite Hx. intros Htx. destruct (X Htx) as [E0 | Hm]; [left | right; auto].
    rewrite E0 in L1. cbn [length] in L1. destruct (live p'); [reflexivity | cbn [length] in L1; lia].
Qed.

Lemma owned_map (m : gmap nat produce_request) id l : 
  map fst (map_to_list m) ≡ₚ owned (l ++ [id]) -> own id = true ->
  is_Some (m !! id) /\ map fst (map_to_list (delete id m)) ≡ₚ owned l.
Proof.
  intros K Ho. rewrite owned_app in K. change (owned [id]) with (filter (fun i => own i = true) [id]) in K.
  rewrite filter_cons_True, filter_nil in K by exact Ho.
  assert (id ∈ map fst (map_to_list m)) as Hin by (rewrite K; apply elem_of_app; right; apply list_elem_of_singleton; reflexivity).
  apply list_elem_of_fmap in Hin as ([i req] & -> & Hin). apply elem_of_map_to_list in Hin. split; [now exists req |].
  cbn in K |- *. rewrite <- (insert_delete_id m i req Hin) in K.
  rewrite (map_to_list_insert (delete i m) i req) in K by apply lookup_delete_eq. cbn in K.
  rewrite Permutation_app_comm in K. now apply Permutation_cons_inv in K.
Qed.

(** The order after messages of a request were put back, reported or acknowledged. *)
Lemma ordered_callback env p p' id req :
  (in_order -> ordered p) -> pl_reqs p !! id = Some req -> pl_reqs p' = delete id (pl_reqs p) ->
  eos_kept (pl_t p) (pl_t p') -> fate rconf env (pl_t p) (preq_batch req) (pl_t p') ->
  in_order -> ordered p'.
Proof.
  intros O Hl Er [_ _ Kd] F Hio. destruct (O Hio) as [O1 O2]. destruct Hio as [Hi _]. split.
  - intros i j a b Ha Hb. rewrite Er in Ha, Hb. apply lookup_delete_Some in Ha as [_ Ha], Hb as [_ Hb]. eauto.
  - intros Hw. destruct F as [(gone & Pg) | (incr & st & _ & _ & Hd)].
    + assert (wait_drain (pt_eos (pl_t p)) = false) as Hw0 by (destruct (wait_drain (pt_eos (pl_t p))); [rewrite Kd in Hw; auto | reflexivity]).
      specialize (O2 Hw0). unfold all_before in *. rewrite (in_requests_delete _ _ _ Hl) in O2.
      apply list.Forall_app in O2 as [_ O2]. rewrite Er. eapply list.Forall_impl; [exact O2 |].
      intros m Hm. cbv beta in Hm. rewrite Pg in Hm. now apply list.Forall_app in Hm as [Hm _].
    + destruct (Hd Hi) as [Hd1 _]. congruence.
Qed.

(** One callback of a request of the partition. *)
Lemma callback_step E rb err resp evs p env :
  pinv E (EvCallback rb err resp :: evs) p -> own (rb_id rb) = true ->
  exists req t b, pl_reqs p !! rb_id rb = Some req /\
    rd_kafka_handle_Produce rconf env (pl_t p) err (reply_of <$> resp) (request_info_of rb) (preq_batch req) = Some (t, b) /\
    pinv E evs (set_pl_reqs (set_pl_t p t) (delete (rb_id rb) (pl_reqs p))) /\ eos_kept (pl_t p) t.
Proof.
  intros I Ho. assert (map fst (map_to_list (pl_reqs p)) ≡ₚ owned ((ids (queued (pl_bk p)) ++ called evs) ++ [rb_id rb])) as K.
  { rewrite (pi_keys _ _ _ I). change (called (EvCallback rb err resp :: evs)) with (rb_id rb :: called evs).
    apply owned_proper. solve_Permutation. }
  destruct (owned_map _ _ _ K Ho) as [[req Hl] Kd]. exists req.
  assert (any_reply (reply_of <$> resp)) as Hr by (destruct resp; [apply Hreply | exact Logic.I]).
  destruct (handle_Produce_spec rconf env (pl_t p) err (reply_of <$> resp) (request_info_of rb) (preq_batch req)
    (in_flight_inv _ _ _ _ _ I Hl) Hr) as (t & b & Eh & _ & (new & Eo & P) & F & [Q1 Q2 Ei [Et Em] Ec]).
  pose proof (handle_Produce_kept _ _ _ _ _ _ _ _ _ Eh) as Ke.
  exists t, b. split; [exact Hl |]. split; [exact Eh |]. split; [| exact Ke].
  pose proof (in_requests_delete _ _ _ Hl) as Pd. pose proof I as [A S G D M Q B Fl T X O W _ Br].
  set (p' := set_pl_reqs _ _). cbn [app] in P. change (rkmq_msgs (rkmb_msgq (preq_batch req))) with (batch_msgs req) in *.
  assert (0 < zlen (batch_msgs req)) as Hpos.
  { destruct (bo_last _ _ (B _ _ Hl)) as (m & r & x & -> & _). cbn [length]. lia. }
  assert (Forall (good (pl_msgid p)) (held (pl_t p)) /\ Forall (good (pl_msgid p)) (batch_msgs req) /\
    Forall (good (pl_msgid p)) (in_requests (delete (rb_id rb) (pl_reqs p)))) as (G1 & G2 & G3).
  { unfold live in G. rewrite Pd in G. apply list.Forall_app in G as [? G]. apply list.Forall_app in G as [? ?]. auto. }
  apply (pinv_step E _ p evs p' new I); try reflexivity; try exact Eo; try exact Br;
    change (pl_t p') with t; change (pl_reqs p') with (delete (rb_id rb) (pl_reqs p)).
  - unfold live. cbn [p' set_pl_reqs set_pl_t pl_t pl_reqs]. rewrite Pd, (app_assoc (held (pl_t p))), (map_app core (held (pl_t p) ++ _)), <- P, !map_app.
    solve_Permutation.
  - change (live p') with (held t ++ in_requests (delete (rb_id rb) (pl_reqs p))).
    apply list.Forall_app. split; [| exact G3]. destruct F as [(gone & Pg) | (incr & st & Pq & Ex & _)].
    + rewrite Pg in G1. now apply list.Forall_app in G1 as [G1 _].
    + unfold held. rewrite Pq, Ex. unfold held in G1. apply list.Forall_app in G1 as [G1 G1'].
      apply list.Forall_app. split; [| exact G1']. apply list.Forall_app. split; [exact G1 |]. now apply good_put_back.
  - auto.
  - intros i r Hi. apply lookup_delete_Some in Hi as [_ Hi]. destruct (B i r Hi) as [B1 B2 B3]. constructor; auto.
    intros Hid. specialize (B3 Hid). unfold sequence_ok in *. now rewrite (ke_pid _ _ Ke), (ke_base _ _ Ke).
  - rewrite Ei, Fl, Pd, length_app. lia.
  - intros Hid. specialize (T Hid). unfold other_toppars in *. rewrite Ec, Ei, Hid in *.
    rewrite Pd, length_app in Fl. destruct (Z.eqb_spec (pt_msgs_inflight (pl_t p) - zlen (batch_msgs req)) 0); cbn [andb];
      destruct (Z.eqb_spec (pt_msgs_inflight (pl_t p)) 0); lia.
  - now split.
  - apply (ordered_callback env p p' (rb_id rb) req O Hl eq_refl Ke F).
  - intros Hid. specialize (W Hid). rewrite map_size_delete_Some by now exists req. lia.
  - exact Kd.
Qed.

(** What callbacks keep of the pipeline. *)
Record ran (p p' : pipeline) : Prop := {
  rn_bk : pl_bk p' = pl_bk p;
  rn_msgid : pl_msgid p' = pl_msgid p;
  rn_on : pl_on_broker p' = pl_on_broker p /\ pl_wakeup_q p' = pl_wakeup_q p /\ pl_paused p' = pl_paused p;
  rn_eos : eos_kept (pl_t p) (pl_t p');
  rn_none : pl_reqs p = ∅ -> p' = p;
  rn_reqs : (size (pl_reqs p') <= size (pl_reqs p))%nat }.

Lemma ran_refl p : ran p p.
Proof. now split. Qed.

Lemma pinv_events E evs evs' p :
  owned (called evs) ≡ₚ owned (called evs') -> pinv E evs p -> pinv E evs' p.
Proof.
  intros Ek [A S G D M Q B F T X O W K Br]. constructor; try assumption. now rewrite K, !owned_app, Ek.
Qed.

Lemma run_callbacks_inv evs : forall E p env,
  pinv E evs p -> exists p', run_callbacks conf reply_of p env evs = Some p' /\ pinv E [] p' /\ ran p p'.
Proof.
  induction evs as [| e evs IH]; intros E p env I.
  { exists p. split; [reflexivity |]. split; [exact I | apply ran_refl]. }
  assert (event_called e = [] -> exists p', run_callbacks conf reply_of p env evs = Some p' /\ pinv E [] p' /\ ran p p') as Hskip.
  { intros He. apply IH. eapply pinv_events; [| exact I]. unfold called. cbn [map concat]. now rewrite He. }
  destruct e as [rb err resp | | | | | |]; try exact (Hskip eq_refl).
  cbn [run_callbacks]. destruct (own (rb_id rb)) eqn:Ho.
  2: { apply IH. eapply pinv_events; [| exact I]. unfold called, owned. cbn [map concat event_called app].
       rewrite filter_cons_False by (rewrite Ho; discriminate). reflexivity. }
  destruct (callback_step E rb err resp evs p env I Ho) as (req & t & b & Hl & Eh & I1 & Ke). rewrite Hl, Eh.
  destruct (IH E _ env I1) as (p' & -> & I' & [R1 R2 R3 R4 _ R6]). exists p'. split; [reflexivity |]. split; [exact I' |].
  split; [exact R1 | exact R2 | exact R3 | etransitivity; eassumption | |].
  - intros Hn. rewrite Hn in Hl. discriminate Hl.
  - cbn in R6. rewrite map_size_delete_Some in R6 by eauto. lia.
Qed.

(** ** Operations of the broker *)

(** Of the partition's requests those are in the queues afterwards that were there or came
    in, and were not called back. *)
Lemma own_step Eb e b b' :
  inv (sc_bk conf) N may_retry false Eb [] b -> bq_done (sc_bk conf) N may_retry (e ++ Eb) b b' ->
  exists evs, rkb_log b' = rkb_log b ++ evs /\
    owned e ++ owned (ids (queued b)) ≡ₚ owned (ids (queued b')) ++ owned (called evs).
Proof.
  intros I [I' _ (evs & L)]. exists evs. split; [exact L |].
  assert (owned (retried evs) = []) as Hr.
  { pose proof (iv_resp _ _ _ _ _ _ _ I') as F. rewrite L in F. apply list.Forall_app in F as [_ F].
    clear - F. unfold retried. induction F as [| ev l Hev _ IH]; [reflexivity |]. cbn [map concat]. rewrite owned_app, IH, app_nil_r.
    destruct ev; try reflexivity. cbn [event_retried event_ok] in *. unfold owned, may_retry in *.
    rewrite filter_cons_False, filter_nil by (rewrite Hev; discriminate). reflexivity. }
  pose proof (owned_proper _ _ (iv_acc _ _ _ _ _ _ _ I)) as A. pose proof (owned_proper _ _ (iv_acc _ _ _ _ _ _ _ I')) as A'.
  rewrite L, retried_app, called_app in A'. rewrite !owned_app in A, A'. rewrite Hr in A'.
  change (ids []) with (@nil nat) in *. change (owned []) with (@nil nat) in *. rewrite app_nil_r in A'. cbn [app] in A, A'.
  unfold queued. rewrite !ids_app, !owned_app. rewrite <- app_assoc, A in A'.
  apply (Permutation_app_inv_r (owned (called (rkb_log b)))).
  transitivity (owned e ++ owned (ids (rkbq_bufs (rkb_outbufs b))) ++ owned (ids (rkbq_bufs (rkb_waitresps b))) ++
    owned (ids (rkbq_bufs (rkb_retrybufs b))) ++ owned (called (rkb_log b))); [solve_Permutation |].
  rewrite A', ?owned_app. solve_Permutation.
Qed.

Lemma with_broker_inv E p env b evs :
  rkb_log b = rkb_log (pl_bk p) ++ evs -> pinv E evs (set_pl_bk p b) ->
  exists p', with_broker conf reply_of p env b = Some p' /\ pinv E [] p' /\ ran (set_pl_bk p b) p'.
Proof.
  intros L I. unfold with_broker. rewrite L, drop_app_length. now apply run_callbacks_inv.
Qed.

(** An operation that brings no request of the partition. *)
Lemma broker_op_inv E p env e Eb b :
  pinv E [] p -> inv (sc_bk conf) N may_retry false Eb [] (pl_bk p) ->
  bq_done (sc_bk conf) N may_retry (e ++ Eb) (pl_bk p) b -> owned e = [] ->
  exists p', with_broker conf reply_of p env b = Some p' /\ pinv E [] p' /\ ran (set_pl_bk p b) p'.
Proof.
  intros I Ib D He. destruct (own_step Eb e _ _ Ib D) as (evs & L & P). rewrite He in P. cbn [app] in P.
  apply (with_broker_inv E p env b evs L). destruct D as [D1 D2 _].
  destruct I as [A S G Dd M Q B F T X O W K [_ Hc]].
  constructor; try assumption.
  - intros Ho. destruct (O Ho) as [O1 O2]. now split.
  - cbn. rewrite K, !owned_app, P. change (called []) with (@nil nat). cbn. now rewrite app_nil_r.
  - split; [eauto | auto].
Qed.

End Inv.
