(* ===== verification/ServeSteps.v ===== *)
(** * The steps of the pipeline keep its invariant

    What each part of [rd_kafka_toppar_producer_serve] does to a partition: the scan for
    time-outs, the move of the application's messages, the drain, the requests. *)

From stdpp Require Import gmap strings.
From S2P Require Import Prelude Header Msgq MsgqFacts Producer EosState Eos EosTotal RdBuf Slice KafkaBuf MsgWriter.
From S2P Require Import MsgWriterFacts MsgWriterProps Produce ProduceFacts ProduceProps Retry.
From S2P Require Import Bufq BufqFacts BufqProps Serve ServeFacts.

Section Steps.
Context (conf : serve_conf) (N : Z) (HN : N < 2 ^ 28).
Context (reply_of : response -> rd_buf * rd_slice).
Context (Hreply : forall r, any_reply (Some (reply_of r))).

Abbreviation rconf := (sc_resp conf).
Abbreviation pconf := (sc_prod conf).
Abbreviation pinv := (pinv conf N).

(** ** Steps within the queues of the partition *)

(** Messages leave the queues only for a report. *)
Record queues_step (t t' : prod) : Prop := {
  qs_out : exists new, pt_out t' = pt_out t ++ new /\ held t ≡ₚ held t' ++ reported new;
  qs_msgq : queue_ok rconf (pt_msgq t');
  qs_xmit : queue_ok rconf (pt_xmit_msgq t');
  qs_inflight : pt_msgs_inflight t' = pt_msgs_inflight t;
  qs_eos : pt_eos t' = pt_eos t;
  qs_rk : rk_kept (pt_rk t) (pt_rk t') }.

Lemma queues_step_inv E evs p t : pinv E evs p -> queues_step (pl_t p) t -> pinv E evs (set_pl_t p t).
Proof.
  intros I [(new & Eo & P) Q1 Q2 Ef Ee [K1 K2 _ K4]]. pose proof I as [A S G D M Q B F T X O W K Br].
  apply (pinv_step conf N E evs p evs (set_pl_t p t) new I); try reflexivity; try assumption; cbn [set_pl_t pl_t pl_reqs].
  - unfold live. cbn [set_pl_t pl_t pl_reqs]. rewrite P. apply Permutation_map. solve_Permutation.
  - unfold live in *. cbn [set_pl_t pl_t pl_reqs] in *. apply list.Forall_app in G as [G1 G2].
    rewrite P in G1. apply list.Forall_app in G1 as [G1 _]. now apply list.Forall_app.
  - auto.
  - now rewrite Ee.
  - now rewrite Ef.
  - unfold other_toppars in *. now rewrite K2, Ef.
  - now split.
  - intros Ho. destruct (O Ho) as [O1 O2]. split; [exact O1 |]. cbn [set_pl_t pl_t pl_reqs]. rewrite Ee. intros Hw.
    specialize (O2 Hw). unfold all_before in *. eapply list.Forall_impl; [exact O2 |].
    intros m Hm. cbv beta in Hm. rewrite P in Hm. now apply list.Forall_app in Hm as [Hm _].
Qed.

Lemma queues_step_refl E evs p : pinv E evs p -> queues_step (pl_t p) (pl_t p).
Proof.
  intros I. destruct (pi_queues _ _ _ _ _ I). split; try assumption; try reflexivity.
  exists []. now rewrite !app_nil_r.
Qed.

(** Both queues are small. *)
Lemma queues_small E evs p : pinv E evs p -> small (pt_msgq (pl_t p)) /\ small (pt_xmit_msgq (pl_t p)) /\ zlen (held (pl_t p)) < 2 ^ 31.
Proof.
  intros I. destruct (pi_small _ _ _ _ _ I) as [S1 S2].
  split; [| split].
  - apply (small_sub (live p) (rkmq_msgs (pt_xmit_msgq (pl_t p)) ++ in_requests (pl_reqs p))); [| exact S1 | exact S2].
    unfold live, held. now rewrite <- app_assoc.
  - apply (small_sub (live p) (rkmq_msgs (pt_msgq (pl_t p)) ++ in_requests (pl_reqs p))); [| exact S1 | exact S2].
    unfold live, held. solve_Permutation.
  - unfold live in S1. rewrite length_app in S1. lia.
Qed.

(** ** The scan for messages that timed out *)

Lemma age_scan_queue q now :
  queue_ok rconf q -> small q ->
  exists pre rest q' tq next, rkmq_msgs q = pre ++ rest /\
    rd_kafka_msgq_age_scan q RD_KAFKA_MSGQ_INITIALIZER now = Some (q', tq, zlen pre, next) /\
    rkmq_msgs q' = rest /\ rkmq_msgs tq = pre /\ queue_ok rconf q' /\ queue_ok rconf tq /\
    Forall (fun m => rkm_ts_timeout m <= now) pre /\
    match rest with [] => True | m :: _ => now < rkm_ts_timeout m end.
Proof.
  intros [C S] Hs. destruct (age_scan_spec now (rkmq_msgs q) q RD_KAFKA_MSGQ_INITIALIZER 0 eq_refl C Hs (counted_empty _))
    as (pre & rest & q' & tq & E & Es & Hp & Hr & Eq & Et & Cq & Ct).
  cbn [RD_KAFKA_MSGQ_INITIALIZER rkmq_msgs app] in Et. rewrite E in S. apply sorted_app in S as (S1 & S2 & _).
  assert (queue_ok rconf q' /\ queue_ok rconf tq) as [Qq Qt].
  { split; (split; [assumption |]); [rewrite Eq | rewrite Et]; assumption. }
  exists pre, rest, q', tq. eexists. split; [exact E |]. unfold rd_kafka_msgq_age_scan. rewrite Es.
  destruct Hs as [Hs _]. rewrite E, length_app in Hs. destruct Ct as [Ct _]. rewrite Ct, Et.
  cbn [RD_KAFKA_MSGQ_INITIALIZER rkmq_msg_cnt]. rewrite Z.sub_0_r, !swrap_small by (rewrite ?swrap_small; unfold in_i; lia).
  auto 10.
Qed.

Lemma msgq_scan_inv E p now :
  pinv E [] p ->
  exists t cnt next, rd_kafka_broker_toppar_msgq_scan conf (pl_t p) now = Some (t, cnt, next) /\ queues_step (pl_t p) t /\
    pinv E [] (set_pl_t p t) /\ (live p = [] -> cnt = 0).
Proof.
  intros I. destruct (queues_small _ _ _ I) as (S1 & S2 & S3). destruct (pi_queues _ _ _ _ _ I) as [Q1 Q2].
  destruct (age_scan_queue _ now Q2 S2) as (xpre & xrest & xq & xt & xn & Ex & Esx & Exq & Ext & Qx & Tx & _).
  destruct (age_scan_queue _ now Q1 S1) as (qpre & qrest & qq & qt & qn & Eq & Esq & Eqq & Eqt & Qq & Tq & _).
  unfold held in S3. rewrite Ex, Eq, !length_app in S3.
  unfold rd_kafka_broker_toppar_msgq_scan. rewrite Esx, Esq. cbv zeta.
  rewrite (swrap_small 32 (zlen xpre + zlen qpre)) by (unfold in_i; lia).
  set (t0 := set_pt_msgq (set_pt_xmit_msgq (pl_t p) xq) qq).
  assert (held (pl_t p) ≡ₚ held t0 ++ xpre ++ qpre) as Hh.
  { unfold held. cbn. rewrite Ex, Eq, Exq, Eqq. solve_Permutation. }
  destruct (Z.eqb_spec (zlen xpre + zlen qpre) 0) as [E0 | E0].
  { assert (xpre = [] /\ qpre = []) as [-> ->] by (destruct xpre, qpre; cbn [length] in E0; auto; lia).
    assert (queues_step (pl_t p) t0) as Hq.
    { split; try assumption; try reflexivity. exists []. split; [cbn; now rewrite app_nil_r | exact Hh]. }
    do 3 eexists. split; [reflexivity |]. split; [exact Hq |]. split; [now apply queues_step_inv | reflexivity]. }
  destruct (insert_msgq_spec (msg_order_cmp (order rconf)) xt qt) as (tq & e & -> & _ & St & Pt & Ct & _);
    [apply Tx | apply Tq | apply Tx | apply Tq |]. rewrite Ext, Eqt in Pt.
  unfold rd_kafka_msgq_first, rd_kafka_msgq_last.
  destruct (rkmq_msgs tq) as [| m l] eqn:Etq.
  { apply Permutation_nil_l in Pt. apply (f_equal length) in Pt. rewrite length_app in Pt. cbn [length] in Pt. lia. }
  cbn [hd_error]. destruct (list.last (m :: l)) eqn:El; [| apply list.last_None in El; discriminate].
  destruct (dr_msgq_spec rconf t0 tq ERR__MSG_TIMED_OUT Ct) as (t' & q' & -> & _ & [D1 D2 D3 D4 D5 D6]).
  { rewrite Etq, Pt, length_app. lia. }
  assert (queues_step (pl_t p) t') as Hq.
  { split; rewrite ?D2, ?D3; try assumption. eexists. split; [exact D1 |]. rewrite reported_dr, Etq, Pt, Hh. unfold held. now rewrite D2, D3. }
  cbn [fst]. do 3 eexists. split; [reflexivity |]. split; [exact Hq |]. split; [now apply queues_step_inv |].
  unfold live. intros H. apply app_eq_nil in H as [H _]. rewrite H in Hh. apply Permutation_nil_l in Hh. symmetry in Hh. apply app_eq_nil in Hh as [_ Hh].
  apply app_eq_nil in Hh as [-> ->]. cbn in E0. lia.
Qed.

(** ** What a serve leaves as it is *)

Record served (p p' : pipeline) : Prop := {
  sv_on : pl_on_broker p' = pl_on_broker p /\ pl_wakeup_q p' = pl_wakeup_q p /\ pl_paused p' = pl_paused p;
  sv_msgid : pl_msgid p' = pl_msgid p }.

#[export] Instance served_preorder : PreOrder served.
Proof. split; [now intros p | intros a b c [A1 A2] [B1 B2]; split; [intuition congruence | congruence]]. Qed.

(** What the first parts keep besides: the requests and the broker. *)
Record moved (p p' : pipeline) : Prop := {
  mv_served : served p p';
  mv_bk : pl_bk p' = pl_bk p;
  mv_reqs : pl_reqs p' = pl_reqs p;
  mv_inflight : pt_msgs_inflight (pl_t p') = pt_msgs_inflight (pl_t p);
  mv_eos : pt_eos (pl_t p') = pt_eos (pl_t p) }.

#[export] Instance moved_preorder : PreOrder moved.
Proof.
  split; [now intros p; split |]. intros a b c [A1 A2 A3 A4 A5] [B1 B2 B3 B4 B5].
  split; [now transitivity b | congruence ..].
Qed.

Lemma queues_step_moved p t : queues_step (pl_t p) t -> moved p (set_pl_t p t).
Proof. intros [_ _ _ H1 H2 _]. split; try reflexivity; [now split | exact H1 | exact H2]. Qed.

(** A part returns, or goes on with no more requests than before. *)
Definition part_ok E (p : pipeline) (max_requests : Z) (r : serve_part) : Prop :=
  match r with
  | ServeReturn p' _ _ => pinv E [] p' /\ served p p'
  | ServeGo p' max_requests' _ _ => pinv E [] p' /\ moved p p' /\ max_requests' <= max_requests
  end.

Lemma serve_timeouts_inv E p pid now next_wakeup max_requests :
  pinv E [] p -> exists r, serve_timeouts conf p pid now next_wakeup max_requests = Some r /\ part_ok E p max_requests r.
Proof.
  intros I. destruct (msgq_scan_inv E p now I) as (t & cnt & next & Es & Hq & I1 & Hlive).
  unfold serve_timeouts. rewrite Es. cbv zeta. pose proof (queues_step_moved p t Hq) as M.
  destruct (idempotent rconf); [| eexists; split; [reflexivity |]; cbn; auto using Z.le_refl].
  destruct (negb _); [eexists; split; [reflexivity |]; split; [exact I1 | apply M] |].
  destruct (cnt >? 0) eqn:Ec; [| eexists; split; [reflexivity |]; cbn; auto using Z.le_refl].
  destruct (drain_epoch_bump_returns (pt_rk t) ERR__TIMED_OUT) as (rk & -> & K); [| discriminate |].
  { destruct (qs_rk _ _ Hq) as [K1 _ _ K4]. rewrite K1. intros Ht. apply K4.
    destruct (pi_txn _ _ _ _ _ I Ht) as [E0 | Hm]; [rewrite (Hlive E0) in Ec; discriminate Ec | exact Hm]. }
  eexists. split; [reflexivity |]. split; [| now split].
  change (set_pl_t (set_pl_t p t) (set_pt_rk t rk)) with (set_pl_t (set_pl_t p t) (set_pt_rk (pl_t (set_pl_t p t)) rk)).
  apply queues_step_inv; [exact I1 |]. destruct (pi_queues _ _ _ _ _ I1) as [Q1 Q2].
  split; try assumption; try reflexivity. exists []. now rewrite !app_nil_r.
Qed.

(** ** The move of the messages *)

Lemma allow_wakeup_step t next_wakeup now linger n bytes :
  queue_ok rconf (pt_msgq t) -> queue_ok rconf (pt_xmit_msgq t) ->
  queues_step t (set_pt_msgq t (rd_kafka_msgq_allow_wakeup_at (pt_msgq t) (pt_xmit_msgq t) next_wakeup now linger n bytes).1.1) /\
  rkmq_msgs (rd_kafka_msgq_allow_wakeup_at (pt_msgq t) (pt_xmit_msgq t) next_wakeup now linger n bytes).1.1 = rkmq_msgs (pt_msgq t).
Proof.
  intros Q1 Q2. set (q := _.1.1). assert (exists w, q = mk_msgq (rkmq_msgs (pt_msgq t)) (rkmq_msg_cnt (pt_msgq t)) (rkmq_msg_bytes (pt_msgq t)) w)
    as (w & ->).
  { unfold q, rd_kafka_msgq_allow_wakeup_at. destruct (rd_kafka_msgq_first _); cbv beta iota zeta; destruct (_ || _); eexists; reflexivity. }
  split; [| reflexivity]. split; try assumption; try reflexivity. exists []. now rewrite !app_nil_r.
Qed.

Lemma allow_wakeup_inv E p next_wakeup now flushing :
  pinv E [] p ->
  exists p' nw ready, allow_wakeup conf p next_wakeup now flushing = (p', nw, ready) /\ pinv E [] p' /\ moved p p' /\
    (rkmq_msgs (pt_msgq (pl_t p)) = [] -> rkmq_msgs (pt_msgq (pl_t p')) = []).
Proof.
  intros I. destruct (pi_queues _ _ _ _ _ I) as [Q1 Q2]. unfold allow_wakeup.
  destruct (allow_wakeup_step (pl_t p) next_wakeup now (if flushing then 1 else buffering_max_us conf)
    (batch_num_messages pconf) (batch_bytes_threshold conf) Q1 Q2) as [Hq Em].
  destruct (rd_kafka_msgq_allow_wakeup_at _ _ _ _ _ _ _) as [[q nw] ready]. cbn [fst] in Hq, Em.
  do 3 eexists. split; [reflexivity |]. split; [now apply queues_step_inv |]. split; [now apply queues_step_moved |].
  cbn. congruence.
Qed.

Lemma move_msgq_inv E p :
  pinv E [] p ->
  exists t, (if rkmq_msg_cnt (pt_msgq (pl_t p)) >? 0 then
        let* (xmit, msgq) := rd_kafka_msgq_insert_msgq (msg_order_cmp (order rconf)) (pt_xmit_msgq (pl_t p))
                               (pt_msgq (pl_t p)) in
        Some (set_pt_msgq (set_pt_xmit_msgq (pl_t p) xmit) msgq)
      else Some (pl_t p)) = Some t /\ queues_step (pl_t p) t /\ rkmq_msgs (pt_msgq t) = [].
Proof.
  intros I. destruct (pi_queues _ _ _ _ _ I) as [[C1 S1] [C2 S2]]. destruct (queues_small _ _ _ I) as ([Hs _] & _ & _).
  destruct (rkmq_msg_cnt (pt_msgq (pl_t p)) >? 0) eqn:Ec.
  - destruct (insert_msgq_spec (msg_order_cmp (order rconf)) (pt_xmit_msgq (pl_t p)) (pt_msgq (pl_t p)) S2 S1 C2 C1)
      as (d & s & -> & Es & Sd & Pd & Cd & Cs).
    eexists. split; [reflexivity |]. split; [| exact Es].
    split; cbn; try reflexivity; try (split; [assumption |]; try rewrite Es; (assumption || constructor)).
    exists []. rewrite app_nil_r. split; [reflexivity |]. unfold held. cbn. rewrite Es, Pd. cbn. solve_Permutation.
  - eexists. split; [reflexivity |]. split; [now apply (queues_step_refl E []) |].
    destruct C1 as [C1 _]. rewrite C1, swrap_small in Ec by (unfold in_i; lia).
    destruct (rkmq_msgs (pt_msgq (pl_t p))); [reflexivity | exfalso; cbn [length] in *; rewrite Z.gtb_ltb in Ec; apply Z.ltb_ge in Ec; lia].
Qed.

Lemma serve_move_inv E p now next_wakeup max_requests may_send flushing :
  pinv E [] p -> 0 <= max_requests ->
  exists r, serve_move conf p now next_wakeup max_requests may_send flushing = Some r /\ part_ok E p max_requests r /\
    match r with
    | ServeReturn _ _ _ => False
    | ServeGo p' max_requests' _ _ => 0 < max_requests' -> may_send = true /\ rkmq_msgs (pt_msgq (pl_t p')) = []
    end.
Proof.
  intros I Hm. unfold serve_move.
  assert (forall b, pinv E [] p /\ moved p p /\ b <= max_requests -> part_ok E p max_requests (ServeGo p b false next_wakeup)) as Hgo
    by (intros b H; exact H).
  destruct may_send; [| eexists; split; [reflexivity |]; split; [split; [exact I | split; [reflexivity | exact Hm]] | lia]].
  cbn [negb]. destruct (negb (rk_fatal_err _ =? 0)); [eexists; split; [reflexivity |]; split; [split; [exact I | split; [reflexivity | exact Hm]] | lia] |].
  destruct (pl_paused p); [eexists; split; [reflexivity |]; split; [split; [exact I | split; [reflexivity | exact Hm]] | lia] |].
  destruct (_ && _); [eexists; split; [reflexivity |]; split; [split; [exact I | split; [reflexivity | exact Hm]] | lia] |].
  destruct (max_requests >? 0) eqn:Em; [| eexists; split; [reflexivity |]; split; [split; [exact I | split; [reflexivity | lia]] | lia]].
  destruct (move_msgq_inv E p I) as (t & -> & Hq & Eq). pose proof (queues_step_inv E [] p t I Hq) as I1.
  destruct (allow_wakeup_inv E (set_pl_t p t) (if bool_decide (rkb_state (pl_bk (set_pl_t p t)) = STATE_UP) then Some next_wakeup else None)
    now flushing I1) as (p' & nw & ready & -> & I' & M' & Ep').
  eexists. split; [reflexivity |]. split.
  - split; [exact I' |]. split; [| lia]. etransitivity; [exact (queues_step_moved p t Hq) | exact M'].
  - intros _. split; [reflexivity |]. apply Ep', Eq.
Qed.

(** ** Purges *)

Context (other_cb : reqbuf -> Z -> option response -> bool).

Abbreviation cb := (resp_cb other_cb).
Abbreviation broker_inv := (BufqFacts.inv (sc_bk conf)).

Lemma cb_retry rb err resp : cb rb err resp = true -> may_retry (rb_id rb).
Proof. unfold resp_cb, may_retry. destruct (own (rb_id rb)); [discriminate | reflexivity]. Qed.

(** The bound of an invariant may be the number of requests that there are. *)
Lemma inv_tight M E b : broker_inv M may_retry false E [] b -> broker_inv (zlen (queued b)) may_retry false E [] b.
Proof.
  intros [A D C B S O W R I F X Wi Rs]. constructor; try assumption. rewrite (queued_len b). cbn [length]. lia.
Qed.

Lemma inv_queued M E b : broker_inv M may_retry false E [] b -> zlen (queued b) <= M.
Proof. intros [_ _ _ B _ _ _ _ _ _ _ _ _]. rewrite (queued_len b). cbn [length] in B. lia. Qed.

Record purged (p p' : pipeline) : Prop := {
  pu_served : served p p';
  pu_eos : eos_kept (pl_t p) (pl_t p');
  pu_queued : zlen (queued (pl_bk p')) <= zlen (queued (pl_bk p));
  pu_reqs : (size (pl_reqs p') <= size (pl_reqs p))%nat;
  pu_none : pl_reqs p = ∅ -> p' = set_pl_bk p (pl_bk p') }.

#[export] Instance purged_preorder : PreOrder purged.
Proof.
  split; [intros p; split; try reflexivity; intros _; now destruct p |].
  intros a b c [A1 A2 A3 A4 A5] [B1 B2 B3 B4 B5]. split; [now transitivity b | now transitivity (pl_t b) | lia | lia |].
  intros H. specialize (A5 H). rewrite B5; [| rewrite A5; exact H]. rewrite A5. reflexivity.
Qed.

Lemma purge_by_toppar_inv E p env err now :
  pinv E [] p -> exists p', purge_by_toppar conf other_cb reply_of p env err now = Some p' /\ pinv E [] p' /\ purged p p'.
Proof.
  intros I. destruct (pi_broker _ _ _ _ _ I) as [(Eb & Ib) _]. pose proof (inv_queued _ _ _ Ib) as Hq.
  destruct (purge_inv (sc_bk conf) N HN cb may_retry cb_retry Eb (pl_bk p) (sc_rktp conf) err now Ib) as (b & cnt & Ep & D).
  destruct (purge_inv (sc_bk conf) (zlen (queued (pl_bk p))) ltac:(lia) cb may_retry cb_retry Eb (pl_bk p) (sc_rktp conf) err now
    (inv_tight _ _ _ Ib)) as (b2 & cnt2 & Ep2 & [I2 _ _]). rewrite Ep in Ep2. injection Ep2 as <- _.
  unfold purge_by_toppar. rewrite Ep.
  destruct (broker_op_inv conf N reply_of Hreply E p env [] Eb b I Ib D eq_refl) as (p' & -> & I' & [R1 R2 R3 R4 R5 R6]).
  exists p'. split; [reflexivity |]. split; [exact I' |]. split.
  - split; assumption.
  - exact R4.
  - rewrite R1. exact (inv_queued _ _ _ I2).
  - exact R6.
  - intros H. rewrite R1. now rewrite (R5 H).
Qed.

(** ** The drain of a partition *)

Lemma requests_le_inflight E evs p : pinv E evs p -> Z.of_nat (size (pl_reqs p)) <= pt_msgs_inflight (pl_t p).
Proof.
  intros I. rewrite (pi_inflight _ _ _ _ _ I). pose proof (pi_batches _ _ _ _ _ I) as B. revert B.
  generalize (pt_eos (pl_t p)) as e. induction (pl_reqs p) as [| i r m Hi IH] using map_ind; intros e B; [rewrite map_size_empty, in_requests_empty; cbn; lia |].
  apply map_Forall_insert in B as [[_ (x & l & y & Hb & _) _] B]; [| exact Hi].
  rewrite map_size_insert_None, (in_requests_insert _ _ _ Hi), length_app, Hb by exact Hi. specialize (IH _ B). cbn [length]. lia.
Qed.

Lemma none_inflight E evs p : pinv E evs p -> pt_msgs_inflight (pl_t p) <= 0 -> pl_reqs p = ∅.
Proof. intros I H. pose proof (requests_le_inflight _ _ _ I). apply map_size_empty_inv. lia. Qed.

(** Without requests the sequence state may become any. *)
Lemma set_eos_inv E p e : pinv E [] p -> pl_reqs p = ∅ -> pinv E [] (set_pl_t p (set_pt_eos (pl_t p) e)).
Proof.
  intros I H. destruct I as [A S G D M Q B F T X O W K Br]. constructor; try assumption.
  - cbn. rewrite H. apply map_Forall_empty.
  - intros Ho. destruct (O Ho) as [O1 O2]. split; [exact O1 |]. cbn. intros _. rewrite H, in_requests_empty. constructor.
Qed.

Record drained (p p' : pipeline) : Prop := {
  dn_served : served p p';
  dn_eos : te_pid (pt_eos (pl_t p')) = te_pid (pt_eos (pl_t p)) /\ wait_drain (pt_eos (pl_t p')) = false;
  dn_queued : zlen (queued (pl_bk p')) <= zlen (queued (pl_bk p)) }.

Definition drain_ok E (p : pipeline) (pid : rd_kafka_pid) (max_requests : Z) (r : serve_part) : Prop :=
  match r with
  | ServeReturn p' _ _ => pinv E [] p' /\ served p p'
  | ServeGo p' max' _ _ => pinv E [] p' /\ drained p p' /\ max' <= max_requests /\
      Z.of_nat (size (pl_reqs p')) + max' <= RD_KAFKA_IDEMP_MAX_INFLIGHT /\
      (rd_kafka_pid_eq pid (te_pid (pt_eos (pl_t p))) = true \/ pt_msgs_inflight (pl_t p) = 0 ->
       pt_msgq (pl_t p') = pt_msgq (pl_t p))
  end.

(** The end of [serve_drain]: nothing is to be drained. *)
Lemma drain_go E p0 p pid e next_wakeup max_requests ready :
  pinv E [] p -> purged p0 p -> pinv E [] (set_pl_t p (set_pt_eos (pl_t p) e)) ->
  te_pid e = te_pid (pt_eos (pl_t p)) -> wait_drain e = false ->
  (rd_kafka_pid_eq pid (te_pid (pt_eos (pl_t p0))) = true \/ pt_msgs_inflight (pl_t p0) = 0 -> pt_msgq (pl_t p) = pt_msgq (pl_t p0)) ->
  drain_ok E p0 pid max_requests (ServeGo (set_pl_t p (set_pt_eos (pl_t p) e))
    (RD_MIN max_requests (i32 (RD_KAFKA_IDEMP_MAX_INFLIGHT - pt_msgs_inflight (pl_t p)))) ready next_wakeup).
Proof.
  intros I [P1 [P2 _ _] P3 _ _] I' He Hw Hm. pose proof (requests_le_inflight _ _ _ I) as Hr.
  pose proof (pi_inflight _ _ _ _ _ I) as Hf. destruct (pi_small _ _ _ _ _ I) as [Hs _].
  unfold live in Hs. rewrite length_app in Hs.
  rewrite swrap_small by (unfold in_i, RD_KAFKA_IDEMP_MAX_INFLIGHT; lia). rewrite RD_MIN_min.
  split; [exact I' |]. split; [| split; [lia |]; split; [cbn; lia | exact Hm]].
  destruct P1 as [P1 P1']. split; [split; [exact P1 | exact P1'] | cbn; split; congruence | exact P3].
Qed.

Lemma serve_drain_inv E p env pid now next_wakeup max_requests batch_ready :
  pinv E [] p ->
  exists r, serve_drain conf other_cb reply_of p env pid now next_wakeup max_requests batch_ready = Some r /\
    drain_ok E p pid max_requests r.
Proof.
  intros I. unfold serve_drain. set (change := negb (rd_kafka_pid_eq pid (te_pid (pt_eos (pl_t p))))).
  assert (exists p1, (if change then purge_by_toppar conf other_cb reply_of p env ERR__RETRY now else Some p) = Some p1 /\
    pinv E [] p1 /\ purged p p1 /\ (change = false -> p1 = p)) as (p1 & -> & I1 & P1 & E1).
  { destruct change; [| exists p; split; [reflexivity |]; split; [exact I | split; [reflexivity | auto]]].
    destruct (purge_by_toppar_inv E p env ERR__RETRY now I) as (p1 & -> & I1 & P1). exists p1. split; [reflexivity |].
    split; [exact I1 |]. split; [exact P1 | discriminate]. }
  assert (rd_kafka_pid_eq pid (te_pid (pt_eos (pl_t p))) = true \/ pt_msgs_inflight (pl_t p) = 0 ->
    pt_msgq (pl_t p1) = pt_msgq (pl_t p)) as Hm.
  { intros [He | He].
    - unfold change in E1. rewrite He in E1. now rewrite (E1 eq_refl).
    - rewrite (pu_none _ _ P1); [reflexivity |]. apply (none_inflight E [] p I). lia. }
  destruct (wait_drain (pt_eos (pl_t p1))) eqn:Ew.
  - destruct (negb (pt_msgs_inflight (pl_t p1) =? 0)) eqn:Ei.
    + assert (exists p2, (if negb change then purge_by_toppar conf other_cb reply_of p1 env ERR__RETRY now else Some p1) = Some p2 /\
        pinv E [] p2 /\ purged p1 p2) as (p2 & -> & I2 & P2).
      { destruct (negb change); [apply purge_by_toppar_inv, I1 | exists p1; split; [reflexivity |]; split; [exact I1 | reflexivity]]. }
      eexists. split; [reflexivity |]. split; [exact I2 |]. transitivity p1; [apply P1 | apply P2].
    + eexists. split; [reflexivity |]. apply drain_go; try assumption; try reflexivity.
      apply set_eos_inv; [exact I1 |]. apply (none_inflight E [] p1 I1). zbool. lia.
  - assert (set_pl_t p1 (set_pt_eos (pl_t p1) (pt_eos (pl_t p1))) = p1) as Ep by (destruct p1 as [[] ? ? ? ? ? ?]; reflexivity).
    eexists. split; [reflexivity |]. rewrite <- Ep at 1. apply drain_go; try assumption; try reflexivity. now rewrite Ep.
Qed.

End Steps.
