(* ===== verification/ServeProduce.v ===== *)
(** * The requests of a partition

    [rd_kafka_ProduceRequest] and the loop that calls it: a batch leaves the queue, its
    request joins those of the broker, and the invariant of the pipeline is kept. *)

From stdpp Require Import gmap strings.
From S2P Require Import Prelude Header Msgq MsgqFacts Producer EosState Eos EosTotal RdBuf Slice KafkaBuf MsgWriter.
From S2P Require Import MsgWriterFacts MsgWriterProps Produce ProduceFacts ProduceProps Retry.
From S2P Require Import Bufq BufqFacts BufqProps Serve ServeFacts ServeSteps.

(** In a FIFO queue the key is the id. *)
Lemma key_fifo (c : resp_conf) m : order c = RD_KAFKA_QUEUE_FIFO -> mo_key (cmp := cmp c) m = rkm_msgid m.
Proof. intros H. destruct c. cbn in *. subst. reflexivity. Qed.

Lemma sorted_strategy (c : resp_conf) (pc : produce_conf) l :
  strategy pc = order c -> sorted (msg_order_cmp (strategy pc)) l <-> sorted (cmp c) l.
Proof. destruct c, pc. cbn. intros ->. now destruct order. Qed.

Section Requests.
Context (conf : serve_conf) (N : Z) (HN : N < 2 ^ 28).
Context (junk : Z -> Z) (codec : Z -> Z -> bytes -> option bytes) (addr : nat -> Z).
Context (Hcodec : forall c v d z, codec c v d = Some z -> Forall is_byte z).
Context (reply_of : response -> rd_buf * rd_slice).
Context (Hreply : forall r, any_reply (Some (reply_of r))).
Context (other_cb : reqbuf -> Z -> option response -> bool).

(** A configuration within its limits, of a broker with a connection. *)
Record serve_conf_ok : Prop := {
  so_prod : conf_ok (sc_prod conf) (sc_toppar conf);
  so_codec : 0 <= compression_codec (sc_prod conf) <= 3;
  so_order : strategy (sc_prod conf) = order (sc_resp conf);
  so_broker : bc_internal (sc_bk conf) = false;
  so_thres : 0 <= queue_backpressure_thres conf < 2 ^ 31;
  so_partition : ptp_partition (sc_toppar conf) <> RD_KAFKA_PARTITION_UA }.

Context (Hconf : serve_conf_ok).

Abbreviation rconf := (sc_resp conf).
Abbreviation pconf := (sc_prod conf).
Abbreviation pinv := (pinv conf N).
Abbreviation cb := (resp_cb other_cb).

(** ** Order *)

Lemma sorted_before a b :
  order rconf = RD_KAFKA_QUEUE_FIFO -> sorted (cmp rconf) (a ++ b) -> NoDup (map rkm_msgid (a ++ b)) -> all_before a b.
Proof.
  intros Ho Hs Hd. apply sorted_app in Hs as (_ & _ & Hs).
  unfold all_before. rewrite map_app in Hd. apply list.NoDup_app in Hd as (_ & Hd & _).
  apply list.Forall_forall. intros m Hm. pose proof (proj1 (list.Forall_forall _ _) Hs m Hm) as Hb. cbv beta in Hb.
  apply list.Forall_forall. intros y Hy. pose proof (proj1 (list.Forall_forall _ _) Hb y Hy) as Hy'. cbv beta in Hy'. rewrite !key_fifo in Hy' by exact Ho.
  assert (rkm_msgid m <> rkm_msgid y); [| lia]. intros E. apply (Hd (rkm_msgid m)).
  - apply list_elem_of_fmap. eauto.
  - rewrite E. apply list_elem_of_fmap. eauto.
Qed.

Lemma all_before_app_l a b c : all_before (a ++ b) c <-> all_before a c /\ all_before b c.
Proof. apply list.Forall_app. Qed.

#[local] Instance all_before_proper : Proper ((≡ₚ) ==> (≡ₚ) ==> iff) all_before.
Proof.
  intros a a' P b b' P'. unfold all_before. rewrite P.
  split; intros H; (eapply list.Forall_impl; [exact H |]); intros m Hm; cbv beta in *; [now rewrite <- P' | now rewrite P'].
Qed.

Lemma all_before_sub_r a b c d : c ≡ₚ b ++ d -> all_before a c -> all_before a b.
Proof.
  intros P H. unfold all_before in *. eapply list.Forall_impl; [exact H |]. intros m Hm. cbv beta in Hm.
  rewrite P in Hm. now apply list.Forall_app in Hm as [Hm _].
Qed.

(** ** A new request *)

Lemma new_address_spec b :
  own (new_address b) = true /\ forall id, id ∈ ids (queued b) -> (id < new_address b)%nat.
Proof.
  unfold new_address, own. set (m := list_max _). split.
  - rewrite Nat.add_1_r, Nat.odd_succ, Nat.even_mul. reflexivity.
  - intros id H. assert (id <= m)%nat; [| lia]. unfold ids, queued in H. fold (queued b) in *.
    pose proof (proj1 (list_max_le (map rb_id (queued b)) m) (Nat.le_refl _)) as Hm.
    rewrite List.Forall_forall in Hm. apply Hm. now apply list_elem_of_In.
Qed.

Lemma request_address E p id req : pinv E [] p -> pl_reqs p !! id = Some req -> id ∈ ids (queued (pl_bk p)).
Proof.
  intros I H. pose proof (pi_keys _ _ _ _ _ I) as K. change (called []) with (@nil nat) in K. rewrite app_nil_r in K.
  assert (id ∈ map fst (map_to_list (pl_reqs p))) as Hin.
  { apply list_elem_of_fmap. exists (id, req). split; [reflexivity |]. now apply elem_of_map_to_list. }
  rewrite K in Hin. unfold owned in Hin. now apply list_elem_of_filter in Hin as [_ Hin].
Qed.

Record readied (t t' : prod) (n : Z) : Prop := {
  ry_inflight : pt_msgs_inflight t' = pt_msgs_inflight t + n;
  ry_toppars : idempotent rconf = true -> other_toppars t' = other_toppars t;
  ry_eos : pt_eos t' = pt_eos t;
  ry_queues : pt_msgq t' = pt_msgq t /\ pt_xmit_msgq t' = pt_xmit_msgq t;
  ry_out : pt_out t' = pt_out t;
  ry_txn : rk_transactional (pt_rk t') = rk_transactional (pt_rk t);
  ry_fail : may_fail (pt_rk t) -> may_fail (pt_rk t') }.

Lemma ready_produce_spec t n :
  0 <= pt_msgs_inflight t -> 0 < n -> pt_msgs_inflight t + n < 2 ^ 31 ->
  (idempotent rconf = true -> 0 <= other_toppars t < 2 ^ 31 - 1) ->
  readied t (rd_kafka_msgbatch_ready_produce conf t n) n.
Proof.
  intros Hk Hn Hs T. unfold rd_kafka_msgbatch_ready_produce. set (k := pt_msgs_inflight t) in *.
  rewrite swrap_small by (unfold in_i; lia).
  destruct (idempotent rconf) eqn:Ei; [specialize (T eq_refl) |]; rewrite ?andb_true_r, ?andb_false_r.
  - unfold other_toppars in T. fold k in T. destruct (Z.eqb_spec (k + n) n) as [E0 | E0].
    + split; try reflexivity; [| now split | auto]. intros _. unfold other_toppars. cbn. fold k.
      replace (k =? 0) with true in * by lia. replace (k + n =? 0) with false by lia.
      rewrite swrap_small by (unfold in_i; lia). lia.
    + split; try reflexivity; [| now split | auto]. intros _. unfold other_toppars. cbn. fold k.
      replace (k =? 0) with false by lia. now replace (k + n =? 0) with false by lia.
  - split; try reflexivity; [congruence | now split | auto].
Qed.

(** Before a request is made: the connection is up, there is room for [n] requests, and an
    idempotent producer's partition has the producer id and nothing to drain. *)
Record sending (p : pipeline) (pid : rd_kafka_pid) (base : Z) (n : nat) : Prop := {
  sn_up : rkb_state (pl_bk p) = STATE_UP;
  sn_room : zlen (queued (pl_bk p)) + Z.of_nat n <= N;
  sn_window : idempotent rconf = true -> Z.of_nat (size (pl_reqs p)) + Z.of_nat n <= RD_KAFKA_IDEMP_MAX_INFLIGHT;
  sn_pid : idempotent rconf = true -> rd_kafka_pid_valid pid = true /\ te_pid (pt_eos (pl_t p)) = pid /\
    epoch_base_msgid (pt_eos (pl_t p)) = base;
  sn_order : in_order conf -> wait_drain (pt_eos (pl_t p)) = false /\ rkmq_msgs (pt_msgq (pl_t p)) = [] }.

(** A broker that is up takes the request without a callback. *)
Lemma enq_up b rq now :
  rkb_state b = STATE_UP ->
  exists b', rd_kafka_broker_buf_enq_replyq (sc_bk conf) cb b (new_buf rq false) now = Some b' /\
    rkb_log b' = rkb_log b /\ rkb_state b' = STATE_UP /\ queued b' ≡ₚ queued b'.
Proof.
  intros Hup. unfold rd_kafka_broker_buf_enq_replyq, rd_kafka_broker_buf_enq2. rewrite (so_broker Hconf).
  eexists. split; [reflexivity |]. unfold rd_kafka_broker_buf_enq0. rewrite bool_decide_false by congruence.
  rewrite andb_false_r. cbn. auto.
Qed.

(** What a new request leaves of the broker. *)
Lemma enq_new E p rq now :
  pinv E [] p -> rkb_state (pl_bk p) = STATE_UP -> rq_id rq = new_address (pl_bk p) -> 0 < rq_size rq ->
  zlen (queued (pl_bk p)) < N ->
  exists b, rd_kafka_broker_buf_enq_replyq (sc_bk conf) cb (pl_bk p) (new_buf rq false) now = Some b /\
    rkb_log b = rkb_log (pl_bk p) /\ rkb_state b = STATE_UP /\ zlen (queued b) <= zlen (queued (pl_bk p)) + 1 /\
    rq_id rq :: owned (ids (queued (pl_bk p))) ≡ₚ owned (ids (queued b)) /\
    (exists Eb, BufqFacts.inv (sc_bk conf) N may_retry false Eb [] b) /\ 0 <= rkb_connid b.
Proof.
  intros I Hup Hid Hs Hl. destruct (pi_broker _ _ _ _ _ I) as [(Eb & Ib) Hc].
  destruct (new_address_spec (pl_bk p)) as [Ho Hn].
  assert (~ (rq_id rq ∈ ids (queued (pl_bk p)))) as Hfresh by (rewrite Hid; intros H; specialize (Hn _ H); lia).
  destruct (enq_up (pl_bk p) rq now Hup) as (b & Eq & EL & Eu & _).
  destruct (enq_inv (sc_bk conf) N HN cb may_retry (cb_retry other_cb) Eb (pl_bk p) rq false now Ib) as (b1 & E1 & D);
    [split; [exact Hfresh | split; [exact Hs | exact Hl]] |].
  rewrite Eq in E1. injection E1 as <-.
  destruct (enq_inv (sc_bk conf) (zlen (queued (pl_bk p)) + 1) ltac:(lia) cb may_retry (cb_retry other_cb) Eb (pl_bk p) rq false now)
    as (b1 & E1 & [I1 _ _]).
  { pose proof (inv_tight conf N Eb (pl_bk p) Ib) as It. destruct It as [A D' C B S O W R I0 F X Wi Rs].
    constructor; try assumption. lia. }
  { split; [exact Hfresh | split; [exact Hs | lia]]. }
  rewrite Eq in E1. injection E1 as <-.
  destruct (own_step conf N Eb [rq_id rq] (pl_bk p) b Ib D) as (evs & EL2 & P).
  rewrite EL in EL2. assert (evs = []) as -> by (apply (app_inv_head (rkb_log (pl_bk p))); rewrite app_nil_r; congruence).
  exists b. split; [exact Eq |]. split; [exact EL |]. split; [exact Eu |].
  split; [exact (inv_queued conf _ _ _ I1) |]. split; [| split; [exists (rq_id rq :: Eb); apply D | apply D, Hc]].
  change (owned (called [])) with (@nil nat) in P. rewrite app_nil_r in P. rewrite <- P.
  unfold owned at 2. rewrite filter_cons_True by (rewrite Hid; exact Ho). reflexivity.
Qed.

(** The batch of a new request. *)
Lemma new_batch_ok p pid base n v req taken m0 ts rest :
  sending p pid base n -> queue_ok rconf (pt_xmit_msgq (pl_t p)) ->
  rkmq_msgs (pt_xmit_msgq (pl_t p)) = taken ++ rest -> head taken = Some m0 -> last_ok taken ->
  request_for codec pconf (sc_toppar conf) v (first_batch pid base m0) pid ts taken req ->
  batch_ok conf (pt_eos (pl_t p)) req.
Proof.
  intros Sn [_ Hs] Ex Hh Hl Rf. rewrite Ex in Hs. apply sorted_app in Hs as (Hs & _ & _).
  pose proof (rf_msgs _ _ _ _ _ _ _ _ _ Rf) as Em. constructor.
  - split; [exact (rf_counted _ _ _ _ _ _ _ _ _ Rf) | now rewrite Em].
  - unfold batch_msgs. now rewrite Em.
  - intros Hi. destruct (sn_pid _ _ _ _ Sn Hi) as (Hv & Hp & Hb). unfold sequence_ok, batch_msgs. rewrite Em.
    rewrite (rf_batch _ _ _ _ _ _ _ _ _ Rf). unfold first_batch. rewrite Hv. cbn. split; [now symmetry |].
    destruct taken as [| m l]; [exact Logic.I |]. injection Hh as ->. now rewrite Hb.
Qed.

(** The order after a batch left the queue. *)
Lemma new_request_ordered E p p' pid base n taken rest req :
  pinv E [] p -> sending p pid base n ->
  rkmq_msgs (pt_xmit_msgq (pl_t p)) = taken ++ rest -> batch_msgs req = taken ->
  pl_reqs p' = <[new_address (pl_bk p) := req]> (pl_reqs p) -> held (pl_t p') = rest ->
  in_order conf -> ordered p'.
Proof.
  intros I Sn Ex Eb Er Eh Ho. destruct (pi_ordered _ _ _ _ _ I Ho) as [O1 O2]. destruct (sn_order _ _ _ _ Sn Ho) as [Hw Hm].
  specialize (O2 Hw). unfold held in O2. rewrite Hm, Ex in O2. cbn [app] in O2.
  destruct (new_address_spec (pl_bk p)) as [_ Hnew].
  assert (forall id r, pl_reqs p !! id = Some r -> (id < new_address (pl_bk p))%nat) as Hlt
    by (intros id r H; apply Hnew; eapply request_address; eassumption).
  assert (pl_reqs p !! new_address (pl_bk p) = None) as Hno
    by (destruct (pl_reqs p !! new_address (pl_bk p)) eqn:H; [apply Hlt in H; lia | reflexivity]).
  assert (all_before taken rest) as Hb.
  { apply sorted_before; [apply Ho | rewrite <- Ex; apply (pi_queues _ _ _ _ _ I) |].
    pose proof (pi_ids _ _ _ _ _ I) as D. unfold live, held in D. rewrite Hm, Ex in D. cbn [app] in D.
    rewrite map_app in D. now apply list.NoDup_app in D as [D _]. }
  split.
  - intros i j a c Ha Hc Hij. rewrite Er in Ha, Hc. apply lookup_insert_Some in Ha as [[<- <-] | [_ Ha]],
      Hc as [[<- <-] | [_ Hc]]; [lia | apply Hlt in Hc; lia | | eauto].
    rewrite Eb. apply (all_before_sub_r _ taken (taken ++ rest) rest); [reflexivity |].
    rewrite (in_requests_delete _ _ _ Ha), all_before_app_l in O2. apply O2.
  - intros _. rewrite Er, Eh. rewrite (in_requests_insert _ _ req Hno), Eb. apply all_before_app_l. split; [exact Hb |].
    apply (all_before_sub_r _ rest (taken ++ rest) taken); [apply Permutation_app_comm | exact O2].
Qed.

(** A batch leaves the queue of the broker thread for a request. *)
Lemma new_request_inv E p pid base n req taken m0 rest q b v ts :
  pinv E [] p -> sending p pid base (S n) ->
  rkmq_msgs (pt_xmit_msgq (pl_t p)) = taken ++ rest -> head taken = Some m0 -> last_ok taken ->
  rkmq_msgs q = rest -> counted q ->
  request_for codec pconf (sc_toppar conf) v (first_batch pid base m0) pid ts taken req ->
  let id := new_address (pl_bk p) in
  let t := rd_kafka_msgbatch_ready_produce conf (set_pt_xmit_msgq (pl_t p) q) (zlen taken) in
  rkb_log b = rkb_log (pl_bk p) -> rkb_state b = STATE_UP -> zlen (queued b) <= zlen (queued (pl_bk p)) + 1 ->
  id :: owned (ids (queued (pl_bk p))) ≡ₚ owned (ids (queued b)) ->
  (exists Eb, BufqFacts.inv (sc_bk conf) N may_retry false Eb [] b) /\ 0 <= rkb_connid b ->
  let p' := set_pl_bk (set_pl_reqs (set_pl_t p t) (<[id := req]> (pl_reqs p))) b in
  pinv E [] p' /\ sending p' pid base n /\ served p p'.
Proof.
  intros I Sn Ex Hh Hl Eq Cq Rf id t EL Eu Hn Pk Hb p'. pose proof I as [A [S1 _] G D M [Q1 Q2] B F T X O W K _].
  pose proof (rf_msgs _ _ _ _ _ _ _ _ _ Rf : batch_msgs req = taken) as Em.
  assert (0 < zlen taken) as Hpos by (destruct taken; [discriminate | cbn [length]; lia]).
  unfold live, held in S1. rewrite Ex, !length_app in S1.
  destruct (ready_produce_spec (set_pt_xmit_msgq (pl_t p) q) (zlen taken)) as [R1 R2 R3 [R4 R5] R6 R7 R8];
    [cbn; lia | exact Hpos | cbn; lia | exact T |]. fold t in R1, R2, R3, R4, R5, R6, R7, R8. cbn [set_pt_xmit_msgq pt_msgs_inflight
    pt_eos pt_msgq pt_xmit_msgq pt_out pt_rk] in R1, R3, R4, R5, R6, R7, R8.
  assert (pl_reqs p !! id = None) as Hno.
  { destruct (pl_reqs p !! id) eqn:H; [| reflexivity]. apply (request_address E p id _ I), new_address_spec in H. unfold id in H. lia. }
  assert (live p' ≡ₚ live p) as Pl.
  { unfold live, held, p'. cbn [set_pl_bk set_pl_reqs set_pl_t pl_t pl_reqs]. rewrite R4, R5, Eq, Ex, (in_requests_insert _ _ _ Hno), Em. solve_Permutation. }
  split; [apply (pinv_step conf N E [] p [] p' [] I); try reflexivity; try exact Hb; unfold p'; cbn [set_pl_bk set_pl_reqs set_pl_t pl_t pl_reqs pl_bk] |].
  - now rewrite R6, app_nil_r.
  - fold p'. change (reported []) with (@nil rd_kafka_msg). now rewrite app_nil_r, Pl.
  - fold p'. now rewrite Pl.
  - rewrite R4, R5. split; [exact Q1 |]. split; [exact Cq |]. rewrite Eq. destruct Q2 as [_ Q2]. rewrite Ex in Q2.
    now apply sorted_app in Q2 as (_ & Q2 & _).
  - rewrite R3. apply map_Forall_insert_2; [| exact B]. eapply new_batch_ok; eassumption.
  - rewrite R1, F, (in_requests_insert _ _ _ Hno), Em, length_app. lia.
  - intros Hi. rewrite (R2 Hi). exact (T Hi).
  - now split.
  - intros Ho. eapply (new_request_ordered E p _ pid base (S n) taken rest req I Sn Ex Em); [reflexivity | | exact Ho].
    unfold held. cbn. rewrite R4, R5, Eq. destruct (sn_order _ _ _ _ Sn Ho) as [_ ->]. reflexivity.
  - intros Hi. rewrite map_size_insert_None by exact Hno. pose proof (sn_window _ _ _ _ Sn Hi). lia.
  - rewrite (map_to_list_insert _ _ _ Hno). cbn [map fst]. rewrite K, !owned_app, app_comm_cons, Pk. reflexivity.
  - split; [| now split]. destruct Sn as [N1 N2 N3 N4 N5]. constructor; unfold p'; cbn [set_pl_bk set_pl_reqs set_pl_t pl_t pl_reqs pl_bk].
    + exact Eu.
    + lia.
    + intros Hi. rewrite map_size_insert_None by exact Hno. specialize (N3 Hi). lia.
    + now rewrite R3.
    + now rewrite R3, R4.
Qed.

(** Messages that change but for their id, or move, within the queue of the broker thread. *)
Lemma xmit_changed_inv E p q rk :
  pinv E [] p -> map core (rkmq_msgs q) ≡ₚ map core (rkmq_msgs (pt_xmit_msgq (pl_t p))) ->
  Forall (good conf (pl_msgid p)) (rkmq_msgs q) -> queue_ok rconf q -> rk_kept (pt_rk (pl_t p)) rk ->
  pinv E [] (set_pl_t p (set_pt_rk (set_pt_xmit_msgq (pl_t p) q) rk)).
Proof.
  intros I P Hg Hq [K1 K2 _ K4]. pose proof I as [A S G D M [Q1 Q2] B F T X O W K Br].
  apply (pinv_step conf N E [] p [] _ [] I); try reflexivity; try assumption;
    cbn [set_pl_t set_pt_rk set_pt_xmit_msgq pl_t pl_reqs pl_bk pt_out pt_msgq pt_xmit_msgq pt_eos pt_msgs_inflight pt_rk].
  - now rewrite app_nil_r.
  - unfold live, held. change (reported []) with (@nil rd_kafka_msg). cbn. rewrite !map_app. rewrite P. cbn. rewrite app_nil_r. reflexivity.
  - unfold live, held in *. cbn. rewrite !list.Forall_app in *. intuition.
  - now split.
  - unfold other_toppars in *. cbn. now rewrite K2.
  - now split.
  - intros Ho. destruct (O Ho) as [O1 O2]. split; [exact O1 |]. cbn. intros Hw. specialize (O2 Hw).
    unfold all_before in *. eapply list.Forall_impl; [exact O2 |]. intros m Hm. cbv beta in *. unfold held in *. cbn.
    apply list.Forall_app in Hm as [H1 H2]. apply list.Forall_app. split; [exact H1 |].
    apply (Forall_map rkm_msgid (fun k => rkm_msgid m < k)) in H2. apply (Forall_map rkm_msgid (fun k => rkm_msgid m < k)).
    apply core_perm in P as (_ & _ & P). now rewrite P.
Qed.

Lemma good_backoff msgid m ts : good conf msgid m -> good conf msgid (msg_set_backoff m ts).
Proof.
  intros [[[] Gs] G2 G3 G4]. constructor; [| exact G2 | exact G3 | exact G4]. split; [constructor; assumption | exact Gs].
Qed.

Lemma backoff_queue_ok q ts : queue_ok rconf q -> queue_ok rconf (msgq_backoff_first q ts) /\
  map core (rkmq_msgs (msgq_backoff_first q ts)) = map core (rkmq_msgs q).
Proof.
  intros Hq. unfold msgq_backoff_first. destruct (rkmq_msgs q) as [| m l] eqn:Eq; [now rewrite Eq |].
  assert (map core (msg_set_backoff m ts :: l) = map core (m :: l)) as Ec by reflexivity. cbn [rkmq_msgs]. split; [| exact Ec].
  destruct Hq as [[C1 C2] Hs]. rewrite Eq in *. split; [split; assumption |].
  cbn [rkmq_msgs]. eapply sorted_core; [| exact Hs]. now symmetry.
Qed.

Lemma backoff_inv E p ts :
  pinv E [] p -> pinv E [] (set_pl_t p (set_pt_xmit_msgq (pl_t p) (msgq_backoff_first (pt_xmit_msgq (pl_t p)) ts))).
Proof.
  intros I. destruct (backoff_queue_ok _ ts (proj2 (pi_queues _ _ _ _ _ I))) as [Hq Ec].
  assert (Forall (good conf (pl_msgid p)) (rkmq_msgs (msgq_backoff_first (pt_xmit_msgq (pl_t p)) ts))) as Hg.
  { pose proof (pi_good _ _ _ _ _ I) as G. unfold live, held in G. rewrite !list.Forall_app in G. destruct G as [[_ G] _].
    unfold msgq_backoff_first. destruct (rkmq_msgs (pt_xmit_msgq (pl_t p))) as [| m l] eqn:Ex; [rewrite Ex; constructor |].
    inversion G as [| ? ? G1 G']; subst. constructor; [now apply good_backoff | exact G']. }
  exact (xmit_changed_inv E p _ (pt_rk (pl_t p)) I ltac:(now rewrite Ec) Hg Hq ltac:(reflexivity)).
Qed.

Lemma xmit_queue_ok E p :
  pinv E [] p -> xmit_ok pconf (pt_xmit_msgq (pl_t p)) /\
  sorted (msg_order_cmp (strategy pconf)) (rkmq_msgs (pt_xmit_msgq (pl_t p))) /\
  Forall (good conf (pl_msgid p)) (rkmq_msgs (pt_xmit_msgq (pl_t p))).
Proof.
  intros I. destruct (queues_small conf N _ _ _ I) as (_ & Hs & _). destruct (pi_queues _ _ _ _ _ I) as [_ [C S]].
  pose proof (pi_good _ _ _ _ _ I) as G. unfold live, held in G. rewrite !list.Forall_app in G. destruct G as [[_ G] _].
  split; [| split; [apply (proj2 (sorted_strategy rconf pconf _ (so_order Hconf))), S | exact G]].
  constructor; [exact C | exact Hs | |]; (eapply list.Forall_impl; [exact G |]); intros m [? ? _ _]; assumption.
Qed.

(** The batch taken for a request can be that of a first transmission. *)
Lemma taken_last p pid base n taken m0 rest :
  sending p pid base n -> Forall (good conf (pl_msgid p)) (taken ++ rest) -> head taken = Some m0 ->
  inconsistent (first_batch pid base m0) taken = false -> last_ok taken.
Proof.
  intros Sn G Hh Hi. destruct taken as [| m l]; [discriminate |]. injection Hh as ->.
  destruct (list.last (m0 :: l)) as [x |] eqn:El; [| apply list.last_None in El; discriminate].
  exists m0, l, x. split; [reflexivity |]. split; [exact El |].
  unfold inconsistent in Hi. rewrite El in Hi. unfold first_batch in Hi.
  destruct (idempotent rconf) eqn:Ei.
  - destruct (sn_pid _ _ _ _ Sn Ei) as (Hv & _). rewrite Hv in Hi. cbn in Hi.
    apply andb_false_iff in Hi as [Hi | Hi]; apply negb_false_iff, Z.eqb_eq in Hi; [now left | right; now symmetry].
  - inversion G as [| ? ? [_ _ _ G4] _]; subst. auto.
Qed.

Lemma request_len v b pid ts taken req :
  request_for codec pconf (sc_toppar conf) v b pid ts taken req -> 0 < rd_buf_len (rkbuf_buf (preq_rkbuf req)).
Proof.
  intros Rf. rewrite (rf_len _ _ _ _ _ _ _ _ _ Rf). unfold request_bytes. destruct (encoded _ _ _ _) as [at_ data].
  rewrite !length_app, KafkaBufFacts.length_be_enc. lia.
Qed.

Lemma ProduceRequest_inv E p env pid base clk n :
  pinv E [] p -> sending p pid base (S n) ->
  exists p' r, rd_kafka_ProduceRequest conf junk codec addr other_cb reply_of p env pid base clk = Some (p', r) /\
    pinv E [] p' /\ served p p' /\ (0 < r -> sending p' pid base n).
Proof.
  intros I Sn. destruct (xmit_queue_ok E p I) as (Hx & Hs & Hg). unfold rd_kafka_ProduceRequest.
  set (rkb := mk_rkb _ _). destruct (rkmq_msgs (pt_xmit_msgq (pl_t p))) as [| m0 rest0] eqn:Ex.
  { unfold rd_kafka_msgset_create_ProduceRequest, rd_kafka_msgset_writer_init.
    rewrite queue_len, Ex by (try rewrite Ex; try (cbn; lia); apply (xo_counted _ _ Hx)). change (zlen (@nil rd_kafka_msg) =? 0) with true.
    cbn iota beta. exists (set_pl_t p (set_pt_xmit_msgq (pl_t p) (pt_xmit_msgq (pl_t p)))), 0. split; [reflexivity |].
    replace (set_pl_t p _) with p by (destruct p as [[] ? ? ? ? ? ?]; reflexivity). split; [exact I |]. split; [reflexivity | lia]. }
  rewrite <- Ex in Hs, Hg. destruct (rd_kafka_msgset_writer_select_MsgVersion rkb (compression_codec pconf)) as [v |] eqn:Ev.
  2: { unfold rd_kafka_msgset_create_ProduceRequest, rd_kafka_msgset_writer_init. rewrite Ev. destruct Hx as [Hc [Hl _] _ _].
    rewrite queue_len, Ex by assumption. change (zlen (m0 :: rest0) =? 0) with false.
    unfold rd_kafka_msgq_first. rewrite Ex. cbn [hd_error]. do 2 eexists. split; [reflexivity |].
    split; [apply backoff_inv, I |]. split; [now split | lia]. }
  destruct (create_spec junk codec addr Hcodec pconf (sc_toppar conf) (so_prod Hconf) rkb (pt_xmit_msgq (pl_t p)) pid base
    (clk 0%nat) (clk 1%nat) v m0 rest0 (so_codec Hconf) Ev Hx Hs Ex)
    as (q & r & taken & rest & -> & Esp & Cq & Hn & _ & _ & H). cbv zeta.
  destruct (inconsistent (first_batch pid base m0) taken) eqn:Einc.
  { destruct H as (-> & Pq & Sq). apply (sorted_strategy rconf) in Sq; [| exact (so_order Hconf)].
    destruct (fatal_error0_kept (pt_rk (pl_t p)) ERR__INCONSISTENT) as [K _]; [discriminate |].
    do 2 eexists. split; [reflexivity |]. split; [| split; [now split | lia]].
    apply (xmit_changed_inv E p q _ I); [now rewrite Pq | now rewrite Pq | now split | exact K]. }
  destruct H as [Eq H]. destruct r as [req |].
  2: { subst taken. do 2 eexists. split; [reflexivity |]. split; [| split; [now split | lia]]. cbn [app] in Esp.
    apply (xmit_changed_inv E p q (pt_rk (pl_t p)) I); [now rewrite Eq, Esp | now rewrite Eq, <- Esp | | reflexivity].
    split; [exact Cq |]. rewrite Eq, <- Esp. apply (pi_queues _ _ _ _ _ I). }
  destruct H as [Hne Rf]. destruct taken as [| m1 taken']; [congruence |].
  assert (m1 = m0) as -> by (rewrite Ex in Esp; now injection Esp). set (taken := m0 :: taken') in *.
  pose proof (rf_msgs _ _ _ _ _ _ _ _ _ Rf) as Em. pose proof (co_num _ _ (so_prod Hconf)) as Hnum.
  rewrite queue_len, Em by (rewrite ?Em; try lia; exact (rf_counted _ _ _ _ _ _ _ _ _ Rf)).
  unfold rd_kafka_msgq_first. rewrite Em. cbn [hd_error taken].
  set (rq := produce_rq _ _ _ _ _).
  destruct (enq_new E p rq (clk 3%nat) I (sn_up _ _ _ _ Sn) eq_refl (request_len _ _ _ _ _ _ Rf)) as (b & Eb & EL & Eu & Hq & Pk & Hb);
    [pose proof (sn_room _ _ _ _ Sn); lia |]. rewrite Eb.
  unfold with_broker. cbn [set_pl_reqs set_pl_t pl_bk]. rewrite EL, drop_all. cbn [run_callbacks].
  do 2 eexists. split; [reflexivity |]. rewrite Esp in Hg.
  destruct (new_request_inv E p pid base n req taken m0 rest q b v (rkm_timestamp m0) I Sn Esp eq_refl
    (taken_last _ _ _ _ _ _ _ Sn Hg eq_refl Einc) Eq Cq Rf EL Eu Hq Pk Hb) as (I' & S' & V'). auto.
Qed.

Lemma requests_loop_inv n : forall E p env pid base clk cnt,
  pinv E [] p -> sending p pid base n ->
  exists p' cnt', produce_requests_loop conf junk codec addr other_cb reply_of n p env pid base clk cnt = Some (p', cnt') /\
    pinv E [] p' /\ served p p'.
Proof.
  induction n as [| n IH]; intros E p env pid base clk cnt I Sn; cbn [produce_requests_loop].
  { do 2 eexists. split; [reflexivity |]. now split. }
  destruct (ProduceRequest_inv E p env pid base (clk 0%nat) n I Sn) as (p1 & r & -> & I1 & V1 & Sn1).
  rewrite Z.gtb_ltb. destruct (Z.ltb_spec 0 r) as [Hr | Hr]; [| do 2 eexists; split; [reflexivity | now split]].
  destruct (IH E p1 env pid base (fun k => clk (S k)) (i32 (cnt + r)) I1 (Sn1 Hr)) as (p' & cnt' & -> & I' & V').
  do 2 eexists. split; [reflexivity |]. split; [exact I' | now transitivity p1].
Qed.

(** ** The last part of a serve *)

(** A connection is wanted. *)
Lemma persistconn_inv E p k : pinv E [] p -> pinv E [] (set_pl_bk p (set_persistconn (pl_bk p) k)).
Proof.
  intros I. destruct I as [A S G D M Q B F T X O W K [(Eb & Ib) Hc]].
  constructor; try assumption.
  - intros Ho. destruct (O Ho) as [O1 O2]. now split.
  - split; [| exact Hc]. exists Eb. destruct Ib as [? ? ? ? ? ? ? ? ? ? ? Wi ?]. constructor; try assumption.
Qed.

Lemma pid_eq_true a b : rd_kafka_pid_eq a b = true -> a = b.
Proof. destruct a, b. unfold rd_kafka_pid_eq. cbn. intros H. apply andb_true_iff in H as [H1 H2]. f_equal; lia. Qed.

(** The partition gets the producer id; it may have requests in flight, and then it does
    not. *)
Lemma pid_change_inv E p pid m l :
  pinv E [] p -> rkmq_msgs (pt_xmit_msgq (pl_t p)) = m :: l ->
  exists t ok, rd_kafka_toppar_pid_change (pl_t p) pid (rkm_msgid m) = Some (t, ok) /\
    pinv E [] (set_pl_t p t) /\ pt_msgq t = pt_msgq (pl_t p) /\
    wait_drain (pt_eos t) = wait_drain (pt_eos (pl_t p)) /\ (ok = true -> te_pid (pt_eos t) = pid).
Proof.
  intros I Ex. unfold rd_kafka_toppar_pid_change. rewrite Z.gtb_ltb. destruct (Z.ltb_spec 0 (pt_msgs_inflight (pl_t p))) as [H | H].
  { exists (pl_t p), false. replace (set_pl_t p (pl_t p)) with p by now destruct p.
    repeat (split; [first [reflexivity | exact I] |]). discriminate. }
  destruct (xmit_queue_ok E p I) as (_ & _ & Hg). rewrite Ex in Hg. inversion Hg as [| ? ? [_ _ Hid _] _]; subst.
  unfold rd_assert. replace (negb (rkm_msgid m =? 0)) with true by lia.
  do 2 eexists. split; [reflexivity |]. split; [| now split].
  apply set_eos_inv; [exact I |]. now apply (none_inflight conf N E [] p).
Qed.

(** What a serve has found before it makes requests. *)
Record may_request (p : pipeline) (pid : rd_kafka_pid) (max_requests : Z) : Prop := {
  mr_room : zlen (queued (pl_bk p)) + max_requests <= N;
  mr_idempotent : idempotent rconf = true -> rd_kafka_pid_valid pid = true /\ wait_drain (pt_eos (pl_t p)) = false /\
    Z.of_nat (size (pl_reqs p)) + max_requests <= RD_KAFKA_IDEMP_MAX_INFLIGHT;
  mr_moved : rkmq_msgs (pt_msgq (pl_t p)) = [] }.

Lemma serve_requests_inv E p env pid clk now next_wakeup max_requests batch_ready flushing :
  pinv E [] p -> (0 < max_requests -> may_request p pid max_requests) ->
  exists p' cnt nw, serve_requests conf junk codec addr other_cb reply_of p env pid clk now next_wakeup max_requests
      batch_ready flushing = Some (p', cnt, nw) /\ pinv E [] p' /\ served p p'.
Proof.
  intros I Hm. unfold serve_requests.
  destruct (Z.leb_spec max_requests 0) as [H0 | H0]; [do 3 eexists; split; [reflexivity | now split] |].
  destruct (Hm H0) as [M1 M2 M3].
  destruct (rkmq_msg_cnt (pt_xmit_msgq (pl_t p)) =? 0) eqn:Ec; [do 3 eexists; split; [reflexivity | now split] |].
  destruct (rkmq_msgs (pt_xmit_msgq (pl_t p))) as [| m l] eqn:Ex.
  { destruct (pi_queues _ _ _ _ _ I) as [_ [[C _] _]]. rewrite C, Ex in Ec. discriminate Ec. }
  unfold rd_kafka_msgq_first. rewrite Ex. cbn [hd_error].
  set (r := if idempotent rconf && _ then _ else _).
  assert (exists p1 ok, r = Some (p1, ok) /\ pinv E [] p1 /\ served p p1 /\ pl_bk p1 = pl_bk p /\ pl_reqs p1 = pl_reqs p /\
    pt_msgq (pl_t p1) = pt_msgq (pl_t p) /\ wait_drain (pt_eos (pl_t p1)) = wait_drain (pt_eos (pl_t p)) /\
    (ok = true -> idempotent rconf = true -> te_pid (pt_eos (pl_t p1)) = pid)) as (p1 & ok & -> & I1 & V1 & Eb & Er & Eq & Ew & Hp).
  { unfold r. destruct (idempotent rconf && _) eqn:Ei.
    - destruct (pid_change_inv E p pid m l I Ex) as (t & ok & -> & I1 & Eq & Ew & Hp).
      exists (set_pl_t p t), ok. split; [reflexivity |]. split; [exact I1 |]. split; [now split |]. auto 10.
    - exists p, true. split; [reflexivity |]. split; [exact I |]. split; [reflexivity |]. repeat (split; [reflexivity |]).
      intros _ Hi. rewrite Hi in Ei. apply negb_false_iff, pid_eq_true in Ei. now symmetry. }
  destruct ok; [| do 3 eexists; split; [reflexivity | now split]]. cbn [negb]. specialize (Hp eq_refl).
  set (base := if idempotent rconf then _ else _).
  destruct (bool_decide_reflect (rkb_state (pl_bk p1) = STATE_UP)) as [Hup | _]; cbn [negb].
  2: { do 3 eexists. split; [reflexivity |]. split; [now apply persistconn_inv |]. destruct V1 as [V1 V2]. split; [exact V1 | exact V2]. }
  destruct batch_ready; cbn [negb]; [| do 3 eexists; split; [reflexivity | now split]].
  assert (sending p1 pid base (Z.to_nat max_requests)) as Sn.
  { constructor; rewrite ?Z2Nat.id by lia.
    - exact Hup.
    - now rewrite Eb.
    - intros Hi. rewrite Er. now apply M2.
    - intros Hi. destruct (M2 Hi) as (Hv & _ & _). split; [exact Hv |]. split; [auto |]. unfold base. now rewrite Hi.
    - intros [Hi _]. rewrite Ew, Eq. split; [now apply M2 | exact M3]. }
  destruct (requests_loop_inv _ E p1 env pid base clk 0 I1 Sn) as (p2 & cnt & -> & I2 & V2).
  assert (served p p2) as V by now transitivity p1.
  destruct (cnt >? 0); [| do 3 eexists; split; [reflexivity | now split]].
  destruct (allow_wakeup_inv conf N E p2 (Some next_wakeup) now flushing I2) as (p3 & nw & ready & -> & I3 & M & _).
  do 3 eexists. split; [reflexivity |]. split; [exact I3 |]. transitivity p2; [exact V | apply M].
Qed.

(** ** A serve *)

Lemma outbufs_space_spec E p : pinv E [] p -> 0 <= rd_kafka_broker_outbufs_space conf (pl_bk p) <= queue_backpressure_thres conf.
Proof.
  intros I. destruct (pi_broker _ _ _ _ _ I) as [(Eb & Ib) _]. pose proof (so_thres Hconf) as Ht.
  pose proof (inv_queued conf _ _ _ Ib) as Hq. destruct (iv_cnt _ _ _ _ _ _ _ Ib) as (C & _). unfold cnt_ok in C.
  pose proof (queued_len (pl_bk p)) as Hl. unfold rd_kafka_broker_outbufs_space. rewrite C.
  rewrite swrap_small by (unfold in_i; lia). destruct (Z.ltb_spec (queue_backpressure_thres conf - zlen (rkbq_bufs (rkb_outbufs (pl_bk p)))) 0); lia.
Qed.

(** There is room for as many requests as may be made; and a new producer id comes when
    the partition has nothing in flight. *)
Definition serve_room (p : pipeline) : Prop := zlen (queued (pl_bk p)) + queue_backpressure_thres conf <= N.

Definition serve_pid (p : pipeline) (pid : rd_kafka_pid) (may_send : bool) : Prop :=
  idempotent rconf = true -> may_send = true ->
  rd_kafka_pid_valid pid = true /\
  (rd_kafka_pid_eq pid (te_pid (pt_eos (pl_t p))) = true \/ pt_msgs_inflight (pl_t p) = 0).

Lemma producer_serve_inv E p env pid clk now next_wakeup do_timeout_scan may_send flushing :
  pinv E [] p -> serve_room p -> serve_pid p pid may_send ->
  exists p' cnt nw, rd_kafka_toppar_producer_serve conf junk codec addr other_cb reply_of p env pid clk now next_wakeup
      do_timeout_scan may_send flushing = Some (p', cnt, nw) /\ pinv E [] p' /\ served p p'.
Proof.
  intros I Hroom Hpid. unfold rd_kafka_toppar_producer_serve. pose proof (outbufs_space_spec E p I) as Hspace.
  set (space := rd_kafka_broker_outbufs_space conf (pl_bk p)) in *.
  destruct (negb (pl_on_broker p)); [do 3 eexists; split; [reflexivity | now split] |].
  set (r := if do_timeout_scan then _ else _).
  assert (exists r1, r = Some r1 /\ part_ok conf N E p space r1 /\
    match r1 with ServeGo _ m _ _ => m = space | _ => True end) as (r1 & -> & H1 & Hm1).
  { unfold r. destruct do_timeout_scan.
    - destruct (serve_timeouts_inv conf N E p pid now next_wakeup space I) as (r1 & Er & H1). exists r1. split; [exact Er |].
      split; [exact H1 |]. unfold serve_timeouts in Er. runs Er; exact Logic.I || reflexivity.
    - eexists. split; [reflexivity |]. split; [| reflexivity]. split; [exact I |]. split; [reflexivity | lia]. }
  destruct r1 as [p1 cnt nw | p1 m1 b1 nw1]; [destruct H1; do 3 eexists; split; [reflexivity | now split] |].
  destruct H1 as (I1 & M1 & _). subst m1.
  destruct (serve_move_inv conf N E p1 now nw1 space may_send flushing I1 ltac:(lia)) as (r2 & -> & H2 & Hgo).
  destruct r2 as [p2 cnt nw | p2 m2 b2 nw2]; [contradiction |]. destruct H2 as (I2 & M2 & Hle2).
  assert (moved p p2) as M by now transitivity p1. destruct M as [V EB ER EF EE].
  set (s := if idempotent rconf then _ else _).
  assert (exists r3, s = Some r3 /\ match r3 with
    | ServeReturn p3 _ _ => pinv E [] p3 /\ served p2 p3
    | ServeGo p3 m3 _ _ => pinv E [] p3 /\ served p2 p3 /\ (0 < m3 -> may_request p3 pid m3) end) as (r3 & -> & H3).
  { unfold s. destruct (idempotent rconf) eqn:Hi.
    - destruct (serve_drain_inv conf N HN reply_of Hreply other_cb E p2 env pid now nw2 m2 b2 I2) as (r3 & -> & H3).
      exists r3. split; [reflexivity |]. destruct r3 as [p3 cnt nw | p3 m3 b3 nw3]; [exact H3 |].
      destruct H3 as (I3 & [V3 [Ep3 Ew3] Hq3] & Hle3 & Hw3 & Hmq). split; [exact I3 |]. split; [exact V3 |]. intros H0.
      destruct (Hgo ltac:(lia)) as [Hms Hnil]. destruct (Hpid Hi Hms) as [Hv Hc].
      constructor; [| auto | rewrite Hmq; [exact Hnil | now rewrite EF, EE]]. rewrite EB in Hq3. unfold serve_room in Hroom. lia.
    - eexists. split; [reflexivity |]. split; [exact I2 |]. split; [reflexivity |]. intros H0. destruct (Hgo H0) as [_ Hnil].
      constructor; [rewrite EB; unfold serve_room in Hroom; lia | congruence | exact Hnil]. }
  destruct r3 as [p3 cnt nw | p3 m3 b3 nw3].
  - destruct H3 as [I3 V3]. do 3 eexists. split; [reflexivity |]. split; [exact I3 | now transitivity p2].
  - destruct H3 as (I3 & V3 & Hmay).
    destruct (serve_requests_inv E p3 env pid clk now nw3 m3 b3 flushing I3 Hmay) as (p4 & cnt & nw & -> & I4 & V4).
    do 3 eexists. split; [reflexivity |]. split; [exact I4 |]. transitivity p3; [now transitivity p2 | exact V4].
Qed.

End Requests.
