(* ===== verification/ServeOps.v ===== *)
(** * All that happens to a partition

    New messages, the partition's move to and from its broker, the operations of the
    broker, and the states that they reach. *)

From stdpp Require Import gmap strings.
From S2P Require Import Prelude Header Msgq MsgqFacts Producer EosState Eos EosTotal RdBuf Slice KafkaBuf MsgWriter.
From S2P Require Import MsgWriterFacts MsgWriterProps Produce ProduceFacts ProduceProps Retry.
From S2P Require Import Bufq BufqFacts BufqProps Serve ServeFacts ServeSteps ServeProduce.

Section Ops.
Context (conf : serve_conf) (N : Z) (HN : N < 2 ^ 28).
Context (junk : Z -> Z) (codec : Z -> Z -> bytes -> option bytes) (addr : nat -> Z).
Context (Hcodec : forall c v d z, codec c v d = Some z -> Forall is_byte z).
Context (reply_of : response -> rd_buf * rd_slice).
Context (Hreply : forall r, any_reply (Some (reply_of r))).
Context (other_cb : reqbuf -> Z -> option response -> bool).
Context (make_req_cb : request -> (Z * Z * Z) + Z).
Context (Hmake : forall rq v f size, make_req_cb rq = inl (v, f, size) -> 0 < size).
Context (Hinflight : 1 <= bc_max_inflight (sc_bk conf)).
Context (Hconf : serve_conf_ok conf).

Abbreviation rconf := (sc_resp conf).
Abbreviation pconf := (sc_prod conf).
Abbreviation pinv := (pinv conf N).
Abbreviation cb := (resp_cb other_cb).

(** ** New messages *)

(** A message of the application; the partition gives it its id. *)
Record new_msg (p : pipeline) (m : rd_kafka_msg) : Prop := {
  nm_id : rkm_msgid m = 0;
  nm_last : rkm_last_msgid m = 0;
  nm_fits : msg_fits pconf m;
  nm_octets : octets m;
  nm_txn : rk_transactional (pt_rk (pl_t p)) = true -> may_fail (pt_rk (pl_t p));
  nm_room : zlen (live p) + 1 < 2 ^ 31 /\ sum_bytes (live p) + msg_size m < 2 ^ 63 /\ pl_msgid p + 1 < 2 ^ 63 }.

Definition with_id (p : pipeline) (m : rd_kafka_msg) : rd_kafka_msg := msg_set_msgid m (pl_msgid p + 1).

(** A queue takes a message with a greater id. *)
Lemma enq_queue_ok q m (k : Z) :
  queue_ok rconf q -> Forall (fun x => rkm_msgid x <= k) (rkmq_msgs q) -> k < rkm_msgid m ->
  let q' := fst (if match order rconf with RD_KAFKA_QUEUE_FIFO => true | RD_KAFKA_QUEUE_LIFO => false end
                 then rd_kafka_msgq_enq q m else rd_kafka_msgq_enq_sorted0 q m (msg_order_cmp (order rconf))) in
  queue_ok rconf q' /\ rkmq_msgs q' ≡ₚ m :: rkmq_msgs q.
Proof.
  intros [C S] Hk Hm. destruct (match order rconf with RD_KAFKA_QUEUE_FIFO => true | _ => false end) eqn:Em.
  - destruct (enq_spec q m C) as [Ee Ce]. split; [split; [exact Ce |] | rewrite Ee; symmetry; apply Permutation_cons_append].
    rewrite Ee. apply sorted_app. split; [exact S |]. split; [repeat constructor |].
    assert (order rconf = RD_KAFKA_QUEUE_FIFO) as Eo by (destruct (order rconf); [reflexivity | discriminate]).
    eapply list.Forall_impl; [exact Hk |]. intros x Hx. cbv beta in Hx. constructor; [| constructor].
    rewrite !key_fifo by exact Eo. lia.
  - change (msg_order_cmp (order rconf)) with (cmp rconf).
    destruct (enq_sorted_position (cmp rconf) q m S C) as (l1 & l2 & E & Ee & _ & _ & Hs & Hc & _).
    split; [split; [exact Hc | now rewrite Ee] |]. rewrite Ee, E. symmetry. apply Permutation_middle.
Qed.

(** What [rd_kafka_toppar_enq_msg] does to the partition's queue. *)
Lemma produce_msg_spec p m now :
  new_msg p m -> 0 <= pl_msgid p -> queue_ok rconf (pt_msgq (pl_t p)) ->
  Forall (fun x => rkm_msgid x <= pl_msgid p) (rkmq_msgs (pt_msgq (pl_t p))) ->
  exists q, produce_msg conf p m now = mk_pl (set_pt_msgq (pl_t p) q) (pl_bk p) (pl_reqs p) (pl_msgid p + 1) (pl_wakeup_q p)
      (pl_on_broker p) (pl_paused p) /\
    queue_ok rconf q /\ rkmq_msgs q ≡ₚ with_id p m :: rkmq_msgs (pt_msgq (pl_t p)).
Proof.
  intros [Hid _ _ _ _ (_ & _ & Hmax)] H0 Hq Hk. unfold produce_msg, rd_kafka_toppar_enq_msg. cbn [rktp_partition rktp_msgid rktp_msgq].
  rewrite Hid, (proj2 (Z.eqb_neq _ _) (so_partition _ Hconf)), wrap_small by lia. cbn [Z.eqb negb andb orb].
  change (msg_set_msgid m (pl_msgid p + 1)) with (with_id p m).
  pose proof (enq_queue_ok (pt_msgq (pl_t p)) (with_id p m) (pl_msgid p) Hq Hk) as He.
  destruct (if match order rconf with RD_KAFKA_QUEUE_FIFO => true | _ => false end then _ else _) as [q k] eqn:Eq.
  specialize (He ltac:(cbn; lia)). cbn [fst] in He. destruct He as [Hq' Pq].
  destruct (rd_kafka_msgq_may_wakeup q now && _); (eexists; split; [reflexivity |]; split; [exact Hq' | exact Pq]).
Qed.

Lemma with_id_good p m : new_msg p m -> 0 <= pl_msgid p -> good conf (pl_msgid p + 1) (with_id p m).
Proof.
  intros [Hid Hl [[] Hs] Ho _ _] H0. constructor; [split; [constructor; assumption | exact Hs] | exact Ho | cbn; lia | intros _; exact Hl].
Qed.

Lemma good_mono k k' m : k <= k' -> good conf k m -> good conf k' m.
Proof. intros H [G1 G2 G3 G4]. constructor; auto; lia. Qed.

Lemma produce_msg_inv E p m now :
  pinv E [] p -> new_msg p m -> pinv (with_id p m :: E) [] (produce_msg conf p m now).
Proof.
  intros I Hn. pose proof I as [A [S1 S2] G D M [Q1 Q2] B F T X O W K Br].
  assert (Forall (fun x => rkm_msgid x <= pl_msgid p) (live p)) as Hle
    by (eapply list.Forall_impl; [exact G |]; now intros x [_ _ [_ Hx] _]).
  assert (Forall (fun x => rkm_msgid x <= pl_msgid p) (rkmq_msgs (pt_msgq (pl_t p)))) as Hleq.
  { unfold live, held in Hle. rewrite !list.Forall_app in Hle. apply Hle. }
  destruct (produce_msg_spec p m now Hn ltac:(lia) Q1 Hleq) as (q & -> & Hq & Pq).
  set (p' := mk_pl _ _ _ _ _ _ _). assert (live p' ≡ₚ with_id p m :: live p) as Pl.
  { unfold live, held, p'. cbn [pl_t pl_reqs set_pt_msgq pt_msgq pt_xmit_msgq]. rewrite Pq. reflexivity. }
  destruct (nm_room _ _ Hn) as (R1 & R2 & R3). constructor; try assumption.
  - change (pt_out (pl_t p')) with (pt_out (pl_t p)). cbn [map]. rewrite A, Pl. reflexivity.
  - rewrite (perm_sum_bytes _ _ Pl), sum_bytes_cons, Pl. cbn [length]. change (msg_size (with_id p m)) with (msg_size m). lia.
  - rewrite Pl. change (pl_msgid p') with (pl_msgid p + 1). constructor; [apply with_id_good; [exact Hn | lia] |].
    eapply list.Forall_impl; [exact G |]. intros x Hx. apply (good_mono (pl_msgid p)); [lia | exact Hx].
  - rewrite Pl. cbn [map]. apply list.NoDup_cons. split; [| exact D]. intros Hin.
    apply list_elem_of_fmap in Hin as (x & Ex & Hx). pose proof (proj1 (list.Forall_forall _ _) Hle x Hx). cbn in *. lia.
  - cbn. lia.
  - now split.
  - right. now apply (nm_txn _ _ Hn).
  - intros Ho. destruct (O Ho) as [O1 O2]. split; [exact O1 |]. intros Hw. specialize (O2 Hw). unfold all_before in *.
    unfold live in Hle. apply list.Forall_app in Hle as [_ Hle].
    apply list.Forall_forall. intros x Hx. pose proof (proj1 (list.Forall_forall _ _) O2 x Hx) as H1.
    pose proof (proj1 (list.Forall_forall _ _) Hle x Hx) as H2. cbv beta in *.
    unfold held, p'. cbn. rewrite Pq. cbn. constructor; [cbn; lia | exact H1].
Qed.

(** ** Migration *)

Definition flags_ok (p : pipeline) : Prop := pl_wakeup_q p = pl_on_broker p.

Lemma set_broker_inv E p wakeup_q on_broker : pinv E [] p -> pinv E [] (set_pl_broker p wakeup_q on_broker).
Proof. intros [A S G D M Q B F T X O W K Br]. constructor; try assumption. intros Ho. destruct (O Ho). now split. Qed.

Lemma leave_queues E p :
  pinv E [] p ->
  exists msgq xmit, rd_kafka_msgq_insert_msgq (msg_order_cmp (order rconf)) (pt_msgq (pl_t p)) (pt_xmit_msgq (pl_t p)) =
      Some (msgq, xmit) /\ rkmq_msgs xmit = [] /\ counted xmit /\ queue_ok rconf msgq /\
    queues_step conf (pl_t p) (set_pt_xmit_msgq (set_pt_msgq (pl_t p) msgq) xmit).
Proof.
  intros I. destruct (pi_queues _ _ _ _ _ I) as [[C1 S1] [C2 S2]].
  destruct (insert_msgq_spec (msg_order_cmp (order rconf)) (pt_msgq (pl_t p)) (pt_xmit_msgq (pl_t p)) S1 S2 C1 C2)
    as (q & x & Eq & Ex & Sq & Pq & Cq & Cx).
  exists q, x. split; [exact Eq |]. split; [exact Ex |]. split; [exact Cx |]. split; [now split |].
  split; try reflexivity; [| now split | split; [exact Cx | cbn; rewrite Ex; constructor]].
  exists []. rewrite app_nil_r. split; [reflexivity |]. unfold held. cbn. rewrite Ex, Pq. cbn. solve_Permutation.
Qed.

Lemma dr_msgq_counted t q err t' q' : rd_kafka_dr_msgq rconf t q err = (t', q') -> counted q -> counted q'.
Proof.
  unfold rd_kafka_dr_msgq. destruct (_ =? 0); [now intros [= _ <-] |].
  destruct (rk_drmode rconf && _); cbn; intros [= _ <-] _; apply counted_empty.
Qed.

Lemma partition_leave_inv E p env topic_err next_broker now :
  pinv E [] p -> flags_ok p ->
  exists p', partition_leave conf other_cb reply_of p env topic_err next_broker now = Some p' /\ pinv E [] p' /\ flags_ok p' /\
    pl_msgid p' = pl_msgid p.
Proof.
  intros I Hf. unfold partition_leave. destruct (negb (pl_on_broker p)); [now exists p |].
  destruct (purge_by_toppar_inv conf N HN reply_of Hreply other_cb E p env ERR__RETRY now I) as (p1 & -> & I1 & [[V1 V1'] _ _ _ _]).
  destruct (leave_queues E p1 I1) as (q & x & -> & Ex & Cx & Qq & Hq).
  pose proof (queues_step_inv conf N E [] p1 _ I1 Hq) as I2. set (t := set_pt_xmit_msgq _ x) in *.
  pose proof (set_broker_inv E _ false false I2) as I3.
  destruct next_broker; [eexists; split; [reflexivity |]; split; [exact I3 |]; now split |].
  change (pt_xmit_msgq t) with x. rewrite queue_len, Ex by (rewrite ?Ex; (exact Cx || (cbn; lia))).
  change (zlen (@nil rd_kafka_msg) =? 0) with true. cbn [rd_assert].
  set (err := if terminating env then _ else _).
  destruct (queues_small conf N _ _ _ I3) as ((Hsm & _) & _ & _).
  destruct (dr_msgq_spec rconf t (pt_msgq t) err (proj1 Qq) Hsm) as (t' & q' & Ed & Eq' & [D1 D2 D3 D4 D5 D6]).
  rewrite Ed. eexists. split; [reflexivity |]. split; [| now split].
  apply queues_step_inv; [exact I3 |]. split; cbn; try assumption.
  - eexists. split; [exact D1 |]. rewrite reported_dr. unfold held. cbn. rewrite Eq', D3. cbn. apply Permutation_app_comm.
  - assert (counted q' /\ rkmq_msgs q' = []) as [Cq' E'] by (split; [exact (dr_msgq_counted _ _ _ _ _ Ed (proj1 Qq)) | exact Eq']).
    split; [exact Cq' | rewrite E'; constructor].
  - rewrite D3. apply (pi_queues _ _ _ _ _ I3).
Qed.

Lemma partition_join_inv E p :
  pinv E [] p -> flags_ok p -> pl_on_broker p = false ->
  exists p', partition_join conf p = Some p' /\ pinv E [] p' /\ flags_ok p' /\ pl_msgid p' = pl_msgid p.
Proof.
  intros I Hf Ho. unfold partition_join. unfold flags_ok in Hf. rewrite Hf, Ho. cbn [negb rd_assert].
  eexists. split; [reflexivity |]. pose proof (set_broker_inv E p true true I) as I1.
  destruct (idempotent rconf); [| now split]. split; [| now split]. unfold rd_kafka_idemp_drain_toppar.
  destruct (wait_drain _) eqn:Ew; [destruct p; exact I1 |].
  destruct I1 as [A S G D M Q B F T X O W K Br]. constructor; try assumption.
  - intros i r Hi. destruct (B i r Hi) as [B1 B2 B3]. constructor; auto.
  - intros Hio. destruct (O Hio) as [O1 O2]. split; [exact O1 |]. intros Hw. discriminate Hw.
Qed.

(** ** Everything *)

(** [PRk] is what other threads do to the state of the client: the producer id, the
    transaction, errors, the requests of other partitions in flight. *)
Inductive pl_op : Type :=
| PProduce (rkm : rd_kafka_msg) (now : Z)
| PServe (env : penv) (clk : nat -> nat -> Z) (now next_wakeup : Z) (do_timeout_scan : bool) (rk_flushing : Z)
| PBroker (op : bq_op) (env : penv)
| PRk (rk : rd_kafka)
| PPause (paused : bool)
| PLeave (env : penv) (topic_err : Z) (next_broker : bool) (now : Z)
| PJoin.

Definition pl_exec (p : pipeline) (op : pl_op) : option pipeline :=
  match op with
  | PProduce rkm now => Some (produce_msg conf p rkm now)
  | PServe env clk now next_wakeup do_timeout_scan rk_flushing =>
      let* (p, _, _) := rd_kafka_broker_produce_toppars conf junk codec addr other_cb reply_of p env clk now next_wakeup
                          do_timeout_scan rk_flushing in Some p
  | PBroker op env => let* b := bq_exec (sc_bk conf) cb make_req_cb (pl_bk p) op in with_broker conf reply_of p env b
  | PRk rk => Some (set_pl_t p (set_pt_rk (pl_t p) rk))
  | PPause paused => Some (mk_pl (pl_t p) (pl_bk p) (pl_reqs p) (pl_msgid p) (pl_wakeup_q p) (pl_on_broker p) paused)
  | PLeave env topic_err next_broker now => partition_leave conf other_cb reply_of p env topic_err next_broker now
  | PJoin => partition_join conf p
  end.

(** A new producer id comes when the partition has nothing in flight: it is asked for when
    no partition has. *)
Definition new_pid_drained (p : pipeline) : Prop :=
  let pid := rd_kafka_idemp_get_pid0 (pt_rk (pl_t p)) in
  idempotent rconf = true -> rd_kafka_pid_valid pid = true ->
  rd_kafka_pid_eq pid (te_pid (pt_eos (pl_t p))) = true \/ pt_msgs_inflight (pl_t p) = 0.

Definition pl_may_happen (p : pipeline) (op : pl_op) : Prop :=
  match op with
  | PProduce rkm _ => new_msg p rkm
  | PServe _ _ _ _ _ _ => serve_room conf N p /\ new_pid_drained p
  | PBroker op _ => may_happen N may_retry (pl_bk p) op /\ Forall may_retry (entered op)
  | PRk rk => (rk_transactional rk = true -> live p = [] \/ may_fail rk) /\
      (idempotent rconf = true -> 0 <= other_toppars (set_pt_rk (pl_t p) rk) < 2 ^ 31 - 1)
  | PPause _ => True
  | PLeave _ _ _ _ => True
  | PJoin => pl_on_broker p = false
  end.

Definition pl_entered (p : pipeline) (op : pl_op) : list rd_kafka_msg :=
  match op with PProduce rkm _ => [with_id p rkm] | _ => [] end.

(** A new partition and a new broker, of a client without an error. *)
Definition new_pipeline (rk : rd_kafka) : pipeline :=
  mk_pl (mk_prod rk RD_KAFKA_MSGQ_INITIALIZER RD_KAFKA_MSGQ_INITIALIZER 0 (mk_teos rd_kafka_pid_reset 0 0 0 0 false)
           (mk_tperr 0 0 0 0 0 0) false []) new_broker ∅ 0 false false false.

(** The states of the pipeline, with the messages that came in. *)
Inductive pl_reached : list rd_kafka_msg -> pipeline -> Prop :=
| pl_reached_new rk :
    (idempotent rconf = true -> 0 <= inflight_toppar_cnt rk < 2 ^ 31 - 1) ->
    pl_reached [] (new_pipeline rk)
| pl_reached_op E p op p' :
    pl_reached E p -> pl_may_happen p op -> pl_exec p op = Some p' -> pl_reached (pl_entered p op ++ E) p'.

(** The messages that came in have ids of their own. *)
Record pl_inv (E : list rd_kafka_msg) (p : pipeline) : Prop := {
  pv_inv : pinv E [] p;
  pv_flags : flags_ok p;
  pv_ids : NoDup (map rkm_msgid E);
  pv_bound : Forall (fun m => rkm_msgid m <= pl_msgid p) E }.

Lemma pl_inv_same E p p' : pl_inv E p -> pinv E [] p' -> flags_ok p' -> pl_msgid p' = pl_msgid p -> pl_inv E p'.
Proof. intros [_ _ V3 V4] I F Em. constructor; try assumption. now rewrite Em. Qed.

Lemma served_flags p p' : flags_ok p -> served p p' -> flags_ok p' /\ pl_msgid p' = pl_msgid p.
Proof. intros F [(S1 & S2 & _) S3]. unfold flags_ok in *. split; congruence. Qed.

Lemma produce_toppars_inv E p env clk now next_wakeup scan rk_flushing :
  pinv E [] p -> serve_room conf N p -> new_pid_drained p ->
  exists p' cnt nw, rd_kafka_broker_produce_toppars conf junk codec addr other_cb reply_of p env clk now next_wakeup scan
      rk_flushing = Some (p', cnt, nw) /\ pinv E [] p' /\ served p p'.
Proof.
  intros I Hr Hd. unfold rd_kafka_broker_produce_toppars.
  destruct (negb (pl_on_broker p)); [do 3 eexists; split; [reflexivity | now split] |].
  cbv zeta. set (pid := if idempotent rconf then rd_kafka_idemp_get_pid0 _ else _).
  set (may_send := if idempotent rconf then if negb _ then _ else _ else true).
  destruct (idempotent rconf && _); [do 3 eexists; split; [reflexivity | now split] |].
  destruct (producer_serve_inv conf N HN junk codec addr Hcodec reply_of Hreply other_cb Hconf E p env pid clk now next_wakeup scan
    may_send (may_send && (rk_flushing >? 0)) I Hr) as (p' & cnt & nw & -> & I' & V').
  { intros Hi Hs. unfold may_send in Hs. unfold pid in *. rewrite Hi in *. specialize (Hd Hi). cbv zeta in Hd.
    destruct (rd_kafka_pid_valid _); [auto | discriminate Hs]. }
  do 3 eexists. split; [reflexivity | now split].
Qed.

Lemma pl_exec_inv E p op :
  pl_inv E p -> pl_may_happen p op -> exists p', pl_exec p op = Some p' /\ pl_inv (pl_entered p op ++ E) p'.
Proof.
  intros V Hop. pose proof V as [I F D B]. destruct op as [m now | env clk now nw scan fl | op env | rk | pa | env te nb now |];
    cbn [pl_exec pl_entered pl_may_happen app] in *.
  - eexists. split; [reflexivity |]. pose proof (produce_msg_inv E p m now I Hop) as I'.
    destruct (pi_msgid _ _ _ _ _ I) as [M0 _].
    assert (exists q, produce_msg conf p m now = mk_pl (set_pt_msgq (pl_t p) q) (pl_bk p) (pl_reqs p) (pl_msgid p + 1)
      (pl_wakeup_q p) (pl_on_broker p) (pl_paused p)) as [q Eq].
    { destruct (produce_msg_spec p m now Hop M0) as (q & Eq & _); [apply (pi_queues _ _ _ _ _ I) | | now exists q].
      pose proof (pi_good _ _ _ _ _ I) as G. unfold live, held in G. rewrite !list.Forall_app in G. destruct G as [[G _] _].
      eapply list.Forall_impl; [exact G |]. now intros x [_ _ [_ Hx] _]. }
    rewrite Eq in *. constructor; [exact I' | exact F | |].
    + cbn [map]. apply list.NoDup_cons. split; [| exact D]. intros Hin. apply list_elem_of_fmap in Hin as (x & Ex & Hx).
      pose proof (proj1 (list.Forall_forall _ _) B x Hx). cbn in *. lia.
    + constructor; [cbn; lia |]. eapply list.Forall_impl; [exact B |]. cbn. lia.
  - destruct Hop as [Hr Hd]. destruct (produce_toppars_inv E p env clk now nw scan fl I Hr Hd) as (p' & cnt & nw' & -> & I' & V').
    exists p'. split; [reflexivity |]. destruct (served_flags p p' F V'). now apply (pl_inv_same E p).
  - destruct Hop as [Hop Hown]. destruct (pi_broker _ _ _ _ _ I) as [(Eb & Ib) Hc].
    destruct (exec_inv (sc_bk conf) N HN cb make_req_cb Hmake Hinflight may_retry (cb_retry other_cb) Eb (pl_bk p) op Ib Hc Hop)
      as (b & -> & Db).
    destruct (broker_op_inv conf N reply_of Hreply E p env (entered op) Eb b I Ib Db) as (p' & -> & I' & [R1 R2 (R3 & R4 & R5) _ _ _]).
    { unfold owned. clear - Hown. induction Hown as [| id l Hid _ IH]; [reflexivity |]. rewrite filter_cons_False by (unfold may_retry in Hid; congruence). exact IH. }
    exists p'. split; [reflexivity |]. apply (pl_inv_same E p); try assumption. unfold flags_ok in *. cbn in R3, R4. congruence.
  - destruct Hop as [Ht Hc]. eexists. split; [reflexivity |]. apply (pl_inv_same E p); try assumption; [| reflexivity].
    destruct I as [A S G D' M Q B' Fl T X O W K Br]. constructor; try assumption. intros Ho. destruct (O Ho). now split.
  - eexists. split; [reflexivity |]. apply (pl_inv_same E p); try assumption; [| reflexivity].
    destruct I as [A S G D' M Q B' Fl T X O W K Br]. constructor; try assumption. intros Ho. destruct (O Ho). now split.
  - destruct (partition_leave_inv E p env te nb now I F) as (p' & -> & I' & F' & Em). exists p'. split; [reflexivity |].
    now apply (pl_inv_same E p).
  - destruct (partition_join_inv E p I F Hop) as (p' & -> & I' & F' & Em). exists p'. split; [reflexivity |].
    now apply (pl_inv_same E p).
Qed.

Lemma new_pipeline_inv rk :
  0 <= N -> (idempotent rconf = true -> 0 <= inflight_toppar_cnt rk < 2 ^ 31 - 1) -> pl_inv [] (new_pipeline rk).
Proof.
  intros HN0 Hc. assert (queue_ok rconf RD_KAFKA_MSGQ_INITIALIZER) as Hq by (split; [apply counted_empty | constructor]).
  constructor; [| reflexivity | constructor | constructor]. constructor.
  - reflexivity.
  - split; reflexivity.
  - constructor.
  - constructor.
  - cbn. lia.
  - split; exact Hq.
  - apply map_Forall_empty.
  - reflexivity.
  - intros Hi. unfold other_toppars. cbn. rewrite Z.sub_0_r. auto.
  - intros _. left. reflexivity.
  - intros _. split; [intros i j a b Ha; discriminate Ha |]. constructor.
  - intros _. cbn. discriminate.
  - reflexivity.
  - split; [| cbn; lia]. exists []. now apply (new_inv (sc_bk conf) N).
Qed.

Lemma pl_reached_inv E p : 0 <= N -> pl_reached E p -> pl_inv E p.
Proof.
  intros HN0. induction 1 as [rk Hc | E p op p' _ IH Hop Ex]; [now apply new_pipeline_inv |].
  destruct (pl_exec_inv E p op IH Hop) as (p2 & E2 & V2). rewrite Ex in E2. now injection E2 as <-.
Qed.

End Ops.
