(* ===== verification/ServeProps.v ===== *)
(** * What the pipeline of a partition promises

    Whatever the application, the broker, the other threads and the partition's migration
    do, in whatever order: every message is kept, an idempotent producer's requests have
    their sequence numbers and their order, and the counters are those of the queues. *)

From stdpp Require Import gmap strings.
From S2P Require Import Prelude Header Msgq MsgqFacts Producer EosState Eos EosTotal RdBuf Slice KafkaBuf MsgWriter.
From S2P Require Import MsgWriterFacts MsgWriterProps Produce ProduceFacts ProduceProps Retry ReadFacts.
From S2P Require Import Bufq BufqFacts BufqProps Serve ServeFacts ServeSteps ServeProduce ServeOps.

Section Props.
Context (conf : serve_conf) (N : Z) (HN : N < 2 ^ 28).
Context (junk : Z -> Z) (codec : Z -> Z -> bytes -> option bytes) (addr : nat -> Z).
Context (Hcodec : forall c v d z, codec c v d = Some z -> Forall is_byte z).
Context (reply_of : response -> rd_buf * rd_slice).
Context (Hreply : forall r, any_reply (Some (reply_of r))).
Context (other_cb : reqbuf -> Z -> option response -> bool).
Context (make_req_cb : request -> (Z * Z * Z) + Z).
Context (Hmake : forall rq v f size, make_req_cb rq = inl (v, f, size) -> 0 < size).
Context (Hinflight : 1 <= bc_max_inflight (sc_bk conf)).
Context (Hconf : serve_conf_ok conf).

Abbreviation exec := (pl_exec conf junk codec addr reply_of other_cb make_req_cb).
Abbreviation reached := (pl_reached conf N junk codec addr reply_of other_cb make_req_cb).
Abbreviation happens := (pl_may_happen conf N).

(** The messages of a pipeline, wherever they are. *)
Definition messages (p : pipeline) : list rd_kafka_msg :=
  held (pl_t p) ++ in_requests (pl_reqs p) ++ reported (pt_out (pl_t p)).

(** C8. Whatever happens to a producer's partition, in whatever order, no assertion fails
    and no message is lost or doubled: each message that the application enqueued is, with
    its content unchanged, exactly once in the queues of the partition, in a request in
    flight, or in a delivery report. *)
Theorem pipeline_keeps_messages E p op :
  0 <= N -> reached E p -> happens p op ->
  exists p', exec p op = Some p' /\ map core (pl_entered p op ++ E) ≡ₚ map core (messages p') /\
    NoDup (map rkm_msgid (messages p')).
Proof.
  intros HN0 Hre Hop. pose proof (pl_reached_inv conf N HN junk codec addr Hcodec reply_of Hreply other_cb make_req_cb Hmake
    Hinflight Hconf E p HN0 Hre) as V.
  destruct (pl_exec_inv conf N HN junk codec addr Hcodec reply_of Hreply other_cb make_req_cb Hmake Hinflight Hconf E p op V Hop)
    as (p' & Ex & [I _ D _]).
  exists p'. split; [exact Ex |]. pose proof (pi_acc _ _ _ _ _ I) as A. unfold live in A. rewrite <- app_assoc in A.
  split; [exact A |]. apply core_perm in A as (_ & _ & A). unfold messages. now rewrite <- A.
Qed.

(** The counter of messages in flight is the number of messages in the partition's
    requests; each of these requests is in exactly one of the broker's queues, which have
    no other request of the partition, and an idempotent producer has at most five. *)
Lemma in_flight_is_in_queues E p :
  0 <= N -> reached E p ->
  pt_msgs_inflight (pl_t p) = zlen (in_requests (pl_reqs p)) /\
  map fst (map_to_list (pl_reqs p)) ≡ₚ owned (ids (queued (pl_bk p))) /\ NoDup (ids (queued (pl_bk p))) /\
  (idempotent (sc_resp conf) = true -> Z.of_nat (size (pl_reqs p)) <= RD_KAFKA_IDEMP_MAX_INFLIGHT).
Proof.
  intros HN0 Hre. destruct (pl_reached_inv conf N HN junk codec addr Hcodec reply_of Hreply other_cb make_req_cb Hmake
    Hinflight Hconf E p HN0 Hre) as [I _ _ _].
  split; [exact (pi_inflight _ _ _ _ _ I) |]. split; [| split; [| exact (pi_window _ _ _ _ _ I)]].
  - rewrite (pi_keys _ _ _ _ _ I). change (called []) with (@nil nat). now rewrite app_nil_r.
  - destruct (pi_broker _ _ _ _ _ I) as [(Eb & Ib) _]. pose proof (iv_nodup _ _ _ _ _ _ _ Ib) as D.
    change (ids []) with (@nil nat) in D. rewrite app_nil_r in D. unfold queued. now rewrite !ids_app.
Qed.

(** Every request of an idempotent producer that is in flight has the partition's
    producer id, and the sequence number of its first message: the number of messages
    since the first one under this producer id, wrapped.  Its messages are in order. *)
Lemma in_flight_sequence E p id req :
  0 <= N -> reached E p -> idempotent (sc_resp conf) = true -> pl_reqs p !! id = Some req ->
  exists m l, batch_msgs req = m :: l /\ rkmb_pid (preq_batch req) = te_pid (pt_eos (pl_t p)) /\
    rkmb_first_seq (preq_batch req) = rd_kafka_seq_wrap (i64 (rkm_msgid m - epoch_base_msgid (pt_eos (pl_t p)))) /\
    sorted (cmp (sc_resp conf)) (m :: l).
Proof.
  intros HN0 Hre Hi Hl. destruct (pl_reached_inv conf N HN junk codec addr Hcodec reply_of Hreply other_cb make_req_cb Hmake
    Hinflight Hconf E p HN0 Hre) as [I _ _ _].
  destruct (pi_batches _ _ _ _ _ I id req Hl) as [[_ Hs] (m & l & x & Eb & _) Hq]. destruct (Hq Hi) as [Hp Hf].
  rewrite Eb in Hf. unfold batch_msgs in Eb. rewrite Eb in Hs. exists m, l. auto.
Qed.

(** C9. An idempotent producer with FIFO queues sends in order: of two requests in flight
    the one made first has all the messages that were produced first; and unless the
    partition is draining, all that is in flight was produced before all that is in the
    queues. *)
Theorem sent_in_order E p :
  0 <= N -> reached E p -> in_order conf ->
  (forall i j a b, pl_reqs p !! i = Some a -> pl_reqs p !! j = Some b -> (i < j)%nat ->
     all_before (batch_msgs a) (batch_msgs b)) /\
  (wait_drain (pt_eos (pl_t p)) = false -> all_before (in_requests (pl_reqs p)) (held (pl_t p))).
Proof.
  intros HN0 Hre Ho. destruct (pl_reached_inv conf N HN junk codec addr Hcodec reply_of Hreply other_cb make_req_cb Hmake
    Hinflight Hconf E p HN0 Hre) as [I _ _ _].
  destruct (pi_ordered _ _ _ _ _ I Ho) as [O1 O2]. split; [exact O1 | exact O2].
Qed.

End Props.

(** ** Witnesses *)

(** An idempotent producer with batches of one message and two requests at a time. *)
Definition ex_pconf : produce_conf :=
  mk_conf (Some [114]) None 1000000 1000000 1 65535 (-1) 30000 0 RD_KAFKA_QUEUE_FIFO.
Definition ex_sconf : serve_conf :=
  mk_sconf ex_rconf ex_pconf (mk_bconf false 60000 100 5 1 false false) 2 5000 ex_rktp 9.

(** The first bytes of the content of a response, as a buffer. *)
Definition ex_shadow (data : bytes) : option (rd_buf * rd_slice) := rd_kafka_buf_new_shadow (fun _ => 0) data None.
Definition ex_empty : rd_buf * rd_slice :=
  ltac:(let r := eval vm_compute in (ex_shadow [0]) in match r with Some ?x => exact x end).
Definition ex_reply_of (r : response) : rd_buf * rd_slice :=
  default ex_empty (ex_shadow (ztake 1000 (rs_content r ++ [0]))).

Lemma ex_replies r : any_reply (Some (ex_reply_of r)).
Proof.
  assert (0 < zlen (ztake 1000 (rs_content r ++ [0])) < 2 ^ 60) as H.
  { unfold ztake. rewrite length_take, length_app. cbn [length]. lia. }
  destruct (shadow_window (fun _ => 0) _ None H) as (rb & s & E & seg & W).
  unfold ex_reply_of, ex_shadow. rewrite E. cbn. eauto 10.
Qed.

(** The response to a Produce request of version 7. *)
Definition ex_response (CorrId ErrorCode Offset : Z) : response :=
  mk_response CorrId None (be_enc 4 1 ++ be_enc 2 1 ++ [116] ++ be_enc 4 1 ++ be_enc 4 3 ++ be_enc 2 ErrorCode ++
    be_enc 8 Offset ++ be_enc 8 (-1) ++ be_enc 8 0 ++ be_enc 4 0).

Definition ex_codec_none (c v : Z) (d : bytes) : option bytes := None.
Definition ex_no_cb (rb : reqbuf) (err : Z) (resp : option response) : bool := false.
Definition ex_exec := pl_exec ex_sconf (fun _ => 0) ex_codec_none (fun _ => 0) ex_reply_of ex_no_cb ex_make.
Definition ex_reach := pl_reached ex_sconf 1000 (fun _ => 0) ex_codec_none (fun _ => 0) ex_reply_of ex_no_cb ex_make.

Definition ex_client : rd_kafka :=
  mk_rk false 0 0 IDEMP_ASSIGNED (mk_pid 5 0) 0 0 false 0 TXN_INIT None false false false
    (mk_api "" 0 None) None 0 false [] [] [] ∅ 0 0 0 [].
Definition ex_run (p : pipeline) (op : pl_op) : pipeline := default p (ex_exec p op).
Definition ex_new_msg (ts : Z) : rd_kafka_msg := ex_msg 0 ts None None.
Definition ex_all (k : nat) (n : Z) : Z := n.

(** The broker comes up, the partition joins it, and three messages are produced. *)
Definition ex_p5 : pipeline :=
  fold_left ex_run
    [PBroker (OpVersions 0x208 [(0, (0, 8))]) ex_env; PBroker (OpState STATE_CONNECT) ex_env;
     PBroker (OpConnected STATE_AUTH_LEGACY) ex_env; PBroker OpUp ex_env; PJoin] (new_pipeline ex_client).
Definition ex_p8 : pipeline :=
  fold_left ex_run [PProduce (ex_new_msg 1000) 10000; PProduce (ex_new_msg 1001) 10000; PProduce (ex_new_msg 1002) 10000] ex_p5.
Definition ex_serve : pl_op := PServe ex_env (fun _ _ => 20000) 20000 1020000 false 1.
(** Two requests are made and sent; one is answered. *)
Definition ex_p9 : pipeline := ex_run ex_p8 ex_serve.
Definition ex_p10 : pipeline := ex_run ex_p9 (PBroker (OpSend ex_all 21000) ex_env).
Definition ex_last : pl_op := PBroker (OpResponse (ex_response 1 0 70) 22000) ex_env.

Lemma ex_sconf_ok : serve_conf_ok ex_sconf.
Proof. constructor; try (cbn; (reflexivity || lia || discriminate)). constructor; cbn; lia. Qed.

Lemma ex_no_codec c v d z : ex_codec_none c v d = Some z -> Forall is_byte z.
Proof. discriminate. Qed.

Lemma ex_five : 1 <= bc_max_inflight (sc_bk ex_sconf).
Proof. cbn. lia. Qed.

(** What may happen happens. *)
Lemma ex_step E p op : ex_reach E p -> pl_may_happen ex_sconf 1000 p op -> ex_reach (pl_entered p op ++ E) (ex_run p op).
Proof.
  intros Hr Hop.
  pose proof (pl_reached_inv ex_sconf 1000 ex_N (fun _ => 0) ex_codec_none (fun _ => 0) ex_no_codec ex_reply_of ex_replies ex_no_cb
    ex_make ex_make_ok ex_five ex_sconf_ok E p ex_N0 Hr) as V.
  destruct (pl_exec_inv ex_sconf 1000 ex_N (fun _ => 0) ex_codec_none (fun _ => 0) ex_no_codec ex_reply_of ex_replies ex_no_cb
    ex_make ex_make_ok ex_five ex_sconf_ok E p op V Hop) as (p' & Ex & _).
  unfold ex_run, ex_exec. rewrite Ex. apply (pl_reached_op _ _ _ _ _ _ _ _ E p op p'); assumption.
Qed.

Lemma ex_broker_step E p op :
  ex_reach E p -> may_happen 1000 may_retry (pl_bk p) op -> entered op = [] -> ex_reach E (ex_run p (PBroker op ex_env)).
Proof. intros Hr Hop He. apply (ex_step E p (PBroker op ex_env) Hr). split; [exact Hop | rewrite He; constructor]. Qed.

Lemma ex_state b s st :
  rkb_state b = s -> (state_num STATE_AUTH_LEGACY <=? state_num s) = (state_num STATE_AUTH_LEGACY <=? state_num st) ->
  may_happen 1000 may_retry b (OpState st).
Proof. intros <- H. unfold may_happen, connected. lia. Qed.

Lemma ex_connect b s :
  rkb_state b = s -> (state_num STATE_AUTH_LEGACY <=? state_num s) || negb (rkb_connid b <? 100) = false ->
  may_happen 1000 may_retry b (OpConnected STATE_AUTH_LEGACY).
Proof. intros <- H. unfold may_happen, connected. zbool. lia. Qed.

Lemma ex_up b s : rkb_state b = s -> (state_num STATE_AUTH_LEGACY <=? state_num s) = true -> may_happen 1000 may_retry b OpUp.
Proof. intros <- H. unfold may_happen, connected. lia. Qed.

Lemma ex_reached5 : ex_reach [] ex_p5.
Proof.
  assert (ex_reach [] (new_pipeline ex_client)) as H by (apply pl_reached_new; cbn; lia).
  apply (ex_broker_step _ _ (OpVersions 0x208 [(0, (0, 8))])) in H; [| constructor | reflexivity].
  apply (ex_broker_step _ _ (OpState STATE_CONNECT)) in H; [| now apply (ex_state _ STATE_INIT) | reflexivity].
  apply (ex_broker_step _ _ (OpConnected STATE_AUTH_LEGACY)) in H; [| now apply (ex_connect _ STATE_CONNECT) | reflexivity].
  apply (ex_broker_step _ _ OpUp) in H; [| now apply (ex_up _ STATE_AUTH_LEGACY) | reflexivity].
  apply (ex_step _ _ PJoin) in H; [exact H | reflexivity].
Qed.

(** A message of the application. *)
Lemma ex_new p ts :
  (zlen (live p) <? 1000) && (sum_bytes (live p) <? 1000) && (pl_msgid p <? 1000) && negb (rk_transactional (pt_rk (pl_t p))) = true ->
  new_msg ex_sconf p (ex_new_msg ts).
Proof.
  intros H. repeat (apply andb_true_iff in H as [H ?]). apply negb_true_iff in H0. zbool. constructor; try reflexivity.
  - split; [constructor; cbn; try lia; discriminate | cbn; lia].
  - unfold octets, is_byte. cbn. repeat split; repeat constructor; cbn; lia.
  - congruence.
  - change (msg_size (ex_new_msg ts)) with 2. lia.
Qed.

Definition ex_entered : list rd_kafka_msg := map (fun k => msg_set_msgid (ex_new_msg (1003 - k)) (4 - k)) [1; 2; 3].

Lemma ex_reached8 : ex_reach ex_entered ex_p8.
Proof.
  pose proof ex_reached5 as H.
  apply (ex_step _ _ (PProduce (ex_new_msg 1000) 10000)) in H; [| apply ex_new; vm_compute; reflexivity].
  apply (ex_step _ _ (PProduce (ex_new_msg 1001) 10000)) in H; [| apply ex_new; vm_compute; reflexivity].
  apply (ex_step _ _ (PProduce (ex_new_msg 1002) 10000)) in H; [| apply ex_new; vm_compute; reflexivity].
  exact H.
Qed.

Lemma ex_reached9 : ex_reach ex_entered ex_p9.
Proof.
  pose proof ex_reached8 as H. apply (ex_step _ _ ex_serve) in H; [exact H |]. split; [vm_compute; discriminate |].
  intros _ _. right. vm_compute. reflexivity.
Qed.

Lemma ex_reached10 : ex_reach ex_entered ex_p10.
Proof.
  pose proof ex_reached9 as H. apply (ex_broker_step _ _ (OpSend ex_all 21000)) in H; [exact H | | reflexivity].
  split; [unfold ex_all; lia | vm_compute; reflexivity].
Qed.

Definition in_flight_ids (p : pipeline) : list (nat * list Z) :=
  map (fun kv => (kv.1, map rkm_msgid (batch_msgs kv.2))) (map_to_list (pl_reqs p)).
Definition ids_of (l : list rd_kafka_msg) : list Z := map rkm_msgid l.

Lemma ex_last_seen :
  (fun o => match o with
            | Some p' => (ids_of (held (pl_t p')), in_flight_ids p', ids_of (reported (pt_out (pl_t p'))))
            | None => ([], [], [])
            end) (ex_exec ex_p10 ex_last) = ([3], [(9%nat, [2])], [1]).
Proof. vm_compute. reflexivity. Qed.

Lemma ex_last_happens : pl_may_happen ex_sconf 1000 ex_p10 ex_last.
Proof. split; [exact I | constructor]. Qed.

(** The messages 1 and 2 were sent; the response to the first request is here. *)
Theorem pipeline_keeps_messages_witness :
  exists p', ex_exec ex_p10 ex_last = Some p' /\ ids_of (held (pl_t p')) = [3] /\ in_flight_ids p' = [(9%nat, [2])] /\
    ids_of (reported (pt_out (pl_t p'))) = [1] /\
    map core (pl_entered ex_p10 ex_last ++ ex_entered) ≡ₚ map core (messages p').
Proof.
  destruct (pipeline_keeps_messages ex_sconf 1000 ex_N (fun _ => 0) ex_codec_none (fun _ => 0) ex_no_codec ex_reply_of ex_replies
    ex_no_cb ex_make ex_make_ok ex_five ex_sconf_ok ex_entered ex_p10 ex_last ex_N0 ex_reached10 ex_last_happens)
    as (p' & E1 & P & _).
  pose proof ex_last_seen as H. replace (ex_exec ex_p10 ex_last) with (Some p') in H by (symmetry; exact E1).
  injection H as H1 H2 H3.
  exists p'. split; [exact E1 |]. split; [exact H1 |]. split; [exact H2 |]. split; [exact H3 | exact P].
Defined.

Lemma ex_p10_seen : ids (queued (pl_bk ex_p10)) = [3; 9]%nat /\ pt_msgs_inflight (pl_t ex_p10) = 2 /\
  in_flight_ids ex_p10 = [(9%nat, [2]); (3%nat, [1])] /\ ids_of (held (pl_t ex_p10)) = [3].
Proof. repeat split; vm_compute; reflexivity. Qed.

Theorem in_flight_is_in_queues_witness :
  ids (queued (pl_bk ex_p10)) = [3; 9]%nat /\ pt_msgs_inflight (pl_t ex_p10) = 2 /\
  pt_msgs_inflight (pl_t ex_p10) = zlen (in_requests (pl_reqs ex_p10)).
Proof.
  destruct (in_flight_is_in_queues ex_sconf 1000 ex_N (fun _ => 0) ex_codec_none (fun _ => 0) ex_no_codec ex_reply_of ex_replies
    ex_no_cb ex_make ex_make_ok ex_five ex_sconf_ok ex_entered ex_p10 ex_N0 ex_reached10) as (H & _).
  destruct ex_p10_seen as (H1 & H2 & _). auto.
Defined.

Lemma ex_second :
  exists req, pl_reqs ex_p10 !! 9%nat = Some req /\ ids_of (batch_msgs req) = [2] /\ rkmb_first_seq (preq_batch req) = 1.
Proof. eexists. split; [vm_compute; reflexivity |]. split; vm_compute; reflexivity. Qed.

Theorem in_flight_sequence_witness :
  exists req m l, pl_reqs ex_p10 !! 9%nat = Some req /\ ids_of (batch_msgs req) = [2] /\
    rkmb_first_seq (preq_batch req) = 1 /\ batch_msgs req = m :: l /\
    rkmb_first_seq (preq_batch req) =
      rd_kafka_seq_wrap (i64 (rkm_msgid m - epoch_base_msgid (pt_eos (pl_t ex_p10)))).
Proof.
  destruct ex_second as (req & H & H1 & H2).
  destruct (in_flight_sequence ex_sconf 1000 ex_N (fun _ => 0) ex_codec_none (fun _ => 0) ex_no_codec ex_reply_of ex_replies
    ex_no_cb ex_make ex_make_ok ex_five ex_sconf_ok ex_entered ex_p10 9%nat req ex_N0 ex_reached10 eq_refl H)
    as (m & l & E & _ & Es & _).
  exists req, m, l. auto.
Defined.

Theorem sent_in_order_witness :
  in_flight_ids ex_p10 = [(9%nat, [2]); (3%nat, [1])] /\ ids_of (held (pl_t ex_p10)) = [3] /\
  (wait_drain (pt_eos (pl_t ex_p10)) = false -> all_before (in_requests (pl_reqs ex_p10)) (held (pl_t ex_p10))).
Proof.
  destruct (sent_in_order ex_sconf 1000 ex_N (fun _ => 0) ex_codec_none (fun _ => 0) ex_no_codec ex_reply_of ex_replies
    ex_no_cb ex_make ex_make_ok ex_five ex_sconf_ok ex_entered ex_p10 ex_N0 ex_reached10 (conj eq_refl eq_refl)) as (_ & H).
  destruct ex_p10_seen as (_ & _ & H1 & H2). auto.
Defined.
