(* ===== verification/Assignment.v ===== *)
(** * The consumer's assignment (src/cbits/hs_rdkafka_assignment.c)

    The state of the assigned partitions, with the consumer group's operations that
    change it (src/cbits/hs_rdkafka_cgrp.c), the lookup of partition objects
    (src/cbits/hs_rdkafka_partition.c) and the decoded OffsetFetch response
    (src/cbits/hs_rdkafka_request.c).

    The lists are the elements of the [rd_kafka_topic_partition_list_t]s of [TpList],
    where their arrays and reference counts are modelled.  The requests and ops sent
    are kept until they are answered, so that an answer is a step of the environment.
    [None] is a failed assertion, [RD_BUG] or a NULL dereference. *)

From stdpp Require Import gmap strings.
From S2P Require Import Prelude Msgq Sort TpList TpListFacts TpListProps.

(** ** Constants *)

Definition RD_KAFKA_OFFSET_BEGINNING : Z := -2.
Definition RD_KAFKA_OFFSET_END : Z := -1.
Definition RD_KAFKA_OFFSET_STORED : Z := -1000.
Definition RD_KAFKA_OFFSET_TAIL_BASE : Z := -2000.

Definition RD_KAFKA_RESP_ERR__DESTROY : Z := -197.
Definition RD_KAFKA_RESP_ERR__TRANSPORT : Z := -195.
Definition RD_KAFKA_RESP_ERR__INVALID_ARG : Z := -186.
Definition RD_KAFKA_RESP_ERR__TIMED_OUT : Z := -185.
Definition RD_KAFKA_RESP_ERR__WAIT_COORD : Z := -180.
Definition RD_KAFKA_RESP_ERR__IN_PROGRESS : Z := -178.
Definition RD_KAFKA_RESP_ERR__CONFLICT : Z := -173.
Definition RD_KAFKA_RESP_ERR__STATE : Z := -172.
Definition RD_KAFKA_RESP_ERR__NO_OFFSET : Z := -168.
Definition RD_KAFKA_RESP_ERR__TIMED_OUT_QUEUE : Z := -166.
Definition RD_KAFKA_RESP_ERR__FATAL : Z := -150.
Definition RD_KAFKA_RESP_ERR__ASSIGNMENT_LOST : Z := -142.
Definition RD_KAFKA_RESP_ERR_REQUEST_TIMED_OUT : Z := 7.
Definition RD_KAFKA_RESP_ERR_COORDINATOR_NOT_AVAILABLE : Z := 15.
Definition RD_KAFKA_RESP_ERR_NOT_COORDINATOR : Z := 16.
Definition RD_KAFKA_RESP_ERR_NOT_ENOUGH_REPLICAS : Z := 19.
Definition RD_KAFKA_RESP_ERR_NOT_ENOUGH_REPLICAS_AFTER_APPEND : Z := 20.
Definition RD_KAFKA_RESP_ERR_ILLEGAL_GENERATION : Z := 22.
Definition RD_KAFKA_RESP_ERR_UNKNOWN_MEMBER_ID : Z := 25.
Definition RD_KAFKA_RESP_ERR_KAFKA_STORAGE_ERROR : Z := 56.
Definition RD_KAFKA_RESP_ERR_UNSTABLE_OFFSET_COMMIT : Z := 88.

(** ** Data *)

Abbreviation tp := rd_kafka_topic_partition.

(** What of [rd_kafka_toppar_t] the assignment uses.  [rktp_topic] is
    [rktp_rkt->rkt_topic]; the booleans are [rktp_started] and the flags
    [RD_KAFKA_TOPPAR_F_ASSIGNED], [_DESIRED], [_UNKNOWN], [_ON_DESP], [_REMOVE].  An
    object without [_UNKNOWN] is on its topic's [rkt_p]. *)
Record rd_kafka_toppar := mk_toppar {
  rktp_topic : string;
  rktp_partition : Z;
  rktp_started : bool;
  rktp_assigned : bool;
  rktp_desired : bool;
  rktp_unknown : bool;
  rktp_on_desp : bool;
  rktp_remove : bool;
  rktp_stored_offset : Z;
  rktp_committed_offset : Z }.

Definition toppar_set_started (t : rd_kafka_toppar) (b : bool) : rd_kafka_toppar :=
  mk_toppar (rktp_topic t) (rktp_partition t) b (rktp_assigned t) (rktp_desired t)
    (rktp_unknown t) (rktp_on_desp t) (rktp_remove t) (rktp_stored_offset t)
    (rktp_committed_offset t).
Definition toppar_set_assigned (t : rd_kafka_toppar) (b : bool) : rd_kafka_toppar :=
  mk_toppar (rktp_topic t) (rktp_partition t) (rktp_started t) b (rktp_desired t)
    (rktp_unknown t) (rktp_on_desp t) (rktp_remove t) (rktp_stored_offset t)
    (rktp_committed_offset t).
Definition toppar_set_desp (t : rd_kafka_toppar) (desired on_desp remove : bool)
  : rd_kafka_toppar :=
  mk_toppar (rktp_topic t) (rktp_partition t) (rktp_started t) (rktp_assigned t) desired
    (rktp_unknown t) on_desp remove (rktp_stored_offset t) (rktp_committed_offset t).
Definition toppar_set_stored (t : rd_kafka_toppar) (offset : Z) : rd_kafka_toppar :=
  mk_toppar (rktp_topic t) (rktp_partition t) (rktp_started t) (rktp_assigned t)
    (rktp_desired t) (rktp_unknown t) (rktp_on_desp t) (rktp_remove t) offset
    (rktp_committed_offset t).
Definition toppar_set_committed (t : rd_kafka_toppar) (offset : Z) : rd_kafka_toppar :=
  mk_toppar (rktp_topic t) (rktp_partition t) (rktp_started t) (rktp_assigned t)
    (rktp_desired t) (rktp_unknown t) (rktp_on_desp t) (rktp_remove t)
    (rktp_stored_offset t) offset.

(** [rd_kafka_assignment_t].  The counters count objects in memory. *)
Record rd_kafka_assignment := mk_asg {
  asg_all : list tp;
  asg_pending : list tp;
  asg_queried : list tp;
  asg_removed : list tp;
  asg_started_cnt : Z;
  asg_wait_stop_cnt : Z;
  asg_version : Z }.

Definition asg_set_all (a : rd_kafka_assignment) l :=
  mk_asg l (asg_pending a) (asg_queried a) (asg_removed a) (asg_started_cnt a)
    (asg_wait_stop_cnt a) (asg_version a).
Definition asg_set_pending (a : rd_kafka_assignment) l :=
  mk_asg (asg_all a) l (asg_queried a) (asg_removed a) (asg_started_cnt a)
    (asg_wait_stop_cnt a) (asg_version a).
Definition asg_set_queried (a : rd_kafka_assignment) l :=
  mk_asg (asg_all a) (asg_pending a) l (asg_removed a) (asg_started_cnt a)
    (asg_wait_stop_cnt a) (asg_version a).
Definition asg_set_removed (a : rd_kafka_assignment) l :=
  mk_asg (asg_all a) (asg_pending a) (asg_queried a) l (asg_started_cnt a)
    (asg_wait_stop_cnt a) (asg_version a).
Definition asg_set_started_cnt (a : rd_kafka_assignment) z :=
  mk_asg (asg_all a) (asg_pending a) (asg_queried a) (asg_removed a) z
    (asg_wait_stop_cnt a) (asg_version a).
Definition asg_set_wait_stop_cnt (a : rd_kafka_assignment) z :=
  mk_asg (asg_all a) (asg_pending a) (asg_queried a) (asg_removed a) (asg_started_cnt a)
    z (asg_version a).
Definition asg_set_version (a : rd_kafka_assignment) z :=
  mk_asg (asg_all a) (asg_pending a) (asg_queried a) (asg_removed a) (asg_started_cnt a)
    (asg_wait_stop_cnt a) z.

(** An OFFSET_COMMIT op: its partitions (NULL for the current assignment), and whether
    an empty commit is silent, it has been deferred ([RD_KAFKA_OP_F_REPROCESS]) and has a
    timeout set. *)
Record commit_op := mk_commit {
  co_partitions : option (list tp);
  co_silent_empty : bool;
  co_reprocess : bool;
  co_timeout : bool }.

Inductive rkcg_join_state :=
| JOIN_STATE_INIT | JOIN_STATE_WAIT_JOIN | JOIN_STATE_WAIT_METADATA | JOIN_STATE_WAIT_SYNC
| JOIN_STATE_WAIT_ASSIGN_CALL | JOIN_STATE_WAIT_UNASSIGN_CALL
| JOIN_STATE_WAIT_UNASSIGN_TO_COMPLETE | JOIN_STATE_WAIT_INCR_UNASSIGN_TO_COMPLETE
| JOIN_STATE_STEADY.

#[export] Instance rkcg_join_state_dec : EqDecision rkcg_join_state.
Proof. solve_decision. Defined.

(** What the code tells the rest of the client: ops to a partition, errors and results
    to the application, the group. *)
Inductive asg_ev :=
| EvFetchStart (rktp : nat) (offset : Z)
| EvFetchStop (rktp : nat)
| EvPauseResume (rktp : nat) (pause : bool)
| EvLeaveForRemove (rktp : nat)
| EvConsumerErr (err : Z) (partition : option (string * Z))
| EvCommitResult (err errcnt : Z)
| EvCoordQuery (err : Z)
| EvRevokeAll
| EvAssignmentDone.

(** How an outstanding commit gets its answer: from the coordinator, from the dummy
    buffer with the error on the group's own queue, or, on [rkcg_wait_coord_q], from
    its timeout if it is not processed again before. *)
Inductive commit_at := AtCoord | AtSelf (err : Z) | AtWaitCoord.

(** The consumer: [rk_consumer], the partition objects, indexed by their identity, the
    group's join state and lost flag, and, not yet answered: FETCH_STOP ops by
    partition object, OFFSET_COMMIT ops, OffsetFetch requests with the version given
    to the handler. *)
Record consumer := mk_consumer {
  c_asg : rd_kafka_assignment;
  c_wait_commit_cnt : Z;
  c_toppars : list rd_kafka_toppar;
  c_join_state : rkcg_join_state;
  c_lost : bool;
  c_stops : list nat;
  c_commits : list (commit_op * commit_at);
  c_fetches : list (Z * list tp);
  c_evs : list asg_ev }.

Definition c_set_asg (c : consumer) a :=
  mk_consumer a (c_wait_commit_cnt c) (c_toppars c) (c_join_state c) (c_lost c) (c_stops c)
    (c_commits c) (c_fetches c) (c_evs c).
Definition c_set_toppars (c : consumer) ts :=
  mk_consumer (c_asg c) (c_wait_commit_cnt c) ts (c_join_state c) (c_lost c) (c_stops c)
    (c_commits c) (c_fetches c) (c_evs c).
Definition c_set_commits (c : consumer) wait_commit_cnt commits :=
  mk_consumer (c_asg c) wait_commit_cnt (c_toppars c) (c_join_state c) (c_lost c) (c_stops c)
    commits (c_fetches c) (c_evs c).
Definition c_set_join_state (c : consumer) js :=
  mk_consumer (c_asg c) (c_wait_commit_cnt c) (c_toppars c) js (c_lost c) (c_stops c)
    (c_commits c) (c_fetches c) (c_evs c).
Definition c_set_lost (c : consumer) lost :=
  mk_consumer (c_asg c) (c_wait_commit_cnt c) (c_toppars c) (c_join_state c) lost (c_stops c)
    (c_commits c) (c_fetches c) (c_evs c).
Definition c_set_stops (c : consumer) stops :=
  mk_consumer (c_asg c) (c_wait_commit_cnt c) (c_toppars c) (c_join_state c) (c_lost c) stops
    (c_commits c) (c_fetches c) (c_evs c).
Definition c_set_fetches (c : consumer) fetches :=
  mk_consumer (c_asg c) (c_wait_commit_cnt c) (c_toppars c) (c_join_state c) (c_lost c)
    (c_stops c) (c_commits c) fetches (c_evs c).
Definition c_emit (c : consumer) ev :=
  mk_consumer (c_asg c) (c_wait_commit_cnt c) (c_toppars c) (c_join_state c) (c_lost c)
    (c_stops c) (c_commits c) (c_fetches c) (c_evs c ++ [ev]).

Definition c_map_asg (c : consumer) (f : rd_kafka_assignment -> rd_kafka_assignment) :=
  c_set_asg c (f (c_asg c)).

(** [asg_version++] *)
Definition c_bump_version (c : consumer) : consumer :=
  c_map_asg c (fun a => asg_set_version a (i64 (asg_version a + 1))).

(** What an operation finds of the configuration and of the group: whether there is a
    usable coordinator ([rd_kafka_cgrp_get_coord]), a fatal error, the group is up and
    its [rkcg_wait_coord_q] in use, offsets are kept at the broker and committed
    automatically, the destruction is without a close. *)
Record group_env := mk_env {
  ge_coord : bool;
  ge_fatal : bool;
  ge_up : bool;
  ge_wait_coord_q : bool;
  ge_store_broker : bool;
  ge_auto_commit : bool;
  ge_no_close : bool }.

(** ** Partition objects *)

Definition toppar_new (topic : string) (partition : Z) : rd_kafka_toppar :=
  mk_toppar topic partition false false false (negb (partition =? RD_KAFKA_PARTITION_UA))
    false false RD_KAFKA_OFFSET_INVALID RD_KAFKA_OFFSET_INVALID.

Definition toppar_is (topic : string) (partition : Z) (t : rd_kafka_toppar) : bool :=
  String.eqb (rktp_topic t) topic && (rktp_partition t =? partition).

Definition toppars_find (ts : list rd_kafka_toppar) (f : rd_kafka_toppar -> bool) : option nat :=
  fst <$> list_find (fun t => f t = true) ts.

(** On [rkt_p], or [rkt_ua]. *)
Definition rd_kafka_toppar_get (ts : list rd_kafka_toppar) (topic : string) (partition : Z)
  : option nat :=
  toppars_find ts (fun t => toppar_is topic partition t && negb (rktp_unknown t)).

Definition rd_kafka_toppar_desired_get (ts : list rd_kafka_toppar) (topic : string)
  (partition : Z) : option nat :=
  toppars_find ts (fun t => toppar_is topic partition t && rktp_on_desp t).

(** With [rd_kafka_toppar_desired_link]. *)
Definition rd_kafka_toppar_desired_add0 (t : rd_kafka_toppar) : rd_kafka_toppar :=
  if rktp_desired t then t
  else toppar_set_desp t true (rktp_on_desp t || rktp_unknown t) false.

Definition rd_kafka_toppar_desired_add (ts : list rd_kafka_toppar) (topic : string)
  (partition : Z) : list rd_kafka_toppar * nat :=
  let rktp := match rd_kafka_toppar_get ts topic partition with
              | Some i => Some i
              | None => rd_kafka_toppar_desired_get ts topic partition
              end in
  let '(ts, i) := match rktp with
                  | Some i => (ts, i)
                  | None => (ts ++ [toppar_new topic partition], length ts)
                  end in
  (alter rd_kafka_toppar_desired_add0 i ts, i).

(** Whether the topic is among the client's; a topic is created with its [rkt_ua]. *)
Definition rd_kafka_topic_find (ts : list rd_kafka_toppar) (topic : string) : bool :=
  existsb (fun t => String.eqb (rktp_topic t) topic) ts.

Definition rd_kafka_toppar_get2 (ts : list rd_kafka_toppar) (topic : string) (partition : Z)
  (create_on_miss : bool) : list rd_kafka_toppar * option nat :=
  if negb (rd_kafka_topic_find ts topic) && negb create_on_miss then (ts, None)
  else
    let ts := if rd_kafka_topic_find ts topic then ts
              else ts ++ [toppar_new topic RD_KAFKA_PARTITION_UA] in
    let '(ts, i) := rd_kafka_toppar_desired_add ts topic partition in
    (ts, Some i).

(** Sets [_private]. *)
Definition rd_kafka_topic_partition_ensure_toppar (ts : list rd_kafka_toppar) (e : tp)
  (create_on_miss : bool) : list rd_kafka_toppar * tp :=
  match rktpar_private e with
  | Some _ => (ts, e)
  | None =>
      let '(ts, i) := rd_kafka_toppar_get2 ts (rktpar_topic e) (rktpar_partition e) create_on_miss in
      (ts, mk_tp (rktpar_topic e) (rktpar_partition e) (rktpar_offset e) (rktpar_metadata e)
             (rktpar_metadata_size e) (rktpar_opaque e) (rktpar_err e) i)
  end.

(** The object's new state, and whether [rd_kafka_toppar_broker_leave_for_remove] is
    called; with [rd_kafka_toppar_desired_unlink]. *)
Definition rd_kafka_toppar_desired_del (t : rd_kafka_toppar) : rd_kafka_toppar * bool :=
  if negb (rktp_desired t) then (t, false)
  else
    (toppar_set_desp t false false (rktp_remove t || rktp_unknown t), rktp_unknown t).

(** [RD_KAFKA_RESP_ERR__STATE] is returned for a partition that is not assigned. *)
Definition rd_kafka_offset_store0 (t : rd_kafka_toppar) (offset : Z) (force is_simple_consumer : bool)
  : rd_kafka_toppar * Z :=
  if negb force && negb (RD_KAFKA_OFFSET_IS_LOGICAL offset) && negb (rktp_assigned t)
     && negb is_simple_consumer
  then (t, RD_KAFKA_RESP_ERR__STATE)
  else (toppar_set_stored t offset, RD_KAFKA_RESP_ERR_NO_ERROR).

(** ** The elements of the lists *)

Definition elems_find (es : list tp) (topic : string) (partition : Z) : option nat :=
  rd_kafka_topic_partition_list_find (mk_tpl es 0) topic partition.

(** [rd_kafka_topic_partition_list_del] *)
Definition elems_del (es : list tp) (topic : string) (partition : Z) : list tp * bool :=
  match elems_find es topic partition with
  | None => (es, false)
  | Some i => (take i es ++ drop (S i) es, true)
  end.

(** [rd_kafka_topic_partition_list_add_copy] and [_add_list] *)
Definition elems_add_copy (es : list tp) (e : tp) : list tp := es ++ [tp_copy e].
Definition elems_add_list (dst src : list tp) : list tp := dst ++ map tp_copy src.

(** ** Pausing *)

(** [rd_kafka_toppar_op_pause_resume] with the library's flag, for every partition; the
    partitions with their objects and [err]s. *)
Fixpoint rd_kafka_toppars_pause_resume (c : consumer) (pause : bool) (es : list tp)
  : consumer * list tp :=
  match es with
  | [] => (c, [])
  | e :: es =>
      let '(ts, e) := rd_kafka_topic_partition_ensure_toppar (c_toppars c) e false in
      let c := c_set_toppars c ts in
      let '(c, e) := match rktpar_private e with
                     | None => (c, tp_set_err e RD_KAFKA_RESP_ERR__UNKNOWN_PARTITION)
                     | Some i => (c_emit c (EvPauseResume i pause),
                                  tp_set_err e RD_KAFKA_RESP_ERR_NO_ERROR)
                     end in
      let '(c, es) := rd_kafka_toppars_pause_resume c pause es in
      (c, e :: es)
  end.

Definition assignment_pause_resume (c : consumer) (pause : bool) : consumer :=
  let '(c, all) := rd_kafka_toppars_pause_resume c pause (asg_all (c_asg c)) in
  c_map_asg c (fun a => asg_set_all a all).

Definition rd_kafka_assignment_pause (c : consumer) : consumer :=
  if zlen (asg_all (c_asg c)) =? 0 then c else assignment_pause_resume c true.

Definition rd_kafka_assignment_resume (c : consumer) : consumer :=
  if zlen (asg_all (c_asg c)) =? 0 then c else assignment_pause_resume c false.

(** ** Committing offsets *)

(** Sets what is set on the op, and enqueues it on [rkcg_wait_coord_q]; false if that
    queue is out of use or the op has been deferred before. *)
Definition rd_kafka_cgrp_defer_offset_commit (env : group_env) (rko : commit_op)
  : option commit_op :=
  if co_timeout rko || negb (ge_wait_coord_q env) then None
  else Some (mk_commit (co_partitions rko) (co_silent_empty rko) true true).

Definition co_set_partitions (rko : commit_op) (ps : option (list tp)) : commit_op :=
  mk_commit ps (co_silent_empty rko) (co_reprocess rko) (co_timeout rko).

Definition rd_kafka_topic_partition_has_absolute_offset (e : tp) : Z :=
  if rktpar_offset e >=? 0 then 1 else 0.

(** The stored and committed offsets of the partition objects. *)
Definition c_offsets (ts : list rd_kafka_toppar) : toppar_offsets := fun i =>
  match ts !! i with
  | Some t => (rktp_stored_offset t, rktp_committed_offset t)
  | None => (0, 0)
  end.

(** Where the op is sent: deferred, to the coordinator, or back with an error. *)
Definition offsets_commit_dest (env : group_env) (rko : commit_op) (valid_offsets : Z)
  : commit_op * commit_at :=
  if ge_fatal env then (rko, AtSelf RD_KAFKA_RESP_ERR__FATAL)
  else if valid_offsets =? 0 then (rko, AtSelf RD_KAFKA_RESP_ERR__NO_OFFSET)
  else if negb (ge_up env) then
    match rd_kafka_cgrp_defer_offset_commit env rko with
    | Some rko => (rko, AtWaitCoord)
    | None => (rko, AtSelf RD_KAFKA_RESP_ERR__WAIT_COORD)
    end
  else (rko, AtCoord).

Definition rd_kafka_cgrp_offsets_commit (c : consumer) (env : group_env) (rko : commit_op)
  (set_offsets : bool) : option consumer :=
  let wait_commit_cnt := if co_reprocess rko then c_wait_commit_cnt c
                         else c_wait_commit_cnt c + 1 in
  let sent rko at_ := c_set_commits c wait_commit_cnt (c_commits c ++ [(rko, at_)]) in
  let use_current := match co_partitions rko with
                     | None => zlen (asg_all (c_asg c)) >? 0
                     | Some _ => false
                     end in
  if use_current && c_lost c then Some (sent rko (AtSelf RD_KAFKA_RESP_ERR__ASSIGNMENT_LOST))
  else
    let rko := if use_current then co_set_partitions rko (Some (map tp_copy (asg_all (c_asg c))))
               else rko in
    match co_partitions rko with
    | None => let '(rko, at_) := offsets_commit_dest env rko 0 in Some (sent rko at_)
    | Some offsets =>
        let* offsets :=
          if set_offsets then
            let* (offsets, _) := set_offsets_loop (c_offsets (c_toppars c)) true
                                   RD_KAFKA_OFFSET_INVALID offsets 0 in
            Some offsets
          else Some offsets in
        let valid_offsets := i32 (rd_kafka_topic_partition_list_sum (mk_tpl offsets 0)
                                    rd_kafka_topic_partition_has_absolute_offset) in
        let '(rko, at_) := offsets_commit_dest env (co_set_partitions rko (Some offsets))
                             valid_offsets in
        Some (sent rko at_)
    end.

Definition rd_kafka_cgrp_assigned_offsets_commit (c : consumer) (env : group_env)
  (offsets : option (list tp)) (set_offsets : bool) : option consumer :=
  if c_lost c then Some c
  else
    let partitions := map tp_copy <$> offsets in
    rd_kafka_cgrp_offsets_commit c env (mk_commit partitions true false false) set_offsets.

(** ** Serving the assignment *)

(** An iteration of the loop of [rd_kafka_assignment_serve_removals]; [e] is left with
    the offset to commit. *)
Definition serve_removal (c : consumer) (e : tp) : option (consumer * tp) :=
  let a := c_asg c in
  let '(pending, _) := elems_del (asg_pending a) (rktpar_topic e) (rktpar_partition e) in
  let '(queried, _) := elems_del (asg_queried a) (rktpar_topic e) (rktpar_partition e) in
  let c := c_set_asg c (asg_set_queried (asg_set_pending a pending) queried) in
  let* i := rktpar_private e in
  let* rktp := c_toppars c !! i in
  let* c :=
    if rktp_started rktp then
      let* _ := rd_assert (asg_started_cnt (c_asg c) >? 0) in
      let c := c_emit (c_set_stops c (c_stops c ++ [i])) (EvFetchStop i) in
      Some (c_map_asg c (fun a => asg_set_wait_stop_cnt a (asg_wait_stop_cnt a + 1)))
    else Some c in
  let c := c_emit c (EvPauseResume i false) in
  let e := tp_set_offset e (rktp_stored_offset rktp) in
  let '(rktp, _) := rd_kafka_offset_store0 rktp RD_KAFKA_OFFSET_INVALID true false in
  let '(rktp, leave) := rd_kafka_toppar_desired_del rktp in
  let c := if leave then c_emit c (EvLeaveForRemove i) else c in
  let* _ := rd_assert (rktp_assigned rktp) in
  let c := c_set_toppars c (<[i := toppar_set_assigned rktp false]> (c_toppars c)) in
  Some (c, e).

Fixpoint serve_removals_loop (c : consumer) (es : list tp) (valid_offsets : Z)
  : option (consumer * list tp * Z) :=
  match es with
  | [] => Some (c, [], valid_offsets)
  | e :: es =>
      let* (c, e) := serve_removal c e in
      let valid_offsets := valid_offsets
                           + (if RD_KAFKA_OFFSET_IS_LOGICAL (rktpar_offset e) then 0 else 1) in
      let* (c, es, valid_offsets) := serve_removals_loop c es valid_offsets in
      Some (c, e :: es, valid_offsets)
  end.

Definition rd_kafka_assignment_serve_removals (c : consumer) (env : group_env)
  : option (consumer * Z) :=
  let* (c, removed, valid_offsets) := serve_removals_loop c (asg_removed (c_asg c)) 0 in
  let* c :=
    if (valid_offsets >? 0) && ge_store_broker env && ge_auto_commit env
       && negb (ge_no_close env)
    then rd_kafka_cgrp_assigned_offsets_commit c env (Some removed) false
    else Some c in
  let c := c_map_asg c (fun a => asg_set_removed a []) in
  Some (c, asg_wait_stop_cnt (c_asg c) + c_wait_commit_cnt c).

(** The offsets from which the partition fetcher can start by itself. *)
Definition offset_startable (offset : Z) : bool :=
  negb (RD_KAFKA_OFFSET_IS_LOGICAL offset) || (offset =? RD_KAFKA_OFFSET_BEGINNING)
  || (offset =? RD_KAFKA_OFFSET_END) || (offset =? RD_KAFKA_OFFSET_INVALID)
  || (offset <=? RD_KAFKA_OFFSET_TAIL_BASE).

(** An iteration of the loop of [rd_kafka_assignment_serve_pending], for the element at
    [i]. *)
Definition serve_pending_step (c : consumer) (can_query_offsets : bool) (to_query : list tp)
  (i : nat) : option (consumer * list tp) :=
  let* e := asg_pending (c_asg c) !! i in
  let* p := rktpar_private e in
  let* rktp := c_toppars c !! p in
  let* _ := rd_assert (negb (rktp_started rktp)) in
  let del c :=
    c_map_asg c (fun a => asg_set_pending a (take i (asg_pending a) ++ drop (S i) (asg_pending a))) in
  if offset_startable (rktpar_offset e) then
    let c := c_emit c (EvPauseResume p false) in
    let c := c_set_toppars c (<[p := toppar_set_started rktp true]> (c_toppars c)) in
    let c := c_map_asg c (fun a => asg_set_started_cnt a (asg_started_cnt a + 1)) in
    let c := c_emit c (EvFetchStart p (rktpar_offset e)) in
    Some (del c, to_query)
  else if can_query_offsets then
    let c := c_map_asg c (fun a => asg_set_queried a (elems_add_copy (asg_queried a) e)) in
    Some (del c, elems_add_copy to_query e)
  else Some (c, to_query).

(** Backwards, from the element before [n]. *)
Fixpoint serve_pending_loop (c : consumer) (can_query_offsets : bool) (to_query : list tp)
  (n : nat) : option (consumer * list tp) :=
  match n with
  | O => Some (c, to_query)
  | S i =>
      let* (c, to_query) := serve_pending_step c can_query_offsets to_query i in
      serve_pending_loop c can_query_offsets to_query i
  end.

Definition rd_kafka_assignment_serve_pending (c : consumer) (env : group_env)
  : option (consumer * Z) :=
  let can_query_offsets := ge_coord env && (c_wait_commit_cnt c =? 0)
                           && (zlen (asg_queried (c_asg c)) =? 0) in
  let* (c, to_query) :=
    serve_pending_loop c can_query_offsets [] (length (asg_pending (c_asg c))) in
  let c :=
    if negb can_query_offsets then c
    else if zlen to_query >? 0
    then c_set_fetches c (c_fetches c ++ [(asg_version (c_asg c), to_query)])
    else c in
  Some (c, zlen (asg_pending (c_asg c)) + zlen (asg_queried (c_asg c))).

(** [rd_kafka_cgrp_assignment_done] is left to the group. *)
Definition rd_kafka_assignment_serve (c : consumer) (env : group_env) : option consumer :=
  let* (c, inp_removals) :=
    if zlen (asg_removed (c_asg c)) >? 0 then rd_kafka_assignment_serve_removals c env
    else Some (c, 0) in
  let* (c, inp_pending) :=
    if (asg_wait_stop_cnt (c_asg c) =? 0) && (c_wait_commit_cnt c =? 0)
       && (inp_removals =? 0) && (zlen (asg_pending (c_asg c)) >? 0)
    then rd_kafka_assignment_serve_pending c env
    else Some (c, 0) in
  Some (if inp_removals + inp_pending + zlen (asg_queried (c_asg c))
           + asg_wait_stop_cnt (c_asg c) + c_wait_commit_cnt c =? 0
        then c_emit c EvAssignmentDone else c).

Definition rd_kafka_assignment_in_progress (c : consumer) : bool :=
  (c_wait_commit_cnt c >? 0) || (asg_wait_stop_cnt (c_asg c) >? 0)
  || (zlen (asg_pending (c_asg c)) >? 0) || (zlen (asg_queried (c_asg c)) >? 0)
  || (zlen (asg_removed (c_asg c)) >? 0).

(** ** Changing the assignment *)

Definition rd_kafka_assignment_clear (c : consumer) : consumer * Z :=
  let cnt := zlen (asg_all (c_asg c)) in
  if cnt =? 0 then (c, 0)
  else
    let c := c_map_asg c (fun a => asg_set_queried (asg_set_pending a []) []) in
    let c := c_map_asg c (fun a =>
               asg_set_all (asg_set_removed a (elems_add_list (asg_removed a) (asg_all a))) []) in
    (c_bump_version c, cnt).

Definition start_offset_invalid (offset : Z) : bool :=
  RD_KAFKA_OFFSET_IS_LOGICAL offset && negb (offset =? RD_KAFKA_OFFSET_BEGINNING)
  && negb (offset =? RD_KAFKA_OFFSET_END) && negb (offset =? RD_KAFKA_OFFSET_STORED)
  && negb (offset =? RD_KAFKA_OFFSET_INVALID) && (offset >? RD_KAFKA_OFFSET_TAIL_BASE).

(** The first loop of [rd_kafka_assignment_add]: the partition objects and the
    partitions so far, and the code of the error, 0 for none. *)
Fixpoint add_check_loop (ts : list rd_kafka_toppar) (all : list tp) (prev : option tp)
  (es : list tp) : list rd_kafka_toppar * list tp * Z :=
  match es with
  | [] => (ts, [], 0)
  | e :: es =>
      if start_offset_invalid (rktpar_offset e)
      then (ts, e :: es, RD_KAFKA_RESP_ERR__INVALID_ARG)
      else if match prev with
              | Some prev => rd_kafka_topic_partition_cmp e prev =? 0
              | None => false
              end
      then (ts, e :: es, RD_KAFKA_RESP_ERR__INVALID_ARG)
      else if match elems_find all (rktpar_topic e) (rktpar_partition e) with
              | Some _ => true
              | None => false
              end
      then (ts, e :: es, RD_KAFKA_RESP_ERR__CONFLICT)
      else
        let e := if rktpar_offset e =? RD_KAFKA_OFFSET_INVALID
                 then tp_set_offset e RD_KAFKA_OFFSET_STORED else e in
        let '(ts, e) := rd_kafka_topic_partition_ensure_toppar ts e true in
        let '(ts, es, err) := add_check_loop ts all (Some e) es in
        (ts, e :: es, err)
  end.

(** The second loop. *)
Fixpoint add_mark_loop (ts : list rd_kafka_toppar) (es : list tp)
  : option (list rd_kafka_toppar * list tp) :=
  match es with
  | [] => Some (ts, [])
  | e :: es =>
      let '(ts, e) := rd_kafka_topic_partition_ensure_toppar ts e true in
      let* i := rktpar_private e in
      let* rktp := ts !! i in
      let* _ := rd_assert (negb (rktp_assigned rktp)) in
      let rktp := toppar_set_assigned rktp true in
      let '(rktp, _) := rd_kafka_offset_store0 rktp RD_KAFKA_OFFSET_INVALID true false in
      let* (ts, es) := add_mark_loop (<[i := rktp]> ts) es in
      Some (ts, e :: es)
  end.

Section Sorting.
Context (qsort : forall A, (A -> A -> Z) -> list A -> list A).

(** [rd_kafka_topic_partition_list_sort] without a comparator. *)
Definition elems_sort (es : list tp) : list tp :=
  rktpl_elems (rd_kafka_topic_partition_list_sort qsort (mk_tpl es 0) None).

(** The error's code, 0 for NULL. *)
Definition rd_kafka_assignment_add (c : consumer) (partitions : list tp)
  : option (consumer * Z) :=
  let was_empty := zlen (asg_all (c_asg c)) =? 0 in
  let '(ts, partitions, err) :=
    add_check_loop (c_toppars c) (asg_all (c_asg c)) None (elems_sort partitions) in
  let c := c_set_toppars c ts in
  if negb (err =? 0) then Some (c, err)
  else
    let* (ts, partitions) := add_mark_loop (c_toppars c) partitions in
    let c := c_set_toppars c ts in
    let c := c_map_asg c (fun a => asg_set_all a (elems_add_list (asg_all a) partitions)) in
    let c := if negb was_empty
             then c_map_asg c (fun a => asg_set_all a (elems_sort (asg_all a)))
             else c in
    let c := c_map_asg c (fun a => asg_set_pending a (elems_add_list (asg_pending a) partitions)) in
    Some (c_bump_version c, 0).

(** The check loop of [rd_kafka_assignment_subtract]. *)
Fixpoint subtract_check_loop (ts : list rd_kafka_toppar) (all es : list tp)
  : list rd_kafka_toppar * list tp * Z :=
  match es with
  | [] => (ts, [], 0)
  | e :: es =>
      match elems_find all (rktpar_topic e) (rktpar_partition e) with
      | None => (ts, e :: es, RD_KAFKA_RESP_ERR__INVALID_ARG)
      | Some _ =>
          let '(ts, e) := rd_kafka_topic_partition_ensure_toppar ts e true in
          let '(ts, es, err) := subtract_check_loop ts all es in
          (ts, e :: es, err)
      end
  end.

(** An iteration of the loop that removes; [RD_BUG] if the partition is gone. *)
Definition subtract_step (a : rd_kafka_assignment) (e : tp) : option rd_kafka_assignment :=
  let '(all, r) := elems_del (asg_all a) (rktpar_topic e) (rktpar_partition e) in
  let* _ := rd_assert r in
  let a := asg_set_all a all in
  let '(queried, r) := elems_del (asg_queried a) (rktpar_topic e) (rktpar_partition e) in
  let a := asg_set_queried a queried in
  let a := if r then a
           else let '(pending, _) := elems_del (asg_pending a) (rktpar_topic e) (rktpar_partition e) in
                asg_set_pending a pending in
  Some (asg_set_removed a (elems_add_copy (asg_removed a) e)).

Fixpoint subtract_loop (a : rd_kafka_assignment) (es : list tp) : option rd_kafka_assignment :=
  match es with
  | [] => Some a
  | e :: es => let* a := subtract_step a e in subtract_loop a es
  end.

Definition rd_kafka_assignment_subtract (c : consumer) (partitions : list tp)
  : option (consumer * Z) :=
  if (zlen (asg_all (c_asg c)) =? 0) && (zlen partitions >? 0)
  then Some (c, RD_KAFKA_RESP_ERR__INVALID_ARG)
  else
    let '(ts, partitions, err) :=
      subtract_check_loop (c_toppars c) (asg_all (c_asg c)) (elems_sort partitions) in
    let c := c_set_toppars c ts in
    if negb (err =? 0) then Some (c, err)
    else
      let* a := subtract_loop (c_asg c) (rev partitions) in
      let* _ :=
        if zlen (asg_all a) =? 0
        then rd_assert ((zlen (asg_pending a) =? 0) && (zlen (asg_queried a) =? 0))
        else Some tt in
      Some (c_bump_version (c_set_asg c a), 0).

(** ** Answers *)

(** The FETCH_STOP op of the object has been answered: [c_stops] no longer has it. *)
Definition rd_kafka_assignment_partition_stopped (c : consumer) (env : group_env) (rktp : nat)
  : option consumer :=
  let* _ := rd_assert (asg_wait_stop_cnt (c_asg c) >? 0) in
  let c := c_map_asg c (fun a => asg_set_wait_stop_cnt a (asg_wait_stop_cnt a - 1)) in
  let* t := c_toppars c !! rktp in
  let* _ := rd_assert (rktp_started t) in
  let c := c_set_toppars c (<[rktp := toppar_set_started t false]> (c_toppars c)) in
  let* _ := rd_assert (asg_started_cnt (c_asg c) >? 0) in
  let c := c_map_asg c (fun a => asg_set_started_cnt a (asg_started_cnt a - 1)) in
  if asg_wait_stop_cnt (c_asg c) =? 0 then rd_kafka_assignment_serve c env else Some c.

(** An iteration of the loop of [rd_kafka_assignment_apply_offsets]. *)
Definition apply_offset (c : consumer) (err : Z) (e : tp) : consumer :=
  let '(queried, r) := elems_del (asg_queried (c_asg c)) (rktpar_topic e) (rktpar_partition e) in
  if negb r then c
  else
    let c := c_map_asg c (fun a => asg_set_queried a queried) in
    let add_pending c :=
      c_map_asg c (fun a => asg_set_pending a (elems_add_copy (asg_pending a) e)) in
    if (err =? RD_KAFKA_RESP_ERR_UNSTABLE_OFFSET_COMMIT)
       || (rktpar_err e =? RD_KAFKA_RESP_ERR_UNSTABLE_OFFSET_COMMIT)
    then add_pending c
    else if negb (rktpar_err e =? 0)
    then c_emit c (EvConsumerErr (rktpar_err e) (Some (rktpar_topic e, rktpar_partition e)))
    else if err =? 0 then add_pending c
    else c.

Definition rd_kafka_assignment_apply_offsets (c : consumer) (env : group_env)
  (offsets : list tp) (err : Z) : option consumer :=
  let c := foldl (fun c e => apply_offset c err e) c offsets in
  if zlen offsets >? 0 then rd_kafka_assignment_serve c env else Some c.

(** A partition of an OffsetFetch response, and the response as far as it can be read:
    its partitions and the error at its end, of the response ([ErrorCode]) or of
    reading it. *)
Record fetch_part := mk_fpart {
  fp_topic : string; fp_partition : Z; fp_offset : Z; fp_err : Z; fp_metadata : option bytes }.
Record fetch_resp := mk_fresp { fr_parts : list fetch_part; fr_err : Z }.

(** An iteration of the loops of [rd_kafka_handle_OffsetFetch], with [update_toppar] and
    [add_part]. *)
Definition fetch_resp_part (ts : list rd_kafka_toppar) (offsets : list tp) (p : fetch_part)
  : option (list rd_kafka_toppar * list tp) :=
  let '(offsets, i) :=
    match elems_find offsets (fp_topic p) (fp_partition p) with
    | Some i => (offsets, i)
    | None => (offsets ++ [mk_tp (fp_topic p) (fp_partition p) RD_KAFKA_OFFSET_INVALID None 0 0 0 None],
               length offsets)
    end in
  let* e := offsets !! i in
  let '(ts, e) := rd_kafka_topic_partition_ensure_toppar ts e false in
  let offset := if fp_offset p =? -1 then RD_KAFKA_OFFSET_INVALID else fp_offset p in
  let e := mk_tp (rktpar_topic e) (rktpar_partition e) offset (fp_metadata p)
             (match fp_metadata p with Some md => zlen md | None => 0 end)
             (rktpar_opaque e) (fp_err p) (rktpar_private e) in
  let ts := match rktpar_private e with
            | Some t => if fp_err p =? 0
                        then alter (fun rktp => toppar_set_committed rktp offset) t ts else ts
            | None => ts
            end in
  Some (ts, <[i := e]> offsets).

Fixpoint fetch_resp_parts (ts : list rd_kafka_toppar) (offsets : list tp) (ps : list fetch_part)
  : option (list rd_kafka_toppar * list tp) :=
  match ps with
  | [] => Some (ts, offsets)
  | p :: ps => let* (ts, offsets) := fetch_resp_part ts offsets p in fetch_resp_parts ts offsets ps
  end.

(** The bits of [rd_kafka_err_action]; the message bits are masked out for requests
    other than Produce. *)
Definition RD_KAFKA_ERR_ACTION_PERMANENT : Z := 0x1.
Definition RD_KAFKA_ERR_ACTION_IGNORE : Z := 0x2.
Definition RD_KAFKA_ERR_ACTION_REFRESH : Z := 0x4.
Definition RD_KAFKA_ERR_ACTION_RETRY : Z := 0x8.
Definition RD_KAFKA_ERR_ACTION_INFORM : Z := 0x10.
Definition RD_KAFKA_ERR_ACTION_SPECIAL : Z := 0x20.
Definition RD_KAFKA_ERR_ACTION_FATAL : Z := 0x200.
Definition has_action (actions bit : Z) : bool := negb (Z.land actions bit =? 0).

(** The default matching; LEADER_NOT_AVAILABLE, NOT_LEADER_FOR_PARTITION,
    BROKER_NOT_AVAILABLE and REPLICA_NOT_AVAILABLE are 5, 6, 8 and 9. *)
Definition err_action_default (err : Z) : Z :=
  if err =? 0 then 0
  else if (err =? 5) || (err =? 6) || (err =? 8) || (err =? 9)
       || (err =? RD_KAFKA_RESP_ERR_COORDINATOR_NOT_AVAILABLE)
       || (err =? RD_KAFKA_RESP_ERR_NOT_COORDINATOR) || (err =? RD_KAFKA_RESP_ERR__WAIT_COORD)
  then RD_KAFKA_ERR_ACTION_REFRESH
  else if err =? RD_KAFKA_RESP_ERR_KAFKA_STORAGE_ERROR
  then Z.lor RD_KAFKA_ERR_ACTION_REFRESH RD_KAFKA_ERR_ACTION_RETRY
  else if (err =? RD_KAFKA_RESP_ERR__TRANSPORT) || (err =? RD_KAFKA_RESP_ERR__TIMED_OUT)
       || (err =? RD_KAFKA_RESP_ERR_REQUEST_TIMED_OUT)
       || (err =? RD_KAFKA_RESP_ERR_NOT_ENOUGH_REPLICAS_AFTER_APPEND)
       || (err =? RD_KAFKA_RESP_ERR_NOT_ENOUGH_REPLICAS)
       || (err =? RD_KAFKA_RESP_ERR__TIMED_OUT_QUEUE)
  then RD_KAFKA_ERR_ACTION_RETRY
  else RD_KAFKA_ERR_ACTION_PERMANENT.

(** The explicit actions come first; [request] is not NULL. *)
Definition rd_kafka_err_action (err : Z) (request : bool) (explicit : list (Z * Z)) : Z :=
  if err =? 0 then 0
  else
    let actions := foldl (fun actions '(exp_act, exp_err) =>
                     if err =? exp_err then Z.lor actions exp_act else actions) 0 explicit in
    if negb (actions =? 0) then actions
    else
      let actions := err_action_default err in
      let actions := if has_action actions (Z.lor RD_KAFKA_ERR_ACTION_FATAL RD_KAFKA_ERR_ACTION_PERMANENT)
                     then Z.ldiff actions RD_KAFKA_ERR_ACTION_RETRY else actions in
      if negb request then Z.ldiff actions RD_KAFKA_ERR_ACTION_RETRY else actions.

(** [*offsets] is NULL.  [buf_retry] is what [rd_kafka_buf_retry] returns.  Returns the
    list, NULL if the response has not been read, and the error. *)
Definition rd_kafka_handle_OffsetFetch (c : consumer) (err : Z) (resp : fetch_resp)
  (allow_retry buf_retry : bool) : option (consumer * option (list tp) * Z) :=
  let* (c, offsets, err) :=
    if negb (err =? 0) then Some (c, None, err)
    else
      let* (ts, offsets) := fetch_resp_parts (c_toppars c) [] (fr_parts resp) in
      Some (c_set_toppars c ts, Some offsets, fr_err resp) in
  let retry_unstable :=
    existsb (fun p => fp_err p =? RD_KAFKA_RESP_ERR_UNSTABLE_OFFSET_COMMIT) (fr_parts resp) in
  let actions := rd_kafka_err_action err true [] in
  let c := if has_action actions RD_KAFKA_ERR_ACTION_REFRESH
           then c_emit c (EvCoordQuery err) else c in
  if (has_action actions RD_KAFKA_ERR_ACTION_RETRY
      || match offsets with Some _ => retry_unstable | None => false end)
     && allow_retry && buf_retry
  then Some (c, offsets, RD_KAFKA_RESP_ERR__IN_PROGRESS)
  else Some (c, offsets, err).

(** [err], [resp]: the answer to the [k]th outstanding request, which stays outstanding
    when it is retried.  The [offsets->cnt] of the error's message is a NULL dereference
    without [offsets]. *)
Definition rd_kafka_assignment_handle_OffsetFetch (c : consumer) (env : group_env) (k : nat)
  (err : Z) (resp : fetch_resp) (buf_retry : bool) : option consumer :=
  let* (version, _) := c_fetches c !! k in
  let allow_retry := version =? asg_version (c_asg c) in
  let answered c := c_set_fetches c (take k (c_fetches c) ++ drop (S k) (c_fetches c)) in
  if err =? RD_KAFKA_RESP_ERR__DESTROY then Some (answered c)
  else
    let* (c, offsets, err) := rd_kafka_handle_OffsetFetch c err resp allow_retry buf_retry in
    if err =? RD_KAFKA_RESP_ERR__IN_PROGRESS then Some c
    else
      let c := answered c in
      match offsets with
      | None =>
          if negb allow_retry then
            let err := if err =? 0 then RD_KAFKA_RESP_ERR__NO_OFFSET else err in
            Some (c_emit c (EvConsumerErr err None))
          else None
      | Some offsets =>
          let c := if negb (err =? 0) then c_emit c (EvConsumerErr err None) else c in
          rd_kafka_assignment_apply_offsets c env offsets err
      end.

(** ** The group's operations *)

Definition rd_kafka_cgrp_assignment_clear_lost (c : consumer) : consumer := c_set_lost c false.

Definition rd_kafka_cgrp_incremental_assign (c : consumer) (partitions : list tp)
  : option (consumer * Z) :=
  let* (c, err) := rd_kafka_assignment_add c partitions in
  if negb (err =? 0) then Some (c, err)
  else
    let c := if decide (c_join_state c = JOIN_STATE_WAIT_ASSIGN_CALL)
             then c_set_join_state (rd_kafka_assignment_resume c) JOIN_STATE_STEADY
             else c in
    Some (rd_kafka_cgrp_assignment_clear_lost c, 0).

Definition rd_kafka_cgrp_incremental_unassign (c : consumer) (partitions : list tp)
  : option (consumer * Z) :=
  let* (c, err) := rd_kafka_assignment_subtract c partitions in
  if negb (err =? 0) then Some (c, err)
  else
    let c := if decide (c_join_state c = JOIN_STATE_WAIT_UNASSIGN_CALL)
             then c_set_join_state (rd_kafka_assignment_resume c)
                    JOIN_STATE_WAIT_INCR_UNASSIGN_TO_COMPLETE
             else c in
    Some (rd_kafka_cgrp_assignment_clear_lost c, 0).

Definition rd_kafka_cgrp_unassign (c : consumer) : consumer :=
  let '(c, _) := rd_kafka_assignment_clear c in
  let c := if decide (c_join_state c = JOIN_STATE_WAIT_UNASSIGN_CALL)
           then c_set_join_state (rd_kafka_assignment_resume c)
                  JOIN_STATE_WAIT_UNASSIGN_TO_COMPLETE
           else c in
  rd_kafka_cgrp_assignment_clear_lost c.

Definition rd_kafka_cgrp_assign (c : consumer) (env : group_env) (assignment : list tp)
  : option (consumer * Z) :=
  let '(c, cnt) := rd_kafka_assignment_clear c in
  let* c := if negb (cnt =? 0) then rd_kafka_assignment_serve c env else Some c in
  let* (c, err) := rd_kafka_assignment_add c assignment in
  if negb (err =? 0) then Some (c, err)
  else
    let c := rd_kafka_cgrp_assignment_clear_lost c in
    let c := if decide (c_join_state c = JOIN_STATE_WAIT_ASSIGN_CALL)
             then c_set_join_state (rd_kafka_assignment_resume c) JOIN_STATE_STEADY
             else c in
    Some (c, 0).

Inductive assign_method := METHOD_ASSIGN | METHOD_INCR_ASSIGN | METHOD_INCR_UNASSIGN.
Inductive rebalance_protocol := PROTOCOL_NONE | PROTOCOL_EAGER | PROTOCOL_COOPERATIVE.

(** The partitions of an incremental method are not NULL, which the API checks. *)
Definition assign_op_call (c : consumer) (env : group_env) (method : assign_method)
  (partitions : option (list tp)) : option (consumer * Z) :=
  match method with
  | METHOD_ASSIGN =>
      match partitions with
      | Some ps => rd_kafka_cgrp_assign c env ps
      | None => Some (rd_kafka_cgrp_unassign c, 0)
      end
  | METHOD_INCR_ASSIGN => let* ps := partitions in rd_kafka_cgrp_incremental_assign c ps
  | METHOD_INCR_UNASSIGN => let* ps := partitions in rd_kafka_cgrp_incremental_unassign c ps
  end.

(** The code replied. *)
Definition rd_kafka_cgrp_handle_assign_op (c : consumer) (env : group_env)
  (protocol : rebalance_protocol) (terminating : bool) (method : assign_method)
  (partitions : option (list tp)) : option (consumer * Z) :=
  let '(method, partitions, err) :=
    if ge_fatal env || terminating then (METHOD_ASSIGN, None, 0)
    else
      match protocol, method with
      | PROTOCOL_COOPERATIVE, METHOD_ASSIGN => (method, partitions, RD_KAFKA_RESP_ERR__STATE)
      | PROTOCOL_EAGER, METHOD_INCR_ASSIGN
      | PROTOCOL_EAGER, METHOD_INCR_UNASSIGN => (method, partitions, RD_KAFKA_RESP_ERR__STATE)
      | _, _ => (method, partitions, 0)
      end in
  if negb (err =? 0) then Some (c, err)
  else
    let* (c, err) := assign_op_call c env method partitions in
    if negb (err =? 0) then Some (c, err)
    else let* c := rd_kafka_assignment_serve c env in Some (c, 0).

End Sorting.

(** The answer to an OffsetCommit request: its partitions and their errors, and the
    error of reading it, 0 for none. *)
Record commit_resp := mk_cresp { cr_parts : list (string * Z * Z); cr_err : Z }.

(** [rd_kafka_handle_OffsetCommit_error] *)
Definition offset_commit_actions : list (Z * Z) :=
  [(RD_KAFKA_ERR_ACTION_PERMANENT, 30); (RD_KAFKA_ERR_ACTION_PERMANENT, 29);
   (RD_KAFKA_ERR_ACTION_PERMANENT, 12); (RD_KAFKA_ERR_ACTION_PERMANENT, 28);
   (RD_KAFKA_ERR_ACTION_RETRY, 14); (RD_KAFKA_ERR_ACTION_RETRY, 3);
   (0x2c, RD_KAFKA_RESP_ERR_COORDINATOR_NOT_AVAILABLE);
   (0x2c, RD_KAFKA_RESP_ERR_NOT_COORDINATOR);
   (0xc, RD_KAFKA_RESP_ERR_REQUEST_TIMED_OUT); (0x201, 82);
   (RD_KAFKA_ERR_ACTION_PERMANENT, 27);
   (RD_KAFKA_ERR_ACTION_PERMANENT, RD_KAFKA_RESP_ERR_UNKNOWN_MEMBER_ID);
   (RD_KAFKA_ERR_ACTION_PERMANENT, RD_KAFKA_RESP_ERR_ILLEGAL_GENERATION)].

(** The loops of [rd_kafka_handle_OffsetCommit]: the offsets with their errors, [err],
    [errcnt], [partcnt] and [actions]. *)
Fixpoint offset_commit_parts (offsets : list tp) (ps : list (string * Z * Z))
  (err errcnt partcnt actions : Z) : list tp * Z * Z * Z * Z :=
  match ps with
  | [] => (offsets, err, errcnt, partcnt, actions)
  | (topic, partition, ErrorCode) :: ps =>
      match elems_find offsets topic partition with
      | None => offset_commit_parts offsets ps err errcnt partcnt actions
      | Some i =>
          let offsets := alter (fun e => tp_set_err e ErrorCode) i offsets in
          if ErrorCode =? 0
          then offset_commit_parts offsets ps err errcnt (partcnt + 1) actions
          else offset_commit_parts offsets ps ErrorCode (errcnt + 1) (partcnt + 1)
                 (Z.lor actions (rd_kafka_err_action ErrorCode true offset_commit_actions))
      end
  end.

(** [request] is NULL for an error of the group's own.  The result's error, with what
    the group is told to do about the coordinator. *)
Definition rd_kafka_handle_OffsetCommit (c : consumer) (err : Z) (request : bool)
  (resp : commit_resp) (offsets : option (list tp)) (buf_retry : bool)
  : option (consumer * option (list tp) * Z) :=
  let* (offsets, err, actions, at_err) :=
    if negb (err =? 0) then Some (offsets, err, 0, true)
    else
      let* os := offsets in
      let '(os, err, errcnt, partcnt, actions) := offset_commit_parts os (cr_parts resp) 0 0 0 0 in
      if negb (cr_err resp =? 0) then Some (Some os, cr_err resp, actions, true)
      else Some (Some os, err, actions, negb (err =? 0) && (errcnt =? partcnt)) in
  if negb at_err then Some (c, offsets, err)
  else
    let actions := if actions =? 0
                   then rd_kafka_err_action err request [(0x2c, RD_KAFKA_RESP_ERR__TRANSPORT)]
                   else actions in
    if has_action actions RD_KAFKA_ERR_ACTION_FATAL then Some (c, offsets, err)
    else
      let c := if has_action actions RD_KAFKA_ERR_ACTION_REFRESH
               then c_emit c (EvCoordQuery err) else c in
      if has_action actions RD_KAFKA_ERR_ACTION_RETRY
         && negb (has_action actions RD_KAFKA_ERR_ACTION_PERMANENT) && buf_retry
      then Some (c, offsets, RD_KAFKA_RESP_ERR__IN_PROGRESS)
      else Some (c, offsets, err).

(** The partition objects, the offsets with their errors, and [errcnt]. *)
Fixpoint rd_kafka_cgrp_update_committed_offsets (ts : list rd_kafka_toppar) (err : Z)
  (offsets : list tp) (errcnt : Z) : list rd_kafka_toppar * Z :=
  match offsets with
  | [] => (ts, errcnt)
  | e :: offsets =>
      if RD_KAFKA_OFFSET_IS_LOGICAL (rktpar_offset e)
      then rd_kafka_cgrp_update_committed_offsets ts err offsets errcnt
      else
        let e := if negb (err =? 0) && (rktpar_err e =? 0) then tp_set_err e err else e in
        if negb (rktpar_err e =? 0)
        then rd_kafka_cgrp_update_committed_offsets ts err offsets (errcnt + 1)
        else
          let '(ts, e) := rd_kafka_topic_partition_ensure_toppar ts e false in
          let ts := match rktpar_private e with
                    | None => ts
                    | Some i => alter (fun t => toppar_set_committed t (rktpar_offset e)) i ts
                    end in
          rd_kafka_cgrp_update_committed_offsets ts err offsets errcnt
  end.

(** The part of [rd_kafka_cgrp_op_handle_OffsetCommit] after the error switch. *)
Definition offset_commit_done (c : consumer) (env : group_env) (err : Z) (rko : commit_op)
  (offsets : option (list tp)) : option consumer :=
  let* _ := rd_assert (c_wait_commit_cnt c >? 0) in
  let c := c_set_commits c (c_wait_commit_cnt c - 1) (c_commits c) in
  if err =? RD_KAFKA_RESP_ERR__DESTROY then Some c
  else
    let '(ts, errcnt) :=
      match offsets with
      | None => (c_toppars c, 0)
      | Some os => rd_kafka_cgrp_update_committed_offsets (c_toppars c) err os 0
      end in
    let c := c_set_toppars c ts in
    let c := if negb ((err =? RD_KAFKA_RESP_ERR__NO_OFFSET) && co_silent_empty rko)
             then c_emit c (EvCommitResult err errcnt) else c in
    if c_wait_commit_cnt c =? 0 then rd_kafka_assignment_serve c env else Some c.

(** The answer to the [k]th outstanding commit, which stays outstanding when it is
    retried or deferred.  What the group does to revoke its assignment
    ([rd_kafka_cgrp_revoke_all_rejoin_maybe]) is left to it. *)
Definition rd_kafka_cgrp_op_handle_OffsetCommit (c : consumer) (env : group_env) (k : nat)
  (err : Z) (resp : commit_resp) (buf_retry : bool) : option consumer :=
  let* (rko, at_) := c_commits c !! k in
  let request := match at_ with AtCoord => true | _ => false end in
  let* (c, offsets, err) :=
    rd_kafka_handle_OffsetCommit c err request resp (co_partitions rko) buf_retry in
  let rko := co_set_partitions rko offsets in
  let requeue rko at_ := c_set_commits c (c_wait_commit_cnt c) (<[k := (rko, at_)]> (c_commits c)) in
  let answered := c_set_commits c (c_wait_commit_cnt c)
                    (take k (c_commits c) ++ drop (S k) (c_commits c)) in
  if err =? RD_KAFKA_RESP_ERR__IN_PROGRESS then Some (requeue rko at_)
  else if (err =? RD_KAFKA_RESP_ERR_UNKNOWN_MEMBER_ID)
          || (err =? RD_KAFKA_RESP_ERR_ILLEGAL_GENERATION)
  then offset_commit_done (c_emit answered EvRevokeAll) env err rko offsets
  else if (err =? RD_KAFKA_RESP_ERR_NOT_COORDINATOR)
          || (err =? RD_KAFKA_RESP_ERR_COORDINATOR_NOT_AVAILABLE)
          || (err =? RD_KAFKA_RESP_ERR__TRANSPORT)
  then match rd_kafka_cgrp_defer_offset_commit env rko with
       | Some rko => Some (requeue rko AtWaitCoord)
       | None => offset_commit_done answered env err rko offsets
       end
  else offset_commit_done answered env err rko offsets.

(** The timer does nothing while the group rebalances. *)
Definition rd_kafka_cgrp_offset_commit_tmr_cb (c : consumer) (env : group_env)
  (subscription : bool) : option consumer :=
  if subscription && negb (bool_decide (c_join_state c = JOIN_STATE_STEADY)) then Some c
  else rd_kafka_cgrp_assigned_offsets_commit c env None true.

(** ** Steps *)

(** Operations of the application and the group, and the answers of the rest of the
    client.  [OpStopped], [OpOffsetFetch] and [OpOffsetCommit] answer the [k]th of what
    is outstanding; [OpCommitAgain] takes a deferred commit off [rkcg_wait_coord_q]. *)
Inductive asg_op :=
| OpAssign (protocol : rebalance_protocol) (terminating : bool) (method : assign_method)
    (partitions : option (list tp))
| OpUnassign
| OpServe
| OpPause
| OpJoinState (js : rkcg_join_state)
| OpLost
| OpStore (rktp : nat) (offset : Z)
| OpCommit (partitions : option (list tp)) (silent_empty : bool)
| OpTimer (subscription : bool)
| OpStopped (k : nat)
| OpOffsetFetch (k : nat) (err : Z) (resp : fetch_resp) (buf_retry : bool)
| OpOffsetCommit (k : nat) (err : Z) (resp : commit_resp) (buf_retry : bool)
| OpCommitAgain (k : nat).

Section Step.
Context (qsort : forall A, (A -> A -> Z) -> list A -> list A).

Definition asg_step (c : consumer) (env : group_env) (op : asg_op) : option consumer :=
  match op with
  | OpAssign protocol terminating method partitions =>
      let* (c, _) := rd_kafka_cgrp_handle_assign_op qsort c env protocol terminating method partitions in
      Some c
  | OpUnassign => rd_kafka_assignment_serve (rd_kafka_cgrp_unassign c) env
  | OpServe => rd_kafka_assignment_serve c env
  | OpPause => Some (rd_kafka_assignment_pause c)
  | OpJoinState js => Some (c_set_join_state c js)
  | OpLost => Some (c_set_lost c true)
  | OpStore rktp offset =>
      Some (c_set_toppars c
              (alter (fun t => (rd_kafka_offset_store0 t offset false false).1) rktp (c_toppars c)))
  | OpCommit partitions silent_empty =>
      rd_kafka_cgrp_offsets_commit c env (mk_commit partitions silent_empty false false)
        (match partitions with Some _ => false | None => true end)
  | OpTimer subscription => rd_kafka_cgrp_offset_commit_tmr_cb c env subscription
  | OpStopped k =>
      let* rktp := c_stops c !! k in
      rd_kafka_assignment_partition_stopped
        (c_set_stops c (take k (c_stops c) ++ drop (S k) (c_stops c))) env rktp
  | OpOffsetFetch k err resp buf_retry =>
      rd_kafka_assignment_handle_OffsetFetch c env k err resp buf_retry
  | OpOffsetCommit k err resp buf_retry =>
      rd_kafka_cgrp_op_handle_OffsetCommit c env k err resp buf_retry
  | OpCommitAgain k =>
      let* (rko, _) := c_commits c !! k in
      rd_kafka_cgrp_offsets_commit
        (c_set_commits c (c_wait_commit_cnt c) (take k (c_commits c) ++ drop (S k) (c_commits c)))
        env rko (match co_partitions rko with Some _ => false | None => true end)
  end.

Fixpoint asg_steps (c : consumer) (ops : list (group_env * asg_op)) : option consumer :=
  match ops with
  | [] => Some c
  | (env, op) :: ops => let* c := asg_step c env op in asg_steps c ops
  end.

End Step.

(** A client with the partition objects [ts] and no assignment. *)
Definition rd_kafka_assignment_init (ts : list rd_kafka_toppar) : consumer :=
  mk_consumer (mk_asg [] [] [] [] 0 0 0) 0 ts JOIN_STATE_INIT false [] [] [] [].
