(* ===== verification/AssignFacts.v ===== *)
(** * The lists and the partition objects of an assignment

    The lemmas on [Assignment]: its list operations are those of
    [TpList], removing an element of a list without duplicates filters it, and the
    partition objects only grow, keep their partition, and are found again while they
    are desired. *)

From stdpp Require Import gmap strings sorting.
From S2P Require Import Prelude Msgq Sort TpList TpListFacts TpListProps Assignment.

(** ** The operations on elements are those of the lists *)

Lemma elems_find_list l t p :
  elems_find (rktpl_elems l) t p = rd_kafka_topic_partition_list_find l t p.
Proof. done. Qed.

Lemma elems_del_list refs l t p refs' l' r :
  rd_kafka_topic_partition_list_del refs l t p = Some (refs', l', r) ->
  elems_del (rktpl_elems l) t p = (rktpl_elems l', negb (r =? 0)).
Proof.
  unfold rd_kafka_topic_partition_list_del, rd_kafka_topic_partition_list_del_by_idx, elems_del.
  rewrite elems_find_list. unfold rd_kafka_topic_partition_list_find,
    rd_kafka_topic_partition_list_find0.
  destruct (list_find0_loop_spec rd_kafka_topic_partition_cmp
              (mk_tp t p 0 None 0 0 0 None) (rktpl_elems l) 0)
    as [[-> _] | (k & e & -> & Hk & _ & _)]; [now intros [= _ <- <-] |].
  pose proof (lookup_lt_Some _ _ _ Hk). unfold rktpl_cnt. ztest. cbn [orb].
  rewrite Z.add_0_l, Nat2Z.id, Hk.
  destruct (rd_kafka_topic_partition_destroy0 refs e); [| done]. intros [= _ <- <-]. cbn.
  unfold ztake, zdrop. rewrite Nat2Z.id. do 3 f_equal; lia.
Qed.

Lemma elems_add_copy_list refs l e refs' l' :
  tpl_wf l -> rktpl_cnt l < TPL_MAX -> md_ok e ->
  rd_kafka_topic_partition_list_add_copy refs l e = Some (refs', l') ->
  rktpl_elems l' = elems_add_copy (rktpl_elems l) e.
Proof.
  intros Hw Hc Hm H. destruct (add_copy_spec refs l e Hw Hc Hm) as (l1 & E & _ & He).
  rewrite H in E. injection E as _ ->. exact He.
Qed.

(** ** Keys *)

Abbreviation keys := (map tp_key).

Lemma elems_find_None es t p : elems_find es t p = None <-> (t, p) ∉ keys es.
Proof. apply (list_find_None (mk_tpl es 0)). Qed.

Lemma elem_of_keys k es : k ∈ keys es <-> exists e, e ∈ es /\ tp_key e = k.
Proof.
  rewrite list_elem_of_fmap. split; intros (e & H1 & H2); exists e; split; auto.
Qed.

Lemma keys_app es es' : keys (es ++ es') = keys es ++ keys es'.
Proof. apply map_app. Qed.

Lemma tp_key_copy e : tp_key (tp_copy e) = tp_key e.
Proof. done. Qed.

Lemma keys_copy es : keys (map tp_copy es) = keys es.
Proof. apply keys_fmap, tp_key_copy. Qed.

Lemma keys_nodup_filter (P : tp -> Prop) `{!forall e, Decision (P e)} es :
  NoDup (keys es) -> NoDup (keys (filter P es)).
Proof.
  induction es as [| e es IH]; [done |]. intros [Hn Hd]%list.NoDup_cons.
  rewrite list.filter_cons. destruct (decide (P e)); [| auto]. cbn. constructor; [| auto].
  intros (e' & He & E)%elem_of_keys. apply list_elem_of_filter in He as [_ He].
  apply Hn, elem_of_keys. eauto.
Qed.

Lemma keys_unique es e e' :
  NoDup (keys es) -> e ∈ es -> e' ∈ es -> tp_key e = tp_key e' -> e = e'.
Proof.
  induction es as [| x es IH]; cbn; [intros _ H; inversion H |].
  intros [Hn Hd]%list.NoDup_cons. rewrite elem_of_keys in Hn.
  rewrite !elem_of_cons. intros [-> | H] [-> | H'] E; [done | | | now apply IH];
    destruct Hn; eauto.
Qed.

(** Without duplicates, deleting is filtering. *)
Definition without (t : string) (p : Z) (es : list tp) : list tp :=
  filter (fun e => tp_key e <> (t, p)) es.

Lemma without_notin t p es : (t, p) ∉ keys es -> without t p es = es.
Proof.
  intros H. apply filter_all, list.Forall_forall. intros e He E. apply H, elem_of_keys. eauto.
Qed.

Lemma elem_of_without e t p es : e ∈ without t p es <-> e ∈ es /\ tp_key e <> (t, p).
Proof. unfold without. rewrite list_elem_of_filter. tauto. Qed.

Lemma elem_of_keys_without k t p es : k ∈ keys (without t p es) <-> k ∈ keys es /\ k <> (t, p).
Proof.
  rewrite !elem_of_keys. split.
  - intros (e & [H1 H2]%elem_of_without & <-). split; [eauto | done].
  - intros [(e & H1 & <-) H2]. exists e. rewrite elem_of_without. auto.
Qed.

Lemma elems_del_spec es t p :
  NoDup (keys es) ->
  elems_del es t p = (without t p es, bool_decide ((t, p) ∈ keys es)).
Proof.
  intros Hd. unfold elems_del. destruct (elems_find es t p) as [i |] eqn:E.
  - rewrite bool_decide_eq_true_2 by (apply dec_stable; rewrite <- elems_find_None; congruence).
    apply (list_find_Some (mk_tpl es 0)) in E as (e & He & Hk). cbn in He. f_equal.
    rewrite <- (take_drop_middle _ _ _ He) at 3.
    rewrite <- (take_drop_middle _ _ _ He) in Hd. rewrite keys_app in Hd. cbn in Hd.
    unfold without. rewrite list.filter_app, filter_cons_False by (rewrite Hk; tauto).
    apply list.NoDup_app in Hd as (_ & Hx & [Hn _]%list.NoDup_cons).
    rewrite Hk in *.
    f_equal; symmetry; apply without_notin; [| exact Hn].
    intros Hin. apply (Hx _ Hin). left.
  - apply elems_find_None in E.
    rewrite bool_decide_eq_false_2, without_notin by done. done.
Qed.

(** ** Partition objects *)

Definition toppar_key (t : rd_kafka_toppar) : string * Z := (rktp_topic t, rktp_partition t).

(** On its topic's partitions or its list of desired ones. *)
Definition linked (t : rd_kafka_toppar) : Prop := rktp_unknown t = false \/ rktp_on_desp t = true.

Record toppars_ok (ts : list rd_kafka_toppar) : Prop := {
  ts_unique : forall i j t t', ts !! i = Some t -> ts !! j = Some t' ->
    toppar_key t = toppar_key t' -> linked t -> linked t' -> i = j;
  ts_desired : forall i t, ts !! i = Some t -> rktp_desired t = true -> linked t }.

Definition fresh (t : rd_kafka_toppar) : Prop := rktp_started t = false /\ rktp_assigned t = false.

(** What looking up objects does to one: it may be marked desired. *)
Definition toppar_ext (t t' : rd_kafka_toppar) : Prop :=
  toppar_key t' = toppar_key t /\ rktp_started t' = rktp_started t /\
  rktp_assigned t' = rktp_assigned t /\ (rktp_desired t = true -> rktp_desired t' = true).

(** The objects after lookups: the same ones and new ones. *)
Definition toppars_ext (ts ts' : list rd_kafka_toppar) : Prop :=
  exists ts1 ts2, ts' = ts1 ++ ts2 /\ Forall2 toppar_ext ts ts1 /\ Forall fresh ts2.

Lemma toppar_ext_refl t : toppar_ext t t.
Proof. unfold toppar_ext. tauto. Qed.

Lemma toppars_ext_refl0 ts : Forall2 toppar_ext ts ts.
Proof. induction ts; constructor; auto using toppar_ext_refl. Qed.

Lemma toppar_ext_trans t t' t'' : toppar_ext t t' -> toppar_ext t' t'' -> toppar_ext t t''.
Proof. unfold toppar_ext. intuition congruence. Qed.

#[export] Instance toppars_ext_refl : Reflexive toppars_ext.
Proof. intros ts. exists ts, []. rewrite app_nil_r. conj. apply toppars_ext_refl0. Qed.

Lemma fresh_ext t t' : fresh t -> toppar_ext t t' -> fresh t'.
Proof. unfold fresh, toppar_ext. intuition congruence. Qed.

#[export] Instance toppars_ext_trans : Transitive toppars_ext.
Proof.
  intros ts ts' ts'' (a & b & -> & H1 & H2) (a' & b' & -> & H3 & H4).
  apply Forall2_app_inv_l in H3 as (x & y & Hx & Hy & ->). exists x, (y ++ b').
  rewrite app_assoc. split; [done |]. split.
  - clear -H1 Hx. revert x Hx. induction H1; intros x' Hx; inversion Hx; subst; constructor;
      eauto using toppar_ext_trans.
  - apply list.Forall_app. split; [| done]. clear -H2 Hy.
    induction Hy; [done |]. inversion H2; subst. constructor; eauto using fresh_ext.
Qed.

Lemma toppars_ext_lookup ts ts' i t :
  toppars_ext ts ts' -> ts !! i = Some t -> exists t', ts' !! i = Some t' /\ toppar_ext t t'.
Proof.
  intros (a & b & -> & H1 & _) Hi. destruct (Forall2_lookup_l _ _ _ _ _ H1 Hi) as (t' & H & E).
  exists t'. split; [| done]. now apply lookup_app_l_Some.
Qed.

Lemma toppars_ext_lookup_inv ts ts' i t' :
  toppars_ext ts ts' -> ts' !! i = Some t' ->
  (exists t, ts !! i = Some t /\ toppar_ext t t') \/ (ts !! i = None /\ fresh t').
Proof.
  intros (a & b & -> & H1 & H2) Hi. apply lookup_app_Some in Hi as [Hi | [Hl Hi]].
  - left. destruct (Forall2_lookup_r _ _ _ _ _ H1 Hi) as (t & H & E). eauto.
  - right. split.
    + apply lookup_ge_None. apply Forall2_length in H1. lia.
    + now apply (Forall_lookup_1 _ _ _ _ H2 Hi).
Qed.

(** The number of started objects. *)
Definition started_cnt (ts : list rd_kafka_toppar) : Z :=
  zlen (filter (fun t => rktp_started t = true) ts).

Lemma started_cnt_app ts ts' : started_cnt (ts ++ ts') = started_cnt ts + started_cnt ts'.
Proof. unfold started_cnt. rewrite list.filter_app, length_app. lia. Qed.

Lemma started_cnt_cons t ts :
  started_cnt (t :: ts) = Z.b2z (rktp_started t) + started_cnt ts.
Proof.
  unfold started_cnt. rewrite list.filter_cons.
  destruct (rktp_started t); [rewrite decide_True by done | rewrite decide_False by done]; cbn; lia.
Qed.

Lemma started_cnt_ext ts ts' : toppars_ext ts ts' -> started_cnt ts' = started_cnt ts.
Proof.
  intros (a & b & -> & H1 & H2). rewrite started_cnt_app.
  assert (started_cnt b = 0) as ->.
  { induction H2 as [| t b [Ht _] _ IH]; [done |]. now rewrite started_cnt_cons, Ht, IH. }
  rewrite Z.add_0_r. induction H1 as [| t t' l l' (_ & Hs & _) _ IH]; [done |].
  now rewrite !started_cnt_cons, Hs, IH.
Qed.

Lemma started_cnt_insert ts i t t' :
  ts !! i = Some t ->
  started_cnt (<[i := t']> ts) = started_cnt ts - Z.b2z (rktp_started t) + Z.b2z (rktp_started t').
Proof.
  intros Hi. rewrite insert_take_drop by (now apply lookup_lt_Some in Hi).
  rewrite <- (take_drop_middle _ _ _ Hi) at 3.
  rewrite !started_cnt_app, !started_cnt_cons. lia.
Qed.

Lemma started_cnt_pos ts i t : ts !! i = Some t -> rktp_started t = true -> 0 < started_cnt ts.
Proof.
  intros Hi Ht. rewrite <- (take_drop_middle _ _ _ Hi), started_cnt_app, started_cnt_cons, Ht.
  unfold started_cnt. cbn. lia.
Qed.

(** ** Looking up objects *)

Lemma toppars_find_Some ts f i :
  toppars_find ts f = Some i -> exists t, ts !! i = Some t /\ f t = true.
Proof.
  unfold toppars_find. destruct (list_find _ ts) as [[j t] |] eqn:E; [| done].
  intros [= ->]. apply list.list_find_Some in E as (H1 & H2 & _). eauto.
Qed.

Lemma toppars_find_None ts f i t :
  toppars_find ts f = None -> ts !! i = Some t -> f t = false.
Proof.
  unfold toppars_find. destruct (list_find _ ts) eqn:E; [done |]. intros _ Hi.
  apply list.list_find_None in E. rewrite list.Forall_forall in E.
  apply not_true_iff_false, E. now apply list_elem_of_lookup_2 in Hi.
Qed.

Lemma toppar_is_key topic partition t :
  toppar_is topic partition t = true <-> toppar_key t = (topic, partition).
Proof.
  unfold toppar_is, toppar_key. rewrite andb_true_iff, String.eqb_eq, Z.eqb_eq.
  split; [intros [-> ->] | intros [= -> ->]]; done.
Qed.

Lemma desired_add0_ext t :
  toppar_ext t (rd_kafka_toppar_desired_add0 t) /\
  rktp_desired (rd_kafka_toppar_desired_add0 t) = true.
Proof.
  unfold rd_kafka_toppar_desired_add0, toppar_ext, toppar_key.
  destruct (rktp_desired t) eqn:E; cbn; tauto.
Qed.

Lemma desired_add0_linked t :
  (rktp_desired t = true -> linked t) -> linked (rd_kafka_toppar_desired_add0 t).
Proof.
  unfold rd_kafka_toppar_desired_add0, linked. destruct (rktp_desired t) eqn:E; [auto |].
  intros _. cbn. destruct (rktp_unknown t), (rktp_on_desp t); auto.
Qed.

Lemma toppars_ok_new ts t :
  toppars_ok ts -> fresh t -> rktp_desired t = false ->
  (forall i t', ts !! i = Some t' -> toppar_key t' = toppar_key t -> linked t' -> False) ->
  toppars_ok (ts ++ [t]) /\ toppars_ext ts (ts ++ [t]).
Proof.
  intros [U D] Hf Hd Hn. split; [split |].
  - intros i j a b Hi Hj Hk La Lb.
    apply lookup_app_Some in Hi as [Hi | [Hi Ha]]; apply lookup_app_Some in Hj as [Hj | [Hj Hb]].
    + now apply (U i j a b).
    + apply list_lookup_singleton_Some in Hb as [_ <-]. destruct (Hn _ _ Hi); auto.
    + apply list_lookup_singleton_Some in Ha as [_ <-]. destruct (Hn _ _ Hj); auto.
    + apply list_lookup_singleton_Some in Ha as [? _], Hb as [? _]. lia.
  - intros i a Hi Ha. apply lookup_app_Some in Hi as [Hi | [_ Hi]]; [now apply (D i) |].
    apply list_lookup_singleton_Some in Hi as [_ <-]. congruence.
  - exists ts, [t]. split; [done |]. split; [| now constructor].
    apply toppars_ext_refl0.
Qed.

Lemma toppars_ext_alter f ts i :
  (forall t, toppar_ext t (f t)) -> toppars_ext ts (alter f i ts).
Proof.
  intros Hf. exists (alter f i ts), []. rewrite app_nil_r. conj.
  revert i. induction ts as [| t ts IH]; intros [| i]; cbn; constructor; auto using toppar_ext_refl.
  apply toppars_ext_refl0.
Qed.

(** Marking as desired an object that is, but for that, linked alone for its key. *)
Lemma toppars_ok_desire ts i :
  toppars_ok ts ->
  (forall j t t', ts !! i = Some t -> ts !! j = Some t' -> toppar_key t' = toppar_key t ->
     linked t' -> j = i) ->
  toppars_ok (alter rd_kafka_toppar_desired_add0 i ts).
Proof.
  intros [U D] Hn.
  assert (L : forall j t, alter rd_kafka_toppar_desired_add0 i ts !! j = Some t ->
    exists t0, ts !! j = Some t0 /\ toppar_key t = toppar_key t0 /\
      (j = i /\ rktp_desired t = true /\ linked t \/ j <> i /\ t = t0)).
  { intros j t H. destruct (decide (j = i)) as [-> | N].
    - rewrite list_lookup_alter_eq in H. destruct (ts !! i) as [t0 |] eqn:E; [| done].
      injection H as <-. exists t0. destruct (desired_add0_ext t0) as [[Hk _] Hd].
      split; [done |]. split; [done |]. left. split; [done |]. split; [done |].
      apply desired_add0_linked, (D i), E.
    - rewrite list_lookup_alter_ne in H by done. exists t. auto. }
  split.
  - intros a b ta tb Ha Hb Hk La Lb.
    apply L in Ha as (ta0 & Ha & Ka & [(-> & _) | [Na ->]]);
      apply L in Hb as (tb0 & Hb & Kb & [(-> & _) | [Nb ->]]); [done | | |].
    + symmetry. apply (Hn b ta0 tb0); auto. congruence.
    + apply (Hn a tb0 ta0); auto. congruence.
    + now apply (U a b ta0 tb0).
  - intros j t Hj Hd. apply L in Hj as (t0 & Hj & _ & [(_ & _ & Hl) | [_ ->]]); [done |].
    now apply (D j).
Qed.

Lemma desired_add_spec ts topic partition ts' i :
  toppars_ok ts -> rd_kafka_toppar_desired_add ts topic partition = (ts', i) ->
  toppars_ok ts' /\ toppars_ext ts ts' /\
  exists t, ts' !! i = Some t /\ toppar_key t = (topic, partition) /\ rktp_desired t = true.
Proof.
  intros Hok. unfold rd_kafka_toppar_desired_add, rd_kafka_toppar_get,
    rd_kafka_toppar_desired_get.
  assert (A : forall ts1 j t, toppars_ok ts1 -> toppars_ext ts ts1 -> ts1 !! j = Some t ->
    toppar_key t = (topic, partition) ->
    (forall k t', ts1 !! k = Some t' -> toppar_key t' = toppar_key t -> linked t' -> k = j) ->
    let ts' := alter rd_kafka_toppar_desired_add0 j ts1 in
    toppars_ok ts' /\ toppars_ext ts ts' /\
    exists t, ts' !! j = Some t /\ toppar_key t = (topic, partition) /\ rktp_desired t = true).
  { intros ts1 j t H1 H2 Hj Hk Hu. cbn. split; [| split].
    - apply toppars_ok_desire; [done |]. intros k t1 t2 Hj' Hk' E Hl. apply (Hu k t2); congruence.
    - etransitivity; [exact H2 |]. apply toppars_ext_alter. intros t'. apply desired_add0_ext.
    - rewrite list_lookup_alter_eq, Hj. eexists. split; [done |].
      destruct (desired_add0_ext t) as [[Ek _] Hd]. split; [congruence | done]. }
  assert (F : forall j t, ts !! j = Some t -> toppar_key t = (topic, partition) -> linked t ->
    let ts' := alter rd_kafka_toppar_desired_add0 j ts in
    toppars_ok ts' /\ toppars_ext ts ts' /\
    exists t, ts' !! j = Some t /\ toppar_key t = (topic, partition) /\ rktp_desired t = true).
  { intros j t Hj Hk Hl. apply (A ts j t); [done | reflexivity | done | done |].
    intros k t' Ht' Ek Hl'. apply (ts_unique ts Hok k j t' t); auto. }
  destruct (toppars_find ts _) as [j |] eqn:E1.
  { intros [= <- <-]. apply toppars_find_Some in E1 as (t & Hj & [Ht Hu]%andb_true_iff).
    apply (F j t); [done | now apply toppar_is_key | left; now apply negb_true_iff]. }
  destruct (toppars_find ts (fun t => toppar_is topic partition t && rktp_on_desp t))
    as [j |] eqn:E2.
  { intros [= <- <-]. apply toppars_find_Some in E2 as (t & Hj & [Ht Hu]%andb_true_iff).
    apply (F j t); [done | now apply toppar_is_key | now right]. }
  intros [= <- <-].
  assert (N : forall k t', ts !! k = Some t' -> toppar_key t' = (topic, partition) ->
    linked t' -> False).
  { intros k t' Hk' Ek [Hl | Hl]; apply toppar_is_key in Ek.
    - pose proof (toppars_find_None _ _ _ _ E1 Hk') as H. cbn in H. now rewrite Ek, Hl in H.
    - pose proof (toppars_find_None _ _ _ _ E2 Hk') as H. cbn in H. now rewrite Ek, Hl in H. }
  destruct (toppars_ok_new ts (toppar_new topic partition)) as [H1 H2]; [done.. |].
  apply (A _ _ (toppar_new topic partition)); [done | done | now rewrite lookup_app_r, Nat.sub_diag | done |].
  intros k t' Hk' Ek Hl. apply lookup_app_Some in Hk' as [Hk' | [Hk' Hs]].
  - destruct (N _ _ Hk' Ek Hl).
  - apply list_lookup_singleton_Some in Hs as [? _]. lia.
Qed.

Lemma get2_spec ts topic partition create ts' r :
  toppars_ok ts -> rd_kafka_toppar_get2 ts topic partition create = (ts', r) ->
  toppars_ok ts' /\ toppars_ext ts ts' /\ (create = true -> r <> None) /\
  forall i, r = Some i ->
    exists t, ts' !! i = Some t /\ toppar_key t = (topic, partition) /\ rktp_desired t = true.
Proof.
  intros Hok. unfold rd_kafka_toppar_get2.
  destruct (rd_kafka_topic_find ts topic) eqn:F; cbn [negb andb].
  - destruct (rd_kafka_toppar_desired_add ts topic partition) as [ts1 i] eqn:E.
    intros [= <- <-]. destruct (desired_add_spec _ _ _ _ _ Hok E) as (H1 & H2 & H3).
    conj; [done |]. intros j [= <-]. assumption.
  - destruct create; cbn [negb]; [| intros [= <- <-]; conj; done].
    destruct (toppars_ok_new ts (toppar_new topic RD_KAFKA_PARTITION_UA)) as [H1 H2]; [done.. | |].
    { intros i t Hi Hk _. apply not_true_iff_false in F. apply F, existsb_exists.
      exists t. rewrite <- list_elem_of_In. split; [now apply list_elem_of_lookup_2 in Hi |].
      apply String.eqb_eq. unfold toppar_key in Hk. now injection Hk. }
    destruct (rd_kafka_toppar_desired_add _ topic partition) as [ts1 i] eqn:E.
    intros [= <- <-]. destruct (desired_add_spec _ _ _ _ _ H1 E) as (H3 & H4 & H5).
    conj; [etransitivity; eassumption | done |]. intros j [= <-]. assumption.
Qed.

(** The element holds the desired object of its partition. *)
Definition holds (ts : list rd_kafka_toppar) (e : tp) : Prop :=
  exists i t, rktpar_private e = Some i /\ ts !! i = Some t /\ toppar_key t = tp_key e /\
    rktp_desired t = true.

Lemma holds_ext ts ts' e : toppars_ext ts ts' -> holds ts e -> holds ts' e.
Proof.
  intros Hx (i & t & Hp & Hi & Hk & Hd).
  destruct (toppars_ext_lookup _ _ _ _ Hx Hi) as (t' & Hi' & Ek & _ & _ & Ed).
  exists i, t'. conj; [congruence | auto].
Qed.

(** Two elements for a partition hold the same object. *)
Lemma holds_inj ts e e' :
  toppars_ok ts -> holds ts e -> holds ts e' -> tp_key e = tp_key e' ->
  rktpar_private e = rktpar_private e'.
Proof.
  intros [U D] (i & t & Hp & Hi & Hk & Hd) (j & t' & Hp' & Hj & Hk' & Hd') E.
  rewrite Hp, Hp'. f_equal. apply (U i j t t'); [done.. | congruence | |]; eapply D; eauto.
Qed.

(** The same object, the same partition. *)
Lemma holds_key ts e e' :
  holds ts e -> holds ts e' -> rktpar_private e = rktpar_private e' -> tp_key e = tp_key e'.
Proof.
  intros (i & t & Hp & Hi & Hk & Hd) (j & t' & Hp' & Hj & Hk' & Hd') E.
  rewrite Hp, Hp' in E. injection E as <-. congruence.
Qed.

Lemma ensure_toppar_ext ts e create ts' e' :
  toppars_ok ts -> rd_kafka_topic_partition_ensure_toppar ts e create = (ts', e') ->
  toppars_ok ts' /\ toppars_ext ts ts' /\ tp_key e' = tp_key e /\
  rktpar_offset e' = rktpar_offset e /\ rktpar_err e' = rktpar_err e.
Proof.
  intros Hok. unfold rd_kafka_topic_partition_ensure_toppar.
  destruct (rktpar_private e) as [i |]; [intros [= <- <-]; conj; done |].
  destruct (rd_kafka_toppar_get2 ts _ _ create) as [ts1 r] eqn:E. intros [= <- <-].
  destruct (get2_spec _ _ _ _ _ _ Hok E) as (H1 & H2 & _). conj.
Qed.

Lemma ensure_toppar_holds ts e create ts' e' :
  toppars_ok ts -> rktpar_private e = None \/ holds ts e ->
  rd_kafka_topic_partition_ensure_toppar ts e create = (ts', e') ->
  rktpar_private e' = None /\ create = false \/ holds ts' e'.
Proof.
  intros Hok He. unfold rd_kafka_topic_partition_ensure_toppar.
  destruct (rktpar_private e) as [i |] eqn:Ep.
  - intros [= <- <-]. right. destruct He as [He | He]; done.
  - destruct (rd_kafka_toppar_get2 ts _ _ create) as [ts1 r] eqn:E. intros [= <- <-].
    destruct (get2_spec _ _ _ _ _ _ Hok E) as (H1 & H2 & H3 & H4). destruct r as [i |].
    + right. destruct (H4 i) as (t & Hi & Hk & Hd); [done |]. exists i, t. conj; done.
    + left. split; [done |]. destruct create; [now destruct H3 | done].
Qed.
