(* ===== verification/AssignInv.v ===== *)
(** * The invariant of an assignment

    What holds of the partitions assigned, pending, queried and removed, of the partition
    objects and of the outstanding stops, and how each elementary change of the
    assignment keeps it.  The lists enter by the partition and the object of their
    elements only. *)

From stdpp Require Import gmap strings sorting.
From S2P Require Import Prelude Msgq Sort TpList TpListFacts TpListProps Assignment AssignFacts.

(** ** Elements by partition and object *)

Abbreviation tpid := ((string * Z) * option nat)%type.

Definition ident (e : tp) : tpid := (tp_key e, rktpar_private e).
Definition idents (es : list tp) : list tpid := map ident es.

Definition holds_id (ts : list rd_kafka_toppar) (x : tpid) : Prop :=
  exists i t, x.2 = Some i /\ ts !! i = Some t /\ toppar_key t = x.1 /\ rktp_desired t = true.

Definition drop_key (k : string * Z) (xs : list tpid) : list tpid := filter (fun x => x.1 <> k) xs.

(** Fetching, and not being stopped. *)
Definition running (ts : list rd_kafka_toppar) (stops : list nat) (x : tpid) : Prop :=
  exists i t, x.2 = Some i /\ ts !! i = Some t /\ rktp_started t = true /\ i ∉ stops.

(** [A], [P], [Q], [R]: assigned, pending, queried and removed; [S]: the objects being
    stopped; [E]: the partitions an error has been reported for. *)
Record core (ts : list rd_kafka_toppar) (A P Q R : list tpid) (S : list nat)
  (E : string * Z -> Prop) : Prop := {
  co_ts : toppars_ok ts;
  co_keys : NoDup (A ++ R).*1;
  co_pq : NoDup (P ++ Q).*1;
  co_holds : forall x, x ∈ A ++ R -> holds_id ts x;
  co_sub : forall x, x ∈ P ++ Q -> x ∈ A;
  co_assigned : forall i t, ts !! i = Some t ->
    rktp_assigned t = true <-> exists x, x ∈ A ++ R /\ x.2 = Some i;
  co_started : forall i t, ts !! i = Some t -> rktp_started t = true ->
    i ∈ S \/ exists x, x ∈ A ++ R /\ x.2 = Some i /\ x ∉ P ++ Q;
  co_stops : NoDup S;
  co_stops_started : forall i, i ∈ S -> exists t, ts !! i = Some t /\ rktp_started t = true;
  co_stops_pending : forall i x, i ∈ S -> x ∈ A -> x.2 = Some i -> x ∈ P;
  co_stops_removed : forall i x, i ∈ S -> x ∈ R -> x.2 <> Some i;
  co_acct : forall x, x ∈ A -> x ∈ P ++ Q \/ running ts S x \/ E x.1 }.

Lemma holds_ident ts e : holds_id ts (ident e) <-> holds ts e.
Proof. done. Qed.

Lemma idents_app es es' : idents (es ++ es') = idents es ++ idents es'.
Proof. apply map_app. Qed.

Lemma idents_copy es : idents (map tp_copy es) = idents es.
Proof. unfold idents. rewrite map_map. now apply map_ext. Qed.

Lemma idents_fst es : (idents es).*1 = keys es.
Proof. unfold idents. induction es; cbn; [done | now f_equal]. Qed.

Lemma elem_of_idents x es : x ∈ idents es <-> exists e, e ∈ es /\ ident e = x.
Proof.
  unfold idents. rewrite list_elem_of_fmap. split; intros (e & H1 & H2); exists e; split; auto.
Qed.

Lemma idents_without t p es : idents (without t p es) = drop_key (t, p) (idents es).
Proof.
  unfold drop_key, without. induction es as [| e es IH]; [done |].
  cbn [idents map]. fold (idents es). rewrite !list.filter_cons.
  destruct (decide (tp_key e <> (t, p))) as [N | N].
  - rewrite decide_True by exact N. cbn. f_equal. exact IH.
  - rewrite decide_False by exact N. exact IH.
Qed.

Lemma elem_of_drop_key x k xs : x ∈ drop_key k xs <-> x ∈ xs /\ x.1 <> k.
Proof. unfold drop_key. rewrite list_elem_of_filter. tauto. Qed.

Lemma drop_key_app k xs ys : drop_key k (xs ++ ys) = drop_key k xs ++ drop_key k ys.
Proof. apply list.filter_app. Qed.

Lemma drop_key_notin k xs : k ∉ xs.*1 -> drop_key k xs = xs.
Proof.
  intros H. apply filter_all, list.Forall_forall. intros x Hx E. apply H, list_elem_of_fmap. eauto.
Qed.

Lemma drop_key_nodup k xs : NoDup xs.*1 -> NoDup (drop_key k xs).*1.
Proof.
  unfold drop_key. induction xs as [| x xs IH]; [done |]. intros [Hn Hd]%list.NoDup_cons.
  rewrite list.filter_cons. destruct (decide _); [| auto]. cbn. constructor; [| auto].
  intros (y & E & Hy)%list_elem_of_fmap. apply list_elem_of_filter in Hy as [_ Hy].
  apply Hn, list_elem_of_fmap. eauto.
Qed.

Lemma fst_unique (xs : list tpid) x y :
  NoDup xs.*1 -> x ∈ xs -> y ∈ xs -> x.1 = y.1 -> x = y.
Proof.
  induction xs as [| z xs IH]; cbn; [intros _ H; inversion H |].
  intros [Hn Hd]%list.NoDup_cons. rewrite list_elem_of_fmap in Hn.
  rewrite !elem_of_cons. intros [-> | H] [-> | H'] E; [done | | | now apply IH];
    destruct Hn; eauto.
Qed.

Lemma holds_id_ext ts ts' x : toppars_ext ts ts' -> holds_id ts x -> holds_id ts' x.
Proof.
  intros Hx (i & t & Hp & Hi & Hk & Hd).
  destruct (toppars_ext_lookup _ _ _ _ Hx Hi) as (t' & Hi' & Ek & _ & _ & Ed).
  exists i, t'. conj; [congruence | auto].
Qed.

Lemma holds_id_inj ts x y :
  toppars_ok ts -> holds_id ts x -> holds_id ts y -> x.1 = y.1 -> x = y.
Proof.
  intros [U D] (i & t & Hp & Hi & Hk & Hd) (j & t' & Hp' & Hj & Hk' & Hd') E.
  destruct x as [k o], y as [k' o']. cbn in *.
  assert (i = j) as <-; [apply (U i j t t'); [done.. | congruence | |]; eapply D; eauto |].
  congruence.
Qed.

Lemma holds_id_obj ts x y : holds_id ts x -> holds_id ts y -> x.2 = y.2 -> x = y.
Proof.
  intros (i & t & Hp & Hi & Hk & Hd) (j & t' & Hp' & Hj & Hk' & Hd') E.
  destruct x as [k o], y as [k' o']. cbn in *. subst. injection E as ->. congruence.
Qed.

Lemma running_ext ts ts' S x : toppars_ext ts ts' -> running ts S x -> running ts' S x.
Proof.
  intros Hx (i & t & Hp & Hi & Hs & Hn).
  destruct (toppars_ext_lookup _ _ _ _ Hx Hi) as (t' & Hi' & _ & Es & _ & _).
  exists i, t'. conj. congruence.
Qed.

(** ** Changes *)

Lemma core_ext ts ts' A P Q R S E :
  core ts A P Q R S E -> toppars_ok ts' -> toppars_ext ts ts' -> core ts' A P Q R S E.
Proof.
  intros [H1 H2 H3 H4 H5 H6 H7 H8 H9 H10 H11 H12] Hok Hx. constructor; try done.
  - intros x Hin. eapply holds_id_ext, H4; done.
  - intros i t' Hi. destruct (toppars_ext_lookup_inv _ _ _ _ Hx Hi)
      as [(t & Ht & _ & _ & Ea & _) | [Hn [_ Ea]]]; rewrite Ea; [now apply H6 |].
    split; [done |]. intros (x & Hin & Hp). destruct (H4 x Hin) as (j & u & Hp' & Hj & _). congruence.
  - intros i t' Hi Hs. destruct (toppars_ext_lookup_inv _ _ _ _ Hx Hi)
      as [(t & Ht & _ & Es & _) | [Hn [Es _]]]; [| congruence]. apply (H7 i t Ht). congruence.
  - intros i Hin. destruct (H9 i Hin) as (t & Hi & Hs).
    destruct (toppars_ext_lookup _ _ _ _ Hx Hi) as (t' & Hi' & _ & Es & _ & _).
    exists t'. split; [done | congruence].
  - intros x Hin. destruct (H12 x Hin) as [? | [? | ?]]; [tauto | | tauto].
    right. left. eapply running_ext; eauto.
Qed.

Lemma core_errs ts A P Q R S (E E' : string * Z -> Prop) :
  core ts A P Q R S E -> (forall k, E k -> E' k) -> core ts A P Q R S E'.
Proof.
  intros [H1 H2 H3 H4 H5 H6 H7 H8 H9 H10 H11 H12] HE. constructor; try done.
  intros x Hx. destruct (H12 x Hx) as [? | [? | ?]]; auto.
Qed.

(** The order of the lists does not matter. *)
#[export] Instance core_perm ts :
  Proper (Permutation ==> Permutation ==> Permutation ==> Permutation ==> eq ==> eq ==> iff) (core ts).
Proof.
  assert (H : forall A A' P P' Q Q' R R' S E, A ≡ₚ A' -> P ≡ₚ P' -> Q ≡ₚ Q' -> R ≡ₚ R' ->
    core ts A P Q R S E -> core ts A' P' Q' R' S E).
  { intros A A' P P' Q Q' R R' S E HA HP HQ HR [H1 H2 H3 H4 H5 H6 H7 H8 H9 H10 H11 H12].
    rewrite HA, HR in H2. rewrite HP, HQ in H3. constructor; try done.
    - intros x. rewrite <- HA, <- HR. apply H4.
    - intros x. rewrite <- HA, <- HP, <- HQ. apply H5.
    - intros i t Hi. rewrite (H6 i t Hi). now setoid_rewrite HA; setoid_rewrite HR.
    - intros i t Hi Hs. destruct (H7 i t Hi Hs) as [? | (x & Hx)]; [tauto | right].
      exists x. now rewrite <- HA, <- HR, <- HP, <- HQ.
    - intros i x. rewrite <- HA, <- HP. apply H10.
    - intros i x. rewrite <- HR. apply H11.
    - intros x. rewrite <- HA, <- HP, <- HQ. apply H12. }
  intros A A' HA P P' HP Q Q' HQ R R' HR S ? <- E ? <-. split; apply H; now try symmetry.
Qed.

(** The whole assignment is removed. *)
Lemma core_clear ts A P Q R S E :
  core ts A P Q R S E -> (forall i x, i ∈ S -> x ∈ A -> x.2 <> Some i) ->
  core ts [] [] [] (R ++ A) S E.
Proof.
  intros [H1 H2 H3 H4 H5 H6 H7 H8 H9 H10 H11 H12] HS.
  assert (Hp : R ++ A ≡ₚ A ++ R) by apply Permutation_app_comm.
  constructor; cbn; try done.
  - now rewrite Hp.
  - constructor.
  - intros x. rewrite Hp. apply H4.
  - intros i t Hi. rewrite (H6 i t Hi). now setoid_rewrite Hp.
  - intros i t Hi Hs. destruct (H7 i t Hi Hs) as [? | (x & Hx & Hx2 & _)]; [tauto | right].
    exists x. rewrite Hp. conj. inversion 1.
  - intros i x Hi [Hx | Hx]%elem_of_app; [now apply (H11 i) | now apply (HS i)].
  - intros x Hx. inversion Hx.
Qed.

(** One partition moves from the assignment to the removed ones. *)
Lemma core_subtract ts A P Q R S E x :
  core ts A P Q R S E -> x ∈ A -> (forall i, i ∈ S -> x.2 <> Some i) ->
  core ts (drop_key x.1 A) (drop_key x.1 P) (drop_key x.1 Q) (R ++ [x]) S E.
Proof.
  intros [H1 H2 H3 H4 H5 H6 H7 H8 H9 H10 H11 H12] Hx HS.
  assert (Hd : NoDup A.*1) by (rewrite fmap_app in H2; now apply list.NoDup_app in H2).
  assert (HA : A ≡ₚ x :: drop_key x.1 A).
  { clear -Hx Hd. induction A as [| y A IH]; [inversion Hx |].
    cbn in Hd. apply list.NoDup_cons in Hd as [Hn Hd]. unfold drop_key. rewrite list.filter_cons.
    apply elem_of_cons in Hx as [<- | Hx].
    - rewrite decide_False by tauto. constructor. fold (drop_key x.1 A). now rewrite drop_key_notin.
    - rewrite decide_True; [rewrite Permutation_swap; constructor; now apply IH |].
      intros E. apply Hn. rewrite E. apply list_elem_of_fmap. eauto. }
  assert (Hp : drop_key x.1 A ++ R ++ [x] ≡ₚ A ++ R).
  { rewrite HA at 2. cbn. rewrite app_assoc. rewrite Permutation_app_comm. done. }
  rewrite <- Hp in H2.
  assert (Hin : forall y, y ∈ P ++ Q -> y = x \/ y ∈ drop_key x.1 P ++ drop_key x.1 Q).
  { intros y Hy. destruct (decide (y.1 = x.1)) as [Ek | Nk].
    - left. apply (fst_unique A); auto.
    - right. rewrite <- drop_key_app. now apply elem_of_drop_key. }
  constructor; try done.
  - rewrite <- drop_key_app. now apply drop_key_nodup.
  - intros y. rewrite Hp. apply H4.
  - intros y. rewrite <- drop_key_app, !elem_of_drop_key. intros [Hy ?]. auto.
  - intros i t Hi. rewrite (H6 i t Hi). now setoid_rewrite Hp.
  - intros i t Hi Hs. destruct (H7 i t Hi Hs) as [? | (y & Hy & Hy2 & Hn)]; [tauto | right].
    exists y. rewrite Hp, <- drop_key_app, elem_of_drop_key. tauto.
  - intros i y Hi [Hy Ny]%elem_of_drop_key Hy2. apply elem_of_drop_key. split; [| done].
    now apply (H10 i).
  - intros i y Hi [Hy | ->%list_elem_of_singleton]%elem_of_app; [now apply (H11 i) | now apply HS].
  - intros y [Hy Ny]%elem_of_drop_key. rewrite <- drop_key_app, elem_of_drop_key.
    destruct (H12 y Hy); tauto.
Qed.

(** ** Changes of an object *)

Lemma insert_cases {A} (l : list A) i j x y :
  <[i := x]> l !! j = Some y -> j = i /\ y = x \/ j <> i /\ l !! j = Some y.
Proof.
  intros H. destruct (decide (j = i)) as [-> | N].
  - left. apply list_lookup_insert_Some in H as [(_ & -> & _) | [? _]]; done.
  - right. now rewrite list_lookup_insert_ne in H by done.
Qed.

(** The object may be less linked and less desired than before. *)
Lemma toppars_ok_insert ts i t t' :
  toppars_ok ts -> ts !! i = Some t -> toppar_key t' = toppar_key t ->
  (linked t' -> linked t) -> (rktp_desired t' = true -> linked t') ->
  toppars_ok (<[i := t']> ts).
Proof.
  intros [U D] Hi Hk Hl Hd. split.
  - intros a b ta tb [[-> ->] | [Na Ha]]%insert_cases [[-> ->] | [Nb Hb]]%insert_cases E La Lb.
    + done.
    + symmetry. apply (U b i tb t); auto. congruence.
    + apply (U a i ta t); auto. congruence.
    + now apply (U a b ta tb).
  - intros a ta [[-> ->] | [Na Ha]]%insert_cases; [done | now apply (D a)].
Qed.

Lemma insert_eq {A} (l : list A) i x y : l !! i = Some x -> <[i := y]> l !! i = Some y.
Proof. intros H. apply list_lookup_insert_eq. now apply lookup_lt_Some in H. Qed.

(** The objects of other elements stay. *)
Lemma holds_id_insert ts i t t' x :
  holds_id ts x -> ts !! i = Some t -> toppar_key t' = toppar_key t ->
  x.2 <> Some i \/ rktp_desired t' = true -> holds_id (<[i := t']> ts) x.
Proof.
  intros (j & u & Hp & Hj & Hk & Hd) Hi Ek [N | Hd'].
  - exists j, u. rewrite list_lookup_insert_ne by congruence. auto.
  - destruct (decide (i = j)) as [<- | N].
    + exists i, t'. rewrite (insert_eq _ _ _ _ Hi). conj; congruence.
    + exists j, u. rewrite list_lookup_insert_ne by done. auto.
Qed.

Lemma running_insert ts i t t' S x :
  running ts S x -> ts !! i = Some t -> x.2 <> Some i \/ rktp_started t' = rktp_started t ->
  running (<[i := t']> ts) S x.
Proof.
  intros (j & u & Hp & Hj & Hs & Hn) Hi [N | Es].
  - exists j, u. rewrite list_lookup_insert_ne by congruence. auto.
  - destruct (decide (i = j)) as [<- | N].
    + exists i, t'. rewrite (insert_eq _ _ _ _ Hi). conj; congruence.
    + exists j, u. rewrite list_lookup_insert_ne by done. auto.
Qed.

(** The object of a removed partition is unassigned, and stopped if it is started. *)
Lemma core_removal ts A P Q R S E x i t t' :
  core ts A P Q (x :: R) S E -> x.2 = Some i -> ts !! i = Some t ->
  toppar_key t' = toppar_key t -> rktp_started t' = rktp_started t ->
  rktp_assigned t' = false -> rktp_desired t' = false -> (linked t' -> linked t) ->
  core (<[i := t']> ts) A P Q R (if rktp_started t then S ++ [i] else S) E.
Proof.
  intros [H1 H2 H3 H4 H5 H6 H7 H8 H9 H10 H11 H12] Hx Hi Ek Es Ea Ed El.
  assert (Hp : A ++ x :: R ≡ₚ x :: A ++ R) by (symmetry; apply Permutation_middle).
  rewrite Hp in H2. cbn in H2. apply list.NoDup_cons in H2 as [Hn H2].
  assert (Hxin : x ∈ A ++ x :: R) by (rewrite Hp; now left).
  assert (Hsub : forall y, y ∈ A ++ R -> y ∈ A ++ x :: R) by (intros y Hy; rewrite Hp; now right).
  assert (Hne : forall y, y ∈ A ++ R -> y.2 <> Some i).
  { intros y Hy E2. apply Hn. replace x with y; [apply list_elem_of_fmap; eauto |].
    apply (holds_id_obj ts); [auto.. | congruence]. }
  assert (HS : i ∉ S) by (intros Hin; apply (H11 i x Hin); [left | done]).
  assert (HS' : forall j, j ∈ (if rktp_started t then S ++ [i] else S) -> j ∈ S \/ j = i /\ rktp_started t = true).
  { intros j. destruct (rktp_started t); [| tauto]. rewrite elem_of_app, list_elem_of_singleton. tauto. }
  assert (HSm : forall j, j ∈ S -> j ∈ (if rktp_started t then S ++ [i] else S)).
  { intros j Hj. destruct (rktp_started t); [rewrite elem_of_app; tauto | done]. }
  constructor; try done.
  - apply (toppars_ok_insert _ _ t); auto. congruence.
  - intros y Hy. apply (holds_id_insert _ _ t); auto.
  - intros j u [[-> ->] | [Nj Hj]]%insert_cases.
    + rewrite Ea. split; [done |]. intros (y & Hy & Hy2). now destruct (Hne y Hy).
    + rewrite (H6 j u Hj). setoid_rewrite Hp. setoid_rewrite elem_of_cons.
      split; [| intros (y & ? & ?); eauto]. intros (y & [-> | ?] & ?); [congruence | eauto].
  - intros j u [[-> ->] | [Nj Hj]]%insert_cases Hs.
    + left. rewrite Es in Hs. rewrite Hs. apply elem_of_app. right. now apply list_elem_of_singleton.
    + destruct (H7 j u Hj Hs) as [? | (y & Hy & Hy2 & Hq)]; [auto | right]. exists y.
      rewrite Hp, elem_of_cons in Hy. destruct Hy as [-> | Hy]; [congruence | auto].
  - destruct (rktp_started t); [| done]. apply list.NoDup_app. split; [done |].
    split; [| apply NoDup_singleton]. now intros j Hj ->%list_elem_of_singleton.
  - intros j [Hj | [-> Hs]]%HS'.
    + destruct (H9 j Hj) as (u & Hu & Hs). exists u. rewrite list_lookup_insert_ne by congruence. done.
    + exists t'. rewrite (insert_eq _ _ _ _ Hi). split; congruence.
  - intros j y [Hj | [-> Hs]]%HS' Hy E2; [now apply (H10 j) |].
    destruct (Hne y); [apply elem_of_app; tauto | done].
  - intros j y [Hj | [-> Hs]]%HS' Hy; [apply (H11 j y Hj); now right |].
    apply Hne, elem_of_app. tauto.
  - intros y Hy. destruct (H12 y Hy) as [? | [(j & u & ? & ? & ? & Hj) | ?]]; [tauto | | tauto].
    assert (j <> i) by (intros ->; apply (Hne y); [apply elem_of_app; tauto | done]).
    right. left. exists j, u. rewrite list_lookup_insert_ne by congruence. conj.
    intros [? | [? _]]%HS'; tauto.
Qed.

(** A pending partition is not started unless its object is still being stopped. *)
Lemma core_pending_stopped ts A P Q R S E x i t :
  core ts A P Q R S E -> x ∈ P -> x.2 = Some i -> ts !! i = Some t -> i ∉ S ->
  rktp_started t = false.
Proof.
  intros C Hx Hp Hi HS. apply not_true_iff_false. intros Hs.
  destruct (co_started _ _ _ _ _ _ _ C i t Hi Hs) as [? | (y & Hy & Hy2 & Hn)]; [done |].
  apply Hn, elem_of_app. left. replace y with x; [done |].
  assert (Hx' : x ∈ A) by (apply (co_sub _ _ _ _ _ _ _ C), elem_of_app; tauto).
  apply (holds_id_obj ts); [apply (co_holds _ _ _ _ _ _ _ C).. | congruence];
    [apply elem_of_app; tauto | done].
Qed.

Lemma pq_drop P Q x y :
  NoDup (P ++ Q).*1 -> x ∈ P -> y ∈ P ++ Q -> y = x \/ y ∈ drop_key x.1 P ++ Q.
Proof.
  intros Hd Hx Hy. destruct (decide (y.1 = x.1)) as [E | N].
  - left. apply (fst_unique (P ++ Q)); [done.. | apply elem_of_app; tauto | done].
  - right. rewrite elem_of_app, elem_of_drop_key in *. tauto.
Qed.

(** The fetcher of a pending partition is started. *)
Lemma core_start ts A P Q R E x i t :
  core ts A P Q R [] E -> x ∈ P -> x.2 = Some i -> ts !! i = Some t ->
  core (<[i := toppar_set_started t true]> ts) A (drop_key x.1 P) Q R [] E.
Proof.
  intros [H1 H2 H3 H4 H5 H6 H7 H8 H9 H10 H11 H12] Hx Hp Hi.
  assert (HxA : x ∈ A) by (apply H5, elem_of_app; tauto).
  assert (Hs : forall y, y ∈ drop_key x.1 P ++ Q -> y ∈ P ++ Q).
  { intros y. rewrite !elem_of_app, elem_of_drop_key. tauto. }
  assert (Hxn : x ∉ drop_key x.1 P ++ Q).
  { rewrite fmap_app in H3. apply list.NoDup_app in H3 as (_ & Hn & _).
    intros [[_ ?]%elem_of_drop_key | Hq]%elem_of_app; [done |].
    apply (Hn x.1); apply list_elem_of_fmap; eauto. }
  constructor; try done.
  - apply (toppars_ok_insert _ _ t); auto. intros Hd. apply (ts_desired ts H1 i t Hi Hd).
  - rewrite fmap_app in *. apply list.NoDup_app in H3 as (Ha & Hn & Hb).
    apply list.NoDup_app. split; [now apply drop_key_nodup |]. split; [| done].
    intros k (y & -> & [Hy _]%elem_of_drop_key)%list_elem_of_fmap. apply Hn, list_elem_of_fmap. eauto.
  - intros y Hy. apply (holds_id_insert _ _ t); auto.
    destruct (H4 y Hy) as (j & u & ? & Hj & _ & Hd). destruct (decide (j = i)) as [-> | N].
    + right. cbn. congruence.
    + left. congruence.
  - auto.
  - intros j u [[-> ->] | [Nj Hj]]%insert_cases; [apply (H6 i t Hi) | auto].
  - intros j u [[-> ->] | [Nj Hj]]%insert_cases Hu; right.
    + exists x. rewrite elem_of_app. auto.
    + destruct (H7 j u Hj Hu) as [Hin | (y & ? & ? & Hn)]; [inversion Hin |].
      exists y. repeat (split; [done |]). intros Hq. now apply Hn, Hs.
  - intros j Hj. inversion Hj.
  - intros j y Hj. inversion Hj.
  - intros y Hy. destruct (H12 y Hy) as [Hpq | [Hr | ?]]; [| | tauto].
    + destruct (pq_drop P Q x y) as [-> | ?]; auto. right. left.
      exists i, (toppar_set_started t true). rewrite (insert_eq _ _ _ _ Hi). conj.
      intros Hin. inversion Hin.
    + right. left. destruct Hr as (j & u & ? & Hj & ? & ?).
      destruct (decide (j = i)) as [-> | N].
      * exists i, (toppar_set_started t true). rewrite (insert_eq _ _ _ _ Hi). conj.
      * exists j, u. rewrite list_lookup_insert_ne by done. conj.
Qed.

(** The committed offset of a pending partition is asked for. *)
Lemma core_query ts A P Q R E x :
  core ts A P Q R [] E -> x ∈ P -> core ts A (drop_key x.1 P) (Q ++ [x]) R [] E.
Proof.
  intros [H1 H2 H3 H4 H5 H6 H7 H8 H9 H10 H11 H12] Hx.
  assert (Hs : forall y, y ∈ drop_key x.1 P ++ Q ++ [x] <-> y ∈ P ++ Q).
  { intros y. split.
    - rewrite !elem_of_app, elem_of_drop_key, list_elem_of_singleton. intros [? | [? | ->]]; tauto.
    - intros Hy. destruct (pq_drop P Q x y) as [-> | Hy']; [done.. | |];
        rewrite !elem_of_app, ?list_elem_of_singleton in *; tauto. }
  constructor; try done.
  - rewrite app_assoc, (Permutation_app_comm _ [x]). cbn. apply list.NoDup_cons.
    rewrite fmap_app in *. apply list.NoDup_app in H3 as (Ha & Hn & Hb). split.
    + intros [(y & E2 & [Hy Ny]%elem_of_drop_key)%list_elem_of_fmap | Hq]%elem_of_app; [congruence |].
      apply (Hn x.1); [apply list_elem_of_fmap; eauto | done].
    + apply list.NoDup_app. split; [now apply drop_key_nodup |]. split; [| done].
      intros k (y & -> & [Hy _]%elem_of_drop_key)%list_elem_of_fmap. apply Hn, list_elem_of_fmap. eauto.
  - intros y. rewrite Hs. apply H5.
  - intros i t Hi Ht. destruct (H7 i t Hi Ht) as [? | (y & ? & ? & ?)]; [tauto | right].
    exists y. now rewrite Hs.
  - intros i y Hi. inversion Hi.
  - intros y Hy. rewrite Hs. auto.
Qed.

(** An answer puts a queried partition back on the pending ones. *)
Lemma core_requery ts A P Q R S E x :
  core ts A P Q R S E -> x ∈ Q -> core ts A (P ++ [x]) (drop_key x.1 Q) R S E.
Proof.
  intros [H1 H2 H3 H4 H5 H6 H7 H8 H9 H10 H11 H12] Hx.
  assert (Hd : NoDup (Q ++ P).*1) by now rewrite (Permutation_app_comm Q).
  assert (Hs : forall y, y ∈ (P ++ [x]) ++ drop_key x.1 Q <-> y ∈ P ++ Q).
  { intros y. split.
    - rewrite !elem_of_app, elem_of_drop_key, list_elem_of_singleton. intros [[? | ->] | ?]; tauto.
    - rewrite (Permutation_app_comm P). intros Hy.
      destruct (pq_drop Q P x y) as [-> | Hy']; [done.. | |];
        rewrite !elem_of_app, ?list_elem_of_singleton in *; tauto. }
  constructor; try done.
  - rewrite (Permutation_app_comm _ [x]). cbn. apply list.NoDup_cons.
    rewrite fmap_app in *. apply list.NoDup_app in Hd as (Ha & Hn & Hb). split.
    + intros [Hq | (y & E2 & [Hy Ny]%elem_of_drop_key)%list_elem_of_fmap]%elem_of_app; [| congruence].
      apply (Hn x.1); [apply list_elem_of_fmap; eauto | done].
    + apply list.NoDup_app. split; [done |]. split; [| now apply drop_key_nodup].
      intros k Hk (y & -> & [Hy _]%elem_of_drop_key)%list_elem_of_fmap.
      apply (Hn y.1); [apply list_elem_of_fmap; eauto | done].
  - intros y. rewrite Hs. apply H5.
  - intros i t Hi Ht. destruct (H7 i t Hi Ht) as [? | (y & ? & ? & ?)]; [tauto | right].
    exists y. now rewrite Hs.
  - intros i y Hi Hy Hy2. apply elem_of_app. left. now apply (H10 i).
  - intros y Hy. rewrite Hs. auto.
Qed.

(** An answer with an error leaves it on the assignment only. *)
Lemma core_unquery ts A P Q R S (E : string * Z -> Prop) x :
  core ts A P Q R S E -> x ∈ Q -> E x.1 -> core ts A P (drop_key x.1 Q) R S E.
Proof.
  intros [H1 H2 H3 H4 H5 H6 H7 H8 H9 H10 H11 H12] Hx He.
  assert (Hd : NoDup (Q ++ P).*1) by now rewrite (Permutation_app_comm Q).
  assert (Hs : forall y, y ∈ P ++ drop_key x.1 Q -> y ∈ P ++ Q).
  { intros y. rewrite !elem_of_app, elem_of_drop_key. tauto. }
  constructor; try done.
  - rewrite fmap_app in *. apply list.NoDup_app in H3 as (Ha & Hn & Hb).
    apply list.NoDup_app. split; [done |]. split; [| now apply drop_key_nodup].
    intros k Hk (y & -> & [Hy _]%elem_of_drop_key)%list_elem_of_fmap.
    apply (Hn y.1 Hk), list_elem_of_fmap. eauto.
  - auto.
  - intros i t Hi Ht. destruct (H7 i t Hi Ht) as [? | (y & ? & ? & Hn)]; [tauto | right].
    exists y. repeat (split; [done |]). intros Hq. now apply Hn, Hs.
  - intros y Hy. destruct (H12 y Hy) as [Hpq | ?]; [| tauto].
    rewrite (Permutation_app_comm P) in Hpq. destruct (pq_drop Q P x y) as [-> | ?]; auto.
    left. rewrite (Permutation_app_comm P). done.
Qed.

(** A stop is answered. *)
Lemma core_stopped ts A P Q R S S' E i t :
  core ts A P Q R S E -> S ≡ₚ i :: S' -> ts !! i = Some t ->
  core (<[i := toppar_set_started t false]> ts) A P Q R S' E.
Proof.
  intros [H1 H2 H3 H4 H5 H6 H7 H8 H9 H10 H11 H12] HS Hi.
  rewrite HS in H8. apply list.NoDup_cons in H8 as [Hn H8].
  assert (HiS : i ∈ S) by (rewrite HS; left).
  assert (Hs : forall j, j ∈ S' -> j ∈ S) by (intros j; rewrite HS; now right).
  constructor; try done.
  - apply (toppars_ok_insert _ _ t); auto. intros Hd. apply (ts_desired ts H1 i t Hi Hd).
  - intros y Hy. apply (holds_id_insert _ _ t); auto.
    destruct (H4 y Hy) as (j & u & ? & Hj & _ & Hd). destruct (decide (j = i)) as [-> | N].
    + right. cbn. congruence.
    + left. congruence.
  - intros j u [[-> ->] | [Nj Hj]]%insert_cases; [apply (H6 i t Hi) | auto].
  - intros j u [[-> ->] | [Nj Hj]]%insert_cases Hu; [done |].
    destruct (H7 j u Hj Hu) as [Hin | ?]; [| tauto].
    rewrite HS in Hin. apply elem_of_cons in Hin as [? | ?]; tauto.
  - intros j Hj. destruct (H9 j (Hs j Hj)) as (u & Hu & ?). exists u.
    rewrite list_lookup_insert_ne by congruence. done.
  - eauto.
  - eauto.
  - intros y Hy. destruct (H12 y Hy) as [? | [(j & u & ? & ? & ? & Hj) | ?]]; [tauto | | tauto].
    right. left. exists j, u. rewrite list_lookup_insert_ne by congruence. conj. auto.
Qed.

(** A partition is added, pending, its object marked assigned. *)
Lemma core_add ts A P Q R S E x i t t' :
  core ts A P Q R S E -> holds_id ts x -> x.1 ∉ (A ++ R).*1 -> x.2 = Some i -> ts !! i = Some t ->
  toppar_key t' = toppar_key t -> rktp_started t' = rktp_started t ->
  rktp_assigned t' = true -> rktp_desired t' = rktp_desired t -> (linked t' <-> linked t) ->
  core (<[i := t']> ts) (A ++ [x]) (P ++ [x]) Q R S E.
Proof.
  intros [H1 H2 H3 H4 H5 H6 H7 H8 H9 H10 H11 H12] Hh Hx Hp Hi Ek Es Ea Ed El.
  assert (HA : (A ++ [x]) ++ R ≡ₚ x :: A ++ R).
  { rewrite <- app_assoc. symmetry. apply Permutation_middle. }
  assert (HP : (P ++ [x]) ++ Q ≡ₚ x :: P ++ Q).
  { rewrite <- app_assoc. symmetry. apply Permutation_middle. }
  assert (Hd : rktp_desired t' = true -> linked t').
  { intros Hd. apply El, (ts_desired ts H1 i t Hi). congruence. }
  assert (Hh' : forall y, holds_id ts y -> holds_id (<[i := t']> ts) y).
  { intros y Hy. apply (holds_id_insert _ _ t); auto. right. rewrite Ed.
    destruct Hh as (j & u & ? & ? & _ & ?). congruence. }
  constructor; try done.
  - apply (toppars_ok_insert _ _ t); auto. tauto.
  - rewrite HA. now constructor.
  - rewrite HP. cbn. constructor; [| done]. intros (y & Ey & Hy)%list_elem_of_fmap.
    apply Hx. rewrite Ey. apply list_elem_of_fmap. exists y. rewrite elem_of_app. auto.
  - intros y. rewrite HA. intros [-> | Hy]%elem_of_cons; auto.
  - intros y. rewrite HP, elem_of_app, list_elem_of_singleton.
    intros [-> | Hy]%elem_of_cons; auto.
  - intros j u [[-> ->] | [Nj Hj]]%insert_cases; setoid_rewrite HA; setoid_rewrite elem_of_cons.
    + rewrite Ea. split; [eauto | done].
    + rewrite (H6 j u Hj). split; intros (y & Hy & ?); [eauto |].
      destruct Hy as [-> | ?]; [congruence | eauto].
  - assert (Hst : forall j u, ts !! j = Some u -> rktp_started u = true ->
      j ∈ S \/ exists y, y ∈ (A ++ [x]) ++ R /\ y.2 = Some j /\ y ∉ (P ++ [x]) ++ Q).
    { intros j u Hj Hs. destruct (H7 j u Hj Hs) as [? | (y & ? & ? & Hn)]; [tauto | right].
      exists y. rewrite HA, HP, !elem_of_cons. repeat (split; [tauto |]). intros [-> | ?]; [| tauto].
      apply Hx, list_elem_of_fmap. eauto. }
    intros j u [[-> ->] | [Nj Hj]]%insert_cases Hs; [| eauto]. apply (Hst i t Hi). congruence.
  - intros j Hj. destruct (H9 j Hj) as (u & Hu & Hs). destruct (decide (i = j)) as [<- | N].
    + exists t'. rewrite (insert_eq _ _ _ _ Hi). split; congruence.
    + exists u. now rewrite list_lookup_insert_ne by done.
  - intros j y Hj Hy Hy2. apply elem_of_app. apply elem_of_app in Hy as [Hy | Hy]; [| tauto].
    left. now apply (H10 j).
  - intros y Hy. rewrite HP, elem_of_cons. apply elem_of_app in Hy as [Hy | Hy%list_elem_of_singleton]; [| tauto].
    destruct (H12 y Hy) as [? | [? | ?]]; [tauto | | tauto].
    right. left. apply (running_insert _ _ t); auto.
Qed.
