(* ===== verification/AssignSteps.v ===== *)
(** * The operations of an assignment keep its invariant

    For each operation of [Assignment]: it does not fail an assertion, what it
    leaves, and that the invariant of [AssignInv] holds of that. *)

From stdpp Require Import gmap strings sorting.
From S2P Require Import Prelude Msgq Sort TpList TpListFacts TpListProps Assignment AssignFacts AssignInv.

(** ** The invariant of the consumer *)

Definition errored (evs : list asg_ev) (k : string * Z) : Prop :=
  exists err, EvConsumerErr err (Some k) ∈ evs \/ EvConsumerErr err None ∈ evs.

(** The errors with which a commit is sent back. *)
Definition own_errors : list Z :=
  [RD_KAFKA_RESP_ERR__ASSIGNMENT_LOST; RD_KAFKA_RESP_ERR__FATAL; RD_KAFKA_RESP_ERR__NO_OFFSET;
   RD_KAFKA_RESP_ERR__WAIT_COORD].

(** A commit sent to the coordinator has offsets, one sent back an error, and one that
    waits for the coordinator is counted already. *)
Definition commit_ok (x : commit_op * commit_at) : Prop :=
  match x.2 with
  | AtCoord => co_partitions x.1 <> None
  | AtSelf err => err ∈ own_errors
  | AtWaitCoord => co_reprocess x.1 = true
  end.

(** With [removed] in place of the assignment's list. *)
Record asg_inv0 (c : consumer) (removed : list tp) : Prop := {
  inv_core : core (c_toppars c) (idents (asg_all (c_asg c))) (idents (asg_pending (c_asg c)))
    (idents (asg_queried (c_asg c))) (idents removed) (c_stops c) (errored (c_evs c));
  inv_wait_stop : asg_wait_stop_cnt (c_asg c) = zlen (c_stops c);
  inv_started : asg_started_cnt (c_asg c) = started_cnt (c_toppars c);
  inv_commits : c_wait_commit_cnt c = zlen (c_commits c);
  inv_commits_ok : Forall commit_ok (c_commits c) }.

Definition asg_inv (c : consumer) : Prop := asg_inv0 c (asg_removed (c_asg c)).

(** Nothing is left to decommission. *)
Definition asg_ok (c : consumer) : Prop := asg_inv c /\ asg_removed (c_asg c) = [].

(** What serving does not touch. *)
Record served (c c' : consumer) : Prop := {
  sv_all : asg_all (c_asg c') = asg_all (c_asg c);
  sv_version : asg_version (c_asg c') = asg_version (c_asg c);
  sv_evs : exists evs, c_evs c' = c_evs c ++ evs /\ Forall (fun ev => ev <> EvAssignmentDone) evs }.

#[export] Instance served_refl : Reflexive served.
Proof. intros c. split; [done.. |]. exists []. now rewrite app_nil_r. Qed.

#[local] Ltac quiet := cbn; rewrite <- ?app_assoc; eexists; split; [done | repeat constructor; done].

#[export] Instance served_trans : Transitive served.
Proof.
  intros a b c [H1 H2 (l & H3 & Q)] [H4 H5 (l' & H6 & Q')]. split; [congruence.. |].
  exists (l ++ l'). rewrite H6, H3, app_assoc. split; [done |]. now apply list.Forall_app.
Qed.

Lemma errored_app evs evs' k : errored evs k -> errored (evs ++ evs') k.
Proof. intros (err & H). exists err. rewrite !elem_of_app. tauto. Qed.

Lemma inv_emit c r ev : asg_inv0 c r -> asg_inv0 (c_emit c ev) r.
Proof.
  intros [H1 H2 H3 H4 H5]. constructor; try done. cbn. eapply core_errs; [exact H1 |].
  intros k. apply errored_app.
Qed.

Lemma keys_idents es : NoDup (idents es).*1 -> NoDup (keys es).
Proof. now rewrite idents_fst. Qed.

Lemma inv_pending_nodup c r : asg_inv0 c r -> NoDup (keys (asg_pending (c_asg c))).
Proof.
  intros [C _ _ _ _]. pose proof (co_pq _ _ _ _ _ _ _ C) as H. rewrite fmap_app, !idents_fst in H.
  now apply list.NoDup_app in H as [H _].
Qed.

Lemma inv_queried_nodup c r : asg_inv0 c r -> NoDup (keys (asg_queried (c_asg c))).
Proof.
  intros [C _ _ _ _]. pose proof (co_pq _ _ _ _ _ _ _ C) as H. rewrite fmap_app, !idents_fst in H.
  now apply list.NoDup_app in H as (_ & _ & H).
Qed.

Lemma inv_all_nodup c r : asg_inv0 c r -> NoDup (keys (asg_all (c_asg c))).
Proof.
  intros [C _ _ _ _]. pose proof (co_keys _ _ _ _ _ _ _ C) as H. rewrite fmap_app, !idents_fst in H.
  now apply list.NoDup_app in H as [H _].
Qed.

Lemma inv_all_holds c r e : asg_inv0 c r -> e ∈ asg_all (c_asg c) -> holds (c_toppars c) e.
Proof.
  intros [C _ _ _ _] He. apply (co_holds _ _ _ _ _ _ _ C (ident e)), elem_of_app. left.
  apply elem_of_idents. eauto.
Qed.

(** A pending or queried element is the assignment's. *)
Lemma inv_sub c r e :
  asg_inv0 c r -> e ∈ asg_pending (c_asg c) ++ asg_queried (c_asg c) ->
  exists e', e' ∈ asg_all (c_asg c) /\ ident e' = ident e.
Proof.
  intros [C _ _ _ _] He. apply elem_of_idents, (co_sub _ _ _ _ _ _ _ C).
  rewrite <- idents_app. apply elem_of_idents. eauto.
Qed.

Lemma inv_pq_holds c r e :
  asg_inv0 c r -> e ∈ asg_pending (c_asg c) ++ asg_queried (c_asg c) -> holds (c_toppars c) e.
Proof.
  intros H He. destruct (inv_sub c r e H He) as (e' & He' & E).
  change (holds_id (c_toppars c) (ident e)). rewrite <- E. now apply (inv_all_holds c r).
Qed.

Lemma in_idents e es : e ∈ es -> ident e ∈ idents es.
Proof. intros H. apply elem_of_idents. eauto. Qed.

(** Changes of the partition objects only. *)
Lemma inv_toppars c r ts :
  asg_inv0 c r -> toppars_ok ts -> toppars_ext (c_toppars c) ts -> asg_inv0 (c_set_toppars c ts) r.
Proof.
  intros [H1 H2 H3 H4 H5] Hok Hx. constructor; try done; cbn.
  - now apply (core_ext (c_toppars c)).
  - now rewrite (started_cnt_ext _ _ Hx).
Qed.

Lemma inv_toppars_ok c r : asg_inv0 c r -> toppars_ok (c_toppars c).
Proof. intros [C _ _ _ _]. apply (co_ts _ _ _ _ _ _ _ C). Qed.

(** ** Removals *)

Lemma desired_del_spec t :
  let '(t', leave) := rd_kafka_toppar_desired_del t in
  toppar_key t' = toppar_key t /\ rktp_started t' = rktp_started t /\
  rktp_assigned t' = rktp_assigned t /\ rktp_desired t' = false /\
  (linked t' -> linked t).
Proof.
  unfold rd_kafka_toppar_desired_del, linked. destruct (rktp_desired t) eqn:E; cbn; [| auto 6].
  repeat split. intros [? | ?]; [tauto | done].
Qed.

Lemma serve_removal_spec c e es :
  asg_inv0 c (e :: es) ->
  exists c' e', serve_removal c e = Some (c', e') /\ asg_inv0 c' es /\ served c c' /\
    ident e' = ident e /\ c_commits c' = c_commits c /\ c_fetches c' = c_fetches c /\
    asg_pending (c_asg c') = asg_pending (c_asg c) /\
    asg_queried (c_asg c') = asg_queried (c_asg c) /\
    c_stops c `prefix_of` c_stops c' /\ asg_started_cnt (c_asg c') = asg_started_cnt (c_asg c).
Proof.
  intros H. pose proof (inv_pending_nodup _ _ H) as Dp. pose proof (inv_queried_nodup _ _ H) as Dq.
  assert (Hn : tp_key e ∉ keys (asg_pending (c_asg c) ++ asg_queried (c_asg c))).
  { intros (e' & He & Ek)%elem_of_keys. destruct (inv_sub c _ e' H He) as (e0 & He0 & E0).
    destruct H as [C _ _ _ _]. pose proof (co_keys _ _ _ _ _ _ _ C) as D.
    rewrite fmap_app, !idents_fst in D. apply list.NoDup_app in D as (_ & D & _).
    apply (D (tp_key e)); [| left]. apply elem_of_keys. exists e0. split; [done |].
    unfold ident in E0. congruence. }
  rewrite keys_app, not_elem_of_app in Hn. destruct Hn as [Np Nq].
  destruct c as [a wc ts js lost st co fe ev]. unfold serve_removal. cbn [c_asg] in *.
  rewrite !elems_del_spec by done. cbn [c_set_asg c_asg c_toppars].
  rewrite (without_notin _ _ (asg_pending a) Np), (without_notin _ _ (asg_queried a) Nq).
  destruct H as [C Hw Hs Hc Hco]. cbn in C, Hw, Hs, Hc.
  destruct (co_holds _ _ _ _ _ _ _ C (ident e)) as (i & t & Hp & Hi & Hk & Hd).
  { apply elem_of_app. right. left. }
  cbn in Hp. rewrite Hp, Hi.
  assert (Ha : rktp_assigned t = true).
  { apply (co_assigned _ _ _ _ _ _ _ C i t Hi). exists (ident e). split; [| done].
    apply elem_of_app. right. left. }
  pose proof (desired_del_spec (toppar_set_stored t RD_KAFKA_OFFSET_INVALID)) as D.
  cbn [rd_kafka_offset_store0 negb andb].
  destruct (rd_kafka_toppar_desired_del (toppar_set_stored t RD_KAFKA_OFFSET_INVALID)) as [t1 lv].
  destruct D as (D1 & D2 & D3 & D4 & D5).
  pose proof (core_removal _ _ _ _ _ _ _ _ _ _ (toppar_set_assigned t1 false) C Hp Hi) as C'.
  unfold rd_assert. cbn [rktp_assigned toppar_set_stored] in D3. rewrite D3, Ha.
  cbn [rktp_started toppar_set_stored] in D2.
  destruct (rktp_started t) eqn:Es.
  - assert (0 < started_cnt ts) by now apply (started_cnt_pos _ i t). cbn. rewrite Hs. ztest.
    eexists _, _. split; [done |]. split; [constructor | split; [constructor |]].
    1: { destruct lv; cbn; (eapply core_errs; [apply C' |]); try done; intros k0 Hk0;
         rewrite <- ?app_assoc; now apply errored_app. }
    1: { destruct lv; cbn; rewrite Hw, length_app; cbn; lia. }
    1: { destruct lv; cbn; rewrite (started_cnt_insert _ _ t) by done; cbn; rewrite D2, Es; lia. }
    1, 2, 3, 4: destruct lv; done.
    1: { destruct lv; quiet. }
    destruct lv; cbn; (split; [done |]); repeat (split; [done |]); (split; [now apply prefix_app_r | done]).
  - cbn. eexists _, _. split; [done |]. split; [constructor | split; [constructor |]].
    1: { destruct lv; cbn; (eapply core_errs; [apply C' |]); try done; intros k0 Hk0;
         rewrite <- ?app_assoc; now apply errored_app. }
    1: { destruct lv; cbn; rewrite Hw; done. }
    1: { destruct lv; cbn; rewrite (started_cnt_insert _ _ t) by done; cbn; rewrite D2, Es; lia. }
    1, 2, 3, 4: destruct lv; done.
    1: { destruct lv; quiet. }
    destruct lv; cbn; repeat (split; [done |]); done.
Qed.

(** What removals leave alone. *)
Record removal_frame (c c' : consumer) : Prop := {
  rf_served : served c c';
  rf_commits : c_commits c' = c_commits c;
  rf_fetches : c_fetches c' = c_fetches c;
  rf_pending : asg_pending (c_asg c') = asg_pending (c_asg c);
  rf_queried : asg_queried (c_asg c') = asg_queried (c_asg c);
  rf_stops : c_stops c `prefix_of` c_stops c';
  rf_started : asg_started_cnt (c_asg c') = asg_started_cnt (c_asg c) }.

Lemma serve_removals_loop_spec es c v :
  asg_inv0 c es ->
  exists c' es' v', serve_removals_loop c es v = Some (c', es', v') /\ asg_inv0 c' [] /\
    removal_frame c c' /\ idents es' = idents es.
Proof.
  revert c v. induction es as [| e es IH]; intros c v H; cbn.
  - eexists _, _, _. split; [done |]. split; [done |]. split; [now constructor | done].
  - destruct (serve_removal_spec c e es H) as (c1 & e1 & -> & H1 & F1 & Ei & Fc & Ff & Fp & Fq & Fs & Fst).
    destruct (IH c1 (v + (if RD_KAFKA_OFFSET_IS_LOGICAL (rktpar_offset e1) then 0 else 1)) H1)
      as (c2 & es2 & v2 & -> & H2 & [G1 G2 G3 G4 G5 G6 G7] & Ei').
    eexists _, _, _. split; [done |]. split; [done |]. split; [| unfold idents in *; cbn; congruence].
    constructor; try congruence; etransitivity; eassumption.
Qed.

(** ** Commits *)

Lemma set_offsets_loop_some tps d es v :
  Forall (fun e => rktpar_private e <> None) es ->
  exists es' v', set_offsets_loop tps true d es v = Some (es', v').
Proof.
  intros H. revert v. induction H as [| e es He _ IH]; intros v; cbn [set_offsets_loop]; [eauto |].
  unfold set_offsets_step. destruct (rktpar_private e) as [p |]; [| done].
  destruct (tps p) as [st co]. cbv zeta.
  edestruct IH as (es' & v' & ->). eauto.
Qed.

Lemma offsets_commit_dest_ok env rko v :
  (v <> 0 -> co_partitions rko <> None) -> commit_ok (offsets_commit_dest env rko v).
Proof.
  intros Hv. unfold offsets_commit_dest, rd_kafka_cgrp_defer_offset_commit.
  destruct (ge_fatal env); [cbn; unfold own_errors; repeat constructor |].
  destruct (Z.eqb_spec v 0); [cbn; unfold own_errors; repeat constructor |].
  destruct (ge_up env); cbn; [auto |].
  destruct (_ || _); [cbn; unfold own_errors; repeat constructor | done].
Qed.

(** Only the outstanding commits change, by one at their end. *)
Lemma offsets_commit_spec c env rko set_offsets :
  (forall e, e ∈ asg_all (c_asg c) -> rktpar_private e <> None) ->
  (set_offsets = true -> co_partitions rko = None) ->
  exists x, commit_ok x /\ rd_kafka_cgrp_offsets_commit c env rko set_offsets
    = Some (c_set_commits c (if co_reprocess rko then c_wait_commit_cnt c else c_wait_commit_cnt c + 1)
              (c_commits c ++ [x])).
Proof.
  intros Ha Hs. unfold rd_kafka_cgrp_offsets_commit.
  set (uc := match co_partitions rko with None => zlen (asg_all (c_asg c)) >? 0 | Some _ => false end).
  set (cnt := if co_reprocess rko then _ else _).
  destruct (uc && c_lost c).
  { exists (rko, AtSelf RD_KAFKA_RESP_ERR__ASSIGNMENT_LOST). split; [left | done]. }
  assert (G : forall r v, (v <> 0 -> co_partitions r <> None) -> exists x, commit_ok x /\
    (let '(r', at_) := offsets_commit_dest env r v in Some (c_set_commits c cnt (c_commits c ++ [(r', at_)])))
    = Some (c_set_commits c cnt (c_commits c ++ [x]))).
  { intros r v Hv. apply (offsets_commit_dest_ok env) in Hv.
    destruct (offsets_commit_dest env r v) as [r' a]. eauto. }
  cbv zeta. set (r0 := if uc then _ else rko).
  destruct (co_partitions r0) as [ps |] eqn:Ep; [| now apply G].
  destruct set_offsets; [| now apply G].
  assert (Hps : Forall (fun e => rktpar_private e <> None) ps).
  { subst r0. destruct uc; [| rewrite (Hs eq_refl) in Ep; done]. cbn in Ep. injection Ep as <-.
    apply list.Forall_forall. intros e (e0 & -> & He0)%list_elem_of_fmap. exact (Ha e0 He0). }
  destruct (set_offsets_loop_some (c_offsets (c_toppars c)) RD_KAFKA_OFFSET_INVALID ps 0 Hps)
    as (ps' & v' & ->). now apply G.
Qed.

Lemma inv_all_private c r e : asg_inv0 c r -> e ∈ asg_all (c_asg c) -> rktpar_private e <> None.
Proof. intros H He. destruct (inv_all_holds c r e H He) as (i & _ & -> & _). done. Qed.

Lemma inv_commit c r x : asg_inv0 c r -> commit_ok x ->
  asg_inv0 (c_set_commits c (c_wait_commit_cnt c + 1) (c_commits c ++ [x])) r.
Proof.
  intros [H1 H2 H3 H4 H5] Hx. constructor; try done; cbn.
  - rewrite length_app, H4. cbn. lia.
  - apply list.Forall_app. auto.
Qed.

Lemma assigned_offsets_commit_spec c env offsets set_offsets r :
  asg_inv0 c r -> (set_offsets = true -> offsets = None) ->
  exists c', rd_kafka_cgrp_assigned_offsets_commit c env offsets set_offsets = Some c' /\
    asg_inv0 c' r /\ c_asg c' = c_asg c /\ c_fetches c' = c_fetches c /\ c_evs c' = c_evs c /\
    c_stops c' = c_stops c /\ c_toppars c' = c_toppars c.
Proof.
  intros H Hs. unfold rd_kafka_cgrp_assigned_offsets_commit.
  destruct (c_lost c); [eexists; conj; done |].
  destruct (offsets_commit_spec c env (mk_commit (map tp_copy <$> offsets) true false false)
              set_offsets) as (x & Hx & ->).
  - intros e. now apply (inv_all_private c r).
  - intros E. now rewrite (Hs E).
  - eexists. split; [done |]. cbn. split; [now apply inv_commit | done].
Qed.

Lemma inv_removed c r l : asg_inv0 c r -> asg_inv0 (c_map_asg c (fun a => asg_set_removed a l)) r.
Proof. intros [H1 H2 H3 H4 H5]. now constructor. Qed.

Lemma serve_removals_spec c env :
  asg_inv c ->
  exists c', rd_kafka_assignment_serve_removals c env
      = Some (c', zlen (c_stops c') + zlen (c_commits c')) /\
    asg_ok c' /\ served c c' /\ c_fetches c' = c_fetches c /\
    asg_pending (c_asg c') = asg_pending (c_asg c) /\
    asg_queried (c_asg c') = asg_queried (c_asg c) /\ c_stops c `prefix_of` c_stops c' /\
    asg_started_cnt (c_asg c') = asg_started_cnt (c_asg c).
Proof.
  intros H. unfold rd_kafka_assignment_serve_removals.
  destruct (serve_removals_loop_spec _ c 0 H) as (c1 & es1 & v1 & -> & H1 & [F1 F2 F3 F4 F5 F6 F7] & Ei).
  assert (G : exists c2, (if (v1 >? 0) && ge_store_broker env && ge_auto_commit env
      && negb (ge_no_close env)
    then rd_kafka_cgrp_assigned_offsets_commit c1 env (Some es1) false else Some c1) = Some c2 /\
    asg_inv0 c2 [] /\ c_asg c2 = c_asg c1 /\ c_fetches c2 = c_fetches c1 /\ c_evs c2 = c_evs c1 /\
    c_stops c2 = c_stops c1 /\ c_toppars c2 = c_toppars c1).
  { destruct (_ && _).
    - apply (assigned_offsets_commit_spec _ _ _ _ []); done.
    - eexists. conj. exact H1. }
  destruct G as (c2 & -> & H2 & E1 & E2 & E3 & E4 & _).
  pose proof (inv_removed c2 [] [] H2) as H3.
  eexists. split; [f_equal; f_equal; destruct H3 as [_ -> _ -> _]; done |].
  split; [split; [exact H3 | done] |]. cbn. rewrite E1, E2, E4. repeat split; try done; try apply F1.
  - cbn. rewrite E1. apply F1.
  - cbn. rewrite E1. apply F1.
  - destruct F1 as [_ _ (l & Hl & Q)]. exists l. cbn. split; [congruence | done].
Qed.

(** ** Pending partitions *)

Lemma elems_delete es i e :
  NoDup (keys es) -> es !! i = Some e ->
  take i es ++ drop (S i) es = without (rktpar_topic e) (rktpar_partition e) es.
Proof.
  intros Hd He. change (rktpar_topic e, rktpar_partition e) with (tp_key e).
  rewrite <- (take_drop_middle _ _ _ He) at 3.
  rewrite <- (take_drop_middle _ _ _ He) in Hd. rewrite keys_app in Hd. cbn in Hd.
  apply list.NoDup_app in Hd as (_ & Hx & [Hn _]%list.NoDup_cons).
  unfold without. rewrite list.filter_app, filter_cons_False by tauto.
  f_equal; symmetry; apply without_notin; [| exact Hn].
  intros Hin. apply (Hx _ Hin). left.
Qed.

(** A pending element is started, queried or kept. *)
Lemma serve_pending_step_spec c r cq tq i e :
  asg_inv0 c r -> c_stops c = [] -> asg_pending (c_asg c) !! i = Some e ->
  exists c', asg_inv0 c' r /\ served c c' /\ c_stops c' = [] /\
    c_wait_commit_cnt c' = c_wait_commit_cnt c /\ c_commits c' = c_commits c /\
    c_fetches c' = c_fetches c /\ asg_removed (c_asg c') = asg_removed (c_asg c) /\
    let del := take i (asg_pending (c_asg c)) ++ drop (S i) (asg_pending (c_asg c)) in
    if offset_startable (rktpar_offset e) then
      serve_pending_step c cq tq i = Some (c', tq) /\ asg_pending (c_asg c') = del /\
      asg_queried (c_asg c') = asg_queried (c_asg c)
    else if cq then
      serve_pending_step c cq tq i = Some (c', tq ++ [tp_copy e]) /\
      asg_pending (c_asg c') = del /\
      asg_queried (c_asg c') = asg_queried (c_asg c) ++ [tp_copy e]
    else serve_pending_step c cq tq i = Some (c', tq) /\ c' = c.
Proof.
  intros H HS He. pose proof (inv_pending_nodup _ _ H) as Dp.
  assert (Hin : e ∈ asg_pending (c_asg c)) by now apply list_elem_of_lookup_2 in He.
  destruct (inv_pq_holds c r e H) as (p & t & Hp & Ht & Hk & Hd); [apply elem_of_app; tauto |].
  pose proof (elems_delete _ _ _ Dp He) as Ed.
  assert (Hns : rktp_started t = false).
  { destruct H as [C _ _ _ _]. rewrite HS in C.
    apply (core_pending_stopped _ _ _ _ _ _ _ (ident e) p t C); [now apply in_idents | done.. |].
    intros Hx. inversion Hx. }
  unfold serve_pending_step. rewrite He, Hp, Ht, Hns. cbn [negb rd_assert].
  destruct (offset_startable (rktpar_offset e)).
  - match goal with |- context [Some (?c1, tq) = _] => exists c1 end.
    split; [| split; [| repeat split; done]].
    + destruct c as [a wc ts js lost st co fe ev]. destruct H as [C Hw Hs Hc Hco]. cbn in *. subst st.
      constructor; cbn; try done.
      * rewrite Ed, idents_without. eapply core_errs; [apply (core_start _ _ _ _ _ _ (ident e)); eauto using in_idents |].
        intros k. rewrite <- app_assoc. apply errored_app.
      * rewrite (started_cnt_insert _ _ t) by done. rewrite Hns, Hs. cbn. lia.
    + split; [done.. |]. quiet.
  - destruct cq; [| exists c; done].
    match goal with |- context [Some (?c1, elems_add_copy tq e) = _] => exists c1 end.
    split; [| split; [| repeat split; done]].
    + destruct c as [a wc ts js lost st co fe ev]. destruct H as [C Hw Hs Hc Hco]. cbn in *. subst st.
      constructor; cbn; try done. rewrite Ed, idents_without. unfold elems_add_copy.
      rewrite idents_app. apply (core_query _ _ _ _ _ _ (ident e)); [done | now apply in_idents].
    + split; [done.. |]. exists []. cbn. now rewrite app_nil_r.
Qed.

(** The elements whose committed offset must be asked for first. *)
Definition to_ask (es : list tp) : list tp :=
  filter (fun e => offset_startable (rktpar_offset e) = false) es.

Definition kept (cq : bool) (es : list tp) : list tp := if cq then [] else to_ask es.

Lemma kept_snoc cq es e :
  kept cq (es ++ [e]) = kept cq es ++ (if cq || offset_startable (rktpar_offset e) then [] else [e]).
Proof.
  unfold kept, to_ask. destruct cq; [done |]. rewrite list.filter_app. f_equal.
  cbn [orb]. rewrite list.filter_cons. destruct (offset_startable (rktpar_offset e)) eqn:E;
    [now rewrite decide_False | now rewrite decide_True].
Qed.

(** What serving pending partitions leaves alone. *)
Record pending_frame (c c' : consumer) : Prop := {
  pf_served : served c c';
  pf_stops : c_stops c' = [];
  pf_wait_commit_cnt : c_wait_commit_cnt c' = c_wait_commit_cnt c;
  pf_commits : c_commits c' = c_commits c;
  pf_fetches : c_fetches c' = c_fetches c;
  pf_removed : asg_removed (c_asg c') = asg_removed (c_asg c) }.

Lemma pending_frame_trans a b c : pending_frame a b -> pending_frame b c -> pending_frame a c.
Proof.
  intros [H1 H2 H3 H4 H5 H6] [G1 G2 G3 G4 G5 G6].
  constructor; try congruence. etransitivity; eassumption.
Qed.

Lemma serve_pending_loop_spec n c r cq tq :
  asg_inv0 c r -> c_stops c = [] -> (n <= length (asg_pending (c_asg c)))%nat ->
  exists c' new, serve_pending_loop c cq tq n = Some (c', tq ++ new) /\ asg_inv0 c' r /\
    pending_frame c c' /\ asg_queried (c_asg c') = asg_queried (c_asg c) ++ new /\
    (cq = false -> new = []) /\
    asg_pending (c_asg c') = kept cq (take n (asg_pending (c_asg c))) ++ drop n (asg_pending (c_asg c)) /\
    Forall (fun e => e ∈ map tp_copy (to_ask (asg_pending (c_asg c)))) new.
Proof.
  revert c tq. induction n as [| i IH]; intros c tq H HS Hn; cbn [serve_pending_loop].
  { exists c, []. rewrite !app_nil_r. split; [done |]. split; [done |].
    split; [now constructor |]. repeat split; [now destruct cq | constructor]. }
  destruct (lookup_lt_is_Some_2 (asg_pending (c_asg c)) i Hn) as (e & He).
  destruct (serve_pending_step_spec c r cq tq i e H HS He)
    as (c1 & H1 & Fs & F1 & F2 & F3 & F4 & F5 & Hc).
  assert (Fr : pending_frame c c1) by now constructor.
  assert (Hin : e ∈ asg_pending (c_asg c)) by now apply list_elem_of_lookup_2 in He.
  rewrite (take_S_r _ _ _ He), kept_snoc, <- app_assoc.
  assert (Hlen : forall es, es = take i (asg_pending (c_asg c)) ++ drop (S i) (asg_pending (c_asg c)) ->
    (i <= length es)%nat /\ take i es = take i (asg_pending (c_asg c)) /\
    drop i es = drop (S i) (asg_pending (c_asg c)) /\ (forall x, x ∈ es -> x ∈ asg_pending (c_asg c))).
  { intros es ->. rewrite length_app, length_take, length_drop. split; [lia |].
    rewrite take_app_length', drop_app_length' by (rewrite length_take; lia). repeat split.
    intros x. rewrite elem_of_app. intros [Hx | Hx]; [now apply list.subseteq_take in Hx |
      now apply list.subseteq_drop in Hx]. }
  assert (Hask : forall es new, (forall x, x ∈ es -> x ∈ asg_pending (c_asg c)) ->
    Forall (fun e => e ∈ map tp_copy (to_ask es)) new ->
    Forall (fun e => e ∈ map tp_copy (to_ask (asg_pending (c_asg c)))) new).
  { intros es new Hs Hf. apply (list.Forall_impl _ _ _ Hf). intros x (y & -> & [Hy1 Hy2]%list_elem_of_filter)%list_elem_of_fmap.
    apply list_elem_of_fmap. exists y. split; [done |]. apply list_elem_of_filter. auto. }
  destruct (offset_startable (rktpar_offset e)) eqn:Est; [| destruct cq].
  - destruct Hc as (-> & Ep & Eq). destruct (Hlen _ Ep) as (L1 & L2 & L3 & L4).
    destruct (IH c1 tq H1 F1 L1) as (c' & new & -> & G1 & G2 & G3 & G4 & G5 & G6).
    exists c', new. rewrite L2, L3 in G5. rewrite orb_true_r, Eq in *.
    repeat (split; [eauto using pending_frame_trans |]). eauto.
  - destruct Hc as (-> & Ep & Eq). destruct (Hlen _ Ep) as (L1 & L2 & L3 & L4).
    destruct (IH c1 (tq ++ [tp_copy e]) H1 F1 L1) as (c' & new & -> & G1 & G2 & G3 & G4 & G5 & G6).
    exists c', (tp_copy e :: new). rewrite L2, L3 in G5. rewrite Eq, <- app_assoc in G3.
    rewrite <- app_assoc. repeat (split; [eauto using pending_frame_trans; done |]).
    constructor; [| eauto]. apply list_elem_of_fmap. exists e. split; [done |].
    now apply list_elem_of_filter.
  - destruct Hc as (-> & ->).
    destruct (IH c tq H HS ltac:(lia)) as (c' & new & -> & G1 & G2 & G3 & G4 & G5 & G6).
    exists c', new. repeat (split; [done |]). split; [| done]. rewrite G5. cbn [orb app].
    f_equal. now rewrite (drop_S _ _ _ He).
Qed.

Definition can_query (c : consumer) (env : group_env) : bool :=
  ge_coord env && (c_wait_commit_cnt c =? 0) && (zlen (asg_queried (c_asg c)) =? 0).

(** The requests and the queried partitions afterwards: none is sent, or one for the
    partitions that are now queried, none having been before. *)
Definition asks (c c' : consumer) : Prop :=
  c_fetches c' = c_fetches c /\ asg_queried (c_asg c') = asg_queried (c_asg c) \/
  c_fetches c' = c_fetches c ++ [(asg_version (c_asg c), asg_queried (c_asg c'))] /\
  asg_queried (c_asg c) = [] /\ asg_queried (c_asg c') <> [].

Lemma zlen_0 {A} (l : list A) : zlen l = 0 -> l = [].
Proof. destruct l; cbn; [done | lia]. Qed.

Lemma serve_pending_spec c r env :
  asg_inv0 c r -> c_stops c = [] ->
  exists c', rd_kafka_assignment_serve_pending c env
      = Some (c', zlen (asg_pending (c_asg c')) + zlen (asg_queried (c_asg c'))) /\
    asg_inv0 c' r /\ served c c' /\ c_stops c' = [] /\ c_commits c' = c_commits c /\
    asg_removed (c_asg c') = asg_removed (c_asg c) /\ asks c c' /\
    asg_pending (c_asg c') = kept (can_query c env) (asg_pending (c_asg c)) /\
    Forall (fun e => e ∈ asg_queried (c_asg c) \/ e ∈ map tp_copy (to_ask (asg_pending (c_asg c))))
      (asg_queried (c_asg c')).
Proof.
  intros H HS. unfold rd_kafka_assignment_serve_pending. fold (can_query c env).
  destruct (serve_pending_loop_spec (length (asg_pending (c_asg c))) c r (can_query c env) [] H HS)
    as (c1 & new & -> & H1 & [F1 F2 F3 F4 F5 F6] & Eq & En & Ep & Hn); [done |].
  rewrite take_ge, drop_ge, app_nil_r in Ep by done. rewrite app_nil_l.
  assert (Q : Forall (fun e => e ∈ asg_queried (c_asg c) \/
              e ∈ map tp_copy (to_ask (asg_pending (c_asg c)))) (asg_queried (c_asg c1))).
  { rewrite Eq. apply list.Forall_app. split; [apply list.Forall_forall; auto |].
    apply (list.Forall_impl _ _ _ Hn). auto. }
  destruct (can_query c env) eqn:Ec; cbn [negb].
  - destruct (zlen new >? 0) eqn:El.
    + eexists. split; [done |]. split; [destruct H1; now constructor |].
      apply andb_true_iff in Ec as [_ Ec%Z.eqb_eq%zlen_0].
      split; [destruct F1; now split |]. cbn. repeat (split; [done |]).
      split; [| done]. right. rewrite F5. rewrite Ec in Eq. cbn in Eq. subst new.
      split; [now rewrite (sv_version _ _ F1) |]. split; [done |]. intros En'. cbn in En'. now rewrite En' in El.
    + exists c1. repeat (split; [done |]). split; [| done]. left.
      assert (new = []) as -> by (apply zlen_0; zlia). now rewrite app_nil_r in Eq.
  - exists c1. repeat (split; [done |]). split; [| done]. left.
    rewrite (En eq_refl), app_nil_r in Eq. done.
Qed.

(** ** Serving *)

Definition finish (c : consumer) : consumer :=
  if rd_kafka_assignment_in_progress c then c else c_emit c EvAssignmentDone.

Lemma in_progress_lists c :
  asg_ok c -> rd_kafka_assignment_in_progress c = false <->
  c_commits c = [] /\ c_stops c = [] /\ asg_pending (c_asg c) = [] /\ asg_queried (c_asg c) = [].
Proof.
  intros [[_ Hw _ Hc _] Hr]. unfold rd_kafka_assignment_in_progress. rewrite Hw, Hc, Hr.
  rewrite !orb_false_iff. split.
  - intros [[[[? ?] ?] ?] _]. repeat split; apply zlen_0; zlia.
  - intros (-> & -> & -> & ->). done.
Qed.

Lemma finish_sum c n m :
  asg_ok c -> 0 <= n -> 0 <= m ->
  (rd_kafka_assignment_in_progress c = false -> n = 0 /\ m = 0) ->
  (n = 0 -> m = 0 -> c_stops c = [] -> c_commits c = [] -> asg_queried (c_asg c) = [] ->
   asg_pending (c_asg c) = []) ->
  (if n + m + zlen (asg_queried (c_asg c)) + asg_wait_stop_cnt (c_asg c) + c_wait_commit_cnt c =? 0
   then c_emit c EvAssignmentDone else c) = finish c.
Proof.
  intros Hok Hn Hm H1 H2. unfold finish. pose proof Hok as [[_ Hw _ Hc _] _]. rewrite Hw, Hc.
  destruct (rd_kafka_assignment_in_progress c) eqn:Ei.
  - destruct (Z.eqb_spec (n + m + zlen (asg_queried (c_asg c)) + zlen (c_stops c) + zlen (c_commits c)) 0)
      as [E | E]; [| done].
    assert (Hf : rd_kafka_assignment_in_progress c = false); [| congruence].
    apply in_progress_lists; [done |].
    assert (c_stops c = []) by (apply zlen_0; lia). assert (c_commits c = []) by (apply zlen_0; lia).
    assert (asg_queried (c_asg c) = []) by (apply zlen_0; lia). repeat split; auto.
    apply H2; auto; lia.
  - destruct (H1 eq_refl) as [-> ->].
    apply (in_progress_lists _ Hok) in Ei as (-> & -> & _ & ->). done.
Qed.

(** Serving leaves nothing to remove, signals that it is done exactly when nothing is
    in progress, and, without stops or commits outstanding, starts or asks for what is
    pending as far as it can. *)
Lemma serve_spec c env :
  asg_inv c ->
  exists c1, rd_kafka_assignment_serve c env = Some (finish c1) /\ asg_ok c1 /\ served c c1 /\
    c_stops c `prefix_of` c_stops c1 /\ asks c c1 /\
    Forall (fun e => e ∈ asg_queried (c_asg c) \/ e ∈ map tp_copy (to_ask (asg_pending (c_asg c))))
      (asg_queried (c_asg c1)) /\
    (c_stops c1 = [] -> c_commits c1 = [] ->
     asg_pending (c_asg c1)
     = kept (ge_coord env && (zlen (asg_queried (c_asg c)) =? 0)) (asg_pending (c_asg c))) /\
    (forall e, e ∈ asg_pending (c_asg c1) -> e ∈ asg_pending (c_asg c)) /\
    (asg_removed (c_asg c) = [] -> c_stops c1 = c_stops c /\ c_commits c1 = c_commits c) /\
    (c_stops c1 = [] /\ c_commits c1 = [] \/
     c_fetches c1 = c_fetches c /\ asg_pending (c_asg c1) = asg_pending (c_asg c) /\
     asg_started_cnt (c_asg c1) = asg_started_cnt (c_asg c)).
Proof.
  intros H. unfold rd_kafka_assignment_serve.
  assert (R : exists c1 n, (if zlen (asg_removed (c_asg c)) >? 0
      then rd_kafka_assignment_serve_removals c env else Some (c, 0)) = Some (c1, n) /\
    asg_ok c1 /\ served c c1 /\ c_fetches c1 = c_fetches c /\
    asg_pending (c_asg c1) = asg_pending (c_asg c) /\
    asg_queried (c_asg c1) = asg_queried (c_asg c) /\ c_stops c `prefix_of` c_stops c1 /\
    asg_started_cnt (c_asg c1) = asg_started_cnt (c_asg c) /\ 0 <= n /\ (n = 0 \/ n = zlen (c_stops c1) + zlen (c_commits c1)) /\
    (asg_removed (c_asg c) = [] -> c1 = c)).
  { destruct (zlen (asg_removed (c_asg c)) >? 0) eqn:Er.
    - destruct (serve_removals_spec c env H) as (c1 & -> & P). exists c1, (zlen (c_stops c1) + zlen (c_commits c1)).
      assert (0 <= zlen (c_stops c1) + zlen (c_commits c1)) by lia.
      assert (asg_removed (c_asg c) = [] -> c1 = c) by (intros E; now rewrite E in Er). tauto.
    - exists c, 0. assert (asg_removed (c_asg c) = []) by (apply zlen_0; zlia).
      conj. now split. }
  destruct R as (c1 & n & -> & Hok & F1 & F2 & F3 & F4 & F5 & F6 & Hn0 & Hn & Hsame). pose proof Hok as [H1 Hr].
  destruct H1 as [C1 Hw Hs Hc Hco].
  assert (Q0 : Forall (fun e => e ∈ asg_queried (c_asg c) \/
      e ∈ map tp_copy (to_ask (asg_pending (c_asg c)))) (asg_queried (c_asg c1))).
  { rewrite F4. apply list.Forall_forall. auto. }
  destruct (_ && (zlen (asg_pending (c_asg c1)) >? 0)) eqn:Eb.
  - zbool. rewrite Hw, Hc in *. assert (HS : c_stops c1 = []) by (apply zlen_0; lia).
    assert (HC : c_commits c1 = []) by (apply zlen_0; lia).
    destruct (serve_pending_spec c1 [] env) as (c2 & -> & I2 & G1 & G2 & G3 & G4 & G5 & G6 & G7);
      [now rewrite <- Hr | done |].
    assert (Hok2 : asg_ok c2) by (split; [unfold asg_inv; now rewrite G4, Hr | congruence]).
    exists c2. split.
    { f_equal. apply finish_sum; [done | lia.. | |]; [| intros; apply zlen_0; lia].
      intros Ei. apply (in_progress_lists _ Hok2) in Ei as (_ & _ & -> & ->). cbn. lia. }
    split; [done |]. split; [etransitivity; eassumption |]. rewrite G2, F4, F3 in *.
    split; [now rewrite <- HS |]. split; [| split; [done | split]].
    + unfold asks in *. rewrite F2, F4, (sv_version _ _ F1) in G5. exact G5.
    + intros _ _. rewrite G6. unfold can_query. rewrite F4, Hc, HC. now rewrite andb_true_r.
    + split; [| split; [intros E%Hsame; split; congruence | left; split; congruence]].
      intros e. rewrite G6. unfold kept, to_ask. destruct (can_query c1 env); [inversion 1 |].
      now intros [_ ?]%list_elem_of_filter.
  - exists c1. split.
    { f_equal. apply finish_sum; [done | lia | lia | |].
      - intros Ei. apply (in_progress_lists _ Hok) in Ei as (E1 & E2 & _). rewrite E1, E2 in Hn.
        cbn in Hn. lia.
      - intros Hn' _ E1 E2 _. rewrite Hw, Hc, E1, E2, Hn' in Eb.
        destruct (zlen (asg_pending (c_asg c1)) >? 0) eqn:Ep; [done |]. apply zlen_0. zlia. }
    split; [done |]. split; [done |]. split; [done |]. split; [left; auto |]. split; [done |].
    split; [| rewrite F3; split; [done | split; [intros E%Hsame; now rewrite E | now right]]]. intros E1 E2. rewrite E1, E2 in Hn. cbn in Hn.
    assert (n = 0) by lia. subst n. rewrite Hw, Hc, E1, E2 in Eb.
    assert (E : asg_pending (c_asg c1) = []).
    { destruct (zlen (asg_pending (c_asg c1)) >? 0) eqn:Ep; [done |]. apply zlen_0. zlia. }
    rewrite <- F3, E. destruct (ge_coord env && _); reflexivity.
Qed.
