(* ===== verification/AssignOps.v ===== *)
(** * The changes of an assignment and the answers it gets

    Clearing, adding and subtracting partitions, pausing, and the handlers of answers:
    each succeeds and keeps the invariant of [AssignSteps]. *)

From stdpp Require Import gmap strings sorting.
From S2P Require Import Prelude Msgq Sort TpList TpListFacts TpListProps Assignment AssignFacts AssignInv AssignSteps.

(** ** Pausing *)

(** Only the elements' errors and the log change, and objects may be looked up. *)
Lemma pause_resume_spec c r pause es :
  asg_inv0 c r -> Forall (fun e => rktpar_private e <> None) es ->
  exists evs es', rd_kafka_toppars_pause_resume c pause es
    = (foldl c_emit c evs, es') /\ idents es' = idents es /\
    Forall (fun ev => exists i, ev = EvPauseResume i pause) evs.
Proof.
  intros H Hp. revert c H. induction Hp as [| e es He _ IH]; intros c H; cbn [rd_kafka_toppars_pause_resume].
  - exists [], []. repeat split; constructor.
  - unfold rd_kafka_topic_partition_ensure_toppar.
    destruct (rktpar_private e) as [i |] eqn:Ei; [| done].
    assert (Ec : c_set_toppars c (c_toppars c) = c) by now destruct c.
    rewrite Ec, Ei.
    destruct (IH (c_emit c (EvPauseResume i pause))) as (evs & es' & -> & E & F); [now apply inv_emit |].
    exists (EvPauseResume i pause :: evs), (tp_set_err e RD_KAFKA_RESP_ERR_NO_ERROR :: es').
    split; [done |]. unfold idents in *. cbn. rewrite E. split; [done |]. constructor; eauto.
Qed.

Lemma inv_emits c r evs : asg_inv0 c r -> asg_inv0 (foldl c_emit c evs) r.
Proof. revert c. induction evs; cbn; intros c H; [done |]. apply IHevs. now apply inv_emit. Qed.

Lemma foldl_emit c evs :
  c_asg (foldl c_emit c evs) = c_asg c /\ c_toppars (foldl c_emit c evs) = c_toppars c /\
  c_stops (foldl c_emit c evs) = c_stops c /\ c_commits (foldl c_emit c evs) = c_commits c /\
  c_fetches (foldl c_emit c evs) = c_fetches c /\ c_evs (foldl c_emit c evs) = c_evs c ++ evs /\
  c_wait_commit_cnt (foldl c_emit c evs) = c_wait_commit_cnt c /\
  c_lost (foldl c_emit c evs) = c_lost c /\ c_join_state (foldl c_emit c evs) = c_join_state c.
Proof.
  revert c. induction evs as [| ev evs IH]; intros c; cbn; [now rewrite app_nil_r |].
  destruct (IH (c_emit c ev)) as (-> & -> & -> & -> & -> & -> & -> & -> & ->).
  cbn. rewrite <- app_assoc. done.
Qed.

Lemma inv_all_idents c r l :
  asg_inv0 c r -> idents l ≡ₚ idents (asg_all (c_asg c)) ->
  asg_inv0 (c_map_asg c (fun a => asg_set_all a l)) r.
Proof. intros [H1 H2 H3 H4 H5] E. constructor; try done. cbn. now rewrite E. Qed.

(** What stays but for the elements' errors and the log. *)
Record same_asg (c c' : consumer) : Prop := {
  sa_all : idents (asg_all (c_asg c')) = idents (asg_all (c_asg c));
  sa_pending : asg_pending (c_asg c') = asg_pending (c_asg c);
  sa_queried : asg_queried (c_asg c') = asg_queried (c_asg c);
  sa_removed : asg_removed (c_asg c') = asg_removed (c_asg c);
  sa_version : asg_version (c_asg c') = asg_version (c_asg c);
  sa_stops : c_stops c' = c_stops c;
  sa_commits : c_commits c' = c_commits c;
  sa_fetches : c_fetches c' = c_fetches c;
  sa_evs : exists evs, c_evs c' = c_evs c ++ evs }.

#[export] Instance same_asg_refl : Reflexive same_asg.
Proof. intros c. constructor; try done. exists []. now rewrite app_nil_r. Qed.

#[export] Instance same_asg_trans : Transitive same_asg.
Proof.
  intros a b c [H1 H2 H3 H4 H5 H6 H7 H8 (l & H9)] [G1 G2 G3 G4 G5 G6 G7 G8 (l' & G9)].
  constructor; try congruence. exists (l ++ l'). now rewrite G9, H9, app_assoc.
Qed.

Lemma assignment_pause_resume_spec c pause :
  asg_inv c -> asg_inv (assignment_pause_resume c pause) /\
  same_asg c (assignment_pause_resume c pause).
Proof.
  intros H. unfold assignment_pause_resume.
  destruct (pause_resume_spec c _ pause (asg_all (c_asg c)) H) as (evs & es' & -> & E & _).
  { apply list.Forall_forall. intros e. now apply (inv_all_private c (asg_removed (c_asg c))). }
  destruct (foldl_emit c evs) as (Ea & Et & Es & Ec & Ef & Ee & _).
  split.
  - apply (inv_all_idents (foldl c_emit c evs)); [| rewrite Ea; now rewrite E].
    cbn. rewrite Ea. now apply inv_emits.
  - constructor; cbn; rewrite ?Ea, ?Es, ?Ec, ?Ef, ?Ee; eauto.
Qed.

Lemma resume_spec c :
  asg_inv c -> asg_inv (rd_kafka_assignment_resume c) /\ same_asg c (rd_kafka_assignment_resume c).
Proof.
  intros H. unfold rd_kafka_assignment_resume. destruct (_ =? 0); [done |].
  now apply assignment_pause_resume_spec.
Qed.

Lemma pause_spec c :
  asg_inv c -> asg_inv (rd_kafka_assignment_pause c) /\ same_asg c (rd_kafka_assignment_pause c).
Proof.
  intros H. unfold rd_kafka_assignment_pause. destruct (_ =? 0); [done |].
  now apply assignment_pause_resume_spec.
Qed.

(** The group's flags do not matter. *)
Lemma inv_join_state c r js : asg_inv0 c r -> asg_inv0 (c_set_join_state c js) r.
Proof. intros [H1 H2 H3 H4 H5]. now constructor. Qed.

Lemma inv_lost c r b : asg_inv0 c r -> asg_inv0 (c_set_lost c b) r.
Proof. intros [H1 H2 H3 H4 H5]. now constructor. Qed.

Lemma same_join_state c js : same_asg c (c_set_join_state c js).
Proof. constructor; try done. exists []. now rewrite app_nil_r. Qed.

Lemma same_lost c b : same_asg c (c_set_lost c b).
Proof. constructor; try done. exists []. now rewrite app_nil_r. Qed.

(** The end of the group's operations: resume if awaited, and no longer lost. *)
Definition group_done (c : consumer) (js js' : rkcg_join_state) : consumer :=
  c_set_lost (if decide (c_join_state c = js)
              then c_set_join_state (rd_kafka_assignment_resume c) js' else c) false.

Lemma group_done_spec c js js' :
  asg_inv c -> asg_inv (group_done c js js') /\ same_asg c (group_done c js js').
Proof.
  intros H. unfold group_done. destruct (decide _).
  - destruct (resume_spec c H) as [H1 S1]. split.
    + apply inv_lost, inv_join_state. exact H1.
    + etransitivity; [| apply same_lost]. etransitivity; [exact S1 | apply same_join_state].
  - split; [now apply inv_lost | apply same_lost].
Qed.

(** ** Clearing *)

(** No object of an assigned partition chosen by [P] is still being stopped. *)
Definition stop_free (c : consumer) (P : string * Z -> Prop) : Prop :=
  forall i e, i ∈ c_stops c -> e ∈ asg_all (c_asg c) -> P (tp_key e) -> rktpar_private e <> Some i.

(** What changing the assignment leaves alone. *)
Record reassigned (c c' : consumer) : Prop := {
  ra_stops : c_stops c' = c_stops c;
  ra_commits : c_commits c' = c_commits c;
  ra_fetches : c_fetches c' = c_fetches c;
  ra_evs : c_evs c' = c_evs c }.

Lemma asg_ok_empty c :
  asg_ok c -> asg_all (c_asg c) = [] -> asg_pending (c_asg c) = [] /\ asg_queried (c_asg c) = [].
Proof.
  intros [H _] E.
  assert (N : forall e, e ∉ asg_pending (c_asg c) ++ asg_queried (c_asg c)).
  { intros e He. destruct (inv_sub c _ e H He) as (e' & He' & _). rewrite E in He'. inversion He'. }
  apply app_nil. destruct (_ ++ _) as [| x l]; [done |]. destruct (N x). left.
Qed.

Lemma clear_spec c :
  asg_ok c -> stop_free c (fun _ => True) ->
  exists c', rd_kafka_assignment_clear c = (c', zlen (asg_all (c_asg c))) /\ asg_inv c' /\
    asg_all (c_asg c') = [] /\ asg_pending (c_asg c') = [] /\ asg_queried (c_asg c') = [] /\
    reassigned c c' /\ idents (asg_removed (c_asg c')) = idents (asg_all (c_asg c)).
Proof.
  intros Hok Hs. pose proof Hok as [H Hr]. unfold rd_kafka_assignment_clear.
  destruct (Z.eqb_spec (zlen (asg_all (c_asg c))) 0) as [E | E].
  - rewrite E. apply zlen_0 in E. destruct (asg_ok_empty c Hok E) as [Ep Eq].
    exists c. conj; [now constructor | now rewrite Hr, E].
  - eexists. split; [done |]. unfold asg_inv in *. rewrite Hr in H. cbn. rewrite Hr.
    conj; [| now constructor | apply idents_copy].
    destruct H as [C Hw Hst Hc Hco]. constructor; try done. cbn.
    rewrite idents_copy. apply (core_clear _ _ _ _ [] _ _ C).
    intros i x Hi (e & He & <-)%elem_of_idents. now apply (Hs i e).
Qed.

(** ** Adding *)

Lemma add_check_loop_spec all es : forall ts prev ts' es' err,
  toppars_ok ts -> Forall (fun e => rktpar_private e = None) es ->
  add_check_loop ts all prev es = (ts', es', err) ->
  toppars_ok ts' /\ toppars_ext ts ts' /\
  (err = 0 -> keys es' = keys es /\ Forall (holds ts') es' /\ Forall (fun k => k ∉ keys all) (keys es) /\
   match prev, es with Some p, e :: _ => tp_key e <> tp_key p | _, _ => True end /\
   forall i e e', es !! i = Some e -> es !! S i = Some e' -> tp_key e' <> tp_key e).
Proof.
  induction es as [| e es IH]; intros ts prev ts' es' err Hok Hp; cbn [add_check_loop].
  { intros [= <- <- <-]. conj. intros _. conj; try done. now destruct prev. }
  apply list.Forall_cons in Hp as [Hp Hps].
  destruct (start_offset_invalid (rktpar_offset e)); [intros [= <- <- <-]; conj; done |].
  destruct (match prev with Some _ => _ | None => _ end) eqn:Epv; [intros [= <- <- <-]; conj; done |].
  destruct (elems_find all (rktpar_topic e) (rktpar_partition e)) eqn:Ef; [intros [= <- <- <-]; conj; done |].
  apply elems_find_None in Ef. set (e0 := if rktpar_offset e =? RD_KAFKA_OFFSET_INVALID then _ else e).
  assert (Ek0 : tp_key e0 = tp_key e /\ rktpar_private e0 = None).
  { subst e0. destruct (_ =? _); done. }
  destruct (rd_kafka_topic_partition_ensure_toppar ts e0 true) as [ts1 e1] eqn:E1.
  destruct (ensure_toppar_ext _ _ _ _ _ Hok E1) as (Hok1 & Hx1 & Ek1 & _).
  destruct (ensure_toppar_holds _ _ _ _ _ Hok (or_introl (proj2 Ek0)) E1) as [[_ ?] | Hh1]; [done |].
  destruct (add_check_loop ts1 all (Some e1) es) as [[ts2 es2] err2] eqn:E2.
  intros [= <- <- <-]. destruct (IH _ _ _ _ _ Hok1 Hps E2) as (Hok2 & Hx2 & HE).
  split; [done |]. split; [etransitivity; eassumption |]. intros Herr.
  destruct (HE Herr) as (K & Hh & Hn & Hpv & Had).
  assert (Ek : tp_key e1 = tp_key e) by (rewrite Ek1; apply Ek0).
  cbn [map]. rewrite K, Ek. split; [done |]. split; [constructor; [eapply holds_ext; eassumption | done] |].
  split; [now constructor |]. split.
  - destruct prev as [p |]; [| done]. intros Eq. apply Z.eqb_neq in Epv. apply Epv.
    now apply tp_cmp_eq.
  - intros [| i] x y; cbn.
    + intros [= <-] Hy. destruct es as [| z es]; [done |]. cbn in Hy. injection Hy as ->. congruence.
    + apply Had.
Qed.

(** The offset from which an added partition is started. *)
Definition start_offset (e : tp) : Z :=
  if rktpar_offset e =? RD_KAFKA_OFFSET_INVALID then RD_KAFKA_OFFSET_STORED else rktpar_offset e.

Definition places (es : list tp) : list (string * Z * Z) := map (fun e => (tp_key e, rktpar_offset e)) es.
Definition start_places (es : list tp) : list (string * Z * Z) := map (fun e => (tp_key e, start_offset e)) es.

Lemma places_app es es' : places (es ++ es') = places es ++ places es'.
Proof. apply map_app. Qed.

Lemma places_copy es : places (map tp_copy es) = places es.
Proof. unfold places. rewrite map_map. now apply map_ext. Qed.

Definition startable_all (es : list tp) : Prop :=
  Forall (fun e => start_offset_invalid (rktpar_offset e) = false) es.

Lemma ensure_toppar_same ts e b ts' e' :
  rd_kafka_topic_partition_ensure_toppar ts e b = (ts', e') ->
  tp_key e' = tp_key e /\ rktpar_offset e' = rktpar_offset e.
Proof.
  unfold rd_kafka_topic_partition_ensure_toppar. destruct (rktpar_private e).
  - now intros [= _ <-].
  - destruct (rd_kafka_toppar_get2 _ _ _ _). now intros [= _ <-].
Qed.

(** The code, and the offsets, that the check leaves. *)
Lemma add_check_loop_code all es : forall ts prev ts' es' err,
  add_check_loop ts all prev es = (ts', es', err) ->
  err = 0 /\ startable_all es /\ places es' = start_places es \/
  (err = RD_KAFKA_RESP_ERR__INVALID_ARG \/ err = RD_KAFKA_RESP_ERR__CONFLICT) /\
  ~ (startable_all es /\ Forall (fun k => k ∉ keys all) (keys es) /\
     NoDup (match prev with Some p => [tp_key p] | None => [] end ++ keys es)).
Proof.
  induction es as [| e es IH]; intros ts prev ts' es' err; cbn [add_check_loop].
  { intros [= <- <- <-]. left. split; [done |]. split; [constructor | done]. }
  destruct (start_offset_invalid (rktpar_offset e)) eqn:Eo.
  { intros [= <- <- <-]. right. split; [auto |]. intros (H & _). apply list.Forall_cons in H as [H _]. congruence. }
  destruct (match prev with Some _ => _ | None => _ end) eqn:Epv.
  { intros [= <- <- <-]. right. split; [auto |]. intros (_ & _ & H). destruct prev as [p |]; [| done].
    apply Z.eqb_eq, tp_cmp_eq in Epv. cbn in H. apply list.NoDup_cons in H as [H _]. destruct H.
    rewrite <- Epv. left. }
  destruct (elems_find all (rktpar_topic e) (rktpar_partition e)) as [i |] eqn:Ef.
  { intros [= <- <- <-]. right. split; [auto |]. intros (_ & H & _). cbn in H. apply list.Forall_cons in H as [H _].
    apply H. destruct (decide (tp_key e ∈ keys all)) as [? | N]; [done |].
    apply elems_find_None in N. unfold tp_key in N. congruence. }
  set (e0 := if rktpar_offset e =? RD_KAFKA_OFFSET_INVALID then _ else e).
  destruct (rd_kafka_topic_partition_ensure_toppar ts e0 true) as [ts1 e1] eqn:E1.
  destruct (ensure_toppar_same _ _ _ _ _ E1) as [K1 O1].
  assert (K0 : tp_key e0 = tp_key e /\ rktpar_offset e0 = start_offset e).
  { unfold e0, start_offset. destruct (_ =? _); done. }
  destruct (add_check_loop ts1 all (Some e1) es) as [[ts2 es2] err2] eqn:E2.
  intros [= <- <- <-]. destruct (IH _ _ _ _ _ E2) as [(-> & H1 & H2) | [Herr H]]; [left | right].
  - split; [done |]. split; [now constructor |]. cbn. unfold places, start_places in H2. rewrite H2.
    f_equal. destruct K0. f_equal; congruence.
  - split; [done |]. intros (H1 & H2 & H3). apply H. apply list.Forall_cons in H1 as [_ H1].
    cbn [map] in H2. apply list.Forall_cons in H2 as [_ H2]. split; [done |]. split; [done |].
    cbn. rewrite K1, (proj1 K0). destruct prev; [| exact H3]. cbn in H3.
    now apply list.NoDup_cons in H3 as [_ H3].
Qed.

(** A sorted list with no equal neighbours has no duplicates. *)
Lemma sorted_keys_nodup es :
  StronglySorted (fun a b => rd_kafka_topic_partition_cmp a b <= 0) es ->
  (forall i e e', es !! i = Some e -> es !! S i = Some e' -> tp_key e' <> tp_key e) ->
  NoDup (keys es).
Proof.
  induction 1 as [| e es Hs IH He]; intros Had; [constructor |]. cbn. constructor.
  - intros (y & Hy & Ek)%elem_of_keys. destruct es as [| z es]; [inversion Hy |].
    apply (Had 0%nat e z); [done.. |]. rewrite list.Forall_forall in He.
    assert (Hez : rd_kafka_topic_partition_cmp e z <= 0) by (apply He; left).
    assert (Hze : rd_kafka_topic_partition_cmp z e <= 0).
    { apply (cmp_trans z y e).
      - apply elem_of_cons in Hy as [-> | Hy].
        + assert (rd_kafka_topic_partition_cmp z z = 0) by now apply tp_cmp_eq. lia.
        + inversion Hs; subst. rewrite list.Forall_forall in H2. now apply H2.
      - assert (rd_kafka_topic_partition_cmp y e = 0) by now apply tp_cmp_eq. lia. }
    symmetry. apply tp_cmp_eq. apply cmp_flip in Hze. lia.
  - apply IH. intros i. apply (Had (S i)).
Qed.

Lemma add_mark_loop_spec es : forall ts A P Q R S E,
  core ts A P Q R S E -> Forall (holds ts) es -> NoDup (keys es) ->
  Forall (fun k => k ∉ (A ++ R).*1) (keys es) ->
  exists ts', add_mark_loop ts es = Some (ts', es) /\
    core ts' (A ++ idents es) (P ++ idents es) Q R S E /\ started_cnt ts' = started_cnt ts.
Proof.
  induction es as [| e es IH]; intros ts A P Q R S E C Hh Hd Hn; cbn [add_mark_loop].
  { exists ts. cbn. now rewrite !app_nil_r. }
  apply list.Forall_cons in Hh as [He Hh]. apply list.NoDup_cons in Hd as [Hne Hd].
  apply list.Forall_cons in Hn as [Hn Hns].
  destruct He as (i & t & Hp & Hi & Hk & Hdes). unfold rd_kafka_topic_partition_ensure_toppar.
  rewrite Hp. cbn [option_bind]. rewrite Hp, Hi.
  assert (Ha : rktp_assigned t = false).
  { apply not_true_iff_false. intros Ha. apply (co_assigned _ _ _ _ _ _ _ C i t Hi) in Ha as (x & Hx & Hx2).
    apply Hn. apply list_elem_of_fmap. exists x. split; [| done].
    replace x with (ident e); [done |]. apply (holds_id_obj ts); [| now apply (co_holds _ _ _ _ _ _ _ C) |].
    - exists i, t. done.
    - cbn. congruence. }
  rewrite Ha. cbn [negb rd_assert rd_kafka_offset_store0 andb].
  set (t' := toppar_set_stored (toppar_set_assigned t true) RD_KAFKA_OFFSET_INVALID).
  pose proof (core_add _ _ _ _ _ _ _ (ident e) i t t' C) as C'.
  assert (Hins : forall x, holds ts x -> holds (<[i := t']> ts) x).
  { intros x Hx. apply (holds_id_insert ts i t t' (ident x)); [exact Hx | done.. | now right]. }
  destruct (IH (<[i := t']> ts) (A ++ [ident e]) (P ++ [ident e]) Q R S E) as (ts' & -> & C2 & Hc).
  - apply C'; try done. now exists i, t.
  - apply (list.Forall_impl _ _ _ Hh). exact Hins.
  - done.
  - apply list.Forall_forall. intros k Hk'. rewrite list.Forall_forall in Hns. specialize (Hns k Hk').
    rewrite !fmap_app, !not_elem_of_app in *. destruct Hns as [N1 N2]. repeat split; [done | | done].
    cbn. rewrite list_elem_of_singleton. intros ->. done.
  - exists ts'. split; [done |]. rewrite <- !app_assoc in C2. split; [exact C2 |].
    rewrite Hc, (started_cnt_insert _ _ t) by done. cbn. lia.
Qed.

Section Sorting.
Context (qsort : forall A, (A -> A -> Z) -> list A -> list A) `{!Qsort qsort}.

Lemma elems_sort_perm es : elems_sort qsort es ≡ₚ es.
Proof.
  unfold elems_sort, rd_kafka_topic_partition_list_sort. cbn.
  apply qsort_perm, comparator_everywhere, tp_cmp_comparator.
Qed.

Lemma elems_sort_sorted es :
  StronglySorted (fun a b => rd_kafka_topic_partition_cmp a b <= 0) (elems_sort qsort es).
Proof.
  unfold elems_sort, rd_kafka_topic_partition_list_sort. cbn.
  apply qsort_sorted, comparator_everywhere, tp_cmp_comparator.
Qed.

Lemma keys_perm es es' : es ≡ₚ es' -> keys es ≡ₚ keys es'.
Proof. intros H. now rewrite H. Qed.

Lemma idents_perm es es' : es ≡ₚ es' -> idents es ≡ₚ idents es'.
Proof. intros H. unfold idents. now rewrite H. Qed.

(** What can be added: partitions with offsets to start from, given once and not
    assigned. *)
Definition addable (c : consumer) (ps : list tp) : Prop :=
  startable_all ps /\ NoDup (keys ps) /\ Forall (fun k => k ∉ keys (asg_all (c_asg c))) (keys ps).

Lemma addable_perm c ps ps' : ps ≡ₚ ps' -> addable c ps -> addable c ps'.
Proof.
  intros Hp (H1 & H2 & H3). unfold addable, startable_all in *.
  pose proof (keys_perm _ _ Hp) as Hk. rewrite Hp in H1. rewrite Hk in H2, H3. done.
Qed.

(** Adding either fails with an error and changes nothing but the partition objects
    looked up, or puts new partitions on the assignment and on its pending list. *)
Lemma add_spec c ps :
  asg_ok c -> Forall (fun e => rktpar_private e = None) ps ->
  exists c' err, rd_kafka_assignment_add qsort c ps = Some (c', err) /\ asg_ok c' /\
    if err =? 0
    then keys (asg_all (c_asg c')) ≡ₚ keys (asg_all (c_asg c)) ++ keys ps /\ reassigned c c' /\
      asg_queried (c_asg c') = asg_queried (c_asg c) /\
      places (asg_pending (c_asg c')) ≡ₚ places (asg_pending (c_asg c)) ++ start_places ps /\
      asg_version (c_asg c') = i64 (asg_version (c_asg c) + 1) /\ addable c ps
    else same_asg c c' /\ ~ addable c ps /\
      (err = RD_KAFKA_RESP_ERR__INVALID_ARG \/ err = RD_KAFKA_RESP_ERR__CONFLICT).
Proof.
  intros [H Hr] Hp. unfold asg_inv in H. rewrite Hr in H. unfold rd_kafka_assignment_add.
  pose proof (elems_sort_perm ps) as Hperm. pose proof (elems_sort_sorted ps) as Hsort.
  rewrite <- Hperm in Hp.
  destruct (add_check_loop (c_toppars c) (asg_all (c_asg c)) None (elems_sort qsort ps))
    as [[ts1 es1] err1] eqn:E1.
  destruct (add_check_loop_spec _ _ _ _ _ _ _ (inv_toppars_ok _ _ H) Hp E1) as (Hok1 & Hx1 & HE).
  pose proof (add_check_loop_code _ _ _ _ _ _ _ E1) as Hcode.
  pose proof (inv_toppars _ _ _ H Hok1 Hx1) as H1.
  destruct (Z.eqb_spec err1 0) as [-> | Nerr]; cbn [negb].
  - destruct Hcode as [(_ & V & Pl) | [[? | ?] _]]; [| done..].
    destruct (HE eq_refl) as (K & Hh & Hn & _ & Had).
    assert (Hadd : addable c ps).
    { apply (addable_perm c _ _ Hperm). split; [done |]. split; [now apply sorted_keys_nodup | done]. } destruct H1 as [C Hw Hs Hc Hco]. cbn in C, Hw, Hs, Hc, Hco.
    destruct (add_mark_loop_spec es1 _ _ _ _ _ _ _ C Hh) as (ts2 & E2 & C2 & Hcnt).
    + rewrite K. now apply sorted_keys_nodup.
    + rewrite K, fmap_app, idents_fst. cbn. rewrite app_nil_r. exact Hn.
    + cbn [c_set_toppars c_toppars]. rewrite E2.
      set (L := elems_add_list (asg_all (c_asg c)) es1).
      assert (G : forall l, l ≡ₚ L -> let c' := c_bump_version (c_map_asg (c_map_asg
          (c_set_toppars c ts2) (fun a => asg_set_all a l))
          (fun a => asg_set_pending a (elems_add_list (asg_pending a) es1))) in
        asg_ok c' /\ keys (asg_all (c_asg c')) ≡ₚ keys (asg_all (c_asg c)) ++ keys ps /\
        reassigned c c' /\ asg_queried (c_asg c') = asg_queried (c_asg c) /\
        places (asg_pending (c_asg c')) ≡ₚ places (asg_pending (c_asg c)) ++ start_places ps /\
        asg_version (c_asg c') = i64 (asg_version (c_asg c) + 1) /\ addable c ps).
      { intros l Hl.
        assert (KL : idents l ≡ₚ idents (asg_all (c_asg c)) ++ idents es1).
        { rewrite (idents_perm _ _ Hl). subst L. unfold elems_add_list. now rewrite idents_app, idents_copy. }
        split; [split; [| exact Hr] | split; [| split; [now constructor | split; [done | split; [| done]]]]].
        - unfold asg_inv. cbn. rewrite Hr. constructor; cbn; try done; [| congruence].
          rewrite KL. unfold elems_add_list. rewrite idents_app, idents_copy. exact C2.
        - cbn. rewrite <- idents_fst, KL, fmap_app, !idents_fst, K. now rewrite (keys_perm _ _ Hperm).
        - cbn. unfold elems_add_list. rewrite places_app, places_copy, Pl.
          apply Permutation_app_head. unfold start_places. now rewrite Hperm. }
      eexists _, 0. split; [reflexivity |]. cbn [Z.eqb].
      destruct (_ =? 0); cbn [negb]; [now apply (G L) | apply (G (elems_sort qsort L)), elems_sort_perm].
  - exists (c_set_toppars c ts1), err1. destruct Hcode as [[? _] | [Hcode Hno]]; [done |].
    apply Z.eqb_neq in Nerr as Nerr'. rewrite Nerr'.
    split; [done |]. split; [split; [unfold asg_inv; cbn; now rewrite Hr | done] |].
    split; [| split; [| done]].
    + constructor; try done. exists []. now rewrite app_nil_r.
    + intros Ha. apply Hno. symmetry in Hperm. apply (addable_perm c _ _ Hperm) in Ha as (V & D & N).
      split; [done |]. split; [done |]. exact D.
Qed.

(** ** Subtracting *)

#[local] Arguments without : simpl never.
#[local] Arguments idents : simpl never.

Lemma core_nodups ts a p q R S E :
  core ts (idents a) (idents p) (idents q) R S E ->
  NoDup (keys a) /\ NoDup (keys p) /\ NoDup (keys q) /\ (forall k, k ∈ keys p -> k ∉ keys q).
Proof.
  intros C. pose proof (co_keys _ _ _ _ _ _ _ C) as H1. pose proof (co_pq _ _ _ _ _ _ _ C) as H2.
  rewrite fmap_app, !idents_fst in *. apply list.NoDup_app in H1 as [H1 _], H2 as (H2 & H3 & H4).
  auto.
Qed.

Lemma subtract_check_loop_spec all es : forall ts ts' es' err,
  toppars_ok ts -> Forall (fun e => rktpar_private e = None \/ holds ts e) es ->
  subtract_check_loop ts all es = (ts', es', err) ->
  toppars_ok ts' /\ toppars_ext ts ts' /\
  (err = 0 -> keys es' = keys es /\ Forall (holds ts') es' /\ Forall (fun k => k ∈ keys all) (keys es)).
Proof.
  induction es as [| e es IH]; intros ts ts' es' err Hok Hp; cbn [subtract_check_loop].
  { intros [= <- <- <-]. conj. now repeat split. }
  apply list.Forall_cons in Hp as [Hp Hps].
  destruct (elems_find all (rktpar_topic e) (rktpar_partition e)) as [j |] eqn:Ef;
    [| intros [= <- <- <-]; conj; done].
  destruct (rd_kafka_topic_partition_ensure_toppar ts e true) as [ts1 e1] eqn:E1.
  destruct (ensure_toppar_ext _ _ _ _ _ Hok E1) as (Hok1 & Hx1 & Ek1 & _).
  destruct (ensure_toppar_holds _ _ _ _ _ Hok Hp E1) as [[_ ?] | Hh1]; [done |].
  destruct (subtract_check_loop ts1 all es) as [[ts2 es2] err2] eqn:E2. intros [= <- <- <-].
  assert (Hps1 : Forall (fun e => rktpar_private e = None \/ holds ts1 e) es).
  { apply (list.Forall_impl _ _ _ Hps). intros x [? | Hx]; [auto | right; eapply holds_ext; eassumption]. }
  destruct (IH _ _ _ _ Hok1 Hps1 E2) as (Hok2 & Hx2 & HE).
  split; [done |]. split; [etransitivity; eassumption |]. intros Herr.
  destruct (HE Herr) as (K & Hh & Hn). cbn [map]. rewrite K, Ek1.
  split; [done |]. split; constructor; try done; [eapply holds_ext; eassumption |].
  apply dec_stable. intros N. apply (elems_find_None all (rktpar_topic e) (rktpar_partition e)) in N. congruence.
Qed.

Lemma subtract_step_spec ts a S E e :
  core ts (idents (asg_all a)) (idents (asg_pending a)) (idents (asg_queried a))
    (idents (asg_removed a)) S E ->
  holds ts e -> tp_key e ∈ keys (asg_all a) -> (forall i, i ∈ S -> rktpar_private e <> Some i) ->
  exists a', subtract_step a e = Some a' /\
    core ts (idents (asg_all a')) (idents (asg_pending a')) (idents (asg_queried a'))
      (idents (asg_removed a')) S E /\
    asg_all a' = without (rktpar_topic e) (rktpar_partition e) (asg_all a) /\
    asg_removed a' = asg_removed a ++ [tp_copy e] /\
    asg_started_cnt a' = asg_started_cnt a /\ asg_wait_stop_cnt a' = asg_wait_stop_cnt a /\
    (forall x, x ∈ asg_queried a' -> x ∈ asg_queried a).
Proof.
  intros C Hh Hk HS. destruct (core_nodups _ _ _ _ _ _ _ C) as (Da & Dp & Dq & Dpq).
  unfold subtract_step. rewrite !elems_del_spec by done.
  rewrite bool_decide_eq_true_2 by done. cbn [rd_assert].
  assert (Hx : ident e ∈ idents (asg_all a)).
  { apply elem_of_keys in Hk as (e' & He' & Ek). apply elem_of_idents. exists e'. split; [done |].
    apply (holds_id_inj ts (ident e') (ident e)); [apply (co_ts _ _ _ _ _ _ _ C) | | exact Hh | exact Ek].
    apply (co_holds _ _ _ _ _ _ _ C), elem_of_app. left. now apply in_idents. }
  pose proof (core_subtract _ _ _ _ _ _ _ _ C Hx HS) as C'.
  case_bool_decide as Eb.
  - assert (Ep : without (rktpar_topic e) (rktpar_partition e) (asg_pending a) = asg_pending a).
    { apply without_notin. intros Hin. now apply (Dpq _ Hin). }
    eexists. split; [reflexivity |]. cbn. split; [| do 4 (split; [reflexivity |]); now intros x [? _]%elem_of_without].
    rewrite <- Ep. unfold elems_add_copy. rewrite !idents_without, idents_app. exact C'.
  - eexists. split; [reflexivity |]. cbn. split; [| do 4 (split; [reflexivity |]); now intros x [? _]%elem_of_without].
    unfold elems_add_copy. rewrite !idents_without, idents_app. exact C'.
Qed.

Lemma subtract_loop_spec ts S E es : forall a,
  core ts (idents (asg_all a)) (idents (asg_pending a)) (idents (asg_queried a))
    (idents (asg_removed a)) S E ->
  Forall (holds ts) es -> NoDup (keys es) -> Forall (fun k => k ∈ keys (asg_all a)) (keys es) ->
  (forall e i, e ∈ es -> i ∈ S -> rktpar_private e <> Some i) ->
  exists a', subtract_loop a es = Some a' /\
    core ts (idents (asg_all a')) (idents (asg_pending a')) (idents (asg_queried a'))
      (idents (asg_removed a')) S E /\
    (forall k, k ∈ keys (asg_all a') <-> k ∈ keys (asg_all a) /\ k ∉ keys es) /\
    asg_started_cnt a' = asg_started_cnt a /\ asg_wait_stop_cnt a' = asg_wait_stop_cnt a /\
    (forall x, x ∈ asg_queried a' -> x ∈ asg_queried a).
Proof.
  induction es as [| e es IH]; intros a C Hh Hd Hk HS; cbn [subtract_loop].
  { exists a. conj; [| auto]. intros k. cbn. split; [| tauto]. intros ?. split; [done | inversion 1]. }
  apply list.Forall_cons in Hh as [He Hh]. apply list.NoDup_cons in Hd as [Hne Hd].
  apply list.Forall_cons in Hk as [Hke Hk].
  destruct (subtract_step_spec ts a S E e C He Hke) as (a1 & -> & C1 & Ea & _ & E1 & E2 & Q1).
  { intros i. apply HS. left. }
  destruct (IH a1 C1 Hh Hd) as (a2 & -> & C2 & K2 & E3 & E4 & Q2).
  - rewrite Ea. apply list.Forall_forall. intros k Hin. apply elem_of_keys_without.
    rewrite list.Forall_forall in Hk. split; [now apply Hk |]. intros ->. done.
  - intros x i Hx. apply HS. now right.
  - exists a2. split; [done |]. split; [exact C2 |]. split; [| repeat split; try congruence; auto].
    intros k. rewrite K2, Ea, elem_of_keys_without. cbn [map]. rewrite not_elem_of_cons. unfold tp_key. tauto.
Qed.

(** Subtracting either fails with an error and changes nothing but the partition
    objects looked up, or moves the partitions to the removed ones. *)
Lemma subtract_spec c ps :
  asg_ok c -> Forall (fun e => rktpar_private e = None \/ holds (c_toppars c) e) ps ->
  NoDup (keys ps) -> stop_free c (fun k => k ∈ keys ps) ->
  exists c' err, rd_kafka_assignment_subtract qsort c ps = Some (c', err) /\
    if err =? 0
    then asg_inv c' /\ reassigned c c' /\
      (forall k, k ∈ keys (asg_all (c_asg c')) <-> k ∈ keys (asg_all (c_asg c)) /\ k ∉ keys ps) /\
      (forall x, x ∈ asg_queried (c_asg c') -> x ∈ asg_queried (c_asg c))
    else asg_ok c' /\ same_asg c c'.
Proof.
  intros [H Hr] Hp Hd HS. pose proof H as H0. unfold asg_inv in H. rewrite Hr in H.
  unfold rd_kafka_assignment_subtract.
  destruct (_ && _).
  { eexists _, _. split; [reflexivity |]. cbn. split; [now split | reflexivity]. }
  pose proof (elems_sort_perm ps) as Hperm. rewrite <- Hperm in Hp.
  destruct (subtract_check_loop (c_toppars c) (asg_all (c_asg c)) (elems_sort qsort ps))
    as [[ts1 es1] err1] eqn:E1.
  destruct (subtract_check_loop_spec _ _ _ _ _ _ (inv_toppars_ok _ _ H) Hp E1) as (Hok1 & Hx1 & HE).
  pose proof (inv_toppars _ _ _ H Hok1 Hx1) as H1.
  destruct (Z.eqb_spec err1 0) as [-> | Nerr]; cbn [negb].
  - destruct (HE eq_refl) as (K & Hh & Hin).
    assert (Kp : keys (rev es1) ≡ₚ keys ps).
    { rewrite <- Permutation_rev, K. now rewrite (keys_perm _ _ Hperm). }
    assert (Hiff : forall k, k ∈ keys (rev es1) <-> k ∈ keys ps) by (intros k; now rewrite Kp).
    pose proof H1 as [C1 Hw Hs Hc Hco]. cbn [c_set_toppars c_toppars c_asg c_stops c_evs] in C1.
    replace (idents []) with (idents (asg_removed (c_asg c))) in C1 by now rewrite Hr.
    destruct (subtract_loop_spec _ _ _ (rev es1) (c_asg c) C1) as (a' & Ea & C' & K' & W1 & W2 & Q').
    + now rewrite <- Permutation_rev.
    + now rewrite Kp.
    + rewrite Kp. rewrite (keys_perm _ _ Hperm) in Hin. exact Hin.
    + intros e i He Hi Hpi.
      assert (Hhe : holds ts1 e).
      { rewrite list.Forall_forall in Hh. apply Hh. now rewrite Permutation_rev. }
      assert (Hke : tp_key e ∈ keys ps) by (apply Hiff, elem_of_keys; eauto).
      rewrite (keys_perm _ _ Hperm) in Hin. rewrite list.Forall_forall in Hin.
      destruct (proj1 (elem_of_keys _ _) (Hin _ Hke)) as (e' & He' & Ek).
      apply (HS i e' Hi He'); [congruence |]. rewrite <- Hpi. symmetry.
      apply (holds_inj ts1); [done | done | | done].
      apply (inv_all_holds (c_set_toppars c ts1) [] e' H1 He').
    + cbn [c_set_toppars c_asg]. rewrite Ea.
      assert (G : (if zlen (asg_all a') =? 0
        then rd_assert ((zlen (asg_pending a') =? 0) && (zlen (asg_queried a') =? 0)) else Some tt) = Some tt).
      { destruct (Z.eqb_spec (zlen (asg_all a')) 0) as [E0 | _]; [| done]. apply zlen_0 in E0.
        assert (N : forall x, x ∉ idents (asg_pending a') ++ idents (asg_queried a')).
        { intros x Hx%(co_sub _ _ _ _ _ _ _ C'). rewrite E0 in Hx. inversion Hx. }
        destruct (asg_pending a') as [| x l]; [| destruct (N (ident x)); left].
        destruct (asg_queried a') as [| x l]; [done | destruct (N (ident x)); left]. }
      rewrite G. eexists _, 0. split; [reflexivity |]. cbn [Z.eqb].
      split; [| split; [now constructor |]].
      * unfold asg_inv. cbn. constructor; cbn; try done; [exact (eq_trans W2 Hw) | exact (eq_trans W1 Hs)].
      * split; [| exact Q']. cbn. intros k. rewrite K', Hiff. done.
  - exists (c_set_toppars c ts1), err1. apply Z.eqb_neq in Nerr as ->.
    split; [done |]. split; [split; [unfold asg_inv; cbn; now rewrite Hr | done] |].
    constructor; try done. exists []. now rewrite app_nil_r.
Qed.

End Sorting.
