(* ===== verification/AssignAnswers.v ===== *)
(** * The answers an assignment gets

    The handlers of stopped fetchers, OffsetFetch responses and OffsetCommit responses
    succeed and keep the invariant of [AssignSteps]: each amounts to a change of the
    state that keeps it, after which the assignment may be served. *)

From stdpp Require Import gmap strings sorting.
From S2P Require Import Prelude Msgq Sort TpList TpListFacts TpListProps Assignment AssignFacts AssignInv AssignSteps AssignOps.

#[local] Arguments without : simpl never.
#[local] Arguments idents : simpl never.

(** The [k]th of a list answered. *)
Abbreviation remove_nth k l := (take k l ++ drop (S k) l).

Lemma remove_nth_perm {A} (l : list A) k x : l !! k = Some x -> l ≡ₚ x :: remove_nth k l.
Proof. intros H. rewrite <- (take_drop_middle _ _ _ H) at 1. symmetry. apply Permutation_middle. Qed.

Lemma remove_nth_length {A} (l : list A) k x :
  l !! k = Some x -> zlen l = 1 + zlen (remove_nth k l).
Proof. intros H. apply remove_nth_perm, Permutation_length in H. cbn [length] in H. lia. Qed.

(** ** Stopped fetchers *)

Lemma partition_stopped_spec c env k i :
  asg_ok c -> c_stops c !! k = Some i ->
  exists c2, rd_kafka_assignment_partition_stopped (c_set_stops c (remove_nth k (c_stops c))) env i
      = (if asg_wait_stop_cnt (c_asg c2) =? 0 then rd_kafka_assignment_serve c2 env else Some c2) /\
    asg_ok c2 /\ c_stops c2 = remove_nth k (c_stops c) /\
    asg_all (c_asg c2) = asg_all (c_asg c) /\ asg_pending (c_asg c2) = asg_pending (c_asg c) /\
    asg_queried (c_asg c2) = asg_queried (c_asg c) /\ c_commits c2 = c_commits c /\
    c_fetches c2 = c_fetches c /\ c_evs c2 = c_evs c.
Proof.
  intros [H Hr] Hk. pose proof (remove_nth_perm _ _ _ Hk) as HS.
  pose proof (remove_nth_length _ _ _ Hk) as HL.
  destruct H as [C Hw Hs Hc Hco].
  destruct (co_stops_started _ _ _ _ _ _ _ C i) as (t & Hi & Ht); [rewrite HS; left |].
  pose proof (core_stopped _ _ _ _ _ _ _ _ _ _ C HS Hi) as C'.
  pose proof (started_cnt_pos _ _ _ Hi Ht) as Hpos.
  unfold rd_kafka_assignment_partition_stopped, rd_assert. cbn [c_set_stops c_asg c_map_asg c_set_asg c_toppars].
  rewrite Hw. ztest. rewrite Hi, Ht.
  match goal with |- context [?a >? 0] =>
    replace (a >? 0) with true by (symmetry; cbn; rewrite Hs; now apply Z.gtb_lt) end.
  match goal with |- context [rd_kafka_assignment_serve ?x env] => exists x end.
  split; [reflexivity |]. cbn. split; [split; [| exact Hr] | repeat split].
  constructor; cbn; try done.
  - lia.
  - rewrite (started_cnt_insert _ _ t), Ht by done. cbn. lia.
Qed.

(** ** OffsetFetch responses *)

Lemma toppars_ok_alter f ts i :
  (forall t, toppar_key (f t) = toppar_key t /\ (linked (f t) <-> linked t) /\
     rktp_desired (f t) = rktp_desired t) ->
  toppars_ok ts -> toppars_ok (alter f i ts).
Proof.
  intros Hf Hok. destruct (ts !! i) as [t |] eqn:Hi.
  - replace (alter f i ts) with (<[i := f t]> ts).
    + destruct (Hf t) as (H1 & H2 & H3). apply (toppars_ok_insert _ _ t); [done.. | tauto |].
      intros Hd. apply H2, (ts_desired ts Hok i t Hi). congruence.
    + apply list_eq. intros j. destruct (decide (j = i)) as [-> | N].
      * rewrite (insert_eq _ _ _ _ Hi), list_lookup_alter_eq, Hi. done.
      * now rewrite list_lookup_insert_ne, list_lookup_alter_ne by done.
  - replace (alter f i ts) with ts; [done |]. apply list_eq. intros j.
    destruct (decide (j = i)) as [-> | N].
    + rewrite list_lookup_alter_eq, Hi. done.
    + now rewrite list_lookup_alter_ne by done.
Qed.

Lemma committed_ok ts i off :
  toppars_ok ts -> toppars_ok (alter (fun t => toppar_set_committed t off) i ts) /\
    toppars_ext ts (alter (fun t => toppar_set_committed t off) i ts).
Proof.
  intros Hok. split; [now apply toppars_ok_alter |]. apply toppars_ext_alter.
  intros t. unfold toppar_ext. tauto.
Qed.

Lemma topic_find_spec ts topic :
  rd_kafka_topic_find ts topic = true <-> exists i t, ts !! i = Some t /\ rktp_topic t = topic.
Proof.
  unfold rd_kafka_topic_find. rewrite existsb_exists. split.
  - intros (t & Ht & E%String.eqb_eq). apply list_elem_of_In, list_elem_of_lookup in Ht as (i & Hi). eauto.
  - intros (i & t & Hi & <-). exists t. split; [| apply String.eqb_refl].
    apply list_elem_of_In. now apply list_elem_of_lookup_2 in Hi.
Qed.

Lemma topic_find_ext ts ts' topic :
  toppars_ext ts ts' -> rd_kafka_topic_find ts topic = true -> rd_kafka_topic_find ts' topic = true.
Proof.
  intros Hx (i & t & Hi & E)%topic_find_spec. apply topic_find_spec.
  destruct (toppars_ext_lookup _ _ _ _ Hx Hi) as (t' & Hi' & Ek & _). exists i, t'.
  split; [done |]. unfold toppar_key in Ek. congruence.
Qed.

(** An element of a response: with its object, or of a topic that was not known. *)
Definition answered (ts0 ts : list rd_kafka_toppar) (e : tp) : Prop :=
  holds ts e \/ rktpar_private e = None /\ rd_kafka_topic_find ts0 (rktpar_topic e) = false.

Lemma answered_ext ts0 ts ts' e : toppars_ext ts ts' -> answered ts0 ts e -> answered ts0 ts' e.
Proof. intros Hx [H | H]; [left; eapply holds_ext; eassumption | now right]. Qed.

Lemma ensure_toppar_answered ts0 ts e ts' e' :
  toppars_ok ts -> toppars_ext ts0 ts -> rktpar_private e = None \/ answered ts0 ts e ->
  rd_kafka_topic_partition_ensure_toppar ts e false = (ts', e') ->
  toppars_ok ts' /\ toppars_ext ts ts' /\ tp_key e' = tp_key e /\ answered ts0 ts' e'.
Proof.
  intros Hok Hx He E. destruct (ensure_toppar_ext _ _ _ _ _ Hok E) as (H1 & H2 & H3 & _).
  split; [done |]. split; [done |]. split; [done |].
  assert (Hp : rktpar_private e = None \/ holds ts e) by (destruct He as [? | [? | [? _]]]; auto).
  destruct (ensure_toppar_holds _ _ _ _ _ Hok Hp E) as [[Hn _] | Hh]; [| now left].
  right. split; [done |]. apply not_true_iff_false. intros Hf.
  assert (Hf' : rd_kafka_topic_find ts (rktpar_topic e) = true).
  { unfold tp_key in H3. injection H3 as E1 _. rewrite E1 in Hf. eapply topic_find_ext; eassumption. }
  unfold rd_kafka_topic_partition_ensure_toppar in E. destruct (rktpar_private e) eqn:Ep.
  - injection E as <- <-. congruence.
  - unfold rd_kafka_toppar_get2 in E. rewrite Hf' in E. cbn in E.
    destruct (rd_kafka_toppar_desired_add ts _ _). injection E as <- <-. done.
Qed.

Lemma fetch_resp_part_spec ts0 ts offsets p :
  toppars_ok ts -> toppars_ext ts0 ts -> Forall (answered ts0 ts) offsets ->
  exists ts' offsets', fetch_resp_part ts offsets p = Some (ts', offsets') /\
    toppars_ok ts' /\ toppars_ext ts ts' /\ Forall (answered ts0 ts') offsets' /\
    (forall k, k ∈ keys offsets' <-> k ∈ keys offsets \/ k = (fp_topic p, fp_partition p)).
Proof.
  intros Hok Hx Hf. unfold fetch_resp_part.
  set (r := match elems_find offsets (fp_topic p) (fp_partition p) with Some i => (offsets, i) | None => _ end).
  assert (Hr : exists os i e, r = (os, i) /\ os !! i = Some e /\
    tp_key e = (fp_topic p, fp_partition p) /\ (rktpar_private e = None \/ answered ts0 ts e) /\
    Forall (fun e => rktpar_private e = None \/ answered ts0 ts e) os /\
    (forall j e', os !! j = Some e' -> j <> i -> answered ts0 ts e') /\
    (forall k, k ∈ keys os <-> k ∈ keys offsets \/ k = (fp_topic p, fp_partition p))).
  { subst r. assert (Hf' : Forall (fun e => rktpar_private e = None \/ answered ts0 ts e) offsets).
    { apply (list.Forall_impl _ _ _ Hf). auto. }
    destruct (elems_find offsets _ _) as [i |] eqn:E.
    - apply (list_find_Some (mk_tpl offsets 0)) in E as (e & He & Ek). cbn in He.
      exists offsets, i, e. rewrite list.Forall_forall in Hf'.
      assert (e ∈ offsets) by now apply list_elem_of_lookup_2 in He.
      repeat split; auto; [now apply list.Forall_forall | |].
      + intros j e' Hj _. rewrite list.Forall_forall in Hf. apply Hf. now apply list_elem_of_lookup_2 in Hj.
      + intros [? | ->]; [done |]. apply elem_of_keys. eauto.
    - eexists _, _, _. split; [reflexivity |]. split; [now rewrite lookup_app_r, Nat.sub_diag |].
      split; [done |]. split; [now left |]. split; [| split].
      + apply list.Forall_app. split; [done |]. constructor; [now left | constructor].
      + intros j e' [Hj | [Hl Hj]]%lookup_app_Some Nj.
        * rewrite list.Forall_forall in Hf. apply Hf. now apply list_elem_of_lookup_2 in Hj.
        * apply list_lookup_singleton_Some in Hj as [? _]. lia.
      + intros k. rewrite keys_app, elem_of_app. cbn. rewrite list_elem_of_singleton. done. }
  destruct Hr as (os & i & e & -> & He & Ek & Ha & Hos & Hoth & Hkeys). rewrite He.
  destruct (rd_kafka_topic_partition_ensure_toppar ts e false) as [ts1 e1] eqn:E1.
  destruct (ensure_toppar_answered _ _ _ _ _ Hok Hx Ha E1) as (H1 & H2 & H3 & H4).
  cbv zeta. set (off := if fp_offset p =? -1 then _ else _). set (e2 := mk_tp _ _ off _ _ _ _ _).
  set (ts2 := match rktpar_private e2 with Some t => _ | None => ts1 end).
  assert (H5 : toppars_ok ts2 /\ toppars_ext ts1 ts2).
  { subst ts2. destruct (rktpar_private e2) as [j |]; [| now split].
    destruct (_ =? 0); [apply committed_ok; exact H1 | now split]. }
  destruct H5 as [H5 H6]. exists ts2, (<[i := e2]> os). split; [reflexivity |].
  split; [done |]. split; [etransitivity; eassumption |]. split.
  - apply list.Forall_forall. intros x Hx2. apply list_elem_of_lookup in Hx2 as (j & Hj).
    apply (answered_ext ts0 ts1); [exact H6 |].
    apply insert_cases in Hj as [[-> ->] | [Nj Hj]]; [exact H4 |].
    apply (answered_ext ts0 ts); eauto.
  - intros k. rewrite (keys_insert _ _ e e2 He); [apply Hkeys |]. unfold tp_key in *. exact H3.
Qed.

Lemma fetch_resp_parts_spec ts0 ps : forall ts offsets,
  toppars_ok ts -> toppars_ext ts0 ts -> Forall (answered ts0 ts) offsets ->
  exists ts' offsets', fetch_resp_parts ts offsets ps = Some (ts', offsets') /\
    toppars_ok ts' /\ toppars_ext ts ts' /\ Forall (answered ts0 ts') offsets' /\
    (forall k, k ∈ keys offsets' <->
       k ∈ keys offsets \/ k ∈ map (fun p => (fp_topic p, fp_partition p)) ps).
Proof.
  induction ps as [| p ps IH]; intros ts offsets Hok Hx Hf; cbn [fetch_resp_parts].
  - exists ts, offsets. split; [done |]. split; [done |]. split; [done |]. split; [done |].
    intros k. split; [auto | intros [? | H]; [done | inversion H]].
  - destruct (fetch_resp_part_spec ts0 ts offsets p Hok Hx Hf) as (ts1 & os1 & -> & H1 & H2 & H3 & K1).
    destruct (IH ts1 os1 H1) as (ts2 & os2 & -> & H4 & H5 & H6 & K2);
      [etransitivity; eassumption | done |].
    exists ts2, os2. split; [done |]. split; [done |]. split; [etransitivity; eassumption |].
    split; [done |]. intros k. rewrite K2, K1. cbn. rewrite elem_of_cons. tauto.
Qed.

(** Applying an answer to a partition: it leaves the queried ones, if it was one of
    them. *)
Lemma apply_offset_spec c err e :
  asg_ok c -> (tp_key e ∈ keys (asg_queried (c_asg c)) -> holds (c_toppars c) e) ->
  (err <> 0 -> exists err', EvConsumerErr err' None ∈ c_evs c) ->
  let c' := apply_offset c err e in
  asg_ok c' /\ served c c' /\ c_toppars c' = c_toppars c /\ c_stops c' = c_stops c /\
  c_commits c' = c_commits c /\ c_fetches c' = c_fetches c /\
  asg_queried (c_asg c') = without (rktpar_topic e) (rktpar_partition e) (asg_queried (c_asg c)) /\
  (asg_pending (c_asg c') = asg_pending (c_asg c) \/
   asg_pending (c_asg c') = asg_pending (c_asg c) ++ [tp_copy e] /\
   (err = 0 /\ rktpar_err e = 0 \/ err = RD_KAFKA_RESP_ERR_UNSTABLE_OFFSET_COMMIT \/
    rktpar_err e = RD_KAFKA_RESP_ERR_UNSTABLE_OFFSET_COMMIT)).
Proof.
  intros [H Hr] Hh Herr. cbv zeta. unfold apply_offset.
  rewrite (elems_del_spec _ _ _ (inv_queried_nodup _ _ H)). case_bool_decide as Hin; cbn [negb].
  2: { rewrite without_notin by done. repeat (split; [first [done | reflexivity] |]). now left. }
  specialize (Hh Hin). unfold asg_inv in H. rewrite Hr in H.
  assert (Hx : ident e ∈ idents (asg_queried (c_asg c))).
  { apply elem_of_keys in Hin as (q & Hq & Ek). apply elem_of_idents. exists q. split; [done |].
    assert (Hhq : holds (c_toppars c) q) by (eapply inv_pq_holds; [exact H | apply elem_of_app; tauto]).
    unfold ident. f_equal; [exact Ek |].
    apply (holds_inj (c_toppars c)); [eapply inv_toppars_ok; exact H | done..]. }
  destruct H as [C Hw Hs Hc Hco].
  pose proof (core_requery _ _ _ _ _ _ _ _ C Hx) as Cr.
  assert (Ck : forall c2, c2 = c_map_asg (c_map_asg c (fun a => asg_set_queried a
        (without (rktpar_topic e) (rktpar_partition e) (asg_queried (c_asg c)))))
      (fun a => asg_set_pending a (elems_add_copy (asg_pending a) e)) -> asg_ok c2 /\ served c c2).
  { intros c2 ->. split; [split; [| exact Hr] | split; [done.. |]; exists []; now rewrite app_nil_r].
    unfold asg_inv. cbn. rewrite Hr. constructor; cbn; try done.
    unfold elems_add_copy. rewrite idents_app, idents_without. exact Cr. }
  destruct (_ || _) eqn:Eu.
  { split; [now apply Ck |]. split; [now apply Ck |]. repeat (split; [done |]). right. split; [done |].
    apply orb_true_iff in Eu as [?%Z.eqb_eq | ?%Z.eqb_eq]; auto. }
  destruct (Z.eqb_spec (rktpar_err e) 0) as [Ee | Ee]; cbn [negb].
  - destruct (Z.eqb_spec err 0) as [-> | Nerr].
    { split; [now apply Ck |]. split; [now apply Ck |]. repeat (split; [done |]). right. auto. }
    split; [| split; [split; [done.. |]; exists []; now rewrite app_nil_r | repeat (split; [done |]); now left]].
    split; [| exact Hr]. unfold asg_inv. cbn. rewrite Hr. constructor; cbn; try done.
    rewrite idents_without. apply (core_unquery _ _ _ _ _ _ _ _ C Hx).
    destruct (Herr Nerr) as (err' & Hin'). exists err'. now right.
  - split; [| split; [split; [done.. |] | repeat (split; [done |]); now left]].
    + split; [| exact Hr]. unfold asg_inv. cbn. rewrite Hr. constructor; cbn; try done.
      rewrite idents_without. apply (core_unquery _ _ _ _ _ _ _ (ident e)); [| exact Hx |].
      * eapply core_errs; [exact C |]. intros k. apply errored_app.
      * exists (rktpar_err e). left. apply elem_of_app. right. now apply list_elem_of_singleton.
    + exists [EvConsumerErr (rktpar_err e) (Some (rktpar_topic e, rktpar_partition e))].
      split; [done | now repeat constructor].
Qed.

(** A part that needs no further request: it has an error, other than that the offset is
    not stable yet, or an offset the fetcher can start from, or none. *)
Definition part_ok (p : fetch_part) : Prop :=
  fp_err p <> RD_KAFKA_RESP_ERR_UNSTABLE_OFFSET_COMMIT /\ (fp_offset p = -1 \/ 0 <= fp_offset p).

Definition startable (e : tp) : Prop :=
  rktpar_err e <> RD_KAFKA_RESP_ERR_UNSTABLE_OFFSET_COMMIT /\ offset_startable (rktpar_offset e) = true.

(** The response, whatever its error, is not one after which the request is made again. *)
Definition final_answer (allow_retry : bool) (resp : fetch_resp) (buf_retry : bool) : Prop :=
  fr_err resp <> RD_KAFKA_RESP_ERR_UNSTABLE_OFFSET_COMMIT /\
  fr_err resp <> RD_KAFKA_RESP_ERR__IN_PROGRESS /\
  has_action (rd_kafka_err_action (fr_err resp) true []) RD_KAFKA_ERR_ACTION_RETRY && allow_retry && buf_retry
    = false.

Lemma fetch_resp_part_startable ts offsets p ts' offsets' :
  part_ok p -> Forall startable offsets ->
  fetch_resp_part ts offsets p = Some (ts', offsets') -> Forall startable offsets'.
Proof.
  intros [He Ho] Hf. unfold fetch_resp_part.
  set (r := match elems_find offsets _ _ with Some i => (offsets, i) | None => _ end).
  assert (Hr : Forall startable r.1).
  { subst r. destruct (elems_find offsets _ _); [done |]. cbn. apply list.Forall_app.
    split; [done |]. now repeat constructor. }
  destruct r as [os i]. cbn in Hr. destruct (os !! i) as [e |] eqn:Hi; [| done].
  destruct (rd_kafka_topic_partition_ensure_toppar ts e false) as [ts1 e1].
  intros [= _ <-]. apply list.Forall_forall. intros x (j & Hj)%list_elem_of_lookup.
  apply insert_cases in Hj as [[-> ->] | [_ Hj]].
  - split; [exact He |]. cbn. unfold offset_startable, RD_KAFKA_OFFSET_IS_LOGICAL.
    destruct Ho as [-> | Ho]; [done |]. destruct (Z.eqb_spec (fp_offset p) (-1)); [lia |]. now ztest.
  - rewrite list.Forall_forall in Hr. apply Hr. now apply list_elem_of_lookup_2 in Hj.
Qed.

Lemma fetch_resp_parts_startable ps : forall ts offsets ts' offsets',
  Forall part_ok ps -> Forall startable offsets ->
  fetch_resp_parts ts offsets ps = Some (ts', offsets') -> Forall startable offsets'.
Proof.
  induction ps as [| p ps IH]; intros ts offsets ts' offsets' Hp Hf; cbn [fetch_resp_parts].
  - now intros [= _ <-].
  - apply list.Forall_cons in Hp as [Hp Hps].
    destruct (fetch_resp_part ts offsets p) as [[ts1 os1] |] eqn:E; [| done].
    apply IH; [done |]. eapply fetch_resp_part_startable; eassumption.
Qed.

(** What applying the offsets leaves. *)
Record applied (c c' : consumer) (offsets : list tp) : Prop := {
  ap_served : served c c';
  ap_toppars : c_toppars c' = c_toppars c;
  ap_stops : c_stops c' = c_stops c;
  ap_commits : c_commits c' = c_commits c;
  ap_fetches : c_fetches c' = c_fetches c;
  ap_queried : forall e, e ∈ asg_queried (c_asg c') <->
    e ∈ asg_queried (c_asg c) /\ tp_key e ∉ keys offsets;
  ap_pending : forall e, e ∈ asg_pending (c_asg c') ->
    e ∈ asg_pending (c_asg c) \/ exists e', e' ∈ offsets /\ e = tp_copy e' }.

Lemma apply_offsets_spec err offsets : forall c,
  asg_ok c ->
  Forall (fun e => tp_key e ∈ keys (asg_queried (c_asg c)) -> holds (c_toppars c) e) offsets ->
  (err <> 0 -> exists err', EvConsumerErr err' None ∈ c_evs c) ->
  let c' := foldl (fun c e => apply_offset c err e) c offsets in
  asg_ok c' /\ applied c c' offsets.
Proof.
  induction offsets as [| e es IH]; intros c Hok Hh Herr; cbn [foldl].
  { split; [done |]. constructor; try done; [| auto].
    intros e. split; [| tauto]. intros ?. split; [done | inversion 1]. }
  apply list.Forall_cons in Hh as [He Hh].
  destruct (apply_offset_spec c err e Hok He Herr) as (Hok1 & S1 & T1 & F1 & F2 & F3 & Q1 & P1).
  destruct (IH (apply_offset c err e) Hok1) as (Hok2 & [S2 T2 G1 G2 G3 Q2 P2]).
  - apply (list.Forall_impl _ _ _ Hh). intros x Hx Hin. rewrite T1. apply Hx.
    rewrite Q1 in Hin. now apply elem_of_keys_without in Hin.
  - intros Hn. destruct (Herr Hn) as (err' & Hin). exists err'.
    destruct (sv_evs _ _ S1) as (l & -> & _). apply elem_of_app. now left.
  - split; [done |]. constructor; try congruence.
    + etransitivity; eassumption.
    + intros x. rewrite Q2, Q1, elem_of_without. cbn. rewrite not_elem_of_cons.
      unfold tp_key at 3. tauto.
    + intros x Hx. destruct (P2 x Hx) as [Hx1 | (x' & Hx' & ->)].
      * destruct P1 as [P1 | [P1 _]]; rewrite P1 in Hx1; [now left |].
        apply elem_of_app in Hx1 as [? | ->%list_elem_of_singleton]; [now left |].
        right. exists e. split; [left | done].
      * right. exists x'. split; [now right | done].
Qed.

(** The answer can be handled: it is a response, or the assignment has changed since
    the request, or the request is retried. *)
Definition fetch_answer_ok (c : consumer) (version err : Z) (buf_retry : bool) : Prop :=
  err = 0 \/ err = RD_KAFKA_RESP_ERR__DESTROY \/ version <> asg_version (c_asg c) \/
  has_action (rd_kafka_err_action err true []) RD_KAFKA_ERR_ACTION_RETRY = true /\ buf_retry = true.

Lemma ok_emit c ev : asg_ok c -> asg_ok (c_emit c ev).
Proof. intros [H Hr]. split; [now apply inv_emit | exact Hr]. Qed.

Lemma ok_fetches c l : asg_ok c -> asg_ok (c_set_fetches c l).
Proof. intros [[H1 H2 H3 H4 H5] Hr]. split; [now constructor | exact Hr]. Qed.

Lemma ok_toppars c ts :
  asg_ok c -> toppars_ok ts -> toppars_ext (c_toppars c) ts -> asg_ok (c_set_toppars c ts).
Proof. intros [H Hr] H1 H2. split; [now apply inv_toppars | exact Hr]. Qed.

(** The response read: the elements of queried partitions hold their objects. *)
Lemma handle_OffsetFetch_spec c resp allow_retry buf_retry :
  asg_ok c ->
  exists c1 offsets err, rd_kafka_handle_OffsetFetch c 0 resp allow_retry buf_retry
      = Some (c1, Some offsets, err) /\ (err = RD_KAFKA_RESP_ERR__IN_PROGRESS \/ err = fr_err resp) /\
    asg_ok c1 /\ served c c1 /\ c_stops c1 = c_stops c /\ c_commits c1 = c_commits c /\
    c_fetches c1 = c_fetches c /\ asg_pending (c_asg c1) = asg_pending (c_asg c) /\
    asg_queried (c_asg c1) = asg_queried (c_asg c) /\
    Forall (fun e => tp_key e ∈ keys (asg_queried (c_asg c1)) -> holds (c_toppars c1) e) offsets /\
    (forall k, k ∈ keys offsets <-> k ∈ map (fun p => (fp_topic p, fp_partition p)) (fr_parts resp)) /\
    (Forall part_ok (fr_parts resp) -> Forall startable offsets) /\
    (Forall part_ok (fr_parts resp) -> final_answer allow_retry resp buf_retry -> err = fr_err resp).
Proof.
  intros Hok. pose proof Hok as [H Hr]. unfold rd_kafka_handle_OffsetFetch. cbn [Z.eqb negb].
  destruct (fetch_resp_parts_spec (c_toppars c) (fr_parts resp) (c_toppars c) [])
    as (ts & os & E & H1 & H2 & H3 & K); [eapply inv_toppars_ok; exact H | reflexivity | constructor |].
  rewrite E.
  set (c0 := c_set_toppars c ts).
  set (c1 := if has_action _ RD_KAFKA_ERR_ACTION_REFRESH then c_emit c0 (EvCoordQuery (fr_err resp)) else c0).
  assert (Hc1 : asg_ok c1 /\ served c c1 /\ c_stops c1 = c_stops c /\ c_commits c1 = c_commits c /\
    c_fetches c1 = c_fetches c /\ asg_pending (c_asg c1) = asg_pending (c_asg c) /\
    asg_queried (c_asg c1) = asg_queried (c_asg c) /\ c_toppars c1 = ts).
  { assert (H0 : asg_ok c0) by now apply ok_toppars.
    subst c1. destruct (has_action _ _); (split; [auto using ok_emit |]); split; try (conj; done).
    - split; [done.. |]. exists [EvCoordQuery (fr_err resp)]. split; [done | now repeat constructor].
    - split; [done.. |]. exists []. now rewrite app_nil_r. }
  destruct Hc1 as (Hok1 & S1 & F1 & F2 & F3 & F4 & F5 & F6).
  assert (Hh : Forall (fun e => tp_key e ∈ keys (asg_queried (c_asg c1)) -> holds (c_toppars c1) e) os).
  { apply (list.Forall_impl _ _ _ H3). intros e [He | [_ Hn]]; [rewrite F6; auto |].
    rewrite F5. intros (q & Hq & Ek)%elem_of_keys.
    assert (Hhq : holds (c_toppars c) q) by (eapply inv_pq_holds; [exact H | apply elem_of_app; tauto]).
    destruct Hhq as (i & t & _ & Hi & Hk & _).
    assert (Hf : rd_kafka_topic_find (c_toppars c) (rktpar_topic e) = true); [| congruence].
    apply topic_find_spec. exists i, t. split; [done |]. unfold toppar_key, tp_key in *. congruence. }
  assert (Kk : forall k, k ∈ keys os <-> k ∈ map (fun p => (fp_topic p, fp_partition p)) (fr_parts resp)).
  { intros k. rewrite K. split; [intros [Hx | ?]; [inversion Hx | done] | auto]. }
  assert (Hs : Forall part_ok (fr_parts resp) -> Forall startable os).
  { intros Hp. eapply fetch_resp_parts_startable; [exact Hp | constructor | exact E]. }
  destruct (_ && _ && _) eqn:Eretry; eexists _, _, _; (split; [reflexivity |]).
  - split; [auto |]. repeat (split; [done |]). intros Hp (_ & _ & He). exfalso.
    rewrite !andb_orb_distrib_l, He in Eretry. cbn in Eretry. apply andb_true_iff in Eretry as [[Ex _]%andb_true_iff _].
    apply existsb_exists in Ex as (p & Hin%list_elem_of_In & Ep%Z.eqb_eq).
    rewrite list.Forall_forall in Hp. destruct (Hp p Hin) as [E0 _]. done.
  - split; [auto |]. repeat (split; [done |]). done.
Qed.

(** Whatever the answer, it is handled. *)
Lemma assignment_handle_OffsetFetch_spec c env k version ps err resp buf_retry :
  asg_ok c -> c_fetches c !! k = Some (version, ps) -> fetch_answer_ok c version err buf_retry ->
  exists c1, asg_ok c1 /\
    (rd_kafka_assignment_handle_OffsetFetch c env k err resp buf_retry = Some c1 \/
     rd_kafka_assignment_handle_OffsetFetch c env k err resp buf_retry = rd_kafka_assignment_serve c1 env).
Proof.
  intros Hok Hk Ha. unfold rd_kafka_assignment_handle_OffsetFetch. rewrite Hk.
  destruct (Z.eqb_spec err RD_KAFKA_RESP_ERR__DESTROY) as [-> | Nd].
  { eexists. split; [apply ok_fetches; exact Hok | now left]. }
  destruct (Z.eq_dec err 0) as [-> | N0].
  - destruct (handle_OffsetFetch_spec c resp (version =? asg_version (c_asg c)) buf_retry Hok)
      as (c1 & os & err1 & -> & He & Hok1 & _ & _ & _ & F3 & _ & _ & Hh & _).
    destruct (_ =? _); [eexists; split; [exact Hok1 | now left] |].
    unfold rd_kafka_assignment_apply_offsets.
    set (c2 := c_set_fetches c1 _). assert (Hok2 : asg_ok c2) by now apply ok_fetches.
    set (c3 := if negb (err1 =? 0) then _ else c2).
    assert (Hok3 : asg_ok c3) by (subst c3; destruct (_ =? 0); [done | now apply ok_emit]).
    destruct (apply_offsets_spec err1 os c3 Hok3) as [Hok4 _].
    { subst c3. destruct (_ =? 0); exact Hh. }
    { intros Ne. exists err1. subst c3. apply Z.eqb_neq in Ne as ->. apply elem_of_app. right.
      now apply list_elem_of_singleton. }
    eexists. split; [exact Hok4 |]. destruct (_ >? 0); auto.
  - assert (E : rd_kafka_handle_OffsetFetch c err resp (version =? asg_version (c_asg c)) buf_retry
        = let c1 := if has_action (rd_kafka_err_action err true []) RD_KAFKA_ERR_ACTION_REFRESH
                    then c_emit c (EvCoordQuery err) else c in
          if has_action (rd_kafka_err_action err true []) RD_KAFKA_ERR_ACTION_RETRY
             && (version =? asg_version (c_asg c)) && buf_retry
          then Some (c1, None, RD_KAFKA_RESP_ERR__IN_PROGRESS) else Some (c1, None, err)).
    { unfold rd_kafka_handle_OffsetFetch. apply Z.eqb_neq in N0 as ->. cbn [negb].
      now rewrite orb_false_r. }
    rewrite E. cbv zeta. clear E. set (c1 := if has_action _ _ then _ else c).
    assert (Hok1 : asg_ok c1) by (subst c1; destruct (has_action _ _); auto using ok_emit).
    destruct (_ && _ && _) eqn:Er; [eexists; split; [exact Hok1 | now left] |].
    destruct (err =? _); [eexists; split; [exact Hok1 | now left] |].
    destruct (Z.eqb_spec version (asg_version (c_asg c))) as [Ev | Ev]; cbn [negb].
    + destruct Ha as [? | [? | [? | [Hr1 Hr2]]]]; [done.. |]. rewrite Hr1, Hr2 in Er. done.
    + eexists. split; [| now left]. apply ok_emit, ok_fetches, Hok1.
Qed.

(** An answer that is final: the partitions it has leave the queried ones and those that
    become pending can be started. *)
Lemma complete_answer_spec c env k version ps resp buf_retry :
  asg_ok c -> c_fetches c !! k = Some (version, ps) ->
  Forall part_ok (fr_parts resp) -> fr_parts resp <> [] ->
  final_answer (version =? asg_version (c_asg c)) resp buf_retry ->
  exists c1, rd_kafka_assignment_handle_OffsetFetch c env k 0 resp buf_retry
      = rd_kafka_assignment_serve c1 env /\
    asg_ok c1 /\ served c c1 /\ c_stops c1 = c_stops c /\ c_commits c1 = c_commits c /\
    c_fetches c1 = remove_nth k (c_fetches c) /\
    (forall e, e ∈ asg_queried (c_asg c1) <-> e ∈ asg_queried (c_asg c) /\
       tp_key e ∉ map (fun p => (fp_topic p, fp_partition p)) (fr_parts resp)) /\
    (forall e, e ∈ asg_pending (c_asg c1) ->
       e ∈ asg_pending (c_asg c) \/ offset_startable (rktpar_offset e) = true).
Proof.
  intros Hok Hk Hp Hne He. unfold rd_kafka_assignment_handle_OffsetFetch. rewrite Hk.
  cbn [Z.eqb RD_KAFKA_RESP_ERR__DESTROY].
  destruct (handle_OffsetFetch_spec c resp (version =? asg_version (c_asg c)) buf_retry Hok)
    as (c1 & os & err1 & -> & _ & Hok1 & S1 & F1 & F2 & F3 & F4 & F5 & Hh & K & Hst & H0).
  rewrite (H0 Hp He). destruct He as (Hu & Hi & _). apply Z.eqb_neq in Hi as ->.
  unfold rd_kafka_assignment_apply_offsets.
  set (c2 := if negb (fr_err resp =? 0) then _ else _).
  assert (Hc2 : asg_ok c2 /\ served c1 c2 /\ c_toppars c2 = c_toppars c1 /\ c_stops c2 = c_stops c1 /\
    c_commits c2 = c_commits c1 /\ c_fetches c2 = remove_nth k (c_fetches c1) /\ c_asg c2 = c_asg c1 /\
    (fr_err resp <> 0 -> exists err', EvConsumerErr err' None ∈ c_evs c2)).
  { subst c2. destruct (Z.eqb_spec (fr_err resp) 0) as [E0 | E0]; cbn [negb].
    - split; [now apply ok_fetches |]. split; [split; try done; exists []; now rewrite app_nil_r |].
      repeat (split; [done |]). done.
    - split; [now apply ok_emit, ok_fetches |].
      split; [split; try done; eexists; split; [reflexivity | now repeat constructor] |].
      repeat (split; [done |]). intros _. eexists. cbn. apply elem_of_app. right. now apply list_elem_of_singleton. }
  destruct Hc2 as (Hok2 & S2 & T2 & B1 & B2 & B3 & B4 & Herr).
  destruct (apply_offsets_spec (fr_err resp) os c2 Hok2) as [Hok3 [S3 T3 G1 G2 G3 Q3 P3]];
    [rewrite B4, T2; exact Hh | exact Herr |].
  assert (Hz : (zlen os >? 0) = true).
  { destruct os as [| o os]; [| apply Z.gtb_lt; cbn; lia]. destruct (fr_parts resp) as [| p q]; [done |].
    assert (Hin : (fp_topic p, fp_partition p) ∈ keys []) by (apply K; left). inversion Hin. }
  rewrite Hz. eexists. split; [reflexivity |]. split; [exact Hok3 |].
  split; [etransitivity; [exact S1 |]; etransitivity; [exact S2 | exact S3] |].
  split; [congruence |]. split; [congruence |]. split; [rewrite G3, B3; now rewrite F3 |]. split.
  - intros e. rewrite Q3, <- K, B4, <- F5. done.
  - intros e [? | (e' & He' & ->)]%P3; [left; now rewrite <- F4, <- B4 |]. right.
    specialize (Hst Hp). rewrite list.Forall_forall in Hst. now apply (Hst e' He').
Qed.

(** ** Commits *)

Lemma handle_OffsetCommit_spec c err request resp offsets buf_retry :
  (err = 0 -> offsets <> None) ->
  exists evs offsets' err', rd_kafka_handle_OffsetCommit c err request resp offsets buf_retry
      = Some (foldl c_emit c evs, offsets', err') /\ (offsets <> None -> offsets' <> None) /\
    Forall (fun ev => ev <> EvAssignmentDone) evs.
Proof.
  intros Ho. unfold rd_kafka_handle_OffsetCommit.
  assert (G : forall (offsets' : option (list tp)) err1 actions,
    exists evs offsets'' err', (
      let actions := if actions =? 0
                     then rd_kafka_err_action err1 request [(0x2c, RD_KAFKA_RESP_ERR__TRANSPORT)]
                     else actions in
      if has_action actions RD_KAFKA_ERR_ACTION_FATAL then Some (c, offsets', err1)
      else
        let c := if has_action actions RD_KAFKA_ERR_ACTION_REFRESH
                 then c_emit c (EvCoordQuery err1) else c in
        if has_action actions RD_KAFKA_ERR_ACTION_RETRY
           && negb (has_action actions RD_KAFKA_ERR_ACTION_PERMANENT) && buf_retry
        then Some (c, offsets', RD_KAFKA_RESP_ERR__IN_PROGRESS)
        else Some (c, offsets', err1)) = Some (foldl c_emit c evs, offsets'', err') /\
      offsets'' = offsets' /\ Forall (fun ev => ev <> EvAssignmentDone) evs).
  { intros os err1 act. cbv zeta. destruct (has_action _ RD_KAFKA_ERR_ACTION_FATAL).
    { exists [], os, err1. conj. }
    destruct (has_action _ RD_KAFKA_ERR_ACTION_REFRESH).
    - exists [EvCoordQuery err1]. destruct (_ && _ && _); eexists _, _; (split; [reflexivity |]);
        (split; [done | now repeat constructor]).
    - exists []. destruct (_ && _ && _); eexists _, _; (split; [reflexivity |]); (split; [done | constructor]). }
  destruct (Z.eqb_spec err 0) as [-> | Ne]; cbn [negb].
  - destruct offsets as [os |]; [| now destruct Ho].
    destruct (offset_commit_parts os (cr_parts resp) 0 0 0 0) as [[[[os' err1] ec] pc] act].
    destruct (negb (cr_err resp =? 0)); cbn [negb].
    + destruct (G (Some os') (cr_err resp) act) as (evs & o & e & E & -> & Q).
      exists evs, (Some os'), e. split; [exact E | done].
    + destruct (negb (err1 =? 0) && (ec =? pc)); cbn [negb].
      * destruct (G (Some os') err1 act) as (evs & o & e & E & -> & Q).
        exists evs, (Some os'), e. split; [exact E | done].
      * exists [], (Some os'), err1. repeat split; [done | constructor].
  - destruct (G offsets err 0) as (evs & o & e & E & -> & Q).
    exists evs, offsets, e. split; [exact E | done].
Qed.

Lemma update_committed_offsets_spec err os : forall ts n,
  toppars_ok ts -> let '(ts', _) := rd_kafka_cgrp_update_committed_offsets ts err os n in
  toppars_ok ts' /\ toppars_ext ts ts'.
Proof.
  induction os as [| e os IH]; intros ts n Hok; cbn [rd_kafka_cgrp_update_committed_offsets]; [done |].
  destruct (RD_KAFKA_OFFSET_IS_LOGICAL _); [now apply IH |].
  set (e0 := if _ && _ then _ else e). destruct (negb (rktpar_err e0 =? 0)); [now apply IH |].
  destruct (rd_kafka_topic_partition_ensure_toppar ts e0 false) as [ts1 e1] eqn:E.
  destruct (ensure_toppar_ext _ _ _ _ _ Hok E) as (H1 & H2 & _).
  set (ts2 := match rktpar_private e1 with None => ts1 | Some _ => _ end).
  assert (H3 : toppars_ok ts2 /\ toppars_ext ts1 ts2).
  { subst ts2. destruct (rktpar_private e1); [now apply committed_ok | done]. }
  destruct H3 as [H3 H4]. specialize (IH ts2 n H3).
  destruct (rd_kafka_cgrp_update_committed_offsets ts2 err os n) as [ts3 m].
  destruct IH as [H5 H6]. split; [done |]. etransitivity; [exact H2 |]. etransitivity; eassumption.
Qed.

(** The commit's answer has been taken off the outstanding ones, and is still counted. *)
Lemma offset_commit_done_spec c env err rko offsets :
  asg_ok (c_set_commits c (c_wait_commit_cnt c - 1) (c_commits c)) ->
  exists c2, asg_ok c2 /\ served c c2 /\ c_stops c2 = c_stops c /\ c_commits c2 = c_commits c /\
    c_fetches c2 = c_fetches c /\ asg_pending (c_asg c2) = asg_pending (c_asg c) /\
    asg_queried (c_asg c2) = asg_queried (c_asg c) /\
    offset_commit_done c env err rko offsets
    = (if err =? RD_KAFKA_RESP_ERR__DESTROY then Some c2
       else if c_wait_commit_cnt c2 =? 0 then rd_kafka_assignment_serve c2 env else Some c2).
Proof.
  set (c1 := c_set_commits c (c_wait_commit_cnt c - 1) (c_commits c)). intros Hok.
  pose proof Hok as [H Hr]. pose proof (inv_commits _ _ H) as Hc. cbn in Hc.
  unfold offset_commit_done, rd_assert. ztest. fold c1.
  destruct (err =? RD_KAFKA_RESP_ERR__DESTROY).
  { exists c1. split; [exact Hok |]. split; [split; try done; exists []; now rewrite app_nil_r | done]. }
  set (r := match offsets with None => (c_toppars c1, 0) | Some _ => _ end).
  assert (Ht : toppars_ok r.1 /\ toppars_ext (c_toppars c1) r.1).
  { pose proof (inv_toppars_ok _ _ H) as Ht. subst r. destruct offsets as [os |]; [| done].
    pose proof (update_committed_offsets_spec err os _ 0 Ht) as Hu.
    destruct (rd_kafka_cgrp_update_committed_offsets _ err os 0). exact Hu. }
  destruct r as [ts errcnt]. destruct Ht as [T1 T2].
  set (c2 := c_set_toppars c1 ts). assert (Hok2 : asg_ok c2) by now apply ok_toppars.
  set (c3 := if negb _ then c_emit c2 _ else c2).
  assert (H3 : asg_ok c3 /\ served c c3 /\ c_stops c3 = c_stops c /\ c_commits c3 = c_commits c /\
    c_fetches c3 = c_fetches c /\ asg_pending (c_asg c3) = asg_pending (c_asg c) /\
    asg_queried (c_asg c3) = asg_queried (c_asg c)).
  { subst c3. destruct (negb _); (split; [auto using ok_emit |]); split; try (conj; done).
    - split; [done.. |]. eexists. split; [reflexivity | now repeat constructor].
    - split; [done.. |]. exists []. now rewrite app_nil_r. }
  exists c3. repeat (split; [apply H3 |]). reflexivity.
Qed.

Definition commit_answer_ok (at_ : commit_at) (err : Z) : Prop :=
  match at_ with
  | AtCoord => True
  | AtSelf e => err = e
  | AtWaitCoord => err = RD_KAFKA_RESP_ERR__WAIT_COORD
  end.

Lemma own_errors_nonzero err : err ∈ own_errors -> err <> 0.
Proof. unfold own_errors. rewrite !elem_of_cons. intros [-> | [-> | [-> | [-> | H]]]]; [done.. | inversion H]. Qed.

Lemma commit_answer_offsets x err :
  commit_ok x -> commit_answer_ok x.2 err -> err = 0 -> co_partitions x.1 <> None.
Proof.
  destruct x as [rko [| e |]]; cbn; [done | |]; intros H -> E; [| done].
  now apply own_errors_nonzero in E.
Qed.

Lemma ok_commits c n l :
  asg_ok c -> n = zlen l -> Forall commit_ok l -> asg_ok (c_set_commits c n l).
Proof. intros [[H1 H2 H3 H4 H5] Hr] Hn Hl. split; [now constructor | exact Hr]. Qed.

Lemma commit_requeued c k x y :
  asg_ok c -> c_commits c !! k = Some x -> commit_ok y ->
  asg_ok (c_set_commits c (c_wait_commit_cnt c) (<[k := y]> (c_commits c))).
Proof.
  intros Hok Hk Hy. pose proof Hok as [[_ _ _ H4 H5] _].
  apply ok_commits; [done | now rewrite length_insert |]. now apply list.Forall_insert.
Qed.

(** An answered commit is no longer outstanding, and not counted. *)
Lemma commit_taken c k x :
  asg_ok c -> c_commits c !! k = Some x ->
  asg_ok (c_set_commits c (c_wait_commit_cnt c - 1) (remove_nth k (c_commits c))).
Proof.
  intros Hok Hk. pose proof Hok as [[_ _ _ H4 H5] _].
  pose proof (remove_nth_length _ _ _ Hk) as HL. apply ok_commits; [done | lia |].
  rewrite (remove_nth_perm _ _ _ Hk) in H5. now apply list.Forall_cons in H5.
Qed.

(** Whatever the answer, it is handled. *)
Lemma op_handle_OffsetCommit_spec c env k x err resp buf_retry :
  asg_ok c -> c_commits c !! k = Some x -> commit_answer_ok x.2 err ->
  exists c1, asg_ok c1 /\
    (rd_kafka_cgrp_op_handle_OffsetCommit c env k err resp buf_retry = Some c1 \/
     rd_kafka_cgrp_op_handle_OffsetCommit c env k err resp buf_retry = rd_kafka_assignment_serve c1 env).
Proof.
  intros Hok Hk Ha. unfold rd_kafka_cgrp_op_handle_OffsetCommit. rewrite Hk.
  destruct x as [rko at_].
  assert (Hx : commit_ok (rko, at_)).
  { destruct Hok as [[_ _ _ _ H5] _]. rewrite list.Forall_forall in H5.
    apply H5. now apply list_elem_of_lookup_2 in Hk. }
  destruct (handle_OffsetCommit_spec c err (match at_ with AtCoord => true | _ => false end) resp
              (co_partitions rko) buf_retry) as (evs & os & err1 & -> & Hos & _).
  { intros E. exact (commit_answer_offsets (rko, at_) err Hx Ha E). }
  destruct (foldl_emit c evs) as (Ea & Et & Es & Ec & Ef & Ee & Ew & _).
  set (c1 := foldl c_emit c evs) in *.
  assert (Hok1 : asg_ok c1) by (destruct Hok as [H Hr]; split; unfold asg_inv in *; rewrite Ea; [now apply inv_emits | done]).
  assert (Hk1 : c_commits c1 !! k = Some (rko, at_)) by now rewrite Ec.
  assert (Hset : forall rko', co_partitions rko' = os -> co_reprocess rko' = co_reprocess rko ->
            commit_ok (rko', at_)).
  { intros rko' E1 E2. destruct at_; cbn in *; [rewrite E1; auto | done | congruence]. }
  assert (D : forall a, asg_ok (c_set_commits a (c_wait_commit_cnt a - 1) (c_commits a)) ->
    exists c2, asg_ok c2 /\
      (offset_commit_done a env err1 (co_set_partitions rko os) os = Some c2 \/
       offset_commit_done a env err1 (co_set_partitions rko os) os = rd_kafka_assignment_serve c2 env)).
  { intros a H. destruct (offset_commit_done_spec a env err1 (co_set_partitions rko os) os H)
      as (c2 & H2 & _ & _ & _ & _ & _ & _ & ->). exists c2. split; [done |].
    destruct (_ =? _); [auto |]. destruct (_ =? _); auto. }
  pose proof (commit_taken c1 k _ Hok1 Hk1) as Ht.
  destruct (err1 =? RD_KAFKA_RESP_ERR__IN_PROGRESS).
  { eexists. split; [| now left]. apply (commit_requeued c1 k _ _ Hok1 Hk1). now apply Hset. }
  destruct ((_ =? _) || (_ =? _)).
  { apply D. apply (ok_emit _ EvRevokeAll) in Ht. exact Ht. }
  destruct (_ || _ || _); [| apply D; exact Ht].
  destruct (rd_kafka_cgrp_defer_offset_commit env (co_set_partitions rko os)) as [rko' |] eqn:Ed;
    [| apply D; exact Ht].
  eexists. split; [| now left]. apply (commit_requeued c1 k _ _ Hok1 Hk1).
  unfold rd_kafka_cgrp_defer_offset_commit in Ed. destruct (_ || _); [done |]. now injection Ed as <-.
Qed.

(** The outcomes of a commit after which it is made again or deferred, or the client is
    being destroyed. *)
Definition open_outcomes : list Z :=
  [RD_KAFKA_RESP_ERR__IN_PROGRESS; RD_KAFKA_RESP_ERR_NOT_COORDINATOR;
   RD_KAFKA_RESP_ERR_COORDINATOR_NOT_AVAILABLE; RD_KAFKA_RESP_ERR__TRANSPORT; RD_KAFKA_RESP_ERR__DESTROY].

(** The answer is the last one, be it that the commit was done, or failed. *)
Definition commit_final (c : consumer) (offsets : option (list tp)) (at_ : commit_at) (err : Z)
  (resp : commit_resp) (buf_retry : bool) : Prop :=
  commit_answer_ok at_ err /\
  match rd_kafka_handle_OffsetCommit c err (match at_ with AtCoord => true | _ => false end) resp
          offsets buf_retry with
  | Some (_, _, outcome) => outcome ∉ open_outcomes
  | None => False
  end.

Lemma own_error_outcome c err resp offsets buf_retry :
  err ∈ own_errors ->
  exists evs, rd_kafka_handle_OffsetCommit c err false resp offsets buf_retry
      = Some (foldl c_emit c evs, offsets, err).
Proof.
  unfold own_errors. rewrite !elem_of_cons. intros [-> | [-> | [-> | [-> | H]]]]; [| | | | inversion H].
  1-3: exists []; reflexivity.
  exists [EvCoordQuery RD_KAFKA_RESP_ERR__WAIT_COORD]. reflexivity.
Qed.

(** There is one for each commit. *)
Lemma commit_final_exists c x :
  commit_ok x ->
  commit_final c (co_partitions x.1) x.2
    (match x.2 with AtCoord => 0 | AtSelf e => e | AtWaitCoord => RD_KAFKA_RESP_ERR__WAIT_COORD end)
    (mk_cresp [] 0) false.
Proof.
  assert (Hown : forall e, e ∈ own_errors -> e ∉ open_outcomes).
  { intros e He Ho. unfold own_errors in He. rewrite !elem_of_cons in He.
    destruct He as [-> | [-> | [-> | [-> | H]]]]; [.. | inversion H];
      revert Ho; apply (bool_decide_unpack _); vm_compute; exact I. }
  destruct x as [rko [| e |]]; cbn [fst snd commit_ok]; intros Hx; (split; [done |]).
  - destruct (co_partitions rko) as [os |]; [| done]. cbn. apply (bool_decide_unpack _). now vm_compute.
  - destruct (own_error_outcome c e (mk_cresp [] 0) (co_partitions rko) false Hx) as (evs & ->). auto.
  - assert (Hin : RD_KAFKA_RESP_ERR__WAIT_COORD ∈ own_errors) by (unfold own_errors; repeat constructor).
    destruct (own_error_outcome c _ (mk_cresp [] 0) (co_partitions rko) false Hin) as (evs & ->). auto.
Qed.

Lemma served_emits c evs : Forall (fun ev => ev <> EvAssignmentDone) evs -> served c (foldl c_emit c evs).
Proof. intros H. destruct (foldl_emit c evs) as (Ea & _ & _ & _ & _ & Ee & _). split; [now rewrite Ea.. | eauto]. Qed.

(** A commit with its last answer is taken off, and the last commit has the assignment
    served. *)
Lemma complete_commit_spec c env k x err resp buf_retry :
  asg_ok c -> c_commits c !! k = Some x -> commit_final c (co_partitions x.1) x.2 err resp buf_retry ->
  exists c2, asg_ok c2 /\ served c c2 /\ c_stops c2 = c_stops c /\
    c_commits c2 = remove_nth k (c_commits c) /\ c_fetches c2 = c_fetches c /\
    asg_pending (c_asg c2) = asg_pending (c_asg c) /\ asg_queried (c_asg c2) = asg_queried (c_asg c) /\
    rd_kafka_cgrp_op_handle_OffsetCommit c env k err resp buf_retry
    = (if c_wait_commit_cnt c2 =? 0 then rd_kafka_assignment_serve c2 env else Some c2).
Proof.
  intros Hok Hk Ha. unfold rd_kafka_cgrp_op_handle_OffsetCommit. rewrite Hk.
  destruct x as [rko at_].
  assert (Hx : commit_ok (rko, at_)).
  { destruct Hok as [[_ _ _ _ H5] _]. rewrite list.Forall_forall in H5.
    apply H5. now apply list_elem_of_lookup_2 in Hk. }
  destruct Ha as [Ha Hf]. cbn [fst snd] in Ha, Hf.
  destruct (handle_OffsetCommit_spec c err (match at_ with AtCoord => true | _ => false end) resp
              (co_partitions rko) buf_retry) as (evs & os & err1 & E1 & _ & Hev).
  { intros E. exact (commit_answer_offsets (rko, at_) err Hx Ha E). }
  rewrite E1 in Hf |- *. unfold open_outcomes in Hf. rewrite !not_elem_of_cons in Hf.
  destruct Hf as (O1 & O2 & O3 & O4 & O5 & _).
  destruct (foldl_emit c evs) as (Ea & Et & Es & Ec & Ef & Ee & Ew & _).
  pose proof (served_emits c evs Hev) as S1.
  set (c1 := foldl c_emit c evs) in *.
  assert (Hok1 : asg_ok c1) by (destruct Hok as [H Hr]; split; unfold asg_inv in *; rewrite Ea; [now apply inv_emits | done]).
  assert (Hk1 : c_commits c1 !! k = Some (rko, at_)) by now rewrite Ec.
  pose proof (commit_taken c1 k _ Hok1 Hk1) as Ht.
  set (a0 := c_set_commits c1 (c_wait_commit_cnt c1) (remove_nth k (c_commits c1))).
  assert (D : forall a, asg_ok (c_set_commits a (c_wait_commit_cnt a - 1) (c_commits a)) ->
    served c1 a -> c_stops a = c_stops c1 -> c_commits a = remove_nth k (c_commits c1) ->
    c_fetches a = c_fetches c1 -> c_asg a = c_asg c1 ->
    exists c2, asg_ok c2 /\ served c c2 /\ c_stops c2 = c_stops c /\
      c_commits c2 = remove_nth k (c_commits c) /\ c_fetches c2 = c_fetches c /\
      asg_pending (c_asg c2) = asg_pending (c_asg c) /\ asg_queried (c_asg c2) = asg_queried (c_asg c) /\
      offset_commit_done a env err1 (co_set_partitions rko os) os
      = (if c_wait_commit_cnt c2 =? 0 then rd_kafka_assignment_serve c2 env else Some c2)).
  { intros a Ha' Sa A1 A2 A3 A4.
    destruct (offset_commit_done_spec a env err1 (co_set_partitions rko os) os Ha')
      as (c2 & H2 & S2 & F1 & F2 & F3 & F4 & F5 & E).
    apply Z.eqb_neq in O5. rewrite O5 in E.
    exists c2. split; [done |]. split; [etransitivity; [exact S1 |]; etransitivity; [exact Sa | exact S2] |].
    rewrite F1, F2, F3, F4, F5, A1, A2, A3, A4, Ea, Ec. split; [congruence |]. split; [done |].
    split; [congruence |]. split; [done |]. split; [done | exact E]. }
  apply Z.eqb_neq in O1 as ->. apply Z.eqb_neq in O2 as ->. apply Z.eqb_neq in O3 as ->. apply Z.eqb_neq in O4 as ->.
  cbn [orb]. destruct (_ || _).
  - apply (D (c_emit a0 EvRevokeAll)); [apply (ok_emit _ EvRevokeAll) in Ht; exact Ht | | done..].
    split; [done.. |]. exists [EvRevokeAll]. split; [done | now repeat constructor].
  - apply (D a0); [exact Ht | | done..]. split; [done.. |]. exists []. now rewrite app_nil_r.
Qed.
