(* ===== verification/AssignProps.v ===== *)
(** * The consumer's assignment: what its operations guarantee

    Sequences of operations and answers as [asg_steps] runs them: that no assertion
    fails and every assigned partition stays accounted for, that the assignment
    settles once what is outstanding has been answered, and that an answer to a query
    for partitions that are gone has no effect on them. *)

From stdpp Require Import gmap strings sorting.
From S2P Require Import Prelude Msgq Sort TpList TpListFacts TpListProps Assignment AssignFacts AssignInv AssignSteps AssignOps AssignAnswers.

(** ** Operations in order *)

Definition no_objects (ps : list tp) : Prop := Forall (fun e => rktpar_private e = None) ps.

(** What is assumed of the operations in [assignment_accounts].  The partitions of an
    assignment come without objects; those that are removed are not still being stopped,
    and are given once; answers are to what is outstanding, an own error's is that error;
    a request for offsets that fails without a response is retried, or the assignment has
    changed; a deferred commit is processed again.  The code does not see to the second,
    third and fifth of these, and the client can break them:
    [stopped_twice_asserts], [unassigned_twice_asserts] and [failed_query_reads_null]. *)
Definition op_ok (c : consumer) (env : group_env) (op : asg_op) : Prop :=
  match op with
  | OpAssign _ terminating method partitions =>
      if ge_fatal env || terminating then stop_free c (fun _ => True)
      else
        match method, partitions with
        | METHOD_ASSIGN, None => stop_free c (fun _ => True)
        | METHOD_ASSIGN, Some ps => stop_free c (fun _ => True) /\ no_objects ps
        | METHOD_INCR_ASSIGN, Some ps => no_objects ps
        | METHOD_INCR_UNASSIGN, Some ps =>
            Forall (fun e => rktpar_private e = None \/ holds (c_toppars c) e) ps /\
            NoDup (keys ps) /\ stop_free c (fun k => k ∈ keys ps)
        | _, None => False
        end
  | OpUnassign => stop_free c (fun _ => True)
  | OpStopped k => exists i, c_stops c !! k = Some i
  | OpOffsetFetch k err _ buf_retry =>
      exists version ps, c_fetches c !! k = Some (version, ps) /\ fetch_answer_ok c version err buf_retry
  | OpOffsetCommit k err _ _ => exists x, c_commits c !! k = Some x /\ commit_answer_ok x.2 err
  | OpCommitAgain k => exists rko, c_commits c !! k = Some (rko, AtWaitCoord)
  | OpServe | OpPause | OpJoinState _ | OpLost | OpStore _ _ | OpCommit _ _ | OpTimer _ => True
  end.

Section Steps.
Context (qsort : forall A, (A -> A -> Z) -> list A -> list A) `{!Qsort qsort}.

(** Every operation of a run keeps to it in the state it finds. *)
Fixpoint ops_ok (c : consumer) (ops : list (group_env * asg_op)) : Prop :=
  match ops with
  | [] => True
  | (env, op) :: ops => op_ok c env op /\ forall c', asg_step qsort c env op = Some c' -> ops_ok c' ops
  end.

(** The partition is waiting to be started, being asked for, fetched, or an error has
    been reported for it. *)
Definition accounted (c : consumer) (e : tp) : Prop :=
  tp_key e ∈ keys (asg_pending (c_asg c)) \/ tp_key e ∈ keys (asg_queried (c_asg c)) \/
  running (c_toppars c) (c_stops c) (ident e) \/ errored (c_evs c) (tp_key e).

Lemma ok_accounted c e : asg_ok c -> e ∈ asg_all (c_asg c) -> accounted c e.
Proof.
  intros [[C _ _ _ _] _] He.
  destruct (co_acct _ _ _ _ _ _ _ C (ident e) (in_idents _ _ He)) as [H | [H | H]];
    [| right; right; auto..].
  apply elem_of_app in H. rewrite !elem_of_idents in H.
  destruct H as [(x & Hx & E) | (x & Hx & E)]; [left | right; left];
    (apply elem_of_keys; exists x; split; [done | unfold ident in E; congruence]).
Qed.

Lemma ok_finish c : asg_ok c -> asg_ok (finish c).
Proof. unfold finish. destruct (rd_kafka_assignment_in_progress c); auto using ok_emit. Qed.

Lemma ok_serve c env : asg_inv c -> exists c', rd_kafka_assignment_serve c env = Some c' /\ asg_ok c'.
Proof. intros H. destruct (serve_spec c env H) as (c1 & -> & H1 & _). eauto using ok_finish. Qed.

Lemma ok_group_done c js js' : asg_ok c -> asg_ok (group_done c js js').
Proof.
  intros [H Hr]. destruct (group_done_spec c js js' H) as [H1 S]. split; [done |].
  rewrite (sa_removed _ _ S). exact Hr.
Qed.

Lemma ok_init ts : toppars_ok ts -> Forall fresh ts -> asg_ok (rd_kafka_assignment_init ts).
Proof.
  intros Hok Hf.
  assert (F : forall i t, ts !! i = Some t -> fresh t) by (intros i t Hi; rewrite list.Forall_forall in Hf; apply Hf; now apply list_elem_of_lookup_2 in Hi).
  assert (N : forall x : tpid, x ∉ []) by (intros x Hx; inversion Hx).
  assert (Nn : forall x : nat, x ∉ []) by (intros x Hx; inversion Hx).
  split; [| done]. constructor; cbn; [| done | | done | constructor].
  - constructor; cbn; try done; try constructor; try (intros; exfalso; solve [eapply N; eassumption | eapply Nn; eassumption]).
    + intros Ha. destruct (F _ _ ltac:(eassumption)) as [_ E]. congruence.
    + intros (x & Hx & _). now apply N in Hx.
    + match goal with H : rktp_started _ = true |- _ => destruct (F _ _ ltac:(eassumption)); congruence end.
  - clear Hok F. induction Hf as [| t l [Ht _] _ IH]; [done |]. now rewrite started_cnt_cons, Ht, <- IH.
Qed.
(** ** The group's operations *)

Lemma incremental_assign_ok c ps :
  asg_ok c -> no_objects ps ->
  exists c' err, rd_kafka_cgrp_incremental_assign qsort c ps = Some (c', err) /\ asg_ok c'.
Proof.
  intros Hok Hp. unfold rd_kafka_cgrp_incremental_assign.
  destruct (add_spec qsort c ps Hok Hp) as (c1 & err & -> & H1 & _).
  destruct (err =? 0); cbn [negb]; [| eauto].
  eexists _, 0. split; [reflexivity |].
  exact (ok_group_done c1 JOIN_STATE_WAIT_ASSIGN_CALL JOIN_STATE_STEADY H1).
Qed.

Lemma incremental_unassign_ok c ps :
  asg_ok c -> Forall (fun e => rktpar_private e = None \/ holds (c_toppars c) e) ps ->
  NoDup (keys ps) -> stop_free c (fun k => k ∈ keys ps) ->
  exists c' err, rd_kafka_cgrp_incremental_unassign qsort c ps = Some (c', err) /\
    (err <> 0 -> asg_ok c') /\ asg_inv c'.
Proof.
  intros Hok Hp Hd Hs. unfold rd_kafka_cgrp_incremental_unassign.
  destruct (subtract_spec qsort c ps Hok Hp Hd Hs) as (c1 & err & -> & H1).
  destruct (err =? 0) eqn:E; cbn [negb].
  - destruct H1 as [H1 _]. eexists _, 0. split; [reflexivity |]. split; [done |].
    now apply (group_done_spec c1 JOIN_STATE_WAIT_UNASSIGN_CALL JOIN_STATE_WAIT_INCR_UNASSIGN_TO_COMPLETE).
  - eexists _, err. split; [reflexivity |]. destruct H1 as [[H1 Hr] _]. split; [now intros _ | exact H1].
Qed.

Lemma unassign_ok c : asg_ok c -> stop_free c (fun _ => True) -> asg_inv (rd_kafka_cgrp_unassign c).
Proof.
  intros Hok Hs. unfold rd_kafka_cgrp_unassign. destruct (clear_spec c Hok Hs) as (c1 & -> & H1 & _).
  now apply (group_done_spec c1 JOIN_STATE_WAIT_UNASSIGN_CALL JOIN_STATE_WAIT_UNASSIGN_TO_COMPLETE).
Qed.

Lemma assign_ok c env ps :
  asg_ok c -> stop_free c (fun _ => True) -> no_objects ps ->
  exists c' err, rd_kafka_cgrp_assign qsort c env ps = Some (c', err) /\ asg_ok c'.
Proof.
  intros Hok Hs Hp. unfold rd_kafka_cgrp_assign.
  destruct (clear_spec c Hok Hs) as (c1 & -> & H1 & _ & _ & _ & _ & Hrem).
  assert (H2 : exists c2, (if negb (zlen (asg_all (c_asg c)) =? 0)
      then rd_kafka_assignment_serve c1 env else Some c1) = Some c2 /\ asg_ok c2).
  { destruct (Z.eqb_spec (zlen (asg_all (c_asg c))) 0) as [E | E]; cbn [negb]; [| now apply ok_serve].
    exists c1. split; [done |]. split; [done |]. apply zlen_0 in E. rewrite E in Hrem.
    now apply map_eq_nil in Hrem. }
  destruct H2 as (c2 & -> & H2).
  destruct (add_spec qsort c2 ps H2 Hp) as (c3 & err & -> & H3 & _).
  destruct (err =? 0); cbn [negb]; [| eauto].
  eexists _, 0. split; [reflexivity |].
  assert (H4 : asg_ok (c_set_lost c3 false)) by (destruct H3; split; [now apply inv_lost | done]).
  unfold rd_kafka_cgrp_assignment_clear_lost. destruct (decide _); [| done].
  destruct H4 as [H4 Hr]. destruct (resume_spec _ H4) as [H5 S]. split; [now apply inv_join_state |].
  rewrite <- Hr. apply (sa_removed _ _ S).
Qed.

Lemma assign_op_ok c env protocol terminating method partitions :
  asg_ok c -> op_ok c env (OpAssign protocol terminating method partitions) ->
  exists c' err, rd_kafka_cgrp_handle_assign_op qsort c env protocol terminating method partitions
    = Some (c', err) /\ asg_ok c'.
Proof.
  intros Hok Ho. unfold rd_kafka_cgrp_handle_assign_op. cbn in Ho.
  assert (W : forall m ps,
    match m, ps with
    | METHOD_ASSIGN, None => stop_free c (fun _ => True)
    | METHOD_ASSIGN, Some ps => stop_free c (fun _ => True) /\ no_objects ps
    | METHOD_INCR_ASSIGN, Some ps => no_objects ps
    | METHOD_INCR_UNASSIGN, Some ps =>
        Forall (fun e => rktpar_private e = None \/ holds (c_toppars c) e) ps /\
        NoDup (keys ps) /\ stop_free c (fun k => k ∈ keys ps)
    | _, None => False
    end ->
    exists c' err, (let* (c, err) := assign_op_call qsort c env m ps in
      if negb (err =? 0) then Some (c, err)
      else let* c := rd_kafka_assignment_serve c env in Some (c, 0)) = Some (c', err) /\ asg_ok c').
  { intros m ps Hm.
    assert (Hc : exists c' err, assign_op_call qsort c env m ps = Some (c', err) /\
      (err <> 0 -> asg_ok c') /\ asg_inv c').
    { destruct m, ps as [ps |]; try done; cbn [assign_op_call].
      - destruct Hm as [Hm Hp]. destruct (assign_ok c env ps Hok Hm Hp) as (c' & err & -> & H).
        exists c', err. split; [done |]. split; [done | apply H].
      - eexists _, 0. split; [reflexivity |]. split; [done |]. now apply unassign_ok.
      - destruct (incremental_assign_ok c ps Hok Hm) as (c' & err & -> & H). exists c', err.
        split; [done |]. split; [done | apply H].
      - destruct Hm as (Hp & Hd & Hs). now apply incremental_unassign_ok. }
    destruct Hc as (c1 & err & -> & H1 & H2).
    destruct (Z.eqb_spec err 0) as [-> | N]; cbn [negb]; [| eauto].
    destruct (ok_serve c1 env H2) as (c2 & -> & H3). eauto. }
  destruct (ge_fatal env || terminating); [exact (W METHOD_ASSIGN None Ho) |].
  destruct protocol, method;
    first [exact (W METHOD_ASSIGN partitions Ho) | exact (W METHOD_INCR_ASSIGN partitions Ho) |
           exact (W METHOD_INCR_UNASSIGN partitions Ho) |
           eexists _, _; split; [reflexivity | exact Hok]].
Qed.
Lemma commit_step_ok c env rko set_offsets :
  asg_ok c -> co_reprocess rko = false -> (set_offsets = true -> co_partitions rko = None) ->
  exists c', rd_kafka_cgrp_offsets_commit c env rko set_offsets = Some c' /\ asg_ok c'.
Proof.
  intros [H Hr] Er Hs.
  destruct (offsets_commit_spec c env rko set_offsets) as (x & Hx & ->);
    [intros e; now apply (inv_all_private c (asg_removed (c_asg c))) | done |].
  rewrite Er. eexists. split; [done |]. split; [now apply inv_commit | done].
Qed.

Lemma store_ok c i offset :
  asg_ok c ->
  asg_ok (c_set_toppars c (alter (fun t => (rd_kafka_offset_store0 t offset false false).1) i (c_toppars c))).
Proof.
  intros Hok. destruct Hok as [H Hr]. pose proof (inv_toppars_ok _ _ H) as Ht.
  apply ok_toppars; [now split | |].
  - apply toppars_ok_alter; [| done]. intros t. unfold rd_kafka_offset_store0.
    destruct (_ && _); cbn; unfold linked; tauto.
  - apply toppars_ext_alter. intros t. unfold rd_kafka_offset_store0, toppar_ext.
    destruct (_ && _); cbn; tauto.
Qed.

Lemma asg_step_ok c env op :
  asg_ok c -> op_ok c env op -> exists c', asg_step qsort c env op = Some c' /\ asg_ok c'.
Proof.
  intros Hok Ho. destruct op; cbn [asg_step].
  - destruct (assign_op_ok _ _ _ _ _ _ Hok Ho) as (c' & err & -> & H). eauto.
  - apply ok_serve. now apply unassign_ok.
  - apply ok_serve, Hok.
  - eexists. split; [reflexivity |]. destruct Hok as [H Hr]. destruct (pause_spec c H) as [H1 S].
    split; [done |]. now rewrite (sa_removed _ _ S).
  - eexists. split; [reflexivity |]. destruct Hok. split; [now apply inv_join_state | done].
  - eexists. split; [reflexivity |]. destruct Hok. split; [now apply inv_lost | done].
  - eexists. split; [reflexivity |]. now apply store_ok.
  - apply commit_step_ok; [done.. |]. now destruct partitions.
  - unfold rd_kafka_cgrp_offset_commit_tmr_cb. destruct (_ && _); [eauto |]. destruct Hok as [H Hr].
    destruct (assigned_offsets_commit_spec c env None true _ H) as (c' & -> & H' & E & _); [done |].
    eexists. split; [reflexivity |]. split; unfold asg_inv; now rewrite E.
  - destruct Ho as (i & Hi). rewrite Hi.
    destruct (partition_stopped_spec c env k i Hok Hi) as (c2 & E & H2 & _).
    change (take k (c_stops c) ++ drop (S k) (c_stops c)) with (remove_nth k (c_stops c)).
    rewrite E. destruct (_ =? 0); [| eauto]. apply ok_serve, H2.
  - destruct Ho as (v & ps & Hk & Ha).
    destruct (assignment_handle_OffsetFetch_spec c env k v ps err resp buf_retry Hok Hk Ha)
      as (c1 & H1 & [-> | ->]); [eauto | apply ok_serve, H1].
  - destruct Ho as (x & Hk & Ha).
    destruct (op_handle_OffsetCommit_spec c env k x err resp buf_retry Hok Hk Ha)
      as (c1 & H1 & [-> | ->]); [eauto | apply ok_serve, H1].
  - destruct Ho as (rko & Hk). rewrite Hk. pose proof Hok as [H Hr].
    assert (Hx : commit_ok (rko, AtWaitCoord)).
    { pose proof (inv_commits_ok _ _ H) as H5. rewrite list.Forall_forall in H5.
      apply H5. now apply list_elem_of_lookup_2 in Hk. }
    cbn in Hx. set (c0 := c_set_commits c _ _).
    destruct (offsets_commit_spec c0 env rko (match co_partitions rko with Some _ => false | None => true end))
      as (y & Hy & ->);
      [intros e; now apply (inv_all_private c (asg_removed (c_asg c))) | now destruct (co_partitions rko) |].
    rewrite Hx. eexists. split; [reflexivity |].
    pose proof (remove_nth_length _ _ _ Hk) as HL. pose proof (remove_nth_perm _ _ _ Hk) as HP.
    change (asg_ok (c_set_commits c (c_wait_commit_cnt c) (remove_nth k (c_commits c) ++ [y]))).
    pose proof (inv_commits _ _ H) as Hn. pose proof (inv_commits_ok _ _ H) as H5.
    apply ok_commits; [done | rewrite length_app; cbn [length]; lia |].
    rewrite HP in H5. apply list.Forall_cons in H5 as [_ H5]. apply list.Forall_app. auto.
Qed.

Lemma asg_steps_ok ops : forall c,
  asg_ok c -> ops_ok c ops -> exists c', asg_steps qsort c ops = Some c' /\ asg_ok c'.
Proof.
  induction ops as [| [env op] ops IH]; intros c Hok Ho; cbn [asg_steps]; [eauto |].
  destruct Ho as [Ho Hn]. destruct (asg_step_ok c env op Hok Ho) as (c1 & E & H1).
  rewrite E. apply IH; auto.
Qed.

(** C16. A sequence of operations and answers fails no assertion of the assignment if it
    keeps to [op_ok]: the partitions that are assigned come without objects, those that
    are removed are not still being stopped from an earlier removal, and an incremental
    removal names none twice; answers are to what is outstanding; and a request for
    offsets that fails without a response is retried, or the assignment has changed since.
    (The client does not see to the last three itself; an assertion does fail, or NULL is
    read, without them: [stopped_twice_asserts], [unassigned_twice_asserts],
    [failed_query_reads_null].)  The partition objects are fresh at first, one for a key.
    After such a sequence every assigned partition is
    accounted for: it waits to be started, is being asked for, is being fetched and not
    stopped, or an error has been reported for it.  The assigned partitions have
    different keys and distinct objects, marked assigned; what is pending or queried is
    assigned; the removed list is empty; the counters are the numbers of the fetchers
    that run, of the stops and of the commits that are outstanding. *)
Theorem assignment_accounts ts ops :
  toppars_ok ts -> Forall fresh ts -> ops_ok (rd_kafka_assignment_init ts) ops ->
  exists c, asg_steps qsort (rd_kafka_assignment_init ts) ops = Some c /\
    (forall e, e ∈ asg_all (c_asg c) -> accounted c e) /\
    NoDup (keys (asg_all (c_asg c))) /\ asg_removed (c_asg c) = [] /\
    (forall i t, c_toppars c !! i = Some t -> rktp_assigned t = true <->
       exists e, e ∈ asg_all (c_asg c) /\ rktpar_private e = Some i) /\
    (forall k, k ∈ keys (asg_pending (c_asg c)) \/ k ∈ keys (asg_queried (c_asg c)) ->
       k ∈ keys (asg_all (c_asg c))) /\
    asg_started_cnt (c_asg c) = started_cnt (c_toppars c) /\
    asg_wait_stop_cnt (c_asg c) = zlen (c_stops c) /\ c_wait_commit_cnt c = zlen (c_commits c).
Proof.
  intros Ht Hf Ho. destruct (asg_steps_ok ops _ (ok_init ts Ht Hf) Ho) as (c & E & Hok).
  exists c. split; [exact E |]. split; [intros e; now apply ok_accounted |].
  pose proof Hok as [H Hr]. pose proof H as [C Hw Hs Hc _]. unfold asg_inv in *. rewrite Hr in C.
  split; [now apply (inv_all_nodup c (asg_removed (c_asg c))) |]. split; [done |]. split; [| split; [| auto]].
  - intros i t Hi. rewrite (co_assigned _ _ _ _ _ _ _ C i t Hi). rewrite app_nil_r. split.
    + intros (x & (e & He & <-)%elem_of_idents & Hp). eauto.
    + intros (e & He & Hp). exists (ident e). split; [now apply in_idents | done].
  - intros k Hk. rewrite !elem_of_keys in *.
    assert (G : exists e, e ∈ asg_pending (c_asg c) ++ asg_queried (c_asg c) /\ tp_key e = k).
    { destruct Hk as [(e & He & E') | (e & He & E')]; exists e; (split; [apply elem_of_app; auto | done]). }
    destruct G as (e & He & <-). destruct (inv_sub c _ e H He) as (e' & He' & E').
    exists e'. split; [done | exact (f_equal fst E')].
Qed.
(** ** Settling *)

(** Each partition being asked for is in a request that is outstanding. *)
Definition covered (c : consumer) : Prop :=
  Forall (fun e => exists f, f ∈ c_fetches c /\ tp_key e ∈ keys f.2) (asg_queried (c_asg c)).

(** An answer that is the last one: the fetcher has stopped; the commit was done, or
    failed without being retried or deferred; or there is a response for all the
    partitions of a request for offsets, each with an offset or an error, of the partition
    or of the whole, after which the request is not made again. *)
Definition good_answer (c : consumer) (op : asg_op) : Prop :=
  match op with
  | OpStopped k => exists i, c_stops c !! k = Some i
  | OpOffsetCommit k err resp buf_retry =>
      exists rko at_, c_commits c !! k = Some (rko, at_) /\
        commit_final c (co_partitions rko) at_ err resp buf_retry
  | OpOffsetFetch k err resp buf_retry =>
      exists version ps, c_fetches c !! k = Some (version, ps) /\ err = 0 /\
        final_answer (version =? asg_version (c_asg c)) resp buf_retry /\
        fr_parts resp <> [] /\ Forall part_ok (fr_parts resp) /\
        (forall key, key ∈ keys ps -> key ∈ map (fun p => (fp_topic p, fp_partition p)) (fr_parts resp))
  | _ => False
  end.

Fixpoint good_answers (c : consumer) (ops : list (group_env * asg_op)) : Prop :=
  match ops with
  | [] => True
  | (env, op) :: ops => ge_coord env = true /\ good_answer c op /\
      forall c', asg_step qsort c env op = Some c' -> good_answers c' ops
  end.

(** How many answers can still come. *)
Definition outstanding (c : consumer) : nat :=
  (length (c_stops c) + length (c_commits c) + length (c_fetches c)
   + 2 * length (to_ask (asg_pending (c_asg c))))%nat.

(** A state that serving has left, with a coordinator. *)
Record settling (c : consumer) : Prop := {
  se_ok : asg_ok c;
  se_covered : covered c;
  se_pending : c_stops c = [] -> c_commits c = [] -> asg_queried (c_asg c) = [] ->
    asg_pending (c_asg c) = [];
  se_done : rd_kafka_assignment_in_progress c = false -> exists evs, c_evs c = evs ++ [EvAssignmentDone] }.

Lemma finish_same c :
  c_asg (finish c) = c_asg c /\ c_stops (finish c) = c_stops c /\ c_commits (finish c) = c_commits c /\
  c_fetches (finish c) = c_fetches c /\ c_toppars (finish c) = c_toppars c /\
  rd_kafka_assignment_in_progress (finish c) = rd_kafka_assignment_in_progress c.
Proof. unfold finish. destruct (rd_kafka_assignment_in_progress c) eqn:E; auto 6. Qed.

Lemma to_ask_kept b es : (length (to_ask (kept b es)) <= length (to_ask es))%nat.
Proof.
  unfold kept. destruct b; [cbn; lia |].
  replace (to_ask (to_ask es)) with (to_ask es); [lia |]. symmetry. apply filter_all.
  apply list.Forall_forall. intros x Hx. now apply list_elem_of_filter in Hx.
Qed.

Lemma serve_settles c env :
  asg_inv c -> covered c -> ge_coord env = true ->
  exists c', rd_kafka_assignment_serve c env = Some c' /\ settling c' /\
    asg_all (c_asg c') = asg_all (c_asg c) /\
    (asg_removed (c_asg c) = [] -> (outstanding c' <= outstanding c)%nat).
Proof.
  intros H Hcov Hco. destruct (serve_spec c env H) as (c1 & E & H1 & S & _ & Ha & HQ & Hp & _ & Hrem & Hch).
  destruct (finish_same c1) as (Ea & Es & Ec & Ef & _ & Ei).
  exists (finish c1). split; [exact E |]. rewrite Hco in Hp. cbn [andb] in Hp.
  split; [| split; [rewrite Ea; apply (sv_all _ _ S) |]].
  - constructor.
    + now apply ok_finish.
    + unfold covered in *. rewrite Ea, Ef. destruct Ha as [[-> ->] | (-> & _ & _)]; [done |].
      apply list.Forall_forall. intros e He. eexists. split; [apply elem_of_app; right; left |].
      apply elem_of_keys. eauto.
    + rewrite Ea, Es, Ec. intros E1 E2 E3. rewrite (Hp E1 E2).
      destruct Ha as [[_ Eq] | (_ & Eq & Nq)]; [| done]. now rewrite <- Eq, E3.
    + rewrite Ei. unfold finish. intros ->. now exists (c_evs c1).
  - intros Hr. destruct (Hrem Hr) as [E1 E2]. unfold outstanding. rewrite Ea, Es, Ec, Ef, E1, E2.
    destruct Hch as [[E3 E4] | (-> & -> & _)]; [| lia]. rewrite (Hp E3 E4).
    pose proof (to_ask_kept (zlen (asg_queried (c_asg c)) =? 0) (asg_pending (c_asg c))) as Hle.
    destruct Ha as [[-> _] | (-> & Eq & Nq)]; [lia |]. rewrite length_app. cbn [length].
    rewrite Eq in *. change (kept (zlen [] =? 0) (asg_pending (c_asg c))) with (@nil tp).
    destruct (asg_queried (c_asg c1)) as [| q l]; [done |]. apply list.Forall_cons in HQ as [[Hq | Hq] _].
    { inversion Hq. }
    destruct (to_ask (asg_pending (c_asg c))); [inversion Hq | cbn [to_ask length]; cbn; lia].
Qed.
(** Still waiting for stops or commits. *)
Lemma waiting_settles c :
  asg_ok c -> covered c -> c_stops c <> [] \/ c_commits c <> [] -> settling c.
Proof.
  intros H Hc Hw. split; [done.. | intros ? ?; destruct Hw; done |].
  intros Hi. apply (in_progress_lists _ H) in Hi as (? & ? & _). destruct Hw; done.
Qed.

(** The answer has been taken off; the assignment is served, or stops or commits are
    still waited for. *)
Lemma answered_settles c c2 env (r : option consumer) :
  asg_ok c2 -> covered c2 -> ge_coord env = true ->
  (r = rd_kafka_assignment_serve c2 env \/ r = Some c2 /\ (c_stops c2 <> [] \/ c_commits c2 <> [])) ->
  asg_all (c_asg c2) = asg_all (c_asg c) -> (outstanding c2 < outstanding c)%nat ->
  exists c', r = Some c' /\ settling c' /\ asg_all (c_asg c') = asg_all (c_asg c) /\
    (outstanding c' < outstanding c)%nat.
Proof.
  intros H Hc Hco Hr Ha Ho. destruct Hr as [-> | [-> Hw]].
  - destruct (serve_settles c2 env (proj1 H) Hc Hco) as (c' & -> & S & Ea & Hle).
    exists c'. split; [done |]. split; [done |]. split; [congruence |]. destruct H as [_ Hr].
    specialize (Hle Hr). lia.
  - exists c2. split; [done |]. split; [now apply waiting_settles | done].
Qed.

Lemma to_ask_mono es es' :
  NoDup (keys es') -> (forall e, e ∈ es' -> e ∈ es \/ offset_startable (rktpar_offset e) = true) ->
  (length (to_ask es') <= length (to_ask es))%nat.
Proof.
  intros Hd Hs. apply submseteq_length, NoDup_submseteq.
  - apply list.NoDup_filter. exact (NoDup_fmap_1 tp_key es' Hd).
  - intros e. unfold to_ask. rewrite !list_elem_of_filter. intros [He Hin].
    destruct (Hs e Hin) as [? | E]; [done | congruence].
Qed.

Lemma good_step c env op :
  settling c -> ge_coord env = true -> good_answer c op ->
  exists c', asg_step qsort c env op = Some c' /\ settling c' /\
    asg_all (c_asg c') = asg_all (c_asg c) /\ (outstanding c' < outstanding c)%nat.
Proof.
  intros [Hok Hcov _ _] Hco Hg. destruct op; try done; cbn [good_answer asg_step] in *.
  - destruct Hg as (i & Hi). rewrite Hi.
    destruct (partition_stopped_spec c env k i Hok Hi) as (c2 & E & H2 & F1 & F2 & F3 & F4 & F5 & F6 & _).
    pose proof (remove_nth_length _ _ _ Hi) as HL.
    change (take k (c_stops c) ++ drop (S k) (c_stops c)) with (remove_nth k (c_stops c)).
    apply (answered_settles c c2 env); [done | unfold covered in *; now rewrite F4, F6 | done | | done |].
    + rewrite E. destruct (Z.eqb_spec (asg_wait_stop_cnt (c_asg c2)) 0) as [Ez | Ez]; [now left |].
      right. split; [done |]. left. destruct H2 as [[_ Hw _ _ _] _]. intros En. now rewrite Hw, En in Ez.
    + unfold outstanding. rewrite F1, F3, F5, F6. lia.
  - destruct Hg as (v & ps & Hk & -> & He & Hne & Hp & Hkeys).
    destruct (complete_answer_spec c env k v ps resp buf_retry Hok Hk Hp Hne He)
      as (c1 & E & H1 & S & F1 & F2 & F3 & HQ & HP).
    pose proof (remove_nth_perm _ _ _ Hk) as Hperm. pose proof (remove_nth_length _ _ _ Hk) as HL.
    apply (answered_settles c c1 env); [done | | done | now left | apply (sv_all _ _ S) |].
    + unfold covered in *. rewrite list.Forall_forall in *. intros e He1. apply HQ in He1 as [He1 Hn].
      destruct (Hcov e He1) as (f & Hf & Hkf). exists f. split; [| done]. rewrite F3.
      rewrite Hperm in Hf. apply elem_of_cons in Hf as [-> | Hf]; [| done]. now destruct Hn; apply Hkeys.
    + pose proof (to_ask_mono _ _ (inv_pending_nodup c1 _ (proj1 H1)) HP) as Hle.
      unfold outstanding. rewrite F1, F2, F3. lia.
  - destruct Hg as (rko & at_ & Hk & Hx).
    destruct (complete_commit_spec c env k (rko, at_) err resp buf_retry Hok Hk Hx)
      as (c2 & H2 & S & F1 & F2 & F3 & F4 & F5 & E).
    pose proof (remove_nth_length _ _ _ Hk) as HL.
    apply (answered_settles c c2 env); [done | unfold covered in *; now rewrite F3, F5 | done | | apply (sv_all _ _ S) |].
    + rewrite E. destruct (Z.eqb_spec (c_wait_commit_cnt c2) 0) as [Ez | Ez]; [now left |].
      right. split; [done |]. right. destruct H2 as [[_ _ _ Hw _] _]. intros En. now rewrite Hw, En in Ez.
    + unfold outstanding. rewrite F1, F2, F3, F4. lia.
Qed.

(** While it is in progress there is something to answer. *)
Lemma good_answer_exists c :
  settling c -> rd_kafka_assignment_in_progress c = true -> exists op, good_answer c op.
Proof.
  intros [Hok Hcov Hp _] Hi.
  destruct (c_stops c) as [| i l] eqn:Es.
  2:{ exists (OpStopped 0). cbn. rewrite Es. now exists i. }
  destruct (c_commits c) as [| [rko at_] l] eqn:Ec.
  2:{ eexists (OpOffsetCommit 0 _ _ _). cbn [good_answer]. rewrite Ec. exists rko, at_. split; [done |].
      apply (commit_final_exists c (rko, at_)). pose proof (inv_commits_ok _ _ (proj1 Hok)) as H5.
      rewrite Ec in H5. now apply list.Forall_cons in H5. }
  destruct (asg_queried (c_asg c)) as [| q l] eqn:Eq.
  { assert (F : rd_kafka_assignment_in_progress c = false); [| congruence].
    apply in_progress_lists; auto. }
  unfold covered in Hcov. rewrite Eq in Hcov. apply list.Forall_cons in Hcov as [(f & Hf & Hk) _].
  apply list_elem_of_lookup in Hf as (k & Hf). destruct f as [v ps]. cbn in Hk.
  set (parts := map (fun key => mk_fpart key.1 key.2 (-1) 0 None) (keys ps)).
  assert (Ek : map (fun p => (fp_topic p, fp_partition p)) parts = keys ps).
  { subst parts. rewrite map_map. rewrite <- (map_id (keys ps)) at 2. apply map_ext. now intros []. }
  exists (OpOffsetFetch k 0 (mk_fresp parts 0) false). cbn. exists v, ps. rewrite Ek.
  do 2 (split; [done |]). split; [done |]. split; [| split; [| auto]].
  - intros E. rewrite E in Ek. cbn in Ek. rewrite <- Ek in Hk. inversion Hk.
  - subst parts. apply list.Forall_forall. intros p (key & -> & _)%list_elem_of_fmap. split; [done | now left].
Qed.

(** C17. A served assignment settles, if the group has a coordinator throughout, each
    queried partition is in a request that is outstanding, and the answers are last ones
    ([good_answer]): a fetcher has stopped; a commit was done, or failed with an error
    after which it is neither made again nor deferred; a response to a request for offsets
    has each partition that was asked for, with an offset or an error, or an error of the
    whole, after which the request is not made again.  Such answers, in any order, to what
    is outstanding work and come to an end, after at
    most as many answers as there are stops, commits and requests outstanding and twice the
    partitions still to be asked for; as long as the assignment is in progress there is
    such an answer, and when it is no longer, the group has just been told so and every
    partition of the assignment, which is the same, is being fetched or has had an error
    reported.  A request for offsets that fails without a response, or is answered
    without a partition that was asked for, is not among these answers, and may leave
    partitions queried for good: [failed_query_reads_null], [failed_query_stays] and
    [partial_answer_stays]. *)
Theorem assignment_settles c env ops :
  asg_inv c -> covered c -> ge_coord env = true ->
  exists c1, asg_step qsort c env OpServe = Some c1 /\
    (good_answers c1 ops ->
     exists c2, asg_steps qsort c1 ops = Some c2 /\ (length ops <= outstanding c1)%nat /\
       asg_all (c_asg c2) = asg_all (c_asg c) /\
       (rd_kafka_assignment_in_progress c2 = true -> exists op, good_answer c2 op) /\
       (rd_kafka_assignment_in_progress c2 = false ->
        (exists evs, c_evs c2 = evs ++ [EvAssignmentDone]) /\
        (forall e, e ∈ asg_all (c_asg c2) ->
         running (c_toppars c2) (c_stops c2) (ident e) \/ errored (c_evs c2) (tp_key e)))).
Proof.
  intros H Hcov Hco. destruct (serve_settles c env H Hcov Hco) as (c1 & E & S1 & Ha & _).
  exists c1. split; [exact E |]. rewrite <- Ha. clear c H Hcov E Ha. revert c1 S1.
  induction ops as [| [env' op] ops IH]; intros c1 S1 Hg; cbn [asg_steps length].
  - exists c1. split; [done |]. split; [lia |]. split; [done |].
    split; [now apply good_answer_exists |]. intros Hi. split; [exact (se_done _ S1 Hi) |].
    intros e He. destruct (ok_accounted c1 e (se_ok _ S1) He) as [Hp | [Hp | Hp]]; [| | exact Hp];
      apply (in_progress_lists _ (se_ok _ S1)) in Hi as (_ & _ & Ep & Eq);
      rewrite ?Ep, ?Eq in Hp; inversion Hp.
  - destruct Hg as (Hco' & Hg & Hn).
    destruct (good_step c1 env' op S1 Hco' Hg) as (c2 & E & S2 & Ha & Hlt).
    rewrite E. destruct (IH c2 S2 (Hn c2 E)) as (c3 & E3 & Hlen & Ha3 & Hrest).
    exists c3. split; [exact E3 |]. split; [lia |]. split; [congruence | exact Hrest].
Qed.
(** ** One operation *)

(** C35. Adding partitions is all or nothing: it succeeds exactly if each has an offset
    to start from, is given once and is not assigned yet; then the assignment has
    gained exactly these, they wait to be started, at the stored offset where none was
    given, and the version changes.  Otherwise the code is INVALID_ARG or CONFLICT and
    the assignment, what is pending or asked for and what is outstanding are as
    before. *)
Theorem assignment_add_all_or_nothing c ps :
  asg_ok c -> no_objects ps ->
  exists c' err, rd_kafka_assignment_add qsort c ps = Some (c', err) /\ asg_ok c' /\
    (err = 0 <-> addable c ps) /\
    (err = 0 ->
     keys (asg_all (c_asg c')) ≡ₚ keys (asg_all (c_asg c)) ++ keys ps /\
     places (asg_pending (c_asg c')) ≡ₚ places (asg_pending (c_asg c)) ++ start_places ps /\
     asg_queried (c_asg c') = asg_queried (c_asg c) /\
     asg_version (c_asg c') = i64 (asg_version (c_asg c) + 1) /\ reassigned c c') /\
    (err <> 0 -> same_asg c c' /\
     (err = RD_KAFKA_RESP_ERR__INVALID_ARG \/ err = RD_KAFKA_RESP_ERR__CONFLICT)).
Proof.
  intros Hok Hp. destruct (add_spec qsort c ps Hok Hp) as (c' & err & E & H1 & HE).
  exists c', err. split; [exact E |]. split; [exact H1 |].
  destruct (Z.eqb_spec err 0) as [E0 | N].
  - destruct HE as (K & R & Q & P & V & A). split; [done |]. split; [done | now intros ?].
  - destruct HE as (S & A & C). split; [tauto |]. split; [now intros ? | done].
Qed.

(** No fetcher is being stopped and no commit is outstanding. *)
Definition quiet (c : consumer) : Prop := c_stops c = [] /\ c_commits c = [].

(** C36. Serving starts a fetcher or asks for offsets only when no fetcher is being
    stopped and no commit is outstanding, so that the offsets asked for are those that
    were committed last.  It asks only when no partition of the assignment is queried; it
    then adds a single request, which has the version of the assignment and names all the
    partitions that are queried from then on, which waited without an offset to start
    from.  An earlier request, for partitions that have since been unassigned, may still
    be outstanding with it ([stale_answer_starts]). *)
Theorem serve_starts_after_stops c env :
  asg_inv c ->
  exists c', rd_kafka_assignment_serve c env = Some c' /\
    (asg_started_cnt (c_asg c') <> asg_started_cnt (c_asg c) \/ c_fetches c' <> c_fetches c -> quiet c') /\
    (c_fetches c' <> c_fetches c ->
     c_fetches c' = c_fetches c ++ [(asg_version (c_asg c), asg_queried (c_asg c'))] /\
     asg_queried (c_asg c) = [] /\
     Forall (fun e => e ∈ map tp_copy (to_ask (asg_pending (c_asg c)))) (asg_queried (c_asg c'))).
Proof.
  intros H. destruct (serve_spec c env H) as (c1 & E & H1 & S & _ & Ha & HQ & _ & _ & _ & Hch).
  destruct (finish_same c1) as (Ea & Es & Ec & Ef & _ & _).
  exists (finish c1). split; [exact E |]. unfold quiet. rewrite Ea, Es, Ec, Ef. split.
  - destruct Hch as [Hch | (E1 & _ & E2)]; [now intros _ | intros [N | N]; congruence].
  - intros N. destruct Ha as [[? _] | (E1 & E2 & _)]; [congruence |]. split; [done |]. split; [done |].
    rewrite E2 in HQ. apply (list.Forall_impl _ _ _ HQ). intros e [He | He]; [inversion He | done].
Qed.
End Steps.

(** ** Runs *)

(** What an operation has to keep to can be computed. *)
#[local] Ltac decide_by d := refine (cast_if d).

#[export] Instance stop_free_dec c (P : string * Z -> Prop) `{!forall k, Decision (P k)} :
  Decision (stop_free c P).
Proof.
  decide_by (decide (Forall (fun i => Forall (fun e => P (tp_key e) -> rktpar_private e <> Some i)
    (asg_all (c_asg c))) (c_stops c))); unfold stop_free.
  - intros i e Hi He. rewrite list.Forall_forall in f. specialize (f i Hi).
    rewrite list.Forall_forall in f. now apply f.
  - intros Hs. apply n. apply list.Forall_forall. intros i Hi. apply list.Forall_forall. eauto.
Defined.

#[export] Instance lookup_dec {A} (l : list A) k (P : A -> Prop) `{!forall x, Decision (P x)} :
  Decision (exists x, l !! k = Some x /\ P x).
Proof.
  destruct (l !! k) as [x |].
  - decide_by (decide (P x)); [eauto |]. intros (y & [= <-] & ?). done.
  - right. intros (y & ? & _). done.
Defined.

#[export] Instance holds_dec ts e : Decision (holds ts e).
Proof.
  unfold holds. destruct (rktpar_private e) as [i |]; [| right; intros (i & t & ? & _); done].
  destruct (ts !! i) as [t |] eqn:Hi; [| right; intros (j & t & [= <-] & ? & _); congruence].
  decide_by (decide (toppar_key t = tp_key e /\ rktp_desired t = true)).
  - destruct a. exists i, t. done.
  - intros (j & t' & [= <-] & Hj & Hk & Hd). apply n. rewrite Hi in Hj. injection Hj as <-. done.
Defined.

#[export] Instance lookup_pair_dec {A B} (l : list (A * B)) k (P : A -> B -> Prop)
  `{!forall x y, Decision (P x y)} :
  Decision (exists x y, l !! k = Some (x, y) /\ P x y).
Proof.
  destruct (l !! k) as [[x y] |].
  - decide_by (decide (P x y)); [eauto |]. intros (x' & y' & [= <- <-] & ?). done.
  - right. intros (x & y & ? & _). done.
Defined.

#[export] Instance commit_at_dec : EqDecision commit_at.
Proof. solve_decision. Defined.

#[export] Instance fetch_answer_ok_dec c version err buf_retry :
  Decision (fetch_answer_ok c version err buf_retry).
Proof. unfold fetch_answer_ok. apply _. Defined.

#[export] Instance commit_answer_ok_dec at_ err : Decision (commit_answer_ok at_ err).
Proof. destruct at_; cbn; apply _. Defined.

#[export] Instance op_ok_dec c env op : Decision (op_ok c env op).
Proof.
  destruct op; cbn [op_ok]; try apply _.
  - destruct (ge_fatal env || terminating); [apply _ |].
    destruct method, partitions; unfold no_objects; apply _.
  - destruct (c_commits c !! k) as [[rko at_] |]; [| right; now intros (x & [=])].
    decide_by (decide (at_ = AtWaitCoord)); [subst; eauto |]. intros (x & [= -> ->]). done.
Defined.

Section Runs.
Context (qsort : forall A, (A -> A -> Z) -> list A -> list A).

#[export] Instance ops_ok_dec c ops : Decision (ops_ok qsort c ops).
Proof.
  revert c. induction ops as [| [env op] ops IH]; intros c; cbn [ops_ok]; [apply _ |].
  destruct (asg_step qsort c env op) as [c' |].
  - destruct (decide (op_ok c env op)) as [Ho | Ho]; [| right; tauto].
    decide_by (IH c'); [split; [done | now intros ? [= <-]] | intros [_ H]; auto].
  - decide_by (decide (op_ok c env op)); [split; done | tauto].
Defined.

#[export] Instance final_answer_dec allow_retry resp buf_retry :
  Decision (final_answer allow_retry resp buf_retry).
Proof. unfold final_answer. apply _. Defined.

#[export] Instance commit_final_dec c offsets at_ err resp buf_retry :
  Decision (commit_final c offsets at_ err resp buf_retry).
Proof.
  unfold commit_final. apply and_dec; [apply _ |].
  destruct (rd_kafka_handle_OffsetCommit _ _ _ _ _ _) as [[[? ?] ?] |]; apply _.
Defined.

#[export] Instance good_answer_dec c op : Decision (good_answer c op).
Proof.
  destruct op; cbn [good_answer]; try apply _.
  apply lookup_pair_dec. intros v ps. do 2 (apply and_dec; [apply _ |]).
  apply and_dec; [destruct (fr_parts resp); [right; congruence | left; done] |].
  apply and_dec; [unfold part_ok; apply _ |].
  decide_by (decide (Forall (fun key => key ∈ map (fun p => (fp_topic p, fp_partition p)) (fr_parts resp)) (keys ps)));
    [now apply list.Forall_forall | intros H; apply n; now apply list.Forall_forall].
Defined.

#[export] Instance good_answers_dec c ops : Decision (good_answers qsort c ops).
Proof.
  revert c. induction ops as [| [env op] ops IH]; intros c; cbn [good_answers]; [apply _ |].
  destruct (decide (ge_coord env = true)) as [He | He]; [| right; tauto].
  destruct (decide (good_answer c op)) as [Hg | Hg]; [| right; tauto].
  destruct (asg_step qsort c env op) as [c' |].
  - decide_by (IH c'); [split; [done | split; [done | now intros ? [= <-]]] |].
    intros (_ & _ & H). auto.
  - left. split; [done | split; [done | done]].
Defined.
End Runs.

(** Two partitions the client knows. *)
Definition ex_env : group_env := mk_env true false true true true true false.

Definition ex_toppar (p : Z) : rd_kafka_toppar :=
  mk_toppar "t" p false false false false false false RD_KAFKA_OFFSET_INVALID RD_KAFKA_OFFSET_INVALID.

Definition ex_toppars : list rd_kafka_toppar := [ex_toppar 0; ex_toppar 1].

Definition ex_assign : list tp :=
  [mk_tp "t" 0 RD_KAFKA_OFFSET_STORED None 0 0 0 None; mk_tp "t" 1 5 None 0 0 0 None].

Definition ex_assign_op : group_env * asg_op :=
  (ex_env, OpAssign PROTOCOL_EAGER false METHOD_ASSIGN (Some ex_assign)).

Definition ex_fetched (offset : Z) : group_env * asg_op :=
  (ex_env, OpOffsetFetch 0 0 (mk_fresp [mk_fpart "t" 0 offset 0 None] 0) false).

(** They are assigned, started, and, with an offset stored, assigned anew. *)
Definition ex_ops : list (group_env * asg_op) :=
  [ex_assign_op; ex_fetched 20; (ex_env, OpStore 1 7); ex_assign_op].

Definition ex_state : consumer :=
  match asg_steps isort (rd_kafka_assignment_init ex_toppars) ex_ops with
  | Some c => c
  | None => rd_kafka_assignment_init []
  end.

(** The fetchers stop, the offsets are committed, and asked for. *)
Definition ex_answers : list (group_env * asg_op) :=
  [(ex_env, OpStopped 1);
   (ex_env, OpOffsetCommit 0 0 (mk_cresp [("t"%string, 0, 0); ("t"%string, 1, 0)] 0) false);
   (ex_env, OpStopped 0); ex_fetched 20].

Lemma ex_toppars_ok : toppars_ok ex_toppars.
Proof.
  constructor.
  - intros [| [| i]] [| [| j]] t t' [= <-] [= <-]; try done.
  - intros [| [| i]] t [= <-]; done.
Qed.

Lemma ex_toppars_fresh : Forall fresh ex_toppars.
Proof. now repeat constructor. Qed.

Lemma ex_ops_ok : ops_ok isort (rd_kafka_assignment_init ex_toppars) ex_ops.
Proof. apply (bool_decide_eq_true_1 _). vm_compute. reflexivity. Qed.

Lemma ex_state_ok : asg_ok ex_state.
Proof.
  destruct (asg_steps_ok isort ex_ops _ (ok_init _ ex_toppars_ok ex_toppars_fresh) ex_ops_ok) as (c & E & H).
  unfold ex_state. rewrite E. exact H.
Qed.

Lemma assignment_accounts_witness :
  exists c, asg_steps isort (rd_kafka_assignment_init ex_toppars) ex_ops = Some c /\
    (forall e, e ∈ asg_all (c_asg c) -> accounted c e) /\ asg_wait_stop_cnt (c_asg c) = 2.
Proof.
  destruct (assignment_accounts isort ex_toppars ex_ops ex_toppars_ok ex_toppars_fresh ex_ops_ok)
    as (c & E & Ha & _ & _ & _ & _ & _ & Hw & _).
  exists c. split; [exact E |]. split; [exact Ha |]. rewrite Hw.
  replace c with ex_state by (unfold ex_state; now rewrite E). vm_compute. reflexivity.
Defined.

Lemma ex_covered : covered ex_state.
Proof. vm_compute. constructor. Qed.

Lemma ex_served : asg_step isort ex_state ex_env OpServe = Some ex_state.
Proof. vm_compute. reflexivity. Qed.

Lemma ex_answers_good : good_answers isort ex_state ex_answers.
Proof. apply (bool_decide_eq_true_1 _). vm_compute. reflexivity. Qed.

Lemma ex_settled :
  (fun o => match o with Some c => rd_kafka_assignment_in_progress c | None => true end)
    (asg_steps isort ex_state ex_answers) = false.
Proof. vm_compute. reflexivity. Qed.

Lemma assignment_settles_witness :
  exists c, asg_steps isort ex_state ex_answers = Some c /\
    rd_kafka_assignment_in_progress c = false /\ asg_all (c_asg c) = asg_all (c_asg ex_state) /\
    (forall e, e ∈ asg_all (c_asg c) ->
     running (c_toppars c) (c_stops c) (ident e) \/ errored (c_evs c) (tp_key e)).
Proof.
  destruct (assignment_settles isort ex_state ex_env ex_answers (proj1 ex_state_ok) ex_covered eq_refl)
    as (c1 & E & Hrun).
  assert (E1 : c1 = ex_state) by (pose proof ex_served; congruence). subst c1.
  destruct (Hrun ex_answers_good) as (c2 & E2 & _ & Ha & _ & Hdone).
  pose proof ex_settled as Hs. rewrite E2 in Hs.
  exists c2. split; [exact E2 |]. split; [exact Hs |]. split; [exact Ha |]. apply (Hdone Hs).
Defined.

Lemma assignment_add_all_or_nothing_witness :
  exists c' err, rd_kafka_assignment_add isort ex_state ex_assign = Some (c', err) /\ err <> 0 /\
    same_asg ex_state c'.
Proof.
  destruct (assignment_add_all_or_nothing isort ex_state ex_assign ex_state_ok) as (c' & err & E & _ & _ & _ & Hn);
    [now repeat constructor |].
  assert (Herr : err <> 0).
  { intros ->. assert (F : (fun o => match o with Some (_, err) => err | None => 0 end)
      (rd_kafka_assignment_add isort ex_state ex_assign) = RD_KAFKA_RESP_ERR__CONFLICT) by (vm_compute; reflexivity).
    rewrite E in F. done. }
  exists c', err. split; [exact E |]. split; [exact Herr |]. apply (Hn Herr).
Defined.

(** The partitions have been added, and are served for the first time. *)
Definition ex_added : consumer :=
  match rd_kafka_assignment_add isort (rd_kafka_assignment_init ex_toppars) ex_assign with
  | Some (c, _) => c
  | None => rd_kafka_assignment_init []
  end.

Lemma ex_added_ok : asg_ok ex_added.
Proof.
  destruct (add_spec isort _ ex_assign (ok_init _ ex_toppars_ok ex_toppars_fresh)) as (c & err & E & H & _);
    [now repeat constructor |].
  unfold ex_added. rewrite E. exact H.
Qed.

Lemma ex_added_asks :
  (fun o => match o with Some c => length (c_fetches c) | None => 0%nat end)
    (rd_kafka_assignment_serve ex_added ex_env) = 1%nat.
Proof. vm_compute. reflexivity. Qed.

Lemma serve_starts_after_stops_witness :
  exists c', rd_kafka_assignment_serve ex_added ex_env = Some c' /\
    c_fetches c' <> c_fetches ex_added /\ quiet c'.
Proof.
  destruct (serve_starts_after_stops ex_added ex_env (proj1 ex_added_ok)) as (c' & E & H & _).
  assert (N : c_fetches c' <> c_fetches ex_added).
  { intros F. apply (f_equal length) in F. pose proof ex_added_asks as L. rewrite E in L.
    rewrite L in F. vm_compute in F. done. }
  exists c'. split; [exact E |]. split; [exact N |]. apply H. now right.
Defined.

(** ** What happens without the assumptions *)

Definition ex_unassign_op : group_env * asg_op :=
  (ex_env, OpAssign PROTOCOL_EAGER false METHOD_ASSIGN None).

Definition ex_one (ps : list tp) : group_env * asg_op :=
  (ex_env, OpAssign PROTOCOL_EAGER false METHOD_ASSIGN (Some ps)).

(** A partition is assigned, unassigned and assigned again before the first request for
    its offset is answered: two requests are outstanding, and the answer to the first
    one starts the fetcher. *)
Example stale_answer_starts :
  (fun o => match o with
            | Some c => (c_fetches c, c_evs c)
            | None => ([], [])
            end)
    (asg_steps isort (rd_kafka_assignment_init ex_toppars)
       [ex_one [mk_tp "t" 0 RD_KAFKA_OFFSET_STORED None 0 0 0 None]; ex_unassign_op;
        ex_one [mk_tp "t" 0 RD_KAFKA_OFFSET_STORED None 0 0 0 None]; ex_fetched 20])
  = ([(3, [mk_tp "t" 0 RD_KAFKA_OFFSET_STORED None 0 0 0 (Some 0%nat)])],
     [EvPauseResume 0 false; EvAssignmentDone; EvPauseResume 0 false; EvFetchStart 0 20;
      EvAssignmentDone]).
Proof. vm_compute. reflexivity. Qed.

(** A partition that is removed, assigned and removed again before its fetcher has
    stopped is told to stop twice; the second answer fails an assertion. *)
Example stopped_twice_asserts :
  asg_steps isort (rd_kafka_assignment_init ex_toppars)
    [ex_one [mk_tp "t" 1 5 None 0 0 0 None]; ex_unassign_op;
     ex_one [mk_tp "t" 1 5 None 0 0 0 None]; ex_unassign_op;
     (ex_env, OpStopped 0); (ex_env, OpStopped 0)] = None.
Proof. vm_compute. reflexivity. Qed.

(** A partition given twice to an incremental unassign fails an assertion. *)
Example unassigned_twice_asserts :
  asg_steps isort (rd_kafka_assignment_init ex_toppars)
    [ex_one [mk_tp "t" 1 5 None 0 0 0 None];
     (ex_env, OpAssign PROTOCOL_COOPERATIVE false METHOD_INCR_UNASSIGN
        (Some [mk_tp "t" 1 5 None 0 0 0 None; mk_tp "t" 1 5 None 0 0 0 None]))] = None.
Proof. vm_compute. reflexivity. Qed.

(** A request that fails as a whole while the assignment is as it was, and is not
    retried: the list that is NULL is read. *)
Example failed_query_reads_null :
  asg_steps isort (rd_kafka_assignment_init ex_toppars)
    [ex_one [mk_tp "t" 0 RD_KAFKA_OFFSET_STORED None 0 0 0 None];
     (ex_env, OpOffsetFetch 0 RD_KAFKA_RESP_ERR__TRANSPORT (mk_fresp [] 0) false)] = None.
Proof. vm_compute. reflexivity. Qed.

(** The same when the assignment has grown in the meantime: the partition stays queried
    with no request outstanding, and so nothing is asked for any more. *)
Example failed_query_stays :
  (fun c => (keys (asg_queried (c_asg c)), keys (asg_pending (c_asg c)), c_fetches c)) <$>
    asg_steps isort (rd_kafka_assignment_init ex_toppars)
      [ex_one [mk_tp "t" 0 RD_KAFKA_OFFSET_STORED None 0 0 0 None];
       (ex_env, OpAssign PROTOCOL_COOPERATIVE false METHOD_INCR_ASSIGN
          (Some [mk_tp "t" 1 RD_KAFKA_OFFSET_STORED None 0 0 0 None]));
       (ex_env, OpOffsetFetch 0 RD_KAFKA_RESP_ERR__TRANSPORT (mk_fresp [] 0) false); (ex_env, OpServe)]
  = Some ([("t"%string, 0)], [("t"%string, 1)], []).
Proof. vm_compute. reflexivity. Qed.

(** A response that has an error (GROUP_AUTHORIZATION_FAILED) and no partitions: the error
    is reported, and nothing is asked for any more. *)
Example partial_answer_stays :
  (fun c => (keys (asg_queried (c_asg c)), c_fetches c, c_evs c)) <$>
    asg_steps isort (rd_kafka_assignment_init ex_toppars)
      [ex_one [mk_tp "t" 0 RD_KAFKA_OFFSET_STORED None 0 0 0 None];
       (ex_env, OpOffsetFetch 0 0 (mk_fresp [] 30) false);
       (ex_env, OpServe)]
  = Some ([("t"%string, 0)], [], [EvConsumerErr 30 None]).
Proof. vm_compute. reflexivity. Qed.
