(* ===== verification/Queue.v ===== *)
(** * Queues of ops (src/cbits/hs_rdkafka_queue.h, src/cbits/hs_rdkafka_queue.c)

    The queues by which the parts of the client and the application hand ops to one
    another, with what of an op they use (src/cbits/hs_rdkafka_op.c) and the handler
    of the application's polls (src/cbits/hs_rdkafka.c).

    Queues are named by numbers, as the code names them by pointers: a queue may be
    forwarded to another one, and an op may name the queue its reply goes to.
    [q_state] is what the queues live in.  The calls out of these files, to the
    application and to the rest of the client, are the parameters of the sections below,
    and what other threads do while a reader waits is a list of changes, one for each
    time the wait is woken up; the wait times out after the last.  Reference counts are
    left out: a queue that is used exists.  An op that is destroyed is kept in
    [qs_destroyed], which stands for the freeing of its parts and, for an op with a
    callback, for telling it [ERR__DESTROY].  [None] is a failed assertion, a queue that
    does not exist, a loop of forwards or the end of the fuel. *)

From stdpp Require Import gmap.
From S2P Require Import Prelude Msgq.

(** ** Constants *)

Definition RD_KAFKA_Q_F_READY : Z := 2.
Definition RD_KAFKA_Q_F_FWD_APP : Z := 4.
Definition RD_KAFKA_Q_F_YIELD : Z := 8.

Definition RD_KAFKA_OP_NONE : Z := 0.
Definition RD_KAFKA_OP_FETCH : Z := 1.
Definition RD_KAFKA_OP_ERR : Z := 2.
Definition RD_KAFKA_OP_CONSUMER_ERR : Z := 3.
Definition RD_KAFKA_OP_DR : Z := 4.
Definition RD_KAFKA_OP_STATS : Z := 5.
Definition RD_KAFKA_OP_OFFSET_COMMIT : Z := 6.
Definition RD_KAFKA_OP_RECV_BUF : Z := 9.
Definition RD_KAFKA_OP_FETCH_STOP : Z := 12.
Definition RD_KAFKA_OP_REBALANCE : Z := 18.
Definition RD_KAFKA_OP_TERMINATE : Z := 19.
Definition RD_KAFKA_OP_THROTTLE : Z := 25.
Definition RD_KAFKA_OP_LOG : Z := 30.
Definition RD_KAFKA_OP_CREATETOPICS : Z := 32.
Definition RD_KAFKA_OP_DELETETOPICS : Z := 33.
Definition RD_KAFKA_OP_CREATEPARTITIONS : Z := 34.
Definition RD_KAFKA_OP_ALTERCONFIGS : Z := 35.
Definition RD_KAFKA_OP_DESCRIBECONFIGS : Z := 36.
Definition RD_KAFKA_OP_DELETERECORDS : Z := 37.
Definition RD_KAFKA_OP_DELETEGROUPS : Z := 38.
Definition RD_KAFKA_OP_CREATEACLS : Z := 40.
Definition RD_KAFKA_OP_DESCRIBEACLS : Z := 41.
Definition RD_KAFKA_OP_DELETEACLS : Z := 42.
Definition RD_KAFKA_OP_ADMIN_FANOUT : Z := 43.
Definition RD_KAFKA_OP_ADMIN_RESULT : Z := 44.
Definition RD_KAFKA_OP_PURGE : Z := 45.
Definition RD_KAFKA_OP_OAUTHBEARER_REFRESH : Z := 47.
Definition RD_KAFKA_OP_TXN : Z := 50.
Definition RD_KAFKA_OP_BARRIER : Z := 53.
Definition RD_KAFKA_OP_CB : Z := 2 ^ 29.
Definition RD_KAFKA_OP_REPLY : Z := 2 ^ 30.
Definition RD_KAFKA_OP_FLAGMASK : Z := Z.lor RD_KAFKA_OP_CB RD_KAFKA_OP_REPLY.

Definition RD_KAFKA_OP_F_FORCE_CB : Z := 256.

Definition RD_KAFKA_EVENT_NONE : Z := 0.
Definition RD_KAFKA_EVENT_DR : Z := 1.
Definition RD_KAFKA_EVENT_FETCH : Z := 2.
Definition RD_KAFKA_EVENT_LOG : Z := 4.
Definition RD_KAFKA_EVENT_ERROR : Z := 8.
Definition RD_KAFKA_EVENT_REBALANCE : Z := 16.
Definition RD_KAFKA_EVENT_OFFSET_COMMIT : Z := 32.
Definition RD_KAFKA_EVENT_STATS : Z := 64.
Definition RD_KAFKA_EVENT_OAUTHBEARER_TOKEN_REFRESH : Z := 256.
Definition RD_KAFKA_EVENT_CREATEACLS_RESULT : Z := 1024.
Definition RD_KAFKA_EVENT_DESCRIBEACLS_RESULT : Z := 2048.
Definition RD_KAFKA_EVENT_DELETEACLS_RESULT : Z := 4096.

Definition RD_KAFKA_RESP_ERR__DESTROY : Z := -197.
Definition RD_KAFKA_RESP_ERR__TIMED_OUT : Z := -185.
Definition RD_KAFKA_RESP_ERR__NOT_IMPLEMENTED : Z := -170.
Definition RD_KAFKA_RESP_ERR__FATAL : Z := -150.

Inductive rd_kafka_op_res :=
  | RD_KAFKA_OP_RES_PASS
  | RD_KAFKA_OP_RES_HANDLED
  | RD_KAFKA_OP_RES_KEEP
  | RD_KAFKA_OP_RES_YIELD.

Inductive rd_kafka_q_cb_type :=
  | RD_KAFKA_Q_CB_CALLBACK
  | RD_KAFKA_Q_CB_RETURN
  | RD_KAFKA_Q_CB_FORCE_RETURN
  | RD_KAFKA_Q_CB_EVENT.

#[export] Instance op_res_eq_dec : EqDecision rd_kafka_op_res.
Proof. solve_decision. Defined.
#[export] Instance q_cb_type_eq_dec : EqDecision rd_kafka_q_cb_type.
Proof. solve_decision. Defined.

(** ** Data *)

(** What of the union [rko_u] is used here: the offset and the flag
    [RD_KAFKA_MSG_F_CONTROL] of a message, the messages of a delivery report, whether
    the commit has a callback, the level of a log line. *)
Record rd_kafka_op_u := mk_op_u {
  fetch_offset : Z;
  fetch_control : bool;
  dr_msgq : list Z;
  offset_commit_cb : bool;
  log_level : Z }.

(** An op.  [rko_id] is its address.  [rko_rktp] names a partition, [rko_replyq] and
    [rko_replyq_version] are the two fields of [rko_replyq]; [rko_serve] and
    [rko_op_cb] name callbacks. *)
Record rd_kafka_op := mk_op {
  rko_id : Z;
  rko_type : Z;
  rko_evtype : Z;
  rko_flags : Z;
  rko_version : Z;
  rko_err : Z;
  rko_len : Z;
  rko_prio : Z;
  rko_rktp : option nat;
  rko_replyq : option nat;
  rko_replyq_version : Z;
  rko_serve : option nat;
  rko_op_cb : option nat;
  rko_u : rd_kafka_op_u }.

Definition op_set_type (o : rd_kafka_op) (type : Z) : rd_kafka_op :=
  mk_op (rko_id o) type (rko_evtype o) (rko_flags o) (rko_version o) (rko_err o)
    (rko_len o) (rko_prio o) (rko_rktp o) (rko_replyq o) (rko_replyq_version o)
    (rko_serve o) (rko_op_cb o) (rko_u o).
Definition op_set_evtype (o : rd_kafka_op) (evtype : Z) : rd_kafka_op :=
  mk_op (rko_id o) (rko_type o) evtype (rko_flags o) (rko_version o) (rko_err o)
    (rko_len o) (rko_prio o) (rko_rktp o) (rko_replyq o) (rko_replyq_version o)
    (rko_serve o) (rko_op_cb o) (rko_u o).
Definition op_set_version (o : rd_kafka_op) (version : Z) : rd_kafka_op :=
  mk_op (rko_id o) (rko_type o) (rko_evtype o) (rko_flags o) version (rko_err o)
    (rko_len o) (rko_prio o) (rko_rktp o) (rko_replyq o) (rko_replyq_version o)
    (rko_serve o) (rko_op_cb o) (rko_u o).
Definition op_set_err (o : rd_kafka_op) (err : Z) : rd_kafka_op :=
  mk_op (rko_id o) (rko_type o) (rko_evtype o) (rko_flags o) (rko_version o) err
    (rko_len o) (rko_prio o) (rko_rktp o) (rko_replyq o) (rko_replyq_version o)
    (rko_serve o) (rko_op_cb o) (rko_u o).
Definition op_set_replyq (o : rd_kafka_op) (q : option nat) (version : Z) : rd_kafka_op :=
  mk_op (rko_id o) (rko_type o) (rko_evtype o) (rko_flags o) (rko_version o) (rko_err o)
    (rko_len o) (rko_prio o) (rko_rktp o) q version (rko_serve o) (rko_op_cb o) (rko_u o).
Definition op_set_serve (o : rd_kafka_op) (serve : option nat) : rd_kafka_op :=
  mk_op (rko_id o) (rko_type o) (rko_evtype o) (rko_flags o) (rko_version o) (rko_err o)
    (rko_len o) (rko_prio o) (rko_rktp o) (rko_replyq o) (rko_replyq_version o) serve
    (rko_op_cb o) (rko_u o).
Definition op_set_op_cb (o : rd_kafka_op) (cb : option nat) : rd_kafka_op :=
  mk_op (rko_id o) (rko_type o) (rko_evtype o) (rko_flags o) (rko_version o) (rko_err o)
    (rko_len o) (rko_prio o) (rko_rktp o) (rko_replyq o) (rko_replyq_version o)
    (rko_serve o) cb (rko_u o).
Definition op_set_u (o : rd_kafka_op) (u : rd_kafka_op_u) : rd_kafka_op :=
  mk_op (rko_id o) (rko_type o) (rko_evtype o) (rko_flags o) (rko_version o) (rko_err o)
    (rko_len o) (rko_prio o) (rko_rktp o) (rko_replyq o) (rko_replyq_version o)
    (rko_serve o) (rko_op_cb o) u.

Definition fetch_set_offset (u : rd_kafka_op_u) (offset : Z) : rd_kafka_op_u :=
  mk_op_u offset (fetch_control u) (dr_msgq u) (offset_commit_cb u) (log_level u).
Definition dr_set_msgq (u : rd_kafka_op_u) (msgs : list Z) : rd_kafka_op_u :=
  mk_op_u (fetch_offset u) (fetch_control u) msgs (offset_commit_cb u) (log_level u).

(** [rd_kafka_op_new]: zeroes but for the type.  Addresses are given. *)
Definition rd_kafka_op_new (id type : Z) : rd_kafka_op :=
  mk_op id type 0 0 0 0 0 0 None None 0 None None (mk_op_u 0 false [] false 0).

(** The wake-up of a poller that waits on a descriptor or for a callback. *)
Record rd_kafka_q_io := mk_qio { qio_event_cb : bool; qio_sent : bool }.

Record rd_kafka_q := mk_q {
  rkq_fwdq : option nat;
  rkq_q : list rd_kafka_op;
  rkq_qlen : Z;
  rkq_qsize : Z;
  rkq_flags : Z;
  rkq_qio : option rd_kafka_q_io;
  rkq_serve : option nat }.

Definition q_set_fwdq (q : rd_kafka_q) (f : option nat) : rd_kafka_q :=
  mk_q f (rkq_q q) (rkq_qlen q) (rkq_qsize q) (rkq_flags q) (rkq_qio q) (rkq_serve q).
Definition q_set_q (q : rd_kafka_q) (l : list rd_kafka_op) (qlen qsize : Z) : rd_kafka_q :=
  mk_q (rkq_fwdq q) l qlen qsize (rkq_flags q) (rkq_qio q) (rkq_serve q).
Definition q_set_flags (q : rd_kafka_q) (flags : Z) : rd_kafka_q :=
  mk_q (rkq_fwdq q) (rkq_q q) (rkq_qlen q) (rkq_qsize q) flags (rkq_qio q) (rkq_serve q).
Definition q_set_qio (q : rd_kafka_q) (qio : option rd_kafka_q_io) : rd_kafka_q :=
  mk_q (rkq_fwdq q) (rkq_q q) (rkq_qlen q) (rkq_qsize q) (rkq_flags q) qio (rkq_serve q).

(** What of a partition the ops use. *)
Record op_toppar := mk_op_toppar {
  rktp_version : Z;
  rktp_app_offset : Z;
  rktp_stored_offset : Z }.

(** The state: the queues, the partitions, [rd_kafka_yield_thread], the ops destroyed
    and the queues whose wake-ups have been sent, both in order. *)
Record q_state := mk_qs {
  qs_q : gmap nat rd_kafka_q;
  qs_rktp : gmap nat op_toppar;
  rd_kafka_yield_thread : bool;
  qs_destroyed : list rd_kafka_op;
  qs_io_events : list nat }.

Definition qs_put (s : q_state) (i : nat) (q : rd_kafka_q) : q_state :=
  mk_qs (<[i := q]> (qs_q s)) (qs_rktp s) (rd_kafka_yield_thread s) (qs_destroyed s)
    (qs_io_events s).
Definition qs_drop (s : q_state) (i : nat) : q_state :=
  mk_qs (delete i (qs_q s)) (qs_rktp s) (rd_kafka_yield_thread s) (qs_destroyed s)
    (qs_io_events s).
Definition qs_set_rktp (s : q_state) (p : nat) (t : op_toppar) : q_state :=
  mk_qs (qs_q s) (<[p := t]> (qs_rktp s)) (rd_kafka_yield_thread s) (qs_destroyed s)
    (qs_io_events s).
Definition qs_set_yield (s : q_state) (b : bool) : q_state :=
  mk_qs (qs_q s) (qs_rktp s) b (qs_destroyed s) (qs_io_events s).
Definition qs_signal (s : q_state) (i : nat) : q_state :=
  mk_qs (qs_q s) (qs_rktp s) (rd_kafka_yield_thread s) (qs_destroyed s)
    (qs_io_events s ++ [i]).

Definition rd_kafka_op_destroy (s : q_state) (rko : rd_kafka_op) : q_state :=
  mk_qs (qs_q s) (qs_rktp s) (rd_kafka_yield_thread s) (qs_destroyed s ++ [rko])
    (qs_io_events s).

(** The ops of a temporary queue are destroyed from its first on. *)
Definition destroy_ops (s : q_state) (ops : list rd_kafka_op) : q_state :=
  fold_left rd_kafka_op_destroy ops s.

(** ** One queue *)

Definition rd_kafka_q_reset (q : rd_kafka_q) : rd_kafka_q := q_set_q q [] 0 0.

(** Of the flags [RD_KAFKA_Q_F_ALLOCATED] is not kept. *)
Definition rd_kafka_q_init0 : rd_kafka_q := mk_q None [] 0 0 RD_KAFKA_Q_F_READY None None.

Definition rd_kafka_q_ready (q : rd_kafka_q) : bool :=
  negb (Z.land (rkq_flags q) RD_KAFKA_Q_F_READY =? 0).

Definition rd_kafka_q_disable0 (q : rd_kafka_q) : rd_kafka_q :=
  q_set_flags q (Z.ldiff (rkq_flags q) RD_KAFKA_Q_F_READY).

(** The new state of the wake-up, and whether one is sent. *)
Definition rd_kafka_q_io_event (q : rd_kafka_q) : rd_kafka_q * bool :=
  match rkq_qio q with
  | None => (q, false)
  | Some io =>
      if qio_event_cb io then (q, true)
      else if qio_sent io then (q, false)
      else (q_set_qio q (Some (mk_qio (qio_event_cb io) true)), true)
  end.

Definition rd_kafka_q_mark_served (q : rd_kafka_q) : rd_kafka_q :=
  match rkq_qio q with
  | Some io => q_set_qio q (Some (mk_qio (qio_event_cb io) false))
  | None => q
  end.

Definition rd_kafka_q_io_event_enable (q : rd_kafka_q) (fd : Z) : rd_kafka_q :=
  q_set_qio q (if fd =? -1 then None else Some (mk_qio false false)).

Definition rd_kafka_q_cb_event_enable (q : rd_kafka_q) (event_cb : bool) : rd_kafka_q :=
  q_set_qio q (if event_cb then Some (mk_qio true false) else None).

Definition rd_kafka_q_check_yield (q : rd_kafka_q) : rd_kafka_q * bool :=
  if Z.land (rkq_flags q) RD_KAFKA_Q_F_YIELD =? 0 then (q, false)
  else (q_set_flags q (Z.ldiff (rkq_flags q) RD_KAFKA_Q_F_YIELD), true).

Definition rd_kafka_op_cmp_prio (a b : rd_kafka_op) : Z := RD_CMP (rko_prio b) (rko_prio a).

(** With this comparison [TAILQ_INSERT_SORTED] puts an op behind those of its priority. *)
Abbreviation tailq_insert_sorted l rko := (TAILQ_INSERT_SORTED rd_kafka_op_cmp_prio rko l).

(** [TAILQ_REMOVE], by the address. *)
Fixpoint tailq_remove (l : list rd_kafka_op) (rko : rd_kafka_op) : list rd_kafka_op :=
  match l with
  | [] => []
  | x :: r => if rko_id x =? rko_id rko then r else x :: tailq_remove r rko
  end.

Definition rd_kafka_q_enq0 (q : rd_kafka_q) (rko : rd_kafka_op) (at_head : bool) : rd_kafka_q :=
  let l := if rko_prio rko =? 0 then rkq_q q ++ [rko]
           else if at_head then rko :: rkq_q q
           else tailq_insert_sorted (rkq_q q) rko in
  q_set_q q l (i32 (rkq_qlen q + 1)) (i64 (rkq_qsize q + rko_len rko)).

Definition rd_kafka_q_deq0 (q : rd_kafka_q) (rko : rd_kafka_op) : rd_kafka_q :=
  q_set_q q (tailq_remove (rkq_q q) rko) (i32 (rkq_qlen q - 1))
    (i64 (rkq_qsize q - rko_len rko)).

(** The first loop of [rd_kafka_q_concat0]: the queue it inserts into, and what is left
    of the source. *)
Fixpoint concat_prio_loop (l src : list rd_kafka_op) : list rd_kafka_op * list rd_kafka_op :=
  match src with
  | rko :: rest =>
      if rko_prio rko >? 0 then concat_prio_loop (tailq_insert_sorted l rko) rest else (l, src)
  | [] => (l, [])
  end.

(** The loop of [rd_kafka_q_move_cnt], over [dstq] and [srcq]. *)
Fixpoint move_cnt_loop (n : nat) (dst src : rd_kafka_q) (mcnt : Z)
  : rd_kafka_q * rd_kafka_q * Z :=
  match n, rkq_q src with
  | S n, rko :: rest =>
      let l := if rko_prio rko =? 0 then rkq_q dst ++ [rko]
               else tailq_insert_sorted (rkq_q dst) rko in
      move_cnt_loop n
        (q_set_q dst l (i32 (rkq_qlen dst + 1)) (i64 (rkq_qsize dst + rko_len rko)))
        (q_set_q src rest (i32 (rkq_qlen src - 1)) (i64 (rkq_qsize src - rko_len rko)))
        (i32 (mcnt + 1))
  | _, _ => (dst, src, mcnt)
  end.

(** The loop of [rd_kafka_q_purge_toppar_version]: the ops taken, the rest, their number
    and size. *)
Fixpoint shave_loop (l : list rd_kafka_op) (rktp : nat) (version : Z) (tmpq : list rd_kafka_op)
    (cnt size : Z) : list rd_kafka_op * list rd_kafka_op * Z * Z :=
  match l with
  | rko :: rest =>
      if bool_decide (rko_rktp rko = Some rktp) && (rko_version rko <? version)
      then shave_loop rest rktp version (tmpq ++ [rko]) (i32 (cnt + 1))
             (i64 (size + rko_len rko))
      else (tmpq, l, cnt, size)
  | [] => (tmpq, [], cnt, size)
  end.

(** The loop of [rd_kafka_q_fix_offsets]: what stays, what is destroyed, [adj_len] and
    [adj_size]. *)
Fixpoint fix_offsets_loop (l : list rd_kafka_op) (min_offset base_offset : Z)
  : list rd_kafka_op * list rd_kafka_op * Z * Z :=
  match l with
  | [] => ([], [], 0, 0)
  | rko :: rest =>
      let '(stay, gone, adj_len, adj_size) := fix_offsets_loop rest min_offset base_offset in
      if negb (rko_type rko =? RD_KAFKA_OP_FETCH) then (rko :: stay, gone, adj_len, adj_size)
      else
        let rko := op_set_u rko (fetch_set_offset (rko_u rko)
                                   (i64 (fetch_offset (rko_u rko) + base_offset))) in
        if (fetch_offset (rko_u rko) <? min_offset)
           && negb (rko_err rko =? RD_KAFKA_RESP_ERR__NOT_IMPLEMENTED)
        then (stay, rko :: gone, i32 (adj_len + 1), i64 (adj_size + rko_len rko))
        else (rko :: stay, gone, adj_len, adj_size)
  end.

(** The last op of a type, without an error unless [allow_err]. *)
Definition rd_kafka_q_last (q : rd_kafka_q) (op_type : Z) (allow_err : bool)
  : option rd_kafka_op :=
  List.find (fun rko => (rko_type rko =? op_type) && (allow_err || (rko_err rko =? 0)))
    (rev (rkq_q q)).

(** ** Queues that are forwarded

    The fuel bounds the number of forwards followed. *)

Definition q_get (s : q_state) (i : nat) : option rd_kafka_q := qs_q s !! i.

(** A queue after [rd_kafka_q_io_event], if [cond] holds before. *)
Definition q_io_event_if (cond : bool) (s : q_state) (i : nat) (q : rd_kafka_q)
  : q_state * rd_kafka_q :=
  if cond then
    let '(q, sent) := rd_kafka_q_io_event q in (if sent then qs_signal s i else s, q)
  else (s, q).

(** [rd_kafka_q_enq] on the queue of the reply, with its version. *)
Definition rd_kafka_replyq_enq
    (enq : q_state -> nat -> rd_kafka_op -> option (Z * q_state)) (s : q_state)
    (rko : rd_kafka_op) (rkq : nat) (version : Z) : option (Z * q_state) :=
  let rko := op_set_version rko (if version =? 0 then rko_replyq_version rko else version) in
  enq s rkq (op_set_replyq rko None (rko_replyq_version rko)).

Definition rd_kafka_op_reply
    (enq : q_state -> nat -> rd_kafka_op -> option (Z * q_state)) (s : q_state)
    (rko : rd_kafka_op) (err : Z) : option (Z * q_state) :=
  match rko_replyq rko with
  | None => Some (0, rd_kafka_op_destroy s rko)
  | Some rkq =>
      let rko := op_set_type rko (Z.lor (rko_type rko)
                   (match rko_op_cb rko with
                    | Some _ => RD_KAFKA_OP_CB
                    | None => RD_KAFKA_OP_REPLY
                    end)) in
      rd_kafka_replyq_enq enq s (op_set_err rko err) rkq 0
  end.

Fixpoint rd_kafka_q_enq1 (fuel : nat) (s : q_state) (i : nat) (rko : rd_kafka_op)
    (orig_destq : nat) (at_head : bool) : option (Z * q_state) :=
  match fuel with
  | O => None
  | S fuel =>
      let* q := q_get s i in
      if negb (rd_kafka_q_ready q) then
        rd_kafka_op_reply (fun s j rko => rd_kafka_q_enq1 fuel s j rko j false) s rko
          RD_KAFKA_RESP_ERR__DESTROY
      else
        match rkq_fwdq q with
        | None =>
            let* orig := q_get s orig_destq in
            let rko := match rko_serve rko, rkq_serve orig with
                       | None, Some serve => op_set_serve rko (Some serve)
                       | _, _ => rko
                       end in
            let q := rd_kafka_q_enq0 q rko at_head in
            let '(s, q) := q_io_event_if (rkq_qlen q =? 1) s i q in
            Some (1, qs_put s i q)
        | Some fwdq =>
            let* (_, s) := rd_kafka_q_enq1 fuel s fwdq rko orig_destq at_head in
            Some (1, s)
        end
  end.

Definition rd_kafka_q_enq (fuel : nat) (s : q_state) (i : nat) (rko : rd_kafka_op)
  : option (Z * q_state) := rd_kafka_q_enq1 fuel s i rko i false.

Definition rd_kafka_q_reenq (fuel : nat) (s : q_state) (i : nat) (rko : rd_kafka_op)
  : option (Z * q_state) := rd_kafka_q_enq1 fuel s i rko i true.

Fixpoint rd_kafka_q_yield (fuel : nat) (s : q_state) (i : nat) : option q_state :=
  match fuel with
  | O => None
  | S fuel =>
      let* q := q_get s i in
      if negb (rd_kafka_q_ready q) then Some s
      else
        match rkq_fwdq q with
        | None =>
            let q := q_set_flags q (Z.lor (rkq_flags q) RD_KAFKA_Q_F_YIELD) in
            let '(s, q) := q_io_event_if (rkq_qlen q =? 0) s i q in
            Some (qs_put s i q)
        | Some fwdq => rd_kafka_q_yield fuel s fwdq
        end
  end.

(** The queue at the end of the forwards. *)
Fixpoint q_resolve (fuel : nat) (s : q_state) (i : nat) : option nat :=
  match fuel with
  | O => None
  | S fuel =>
      let* q := q_get s i in
      match rkq_fwdq q with
      | Some fwdq => q_resolve fuel s fwdq
      | None => Some i
      end
  end.

(** A queue put onto itself has no result here: the macros would leave it empty with
    its ops lost, or never end. *)
Fixpoint rd_kafka_q_concat0 (fuel : nat) (s : q_state) (i src : nat) : option (Z * q_state) :=
  match fuel with
  | O => None
  | S fuel' =>
      let* src := q_resolve fuel s src in
      let* srcq := q_get s src in
      if rkq_qlen srcq =? 0 then Some (0, s)
      else
        let* q := q_get s i in
        match rkq_fwdq q with
        | None =>
            let* _ := rd_assert (negb (Nat.eqb i src)) in
            if negb (rd_kafka_q_ready q) then Some (-1, s)
            else
              let '(l, rest) := concat_prio_loop (rkq_q q) (rkq_q srcq) in
              let q := q_set_q q (l ++ rest) (rkq_qlen q) (rkq_qsize q) in
              let '(s, q) := q_io_event_if (rkq_qlen q =? 0) s i q in
              let q := q_set_q q (rkq_q q) (i32 (rkq_qlen q + rkq_qlen srcq))
                         (i64 (rkq_qsize q + rkq_qsize srcq)) in
              let s := qs_put s i q in
              Some (0, qs_put s src (rd_kafka_q_reset (rd_kafka_q_mark_served srcq)))
        | Some fwdq => rd_kafka_q_concat0 fuel' s fwdq src
        end
  end.

Fixpoint rd_kafka_q_prepend0 (fuel : nat) (s : q_state) (i src : nat) : option q_state :=
  match fuel with
  | O => None
  | S fuel =>
      let* q := q_get s i in
      let* srcq := q_get s src in
      match rkq_fwdq q, rkq_fwdq srcq with
      | None, None =>
          let* _ := rd_assert (negb (Nat.eqb i src)) in
          let q := q_set_q q (rkq_q srcq ++ rkq_q q) (rkq_qlen q) (rkq_qsize q) in
          let '(s, q) := q_io_event_if ((rkq_qlen q =? 0) && (rkq_qlen srcq >? 0)) s i q in
          let q := q_set_q q (rkq_q q) (i32 (rkq_qlen q + rkq_qlen srcq))
                     (i64 (rkq_qsize q + rkq_qsize srcq)) in
          let s := qs_put s i q in
          Some (qs_put s src (rd_kafka_q_reset (rd_kafka_q_mark_served srcq)))
      | fi, fs => rd_kafka_q_prepend0 fuel s (default i fi) (default src fs)
      end
  end.

(** Runs on the queue at the end of the forwards, as the functions do that only follow
    them. *)
Definition at_dest {A} (fuel : nat) (s : q_state) (i : nat)
    (f : nat -> rd_kafka_q -> option A) : option A :=
  let* i := q_resolve fuel s i in
  let* q := q_get s i in f i q.

Definition rd_kafka_q_len (fuel : nat) (s : q_state) (i : nat) : option Z :=
  at_dest fuel s i (fun _ q => Some (rkq_qlen q)).

Definition rd_kafka_q_size (fuel : nat) (s : q_state) (i : nat) : option Z :=
  at_dest fuel s i (fun _ q => Some (rkq_qsize q)).

(** The number of ops purged, and the state. *)
Definition rd_kafka_q_purge0 (fuel : nat) (s : q_state) (i : nat) : option (Z * q_state) :=
  at_dest fuel s i (fun i q =>
    let s := qs_put s i (rd_kafka_q_reset (rd_kafka_q_mark_served q)) in
    Some (i32 (zlen (rkq_q q)), destroy_ops s (rkq_q q))).

Definition rd_kafka_q_purge_toppar_version (fuel : nat) (s : q_state) (i rktp : nat)
    (version : Z) : option q_state :=
  at_dest fuel s i (fun i q =>
    let '(tmpq, rest, cnt, size) := shave_loop (rkq_q q) rktp version [] 0 0 in
    let q := rd_kafka_q_mark_served q in
    let q := q_set_q q rest (i32 (rkq_qlen q - cnt)) (i64 (rkq_qsize q - size)) in
    Some (destroy_ops (qs_put s i q) tmpq)).

(** [cnt] is -1 for all. *)
Fixpoint rd_kafka_q_move_cnt (fuel : nat) (s : q_state) (dst src : nat) (cnt : Z)
  : option (Z * q_state) :=
  match fuel with
  | O => None
  | S fuel' =>
      let* dstq := q_get s dst in
      let* srcq := q_get s src in
      match rkq_fwdq dstq, rkq_fwdq srcq with
      | None, None =>
          let* _ := rd_assert (negb (Nat.eqb dst src)) in
          let '(s, dstq) := q_io_event_if ((cnt >? 0) && (rkq_qlen dstq =? 0)) s dst dstq in
          let s := qs_put s dst dstq in
          let* (mcnt, s) :=
            if (cnt =? -1) || (cnt >=? rkq_qlen srcq) then
              let* (_, s) := rd_kafka_q_concat0 fuel s dst src in Some (rkq_qlen srcq, s)
            else
              let '(dstq, srcq, mcnt) := move_cnt_loop (Z.to_nat cnt) dstq srcq 0 in
              Some (mcnt, qs_put (qs_put s dst dstq) src srcq) in
          let* srcq := q_get s src in
          Some (mcnt, qs_put s src (rd_kafka_q_mark_served srcq))
      | fd, fs => rd_kafka_q_move_cnt fuel' s (default dst fd) (default src fs) cnt
      end
  end.

Definition rd_kafka_q_fwd_set0 (fuel : nat) (s : q_state) (src : nat) (dest : option nat)
    (fwd_app : bool) : option q_state :=
  if bool_decide (dest = Some src) then Some s
  else
    let* srcq := q_get s src in
    let srcq := if fwd_app
                then q_set_flags srcq (Z.lor (rkq_flags srcq) RD_KAFKA_Q_F_FWD_APP)
                else srcq in
    let s := qs_put s src (q_set_fwdq srcq None) in
    match dest with
    | None => Some s
    | Some destq =>
        let* s :=
          if rkq_qlen srcq >? 0 then
            let* (_, s) := rd_kafka_q_concat0 fuel s destq src in Some s
          else Some s in
        let* srcq := q_get s src in
        Some (qs_put s src (q_set_fwdq srcq (Some destq)))
    end.

Definition rd_kafka_q_fix_offsets (s : q_state) (i : nat) (min_offset base_offset : Z)
  : option q_state :=
  let* q := q_get s i in
  let* _ := rd_assert (bool_decide (rkq_fwdq q = None)) in
  let '(stay, gone, adj_len, adj_size) := fix_offsets_loop (rkq_q q) min_offset base_offset in
  Some (destroy_ops (qs_put s i (q_set_q q stay (i32 (rkq_qlen q - adj_len))
                                   (i64 (rkq_qsize q - adj_size)))) gone).

(** [rd_kafka_q_destroy_final], once there are no references left. *)
Definition rd_kafka_q_destroy_final (fuel : nat) (s : q_state) (i : nat) : option q_state :=
  let* q := q_get s i in
  let s := qs_put s i (rd_kafka_q_disable0 (q_set_qio q None)) in
  let* s := rd_kafka_q_fwd_set0 fuel s i None false in
  let* (_, s) := rd_kafka_q_purge0 fuel s i in
  Some (qs_drop s i).

(** [rd_kafka_q_destroy_owner], for the last reference. *)
Definition rd_kafka_q_destroy_owner (fuel : nat) (s : q_state) (i : nat) : option q_state :=
  let* q := q_get s i in
  let s := qs_put s i (rd_kafka_q_disable0 q) in
  let* (_, s) := rd_kafka_q_purge0 fuel s i in
  rd_kafka_q_destroy_final fuel s i.

(** ** Handling of ops *)

Definition rd_kafka_op_version_outdated (s : q_state) (rko : rd_kafka_op) (version : Z) : bool :=
  if rko_version rko =? 0 then false
  else if negb (version =? 0) then rko_version rko <? version
  else
    match rko_rktp rko with
    | Some p => match qs_rktp s !! p with
                | Some t => rko_version rko <? rktp_version t
                | None => false
                end
    | None => false
    end.

Definition rd_kafka_op_is_ctrl_msg (rko : rd_kafka_op) : bool :=
  (rko_type rko =? RD_KAFKA_OP_FETCH) && (rko_err rko =? 0) && fetch_control (rko_u rko).

(** What the handlers read of the configuration of the client, its fatal error, and
    whether they run in its main thread.  [conf_dr_cb] is [dr_msg_cb] or [dr_cb]. *)
Record q_conf := mk_q_conf {
  conf_consume_cb : bool;
  conf_rebalance_cb : bool;
  conf_error_cb : bool;
  conf_dr_cb : bool;
  conf_dr_mode_event : bool;
  conf_throttle_cb : bool;
  conf_stats_cb : bool;
  conf_log_cb : option Z;
  conf_enable_auto_offset_store : bool;
  conf_fatal_error : Z;
  conf_in_main_thread : bool }.

(** [rd_kafka_fetch_op_app_prepare], with [rd_kafka_offset_store0], which is forced and
    stores. *)
Definition rd_kafka_fetch_op_app_prepare (conf : q_conf) (s : q_state) (rko : rd_kafka_op)
  : option q_state :=
  if negb (rko_type rko =? RD_KAFKA_OP_FETCH) || negb (rko_err rko =? 0) then Some s
  else
    let* p := rko_rktp rko in
    let* t := qs_rktp s !! p in
    let offset := i64 (fetch_offset (rko_u rko) + 1) in
    let t := mk_op_toppar (rktp_version t) offset
               (if conf_enable_auto_offset_store conf then offset else rktp_stored_offset t) in
    Some (qs_set_rktp s p t).

(** The result, the op as it is then and the state. *)
Abbreviation op_result := (option (rd_kafka_op_res * rd_kafka_op * q_state)).

(** A serve callback is told the queue, if there is one, the op and the kind of call. *)
Abbreviation q_serve_cb := (q_state -> nat -> rd_kafka_op -> rd_kafka_q_cb_type -> op_result).

(** The calls to the application and to other parts of the client. *)
Inductive q_call :=
  | CallConsume (rko : rd_kafka_op)
  | CallRebalance (rko : rd_kafka_op)
  | CallUnassign
  | CallOffsetCommit (rko : rd_kafka_op)
  | CallPartitionStopped (rktp : option nat)
  | CallError (rko : rd_kafka_op)
  | CallLog (rko : rd_kafka_op)
  | CallDr (rkm : Z)
  | CallDrDropped (rkm : Z)
  | CallThrottle (rko : rd_kafka_op)
  | CallStats (rko : rd_kafka_op)
  | CallPurge (rko : rd_kafka_op)
  | CallBuf (rko : rd_kafka_op).

Section Handle.
Context (conf : q_conf).
(** The calls change the state in any way; so do the callbacks of ops and queues, which
    go by their names. *)
Context (call : q_call -> q_state -> q_state).
Context (op_cb : nat -> q_state -> nat -> rd_kafka_op -> op_result).
Context (serve_cb : nat -> q_serve_cb).

Definition rd_kafka_op_call (s : q_state) (rkq : nat) (rko : rd_kafka_op) : op_result :=
  let* cb := rko_op_cb rko in
  let* (res, rko, s) := op_cb cb s rkq rko in
  if bool_decide (res = RD_KAFKA_OP_RES_YIELD) || rd_kafka_yield_thread s
  then Some (RD_KAFKA_OP_RES_YIELD, rko, s)
  else if bool_decide (res = RD_KAFKA_OP_RES_KEEP) then Some (res, rko, s)
  else Some (res, op_set_op_cb rko None, s).

Definition has_flag (rko : rd_kafka_op) (flag : Z) : bool :=
  negb (Z.land (rko_type rko) flag =? 0).

Definition rd_kafka_op_handle_std (s : q_state) (rkq : nat) (rko : rd_kafka_op)
    (cb_type : rd_kafka_q_cb_type) : op_result :=
  if bool_decide (cb_type = RD_KAFKA_Q_CB_FORCE_RETURN) then Some (RD_KAFKA_OP_RES_PASS, rko, s)
  else if rd_kafka_op_is_ctrl_msg rko then
    let* s := rd_kafka_fetch_op_app_prepare conf s rko in
    Some (RD_KAFKA_OP_RES_HANDLED, rko, s)
  else if negb (bool_decide (cb_type = RD_KAFKA_Q_CB_EVENT)) && has_flag rko RD_KAFKA_OP_CB
  then rd_kafka_op_call s rkq rko
  else if rko_type rko =? RD_KAFKA_OP_RECV_BUF
  then Some (RD_KAFKA_OP_RES_HANDLED, rko, call (CallBuf rko) s)
  else if negb (bool_decide (cb_type = RD_KAFKA_Q_CB_RETURN))
          && has_flag rko RD_KAFKA_OP_REPLY && (rko_err rko =? RD_KAFKA_RESP_ERR__DESTROY)
  then Some (RD_KAFKA_OP_RES_HANDLED, rko, s)
  else Some (RD_KAFKA_OP_RES_PASS, rko, s).

Definition rd_kafka_op_handle (s : q_state) (rkq : nat) (rko : rd_kafka_op)
    (cb_type : rd_kafka_q_cb_type) (callback : option q_serve_cb) : op_result :=
  let callback := match rko_serve rko with
                  | Some serve => Some (serve_cb serve)
                  | None => callback
                  end in
  let rko := op_set_serve rko None in
  let* (res, rko, s) := rd_kafka_op_handle_std s rkq rko cb_type in
  match res with
  | RD_KAFKA_OP_RES_KEEP => Some (res, rko, s)
  | RD_KAFKA_OP_RES_HANDLED => Some (res, rko, rd_kafka_op_destroy s rko)
  | RD_KAFKA_OP_RES_YIELD => Some (res, rko, s)
  | RD_KAFKA_OP_RES_PASS =>
      match callback with
      | Some callback => callback s rkq rko cb_type
      | None => Some (res, rko, s)
      end
  end.

(** *** Events *)

Definition rd_kafka_op2event (optype : Z) : Z :=
  let t := Z.ldiff optype RD_KAFKA_OP_FLAGMASK in
  if t =? RD_KAFKA_OP_DR then RD_KAFKA_EVENT_DR
  else if t =? RD_KAFKA_OP_FETCH then RD_KAFKA_EVENT_FETCH
  else if t =? RD_KAFKA_OP_ERR then RD_KAFKA_EVENT_ERROR
  else if t =? RD_KAFKA_OP_CONSUMER_ERR then RD_KAFKA_EVENT_ERROR
  else if t =? RD_KAFKA_OP_REBALANCE then RD_KAFKA_EVENT_REBALANCE
  else if t =? RD_KAFKA_OP_OFFSET_COMMIT then RD_KAFKA_EVENT_OFFSET_COMMIT
  else if t =? RD_KAFKA_OP_LOG then RD_KAFKA_EVENT_LOG
  else if t =? RD_KAFKA_OP_STATS then RD_KAFKA_EVENT_STATS
  else if t =? RD_KAFKA_OP_OAUTHBEARER_REFRESH then RD_KAFKA_EVENT_OAUTHBEARER_TOKEN_REFRESH
  else RD_KAFKA_EVENT_NONE.

(** The types from 100 to 107 are the results of the requests of an administrator. *)
Definition rd_kafka_event_setup (rko : rd_kafka_op) : rd_kafka_op * bool :=
  if negb (Z.land (rko_flags rko) RD_KAFKA_OP_F_FORCE_CB =? 0) then (rko, false)
  else
    let rko := if rko_evtype rko =? RD_KAFKA_EVENT_NONE
               then op_set_evtype rko (rd_kafka_op2event (rko_type rko)) else rko in
    let e := rko_evtype rko in
    if e =? RD_KAFKA_EVENT_DR then (rko, true)
    else if e =? RD_KAFKA_EVENT_ERROR then
      (if (rko_err rko =? RD_KAFKA_RESP_ERR__FATAL) && negb (conf_fatal_error conf =? 0)
       then op_set_err rko (conf_fatal_error conf) else rko, true)
    else
      (rko, existsb (Z.eqb e) [RD_KAFKA_EVENT_REBALANCE; RD_KAFKA_EVENT_LOG;
              RD_KAFKA_EVENT_OFFSET_COMMIT; RD_KAFKA_EVENT_STATS; 100; 101; 102; 103; 104;
              105; 106; 107; RD_KAFKA_EVENT_CREATEACLS_RESULT;
              RD_KAFKA_EVENT_DESCRIBEACLS_RESULT; RD_KAFKA_EVENT_DELETEACLS_RESULT;
              RD_KAFKA_EVENT_OAUTHBEARER_TOKEN_REFRESH]).

(** *** The handler of polls *)

Definition is_return (cb_type : rd_kafka_q_cb_type) : bool :=
  bool_decide (cb_type = RD_KAFKA_Q_CB_RETURN)
  || bool_decide (cb_type = RD_KAFKA_Q_CB_FORCE_RETURN).

Definition rd_kafka_consume_cb (s : q_state) (rkq : nat) (rko : rd_kafka_op)
    (cb_type : rd_kafka_q_cb_type) : op_result :=
  if rd_kafka_op_version_outdated s rko 0 || (rko_type rko =? RD_KAFKA_OP_BARRIER)
  then Some (RD_KAFKA_OP_RES_HANDLED, rko, rd_kafka_op_destroy s rko)
  else
    let* _ := rd_assert (existsb (Z.eqb (rko_type rko))
                [RD_KAFKA_OP_FETCH; RD_KAFKA_OP_ERR; RD_KAFKA_OP_CONSUMER_ERR]) in
    let* s := rd_kafka_fetch_op_app_prepare conf s rko in
    let s := call (CallConsume rko) s in
    Some (RD_KAFKA_OP_RES_HANDLED, rko, rd_kafka_op_destroy s rko).

(** The delivery reports of an op.  The boolean says that the callback yielded; the op
    is then put back, or destroyed when none of its messages is left. *)
Fixpoint dr_loop (fuel : nat) (s : q_state) (rkq : nat) (rko : rd_kafka_op) (msgs : list Z)
  : option (bool * q_state) :=
  match msgs with
  | [] => Some (false, s)
  | rkm :: rest =>
      let* s :=
        if conf_dr_cb conf then Some (call (CallDr rkm) s)
        else let* _ := rd_assert (conf_dr_mode_event conf) in
             Some (call (CallDrDropped rkm) s) in
      if rd_kafka_yield_thread s then
        match rest with
        | [] => Some (true, rd_kafka_op_destroy s rko)
        | _ :: _ =>
            let rko := op_set_u rko (dr_set_msgq (rko_u rko) rest) in
            let* (_, s) := rd_kafka_q_reenq fuel s rkq rko in Some (true, s)
        end
      else dr_loop fuel s rkq rko rest
  end.

Definition admin_op_types : list Z :=
  [RD_KAFKA_OP_CREATETOPICS; RD_KAFKA_OP_DELETETOPICS; RD_KAFKA_OP_CREATEPARTITIONS;
   RD_KAFKA_OP_ALTERCONFIGS; RD_KAFKA_OP_DESCRIBECONFIGS; RD_KAFKA_OP_DELETERECORDS;
   RD_KAFKA_OP_DELETEGROUPS; RD_KAFKA_OP_ADMIN_FANOUT; RD_KAFKA_OP_CREATEACLS;
   RD_KAFKA_OP_DESCRIBEACLS; RD_KAFKA_OP_DELETEACLS].

(** The end of [rd_kafka_poll_cb]. *)
Definition poll_done (r : op_result) : op_result :=
  let* (res, rko, s) := r in
  Some (res, rko, if bool_decide (res = RD_KAFKA_OP_RES_HANDLED)
                  then rd_kafka_op_destroy s rko else s).

Definition poll_handled (s : q_state) (rko : rd_kafka_op) : op_result :=
  poll_done (Some (RD_KAFKA_OP_RES_HANDLED, rko, s)).

Definition poll_error (s : q_state) (rko : rd_kafka_op) : op_result :=
  poll_handled (call (if conf_error_cb conf then CallError rko else CallLog rko) s) rko.

(** [fuel] is for the queue an op is put back on. *)
Definition rd_kafka_poll_cb (fuel : nat) (s : q_state) (rkq : nat) (rko : rd_kafka_op)
    (cb_type : rd_kafka_q_cb_type) : op_result :=
  let '(rko, ev) := if bool_decide (cb_type = RD_KAFKA_Q_CB_EVENT)
                    then rd_kafka_event_setup rko else (rko, false) in
  if ev then Some (RD_KAFKA_OP_RES_PASS, rko, s)
  else
    let t := rko_type rko in
    if t =? RD_KAFKA_OP_FETCH then
      if negb (conf_consume_cb conf) || is_return cb_type
      then Some (RD_KAFKA_OP_RES_PASS, rko, s)
      else rd_kafka_consume_cb s rkq rko cb_type
    else if t =? RD_KAFKA_OP_REBALANCE then
      poll_handled (call (if conf_rebalance_cb conf then CallRebalance rko else CallUnassign) s)
        rko
    else if t =? Z.lor RD_KAFKA_OP_OFFSET_COMMIT RD_KAFKA_OP_REPLY then
      if negb (offset_commit_cb (rko_u rko)) then Some (RD_KAFKA_OP_RES_PASS, rko, s)
      else poll_handled (call (CallOffsetCommit rko) s) rko
    else if t =? Z.lor RD_KAFKA_OP_FETCH_STOP RD_KAFKA_OP_REPLY then
      poll_handled (call (CallPartitionStopped (rko_rktp rko)) s) rko
    else if t =? RD_KAFKA_OP_CONSUMER_ERR then
      if is_return cb_type then Some (RD_KAFKA_OP_RES_PASS, rko, s) else poll_error s rko
    else if t =? RD_KAFKA_OP_ERR then poll_error s rko
    else if t =? RD_KAFKA_OP_DR then
      let* (yielded, s) := dr_loop fuel s rkq rko (dr_msgq (rko_u rko)) in
      let rko := op_set_u rko (dr_set_msgq (rko_u rko) []) in
      if yielded then Some (RD_KAFKA_OP_RES_YIELD, rko, s) else poll_handled s rko
    else if t =? RD_KAFKA_OP_THROTTLE then
      poll_handled (if conf_throttle_cb conf then call (CallThrottle rko) s else s) rko
    else if t =? RD_KAFKA_OP_STATS then
      poll_handled (if conf_stats_cb conf then call (CallStats rko) s else s) rko
    else if t =? RD_KAFKA_OP_LOG then
      poll_handled (match conf_log_cb conf with
                    | Some level => if level >=? log_level (rko_u rko)
                                    then call (CallLog rko) s else s
                    | None => s
                    end) rko
    else if t =? RD_KAFKA_OP_TERMINATE then
      Some (RD_KAFKA_OP_RES_YIELD, rko, rd_kafka_op_destroy s rko)
    else if existsb (Z.eqb t) admin_op_types then poll_done (rd_kafka_op_call s rkq rko)
    else if t =? RD_KAFKA_OP_ADMIN_RESULT then
      if is_return cb_type then Some (RD_KAFKA_OP_RES_PASS, rko, s) else poll_handled s rko
    else if t =? RD_KAFKA_OP_TXN then
      let* _ := rd_assert (conf_in_main_thread conf) in
      poll_done (rd_kafka_op_call s rkq rko)
    else if t =? RD_KAFKA_OP_BARRIER then poll_handled s rko
    else if t =? RD_KAFKA_OP_PURGE then poll_handled (call (CallPurge rko) s) rko
    else if has_flag rko RD_KAFKA_OP_CB then poll_done (rd_kafka_op_call s rkq rko)
    else None.

(** ** Reading a queue *)

(** The loop that filters out outdated ops with [rd_kafka_op_filter]: the first op that
    is not. *)
Fixpoint filter_loop (l : list rd_kafka_op) (s : q_state) (i : nat) (version : Z)
  : option (option rd_kafka_op * q_state) :=
  match l with
  | [] => Some (None, s)
  | rko :: rest =>
      if rd_kafka_op_version_outdated s rko version then
        let* q := q_get s i in
        filter_loop rest (rd_kafka_op_destroy (qs_put s i (rd_kafka_q_deq0 q rko)) rko) i version
      else Some (Some rko, s)
  end.

(** What [rd_kafka_q_pop_serve] does with the lock held: it takes the first op that is
    not outdated. *)
Definition pop_first (s : q_state) (i : nat) (version : Z)
  : option (option rd_kafka_op * q_state) :=
  let* q := q_get s i in
  let* (first, s) := filter_loop (rkq_q q) s i version in
  let* q := q_get s i in
  let q := rd_kafka_q_mark_served q in
  match first with
  | Some rko => Some (Some rko, qs_put s i (rd_kafka_q_deq0 q rko))
  | None => Some (None, qs_put s i q)
  end.

(** Its loop.  [waits] is what happens each time the wait for an op is woken up. *)
Fixpoint pop_loop (fuel : nat) (s : q_state) (i : nat) (version : Z)
    (cb_type : rd_kafka_q_cb_type) (callback : option q_serve_cb)
    (waits : list (q_state -> q_state)) : option (option rd_kafka_op * q_state) :=
  match fuel with
  | O => None
  | S fuel =>
      let* (first, s) := pop_first s i version in
      match first with
      | Some rko =>
          let* (res, rko, s) := rd_kafka_op_handle s i rko cb_type callback in
          match res with
          | RD_KAFKA_OP_RES_HANDLED | RD_KAFKA_OP_RES_KEEP =>
              pop_loop fuel s i version cb_type callback waits
          | RD_KAFKA_OP_RES_YIELD => Some (None, s)
          | RD_KAFKA_OP_RES_PASS => Some (Some rko, s)
          end
      | None =>
          let* q := q_get s i in
          let '(q, yield) := rd_kafka_q_check_yield q in
          let s := qs_put s i q in
          if yield then Some (None, s)
          else match waits with
               | [] => Some (None, s)
               | w :: waits => pop_loop fuel (w s) i version cb_type callback waits
               end
      end
  end.

Definition rd_kafka_q_pop_serve (fuel : nat) (s : q_state) (i : nat) (version : Z)
    (cb_type : rd_kafka_q_cb_type) (callback : option q_serve_cb)
    (waits : list (q_state -> q_state)) : option (option rd_kafka_op * q_state) :=
  let s := qs_set_yield s false in
  let* i := q_resolve fuel s i in
  pop_loop fuel s i version cb_type callback waits.

Definition rd_kafka_q_pop (fuel : nat) (s : q_state) (i : nat) (version : Z)
    (waits : list (q_state -> q_state)) : option (option rd_kafka_op * q_state) :=
  rd_kafka_q_pop_serve fuel s i version RD_KAFKA_Q_CB_RETURN None waits.

Definition rd_kafka_q_wait_result (fuel : nat) (s : q_state) (i : nat)
    (waits : list (q_state -> q_state)) : option (Z * q_state) :=
  let* (rko, s) := rd_kafka_q_pop fuel s i 0 waits in
  match rko with
  | None => Some (RD_KAFKA_RESP_ERR__TIMED_OUT, s)
  | Some rko => Some (rko_err rko, rd_kafka_op_destroy s rko)
  end.

Definition rd_kafka_op_req0 (fuel : nat) (s : q_state) (destq recvq : nat) (rko : rd_kafka_op)
    (waits : list (q_state -> q_state)) : option (option rd_kafka_op * q_state) :=
  let* (r, s) := rd_kafka_q_enq fuel s destq (op_set_replyq rko (Some recvq) 0) in
  if r =? 0 then Some (None, s) else rd_kafka_q_pop fuel s recvq 0 waits.

(** [rd_kafka_op_req], with the address of the queue it makes for the reply. *)
Definition rd_kafka_op_req (fuel : nat) (s : q_state) (destq recvq : nat) (rko : rd_kafka_op)
    (waits : list (q_state -> q_state)) : option (option rd_kafka_op * q_state) :=
  let s := qs_put s recvq rd_kafka_q_init0 in
  let* (reply, s) := rd_kafka_op_req0 fuel s destq recvq rko waits in
  let* s := rd_kafka_q_destroy_owner fuel s recvq in
  Some (reply, s).

(** The wait of [rd_kafka_q_serve] and [rd_kafka_q_serve_rkmessages] for an op. *)
Fixpoint wait_loop (s : q_state) (i : nat) (waits : list (q_state -> q_state))
  : option (option rd_kafka_op * q_state * list (q_state -> q_state)) :=
  let* q := q_get s i in
  match rkq_q q with
  | rko :: _ => Some (Some rko, s, waits)
  | [] =>
      let '(q, yield) := rd_kafka_q_check_yield q in
      let s := qs_put s i q in
      if yield then Some (None, s, waits)
      else match waits with
           | [] => Some (None, s, [])
           | w :: waits => wait_loop (w s) i waits
           end
  end.

Definition q_served (s : q_state) (i : nat) : option q_state :=
  let* q := q_get s i in Some (qs_put s i (rd_kafka_q_mark_served q)).

(** The loop of [rd_kafka_q_serve] over the ops of [localq]. *)
Fixpoint serve_loop (fuel : nat) (s : q_state) (rkq localq : nat)
    (cb_type : rd_kafka_q_cb_type) (callback : option q_serve_cb) (cnt : Z)
  : option (Z * q_state) :=
  match fuel with
  | O => None
  | S fuel' =>
      let* q := q_get s localq in
      match rkq_q q with
      | [] => Some (cnt, s)
      | rko :: _ =>
          let s := qs_put s localq (rd_kafka_q_deq0 q rko) in
          let* (res, _, s) := rd_kafka_op_handle s localq rko cb_type callback in
          let* _ := rd_assert (negb (bool_decide (res = RD_KAFKA_OP_RES_PASS))) in
          let cnt := i32 (cnt + 1) in
          if bool_decide (res = RD_KAFKA_OP_RES_YIELD) || rd_kafka_yield_thread s then
            let* q := q_get s localq in
            match rkq_q q with
            | [] => Some (cnt, s)
            | _ :: _ => let* s := rd_kafka_q_prepend0 fuel s rkq localq in Some (cnt, s)
            end
          else serve_loop fuel' s rkq localq cb_type callback cnt
      end
  end.

(** [localq] is the address of the local queue. *)
Definition rd_kafka_q_serve (fuel : nat) (s : q_state) (rkq localq : nat) (max_cnt : Z)
    (cb_type : rd_kafka_q_cb_type) (callback : option q_serve_cb)
    (waits : list (q_state -> q_state)) : option (Z * q_state) :=
  let* rkq := q_resolve fuel s rkq in
  let* (first, s, _) := wait_loop s rkq waits in
  let* s := q_served s rkq in
  match first with
  | None => Some (0, s)
  | Some _ =>
      let s := qs_put s localq rd_kafka_q_init0 in
      let* (_, s) := rd_kafka_q_move_cnt fuel s localq rkq (if max_cnt =? 0 then -1 else max_cnt) in
      let s := qs_set_yield s false in
      let* (cnt, s) := serve_loop fuel s rkq localq cb_type callback 0 in
      let* s := rd_kafka_q_destroy_owner fuel s localq in
      Some (cnt, s)
  end.

(** The messages that are left, and the state. *)
Fixpoint rd_kafka_purge_outdated_messages (s : q_state) (version : Z)
    (rkmessages : list rd_kafka_op) : list rd_kafka_op * q_state :=
  match rkmessages with
  | [] => ([], s)
  | rko :: rest =>
      if rd_kafka_op_version_outdated s rko version
      then rd_kafka_purge_outdated_messages (rd_kafka_op_destroy s rko) version rest
      else let '(valid, s) := rd_kafka_purge_outdated_messages s version rest in
           (rko :: valid, s)
  end.

(** The loop of [rd_kafka_q_serve_rkmessages]: the messages, [tmpq] and the state.  A
    message is the op it is part of. *)
Fixpoint rkmessages_loop (fuel : nat) (s : q_state) (i : nat) (size : Z)
    (rkmessages tmpq : list rd_kafka_op) (waits : list (q_state -> q_state))
  : option (list rd_kafka_op * list rd_kafka_op * q_state) :=
  match fuel with
  | O => None
  | S fuel' =>
      if negb (zlen rkmessages <? size) then Some (rkmessages, tmpq, s)
      else
        let* (first, s, waits) := wait_loop s i waits in
        let* s := q_served s i in
        match first with
        | None => Some (rkmessages, tmpq, s)
        | Some rko =>
            let* q := q_get s i in
            let s := qs_put s i (rd_kafka_q_deq0 q rko) in
            if rd_kafka_op_version_outdated s rko 0
            then rkmessages_loop fuel' s i size rkmessages (tmpq ++ [rko]) waits
            else if rko_type rko =? RD_KAFKA_OP_BARRIER then
              let '(rkmessages, s) :=
                rd_kafka_purge_outdated_messages s (rko_version rko) rkmessages in
              rkmessages_loop fuel' (rd_kafka_op_destroy s rko) i size rkmessages tmpq waits
            else
              let* (res, rko, s) := rd_kafka_poll_cb fuel s i rko RD_KAFKA_Q_CB_RETURN in
              match res with
              | RD_KAFKA_OP_RES_KEEP | RD_KAFKA_OP_RES_HANDLED =>
                  rkmessages_loop fuel' s i size rkmessages tmpq waits
              | RD_KAFKA_OP_RES_YIELD => Some (rkmessages, tmpq, s)
              | RD_KAFKA_OP_RES_PASS =>
                  if rd_kafka_yield_thread s then Some (rkmessages, tmpq, s)
                  else
                    let* s := if (rko_err rko =? 0) && (rko_type rko =? RD_KAFKA_OP_FETCH)
                              then rd_kafka_fetch_op_app_prepare conf s rko else Some s in
                    if rd_kafka_op_is_ctrl_msg rko
                    then rkmessages_loop fuel' (rd_kafka_op_destroy s rko) i size rkmessages
                           tmpq waits
                    else
                      let* _ := rd_assert (existsb (Z.eqb (rko_type rko))
                        [RD_KAFKA_OP_FETCH; RD_KAFKA_OP_ERR; RD_KAFKA_OP_CONSUMER_ERR]) in
                      rkmessages_loop fuel' s i size (rkmessages ++ [rko]) tmpq waits
              end
        end
  end.

Definition rd_kafka_q_serve_rkmessages (fuel : nat) (s : q_state) (i : nat) (size : Z)
    (waits : list (q_state -> q_state)) : option (list rd_kafka_op * q_state) :=
  let* i := q_resolve fuel s i in
  let s := qs_set_yield s false in
  let* (rkmessages, tmpq, s) := rkmessages_loop fuel s i size [] [] waits in
  Some (rkmessages, destroy_ops s tmpq).

End Handle.

(** [rd_kafka_toppar_op_version_bump], with the fetch queue of the partition; its
    [rktp_op_version] is not kept. *)
Definition rd_kafka_toppar_op_version_bump (fuel : nat) (s : q_state) (fetchq : nat)
    (id version : Z) : option q_state :=
  let rko := op_set_version (rd_kafka_op_new id RD_KAFKA_OP_BARRIER) version in
  let* (_, s) := rd_kafka_q_enq fuel s fetchq rko in Some s.

Definition rd_kafka_toppar_version_new_barrier (s : q_state) (rktp : nat)
  : option (Z * q_state) :=
  let* t := qs_rktp s !! rktp in
  let version := i32 (rktp_version t + 1) in
  Some (version, qs_set_rktp s rktp
                   (mk_op_toppar version (rktp_app_offset t) (rktp_stored_offset t))).

(** ** All that can happen to queues

    [OpPop] is what a reader takes, to handle it or to return it. *)
Inductive q_op :=
  | OpInit (i : nat) (serve : option nat)
  | OpEnq (i : nat) (rko : rd_kafka_op)
  | OpReenq (i : nat) (rko : rd_kafka_op)
  | OpYield (i : nat)
  | OpConcat (i src : nat)
  | OpPrepend (i src : nat)
  | OpPurge (i : nat)
  | OpPurgeVersion (i rktp : nat) (version : Z)
  | OpMove (dst src : nat) (cnt : Z)
  | OpFwdSet (src : nat) (dest : option nat) (fwd_app : bool)
  | OpFixOffsets (i : nat) (min_offset base_offset : Z)
  | OpPop (i : nat) (version : Z)
  | OpDisable (i : nat)
  | OpIoEvent (i : nat) (fd : Z)
  | OpCbEvent (i : nat) (event_cb : bool)
  | OpDestroyOwner (i : nat)
  | OpNewBarrier (rktp : nat).

(** The ops taken out, and the state. *)
Definition q_step (fuel : nat) (s : q_state) (o : q_op) : option (list rd_kafka_op * q_state) :=
  match o with
  | OpInit i serve =>
      Some ([], qs_put s i (mk_q None [] 0 0 (rkq_flags rd_kafka_q_init0) None serve))
  | OpEnq i rko => let* (_, s) := rd_kafka_q_enq fuel s i rko in Some ([], s)
  | OpReenq i rko => let* (_, s) := rd_kafka_q_reenq fuel s i rko in Some ([], s)
  | OpYield i => let* s := rd_kafka_q_yield fuel s i in Some ([], s)
  | OpConcat i src => let* (_, s) := rd_kafka_q_concat0 fuel s i src in Some ([], s)
  | OpPrepend i src => let* s := rd_kafka_q_prepend0 fuel s i src in Some ([], s)
  | OpPurge i => let* (_, s) := rd_kafka_q_purge0 fuel s i in Some ([], s)
  | OpPurgeVersion i p version =>
      let* s := rd_kafka_q_purge_toppar_version fuel s i p version in Some ([], s)
  | OpMove dst src cnt => let* (_, s) := rd_kafka_q_move_cnt fuel s dst src cnt in Some ([], s)
  | OpFwdSet src dest fwd_app =>
      let* s := rd_kafka_q_fwd_set0 fuel s src dest fwd_app in Some ([], s)
  | OpFixOffsets i min_offset base_offset =>
      let* s := rd_kafka_q_fix_offsets s i min_offset base_offset in Some ([], s)
  | OpPop i version =>
      let* i := q_resolve fuel s i in
      let* (first, s) := pop_first s i version in
      Some (match first with Some rko => [rko] | None => [] end, s)
  | OpDisable i => let* q := q_get s i in Some ([], qs_put s i (rd_kafka_q_disable0 q))
  | OpIoEvent i fd => let* q := q_get s i in Some ([], qs_put s i (rd_kafka_q_io_event_enable q fd))
  | OpCbEvent i event_cb =>
      let* q := q_get s i in Some ([], qs_put s i (rd_kafka_q_cb_event_enable q event_cb))
  | OpDestroyOwner i => let* s := rd_kafka_q_destroy_owner fuel s i in Some ([], s)
  | OpNewBarrier rktp => let* (_, s) := rd_kafka_toppar_version_new_barrier s rktp in Some ([], s)
  end.
