(* ===== verification/QueueFacts.v ===== *)
(** * Facts about the queues of ops

    Sums over queues, with which counters and conservation are stated; the order of
    priorities; what each operation does to the contents, and the forwards. *)

From stdpp Require Import gmap sorting.
From S2P Require Import Prelude Msgq Queue.

(** ** Sums over ops *)

Fixpoint osum (f : rd_kafka_op -> Z) (l : list rd_kafka_op) : Z :=
  match l with
  | [] => 0
  | o :: l => f o + osum f l
  end.

(** Counts the ops with an address. *)
Definition ind (id : Z) (o : rd_kafka_op) : Z := if rko_id o =? id then 1 else 0.

Lemma osum_app f l1 l2 : osum f (l1 ++ l2) = osum f l1 + osum f l2.
Proof. induction l1; cbn; lia. Qed.

Lemma osum_perm f l1 l2 : l1 ≡ₚ l2 -> osum f l1 = osum f l2.
Proof. induction 1; cbn; lia. Qed.

(** ** Priorities *)

Lemma cmp_prio_neg a b : (rd_kafka_op_cmp_prio a b <? 0) = (rko_prio b <? rko_prio a).
Proof.
  unfold rd_kafka_op_cmp_prio, RD_CMP. rewrite Z.gtb_ltb.
  destruct (Z.ltb_spec (rko_prio b) (rko_prio a)); [done |].
  now destruct (rko_prio a <? rko_prio b).
Qed.

Lemma insert_prio_cons x l o :
  tailq_insert_sorted (x :: l) o
  = if rd_kafka_op_cmp_prio o x <? 0 then o :: x :: l else x :: tailq_insert_sorted l o.
Proof. cbn [TAILQ_INSERT_SORTED insert_sorted_loop]. case_match; [done |]. by destruct l. Qed.

Lemma insert_prio_perm l o : tailq_insert_sorted l o ≡ₚ o :: l.
Proof.
  induction l as [| x l IH]; [done |]. rewrite insert_prio_cons. case_match; [done |].
  rewrite IH. constructor.
Qed.

(** A queue in the order of its priorities. *)
Definition higher (a b : rd_kafka_op) : Prop := rko_prio b <= rko_prio a.
Abbreviation prio_sorted := (StronglySorted higher).

(** The ops of one priority, in their order. *)
Definition of_prio (p : Z) (l : list rd_kafka_op) : list rd_kafka_op :=
  filter (fun o => rko_prio o = p) l.

Lemma of_prio_app p l1 l2 : of_prio p (l1 ++ l2) = of_prio p l1 ++ of_prio p l2.
Proof. apply list.filter_app. Qed.

Lemma of_prio_cons p o l :
  of_prio p (o :: l) = (if rko_prio o =? p then [o] else []) ++ of_prio p l.
Proof.
  unfold of_prio. destruct (Z.eqb_spec (rko_prio o) p).
  - now rewrite filter_cons_True.
  - now rewrite filter_cons_False.
Qed.

Lemma of_prio_nil p l : Forall (fun x => rko_prio x <> p) l -> of_prio p l = [].
Proof. apply filter_none. Qed.

Lemma insert_sorted_sorted l o : prio_sorted l -> prio_sorted (tailq_insert_sorted l o).
Proof.
  induction 1 as [| x l Hs IH Hx]; [repeat constructor |].
  rewrite insert_prio_cons, cmp_prio_neg. destruct (Z.ltb_spec (rko_prio x) (rko_prio o)).
  - constructor; [by constructor |]. constructor; [unfold higher; lia |].
    eapply Forall_impl; [| exact Hx]. unfold higher. intros; lia.
  - constructor; [done |]. rewrite insert_prio_perm. constructor; done.
Qed.

(** Sorted insertion puts an op behind those of its priority. *)
Lemma insert_sorted_fifo l o p :
  prio_sorted l -> of_prio p (tailq_insert_sorted l o) = of_prio p l ++ of_prio p [o].
Proof.
  induction 1 as [| x l Hs IH Hx]; [done |]. rewrite insert_prio_cons, cmp_prio_neg.
  destruct (Z.ltb_spec (rko_prio x) (rko_prio o)) as [Hlt | Hge].
  - rewrite (of_prio_cons p o (x :: l)), (of_prio_cons p o []).
    change (of_prio p []) with (@nil rd_kafka_op).
    destruct (Z.eqb_spec (rko_prio o) p); [| now rewrite !app_nil_r].
    rewrite (of_prio_nil p (x :: l)) by
      (constructor; [lia |]; eapply Forall_impl; [| exact Hx]; unfold higher; cbn; intros; lia).
    done.
  - rewrite of_prio_cons, IH, (of_prio_cons p x l). now rewrite app_assoc.
Qed.

Lemma sorted_snoc l o :
  prio_sorted l -> Forall (fun x => higher x o) l -> prio_sorted (l ++ [o]).
Proof.
  induction 1 as [| x l Hs IH Hx]; intros Hf; cbn; [repeat constructor |].
  apply Forall_cons_iff in Hf as [Hxo Hf]. constructor; [auto |].
  apply Forall_app; auto.
Qed.

(** ** Counters *)

(** The counters agree with the contents, in the width they have. *)
Definition q_counts (q : rd_kafka_q) : Prop :=
  rkq_qlen q = i32 (zlen (rkq_q q)) /\ rkq_qsize q = i64 (osum rko_len (rkq_q q)).

Lemma counts_put_in q q' l :
  q_counts q -> rkq_q q' ≡ₚ l ++ rkq_q q ->
  rkq_qlen q' = i32 (rkq_qlen q + zlen l) ->
  rkq_qsize q' = i64 (rkq_qsize q + osum rko_len l) -> q_counts q'.
Proof.
  intros [Hl Hs] Hp El Es. split.
  - rewrite El, Hl, swrap_add_l by lia. f_equal.
    rewrite (Permutation_length Hp), length_app. lia.
  - rewrite Es, Hs, swrap_add_l by lia. f_equal. rewrite (osum_perm _ _ _ Hp), osum_app. lia.
Qed.

Lemma counts_take_out q q' l :
  q_counts q -> rkq_q q ≡ₚ l ++ rkq_q q' ->
  rkq_qlen q' = i32 (rkq_qlen q - zlen l) ->
  rkq_qsize q' = i64 (rkq_qsize q - osum rko_len l) -> q_counts q'.
Proof.
  intros [Hl Hs] Hp El Es. split.
  - rewrite El, Hl, swrap_sub_l by lia. f_equal.
    rewrite (Permutation_length Hp), length_app. lia.
  - rewrite Es, Hs, swrap_sub_l by lia. f_equal. rewrite (osum_perm _ _ _ Hp), osum_app. lia.
Qed.

Lemma counts_same q q' :
  q_counts q -> rkq_q q' = rkq_q q -> rkq_qlen q' = rkq_qlen q ->
  rkq_qsize q' = rkq_qsize q -> q_counts q'.
Proof. unfold q_counts. now intros [Hl Hs] -> -> ->. Qed.

Lemma counts_empty q : q_counts (rd_kafka_q_reset q).
Proof. done. Qed.

Lemma enq0_perm q o h : rkq_q (rd_kafka_q_enq0 q o h) ≡ₚ o :: rkq_q q.
Proof.
  unfold rd_kafka_q_enq0; cbn. case_match; [now rewrite Permutation_app_comm |].
  destruct h; [done | apply insert_prio_perm].
Qed.

Lemma enq0_counts q o h : q_counts q -> q_counts (rd_kafka_q_enq0 q o h).
Proof.
  intros Hq. eapply (counts_put_in q _ [o]); [done | apply enq0_perm | |];
    cbn; f_equal; lia.
Qed.

Lemma deq0_head q o rest :
  rkq_q q = o :: rest -> rkq_q (rd_kafka_q_deq0 q o) = rest.
Proof. intros E. unfold rd_kafka_q_deq0; cbn. rewrite E; cbn. now rewrite Z.eqb_refl. Qed.

Lemma deq0_counts q o rest :
  rkq_q q = o :: rest -> q_counts q -> q_counts (rd_kafka_q_deq0 q o).
Proof.
  intros E Hq. eapply (counts_take_out q _ [o]); [done | | |].
  - now rewrite (deq0_head _ _ _ E), E.
  - done.
  - cbn; f_equal; lia.
Qed.

Lemma concat_prio_perm l src l' rest :
  concat_prio_loop l src = (l', rest) -> l' ++ rest ≡ₚ src ++ l.
Proof.
  revert l. induction src as [| o src IH]; cbn; intros l E.
  - injection E as <- <-. now rewrite app_nil_r.
  - case_match; [| injection E as <- <-; apply Permutation_app_comm].
    rewrite (IH _ E), insert_prio_perm. symmetry. apply Permutation_middle.
Qed.


(** ** What the loops take and leave *)

Lemma shave_spec l p v tmp cnt size tmp' rest cnt' size' :
  shave_loop l p v tmp cnt size = (tmp', rest, cnt', size') ->
  exists taken, l = taken ++ rest /\ tmp' = tmp ++ taken /\
    (forall a, i32 (a - cnt') = i32 (a - (cnt + zlen taken))) /\
    (forall a, i64 (a - size') = i64 (a - (size + osum rko_len taken))).
Proof.
  revert tmp cnt size. induction l as [| o l IH]; cbn [shave_loop]; intros tmp cnt size E.
  - injection E as <- <- <- <-. exists [].
    conj; [now rewrite app_nil_r | |]; intros a; f_equal; cbn [osum length]; lia.
  - case_match.
    + apply IH in E as (taken & -> & -> & Hc & Hs). exists (o :: taken). conj.
      * now rewrite <- app_assoc.
      * intros a. rewrite Hc. cbn [length osum].
        replace (a - (i32 (cnt + 1) + zlen taken)) with (a - zlen taken - i32 (cnt + 1)) by lia.
        rewrite swrap_sub_r by lia. f_equal. lia.
      * intros a. rewrite Hs. cbn [osum].
        replace (a - (i64 (size + rko_len o) + osum rko_len taken))
          with (a - osum rko_len taken - i64 (size + rko_len o)) by lia.
        rewrite swrap_sub_r by lia. f_equal. lia.
    + injection E as <- <- <- <-. exists [].
      conj; [now rewrite app_nil_r | |]; intros a; f_equal; cbn [osum length]; lia.
Qed.

(** The relation of an op to the same op with another offset. *)
Definition same_op (a b : rd_kafka_op) : Prop :=
  rko_id a = rko_id b /\ rko_len a = rko_len b /\ rko_prio a = rko_prio b.

(** Sums that do not depend on the rest of an op. *)
Class OpSum (f : rd_kafka_op -> Z) := opsum_same : forall a b, same_op a b -> f a = f b.

#[export] Instance opsum_ind id : OpSum (ind id).
Proof. intros a b (Hid & _). unfold ind. now rewrite Hid. Qed.
#[export] Instance opsum_len : OpSum rko_len.
Proof. now intros a b (_ & Hl & _). Qed.
#[export] Instance opsum_one : OpSum (fun _ => 1).
Proof. done. Qed.

Lemma osum_one l : osum (fun _ => 1) l = zlen l.
Proof. induction l; cbn [osum length]; lia. Qed.

Lemma fix_offsets_spec l mn base stay gone al az :
  fix_offsets_loop l mn base = (stay, gone, al, az) ->
  (forall f, OpSum f -> osum f l = osum f stay + osum f gone) /\
  al = i32 (zlen gone) /\ az = i64 (osum rko_len gone).
Proof.
  revert stay gone al az. induction l as [| o l IH]; cbn [fix_offsets_loop]; intros stay gone al az E.
  - injection E as <- <- <- <-. split; [done | now split].
  - destruct (fix_offsets_loop l mn base) as [[[st go] al'] az'] eqn:El.
    destruct (IH _ _ _ _ eq_refl) as (Hf & -> & ->).
    assert (same_op o (op_set_u o (fetch_set_offset (rko_u o)
                                     (i64 (fetch_offset (rko_u o) + base))))) as Hso
      by (repeat split).
    destruct (negb _) in E; [| destruct (_ && _) in E]; injection E as <- <- <- <-.
    + conj. intros f Hsum. cbn. rewrite (Hf f Hsum). lia.
    + conj.
      * intros f Hsum. cbn. rewrite (Hf f Hsum), (Hsum _ _ Hso). lia.
      * rewrite swrap_add_l by lia. f_equal. cbn [length]. lia.
      * rewrite swrap_add_l by lia. f_equal. cbn. lia.
    + conj. intros f Hsum. cbn. rewrite (Hf f Hsum), (Hsum _ _ Hso). lia.
Qed.

Lemma move_cnt_spec n dst src m dst' src' m' :
  move_cnt_loop n dst src m = (dst', src', m') ->
  (forall f, osum f (rkq_q dst') + osum f (rkq_q src') = osum f (rkq_q dst) + osum f (rkq_q src)) /\
  (q_counts dst -> q_counts dst') /\ (q_counts src -> q_counts src') /\
  rkq_fwdq dst' = rkq_fwdq dst /\ rkq_fwdq src' = rkq_fwdq src.
Proof.
  revert dst src m. induction n as [| n IH]; cbn; intros dst src m E.
  - injection E as <- <- <-. tauto.
  - destruct (rkq_q src) as [| o rest] eqn:El.
    + injection E as <- <- <-. rewrite El. tauto.
    + set (l := if rko_prio o =? 0 then _ else _) in E.
      assert (l ≡ₚ o :: rkq_q dst) as Hl.
      { unfold l. case_match; [apply Permutation_app_comm | apply insert_prio_perm]. }
      apply IH in E as (Hf & Hd & Hs & Ed & Es). conj.
      * intros f. rewrite Hf. cbn. rewrite (osum_perm _ _ _ Hl). cbn. lia.
      * intros Hc. apply Hd. eapply (counts_put_in dst _ [o]); [done | done | |]; cbn; f_equal; lia.
      * intros Hc. apply Hs. eapply (counts_take_out src _ [o]); [done | now rewrite El | |];
          cbn; f_equal; lia.
Qed.

(** ** Forwards *)

(** Following [n] forwards from [i] ends at [d]. *)
Inductive leads (s : q_state) : nat -> nat -> nat -> Prop :=
  | leads_here i q : q_get s i = Some q -> rkq_fwdq q = None -> leads s i 0 i
  | leads_fwd i q j n d :
      q_get s i = Some q -> rkq_fwdq q = Some j -> leads s j n d -> leads s i (S n) d.

(** Only the forwards of the queues are the same. *)
Definition same_fwd (s s' : q_state) : Prop :=
  forall i, rkq_fwdq <$> q_get s i = rkq_fwdq <$> q_get s' i.

#[export] Instance same_fwd_pre : PreOrder same_fwd.
Proof. split; [now intros s i | intros s t u H1 H2 i]. now rewrite H1, H2. Qed.

Lemma same_fwd_sym s s' : same_fwd s s' -> same_fwd s' s.
Proof. now intros H i. Qed.

Lemma same_fwd_get s s' i q :
  same_fwd s s' -> q_get s i = Some q ->
  exists q', q_get s' i = Some q' /\ rkq_fwdq q' = rkq_fwdq q.
Proof.
  intros H E. specialize (H i). rewrite E in H. cbn in H.
  destruct (q_get s' i) as [q' |] eqn:E'; [| done]. exists q'. split; [done |].
  cbn in H. congruence.
Qed.

Lemma leads_same s s' i n d : same_fwd s s' -> leads s i n d -> leads s' i n d.
Proof.
  intros Hs. induction 1 as [i q E Ef | i q j n d E Ef Hl IH];
    destruct (same_fwd_get _ _ _ _ Hs E) as (q' & E' & Ef'); rewrite Ef in Ef'.
  - by econstructor.
  - by eapply leads_fwd.
Qed.

Lemma leads_end s i n d :
  leads s i n d -> exists q, q_get s d = Some q /\ rkq_fwdq q = None.
Proof. induction 1; eauto. Qed.

Lemma leads_resolve fuel s i n d :
  leads s i n d -> (n < fuel)%nat -> q_resolve fuel s i = Some d.
Proof.
  intros Hl. revert fuel. induction Hl as [i q E Ef | i q j n d E Ef Hl IH];
    intros [| fuel] Hn; try lia; cbn; rewrite E, Ef; [done |]. apply IH. lia.
Qed.

Lemma resolve_leads fuel s i d : q_resolve fuel s i = Some d -> exists n, leads s i n d.
Proof.
  revert i. induction fuel as [| fuel IH]; cbn; intros i E; [done |].
  destruct (q_get s i) as [q |] eqn:Eq; [| done]. destruct (rkq_fwdq q) as [j |] eqn:Ef.
  - apply IH in E as [n Hl]. exists (S n). by eapply leads_fwd.
  - injection E as <-. exists 0%nat. by econstructor.
Qed.

Lemma leads_det s i n d n' d' : leads s i n d -> leads s i n' d' -> n = n' /\ d = d'.
Proof.
  intros Hl. revert n' d'. induction Hl as [i q E Ef | i q j n d E Ef Hl IH]; intros n' d' Hl';
    inversion Hl'; subst; simplify_eq; [done |].
  match goal with H : leads s _ _ d' |- _ => destruct (IH _ _ H) end. lia.
Qed.

(** ** Conservation *)

Definition qsum (f : rd_kafka_op -> Z) (m : gmap nat rd_kafka_q) : Z :=
  map_fold (fun _ q n => osum f (rkq_q q) + n) 0 m.

(** A sum over all queues and the ops destroyed. *)
Definition held (f : rd_kafka_op -> Z) (s : q_state) : Z :=
  qsum f (qs_q s) + osum f (qs_destroyed s).

Lemma qsum_insert f m i q :
  m !! i = None -> qsum f (<[i := q]> m) = osum f (rkq_q q) + qsum f m.
Proof. intros Hm. unfold qsum. rewrite map_fold_insert_L; [done | intros; lia | done]. Qed.

Lemma qsum_delete f m i q :
  m !! i = Some q -> qsum f m = osum f (rkq_q q) + qsum f (delete i m).
Proof. intros Hm. unfold qsum. rewrite (map_fold_delete_L _ _ i q); [done | intros; lia | done]. Qed.

Lemma held_put f s i q q' :
  q_get s i = Some q ->
  held f (qs_put s i q') = held f s - osum f (rkq_q q) + osum f (rkq_q q').
Proof.
  intros E. unfold held, qs_put; cbn. rewrite (qsum_delete f (qs_q s) i q) by done.
  rewrite <- insert_delete_eq, qsum_insert by apply lookup_delete_eq. lia.
Qed.

Lemma held_new f s i q :
  q_get s i = None -> held f (qs_put s i q) = held f s + osum f (rkq_q q).
Proof. intros E. unfold held, qs_put; cbn. rewrite qsum_insert by done. lia. Qed.

Lemma held_drop f s i q :
  q_get s i = Some q -> held f (qs_drop s i) = held f s - osum f (rkq_q q).
Proof. intros E. unfold held, qs_drop; cbn. rewrite (qsum_delete f (qs_q s) i q) by done. lia. Qed.

Lemma held_destroy f s o : held f (rd_kafka_op_destroy s o) = held f s + f o.
Proof. unfold held; cbn. rewrite osum_app. cbn. lia. Qed.

Lemma destroy_ops_eq s l :
  destroy_ops s l = mk_qs (qs_q s) (qs_rktp s) (rd_kafka_yield_thread s)
                      (qs_destroyed s ++ l) (qs_io_events s).
Proof.
  unfold destroy_ops. revert s. induction l as [| o l IH]; intros s; cbn.
  - rewrite app_nil_r. now destruct s.
  - rewrite IH. cbn. now rewrite <- app_assoc.
Qed.

Lemma held_destroy_ops f s l : held f (destroy_ops s l) = held f s + osum f l.
Proof. rewrite destroy_ops_eq. unfold held; cbn. rewrite osum_app. lia. Qed.

Lemma get_put s i q j : q_get (qs_put s i q) j = if decide (i = j) then Some q else q_get s j.
Proof. unfold q_get, qs_put; cbn. apply lookup_insert. Qed.

Lemma get_put_eq s i q : q_get (qs_put s i q) i = Some q.
Proof. rewrite get_put. now destruct (decide (i = i)). Qed.

Lemma get_put_ne s i j q : i <> j -> q_get (qs_put s i q) j = q_get s j.
Proof. intros. rewrite get_put. now destruct (decide (i = j)). Qed.

Definition counters (s : q_state) : Prop := map_Forall (fun _ q => q_counts q) (qs_q s).

Lemma counters_get s i q : counters s -> q_get s i = Some q -> q_counts q.
Proof. intros H. apply H. Qed.

Lemma counters_put s i q : counters s -> q_counts q -> counters (qs_put s i q).
Proof. intros Hs Hq. now apply map_Forall_insert_2. Qed.

(** From [s] to [s'] ops named [new] have come in and ops named [taken] have gone out;
    the counters stay right and the forwards are the same. *)
Record keeps (s : q_state) (new : list rd_kafka_op) (s' : q_state)
    (taken : list rd_kafka_op) : Prop := {
  keeps_fwd : same_fwd s s';
  keeps_counts : counters s -> counters s';
  keeps_held : forall id,
    held (ind id) s' + osum (ind id) taken = held (ind id) s + osum (ind id) new }.

Lemma keeps_refl s : keeps s [] s [].
Proof. split; [done | done | done]. Qed.

Lemma keeps_trans s n1 s1 t1 n2 s2 t2 :
  keeps s n1 s1 t1 -> keeps s1 n2 s2 t2 -> keeps s (n1 ++ n2) s2 (t1 ++ t2).
Proof.
  intros [F1 C1 H1] [F2 C2 H2]. split; [by etrans | auto |].
  intros id. specialize (H1 id). specialize (H2 id). rewrite !osum_app. lia.
Qed.

Lemma keeps_trans0 s s1 new s2 t :
  keeps s [] s1 [] -> keeps s1 new s2 t -> keeps s new s2 t.
Proof. intros H1 H2. apply (keeps_trans _ _ _ _ _ _ _ H1 H2). Qed.

(** A queue that changes. *)
Lemma keeps_put s i q q' new taken :
  q_get s i = Some q -> rkq_fwdq q' = rkq_fwdq q -> (q_counts q -> q_counts q') ->
  (forall id, osum (ind id) (rkq_q q') + osum (ind id) taken
              = osum (ind id) (rkq_q q) + osum (ind id) new) ->
  keeps s new (qs_put s i q') taken.
Proof.
  intros E Ef Hc Hh. split.
  - intros j. rewrite get_put. destruct (decide (i = j)) as [<- |]; [| done].
    rewrite E. cbn. now rewrite Ef.
  - intros Hs. apply counters_put; [done |]. apply Hc. by eapply counters_get.
  - intros id. rewrite (held_put _ _ _ _ _ E). specialize (Hh id). lia.
Qed.

(** Nothing of the queues and of the ops destroyed changes. *)
Lemma keeps_queues s s' :
  qs_q s' = qs_q s -> qs_destroyed s' = qs_destroyed s -> keeps s [] s' [].
Proof.
  intros Eq Ed. split.
  - intros i. unfold q_get. now rewrite Eq.
  - unfold counters. now rewrite Eq.
  - intros id. unfold held. now rewrite Eq, Ed.
Qed.

Lemma keeps_destroy s l : keeps s l (destroy_ops s l) [].
Proof.
  split.
  - intros i. now rewrite destroy_ops_eq.
  - now rewrite destroy_ops_eq.
  - intros id. rewrite held_destroy_ops. cbn. lia.
Qed.

(** Taking ops out of a queue to destroy them. *)
Lemma keeps_taken_destroyed s s1 l :
  keeps s [] s1 l -> keeps s [] (destroy_ops s1 l) [].
Proof.
  intros [F C H]. destruct (keeps_destroy s1 l) as [F' C' H'].
  split; [by etrans | auto |]. intros id. specialize (H id). specialize (H' id). cbn in *. lia.
Qed.

(** [wf]: counters are right and forwards end. *)
Record wf (s : q_state) : Prop := {
  wf_leads : forall i q, q_get s i = Some q -> exists n d, leads s i n d;
  wf_counters : counters s }.

Lemma keeps_wf s new s' taken : keeps s new s' taken -> wf s -> wf s'.
Proof.
  intros [F C _] [Hl Hc]. split; [| auto]. intros i q E.
  destruct (same_fwd_get _ _ _ _ (same_fwd_sym _ _ F) E) as (q0 & E0 & _).
  destruct (Hl _ _ E0) as (n & d & H). exists n, d. by eapply leads_same.
Qed.

(** ** The operations *)

Lemma io_event_if_spec c s i q s1 q1 :
  q_io_event_if c s i q = (s1, q1) ->
  q1 = q_set_qio q (rkq_qio q1) /\
  (s1 = s \/ s1 = qs_signal s i) /\ (c = false -> s1 = s /\ q1 = q).
Proof.
  unfold q_io_event_if, rd_kafka_q_io_event. intros E.
  destruct c; [| injection E as <- <-; destruct q; auto].
  destruct (rkq_qio q) as [[cb sent] |] eqn:Eio; cbn in E.
  - destruct cb, sent; cbn in E; injection E as <- <-; destruct q; cbn in *; subst;
      (split; [done | split; [auto | done]]).
  - injection E as <- <-; destruct q; cbn in *; subst. (split; [done | split; [auto | done]]).
Qed.

(** The wake-up does not touch any queue of the state. *)
Lemma io_event_if_queues c s i q s1 q1 :
  q_io_event_if c s i q = (s1, q1) ->
  qs_q s1 = qs_q s /\ qs_destroyed s1 = qs_destroyed s /\
  rkq_q q1 = rkq_q q /\ rkq_qlen q1 = rkq_qlen q /\ rkq_qsize q1 = rkq_qsize q /\
  rkq_fwdq q1 = rkq_fwdq q.
Proof.
  intros E. apply io_event_if_spec in E as (-> & Hs & _). now destruct Hs as [-> | ->].
Qed.

Lemma keeps_io c s i q s1 q1 :
  q_io_event_if c s i q = (s1, q1) -> keeps s [] s1 [].
Proof. intros E. apply io_event_if_queues in E as (? & ? & _). now apply keeps_queues. Qed.

Lemma keeps_id s a b s' t : rko_id a = rko_id b -> keeps s [a] s' t -> keeps s [b] s' t.
Proof.
  intros E [F C H]. split; [done | done |]. intros id. rewrite H. cbn. unfold ind. now rewrite E.
Qed.

Lemma mark_served_fields q :
  rkq_q (rd_kafka_q_mark_served q) = rkq_q q /\
  rkq_qlen (rd_kafka_q_mark_served q) = rkq_qlen q /\
  rkq_qsize (rd_kafka_q_mark_served q) = rkq_qsize q /\
  rkq_fwdq (rd_kafka_q_mark_served q) = rkq_fwdq q /\
  rkq_flags (rd_kafka_q_mark_served q) = rkq_flags q.
Proof. unfold rd_kafka_q_mark_served. now destruct (rkq_qio q). Qed.

Lemma mark_served_counts q : q_counts q -> q_counts (rd_kafka_q_mark_served q).
Proof.
  intros H. destruct (mark_served_fields q) as (? & ? & ? & _). by eapply counts_same.
Qed.

(** A change that leaves contents, counters and forward alone. *)
Lemma keeps_put_same s i q q' :
  q_get s i = Some q -> rkq_fwdq q' = rkq_fwdq q -> rkq_q q' = rkq_q q ->
  rkq_qlen q' = rkq_qlen q -> rkq_qsize q' = rkq_qsize q -> keeps s [] (qs_put s i q') [].
Proof.
  intros E Ef Eq El Es. eapply keeps_put; [done | done | |].
  - intros H. by eapply counts_same.
  - intros id. now rewrite Eq.
Qed.

(** *** Enqueueing *)

(** The op as it is put on the queue. *)
Definition op_to_put (orig : rd_kafka_q) (rko : rd_kafka_op) : rd_kafka_op :=
  match rko_serve rko, rkq_serve orig with
  | None, Some serve => op_set_serve rko (Some serve)
  | _, _ => rko
  end.

Lemma op_to_put_same orig rko : same_op (op_to_put orig rko) rko.
Proof. unfold op_to_put. now destruct (rko_serve rko), (rkq_serve orig). Qed.

(** The state with an op put on a queue. *)
Definition enq_here (s : q_state) (i : nat) (q orig : rd_kafka_q) (rko : rd_kafka_op)
    (at_head : bool) : q_state :=
  let q := rd_kafka_q_enq0 q (op_to_put orig rko) at_head in
  let '(s, q) := q_io_event_if (rkq_qlen q =? 1) s i q in qs_put s i q.

Lemma enq_here_keeps s i q orig rko h :
  q_get s i = Some q -> keeps s [rko] (enq_here s i q orig rko h) [].
Proof.
  intros E. unfold enq_here.
  destruct (q_io_event_if _ _ _ _) as [s1 q1] eqn:Eio.
  eapply keeps_trans0; [by eapply keeps_io |].
  apply io_event_if_queues in Eio as (Eq & _ & El & En & Es & Ef).
  eapply (keeps_id _ (op_to_put orig rko)); [apply op_to_put_same |].
  eapply keeps_put; [unfold q_get; by rewrite Eq | now rewrite Ef | |].
  - intros Hc. eapply counts_same; [apply enq0_counts, Hc | done | done | done].
  - intros id. rewrite El, (osum_perm _ _ _ (enq0_perm _ _ _)). cbn. lia.
Qed.

(** [rd_kafka_q_enq1] along the forwards, when there is no queue for a reply. *)
Lemma enq1_noreply s i n d orig oq rko h fuel :
  leads s i n d -> q_get s orig = Some oq -> rko_replyq rko = None -> (n < fuel)%nat ->
  exists r s', rd_kafka_q_enq1 fuel s i rko orig h = Some (r, s') /\ keeps s [rko] s' [].
Proof.
  intros Hl Ho Hr. revert fuel. induction Hl as [i q E Ef | i q j n d E Ef Hl IH];
    intros [| fuel] Hn; try lia; cbn [rd_kafka_q_enq1]; rewrite E; destruct (negb _).
  - unfold rd_kafka_op_reply. rewrite Hr. do 2 eexists. split; [done |].
    apply (keeps_destroy s [rko]).
  - rewrite Ef, Ho. fold (op_to_put oq rko).
    pose proof (enq_here_keeps s i q oq rko h E) as Hk. unfold enq_here in Hk.
    destruct (q_io_event_if _ _ _ _) as [s1 q1]. eauto.
  - unfold rd_kafka_op_reply. rewrite Hr. do 2 eexists. split; [done |].
    apply (keeps_destroy s [rko]).
  - rewrite Ef. destruct (IH fuel) as (r & s' & -> & Hk); [lia |]. eauto.
Qed.

(** The op as it is sent back. *)
Definition op_replied (rko : rd_kafka_op) (err : Z) : rd_kafka_op :=
  let rko := op_set_type rko (Z.lor (rko_type rko)
               match rko_op_cb rko with
               | Some _ => RD_KAFKA_OP_CB
               | None => RD_KAFKA_OP_REPLY
               end) in
  op_set_replyq (op_set_version (op_set_err rko err) (rko_replyq_version rko)) None
    (rko_replyq_version rko).

Lemma op_reply_some enq s rko err k :
  rko_replyq rko = Some k -> rd_kafka_op_reply enq s rko err = enq s k (op_replied rko err).
Proof. intros E. unfold rd_kafka_op_reply. now rewrite E. Qed.

Lemma op_reply_none enq s rko err :
  rko_replyq rko = None -> rd_kafka_op_reply enq s rko err = Some (0, rd_kafka_op_destroy s rko).
Proof. intros E. unfold rd_kafka_op_reply. now rewrite E. Qed.

Lemma enq1_keeps s i n d orig oq rko h m fuel :
  leads s i n d -> q_get s orig = Some oq ->
  (forall j, rko_replyq rko = Some j -> exists e, leads s j m e) -> (n + m + 1 < fuel)%nat ->
  exists r s', rd_kafka_q_enq1 fuel s i rko orig h = Some (r, s') /\ keeps s [rko] s' [].
Proof.
  intros Hl Ho Hr. revert fuel. induction Hl as [i q E Ef | i q j n d E Ef Hl IH];
    intros fuel Hn; (destruct fuel as [| fuel]; [lia |]); cbn [rd_kafka_q_enq1]; rewrite E;
    destruct (negb _).
  1, 3: destruct (rko_replyq rko) as [k |] eqn:Ek;
    [| rewrite op_reply_none by done; do 2 eexists; split; [done |];
       apply (keeps_destroy s [rko])];
    rewrite (op_reply_some _ _ _ _ k) by done; destruct (Hr k eq_refl) as [e He];
    assert (exists kq, q_get s k = Some kq) as [kq Hkq] by (destruct He; eauto);
    destruct (enq1_noreply s k m e k kq (op_replied rko RD_KAFKA_RESP_ERR__DESTROY) false fuel)
      as (r & s' & H & Hk); [done | done | done | lia |];
    rewrite H; do 2 eexists;
    (split; [done | by eapply (keeps_id _ (op_replied rko RD_KAFKA_RESP_ERR__DESTROY))]).
  - rewrite Ef, Ho. fold (op_to_put oq rko).
    pose proof (enq_here_keeps s i q oq rko h E) as Hk. unfold enq_here in Hk.
    destruct (q_io_event_if _ _ _ _) as [s1 q1]. eauto.
  - rewrite Ef. destruct (IH fuel) as (r & s' & -> & Hk); [lia |]. eauto.
Qed.

(** *** Moving ops between queues *)

Lemma keeps_cancel s l s' : keeps s l s' l -> keeps s [] s' [].
Proof. intros [F C H]. split; [done | done |]. intros id. specialize (H id). cbn. lia. Qed.

(** All ops of one queue go to another one. *)
Lemma keeps_merge s s1 i src q srcq q' :
  counters s -> qs_q s1 = qs_q s -> qs_destroyed s1 = qs_destroyed s ->
  q_get s i = Some q -> q_get s src = Some srcq -> i <> src ->
  rkq_fwdq q' = rkq_fwdq q -> rkq_q q' ≡ₚ rkq_q srcq ++ rkq_q q ->
  rkq_qlen q' = i32 (rkq_qlen q + rkq_qlen srcq) ->
  rkq_qsize q' = i64 (rkq_qsize q + rkq_qsize srcq) ->
  keeps s [] (qs_put (qs_put s1 i q') src
                (rd_kafka_q_reset (rd_kafka_q_mark_served srcq))) [].
Proof.
  intros Hs Eq Ed E Esrc Hne Ef Ep El Es.
  eapply keeps_trans0; [by eapply keeps_queues |].
  apply (keeps_cancel _ (rkq_q srcq)).
  destruct (counters_get _ _ _ Hs Esrc) as [Hn Hz].
  assert (q_get s1 i = Some q) as E1 by (unfold q_get; by rewrite Eq).
  assert (keeps s1 (rkq_q srcq) (qs_put s1 i q') []) as H1.
  { eapply keeps_put; [done | done | |].
    - intros Hc. eapply counts_put_in; [done | done | |].
      + now rewrite El, Hn, swrap_add_r by lia.
      + now rewrite Es, Hz, swrap_add_r by lia.
    - intros id. rewrite (osum_perm _ _ _ Ep), osum_app. cbn. lia. }
  rewrite <- (app_nil_r (rkq_q srcq)) at 1. rewrite <- (app_nil_l (rkq_q srcq)) at 2.
  eapply keeps_trans; [exact H1 |].
  eapply keeps_put; [rewrite get_put_ne by done; unfold q_get; by rewrite Eq | | done |].
  - apply (mark_served_fields srcq).
  - intros id. cbn. lia.
Qed.

Lemma concat0_keeps s i n d src m e fuel :
  wf s -> leads s i n d -> leads s src m e -> d <> e -> (n + m < fuel)%nat ->
  exists r s', rd_kafka_q_concat0 fuel s i src = Some (r, s') /\ keeps s [] s' [].
Proof.
  intros Hwf Hl. revert src m fuel. induction Hl as [i q E Ef | i q j n d E Ef Hl IH];
    intros src m fuel Hsrc Hne Hn; (destruct fuel as [| fuel]; [lia |]);
    cbn [rd_kafka_q_concat0]; rewrite (leads_resolve _ _ _ _ _ Hsrc) by lia;
    destruct (leads_end _ _ _ _ Hsrc) as (srcq & Es & Esf); rewrite Es;
    (case_match; [do 2 eexists; split; [done | apply keeps_refl] |]); rewrite E, Ef.
  - apply Nat.eqb_neq in Hne as Hne'. rewrite Hne'. cbn [negb rd_assert].
    destruct (negb _); [do 2 eexists; split; [done | apply keeps_refl] |].
    destruct (concat_prio_loop _ _) as [l rest] eqn:Ec.
    destruct (q_io_event_if _ _ _ _) as [s1 q1] eqn:Eio.
    do 2 eexists. split; [done |].
    apply io_event_if_queues in Eio as (Eq & Ed & El & En & Ez & Ef1).
    eapply keeps_merge; [apply Hwf | done.. | | | |]; cbn.
    + now rewrite Ef1.
    + rewrite El. cbn. by eapply concat_prio_perm.
    + now rewrite En.
    + now rewrite Ez.
  - apply (IH e 0%nat fuel); [by econstructor | done | lia].
Qed.

Lemma prepend0_keeps s i n d src m e fuel :
  wf s -> leads s i n d -> leads s src m e -> d <> e -> (n + m < fuel)%nat ->
  exists s', rd_kafka_q_prepend0 fuel s i src = Some s' /\ keeps s [] s' [].
Proof.
  intros Hwf. revert i n src m. induction fuel as [| fuel IH]; intros i n src m Hi Hsrc Hne Hn;
    [lia |]. cbn [rd_kafka_q_prepend0].
  destruct Hi as [i q E Ef | i q j n d E Ef Hi],
    Hsrc as [src srcq Es Esf | src srcq j' m e Es Esf Hsrc];
    rewrite E, Es, Ef, Esf; cbn [default from_option id].
  - apply Nat.eqb_neq in Hne as Hne'. rewrite Hne'. cbn [negb rd_assert].
    destruct (q_io_event_if _ _ _ _) as [s1 q1] eqn:Eio. eexists. split; [done |].
    apply io_event_if_queues in Eio as (Eq & Ed & El & En & Ez & Ef1).
    eapply keeps_merge; [apply Hwf | done.. | | | |]; cbn.
    + now rewrite Ef1.
    + now rewrite El.
    + now rewrite En.
    + now rewrite Ez.
  - apply (IH i 0%nat j' m); [by econstructor | done | done | lia].
  - apply (IH j n src 0%nat); [done | by econstructor | done | lia].
  - apply (IH j n j' m); [done | done | done | lia].
Qed.

(** *** Purging, and other changes of one queue *)

Lemma at_dest_leads {A} fuel s i n d q (f : nat -> rd_kafka_q -> option A) :
  leads s i n d -> q_get s d = Some q -> (n < fuel)%nat -> at_dest fuel s i f = f d q.
Proof. intros Hl E Hn. unfold at_dest. now rewrite (leads_resolve _ _ _ _ _ Hl Hn), E. Qed.

Lemma purge0_keeps s i n d fuel :
  leads s i n d -> (n < fuel)%nat ->
  exists r s', rd_kafka_q_purge0 fuel s i = Some (r, s') /\ keeps s [] s' [].
Proof.
  intros Hl Hn. destruct (leads_end _ _ _ _ Hl) as (q & E & _).
  unfold rd_kafka_q_purge0. rewrite (at_dest_leads _ _ _ _ _ _ _ Hl E Hn).
  do 2 eexists. split; [done |]. apply keeps_taken_destroyed.
  eapply keeps_put; [done | | done |]; [apply (mark_served_fields q) |].
  intros id. cbn. lia.
Qed.

Lemma purge_version_keeps s i n d p v fuel :
  leads s i n d -> (n < fuel)%nat ->
  exists s', rd_kafka_q_purge_toppar_version fuel s i p v = Some s' /\ keeps s [] s' [].
Proof.
  intros Hl Hn. destruct (leads_end _ _ _ _ Hl) as (q & E & _).
  unfold rd_kafka_q_purge_toppar_version. rewrite (at_dest_leads _ _ _ _ _ _ _ Hl E Hn).
  destruct (shave_loop _ _ _ _ _ _) as [[[tmp rest] cnt] size] eqn:Es.
  eexists. split; [done |].
  apply shave_spec in Es as (taken & El & -> & Hc & Hz). cbn [app].
  destruct (mark_served_fields q) as (Eq & En & Ez & Ef & _).
  apply keeps_taken_destroyed. eapply keeps_put; [done | done | |].
  - intros Hq. eapply (counts_take_out q _ taken); cbn; [done | now rewrite El | |].
    + rewrite En, Hc. f_equal; lia.
    + rewrite Ez, Hz. f_equal; lia.
  - intros id. rewrite El, osum_app. cbn. lia.
Qed.

Lemma yield_keeps s i n d fuel :
  leads s i n d -> (n < fuel)%nat ->
  exists s', rd_kafka_q_yield fuel s i = Some s' /\ keeps s [] s' [].
Proof.
  intros Hl. revert fuel. induction Hl as [i q E Ef | i q j n d E Ef Hl IH];
    intros [| fuel] Hn; try lia; cbn [rd_kafka_q_yield]; rewrite E;
    (destruct (negb _); [eexists; split; [done | apply keeps_refl] |]); rewrite Ef.
  - destruct (q_io_event_if _ _ _ _) as [s1 q1] eqn:Eio. eexists. split; [done |].
    apply io_event_if_queues in Eio as (Eq & Ed & El & En & Ez & Ef1).
    eapply keeps_trans0; [by eapply keeps_queues |].
    apply (keeps_put_same _ _ q); [unfold q_get; by rewrite Eq | done..].
  - apply IH. lia.
Qed.

Lemma fix_offsets_keeps s i q mn base :
  q_get s i = Some q -> rkq_fwdq q = None ->
  exists s', rd_kafka_q_fix_offsets s i mn base = Some s' /\ keeps s [] s' [].
Proof.
  intros E Ef. unfold rd_kafka_q_fix_offsets. rewrite E, bool_decide_true by done.
  cbn [rd_assert].
  destruct (fix_offsets_loop _ _ _) as [[[stay gone] al] az] eqn:El.
  eexists. split; [done |]. apply fix_offsets_spec in El as (Hf & -> & ->).
  apply keeps_taken_destroyed. eapply keeps_put; [done | done | |].
  - intros [Hn Hz]. split; cbn.
    + rewrite Hn, swrap_sub_r, swrap_sub_l by lia. f_equal.
      pose proof (Hf _ opsum_one) as H1. rewrite !osum_one in H1. lia.
    + rewrite Hz, swrap_sub_r, swrap_sub_l by lia. f_equal.
      pose proof (Hf _ opsum_len). lia.
  - intros id. cbn. rewrite (Hf _ (opsum_ind id)). lia.
Qed.

(** *** Taking an op *)

Lemma filter_keeps l s i q v :
  q_get s i = Some q -> rkq_q q = l ->
  exists r s', filter_loop l s i v = Some (r, s') /\ keeps s [] s' [] /\
    exists q', q_get s' i = Some q' /\ rkq_fwdq q' = rkq_fwdq q /\
      qs_rktp s' = qs_rktp s /\
      match r with
      | Some o => (exists rest, rkq_q q' = o :: rest) /\
                  rd_kafka_op_version_outdated s' o v = false
      | None => rkq_q q' = []
      end.
Proof.
  revert s q. induction l as [| o l IH]; intros s q E El; cbn [filter_loop].
  - do 2 eexists. split; [done |]. split; [apply keeps_refl | eauto].
  - destruct (rd_kafka_op_version_outdated s o v) eqn:Ev.
    + rewrite E.
      destruct (IH (rd_kafka_op_destroy (qs_put s i (rd_kafka_q_deq0 q o)) o)
                  (rd_kafka_q_deq0 q o)) as (r & s' & Hr & Hk & q' & Hq' & Ef & Et & Hm).
      * apply get_put_eq.
      * by apply deq0_head.
      * do 2 eexists. split; [done |]. split; [| by exists q'].
        eapply keeps_trans0; [| exact Hk].
        apply (keeps_taken_destroyed s (qs_put s i (rd_kafka_q_deq0 q o)) [o]).
        eapply keeps_put; [done | done | by eapply deq0_counts |].
        intros id. rewrite (deq0_head _ _ _ El), El. cbn. lia.
    + do 2 eexists. split; [done |]. split; [apply keeps_refl |].
      exists q. rewrite El. eauto 8.
Qed.

Lemma pop_first_keeps s i q v :
  q_get s i = Some q ->
  exists r s', pop_first s i v = Some (r, s') /\
    keeps s [] s' (match r with Some o => [o] | None => [] end) /\
    match r with Some o => rd_kafka_op_version_outdated s' o v = false | None => True end.
Proof.
  intros E. unfold pop_first. rewrite E.
  destruct (filter_keeps (rkq_q q) s i q v E eq_refl)
    as (r & s' & -> & Hk & q' & E' & _ & Et & Hm). rewrite E'.
  destruct (mark_served_fields q') as (Eq & En & Ez & Ef & _).
  destruct r as [o |]; do 2 eexists; (split; [done |]).
  - destruct Hm as [[rest El] Hv]. split; [| by rewrite <- Hv].
    apply (keeps_trans _ _ _ _ _ _ _ Hk). rewrite <- Eq in El.
    eapply keeps_put; [done | done | |].
    + intros Hc. eapply deq0_counts; [done | by apply mark_served_counts].
    + intros id. rewrite (deq0_head _ _ _ El), <- Eq, El. cbn. lia.
  - split; [| done]. eapply keeps_trans0; [exact Hk |]. by apply (keeps_put_same _ _ q').
Qed.

(** *** Moving a number of ops *)

Lemma move_cnt_keeps s dst n d src m e cnt fuel :
  wf s -> leads s dst n d -> leads s src m e -> d <> e -> (n + m < fuel)%nat ->
  exists r s', rd_kafka_q_move_cnt fuel s dst src cnt = Some (r, s') /\ keeps s [] s' [].
Proof.
  intros Hwf. revert dst n src m. induction fuel as [| fuel IH];
    intros dst n src m Hd Hsrc Hne Hn; [lia |]. cbn [rd_kafka_q_move_cnt].
  destruct Hd as [dst q E Ef | dst q j n d E Ef Hd],
    Hsrc as [src srcq Es Esf | src srcq j' m e Es Esf Hsrc];
    rewrite E, Es, Ef, Esf; cbn [default from_option id].
  2: apply (IH dst 0%nat j' m); [by econstructor | done | done | lia].
  2: apply (IH j n src 0%nat); [done | by econstructor | done | lia].
  2: apply (IH j n j' m); [done | done | done | lia].
  apply Nat.eqb_neq in Hne as Hne'. rewrite Hne'. cbn [negb rd_assert].
  destruct (q_io_event_if _ _ _ _) as [s1 q1] eqn:Eio.
  pose proof (io_event_if_queues _ _ _ _ _ _ Eio) as (Eq & Ed & El & En & Ez & Ef1).
  assert (keeps s [] (qs_put s1 dst q1) []) as H1.
  { eapply keeps_trans0; [by eapply keeps_queues |].
    apply (keeps_put_same _ _ q); [unfold q_get; by rewrite Eq | done..]. }
  assert (q_get s1 src = Some srcq) as Es0 by (unfold q_get; by rewrite Eq).
  assert (q_get (qs_put s1 dst q1) src = Some srcq) as Es1 by (by rewrite get_put_ne).
  assert (exists r s2, (if (cnt =? -1) || (cnt >=? rkq_qlen srcq)
      then let* (_, s) := rd_kafka_q_concat0 (S fuel) (qs_put s1 dst q1) dst src in
           Some (rkq_qlen srcq, s)
      else let '(dstq, srcq, mcnt) := move_cnt_loop (Z.to_nat cnt) q1 srcq 0 in
           Some (mcnt, qs_put (qs_put (qs_put s1 dst q1) dst dstq) src srcq)) = Some (r, s2) /\
      keeps (qs_put s1 dst q1) [] s2 []) as (r & s2 & -> & H2).
  { destruct (_ || _).
    - destruct (concat0_keeps (qs_put s1 dst q1) dst 0 dst src 0 src (S fuel))
        as (r & s2 & -> & Hk); [by eapply keeps_wf | | | done | lia | eauto].
      + eapply leads_here; [apply get_put_eq | by rewrite Ef1].
      + by eapply leads_here.
    - destruct (move_cnt_loop _ _ _ _) as [[dq sq] mc] eqn:Em.
      destruct (move_cnt_spec _ _ _ _ _ _ _ Em) as (Hf & Hcd & Hcs & Efd & Efs).
      do 2 eexists. split; [done |].
      split.
      + intros i. rewrite !get_put. repeat case_decide; subst; try done.
        * cbn. by rewrite Efd.
        * rewrite Es0. cbn. by rewrite Efs.
      + intros Hc. apply counters_put; [apply counters_put; [done |] |].
        * apply Hcd. eapply counters_get; [done | apply get_put_eq].
        * apply Hcs. by eapply counters_get.
      + intros id. rewrite (held_put _ _ src srcq), (held_put _ _ dst q1);
          [| apply get_put_eq | by rewrite get_put_ne by done].
        specialize (Hf (ind id)). cbn. lia. }
  destruct (same_fwd_get _ _ _ _ (keeps_fwd _ _ _ _ H2) Es1) as (sq & Esq & _).
  rewrite Esq. do 2 eexists. split; [done |].
  eapply keeps_trans0; [exact H1 |]. eapply keeps_trans0; [exact H2 |].
  destruct (mark_served_fields sq) as (? & ? & ? & ? & _). by apply (keeps_put_same _ _ sq).
Qed.

(** *** Forwarding *)

Definition fwd_ok (s : q_state) : Prop :=
  forall i q, q_get s i = Some q -> exists n d, leads s i n d.

(** The forwards are the same but for one queue. *)
Definition same_fwd_but (src : nat) (s s' : q_state) : Prop :=
  forall i, i <> src -> rkq_fwdq <$> q_get s i = rkq_fwdq <$> q_get s' i.

Lemma same_but_get src s s' i q :
  same_fwd_but src s s' -> i <> src -> q_get s i = Some q ->
  exists q', q_get s' i = Some q' /\ rkq_fwdq q' = rkq_fwdq q.
Proof.
  intros H Hi E. specialize (H i Hi). rewrite E in H. cbn in H.
  destruct (q_get s' i) as [q' |]; [| done]. exists q'. split; [done |]. cbn in H. congruence.
Qed.

(** A path that is the old one up to [src] and goes on as [src] does. *)
Lemma leads_through src s s' i n d n0 d0 :
  same_fwd_but src s s' -> leads s' src n0 d0 -> leads s i n d ->
  exists n' d', leads s' i n' d'.
Proof.
  intros Hb H0. induction 1 as [i q E Ef | i q j n d E Ef Hl (n' & d' & IH)];
    (destruct (decide (i = src)) as [-> | Hi]; [eauto |]);
    destruct (same_but_get _ _ _ _ _ Hb Hi E) as (q' & E' & Ef').
  - exists 0%nat, i. eapply leads_here; [done | by rewrite Ef'].
  - exists (S n'), d'. eapply leads_fwd; [done | by rewrite Ef' | done].
Qed.

(** A path that ends elsewhere does not pass a queue without a forward. *)
Lemma leads_avoids src s s' i n d q :
  same_fwd_but src s s' -> q_get s src = Some q -> rkq_fwdq q = None -> d <> src ->
  leads s i n d -> leads s' i n d.
Proof.
  intros Hb Eq Efq Hd. induction 1 as [i q0 E Ef | i q0 j n d E Ef Hl IH];
    (destruct (decide (i = src)) as [-> | Hi]; [congruence |]);
    destruct (same_but_get _ _ _ _ _ Hb Hi E) as (q' & E' & Ef').
  - eapply leads_here; [done | by rewrite Ef'].
  - eapply leads_fwd; [done | by rewrite Ef' | auto].
Qed.

Lemma fwd_ok_change src s s' n0 d0 :
  fwd_ok s -> same_fwd_but src s s' -> leads s' src n0 d0 -> fwd_ok s'.
Proof.
  intros Hs Hb H0 i q' E'. destruct (decide (i = src)) as [-> | Hi]; [eauto |].
  assert (same_fwd_but src s' s) as Hb' by (intros j Hj; symmetry; auto).
  destruct (same_but_get _ _ _ _ _ Hb' Hi E') as (q & E & _).
  destruct (Hs _ _ E) as (n & d & Hl). by eapply leads_through.
Qed.

Lemma wf_fwd_ok s : wf s <-> fwd_ok s /\ counters s.
Proof. split; [intros [? ?]; auto | intros [? ?]; by constructor]. Qed.

(** The state in which a queue is not forwarded any more. *)
Definition q_cut (s : q_state) (i : nat) : q_state :=
  match q_get s i with
  | Some q => qs_put s i (q_set_fwdq q None)
  | None => s
  end.

Lemma same_but_put s i q : same_fwd_but i s (qs_put s i q).
Proof. intros j Hj. by rewrite get_put_ne. Qed.

Lemma same_but_of_same src s s' : same_fwd s s' -> same_fwd_but src s s'.
Proof. intros H i _. apply H. Qed.

Lemma same_but_trans src s s' s'' :
  same_fwd_but src s s' -> same_fwd_but src s' s'' -> same_fwd_but src s s''.
Proof. intros H H' i Hi. rewrite (H i Hi). auto. Qed.

Lemma held_put_same f s i q q' :
  q_get s i = Some q -> rkq_q q' = rkq_q q -> held f (qs_put s i q') = held f s.
Proof. intros E El. rewrite (held_put _ _ _ _ _ E), El. lia. Qed.

Lemma fwd_set0_ok s src q dest app :
  wf s -> q_get s src = Some q ->
  (forall d, dest = Some d -> d <> src ->
    exists m e, leads (q_cut s src) d m e /\ e <> src) ->
  exists n, forall fuel, (n < fuel)%nat ->
  exists s', rd_kafka_q_fwd_set0 fuel s src dest app = Some s' /\ wf s' /\
    forall id, held (ind id) s' = held (ind id) s.
Proof.
  intros Hwf E Hdest. unfold rd_kafka_q_fwd_set0, q_cut in *. rewrite E in Hdest |- *.
  destruct (decide (dest = Some src)) as [-> | Hd].
  { exists 0%nat. intros fuel _. rewrite bool_decide_true by done. eauto. }
  rewrite bool_decide_false by done.
  set (q1 := q_set_fwdq (if app then _ else q) None).
  set (s1 := qs_put s src q1).
  assert (rkq_q q1 = rkq_q q /\ rkq_qlen q1 = rkq_qlen q /\ rkq_qsize q1 = rkq_qsize q)
    as (El & En & Ez) by (unfold q1; destruct app; done).
  assert (leads s1 src 0 src) as H0 by (eapply leads_here; [apply get_put_eq | done]).
  assert (wf s1) as Hwf1.
  { apply wf_fwd_ok in Hwf as [Hf Hc]. apply wf_fwd_ok. split.
    - eapply fwd_ok_change; [done | apply same_but_put | done].
    - apply counters_put; [done |]. eapply counts_same; [by eapply counters_get | done..]. }
  assert (forall id, held (ind id) s1 = held (ind id) s) as Hh1
    by (intros id; by apply (held_put_same _ _ _ q)).
  destruct dest as [d |]; [| exists 0%nat; intros fuel _; eauto].
  destruct (Hdest d eq_refl ltac:(congruence)) as (m & e & Hl & He).
  assert (leads s1 d m e) as Hl1.
  { eapply leads_same; [| exact Hl]. intros i. unfold s1. rewrite !get_put. by case_decide. }
  exists m. intros fuel Hn.
  replace (rkq_qlen (if app then _ else q)) with (rkq_qlen q) by (by destruct app).
  assert (exists s2, (if rkq_qlen q >? 0
      then let* (_, s) := rd_kafka_q_concat0 fuel s1 d src in Some s else Some s1) = Some s2 /\
      keeps s1 [] s2 []) as (s2 & -> & Hk).
  { destruct (_ >? 0); [| eauto using keeps_refl].
    destruct (concat0_keeps s1 d m e src 0 src fuel) as (r & s2 & -> & Hk);
      [done.. | lia | eauto]. }
  destruct (same_fwd_get _ _ _ _ (keeps_fwd _ _ _ _ Hk) (get_put_eq s src q1)) as (q2 & E2 & Ef2).
  rewrite E2. eexists. split; [done |]. split.
  - pose proof (keeps_wf _ _ _ _ Hk Hwf1) as Hwf2. apply wf_fwd_ok in Hwf2 as [Hf Hc].
    apply wf_fwd_ok. split.
    + eapply fwd_ok_change; [done | apply same_but_put |]. eapply leads_fwd;
        [apply get_put_eq | done |].
      eapply leads_avoids; [apply same_but_put | done | done | done |].
      eapply leads_same; [apply Hk | done].
    + apply counters_put; [done |]. eapply counts_same; [by eapply counters_get | done..].
  - intros id. rewrite (held_put_same _ _ _ q2) by done.
    pose proof (keeps_held _ _ _ _ Hk id) as H. cbn in H. rewrite <- Hh1. lia.
Qed.

(** *** Making and destroying queues *)

Lemma init_ok s i serve flags :
  wf s -> q_get s i = None ->
  wf (qs_put s i (mk_q None [] 0 0 flags None serve)) /\
  forall id, held (ind id) (qs_put s i (mk_q None [] 0 0 flags None serve)) = held (ind id) s.
Proof.
  intros Hwf E. split.
  - apply wf_fwd_ok in Hwf as [Hf Hc]. apply wf_fwd_ok. split.
    + eapply fwd_ok_change; [done | apply same_but_put |].
      eapply leads_here; [apply get_put_eq | done].
    + by apply counters_put.
  - intros id. rewrite held_new by done. cbn. lia.
Qed.

Lemma get_drop s i j : q_get (qs_drop s i) j = if decide (i = j) then None else q_get s j.
Proof. unfold q_get, qs_drop; cbn. apply lookup_delete. Qed.

Lemma leads_drop s i j n d :
  (forall k q, q_get s k = Some q -> rkq_fwdq q <> Some i) -> j <> i ->
  leads s j n d -> leads (qs_drop s i) j n d.
Proof.
  intros Hn Hj. induction 1 as [j q E Ef | j q k n d E Ef Hl IH];
    assert (q_get (qs_drop s i) j = Some q) by (rewrite get_drop; by case_decide).
  - by eapply leads_here.
  - eapply leads_fwd; [done | done |]. apply IH. intros ->. by eapply Hn.
Qed.

Lemma drop_ok s i q :
  wf s -> q_get s i = Some q -> rkq_q q = [] ->
  (forall k q, q_get s k = Some q -> rkq_fwdq q <> Some i) ->
  wf (qs_drop s i) /\ forall id, held (ind id) (qs_drop s i) = held (ind id) s.
Proof.
  intros [Hl Hc] E El Hn. split; [split |].
  - intros j qj Ej. rewrite get_drop in Ej. case_decide as Hij; [done |].
    destruct (Hl _ _ Ej) as (n & d & H). exists n, d. apply leads_drop; auto.
  - by apply map_Forall_delete.
  - intros id. rewrite (held_drop _ _ _ q) by done. rewrite El. cbn. lia.
Qed.

Lemma purge0_here s i q fuel :
  q_get s i = Some q -> rkq_fwdq q = None -> (0 < fuel)%nat ->
  rd_kafka_q_purge0 fuel s i
  = Some (i32 (zlen (rkq_q q)),
          destroy_ops (qs_put s i (rd_kafka_q_reset (rd_kafka_q_mark_served q))) (rkq_q q)).
Proof.
  intros E Ef Hn. unfold rd_kafka_q_purge0.
  by rewrite (at_dest_leads _ _ i 0 i q _ (leads_here _ _ _ E Ef) E Hn).
Qed.

Lemma same_fwd_nobody s s' i :
  same_fwd s s' -> (forall k q, q_get s k = Some q -> rkq_fwdq q <> Some i) ->
  forall k q, q_get s' k = Some q -> rkq_fwdq q <> Some i.
Proof.
  intros Hf Hn k q E. destruct (same_fwd_get _ _ _ _ (same_fwd_sym _ _ Hf) E) as (q0 & E0 & <-).
  eauto.
Qed.

Lemma destroy_final_ok s i q fuel :
  (0 < fuel)%nat -> wf s -> q_get s i = Some q ->
  (forall k q, q_get s k = Some q -> rkq_fwdq q <> Some i) ->
  exists s', rd_kafka_q_destroy_final fuel s i = Some s' /\ wf s' /\
    forall id, held (ind id) s' = held (ind id) s.
Proof.
  intros Hn Hwf E Hnob. unfold rd_kafka_q_destroy_final. rewrite E.
  set (q0 := rd_kafka_q_disable0 _). set (s0 := qs_put s i q0).
  assert (keeps s [] s0 []) as H0 by (by apply (keeps_put_same _ _ q)).
  unfold rd_kafka_q_fwd_set0. rewrite bool_decide_false by done. unfold s0 at 1.
  setoid_rewrite get_put_eq.
  set (q1 := q_set_fwdq q0 None). set (s1 := qs_put s0 i q1).
  assert (leads s1 i 0 i) as Hl1 by (eapply leads_here; [apply get_put_eq | done]).
  assert (wf s1) as Hwf1.
  { apply (keeps_wf _ _ _ _ H0) in Hwf. apply wf_fwd_ok in Hwf as [Hf Hc]. apply wf_fwd_ok. split.
    - eapply fwd_ok_change; [done | apply same_but_put | done].
    - apply counters_put; [done |]. eapply counts_same;
        [eapply counters_get; [done | apply get_put_eq] | done..]. }
  assert (forall id, held (ind id) s1 = held (ind id) s) as Hh1.
  { intros id. unfold s1, s0. rewrite (held_put_same _ _ _ q0 q1), (held_put_same _ _ _ q) by
      (try apply get_put_eq; done). done. }
  assert (forall k q, q_get s1 k = Some q -> rkq_fwdq q <> Some i) as Hnob1.
  { intros k qk. unfold s1, s0. rewrite !get_put. case_decide; [by intros [= <-] |].
    apply Hnob. }
  rewrite (purge0_here s1 i q1) by (done || apply get_put_eq).
  assert (keeps s1 [] (destroy_ops (qs_put s1 i (rd_kafka_q_reset (rd_kafka_q_mark_served q1)))
                         (rkq_q q1)) []) as H2.
  { apply keeps_taken_destroyed. eapply keeps_put; [apply get_put_eq | | done |].
    - apply (mark_served_fields q1).
    - intros id. cbn. lia. }
  eexists. split; [done |].
  edestruct drop_ok as [Hw Hh]; [by eapply keeps_wf | | | | split; [exact Hw |]].
  - rewrite destroy_ops_eq. apply get_put_eq.
  - done.
  - eapply same_fwd_nobody; [apply H2 | done].
  - intros id. rewrite Hh. pose proof (keeps_held _ _ _ _ H2 id) as H. specialize (Hh1 id).
    cbn [osum] in H. lia.
Qed.

Lemma destroy_owner_ok s i q n d fuel :
  wf s -> q_get s i = Some q -> leads s i n d -> (n < fuel)%nat ->
  (forall k q, q_get s k = Some q -> rkq_fwdq q <> Some i) ->
  exists s', rd_kafka_q_destroy_owner fuel s i = Some s' /\ wf s' /\
    forall id, held (ind id) s' = held (ind id) s.
Proof.
  intros Hwf E Hl Hn Hnob. unfold rd_kafka_q_destroy_owner. rewrite E.
  assert (keeps s [] (qs_put s i (rd_kafka_q_disable0 q)) []) as H0
    by (by apply (keeps_put_same _ _ q)).
  destruct (purge0_keeps (qs_put s i (rd_kafka_q_disable0 q)) i n d fuel) as (r & s1 & -> & H1);
    [eapply leads_same; [apply H0 | done] | done |].
  pose proof (keeps_trans0 _ _ _ _ _ H0 H1) as H2.
  destruct (same_fwd_get _ _ _ _ (keeps_fwd _ _ _ _ H2) E) as (q1 & E1 & _).
  destruct (destroy_final_ok s1 i q1 fuel) as (s' & -> & Hw & Hh);
    [lia | by eapply keeps_wf | done | eapply same_fwd_nobody; [apply H2 | done] |].
  eexists. split; [done | split; [done |]]. intros id. rewrite Hh.
  pose proof (keeps_held _ _ _ _ H2 id) as H. cbn [osum] in H. lia.
Qed.

(** ** Steps *)

(** When an operation may happen: the queues it names exist, a queue is not put onto
    itself, a forward makes no loop, and a queue that is destroyed is not forwarded
    to. *)
Definition op_ok (s : q_state) (o : q_op) : Prop :=
  match o with
  | OpInit i _ => q_get s i = None
  | OpEnq i rko | OpReenq i rko =>
      is_Some (q_get s i) /\ forall k, rko_replyq rko = Some k -> is_Some (q_get s k)
  | OpYield i | OpPurge i | OpPurgeVersion i _ _ | OpPop i _ | OpDisable i | OpIoEvent i _
  | OpCbEvent i _ => is_Some (q_get s i)
  | OpConcat i src | OpPrepend i src | OpMove i src _ =>
      exists n d m e, leads s i n d /\ leads s src m e /\ d <> e
  | OpFwdSet src dest _ =>
      is_Some (q_get s src) /\
      forall d, dest = Some d -> d <> src -> exists m e, leads (q_cut s src) d m e /\ e <> src
  | OpFixOffsets i _ _ => exists q, q_get s i = Some q /\ rkq_fwdq q = None
  | OpDestroyOwner i =>
      is_Some (q_get s i) /\ forall k q, q_get s k = Some q -> rkq_fwdq q <> Some i
  | OpNewBarrier p => is_Some (qs_rktp s !! p)
  end.

(** The ops that an operation brings in. *)
Definition op_new (o : q_op) : list rd_kafka_op :=
  match o with
  | OpEnq _ rko | OpReenq _ rko => [rko]
  | _ => []
  end.

(** What a step makes true. *)
Definition accounts (s : q_state) (o : q_op) (taken : list rd_kafka_op) (s' : q_state) : Prop :=
  wf s' /\ forall id, held (ind id) s' + osum (ind id) taken
                      = held (ind id) s + osum (ind id) (op_new o).

Lemma keeps_accounts s o s' taken :
  wf s -> keeps s (op_new o) s' taken -> accounts s o taken s'.
Proof. intros Hwf H. split; [by eapply keeps_wf | apply H]. Qed.

(** A step that is one of the operations above, with fuel beyond [n]. *)
Ltac step_keeps n L :=
  let f := fresh in let H := fresh in
  exists n; intros f H;
  first [ destruct (L f H) as (? & ? & -> & ?) | destruct (L f H) as (? & -> & ?) ];
  do 2 eexists; (split; [done | by apply keeps_accounts]).

Lemma enq_step s i rko h :
  wf s -> is_Some (q_get s i) ->
  (forall k, rko_replyq rko = Some k -> is_Some (q_get s k)) ->
  exists n, forall fuel, (n < fuel)%nat ->
  exists r s', rd_kafka_q_enq1 fuel s i rko i h = Some (r, s') /\ keeps s [rko] s' [].
Proof.
  intros Hwf [q E] Hr. destruct (wf_leads _ Hwf _ _ E) as (n & d & Hl).
  destruct (rko_replyq rko) as [k |] eqn:Ek.
  - destruct (Hr k eq_refl) as [kq Ekq]. destruct (wf_leads _ Hwf _ _ Ekq) as (m & e & Hm).
    exists (n + m + 1)%nat. intros fuel Hn.
    apply (enq1_keeps s i n d i q rko h m); [done | done | | done].
    intros j Hj. assert (j = k) as -> by congruence. eauto.
  - exists n. intros fuel Hn. by apply (enq1_noreply s i n d i q).
Qed.

Lemma pop_step s i v :
  wf s -> is_Some (q_get s i) ->
  exists n, forall fuel, (n < fuel)%nat ->
  exists taken s', q_step fuel s (OpPop i v) = Some (taken, s') /\
    accounts s (OpPop i v) taken s'.
Proof.
  intros Hwf [q E]. destruct (wf_leads _ Hwf _ _ E) as (n & d & Hl). exists n. intros fuel Hn.
  destruct (leads_end _ _ _ _ Hl) as (qd & Ed & _). cbn [q_step].
  rewrite (leads_resolve _ _ _ _ _ Hl Hn).
  destruct (pop_first_keeps s d qd v Ed) as (r & s' & -> & Hk & _).
  do 2 eexists. split; [done |]. by apply keeps_accounts.
Qed.

Lemma put_step s o i q q' :
  wf s -> q_get s i = Some q -> op_new o = [] -> rkq_fwdq q' = rkq_fwdq q ->
  rkq_q q' = rkq_q q -> rkq_qlen q' = rkq_qlen q -> rkq_qsize q' = rkq_qsize q ->
  accounts s o [] (qs_put s i q').
Proof. intros ? ? Eo **. apply keeps_accounts; [done |]. rewrite Eo. by eapply keeps_put_same. Qed.

Lemma op_step s o :
  wf s -> op_ok s o ->
  exists n, forall fuel, (n < fuel)%nat ->
  exists taken s', q_step fuel s o = Some (taken, s') /\ accounts s o taken s'.
Proof.
  intros Hwf Hok.
  assert (forall i, is_Some (q_get s i) -> exists n d, leads s i n d) as Hleads
    by (intros i [q E]; by eapply wf_leads).
  destruct o as [i serve | i rko | i rko | i | i src | i src | i | i p v | i src cnt
    | src dest app | i mn base | i v | i | i fd | i cb | i | p]; cbn [op_ok] in Hok.
  12: by apply pop_step.
  all: cbn [q_step]; unfold rd_kafka_q_enq, rd_kafka_q_reenq.
  - exists 0%nat. intros fuel _. do 2 eexists. split; [done |].
    destruct (init_ok s i serve (rkq_flags rd_kafka_q_init0) Hwf Hok) as [Hw Hh].
    split; [done |]. intros id. rewrite Hh. cbn. lia.
  - destruct Hok as [Hi Hr]. destruct (enq_step s i rko false Hwf Hi Hr) as (n & H).
    step_keeps n H.
  - destruct Hok as [Hi Hr]. destruct (enq_step s i rko true Hwf Hi Hr) as (n & H).
    step_keeps n H.
  - destruct (Hleads i Hok) as (n & d & Hl). step_keeps n (fun f => yield_keeps s i n d f Hl).
  - destruct Hok as (n & d & m & e & Hd & Hs & Hne).
    step_keeps (n + m)%nat (fun f => concat0_keeps s i n d src m e f Hwf Hd Hs Hne).
  - destruct Hok as (n & d & m & e & Hd & Hs & Hne).
    step_keeps (n + m)%nat (fun f => prepend0_keeps s i n d src m e f Hwf Hd Hs Hne).
  - destruct (Hleads i Hok) as (n & d & Hl). step_keeps n (fun f => purge0_keeps s i n d f Hl).
  - destruct (Hleads i Hok) as (n & d & Hl).
    step_keeps n (fun f => purge_version_keeps s i n d p v f Hl).
  - destruct Hok as (n & d & m & e & Hd & Hs & Hne).
    step_keeps (n + m)%nat (fun f => move_cnt_keeps s i n d src m e cnt f Hwf Hd Hs Hne).
  - destruct Hok as [[q E] Hd]. destruct (fwd_set0_ok s src q dest app Hwf E Hd) as (n & H).
    exists n. intros fuel Hn. destruct (H fuel Hn) as (s' & -> & Hw & Hh).
    do 2 eexists. split; [done | split; [done |]]. intros id. rewrite Hh. cbn. lia.
  - destruct Hok as (q & E & Ef).
    step_keeps 0%nat (fun (f : nat) (_ : (0 < f)%nat) => fix_offsets_keeps s i q mn base E Ef).
  - destruct Hok as [q E]. exists 0%nat. intros fuel _. rewrite E. do 2 eexists. split; [done |].
    by apply (put_step _ _ _ q).
  - destruct Hok as [q E]. exists 0%nat. intros fuel _. rewrite E. do 2 eexists. split; [done |].
    by apply (put_step _ _ _ q).
  - destruct Hok as [q E]. exists 0%nat. intros fuel _. rewrite E. do 2 eexists. split; [done |].
    by apply (put_step _ _ _ q).
  - destruct Hok as [[q E] Hn]. destruct (wf_leads _ Hwf _ _ E) as (n & d & Hl).
    exists n. intros fuel Hf.
    destruct (destroy_owner_ok s i q n d fuel Hwf E Hl Hf Hn) as (s' & -> & Hw & Hh).
    do 2 eexists. split; [done | split; [done |]]. intros id. rewrite Hh. cbn. lia.
  - destruct Hok as [t E]. exists 0%nat. intros fuel _.
    unfold rd_kafka_toppar_version_new_barrier. rewrite E. do 2 eexists. split; [done |].
    apply keeps_accounts; [done |]. by apply keeps_queues.
Qed.

(** ** More fuel does not change a result *)

Lemma resolve_mono fuel s i r : q_resolve fuel s i = Some r -> q_resolve (S fuel) s i = Some r.
Proof.
  revert i. induction fuel as [| fuel IH]; intros i H; [done |].
  cbn [q_resolve] in H. change (q_resolve (S (S fuel)) s i) with
    (let* q := q_get s i in
     match rkq_fwdq q with Some fwdq => q_resolve (S fuel) s fwdq | None => Some i end).
  destruct (q_get s i) as [q |]; [| done]. destruct (rkq_fwdq q); auto.
Qed.

Lemma enq1_mono fuel s i rko orig h r :
  rd_kafka_q_enq1 fuel s i rko orig h = Some r ->
  rd_kafka_q_enq1 (S fuel) s i rko orig h = Some r.
Proof.
  revert s i rko orig h r. induction fuel as [| fuel IH]; intros s i rko orig h r H; [done |].
  remember (S fuel) as f. cbn [rd_kafka_q_enq1]. subst f. cbn [rd_kafka_q_enq1] in H.
  destruct (q_get s i) as [q |]; [| done]. destruct (negb _).
  - destruct (rko_replyq rko) as [k |] eqn:Ek.
    + rewrite (op_reply_some _ _ _ _ k) by done.
      rewrite (op_reply_some _ _ _ _ k) in H by done. auto.
    + rewrite op_reply_none by done. by rewrite op_reply_none in H.
  - destruct (rkq_fwdq q) as [j |]; [| done].
    destruct (rd_kafka_q_enq1 fuel s j rko orig h) as [[z s'] |] eqn:E; [| done].
    by rewrite (IH _ _ _ _ _ _ E).
Qed.

Lemma yield_mono fuel s i r :
  rd_kafka_q_yield fuel s i = Some r -> rd_kafka_q_yield (S fuel) s i = Some r.
Proof.
  revert i. induction fuel as [| fuel IH]; intros i H; [done |].
  remember (S fuel) as f. cbn [rd_kafka_q_yield]. subst f. cbn [rd_kafka_q_yield] in H.
  destruct (q_get s i) as [q |]; [| done]. destruct (negb _); [done |].
  destruct (rkq_fwdq q); auto.
Qed.

Lemma concat0_mono fuel s i src r :
  rd_kafka_q_concat0 fuel s i src = Some r -> rd_kafka_q_concat0 (S fuel) s i src = Some r.
Proof.
  revert i src. induction fuel as [| fuel IH]; intros i src H; [done |].
  remember (S fuel) as f. cbn [rd_kafka_q_concat0]. subst f. cbn [rd_kafka_q_concat0] in H.
  destruct (q_resolve (S fuel) s src) as [e |] eqn:Er; [| done].
  rewrite (resolve_mono _ _ _ _ Er).
  destruct (q_get s e) as [srcq |]; [| done]. destruct (rkq_qlen srcq =? 0); [done |].
  destruct (q_get s i) as [q |]; [| done]. destruct (rkq_fwdq q); auto.
Qed.

Lemma prepend0_mono fuel s i src r :
  rd_kafka_q_prepend0 fuel s i src = Some r -> rd_kafka_q_prepend0 (S fuel) s i src = Some r.
Proof.
  revert i src. induction fuel as [| fuel IH]; intros i src H; [done |].
  remember (S fuel) as f. cbn [rd_kafka_q_prepend0]. subst f. cbn [rd_kafka_q_prepend0] in H.
  destruct (q_get s i) as [q |]; [| done]. destruct (q_get s src) as [srcq |]; [| done].
  destruct (rkq_fwdq q), (rkq_fwdq srcq); auto.
Qed.

Lemma at_dest_mono {A} fuel s i (f : nat -> rd_kafka_q -> option A) r :
  at_dest fuel s i f = Some r -> at_dest (S fuel) s i f = Some r.
Proof.
  unfold at_dest. destruct (q_resolve fuel s i) eqn:E; [| done].
  by rewrite (resolve_mono _ _ _ _ E).
Qed.

Lemma move_cnt_mono fuel s dst src cnt r :
  rd_kafka_q_move_cnt fuel s dst src cnt = Some r ->
  rd_kafka_q_move_cnt (S fuel) s dst src cnt = Some r.
Proof.
  revert dst src. induction fuel as [| fuel IH]; intros dst src H; [done |].
  remember (S fuel) as f. cbn [rd_kafka_q_move_cnt]. subst f. cbn [rd_kafka_q_move_cnt] in H.
  destruct (q_get s dst) as [q |]; [| done]. destruct (q_get s src) as [srcq |]; [| done].
  destruct (rkq_fwdq q), (rkq_fwdq srcq); auto.
  destruct (rd_assert _); [| done]. destruct (q_io_event_if _ _ _ _) as [s1 q1].
  destruct (_ || _); [| done].
  destruct (rd_kafka_q_concat0 (S fuel) (qs_put s1 dst q1) dst src) as [[z s2] |] eqn:E; [| done].
  by rewrite (concat0_mono _ _ _ _ _ E).
Qed.

Lemma fwd_set0_mono fuel s src dest app r :
  rd_kafka_q_fwd_set0 fuel s src dest app = Some r ->
  rd_kafka_q_fwd_set0 (S fuel) s src dest app = Some r.
Proof.
  unfold rd_kafka_q_fwd_set0. destruct (bool_decide _); [done |].
  destruct (q_get s src) as [q |]; [| done]. destruct dest as [d |]; [| done].
  destruct (_ >? _); [| done].
  destruct (rd_kafka_q_concat0 fuel _ d src) as [[z s2] |] eqn:E; [| done].
  by rewrite (concat0_mono _ _ _ _ _ E).
Qed.

Lemma destroy_owner_mono fuel s i r :
  rd_kafka_q_destroy_owner fuel s i = Some r -> rd_kafka_q_destroy_owner (S fuel) s i = Some r.
Proof.
  unfold rd_kafka_q_destroy_owner, rd_kafka_q_destroy_final, rd_kafka_q_purge0.
  destruct (q_get s i) as [q |]; [| done].
  destruct (at_dest fuel (qs_put s i (rd_kafka_q_disable0 q)) i _) as [[z s1] |] eqn:E1; [| done].
  rewrite (at_dest_mono _ _ _ _ _ E1). destruct (q_get s1 i) as [q1 |]; [| done].
  destruct (rd_kafka_q_fwd_set0 fuel _ i None false) as [s2 |] eqn:E2; [| done].
  rewrite (fwd_set0_mono _ _ _ _ _ _ E2).
  destruct (at_dest fuel s2 i _) as [[z' s3] |] eqn:E3; [| done].
  by rewrite (at_dest_mono _ _ _ _ _ E3).
Qed.

Lemma step_mono1 fuel s o r : q_step fuel s o = Some r -> q_step (S fuel) s o = Some r.
Proof.
  destruct o; cbn [q_step]; unfold rd_kafka_q_enq, rd_kafka_q_reenq, rd_kafka_q_purge0,
    rd_kafka_q_purge_toppar_version; try done.
  all: match goal with
       | |- match ?t with _ => _ end = _ -> _ => destruct t as [x |] eqn:E; [| done]
       end.
  all: first [ rewrite (enq1_mono _ _ _ _ _ _ _ E) | rewrite (yield_mono _ _ _ _ E)
             | rewrite (concat0_mono _ _ _ _ _ E) | rewrite (prepend0_mono _ _ _ _ _ E)
             | rewrite (at_dest_mono _ _ _ _ _ E) | rewrite (move_cnt_mono _ _ _ _ _ _ E)
             | rewrite (fwd_set0_mono _ _ _ _ _ _ E) | rewrite (destroy_owner_mono _ _ _ _ E)
             | rewrite (resolve_mono _ _ _ _ E) | idtac ]; done.
Qed.

Lemma step_mono fuel fuel' s o r :
  (fuel <= fuel')%nat -> q_step fuel s o = Some r -> q_step fuel' s o = Some r.
Proof. induction 1; auto using step_mono1. Qed.

(** Whatever the fuel, a step that has a result accounts for the ops. *)
Lemma step_accounts fuel s o taken s' :
  wf s -> op_ok s o -> q_step fuel s o = Some (taken, s') -> accounts s o taken s'.
Proof.
  intros Hwf Hok E. destruct (op_step s o Hwf Hok) as (n & H).
  destruct (H (S n + fuel)%nat ltac:(lia)) as (t & s1 & E1 & Ha).
  apply (step_mono _ (S n + fuel)) in E; [| lia]. rewrite E in E1. by injection E1 as <- <-.
Qed.
