(* ===== verification/QueueProps.v ===== *)
(** * The queues of ops: what they promise

    Every op stays accounted for whatever happens to the queues, and no forward makes an
    operation hang; and where an op goes that is put on a queue. *)

From stdpp Require Import gmap sorting.
From S2P Require Import Prelude Queue QueueFacts.

(** ** All runs *)

(** The states reached from one without queues, with the ops that were put on queues and
    those that were taken by readers. *)
Inductive q_reach : list rd_kafka_op -> list rd_kafka_op -> q_state -> Prop :=
  | reach_start rktps : q_reach [] [] (mk_qs ∅ rktps false [] [])
  | reach_step ins outs s o fuel taken s' :
      q_reach ins outs s -> op_ok s o -> q_step fuel s o = Some (taken, s') ->
      q_reach (ins ++ op_new o) (outs ++ taken) s'.

Lemma reach_wf ins outs s :
  q_reach ins outs s ->
  wf s /\ forall id, held (ind id) s + osum (ind id) outs = osum (ind id) ins.
Proof.
  induction 1 as [rktps | ins outs s o fuel taken s' _ [Hwf Hh] Hok Hs].
  - split; [split; [| apply map_Forall_empty] |].
    + intros i q E. unfold q_get in E. cbn in E. by rewrite lookup_empty in E.
    + intros id. unfold held, qsum; cbn. by rewrite map_fold_empty.
  - destruct (step_accounts _ _ _ _ _ Hwf Hok Hs) as [Hwf' Hh']. split; [done |].
    intros id. rewrite !osum_app. specialize (Hh id). specialize (Hh' id). lia.
Qed.

(** C37. Whatever is done to queues, with forwards between them, moves, purges, readers
    and queues that come and go, each op that was put on a queue is on one queue, or was
    destroyed, or was taken by a reader, once; the counters of every queue agree with its
    contents; and every operation returns, as long as no forward is set that makes a loop
    and no queue is put onto itself. *)
Theorem queues_account ins outs s (Hr : q_reach ins outs s) :
  (forall id, held (ind id) s + osum (ind id) outs = osum (ind id) ins) /\
  (forall i q, q_get s i = Some q ->
     rkq_qlen q = i32 (zlen (rkq_q q)) /\ rkq_qsize q = i64 (osum rko_len (rkq_q q))) /\
  (forall o, op_ok s o ->
     exists n taken s', forall fuel, (n < fuel)%nat -> q_step fuel s o = Some (taken, s')).
Proof.
  destruct (reach_wf _ _ _ Hr) as [Hwf Hh]. split; [done | split].
  - intros i q E. eapply counters_get; [apply Hwf | done].
  - intros o Hok. destruct (op_step s o Hwf Hok) as (n & H).
    destruct (H (S n) ltac:(lia)) as (taken & s' & E & _). exists n, taken, s'.
    intros fuel Hn. apply (step_mono (S n)); [lia | done].
Qed.

(** ** Where an op goes *)

(** Following forwards from [i] through queues that are enabled ends at [d]. *)
Inductive ready_leads (s : q_state) : nat -> nat -> Prop :=
  | ready_here i q :
      q_get s i = Some q -> rd_kafka_q_ready q = true -> rkq_fwdq q = None -> ready_leads s i i
  | ready_fwd i q j d :
      q_get s i = Some q -> rd_kafka_q_ready q = true -> rkq_fwdq q = Some j ->
      ready_leads s j d -> ready_leads s i d.

(** They come to a queue that is disabled. *)
Inductive blocked (s : q_state) : nat -> Prop :=
  | blocked_here i q : q_get s i = Some q -> rd_kafka_q_ready q = false -> blocked s i
  | blocked_fwd i q j :
      q_get s i = Some q -> rd_kafka_q_ready q = true -> rkq_fwdq q = Some j ->
      blocked s j -> blocked s i.

Lemma ready_or_blocked s i n d : leads s i n d -> ready_leads s i d \/ blocked s i.
Proof.
  induction 1 as [i q E Ef | i q j n d E Ef _ IH];
    (destruct (rd_kafka_q_ready q) eqn:Er; [| right; by eapply blocked_here]).
  - left. by eapply ready_here.
  - destruct IH; [left; by eapply ready_fwd | right; by eapply blocked_fwd].
Qed.

(** [o] is put on queue [d] and nothing else happens: in a queue that is in the order of
    priorities it comes behind those of its priority and before those of lower ones; a
    poller that waits for an empty queue is woken up, unless it has been already. *)
Definition placed (s : q_state) (d : nat) (o : rd_kafka_op) (s' : q_state) : Prop :=
  exists q q', q_get s d = Some q /\ q_get s' d = Some q' /\
    (forall j, j <> d -> q_get s' j = q_get s j) /\
    qs_destroyed s' = qs_destroyed s /\ rkq_q q' ≡ₚ o :: rkq_q q /\
    (prio_sorted (rkq_q q) -> Forall (fun x => 0 <= rko_prio x) (o :: rkq_q q) ->
     prio_sorted (rkq_q q') /\
     forall p, of_prio p (rkq_q q') = of_prio p (rkq_q q) ++ of_prio p [o]) /\
    (forall io, rkq_q q = [] -> rkq_qlen q = 0 -> rkq_qio q = Some io ->
     qio_event_cb io = true \/ qio_sent io = false ->
     qs_io_events s' = qs_io_events s ++ [d]).

Lemma enq0_order q o :
  prio_sorted (rkq_q q) -> Forall (fun x => 0 <= rko_prio x) (o :: rkq_q q) ->
  prio_sorted (rkq_q (rd_kafka_q_enq0 q o false)) /\
  forall p, of_prio p (rkq_q (rd_kafka_q_enq0 q o false)) = of_prio p (rkq_q q) ++ of_prio p [o].
Proof.
  intros Hs Hp. unfold rd_kafka_q_enq0; cbn [rkq_q q_set_q].
  destruct (Z.eqb_spec (rko_prio o) 0) as [E |].
  - split; [| intros p; apply of_prio_app]. apply sorted_snoc; [done |].
    apply Forall_cons_iff in Hp as [_ Hp]. eapply Forall_impl; [| exact Hp].
    unfold higher. intros; lia.
  - split; [by apply insert_sorted_sorted |]. intros p. by apply insert_sorted_fifo.
Qed.

Lemma enq_here_placed s d q orig o :
  q_get s d = Some q -> placed s d (op_to_put orig o) (enq_here s d q orig o false).
Proof.
  intros E. unfold enq_here. set (o' := op_to_put orig o).
  destruct (q_io_event_if _ _ _ _) as [s1 q1] eqn:Eio.
  pose proof (io_event_if_queues _ _ _ _ _ _ Eio) as (Eq & Ed & El & _ & _ & _).
  exists q, q1. split; [done |]. split; [apply get_put_eq |]. split.
  { intros j Hj. rewrite get_put_ne by done. unfold q_get. by rewrite Eq. }
  split; [done |]. rewrite El. split; [apply enq0_perm |]. split; [by apply enq0_order |].
  intros io Hl Hn Hio Hw. unfold q_io_event_if in Eio. cbn in Eio.
  rewrite Hn in Eio. cbn in Eio. unfold rd_kafka_q_io_event in Eio. cbn in Eio.
  rewrite Hio in Eio. destruct (qio_event_cb io); [by injection Eio as <- <- |].
  destruct Hw as [| Hw]; [done |]. rewrite Hw in Eio. by injection Eio as <- <-.
Qed.

Lemma enq1_ready s i d orig oq o :
  ready_leads s i d -> q_get s orig = Some oq ->
  exists n q, q_get s d = Some q /\ forall fuel, (n < fuel)%nat ->
  rd_kafka_q_enq1 fuel s i o orig false = Some (1, enq_here s d q oq o false).
Proof.
  intros H Ho. induction H as [i q E Er Ef | i q j d E Er Ef _ (n & qd & Eqd & IH)].
  - exists 0%nat, q. split; [done |]. intros [| fuel] Hn; [lia |]. cbn [rd_kafka_q_enq1].
    rewrite E, Er. cbn [negb]. rewrite Ef, Ho. fold (op_to_put oq o). unfold enq_here.
    by destruct (q_io_event_if _ _ _ _) as [s1 q1].
  - exists (S n), qd. split; [done |]. intros [| fuel] Hn; [lia |]. cbn [rd_kafka_q_enq1].
    rewrite E, Er. cbn [negb]. rewrite Ef, IH by lia. done.
Qed.

(** At a disabled queue the op goes back, with the fuel that is left. *)
Lemma enq1_blocked s i o orig :
  blocked s i ->
  exists n (b : bool), forall fuel,
    rd_kafka_q_enq1 (S n + fuel) s i o orig false
    = let* (r, s') := rd_kafka_op_reply (fun s j o => rd_kafka_q_enq1 fuel s j o j false) s o
                        RD_KAFKA_RESP_ERR__DESTROY in
      Some (if b then 1 else r, s').
Proof.
  induction 1 as [i q E Er | i q j E Er Ef _ (n & b & IH)].
  - exists 0%nat, false. intros fuel. cbn [rd_kafka_q_enq1 Nat.add]. rewrite E, Er. cbn [negb].
    by destruct (rd_kafka_op_reply _ _ _ _) as [[r s'] |].
  - exists (S n), true. intros fuel. specialize (IH fuel).
    change (S (S n) + fuel)%nat with (S (S n + fuel)). remember (S n + fuel)%nat as f.
    cbn [rd_kafka_q_enq1]. rewrite E, Er. cbn [negb]. rewrite Ef, IH.
    by destruct (rd_kafka_op_reply _ _ _ _) as [[r s'] |].
Qed.

(** What is left of an op that cannot be put anywhere. *)
Lemma enq1_lost s i o orig :
  blocked s i -> (forall k, rko_replyq o = Some k -> blocked s k) ->
  exists n r o', rko_id o' = rko_id o /\ forall fuel, (n < fuel)%nat ->
    rd_kafka_q_enq1 fuel s i o orig false = Some (r, rd_kafka_op_destroy s o').
Proof.
  intros Hb Hr. destruct (enq1_blocked s i o orig Hb) as (n & b & H).
  destruct (rko_replyq o) as [k |] eqn:Ek.
  - destruct (enq1_blocked s k (op_replied o RD_KAFKA_RESP_ERR__DESTROY) k (Hr k eq_refl))
      as (m & b' & H').
    exists (S n + S m)%nat, (if b then 1 else if b' then 1 else 0),
      (op_replied o RD_KAFKA_RESP_ERR__DESTROY).
    split; [done |]. intros fuel Hn.
    replace fuel with (S n + (S m + (fuel - S n - S m)))%nat by lia.
    rewrite H, (op_reply_some _ _ _ _ k), H', op_reply_none by done. done.
  - exists (S n), (if b then 1 else 0), o. split; [done |]. intros fuel Hn.
    replace fuel with (S n + (fuel - S n))%nat by lia. by rewrite H, op_reply_none.
Qed.

(** An op that comes back to its sender. *)
Lemma enq1_back s i o orig k d q :
  blocked s i -> rko_replyq o = Some k -> ready_leads s k d -> q_get s k = Some q ->
  exists n s', placed s d (op_to_put q (op_replied o RD_KAFKA_RESP_ERR__DESTROY)) s' /\
    forall fuel, (n < fuel)%nat -> rd_kafka_q_enq1 fuel s i o orig false = Some (1, s').
Proof.
  intros Hb Ek Hk E. destruct (enq1_blocked s i o orig Hb) as (n & b & H).
  destruct (enq1_ready s k d k q (op_replied o RD_KAFKA_RESP_ERR__DESTROY) Hk E)
    as (m & dq & Ed & H').
  exists (S n + m)%nat, (enq_here s d dq q (op_replied o RD_KAFKA_RESP_ERR__DESTROY) false).
  split; [by apply enq_here_placed |]. intros fuel Hn.
  replace fuel with (S n + (fuel - S n))%nat by lia.
  rewrite H, (op_reply_some _ _ _ _ k), H' by (done || lia). by destruct b.
Qed.

(** C38. An op put on a queue goes to the queue at the end of the forwards, if all on the
    way are enabled, and behind the ops of its priority there.  Otherwise its sender gets
    it back with the error [DESTROY], at the end of the forwards of its reply queue, and
    if that is disabled too, or there is none, the op is destroyed. *)
Theorem enq_places s i o
    (Hs : wf s) (Hi : is_Some (q_get s i))
    (Hk : forall k, rko_replyq o = Some k -> is_Some (q_get s k)) :
  exists n r s', (forall fuel, (n < fuel)%nat -> rd_kafka_q_enq fuel s i o = Some (r, s')) /\
  ((exists d q, ready_leads s i d /\ q_get s i = Some q /\ r = 1 /\
      placed s d (op_to_put q o) s') \/
   (blocked s i /\ exists k d q, rko_replyq o = Some k /\ ready_leads s k d /\
      q_get s k = Some q /\ r = 1 /\
      placed s d (op_to_put q (op_replied o RD_KAFKA_RESP_ERR__DESTROY)) s') \/
   (blocked s i /\ (forall k, rko_replyq o = Some k -> blocked s k) /\
      exists o', rko_id o' = rko_id o /\ s' = rd_kafka_op_destroy s o')).
Proof.
  unfold rd_kafka_q_enq. destruct Hi as [q E]. destruct (wf_leads _ Hs _ _ E) as (n & d & Hl).
  destruct (ready_or_blocked _ _ _ _ Hl) as [Hr | Hb].
  { destruct (enq1_ready s i d i q o Hr E) as (m & dq & Ed & H). do 3 eexists.
    split; [exact H |]. left. exists d, q. by auto using enq_here_placed. }
  destruct (rko_replyq o) as [k |] eqn:Ek.
  - destruct (Hk k eq_refl) as [kq Ekq]. destruct (wf_leads _ Hs _ _ Ekq) as (m & e & Hm).
    destruct (ready_or_blocked _ _ _ _ Hm) as [Hr | Hb'].
    + destruct (enq1_back s i o i k e kq Hb Ek Hr Ekq) as (n' & s' & Hp & H).
      exists n', 1, s'. split; [done |]. right; left. split; [done |]. exists k, e, kq. auto.
    + destruct (enq1_lost s i o i Hb) as (n' & r & o' & Hid & H).
      { intros j Hj. by assert (j = k) as -> by congruence. }
      exists n', r, (rd_kafka_op_destroy s o'). split; [done |]. right; right.
      split; [done |]. split; [by intros j [= <-] | eauto].
  - destruct (enq1_lost s i o i Hb) as (n' & r & o' & Hid & H); [by intros k; rewrite Ek |].
    exists n', r, (rd_kafka_op_destroy s o'). split; [done |]. right; right.
    split; [done |]. split; [done | eauto].
Qed.

(** ** Two queues, the first of them forwarded to the second *)

Definition forwarded_queues : q_state :=
  mk_qs {[ 0%nat := mk_q (Some 1%nat) [] 0 0 RD_KAFKA_Q_F_READY None None;
           1%nat := rd_kafka_q_init0 ]} ∅ false [] [].

Lemma forwarded_reach : q_reach [] [] forwarded_queues.
Proof.
  set (q0 := rd_kafka_q_init0).
  set (s1 := mk_qs {[ 0%nat := q0 ]} ∅ false [] []).
  set (s2 := mk_qs {[ 0%nat := q0; 1%nat := q0 ]} ∅ false [] []).
  apply (reach_step [] [] s2 (OpFwdSet 0 (Some 1%nat) false) 9 [] _);
    [apply (reach_step [] [] s1 (OpInit 1 None) 9 [] _);
       [apply (reach_step [] [] _ (OpInit 0 None) 9 [] _ (reach_start ∅)) | |] | |].
  - done.
  - by vm_compute.
  - done.
  - by vm_compute.
  - split; [by eexists |]. intros d [= <-] _. exists 0%nat, 1%nat. split; [| done].
    by apply (leads_here _ _ q0).
  - by vm_compute.
Qed.

Lemma queues_account_witness :
  exists s, q_reach [rd_kafka_op_new 1 RD_KAFKA_OP_FETCH] [] s /\
    forall id, held (ind id) s + 0 = osum (ind id) [rd_kafka_op_new 1 RD_KAFKA_OP_FETCH].
Proof.
  assert (exists s, q_reach [rd_kafka_op_new 1 RD_KAFKA_OP_FETCH] [] s) as [s H].
  { eexists. apply (reach_step [] [] forwarded_queues
      (OpEnq 0 (rd_kafka_op_new 1 RD_KAFKA_OP_FETCH)) 9 [] _ forwarded_reach).
    - split; [by eexists | done].
    - vm_compute. reflexivity. }
  exists s. split; [exact H |]. apply (proj1 (queues_account _ _ _ H)).
Defined.

Lemma enq_places_witness :
  exists n r s', forall fuel, (n < fuel)%nat ->
    rd_kafka_q_enq fuel forwarded_queues 0 (rd_kafka_op_new 1 RD_KAFKA_OP_FETCH) = Some (r, s').
Proof.
  destruct (enq_places forwarded_queues 0 (rd_kafka_op_new 1 RD_KAFKA_OP_FETCH))
    as (n & r & s' & H & _).
  - apply (reach_wf _ _ _ forwarded_reach).
  - by eexists.
  - intros k Hk. discriminate Hk.
  - exists n, r, s'. exact H.
Defined.
