(* ===== verification/QueueServe.v ===== *)
(** * Serving a queue

    [rd_kafka_q_serve]: ops are handled in the order of the queue, and what is left when a
    callback yields goes back in front of it.  Before it, what of the moves to the local
    queue it needs. *)

From stdpp Require Import gmap sorting.
From S2P Require Import Prelude Msgq Queue QueueFacts QueueProps.

(** ** Moves keep the order of a queue that is in the order of priorities *)

Lemma insert_last l o :
  Forall (fun x => higher x o) l -> tailq_insert_sorted l o = l ++ [o].
Proof.
  induction 1 as [| x l Hx _ IH]; [done |].
  rewrite insert_prio_cons, cmp_prio_neg. unfold higher in Hx. destruct (Z.ltb_spec (rko_prio x) (rko_prio o)); [lia |]. by rewrite IH.
Qed.

Lemma prio_sorted_mid l1 o l2 : prio_sorted (l1 ++ o :: l2) -> Forall (fun x => higher x o) l1.
Proof.
  induction l1 as [| x l1 IH]; cbn; [done |]. inversion 1 as [| ? ? Hs Hf]; subst.
  constructor; [| auto]. rewrite Forall_app in Hf. destruct Hf as [_ Hf].
  by apply Forall_cons_iff in Hf as [? _].
Qed.

Lemma concat_prio_order l src l' rest :
  prio_sorted (l ++ src) -> concat_prio_loop l src = (l', rest) -> l' ++ rest = l ++ src.
Proof.
  revert l. induction src as [| o src IH]; cbn; intros l Hs E; [by injection E as <- <- |].
  case_match; [| by injection E as <- <-].
  rewrite insert_last in E by (by eapply prio_sorted_mid).
  apply IH in E; rewrite <- app_assoc in *; done.
Qed.

Lemma move_cnt_order n dst src m dst' src' m' :
  prio_sorted (rkq_q dst ++ rkq_q src) -> move_cnt_loop n dst src m = (dst', src', m') ->
  rkq_q dst' = rkq_q dst ++ take n (rkq_q src) /\ rkq_q src' = drop n (rkq_q src) /\
  rkq_fwdq dst' = rkq_fwdq dst /\ rkq_fwdq src' = rkq_fwdq src.
Proof.
  revert dst src m. induction n as [| n IH]; cbn; intros dst src m Hs E.
  { injection E as <- <- <-. by rewrite app_nil_r. }
  destruct (rkq_q src) as [| o rest] eqn:El.
  { injection E as <- <- <-. by rewrite El, app_nil_r. }
  assert ((if rko_prio o =? 0 then rkq_q dst ++ [o] else tailq_insert_sorted (rkq_q dst) o)
          = rkq_q dst ++ [o]) as Ho.
  { case_match; [done |]. apply insert_last. by eapply prio_sorted_mid. }
  rewrite Ho in E. apply IH in E; cbn in *.
  - destruct E as (-> & -> & ?). by rewrite <- app_assoc.
  - by rewrite <- app_assoc.
Qed.

Section Serve.
Context (conf : q_conf) (call : q_call -> q_state -> q_state).
Context (op_cb : nat -> q_state -> nat -> rd_kafka_op -> op_result).
Context (serve_cb : nat -> q_serve_cb).
Context (cb_type : rd_kafka_q_cb_type) (callback : option q_serve_cb).
(** The queue that is served and the local queue. *)
Context (rkq localq : nat).

Definition handle (s : q_state) (o : rd_kafka_op) : op_result :=
  rd_kafka_op_handle conf call op_cb serve_cb s localq o cb_type callback.

(** The ops are taken from the local queue and handled one after the other; the boolean
    says that the last one made the reader yield. *)
Inductive handled : q_state -> list rd_kafka_op -> bool -> q_state -> Prop :=
  | handled_none s : handled s [] false s
  | handled_one s q o rest res o' s1 ops y s2 :
      q_get s localq = Some q -> rkq_q q = o :: rest ->
      handle (qs_put s localq (rd_kafka_q_deq0 q o)) o = Some (res, o', s1) ->
      res <> RD_KAFKA_OP_RES_YIELD -> rd_kafka_yield_thread s1 = false ->
      handled s1 ops y s2 -> handled s (o :: ops) y s2
  | handled_yield s q o rest res o' s1 :
      q_get s localq = Some q -> rkq_q q = o :: rest ->
      handle (qs_put s localq (rd_kafka_q_deq0 q o)) o = Some (res, o', s1) ->
      res = RD_KAFKA_OP_RES_YIELD \/ rd_kafka_yield_thread s1 = true ->
      handled s [o] true s1.

(** Forwards end, the queue exists, and nobody forwards to the local queue. *)
Definition serving (s : q_state) : Prop :=
  fwd_ok s /\ is_Some (q_get s rkq) /\
  (exists q, q_get s localq = Some q /\ rkq_fwdq q = None) /\
  (forall k q, q_get s k = Some q -> rkq_fwdq q <> Some localq).

(** The handlers return, handle the ops they are made for, and leave the local queue
    alone. *)
Context (servable : rd_kafka_op -> Prop).
Hypothesis Hhandle : forall s o, serving s -> servable o ->
  exists res o' s', handle s o = Some (res, o', s') /\ res <> RD_KAFKA_OP_RES_PASS /\
    serving s' /\ q_get s' localq = q_get s localq.
Hypothesis Hne : rkq <> localq.

Lemma serving_same s s' :
  same_fwd s s' -> serving s -> serving s'.
Proof.
  intros Hsame (Hf & [qr Er] & (q0 & E0 & Ef0) & Hn).
  destruct (same_fwd_get _ _ _ _ Hsame E0) as (q0' & E0' & Ef0').
  destruct (same_fwd_get _ _ _ _ Hsame Er) as (qr' & Er' & _).
  split; [| split; [eauto | split]].
  - eapply fwd_ok_change; [done | by apply (same_but_of_same localq) |].
    eapply leads_here; [done | congruence].
  - exists q0'. split; [done | congruence].
  - by eapply same_fwd_nobody.
Qed.

Lemma serving_put s q q' :
  serving s -> q_get s localq = Some q -> rkq_fwdq q' = rkq_fwdq q ->
  serving (qs_put s localq q').
Proof.
  intros Hs E Ef. eapply serving_same; [| exact Hs].
  intros j. rewrite get_put. case_decide as Hj; [subst j | done]. rewrite E. cbn. by rewrite Ef.
Qed.

(** Where the ops that are left go: in front of the queue at the end of the forwards. *)
Definition put_back (s1 : q_state) (rest : list rd_kafka_op) (s' : q_state) : Prop :=
  exists m e qe qe', leads s1 rkq m e /\ e <> localq /\ q_get s1 e = Some qe /\ q_get s' e = Some qe' /\
    rkq_q qe' = rest ++ rkq_q qe /\ qs_destroyed s' = qs_destroyed s1 /\
    forall j, j <> e -> j <> localq -> q_get s' j = q_get s1 j.

Lemma leads_ends_elsewhere s i n d :
  (forall k q, q_get s k = Some q -> rkq_fwdq q <> Some localq) -> i <> localq ->
  leads s i n d -> d <> localq.
Proof.
  intros Hn Hi. induction 1 as [| i q j n d E Ef Hl IH]; [done |]. apply IH.
  intros ->. by eapply Hn.
Qed.

Lemma put_back_none s : serving s -> put_back s [] s.
Proof.
  intros (Hf & [q E] & _ & Hn). destruct (Hf _ _ E) as (m & e & Hl).
  pose proof (leads_ends_elsewhere _ _ _ _ Hn Hne Hl).
  destruct (leads_end _ _ _ _ Hl) as (qe & Ee & _). by exists m, e, qe, qe.
Qed.

Lemma prepend_leads s i n e src srcq qe :
  leads s i n e -> q_get s e = Some qe -> q_get s src = Some srcq -> rkq_fwdq srcq = None ->
  e <> src ->
  exists s', (forall fuel, (n < fuel)%nat -> rd_kafka_q_prepend0 fuel s i src = Some s') /\
    (exists qe', q_get s' e = Some qe' /\ rkq_q qe' = rkq_q srcq ++ rkq_q qe) /\
    (exists q', q_get s' src = Some q' /\ rkq_q q' = [] /\ rkq_fwdq q' = None) /\
    qs_destroyed s' = qs_destroyed s /\
    (forall j, j <> e -> j <> src -> q_get s' j = q_get s j).
Proof.
  intros Hl. induction Hl as [i q E Ef | i q j n d E Ef Hl IH]; intros Ee Es Efs Hd.
  - assert (q = qe) as -> by congruence.
    set (q0 := q_set_q qe (rkq_q srcq ++ rkq_q qe) (rkq_qlen qe) (rkq_qsize qe)).
    destruct (q_io_event_if ((rkq_qlen q0 =? 0) && (rkq_qlen srcq >? 0)) s i q0)
      as [s1 q1] eqn:Eio.
    eexists. split.
    + intros [| fuel] Hn; [lia |]. cbn [rd_kafka_q_prepend0]. rewrite E, Es, Ef, Efs.
      apply Nat.eqb_neq in Hd as ->. cbn [negb rd_assert].
      fold q0. by rewrite Eio.
    + apply io_event_if_queues in Eio as (Eq & Ed & El & _).
      destruct (mark_served_fields srcq) as (_ & _ & _ & Efm & _).
      split; [| split; [| split]].
      * eexists. rewrite get_put_ne by done. by split; [apply get_put_eq |].
      * eexists. split; [apply get_put_eq |]. split; [done |]. cbn. by rewrite Efm.
      * done.
      * intros j Hj Hj'. rewrite !get_put_ne by done. unfold q_get. by rewrite Eq.
  - destruct (IH Ee Es Efs Hd) as (s' & H & Hrest). exists s'. split; [| done].
    intros [| fuel] Hn; [lia |]. cbn [rd_kafka_q_prepend0]. rewrite E, Es, Ef, Efs.
    apply H. lia.
Qed.

Definition local_empty (s : q_state) : Prop :=
  exists q, q_get s localq = Some q /\ rkq_q q = [] /\ rkq_fwdq q = None.

Lemma serve_loop_spec l s q c0 :
  serving s -> q_get s localq = Some q -> rkq_q q = l -> Forall servable l -> i32 c0 = c0 ->
  exists n cnt s' ops rest y s1,
    (forall fuel, (n < fuel)%nat ->
       serve_loop conf call op_cb serve_cb fuel s rkq localq cb_type callback c0
       = Some (cnt, s')) /\
    l = ops ++ rest /\ handled s ops y s1 /\ cnt = i32 (c0 + zlen ops) /\
    (y = false -> rest = []) /\ put_back s1 rest s' /\ local_empty s'.
Proof.
  revert s q c0. induction l as [| o l IH]; intros s q c0 Hs E El Hok Hc.
  - exists 0%nat, c0, s, [], [], false, s. conj.
    + intros [| fuel] Hn; [lia |]. cbn [serve_loop]. by rewrite E, El.
    + cbn [length]. rewrite <- Hc at 1. f_equal. lia.
    + by apply put_back_none.
    + destruct Hs as (_ & _ & (q0 & E0 & Ef) & _). exists q. by simplify_eq.
  - assert (rkq_q (rd_kafka_q_deq0 q o) = l) as Ed by (by apply deq0_head).
    set (sd := qs_put s localq (rd_kafka_q_deq0 q o)).
    assert (serving sd) as Hsd by (by eapply serving_put).
    apply Forall_cons_iff in Hok as [Ho Hok].
    destruct (Hhandle sd o Hsd Ho) as (res & o' & s1 & Eh & Hp & Hs1 & El1).
    assert (q_get s1 localq = Some (rd_kafka_q_deq0 q o)) as E1
      by (rewrite El1; apply get_put_eq).
    destruct (decide (res = RD_KAFKA_OP_RES_YIELD \/ rd_kafka_yield_thread s1 = true)) as [Hy | Hy].
    + pose proof Hs1 as (Hf1 & [q1 Eq1] & (ql & Eql & Efl) & Hn1).
      destruct (Hf1 _ _ Eq1) as (m & e & Hl).
      pose proof (leads_ends_elsewhere _ _ _ _ Hn1 Hne Hl) as He.
      destruct (leads_end _ _ _ _ Hl) as (qe & Ee & _).
      assert (ql = rd_kafka_q_deq0 q o) as -> by congruence.
      destruct (prepend_leads s1 rkq m e localq _ qe Hl Ee E1 Efl He)
        as (s' & Hpre & (qe' & Ee' & Eqe') & (q' & Eq' & Eq0 & Efq') & Hdest & Hoth).
      exists m, (i32 (c0 + 1)), (match l with [] => s1 | _ => s' end), [o], l, true, s1. conj.
      * intros [| fuel] Hn; [lia |]. cbn [serve_loop]. rewrite E, El. fold sd.
        unfold handle in Eh. rewrite Eh, bool_decide_false by done. cbn [negb rd_assert].
        replace (_ || _) with true by
          (symmetry; apply orb_true_iff; rewrite bool_decide_eq_true; tauto).
        rewrite E1, Ed. destruct l; [done |]. by rewrite Hpre.
      * by eapply handled_yield.
      * destruct l as [| x l]; [by apply put_back_none |].
        exists m, e, qe, qe'. rewrite Eqe', Ed. conj.
      * destruct l as [| x l]; [by exists (rd_kafka_q_deq0 q o) | by exists q'].
    + assert (rd_kafka_yield_thread s1 = false) as Hy'
        by (destruct (rd_kafka_yield_thread s1); [tauto | done]).
      assert (res <> RD_KAFKA_OP_RES_YIELD) as Hy1 by tauto.
      destruct (IH s1 _ (i32 (c0 + 1)) Hs1 E1 Ed Hok (swrap_swrap 32 _ ltac:(lia)))
        as (n & cnt & s' & ops & rest & y & s2 & Hrun & -> & Hh & -> & Hrest & Hpb & Hle).
      exists (S n), (i32 (i32 (c0 + 1) + zlen ops)), s', (o :: ops), rest, y, s2. conj.
      * intros [| fuel] Hn; [lia |]. cbn [serve_loop]. rewrite E, El. fold sd.
        unfold handle in Eh. rewrite Eh, bool_decide_false by done. cbn [negb rd_assert].
        rewrite bool_decide_false, Hy' by done. cbn [orb]. apply Hrun. lia.
      * by eapply handled_one.
      * rewrite swrap_add_l by lia. f_equal. cbn [length]. lia.
Qed.

(** The state in which [ops] are on the local queue and [rest] on the one that is
    served, and all else is as in [s]. *)
Definition moved (s : q_state) (ops rest : list rd_kafka_op) (s' : q_state) : Prop :=
  (exists q, q_get s' localq = Some q /\ rkq_q q = ops /\ rkq_fwdq q = None) /\
  (exists q, q_get s' rkq = Some q /\ rkq_q q = rest /\ rkq_fwdq q = None) /\
  (forall j, j <> rkq -> j <> localq -> q_get s' j = q_get s j) /\
  qs_destroyed s' = qs_destroyed s.

Lemma move_all_local s q :
  q_get s localq = Some rd_kafka_q_init0 -> q_get s rkq = Some q -> rkq_fwdq q = None ->
  prio_sorted (rkq_q q) -> rkq_qlen q <> 0 ->
  exists s', (forall fuel, (0 < fuel)%nat ->
      rd_kafka_q_concat0 fuel s localq rkq = Some (0, s')) /\
    moved s (rkq_q q) [] s'.
Proof.
  intros El E Ef Hs Hn. destruct (concat_prio_loop [] (rkq_q q)) as [l rest] eqn:Ec.
  pose proof (concat_prio_order _ _ _ _ (Hs : prio_sorted ([] ++ rkq_q q)) Ec) as Hl.
  eexists. split.
  - intros [| fuel] Hf; [lia |]. cbn [rd_kafka_q_concat0 q_resolve].
    rewrite E, Ef, E. apply Z.eqb_neq in Hn as ->. rewrite El.
    cbn [rkq_fwdq rd_kafka_q_init0 rkq_q]. replace (Nat.eqb localq rkq) with false
      by (symmetry; apply Nat.eqb_neq; auto).
    cbn [negb rd_assert]. rewrite Ec. cbn.
    change (rd_kafka_q_ready rd_kafka_q_init0) with true. cbn [negb]. reflexivity.
  - destruct (mark_served_fields q) as (_ & _ & _ & Efm & _). split; [| split; [| split]].
    + eexists. rewrite get_put_ne by auto. split; [apply get_put_eq | done].
    + eexists. split; [apply get_put_eq |]. cbn. by rewrite Efm.
    + intros j Hj Hj'. by rewrite !get_put_ne.
    + done.
Qed.

Lemma move_to_local s q cnt :
  q_get s localq = Some rd_kafka_q_init0 -> q_get s rkq = Some q -> rkq_fwdq q = None ->
  prio_sorted (rkq_q q) -> q_counts q -> 0 < zlen (rkq_q q) < 2 ^ 31 -> cnt = -1 \/ 0 < cnt ->
  let k := if cnt =? -1 then zlen (rkq_q q) else cnt in
  exists m s', (forall fuel, (1 < fuel)%nat ->
      rd_kafka_q_move_cnt fuel s localq rkq cnt = Some (m, s')) /\
    moved s (ztake k (rkq_q q)) (zdrop k (rkq_q q)) s'.
Proof.
  intros El E Ef Hs [Hn _] Hlen Hcnt k.
  assert (rkq_qlen q = zlen (rkq_q q)) as Hq
    by (rewrite Hn; apply swrap_small; [lia | unfold in_i; lia]).
  set (sl := qs_put s localq rd_kafka_q_init0).
  assert (q_get sl localq = Some rd_kafka_q_init0) as El1 by apply get_put_eq.
  assert (q_get sl rkq = Some q) as E1 by (by unfold sl; rewrite get_put_ne by auto).
  assert (forall j, j <> rkq -> j <> localq -> q_get sl j = q_get s j) as Hsl
    by (intros j Hj Hj'; by unfold sl; rewrite get_put_ne by auto).
  assert (Nat.eqb localq rkq = false) as Hneb by (apply Nat.eqb_neq; auto).
  destruct ((cnt =? -1) || (cnt >=? rkq_qlen q)) eqn:Hb.
  - destruct (move_all_local sl q El1 E1 Ef Hs ltac:(lia)) as (s1 & Hc & Hm).
    pose proof Hm as ((ql & Eql & Eqlq & Eqlf) & (qr & Er & Erq & Erf) & Hoth & Hd).
    exists (rkq_qlen q), (qs_put s1 rkq (rd_kafka_q_mark_served qr)). split.
    + intros [| [| fuel]] Hf; [lia.. |]. cbn [rd_kafka_q_move_cnt].
      rewrite El, E. cbn [rkq_fwdq rd_kafka_q_init0]. rewrite Ef, Hneb. cbn [negb rd_assert].
      replace (q_io_event_if _ s localq _) with (s, rd_kafka_q_init0)
        by (unfold q_io_event_if, rd_kafka_q_io_event; by destruct (_ && _)).
      fold sl. rewrite Hb, Hc by lia. by rewrite Er.
    + assert (zlen (rkq_q q) <= k) as Hk
        by (unfold k; destruct (cnt =? -1); [lia | cbn [orb] in Hb; zbool; lia]).
      rewrite ztake_all, zdrop_all by done.
      destruct (mark_served_fields qr) as (Emq & _ & _ & Emf & _).
      split; [| split; [| split]].
      * exists ql. by rewrite get_put_ne by auto.
      * eexists. split; [apply get_put_eq |]. by rewrite Emq, Emf.
      * intros j Hj Hj'. rewrite get_put_ne by auto. rewrite Hoth by auto. auto.
      * done.
  - apply orb_false_iff in Hb as [Hb1 Hb2].
    destruct (move_cnt_loop (Z.to_nat cnt) rd_kafka_q_init0 q 0) as [[ql qr] m] eqn:Em.
    destruct (move_cnt_order _ rd_kafka_q_init0 q _ _ _ _ Hs Em) as (Eqlq & Erq & Eqlf & Erf).
    destruct (mark_served_fields qr) as (Emq & _ & _ & Emf & _).
    exists m, (qs_put (qs_put (qs_put sl localq ql) rkq qr) rkq (rd_kafka_q_mark_served qr)).
    split.
    + intros [| fuel] Hf; [lia |]. cbn [rd_kafka_q_move_cnt].
      rewrite El, E. cbn [rkq_fwdq rd_kafka_q_init0]. rewrite Ef, Hneb. cbn [negb rd_assert].
      replace (q_io_event_if _ s localq _) with (s, rd_kafka_q_init0)
        by (unfold q_io_event_if, rd_kafka_q_io_event; by destruct (_ && _)).
      fold sl. rewrite Hb1, Hb2. cbn [orb]. rewrite Em. by rewrite get_put_eq.
    + unfold k. rewrite Hb1. split; [| split; [| split]].
      * exists ql. rewrite !get_put_ne by auto. split; [apply get_put_eq |]. by rewrite Eqlf.
      * eexists. split; [apply get_put_eq |]. by rewrite Emq, Emf, Erf.
      * intros j Hj Hj'. rewrite !get_put_ne by auto; auto.
      * done.
Qed.

Lemma destroy_owner_empty s :
  local_empty s ->
  exists s', (forall fuel, (0 < fuel)%nat -> rd_kafka_q_destroy_owner fuel s localq = Some s') /\
    q_get s' localq = None /\ (forall j, j <> localq -> q_get s' j = q_get s j) /\
    qs_destroyed s' = qs_destroyed s.
Proof.
  intros (q & E & El & Ef). eexists. split.
  - intros fuel Hf. unfold rd_kafka_q_destroy_owner, rd_kafka_q_destroy_final, rd_kafka_q_fwd_set0.
    rewrite E. rewrite (purge0_here _ localq (rd_kafka_q_disable0 q)) by (done || apply get_put_eq).
    cbn [rd_kafka_q_disable0 rkq_q q_set_flags]. rewrite El. cbn [destroy_ops fold_left].
    rewrite get_put_eq, bool_decide_false, get_put_eq by done.
    erewrite purge0_here; [reflexivity | apply get_put_eq | done | done].
  - cbn [rkq_q rd_kafka_q_reset q_set_q q_set_fwdq rd_kafka_q_disable0 q_set_flags q_set_qio
      destroy_ops fold_left]. split; [| split].
    + rewrite get_drop. by case_decide.
    + intros j Hj. rewrite get_drop. case_decide; [congruence |]. by rewrite !get_put_ne by auto.
    + done.
Qed.

Lemma nobody_forwards s :
  fwd_ok s -> q_get s localq = None ->
  forall k q, q_get s k = Some q -> rkq_fwdq q <> Some localq.
Proof.
  intros Hf En k q E Efq. destruct (Hf _ _ E) as (n & d & Hl).
  destruct Hl as [i q0 E0 Ef0 | i q0 j n d E0 Ef0 Hl]; [congruence |].
  assert (j = localq) by congruence. destruct Hl; congruence.
Qed.


Lemma moved_serving s q0 s' ops rest :
  fwd_ok s -> q_get s localq = None -> q_get s rkq = Some q0 -> rkq_fwdq q0 = None ->
  moved s ops rest s' -> serving s'.
Proof.
  intros Hf En E0 Ef0 ((ql & El & _ & Elf) & (qr & Er & _ & Erf) & Hoth & _).
  split; [| split; [eauto | split; [eauto |]]].
  - eapply fwd_ok_change; [exact Hf | | exact (leads_here _ _ _ El Elf)].
    intros j Hj. destruct (decide (j = rkq)) as [Hjr |]; [| by rewrite Hoth].
    subst j. rewrite Er, E0. cbn. by rewrite Erf, Ef0.
  - intros k qk Ek. destruct (decide (k = localq)) as [| Hk]; [subst k; congruence |].
    destruct (decide (k = rkq)) as [| Hk']; [subst k; congruence |].
    rewrite Hoth in Ek by done. by eapply nobody_forwards.
Qed.

(** The queue that is served once its ops are on the local queue. *)
Lemma serve_starts s i n q max_cnt :
  wf s -> leads s i n rkq -> q_get s rkq = Some q -> q_get s localq = None ->
  prio_sorted (rkq_q q) -> 0 < zlen (rkq_q q) < 2 ^ 31 -> 0 <= max_cnt ->
  let k := if max_cnt =? 0 then zlen (rkq_q q) else max_cnt in
  exists s0, moved s (ztake k (rkq_q q)) (zdrop k (rkq_q q)) s0 /\ serving s0 /\
    forall fuel waits, (n < fuel)%nat -> (1 < fuel)%nat ->
    rd_kafka_q_serve conf call op_cb serve_cb fuel s i localq max_cnt cb_type callback waits
    = let* (cnt, s1) := serve_loop conf call op_cb serve_cb fuel s0 rkq localq cb_type
                          callback 0 in
      let* s1 := rd_kafka_q_destroy_owner fuel s1 localq in Some (cnt, s1).
Proof.
  intros Hwf Hl E En Hs Hlen Hmax k.
  destruct (leads_end _ _ _ _ Hl) as (q0 & E0 & Ef). assert (q0 = q) by congruence. subst q0.
  destruct (mark_served_fields q) as (Emq & Emn & Emz & Emf & _).
  set (s2 := qs_put (qs_put s rkq (rd_kafka_q_mark_served q)) localq rd_kafka_q_init0).
  assert (q_get s2 localq = Some rd_kafka_q_init0) as El2 by apply get_put_eq.
  assert (q_get s2 rkq = Some (rd_kafka_q_mark_served q)) as E2
    by (unfold s2; rewrite get_put_ne by auto; apply get_put_eq).
  destruct (move_to_local s2 _ (if max_cnt =? 0 then -1 else max_cnt) El2 E2)
    as (m & s3 & Hm & Hmv); rewrite ?Emq, ?Emf; [done | done | | done | |].
  { apply mark_served_counts. eapply counters_get; [apply Hwf | done]. }
  { destruct (Z.eqb_spec max_cnt 0); lia. }
  assert ((if (if max_cnt =? 0 then -1 else max_cnt) =? -1 then zlen (rkq_q q)
           else if max_cnt =? 0 then -1 else max_cnt) = k) as Hk
    by (unfold k; destruct (Z.eqb_spec max_cnt 0); [done |];
        destruct (Z.eqb_spec max_cnt (-1)); [lia | done]).
  rewrite Emq, Hk in Hmv.
  assert (moved s (ztake k (rkq_q q)) (zdrop k (rkq_q q)) (qs_set_yield s3 false)) as Hmv'.
  { destruct Hmv as (H1 & H2 & Hoth & Hd). split; [exact H1 | split; [exact H2 | split]].
    - intros j Hj Hj'. transitivity (q_get s2 j); [by apply Hoth |].
      unfold s2. by rewrite !get_put_ne by auto.
    - exact Hd. }
  exists (qs_set_yield s3 false). split; [done |]. split.
  { eapply moved_serving; [by apply wf_fwd_ok | done | done | done | done]. }
  intros fuel waits Hn Hf. unfold rd_kafka_q_serve. rewrite (leads_resolve _ _ _ _ _ Hl Hn).
  destruct (rkq_q q) as [| o l] eqn:Eq; [cbn in Hlen; lia |].
  destruct waits as [| w waits]; cbn [wait_loop]; rewrite E, Eq; unfold q_served; rewrite E;
    fold s2; by rewrite Hm.
Qed.

(** C39. A queue that has ops is served: the first [max_cnt] of them, or all, are handled
    one after the other in the order of the queue, up to one whose callback yields.  Those
    that are left go back in front of the queue, or of the one it is forwarded to by then,
    in their order and before what has been enqueued in the meantime; no op is skipped,
    handled twice or lost, and the local queue is gone. *)
Theorem serve_in_order s i n q max_cnt waits
    (Hwf : wf s) (Hl : leads s i n rkq) (Hq : q_get s rkq = Some q)
    (Hlocal : q_get s localq = None) (Hsorted : prio_sorted (rkq_q q))
    (Hlen : 0 < zlen (rkq_q q) < 2 ^ 31) (Hops : Forall servable (rkq_q q))
    (Hmax : 0 <= max_cnt) :
  let k := if max_cnt =? 0 then zlen (rkq_q q) else max_cnt in
  exists m s' ops rest yield s0 s1,
    (forall fuel, (m < fuel)%nat ->
       rd_kafka_q_serve conf call op_cb serve_cb fuel s i localq max_cnt cb_type callback waits
       = Some (zlen ops, s')) /\
    ztake k (rkq_q q) = ops ++ rest /\ moved s (ops ++ rest) (zdrop k (rkq_q q)) s0 /\
    handled s0 ops yield s1 /\ (yield = false -> rest = []) /\
    put_back s1 rest s' /\ q_get s' localq = None.
Proof.
  intros k. destruct (serve_starts s i n q max_cnt Hwf Hl Hq Hlocal Hsorted Hlen Hmax)
    as (s0 & Hmv & Hsv & Hrun). fold k in Hmv.
  pose proof Hmv as ((ql & El & Elq & _) & _).
  assert (Forall servable (ztake k (rkq_q q))) as Hk by (by apply Forall_take).
  destruct (serve_loop_spec _ s0 ql 0 Hsv El Elq Hk eq_refl)
    as (m & cnt & s2 & ops & rest & y & s1 & Hloop & Esplit & Hh & -> & Hy & Hpb & Hle).
  destruct (destroy_owner_empty s2 Hle) as (s' & Hd & Hgone & Hoth & Hdest).
  exists (n + m + 1)%nat, s', ops, rest, y, s0, s1. rewrite Esplit in Hmv |- *. conj.
  - intros fuel Hf. rewrite Hrun, Hloop, Hd by lia. f_equal. f_equal.
    apply swrap_small; [lia |]. unfold in_i.
    assert (zlen ops <= zlen (rkq_q q)); [| lia].
    pose proof (ztake_drop k (rkq_q q)) as Ht. rewrite Esplit in Ht. rewrite <- Ht.
    rewrite !length_app. lia.
  - destruct Hpb as (m' & e & qe & qe' & H1 & H2 & H3 & H4 & H5 & H6 & H7).
    exists m', e, qe, qe'. conj.
    + by rewrite Hoth.
    + by rewrite Hdest.
    + intros j Hj Hj'. rewrite Hoth by done. auto.
Qed.

End Serve.

(** ** A run *)

(** Three ops whose callback yields at the second one. *)
Definition stats_op (id : Z) : rd_kafka_op := rd_kafka_op_new id RD_KAFKA_OP_STATS.

Definition stats_conf : q_conf :=
  mk_q_conf false false false true false false true None true 0 false.

Definition yields_at_2 (c : q_call) (s : q_state) : q_state :=
  match c with
  | CallStats o => if rko_id o =? 2 then qs_set_yield s true else s
  | _ => s
  end.

Definition no_cb (_ : nat) (s : q_state) (_ : nat) (o : rd_kafka_op) : op_result :=
  Some (RD_KAFKA_OP_RES_HANDLED, o, s).

Definition stats_queue : q_state :=
  mk_qs {[ 0%nat := mk_q None [stats_op 1; stats_op 2; stats_op 3] 3 0 RD_KAFKA_Q_F_READY
                      None None ]} ∅ false [] [].

Lemma stats_handled s o :
  serving 0 1 s -> rko_type o = RD_KAFKA_OP_STATS /\ rko_serve o = None ->
  exists res o' s', handle stats_conf yields_at_2 no_cb (fun _ s _ o _ => no_cb 0 s 0 o)
      RD_KAFKA_Q_CB_CALLBACK (Some (rd_kafka_poll_cb stats_conf yields_at_2 no_cb 5)) 1 s o
    = Some (res, o', s') /\ res <> RD_KAFKA_OP_RES_PASS /\ serving 0 1 s' /\
    q_get s' 1 = q_get s 1.
Proof.
  intros Hs [Ht Hserve].
  assert (handle stats_conf yields_at_2 no_cb (fun _ s _ o _ => no_cb 0 s 0 o)
      RD_KAFKA_Q_CB_CALLBACK (Some (rd_kafka_poll_cb stats_conf yields_at_2 no_cb 5)) 1 s o
    = Some (RD_KAFKA_OP_RES_HANDLED, op_set_serve o None,
        rd_kafka_op_destroy (yields_at_2 (CallStats (op_set_serve o None)) s)
          (op_set_serve o None))) as ->.
  { unfold handle, rd_kafka_op_handle, rd_kafka_op_handle_std, rd_kafka_op_is_ctrl_msg, has_flag.
    rewrite Hserve. cbn [rko_type op_set_serve]. rewrite Ht. cbn.
    change (Z.land RD_KAFKA_OP_STATS RD_KAFKA_OP_CB =? 0) with true.
    change (Z.land RD_KAFKA_OP_STATS RD_KAFKA_OP_REPLY =? 0) with true.
    cbn [negb]. rewrite !andb_false_r. cbn [andb].
    unfold rd_kafka_poll_cb.
    rewrite (bool_decide_false (RD_KAFKA_Q_CB_CALLBACK = RD_KAFKA_Q_CB_EVENT)) by done.
    rewrite (bool_decide_false (RD_KAFKA_Q_CB_CALLBACK = RD_KAFKA_Q_CB_FORCE_RETURN)) by done.
    cbn [rko_type op_set_serve]. by rewrite Ht. }
  do 3 eexists. split; [done | split; [done |]].
  split; [| cbn; by destruct (_ =? 2)].
  eapply serving_same; [| exact Hs]. intros i. cbn. by destruct (_ =? 2).
Qed.

Lemma serve_in_order_witness :
  exists m n s', forall fuel, (m < fuel)%nat ->
    rd_kafka_q_serve stats_conf yields_at_2 no_cb (fun _ s _ o _ => no_cb 0 s 0 o) fuel
      stats_queue 0 1 0 RD_KAFKA_Q_CB_CALLBACK
      (Some (rd_kafka_poll_cb stats_conf yields_at_2 no_cb 5)) [] = Some (n, s').
Proof.
  destruct (serve_in_order stats_conf yields_at_2 no_cb (fun _ s _ o _ => no_cb 0 s 0 o)
    RD_KAFKA_Q_CB_CALLBACK (Some (rd_kafka_poll_cb stats_conf yields_at_2 no_cb 5)) 0 1
    (fun o => rko_type o = RD_KAFKA_OP_STATS /\ rko_serve o = None) stats_handled
    ltac:(done) stats_queue 0 0
    (mk_q None [stats_op 1; stats_op 2; stats_op 3] 3 0 RD_KAFKA_Q_F_READY None None) 0 [])
    as (m & s' & ops & rest & y & s0 & s1 & H & _).
  - split.
    + intros i q E. destruct (decide (i = 0%nat)) as [-> | Hi].
      * exists 0%nat, 0%nat. eapply leads_here; [exact E |]. by injection E as <-.
      * unfold q_get, stats_queue in E. cbn [qs_q] in E. by rewrite lookup_singleton_ne in E.
    + apply map_Forall_singleton. by vm_compute.
  - by eapply leads_here.
  - reflexivity.
  - reflexivity.
  - repeat constructor; unfold higher; cbn; lia.
  - cbn. lia.
  - repeat constructor.
  - lia.
  - exists m, (zlen ops), s'. exact H.
Defined.
