(* ===== verification/QueueBatch.v ===== *)
(** * Batches of messages read by the application

    [rd_kafka_q_serve_rkmessages] on a queue of fetched messages and version barriers:
    which messages it returns, and what it does to the offsets of their partitions.  The
    examples at the end are runs of the queues in which the code does not do what it, or
    a comment in it, says. *)

From stdpp Require Import gmap.
From S2P Require Import Prelude Queue QueueFacts.

Section Batch.
Context (conf : q_conf) (call : q_call -> q_state -> q_state).
Context (op_cb : nat -> q_state -> nat -> rd_kafka_op -> op_result).

(** A fetched message of a known partition, or a barrier. *)
Definition fetched (s : q_state) (o : rd_kafka_op) : Prop :=
  (rko_type o = RD_KAFKA_OP_FETCH /\ rko_err o = 0 /\
   exists p t, rko_rktp o = Some p /\ qs_rktp s !! p = Some t) \/
  rko_type o = RD_KAFKA_OP_BARRIER.

Definition is_barrier (o : rd_kafka_op) : bool := rko_type o =? RD_KAFKA_OP_BARRIER.

(** Not outdated by the version of its partition. *)
Definition current (s : q_state) (o : rd_kafka_op) : bool :=
  negb (rd_kafka_op_version_outdated s o 0).

(** No barrier among [later] outdates the message. *)
Definition survives (s : q_state) (later : list rd_kafka_op) (o : rd_kafka_op) : bool :=
  forallb (fun b => negb (is_barrier b && current s b
                          && rd_kafka_op_version_outdated s o (rko_version b))) later.

(** The messages for the application: those that are neither outdated nor control
    messages and that no later barrier outdates, in the order of the queue. *)
Fixpoint batch (s : q_state) (l : list rd_kafka_op) : list rd_kafka_op :=
  match l with
  | [] => []
  | o :: l =>
      (if negb (is_barrier o) && current s o && negb (fetch_control (rko_u o))
          && survives s l o then [o] else []) ++ batch s l
  end.

(** The offset after the last message of a partition that is not outdated. *)
Fixpoint next_offset (s : q_state) (p : nat) (l : list rd_kafka_op) (offset : Z) : Z :=
  match l with
  | [] => offset
  | o :: l =>
      next_offset s p l
        (if negb (is_barrier o) && current s o && bool_decide (rko_rktp o = Some p)
         then i64 (fetch_offset (rko_u o) + 1) else offset)
  end.

(** The versions of partitions are those of [s], and nobody has asked to yield. *)
Definition same_versions (s s' : q_state) : Prop :=
  forall p, rktp_version <$> qs_rktp s !! p = rktp_version <$> qs_rktp s' !! p.

#[export] Instance same_versions_pre : PreOrder same_versions.
Proof. split; [now intros s p | intros s t u H1 H2 p]. now rewrite H1, H2. Qed.

Lemma outdated_same s s' o v :
  same_versions s s' ->
  rd_kafka_op_version_outdated s' o v = rd_kafka_op_version_outdated s o v.
Proof.
  intros H. unfold rd_kafka_op_version_outdated. destruct (rko_version o =? 0); [done |].
  destruct (negb _); [done |]. destruct (rko_rktp o) as [p |]; [| done]. specialize (H p).
  destruct (qs_rktp s !! p), (qs_rktp s' !! p); cbn in H; congruence.
Qed.

Lemma fetched_same s s' o : same_versions s s' -> fetched s o -> fetched s' o.
Proof.
  intros H [(Ht & He & p & t & Ep & Et) | Hb]; [left | by right]. split; [done | split; [done |]].
  specialize (H p). rewrite Et in H. destruct (qs_rktp s' !! p) as [t' |] eqn:E; [| done]. eauto.
Qed.

Lemma purge_outdated_spec s v l :
  rd_kafka_purge_outdated_messages s v l
  = (filter (fun o => rd_kafka_op_version_outdated s o v = false) l,
     destroy_ops s (filter (fun o => rd_kafka_op_version_outdated s o v = true) l)).
Proof.
  revert s. induction l as [| o l IH]; intros s; cbn [rd_kafka_purge_outdated_messages]; [done |].
  rewrite !IH. destruct (rd_kafka_op_version_outdated s o v) eqn:E.
  - rewrite filter_cons_False by (rewrite E; done). by rewrite filter_cons_True.
  - rewrite filter_cons_True by done. rewrite filter_cons_False by (rewrite E; done). done.
Qed.

Lemma survives_cons s b l o :
  survives s (b :: l) o
  = negb (is_barrier b && current s b && rd_kafka_op_version_outdated s o (rko_version b))
    && survives s l o.
Proof. done. Qed.

Lemma current_same s s' o : same_versions s s' -> current s' o = current s o.
Proof. intros H. unfold current. by rewrite (outdated_same s s'). Qed.

Lemma survives_same s s' l o : same_versions s s' -> survives s' l o = survives s l o.
Proof.
  intros H. unfold survives. induction l as [| b l IH]; [done |]. cbn.
  by rewrite IH, (current_same s s'), (outdated_same s s').
Qed.

Lemma batch_same s s' l : same_versions s s' -> batch s' l = batch s l.
Proof.
  intros H. induction l as [| o l IH]; [done |]. cbn [batch].
  by rewrite IH, (current_same s s'), (survives_same s s').
Qed.

Lemma next_offset_same s s' p l off :
  same_versions s s' -> next_offset s' p l off = next_offset s p l off.
Proof.
  intros H. revert off. induction l as [| o l IH]; intros off; [done |]. cbn [next_offset].
  by rewrite (current_same s s').
Qed.

Definition surviving (s : q_state) (l acc : list rd_kafka_op) : list rd_kafka_op :=
  filter (fun o => survives s l o = true) acc.

Lemma surviving_snoc s l acc o :
  surviving s l (acc ++ [o]) = surviving s l acc ++ (if survives s l o then [o] else []).
Proof.
  unfold surviving. rewrite list.filter_app. f_equal. destruct (survives s l o) eqn:E.
  - by rewrite filter_cons_True.
  - by rewrite filter_cons_False by congruence.
Qed.

Lemma surviving_cons s b l acc :
  surviving s (b :: l) acc
  = surviving s l (filter (fun o => (is_barrier b && current s b
                     && rd_kafka_op_version_outdated s o (rko_version b)) = false) acc).
Proof.
  unfold surviving. rewrite list_filter_filter. apply list_filter_iff. intros o.
  rewrite survives_cons, andb_true_iff, negb_true_iff. tauto.
Qed.

Lemma surviving_nothing s b l acc :
  is_barrier b && current s b = false -> surviving s (b :: l) acc = surviving s l acc.
Proof. intros H. rewrite surviving_cons, filter_all; [done |]. apply Forall_true. by rewrite H. Qed.

(** What one read of the queue leaves. *)
Definition took (s : q_state) (i : nat) (q : rd_kafka_q) (o : rd_kafka_op) : q_state :=
  qs_put (qs_put s i (rd_kafka_q_mark_served q)) i
    (rd_kafka_q_deq0 (rd_kafka_q_mark_served q) o).

Lemma took_queue s i q o l :
  rkq_q q = o :: l ->
  exists q', q_get (took s i q o) i = Some q' /\ rkq_q q' = l.
Proof.
  intros E. eexists. split; [apply get_put_eq |]. apply deq0_head.
  by rewrite (proj1 (mark_served_fields q)).
Qed.

(** The result of a run of the loop over [pre], with [rest] left on the queue. *)
Record batch_run (s : q_state) (i : nat) (size : Z) (l acc tmpq : list rd_kafka_op)
    (pre rest msgs tmpq' : list rd_kafka_op) (s' : q_state) : Prop := {
  br_split : l = pre ++ rest;
  br_msgs : msgs = surviving s pre acc ++ batch s pre;
  br_rest : exists q', q_get s' i = Some q' /\ rkq_q q' = rest;
  br_full : rest <> [] -> size <= zlen msgs;
  br_size : zlen acc <= size -> zlen msgs <= size;
  br_versions : same_versions s s';
  br_offsets : forall p t, qs_rktp s !! p = Some t ->
    exists t', qs_rktp s' !! p = Some t' /\
      rktp_app_offset t' = next_offset s p pre (rktp_app_offset t);
  br_ops : forall id,
    osum (ind id) msgs + osum (ind id) tmpq' + osum (ind id) (qs_destroyed s')
    = osum (ind id) acc + osum (ind id) tmpq + osum (ind id) (qs_destroyed s)
      + osum (ind id) pre }.

Lemma batch_run_stop s i size q' l acc tmpq s' :
  q_get s' i = Some q' -> rkq_q q' = l -> qs_rktp s' = qs_rktp s ->
  qs_destroyed s' = qs_destroyed s -> (l <> [] -> size <= zlen acc) ->
  batch_run s i size l acc tmpq [] l acc tmpq s'.
Proof.
  intros E El Et Ed Hf. split; cbn [app batch next_offset osum]; try done.
  - rewrite app_nil_r. unfold surviving. rewrite filter_all; [done |]. by apply Forall_true.
  - eauto.
  - intros p. by rewrite Et.
  - intros p t Ep. rewrite Et. eauto.
  - intros id. rewrite Ed. lia.
Qed.

(** One op more in front of a run: what it does to the state, the messages and the ops
    put away must fit. *)
Lemma batch_run_cons s i size o l acc tmpq s1 acc1 tmpq1 pre rest msgs tmpq' s' :
  batch_run s1 i size l acc1 tmpq1 pre rest msgs tmpq' s' ->
  same_versions s s1 -> (zlen acc <= size -> zlen acc1 <= size) ->
  surviving s pre acc1 ++ batch s pre = surviving s (o :: pre) acc ++ batch s (o :: pre) ->
  (forall p t, qs_rktp s !! p = Some t -> exists t', qs_rktp s1 !! p = Some t' /\
     rktp_app_offset t'
     = (if negb (is_barrier o) && current s o && bool_decide (rko_rktp o = Some p)
        then i64 (fetch_offset (rko_u o) + 1) else rktp_app_offset t)) ->
  (forall id, osum (ind id) acc1 + osum (ind id) tmpq1 + osum (ind id) (qs_destroyed s1)
              = osum (ind id) acc + osum (ind id) tmpq + osum (ind id) (qs_destroyed s)
                + ind id o) ->
  batch_run s i size (o :: l) acc tmpq (o :: pre) rest msgs tmpq' s'.
Proof.
  intros [-> Em Hr Hf Hz Hv Ho Hops] Hv1 Hz1 Hmsgs Hoff Hops1. split; try done.
  - rewrite Em, <- Hmsgs, (batch_same s s1) by done. f_equal. unfold surviving.
    apply list_filter_iff. intros x. by rewrite (survives_same s s1).
  - auto.
  - by etrans.
  - intros p t Et. destruct (Hoff _ _ Et) as (t1 & E1 & H1).
    destruct (Ho _ _ E1) as (t' & E' & H'). exists t'. split; [done |].
    rewrite H', (next_offset_same s s1) by done. cbn [next_offset]. by rewrite H1.
  - intros id. rewrite Hops. cbn [osum]. specialize (Hops1 id). lia.
Qed.

Lemma outdated_took s i q o x v :
  rd_kafka_op_version_outdated (took s i q o) x v = rd_kafka_op_version_outdated s x v.
Proof. done. Qed.

Lemma poll_fetch fuel s i o :
  rko_type o = RD_KAFKA_OP_FETCH ->
  rd_kafka_poll_cb conf call op_cb fuel s i o RD_KAFKA_Q_CB_RETURN
  = Some (RD_KAFKA_OP_RES_PASS, o, s).
Proof.
  intros Ht. unfold rd_kafka_poll_cb. rewrite bool_decide_false by done.
  rewrite Ht. cbn. by rewrite orb_true_r.
Qed.

Lemma osum_filter_split id (f : rd_kafka_op -> bool) l :
  osum (ind id) (filter (fun o => f o = false) l) + osum (ind id) (filter (fun o => f o = true) l)
  = osum (ind id) l.
Proof.
  induction l as [| o l IH]; [done |]. destruct (f o) eqn:E.
  - rewrite (filter_cons_False (fun o => f o = false)) by congruence.
    rewrite (filter_cons_True (fun o => f o = true)) by done. cbn. lia.
  - rewrite (filter_cons_True (fun o => f o = false)) by done.
    rewrite (filter_cons_False (fun o => f o = true)) by congruence. cbn. lia.
Qed.

(** What one round does to a message that is not outdated. *)
Lemma app_prepare_spec s o p t :
  rko_type o = RD_KAFKA_OP_FETCH -> rko_err o = 0 -> rko_rktp o = Some p ->
  qs_rktp s !! p = Some t ->
  exists s', rd_kafka_fetch_op_app_prepare conf s o = Some s' /\
    qs_q s' = qs_q s /\ qs_destroyed s' = qs_destroyed s /\
    rd_kafka_yield_thread s' = rd_kafka_yield_thread s /\ same_versions s s' /\
    forall p' t', qs_rktp s !! p' = Some t' -> exists t1, qs_rktp s' !! p' = Some t1 /\
      rktp_app_offset t1 = (if bool_decide (rko_rktp o = Some p')
                            then i64 (fetch_offset (rko_u o) + 1) else rktp_app_offset t').
Proof.
  intros Ht He Ep Et. unfold rd_kafka_fetch_op_app_prepare. rewrite Ht, He, Ep, Et. cbn.
  eexists. split; [done |]. conj.
  - intros p'. cbn. destruct (decide (p = p')) as [<- | Hp].
    + by rewrite lookup_insert_eq, Et.
    + by rewrite lookup_insert_ne.
  - intros p' t' Et'. cbn. destruct (decide (p = p')) as [<- | Hp].
    + rewrite lookup_insert_eq, bool_decide_true by done. eauto.
    + rewrite lookup_insert_ne, bool_decide_false by congruence. eauto.
Qed.


(** The queue is empty: the read returns what it has. *)
Lemma loop_empty i size s q acc tmpq :
  q_get s i = Some q -> rkq_q q = [] ->
  exists s', (forall fuel, (0 < fuel)%nat ->
      rkmessages_loop conf call op_cb fuel s i size acc tmpq [] = Some (acc, tmpq, s')) /\
    batch_run s i size [] acc tmpq [] [] acc tmpq s'.
Proof.
  intros E El. destruct (zlen acc <? size) eqn:Hz.
  - destruct (rd_kafka_q_check_yield q) as [q1 y] eqn:Ey.
    assert (rkq_q q1 = []) as Eq1.
    { unfold rd_kafka_q_check_yield in Ey. case_match; by injection Ey as <- <-. }
    exists (qs_put (qs_put s i q1) i (rd_kafka_q_mark_served q1)). split.
    + intros [| fuel] Hn; [lia |]. cbn [rkmessages_loop wait_loop]. rewrite Hz. cbn [negb].
      rewrite E, El, Ey. unfold q_served. by destruct y; rewrite get_put_eq.
    + eapply batch_run_stop; [apply get_put_eq | | done | done | done].
      by rewrite (proj1 (mark_served_fields q1)).
  - exists s. split; [| by eapply batch_run_stop].
    intros [| fuel] Hn; [lia |]. cbn [rkmessages_loop]. by rewrite Hz.
Qed.

(** One round of the loop, up to what is done with the op. *)
Lemma loop_round i size fuel s q acc tmpq o l :
  q_get s i = Some q -> rkq_q q = o :: l -> zlen acc < size ->
  rkmessages_loop conf call op_cb (S fuel) s i size acc tmpq []
  = let s := took s i q o in
    if rd_kafka_op_version_outdated s o 0
    then rkmessages_loop conf call op_cb fuel s i size acc (tmpq ++ [o]) []
    else if rko_type o =? RD_KAFKA_OP_BARRIER then
      let '(acc, s) := rd_kafka_purge_outdated_messages s (rko_version o) acc in
      rkmessages_loop conf call op_cb fuel (rd_kafka_op_destroy s o) i size acc tmpq []
    else
      let* (res, o, s) := rd_kafka_poll_cb conf call op_cb (S fuel) s i o RD_KAFKA_Q_CB_RETURN in
      match res with
      | RD_KAFKA_OP_RES_KEEP | RD_KAFKA_OP_RES_HANDLED =>
          rkmessages_loop conf call op_cb fuel s i size acc tmpq []
      | RD_KAFKA_OP_RES_YIELD => Some (acc, tmpq, s)
      | RD_KAFKA_OP_RES_PASS =>
          if rd_kafka_yield_thread s then Some (acc, tmpq, s)
          else
            let* s := if (rko_err o =? 0) && (rko_type o =? RD_KAFKA_OP_FETCH)
                      then rd_kafka_fetch_op_app_prepare conf s o else Some s in
            if rd_kafka_op_is_ctrl_msg o
            then rkmessages_loop conf call op_cb fuel (rd_kafka_op_destroy s o) i size acc tmpq []
            else
              let* _ := rd_assert (existsb (Z.eqb (rko_type o))
                [RD_KAFKA_OP_FETCH; RD_KAFKA_OP_ERR; RD_KAFKA_OP_CONSUMER_ERR]) in
              rkmessages_loop conf call op_cb fuel s i size (acc ++ [o]) tmpq []
      end.
Proof.
  intros E El Hz. cbn [rkmessages_loop wait_loop]. replace (zlen acc <? size) with true by
    (symmetry; apply Z.ltb_lt; lia). cbn [negb].
  rewrite E, El. unfold q_served. rewrite E, get_put_eq. done.
Qed.

(** A message that is for the application, or a control message. *)
Lemma round_fetch i size s q acc tmpq o l p t :
  q_get s i = Some q -> rkq_q q = o :: l -> zlen acc < size ->
  rko_type o = RD_KAFKA_OP_FETCH -> rko_err o = 0 -> rko_rktp o = Some p ->
  qs_rktp s !! p = Some t -> rd_kafka_op_version_outdated s o 0 = false ->
  rd_kafka_yield_thread s = false ->
  exists s', (exists q', q_get s' i = Some q' /\ rkq_q q' = l) /\
    qs_destroyed s' = qs_destroyed s /\ rd_kafka_yield_thread s' = false /\
    same_versions s s' /\
    (forall p' t', qs_rktp s !! p' = Some t' -> exists t1, qs_rktp s' !! p' = Some t1 /\
      rktp_app_offset t1 = (if bool_decide (rko_rktp o = Some p')
                            then i64 (fetch_offset (rko_u o) + 1) else rktp_app_offset t')) /\
    forall fuel,
    rkmessages_loop conf call op_cb (S fuel) s i size acc tmpq []
    = if fetch_control (rko_u o)
      then rkmessages_loop conf call op_cb fuel (rd_kafka_op_destroy s' o) i size acc tmpq []
      else rkmessages_loop conf call op_cb fuel s' i size (acc ++ [o]) tmpq [].
Proof.
  intros E El Hz Ht He Ep Et Ho Hy.
  destruct (app_prepare_spec (took s i q o) o p t Ht He Ep Et)
    as (s' & Hs' & Eq & Ed & Ey & Hv & Hoff).
  exists s'. destruct (took_queue s i q o l El) as (q' & Eq' & Elq).
  split; [exists q'; unfold q_get; by rewrite Eq |]. split; [done |]. split; [by rewrite Ey |].
  split; [exact Hv |]. split; [exact Hoff |].
  intros fuel'. rewrite (loop_round _ _ _ _ _ _ _ _ _ E El Hz). cbv zeta.
  rewrite outdated_took, Ho, poll_fetch by done. rewrite Ht at 1. cbn [Z.eqb].
  change (rd_kafka_yield_thread (took s i q o)) with (rd_kafka_yield_thread s).
  unfold rd_kafka_op_is_ctrl_msg. rewrite Hy, He, Ht. cbn [andb Z.eqb RD_KAFKA_OP_FETCH].
  change (RD_KAFKA_OP_FETCH =? RD_KAFKA_OP_BARRIER) with false. cbn [Z.eqb Pos.eqb andb].
  rewrite Hs'. by destruct (fetch_control (rko_u o)).
Qed.

Lemma batch_cons s o l :
  batch s (o :: l)
  = (if negb (is_barrier o) && current s o && negb (fetch_control (rko_u o)) && survives s l o
     then [o] else []) ++ batch s l.
Proof. done. Qed.

(** The messages that a barrier outdates, or those that it does not. *)
Definition out_by (s : q_state) (b : rd_kafka_op) (out : bool) (l : list rd_kafka_op)
  : list rd_kafka_op :=
  filter (fun x => rd_kafka_op_version_outdated s x (rko_version b) = out) l.

(** The three kinds of rounds, in terms of [batch_run]. *)
Lemma run_outdated s i size q o l acc tmpq pre rest msgs tmpq' s' :
  current s o = false ->
  batch_run (took s i q o) i size l acc (tmpq ++ [o]) pre rest msgs tmpq' s' ->
  batch_run s i size (o :: l) acc tmpq (o :: pre) rest msgs tmpq' s'.
Proof.
  intros Hc Hrun. eapply batch_run_cons; [exact Hrun | done | done | | |].
  - by rewrite surviving_nothing, batch_cons, Hc, andb_false_r by (by rewrite Hc, andb_false_r).
  - intros p t Et. exists t. by rewrite Hc, andb_false_r.
  - intros id. rewrite osum_app. cbn. lia.
Qed.

Lemma run_barrier s i size q o l acc tmpq pre rest msgs tmpq' s' :
  current s o = true -> is_barrier o = true ->
  batch_run (rd_kafka_op_destroy (destroy_ops (took s i q o) (out_by s o true acc)) o)
    i size l (out_by s o false acc) tmpq pre rest msgs tmpq' s' ->
  batch_run s i size (o :: l) acc tmpq (o :: pre) rest msgs tmpq' s'.
Proof.
  intros Hc Hb Hrun. rewrite destroy_ops_eq in Hrun.
  eapply batch_run_cons; [exact Hrun | done | | | |].
  - assert (length (out_by s o false acc) <= length acc)%nat by apply length_filter. lia.
  - rewrite surviving_cons, batch_cons, Hb, Hc. done.
  - intros p t Et. exists t. by rewrite Hb.
  - intros id. cbn. rewrite !osum_app. cbn.
    rewrite <- (osum_filter_split id
      (fun x => rd_kafka_op_version_outdated s x (rko_version o)) acc).
    unfold out_by. lia.
Qed.

Lemma run_fetch s i size o l acc tmpq pre rest msgs tmpq' s1 s' :
  current s o = true -> is_barrier o = false -> zlen acc < size ->
  qs_destroyed s1 = qs_destroyed s -> same_versions s s1 ->
  (forall p t, qs_rktp s !! p = Some t -> exists t', qs_rktp s1 !! p = Some t' /\
     rktp_app_offset t' = (if bool_decide (rko_rktp o = Some p)
                           then i64 (fetch_offset (rko_u o) + 1) else rktp_app_offset t)) ->
  batch_run (if fetch_control (rko_u o) then rd_kafka_op_destroy s1 o else s1) i size l
    (if fetch_control (rko_u o) then acc else acc ++ [o]) tmpq pre rest msgs tmpq' s' ->
  batch_run s i size (o :: l) acc tmpq (o :: pre) rest msgs tmpq' s'.
Proof.
  intros Hc Hb Hz Hd Hv Hoff Hrun. eapply batch_run_cons; [exact Hrun | | | | |].
  - by destruct (fetch_control _).
  - destruct (fetch_control _); rewrite ?length_app; cbn; lia.
  - rewrite surviving_nothing, batch_cons, Hb, Hc by (by rewrite Hb).
    destruct (fetch_control _); [done |]. rewrite surviving_snoc. cbn.
    by rewrite <- app_assoc.
  - intros p t Et. rewrite Hb, Hc. destruct (Hoff p t Et) as (t' & E' & H').
    exists t'. by destruct (fetch_control _).
  - intros id. destruct (fetch_control _); cbn; rewrite Hd, ?osum_app; cbn; lia.
Qed.

Lemma loop_runs i size l s q acc tmpq :
  q_get s i = Some q -> rkq_q q = l -> Forall (fetched s) l ->
  rd_kafka_yield_thread s = false ->
  exists pre rest msgs tmpq' s',
    (forall fuel, (length l < fuel)%nat ->
       rkmessages_loop conf call op_cb fuel s i size acc tmpq [] = Some (msgs, tmpq', s')) /\
    batch_run s i size l acc tmpq pre rest msgs tmpq' s'.
Proof.
  revert s q acc tmpq. induction l as [| o l IH]; intros s q acc tmpq E El Hf Hy.
  { destruct (loop_empty i size s q acc tmpq E El) as (s' & H & Hrun).
    exists [], [], acc, tmpq, s'. auto. }
  destruct (Z.le_gt_cases size (zlen acc)) as [Hz | Hz].
  { exists [], (o :: l), acc, tmpq, s. split; [| by eapply batch_run_stop].
    intros [| fuel] Hn; [lia |]. cbn [rkmessages_loop].
    by replace (zlen acc <? size) with false by (symmetry; apply Z.ltb_ge; lia). }
  apply Forall_cons_iff in Hf as [Ho Hf].
  destruct (took_queue s i q o l El) as (q' & E' & El').
  destruct (rd_kafka_op_version_outdated s o 0) eqn:Hout.
  { destruct (IH (took s i q o) q' acc (tmpq ++ [o]) E' El' Hf Hy)
      as (pre & rest & msgs & tmpq' & s' & H & Hrun).
    exists (o :: pre), rest, msgs, tmpq', s'. split.
    - intros [| fuel] Hn; [lia |]. rewrite (loop_round _ _ _ _ _ _ _ _ _ E El Hz). cbv zeta.
      rewrite outdated_took, Hout. apply H. cbn in Hn. lia.
    - eapply run_outdated; [by unfold current; rewrite Hout | done]. }
  assert (current s o = true) as Hc by (unfold current; by rewrite Hout).
  destruct Ho as [(Ht & He & p & t & Ep & Et) | Hb].
  - destruct (round_fetch i size s q acc tmpq o l p t E El Hz Ht He Ep Et Hout Hy)
      as (s1 & (q1 & E1 & El1) & Hd & Hy1 & Hv & Hoff & Hround).
    destruct (IH (if fetch_control (rko_u o) then rd_kafka_op_destroy s1 o else s1) q1
                (if fetch_control (rko_u o) then acc else acc ++ [o]) tmpq)
      as (pre & rest & msgs & tmpq' & s' & H & Hrun).
    + by destruct (fetch_control _).
    + done.
    + eapply Forall_impl; [| exact Hf]. intros x. apply fetched_same.
      by destruct (fetch_control _).
    + by destruct (fetch_control _).
    + exists (o :: pre), rest, msgs, tmpq', s'. split.
      * intros [| fuel] Hn; [lia |]. rewrite Hround. specialize (H fuel). cbn in Hn.
        destruct (fetch_control _); apply H; lia.
      * eapply run_fetch; try done. unfold is_barrier. by rewrite Ht.
  - destruct (IH (rd_kafka_op_destroy (destroy_ops (took s i q o) (out_by s o true acc)) o) q'
                (out_by s o false acc) tmpq) as (pre & rest & msgs & tmpq' & s' & H & Hrun);
      rewrite ?destroy_ops_eq; [done.. |].
    exists (o :: pre), rest, msgs, tmpq', s'. split.
    + intros [| fuel] Hn; [lia |]. rewrite (loop_round _ _ _ _ _ _ _ _ _ E El Hz). cbv zeta.
      rewrite outdated_took, Hout, Hb, purge_outdated_spec.
      change (RD_KAFKA_OP_BARRIER =? RD_KAFKA_OP_BARRIER) with true. apply H. cbn in Hn. lia.
    + eapply run_barrier; [done | unfold is_barrier; by rewrite Hb | done].
Qed.

(** C40. A read of at most [size] messages from a queue of fetched messages and barriers
    takes ops from its front until it has [size] messages or the queue is empty.  It
    returns, in their order, the messages that are not outdated, are no control messages
    and are not outdated by a barrier that comes after them; all other ops taken are
    destroyed, and what is left stays on the queue.  The offset of a partition is then the
    one after its last message taken that was not outdated. *)
Theorem rkmessages_current s i n d q size
    (Hl : leads s i n d) (Hq : q_get s d = Some q) (Hf : Forall (fetched s) (rkq_q q))
    (Hsize : 0 <= size) :
  exists m pre rest s',
    (forall fuel, (m < fuel)%nat ->
       rd_kafka_q_serve_rkmessages conf call op_cb fuel s i size []
       = Some (batch s pre, s')) /\
    rkq_q q = pre ++ rest /\ (exists q', q_get s' d = Some q' /\ rkq_q q' = rest) /\
    zlen (batch s pre) <= size /\ (rest <> [] -> zlen (batch s pre) = size) /\
    (forall p t, qs_rktp s !! p = Some t -> exists t', qs_rktp s' !! p = Some t' /\
       rktp_version t' = rktp_version t /\
       rktp_app_offset t' = next_offset s p pre (rktp_app_offset t)) /\
    (forall id, osum (ind id) (batch s pre) + osum (ind id) (qs_destroyed s')
                = osum (ind id) pre + osum (ind id) (qs_destroyed s)).
Proof.
  destruct (loop_runs d size (rkq_q q) (qs_set_yield s false) q [] [] Hq eq_refl Hf eq_refl)
    as (pre & rest & msgs & tmpq & s1 & H & [Hsplit Hm Hr Hfull Hz Hv Ho Hops]).
  rewrite (batch_same s) in Hm by done.
  change (surviving (qs_set_yield s false) pre []) with (@nil rd_kafka_op) in Hm.
  cbn [app] in Hm. subst msgs.
  exists (n + length (rkq_q q))%nat, pre, rest, (destroy_ops s1 tmpq). conj.
  - intros fuel Hn. unfold rd_kafka_q_serve_rkmessages.
    rewrite (leads_resolve _ _ _ _ _ Hl) by lia. by rewrite H by lia.
  - by rewrite destroy_ops_eq.
  - apply Hz. cbn. lia.
  - intros Hrest. specialize (Hfull Hrest). cbn [length] in Hz. lia.
  - intros p t Et. destruct (Ho p t Et) as (t' & E' & H'). exists t'. rewrite destroy_ops_eq.
    rewrite (next_offset_same s) in H' by done. conj. specialize (Hv p). change (qs_rktp (qs_set_yield s false)) with (qs_rktp s) in Hv.
    rewrite Et, E' in Hv. cbn in Hv. congruence.
  - intros id. specialize (Hops id). rewrite destroy_ops_eq. cbn [qs_destroyed].
    rewrite osum_app. cbn in Hops. lia.
Qed.

End Batch.

(** ** Concrete runs *)

Definition q_of (ops : list rd_kafka_op) (fwdq : option nat) (flags : Z) : rd_kafka_q :=
  mk_q fwdq ops (zlen ops) (osum rko_len ops) flags None None.

Definition state_of (qs : list (nat * rd_kafka_q)) (rktps : list (nat * op_toppar)) : q_state :=
  mk_qs (list_to_map qs) (list_to_map rktps) false [] [].

(** A message of partition [p]. *)
Definition message (id p version offset : Z) : rd_kafka_op :=
  mk_op id RD_KAFKA_OP_FETCH 0 0 version 0 100 0 (Some (Z.to_nat p)) None 0 None None
    (mk_op_u offset false [] false 0).

Definition barrier (id version : Z) : rd_kafka_op :=
  op_set_version (rd_kafka_op_new id RD_KAFKA_OP_BARRIER) version.

Definition plain_conf : q_conf :=
  mk_q_conf false false false true false false true None true 0 false.

(** An application that does nothing, and one that yields when it is told of the delivery
    of message 1 or of statistics. *)
Definition quiet_app : q_call -> q_state -> q_state := fun _ s => s.

Definition yielding_app (c : q_call) (s : q_state) : q_state :=
  match c with
  | CallDr 1 | CallStats _ => qs_set_yield s true
  | _ => s
  end.

Definition no_op_cb (_ : nat) (s : q_state) (_ : nat) (o : rd_kafka_op) : op_result :=
  Some (RD_KAFKA_OP_RES_HANDLED, o, s).

Definition no_serve_cb (_ : nat) (s : q_state) (_ : nat) (o : rd_kafka_op)
    (_ : rd_kafka_q_cb_type) : op_result := Some (RD_KAFKA_OP_RES_HANDLED, o, s).

Definition contents (s : q_state) (i : nat) : list Z :=
  match q_get s i with Some q => map rko_id (rkq_q q) | None => [] end.

(** Two partitions at version 2: the first message of partition 1 and the barrier of the
    seek that made it old, then one message of each partition. *)
Definition batch_state : q_state :=
  state_of [(0%nat, q_of [message 1 1 1 10; barrier 2 2; message 3 1 2 70; message 4 0 2 5]
                      None RD_KAFKA_Q_F_READY)]
           [(0%nat, mk_op_toppar 2 (-1001) (-1001)); (1%nat, mk_op_toppar 2 (-1001) (-1001))].

Lemma rkmessages_current_witness :
  exists m s', forall fuel, (m < fuel)%nat ->
    rd_kafka_q_serve_rkmessages plain_conf quiet_app no_op_cb fuel batch_state 0 10 []
    = Some ([message 3 1 2 70; message 4 0 2 5], s').
Proof.
  destruct (rkmessages_current plain_conf quiet_app no_op_cb batch_state 0 0 0
    (q_of [message 1 1 1 10; barrier 2 2; message 3 1 2 70; message 4 0 2 5] None
       RD_KAFKA_Q_F_READY) 10) as (m & pre & rest & s' & H & Hs & _ & _ & Hfull & _).
  - by apply (leads_here _ _ (q_of [message 1 1 1 10; barrier 2 2; message 3 1 2 70;
                                    message 4 0 2 5] None RD_KAFKA_Q_F_READY)).
  - reflexivity.
  - repeat (constructor; [first [by right | left; split; [done | split; [done |]];
      by do 2 eexists] |]). constructor.
  - lia.
  - exists m, s'. intros fuel Hf. rewrite (H fuel Hf).
    assert (pre = [message 1 1 1 10; barrier 2 2; message 3 1 2 70; message 4 0 2 5]) as ->;
      [| reflexivity].
    destruct rest as [| x rest]; [by rewrite app_nil_r in Hs |]. exfalso.
    specialize (Hfull ltac:(done)).
    do 5 (destruct pre as [| ? pre]; [simplify_list_eq; by vm_compute in Hfull |
                                       simplify_list_eq]).
Defined.

(** *** What the code does not do *)

(** The reports of the first op are not finished when its callback yields: the rest of
    them goes behind those of the second op. *)
Example reports_out_of_order :
  let dr := fun id msgs => op_set_u (rd_kafka_op_new id RD_KAFKA_OP_DR)
                             (mk_op_u 0 false msgs false 0) in
  let s := state_of [(0%nat, q_of [dr 10 [1; 2]; dr 20 [3]] None RD_KAFKA_Q_F_READY)] [] in
  exists s', rd_kafka_q_serve plain_conf yielding_app no_op_cb no_serve_cb 9 s 0 1 0
               RD_KAFKA_Q_CB_CALLBACK (Some (rd_kafka_poll_cb plain_conf yielding_app no_op_cb 9))
               [] = Some (1, s') /\
    match q_get s' 0 with
    | Some q => map (fun o => dr_msgq (rko_u o)) (rkq_q q) = [[3]; [2]]
    | None => False
    end.
Proof. eexists. split; vm_compute; reflexivity. Qed.

(** The callback for statistics yields and the next op is a message: it is on no queue,
    not destroyed and not returned. *)
Example message_lost_on_yield :
  let s := state_of [(0%nat, q_of [rd_kafka_op_new 1 RD_KAFKA_OP_STATS; message 2 0 2 5] None
                               RD_KAFKA_Q_F_READY)] [(0%nat, mk_op_toppar 2 (-1001) (-1001))] in
  exists s', rd_kafka_q_serve_rkmessages plain_conf yielding_app no_op_cb 9 s 0 10 []
             = Some ([], s') /\
    contents s' 0 = [] /\ map rko_id (qs_destroyed s') = [1].
Proof. eexists. split; [| split]; vm_compute; reflexivity. Qed.

(** The barrier of another partition, which is at version 5, takes a message of partition
    0 out of the batch: it is destroyed, and the offset after it is stored. *)
Example barrier_of_another_partition :
  let s := state_of [(0%nat, q_of [message 1 0 2 5; barrier 2 5] None RD_KAFKA_Q_F_READY)]
             [(0%nat, mk_op_toppar 2 (-1001) (-1001)); (1%nat, mk_op_toppar 5 (-1001) (-1001))] in
  exists s', rd_kafka_q_serve_rkmessages plain_conf quiet_app no_op_cb 9 s 0 10 []
             = Some ([], s') /\
    map rko_id (qs_destroyed s') = [1; 2] /\
    qs_rktp s' !! 0%nat = Some (mk_op_toppar 2 6 6).
Proof. eexists. split; [| split]; vm_compute; reflexivity. Qed.

(** Destroying a queue that is forwarded purges the queue it is forwarded to. *)
Example destroy_purges_destination :
  let s := state_of [(0%nat, q_of [] (Some 1%nat) RD_KAFKA_Q_F_READY);
                     (1%nat, q_of [message 1 0 2 5] None RD_KAFKA_Q_F_READY)] [] in
  exists s', rd_kafka_q_destroy_owner 9 s 0 = Some s' /\
    contents s' 1 = [] /\ map rko_id (qs_destroyed s') = [1].
Proof. eexists. split; [| split]; vm_compute; reflexivity. Qed.

(** An op that is destroyed because the queue it is forwarded to is disabled counts as
    enqueued. *)
Example destroyed_counts_as_enqueued :
  let s := state_of [(0%nat, q_of [] (Some 1%nat) RD_KAFKA_Q_F_READY); (1%nat, q_of [] None 0)] [] in
  exists s', rd_kafka_q_enq 9 s 0 (message 1 0 2 5) = Some (1, s') /\
    contents s' 1 = [] /\ map rko_id (qs_destroyed s') = [1].
Proof. eexists. split; [| split]; vm_compute; reflexivity. Qed.

(** A request to a queue that is disabled is answered by itself, with an error. *)
Example request_to_disabled_queue :
  let s := state_of [(0%nat, q_of [] None 0)] [] in
  exists o s', rd_kafka_op_req plain_conf quiet_app no_op_cb no_serve_cb 9 s 0 1
                 (rd_kafka_op_new 7 RD_KAFKA_OP_FETCH_STOP) [] = Some (Some o, s') /\
    rko_id o = 7 /\ rko_err o = RD_KAFKA_RESP_ERR__DESTROY.
Proof. do 2 eexists. split; [| split]; vm_compute; reflexivity. Qed.
