(* ===== verification/FetchState.v ===== *)
(** * The state of a consumer's partition (src/cbits/hs_rdkafka_partition.h)

    What of [rd_kafka_toppar_t] the fetching of messages uses, with the ops the main
    thread hands to it and the requests for offsets without an answer; and what it works
    on: the queues of ops, among them its fetch queue, and what it sends to others.  The
    fields that the queues use, [rktp_version], [rktp_app_offset] and
    [rktp_stored_offset], are those of Queue. *)

From stdpp Require Import gmap.
From S2P Require Import Prelude Producer KafkaBuf Slice RdBuf Queue.

(** ** Constants *)

Definition RD_KAFKA_TOPPAR_FETCH_NONE : Z := 0.
Definition RD_KAFKA_TOPPAR_FETCH_STOPPING : Z := 1.
Definition RD_KAFKA_TOPPAR_FETCH_STOPPED : Z := 2.
Definition RD_KAFKA_TOPPAR_FETCH_OFFSET_QUERY : Z := 3.
Definition RD_KAFKA_TOPPAR_FETCH_OFFSET_WAIT : Z := 4.
Definition RD_KAFKA_TOPPAR_FETCH_ACTIVE : Z := 5.

Definition RD_KAFKA_TOPPAR_FETCH_IS_STARTED (fetch_state : Z) : bool :=
  fetch_state >=? RD_KAFKA_TOPPAR_FETCH_OFFSET_QUERY.

Definition RD_KAFKA_TOPPAR_F_OFFSET_STORE : Z := 0x4.
Definition RD_KAFKA_TOPPAR_F_OFFSET_STORE_STOPPING : Z := 0x8.
Definition RD_KAFKA_TOPPAR_F_APP_PAUSE : Z := 0x10.
Definition RD_KAFKA_TOPPAR_F_LIB_PAUSE : Z := 0x20.
Definition RD_KAFKA_TOPPAR_F_REMOVE : Z := 0x40.
Definition RD_KAFKA_TOPPAR_F_ON_RKB : Z := 0x1000.

Definition RD_KAFKA_OFFSET_BEGINNING : Z := -2.
Definition RD_KAFKA_OFFSET_END : Z := -1.
Definition RD_KAFKA_OFFSET_STORED : Z := -1000.
Definition RD_KAFKA_OFFSET_INVALID : Z := -1001.
Definition RD_KAFKA_OFFSET_TAIL_BASE : Z := -2000.
Definition RD_KAFKA_OFFSET_IS_LOGICAL (off : Z) : bool := off <? 0.

Definition RD_KAFKA_OFFSET_METHOD_NONE : Z := 0.
Definition RD_KAFKA_OFFSET_METHOD_FILE : Z := 1.
Definition RD_KAFKA_OFFSET_METHOD_BROKER : Z := 2.

Definition RD_KAFKA_RESP_ERR__FS : Z := -189.
Definition RD_KAFKA_RESP_ERR__UNKNOWN_PARTITION : Z := -190.
Definition RD_KAFKA_RESP_ERR__INVALID_ARG : Z := -186.
Definition RD_KAFKA_RESP_ERR__WAIT_COORD : Z := -180.
Definition RD_KAFKA_RESP_ERR__IN_PROGRESS : Z := -178.
Definition RD_KAFKA_RESP_ERR__PREV_IN_PROGRESS : Z := -177.
Definition RD_KAFKA_RESP_ERR__STATE : Z := -172.
Definition RD_KAFKA_RESP_ERR__NO_OFFSET : Z := -168.
Definition RD_KAFKA_RESP_ERR__OUTDATED : Z := -167.
Definition RD_KAFKA_RESP_ERR__AUTO_OFFSET_RESET : Z := -140.
Definition RD_KAFKA_RESP_ERR__PARTITION_EOF : Z := -191.
Definition RD_KAFKA_RESP_ERR_OFFSET_OUT_OF_RANGE : Z := 1.
Definition RD_KAFKA_RESP_ERR_UNSTABLE_OFFSET_COMMIT : Z := 88.

Definition RD_KAFKA_OP_OFFSET_FETCH : Z := 15.
Definition RD_KAFKA_OP_FETCH_START : Z := 11.
Definition RD_KAFKA_OP_SEEK : Z := 13.
Definition RD_KAFKA_OP_PAUSE : Z := 14.
Definition RD_KAFKA_OP_OFFSET_RESET : Z := 28.

Definition RD_KAFKA_NODEID_UA : Z := -1.

(** ** Timers of the partition

    One timer, apart from the queue of all of them (Timer): stopped if the interval is 0,
    scheduled if there is a next time. *)

Record fetch_timer := mk_ftmr { ftmr_next : Z; ftmr_interval : Z }.

Definition ftmr_zero : fetch_timer := mk_ftmr 0 0.
Definition rd_kafka_timer_started (t : fetch_timer) : bool := negb (ftmr_interval t =? 0).
Definition rd_kafka_timer_scheduled (t : fetch_timer) : bool := negb (ftmr_next t =? 0).

Definition rd_kafka_timer_start (t : fetch_timer) (interval now : Z) : fetch_timer :=
  let interval := if interval =? 0 then 1 else interval in
  mk_ftmr (now + interval) interval.

Definition rd_kafka_timer_stop (t : fetch_timer) : fetch_timer := mk_ftmr 0 0.

(** The time that is left, -1 if the timer is not scheduled. *)
Definition rd_kafka_timer_next (t : fetch_timer) (now : Z) : Z :=
  if rd_kafka_timer_scheduled t then Z.max 0 (ftmr_next t - now) else -1.

(** ** The partition *)

Record offset_stats := mk_ostats { os_fetch_offset : Z; os_eof_offset : Z }.

Definition rd_kafka_offset_stats_reset : offset_stats := mk_ostats 0 RD_KAFKA_OFFSET_INVALID.

(** What the ops on [rktp_ops] carry, by their types: the last three are the replies to
    the requests of the partition, with the response to a ListOffsets request, its
    version and the broker, and whether it is sent again if it asks for a retry. *)
Inductive toppar_op_u :=
  | FetchStart (offset : Z) (rkcg : bool)
  | FetchStop
  | Seek (offset : Z)
  | Pause (pause : bool) (flag : Z)
  | OffsetReset (broker_id offset : Z)
  | OffsetCommitReply (offsets : option (Z * Z))
  | OffsetFetchReply (offset err : Z)
  | RecvListOffsets (rkb : nat) (offset : Z) (reply : option (rd_buf * rd_slice))
      (ApiVersion : Z) (buf_retry : bool).

(** [to_rko] has the version, the error and the queue of the reply.  The version of a
    [RecvListOffsets] is that of [rkbuf_replyq]. *)
Record toppar_op := mk_toppar_op { to_rko : rd_kafka_op; to_u : toppar_op_u }.

(** A request without an answer. *)
Inductive lookup :=
  | ListOffsets (rkb : nat) (offset version : Z)
  | OffsetFetch (version : Z)
  | OffsetCommit (offset : Z).

(** [rktp_self] is the address, by which ops and queues name the partition; [rktp_cgrp]
    and [rktp_replyq] say whether the pointer is set, and where to. *)
Record rd_kafka_toppar := mk_toppar {
  rktp_self : nat;
  rktp_topic : bytes;
  rktp_partition : Z;
  rktp_fetchq : nat;
  rktp_ops : list toppar_op;
  rktp_fetch_state : Z;
  rktp_op_version : Z;
  rktp_fetch_version : Z;
  rktp_fetch : bool;
  rktp_query_offset : Z;
  rktp_next_offset : Z;
  rktp_last_next_offset : Z;
  rktp_committing_offset : Z;
  rktp_committed_offset : Z;
  rktp_offsets : offset_stats;
  rktp_offsets_fin : offset_stats;
  rktp_ls_offset : Z;
  rktp_hi_offset : Z;
  rktp_lo_offset : Z;
  rktp_fetch_msg_max_bytes : Z;
  rktp_ts_fetch_backoff : Z;
  rktp_last_error : Z;
  rktp_flags : Z;
  rktp_cgrp : bool;
  rktp_replyq : option (nat * Z);
  rktp_broker : option nat;
  rktp_next_broker : option nat;
  rktp_broker_id : Z;
  rktp_leader_id : Z;
  rktp_lease_intvl : rd_interval_t;
  rktp_new_lease_intvl : rd_interval_t;
  rktp_metadata_intvl : rd_interval_t;
  rktp_offset_query_tmr : fetch_timer;
  rktp_offset_commit_tmr : fetch_timer;
  rktp_lookups : list lookup }.

Definition set_ops (v : list toppar_op) (t : rd_kafka_toppar) : rd_kafka_toppar :=
  mk_toppar (rktp_self t) (rktp_topic t) (rktp_partition t) (rktp_fetchq t) v
    (rktp_fetch_state t) (rktp_op_version t) (rktp_fetch_version t) (rktp_fetch t)
    (rktp_query_offset t) (rktp_next_offset t) (rktp_last_next_offset t)
    (rktp_committing_offset t) (rktp_committed_offset t) (rktp_offsets t)
    (rktp_offsets_fin t) (rktp_ls_offset t) (rktp_hi_offset t) (rktp_lo_offset t)
    (rktp_fetch_msg_max_bytes t) (rktp_ts_fetch_backoff t) (rktp_last_error t) (rktp_flags
    t) (rktp_cgrp t) (rktp_replyq t) (rktp_broker t) (rktp_next_broker t) (rktp_broker_id
    t) (rktp_leader_id t) (rktp_lease_intvl t) (rktp_new_lease_intvl t)
    (rktp_metadata_intvl t) (rktp_offset_query_tmr t) (rktp_offset_commit_tmr t)
    (rktp_lookups t).
Definition set_fetch_state (v : Z) (t : rd_kafka_toppar) : rd_kafka_toppar :=
  mk_toppar (rktp_self t) (rktp_topic t) (rktp_partition t) (rktp_fetchq t) (rktp_ops t)
    v (rktp_op_version t) (rktp_fetch_version t) (rktp_fetch t) (rktp_query_offset t)
    (rktp_next_offset t) (rktp_last_next_offset t) (rktp_committing_offset t)
    (rktp_committed_offset t) (rktp_offsets t) (rktp_offsets_fin t) (rktp_ls_offset t)
    (rktp_hi_offset t) (rktp_lo_offset t) (rktp_fetch_msg_max_bytes t)
    (rktp_ts_fetch_backoff t) (rktp_last_error t) (rktp_flags t) (rktp_cgrp t)
    (rktp_replyq t) (rktp_broker t) (rktp_next_broker t) (rktp_broker_id t)
    (rktp_leader_id t) (rktp_lease_intvl t) (rktp_new_lease_intvl t) (rktp_metadata_intvl
    t) (rktp_offset_query_tmr t) (rktp_offset_commit_tmr t) (rktp_lookups t).
Definition set_op_version (v : Z) (t : rd_kafka_toppar) : rd_kafka_toppar :=
  mk_toppar (rktp_self t) (rktp_topic t) (rktp_partition t) (rktp_fetchq t) (rktp_ops t)
    (rktp_fetch_state t) v (rktp_fetch_version t) (rktp_fetch t) (rktp_query_offset t)
    (rktp_next_offset t) (rktp_last_next_offset t) (rktp_committing_offset t)
    (rktp_committed_offset t) (rktp_offsets t) (rktp_offsets_fin t) (rktp_ls_offset t)
    (rktp_hi_offset t) (rktp_lo_offset t) (rktp_fetch_msg_max_bytes t)
    (rktp_ts_fetch_backoff t) (rktp_last_error t) (rktp_flags t) (rktp_cgrp t)
    (rktp_replyq t) (rktp_broker t) (rktp_next_broker t) (rktp_broker_id t)
    (rktp_leader_id t) (rktp_lease_intvl t) (rktp_new_lease_intvl t) (rktp_metadata_intvl
    t) (rktp_offset_query_tmr t) (rktp_offset_commit_tmr t) (rktp_lookups t).
Definition set_fetch_version (v : Z) (t : rd_kafka_toppar) : rd_kafka_toppar :=
  mk_toppar (rktp_self t) (rktp_topic t) (rktp_partition t) (rktp_fetchq t) (rktp_ops t)
    (rktp_fetch_state t) (rktp_op_version t) v (rktp_fetch t) (rktp_query_offset t)
    (rktp_next_offset t) (rktp_last_next_offset t) (rktp_committing_offset t)
    (rktp_committed_offset t) (rktp_offsets t) (rktp_offsets_fin t) (rktp_ls_offset t)
    (rktp_hi_offset t) (rktp_lo_offset t) (rktp_fetch_msg_max_bytes t)
    (rktp_ts_fetch_backoff t) (rktp_last_error t) (rktp_flags t) (rktp_cgrp t)
    (rktp_replyq t) (rktp_broker t) (rktp_next_broker t) (rktp_broker_id t)
    (rktp_leader_id t) (rktp_lease_intvl t) (rktp_new_lease_intvl t) (rktp_metadata_intvl
    t) (rktp_offset_query_tmr t) (rktp_offset_commit_tmr t) (rktp_lookups t).
Definition set_fetch (v : bool) (t : rd_kafka_toppar) : rd_kafka_toppar :=
  mk_toppar (rktp_self t) (rktp_topic t) (rktp_partition t) (rktp_fetchq t) (rktp_ops t)
    (rktp_fetch_state t) (rktp_op_version t) (rktp_fetch_version t) v (rktp_query_offset
    t) (rktp_next_offset t) (rktp_last_next_offset t) (rktp_committing_offset t)
    (rktp_committed_offset t) (rktp_offsets t) (rktp_offsets_fin t) (rktp_ls_offset t)
    (rktp_hi_offset t) (rktp_lo_offset t) (rktp_fetch_msg_max_bytes t)
    (rktp_ts_fetch_backoff t) (rktp_last_error t) (rktp_flags t) (rktp_cgrp t)
    (rktp_replyq t) (rktp_broker t) (rktp_next_broker t) (rktp_broker_id t)
    (rktp_leader_id t) (rktp_lease_intvl t) (rktp_new_lease_intvl t) (rktp_metadata_intvl
    t) (rktp_offset_query_tmr t) (rktp_offset_commit_tmr t) (rktp_lookups t).
Definition set_query_offset (v : Z) (t : rd_kafka_toppar) : rd_kafka_toppar :=
  mk_toppar (rktp_self t) (rktp_topic t) (rktp_partition t) (rktp_fetchq t) (rktp_ops t)
    (rktp_fetch_state t) (rktp_op_version t) (rktp_fetch_version t) (rktp_fetch t) v
    (rktp_next_offset t) (rktp_last_next_offset t) (rktp_committing_offset t)
    (rktp_committed_offset t) (rktp_offsets t) (rktp_offsets_fin t) (rktp_ls_offset t)
    (rktp_hi_offset t) (rktp_lo_offset t) (rktp_fetch_msg_max_bytes t)
    (rktp_ts_fetch_backoff t) (rktp_last_error t) (rktp_flags t) (rktp_cgrp t)
    (rktp_replyq t) (rktp_broker t) (rktp_next_broker t) (rktp_broker_id t)
    (rktp_leader_id t) (rktp_lease_intvl t) (rktp_new_lease_intvl t) (rktp_metadata_intvl
    t) (rktp_offset_query_tmr t) (rktp_offset_commit_tmr t) (rktp_lookups t).
Definition set_next_offset (v : Z) (t : rd_kafka_toppar) : rd_kafka_toppar :=
  mk_toppar (rktp_self t) (rktp_topic t) (rktp_partition t) (rktp_fetchq t) (rktp_ops t)
    (rktp_fetch_state t) (rktp_op_version t) (rktp_fetch_version t) (rktp_fetch t)
    (rktp_query_offset t) v (rktp_last_next_offset t) (rktp_committing_offset t)
    (rktp_committed_offset t) (rktp_offsets t) (rktp_offsets_fin t) (rktp_ls_offset t)
    (rktp_hi_offset t) (rktp_lo_offset t) (rktp_fetch_msg_max_bytes t)
    (rktp_ts_fetch_backoff t) (rktp_last_error t) (rktp_flags t) (rktp_cgrp t)
    (rktp_replyq t) (rktp_broker t) (rktp_next_broker t) (rktp_broker_id t)
    (rktp_leader_id t) (rktp_lease_intvl t) (rktp_new_lease_intvl t) (rktp_metadata_intvl
    t) (rktp_offset_query_tmr t) (rktp_offset_commit_tmr t) (rktp_lookups t).
Definition set_last_next_offset (v : Z) (t : rd_kafka_toppar) : rd_kafka_toppar :=
  mk_toppar (rktp_self t) (rktp_topic t) (rktp_partition t) (rktp_fetchq t) (rktp_ops t)
    (rktp_fetch_state t) (rktp_op_version t) (rktp_fetch_version t) (rktp_fetch t)
    (rktp_query_offset t) (rktp_next_offset t) v (rktp_committing_offset t)
    (rktp_committed_offset t) (rktp_offsets t) (rktp_offsets_fin t) (rktp_ls_offset t)
    (rktp_hi_offset t) (rktp_lo_offset t) (rktp_fetch_msg_max_bytes t)
    (rktp_ts_fetch_backoff t) (rktp_last_error t) (rktp_flags t) (rktp_cgrp t)
    (rktp_replyq t) (rktp_broker t) (rktp_next_broker t) (rktp_broker_id t)
    (rktp_leader_id t) (rktp_lease_intvl t) (rktp_new_lease_intvl t) (rktp_metadata_intvl
    t) (rktp_offset_query_tmr t) (rktp_offset_commit_tmr t) (rktp_lookups t).
Definition set_committing_offset (v : Z) (t : rd_kafka_toppar) : rd_kafka_toppar :=
  mk_toppar (rktp_self t) (rktp_topic t) (rktp_partition t) (rktp_fetchq t) (rktp_ops t)
    (rktp_fetch_state t) (rktp_op_version t) (rktp_fetch_version t) (rktp_fetch t)
    (rktp_query_offset t) (rktp_next_offset t) (rktp_last_next_offset t) v
    (rktp_committed_offset t) (rktp_offsets t) (rktp_offsets_fin t) (rktp_ls_offset t)
    (rktp_hi_offset t) (rktp_lo_offset t) (rktp_fetch_msg_max_bytes t)
    (rktp_ts_fetch_backoff t) (rktp_last_error t) (rktp_flags t) (rktp_cgrp t)
    (rktp_replyq t) (rktp_broker t) (rktp_next_broker t) (rktp_broker_id t)
    (rktp_leader_id t) (rktp_lease_intvl t) (rktp_new_lease_intvl t) (rktp_metadata_intvl
    t) (rktp_offset_query_tmr t) (rktp_offset_commit_tmr t) (rktp_lookups t).
Definition set_committed_offset (v : Z) (t : rd_kafka_toppar) : rd_kafka_toppar :=
  mk_toppar (rktp_self t) (rktp_topic t) (rktp_partition t) (rktp_fetchq t) (rktp_ops t)
    (rktp_fetch_state t) (rktp_op_version t) (rktp_fetch_version t) (rktp_fetch t)
    (rktp_query_offset t) (rktp_next_offset t) (rktp_last_next_offset t)
    (rktp_committing_offset t) v (rktp_offsets t) (rktp_offsets_fin t) (rktp_ls_offset t)
    (rktp_hi_offset t) (rktp_lo_offset t) (rktp_fetch_msg_max_bytes t)
    (rktp_ts_fetch_backoff t) (rktp_last_error t) (rktp_flags t) (rktp_cgrp t)
    (rktp_replyq t) (rktp_broker t) (rktp_next_broker t) (rktp_broker_id t)
    (rktp_leader_id t) (rktp_lease_intvl t) (rktp_new_lease_intvl t) (rktp_metadata_intvl
    t) (rktp_offset_query_tmr t) (rktp_offset_commit_tmr t) (rktp_lookups t).
Definition set_offsets (v : offset_stats) (t : rd_kafka_toppar) : rd_kafka_toppar :=
  mk_toppar (rktp_self t) (rktp_topic t) (rktp_partition t) (rktp_fetchq t) (rktp_ops t)
    (rktp_fetch_state t) (rktp_op_version t) (rktp_fetch_version t) (rktp_fetch t)
    (rktp_query_offset t) (rktp_next_offset t) (rktp_last_next_offset t)
    (rktp_committing_offset t) (rktp_committed_offset t) v (rktp_offsets_fin t)
    (rktp_ls_offset t) (rktp_hi_offset t) (rktp_lo_offset t) (rktp_fetch_msg_max_bytes t)
    (rktp_ts_fetch_backoff t) (rktp_last_error t) (rktp_flags t) (rktp_cgrp t)
    (rktp_replyq t) (rktp_broker t) (rktp_next_broker t) (rktp_broker_id t)
    (rktp_leader_id t) (rktp_lease_intvl t) (rktp_new_lease_intvl t) (rktp_metadata_intvl
    t) (rktp_offset_query_tmr t) (rktp_offset_commit_tmr t) (rktp_lookups t).
Definition set_offsets_fin (v : offset_stats) (t : rd_kafka_toppar) : rd_kafka_toppar :=
  mk_toppar (rktp_self t) (rktp_topic t) (rktp_partition t) (rktp_fetchq t) (rktp_ops t)
    (rktp_fetch_state t) (rktp_op_version t) (rktp_fetch_version t) (rktp_fetch t)
    (rktp_query_offset t) (rktp_next_offset t) (rktp_last_next_offset t)
    (rktp_committing_offset t) (rktp_committed_offset t) (rktp_offsets t) v
    (rktp_ls_offset t) (rktp_hi_offset t) (rktp_lo_offset t) (rktp_fetch_msg_max_bytes t)
    (rktp_ts_fetch_backoff t) (rktp_last_error t) (rktp_flags t) (rktp_cgrp t)
    (rktp_replyq t) (rktp_broker t) (rktp_next_broker t) (rktp_broker_id t)
    (rktp_leader_id t) (rktp_lease_intvl t) (rktp_new_lease_intvl t) (rktp_metadata_intvl
    t) (rktp_offset_query_tmr t) (rktp_offset_commit_tmr t) (rktp_lookups t).
Definition set_ls_offset (v : Z) (t : rd_kafka_toppar) : rd_kafka_toppar :=
  mk_toppar (rktp_self t) (rktp_topic t) (rktp_partition t) (rktp_fetchq t) (rktp_ops t)
    (rktp_fetch_state t) (rktp_op_version t) (rktp_fetch_version t) (rktp_fetch t)
    (rktp_query_offset t) (rktp_next_offset t) (rktp_last_next_offset t)
    (rktp_committing_offset t) (rktp_committed_offset t) (rktp_offsets t)
    (rktp_offsets_fin t) v (rktp_hi_offset t) (rktp_lo_offset t) (rktp_fetch_msg_max_bytes
    t) (rktp_ts_fetch_backoff t) (rktp_last_error t) (rktp_flags t) (rktp_cgrp t)
    (rktp_replyq t) (rktp_broker t) (rktp_next_broker t) (rktp_broker_id t)
    (rktp_leader_id t) (rktp_lease_intvl t) (rktp_new_lease_intvl t) (rktp_metadata_intvl
    t) (rktp_offset_query_tmr t) (rktp_offset_commit_tmr t) (rktp_lookups t).
Definition set_hi_offset (v : Z) (t : rd_kafka_toppar) : rd_kafka_toppar :=
  mk_toppar (rktp_self t) (rktp_topic t) (rktp_partition t) (rktp_fetchq t) (rktp_ops t)
    (rktp_fetch_state t) (rktp_op_version t) (rktp_fetch_version t) (rktp_fetch t)
    (rktp_query_offset t) (rktp_next_offset t) (rktp_last_next_offset t)
    (rktp_committing_offset t) (rktp_committed_offset t) (rktp_offsets t)
    (rktp_offsets_fin t) (rktp_ls_offset t) v (rktp_lo_offset t) (rktp_fetch_msg_max_bytes
    t) (rktp_ts_fetch_backoff t) (rktp_last_error t) (rktp_flags t) (rktp_cgrp t)
    (rktp_replyq t) (rktp_broker t) (rktp_next_broker t) (rktp_broker_id t)
    (rktp_leader_id t) (rktp_lease_intvl t) (rktp_new_lease_intvl t) (rktp_metadata_intvl
    t) (rktp_offset_query_tmr t) (rktp_offset_commit_tmr t) (rktp_lookups t).
Definition set_lo_offset (v : Z) (t : rd_kafka_toppar) : rd_kafka_toppar :=
  mk_toppar (rktp_self t) (rktp_topic t) (rktp_partition t) (rktp_fetchq t) (rktp_ops t)
    (rktp_fetch_state t) (rktp_op_version t) (rktp_fetch_version t) (rktp_fetch t)
    (rktp_query_offset t) (rktp_next_offset t) (rktp_last_next_offset t)
    (rktp_committing_offset t) (rktp_committed_offset t) (rktp_offsets t)
    (rktp_offsets_fin t) (rktp_ls_offset t) (rktp_hi_offset t) v (rktp_fetch_msg_max_bytes
    t) (rktp_ts_fetch_backoff t) (rktp_last_error t) (rktp_flags t) (rktp_cgrp t)
    (rktp_replyq t) (rktp_broker t) (rktp_next_broker t) (rktp_broker_id t)
    (rktp_leader_id t) (rktp_lease_intvl t) (rktp_new_lease_intvl t) (rktp_metadata_intvl
    t) (rktp_offset_query_tmr t) (rktp_offset_commit_tmr t) (rktp_lookups t).
Definition set_fetch_msg_max_bytes (v : Z) (t : rd_kafka_toppar) : rd_kafka_toppar :=
  mk_toppar (rktp_self t) (rktp_topic t) (rktp_partition t) (rktp_fetchq t) (rktp_ops t)
    (rktp_fetch_state t) (rktp_op_version t) (rktp_fetch_version t) (rktp_fetch t)
    (rktp_query_offset t) (rktp_next_offset t) (rktp_last_next_offset t)
    (rktp_committing_offset t) (rktp_committed_offset t) (rktp_offsets t)
    (rktp_offsets_fin t) (rktp_ls_offset t) (rktp_hi_offset t) (rktp_lo_offset t) v
    (rktp_ts_fetch_backoff t) (rktp_last_error t) (rktp_flags t) (rktp_cgrp t)
    (rktp_replyq t) (rktp_broker t) (rktp_next_broker t) (rktp_broker_id t)
    (rktp_leader_id t) (rktp_lease_intvl t) (rktp_new_lease_intvl t) (rktp_metadata_intvl
    t) (rktp_offset_query_tmr t) (rktp_offset_commit_tmr t) (rktp_lookups t).
Definition set_ts_fetch_backoff (v : Z) (t : rd_kafka_toppar) : rd_kafka_toppar :=
  mk_toppar (rktp_self t) (rktp_topic t) (rktp_partition t) (rktp_fetchq t) (rktp_ops t)
    (rktp_fetch_state t) (rktp_op_version t) (rktp_fetch_version t) (rktp_fetch t)
    (rktp_query_offset t) (rktp_next_offset t) (rktp_last_next_offset t)
    (rktp_committing_offset t) (rktp_committed_offset t) (rktp_offsets t)
    (rktp_offsets_fin t) (rktp_ls_offset t) (rktp_hi_offset t) (rktp_lo_offset t)
    (rktp_fetch_msg_max_bytes t) v (rktp_last_error t) (rktp_flags t) (rktp_cgrp t)
    (rktp_replyq t) (rktp_broker t) (rktp_next_broker t) (rktp_broker_id t)
    (rktp_leader_id t) (rktp_lease_intvl t) (rktp_new_lease_intvl t) (rktp_metadata_intvl
    t) (rktp_offset_query_tmr t) (rktp_offset_commit_tmr t) (rktp_lookups t).
Definition set_last_error (v : Z) (t : rd_kafka_toppar) : rd_kafka_toppar :=
  mk_toppar (rktp_self t) (rktp_topic t) (rktp_partition t) (rktp_fetchq t) (rktp_ops t)
    (rktp_fetch_state t) (rktp_op_version t) (rktp_fetch_version t) (rktp_fetch t)
    (rktp_query_offset t) (rktp_next_offset t) (rktp_last_next_offset t)
    (rktp_committing_offset t) (rktp_committed_offset t) (rktp_offsets t)
    (rktp_offsets_fin t) (rktp_ls_offset t) (rktp_hi_offset t) (rktp_lo_offset t)
    (rktp_fetch_msg_max_bytes t) (rktp_ts_fetch_backoff t) v (rktp_flags t) (rktp_cgrp t)
    (rktp_replyq t) (rktp_broker t) (rktp_next_broker t) (rktp_broker_id t)
    (rktp_leader_id t) (rktp_lease_intvl t) (rktp_new_lease_intvl t) (rktp_metadata_intvl
    t) (rktp_offset_query_tmr t) (rktp_offset_commit_tmr t) (rktp_lookups t).
Definition set_flags (v : Z) (t : rd_kafka_toppar) : rd_kafka_toppar :=
  mk_toppar (rktp_self t) (rktp_topic t) (rktp_partition t) (rktp_fetchq t) (rktp_ops t)
    (rktp_fetch_state t) (rktp_op_version t) (rktp_fetch_version t) (rktp_fetch t)
    (rktp_query_offset t) (rktp_next_offset t) (rktp_last_next_offset t)
    (rktp_committing_offset t) (rktp_committed_offset t) (rktp_offsets t)
    (rktp_offsets_fin t) (rktp_ls_offset t) (rktp_hi_offset t) (rktp_lo_offset t)
    (rktp_fetch_msg_max_bytes t) (rktp_ts_fetch_backoff t) (rktp_last_error t) v
    (rktp_cgrp t) (rktp_replyq t) (rktp_broker t) (rktp_next_broker t) (rktp_broker_id t)
    (rktp_leader_id t) (rktp_lease_intvl t) (rktp_new_lease_intvl t) (rktp_metadata_intvl
    t) (rktp_offset_query_tmr t) (rktp_offset_commit_tmr t) (rktp_lookups t).
Definition set_cgrp (v : bool) (t : rd_kafka_toppar) : rd_kafka_toppar :=
  mk_toppar (rktp_self t) (rktp_topic t) (rktp_partition t) (rktp_fetchq t) (rktp_ops t)
    (rktp_fetch_state t) (rktp_op_version t) (rktp_fetch_version t) (rktp_fetch t)
    (rktp_query_offset t) (rktp_next_offset t) (rktp_last_next_offset t)
    (rktp_committing_offset t) (rktp_committed_offset t) (rktp_offsets t)
    (rktp_offsets_fin t) (rktp_ls_offset t) (rktp_hi_offset t) (rktp_lo_offset t)
    (rktp_fetch_msg_max_bytes t) (rktp_ts_fetch_backoff t) (rktp_last_error t) (rktp_flags
    t) v (rktp_replyq t) (rktp_broker t) (rktp_next_broker t) (rktp_broker_id t)
    (rktp_leader_id t) (rktp_lease_intvl t) (rktp_new_lease_intvl t) (rktp_metadata_intvl
    t) (rktp_offset_query_tmr t) (rktp_offset_commit_tmr t) (rktp_lookups t).
Definition set_replyq (v : option (nat * Z)) (t : rd_kafka_toppar) : rd_kafka_toppar :=
  mk_toppar (rktp_self t) (rktp_topic t) (rktp_partition t) (rktp_fetchq t) (rktp_ops t)
    (rktp_fetch_state t) (rktp_op_version t) (rktp_fetch_version t) (rktp_fetch t)
    (rktp_query_offset t) (rktp_next_offset t) (rktp_last_next_offset t)
    (rktp_committing_offset t) (rktp_committed_offset t) (rktp_offsets t)
    (rktp_offsets_fin t) (rktp_ls_offset t) (rktp_hi_offset t) (rktp_lo_offset t)
    (rktp_fetch_msg_max_bytes t) (rktp_ts_fetch_backoff t) (rktp_last_error t) (rktp_flags
    t) (rktp_cgrp t) v (rktp_broker t) (rktp_next_broker t) (rktp_broker_id t)
    (rktp_leader_id t) (rktp_lease_intvl t) (rktp_new_lease_intvl t) (rktp_metadata_intvl
    t) (rktp_offset_query_tmr t) (rktp_offset_commit_tmr t) (rktp_lookups t).
Definition set_broker (v : option nat) (t : rd_kafka_toppar) : rd_kafka_toppar :=
  mk_toppar (rktp_self t) (rktp_topic t) (rktp_partition t) (rktp_fetchq t) (rktp_ops t)
    (rktp_fetch_state t) (rktp_op_version t) (rktp_fetch_version t) (rktp_fetch t)
    (rktp_query_offset t) (rktp_next_offset t) (rktp_last_next_offset t)
    (rktp_committing_offset t) (rktp_committed_offset t) (rktp_offsets t)
    (rktp_offsets_fin t) (rktp_ls_offset t) (rktp_hi_offset t) (rktp_lo_offset t)
    (rktp_fetch_msg_max_bytes t) (rktp_ts_fetch_backoff t) (rktp_last_error t) (rktp_flags
    t) (rktp_cgrp t) (rktp_replyq t) v (rktp_next_broker t) (rktp_broker_id t)
    (rktp_leader_id t) (rktp_lease_intvl t) (rktp_new_lease_intvl t) (rktp_metadata_intvl
    t) (rktp_offset_query_tmr t) (rktp_offset_commit_tmr t) (rktp_lookups t).
Definition set_next_broker (v : option nat) (t : rd_kafka_toppar) : rd_kafka_toppar :=
  mk_toppar (rktp_self t) (rktp_topic t) (rktp_partition t) (rktp_fetchq t) (rktp_ops t)
    (rktp_fetch_state t) (rktp_op_version t) (rktp_fetch_version t) (rktp_fetch t)
    (rktp_query_offset t) (rktp_next_offset t) (rktp_last_next_offset t)
    (rktp_committing_offset t) (rktp_committed_offset t) (rktp_offsets t)
    (rktp_offsets_fin t) (rktp_ls_offset t) (rktp_hi_offset t) (rktp_lo_offset t)
    (rktp_fetch_msg_max_bytes t) (rktp_ts_fetch_backoff t) (rktp_last_error t) (rktp_flags
    t) (rktp_cgrp t) (rktp_replyq t) (rktp_broker t) v (rktp_broker_id t) (rktp_leader_id
    t) (rktp_lease_intvl t) (rktp_new_lease_intvl t) (rktp_metadata_intvl t)
    (rktp_offset_query_tmr t) (rktp_offset_commit_tmr t) (rktp_lookups t).
Definition set_broker_id (v : Z) (t : rd_kafka_toppar) : rd_kafka_toppar :=
  mk_toppar (rktp_self t) (rktp_topic t) (rktp_partition t) (rktp_fetchq t) (rktp_ops t)
    (rktp_fetch_state t) (rktp_op_version t) (rktp_fetch_version t) (rktp_fetch t)
    (rktp_query_offset t) (rktp_next_offset t) (rktp_last_next_offset t)
    (rktp_committing_offset t) (rktp_committed_offset t) (rktp_offsets t)
    (rktp_offsets_fin t) (rktp_ls_offset t) (rktp_hi_offset t) (rktp_lo_offset t)
    (rktp_fetch_msg_max_bytes t) (rktp_ts_fetch_backoff t) (rktp_last_error t) (rktp_flags
    t) (rktp_cgrp t) (rktp_replyq t) (rktp_broker t) (rktp_next_broker t) v
    (rktp_leader_id t) (rktp_lease_intvl t) (rktp_new_lease_intvl t) (rktp_metadata_intvl
    t) (rktp_offset_query_tmr t) (rktp_offset_commit_tmr t) (rktp_lookups t).
Definition set_leader_id (v : Z) (t : rd_kafka_toppar) : rd_kafka_toppar :=
  mk_toppar (rktp_self t) (rktp_topic t) (rktp_partition t) (rktp_fetchq t) (rktp_ops t)
    (rktp_fetch_state t) (rktp_op_version t) (rktp_fetch_version t) (rktp_fetch t)
    (rktp_query_offset t) (rktp_next_offset t) (rktp_last_next_offset t)
    (rktp_committing_offset t) (rktp_committed_offset t) (rktp_offsets t)
    (rktp_offsets_fin t) (rktp_ls_offset t) (rktp_hi_offset t) (rktp_lo_offset t)
    (rktp_fetch_msg_max_bytes t) (rktp_ts_fetch_backoff t) (rktp_last_error t) (rktp_flags
    t) (rktp_cgrp t) (rktp_replyq t) (rktp_broker t) (rktp_next_broker t) (rktp_broker_id
    t) v (rktp_lease_intvl t) (rktp_new_lease_intvl t) (rktp_metadata_intvl t)
    (rktp_offset_query_tmr t) (rktp_offset_commit_tmr t) (rktp_lookups t).
Definition set_lease_intvl (v : rd_interval_t) (t : rd_kafka_toppar) : rd_kafka_toppar :=
  mk_toppar (rktp_self t) (rktp_topic t) (rktp_partition t) (rktp_fetchq t) (rktp_ops t)
    (rktp_fetch_state t) (rktp_op_version t) (rktp_fetch_version t) (rktp_fetch t)
    (rktp_query_offset t) (rktp_next_offset t) (rktp_last_next_offset t)
    (rktp_committing_offset t) (rktp_committed_offset t) (rktp_offsets t)
    (rktp_offsets_fin t) (rktp_ls_offset t) (rktp_hi_offset t) (rktp_lo_offset t)
    (rktp_fetch_msg_max_bytes t) (rktp_ts_fetch_backoff t) (rktp_last_error t) (rktp_flags
    t) (rktp_cgrp t) (rktp_replyq t) (rktp_broker t) (rktp_next_broker t) (rktp_broker_id
    t) (rktp_leader_id t) v (rktp_new_lease_intvl t) (rktp_metadata_intvl t)
    (rktp_offset_query_tmr t) (rktp_offset_commit_tmr t) (rktp_lookups t).
Definition set_new_lease_intvl (v : rd_interval_t) (t : rd_kafka_toppar) : rd_kafka_toppar :=
  mk_toppar (rktp_self t) (rktp_topic t) (rktp_partition t) (rktp_fetchq t) (rktp_ops t)
    (rktp_fetch_state t) (rktp_op_version t) (rktp_fetch_version t) (rktp_fetch t)
    (rktp_query_offset t) (rktp_next_offset t) (rktp_last_next_offset t)
    (rktp_committing_offset t) (rktp_committed_offset t) (rktp_offsets t)
    (rktp_offsets_fin t) (rktp_ls_offset t) (rktp_hi_offset t) (rktp_lo_offset t)
    (rktp_fetch_msg_max_bytes t) (rktp_ts_fetch_backoff t) (rktp_last_error t) (rktp_flags
    t) (rktp_cgrp t) (rktp_replyq t) (rktp_broker t) (rktp_next_broker t) (rktp_broker_id
    t) (rktp_leader_id t) (rktp_lease_intvl t) v (rktp_metadata_intvl t)
    (rktp_offset_query_tmr t) (rktp_offset_commit_tmr t) (rktp_lookups t).
Definition set_metadata_intvl (v : rd_interval_t) (t : rd_kafka_toppar) : rd_kafka_toppar :=
  mk_toppar (rktp_self t) (rktp_topic t) (rktp_partition t) (rktp_fetchq t) (rktp_ops t)
    (rktp_fetch_state t) (rktp_op_version t) (rktp_fetch_version t) (rktp_fetch t)
    (rktp_query_offset t) (rktp_next_offset t) (rktp_last_next_offset t)
    (rktp_committing_offset t) (rktp_committed_offset t) (rktp_offsets t)
    (rktp_offsets_fin t) (rktp_ls_offset t) (rktp_hi_offset t) (rktp_lo_offset t)
    (rktp_fetch_msg_max_bytes t) (rktp_ts_fetch_backoff t) (rktp_last_error t) (rktp_flags
    t) (rktp_cgrp t) (rktp_replyq t) (rktp_broker t) (rktp_next_broker t) (rktp_broker_id
    t) (rktp_leader_id t) (rktp_lease_intvl t) (rktp_new_lease_intvl t) v
    (rktp_offset_query_tmr t) (rktp_offset_commit_tmr t) (rktp_lookups t).
Definition set_offset_query_tmr (v : fetch_timer) (t : rd_kafka_toppar) : rd_kafka_toppar :=
  mk_toppar (rktp_self t) (rktp_topic t) (rktp_partition t) (rktp_fetchq t) (rktp_ops t)
    (rktp_fetch_state t) (rktp_op_version t) (rktp_fetch_version t) (rktp_fetch t)
    (rktp_query_offset t) (rktp_next_offset t) (rktp_last_next_offset t)
    (rktp_committing_offset t) (rktp_committed_offset t) (rktp_offsets t)
    (rktp_offsets_fin t) (rktp_ls_offset t) (rktp_hi_offset t) (rktp_lo_offset t)
    (rktp_fetch_msg_max_bytes t) (rktp_ts_fetch_backoff t) (rktp_last_error t) (rktp_flags
    t) (rktp_cgrp t) (rktp_replyq t) (rktp_broker t) (rktp_next_broker t) (rktp_broker_id
    t) (rktp_leader_id t) (rktp_lease_intvl t) (rktp_new_lease_intvl t)
    (rktp_metadata_intvl t) v (rktp_offset_commit_tmr t) (rktp_lookups t).
Definition set_offset_commit_tmr (v : fetch_timer) (t : rd_kafka_toppar) : rd_kafka_toppar :=
  mk_toppar (rktp_self t) (rktp_topic t) (rktp_partition t) (rktp_fetchq t) (rktp_ops t)
    (rktp_fetch_state t) (rktp_op_version t) (rktp_fetch_version t) (rktp_fetch t)
    (rktp_query_offset t) (rktp_next_offset t) (rktp_last_next_offset t)
    (rktp_committing_offset t) (rktp_committed_offset t) (rktp_offsets t)
    (rktp_offsets_fin t) (rktp_ls_offset t) (rktp_hi_offset t) (rktp_lo_offset t)
    (rktp_fetch_msg_max_bytes t) (rktp_ts_fetch_backoff t) (rktp_last_error t) (rktp_flags
    t) (rktp_cgrp t) (rktp_replyq t) (rktp_broker t) (rktp_next_broker t) (rktp_broker_id
    t) (rktp_leader_id t) (rktp_lease_intvl t) (rktp_new_lease_intvl t)
    (rktp_metadata_intvl t) (rktp_offset_query_tmr t) v (rktp_lookups t).
Definition set_lookups (v : list lookup) (t : rd_kafka_toppar) : rd_kafka_toppar :=
  mk_toppar (rktp_self t) (rktp_topic t) (rktp_partition t) (rktp_fetchq t) (rktp_ops t)
    (rktp_fetch_state t) (rktp_op_version t) (rktp_fetch_version t) (rktp_fetch t)
    (rktp_query_offset t) (rktp_next_offset t) (rktp_last_next_offset t)
    (rktp_committing_offset t) (rktp_committed_offset t) (rktp_offsets t)
    (rktp_offsets_fin t) (rktp_ls_offset t) (rktp_hi_offset t) (rktp_lo_offset t)
    (rktp_fetch_msg_max_bytes t) (rktp_ts_fetch_backoff t) (rktp_last_error t) (rktp_flags
    t) (rktp_cgrp t) (rktp_replyq t) (rktp_broker t) (rktp_next_broker t) (rktp_broker_id
    t) (rktp_leader_id t) (rktp_lease_intvl t) (rktp_new_lease_intvl t)
    (rktp_metadata_intvl t) (rktp_offset_query_tmr t) (rktp_offset_commit_tmr t) v.

(** ** What it works on *)

(** What is sent to others: ops for the consumer group, replies to the application,
    requests, the brokers' ops, and what metadata is asked for. *)
Inductive fetch_event :=
  | EvPartitionJoin
  | EvPartitionLeave
  | EvReply (rkq : nat) (type err version : Z)
  | EvOffsetFetch (version : Z)
  | EvListOffsets (rkb : nat) (offset version : Z)
  | EvOffsetCommit (offset : Z)
  | EvBrokerWakeup (rkb : nat)
  | EvBrokerLeave (rkb : nat)
  | EvBrokerJoin (rkb : nat)
  | EvLeaderUnavailable (err : Z)
  | EvMetadataRefresh
  | EvThrottle (ms : Z).

(** [fs_addr] is the address of the next op that is made. *)
Record fetcher := mk_fs {
  fs_rktp : rd_kafka_toppar;
  fs_qs : q_state;
  fs_out : list fetch_event;
  fs_addr : Z }.

Definition fs_upd (f : rd_kafka_toppar -> rd_kafka_toppar) (s : fetcher) : fetcher :=
  mk_fs (f (fs_rktp s)) (fs_qs s) (fs_out s) (fs_addr s).
Definition fs_set_qs (qs : q_state) (s : fetcher) : fetcher :=
  mk_fs (fs_rktp s) qs (fs_out s) (fs_addr s).
Definition fs_emit (ev : fetch_event) (s : fetcher) : fetcher :=
  mk_fs (fs_rktp s) (fs_qs s) (fs_out s ++ [ev]) (fs_addr s).
Definition fs_fresh (s : fetcher) : fetcher :=
  mk_fs (fs_rktp s) (fs_qs s) (fs_out s) (fs_addr s + 1).

(** What of the partition the queues know. *)
Definition fs_app (s : fetcher) : option op_toppar := qs_rktp (fs_qs s) !! rktp_self (fs_rktp s).

Definition set_app_offset (v : Z) (s : fetcher) : option fetcher :=
  let* a := fs_app s in
  Some (fs_set_qs (qs_set_rktp (fs_qs s) (rktp_self (fs_rktp s))
                     (mk_op_toppar (rktp_version a) v (rktp_stored_offset a))) s).
Definition set_stored_offset (v : Z) (s : fetcher) : option fetcher :=
  let* a := fs_app s in
  Some (fs_set_qs (qs_set_rktp (fs_qs s) (rktp_self (fs_rktp s))
                     (mk_op_toppar (rktp_version a) (rktp_app_offset a) v)) s).

(** The configuration of the client and of the topic. *)
Record consumer_conf := mk_consumer_conf {
  cc_is_consumer : bool;
  cc_is_simple_consumer : bool;
  cc_enable_auto_offset_store : bool;
  cc_enable_partition_eof : bool;
  cc_queued_min_msgs : Z;
  cc_queued_max_msg_bytes : Z;
  cc_fetch_error_backoff_ms : Z;
  cc_isolation_level : Z;
  cc_auto_offset_reset : Z;
  cc_offset_store_method : Z;
  cc_auto_commit_interval_ms : Z;
  cc_check_crcs : bool }.

(** The outcomes of reading and writing the offset file.  The error of a write that
    fails is 0 if the file cannot be opened. *)
Record offset_file := mk_offset_file { of_read : Z; of_written : bool; of_commit_err : Z }.
