(* ===== verification/Fetcher.v ===== *)
(** * The fetch state of a consumer's partition (src/cbits/hs_rdkafka_partition.c,
      hs_rdkafka_offset.c, parts of hs_rdkafka_request.c)

    The main thread's part: the ops that start, stop, seek, pause and resume a partition,
    the lookup of the offset to start from, with its timer and its answers, offset resets
    and the store of offsets.  The functions take and return a [fetcher].  A replyq is a
    queue by name; the reply goes to [fs_out]. *)

From stdpp Require Import gmap.
From S2P Require Import Prelude Producer KafkaBuf Slice RdBuf Assignment Queue FetchState.

Section Fetcher.
(** The fuel is for the forwards of the fetch queue.  [rkb_internal] tells the brokers
    that stand for no broker. *)
Context (fuel : nat) (conf : consumer_conf) (file : offset_file) (rkb_internal : nat -> bool).

(** ** Ops on the fetch queue *)

Definition fetchq_enq (rko : rd_kafka_op) (s : fetcher) : option fetcher :=
  let* (_, qs) := rd_kafka_q_enq fuel (fs_qs s) (rktp_fetchq (fs_rktp s)) rko in
  Some (fs_fresh (fs_set_qs qs s)).

(** The text and the offset of the error are not kept. *)
Definition rd_kafka_consumer_err (err version : Z) (s : fetcher) : option fetcher :=
  fetchq_enq (mk_op (fs_addr s) RD_KAFKA_OP_CONSUMER_ERR 0 0 version err 0 0
                (Some (rktp_self (fs_rktp s))) None 0 None None
                (mk_op_u 0 false [] false 0)) s.

Definition rd_kafka_toppar_op_version_bump (version : Z) (s : fetcher) : option fetcher :=
  let* qs := Queue.rd_kafka_toppar_op_version_bump fuel (fs_qs s) (rktp_fetchq (fs_rktp s))
               (fs_addr s) version in
  Some (fs_fresh (fs_set_qs qs (fs_upd (set_op_version version) s))).

Definition rd_kafka_toppar_set_fetch_state (fetch_state : Z) : fetcher -> fetcher :=
  fs_upd (set_fetch_state fetch_state).

Definition in_state (s : fetcher) (fetch_state : Z) : bool :=
  rktp_fetch_state (fs_rktp s) =? fetch_state.

(** [rd_kafka_broker_wakeup], if there is a broker. *)
Definition wakeup_broker (s : fetcher) : fetcher :=
  match rktp_broker (fs_rktp s) with
  | Some rkb => fs_emit (EvBrokerWakeup rkb) s
  | None => s
  end.

Definition RD_KAFKA_TOPPAR_IS_PAUSED (t : rd_kafka_toppar) : bool :=
  negb (Z.land (rktp_flags t)
          (Z.lor RD_KAFKA_TOPPAR_F_APP_PAUSE RD_KAFKA_TOPPAR_F_LIB_PAUSE) =? 0).

(** ** The lookup of an offset

    [now] is the time. *)

Definition stop_query_tmr (s : fetcher) : fetcher :=
  fs_upd (set_offset_query_tmr (rd_kafka_timer_stop (rktp_offset_query_tmr (fs_rktp s)))) s.

Definition rd_kafka_toppar_offset_retry (now : Z) (backoff_ms : Z) (s : fetcher) : fetcher :=
  let tmr_next := rd_kafka_timer_next (rktp_offset_query_tmr (fs_rktp s)) now in
  let restart_tmr := (tmr_next =? -1) || (tmr_next >? now + backoff_ms * 1000) in
  let s := rd_kafka_toppar_set_fetch_state RD_KAFKA_TOPPAR_FETCH_OFFSET_QUERY s in
  if restart_tmr
  then fs_upd (set_offset_query_tmr
                 (rd_kafka_timer_start (rktp_offset_query_tmr (fs_rktp s)) (backoff_ms * 1000) now)) s
  else s.

Definition add_lookup (l : lookup) (s : fetcher) : fetcher :=
  fs_upd (set_lookups (rktp_lookups (fs_rktp s) ++ [l])) s.

(** Asks the consumer group for the committed offset. *)
Definition rd_kafka_toppar_offset_fetch (version : Z) (s : fetcher) : fetcher :=
  fs_emit (EvOffsetFetch version) (add_lookup (OffsetFetch version) s).

(** [rd_kafka_ListOffsetsRequest] for this partition. *)
Definition rd_kafka_ListOffsetsRequest (rkb : nat) (offset version : Z) (s : fetcher) : fetcher :=
  fs_emit (EvListOffsets rkb offset version) (add_lookup (ListOffsets rkb offset version) s).

Definition rd_kafka_toppar_offset_request (now : Z) (query_offset backoff_ms : Z) (s : fetcher)
  : fetcher :=
  let rkb := rktp_broker (fs_rktp s) in
  let backoff_ms := if (backoff_ms =? 0)
                       && match rkb with Some rkb => rkb_internal rkb | None => true end
                    then 500 else backoff_ms in
  match rkb with
  | Some rkb =>
      if negb (backoff_ms =? 0) then rd_kafka_toppar_offset_retry now backoff_ms s
      else
        let s := stop_query_tmr s in
        let version := rktp_op_version (fs_rktp s) in
        let s :=
          if (query_offset =? RD_KAFKA_OFFSET_STORED)
             && (cc_offset_store_method conf =? RD_KAFKA_OFFSET_METHOD_BROKER)
          then rd_kafka_toppar_offset_fetch version s
          else rd_kafka_ListOffsetsRequest rkb
                 (if query_offset <=? RD_KAFKA_OFFSET_TAIL_BASE then RD_KAFKA_OFFSET_END
                  else query_offset) version s in
        rd_kafka_toppar_set_fetch_state RD_KAFKA_TOPPAR_FETCH_OFFSET_WAIT s
  | None => rd_kafka_toppar_offset_retry now backoff_ms s
  end.

(** [rd_kafka_toppar_next_offset_handle] for an offset that is not logical, the only one
    [rd_kafka_offset_reset] calls it with. *)
Definition next_offset_absolute (Offset : Z) (s : fetcher) : fetcher :=
  let query_offset := rktp_query_offset (fs_rktp s) in
  let Offset :=
    if query_offset <=? RD_KAFKA_OFFSET_TAIL_BASE then
      let tail_cnt := Z.abs (query_offset - RD_KAFKA_OFFSET_TAIL_BASE) in
      if tail_cnt >? Offset then 0 else Offset - tail_cnt
    else Offset in
  wakeup_broker (rd_kafka_toppar_set_fetch_state RD_KAFKA_TOPPAR_FETCH_ACTIVE
                   (fs_upd (set_next_offset Offset) s)).

(** [main_thread]: else the work is handed to the main thread. *)
Definition rd_kafka_offset_reset (main_thread : bool) (now : Z) (broker_id err_offset err : Z)
    (s : fetcher) : option fetcher :=
  if negb main_thread then
    let rko := op_set_err (rd_kafka_op_new (fs_addr s) (Z.lor RD_KAFKA_OP_OFFSET_RESET RD_KAFKA_OP_CB))
                 err in
    Some (fs_fresh (fs_upd (set_ops (rktp_ops (fs_rktp s)
                              ++ [mk_toppar_op rko (OffsetReset broker_id err_offset)])) s))
  else
    let offset := if (err_offset =? RD_KAFKA_OFFSET_INVALID) || negb (err =? 0)
                  then cc_auto_offset_reset conf else err_offset in
    let* s :=
      if offset =? RD_KAFKA_OFFSET_INVALID then
        let* s := rd_kafka_consumer_err RD_KAFKA_RESP_ERR__AUTO_OFFSET_RESET 0 s in
        Some (rd_kafka_toppar_set_fetch_state RD_KAFKA_TOPPAR_FETCH_NONE s)
      else if (offset =? RD_KAFKA_OFFSET_BEGINNING) && (rktp_lo_offset (fs_rktp s) >=? 0)
      then Some (next_offset_absolute (rktp_lo_offset (fs_rktp s)) s)
      else Some (rd_kafka_toppar_set_fetch_state RD_KAFKA_TOPPAR_FETCH_OFFSET_QUERY
                   (fs_upd (set_query_offset offset) s)) in
    if in_state s RD_KAFKA_TOPPAR_FETCH_OFFSET_QUERY
    then Some (rd_kafka_toppar_offset_request now (rktp_query_offset (fs_rktp s))
                 (if err =? 0 then 0 else 100) s)
    else Some s.

Definition rd_kafka_toppar_next_offset_handle (now : Z) (Offset : Z) (s : fetcher)
  : option fetcher :=
  if RD_KAFKA_OFFSET_IS_LOGICAL Offset
  then rd_kafka_offset_reset true now RD_KAFKA_NODEID_UA Offset 0
         (fs_upd (set_next_offset Offset) s)
  else Some (next_offset_absolute Offset s).

Definition rd_kafka_offset_query_tmr_cb (now : Z) (s : fetcher) : fetcher :=
  rd_kafka_toppar_offset_request now (rktp_query_offset (fs_rktp s)) 0 s.

(** The timer fires: it is unscheduled while the callback runs, and scheduled again
    unless the callback has stopped it or started it. *)
Definition query_tmr_fires (now : Z) (s : fetcher) : fetcher :=
  let tmr := rktp_offset_query_tmr (fs_rktp s) in
  let s := fs_upd (set_offset_query_tmr (mk_ftmr 0 (ftmr_interval tmr))) s in
  let s := rd_kafka_offset_query_tmr_cb now s in
  let tmr := rktp_offset_query_tmr (fs_rktp s) in
  if rd_kafka_timer_started tmr && negb (rd_kafka_timer_scheduled tmr)
  then fs_upd (set_offset_query_tmr (mk_ftmr (now + ftmr_interval tmr) (ftmr_interval tmr))) s
  else s.

(** ** Responses to ListOffsets requests *)

Section ListOffsetsResponse.
Context (rb : rd_buf) (ApiVersion : Z).
Local Open Scope reader_scope.

(** Of the offsets of a partition in version 0 the last one is kept. *)
Fixpoint list_offsets_loop (n : nat) (Offset : Z) : reader Z :=
  match n with
  | O => r_ret Offset
  | S n => let! Offset := rd_kafka_buf_read_i64 rb in list_offsets_loop n Offset
  end.

(** The partition, its error and its offset. *)
Definition list_offsets_part : reader (Z * Z * Z) :=
  let! kpartition := rd_kafka_buf_read_i32 rb in
  let! ErrorCode := rd_kafka_buf_read_i16 rb in
  let! Offset :=
    (if ApiVersion >=? 1 then
       let! _ := rd_kafka_buf_read_i64 rb in rd_kafka_buf_read_i64 rb
     else if ApiVersion =? 0 then
       let! OffsetArrayCnt := rd_kafka_buf_read_i32 rb in
       list_offsets_loop (Z.to_nat OffsetArrayCnt) (-1)
     else fun _ => None) in
  r_ret (kpartition, ErrorCode, Offset).

Fixpoint list_offsets_parts (n : nat) (topic : bytes) (offsets : list (bytes * Z * Z * Z))
  : reader (list (bytes * Z * Z * Z)) :=
  match n with
  | O => r_ret offsets
  | S n =>
      let! (kpartition, ErrorCode, Offset) := list_offsets_part in
      list_offsets_parts n topic (offsets ++ [(topic, kpartition, ErrorCode, Offset)])
  end.

Fixpoint list_offsets_topics (n : nat) (offsets : list (bytes * Z * Z * Z))
  : reader (list (bytes * Z * Z * Z)) :=
  match n with
  | O => r_ret offsets
  | S n =>
      let! ktopic := rd_kafka_buf_read_str rb false in
      let! PartArrayCnt := rd_kafka_buf_read_i32 rb in
      let! offsets := list_offsets_parts (Z.to_nat PartArrayCnt) (default [] (kb_data ktopic)) offsets in
      list_offsets_topics n offsets
  end.

(** The partitions with their errors and offsets, after the time to throttle. *)
Definition list_offsets_body : reader (list (bytes * Z * Z * Z)) :=
  let! TopicArrayCnt := rd_kafka_buf_read_i32 rb in
  list_offsets_topics (Z.to_nat TopicArrayCnt) [].

Definition list_offsets_throttle : reader (option Z) :=
  if ApiVersion >=? 2 then let! ms := rd_kafka_buf_read_i32 rb in r_ret (Some ms) else r_ret None.

End ListOffsetsResponse.

(** The list as far as it is used, and the error: that of the first partition that has
    one, or of the parsing. *)
Definition rd_kafka_parse_ListOffsets (reply : rd_buf * rd_slice) (ApiVersion : Z) (s : fetcher)
  : option (fetcher * list (bytes * Z * Z * Z) * Z) :=
  let '(rb, slice) := reply in
  let* (slice, r) := list_offsets_throttle rb ApiVersion slice in
  match r with
  | inr err => Some (s, [], err)
  | inl throttle =>
      let s := match throttle with Some ms => fs_emit (EvThrottle ms) s | None => s end in
      let* (_, r) := list_offsets_body rb ApiVersion slice in
      match r with
      | inr err => Some (s, [], err)
      | inl offsets =>
          let errs := omap (fun '(_, _, err, _) => if err =? 0 then None else Some err) offsets in
          Some (s, offsets, default 0 (head errs))
      end
  end.

(** The actions on errors of ListOffsets. *)
Definition list_offsets_actions : list (Z * Z) :=
  [(RD_KAFKA_ERR_ACTION_PERMANENT, 3);
   (RD_KAFKA_ERR_ACTION_REFRESH, 6);
   (RD_KAFKA_ERR_ACTION_REFRESH, 9);
   (RD_KAFKA_ERR_ACTION_REFRESH, RD_KAFKA_RESP_ERR_KAFKA_STORAGE_ERROR);
   (RD_KAFKA_ERR_ACTION_REFRESH, 78);
   (Z.lor RD_KAFKA_ERR_ACTION_REFRESH RD_KAFKA_ERR_ACTION_RETRY, 5);
   (Z.lor RD_KAFKA_ERR_ACTION_REFRESH RD_KAFKA_ERR_ACTION_RETRY, 74);
   (RD_KAFKA_ERR_ACTION_RETRY, RD_KAFKA_RESP_ERR__TRANSPORT);
   (RD_KAFKA_ERR_ACTION_RETRY, RD_KAFKA_RESP_ERR_REQUEST_TIMED_OUT)].

(** [buf_retry] is what [rd_kafka_buf_retry] returns.  The list, the error and the
    actions. *)
Definition rd_kafka_handle_ListOffsets (err : Z) (reply : option (rd_buf * rd_slice))
    (ApiVersion : Z) (buf_retry : bool) (s : fetcher)
  : option (fetcher * list (bytes * Z * Z * Z) * Z * Z) :=
  let* (s, offsets, err) :=
    if err =? 0 then let* reply := reply in rd_kafka_parse_ListOffsets reply ApiVersion s
    else Some (s, [], err) in
  if err =? 0 then Some (s, offsets, 0, 0)
  else
    let actions := rd_kafka_err_action err true list_offsets_actions in
    let s := if has_action actions RD_KAFKA_ERR_ACTION_REFRESH
             then fs_emit EvMetadataRefresh s else s in
    if has_action actions RD_KAFKA_ERR_ACTION_RETRY && buf_retry
    then Some (s, offsets, RD_KAFKA_RESP_ERR__IN_PROGRESS, actions)
    else Some (s, offsets, err, actions).

Definition lookup_found (s : fetcher) (offsets : list (bytes * Z * Z * Z)) : option Z :=
  (fun '(_, _, _, offset) => offset) <$>
  List.find (fun '(topic, partition, _, _) =>
    bool_decide (topic = rktp_topic (fs_rktp s)) && (partition =? rktp_partition (fs_rktp s)))
    offsets.

(** [rkb] is the broker, [nodeid] its id, [offset] and [version] are those of the request.
    A request that is sent again has no answer yet. *)
Definition rd_kafka_toppar_handle_Offset (now : Z) (rkb : nat) (nodeid offset err : Z)
    (reply : option (rd_buf * rd_slice)) (ApiVersion version : Z) (buf_retry : bool) (s : fetcher)
  : option fetcher :=
  let err := if negb (err =? RD_KAFKA_RESP_ERR__DESTROY)
                && negb (bool_decide (rktp_broker (fs_rktp s) = Some rkb))
             then RD_KAFKA_RESP_ERR__OUTDATED else err in
  let err := if negb (err =? RD_KAFKA_RESP_ERR__DESTROY)
                && negb (version =? 0) && (version <? rktp_op_version (fs_rktp s))
             then RD_KAFKA_RESP_ERR__OUTDATED else err in
  let* (s, offsets, err, actions) :=
    if negb (err =? RD_KAFKA_RESP_ERR__OUTDATED)
    then rd_kafka_handle_ListOffsets err reply ApiVersion buf_retry s
    else Some (s, [], err, 0) in
  let '(Offset, err, actions) :=
    if err =? 0 then
      match lookup_found s offsets with
      | Some Offset => (Offset, 0, actions)
      | None => (0, RD_KAFKA_RESP_ERR__UNKNOWN_PARTITION,
                 Z.lor actions RD_KAFKA_ERR_ACTION_PERMANENT)
      end
    else (0, err, actions) in
  if negb (err =? 0) then
    if err =? RD_KAFKA_RESP_ERR__DESTROY then Some s
    else if err =? RD_KAFKA_RESP_ERR__OUTDATED then Some (rd_kafka_toppar_offset_retry now 500 s)
    else if err =? RD_KAFKA_RESP_ERR__IN_PROGRESS then
      Some (add_lookup (ListOffsets rkb offset version) s)
    else if negb (has_action actions (Z.lor RD_KAFKA_ERR_ACTION_RETRY RD_KAFKA_ERR_ACTION_REFRESH))
    then
      let* s := rd_kafka_offset_reset true now nodeid (rktp_query_offset (fs_rktp s)) err s in
      rd_kafka_consumer_err err 0 s
    else Some (rd_kafka_toppar_offset_retry now 500 s)
  else rd_kafka_toppar_next_offset_handle now Offset s.

(** ** The store of offsets *)

Definition has_rktp_flag (s : fetcher) (flag : Z) : bool :=
  negb (Z.land (rktp_flags (fs_rktp s)) flag =? 0).
Definition add_rktp_flag (flag : Z) (s : fetcher) : fetcher :=
  fs_upd (set_flags (Z.lor (rktp_flags (fs_rktp s)) flag)) s.
Definition del_rktp_flag (flag : Z) (s : fetcher) : fetcher :=
  fs_upd (set_flags (Z.ldiff (rktp_flags (fs_rktp s)) flag)) s.

(** [rd_kafka_offset_commit] to the broker, with the request that is outstanding then. *)
Definition rd_kafka_offset_broker_commit (s : fetcher) : option (fetcher * Z) :=
  let* _ := rd_assert (rktp_cgrp (fs_rktp s)) in
  let* _ := rd_assert (has_rktp_flag s RD_KAFKA_TOPPAR_F_OFFSET_STORE) in
  let* a := fs_app s in
  let offset := rktp_stored_offset a in
  let s := fs_upd (set_committing_offset offset) s in
  Some (fs_emit (EvOffsetCommit offset) (add_lookup (OffsetCommit offset) s),
        RD_KAFKA_RESP_ERR__IN_PROGRESS).

Definition rd_kafka_offset_file_commit (s : fetcher) : option (fetcher * Z) :=
  let* a := fs_app s in
  if of_written file then Some (fs_upd (set_committed_offset (rktp_stored_offset a)) s, 0)
  else Some (s, of_commit_err file).

Definition rd_kafka_offset_commit (s : fetcher) : option (fetcher * Z) :=
  let* a := fs_app s in
  let stored := rktp_stored_offset a in
  if stored <=? rktp_committed_offset (fs_rktp s) then Some (s, 0)
  else if stored <=? rktp_committing_offset (fs_rktp s)
  then Some (s, RD_KAFKA_RESP_ERR__PREV_IN_PROGRESS)
  else if cc_offset_store_method conf =? RD_KAFKA_OFFSET_METHOD_FILE
  then rd_kafka_offset_file_commit s
  else if cc_offset_store_method conf =? RD_KAFKA_OFFSET_METHOD_BROKER
  then rd_kafka_offset_broker_commit s
  else Some (s, RD_KAFKA_RESP_ERR__INVALID_ARG).

Definition rd_kafka_offset_auto_commit_tmr_cb (s : fetcher) : option fetcher :=
  let* (s, _) := rd_kafka_offset_commit s in Some s.

(** The reply says what was asked for when the partition was stopped. *)
Definition rd_kafka_toppar_fetch_stopped (err : Z) (s : fetcher) : option fetcher :=
  let s := rd_kafka_toppar_set_fetch_state RD_KAFKA_TOPPAR_FETCH_STOPPED s in
  let* s := set_app_offset RD_KAFKA_OFFSET_INVALID s in
  let s := if rktp_cgrp (fs_rktp s)
           then fs_upd (set_cgrp false) (fs_emit EvPartitionLeave s) else s in
  match rktp_replyq (fs_rktp s) with
  | Some (rkq, version) =>
      Some (fs_upd (set_replyq None)
              (fs_emit (EvReply rkq (Z.lor RD_KAFKA_OP_FETCH_STOP RD_KAFKA_OP_REPLY) err version) s))
  | None => Some s
  end.

(** The termination of the store succeeds, whatever its method is. *)
Definition rd_kafka_offset_store_term (err : Z) (s : fetcher) : option fetcher :=
  let s := del_rktp_flag RD_KAFKA_TOPPAR_F_OFFSET_STORE_STOPPING s in
  let s := fs_upd (set_offset_commit_tmr (rd_kafka_timer_stop (rktp_offset_commit_tmr (fs_rktp s)))) s in
  rd_kafka_toppar_fetch_stopped err s.

Definition rd_kafka_offset_store_stop (s : fetcher) : option fetcher :=
  if negb (has_rktp_flag s RD_KAFKA_TOPPAR_F_OFFSET_STORE) then rd_kafka_offset_store_term 0 s
  else
    let s := add_rktp_flag RD_KAFKA_TOPPAR_F_OFFSET_STORE_STOPPING s in
    let* a := fs_app s in
    let eof := os_eof_offset (rktp_offsets_fin (fs_rktp s)) in
    let* s := if cc_enable_auto_offset_store conf
                 && (rktp_stored_offset a =? RD_KAFKA_OFFSET_INVALID) && (eof >? 0)
              then set_stored_offset eof s else Some s in
    let* a := fs_app s in
    let* (s, err) :=
      if cc_is_simple_consumer conf
         && (rktp_stored_offset a >? rktp_committed_offset (fs_rktp s))
      then rd_kafka_offset_commit s else Some (s, 0) in
    if err =? RD_KAFKA_RESP_ERR__IN_PROGRESS then Some s
    else rd_kafka_offset_store_term err s.

Definition rd_kafka_offset_file_init (now : Z) (s : fetcher) : option fetcher :=
  let offset := of_read file in
  if negb (offset =? RD_KAFKA_OFFSET_INVALID) then
    let* s := set_stored_offset offset s in
    rd_kafka_toppar_next_offset_handle now offset (fs_upd (set_committed_offset offset) s)
  else
    rd_kafka_offset_reset true now RD_KAFKA_NODEID_UA RD_KAFKA_OFFSET_INVALID RD_KAFKA_RESP_ERR__FS
      (fs_upd (set_committed_offset RD_KAFKA_OFFSET_INVALID) s).

Definition rd_kafka_offset_broker_init (now : Z) (s : fetcher) : option fetcher :=
  if negb (cc_is_simple_consumer conf) then Some s
  else rd_kafka_offset_reset true now RD_KAFKA_NODEID_UA RD_KAFKA_OFFSET_STORED 0 s.

Definition rd_kafka_offset_store_init (now : Z) (s : fetcher) : option fetcher :=
  let s := fs_upd (set_committed_offset RD_KAFKA_OFFSET_INVALID) s in
  let s := if cc_is_simple_consumer conf && (cc_auto_commit_interval_ms conf >? 0)
           then fs_upd (set_offset_commit_tmr
                  (rd_kafka_timer_start (rktp_offset_commit_tmr (fs_rktp s))
                     (cc_auto_commit_interval_ms conf * 1000) now)) s
           else s in
  let* s :=
    if cc_offset_store_method conf =? RD_KAFKA_OFFSET_METHOD_FILE
    then rd_kafka_offset_file_init now s
    else if cc_offset_store_method conf =? RD_KAFKA_OFFSET_METHOD_BROKER
    then rd_kafka_offset_broker_init now s
    else Some s in
  Some (add_rktp_flag RD_KAFKA_TOPPAR_F_OFFSET_STORE s).

(** The list has one partition. *)
Definition rd_kafka_toppar_offset_commit_result (err offset : Z) (s : fetcher) : option fetcher :=
  let* s := if negb (err =? 0) then rd_kafka_consumer_err err 0 s else Some s in
  let s := if err =? 0 then fs_upd (set_committed_offset offset) s else s in
  if in_state s RD_KAFKA_TOPPAR_FETCH_STOPPING then rd_kafka_toppar_fetch_stopped err s
  else Some s.

(** [offsets] is the offset of this partition and its error, unless the list is empty. *)
Definition rd_kafka_offset_broker_commit_cb (err : Z) (offsets : option (Z * Z)) (s : fetcher)
  : option fetcher :=
  match offsets with
  | None => Some s
  | Some (offset, rktpar_err) =>
      let err := if err =? 0 then rktpar_err else err in
      let* s := rd_kafka_toppar_offset_commit_result err offset s in
      let s := fs_upd (set_committing_offset 0) s in
      if has_rktp_flag s RD_KAFKA_TOPPAR_F_OFFSET_STORE_STOPPING
      then rd_kafka_offset_store_term err s else Some s
  end.

(** ** Ops for the partition

    [rko_version] and [rko_replyq] are those of the op; an op is answered by a reply on
    its queue, whose version is that of the queue. *)

Definition reply_to (rko : rd_kafka_op) (type err : Z) (s : fetcher) : fetcher :=
  match rko_replyq rko with
  | Some rkq => fs_emit (EvReply rkq type err (rko_replyq_version rko)) s
  | None => s
  end.

Definition rd_kafka_toppar_fetch_start (now : Z) (offset : Z) (rkcg : bool)
    (rko_orig : rd_kafka_op) (s : fetcher) : option fetcher :=
  if in_state s RD_KAFKA_TOPPAR_FETCH_STOPPING
  then Some (reply_to rko_orig RD_KAFKA_OP_FETCH_START RD_KAFKA_RESP_ERR__PREV_IN_PROGRESS s)
  else
    let* s := rd_kafka_toppar_op_version_bump (rko_version rko_orig) s in
    let* s :=
      if rkcg then
        let* _ := rd_assert (negb (rktp_cgrp (fs_rktp s))) in
        Some (fs_emit EvPartitionJoin (fs_upd (set_cgrp true) s))
      else Some s in
    let* s :=
      if (offset =? RD_KAFKA_OFFSET_BEGINNING) || (offset =? RD_KAFKA_OFFSET_END)
         || (offset <=? RD_KAFKA_OFFSET_TAIL_BASE)
      then rd_kafka_toppar_next_offset_handle now offset s
      else if offset =? RD_KAFKA_OFFSET_STORED then rd_kafka_offset_store_init now s
      else if offset =? RD_KAFKA_OFFSET_INVALID
      then rd_kafka_offset_reset true now RD_KAFKA_NODEID_UA offset RD_KAFKA_RESP_ERR__NO_OFFSET s
      else Some (wakeup_broker (rd_kafka_toppar_set_fetch_state RD_KAFKA_TOPPAR_FETCH_ACTIVE
                                  (fs_upd (set_next_offset offset) s))) in
    let s := fs_upd (set_offsets_fin
               (mk_ostats (os_fetch_offset (rktp_offsets_fin (fs_rktp s))) RD_KAFKA_OFFSET_INVALID)) s in
    Some (reply_to rko_orig RD_KAFKA_OP_FETCH_START 0 s).

(** Aborts a lookup that waits for its timer. *)
Definition abort_query (s : fetcher) : fetcher :=
  if in_state s RD_KAFKA_TOPPAR_FETCH_OFFSET_QUERY then stop_query_tmr s else s.

(** The reply queue of the op is taken over. *)
Definition rd_kafka_toppar_fetch_stop (rko_orig : rd_kafka_op) (s : fetcher) : option fetcher :=
  let* s := rd_kafka_toppar_op_version_bump (rko_version rko_orig) s in
  let s := abort_query s in
  let* qs := rd_kafka_q_fwd_set0 fuel (fs_qs s) (rktp_fetchq (fs_rktp s)) None false in
  let s := fs_set_qs qs s in
  let* _ := rd_assert (bool_decide (rktp_replyq (fs_rktp s) = None)) in
  let s := fs_upd (set_replyq ((fun rkq => (rkq, rko_replyq_version rko_orig)) <$> rko_replyq rko_orig)) s in
  let s := rd_kafka_toppar_set_fetch_state RD_KAFKA_TOPPAR_FETCH_STOPPING s in
  rd_kafka_offset_store_stop s.

Definition rd_kafka_toppar_seek (now : Z) (offset : Z) (rko_orig : rd_kafka_op) (s : fetcher)
  : option fetcher :=
  let reply err s := reply_to rko_orig (Z.lor RD_KAFKA_OP_SEEK RD_KAFKA_OP_REPLY) err s in
  if in_state s RD_KAFKA_TOPPAR_FETCH_STOPPING
  then Some (reply RD_KAFKA_RESP_ERR__PREV_IN_PROGRESS s)
  else if negb (RD_KAFKA_TOPPAR_FETCH_IS_STARTED (rktp_fetch_state (fs_rktp s)))
  then Some (reply RD_KAFKA_RESP_ERR__STATE s)
  else if offset =? RD_KAFKA_OFFSET_STORED then Some (reply RD_KAFKA_RESP_ERR__INVALID_ARG s)
  else
    let* s := rd_kafka_toppar_op_version_bump (rko_version rko_orig) s in
    let* s := set_app_offset RD_KAFKA_OFFSET_INVALID s in
    let s := abort_query s in
    let* s :=
      if RD_KAFKA_OFFSET_IS_LOGICAL offset then rd_kafka_toppar_next_offset_handle now offset s
      else Some (wakeup_broker (rd_kafka_toppar_set_fetch_state RD_KAFKA_TOPPAR_FETCH_ACTIVE
                                  (fs_upd (set_next_offset offset) s))) in
    Some (reply 0 s).

Definition rd_kafka_toppar_pause_resume (now : Z) (pause : bool) (flag : Z)
    (rko_orig : rd_kafka_op) (s : fetcher) : option fetcher :=
  let* s := rd_kafka_toppar_op_version_bump (rko_version rko_orig) s in
  if negb pause && negb (Z.land (rktp_flags (fs_rktp s)) flag =? flag) then Some s
  else if pause then
    let s := add_rktp_flag flag s in
    if cc_is_consumer conf then
      let* a := fs_app s in
      let s := if negb (rktp_app_offset a =? RD_KAFKA_OFFSET_INVALID)
               then fs_upd (set_next_offset (rktp_app_offset a)) s else s in
      let* qs := rd_kafka_q_purge_toppar_version fuel (fs_qs s) (rktp_fetchq (fs_rktp s))
                   (rktp_self (fs_rktp s)) (rko_version rko_orig) in
      Some (fs_set_qs qs s)
    else Some s
  else
    let s := del_rktp_flag flag s in
    if cc_is_consumer conf
       && negb (RD_KAFKA_TOPPAR_IS_PAUSED (fs_rktp s))
       && (in_state s RD_KAFKA_TOPPAR_FETCH_ACTIVE || in_state s RD_KAFKA_TOPPAR_FETCH_OFFSET_WAIT)
       && (rktp_next_offset (fs_rktp s) =? RD_KAFKA_OFFSET_INVALID)
    then rd_kafka_toppar_next_offset_handle now (rktp_next_offset (fs_rktp s)) s
    else Some s.

(** The reply to an OffsetFetch request. *)
Definition handle_offset_fetch_reply (now : Z) (rko_err offset part_err : Z) (s : fetcher)
  : option fetcher :=
  let '(err, offset) := if rko_err =? 0 then (part_err, offset)
                        else (rko_err, RD_KAFKA_OFFSET_INVALID) in
  let s := stop_query_tmr s in
  if negb (err =? 0) then
    let s := rd_kafka_toppar_offset_retry now 500 s in
    if negb (err =? RD_KAFKA_RESP_ERR__WAIT_COORD)
       && negb (err =? RD_KAFKA_RESP_ERR_UNSTABLE_OFFSET_COMMIT)
    then rd_kafka_consumer_err err 0 s else Some s
  else
    let s := if offset >? 0 then fs_upd (set_committed_offset offset) s else s in
    if offset >=? 0 then rd_kafka_toppar_next_offset_handle now offset s
    else rd_kafka_offset_reset true now RD_KAFKA_NODEID_UA offset RD_KAFKA_RESP_ERR__NO_OFFSET s.

(** An op that carries nothing for this function fails the assertion of its default. *)
Definition rd_kafka_toppar_op_serve (now : Z) (op : toppar_op) (s : fetcher) : option fetcher :=
  let rko := to_rko op in
  let reply err s :=
    match to_u op with
    | FetchStart _ _ | FetchStop | Seek _ => s
    | _ => reply_to rko (Z.lor (rko_type rko) RD_KAFKA_OP_REPLY) err s
    end in
  if rd_kafka_op_version_outdated (fs_qs s) rko (rktp_op_version (fs_rktp s))
  then Some (reply_to rko (Z.lor (rko_type rko) RD_KAFKA_OP_REPLY) RD_KAFKA_RESP_ERR__OUTDATED s)
  else
    let* s := match to_u op with
              | FetchStart offset rkcg => rd_kafka_toppar_fetch_start now offset rkcg rko s
              | FetchStop => rd_kafka_toppar_fetch_stop rko s
              | Seek offset => rd_kafka_toppar_seek now offset rko s
              | Pause pause flag => rd_kafka_toppar_pause_resume now pause flag rko s
              | OffsetCommitReply offsets =>
                  rd_kafka_offset_broker_commit_cb (rko_err rko) offsets s
              | OffsetFetchReply offset err =>
                  handle_offset_fetch_reply now (rko_err rko) offset err s
              | OffsetReset _ _ | RecvListOffsets _ _ _ _ _ => None
              end in
    Some (reply 0 s).

(** What the main thread does with an op of the partition, by [rd_kafka_op_handle]:
    responses and ops with a callback do not get to [rd_kafka_toppar_op_serve].
    [nodeid] are the brokers' ids. *)
Definition toppar_op_handle (nodeid : nat -> Z) (now : Z) (op : toppar_op) (s : fetcher)
  : option fetcher :=
  match to_u op with
  | RecvListOffsets rkb offset reply ApiVersion buf_retry =>
      rd_kafka_toppar_handle_Offset now rkb (nodeid rkb) offset (rko_err (to_rko op)) reply
        ApiVersion (rko_version (to_rko op)) buf_retry s
  | OffsetReset broker_id offset =>
      rd_kafka_offset_reset true now broker_id offset (rko_err (to_rko op)) s
  | _ => rd_kafka_toppar_op_serve now op s
  end.

(** The main thread takes the next op. *)
Definition toppar_ops_serve (nodeid : nat -> Z) (now : Z) (s : fetcher) : option fetcher :=
  match rktp_ops (fs_rktp s) with
  | [] => Some s
  | op :: ops => toppar_op_handle nodeid now op (fs_upd (set_ops ops) s)
  end.

(** ** What the application and the group ask for *)

Definition rd_kafka_toppar_op0 (op : toppar_op) (s : fetcher) : fetcher :=
  fs_fresh (fs_upd (set_ops (rktp_ops (fs_rktp s) ++ [op])) s).

(** [replyq] is a queue and the version of the reply. *)
Definition rd_kafka_toppar_op (type version : Z) (u : toppar_op_u) (replyq : option (nat * Z))
    (s : fetcher) : fetcher :=
  let rko := op_set_version (rd_kafka_op_new (fs_addr s) type) version in
  let rko := op_set_replyq rko (fst <$> replyq) (default 0 (snd <$> replyq)) in
  rd_kafka_toppar_op0 (mk_toppar_op rko u) s.

(** The version of the barrier, and the state. *)
Definition new_barrier (s : fetcher) : option (Z * fetcher) :=
  let* (version, qs) := rd_kafka_toppar_version_new_barrier (fs_qs s) (rktp_self (fs_rktp s)) in
  Some (version, fs_set_qs qs s).

(** [rkcg]: there is a consumer group. *)
Definition rd_kafka_toppar_op_fetch_start (offset : Z) (fwdq : option nat) (rkcg : bool)
    (replyq : option (nat * Z)) (s : fetcher) : option fetcher :=
  let fetchq := rktp_fetchq (fs_rktp s) in
  let* q := q_get (fs_qs s) fetchq in
  let* qs := match fwdq with
             | Some _ => if Z.land (rkq_flags q) RD_KAFKA_Q_F_FWD_APP =? 0
                         then rd_kafka_q_fwd_set0 fuel (fs_qs s) fetchq fwdq false
                         else Some (fs_qs s)
             | None => Some (fs_qs s)
             end in
  let* (version, s) := new_barrier (fs_set_qs qs s) in
  Some (rd_kafka_toppar_op RD_KAFKA_OP_FETCH_START version (FetchStart offset rkcg) replyq s).

Definition rd_kafka_toppar_op_fetch_stop (replyq : option (nat * Z)) (s : fetcher)
  : option fetcher :=
  let* (version, s) := new_barrier s in
  Some (rd_kafka_toppar_op RD_KAFKA_OP_FETCH_STOP version FetchStop replyq s).

Definition rd_kafka_toppar_op_seek (offset : Z) (replyq : option (nat * Z)) (s : fetcher)
  : option fetcher :=
  let* (version, s) := new_barrier s in
  Some (rd_kafka_toppar_op RD_KAFKA_OP_SEEK version (Seek offset) replyq s).

Definition rd_kafka_toppar_op_pause_resume (pause : bool) (flag : Z) (replyq : option (nat * Z))
    (s : fetcher) : option fetcher :=
  let* (version, s) := new_barrier s in
  Some (rd_kafka_toppar_op RD_KAFKA_OP_PAUSE version (Pause pause flag) replyq s).

Definition rd_kafka_toppar_pause (flag : Z) (s : fetcher) : option fetcher :=
  rd_kafka_toppar_op_pause_resume true flag None s.

Definition rd_kafka_toppar_resume (flag : Z) (s : fetcher) : option fetcher :=
  rd_kafka_toppar_op_pause_resume true flag None s.

End Fetcher.
