(* ===== verification/FetchBroker.v ===== *)
(** * Fetching (src/cbits/hs_rdkafka_broker.c, parts of hs_rdkafka_partition.c and
      hs_rdkafka_topic.c)

    The broker threads' part: which partitions are fetched and from where, the Fetch
    requests and their responses, whose message sets MsgReader reads, errors of
    partitions, and the delegation of partitions to brokers.  A broker thread works on a
    partition, as the main thread does, as a [fetcher]; [fetch_client] has all of them. *)

From stdpp Require Import gmap.
From S2P Require Import Prelude Producer RdBuf Slice KafkaBuf MsgReader Queue FetchState Fetcher.

(** What a broker's thread keeps of the partitions: those it serves, those to fetch, in
    a circle, and the one the next request begins with. *)
Record fetch_broker := mk_fetch_broker {
  rkb_toppars : list nat;
  rkb_active_toppars : list nat;
  rkb_active_toppar_next : option nat;
  rkb_fetching : bool;
  rkb_ts_fetch_backoff : Z }.

Definition rkb_set_toppars (v : list nat) (b : fetch_broker) : fetch_broker :=
  mk_fetch_broker v (rkb_active_toppars b) (rkb_active_toppar_next b) (rkb_fetching b)
    (rkb_ts_fetch_backoff b).
Definition rkb_set_active (l : list nat) (next : option nat) (b : fetch_broker) : fetch_broker :=
  mk_fetch_broker (rkb_toppars b) l next (rkb_fetching b) (rkb_ts_fetch_backoff b).
Definition rkb_set_fetching (v : bool) (b : fetch_broker) : fetch_broker :=
  mk_fetch_broker (rkb_toppars b) (rkb_active_toppars b) (rkb_active_toppar_next b) v
    (rkb_ts_fetch_backoff b).
Definition rkb_set_ts_fetch_backoff (v : Z) (b : fetch_broker) : fetch_broker :=
  mk_fetch_broker (rkb_toppars b) (rkb_active_toppars b) (rkb_active_toppar_next b)
    (rkb_fetching b) v.

(** What the reader makes of a message set: its ops, the partition's fetch offset and
    fetch size, and its error. *)
Abbreviation msgset_result := (list fetch_op * Z * Z * Z)%type.

Definition RD_TS_MAX : Z := 2 ^ 63 - 1.

(** ** The circle of partitions to fetch *)

(** [CIRCLEQ_LOOP_NEXT]: the element after [p], or the first. *)
Fixpoint next_in (l : list nat) (p : nat) : option nat :=
  match l with
  | [] => None
  | x :: rest => if Nat.eqb x p then head rest else next_in rest p
  end.

Definition loop_next (l : list nat) (p : nat) : option nat :=
  match next_in l p with Some x => Some x | None => head l end.

(** [sugg_next] is [None] for NULL and for the end of the circle. *)
Definition rd_kafka_broker_active_toppar_next (sugg_next : option nat) (b : fetch_broker)
  : fetch_broker :=
  let l := rkb_active_toppars b in
  rkb_set_active l (match l, sugg_next with
                    | [], _ => None
                    | _, Some p => Some p
                    | _, None => head l
                    end) b.

(** The partition's [rktp_fetch] says whether it is on the list. *)
Definition rd_kafka_broker_active_toppar_add (t : rd_kafka_toppar) (b : fetch_broker)
  : rd_kafka_toppar * fetch_broker :=
  if rktp_fetch t then (t, b)
  else
    let l := rkb_active_toppars b ++ [rktp_self t] in
    let b := rkb_set_active l (rkb_active_toppar_next b) b in
    (set_fetch true t,
     if zlen l =? 1 then rd_kafka_broker_active_toppar_next (Some (rktp_self t)) b else b).

(** After the removal the links of the element still lead to its neighbours. *)
Definition rd_kafka_broker_active_toppar_del (t : rd_kafka_toppar) (b : fetch_broker)
  : option (rd_kafka_toppar * fetch_broker) :=
  if negb (rktp_fetch t) then Some (t, b)
  else
    let l := rkb_active_toppars b in
    let p := rktp_self t in
    let rest := filter (fun x => x <> p) l in
    let* _ := rd_assert (zlen l >? 0) in
    let b' := rkb_set_active rest (rkb_active_toppar_next b) b in
    Some (set_fetch false t,
          if bool_decide (rkb_active_toppar_next b = Some p)
          then rd_kafka_broker_active_toppar_next
                 (match next_in l p with Some x => Some x | None => head rest end) b'
          else b').

Section Broker.
Context (fuel : nat) (conf : consumer_conf) (rkb_internal : nat -> bool).
(** [rd_kafka_broker_find_by_nodeid], and the internal broker. *)
Context (find_by_nodeid : Z -> option nat) (internal_rkb : nat).

(** ** Delegation to brokers

    Any thread may do this: [main_thread].  Setting the fetch state is for the main
    thread alone, and asserts it. *)

Definition rd_kafka_toppar_broker_migrate (main_thread : bool) (now : Z) (old_rkb new_rkb : option nat)
    (s : fetcher) : option fetcher :=
  let had_next_broker := rktp_next_broker (fs_rktp s) in
  let s := fs_upd (set_next_broker new_rkb) s in
  match had_next_broker with
  | Some _ => Some s
  | None =>
      let* s := if in_state s RD_KAFKA_TOPPAR_FETCH_OFFSET_WAIT then
                  let* _ := rd_assert main_thread in
                  Some (rd_kafka_toppar_offset_retry now 500 s)
                else Some s in
      match old_rkb, new_rkb with
      | Some rkb, _ => Some (fs_emit (EvBrokerLeave rkb) s)
      | None, Some rkb => Some (fs_emit (EvBrokerJoin rkb) s)
      | None, None => None
      end
  end.

(** The client is not terminating. *)
Definition rd_kafka_toppar_broker_delegate (main_thread : bool) (now : Z) (rkb : option nat)
    (s : fetcher) : option fetcher :=
  let rkb := default internal_rkb rkb in
  if bool_decide (rktp_broker (fs_rktp s) = Some rkb)
     && bool_decide (rktp_next_broker (fs_rktp s) = None)
  then Some s
  else rd_kafka_toppar_broker_migrate main_thread now (rktp_broker (fs_rktp s)) (Some rkb) s.

(** Whether the delegation was changed, and the state. *)
Definition rd_kafka_toppar_broker_update (main_thread : bool) (now : Z) (broker_id : Z)
    (rkb : option nat) (s : fetcher) : option (Z * fetcher) :=
  let s := fs_upd (set_broker_id broker_id) s in
  match rkb with
  | None =>
      let had_broker := rktp_broker (fs_rktp s) in
      let* s := rd_kafka_toppar_broker_delegate main_thread now None s in
      Some (match had_broker with Some _ => -1 | None => 0 end, s)
  | Some rkb =>
      if bool_decide (rktp_broker (fs_rktp s) = Some rkb) then Some (0, s)
      else
        let* s := rd_kafka_toppar_broker_delegate main_thread now (Some rkb) s in Some (1, s)
  end.

Definition rd_kafka_toppar_delegate_to_leader (main_thread : bool) (now : Z) (s : fetcher)
  : option fetcher :=
  let t := fs_rktp s in
  let* _ := rd_assert (negb (rktp_leader_id t =? rktp_broker_id t)) in
  let leader := find_by_nodeid (rktp_leader_id t) in
  let* (_, s) := rd_kafka_toppar_broker_update main_thread now (rktp_leader_id t) leader s in
  Some s.

(** The main thread has learnt of the leader. *)
Definition rd_kafka_toppar_leader_update (now : Z) (leader_id : Z) (leader : option nat)
    (s : fetcher) : option (Z * fetcher) :=
  let t := fs_rktp s in
  let fetching_from_follower :=
    match leader, rktp_broker t with
    | Some leader, Some rkb => negb (rkb_internal rkb) && negb (Nat.eqb rkb leader)
    | _, _ => false
    end in
  if fetching_from_follower && (rktp_leader_id t =? leader_id) then Some (0, s)
  else rd_kafka_toppar_broker_update true now leader_id leader (fs_upd (set_leader_id leader_id) s).

Definition rd_kafka_toppar_broker_leave_for_remove (main_thread : bool) (s : fetcher)
  : option fetcher :=
  let s := add_rktp_flag RD_KAFKA_TOPPAR_F_REMOVE s in
  let dest := match rktp_next_broker (fs_rktp s) with
              | Some rkb => Some rkb
              | None => rktp_broker (fs_rktp s)
              end in
  match dest with
  | None => Some s
  | Some rkb =>
      let* s := if in_state s RD_KAFKA_TOPPAR_FETCH_OFFSET_WAIT then
                  let* _ := rd_assert main_thread in
                  Some (rd_kafka_toppar_set_fetch_state RD_KAFKA_TOPPAR_FETCH_OFFSET_QUERY s)
                else Some s in
      Some (fs_emit (EvBrokerLeave rkb) s)
  end.

(** ** The decision to fetch

    The partition, its broker's lists, and the time until which fetching is backed off,
    0 if it is not. *)

Definition fetch_stats_finalize (s : fetcher) : fetcher :=
  fs_upd (set_offsets_fin (rktp_offsets (fs_rktp s))) s.

Definition fetch_decide_done (should_fetch : bool) (ts_backoff : Z) (s : fetcher) (b : fetch_broker)
  : option (fetcher * fetch_broker * Z) :=
  let s := fetch_stats_finalize s in
  let* (t, b) :=
    if Bool.eqb (rktp_fetch (fs_rktp s)) should_fetch then Some (fs_rktp s, b)
    else if should_fetch then Some (rd_kafka_broker_active_toppar_add (fs_rktp s) b)
    else rd_kafka_broker_active_toppar_del (fs_rktp s) b in
  Some (fs_upd (fun _ => t) s, b,
        if negb should_fetch && (ts_backoff =? 0) then RD_TS_MAX else ts_backoff).

(** A new version, another offset to start at, or an offset that is invalid: fetching
    starts over. *)
Definition fetch_start_over (s : fetcher) : bool :=
  let t := fs_rktp s in
  (rktp_op_version t >? rktp_fetch_version t)
  || negb (rktp_next_offset t =? rktp_last_next_offset t)
  || (os_fetch_offset (rktp_offsets t) =? RD_KAFKA_OFFSET_INVALID).

Definition fetch_set_start (s : fetcher) : option fetcher :=
  let t := fs_rktp s in
  let version := rktp_op_version t in
  let s := fs_upd (set_offsets (mk_ostats (rktp_next_offset t)
                                  (os_eof_offset rd_kafka_offset_stats_reset))) s in
  let s := fs_upd (set_last_next_offset (rktp_next_offset t)) s in
  let s := fs_upd (set_fetch_version version) s in
  let s := fs_upd (set_last_error 0) s in
  let* qs := rd_kafka_q_purge_toppar_version fuel (fs_qs s) (rktp_fetchq t) (rktp_self t) version in
  Some (fs_set_qs qs s).

(** [queued.min.messages] and [queued.max.messages.kbytes] are about the queue the
    messages go to. *)
Definition rd_kafka_toppar_fetch_decide (now : Z) (force_remove : bool) (s : fetcher)
    (b : fetch_broker) : option (fetcher * fetch_broker * Z) :=
  let t := fs_rktp s in
  let '(lease_intvl, lease_expired) :=
    if negb (rktp_leader_id t =? rktp_broker_id t) then
      let '(ri, r) := rd_interval (rktp_lease_intvl t) (5 * 60 * 1000 * 1000) now in (ri, r >? 0)
    else (rktp_lease_intvl t, false) in
  let s := fs_upd (set_lease_intvl lease_intvl) s in
  if lease_expired then
    let* s := rd_kafka_toppar_delegate_to_leader false now s in
    fetch_decide_done false 0 s b
  else if force_remove then fetch_decide_done false 0 s b
  else if has_rktp_flag s RD_KAFKA_TOPPAR_F_REMOVE then fetch_decide_done false 0 s b
  else if negb (in_state s RD_KAFKA_TOPPAR_FETCH_ACTIVE) then fetch_decide_done false 0 s b
  else
    let* s := if fetch_start_over s then fetch_set_start s else Some s in
    let t := fs_rktp s in
    let* qlen := rd_kafka_q_len fuel (fs_qs s) (rktp_fetchq t) in
    let* qsize := rd_kafka_q_size fuel (fs_qs s) (rktp_fetchq t) in
    if RD_KAFKA_TOPPAR_IS_PAUSED t then fetch_decide_done false 0 s b
    else if RD_KAFKA_OFFSET_IS_LOGICAL (rktp_next_offset t) then fetch_decide_done false 0 s b
    else if qlen >=? cc_queued_min_msgs conf then fetch_decide_done false 0 s b
    else if qsize >=? cc_queued_max_msg_bytes conf then fetch_decide_done false 0 s b
    else if rktp_ts_fetch_backoff t >? now
    then fetch_decide_done false (rktp_ts_fetch_backoff t) s b
    else fetch_decide_done true 0 s b.

(** A consumer's broker handles [PARTITION_JOIN] and [PARTITION_LEAVE]. *)
Definition broker_partition_join (rkb : nat) (terminating : bool) (s : fetcher) (b : fetch_broker)
  : option (fetcher * fetch_broker) :=
  if terminating || has_rktp_flag s RD_KAFKA_TOPPAR_F_REMOVE
  then Some (fs_upd (set_next_broker None) s, b)
  else
    let* next := rktp_next_broker (fs_rktp s) in
    if negb (Nat.eqb next rkb) then Some (fs_emit (EvBrokerJoin next) s, b)
    else
      let* _ := rd_assert (negb (has_rktp_flag s RD_KAFKA_TOPPAR_F_ON_RKB)) in
      let s := add_rktp_flag RD_KAFKA_TOPPAR_F_ON_RKB s in
      let b := rkb_set_toppars (rkb_toppars b ++ [rktp_self (fs_rktp s)]) b in
      Some (fs_upd (set_next_broker None) (fs_upd (set_broker (Some rkb)) s), b).

Definition broker_partition_leave (now : Z) (rkb : nat) (s : fetcher) (b : fetch_broker)
  : option (fetcher * fetch_broker) :=
  if negb (bool_decide (rktp_broker (fs_rktp s) = Some rkb)) then Some (s, b)
  else
    let* (s, b, _) := rd_kafka_toppar_fetch_decide now true s b in
    let b := rkb_set_toppars (filter (fun p => p <> rktp_self (fs_rktp s)) (rkb_toppars b)) b in
    let s := fs_upd (set_broker None) s in
    let* _ := rd_assert (has_rktp_flag s RD_KAFKA_TOPPAR_F_ON_RKB) in
    let s := del_rktp_flag RD_KAFKA_TOPPAR_F_ON_RKB s in
    Some (match rktp_next_broker (fs_rktp s) with
          | Some next => fs_emit (EvBrokerJoin next) s
          | None => s
          end, b).

(** ** Errors of a partition *)

Definition RD_KAFKA_RESP_ERR_TOPIC_AUTHORIZATION_FAILED : Z := 29.
Definition RD_KAFKA_RESP_ERR_REPLICA_NOT_AVAILABLE : Z := 9.

Definition rd_kafka_toppar_fetch_backoff (now : Z) (err : Z) (s : fetcher) : fetcher :=
  if err =? RD_KAFKA_RESP_ERR__PARTITION_EOF then s
  else
    let backoff_ms := cc_fetch_error_backoff_ms conf in
    let backoff_ms := if err =? RD_KAFKA_RESP_ERR_TOPIC_AUTHORIZATION_FAILED
                      then RD_MAX 1000 (backoff_ms * 10) else backoff_ms in
    fs_upd (set_ts_fetch_backoff (now + backoff_ms * 1000)) s.

Definition rd_kafka_fetch_preferred_replica_handle (now : Z) (preferred_id : Z) (s : fetcher)
  : option fetcher :=
  let one_minute := 60 * 1000 * 1000 in
  let five_seconds := 5 * 1000 * 1000 in
  let '(ri, new_intvl) := rd_interval_immediate (rktp_new_lease_intvl (fs_rktp s)) one_minute now in
  let s := fs_upd (set_new_lease_intvl ri) s in
  let s := if new_intvl <? 0 then rd_kafka_toppar_fetch_backoff now 0 s else s in
  match find_by_nodeid preferred_id with
  | Some preferred_rkb =>
      let s := fs_upd (set_lease_intvl
                 (rd_interval_reset_to_now (rktp_lease_intvl (fs_rktp s)) now)) s in
      let* (_, s) := rd_kafka_toppar_broker_update false now preferred_id (Some preferred_rkb) s in
      Some s
  | None =>
      let '(ri, r) := rd_interval_immediate (rktp_metadata_intvl (fs_rktp s)) five_seconds now in
      let s := fs_upd (set_metadata_intvl ri) s in
      let s := if r >? 0 then fs_emit EvMetadataRefresh s else s in
      Some (rd_kafka_toppar_fetch_backoff now RD_KAFKA_RESP_ERR_REPLICA_NOT_AVAILABLE s)
  end.

(** The errors for which metadata is asked for: UNKNOWN_TOPIC_OR_PART,
    LEADER_NOT_AVAILABLE, NOT_LEADER_FOR_PARTITION, BROKER_NOT_AVAILABLE,
    REPLICA_NOT_AVAILABLE, KAFKA_STORAGE_ERROR and FENCED_LEADER_EPOCH. *)
Definition fetch_leader_errors : list Z := [3; 5; 6; 8; 9; 56; 74].

(** OFFSET_NOT_AVAILABLE is 78.  [nodeid] is the broker's id, [version] that of the
    request. *)
Definition rd_kafka_fetch_reply_handle_partition_error (now nodeid version err HighwaterMarkOffset : Z)
    (s : fetcher) : option fetcher :=
  let t := fs_rktp s in
  let fetch_offset := os_fetch_offset (rktp_offsets t) in
  let* s :=
    if existsb (Z.eqb err) fetch_leader_errors then Some (fs_emit (EvLeaderUnavailable err) s)
    else if err =? 78 then Some s
    else if err =? RD_KAFKA_RESP_ERR_OFFSET_OUT_OF_RANGE then
      if negb (rktp_broker_id t =? rktp_leader_id t) && (fetch_offset >? HighwaterMarkOffset)
      then rd_kafka_toppar_delegate_to_leader false now s
      else
        let s := fs_upd (set_offsets (mk_ostats RD_KAFKA_OFFSET_INVALID
                                        (os_eof_offset (rktp_offsets t)))) s in
        rd_kafka_offset_reset fuel conf rkb_internal false now nodeid fetch_offset err s
    else if err =? RD_KAFKA_RESP_ERR_TOPIC_AUTHORIZATION_FAILED then
      if negb (rktp_last_error t =? err) then
        let* s := rd_kafka_consumer_err fuel err version s in
        Some (fs_upd (set_last_error err) s)
      else Some s
    else if err =? RD_KAFKA_RESP_ERR__PARTITION_EOF then
      if cc_enable_partition_eof conf then rd_kafka_consumer_err fuel err version s else Some s
    else rd_kafka_consumer_err fuel err version s in
  Some (rd_kafka_toppar_fetch_backoff now err s).

(** ** The partitions of a Fetch response *)

Record fetch_part_hdr := mk_part_hdr {
  fp_Partition : Z;
  fp_ErrorCode : Z;
  fp_HighwaterMarkOffset : Z;
  fp_LogStartOffset : Z;
  fp_PreferredReadReplica : Z;
  fp_MessageSetSize : Z;
  fp_end_offset : Z;
  fp_aborted_txns : option rd_kafka_aborted_txns }.

(** The ops of a message set: the messages and errors that MsgReader has read, for this
    partition and with the version of the request, put on the fetch queue together. *)
Definition op_of_fetch (t : rd_kafka_toppar) (id version : Z) (o : fetch_op) : rd_kafka_op :=
  match o with
  | OpFetch rkm _ control =>
      mk_op id RD_KAFKA_OP_FETCH 0 0 version 0 (i32 (Msgq.rkm_len rkm)) 0 (Some (rktp_self t))
        None 0 None None (mk_op_u (Msgq.rkm_offset rkm) control [] false 0)
  | OpConsumerErr err _ =>
      mk_op id RD_KAFKA_OP_CONSUMER_ERR 0 0 version err 0 0 (Some (rktp_self t))
        None 0 None None (mk_op_u 0 false [] false 0)
  end.

Fixpoint ops_of_fetch (t : rd_kafka_toppar) (id version : Z) (l : list fetch_op) : list rd_kafka_op :=
  match l with
  | [] => []
  | o :: l => op_of_fetch t id version o :: ops_of_fetch t (id + 1) version l
  end.

(** The reader's own queue has the name [rkq]. *)
Definition fetchq_concat (rkq : nat) (ops : list rd_kafka_op) (s : fetcher) : option fetcher :=
  let len := fold_right (fun o n => rko_len o + n) 0 ops in
  let qs := qs_put (fs_qs s) rkq (q_set_q rd_kafka_q_init0 ops (zlen ops) len) in
  let* (_, qs) := rd_kafka_q_concat0 fuel qs (rktp_fetchq (fs_rktp s)) rkq in
  Some (mk_fs (fs_rktp s) (qs_drop qs rkq) (fs_out s) (fs_addr s + zlen ops)).

Definition fetchq_ready (s : fetcher) : option bool :=
  at_dest fuel (fs_qs s) (rktp_fetchq (fs_rktp s)) (fun _ q => Some (rd_kafka_q_ready q)).

(** What is done with a partition whose object has been found, after its header has been
    read.  [tver] is the partition of the request and its version, [parse] the reader on
    the bytes of the message set, [None] if they are not all there; its result has no ops
    if the fetch queue is not [ready].  The results are the position after the set, if
    [parse] has read it, or an error of the whole response. *)
Definition fetch_partition_handle {A} (now nodeid : Z) (rkb rkq : nat) (hdr : fetch_part_hdr)
    (tver : option (nat * Z))
    (parse : Z -> Z -> option rd_kafka_aborted_txns -> bool -> option (option (A * msgset_result)))
    (s : fetcher) : option (fetcher * (option A + Z)) :=
  let s := fs_upd (set_lo_offset (fp_LogStartOffset hdr)) s in
  let s := fs_upd (set_hi_offset (fp_HighwaterMarkOffset hdr)) s in
  let s := fs_upd (set_ls_offset (fp_end_offset hdr)) s in
  if negb (fp_PreferredReadReplica hdr =? -1) then
    let* s := rd_kafka_fetch_preferred_replica_handle now (fp_PreferredReadReplica hdr) s in
    Some (s, inl None)
  else if negb (bool_decide (rktp_broker (fs_rktp s) = Some rkb)) then Some (s, inl None)
  else
    let fetch_version := rktp_fetch_version (fs_rktp s) in
    let* (tver_rktp, version) := tver in
    if negb (Nat.eqb tver_rktp (rktp_self (fs_rktp s))) || (version <? fetch_version)
    then Some (s, inl None)
    else
      let offs := rktp_offsets (fs_rktp s) in
      let eof := (fp_end_offset hdr =? os_fetch_offset offs)
                 && negb (os_eof_offset offs =? os_fetch_offset offs) in
      let err := if eof then RD_KAFKA_RESP_ERR__PARTITION_EOF else fp_ErrorCode hdr in
      let s := if eof then fs_upd (set_offsets (mk_ostats (os_fetch_offset offs)
                                                  (os_fetch_offset offs))) s else s in
      if negb (err =? 0) then
        let* s := rd_kafka_fetch_reply_handle_partition_error now nodeid version err
                    (fp_HighwaterMarkOffset hdr) s in
        Some (s, inl None)
      else
        let s := fs_upd (set_last_error 0) s in
        if fp_MessageSetSize hdr <=? 0 then Some (s, inl None)
        else
          let* ready := fetchq_ready s in
          let t := fs_rktp s in
          let* r := parse (os_fetch_offset (rktp_offsets t)) (rktp_fetch_msg_max_bytes t)
                      (fp_aborted_txns hdr) ready in
          match r with
          | None => Some (s, inr RD_KAFKA_RESP_ERR__UNDERFLOW)
          | Some (pos, (ops, fetch_offset, fetch_msg_max_bytes, err)) =>
              let s := fs_upd (set_offsets (mk_ostats fetch_offset
                                              (os_eof_offset (rktp_offsets t)))) s in
              let s := fs_upd (set_fetch_msg_max_bytes fetch_msg_max_bytes) s in
              let* s := fetchq_concat rkq (ops_of_fetch t (fs_addr s) version ops) s in
              Some (if err =? 0 then s else rd_kafka_toppar_fetch_backoff now err s, inl (Some pos))
          end.

(** ** All partitions *)

Record fetch_client := mk_fcl {
  fcl_toppars : gmap nat rd_kafka_toppar;
  fcl_rkbs : gmap nat fetch_broker;
  fcl_qs : q_state;
  fcl_out : list fetch_event;
  fcl_addr : Z }.

Definition fcl_get (c : fetch_client) (p : nat) : option fetcher :=
  let* t := fcl_toppars c !! p in Some (mk_fs t (fcl_qs c) (fcl_out c) (fcl_addr c)).
Definition fcl_put (c : fetch_client) (p : nat) (s : fetcher) : fetch_client :=
  mk_fcl (<[p := fs_rktp s]> (fcl_toppars c)) (fcl_rkbs c) (fs_qs s) (fs_out s) (fs_addr s).
Definition fcl_put_rkb (c : fetch_client) (rkb : nat) (b : fetch_broker) : fetch_client :=
  mk_fcl (fcl_toppars c) (<[rkb := b]> (fcl_rkbs c)) (fcl_qs c) (fcl_out c) (fcl_addr c).
Definition fcl_emit (c : fetch_client) (ev : fetch_event) : fetch_client :=
  mk_fcl (fcl_toppars c) (fcl_rkbs c) (fcl_qs c) (fcl_out c ++ [ev]) (fcl_addr c).

Definition rd_kafka_broker_fetch_backoff (now : Z) (b : fetch_broker) : fetch_broker :=
  rkb_set_ts_fetch_backoff (now + cc_fetch_error_backoff_ms conf * 1000) b.

(** ** Fetch responses

    The version is that of the request, [tvers] its partitions with their versions.
    [find_toppar] is [rd_kafka_topic_find0] with [rd_kafka_toppar_get].  [depth] bounds
    the nesting of compressed message sets, as in MsgReader. *)

Section Response.
Context (now nodeid : Z) (rkb rkq : nat) (ApiVersion : Z) (tvers : list (nat * Z)).
Context (find_toppar : bytes -> Z -> option nat).
Context (cod : codecs) (junk : Z -> Z) (addr : nat -> Z) (depth : nat) (rb : rd_buf).
Local Open Scope reader_scope.

Fixpoint aborted_txns_loop (n : nat) (t : rd_kafka_aborted_txns) : reader rd_kafka_aborted_txns :=
  match n with
  | O => r_ret t
  | S n =>
      let! PID := rd_kafka_buf_read_i64 rb in
      let! FirstOffset := rd_kafka_buf_read_i64 rb in
      fun s => let* t := rd_kafka_aborted_txns_add t PID FirstOffset in aborted_txns_loop n t s
  end.

(** The end offset and the aborted transactions. *)
Definition fetch_hdr_txns (LastStableOffset HighwaterMarkOffset : Z)
  : reader (Z * option rd_kafka_aborted_txns) :=
  let! AbortedTxnCnt := rd_kafka_buf_read_i32 rb in
  if cc_isolation_level conf =? 0 then
    let! _ := (if AbortedTxnCnt >? 0 then rd_kafka_buf_skip rb (i32 (AbortedTxnCnt * 16))
               else r_ret tt) in
    r_ret (HighwaterMarkOffset, None)
  else
    let end_offset := if LastStableOffset >=? 0 then LastStableOffset else HighwaterMarkOffset in
    if AbortedTxnCnt >? 0 then
      if AbortedTxnCnt >? 1000000 then r_fail RD_KAFKA_RESP_ERR__BAD_MSG
      else
        let! t := aborted_txns_loop (Z.to_nat AbortedTxnCnt) rd_kafka_aborted_txns_new in
        r_ret (end_offset, Some (rd_kafka_aborted_txns_sort t))
    else r_ret (end_offset, None).

(** [all_err] is the error of the whole response. *)
Definition fetch_part_hdr_body (all_err : Z) : reader fetch_part_hdr :=
  let! Partition := rd_kafka_buf_read_i32 rb in
  let! ErrorCode := rd_kafka_buf_read_i16 rb in
  let! HighwaterMarkOffset := rd_kafka_buf_read_i64 rb in
  let! LastStableOffset := (if ApiVersion >=? 4 then rd_kafka_buf_read_i64 rb
                            else r_ret RD_KAFKA_OFFSET_INVALID) in
  let! LogStartOffset := (if ApiVersion >=? 5 then rd_kafka_buf_read_i64 rb
                          else r_ret RD_KAFKA_OFFSET_INVALID) in
  let! (end_offset, aborted_txns) :=
    (if ApiVersion >=? 4 then fetch_hdr_txns LastStableOffset HighwaterMarkOffset
     else r_ret (HighwaterMarkOffset, None)) in
  let! PreferredReadReplica := (if ApiVersion >=? 11 then rd_kafka_buf_read_i32 rb
                                else r_ret (-1)) in
  let! MessageSetSize := rd_kafka_buf_read_i32 rb in
  if MessageSetSize <? 0 then r_fail RD_KAFKA_RESP_ERR__BAD_MSG
  else r_ret (mk_part_hdr Partition (if all_err =? 0 then ErrorCode else all_err)
                HighwaterMarkOffset LogStartOffset PreferredReadReplica MessageSetSize
                end_offset aborted_txns).

(** MsgReader on the next [size] bytes, with the position after them. *)
Definition msgset_parse_at (partition size : Z) (slice : rd_slice) (fetch_offset max_bytes : Z)
    (aborted_txns : option rd_kafka_aborted_txns) (ready : bool)
  : option (option (rd_slice * msgset_result)) :=
  let* r := rd_slice_narrow_relative rb slice size in
  match r with
  | SliceErr => Some None
  | SliceOk narrow =>
      let mconf := mk_fetch_conf (cc_check_crcs conf) (cc_isolation_level conf =? 1) nodeid partition in
      let* (slice', m, ops, err) :=
        rd_kafka_msgset_parse mconf cod junk addr depth rb narrow fetch_offset max_bytes
          aborted_txns ready [] in
      Some (Some (rd_slice_widen slice' slice,
                  (ops, MsgReader.rktp_fetch_offset m, MsgReader.rktp_fetch_msg_max_bytes m, err)))
  end.

(** The client's state goes along with the reader's. *)
Definition fetch_parser (A : Type) : Type :=
  rd_slice -> fetch_client -> option (rd_slice * fetch_client * (A + Z)).

Definition fp_lift {A} (r : reader A) : fetch_parser A := fun slice c =>
  let* (slice, x) := r slice in Some (slice, c, x).
Definition fp_bind {A B} (m : fetch_parser A) (k : A -> fetch_parser B) : fetch_parser B :=
  fun slice c =>
    let* (slice, c, x) := m slice c in
    match x with inl x => k x slice c | inr err => Some (slice, c, inr err) end.

(** One partition. *)
Definition fetch_reply_partition (topic : bytes) (all_err : Z) : fetch_parser unit :=
  fp_bind (fp_lift (fetch_part_hdr_body all_err)) (fun hdr slice c =>
    match find_toppar topic (fp_Partition hdr) with
    | None => fp_lift (rd_kafka_buf_skip rb (fp_MessageSetSize hdr)) slice c
    | Some p =>
        let* s := fcl_get c p in
        let tver := List.find (fun '(p', _) =>
                      match fcl_toppars c !! p' with
                      | Some t' => bool_decide (rktp_topic t' = rktp_topic (fs_rktp s))
                                   && (rktp_partition t' =? rktp_partition (fs_rktp s))
                      | None => false
                      end) tvers in
        let* (s, r) :=
          fetch_partition_handle now nodeid rkb rkq hdr tver
            (msgset_parse_at (fp_Partition hdr) (fp_MessageSetSize hdr) slice) s in
        let c := fcl_put c p s in
        match r with
        | inr err => Some (slice, c, inr err)
        | inl (Some slice) => Some (slice, c, inl tt)
        | inl None => fp_lift (rd_kafka_buf_skip rb (fp_MessageSetSize hdr)) slice c
        end
    end).

Fixpoint fetch_reply_partitions (n : nat) (topic : bytes) (all_err : Z) : fetch_parser unit :=
  match n with
  | O => fp_lift (r_ret tt)
  | S n => fp_bind (fetch_reply_partition topic all_err)
             (fun _ => fetch_reply_partitions n topic all_err)
  end.

Fixpoint fetch_reply_topics (n : nat) (all_err : Z) : fetch_parser unit :=
  match n with
  | O => fp_lift (r_ret tt)
  | S n =>
      fp_bind (fp_lift (rd_kafka_buf_read_str rb false)) (fun topic =>
      fp_bind (fp_lift (rd_kafka_buf_read_i32 rb)) (fun PartitionArrayCnt =>
      fp_bind (fetch_reply_partitions (Z.to_nat PartitionArrayCnt) (default [] (kb_data topic)) all_err)
        (fun _ => fetch_reply_topics n all_err)))
  end.

Definition fetch_reply_throttle : fetch_parser unit :=
  if ApiVersion >=? 1 then
    fp_bind (fp_lift (rd_kafka_buf_read_i32 rb)) (fun ms slice c =>
      Some (slice, fcl_emit c (EvThrottle ms), inl tt))
  else fp_lift (r_ret tt).

Definition fetch_reply_body : fetch_parser unit :=
  fp_bind fetch_reply_throttle (fun _ =>
  fp_bind (fp_lift (if ApiVersion >=? 7 then
                      let! ErrorCode := rd_kafka_buf_read_i16 rb in
                      let! _ := rd_kafka_buf_read_i32 rb in r_ret ErrorCode
                    else r_ret 0)) (fun ErrorCode =>
  fp_bind (fp_lift (rd_kafka_buf_read_i32 rb)) (fun TopicArrayCnt =>
  fp_bind (fp_lift (rd_kafka_buf_check_len rb (i32 (TopicArrayCnt * (3 + 4 + 4 + 2 + 8 + 4)))))
    (fun _ =>
  fp_bind (fetch_reply_topics (Z.to_nat TopicArrayCnt) ErrorCode) (fun _ slice c =>
    if negb (rd_kafka_buf_read_remain rb slice =? 0)
    then Some (slice, c, inr RD_KAFKA_RESP_ERR__BAD_MSG) else Some (slice, c, inl tt)))))).

(** The error is 0 on success. *)
Definition rd_kafka_fetch_reply_handle (slice : rd_slice) (c : fetch_client)
  : option (fetch_client * Z) :=
  let* (_, c, r) := fetch_reply_body slice c in
  Some (c, match r with inl _ => 0 | inr err => err end).

End Response.

(** [reply] is the response, the parameters of [rd_kafka_fetch_reply_handle] but for the
    buffer those above. *)
Definition rd_kafka_broker_fetch_reply (now nodeid : Z) (rkb rkq : nat) (err ApiVersion : Z)
    (reply : option (rd_buf * rd_slice)) (tvers : list (nat * Z))
    (find_toppar : bytes -> Z -> option nat) (cod : codecs) (junk : Z -> Z) (addr : nat -> Z)
    (depth : nat) (c : fetch_client) : option fetch_client :=
  if err =? RD_KAFKA_RESP_ERR__DESTROY then Some c
  else
    let* b := fcl_rkbs c !! rkb in
    let* _ := rd_assert (rkb_fetching b) in
    let c := fcl_put_rkb c rkb (rkb_set_fetching false b) in
    let* (c, err) :=
      match reply with
      | Some (rb, slice) =>
          if err =? 0
          then rd_kafka_fetch_reply_handle now nodeid rkb rkq ApiVersion tvers find_toppar cod
                 junk addr depth rb slice c
          else Some (c, err)
      | None => Some (c, err)
      end in
    if err =? 0 then Some c
    else
      let c := if existsb (Z.eqb err) [3; 5; 6; 8; 9] then fcl_emit c EvMetadataRefresh else c in
      let* b := fcl_rkbs c !! rkb in
      Some (fcl_put_rkb c rkb (rd_kafka_broker_fetch_backoff now b)).

End Broker.
