(* ===== verification/FetchRequest.v ===== *)
(** * Requests of the fetcher (src/cbits/hs_rdkafka_broker.c, hs_rdkafka_request.c)

    The bytes of a Fetch request for the partitions on the fetch list of a broker, those
    of a ListOffsets request, and a round of the broker's thread. *)

From stdpp Require Import gmap.
From S2P Require Import Prelude Producer RdBuf KafkaBuf Queue FetchState Fetcher FetchBroker.

Definition RD_KAFKAP_Fetch : Z := 1.
Definition RD_KAFKAP_ListOffsets : Z := 2.
Definition RD_KAFKA_FEATURE_MSGVER1 : Z := 0x1.
Definition RD_KAFKA_FEATURE_THROTTLETIME : Z := 0x8.
Definition RD_KAFKA_FEATURE_MSGVER2 : Z := 0x200.

(** What the requests use of the configuration, and of the broker: its features, and the
    versions it supports of the two requests, -1 for none. *)
Record fetch_req_conf := mk_fetch_req_conf {
  fr_client_id : option bytes;
  fr_fetch_wait_max_ms : Z;
  fr_fetch_min_bytes : Z;
  fr_fetch_max_bytes : Z;
  fr_isolation_level : Z;
  fr_client_rack : option bytes;
  fr_features : Z;
  fr_Fetch_version : Z;
  fr_ListOffsets_version : Z }.

Section Request.
Context (junk : Z -> Z) (conf : fetch_req_conf).

(** [rkbuf_reqhdr.ApiVersion], which stays 0 on brokers without these features. *)
Definition fetch_ApiVersion : Z :=
  let has f := negb (Z.land (fr_features conf) f =? 0) in
  if has RD_KAFKA_FEATURE_MSGVER2 || has RD_KAFKA_FEATURE_MSGVER1
     || has RD_KAFKA_FEATURE_THROTTLETIME
  then fr_Fetch_version conf else 0.

(** Writes that return the buffer alone. *)
Definition w_i8 (v : Z) (b : rd_kafka_buf) : option rd_kafka_buf :=
  let* (b, _) := rd_kafka_buf_write_i8 junk b v in Some b.
Definition w_i32 (v : Z) (b : rd_kafka_buf) : option rd_kafka_buf :=
  let* (b, _) := rd_kafka_buf_write_i32 junk b v in Some b.
Definition w_i64 (v : Z) (b : rd_kafka_buf) : option rd_kafka_buf :=
  let* (b, _) := rd_kafka_buf_write_i64 junk b v in Some b.
Definition w_kstr (v : option bytes) (b : rd_kafka_buf) : option rd_kafka_buf :=
  let* (b, _) := rd_kafka_buf_write_kstr junk b v in Some b.
Definition w_if (cond : bool) (w : rd_kafka_buf -> option rd_kafka_buf) (b : rd_kafka_buf)
  : option rd_kafka_buf := if cond then w b else Some b.

(** What the loops over the partitions keep: the last topic, the position and the value
    of its partition count, and the number of topics. *)
Record topic_count := mk_topic_count {
  tc_topic : option bytes; tc_of : Z; tc_parts : Z; tc_topics : Z }.

(** The position is 0 before the first topic. *)
Definition update_count (tc : topic_count) (b : rd_kafka_buf) : option rd_kafka_buf :=
  if tc_of tc =? 0 then Some b else rd_kafka_buf_update_i32 b (tc_of tc) (tc_parts tc).

(** The topic of the next partition, which is counted.  The code compares the topic
    objects of the partitions ([rkt_last]); a client has one object for a name. *)
Definition write_topic (topic : bytes) (tc : topic_count) (b : rd_kafka_buf)
  : option (topic_count * rd_kafka_buf) :=
  if bool_decide (tc_topic tc = Some topic)
  then Some (mk_topic_count (tc_topic tc) (tc_of tc) (i32 (tc_parts tc + 1)) (tc_topics tc), b)
  else
    let* b := update_count tc b in
    let* b := w_kstr (Some topic) b in
    let* (b, of_) := rd_kafka_buf_write_i32 junk b 0 in
    Some (mk_topic_count (Some topic) of_ 1 (i32 (tc_topics tc + 1)), b).

(** One partition of a Fetch request. *)
Definition write_fetch_part (t : rd_kafka_toppar) (b : rd_kafka_buf) : option rd_kafka_buf :=
  let v := fetch_ApiVersion in
  let* b := w_i32 (rktp_partition t) b in
  let* b := w_if (v >=? 9) (w_i32 (-1)) b in
  let* b := w_i64 (os_fetch_offset (rktp_offsets t)) b in
  let* b := w_if (v >=? 5) (w_i64 (-1)) b in
  w_i32 (rktp_fetch_msg_max_bytes t) b.

Fixpoint fetch_toppars_loop (ts : list rd_kafka_toppar) (tc : topic_count) (b : rd_kafka_buf)
  : option (topic_count * rd_kafka_buf) :=
  match ts with
  | [] => Some (tc, b)
  | t :: ts =>
      let* (tc, b) := write_topic (rktp_topic t) tc b in
      let* b := write_fetch_part t b in
      fetch_toppars_loop ts tc b
  end.

Definition fetch_request_head (b : rd_kafka_buf) : option rd_kafka_buf :=
  let v := fetch_ApiVersion in
  let* b := w_i32 (-1) b in
  let* b := w_i32 (fr_fetch_wait_max_ms conf) b in
  let* b := w_i32 (fr_fetch_min_bytes conf) b in
  let* b := w_if (v >=? 3) (w_i32 (fr_fetch_max_bytes conf)) b in
  let* b := w_if (v >=? 4) (w_i8 (fr_isolation_level conf)) b in
  let* b := w_if (v >=? 7) (w_i32 0) b in
  w_if (v >=? 7) (w_i32 (-1)) b.

(** The request for these partitions, from the first to the last. *)
Definition fetch_request (ts : list rd_kafka_toppar) : option rd_kafka_buf :=
  let v := fetch_ApiVersion in
  let* b := rd_kafka_buf_new_request0 junk (fr_client_id conf) RD_KAFKAP_Fetch 1
              (4 + 4 + 4 + 4 + 1 + 4 + 4 + 4 + zlen ts * (4 + 4 + 4 + 8 + 8 + 4 + 40) + 4 + 0)
              false in
  let* b := fetch_request_head b in
  let* (b, of_TopicArrayCnt) := rd_kafka_buf_write_i32 junk b 0 in
  let* (tc, b) := fetch_toppars_loop ts (mk_topic_count None 0 0 0) b in
  let* b := update_count tc b in
  let* b := rd_kafka_buf_update_i32 b of_TopicArrayCnt (tc_topics tc) in
  let* b := w_if (v >=? 7) (w_i32 0) b in
  w_if (v >=? 11) (w_kstr (fr_client_rack conf)) b.

(** The circle from [next] on. *)
Fixpoint rotate_to (l : list nat) (next : nat) (before : list nat) : list nat :=
  match l with
  | [] => before
  | x :: rest => if Nat.eqb x next then l ++ before else rotate_to rest next (before ++ [x])
  end.

Fixpoint get_toppars (c : fetch_client) (l : list nat) : option (list rd_kafka_toppar) :=
  match l with
  | [] => Some []
  | p :: l => let* t := fcl_toppars c !! p in let* ts := get_toppars c l in Some (t :: ts)
  end.

(** The request that is enqueued, with the partitions it is for and their versions. *)
Definition rd_kafka_broker_fetch_toppars (rkb : nat) (c : fetch_client)
  : option (fetch_client * option (rd_kafka_buf * list (nat * Z))) :=
  let* b := fcl_rkbs c !! rkb in
  if zlen (rkb_active_toppars b) =? 0 then Some (c, None)
  else
    let* next := rkb_active_toppar_next b in
    let* ts := get_toppars c (rotate_to (rkb_active_toppars b) next []) in
    let* rkbuf := fetch_request ts in
    let b := rd_kafka_broker_active_toppar_next (loop_next (rkb_active_toppars b) next) b in
    Some (fcl_put_rkb c rkb (rkb_set_fetching true b),
          Some (rkbuf, map (fun t => (rktp_self t, rktp_fetch_version t)) ts)).

(** One partition of a ListOffsets request. *)
Definition write_list_offsets_part (ApiVersion : Z) (partition offset : Z) (b : rd_kafka_buf)
  : option rd_kafka_buf :=
  let* b := w_i32 partition b in
  let* b := w_i64 offset b in
  w_if (ApiVersion =? 0) (w_i32 1) b.

Fixpoint list_offsets_request_loop (ApiVersion : Z) (ps : list (bytes * Z * Z)) (tc : topic_count)
    (b : rd_kafka_buf) : option (topic_count * rd_kafka_buf) :=
  match ps with
  | [] => Some (tc, b)
  | (topic, partition, offset) :: ps =>
      let* (tc, b) := write_topic topic tc b in
      let* b := write_list_offsets_part ApiVersion partition offset b in
      list_offsets_request_loop ApiVersion ps tc b
  end.

(** Appends the request to the header that has been written, or fails with an error. *)
Definition rd_kafka_make_ListOffsetsRequest (ps : list (bytes * Z * Z)) (b : rd_kafka_buf)
  : option (rd_kafka_buf + Z) :=
  let v := fr_ListOffsets_version conf in
  if v =? -1 then Some (inr (-165))
  else
    let* b := w_i32 (-1) b in
    let* b := w_if (v >=? 2) (w_i8 (fr_isolation_level conf)) b in
    let* (b, of_TopicArrayCnt) := rd_kafka_buf_write_i32 junk b 0 in
    let* (tc, b) := list_offsets_request_loop v ps (mk_topic_count (Some []) 0 0 0) b in
    if tc_of tc =? 0 then Some (inl b)
    else
      let* b := update_count tc b in
      let* b := rd_kafka_buf_update_i32 b of_TopicArrayCnt (tc_topics tc) in
      Some (inl b).

End Request.

(** ** A round of the broker's thread *)

Section Round.
Context (fuel : nat) (conf : consumer_conf).
Context (find_by_nodeid : Z -> option nat) (internal_rkb : nat).
Context (junk : Z -> Z) (rconf : fetch_req_conf).

(** The earliest time until which a partition's fetching is backed off. *)
Fixpoint consumer_toppars_loop (now : Z) (rkb : nat) (ps : list nat) (min_backoff : Z)
    (c : fetch_client) : option (fetch_client * Z) :=
  match ps with
  | [] => Some (c, min_backoff)
  | p :: ps =>
      let* s := fcl_get c p in
      let* b := fcl_rkbs c !! rkb in
      let* (s, b, backoff) :=
        rd_kafka_toppar_fetch_decide fuel conf find_by_nodeid internal_rkb now false s b in
      consumer_toppars_loop now rkb ps (if backoff <? min_backoff then backoff else min_backoff)
        (fcl_put_rkb (fcl_put c p s) rkb b)
  end.

Definition rd_kafka_broker_consumer_toppars_serve (now : Z) (rkb : nat) (c : fetch_client)
  : option (fetch_client * Z) :=
  let* b := fcl_rkbs c !! rkb in
  consumer_toppars_loop now rkb (rkb_toppars b) RD_TS_MAX c.

(** What a round of [rd_kafka_broker_consumer_serve] does for fetching; [up] is whether
    the broker is up. *)
Definition consumer_serve_round (now : Z) (rkb : nat) (up : bool) (c : fetch_client)
  : option (fetch_client * option (rd_kafka_buf * list (nat * Z))) :=
  let* (c, min_backoff) := rd_kafka_broker_consumer_toppars_serve now rkb c in
  let* b := fcl_rkbs c !! rkb in
  let ts := rkb_ts_fetch_backoff b in
  let min_backoff := if (ts >? now) && (ts <? min_backoff) then ts else min_backoff in
  if negb (rkb_fetching b) && up && (min_backoff <? now)
  then rd_kafka_broker_fetch_toppars junk rconf rkb c
  else Some (c, None).

End Round.
