(* ===== verification/FetchRun.v ===== *)
(** * Runs of a consumer's partition

    All that can happen to one partition, step by step: what the application and the
    group ask for, the main thread taking the partition's ops, its timer, the answers to
    its requests, the decisions, requests and responses of the broker threads, the moves
    between brokers, and the application taking messages off the fetch queue
    ([rd_kafka_consume0] of src/cbits/hs_rdkafka.c). *)

From stdpp Require Import gmap.
From S2P Require Import Prelude Producer RdBuf Slice KafkaBuf MsgReader Queue FetchState Fetcher FetchBroker.

(** ** Taking a message *)

Section Consume.
Context (conf : q_conf) (call : q_call -> q_state -> q_state).
Context (op_cb : nat -> q_state -> nat -> rd_kafka_op -> op_result) (serve_cb : nat -> q_serve_cb).

(** The ops that are no message or error are handled by callbacks.  [ffuel] is for the
    forwards of the queue, [n] for the ops taken. *)
Fixpoint consume0_loop (n ffuel : nat) (s : q_state) (rkq : nat)
    (waits : list (q_state -> q_state)) : option (option rd_kafka_op * q_state) :=
  match n with
  | O => None
  | S n =>
      let* (rko, s) := rd_kafka_q_pop conf call op_cb serve_cb ffuel s rkq 0 waits in
      match rko with
      | None => Some (None, s)
      | Some rko =>
          let* (res, rko, s) :=
            rd_kafka_poll_cb conf call op_cb ffuel s rkq rko RD_KAFKA_Q_CB_RETURN in
          if bool_decide (res = RD_KAFKA_OP_RES_PASS) then Some (Some rko, s)
          else if bool_decide (res = RD_KAFKA_OP_RES_YIELD) || rd_kafka_yield_thread s
          then Some (None, s)
          else consume0_loop n ffuel s rkq waits
      end
  end.

Definition rd_kafka_consume0 (n ffuel : nat) (s : q_state) (rkq : nat)
    (waits : list (q_state -> q_state)) : option (option rd_kafka_op * q_state) :=
  let* (rko, s) := consume0_loop n ffuel (qs_set_yield s false) rkq waits in
  match rko with
  | None => Some (None, s)
  | Some rko =>
      let* _ := rd_assert ((rko_type rko =? RD_KAFKA_OP_FETCH)
                           || (rko_type rko =? RD_KAFKA_OP_CONSUMER_ERR)) in
      let* s := rd_kafka_fetch_op_app_prepare conf s rko in
      Some (Some rko, s)
  end.

End Consume.

(** ** Runs *)

(** A Fetch request without an answer: the broker, the offset and the version. *)
Record fetch_sent := mk_sent { sent_rkb : nat; sent_offset : Z; sent_version : Z }.

(** The partition with what it works on, the lists of the brokers, the Fetch requests
    without an answer, and the offsets of the messages the application has taken. *)
Record fetch_run := mk_run {
  run_s : fetcher;
  run_rkbs : gmap nat fetch_broker;
  run_sent : list fetch_sent;
  run_got : list Z }.

Definition run_upd (r : fetch_run) (s : fetcher) : fetch_run :=
  mk_run s (run_rkbs r) (run_sent r) (run_got r).

(** What the reader of message sets is in a run. *)
Abbreviation reader_fn :=
  (Z -> Z -> option rd_kafka_aborted_txns -> bool -> option (option (unit * msgset_result))).

(** The answers name the request by its place.  [ALookup] answers a ListOffsets request
    with a response and its version, [ACommitted] an OffsetFetch or an OffsetCommit
    request. *)
Inductive fetch_act :=
  | AStart (offset : Z) (rkcg : bool) (replyq : option (nat * Z))
  | AStop (replyq : option (nat * Z))
  | ASeek (offset : Z) (replyq : option (nat * Z))
  | APauseResume (pause : bool) (flag : Z) (replyq : option (nat * Z))
  | AServe
  | ATimer
  | AAutoCommit
  | ALookup (k : nat) (err : Z) (reply : option (rd_buf * rd_slice)) (ApiVersion : Z)
      (buf_retry : bool)
  | ACommitted (k : nat) (err offset part_err : Z)
  | ADecide (rkb : nat)
  | ASend
  | AFetched (k : nat) (hdr : fetch_part_hdr) (parse : reader_fn)
  | AFetchFailed (k : nat)
  | ALeader (leader_id : Z) (leader : option nat)
  | AJoin (rkb : nat)
  | ALeave (rkb : nat)
  | APoll.

Section Run.
(** [rkq] is a name for the queues of readers. *)
Context (fuel : nat) (conf : consumer_conf) (file : offset_file).
Context (rkb_internal : nat -> bool) (rkb_nodeid : nat -> Z).
Context (find_by_nodeid : Z -> option nat) (internal_rkb rkq : nat).
Context (qconf : q_conf) (call : q_call -> q_state -> q_state).
Context (op_cb : nat -> q_state -> nat -> rd_kafka_op -> op_result) (serve_cb : nat -> q_serve_cb).

Definition drop_nth {A} (k : nat) (l : list A) : list A := take k l ++ drop (S k) l.

(** The op by which an answer gets to the main thread, with the version it was asked
    with. *)
Definition answer_op (s : fetcher) (type version err : Z) (u : toppar_op_u) : fetcher :=
  let rko := op_set_err (op_set_version (rd_kafka_op_new (fs_addr s) type) version) err in
  rd_kafka_toppar_op0 (mk_toppar_op rko u) s.

Definition lookup_answered (k : nat) (s : fetcher) : option (lookup * fetcher) :=
  let* l := rktp_lookups (fs_rktp s) !! k in
  Some (l, fs_upd (set_lookups (drop_nth k (rktp_lookups (fs_rktp s)))) s).

(** The k-th request that has been sent. *)
Definition fetch_answered (k : nat) (r : fetch_run) : option (fetch_sent * fetch_run) :=
  let* f := run_sent r !! k in
  Some (f, mk_run (run_s r) (run_rkbs r) (drop_nth k (run_sent r)) (run_got r)).

(** [None]: the step is not possible, or fails. *)
Definition fetch_step (now : Z) (act : fetch_act) (r : fetch_run) : option fetch_run :=
  let s := run_s r in
  match act with
  | AStart offset rkcg replyq =>
      run_upd r <$> rd_kafka_toppar_op_fetch_start fuel offset None rkcg replyq s
  | AStop replyq => run_upd r <$> rd_kafka_toppar_op_fetch_stop replyq s
  | ASeek offset replyq => run_upd r <$> rd_kafka_toppar_op_seek offset replyq s
  | APauseResume pause flag replyq =>
      run_upd r <$> rd_kafka_toppar_op_pause_resume pause flag replyq s
  | AServe => run_upd r <$> toppar_ops_serve fuel conf file rkb_internal rkb_nodeid now s
  | ATimer =>
      let tmr := rktp_offset_query_tmr (fs_rktp s) in
      if rd_kafka_timer_scheduled tmr && (ftmr_next tmr <=? now)
      then Some (run_upd r (query_tmr_fires conf rkb_internal now s)) else None
  | AAutoCommit =>
      if rd_kafka_timer_started (rktp_offset_commit_tmr (fs_rktp s))
      then run_upd r <$> rd_kafka_offset_auto_commit_tmr_cb conf file s else None
  | ALookup k err reply ApiVersion buf_retry =>
      let* (l, s) := lookup_answered k s in
      match l with
      | ListOffsets rkb offset version =>
          Some (run_upd r (answer_op s RD_KAFKA_OP_RECV_BUF version err
                             (RecvListOffsets rkb offset reply ApiVersion buf_retry)))
      | _ => None
      end
  | ACommitted k err offset part_err =>
      let* (l, s) := lookup_answered k s in
      match l with
      | OffsetFetch version =>
          Some (run_upd r (answer_op s (Z.lor RD_KAFKA_OP_OFFSET_FETCH RD_KAFKA_OP_REPLY) version err
                             (OffsetFetchReply offset part_err)))
      | OffsetCommit committed =>
          Some (run_upd r (answer_op s (Z.lor RD_KAFKA_OP_OFFSET_COMMIT RD_KAFKA_OP_REPLY) 0 err
                             (OffsetCommitReply (Some (committed, part_err)))))
      | ListOffsets _ _ _ => None
      end
  | ADecide rkb =>
      let* b := run_rkbs r !! rkb in
      let* _ := rd_assert (existsb (Nat.eqb (rktp_self (fs_rktp s))) (rkb_toppars b)) in
      let* (s, b, _) :=
        rd_kafka_toppar_fetch_decide fuel conf find_by_nodeid internal_rkb now false s b in
      Some (mk_run s (<[rkb := b]> (run_rkbs r)) (run_sent r) (run_got r))
  | ASend =>
      let* rkb := rktp_broker (fs_rktp s) in
      if rktp_fetch (fs_rktp s)
      then Some (mk_run s (run_rkbs r)
                   (run_sent r ++ [mk_sent rkb (os_fetch_offset (rktp_offsets (fs_rktp s)))
                                     (rktp_fetch_version (fs_rktp s))]) (run_got r))
      else None
  | AFetched k hdr parse =>
      let* (f, r) := fetch_answered k r in
      let* (s, _) :=
        fetch_partition_handle fuel conf rkb_internal find_by_nodeid internal_rkb now
          (rkb_nodeid (sent_rkb f)) (sent_rkb f) rkq hdr
          (Some (rktp_self (fs_rktp s), sent_version f)) parse s in
      Some (run_upd r s)
  | AFetchFailed k => let* (_, r) := fetch_answered k r in Some r
  | ALeader leader_id leader =>
      let* (_, s) := rd_kafka_toppar_leader_update rkb_internal internal_rkb now leader_id leader s in
      Some (run_upd r s)
  | AJoin rkb =>
      let* b := run_rkbs r !! rkb in
      let* (s, b) := broker_partition_join rkb false s b in
      Some (mk_run s (<[rkb := b]> (run_rkbs r)) (run_sent r) (run_got r))
  | ALeave rkb =>
      let* b := run_rkbs r !! rkb in
      let* (s, b) := broker_partition_leave fuel conf find_by_nodeid internal_rkb now rkb s b in
      Some (mk_run s (<[rkb := b]> (run_rkbs r)) (run_sent r) (run_got r))
  | APoll =>
      let fetchq := rktp_fetchq (fs_rktp s) in
      let* q := q_get (fs_qs s) fetchq in
      let* (rko, qs) := rd_kafka_consume0 qconf call op_cb serve_cb (S (length (rkq_q q))) fuel
                          (fs_qs s) fetchq [] in
      Some (mk_run (fs_set_qs qs s) (run_rkbs r) (run_sent r)
              (run_got r ++ match rko with
                            | Some rko => if (rko_type rko =? RD_KAFKA_OP_FETCH) && (rko_err rko =? 0)
                                          then [fetch_offset (rko_u rko)] else []
                            | None => []
                            end))
  end.

(** A run, at its times. *)
Fixpoint fetch_steps (acts : list (Z * fetch_act)) (r : fetch_run) : option fetch_run :=
  match acts with
  | [] => Some r
  | (now, act) :: acts => let* r := fetch_step now act r in fetch_steps acts r
  end.

End Run.

(** A partition as [rd_kafka_toppar_new0] makes it, with its fetch queue. *)
Definition rd_kafka_toppar_new0 (self : nat) (topic : bytes) (partition : Z) (fetchq : nat)
    (fetch_msg_max_bytes : Z) : rd_kafka_toppar :=
  let inv := RD_KAFKA_OFFSET_INVALID in
  mk_toppar self topic partition fetchq [] RD_KAFKA_TOPPAR_FETCH_NONE 1 0 false inv inv inv inv inv
    rd_kafka_offset_stats_reset rd_kafka_offset_stats_reset inv inv inv fetch_msg_max_bytes 0 0 0
    false None None None (-1) (-1) rd_interval_init rd_interval_init rd_interval_init
    ftmr_zero ftmr_zero [].

Definition fetcher_new (self : nat) (topic : bytes) (partition : Z) (fetchq : nat)
    (fetch_msg_max_bytes : Z) : fetcher :=
  let inv := RD_KAFKA_OFFSET_INVALID in
  mk_fs (rd_kafka_toppar_new0 self topic partition fetchq fetch_msg_max_bytes)
    (mk_qs {[ fetchq := rd_kafka_q_init0 ]} {[ self := mk_op_toppar 1 inv inv ]} false [] [])
    [] 1.

Definition fetch_broker_new : fetch_broker := mk_fetch_broker [] [] None false 0.
