(* ===== verification/FetchFacts.v ===== *)
(** * Facts about the fetch queue of a partition

    The log of a partition, what of its fetch queue is still to be delivered, and what
    the operations on the queue do to it, when it is not forwarded. *)

From stdpp Require Import gmap sorting.
From S2P Require Import Prelude Msgq Queue QueueFacts FetchState Fetcher FetchBroker FetchRun.

(** ** The log of a partition

    The offsets of its messages in their order, each with whether it is a control
    message. *)

Definition log_ok (log : list (Z * bool)) : Prop :=
  StronglySorted (fun a b => a.1 < b.1) log /\ Forall (fun x => 0 <= x.1 < 2 ^ 63 - 1) log.

Definition between (log : list (Z * bool)) (lo hi : Z) : list (Z * bool) :=
  filter (fun x => lo <= x.1 < hi) log.

(** The offsets of the messages for the application. *)
Definition data (l : list (Z * bool)) : list Z := map fst (filter (fun x => x.2 = false) l).

Lemma data_app l1 l2 : data (l1 ++ l2) = data l1 ++ data l2.
Proof. unfold data. by rewrite list.filter_app, map_app. Qed.

Lemma between_cons x log lo hi :
  between (x :: log) lo hi = (if (lo <=? x.1) && (x.1 <? hi) then [x] else []) ++ between log lo hi.
Proof.
  unfold between. destruct ((lo <=? x.1) && (x.1 <? hi)) eqn:E.
  - rewrite filter_cons_True by zlia. done.
  - rewrite filter_cons_False; [done |]. apply andb_false_iff in E. destruct E; zlia.
Qed.

Lemma between_none log lo hi : Forall (fun x => ~ (lo <= x.1 < hi)) log -> between log lo hi = [].
Proof. apply filter_none. Qed.

Lemma between_empty log lo hi : hi <= lo -> between log lo hi = [].
Proof. intros H. apply between_none, Forall_forall. intros; lia. Qed.

Lemma between_app log lo mid hi :
  StronglySorted (fun a b => a.1 < b.1) log -> lo <= mid <= hi ->
  between log lo hi = between log lo mid ++ between log mid hi.
Proof.
  intros Hs Hm. induction Hs as [| x log Hs IH Hx]; [done |].
  rewrite !between_cons, IH.
  destruct (Z.ltb_spec x.1 mid) as [Hlt | Hge].
  - ztest. rewrite andb_true_r. destruct (Z.leb_spec lo x.1); ztest; done.
  - assert (between log lo mid = []) as ->.
    { apply between_none. eapply Forall_impl; [| exact Hx]. cbn. intros; lia. }
    destruct (Z.ltb_spec x.1 hi); ztest; done.
Qed.

Lemma between_same log lo lo' hi :
  Forall (fun x => lo <= x.1 <-> lo' <= x.1) log -> between log lo hi = between log lo' hi.
Proof.
  induction 1 as [| x log Hx _ IH]; [done |]. rewrite !between_cons, IH. f_equal.
  destruct (Z.leb_spec lo x.1), (Z.leb_spec lo' x.1); done || lia.
Qed.

Lemma between_first log lo hi x rest :
  StronglySorted (fun a b => a.1 < b.1) log -> between log lo hi = x :: rest ->
  lo <= x.1 < hi /\ between log lo (x.1 + 1) = [x] /\ between log (x.1 + 1) hi = rest.
Proof.
  intros Hs. induction Hs as [| y log Hs IH Hy]; [done |]. rewrite between_cons.
  destruct (Z.leb_spec lo y.1) as [Hlo | Hlo]; [destruct (Z.ltb_spec y.1 hi) as [Hhi | Hhi] |]; cbn [andb app].
  - intros [= <- <-]. conj.
    + rewrite between_cons. ztest. cbn [andb app]. f_equal. apply between_none.
      eapply Forall_impl; [| exact Hy]. cbn. intros; lia.
    + rewrite between_cons. ztest. rewrite andb_false_l. cbn [app]. symmetry. apply between_same. eapply Forall_impl; [| exact Hy]. cbn. intros; lia.
  - rewrite between_none; [done |]. eapply Forall_impl; [| exact Hy]. cbn. intros; lia.
  - intros E. destruct (IH E) as (Hx & E1 & E2). conj.
    + rewrite between_cons, E1. ztest. done.
    + rewrite between_cons, E2. ztest. done.
Qed.

(** ** Flags *)

Lemma land_lor x f m : Z.land f m = 0 -> Z.land (Z.lor x f) m = Z.land x m.
Proof. intros H. by rewrite Z.land_lor_distr_l, H, Z.lor_0_r. Qed.

Lemma land_ldiff x f m : Z.land f m = 0 -> Z.land (Z.ldiff x f) m = Z.land x m.
Proof.
  intros H. apply Z.bits_inj'. intros n Hn. rewrite !Z.land_spec, Z.ldiff_spec.
  apply (f_equal (fun z => Z.testbit z n)) in H. rewrite Z.land_spec, Z.bits_0 in H.
  destruct (Z.testbit x n), (Z.testbit f n), (Z.testbit m n); done.
Qed.

(** ** The fetch queue *)

(** A queue that is not forwarded and takes ops, with its contents. *)
Definition fetchq_is (s : q_state) (i : nat) (l : list rd_kafka_op) : Prop :=
  exists q, q_get s i = Some q /\ rkq_fwdq q = None /\ rd_kafka_q_ready q = true /\
    rkq_serve q = None /\ rkq_q q = l.

(** The ops of a partition that come there; [fv] is the latest version fetched with. *)
Inductive fq_op (self : nat) (fv : Z) (o : rd_kafka_op) : Prop :=
  | fq_fetch :
      rko_type o = RD_KAFKA_OP_FETCH -> rko_rktp o = Some self -> rko_err o = 0 ->
      0 < rko_version o <= fv -> rko_prio o = 0 -> rko_serve o = None -> fq_op self fv o
  | fq_other :
      rko_type o = RD_KAFKA_OP_CONSUMER_ERR \/ rko_type o = RD_KAFKA_OP_BARRIER ->
      rko_prio o = 0 -> rko_serve o = None -> fq_op self fv o.

Lemma fq_op_mono self fv fv' o : fv <= fv' -> fq_op self fv o -> fq_op self fv' o.
Proof. intros H [? ? ? ? ? ? | ? ? ?]; [apply fq_fetch | apply fq_other]; first [done | lia]. Qed.

(** A message of version [v]. *)
Definition live_of (v : Z) (o : rd_kafka_op) : option (Z * bool) :=
  if (rko_type o =? RD_KAFKA_OP_FETCH) && (rko_version o =? v)
  then Some (fetch_offset (rko_u o), fetch_control (rko_u o)) else None.

Definition live (v : Z) (l : list rd_kafka_op) : list (Z * bool) := omap (live_of v) l.

Lemma live_app v l1 l2 : live v (l1 ++ l2) = live v l1 ++ live v l2.
Proof. apply omap_app. Qed.

(** Outdated ops are not delivered. *)
Lemma live_outdated v l : Forall (fun o => rko_version o < v) l -> live v l = [].
Proof.
  induction 1 as [| o l Ho _ IH]; [done |]. cbn. unfold live_of.
  rewrite (proj2 (Z.eqb_neq (rko_version o) v)) by lia. by rewrite andb_false_r.
Qed.

(** Nothing is fetched with a later version. *)
Lemma live_later self fv v l : fv < v -> Forall (fq_op self fv) l -> live v l = [].
Proof.
  intros Hv. induction 1 as [| o l Ho _ IH]; [done |]. cbn. unfold live_of.
  destruct Ho as [-> _ _ H _ _ | [-> | ->] _ _]; cbn; [| done..].
  by rewrite (proj2 (Z.eqb_neq (rko_version o) v)) by lia.
Qed.

Lemma fetchq_same s s' i l : q_get s' i = q_get s i -> fetchq_is s i l -> fetchq_is s' i l.
Proof. intros E (q & Eq & H). exists q. by rewrite E. Qed.

Lemma fetchq_put s i q l :
  rkq_fwdq q = None -> rd_kafka_q_ready q = true -> rkq_serve q = None -> rkq_q q = l ->
  fetchq_is (qs_put s i q) i l.
Proof. intros ? ? ? ?. exists q. split; [apply get_put_eq | done]. Qed.

Lemma io_event_fields c s i q s1 q1 :
  q_io_event_if c s i q = (s1, q1) ->
  qs_rktp s1 = qs_rktp s /\ qs_q s1 = qs_q s /\ rkq_q q1 = rkq_q q /\ rkq_fwdq q1 = rkq_fwdq q /\
  rkq_serve q1 = rkq_serve q /\ rd_kafka_q_ready q1 = rd_kafka_q_ready q.
Proof.
  intros E. apply io_event_if_spec in E as (-> & Hs & _). by destruct Hs as [-> | ->].
Qed.

Lemma enq_fetchq fuel s i l o r s' :
  fetchq_is s i l -> rko_prio o = 0 -> rko_serve o = None ->
  rd_kafka_q_enq fuel s i o = Some (r, s') ->
  fetchq_is s' i (l ++ [o]) /\ qs_rktp s' = qs_rktp s.
Proof.
  intros (q & E & Ef & Er & Es & <-) Hp Hs. unfold rd_kafka_q_enq.
  destruct fuel as [| fuel]; [done |]. cbn [rd_kafka_q_enq1]. rewrite E, Er, Ef, Hs, Es. cbn [negb].
  destruct (q_io_event_if _ _ _ _) as [s1 q1] eqn:Eio. intros [= _ <-].
  apply io_event_fields in Eio as (Et & _ & El & Ef1 & Es1 & Er1).
  split; [| done]. unfold rd_kafka_q_ready in *. cbn in El, Ef1, Es1, Er1. rewrite Hp in El. cbn in El.
  apply fetchq_put; unfold rd_kafka_q_ready; congruence.
Qed.

Lemma shave_taken l p v tmp cnt size tmp' rest cnt' size' :
  shave_loop l p v tmp cnt size = (tmp', rest, cnt', size') ->
  exists taken, l = taken ++ rest /\ Forall (fun o => rko_version o < v) taken.
Proof.
  revert tmp cnt size. induction l as [| o l IH]; cbn; intros tmp cnt size E.
  - injection E as <- <- <- <-. by exists [].
  - destruct (_ && _) eqn:Eo.
    + apply IH in E as (taken & -> & H). exists (o :: taken). split; [done |].
      constructor; [zlia | done].
    + injection E as <- <- <- <-. by exists [].
Qed.

Lemma purge_fetchq fuel s i l p v s' :
  fetchq_is s i l -> rd_kafka_q_purge_toppar_version fuel s i p v = Some s' ->
  exists taken l', l = taken ++ l' /\ Forall (fun o => rko_version o < v) taken /\
    fetchq_is s' i l' /\ qs_rktp s' = qs_rktp s.
Proof.
  intros (q & E & Ef & Er & Es & <-). unfold rd_kafka_q_purge_toppar_version, at_dest.
  destruct fuel as [| fuel]; [done |]. cbn [q_resolve]. rewrite E, Ef, E.
  destruct (shave_loop _ _ _ _ _ _) as [[[tmp rest] cnt] size] eqn:El. intros [= <-].
  apply shave_taken in El as (taken & El & Ht). exists taken, rest.
  destruct (mark_served_fields q) as (_ & _ & _ & Emf & Emg).
  rewrite destroy_ops_eq. conj.
  eapply fetchq_same; [| apply fetchq_put]; [done | | | |]; cbn.
  - congruence.
  - unfold rd_kafka_q_ready in *. cbn. by rewrite Emg.
  - unfold rd_kafka_q_mark_served. by destruct (rkq_qio q).
  - done.
Qed.

Lemma unfwd_fetchq fuel s i l s' :
  fetchq_is s i l -> rd_kafka_q_fwd_set0 fuel s i None false = Some s' ->
  fetchq_is s' i l /\ qs_rktp s' = qs_rktp s.
Proof.
  intros (q & E & Ef & Er & Es & El). unfold rd_kafka_q_fwd_set0.
  rewrite bool_decide_false by done. rewrite E. intros [= <-].
  split; [by apply fetchq_put | done].
Qed.

Lemma concat_noprio l src :
  Forall (fun o => rko_prio o = 0) src -> concat_prio_loop l src = (l, src).
Proof. destruct 1 as [| o src Ho]; [done |]. cbn. by rewrite Ho. Qed.

Lemma fetchq_concat_spec fuel rkq ops s s' l :
  fetchq_is (fs_qs s) (rktp_fetchq (fs_rktp s)) l -> rkq <> rktp_fetchq (fs_rktp s) ->
  Forall (fun o => rko_prio o = 0) ops -> fetchq_concat fuel rkq ops s = Some s' ->
  fetchq_is (fs_qs s') (rktp_fetchq (fs_rktp s)) (l ++ ops) /\
  qs_rktp (fs_qs s') = qs_rktp (fs_qs s) /\ fs_rktp s' = fs_rktp s.
Proof.
  intros (q & E & Ef & Er & Es & <-) Hne Hp. unfold fetchq_concat.
  set (i := rktp_fetchq (fs_rktp s)) in *. destruct fuel as [| fuel]; [done |].
  cbn [rd_kafka_q_concat0 q_resolve]. rewrite get_put_eq. cbn [rkq_fwdq q_set_q rd_kafka_q_init0].
  rewrite get_put_eq. cbn [rkq_qlen q_set_q].
  assert (q_get (qs_drop (qs_put (fs_qs s) rkq (q_set_q rd_kafka_q_init0 ops (zlen ops)
            (fold_right (fun o n => rko_len o + n) 0 ops))) rkq) i = Some q) as E0.
  { rewrite get_drop, get_put. by rewrite !decide_False. }
  destruct (zlen ops =? 0) eqn:Hz.
  { destruct ops; [| cbn in Hz; zlia]. intros [= <-]. cbn. rewrite app_nil_r. conj. by exists q. }
  rewrite get_put_ne, E, Ef by done. apply Nat.eqb_neq in Hne as Hne'.
  rewrite Nat.eqb_sym, Hne'. cbn [negb rd_assert]. rewrite Er. cbn [negb rkq_q q_set_q].
  rewrite concat_noprio by done.
  destruct (q_io_event_if _ _ _ _) as [s1 q1] eqn:Eio. intros [= <-].
  apply io_event_fields in Eio as (Et & _ & El & Ef1 & Es1 & Er1). cbn.
  split; [| split; [by rewrite Et | done]]. unfold rd_kafka_q_ready in *. cbn in *.
  exists (q_set_q q1 (rkq_q q1) (i32 (rkq_qlen q1 + zlen ops))
            (i64 (rkq_qsize q1 + fold_right (fun o n => rko_len o + n) 0 ops))).
  split; [| unfold rd_kafka_q_ready; cbn; repeat split; congruence].
  rewrite get_drop, decide_False by done. rewrite get_put_ne by done. apply get_put_eq.
Qed.

(** ** Taking messages *)

Lemma deq_fetchq s i q o l :
  q_get s i = Some q -> rkq_fwdq q = None -> rd_kafka_q_ready q = true -> rkq_serve q = None ->
  rkq_q q = o :: l -> fetchq_is (qs_put s i (rd_kafka_q_deq0 q o)) i l.
Proof. intros E ? ? ? El. apply fetchq_put; try done. by apply deq0_head. Qed.

Lemma filter_fetchq l s i v r s' :
  fetchq_is s i l -> filter_loop l s i v = Some (r, s') ->
  qs_rktp s' = qs_rktp s /\
  exists gone l', l = gone ++ l' /\ fetchq_is s' i l' /\ r = head l' /\
    Forall (fun o => rd_kafka_op_version_outdated s o v = true) gone /\
    (forall o, r = Some o -> rd_kafka_op_version_outdated s o v = false).
Proof.
  revert s. induction l as [| o l IH]; cbn [filter_loop]; intros s Hq E.
  { injection E as <- <-. split; [done |]. exists [], []. conj; done. }
  destruct (rd_kafka_op_version_outdated s o v) eqn:Ev.
  - destruct Hq as (q & Eq & Ef & Er & Es & El). rewrite Eq in E.
    apply IH in E as (Et & gone & l' & -> & Hq' & -> & Hg & Hr).
    + split; [done |]. exists (o :: gone), l'. split; [done |]. split; [done |]. split; [done |].
      split; [by constructor | exact Hr].
    + pose proof (deq_fetchq s i q o l Eq Ef Er Es El) as H.
      by eapply fetchq_same.
  - injection E as <- <-. split; [done |]. exists [], (o :: l). split; [done |]. split; [done |]. split; [done |].
    split; [constructor | by intros ? [= <-]].
Qed.

Lemma pop_first_fetchq s i v l r s' :
  fetchq_is s i l -> pop_first s i v = Some (r, s') ->
  qs_rktp s' = qs_rktp s /\
  exists gone l', l = gone ++ l' /\
    Forall (fun o => rd_kafka_op_version_outdated s o v = true) gone /\
    match r with
    | Some o => exists rest, l' = o :: rest /\ fetchq_is s' i rest /\
                  rd_kafka_op_version_outdated s o v = false
    | None => l' = [] /\ fetchq_is s' i []
    end.
Proof.
  intros Hq. unfold pop_first. destruct Hq as (q & Eq & H).
  destruct H as (Ef & Er & Es & El). rewrite Eq, El.
  destruct (filter_loop l s i v) as [[first s1] |] eqn:Efl; [| done].
  apply filter_fetchq in Efl as (Et & gone & l' & -> & Hq1 & -> & Hg & Hr); [| by exists q].
  destruct Hq1 as (q1 & Eq1 & Ef1 & Er1 & Es1 & <-). rewrite Eq1.
  destruct (mark_served_fields q1) as (Em1 & _ & _ & Em2 & Em3).
  assert (rkq_serve (rd_kafka_q_mark_served q1) = None) as Em4
    by (unfold rd_kafka_q_mark_served; by destruct (rkq_qio q1)).
  assert (rd_kafka_q_ready (rd_kafka_q_mark_served q1) = true) as Em5
    by (unfold rd_kafka_q_ready in *; by rewrite Em3).
  destruct (rkq_q q1) as [| o rest] eqn:El1; cbn [head]; intros [= <- <-];
    (split; [done |]; exists gone); eexists; (split; [done |]; split; [done |]).
  - split; [done |]. apply fetchq_put; congruence.
  - exists rest. split; [done |]. split; [| by apply Hr]. apply fetchq_put; [exact (eq_trans Em2 Ef1) | exact Em5 | exact Em4 |].
    apply deq0_head. congruence.
Qed.

Section Taking.
Context (conf : q_conf) (call : q_call -> q_state -> q_state).
Context (op_cb : nat -> q_state -> nat -> rd_kafka_op -> op_result) (serve_cb : nat -> q_serve_cb).
(** The partition, its fetch queue, its version, the latest one fetched with, the log
    and the offset up to which it has been fetched. *)
Context (self fq : nat) (v fv lim : Z) (log : list (Z * bool)).
Hypothesis Hlog : log_ok log.

(** What is left to deliver begins at [pos]; [ao] is [rktp_app_offset]. *)
Definition stream (s : q_state) (pos ao : Z) : Prop :=
  exists l a, fetchq_is s fq l /\ Forall (fq_op self fv) l /\ live v l = between log pos lim /\
    qs_rktp s !! self = Some a /\ rktp_version a = v /\ rktp_app_offset a = ao.

(** Nothing for the application is from [pos] to [pos'], and [ao'] is what
    [rktp_app_offset] becomes. *)
Definition skips (pos ao pos' ao' : Z) : Prop :=
  pos <= pos' /\ data (between log pos pos') = [] /\
  (pos' = pos /\ ao' = ao \/ ao' = pos' /\ pos < pos' <= lim).

Lemma data_between pos mid pos' :
  pos <= mid <= pos' -> data (between log pos pos') = data (between log pos mid) ++ data (between log mid pos').
Proof. intros H. rewrite (between_app _ pos mid pos'); [apply data_app | apply Hlog | done]. Qed.

Lemma skips_refl pos ao : skips pos ao pos ao.
Proof. split; [lia |]. rewrite between_empty by lia. auto. Qed.

Lemma skips_trans pos ao pos1 ao1 pos2 ao2 :
  skips pos ao pos1 ao1 -> skips pos1 ao1 pos2 ao2 -> skips pos ao pos2 ao2.
Proof.
  intros (H1 & D1 & A1) (H2 & D2 & A2). split; [lia |]. split.
  - by rewrite (data_between pos pos1 pos2), D1, D2 by lia.
  - destruct A2 as [[-> ->] | [-> ?]]; [done |]. right. split; [done | lia].
Qed.

Lemma stream_same s s' pos ao :
  q_get s' fq = q_get s fq -> qs_rktp s' = qs_rktp s -> stream s pos ao -> stream s' pos ao.
Proof.
  intros Eq Et (l & a & Hq & H). exists l, a. rewrite Et. split; [by eapply fetchq_same | done].
Qed.

Lemma outdated_not_live s o pos ao :
  stream s pos ao -> fq_op self fv o -> rd_kafka_op_version_outdated s o 0 = true -> live_of v o = None.
Proof.
  intros (l & a & _ & _ & _ & Ea & Ev & _) Ho. unfold rd_kafka_op_version_outdated, live_of.
  destruct Ho as [-> -> _ Hv _ _ | [-> | ->] _ _]; [| done..]. rewrite Ea.
  destruct (rko_version o =? 0) eqn:E; [zlia |]. cbn. intros H.
  by rewrite (proj2 (Z.eqb_neq (rko_version o) v)) by zlia.
Qed.

Lemma current_is_live s o pos ao :
  stream s pos ao -> fq_op self fv o -> rko_type o = RD_KAFKA_OP_FETCH -> fv <= v ->
  rd_kafka_op_version_outdated s o 0 = false ->
  live_of v o = Some (fetch_offset (rko_u o), fetch_control (rko_u o)).
Proof.
  intros (l & a & _ & _ & _ & Ea & Ev & _) Ho Ht Hv. unfold rd_kafka_op_version_outdated, live_of.
  destruct Ho as [_ -> _ Hv' _ _ | [H | H] _ _]; [| by rewrite Ht in H..]. rewrite Ea, Ht.
  destruct (rko_version o =? 0) eqn:E; [zlia |]. cbn. intros H.
  by rewrite (proj2 (Z.eqb_eq (rko_version o) v)) by zlia.
Qed.

(** What taking an op of the queue does. *)
Lemma pop_first_stream s pos ao r s' :
  fv <= v -> stream s pos ao -> pop_first s fq 0 = Some (r, s') ->
  match r with
  | None => stream s' pos ao
  | Some o =>
      fq_op self fv o /\
      if rko_type o =? RD_KAFKA_OP_FETCH then
        let off := fetch_offset (rko_u o) in
        pos <= off < lim /\ 0 <= off < 2 ^ 63 - 1 /\
        between log pos (off + 1) = [(off, fetch_control (rko_u o))] /\ stream s' (off + 1) ao
      else stream s' pos ao
  end.
Proof.
  intros Hv Hs. pose proof Hs as (l & a & Hq & Hl & El & Ea & Ev & Ep).
  intros E. apply (pop_first_fetchq _ _ _ _ _ _ Hq) in E as (Et & gone & l' & -> & Hg & Hr).
  apply Forall_app in Hl as [Hlg Hl'].
  assert (live v gone = []) as Eg.
  { clear - Hs Hg Hlg. induction Hg as [| o gone Ho _ IH]; [done |].
    apply Forall_cons_iff in Hlg as [Hlo Hlg]. cbn.
    rewrite (outdated_not_live s o pos ao) by done. by apply IH. }
  rewrite live_app, Eg in El. cbn [app] in El. rewrite <- Et in Ea.
  destruct r as [o |].
  - destruct Hr as (rest & -> & Hq' & Ho). apply Forall_cons_iff in Hl' as [Hlo Hl'].
    split; [done |]. destruct (Z.eqb_spec (rko_type o) RD_KAFKA_OP_FETCH) as [Ht | Ht].
    + unfold live in El. cbn [omap list_omap] in El.
      rewrite (current_is_live s o pos ao) in El by done. symmetry in El.
      destruct (between_first _ _ _ _ _ (proj1 Hlog) El) as (Hoff & E1 & E2). cbn in Hoff, E1, E2.
      split; [done |]. split; [| split; [done |]].
      * assert ((fetch_offset (rko_u o), fetch_control (rko_u o)) ∈ between log pos lim) as Hin
          by (rewrite El; by left).
        apply list_elem_of_filter in Hin as [_ Hin]. destruct Hlog as [_ Hf].
        apply list_elem_of_In in Hin. rewrite Forall_forall in Hf. apply (Hf _ Hin).
      * exists rest, a. conj. by symmetry.
    + exists rest, a. conj. rewrite <- El. unfold live. cbn [omap list_omap].
      replace (live_of v o) with (@None (Z * bool)); [done |].
      unfold live_of. by apply Z.eqb_neq in Ht as ->.
  - destruct Hr as [-> Hq']. exists [], a. conj.
Qed.
(** What an op of the queue is, given what [pop_first_stream] says of a message. *)
Definition taken (s' : q_state) (pos ao : Z) (o : rd_kafka_op) : Prop :=
  fq_op self fv o /\
  if rko_type o =? RD_KAFKA_OP_FETCH then
    let off := fetch_offset (rko_u o) in
    pos <= off < lim /\ 0 <= off < 2 ^ 63 - 1 /\
    between log pos (off + 1) = [(off, fetch_control (rko_u o))] /\ stream s' (off + 1) ao
  else stream s' pos ao.

Lemma prepare_stream s s' pos ao o :
  stream s pos ao -> fq_op self fv o -> rko_type o = RD_KAFKA_OP_FETCH ->
  0 <= fetch_offset (rko_u o) < 2 ^ 63 - 1 ->
  rd_kafka_fetch_op_app_prepare conf s o = Some s' -> stream s' pos (fetch_offset (rko_u o) + 1).
Proof.
  intros (l & a & Hq & Hl & El & Ea & Ev & Ep) Ho Ht Hoff. unfold rd_kafka_fetch_op_app_prepare.
  destruct Ho as [_ -> -> _ _ _ | [H | H] _ _]; [| by rewrite Ht in H..].
  rewrite Ht, Ea. cbn [Z.eqb negb orb]. intros [= <-].
  exists l. eexists. split; [done |]. split; [done |]. split; [done |].
  split; [cbn; apply lookup_insert_eq |]. cbn. split; [done |]. apply swrap_small; [done |]. unfold in_i. cbn. lia.
Qed.

Lemma taken_serve s pos ao o : taken s pos ao o -> taken s pos ao (op_set_serve o None).
Proof.
  intros [Ho H]. split; [| exact H].
  destruct Ho as [? ? ? ? ? ? | ? ? ?]; [by apply fq_fetch | by apply fq_other].
Qed.

Lemma handle_taken s pos ao o res o' s' :
  taken s pos ao o ->
  rd_kafka_op_handle conf call op_cb serve_cb s fq o RD_KAFKA_Q_CB_RETURN None = Some (res, o', s') ->
  res = RD_KAFKA_OP_RES_PASS /\ s' = s /\ taken s pos ao o' /\
    rd_kafka_op_is_ctrl_msg o' = false \/
  res = RD_KAFKA_OP_RES_HANDLED /\ exists pos' ao', skips pos ao pos' ao' /\ stream s' pos' ao'.
Proof.
  intros H. pose proof H as [Ho Hs]. unfold rd_kafka_op_handle.
  replace (rko_serve o) with (@None nat) by (by destruct Ho).
  apply taken_serve in H. set (o1 := op_set_serve o None) in *. unfold rd_kafka_op_handle_std.
  cbn [bool_decide]. rewrite bool_decide_false by done.
  destruct (rd_kafka_op_is_ctrl_msg o1) eqn:Ec.
  - destruct (rd_kafka_fetch_op_app_prepare conf s o1) as [s1 |] eqn:Ep; [| done].
    intros [= <- <- <-]. right. split; [done |]. destruct H as [Ho1 H].
    unfold rd_kafka_op_is_ctrl_msg in Ec. apply andb_true_iff in Ec as [Ec Ectl].
    apply andb_true_iff in Ec as [Ety _]. rewrite Ety in H. destruct H as (Hr & Hoff & Eb & Hst).
    apply Z.eqb_eq in Ety.
    exists (fetch_offset (rko_u o1) + 1), (fetch_offset (rko_u o1) + 1). split.
    + split; [lia |]. rewrite Eb, Ectl. split; [done |]. right. lia.
    + eapply stream_same; [| | by eapply prepare_stream]; done.
  - replace (has_flag o1 RD_KAFKA_OP_CB) with false; cycle 1.
    { unfold has_flag. destruct H as [[-> _ _ _ _ _ | [-> | ->] _ _] _]; done. }
    rewrite andb_false_r.
    replace (rko_type o1 =? RD_KAFKA_OP_RECV_BUF) with false; cycle 1.
    { destruct H as [[-> _ _ _ _ _ | [-> | ->] _ _] _]; done. }
    rewrite (bool_decide_true (RD_KAFKA_Q_CB_RETURN = RD_KAFKA_Q_CB_RETURN)) by done. cbn [negb andb].
    intros [= <- <- <-]. left. done.
Qed.

(** What a reader is given, after what has been skipped. *)
Definition popped (s' : q_state) (pos ao : Z) (r : option rd_kafka_op) : Prop :=
  exists pos1 ao1, skips pos ao pos1 ao1 /\
    match r with
    | None => stream s' pos1 ao1
    | Some o => taken s' pos1 ao1 o /\ rd_kafka_op_is_ctrl_msg o = false
    end.

Lemma popped_after pos ao pos1 ao1 s' r :
  skips pos ao pos1 ao1 -> popped s' pos1 ao1 r -> popped s' pos ao r.
Proof.
  intros Hs (pos2 & ao2 & Hs2 & H). exists pos2, ao2. split; [by eapply skips_trans | done].
Qed.

Lemma check_yield_stream s q pos ao q' y :
  stream s pos ao -> q_get s fq = Some q -> rd_kafka_q_check_yield q = (q', y) ->
  stream (qs_put s fq q') pos ao.
Proof.
  intros (l & a & (q0 & E0 & Ef & Er & Es & <-) & H) E Ey.
  rewrite E in E0. injection E0 as ->. exists (rkq_q q0), a. split; [| exact H].
  unfold rd_kafka_q_check_yield in Ey.
  destruct (_ =? 0); injection Ey as <- _; apply fetchq_put; try done.
  unfold rd_kafka_q_ready in *. cbn. by rewrite land_ldiff.
Qed.

Lemma pop_loop_stream fuel s pos ao r s' :
  fv <= v -> stream s pos ao ->
  pop_loop conf call op_cb serve_cb fuel s fq 0 RD_KAFKA_Q_CB_RETURN None [] = Some (r, s') ->
  popped s' pos ao r.
Proof.
  intros Hv. revert s pos ao. induction fuel as [| fuel IH]; [done |]. cbn [pop_loop].
  intros s pos ao Hs. destruct (pop_first s fq 0) as [[first s1] |] eqn:Ep; [| done].
  apply (pop_first_stream s pos ao first s1 Hv Hs) in Ep. destruct first as [o |].
  - destruct (rd_kafka_op_handle _ _ _ _ _ _ _ _ _) as [[[res o'] s2] |] eqn:Eh; [| done].
    apply (handle_taken s1 pos ao) in Eh; [| exact Ep].
    destruct Eh as [(-> & -> & Ht & Hc) | (-> & pos' & ao' & Hsk & Hst)].
    + intros [= <- <-]. exists pos, ao. split; [apply skips_refl | done].
    + intros E. eapply popped_after; [exact Hsk | by eapply IH].
  - destruct (q_get s1 fq) as [q |] eqn:Eq; [| done].
    destruct (rd_kafka_q_check_yield q) as [q' y] eqn:Ey.
    pose proof (check_yield_stream _ _ _ _ _ _ Ep Eq Ey) as H.
    destruct y; intros [= <- <-]; exists pos, ao; (split; [apply skips_refl | done]).
Qed.

Lemma resolve_stream s pos ao fuel i : stream s pos ao -> q_resolve fuel s fq = Some i -> i = fq.
Proof.
  intros (l & a & (q & E & Ef & _) & _). destruct fuel as [| fuel]; [done |]. cbn. rewrite E, Ef.
  by intros [= <-].
Qed.

Lemma q_pop_stream fuel s pos ao r s' :
  fv <= v -> stream s pos ao ->
  rd_kafka_q_pop conf call op_cb serve_cb fuel s fq 0 [] = Some (r, s') -> popped s' pos ao r.
Proof.
  intros Hv Hs. unfold rd_kafka_q_pop, rd_kafka_q_pop_serve.
  apply (stream_same _ (qs_set_yield s false)) in Hs; [| done..].
  destruct (q_resolve _ _ _) as [i |] eqn:Ei; [| done].
  rewrite (resolve_stream _ _ _ _ _ Hs Ei). by apply pop_loop_stream.
Qed.

(** What the application is given. *)
Definition given (s' : q_state) (pos ao : Z) (r : option rd_kafka_op) : Prop :=
  exists pos1 ao1, skips pos ao pos1 ao1 /\
    match r with
    | None => stream s' pos1 ao1
    | Some o => taken s' pos1 ao1 o /\ rd_kafka_op_is_ctrl_msg o = false /\
                rko_type o <> RD_KAFKA_OP_BARRIER
    end.

Lemma given_after pos ao pos1 ao1 s' r :
  skips pos ao pos1 ao1 -> given s' pos1 ao1 r -> given s' pos ao r.
Proof.
  intros Hs (pos2 & ao2 & Hs2 & H). exists pos2, ao2. split; [by eapply skips_trans | done].
Qed.

Lemma poll_taken s pos ao o fuel :
  taken s pos ao o ->
  rd_kafka_poll_cb conf call op_cb fuel s fq o RD_KAFKA_Q_CB_RETURN =
  if rko_type o =? RD_KAFKA_OP_BARRIER
  then Some (RD_KAFKA_OP_RES_HANDLED, o, rd_kafka_op_destroy s o)
  else Some (RD_KAFKA_OP_RES_PASS, o, s).
Proof.
  intros [Ho _]. unfold rd_kafka_poll_cb, is_return. cbn [bool_decide].
  rewrite !bool_decide_false by done. rewrite !bool_decide_true by done. rewrite orb_true_r.
  destruct Ho as [-> _ _ _ _ _ | [-> | ->] _ _]; done.
Qed.

Lemma consume0_loop_stream n fuel s pos ao r s' :
  fv <= v -> stream s pos ao ->
  consume0_loop conf call op_cb serve_cb n fuel s fq [] = Some (r, s') -> given s' pos ao r.
Proof.
  intros Hv. revert s pos ao. induction n as [| n IH]; [done |]. cbn [consume0_loop].
  intros s pos ao Hs. destruct (rd_kafka_q_pop _ _ _ _ _ _ _ _ _) as [[ro s1] |] eqn:Ep; [| done].
  apply (q_pop_stream _ _ _ _ _ _ Hv Hs) in Ep as (pos1 & ao1 & Hsk & Hro).
  destruct ro as [o |]; [| intros [= <- <-]; by exists pos1, ao1].
  destruct Hro as [Ht Hc]. rewrite (poll_taken s1 pos1 ao1 o fuel Ht).
  destruct (Z.eqb_spec (rko_type o) RD_KAFKA_OP_BARRIER) as [Eb | Eb].
  - rewrite !bool_decide_false by done. cbn [orb].
    assert (stream (rd_kafka_op_destroy s1 o) pos1 ao1) as Hs1.
    { destruct Ht as [_ Ht]. rewrite Eb in Ht. by eapply stream_same; [| | exact Ht]. }
    destruct (rd_kafka_yield_thread _).
    + intros [= <- <-]. by exists pos1, ao1.
    + intros E. eapply given_after; [exact Hsk | by eapply IH].
  - rewrite bool_decide_true by done. intros [= <- <-]. by exists pos1, ao1.
Qed.

(** The messages among what a call returns. *)
Definition got_of (r : option rd_kafka_op) : list Z :=
  match r with
  | Some o => if (rko_type o =? RD_KAFKA_OP_FETCH) && (rko_err o =? 0)
              then [fetch_offset (rko_u o)] else []
  | None => []
  end.

(** A call returns the next message, if it returns one. *)
Lemma consume0_stream n fuel s pos ao r s' :
  fv <= v -> pos <= lim -> stream s pos ao ->
  rd_kafka_consume0 conf call op_cb serve_cb n fuel s fq [] = Some (r, s') ->
  exists pos' ao', pos <= pos' <= lim /\ stream s' pos' ao' /\
    got_of r = data (between log pos pos') /\
    (pos' = pos /\ ao' = ao \/ ao' = pos' /\ pos < pos').
Proof.
  intros Hv Hlim Hs. unfold rd_kafka_consume0.
  apply (stream_same _ (qs_set_yield s false)) in Hs; [| done..].
  destruct (consume0_loop _ _ _ _ _ _ _ _ _) as [[ro s1] |] eqn:El; [| done].
  apply (consume0_loop_stream _ _ _ _ _ _ _ Hv Hs) in El as (pos1 & ao1 & (H1 & Hd & Ha) & Hro).
  destruct ro as [o |]; cycle 1.
  { intros [= <- <-]. exists pos1, ao1. split; [lia |].
    split; [done |]. split; [done |]. destruct Ha as [Ha | [Ha ?]]; [by left | right; split; [done | lia]]. }
  destruct Hro as ([Ho Hst] & Hc & Hnb).
  destruct (rd_assert _); [| done].
  destruct (rd_kafka_fetch_op_app_prepare conf s1 o) as [s2 |] eqn:Ep; [| done]. intros [= <- <-].
  destruct (Z.eqb_spec (rko_type o) RD_KAFKA_OP_FETCH) as [Ety | Ety].
  - destruct Hst as (Hr & Hoff & Eb & Hst).
    assert (rko_err o = 0) as Eerr by (destruct Ho as [_ _ ? _ _ _ | [H | H] _ _]; [done | by rewrite Ety in H..]).
    unfold rd_kafka_op_is_ctrl_msg in Hc. rewrite Ety, Eerr in Hc. cbn in Hc.
    exists (fetch_offset (rko_u o) + 1), (fetch_offset (rko_u o) + 1).
    split; [lia |]. split; [by eapply prepare_stream |]. split; [| right; split; [done | lia]].
    rewrite (data_between pos pos1) by lia. rewrite Hd, Eb, Hc. cbn. by rewrite Ety, Eerr.
  - unfold rd_kafka_fetch_op_app_prepare in Ep. apply Z.eqb_neq in Ety as Ety'. rewrite Ety' in Ep.
    injection Ep as <-. exists pos1, ao1. split; [lia |]. split; [done |].
    cbn. rewrite Ety', Hd. split; [done |]. destruct Ha as [Ha | [Ha ?]]; [by left | right; split; [done | lia]].
Qed.

End Taking.
