(* ===== verification/FetchInv.v ===== *)
(** * The state of a partition that is fetched from absolute offsets

    The ops that the main thread has still to take, what they lead to, and what the other
    threads leave alone: the broker threads and the queues change none of the fields by
    which messages are told from outdated ones. *)

From stdpp Require Import gmap.
From S2P Require Import Prelude Producer RdBuf Slice KafkaBuf MsgReader Queue QueueFacts FetchState Fetcher FetchBroker FetchRun FetchFacts.

(** ** What of the partition matters *)

Definition PAUSED_MASK : Z := Z.lor RD_KAFKA_TOPPAR_F_APP_PAUSE RD_KAFKA_TOPPAR_F_LIB_PAUSE.

(** What the main thread's ops change. *)
Record ctl := mk_ctl { c_state : Z; c_app : Z; c_next : Z; c_flags : Z }.

Definition ctl_of (t : rd_kafka_toppar) (a : op_toppar) : ctl :=
  mk_ctl (rktp_fetch_state t) (rktp_app_offset a) (rktp_next_offset t)
    (Z.land (rktp_flags t) PAUSED_MASK).

(** What they leave alone, apart from the versions. *)
Record fetching := mk_fetching {
  g_self : nat;
  g_fetchq : nat;
  g_fetch_version : Z;
  g_fetch : bool;
  g_last_next : Z;
  g_fetch_offset : Z }.

Definition fetching_of (t : rd_kafka_toppar) : fetching :=
  mk_fetching (rktp_self t) (rktp_fetchq t) (rktp_fetch_version t) (rktp_fetch t)
    (rktp_last_next_offset t) (os_fetch_offset (rktp_offsets t)).

(** No lookup, no timer and no store of offsets. *)
Definition quiet (t : rd_kafka_toppar) : Prop :=
  rktp_lookups t = [] /\ rktp_offset_query_tmr t = ftmr_zero /\
  rktp_offset_commit_tmr t = ftmr_zero /\
  Z.land (rktp_flags t) RD_KAFKA_TOPPAR_F_OFFSET_STORE = 0 /\
  (rktp_fetch_state t = RD_KAFKA_TOPPAR_FETCH_NONE \/
   rktp_fetch_state t = RD_KAFKA_TOPPAR_FETCH_STOPPED \/
   rktp_fetch_state t = RD_KAFKA_TOPPAR_FETCH_ACTIVE).

(** ** The ops of the main thread *)

Definition pause_flag (flag : Z) : Prop :=
  flag = RD_KAFKA_TOPPAR_F_APP_PAUSE \/ flag = RD_KAFKA_TOPPAR_F_LIB_PAUSE.

Definition ctl_op (c : ctl) (u : toppar_op_u) : ctl :=
  match u with
  | FetchStart offset _ =>
      mk_ctl RD_KAFKA_TOPPAR_FETCH_ACTIVE (c_app c) offset (c_flags c)
  | FetchStop => mk_ctl RD_KAFKA_TOPPAR_FETCH_STOPPED RD_KAFKA_OFFSET_INVALID (c_next c) (c_flags c)
  | Seek offset => mk_ctl (c_state c) RD_KAFKA_OFFSET_INVALID offset (c_flags c)
  | Pause true flag =>
      mk_ctl (c_state c) (c_app c)
        (if c_app c =? RD_KAFKA_OFFSET_INVALID then c_next c else c_app c)
        (Z.lor (c_flags c) flag)
  | Pause false flag => mk_ctl (c_state c) (c_app c) (c_next c) (Z.ldiff (c_flags c) flag)
  | _ => c
  end.

(** A partition is started when it is not, and seeked in when it is. *)
Definition op_fits (c : ctl) (u : toppar_op_u) : Prop :=
  match u with
  | FetchStart offset _ =>
      0 <= offset /\ (c_state c = RD_KAFKA_TOPPAR_FETCH_NONE \/
                      c_state c = RD_KAFKA_TOPPAR_FETCH_STOPPED)
  | FetchStop => True
  | Seek offset => 0 <= offset /\ c_state c = RD_KAFKA_TOPPAR_FETCH_ACTIVE
  | Pause true flag => pause_flag flag
  | Pause false flag =>
      pause_flag flag /\
      (c_state c = RD_KAFKA_TOPPAR_FETCH_ACTIVE -> c_next c <> RD_KAFKA_OFFSET_INVALID)
  | _ => False
  end.

(** The ops lead from [c] to [c'], their versions from [v] to at most [V]. *)
Inductive plan (V : Z) : Z -> ctl -> list toppar_op -> ctl -> Prop :=
  | plan_done v c : v <= V -> plan V v c [] c
  | plan_op v c op ops c' :
      v < rko_version (to_rko op) -> op_fits c (to_u op) ->
      plan V (rko_version (to_rko op)) (ctl_op c (to_u op)) ops c' ->
      plan V v c (op :: ops) c'.

Lemma plan_le V v c ops c' : plan V v c ops c' -> v <= V.
Proof. induction 1; lia. Qed.

Lemma plan_nil V v c ops c' : v = V -> plan V v c ops c' -> ops = [] /\ c' = c.
Proof. intros -> H. inversion H as [| ? ? ? ? ? ? ? H']; subst; [done |]. apply plan_le in H'. lia. Qed.

Lemma plan_snoc V V' v c ops c' op :
  plan V v c ops c' -> V < rko_version (to_rko op) <= V' -> op_fits c' (to_u op) ->
  plan V' v c (ops ++ [op]) (ctl_op c' (to_u op)).
Proof.
  intros H. induction H; intros Hv Hf; cbn.
  - apply plan_op; [lia | done | apply plan_done; lia].
  - apply plan_op; auto.
Qed.

(** ** What others leave alone *)

Definition core_of (t : rd_kafka_toppar) :=
  (fetching_of t, rktp_ops t, rktp_op_version t, rktp_fetch_state t, rktp_next_offset t,
   (Z.land (rktp_flags t) PAUSED_MASK, Z.land (rktp_flags t) RD_KAFKA_TOPPAR_F_OFFSET_STORE,
    rktp_lookups t, rktp_offset_query_tmr t, rktp_offset_commit_tmr t)).

Definition frame (s s' : fetcher) : Prop :=
  fs_qs s' = fs_qs s /\ core_of (fs_rktp s') = core_of (fs_rktp s).

Lemma frame_refl s : frame s s.
Proof. done. Qed.

Lemma frame_trans s1 s2 s3 : frame s1 s2 -> frame s2 s3 -> frame s1 s3.
Proof. intros [E1 C1] [E2 C2]. split; congruence. Qed.

Lemma frame_emit ev s : frame s (fs_emit ev s).
Proof. done. Qed.

Lemma frame_add_flag flag s :
  Z.land flag PAUSED_MASK = 0 -> Z.land flag RD_KAFKA_TOPPAR_F_OFFSET_STORE = 0 ->
  frame s (add_rktp_flag flag s).
Proof. intros H1 H2. split; [done |]. unfold core_of. cbn. by rewrite !land_lor. Qed.

Lemma frame_del_flag flag s :
  Z.land flag PAUSED_MASK = 0 -> Z.land flag RD_KAFKA_TOPPAR_F_OFFSET_STORE = 0 ->
  frame s (del_rktp_flag flag s).
Proof. intros H1 H2. split; [done |]. unfold core_of. cbn. by rewrite !land_ldiff. Qed.

Lemma frame_state s s' : frame s s' -> rktp_fetch_state (fs_rktp s') = rktp_fetch_state (fs_rktp s).
Proof. intros [_ C]. unfold core_of in C. congruence. Qed.

Lemma quiet_no_wait s : quiet (fs_rktp s) -> in_state s RD_KAFKA_TOPPAR_FETCH_OFFSET_WAIT = false.
Proof. intros (_ & _ & _ & _ & H). unfold in_state. by destruct H as [-> | [-> | ->]]. Qed.

Lemma core_quiet t t' : core_of t' = core_of t -> quiet t -> quiet t'.
Proof. intros C. unfold core_of in C. unfold quiet. injection C. intros. congruence. Qed.

Lemma frame_quiet s s' : frame s s' -> quiet (fs_rktp s) -> quiet (fs_rktp s').
Proof. intros [_ C]. by apply core_quiet. Qed.

(** *** The delegation to brokers *)

Section Delegation.
Context (conf : consumer_conf) (rkb_internal : nat -> bool).
Context (find_by_nodeid : Z -> option nat) (internal_rkb : nat).

Lemma migrate_frame m now old new s s' :
  quiet (fs_rktp s) -> rd_kafka_toppar_broker_migrate m now old new s = Some s' -> frame s s'.
Proof.
  intros Hq. unfold rd_kafka_toppar_broker_migrate.
  destruct (rktp_next_broker (fs_rktp s)); [by intros [= <-] |].
  apply (frame_quiet s (fs_upd (set_next_broker new) s)) in Hq; [| done].
  rewrite quiet_no_wait by done. by destruct old, new; intros [= <-].
Qed.

Lemma delegate_frame m now rkb s s' :
  quiet (fs_rktp s) -> rd_kafka_toppar_broker_delegate internal_rkb m now rkb s = Some s' ->
  frame s s'.
Proof.
  intros Hq. unfold rd_kafka_toppar_broker_delegate.
  destruct (_ && _); [by intros [= <-] | by apply migrate_frame].
Qed.

Lemma broker_update_frame m now id rkb s r s' :
  quiet (fs_rktp s) -> rd_kafka_toppar_broker_update internal_rkb m now id rkb s = Some (r, s') ->
  frame s s'.
Proof.
  intros Hq. unfold rd_kafka_toppar_broker_update.
  assert (frame s (fs_upd (set_broker_id id) s)) as H0 by done.
  pose proof (frame_quiet _ _ H0 Hq) as Hq'. destruct rkb as [rkb |].
  - destruct (bool_decide _); [by intros [= <- <-] |].
    destruct (rd_kafka_toppar_broker_delegate _ _ _ _ _) as [s1 |] eqn:E; [| done].
    intros [= <- <-]. by apply delegate_frame in E.
  - destruct (rd_kafka_toppar_broker_delegate _ _ _ _ _) as [s1 |] eqn:E; [| done].
    intros [= <- <-]. by apply delegate_frame in E.
Qed.

Lemma to_leader_frame m now s s' :
  quiet (fs_rktp s) ->
  rd_kafka_toppar_delegate_to_leader find_by_nodeid internal_rkb m now s = Some s' -> frame s s'.
Proof.
  intros Hq. unfold rd_kafka_toppar_delegate_to_leader. destruct (rd_assert _); [| done].
  destruct (rd_kafka_toppar_broker_update _ _ _ _ _ _) as [[r s1] |] eqn:E; [| done].
  intros [= <-]. by apply broker_update_frame in E.
Qed.

Lemma leader_update_frame now id leader s r s' :
  quiet (fs_rktp s) ->
  rd_kafka_toppar_leader_update rkb_internal internal_rkb now id leader s = Some (r, s') ->
  frame s s'.
Proof.
  intros Hq. unfold rd_kafka_toppar_leader_update. destruct (_ && _); [by intros [= <- <-] |].
  intros E. apply broker_update_frame in E; [| by eapply frame_quiet; [| exact Hq]].
  eapply frame_trans; [| exact E]. done.
Qed.

Lemma backoff_frame now err s : frame s (rd_kafka_toppar_fetch_backoff conf now err s).
Proof. unfold rd_kafka_toppar_fetch_backoff. by destruct (_ =? _). Qed.

Lemma preferred_frame now id s s' :
  quiet (fs_rktp s) ->
  rd_kafka_fetch_preferred_replica_handle conf find_by_nodeid internal_rkb now id s = Some s' ->
  frame s s'.
Proof.
  intros Hq. unfold rd_kafka_fetch_preferred_replica_handle.
  destruct (rd_interval_immediate _ _ _) as [ri n].
  set (s1 := if n <? 0 then _ else _).
  assert (frame s s1) as H1.
  { unfold s1. destruct (n <? 0); [| done]. eapply frame_trans; [| apply backoff_frame]. done. }
  pose proof (frame_quiet _ _ H1 Hq) as Hq1. destruct (find_by_nodeid id) as [rkb |].
  - destruct (rd_kafka_toppar_broker_update _ _ _ _ _ _) as [[r s2] |] eqn:E; [| done].
    intros [= <-]. apply broker_update_frame in E; [| by eapply frame_quiet; [| exact Hq1]].
    eapply frame_trans; [exact H1 |]. eapply frame_trans; [| exact E]. done.
  - destruct (rd_interval_immediate _ _ _) as [ri' r]. intros [= <-].
    eapply frame_trans; [exact H1 |]. eapply frame_trans; [| apply backoff_frame].
    by destruct (r >? 0).
Qed.

Lemma join_frame rkb s b s' b' :
  broker_partition_join rkb false s b = Some (s', b') -> frame s s'.
Proof.
  unfold broker_partition_join. destruct (_ || _); [by intros [= <- _] |].
  destruct (rktp_next_broker _) as [next |]; [| done].
  destruct (negb _); [by intros [= <- _] |]. destruct (rd_assert _); [| done].
  intros [= <- _]. eapply frame_trans; [by apply (frame_add_flag RD_KAFKA_TOPPAR_F_ON_RKB) |].
  done.
Qed.

End Delegation.

(** *** Ops that are no messages *)

Definition no_message (o : rd_kafka_op) : Prop :=
  (rko_type o = RD_KAFKA_OP_CONSUMER_ERR \/ rko_type o = RD_KAFKA_OP_BARRIER) /\
  rko_prio o = 0 /\ rko_serve o = None.

Lemma no_message_fq self fv l : Forall no_message l -> Forall (fq_op self fv) l.
Proof. intros H. eapply Forall_impl; [| exact H]. intros o (H1 & H2 & H3). by apply fq_other. Qed.

Lemma no_message_live v l : Forall no_message l -> live v l = [].
Proof.
  induction 1 as [| o l (H & _) _ IH]; [done |]. cbn. unfold live_of.
  by destruct H as [-> | ->].
Qed.

(** The same but for ops that are no messages. *)
Definition frame_q (s s' : fetcher) : Prop :=
  core_of (fs_rktp s') = core_of (fs_rktp s) /\
  forall l, fetchq_is (fs_qs s) (rktp_fetchq (fs_rktp s)) l ->
    qs_rktp (fs_qs s') = qs_rktp (fs_qs s) /\
    exists l', fetchq_is (fs_qs s') (rktp_fetchq (fs_rktp s)) (l ++ l') /\ Forall no_message l'.

Lemma frame_frame_q s s' : frame s s' -> frame_q s s'.
Proof.
  intros [E C]. split; [done |]. intros l H. rewrite E. split; [done |]. exists [].
  rewrite app_nil_r. split; [done | constructor].
Qed.

Lemma core_fetchq t t' : core_of t' = core_of t -> rktp_fetchq t' = rktp_fetchq t.
Proof. unfold core_of, fetching_of. congruence. Qed.

Lemma frame_q_trans s1 s2 s3 : frame_q s1 s2 -> frame_q s2 s3 -> frame_q s1 s3.
Proof.
  intros (C1 & Q1) (C2 & Q2). split; [congruence |].
  intros l Hl. destruct (Q1 l Hl) as (E1 & l1 & H1 & F1).
  rewrite (core_fetchq _ _ C1) in Q2.
  destruct (Q2 _ H1) as (E2 & l2 & H2 & F2). split; [congruence |]. exists (l1 ++ l2).
  rewrite app_assoc. split; [done | by apply Forall_app].
Qed.

Section Errors.
Context (fuel : nat) (conf : consumer_conf) (rkb_internal : nat -> bool).
Context (find_by_nodeid : Z -> option nat) (internal_rkb : nat).

Lemma enq_frame_q o s s' : no_message o -> fetchq_enq fuel o s = Some s' -> frame_q s s'.
Proof.
  intros Ho. unfold fetchq_enq.
  destruct (rd_kafka_q_enq _ _ _ _) as [[r qs] |] eqn:E; [| done]. intros [= <-].
  split; [done |]. intros l Hl. pose proof Ho as (_ & Hp & Hs).
  eapply enq_fetchq in E as [Hl' Et]; [| exact Hl | done..]. split; [done |].
  exists [o]. split; [exact Hl' | by constructor].
Qed.

Lemma consumer_err_frame_q err version s s' :
  rd_kafka_consumer_err fuel err version s = Some s' -> frame_q s s'.
Proof. apply enq_frame_q. split; [by left | done]. Qed.

Lemma bump_frame_q version s s' :
  Fetcher.rd_kafka_toppar_op_version_bump fuel version s = Some s' ->
  exists s1, frame_q s s1 /\ fs_qs s' = fs_qs s1 /\
    fs_rktp s' = set_op_version version (fs_rktp s1).
Proof.
  unfold Fetcher.rd_kafka_toppar_op_version_bump, Queue.rd_kafka_toppar_op_version_bump.
  destruct (rd_kafka_q_enq _ _ _ _) as [[r qs] |] eqn:E; [| done]. intros [= <-].
  exists (fs_fresh (fs_set_qs qs s)). split; [| done].
  eapply enq_frame_q; [| unfold fetchq_enq; by rewrite E]. split; [by right | done].
Qed.

Lemma partition_error_frame_q now nodeid version err hw s s' :
  quiet (fs_rktp s) -> err <> RD_KAFKA_RESP_ERR_OFFSET_OUT_OF_RANGE ->
  rd_kafka_fetch_reply_handle_partition_error fuel conf rkb_internal find_by_nodeid internal_rkb
    now nodeid version err hw s = Some s' -> frame_q s s'.
Proof.
  intros Hq He. unfold rd_kafka_fetch_reply_handle_partition_error.
  apply Z.eqb_neq in He as ->.
  match goal with |- (match ?r with _ => _ end) = _ -> _ => destruct r as [s1 |] eqn:E end; [| done].
  intros [= <-]. eapply frame_q_trans; [| apply frame_frame_q, backoff_frame].
  destruct (existsb _ _); [injection E as <-; by apply frame_frame_q |].
  destruct (err =? 78); [injection E as <-; by apply frame_frame_q |].
  destruct (err =? RD_KAFKA_RESP_ERR_TOPIC_AUTHORIZATION_FAILED).
  - destruct (negb _); [| injection E as <-; by apply frame_frame_q].
    destruct (rd_kafka_consumer_err _ _ _ _) as [s2 |] eqn:E2; [| done]. injection E as <-.
    apply consumer_err_frame_q in E2. eapply frame_q_trans; [exact E2 | by apply frame_frame_q].
  - destruct (err =? RD_KAFKA_RESP_ERR__PARTITION_EOF).
    + destruct (cc_enable_partition_eof conf); [by apply consumer_err_frame_q in E |].
      injection E as <-. by apply frame_frame_q.
    + by apply consumer_err_frame_q in E.
Qed.

(** ** The decision to fetch *)

Lemma decide_done_spec f ts s b s' b' ts' :
  fetch_decide_done f ts s b = Some (s', b', ts') ->
  fs_qs s' = fs_qs s /\ core_of (fs_rktp s') = core_of (set_fetch f (fs_rktp s)).
Proof.
  unfold fetch_decide_done.
  match goal with |- (match ?r with _ => _ end) = _ -> _ => destruct r as [[t b1] |] eqn:E end; [| done].
  intros [= <- _ _]. split; [done |]. cbn.
  destruct (Bool.eqb _ _) eqn:Ef.
  - injection E as <- _. apply Bool.eqb_prop in Ef. cbn in Ef. unfold core_of, fetching_of.
    cbn. by rewrite Ef.
  - apply Bool.eqb_false_iff in Ef. cbn in Ef. destruct f.
    + unfold rd_kafka_broker_active_toppar_add in E. cbn in E.
      destruct (rktp_fetch (fs_rktp s)) eqn:Ef'; [done |]. by injection E as <- _.
    + unfold rd_kafka_broker_active_toppar_del in E. cbn in E.
      destruct (rktp_fetch (fs_rktp s)) eqn:Ef'; [| done]. cbn in E.
      destruct (rd_assert _); [| done]. by injection E as <- _.
Qed.

Lemma set_start_spec s s' l :
  fetch_set_start fuel s = Some s' -> fetchq_is (fs_qs s) (rktp_fetchq (fs_rktp s)) l ->
  let t := fs_rktp s in
  qs_rktp (fs_qs s') = qs_rktp (fs_qs s) /\
  core_of (fs_rktp s') =
    core_of (set_fetch_version (rktp_op_version t)
               (set_last_next_offset (rktp_next_offset t)
                  (set_offsets (mk_ostats (rktp_next_offset t) 0) t))) /\
  exists taken l', l = taken ++ l' /\ fetchq_is (fs_qs s') (rktp_fetchq t) l'.
Proof.
  intros E Hl t. unfold fetch_set_start in E.
  destruct (rd_kafka_q_purge_toppar_version _ _ _ _ _) as [qs |] eqn:Ep; [| done].
  injection E as <-. apply (purge_fetchq _ _ _ l) in Ep as (tk & l' & -> & _ & Hl' & Et); [| exact Hl].
  split; [done |]. split; [done |]. by exists tk, l'.
Qed.

(** A decision leaves alone what it does not start over; fetching starts over when the
    partition is active. *)
Definition decided (s s' : fetcher) : Prop :=
  exists s0 s1 f, frame s s0 /\
    (s1 = s0 \/ in_state s0 RD_KAFKA_TOPPAR_FETCH_ACTIVE = true /\ fetch_start_over s0 = true /\
                fetch_set_start fuel s0 = Some s1) /\
    fs_qs s' = fs_qs s1 /\ core_of (fs_rktp s') = core_of (set_fetch f (fs_rktp s1)) /\
    (f = true -> RD_KAFKA_TOPPAR_IS_PAUSED (fs_rktp s1) = false /\
                 in_state s0 RD_KAFKA_TOPPAR_FETCH_ACTIVE = true /\
                 (fetch_start_over s0 = false \/ fetch_set_start fuel s0 = Some s1)).

Lemma decided_frame s s1 s2 : decided s s1 -> frame s1 s2 -> decided s s2.
Proof.
  intros (s0 & s1' & f & H1 & H2 & H3 & H4 & H5) [E C]. exists s0, s1', f.
  split; [done |]. split; [done |]. split; [congruence |]. split; [congruence | done].
Qed.

Lemma decide_spec now force s b s' b' ts :
  quiet (fs_rktp s) ->
  rd_kafka_toppar_fetch_decide fuel conf find_by_nodeid internal_rkb now force s b
    = Some (s', b', ts) -> decided s s'.
Proof.
  intros Hq. unfold rd_kafka_toppar_fetch_decide.
  destruct (if negb (rktp_leader_id (fs_rktp s) =? _) then _ else _) as [li le].
  set (s0 := fs_upd (set_lease_intvl li) s). assert (frame s s0) as H0 by done.
  assert (forall s1 ts0 b0, frame s s1 -> fetch_decide_done false ts0 s1 b0 = Some (s', b', ts) ->
    decided s s') as Hno.
  { intros s1 ts0 b0 H1 E. apply decide_done_spec in E as [Eq Ec]. exists s1, s1, false.
    split; [done |]. split; [by left |]. done. }
  destruct le.
  { destruct (rd_kafka_toppar_delegate_to_leader _ _ _ _ _) as [s1 |] eqn:E1; [| done].
    apply to_leader_frame in E1; [| by eapply frame_quiet; [| exact Hq]].
    apply Hno. by eapply frame_trans; [exact H0 |]. }
  destruct force; [by apply Hno |]. destruct (has_rktp_flag s0 _); [by apply Hno |].
  destruct (in_state s0 RD_KAFKA_TOPPAR_FETCH_ACTIVE) eqn:Ea; [| by apply Hno]. cbn [negb].
  match goal with |- (match ?r with _ => _ end) = _ -> _ => destruct r as [s1 |] eqn:E1 end; [| done].
  assert (s1 = s0 /\ fetch_start_over s0 = false \/
          fetch_start_over s0 = true /\ fetch_set_start fuel s0 = Some s1) as H1.
  { destruct (fetch_start_over s0); [by right | left; by injection E1 as <-]. }
  clear Hno E1. destruct (rd_kafka_q_len _ _ _) as [qlen |]; [| done].
  destruct (rd_kafka_q_size _ _ _) as [qsize |]; [| done]. intros E.
  assert (exists f ts0, fetch_decide_done f ts0 s1 b = Some (s', b', ts) /\
            (f = true -> RD_KAFKA_TOPPAR_IS_PAUSED (fs_rktp s1) = false)) as (f & ts0 & Ed & Hf).
  { destruct (RD_KAFKA_TOPPAR_IS_PAUSED (fs_rktp s1)); [by eexists _, _ |].
    repeat match type of E with (if ?c then _ else _) = _ => destruct c; [by eexists _, _ |] end.
    by eexists _, _. }
  apply decide_done_spec in Ed as [Eq Ec]. exists s0, s1, f. split; [done |].
  split; [destruct H1 as [[-> _] | [? ?]]; auto |]. split; [done |]. split; [done |].
  intros H. split; [by apply Hf |]. split; [done |]. destruct H1 as [[-> ?] | [? ?]]; auto.
Qed.

Lemma leave_spec now rkb s b s' b' :
  quiet (fs_rktp s) ->
  broker_partition_leave fuel conf find_by_nodeid internal_rkb now rkb s b = Some (s', b') ->
  frame s s' \/ decided s s'.
Proof.
  intros Hq. unfold broker_partition_leave. destruct (negb _); [intros [= <- _]; by left |].
  destruct (rd_kafka_toppar_fetch_decide _ _ _ _ _ _ _ _) as [[[s1 b1] ts] |] eqn:E; [| done].
  apply decide_spec in E; [| done]. destruct (rd_assert _); [| done]. intros [= <- _]. right.
  eapply decided_frame; [exact E |]. set (s2 := fs_upd (set_broker None) s1).
  eapply frame_trans; [by apply (frame_del_flag RD_KAFKA_TOPPAR_F_ON_RKB s2) |].
  by destruct (rktp_next_broker _).
Qed.

(** ** Responses *)

(** The messages among the ops of a message set. *)
Definition msgs_of (ops : list fetch_op) : list (Z * bool) :=
  omap (fun o => match o with
                 | OpFetch rkm _ control => Some (Msgq.rkm_offset rkm, control)
                 | OpConsumerErr _ _ => None
                 end) ops.

Lemma ops_of_fetch_spec t id version ops v fv :
  0 < version <= fv ->
  Forall (fq_op (rktp_self t) fv) (ops_of_fetch t id version ops) /\
  live v (ops_of_fetch t id version ops) = if version =? v then msgs_of ops else [].
Proof.
  intros Hv. revert id. induction ops as [| o ops IH]; intros id.
  { split; [constructor |]. by destruct (_ =? _). }
  destruct (IH (id + 1)) as (H1 & H2). cbn [ops_of_fetch]. split.
  - constructor; [| done]. destruct o; [by apply fq_fetch | by apply fq_other; [left | |]].
  - cbn. fold (live v (ops_of_fetch t (id + 1) version ops)). rewrite H2. unfold live_of.
    destruct o as [rkm b control | err off]; cbn; by destruct (version =? v).
Qed.

Lemma ops_of_fetch_prio t id version ops :
  Forall (fun o => rko_prio o = 0) (ops_of_fetch t id version ops).
Proof. revert id. induction ops as [| [] ops IH]; intros id; by constructor. Qed.

(** What reads the message set of a request that asked for offset [from]: it goes on
    where the partition is, whatever that is by then. *)
Definition reads (log : list (Z * bool)) (from : Z) (txns : option rd_kafka_aborted_txns)
    (parse : reader_fn) : Prop :=
  forall fo max_bytes x ops fo' max_bytes' err,
    parse fo max_bytes txns true = Some (Some (x, (ops, fo', max_bytes', err))) ->
    from <= fo -> fo <= fo' /\ msgs_of ops = between log fo fo'.

Lemma ready_fetchq s l r :
  fetchq_is (fs_qs s) (rktp_fetchq (fs_rktp s)) l -> fetchq_ready fuel s = Some r -> r = true.
Proof.
  intros (q & E & Ef & Er & _) H. unfold fetchq_ready, at_dest in H.
  destruct fuel as [| n]; [done |]. cbn in H. rewrite E, Ef, E in H. congruence.
Qed.

(** A response is dropped, or its messages are appended. *)
Lemma fetched_spec now nodeid rkb rkq hdr p version parse s s' r l log from :
  quiet (fs_rktp s) -> fp_ErrorCode hdr <> RD_KAFKA_RESP_ERR_OFFSET_OUT_OF_RANGE ->
  fetchq_is (fs_qs s) (rktp_fetchq (fs_rktp s)) l -> rkq <> rktp_fetchq (fs_rktp s) ->
  reads log from (fp_aborted_txns hdr) parse ->
  fetch_partition_handle fuel conf rkb_internal find_by_nodeid internal_rkb now nodeid rkb rkq hdr
    (Some (p, version)) parse s = Some (s', r) ->
  frame_q s s' \/
  exists t id ops fo', rktp_self t = rktp_self (fs_rktp s) /\
    rktp_fetch_version (fs_rktp s) <= version /\
    qs_rktp (fs_qs s') = qs_rktp (fs_qs s) /\
    core_of (fs_rktp s') = core_of (set_offsets (mk_ostats fo' 0) (fs_rktp s)) /\
    fetchq_is (fs_qs s') (rktp_fetchq (fs_rktp s)) (l ++ ops_of_fetch t id version ops) /\
    let fo := os_fetch_offset (rktp_offsets (fs_rktp s)) in
    (from <= fo -> fo <= fo' /\ msgs_of ops = between log fo fo').
Proof.
  intros Hq He Hl Hrkq Hreads. unfold fetch_partition_handle.
  set (s0 := fs_upd (set_ls_offset _) _). assert (frame s s0) as H0 by done.
  pose proof (frame_quiet _ _ H0 Hq) as Hq0.
  destruct (negb _).
  { destruct (rd_kafka_fetch_preferred_replica_handle _ _ _ _ _ _) as [s1 |] eqn:E; [| done].
    intros [= <- _]. left. apply frame_frame_q. apply preferred_frame in E; [| done].
    by eapply frame_trans. }
  destruct (negb (bool_decide _)); [intros [= <- _]; left; by apply frame_frame_q |].
  destruct (negb _ || _) eqn:Ev; [intros [= <- _]; left; by apply frame_frame_q |].
  apply orb_false_iff in Ev as [_ Ev].
  set (offs := rktp_offsets (fs_rktp s0)). set (eof := (_ && _)). clearbody eof.
  set (s1 := if eof then _ else s0).
  assert (frame s s1) as H1.
  { unfold s1. destruct eof; [| done]. by apply (frame_trans _ _ _ H0). }
  pose proof (frame_quiet _ _ H1 Hq) as Hq1.
  destruct (negb _).
  { destruct (rd_kafka_fetch_reply_handle_partition_error _ _ _ _ _ _ _ _ _ _ _) as [s2 |] eqn:E; [| done].
    intros [= <- _]. left. apply partition_error_frame_q in E; [| done | by destruct eof].
    eapply frame_q_trans; [by apply frame_frame_q | exact E]. }
  destruct (_ <=? 0).
  { intros [= <- _]. left. apply frame_frame_q. by apply (frame_trans _ _ _ H1). }
  set (s2 := fs_upd (set_last_error 0) s1).
  assert (frame s s2) as H2 by (by apply (frame_trans _ _ _ H1)). clearbody s2. clear s1 H1 Hq1.
  destruct H2 as [E2 C2].
  assert (rktp_fetchq (fs_rktp s2) = rktp_fetchq (fs_rktp s)) as Efq by (by apply core_fetchq).
  assert (os_fetch_offset (rktp_offsets (fs_rktp s2)) = os_fetch_offset (rktp_offsets (fs_rktp s))) as Efo
    by (unfold core_of, fetching_of in C2; congruence).
  destruct (fetchq_ready fuel s2) as [ready |] eqn:Er; [| done].
  rewrite <- E2, <- Efq in Hl. apply (ready_fetchq _ l) in Er; [subst ready | done].
  destruct (parse _ _ _ _) as [[[x [[[ops fo'] mb'] err]] |] |] eqn:Epa; [| | done]; cycle 1.
  { intros [= <- _]. left. by apply frame_frame_q. }
  destruct (fetchq_concat _ _ _ _) as [s4 |] eqn:Ec; [| done]. intros [= <- _]. right.
  eapply fetchq_concat_spec in Ec as (Hq4 & Et4 & E4);
    [| exact Hl | cbn; by rewrite Efq | apply ops_of_fetch_prio].
  cbn in Hq4, Et4, E4. rewrite Efq, E2 in *.
  exists (fs_rktp s2), (fs_addr s2), ops, fo'.
  split; [unfold core_of, fetching_of in C2; congruence |]. split; [cbn in Ev; zlia |].
  assert (frame s4 (if err =? 0 then s4 else rd_kafka_toppar_fetch_backoff conf now err s4)) as [-> ->]
    by (destruct (err =? 0); [done | apply backoff_frame]).
  split; [done |]. split; [| split; [done |]].
  - rewrite E4. unfold core_of, fetching_of in *. cbn. congruence.
  - rewrite Efo in Epa. exact (Hreads _ _ _ _ _ _ _ Epa).
Qed.

End Errors.

(** ** The main thread *)

(** The partition in a state: its fetch queue [l], what the queues know of it, what the
    main thread changes, what it does not, its ops and its version. *)
Record mstate (s : fetcher) (l : list rd_kafka_op) (a : op_toppar) (c : ctl) (g : fetching)
    (ops : list toppar_op) (ov : Z) : Prop := mk_mstate {
  m_q : fetchq_is (fs_qs s) (g_fetchq g) l;
  m_a : qs_rktp (fs_qs s) !! g_self g = Some a;
  m_c : ctl_of (fs_rktp s) a = c;
  m_g : fetching_of (fs_rktp s) = g;
  m_ops : rktp_ops (fs_rktp s) = ops;
  m_ov : rktp_op_version (fs_rktp s) = ov;
  m_quiet : quiet (fs_rktp s) }.

Lemma mstate_frame_q s s' l a c g ops ov :
  mstate s l a c g ops ov -> frame_q s s' ->
  exists l', mstate s' (l ++ l') a c g ops ov /\ Forall no_message l'.
Proof.
  intros [Hq Ha Hc Hg Ho Hv Hqt] [C Q]. pose proof Hg as Hg'. rewrite <- Hg in Hq, Ha. cbn in Hq, Ha.
  destruct (Q l Hq) as (Et & l' & Hl' & Hn). exists l'. split; [| done].
  assert (fetching_of (fs_rktp s') = g) as Hgg by (unfold core_of in C; congruence).
  split; rewrite <- ?Hg; cbn; try done.
  - congruence.
  - rewrite <- Hc. unfold core_of in C. unfold ctl_of. congruence.
  - congruence.
  - unfold core_of in C. congruence.
  - unfold core_of in C. congruence.
  - by eapply core_quiet.
Qed.

Lemma mstate_frame s s' l a c g ops ov :
  frame s s' -> mstate s l a c g ops ov -> mstate s' l a c g ops ov.
Proof.
  intros [E C] [Hq Ha Hc Hg Ho Hv Hqt]. split; rewrite ?E; try done;
    try (unfold core_of in C; congruence).
  - rewrite <- Hc. unfold core_of in C. unfold ctl_of. congruence.
  - by eapply core_quiet.
Qed.

Lemma mstate_next s l a c g ops ov v :
  mstate s l a c g ops ov ->
  mstate (fs_upd (set_next_offset v) s) l a (mk_ctl (c_state c) (c_app c) v (c_flags c)) g ops ov.
Proof. by intros [Hq Ha <- Hg Ho Hv Hqt]. Qed.

Lemma mstate_state s l a c g ops ov v :
  v = RD_KAFKA_TOPPAR_FETCH_STOPPED \/ v = RD_KAFKA_TOPPAR_FETCH_ACTIVE ->
  mstate s l a c g ops ov ->
  mstate (rd_kafka_toppar_set_fetch_state v s) l a (mk_ctl v (c_app c) (c_next c) (c_flags c)) g ops ov.
Proof.
  intros Hs [Hq Ha <- Hg Ho Hv Hqt]. split; try done. unfold quiet in *. cbn. intuition.
Qed.

Lemma mstate_app s s' l a c g ops ov v :
  set_app_offset v s = Some s' -> mstate s l a c g ops ov ->
  mstate s' l (mk_op_toppar (rktp_version a) v (rktp_stored_offset a))
    (mk_ctl (c_state c) v (c_next c) (c_flags c)) g ops ov.
Proof.
  intros E [Hq Ha <- Hg Ho Hv Hqt]. unfold set_app_offset, fs_app in E. rewrite <- Hg in Ha.
  cbn in Ha. rewrite Ha in E. injection E as <-. split; try done.
  rewrite <- Hg. cbn. by rewrite lookup_insert_eq.
Qed.

(** The part of a flag that the mask keeps. *)
Lemma mstate_add_flag s l a c g ops ov flag :
  pause_flag flag -> mstate s l a c g ops ov ->
  mstate (add_rktp_flag flag s) l a (mk_ctl (c_state c) (c_app c) (c_next c) (Z.lor (c_flags c) flag))
    g ops ov.
Proof.
  intros Hf [Hq Ha <- Hg Ho Hv Hqt]. split; try done.
  - unfold ctl_of. cbn. f_equal. rewrite Z.land_lor_distr_l. by destruct Hf as [-> | ->].
  - unfold quiet in *. cbn. rewrite land_lor; [done |]. by destruct Hf as [-> | ->].
Qed.

Lemma mstate_del_flag s l a c g ops ov flag :
  pause_flag flag -> mstate s l a c g ops ov ->
  mstate (del_rktp_flag flag s) l a (mk_ctl (c_state c) (c_app c) (c_next c) (Z.ldiff (c_flags c) flag))
    g ops ov.
Proof.
  intros Hf [Hq Ha <- Hg Ho Hv Hqt]. split; try done.
  - unfold ctl_of. cbn. f_equal. apply Z.bits_inj'. intros n _.
    rewrite !Z.land_spec, !Z.ldiff_spec, Z.land_spec. btauto.
  - unfold quiet in *. cbn. rewrite land_ldiff; [done |]. by destruct Hf as [-> | ->].
Qed.

Section MainThread.
Context (fuel : nat) (conf : consumer_conf) (file : offset_file) (rkb_internal : nat -> bool).
Context (rkb_nodeid : nat -> Z).
Hypothesis Hconsumer : cc_is_consumer conf = true.

Lemma bump_mstate version s s' l a c g ops ov :
  mstate s l a c g ops ov -> Fetcher.rd_kafka_toppar_op_version_bump fuel version s = Some s' ->
  exists l', mstate s' (l ++ l') a c g ops version /\ Forall no_message l'.
Proof.
  intros Hm E. apply bump_frame_q in E as (s1 & Hf & Eq & Et).
  destruct (mstate_frame_q _ _ _ _ _ _ _ _ Hm Hf) as (l' & Hm' & Hn). exists l'. split; [| done].
  destruct Hm' as [Hq Ha Hc Hg Ho Hv Hqt]. split; rewrite ?Eq, ?Et; done.
Qed.

(** What an op makes of a state. *)
Definition serves (s' : fetcher) (l : list rd_kafka_op) (a : op_toppar) (c : ctl) (g : fetching)
    (ops : list toppar_op) (ov : Z) : Prop :=
  exists l' a', mstate s' l' a' c g ops ov /\ rktp_version a' = rktp_version a /\
    (forall self fv, Forall (fq_op self fv) l -> Forall (fq_op self fv) l').

Lemma serves_more s' l l1 a c g ops ov :
  Forall no_message l1 -> serves s' (l ++ l1) a c g ops ov -> serves s' l a c g ops ov.
Proof.
  intros Hn (l' & a' & Hm & Hv & Hf). exists l', a'. split; [done |]. split; [done |].
  intros self fv Hl. apply Hf, Forall_app. split; [done | by apply no_message_fq].
Qed.

Lemma reply_frame rko type err s : frame s (reply_to rko type err s).
Proof. unfold reply_to. by destruct (rko_replyq rko). Qed.

Lemma wakeup_frame s : frame s (wakeup_broker s).
Proof. unfold wakeup_broker. by destruct (rktp_broker _). Qed.

Lemma not_state s l a c g ops ov v :
  mstate s l a c g ops ov -> in_state s v = (c_state c =? v).
Proof. by intros [_ _ <- _ _ _ _]. Qed.

Lemma start_serves now offset rkcg rko s s' l a c g ops ov :
  mstate s l a c g ops ov -> op_fits c (FetchStart offset rkcg) ->
  rd_kafka_toppar_fetch_start fuel conf file rkb_internal now offset rkcg rko s = Some s' ->
  serves s' l a (ctl_op c (FetchStart offset rkcg)) g ops (rko_version rko).
Proof.
  intros Hm [Hoff Hst]. unfold rd_kafka_toppar_fetch_start. rewrite (not_state _ _ _ _ _ _ _ _ Hm).
  replace (c_state c =? _) with false by (by destruct Hst as [-> | ->]).
  destruct (Fetcher.rd_kafka_toppar_op_version_bump _ _ _) as [s1 |] eqn:Eb; [| done].
  destruct (bump_mstate _ _ _ _ _ _ _ _ _ Hm Eb) as (l1 & Hm1 & Hn).
  match goal with |- (match ?r with _ => _ end) = _ -> _ => destruct r as [s2 |] eqn:E2 end; [| done].
  assert (frame s1 s2) as H2.
  { destruct rkcg; [| by injection E2 as <-]. destruct (rd_assert _); [| done].
    by injection E2 as <-. }
  unfold RD_KAFKA_OFFSET_BEGINNING, RD_KAFKA_OFFSET_END, RD_KAFKA_OFFSET_TAIL_BASE,
    RD_KAFKA_OFFSET_STORED, RD_KAFKA_OFFSET_INVALID. ztest. cbn [orb]. intros [= <-].
  apply (serves_more _ _ l1); [done |]. exists (l ++ l1), a. split; [| done].
  eapply mstate_frame; [apply reply_frame |].
  eapply (mstate_frame (wakeup_broker (rd_kafka_toppar_set_fetch_state RD_KAFKA_TOPPAR_FETCH_ACTIVE
                                  (fs_upd (set_next_offset offset) s2)))); [done |].
  eapply mstate_frame; [apply wakeup_frame |].
  apply (mstate_state _ _ _ (mk_ctl (c_state c) (c_app c) offset (c_flags c))); [by right |].
  apply mstate_next.  by eapply mstate_frame.
Qed.

Lemma seek_serves now offset rko s s' l a c g ops ov :
  mstate s l a c g ops ov -> op_fits c (Seek offset) ->
  rd_kafka_toppar_seek fuel conf rkb_internal now offset rko s = Some s' ->
  serves s' l a (ctl_op c (Seek offset)) g ops (rko_version rko).
Proof.
  intros Hm [Hoff Hst]. unfold rd_kafka_toppar_seek. rewrite (not_state _ _ _ _ _ _ _ _ Hm).
  pose proof (not_state _ _ _ _ _ _ _ RD_KAFKA_TOPPAR_FETCH_ACTIVE Hm) as Ha.
  rewrite Hst in *. cbn [Z.eqb]. unfold in_state in Ha. apply Z.eqb_eq in Ha. rewrite Ha.
  unfold RD_KAFKA_OFFSET_STORED. ztest. cbn [negb RD_KAFKA_TOPPAR_FETCH_IS_STARTED].
  destruct (Fetcher.rd_kafka_toppar_op_version_bump _ _ _) as [s1 |] eqn:Eb; [| done].
  destruct (bump_mstate _ _ _ _ _ _ _ _ _ Hm Eb) as (l1 & Hm1 & Hn).
  destruct (set_app_offset _ s1) as [s2 |] eqn:E2; [| done].
  apply (mstate_app _ _ _ _ _ _ _ _ _ E2) in Hm1. unfold abort_query.
  rewrite (not_state _ _ _ _ _ _ _ _ Hm1). cbn [c_state]. rewrite Hst. cbn [Z.eqb].
  unfold RD_KAFKA_OFFSET_IS_LOGICAL. ztest. intros [= <-].
  apply (serves_more _ _ l1); [done |]. eexists (l ++ l1), _. split; [| split; [| done]].
  - eapply mstate_frame; [apply reply_frame |]. eapply mstate_frame; [apply wakeup_frame |].
    cbn [ctl_op]. rewrite Hst. eapply (mstate_state _ _ _ (mk_ctl _ _ _ _)); [by right |].
    eapply (mstate_next _ _ _ (mk_ctl _ _ _ _)). exact Hm1.
  - done.
Qed.

Lemma stopped_frame err s s1 s' :
  set_app_offset RD_KAFKA_OFFSET_INVALID
    (rd_kafka_toppar_set_fetch_state RD_KAFKA_TOPPAR_FETCH_STOPPED s) = Some s1 ->
  rd_kafka_toppar_fetch_stopped err s = Some s' -> frame s1 s'.
Proof.
  intros E. unfold rd_kafka_toppar_fetch_stopped. rewrite E.
  set (s2 := if rktp_cgrp _ then _ else s1). assert (frame s1 s2) as H by (unfold s2; by destruct (rktp_cgrp _)).
  destruct (rktp_replyq _) as [[rkq v] |]; intros [= <-]; [| done].
  by apply (frame_trans _ _ _ H).
Qed.

Lemma stop_serves rko s s' l a c g ops ov :
  mstate s l a c g ops ov -> rd_kafka_toppar_fetch_stop fuel conf file rko s = Some s' ->
  serves s' l a (ctl_op c FetchStop) g ops (rko_version rko).
Proof.
  intros Hm. unfold rd_kafka_toppar_fetch_stop.
  destruct (Fetcher.rd_kafka_toppar_op_version_bump _ _ _) as [s1 |] eqn:Eb; [| done].
  destruct (bump_mstate _ _ _ _ _ _ _ _ _ Hm Eb) as (l1 & Hm1 & Hn). clear Hm Eb s ov.
  unfold abort_query. destruct Hm1 as [Hq Ha Hc Hg Ho Hv Hqt].
  replace (in_state s1 RD_KAFKA_TOPPAR_FETCH_OFFSET_QUERY) with false; cycle 1.
  { destruct Hqt as (_ & _ & _ & _ & H). unfold in_state. by destruct H as [-> | [-> | ->]]. }
  destruct (rd_kafka_q_fwd_set0 _ _ _ _ _) as [qs |] eqn:Eq; [| done].
  rewrite <- Hg in Hq. apply (unfwd_fetchq _ _ _ _ _ Hq) in Eq as [Hq' Er].
  destruct (rd_assert _); [| done]. unfold rd_kafka_offset_store_stop, has_rktp_flag.
  pose proof Hqt as (_ & _ & Ht & Hf & _).
  set (s2 := rd_kafka_toppar_set_fetch_state _ _).
  replace (Z.land (rktp_flags (fs_rktp s2)) RD_KAFKA_TOPPAR_F_OFFSET_STORE) with 0 by done.
  cbn [Z.eqb negb]. unfold rd_kafka_offset_store_term. set (s3 := fs_upd _ _). intros E.
  destruct (set_app_offset RD_KAFKA_OFFSET_INVALID
    (rd_kafka_toppar_set_fetch_state RD_KAFKA_TOPPAR_FETCH_STOPPED s3)) as [s4 |] eqn:E4; cycle 1.
  { unfold rd_kafka_toppar_fetch_stopped in E. by rewrite E4 in E. }
  pose proof (stopped_frame _ _ _ _ E4 E) as Hf4.
  apply (serves_more _ _ l1); [done |]. eexists (l ++ l1), _.
  split; [eapply mstate_frame; [exact Hf4 |]; refine (mstate_app _ _ _ _ (mk_ctl _ _ _ _) _ _ _ _ E4 _) |].
  - split; rewrite <- ?Hg, <- ?Hc; try done.
    + rewrite <- Hg in Ha. cbn in *. by rewrite Er.
    + unfold ctl_of. cbn. by rewrite land_ldiff.
    + unfold quiet in *. cbn. rewrite land_ldiff by done. rewrite Ht in *. cbn. intuition.
  - done.
Qed.

(** A flag that is not set stays so. *)
Lemma ldiff_unset x flag : pause_flag flag -> Z.land x flag <> flag -> Z.ldiff x flag = x.
Proof.
  intros Hf Hno.
  assert (exists k, 0 <= k /\ flag = 2 ^ k) as (k & Hk & ->).
  { destruct Hf as [-> | ->]; [exists (Z.log2 RD_KAFKA_TOPPAR_F_APP_PAUSE)
      | exists (Z.log2 RD_KAFKA_TOPPAR_F_LIB_PAUSE)]; by split. }
  assert (Z.testbit x k = false) as Hb.
  { destruct (Z.testbit x k) eqn:E; [| done]. destruct Hno. apply Z.bits_inj'. intros n Hn.
    rewrite Z.land_spec, Z.pow2_bits_eqb by done. destruct (Z.eqb_spec k n) as [-> | _]; [by rewrite E | by rewrite andb_false_r]. }
  apply Z.bits_inj'. intros n Hn. rewrite Z.ldiff_spec, Z.pow2_bits_eqb by done.
  destruct (Z.eqb_spec k n) as [-> | _]; [by rewrite Hb | by rewrite andb_true_r].
Qed.

Lemma pause_serves now pause flag rko s s' l a c g ops ov :
  mstate s l a c g ops ov -> op_fits c (Pause pause flag) ->
  rd_kafka_toppar_pause_resume fuel conf rkb_internal now pause flag rko s = Some s' ->
  serves s' l a (ctl_op c (Pause pause flag)) g ops (rko_version rko).
Proof.
  intros Hm Hfit. unfold rd_kafka_toppar_pause_resume.
  destruct (Fetcher.rd_kafka_toppar_op_version_bump _ _ _) as [s1 |] eqn:Eb; [| done].
  destruct (bump_mstate _ _ _ _ _ _ _ _ _ Hm Eb) as (l1 & Hm1 & Hn). clear Hm Eb s ov.
  pose proof Hm1 as [_ _ Hc _ _ _ _]. rewrite Hconsumer. cbn [andb].
  destruct pause; cbn [negb andb].
  - apply (mstate_add_flag _ _ _ _ _ _ _ flag) in Hm1; [| exact Hfit].
    set (s2 := add_rktp_flag flag s1) in *. pose proof Hm1 as [_ Ha2 Hc2 Hg2 _ _ _].
    rewrite <- Hg2 in Ha2. change (fs_app s2 = Some a) in Ha2. rewrite Ha2.
    set (s3 := if negb _ then _ else s2). intros E.
    assert (mstate s3 (l ++ l1) a (ctl_op c (Pause true flag)) g ops (rko_version rko)) as Hm3.
    { unfold s3. cbn [ctl_op]. rewrite <- Hc in *. cbn [c_app ctl_of c_next] in *.
      destruct (_ =? _); [exact Hm1 | by apply mstate_next with (v := rktp_app_offset a) in Hm1]. }
    clearbody s3. pose proof Hm3 as [Hq Ha Hc3 Hg Ho Hv Hqt].
    destruct (rd_kafka_q_purge_toppar_version _ _ _ _ _) as [qs |] eqn:Ep; [| done].
    injection E as <-. rewrite <- Hg in Hq.
    apply (purge_fetchq _ _ _ (l ++ l1)) in Ep as (tk & l' & El & _ & Hl' & Et); [| exact Hq].
    apply (serves_more _ _ l1); [done |]. exists l', a. split; [| split; [done |]].
    + split; try done; cbn.
      * by rewrite <- Hg.
      * by rewrite Et.
    + intros self fv H. rewrite El in H. by apply Forall_app in H as [_ H].
  - destruct Hfit as (Hflag & Hnext).
    assert (Z.land (rktp_flags (fs_rktp s1)) flag = Z.land (c_flags c) flag) as Hset.
    { rewrite <- Hc. cbn. rewrite <- Z.land_assoc. f_equal. by destruct Hflag as [-> | ->]. }
    rewrite Hset. destruct (Z.eqb_spec (Z.land (c_flags c) flag) flag) as [_ | Hno]; cbn [negb andb]; cbv iota; cycle 1.
    { intros [= <-]. apply (serves_more _ _ l1); [done |]. exists (l ++ l1), a. split; [| done].
      cbn [ctl_op]. rewrite ldiff_unset by done. by destruct c. }
    apply (mstate_del_flag _ _ _ _ _ _ _ flag) in Hm1; [| exact Hflag].
    set (s2 := del_rktp_flag flag s1) in *. cbn [negb].
    replace (_ && _ && _) with false; cycle 1.
    { pose proof Hm1 as [_ _ Hc2 _ _ _ Hqt]. rewrite (quiet_no_wait s2 Hqt).
      rewrite (not_state _ _ _ _ _ _ _ _ Hm1). cbn [c_state]. rewrite orb_false_r.
      destruct (Z.eqb_spec (c_state c) RD_KAFKA_TOPPAR_FETCH_ACTIVE) as [Ea | Ea];
        [| by rewrite andb_false_r].
      apply Hnext, Z.eqb_neq in Ea. rewrite <- Hc in Ea. cbn in Ea. cbn. rewrite Ea.
      by rewrite andb_false_r. }
    intros [= <-]. apply (serves_more _ _ l1); [done |]. by exists (l ++ l1), a.
Qed.

(** The main thread takes the next op. *)
Lemma ops_serve_spec now op s s' l a c g ops ov V c' :
  mstate s l a c g (op :: ops) ov -> 1 <= ov -> plan V ov c (op :: ops) c' ->
  toppar_ops_serve fuel conf file rkb_internal rkb_nodeid now s = Some s' ->
  exists c1 v1, ov < v1 /\ plan V v1 c1 ops c' /\ serves s' l a c1 g ops v1.
Proof.
  intros Hm Hov Hp E. inversion Hp as [| ? ? ? ? ? Hv Hfit Hp']; subst.
  exists (ctl_op c (to_u op)), (rko_version (to_rko op)). split; [done |]. split; [done |].
  unfold toppar_ops_serve in E. pose proof Hm as [Hq Ha Hc Hg Ho Hov' Hqt]. rewrite Ho in E.
  set (s1 := fs_upd (set_ops ops) s) in *.
  assert (mstate s1 l a c g ops ov) as Hm1 by (split; done).
  unfold toppar_op_handle in E.
  assert (rd_kafka_toppar_op_serve fuel conf file rkb_internal now op s1 = Some s') as E1
    by (by destruct (to_u op)).
  clear E. unfold rd_kafka_toppar_op_serve in E1.
  replace (rd_kafka_op_version_outdated _ _ _) with false in E1; cycle 1.
  { unfold rd_kafka_op_version_outdated. cbn. rewrite Hov'. ztest. done. }
  destruct (to_u op) as [offset rkcg | | offset | pause flag | | | |] eqn:Eu; try done.
  - destruct (rd_kafka_toppar_fetch_start _ _ _ _ _ _ _ _ _) as [s2 |] eqn:E2; [| done].
    injection E1 as <-. by eapply start_serves.
  - destruct (rd_kafka_toppar_fetch_stop _ _ _ _ _) as [s2 |] eqn:E2; [| done].
    injection E1 as <-. by eapply stop_serves.
  - destruct (rd_kafka_toppar_seek _ _ _ _ _ _ _) as [s2 |] eqn:E2; [| done].
    injection E1 as <-. by eapply seek_serves.
  - destruct (rd_kafka_toppar_pause_resume _ _ _ _ _ _ _ _) as [s2 |] eqn:E2; [| done].
    injection E1 as <-. destruct (pause_serves _ _ _ _ _ _ _ _ _ _ _ _ Hm1 Hfit E2) as (l' & a' & H1 & H2).
    exists l', a'. split; [| done]. by eapply mstate_frame; [apply reply_frame |].
Qed.

End MainThread.

(** ** What the steps of a run keep

    The account of a partition that is fetched from absolute offsets: what is asked of
    it, the position up to which the application has the messages, and how the state of
    FetchRun leads there.  Each kind of step keeps it. *)

(** What the partition has been asked for: whether it is to run, its pause flags, the
    offset of the last start or seek, how often it has been resumed since without being
    paused, and the messages taken since. *)
Record fetch_view := mk_view {
  v_running : bool;
  v_flags : Z;
  v_from : Z;
  v_again : nat;
  v_got : list Z }.

(** The messages of [log] from [from] up to [e], with at most [n] times some of them
    again: the log in [n + 1] stretches, each beginning no later than the one before it
    has ended. *)
Inductive stretches (log : list (Z * bool)) (from : Z) : nat -> list Z -> Z -> Prop :=
  | stretch_one e : from <= e -> stretches log from 0 (data (between log from e)) e
  | stretch_more n got a b e :
      stretches log from n got a -> from <= b <= a -> b <= e ->
      stretches log from (S n) (got ++ data (between log b e)) e.

Section Steps.
Context (log : list (Z * bool)).
Hypothesis Hlog : log_ok log.

Lemma stretches_ext from n got e e' :
  stretches log from n got e -> e <= e' -> stretches log from n (got ++ data (between log e e')) e'.
Proof.
  destruct 1 as [e Hf | n got a b e H Hb He]; intros Hle; rewrite <- ?app_assoc, <- data_app, <- between_app;
    try apply Hlog; try lia; [apply stretch_one; lia | eapply stretch_more; [exact H | done | lia]].
Qed.

Lemma stretches_nil from : stretches log from 0 [] from.
Proof. pose proof (stretch_one log from from ltac:(lia)) as H. by rewrite between_empty in H by lia. Qed.

Lemma stretches_le from n got e : stretches log from n got e -> from <= e.
Proof. induction 1; lia. Qed.

(** What the application has: up to [e], and it is to go on from [pos]. *)
Definition given (w : fetch_view) (pos e : Z) : Prop :=
  v_from w <= pos <= e /\
  exists n, stretches log (v_from w) n (v_got w) e /\ (n <= v_again w)%nat /\
            (pos < e -> (n < v_again w)%nat).

(** What the ops that are outstanding lead to.  [cur]: the latest version is fetched. *)
Definition leads (w : fetch_view) (pos e : Z) (cur : Prop) (c : ctl) : Prop :=
  c_flags c = v_flags w /\
  if v_running w then
    c_state c = RD_KAFKA_TOPPAR_FETCH_ACTIVE /\
    (c_app c = RD_KAFKA_OFFSET_INVALID \/ c_app c = pos \/ c_app c = e) /\
    (c_next c = pos \/ cur /\ c_app c = pos /\ e = pos /\ c_flags c = 0 /\ v_from w <= c_next c <= pos)
  else
    (c_state c = RD_KAFKA_TOPPAR_FETCH_NONE \/ c_state c = RD_KAFKA_TOPPAR_FETCH_STOPPED) /\
    c_app c = RD_KAFKA_OFFSET_INVALID.

(** The fetch queue has what has been fetched and not been taken. *)
Definition current (w : fetch_view) (pos V : Z) (l : list rd_kafka_op) (c : ctl) (g : fetching)
    (sent : list fetch_sent) : Prop :=
  v_running w = true /\ live V l = between log pos (g_fetch_offset g) /\
  pos <= g_fetch_offset g /\ c_next c = g_last_next g /\
  Forall (fun f => sent_version f = V -> sent_offset f <= g_fetch_offset g) sent /\
  (v_flags w <> 0 -> g_fetch g = false /\ g_fetch_offset g = pos /\
                     Forall (fun f => sent_version f <> V) sent).

(** [V] is the version of the latest op, [ov] that of the last op the main thread has
    taken. *)
Record account (w : fetch_view) (pos e : Z) (sent : list fetch_sent) (l : list rd_kafka_op)
    (V : Z) (c : ctl) (g : fetching) (ops : list toppar_op) (ov : Z) : Prop := mk_account {
  i_l : Forall (fq_op (g_self g) (g_fetch_version g)) l;
  i_ver : 0 <= g_fetch_version g <= ov /\ 1 <= ov /\ V < 2 ^ 31;
  i_plan : exists c', plan V ov c ops c' /\ leads w pos e (g_fetch_version g = V) c';
  i_sent : Forall (fun f => 0 < sent_version f <= g_fetch_version g) sent;
  i_fetch : g_fetch g = true -> 0 < g_fetch_version g;
  i_cur : g_fetch_version g = V -> current w pos V l c g sent;
  i_from : 0 <= v_from w;
  i_got : given w pos e }.

Lemma fits_after u w pos e cur c :
  0 <= v_from w -> given w pos e -> leads w pos e cur c ->
  match u with
  | FetchStart offset _ => 0 <= offset /\ v_running w = false
  | FetchStop => True
  | Seek offset => 0 <= offset /\ v_running w = true
  | Pause _ flag => pause_flag flag
  | _ => False
  end -> op_fits c u.
Proof.
  intros Hfr [Hpos _] [Hf H]. destruct u as [off ? | | off | [|] flag | | | |]; cbn; try done.
  - intros [? E]. rewrite E in H. tauto.
  - intros [? E]. rewrite E in H. tauto.
  - intros Hflag. split; [done |]. intros Ha. unfold RD_KAFKA_OFFSET_INVALID.
    destruct (v_running w); [| by destruct H as [[E | E] _]; rewrite E in Ha].
    destruct H as (_ & _ & [-> | (_ & _ & _ & _ & ?)]); lia.
Qed.

(** What asking for [u] makes of what has been asked for. *)
Definition asks (w w' : fetch_view) (u : toppar_op_u) : Prop :=
  forall pos e cur c, given w pos e -> leads w pos e cur c ->
    op_fits c u /\ exists pos' e', given w' pos' e' /\ leads w' pos' e' False (ctl_op c u).

(** An op is asked for: it gets the next version. *)
Lemma account_request w w' pos e sent l V c g ops ov op :
  account w pos e sent l V c g ops ov -> V < 2 ^ 31 - 1 -> rko_version (to_rko op) = V + 1 ->
  0 <= v_from w' -> asks w w' (to_u op) ->
  exists pos' e', account w' pos' e' sent l (V + 1) c g (ops ++ [op]) ov.
Proof.
  intros [Hl Hv (c' & Hp & Hld) Hs Hf Hc Hfr Hg] HV Ev Hfr' Hop.
  destruct (Hop _ _ _ _ Hg Hld) as (Hfit & pos' & e' & Hg' & Hld'). pose proof (plan_le _ _ _ _ _ Hp).
  exists pos', e'. split; try done.
  - lia.
  - exists (ctl_op c' (to_u op)). split; [by apply (plan_snoc V); [| lia |] |].
    destruct Hld' as [H1 H2]. split; [done |]. destruct (v_running w'); [| done]. tauto.
  - lia.
Qed.

(** The main thread takes an op. *)
Lemma account_serve w pos e sent l V c g op ops ov l' c1 v1 :
  account w pos e sent l V c g (op :: ops) ov -> ov < v1 ->
  (exists c', plan V v1 c1 ops c' /\ leads w pos e (g_fetch_version g = V) c') ->
  (forall self fv, Forall (fq_op self fv) l -> Forall (fq_op self fv) l') ->
  account w pos e sent l' V c1 g ops v1.
Proof.
  intros [Hl Hv _ Hs Hf Hc Hfr Hg] Hv1 (c' & Hp1 & Hld) Hl'.
  pose proof (plan_le _ _ _ _ _ Hp1). split; try done.
  - by apply Hl'.
  - lia.
  - by exists c'.
  - lia.
Qed.

(** Ops that are no messages come. *)
Lemma account_no_message w pos e sent l l' V c g ops ov :
  account w pos e sent l V c g ops ov -> Forall no_message l' ->
  account w pos e sent (l ++ l') V c g ops ov.
Proof.
  intros [Hl Hv Hp Hs Hf Hc Hfr Hg] Hn. split; try done.
  - apply Forall_app. split; [done | by apply no_message_fq].
  - intros E. destruct (Hc E) as (H1 & H2 & H3). split; [done |]. split; [| done].
    by rewrite live_app, (no_message_live _ _ Hn), app_nil_r.
Qed.

(** *** Fetch requests and responses *)

Lemma account_sent w pos e sent sent' l V c g ops ov :
  account w pos e sent l V c g ops ov ->
  (forall P : fetch_sent -> Prop, Forall P sent -> Forall P sent') ->
  account w pos e sent' l V c g ops ov.
Proof.
  intros [Hl Hv Hp Hs Hf Hc Hfr Hg] Hs'. split; try done; [by apply Hs' |].
  intros E. destruct (Hc E) as (H1 & H2 & H3 & H4 & H5 & H6).
  repeat (split; [done |]). split; [by apply Hs' |]. intros Hn.
  destruct (H6 Hn) as (? & ? & ?). split; [done |]. split; [done | by apply Hs'].
Qed.

Lemma Forall_drop_nth {A} (P : A -> Prop) k l : Forall P l -> Forall P (drop_nth k l).
Proof. intros H. apply Forall_app. split; [by apply Forall_take | by apply Forall_drop]. Qed.

Lemma account_send w pos e sent l V c g ops ov rkb :
  account w pos e sent l V c g ops ov -> g_fetch g = true ->
  account w pos e (sent ++ [mk_sent rkb (g_fetch_offset g) (g_fetch_version g)]) l V c g ops ov.
Proof.
  intros [Hl Hv Hp Hs Hf Hc Hfr Hg] Ht. split; try done.
  - apply Forall_app. split; [done |]. constructor; [cbn; split; [by apply Hf | lia] | done].
  - intros E. destruct (Hc E) as (H1 & H2 & H3 & H4 & H5 & H6).
    repeat (split; [done |]). split.
    + apply Forall_app. split; [done |]. constructor; [cbn; lia | done].
    + intros Hn. destruct (H6 Hn) as (Ht' & _). congruence.
Qed.

Definition g_at (g : fetching) (offset : Z) : fetching :=
  mk_fetching (g_self g) (g_fetchq g) (g_fetch_version g) (g_fetch g) (g_last_next g) offset.

Lemma account_fetched w pos e sent l V c g ops ov f t id new fo' :
  account w pos e sent l V c g ops ov -> f ∈ sent -> g_fetch_version g <= sent_version f ->
  rktp_self t = g_self g ->
  (sent_offset f <= g_fetch_offset g ->
     g_fetch_offset g <= fo' /\ msgs_of new = between log (g_fetch_offset g) fo') ->
  account w pos e sent (l ++ ops_of_fetch t id (sent_version f) new) V c (g_at g fo') ops ov.
Proof.
  intros [Hl Hv Hp Hs Hf Hc Hfr Hg] Hin Hver Hself Hread.
  pose proof Hs as Hs'. rewrite Forall_forall in Hs'. apply list_elem_of_In in Hin as Hin'.
  specialize (Hs' f Hin'). cbn in Hs'. assert (sent_version f = g_fetch_version g) as Ev by lia.
  destruct (ops_of_fetch_spec t id (sent_version f) new V (g_fetch_version g)) as [Hfq Hlive]; [lia |].
  rewrite Hself in Hfq. split; try done.
  - by apply Forall_app.
  - cbn. intros E. destruct (Hc E) as (H1 & H2 & H3 & H4 & H5 & H6).
    assert (sent_offset f <= g_fetch_offset g) as Hoff.
    { rewrite Forall_forall in H5. apply H5; [done | lia]. }
    destruct (Hread Hoff) as [Hle Hms]. split; [done |]. split; [| split; [| split; [done |]]].
    + rewrite live_app, Hlive, H2, Ev, E, Z.eqb_refl, Hms. cbn. symmetry.
      apply between_app; [apply Hlog | lia].
    + cbn. lia.
    + split; [eapply Forall_impl; [| exact H5]; cbn; intros x Hx Ex; specialize (Hx Ex); lia |].
      intros Hn. destruct (H6 Hn) as (_ & _ & Hno). rewrite Forall_forall in Hno.
      exfalso. apply (Hno f Hin'). lia.
Qed.

(** *** The decision to fetch *)

Definition g_fetches (g : fetching) (f : bool) : fetching :=
  mk_fetching (g_self g) (g_fetchq g) (g_fetch_version g) f (g_last_next g) (g_fetch_offset g).

Lemma account_goes_on w pos e sent l V c g ops ov f :
  account w pos e sent l V c g ops ov -> (f = true -> ov <= g_fetch_version g /\ c_flags c = 0) ->
  account w pos e sent l V c (g_fetches g f) ops ov.
Proof.
  intros [Hl Hv Hp Hs Hf Hc Hfr Hg] Hft. split; try done.
  - cbn. intros E. apply Hft in E. lia.
  - cbn. intros E. destruct (Hc E) as (H1 & H2 & H3 & H4 & H5 & H6).
    split; [done |]. split; [done |]. split; [done |]. split; [done |]. split; [done |].
    intros Hn. destruct (H6 Hn) as (_ & ? & ?). split; [| done]. cbn. destruct f; [| done].
    destruct Hft as [_ Ez]; [done |]. destruct Hp as (c' & Hp & [Hcf _]).
    apply plan_nil in Hp as [_ ->]; [| pose proof (plan_le _ _ _ _ _ Hp); lia]. congruence.
Qed.

Definition g_start (g : fetching) (version : Z) (f : bool) (offset : Z) : fetching :=
  mk_fetching (g_self g) (g_fetchq g) version f offset offset.

(** Fetching starts over only for a later version. *)
Lemma account_starts w pos e sent taken l V c g ops ov f :
  account w pos e sent (taken ++ l) V c g ops ov ->
  (ov > g_fetch_version g \/ c_next c <> g_last_next g \/ g_fetch_offset g = RD_KAFKA_OFFSET_INVALID) ->
  c_state c = RD_KAFKA_TOPPAR_FETCH_ACTIVE -> (f = true -> c_flags c = 0) ->
  account w pos e sent l V c (g_start g ov f (c_next c)) ops ov.
Proof.
  intros [Hl Hv (c' & Hp & Hld) Hs Hf Hc Hfr Hg] Hover Ha Hft.
  pose proof (plan_le _ _ _ _ _ Hp) as HV.
  assert (0 <= pos) as Hpos by (destruct Hg as [? _]; lia).
  assert (g_fetch_version g <> V) as Hne.
  { intros E. destruct (Hc E) as (H1 & H2 & H3 & H4 & _). destruct Hover as [H | [H | H]].
    - lia.
    - done.
    - unfold RD_KAFKA_OFFSET_INVALID in H. lia. }
  apply Forall_app in Hl as [_ Hl].
  assert (Forall (fq_op (g_self g) ov) l) as Hl'.
  { eapply Forall_impl; [| exact Hl]. intros o. apply fq_op_mono. lia. }
  split; try done; cbn.
  - lia.
  - exists c'. split; [done |]. destruct Hld as [H1 H2]. split; [done |].
    destruct (v_running w); [| done]. destruct H2 as (? & ? & H). split; [done |]. split; [done |].
    left. destruct H as [H | [H _]]; [done | by destruct Hne].
  - eapply Forall_impl; [| exact Hs]. cbn. lia.
  - lia.
  - intros E. apply plan_nil in Hp as [-> ->]; [| done]. destruct Hld as [Hfl H].
    destruct (v_running w) eqn:Er; cycle 1.
    { destruct H as [[E' | E'] _]; by rewrite E' in Ha. }
    destruct H as (_ & _ & H). destruct H as [Hn | (? & _)]; [| by destruct Hne].
    split; [done |]. cbn. rewrite Hn. split; [| split; [lia | split; [done |]]].
    + rewrite between_empty by lia. eapply live_later; [| exact Hl]. lia.
    + split; [eapply Forall_impl; [| exact Hs]; cbn; lia |]. intros Hnz.
      split; [destruct f; [| done]; rewrite Hft in Hfl by done; congruence |]. split; [done |].
      eapply Forall_impl; [| exact Hs]. cbn. lia.
Qed.

(** *** Taking messages *)

(** How far messages can be taken. *)
Definition limit (pos V : Z) (g : fetching) : Z :=
  if g_fetch_version g =? V then g_fetch_offset g else pos.

Lemma account_live w pos e sent l V c g ops ov :
  account w pos e sent l V c g ops ov ->
  live V l = between log pos (limit pos V g) /\ pos <= limit pos V g /\ g_fetch_version g <= V.
Proof.
  intros [Hl Hv (c' & Hp & _) Hs Hf Hc Hfr Hg]. pose proof (plan_le _ _ _ _ _ Hp).
  unfold limit. destruct (Z.eqb_spec (g_fetch_version g) V) as [E | E].
  - destruct (Hc E) as (_ & ? & ? & _). split; [done |]. split; [done | lia].
  - rewrite between_empty by lia. split; [| lia]. eapply live_later; [| exact Hl]. lia.
Qed.

Definition view_got (w : fetch_view) (new : list Z) : fetch_view :=
  mk_view (v_running w) (v_flags w) (v_from w) (v_again w) (v_got w ++ new).

Lemma given_got w pos pos' e :
  given w pos e -> pos < pos' -> given (view_got w (data (between log pos pos'))) pos' pos'.
Proof.
  intros [Hpos (n & Hst & Hn & Hlt)] Hp. split; [cbn; lia |]. cbn.
  destruct (Z.eq_dec pos e) as [-> | Hne].
  - exists n. split; [apply stretches_ext; [done | lia] |]. split; [done | lia].
  - exists (S n). split; [eapply stretch_more; [exact Hst | lia | lia] |]. split; [apply Hlt | ]; lia.
Qed.

Lemma view_got_nil w : view_got w [] = w.
Proof. destruct w. unfold view_got. cbn. by rewrite app_nil_r. Qed.

(** Ops are taken off the fetch queue that are no messages of the latest version. *)
Lemma account_took w pos e sent l l' V c g ops ov :
  account w pos e sent l V c g ops ov -> Forall (fq_op (g_self g) (g_fetch_version g)) l' ->
  live V l' = between log pos (limit pos V g) -> account w pos e sent l' V c g ops ov.
Proof.
  intros [Hl Hv Hp Hs Hf Hc Hfr Hg] Hl' Hlive. split; try done. intros E.
  destruct (Hc E) as (H1 & H2 & H3). split; [done |]. split; [| done].
  by rewrite Hlive, <- H2; unfold limit; rewrite E, Z.eqb_refl.
Qed.

Lemma account_polled w pos pos' e ao new sent l l' V c g ops ov :
  account w pos e sent l V c g ops ov -> Forall (fq_op (g_self g) (g_fetch_version g)) l' ->
  live V l' = between log pos' (limit pos V g) -> pos <= pos' <= limit pos V g ->
  new = data (between log pos pos') ->
  (pos' = pos /\ ao = c_app c \/ ao = pos' /\ pos < pos') ->
  exists e',
    account (view_got w new) pos' e' sent l' V (mk_ctl (c_state c) ao (c_next c) (c_flags c)) g ops ov.
Proof.
  intros Ha Hl' Hlive Hpos -> [[-> ->] | [-> Hlt]].
  { exists e. rewrite between_empty by lia. rewrite view_got_nil. destruct c. by eapply account_took. }
  exists pos'. pose proof Ha as [Hl Hv (c' & Hp & Hld) Hs Hf Hc Hfr Hg].
  unfold limit in Hlive, Hpos. destruct (Z.eqb_spec (g_fetch_version g) V) as [E | E]; [| lia].
  destruct (Hc E) as (H1 & H2 & H3 & H4 & H5 & H6).
  pose proof (plan_le _ _ _ _ _ Hp) as HV. apply plan_nil in Hp as [-> ->]; [| lia].
  split; try done; cbn; try lia.
  - eexists. split; [apply plan_done; lia |]. destruct Hld as [Hfl Hld]. split; [done |].
    cbn. rewrite H1 in *. destruct Hld as (Hst & _ & Hnx). split; [done |]. split; [auto |].
    destruct (Z.eq_dec (v_flags w) 0) as [Hz | Hz].
    + right. split; [done |]. split; [done |]. split; [done |]. split; [congruence |].
      destruct Hg as [? _]. destruct Hnx as [-> | (_ & _ & _ & _ & ?)]; lia.
    + destruct (H6 Hz) as (_ & ? & _). lia.
  - intros _. split; [done |]. split; [done |]. split; [cbn; lia |]. split; [done |].
    split; [done |]. intros Hz. destruct (H6 Hz) as (? & ? & ?). split; [done |].
    split; [lia | done].
  - by eapply given_got.
Qed.

End Steps.
