(* ===== verification/FetchProps.v ===== *)
(** * What a consumer is given of a partition

    Runs in which a partition is started and seeked in at absolute offsets, paused,
    resumed and stopped, in any order with the main thread, the brokers, their responses
    and the application's polls. *)

From stdpp Require Import gmap.
From S2P Require Import Prelude Producer RdBuf Slice KafkaBuf MsgReader Queue QueueFacts FetchState Fetcher FetchBroker FetchRun FetchFacts FetchInv.

Section Runs.
Context (fuel : nat) (conf : consumer_conf) (file : offset_file).
Context (rkb_internal : nat -> bool) (rkb_nodeid : nat -> Z).
Context (find_by_nodeid : Z -> option nat) (internal_rkb rkq : nat).
Context (qconf : q_conf) (call : q_call -> q_state -> q_state).
Context (op_cb : nat -> q_state -> nat -> rd_kafka_op -> op_result) (serve_cb : nat -> q_serve_cb).
(** The partition as it is made, the brokers, and the log of the partition. *)
Context (self : nat) (topic : bytes) (partition : Z) (fetchq : nat) (max_bytes : Z).
Context (rkbs : gmap nat fetch_broker) (log : list (Z * bool)).

(** The versions of ops are below 2^31. *)
Definition room (r : fetch_run) : Prop :=
  exists a, fs_app (run_s r) = Some a /\ rktp_version a < 2 ^ 31 - 1.

(** What may be asked for: starts at absolute offsets of a partition that does not run,
    seeks to absolute offsets in one that runs, stops, pauses and resumes at any time.
    And what a broker answers: the message set of a response is read as the log has it,
    and no offset is out of its range. *)
Definition permitted (r : fetch_run) (w : fetch_view) (act : fetch_act) : Prop :=
  match act with
  | AStart offset _ _ => 0 <= offset /\ v_running w = false /\ room r
  | AStop _ => room r
  | ASeek offset _ => 0 <= offset /\ v_running w = true /\ room r
  | APauseResume _ flag _ => pause_flag flag /\ room r
  | AFetched k hdr parse =>
      fp_ErrorCode hdr <> RD_KAFKA_RESP_ERR_OFFSET_OUT_OF_RANGE /\
      forall f, run_sent r !! k = Some f -> reads log (sent_offset f) (fp_aborted_txns hdr) parse
  | _ => True
  end.

(** A running partition that is not paused is resumed. *)
Definition resumed_again (w : fetch_view) : nat :=
  if v_running w && (v_flags w =? 0) then S (v_again w) else v_again w.

(** What has been asked for then, with the messages [new] of the step. *)
Definition view_step (w : fetch_view) (act : fetch_act) (new : list Z) : fetch_view :=
  match act with
  | AStart offset _ _ => mk_view true (v_flags w) offset 0 []
  | AStop _ => mk_view false (v_flags w) (v_from w) (v_again w) (v_got w)
  | ASeek offset _ => mk_view true (v_flags w) offset 0 []
  | APauseResume true flag _ =>
      mk_view (v_running w) (Z.lor (v_flags w) flag) (v_from w) (v_again w) (v_got w)
  | APauseResume false flag _ =>
      mk_view (v_running w) (Z.ldiff (v_flags w) flag) (v_from w) (resumed_again w) (v_got w)
  | _ => view_got w new
  end.

Abbreviation step := (fetch_step fuel conf file rkb_internal rkb_nodeid find_by_nodeid internal_rkb
                        rkq qconf call op_cb serve_cb).

Definition new_of (r r' : fetch_run) : list Z := drop (length (run_got r)) (run_got r').

Inductive fetch_runs : fetch_run -> fetch_view -> Prop :=
  | runs_new : fetch_runs (mk_run (fetcher_new self topic partition fetchq max_bytes) rkbs [] [])
                 (mk_view false 0 0 0 [])
  | runs_step r w now act r' :
      fetch_runs r w -> permitted r w act -> step now act r = Some r' ->
      fetch_runs r' (view_step w act (new_of r r')).

Hypothesis Hconsumer : cc_is_consumer conf = true.
Hypothesis Hlog : log_ok log.
Hypothesis Hrkq : rkq <> fetchq.

(** The invariant of runs. *)
Definition inv (r : fetch_run) (w : fetch_view) : Prop :=
  exists pos e l a c g ops ov,
    mstate (run_s r) l a c g ops ov /\ account log w pos e (run_sent r) l (rktp_version a) c g ops ov /\
    g_self g = self /\ g_fetchq g = fetchq.

Lemma inv_new : inv (mk_run (fetcher_new self topic partition fetchq max_bytes) rkbs [] [])
                  (mk_view false 0 0 0 []).
Proof.
  set (a := mk_op_toppar 1 RD_KAFKA_OFFSET_INVALID RD_KAFKA_OFFSET_INVALID).
  set (t := rd_kafka_toppar_new0 self topic partition fetchq max_bytes).
  exists 0, 0, [], a, (ctl_of t a), (fetching_of t), [], 1. split; [| split; [| done]].
  - split; [| | done | done | done | done |].
    + exists rd_kafka_q_init0. split; [apply lookup_singleton_eq | done].
    + apply lookup_singleton_eq.
    + unfold quiet. cbn. by repeat split; auto.
  - split; try done; cbn.
    + eexists. split; [by apply plan_done |]. split; [done |]. cbn. auto.
    + split; [done |]. exists 0%nat. split; [by apply stretches_nil | split; [done | lia]].
Qed.

(** *** Steps of the broker threads *)

Lemma frame_q_inv r w s' sent :
  inv r w -> frame_q (run_s r) s' -> (forall P : fetch_sent -> Prop, Forall P (run_sent r) -> Forall P sent) ->
  inv (mk_run s' (run_rkbs r) sent (run_got r)) w.
Proof.
  intros (pos & e & l & a & c & g & ops & ov & Hm & Ha & Hn) Hf Hs.
  destruct (mstate_frame_q _ _ _ _ _ _ _ _ Hm Hf) as (l' & Hm' & Hl').
  exists pos, e, (l ++ l'), a, c, g, ops, ov. split; [done |]. split; [| done].
  apply account_no_message; [| done]. by eapply account_sent.
Qed.

Lemma mstate_fetches s s' f l a c g ops ov :
  mstate s l a c g ops ov -> fs_qs s' = fs_qs s ->
  core_of (fs_rktp s') = core_of (set_fetch f (fs_rktp s)) -> mstate s' l a c (g_fetches g f) ops ov.
Proof.
  intros [Hq Ha Hc Hg Ho Hv Hqt] E C.
  eapply (mstate_frame (fs_upd (set_fetch f) s)); [done |]. split; try done. by rewrite <- Hg.
Qed.

Lemma not_paused s l a c g ops ov :
  mstate s l a c g ops ov -> RD_KAFKA_TOPPAR_IS_PAUSED (fs_rktp s) = false -> c_flags c = 0.
Proof.
  intros [_ _ <- _ _ _ _]. unfold RD_KAFKA_TOPPAR_IS_PAUSED, ctl_of. cbn [c_flags].
  unfold PAUSED_MASK. intros H. by apply negb_false_iff, Z.eqb_eq in H.
Qed.

Lemma mstate_starts s s' l a c g ops ov :
  mstate s l a c g ops ov -> fetch_set_start fuel s = Some s' ->
  exists taken l', l = taken ++ l' /\
    mstate s' l' a c (g_start g ov (g_fetch g) (c_next c)) ops ov.
Proof.
  intros [Hq Ha Hc Hg Ho Hv Hqt] E. rewrite <- Hg in Hq.
  apply (set_start_spec _ _ _ l) in E as (Et & C & tk & l' & -> & Hl'); [| exact Hq].
  exists tk, l'. split; [done |]. set (t1 := set_fetch_version _ _) in C.
  assert (mstate (mk_fs t1 (fs_qs s') [] 0) l' a c (g_start g ov (g_fetch g) (c_next c)) ops ov) as H.
  { rewrite <- Hg in Ha |- *. split; cbn; try done.
    - by rewrite Et.
    - by rewrite <- Hc, <- Hv. }
  eapply mstate_frame; [| exact H]. by split.
Qed.

Lemma start_over_spec s l a c g ops ov :
  mstate s l a c g ops ov ->
  if fetch_start_over s
  then ov > g_fetch_version g \/ c_next c <> g_last_next g \/ g_fetch_offset g = RD_KAFKA_OFFSET_INVALID
  else ov <= g_fetch_version g.
Proof.
  intros [_ _ <- <- _ <- _]. unfold fetch_start_over. cbn.
  destruct (_ >? _) eqn:E1; [left; zlia |]. cbn.
  destruct (Z.eqb_spec (rktp_next_offset (fs_rktp s)) (rktp_last_next_offset (fs_rktp s)));
    cbn; [| by right; left].
  destruct (_ =? _) eqn:E3; [right; right; zlia | zlia].
Qed.

Lemma decided_inv r w s' :
  inv r w -> decided fuel (run_s r) s' -> inv (mk_run s' (run_rkbs r) (run_sent r) (run_got r)) w.
Proof.
  intros (pos & e & l & a & c & g & ops & ov & Hm & Ha & Hn) (s0 & s1 & f & H0 & H1 & Eq & C & Hf).
  apply (mstate_frame _ _ _ _ _ _ _ _ H0) in Hm.
  pose proof (start_over_spec _ _ _ _ _ _ _ Hm) as Hso. destruct H1 as [-> | (Hact & Hover & Hst)].
  - exists pos, e, l, a, c, (g_fetches g f), ops, ov.
    split; [by eapply mstate_fetches |]. split; [| done]. apply account_goes_on; [done |].
    intros ->. destruct Hf as (Hp & _ & Hs); [done |]. split; [| by eapply not_paused].
    destruct Hs as [Hs | Hs]; [by rewrite Hs in Hso |].
    destruct (mstate_starts _ _ _ _ _ _ _ _ Hm Hs) as (tk & l' & _ & [_ _ _ Hg' _ _ _]).
    destruct Hm as [_ _ _ Hg _ _ _]. rewrite Hg in Hg'. by rewrite Hg'.
  - rewrite Hover in Hso. destruct (mstate_starts _ _ _ _ _ _ _ _ Hm Hst) as (tk & l' & -> & Hm').
    exists pos, e, l', a, c, (g_start g ov f (c_next c)), ops, ov. split; [| split; [| done]].
    + by eapply (mstate_fetches s1 _ _ _ _ _ (g_start g ov (g_fetch g) (c_next c))).
    + eapply account_starts; [exact Ha | exact Hso | |].
      * rewrite (not_state _ _ _ _ _ _ _ _ Hm) in Hact. by apply Z.eqb_eq in Hact.
      * intros ->. destruct Hf as (Hp & _); [done |]. by eapply not_paused.
Qed.

(** *** Responses *)

Lemma fetched_inv r w now nodeid rkb hdr p parse s' res f k :
  inv r w -> run_sent r !! k = Some f ->
  fp_ErrorCode hdr <> RD_KAFKA_RESP_ERR_OFFSET_OUT_OF_RANGE -> reads log (sent_offset f) (fp_aborted_txns hdr) parse ->
  fetch_partition_handle fuel conf rkb_internal find_by_nodeid internal_rkb now nodeid rkb rkq hdr
    (Some (p, sent_version f)) parse (run_s r) = Some (s', res) ->
  inv (mk_run s' (run_rkbs r) (drop_nth k (run_sent r)) (run_got r)) w.
Proof.
  intros (pos & e & l & a & c & g & ops & ov & Hm & Ha & Hn) Hk He Hr E.
  pose proof Hm as [Hq Hap Hc Hg Ho Hv Hqt]. rewrite <- Hg in Hq.
  eapply fetched_spec in E; [| exact Hqt | exact He | exact Hq | | exact Hr]; cycle 1.
  { destruct Hn as [_ Hn]. rewrite <- Hg in Hn. cbn in Hn. congruence. }
  destruct E as [E | (t & id & new & fo' & Et & Ev & Eq & C & Hl & Hms)].
  { eapply frame_q_inv; [by exists pos, e, l, a, c, g, ops, ov | exact E | intros P; apply Forall_drop_nth]. }
  exists pos, e, (l ++ ops_of_fetch t id (sent_version f) new), a, c, (g_at g fo'), ops, ov.
  split; [| split; [| done]].
  - assert (mstate (mk_fs (set_offsets (mk_ostats fo' 0) (fs_rktp (run_s r))) (fs_qs s') [] 0)
              (l ++ ops_of_fetch t id (sent_version f) new) a c (g_at g fo') ops ov) as H.
    { rewrite <- Hg in Hap |- *. split; cbn; try done. by rewrite Eq. }
    eapply mstate_frame; [| exact H]. by split.
  - eapply account_sent; [| intros P; apply Forall_drop_nth]. rewrite <- Hg. rewrite <- Hg in Ha.
    eapply account_fetched; [done | exact Ha | by eapply list_elem_of_lookup_2 | done | done | exact Hms].
Qed.

(** *** What is asked for *)

Lemma barrier_mstate s l a c g ops ov version s1 type u replyq :
  mstate s l a c g ops ov -> 0 <= rktp_version a < 2 ^ 31 - 1 ->
  new_barrier s = Some (version, s1) ->
  exists op, rko_version (to_rko op) = rktp_version a + 1 /\ to_u op = u /\
    mstate (rd_kafka_toppar_op type version u replyq s1) l
      (mk_op_toppar (rktp_version a + 1) (rktp_app_offset a) (rktp_stored_offset a)) c g (ops ++ [op]) ov.
Proof.
  intros [Hq Ha Hc Hg Ho Hv Hqt] HV. unfold new_barrier, rd_kafka_toppar_version_new_barrier.
  rewrite <- Hg in Ha. cbn in Ha. rewrite Ha.
  rewrite swrap_small by (unfold in_i; lia). intros [= <- <-]. eexists.
  split; [| split; [| split; cbn; try done]].
  3: { rewrite <- Hg. cbn. apply lookup_insert_eq. }
  3: { rewrite Ho. reflexivity. }
  all: done.
Qed.

Lemma request_inv r w w' type u replyq version s1 :
  inv r w -> room r -> 0 <= v_from w' -> (0 <= v_from w -> asks log w w' u) ->
  new_barrier (run_s r) = Some (version, s1) ->
  inv (run_upd r (rd_kafka_toppar_op type version u replyq s1)) w'.
Proof.
  intros (pos & e & l & a & c & g & ops & ov & Hm & Ha & Hn) (a0 & Ea & HV) Hfr' Hask E.
  assert (a0 = a) as ->.
  { destruct Hm as [_ Hap _ Hg _ _ _]. unfold fs_app in Ea. rewrite <- Hg in Hap. cbn in Hap. congruence. }
  pose proof Ha as [_ Hver (c' & Hp & _) _ _ _ Hfr _]. pose proof (plan_le _ _ _ _ _ Hp).
  apply (barrier_mstate _ _ _ _ _ _ _ _ _ type u replyq Hm) in E as (op & Ev & Eu & Hm'); [| lia].
  rewrite <- Eu in Hask. pose proof (account_request _ _ _ _ _ _ _ _ _ _ _ _ _ Ha HV Ev Hfr' (Hask Hfr))
    as (pos' & e' & Ha').
  exists pos', e', l. eexists _, c, g, (ops ++ [op]), ov. by split; [exact Hm' |].
Qed.

(** Nothing is given again from a new offset on. *)
Lemma given_new running flags offset : given log (mk_view running flags offset 0 []) offset offset.
Proof.
  split; [done |]. exists 0%nat. split; [by apply stretches_nil | split; [done | lia]].
Qed.

Lemma start_asked w offset rkcg :
  0 <= v_from w -> 0 <= offset -> v_running w = false ->
  asks log w (mk_view true (v_flags w) offset 0 []) (FetchStart offset rkcg).
Proof.
  intros Hfr Hoff Hr pos e cur c Hg Hld. split; [by eapply fits_after |].
  exists offset, offset. split; [apply given_new |].
  destruct Hld as [Hfl H]. rewrite Hr in H. destruct H as [_ Happ]. split; [done |]. cbn. auto.
Qed.

Lemma seek_asked w offset :
  0 <= v_from w -> 0 <= offset -> v_running w = true ->
  asks log w (mk_view true (v_flags w) offset 0 []) (Seek offset).
Proof.
  intros Hfr Hoff Hr pos e cur c Hg Hld. split; [by eapply fits_after |].
  exists offset, offset. split; [apply given_new |].
  destruct Hld as [Hfl H]. rewrite Hr in H. destruct H as [Hst _]. split; [done |]. cbn. auto.
Qed.

Lemma stop_asked w :
  0 <= v_from w -> asks log w (mk_view false (v_flags w) (v_from w) (v_again w) (v_got w)) FetchStop.
Proof.
  intros Hfr pos e cur c Hg Hld. split; [done |]. exists pos, e. split; [exact Hg |].
  destruct Hld as [Hfl _]. split; [done |]. cbn. auto.
Qed.

(** The partition goes on from where the application is. *)
Lemma pause_asked w flag :
  0 <= v_from w -> pause_flag flag ->
  asks log w (mk_view (v_running w) (Z.lor (v_flags w) flag) (v_from w) (v_again w) (v_got w))
    (Pause true flag).
Proof.
  intros Hfr Hf pos e cur c Hg [Hfl H]. split; [done |]. pose proof Hg as [Hpos (n & Hst & Hn & Hlt)].
  assert (given log w e e) as Hge by (split; [lia | exists n; split; [done | split; [done | lia]]]).
  unfold leads. cbn [v_running v_flags ctl_op c_flags c_state c_app c_next]. rewrite Hfl.
  destruct (v_running w); [| by exists pos, e].
  destruct H as (Hs & Happ & Hnx). destruct (Z.eqb_spec (c_app c) RD_KAFKA_OFFSET_INVALID) as [E | E].
  - exists pos, e. split; [exact Hg |]. repeat (split; [by auto |]). left.
    unfold RD_KAFKA_OFFSET_INVALID in E. destruct Hnx as [? | (_ & ? & _)]; lia.
  - destruct Happ as [? | [Ea | Ea]]; [done | exists pos, e | exists e, e]; auto 8.
Qed.

(** The partition goes on where it was last started, seeked in or paused. *)
Lemma resume_asked w flag :
  0 <= v_from w -> pause_flag flag ->
  asks log w (mk_view (v_running w) (Z.ldiff (v_flags w) flag) (v_from w) (resumed_again w) (v_got w))
    (Pause false flag).
Proof.
  intros Hfr Hf pos e cur c Hg Hld. split; [by eapply fits_after |].
  pose proof Hg as [Hpos (n & Hst & Hn & Hlt)]. destruct Hld as [Hfl H].
  assert (v_again w <= resumed_again w)%nat as Hag by (unfold resumed_again; destruct (_ && _); lia).
  assert (given log (mk_view (v_running w) (Z.ldiff (v_flags w) flag) (v_from w) (resumed_again w) (v_got w)) pos e)
    as Hg' by (split; [done |]; exists n; cbn; split; [done | split; [| intros Hp; specialize (Hlt Hp)]; lia]).
  unfold leads. cbn [v_running v_flags ctl_op c_flags c_state c_app c_next]. rewrite Hfl.
  destruct (v_running w) eqn:Er; [| by exists pos, e].
  destruct H as (Hs & Happ & [Hnx | (_ & Ea & -> & Ez & Hnx)]); [exists pos, e; do 3 (split; [done |]); by split; [| left] |].
  exists (c_next c), pos. split; [| do 2 (split; [done |]); split; [tauto | by left]]. split; [cbn; lia |]. exists n. cbn.
  unfold resumed_again. rewrite Er, <- Hfl, Ez. cbn. split; [done | split; intros; lia].
Qed.

(** *** The main thread and the application *)

Lemma serve_inv r w now s' :
  inv r w -> toppar_ops_serve fuel conf file rkb_internal rkb_nodeid now (run_s r) = Some s' ->
  inv (run_upd r s') w.
Proof.
  intros (pos & e & l & a & c & g & ops & ov & Hm & Ha & Hn) E. destruct ops as [| op ops].
  { unfold toppar_ops_serve in E. destruct Hm as [Hq Hap Hc Hg Ho Hv Hqt] eqn:Em. rewrite Ho in E.
    injection E as <-. by exists pos, e, l, a, c, g, [], ov. }
  pose proof Ha as [_ Hver (c' & Hp & Hld) _ _ _ _ _].
  destruct (ops_serve_spec _ _ _ _ _ Hconsumer _ _ _ _ _ _ _ _ _ _ _ _ Hm ltac:(lia) Hp E)
    as (c1 & v1 & Hv1 & Hp1 & l' & a' & Hm' & Hva & Hfq).
  exists pos, e, l', a', c1, g, ops, v1. split; [done |]. split; [| done]. rewrite Hva.
  eapply account_serve; [exact Ha | done | by exists c' | done].
Qed.

(** Nothing is to be given: the partition is stopped or paused. *)
Definition idle (w : fetch_view) : Prop := v_running w = false \/ v_flags w <> 0.

Lemma idle_limit w pos e sent l V c g ops ov :
  idle w -> account log w pos e sent l V c g ops ov -> limit pos V g = pos.
Proof.
  intros Hi [_ _ _ _ _ Hc _ _]. unfold limit.
  destruct (Z.eqb_spec (g_fetch_version g) V) as [E | E]; [| done].
  destruct (Hc E) as (Hr & _ & _ & _ & _ & H). destruct Hi as [Hi | Hi]; [congruence |].
  by destruct (H Hi) as (_ & ? & _).
Qed.

Lemma poll_inv r w n q rko qs :
  inv r w ->
  rd_kafka_consume0 qconf call op_cb serve_cb n fuel (fs_qs (run_s r)) (rktp_fetchq (fs_rktp (run_s r))) []
    = Some (rko, qs) ->
  inv (mk_run (fs_set_qs qs (run_s r)) (run_rkbs r) (run_sent r) q) (view_got w (got_of rko)) /\
  (idle w -> got_of rko = []).
Proof.
  intros (pos & e & l & a & c & g & ops & ov & Hm & Ha & Hn) E.
  pose proof Hm as [Hq Hap Hc Hg Ho Hv Hqt]. rewrite <- Hg in Hq, Hap. cbn in Hq, Hap.
  destruct (account_live _ _ _ _ _ _ _ _ _ _ _ Ha) as (Hlive & Hlim & HV).
  pose proof Ha as [Hl _ _ _ _ _ _ _]. rewrite <- Hg in Hl, HV. cbn in Hl, HV.
  eapply (consume0_stream _ _ _ _ (rktp_self (fs_rktp (run_s r))) _ (rktp_version a)
            (rktp_fetch_version (fs_rktp (run_s r))) (limit pos (rktp_version a) g) log Hlog
            _ _ _ pos (rktp_app_offset a)) in E; [| done | done | by exists l, a].
  destruct E as (pos' & ao & Hpos & (l' & a' & Hq' & Hl' & Hlive' & Hap' & Hv' & Hao) & Hgot & Hcase).
  split; [| intros Hi; rewrite Hgot, (idle_limit _ _ _ _ _ _ _ _ _ _ Hi Ha) in *;
            by rewrite between_empty by lia].
  destruct (account_polled log Hlog w pos pos' e ao (got_of rko) (run_sent r) l l' (rktp_version a) c g ops ov)
    as (e' & Ha'); [exact Ha | by rewrite <- Hg | exact Hlive' | exact Hpos | exact Hgot | by rewrite <- Hc |].
  exists pos', e', l', a', (ctl_of (fs_rktp (run_s r)) a'), g, ops, ov. split; [| split; [| done]].
  - split; cbn; rewrite <- ?Hg; done.
  - rewrite Hv'. replace (ctl_of (fs_rktp (run_s r)) a') with (mk_ctl (c_state c) ao (c_next c) (c_flags c))
      by (rewrite <- Hc, <- Hao; done).
    exact Ha'.
Qed.

(** *** All steps *)

Lemma new_of_app r s b sent new : new_of r (mk_run s b sent (run_got r ++ new)) = new.
Proof. unfold new_of. cbn. by rewrite drop_app_length. Qed.

Lemma new_of_same r s b sent : new_of r (mk_run s b sent (run_got r)) = [].
Proof. unfold new_of. cbn. by apply drop_ge. Qed.

Lemma frame_inv r w s' b sent :
  inv r w -> frame (run_s r) s' -> (forall P : fetch_sent -> Prop, Forall P (run_sent r) -> Forall P sent) ->
  inv (mk_run s' b sent (run_got r)) w.
Proof. intros H Hf Hs. exact (frame_q_inv r w s' sent H (frame_frame_q _ _ Hf) Hs). Qed.

Lemma inv_quiet r w : inv r w -> quiet (fs_rktp (run_s r)).
Proof. intros (pos & e & l & a & c & g & ops & ov & Hm & _). by destruct Hm. Qed.

(** The timers do not run and nothing is looked up. *)
Lemma no_lookup_step r w now act r' :
  inv r w -> step now act r = Some r' ->
  match act with ATimer | AAutoCommit | ALookup _ _ _ _ _ | ACommitted _ _ _ _ => False | _ => True end.
Proof.
  intros H. destruct (inv_quiet _ _ H) as (Hl & Ht1 & Ht2 & _).
  destruct act; try done; cbn [fetch_step].
  - by rewrite Ht1.
  - by rewrite Ht2.
  - unfold lookup_answered. by rewrite Hl.
  - unfold lookup_answered. by rewrite Hl.
Qed.

(** What is asked for. *)
Lemma request_step r w now act r' :
  inv r w -> permitted r w act -> step now act r = Some r' ->
  match act with
  | AStart _ _ _ | AStop _ | ASeek _ _ | APauseResume _ _ _ => inv r' (view_step w act (new_of r r'))
  | _ => True
  end.
Proof.
  intros H Hp. assert (0 <= v_from w) as Hfr by (by destruct H as (? & ? & ? & ? & ? & ? & ? & ? & _ & [] & _)).
  destruct act as [off rkcg rq | rq | off rq | [|] flag rq | | | | | | | | | | | | |]; try done;
    cbn [fetch_step view_step permitted] in *.
  - unfold rd_kafka_toppar_op_fetch_start.
    destruct (q_get _ _) as [q |]; [| done].
    destruct (new_barrier (fs_set_qs _ _)) as [[v s1] |] eqn:E; [| done]. intros [= <-].
    destruct Hp as (? & ? & Hr).
    apply (request_inv r w _ _ _ _ v s1); [done | done | done | intros; by apply start_asked |].
    by destruct (run_s r).
  - unfold rd_kafka_toppar_op_fetch_stop.
    destruct (new_barrier _) as [[v s1] |] eqn:E; [| done]. intros [= <-].
    apply (request_inv r w _ _ _ _ v s1); [done | done | done | intros; by apply stop_asked | done].
  - unfold rd_kafka_toppar_op_seek. destruct Hp as (? & ? & Hr).
    destruct (new_barrier _) as [[v s1] |] eqn:E; [| done]. intros [= <-].
    apply (request_inv r w _ _ _ _ v s1); [done | done | done | intros; by apply seek_asked | done].
  - unfold rd_kafka_toppar_op_pause_resume. destruct Hp as (? & Hr).
    destruct (new_barrier _) as [[v s1] |] eqn:E; [| done]. intros [= <-].
    apply (request_inv r w _ _ _ _ v s1); [done | done | done | intros; by apply pause_asked | done].
  - unfold rd_kafka_toppar_op_pause_resume. destruct Hp as (? & Hr).
    destruct (new_barrier _) as [[v s1] |] eqn:E; [| done]. intros [= <-].
    apply (request_inv r w _ _ _ _ v s1); [done | done | done | intros; by apply resume_asked | done].
Qed.

Lemma step_inv r w now act r' :
  inv r w -> permitted r w act -> step now act r = Some r' -> inv r' (view_step w act (new_of r r')).
Proof.
  intros H Hp E. pose proof (no_lookup_step _ _ _ _ _ H E) as Hno.
  pose proof (request_step _ _ _ _ _ H Hp E) as Hreq. pose proof (inv_quiet _ _ H) as Hq.
  destruct act as [off rkcg rq | rq | off rq | pr flag rq | | | | k err re av br | k err off pe | rkb | |
    k hdr parse | k | id leader | rkb | rkb |]; try done; cbn [fetch_step view_step permitted] in *.
  - destruct (toppar_ops_serve _ _ _ _ _ _ _) as [s1 |] eqn:E1; [| done]. injection E as <-.
    unfold run_upd. rewrite new_of_same, view_got_nil. by eapply serve_inv.
  - destruct (run_rkbs r !! rkb) as [b |]; [| done]. destruct (rd_assert _); [| done].
    destruct (rd_kafka_toppar_fetch_decide _ _ _ _ _ _ _ _) as [[[s1 b1] ts] |] eqn:E1; [| done].
    injection E as <-. rewrite new_of_same, view_got_nil.
    apply decide_spec in E1; [| done]. exact (decided_inv r w s1 H E1).
  - destruct (rktp_broker _) as [rkb |]; [| done]. destruct (rktp_fetch _) eqn:Ef; [| done].
    injection E as <-. rewrite new_of_same, view_got_nil.
    destruct H as (pos & e & l & a & c & g & ops & ov & Hm & Ha & Hn).
    exists pos, e, l, a, c, g, ops, ov. split; [done |]. split; [| done].
    pose proof Hm as [_ _ _ <- _ _ _]. eapply account_send in Ha; [exact Ha | exact Ef].
  - destruct Hp as [He Hr]. unfold fetch_answered in E.
    destruct (run_sent r !! k) as [f |] eqn:Ek; [| done]. cbn [run_s] in E.
    destruct (fetch_partition_handle _ _ _ _ _ _ _ _ _ _ _ _ _) as [[s1 res] |] eqn:E1; [| done].
    injection E as <-. unfold run_upd. cbn. rewrite new_of_same, view_got_nil.
    eapply fetched_inv; [exact H | exact Ek | exact He | by apply Hr | exact E1].
  - unfold fetch_answered in E. destruct (run_sent r !! k) as [f |] eqn:Ek; [| done].
    injection E as <-. rewrite new_of_same, view_got_nil.
    eapply frame_inv; [exact H | done | intros P; apply Forall_drop_nth].
  - destruct (rd_kafka_toppar_leader_update _ _ _ _ _ _) as [[res s1] |] eqn:E1; [| done].
    injection E as <-. unfold run_upd. rewrite new_of_same, view_got_nil.
    apply leader_update_frame in E1; [| done]. by eapply frame_inv.
  - destruct (run_rkbs r !! rkb) as [b |]; [| done].
    destruct (broker_partition_join _ _ _ _) as [[s1 b1] |] eqn:E1; [| done].
    injection E as <-. rewrite new_of_same, view_got_nil.
    apply join_frame in E1. by eapply frame_inv.
  - destruct (run_rkbs r !! rkb) as [b |]; [| done].
    destruct (broker_partition_leave _ _ _ _ _ _ _ _) as [[s1 b1] |] eqn:E1; [| done].
    injection E as <-. rewrite new_of_same, view_got_nil.
    apply leave_spec in E1 as [E1 | E1]; [by eapply frame_inv | exact (decided_inv r w s1 H E1) | done].
  - destruct (q_get _ _) as [q |]; [| done].
    destruct (rd_kafka_consume0 _ _ _ _ _ _ _ _ _) as [[rko qs] |] eqn:E1; [| done].
    injection E as <-. fold (got_of rko). rewrite new_of_app.
    by apply poll_inv with (q := run_got r ++ got_of rko) (w := w) in E1 as [E1 _].
Qed.

Lemma runs_inv r w : fetch_runs r w -> inv r w.
Proof. induction 1; [apply inv_new | by eapply step_inv]. Qed.

(** C4. A partition of a consumer that is only started and seeked in at absolute offsets
    (started when it does not run, seeked in when it does), whose broker answers with what
    the log has and never with an offset out of range, and whose versions stay below 2^31:
    what the application takes of it since it was last started or seeked in are the
    messages of the log from that offset on, in order and none left out, whatever is asked
    of the partition, pauses, resumes and stops included, in any order with the main
    thread, the delegations, the decisions of the brokers, late and lost responses and the
    polls.  None comes twice as long as it is not resumed while it is not paused; each
    such resume may take the partition back once, to no earlier than that offset. *)
Theorem partition_is_delivered r w :
  fetch_runs r w ->
  (exists n pos, (n <= v_again w)%nat /\ stretches log (v_from w) n (v_got w) pos) /\
  (v_again w = 0%nat -> exists pos, v_from w <= pos /\ v_got w = data (between log (v_from w) pos)).
Proof.
  intros H. destruct (runs_inv r w H) as (pos & e & l & a & c & g & ops & ov & _ & Ha & _).
  destruct Ha as [_ _ _ _ _ _ Hfr (Hpos & n & Hst & Hn & _)].
  split; [by exists n, e |]. intros Hz. assert (n = 0%nat) as -> by lia.
  exists e. split; [lia |]. by inversion Hst.
Qed.

(** C20. Of a partition of a consumer that has only been started and seeked in at absolute
    offsets (started when it does not run, seeked in when it does), whose broker answers
    with what the log has and never with an offset out of range, and whose versions stay
    below 2^31, nothing is taken from the call that pauses or stops it
    on, whatever its fetch queue has and whatever comes in, until it is resumed or started.
    The restriction to absolute offsets is needed: see [stopped_partition_restarts]. *)
Theorem idle_partition_gives_nothing r w now r' :
  fetch_runs r w -> idle w -> step now APoll r = Some r' -> run_got r' = run_got r.
Proof.
  intros H Hi. pose proof (runs_inv r w H) as Hinv. cbn [fetch_step].
  destruct (q_get _ _) as [q |]; [| done].
  destruct (rd_kafka_consume0 _ _ _ _ _ _ _ _ _) as [[rko qs] |] eqn:E1; [| done].
  intros [= <-]. fold (got_of rko). cbn.
  apply (poll_inv r w _ [] _ _ Hinv) in E1 as [_ E1]. by rewrite E1, app_nil_r.
Qed.

End Runs.

(** ** A run *)

Definition demo_log : list (Z * bool) := [(5, false); (6, true); (8, false); (9, false)].

Definition demo_op (x : Z * bool) : fetch_op :=
  OpFetch (rd_kafka_op_new_fetch_msg (mk_fetch_conf false true 1 0) x.1 0 None 0 None) (mk_kbytes 0 None) x.2.

(** A message set up to offset 10. *)
Definition demo_parse : reader_fn := fun fo max_bytes _ _ =>
  let fo' := Z.max fo 10 in
  Some (Some (tt, (map demo_op (between demo_log fo fo'), fo', max_bytes, 0))).

Definition demo_hdr : fetch_part_hdr := mk_part_hdr 0 0 10 0 (-1) 100 10 None.

Definition demo_conf : consumer_conf :=
  mk_consumer_conf true false true false 100 100000 500 1 RD_KAFKA_OFFSET_BEGINNING
    RD_KAFKA_OFFSET_METHOD_BROKER 5000 false.
Definition demo_qconf : q_conf :=
  mk_q_conf false false false false false false false None true 0 false.

Definition demo_runs : fetch_run -> fetch_view -> Prop :=
  fetch_runs 5 demo_conf (mk_offset_file (-1001) true 0) (fun _ => false) (fun _ => 1)
    (fun _ => Some 0%nat) 9 7 demo_qconf (fun _ s => s) (fun _ _ _ _ => None) (fun _ _ _ _ _ => None)
    0 [116] 0 1 1048576 {[0%nat := fetch_broker_new]} demo_log.

Lemma demo_log_ok : log_ok demo_log.
Proof. split; repeat constructor; cbn; lia. Qed.

Lemma demo_reads from : reads demo_log from None demo_parse.
Proof.
  intros fo mb x ops fo' mb' err [= <- <- <- <-] _. split; [lia |].
  induction (between _ _ _) as [| [o c] l IH]; [done |]. unfold msgs_of in *. cbn. by f_equal.
Qed.

(** Leads to the next step of a run. *)
Ltac next_step now act :=
  match goal with
  | H : fetch_runs _ _ _ _ _ _ _ _ _ _ _ _ _ _ _ _ _ _ _ _ _ |- _ =>
      eapply (runs_step _ _ _ _ _ _ _ _ _ _ _ _ _ _ _ _ _ _ _ _ _ now act) in H;
      [| | vm_compute; reflexivity];
      [let w := match type of H with
                | fetch_runs _ _ _ _ _ _ _ _ _ _ _ _ _ _ _ _ _ _ _ _ ?w => w
                end in
       let v := eval vm_compute in w in
       replace w with v in H by (vm_compute; reflexivity) |]
  end.

Ltac has_room := eexists; split; [vm_compute; reflexivity | vm_compute; reflexivity].
Ltac answered :=
  split; [vm_compute; discriminate | intros ? _; apply demo_reads].

(** Started at 5, with all fetched that there is. *)
Ltac fetched_run H :=
  assert (H := runs_new 5 demo_conf (mk_offset_file (-1001) true 0) (fun _ => false) (fun _ => 1)
    (fun _ => Some 0%nat) 9 7 demo_qconf (fun _ s => s) (fun _ _ _ _ => None) (fun _ _ _ _ _ => None)
    0 [116] 0 1 1048576 {[0%nat := fetch_broker_new]} demo_log);
  next_step 1 (ALeader 1 (Some 0%nat)); [| done];
  next_step 2 (AJoin 0); [| done];
  next_step 3 (AStart 5 false None); [| split; [discriminate | split; [reflexivity | has_room]]];
  next_step 4 AServe; [| done];
  next_step 5 (ADecide 0); [| done];
  next_step 6 ASend; [| done];
  next_step 7 (AFetched 0 demo_hdr demo_parse); [| answered].

(** One message is taken, and the partition is seeked in at 6 with the others still on
    the queue.  It is then resumed without having been paused, and gives 8 again. *)
Lemma partition_is_delivered_witness :
  exists r w, demo_runs r w /\ run_got r = [5; 8; 9; 8] /\ v_from w = 6 /\ v_got w = [8; 9; 8] /\
    v_again w = 1%nat /\ exists n pos, (n <= v_again w)%nat /\ stretches demo_log (v_from w) n (v_got w) pos.
Proof.
  fetched_run H.
  next_step 8 APoll. 2: done.
  next_step 9 (ASeek 6 None). 2: (split; [discriminate | split; [reflexivity | has_room]]).
  next_step 10 APoll. 2: done.
  next_step 11 AServe. 2: done.
  next_step 12 (ADecide 0). 2: done.
  next_step 13 ASend. 2: done.
  next_step 14 (AFetched 0 demo_hdr demo_parse). 2: answered.
  next_step 15 APoll. 2: done.
  next_step 16 APoll. 2: done.
  next_step 17 (APauseResume false RD_KAFKA_TOPPAR_F_LIB_PAUSE None). 2: (split; [by right | has_room]).
  next_step 18 AServe. 2: done.
  next_step 19 (ADecide 0). 2: done.
  next_step 20 ASend. 2: done.
  next_step 21 (AFetched 0 demo_hdr demo_parse). 2: answered.
  next_step 22 APoll. 2: done.
  eexists _, _. split; [exact H |]. split; [reflexivity |]. split; [reflexivity |].
  split; [vm_compute; reflexivity |]. split; [reflexivity |].
  eapply partition_is_delivered; [| exact demo_log_ok | | exact H]; [reflexivity | discriminate].
Defined.

(** Paused with all messages on the queue. *)
Lemma idle_partition_gives_nothing_witness :
  exists r w r', demo_runs r w /\ idle w /\ run_got r = [5] /\ run_got r' = run_got r.
Proof.
  fetched_run H.
  next_step 8 APoll. 2: done.
  next_step 9 (APauseResume true RD_KAFKA_TOPPAR_F_APP_PAUSE None). 2: (split; [by left | has_room]).
  eexists _, _, _. split; [exact H |]. split; [by right |]. split; [reflexivity |].
  eapply (idle_partition_gives_nothing _ _ _ _ _ _ _ _ _ _ _ _ _ _ _ _ _ _ _); cycle 3;
    [exact H | by right | | | exact demo_log_ok |].
  - instantiate (2 := 10). vm_compute. reflexivity.
  - reflexivity.
  - discriminate.
Defined.

(** With a logical offset it can restart: stopped with its lookup outstanding, the
    partition asks again when the outdated answer comes, and the failure of the second
    lookup resets it to an offset at which it is then fetched and given. *)
Definition demo_steps (acts : list (Z * fetch_act)) : option fetch_run :=
  fetch_steps 5 demo_conf (mk_offset_file (-1001) true 0) (fun _ => false) (fun _ => 1)
    (fun _ => Some 0%nat) 9 7 demo_qconf (fun _ s => s) (fun _ _ _ _ => None) (fun _ _ _ _ _ => None) acts
    (mk_run (fetcher_new 0 [116] 0 1 1048576) {[0%nat := fetch_broker_new]} [] []).

Definition stopped_acts : list (Z * fetch_act) :=
  [(1, ALeader 1 (Some 0%nat)); (2, AJoin 0); (3, AStart 5 false None); (4, AServe); (5, ADecide 0);
   (6, ASend); (7, AFetched 0 demo_hdr demo_parse); (8, APoll); (9, AStop None); (10, AServe);
   (11, AStart RD_KAFKA_OFFSET_END false None); (12, AServe); (13, AStop None); (14, AServe)].

Definition restarting_acts : list (Z * fetch_act) :=
  [(15, ALookup 0 0 None 1 false); (16, AServe); (1000000, ATimer);
   (1000001, ALookup 0 RD_KAFKA_RESP_ERR__UNKNOWN_PARTITION None 1 false); (1000002, AServe);
   (1000003, ADecide 0); (1000004, ASend); (1000005, AFetched 0 demo_hdr demo_parse);
   (1000006, APoll); (1000007, APoll)].

Example stopped_partition_restarts :
  (fun r => (rktp_fetch_state (fs_rktp (run_s r)), run_got r)) <$> demo_steps stopped_acts =
    Some (RD_KAFKA_TOPPAR_FETCH_STOPPED, [5]) /\
  (fun r => (rktp_fetch_state (fs_rktp (run_s r)), run_got r)) <$> demo_steps (stopped_acts ++ restarting_acts) =
    Some (RD_KAFKA_TOPPAR_FETCH_ACTIVE, [5; 5]).
Proof. split; vm_compute; reflexivity. Qed.
