(* ===== verification/FetchWire.v ===== *)
(** * The bytes of a Fetch request

    The protocol's layout of a Fetch request for a list of partitions, and that the
    request a broker's thread makes is laid out so, for its partitions to fetch in turn. *)

From stdpp Require Import gmap.
From S2P Require Import Prelude Producer RdBuf RdBufFacts RdBufProps KafkaBuf KafkaBufFacts RecordBatch MsgWriter MsgWriterFacts Queue FetchState Fetcher FetchBroker FetchRequest FetchRun.

(** ** The layout *)

(** The partitions by their topics, for those next to one another. *)
Fixpoint topic_groups_from (topic : bytes) (acc ts : list rd_kafka_toppar)
  : list (bytes * list rd_kafka_toppar) :=
  match ts with
  | [] => [(topic, acc)]
  | t :: ts =>
      if bool_decide (topic = rktp_topic t) then topic_groups_from topic (acc ++ [t]) ts
      else (topic, acc) :: topic_groups_from (rktp_topic t) [t] ts
  end.

Definition topic_groups (ts : list rd_kafka_toppar) : list (bytes * list rd_kafka_toppar) :=
  match ts with [] => [] | t :: ts => topic_groups_from (rktp_topic t) [t] ts end.

Section Layout.
(** The version of the request. *)
Context (v : Z).

Definition since (v0 : Z) (b : bytes) : bytes := if v >=? v0 then b else [].

(** The partition, the leader's epoch, the offset, the log's start, and the size. *)
Definition fetch_part_bytes (t : rd_kafka_toppar) : bytes :=
  be_enc 4 (rktp_partition t) ++ since 9 (be_enc 4 (-1))
  ++ be_enc 8 (os_fetch_offset (rktp_offsets t)) ++ since 5 (be_enc 8 (-1))
  ++ be_enc 4 (rktp_fetch_msg_max_bytes t).

Definition fetch_topic_bytes (g : bytes * list rd_kafka_toppar) : bytes :=
  kstr_bytes (Some g.1) ++ be_enc 4 (zlen g.2) ++ concat (map fetch_part_bytes g.2).

(** The replica, the time and the size to wait for, the limit, the isolation level and
    the session; then the topics, no topics to forget, and the rack. *)
Definition fetch_head_bytes (conf : fetch_req_conf) : bytes :=
  be_enc 4 (-1) ++ be_enc 4 (fr_fetch_wait_max_ms conf) ++ be_enc 4 (fr_fetch_min_bytes conf)
  ++ since 3 (be_enc 4 (fr_fetch_max_bytes conf)) ++ since 4 (be_enc 1 (fr_isolation_level conf))
  ++ since 7 (be_enc 4 0) ++ since 7 (be_enc 4 (-1)).

Definition fetch_request_bytes (conf : fetch_req_conf) (ts : list rd_kafka_toppar) : bytes :=
  request_header (fr_client_id conf) RD_KAFKAP_Fetch ++ fetch_head_bytes conf
  ++ be_enc 4 (zlen (topic_groups ts)) ++ concat (map fetch_topic_bytes (topic_groups ts))
  ++ since 7 (be_enc 4 0) ++ since 11 (kstr_bytes (fr_client_rack conf)).

End Layout.

(** The groups are the partitions, in their order. *)
Lemma groups_from_parts topic acc ts :
  concat (map snd (topic_groups_from topic acc ts)) = acc ++ ts.
Proof.
  revert topic acc. induction ts as [| t ts IH]; intros topic acc; cbn; [done |].
  case_bool_decide; [by rewrite IH, <- app_assoc | cbn; by rewrite IH].
Qed.

Lemma topic_groups_parts ts : concat (map snd (topic_groups ts)) = ts.
Proof. destruct ts as [| t ts]; [done |]. apply groups_from_parts. Qed.

Lemma groups_from_topics topic acc ts :
  Forall (fun t => rktp_topic t = topic) acc -> acc <> [] ->
  Forall (fun g => g.2 <> [] /\ Forall (fun t => rktp_topic t = g.1) g.2)
    (topic_groups_from topic acc ts).
Proof.
  revert topic acc. induction ts as [| t ts IH]; intros topic acc Ha Hne; cbn.
  - by repeat constructor.
  - case_bool_decide as Et.
    + apply IH; [| by destruct acc]. apply Forall_app. split; [done | by constructor].
    + constructor; [done |]. apply IH; [by constructor | done].
Qed.

Lemma topic_groups_topics ts :
  Forall (fun g => g.2 <> [] /\ Forall (fun t => rktp_topic t = g.1) g.2) (topic_groups ts).
Proof. destruct ts as [| t ts]; [constructor |]. apply groups_from_topics; [by constructor | done]. Qed.

(** ** The loop over the partitions *)

Section Write.
Context (junk : Z -> Z) (conf : fetch_req_conf).

Definition holds (r : rd_kafka_buf) (c : bytes) : Prop := kbs 256 (-1) r c None false.

Lemma base256 : kb_base 256.
Proof. unfold kb_base. lia. Qed.

Lemma write_holds r c d :
  holds r c -> zlen c + zlen d < 2 ^ 58 ->
  exists r', rd_kafka_buf_write junk r d = Some (r', zlen c) /\ holds r' (c ++ d).
Proof. intros H Hd. exact (write_kbs junk 256 (-1) base256 r c None false d H Hd). Qed.

Lemma w_kstr_holds r c s :
  holds r c -> zlen c + 2 + opt_len s < 2 ^ 58 ->
  exists r', w_kstr junk s r = Some r' /\ holds r' (c ++ kstr_bytes s).
Proof.
  intros H Hd. destruct (write_kstr_kbs junk 256 (-1) base256 r c None s H Hd) as (r' & E & H').
  exists r'. unfold w_kstr. by rewrite E.
Qed.

Lemma w_if_holds cond w r c d :
  holds r c ->
  (forall r, holds r c -> exists r', w r = Some r' /\ holds r' (c ++ d)) ->
  exists r', w_if cond w r = Some r' /\ holds r' (c ++ if cond then d else []).
Proof.
  intros H Hw. unfold w_if. destruct cond; [by apply Hw |]. exists r. by rewrite app_nil_r.
Qed.

Lemma w_i8_holds r c v :
  holds r c -> zlen c + 1 < 2 ^ 58 -> exists r', w_i8 junk v r = Some r' /\ holds r' (c ++ be_enc 1 v).
Proof.
  intros H Hd. destruct (write_holds r c (be_enc 1 v) H) as (r' & E & H'); [len_lia |].
  exists r'. unfold w_i8, rd_kafka_buf_write_i8. by rewrite E.
Qed.

Lemma w_i32_holds r c v :
  holds r c -> zlen c + 4 < 2 ^ 58 -> exists r', w_i32 junk v r = Some r' /\ holds r' (c ++ be_enc 4 v).
Proof.
  intros H Hd. destruct (write_holds r c (be_enc 4 v) H) as (r' & E & H'); [len_lia |].
  exists r'. unfold w_i32, rd_kafka_buf_write_i32. by rewrite E.
Qed.

Lemma w_i64_holds r c v :
  holds r c -> zlen c + 8 < 2 ^ 58 -> exists r', w_i64 junk v r = Some r' /\ holds r' (c ++ be_enc 8 v).
Proof.
  intros H Hd. destruct (write_holds r c (be_enc 8 v) H) as (r' & E & H'); [len_lia |].
  exists r'. unfold w_i64, rd_kafka_buf_write_i64. by rewrite E.
Qed.

Abbreviation v := (fetch_ApiVersion conf).

Lemma since_if v0 (b : bytes) : since v v0 b = if v >=? v0 then b else [].
Proof. done. Qed.

Lemma write_fetch_part_holds t r c :
  holds r c -> zlen c < 2 ^ 57 ->
  exists r', write_fetch_part junk conf t r = Some r' /\ holds r' (c ++ fetch_part_bytes v t).
Proof.
  intros H Hc. unfold write_fetch_part, fetch_part_bytes, since.
  destruct (w_i32_holds r c (rktp_partition t) H) as (r1 & -> & H1); [lia |].
  destruct (w_if_holds (v >=? 9) (w_i32 junk (-1)) r1 _ (be_enc 4 (-1)) H1) as (r2 & -> & H2).
  { intros r' H'. apply w_i32_holds; [done | len_lia]. }
  destruct (w_i64_holds r2 _ (os_fetch_offset (rktp_offsets t)) H2) as (r3 & -> & H3).
  { destruct (_ >=? _); len_lia. }
  destruct (w_if_holds (v >=? 5) (w_i64 junk (-1)) r3 _ (be_enc 8 (-1)) H3) as (r4 & -> & H4).
  { intros r' H'. apply w_i64_holds; [done |]. destruct (v >=? 9); len_lia. }
  destruct (w_i32_holds r4 _ (rktp_fetch_msg_max_bytes t) H4) as (r5 & -> & H5).
  { destruct (v >=? 9), (v >=? 5); len_lia. }
  exists r5. split; [done |]. by rewrite <- !app_assoc in H5.
Qed.

Lemma zlen_part_bytes t : zlen (fetch_part_bytes v t) <= 28.
Proof. unfold fetch_part_bytes, since. destruct (v >=? 9), (v >=? 5); len_lia. Qed.

Lemma head_holds r c :
  holds r c -> zlen c < 2 ^ 57 ->
  exists r', fetch_request_head junk conf r = Some r' /\ holds r' (c ++ fetch_head_bytes v conf) .
Proof.
  intros H Hc. unfold fetch_request_head, fetch_head_bytes, since.
  destruct (w_i32_holds r c (-1) H) as (r1 & -> & H1); [lia |].
  destruct (w_i32_holds r1 _ (fr_fetch_wait_max_ms conf) H1) as (r2 & -> & H2); [len_lia |].
  destruct (w_i32_holds r2 _ (fr_fetch_min_bytes conf) H2) as (r3 & -> & H3); [len_lia |].
  destruct (w_if_holds (v >=? 3) (w_i32 junk (fr_fetch_max_bytes conf)) r3 _
    (be_enc 4 (fr_fetch_max_bytes conf)) H3) as (r4 & -> & H4).
  { intros r' H'. apply w_i32_holds; [done | len_lia]. }
  destruct (w_if_holds (v >=? 4) (w_i8 junk (fr_isolation_level conf)) r4 _
    (be_enc 1 (fr_isolation_level conf)) H4) as (r5 & -> & H5).
  { intros r' H'. apply w_i8_holds; [done |]. destruct (v >=? 3); len_lia. }
  destruct (w_if_holds (v >=? 7) (w_i32 junk 0) r5 _ (be_enc 4 0) H5) as (r6 & -> & H6).
  { intros r' H'. apply w_i32_holds; [done |]. destruct (v >=? 3), (v >=? 4); len_lia. }
  destruct (w_if_holds (v >=? 7) (w_i32 junk (-1)) r6 _ (be_enc 4 (-1)) H6) as (r7 & -> & H7).
  { intros r' H'. apply w_i32_holds; [done |]. destruct (v >=? 3), (v >=? 4), (v >=? 7); len_lia. }
  exists r7. split; [done |]. by rewrite <- !app_assoc in H7.
Qed.

(** A topic of which [acc] has been written, with its count still to be filled in. *)
Definition open_topic (pre : bytes) (topic : bytes) (acc : list rd_kafka_toppar) : bytes :=
  pre ++ kstr_bytes (Some topic) ++ be_enc 4 0 ++ concat (map (fetch_part_bytes v) acc).

Definition count_at (pre topic : bytes) (acc : list rd_kafka_toppar) (n : Z) : topic_count :=
  mk_topic_count (Some topic) (zlen (pre ++ kstr_bytes (Some topic))) (i32 (zlen acc)) (i32 n).

Lemma update_holds r a b b' c :
  holds r (a ++ b ++ c) -> zlen b' = zlen b -> 0 < zlen b ->
  exists r', rd_kafka_buf_update r (zlen a) b' = Some r' /\ holds r' (a ++ b' ++ c).
Proof. intros H Hl Hp. exact (update_kbs 256 (-1) r a b b' c false H Hl Hp). Qed.

(** The count of the open topic is filled in. *)
Lemma close_topic r pre topic acc n :
  holds r (open_topic pre topic acc) ->
  exists r', update_count (count_at pre topic acc n) r = Some r' /\
    holds r' (pre ++ fetch_topic_bytes v (topic, acc)).
Proof.
  intros H. unfold update_count. cbn [count_at tc_of tc_parts].
  assert (0 < zlen (pre ++ kstr_bytes (Some topic))) as Hp by (cbn [kstr_bytes]; len_lia).
  ztest. unfold open_topic in H. rewrite app_assoc in H.
  destruct (update_holds r _ _ (be_enc 4 (i32 (zlen acc))) _ H) as (r' & E & H');
    [len_lia | len_lia |].
  exists r'. split; [exact E |]. rewrite be_enc_i32, <- app_assoc in H'. exact H'.
Qed.

Lemma open_topic_holds r pre topic :
  holds r pre -> zlen pre < 2 ^ 57 -> zlen topic < 2 ^ 15 ->
  exists r' of_, w_kstr junk (Some topic) r = Some r' /\
    rd_kafka_buf_write_i32 junk r' 0 = Some of_ /\ holds of_.1 (open_topic pre topic []) /\
    of_.2 = zlen (pre ++ kstr_bytes (Some topic)).
Proof.
  intros H Hp Ht. destruct (w_kstr_holds r pre (Some topic) H) as (r1 & E1 & H1); [cbn [opt_len]; lia |].
  destruct (write_holds r1 _ (be_enc 4 0) H1) as (r2 & E2 & H2); [cbn [kstr_bytes]; len_lia |].
  exists r1, (r2, zlen (pre ++ kstr_bytes (Some topic))). split; [done |]. split; [exact E2 |].
  split; [| done]. unfold open_topic. cbn [map concat]. rewrite app_nil_r, app_assoc. exact H2.
Qed.

(** Bounds the bytes of the partitions that are left. *)
Definition room_for (ts : list rd_kafka_toppar) (c : bytes) : Prop :=
  Forall (fun t => zlen (rktp_topic t) < 2 ^ 15) ts /\ zlen c + zlen ts * 2 ^ 16 < 2 ^ 56.

Lemma count_next pre topic acc t n :
  mk_topic_count (Some topic) (zlen (pre ++ kstr_bytes (Some topic)))
    (i32 (i32 (zlen acc) + 1)) (i32 n) = count_at pre topic (acc ++ [t]) n.
Proof. unfold count_at. rewrite swrap_add_l by lia. by rewrite (zlen_app acc). Qed.

Lemma open_topic_snoc pre topic acc t :
  open_topic pre topic (acc ++ [t]) = open_topic pre topic acc ++ fetch_part_bytes v t.
Proof.
  unfold open_topic. rewrite map_app, concat_app. cbn [map concat]. by rewrite app_nil_r, <- !app_assoc.
Qed.

Lemma write_part_open r pre topic acc t :
  holds r (open_topic pre topic acc) -> zlen (open_topic pre topic acc) < 2 ^ 57 ->
  exists r', write_fetch_part junk conf t r = Some r' /\ holds r' (open_topic pre topic (acc ++ [t])).
Proof. intros H Hl. rewrite open_topic_snoc. by apply write_fetch_part_holds. Qed.

Lemma zlen_close pre topic acc :
  zlen (pre ++ fetch_topic_bytes v (topic, acc)) = zlen (open_topic pre topic acc).
Proof. unfold open_topic, fetch_topic_bytes. cbn [fst snd]. len_lia. Qed.

Lemma zlen_open_nil pre topic : zlen (open_topic pre topic []) = zlen pre + zlen topic + 6.
Proof. unfold open_topic. cbn [map concat kstr_bytes]. len_lia. Qed.

(** A partition is written, under its topic. *)
Lemma write_topic_holds t r pre topic acc n :
  holds r (open_topic pre topic acc) -> zlen (open_topic pre topic acc) < 2 ^ 56 ->
  zlen (rktp_topic t) < 2 ^ 15 ->
  exists tc r1 r2 pre' acc',
    write_topic junk (rktp_topic t) (count_at pre topic acc n) r = Some (tc, r1) /\
    write_fetch_part junk conf t r1 = Some r2 /\
    holds r2 (open_topic pre' (rktp_topic t) acc') /\
    zlen (open_topic pre' (rktp_topic t) acc') <= zlen (open_topic pre topic acc) + 2 ^ 16 /\
    if bool_decide (topic = rktp_topic t)
    then pre' = pre /\ acc' = acc ++ [t] /\ tc = count_at pre' (rktp_topic t) acc' n
    else pre' = pre ++ fetch_topic_bytes v (topic, acc) /\ acc' = [t] /\
         tc = count_at pre' (rktp_topic t) acc' (n + 1).
Proof.
  intros H Hl Ht. unfold write_topic. cbn [count_at tc_topic].
  destruct (bool_decide (topic = rktp_topic t)) eqn:Et.
  - apply bool_decide_eq_true in Et as ->. rewrite bool_decide_true by done.
    destruct (write_part_open r pre _ acc t H) as (r2 & E2 & H2); [lia |].
    do 2 eexists. exists r2, pre, (acc ++ [t]). split; [reflexivity |]. split; [exact E2 |].
    split; [done |]. split; [rewrite open_topic_snoc, zlen_app; pose proof (zlen_part_bytes t); lia |].
    split; [done |]. split; [done |]. apply count_next.
  - apply bool_decide_eq_false in Et. rewrite bool_decide_false by congruence.
    destruct (close_topic r pre topic acc n H) as (r1 & E1 & H1). rewrite E1.
    pose proof (zlen_close pre topic acc) as Hz.
    destruct (open_topic_holds r1 _ (rktp_topic t) H1) as (r2 & [r3 of_] & E2 & E3 & H3 & Eo); [lia | done |].
    rewrite E2, E3. cbn [fst snd] in H3, Eo.
    destruct (write_part_open r3 _ _ [] t H3) as (r4 & E4 & H4); [rewrite zlen_open_nil; lia |].
    do 2 eexists. exists r4. do 2 eexists. split; [reflexivity |]. split; [exact E4 |]. split; [exact H4 |].
    split; [| split; [done |]; split; [done |]].
    + pose proof (zlen_part_bytes t). 
      rewrite (open_topic_snoc _ _ [] t : open_topic _ _ [t] = _), zlen_app, zlen_open_nil. lia.
    + unfold count_at. cbn [tc_topics]. rewrite swrap_add_l by lia. by rewrite Eo.
Qed.

Lemma toppars_loop_holds ts : forall r pre topic acc n,
  holds r (open_topic pre topic acc) ->
  zlen (open_topic pre topic acc) + zlen ts * 2 ^ 16 < 2 ^ 56 ->
  Forall (fun t => zlen (rktp_topic t) < 2 ^ 15) ts ->
  exists pre' topic' acc' r',
    fetch_toppars_loop junk conf ts (count_at pre topic acc n) r =
      Some (count_at pre' topic' acc' (n + zlen (topic_groups_from topic acc ts) - 1), r') /\
    holds r' (open_topic pre' topic' acc') /\
    zlen (open_topic pre' topic' acc') <= zlen (open_topic pre topic acc) + zlen ts * 2 ^ 16 /\
    pre' ++ fetch_topic_bytes v (topic', acc') =
      pre ++ concat (map (fetch_topic_bytes v) (topic_groups_from topic acc ts)).
Proof.
  induction ts as [| t ts IH]; intros r pre topic acc n H Hroom Ht.
  { exists pre, topic, acc, r. cbn. rewrite app_nil_r. split; [do 2 f_equal; f_equal; lia |].
    split; [done |]. split; [lia | done]. }
  apply Forall_cons_iff in Ht as [Ht Hts]. cbn [fetch_toppars_loop].
  assert (zlen (t :: ts) = zlen ts + 1) as Hz by (cbn [length]; lia).
  destruct (write_topic_holds t r pre topic acc n H) as (tc & r1 & r2 & pre1 & acc1 & E1 & E2 & H2 & Hl & Hc);
    [lia | done |].
  rewrite E1, E2. cbn [topic_groups_from]. destruct (bool_decide (topic = rktp_topic t)) eqn:Et.
  - apply bool_decide_eq_true in Et as ->. destruct Hc as (-> & -> & ->).
    destruct (IH r2 pre _ (acc ++ [t]) n H2) as (pre' & topic' & acc' & r' & E & H' & Hl' & Eb); [lia | done |].
    exists pre', topic', acc', r'. split; [exact E |]. split; [done |]. split; [lia | done].
  - destruct Hc as (-> & -> & ->).
    destruct (IH r2 _ _ [t] (n + 1) H2) as (pre' & topic' & acc' & r' & E & H' & Hl' & Eb); [lia | done |].
    exists pre', topic', acc', r'. split.
    { rewrite E. do 3 f_equal. cbn [length]. lia. }
    split; [done |]. split; [lia |]. rewrite Eb. cbn [map concat]. by rewrite app_assoc.
Qed.

(** Strings of the protocol, and not too many partitions. *)
Record fetchable (ts : list rd_kafka_toppar) : Prop := {
  fb_client : opt_len (fr_client_id conf) < 2 ^ 15;
  fb_rack : opt_len (fr_client_rack conf) < 2 ^ 15;
  fb_topics : Forall (fun t => zlen (rktp_topic t) < 2 ^ 15) ts;
  fb_count : zlen ts < 2 ^ 31 }.

(** All topics, with their counts filled in. *)
Lemma topics_holds ts r c :
  holds r c -> zlen c < 2 ^ 20 -> Forall (fun t => zlen (rktp_topic t) < 2 ^ 15) ts -> zlen ts < 2 ^ 31 ->
  exists tc r1 r2,
    fetch_toppars_loop junk conf ts (mk_topic_count None 0 0 0) r = Some (tc, r1) /\
    update_count tc r1 = Some r2 /\ tc_topics tc = i32 (zlen (topic_groups ts)) /\
    holds r2 (c ++ concat (map (fetch_topic_bytes v) (topic_groups ts))) /\
    zlen (c ++ concat (map (fetch_topic_bytes v) (topic_groups ts))) < 2 ^ 55.
Proof.
  intros H Hc Ht Hn. destruct ts as [| t ts].
  { do 2 eexists. exists r. split; [reflexivity |]. split; [reflexivity |]. split; [done |].
    cbn [topic_groups map concat]. rewrite app_nil_r. split; [done | lia]. }
  apply Forall_cons_iff in Ht as [Ht Hts]. cbn [fetch_toppars_loop]. unfold write_topic.
  assert (zlen (t :: ts) = zlen ts + 1) as Hz by (cbn [length]; lia).
  cbn [tc_topic]. rewrite bool_decide_false by done. cbn [update_count tc_of Z.eqb].
  destruct (open_topic_holds r c (rktp_topic t) H) as (r1 & [r2 of_] & E1 & E2 & H2 & Eo); [lia | done |].
  rewrite E1, E2. cbn [fst snd] in H2, Eo.
  destruct (write_part_open r2 _ _ [] t H2) as (r3 & E3 & H3); [rewrite zlen_open_nil; lia |]. rewrite E3.
  replace (mk_topic_count _ _ _ _) with (count_at c (rktp_topic t) [t] 1) by (rewrite Eo; reflexivity).
  assert (zlen (open_topic c (rktp_topic t) [t]) < 2 ^ 21) as Hl.
  { pose proof (zlen_part_bytes t).
    rewrite (open_topic_snoc _ _ [] t : open_topic _ _ [t] = _), zlen_app, zlen_open_nil. lia. }
  destruct (toppars_loop_holds ts r3 c _ [t] 1 H3) as (pre' & topic' & acc' & r4 & E4 & H4 & Hl4 & Eb); [lia | done |].
  destruct (close_topic r4 pre' topic' acc' (1 + zlen (topic_groups (t :: ts)) - 1) H4) as (r5 & E5 & H5).
  do 2 eexists. exists r5. split; [exact E4 |]. split; [exact E5 |].
  split; [cbn [tc_topics count_at topic_groups]; f_equal; lia |].
  rewrite Eb in H5. split; [exact H5 |]. cbn [topic_groups]. rewrite <- Eb, zlen_close. lia.
Qed.

Lemma zlen_head : zlen (fetch_head_bytes v conf) <= 30.
Proof. unfold fetch_head_bytes, since. destruct (v >=? 3), (v >=? 4), (v >=? 7); len_lia. Qed.

Lemma fetch_request_holds ts :
  fetchable ts ->
  exists r, fetch_request junk conf ts = Some r /\ holds r (fetch_request_bytes v conf ts).
Proof.
  intros [Hcl Hrack Ht Hn]. unfold fetch_request, fetch_request_bytes, since.
  destruct (new_request0_kbs junk 256 (-1) base256 (fr_client_id conf) RD_KAFKAP_Fetch 1
    (4 + 4 + 4 + 4 + 1 + 4 + 4 + 4 + zlen ts * (4 + 4 + 4 + 8 + 8 + 4 + 40) + 4 + 0) Hcl ltac:(lia))
    as (r0 & -> & H0).
  set (hd := request_header _ _) in *. change (holds r0 hd) in H0.
  assert (zlen hd < 2 ^ 17) as Lh by (unfold hd, request_header; len_lia).
  destruct (head_holds r0 hd H0) as (r1 & -> & H1); [lia |]. pose proof zlen_head as Lh1.
  destruct (write_holds r1 _ (be_enc 4 0) H1) as (r2 & E2 & H2); [len_lia |].
  unfold rd_kafka_buf_write_i32. rewrite E2.
  destruct (topics_holds ts r2 _ H2) as (tc & r3 & r4 & -> & -> & -> & H4 & L4); [len_lia | done | done |].
  set (tb := concat _) in *. rewrite <- app_assoc in H4.
  destruct (update_holds r4 _ _ (be_enc 4 (i32 (zlen (topic_groups ts)))) _ H4) as (r5 & E5 & H5);
    [len_lia | len_lia |].
  unfold rd_kafka_buf_update_i32. rewrite E5. rewrite be_enc_i32 in H5.
  destruct (w_if_holds (v >=? 7) (w_i32 junk 0) r5 _ (be_enc 4 0) H5) as (r6 & -> & H6).
  { intros r' H'. apply w_i32_holds; [done | len_lia]. }
  destruct (w_if_holds (v >=? 11) (w_kstr junk (fr_client_rack conf)) r6 _
              (kstr_bytes (fr_client_rack conf)) H6) as (r7 & -> & H7).
  { intros r' H'. apply w_kstr_holds; [done |]. destruct (v >=? 7); len_lia. }
  exists r7. split; [done |]. by rewrite <- !app_assoc in H7.
Qed.

End Write.

(** ** Which partitions *)

Lemma rotate_to_spec l1 next l2 before :
  next ∉ l1 -> rotate_to (l1 ++ next :: l2) next before = next :: l2 ++ before ++ l1.
Proof.
  revert before. induction l1 as [| x l1 IH]; intros before Hn; cbn.
  - by rewrite Nat.eqb_refl, app_nil_r.
  - apply not_elem_of_cons in Hn as [Hx Hn]. rewrite (proj2 (Nat.eqb_neq x next)) by congruence.
    rewrite IH by done. by rewrite <- app_assoc.
Qed.

Lemma loop_next_spec l1 next l2 :
  next ∉ l1 -> loop_next (l1 ++ next :: l2) next = head (l2 ++ l1 ++ [next]).
Proof.
  intros Hn. unfold loop_next.
  assert (next_in (l1 ++ next :: l2) next = head l2) as ->.
  { induction l1 as [| x l1 IH]; cbn; [by rewrite Nat.eqb_refl |].
    apply not_elem_of_cons in Hn as [Hx Hn]. rewrite (proj2 (Nat.eqb_neq x next)) by congruence.
    by apply IH. }
  destruct l2; cbn; [by destruct l1 | done].
Qed.

Lemma get_toppars_spec c l ts :
  Forall2 (fun p t => fcl_toppars c !! p = Some t) l ts -> get_toppars c l = Some ts.
Proof. induction 1 as [| p t l ts Hp _ IH]; [done |]. cbn. by rewrite Hp, IH. Qed.

(** C21. A broker's thread asks for all the partitions to fetch on its list, in a circle
    from the one it is to begin with, and begins with the one after it the next time:
    the request has the protocol's bytes for these partitions at their fetch offsets,
    under their topics with the counts of both, and what it remembers for the response
    are their fetch versions. *)
Theorem fetch_request_in_turn junk conf rkb c b l1 next l2 ts :
  fcl_rkbs c !! rkb = Some b -> rkb_active_toppars b = l1 ++ next :: l2 -> next ∉ l1 ->
  rkb_active_toppar_next b = Some next ->
  Forall2 (fun p t => fcl_toppars c !! p = Some t) (next :: l2 ++ l1) ts -> fetchable conf ts ->
  exists r b',
    rd_kafka_broker_fetch_toppars junk conf rkb c =
      Some (fcl_put_rkb c rkb b',
            Some (r, map (fun t => (rktp_self t, rktp_fetch_version t)) ts)) /\
    rd_buf_content (rkbuf_buf r) = fetch_request_bytes (fetch_ApiVersion conf) conf ts /\
    concat (map snd (topic_groups ts)) = ts /\
    Forall (fun g => g.2 <> [] /\ Forall (fun t => rktp_topic t = g.1) g.2) (topic_groups ts) /\
    rkb_fetching b' = true /\ rkb_active_toppars b' = rkb_active_toppars b /\
    rkb_active_toppar_next b' = head (l2 ++ l1 ++ [next]).
Proof.
  intros Hb Hl Hn Hnext Hts Hf. unfold rd_kafka_broker_fetch_toppars. rewrite Hb, Hnext, Hl.
  replace (zlen (l1 ++ next :: l2) =? 0) with false
    by (symmetry; apply Z.eqb_neq; rewrite zlen_app; cbn [length]; lia).
  rewrite rotate_to_spec by done. cbn [app]. rewrite (get_toppars_spec _ _ _ Hts).
  destruct (fetch_request_holds junk conf ts Hf) as (r & -> & Hr).
  rewrite loop_next_spec by done. do 2 eexists. split; [reflexivity |].
  split; [apply Hr |]. split; [apply topic_groups_parts |]. split; [apply topic_groups_topics |].
  split; [done |]. cbn. rewrite Hl. split; [done |].
  destruct l1, l2; cbn; done.
Qed.

(** Three partitions of two topics, the second of them next. *)
Definition circle_conf : fetch_req_conf :=
  mk_fetch_req_conf (Some [99]) 500 1 52428800 1 None RD_KAFKA_FEATURE_MSGVER2 11 5.
Definition circle_toppar (self : nat) (topic : bytes) (partition : Z) : rd_kafka_toppar :=
  fs_rktp (fetcher_new self topic partition self 1048576).
Definition circle_client : fetch_client :=
  mk_fcl {[0%nat := circle_toppar 0 [97] 0; 1%nat := circle_toppar 1 [98] 0; 2%nat := circle_toppar 2 [98] 1]}
    {[0%nat := mk_fetch_broker [0; 1; 2]%nat [0; 1; 2]%nat (Some 1%nat) false 0]} (mk_qs ∅ ∅ false [] []) [] 1.

Lemma fetch_request_in_turn_witness :
  exists r b',
    rd_kafka_broker_fetch_toppars (fun _ => 0) circle_conf 0 circle_client =
      Some (fcl_put_rkb circle_client 0 b', Some (r, [(1%nat, 0); (2%nat, 0); (0%nat, 0)])) /\
    rd_buf_content (rkbuf_buf r) =
      fetch_request_bytes 11 circle_conf
        [circle_toppar 1 [98] 0; circle_toppar 2 [98] 1; circle_toppar 0 [97] 0] /\
    rkb_active_toppar_next b' = Some 2%nat.
Proof.
  destruct (fetch_request_in_turn (fun _ => 0) circle_conf 0 circle_client
    (mk_fetch_broker [0; 1; 2]%nat [0; 1; 2]%nat (Some 1%nat) false 0) [0%nat] 1 [2%nat]
    [circle_toppar 1 [98] 0; circle_toppar 2 [98] 1; circle_toppar 0 [97] 0])
    as (r & b' & E & Hb & _ & _ & _ & _ & Hn).
  - reflexivity.
  - reflexivity.
  - by apply not_elem_of_cons; split; [| apply not_elem_of_nil].
  - reflexivity.
  - repeat constructor.
  - split; [reflexivity | reflexivity | repeat constructor | reflexivity].
  - exists r, b'. split; [exact E |]. split; [exact Hb | exact Hn].
Defined.
