(* ===== verification/FetchRead.v ===== *)
(** * Fetch responses as MsgReader reads them

    The record batches of a response are read as the log has them, from any offset on:
    what the runs of a partition (FetchProps) ask of a response. *)

From stdpp Require Import gmap sorting.
From S2P Require Import Prelude Producer Queue FetchState Fetcher FetchBroker FetchRun FetchFacts FetchInv.
From S2P Require Import Varint RdBuf Slice Crc Header Msgq Sort KafkaBuf KafkaBufFacts RecordBatch MsgWriter.
From S2P Require Import MsgReader ReadFacts Aborted MsgReaderFacts MsgReaderProps ReadCommitted.

(** The offsets of a batch: those of its messages, or of its marker. *)
Definition entry_offsets (e : entry) : list (Z * bool) :=
  match e with
  | EData b => map (fun k => (bt_base b + k, false)) (seqZ 0 (zlen (bt_msgs b)))
  | EMark b _ => [(bt_base b, true)]
  end.

Definition log_of (es : list entry) : list (Z * bool) := concat (map entry_offsets es).




Section Read.
Context (conf : fetch_conf) (cod : codecs) (junk : Z -> Z) (addr : nat -> Z).


Lemma entry_offsets_range e :
  entry_ok cod e -> Forall (fun x => 0 <= bt_base (entry_batch e) <= x.1 /\ x.1 <= entry_last e) (entry_offsets e).
Proof.
  intros He. pose proof (bh_base _ (entry_hdr_ok cod e He)) as Hb.
  pose proof (bh_delta _ (entry_hdr_ok cod e He)) as Hd. unfold entry_last, bt_last.
  destruct e as [b | b type]; cbn [entry_offsets entry_batch entry_ok] in *.
  - destruct (bo_msgs _ _ He) as [_ Hn]. apply Forall_map, Forall_seqZ. intros k Hk. cbn. lia.
  - constructor; [cbn; lia | constructor].
Qed.



(** The offset after the last entry. *)
Definition log_next (es : list entry) : Z := next_after 0 es.

Lemma entries_before es :
  Forall (entry_ok cod) es -> entries_ordered es -> Forall (fun e => entry_last e <= log_next es - 1) es.
Proof.
  intros Hes Ho. unfold log_next, next_after. destruct es as [| e es _] using rev_ind; [constructor |].
  rewrite last_snoc. apply Forall_app in Hes as [_ He]. apply list.Forall_cons in He as [He _].
  apply Forall_app. split; [| by repeat constructor; lia].
  eapply list.Forall_impl; [apply (entries_last e es Ho (entry_hdr_ok cod e He)) |]. cbn. intros; lia.
Qed.

Lemma log_of_before es :
  Forall (entry_ok cod) es -> entries_ordered es -> Forall (fun x => x.1 < log_next es) (log_of es).
Proof.
  intros Hes Ho. pose proof (entries_before es Hes Ho) as Hb.
  apply Forall_concat, Forall_map. rewrite list.Forall_forall in Hes, Hb |- *. intros e Hin.
  specialize (Hb e Hin). eapply list.Forall_impl; [apply entry_offsets_range, Hes, Hin |].
  cbn. intros; lia.
Qed.




Context (rb : rd_buf) (i : nat) (seg : rd_segment) (st en : Z).


End Read.

(** ** Responses *)





