(* ===== verification/FetchLookup.v ===== *)
(** * The lookup of an offset

    The protocol's layout of a ListOffsets response, that it is read so, and where a
    partition starts that has asked for a logical offset. *)

From stdpp Require Import gmap.
From S2P Require Import Prelude Producer RdBuf Slice KafkaBuf KafkaBufFacts RecordBatch MsgWriter MsgWriterFacts ReadFacts Queue FetchState Fetcher FetchBroker FetchRun.

(** ** The layout *)

(** A partition: version 0 has a list of offsets, the later ones a time and an offset. *)
Record offsets_part := mk_offsets_part {
  op_partition : Z;
  op_error : Z;
  op_timestamp : Z;
  op_offset : Z;
  op_old_offsets : list Z }.

Section Layout.
(** The version of the request. *)
Context (v : Z).

Definition part_bytes (p : offsets_part) : bytes :=
  be_enc 4 (op_partition p) ++ be_enc 2 (op_error p)
  ++ (if v >=? 1 then be_enc 8 (op_timestamp p) ++ be_enc 8 (op_offset p)
      else be_enc 4 (zlen (op_old_offsets p)) ++ concat (map (be_enc 8) (op_old_offsets p))).

Definition topic_bytes (t : bytes * list offsets_part) : bytes :=
  kstr_bytes (Some t.1) ++ be_enc 4 (zlen t.2) ++ concat (map part_bytes t.2).

Definition offsets_bytes (throttle : Z) (ts : list (bytes * list offsets_part)) : bytes :=
  (if v >=? 2 then be_enc 4 throttle else []) ++ be_enc 4 (zlen ts) ++ concat (map topic_bytes ts).

(** The offset that is kept. *)
Definition part_offset (p : offsets_part) : Z :=
  if v >=? 1 then op_offset p else default (-1) (list.last (op_old_offsets p)).

Definition parts_list (t : bytes * list offsets_part) : list (bytes * Z * Z * Z) :=
  map (fun p => (t.1, op_partition p, op_error p, part_offset p)) t.2.

Definition offsets_list (ts : list (bytes * list offsets_part)) : list (bytes * Z * Z * Z) :=
  concat (map parts_list ts).

Definition part_ok (p : offsets_part) : Prop :=
  in_i 32 (op_partition p) /\ in_i 16 (op_error p) /\ in_i 64 (op_timestamp p) /\
  in_i 64 (op_offset p) /\ Forall (in_i 64) (op_old_offsets p) /\ zlen (op_old_offsets p) < 2 ^ 31.

Definition offsets_ok (throttle : Z) (ts : list (bytes * list offsets_part)) : Prop :=
  0 <= v /\ in_i 32 throttle /\ zlen ts < 2 ^ 31 /\
  Forall (fun t => zlen t.1 < 2 ^ 15 /\ zlen t.2 < 2 ^ 31 /\ Forall part_ok t.2) ts.
End Layout.

(** ** Reading it *)

Section Read.
Context (rb : rd_buf) (i : nat) (seg : rd_segment) (st en : Z) (v : Z).
Abbreviation win := (window rb i seg st en).

(** The reader takes the bytes off the front, and has [x]. *)
Definition takes {A} (m : reader A) (a : bytes) (x : A) : Prop :=
  forall s pos r, win s pos (a ++ r) ->
    exists s', m s = Some (s', inl x) /\ win s' (pos + zlen a) r.

Lemma takes_ret {A} (x : A) : takes (r_ret x) [] x.
Proof. intros s pos r W. exists s. cbn. by rewrite Z.add_0_r. Qed.

Lemma takes_bind {A B} (m : reader A) (k : A -> reader B) a b x y :
  takes m a x -> takes (k x) b y -> takes (r_bind m k) (a ++ b) y.
Proof.
  intros Hm Hk s pos r W. rewrite <- app_assoc in W. destruct (Hm _ _ _ W) as (s1 & E1 & W1).
  destruct (Hk _ _ _ W1) as (s2 & E2 & W2). exists s2. unfold r_bind. rewrite E1, E2.
  split; [done |]. by rewrite zlen_app, Z.add_assoc.
Qed.

Lemma takes_i16 x : in_i 16 x -> takes (rd_kafka_buf_read_i16 rb) (be_enc 2 x) x.
Proof. intros Hx s pos r W. rewrite zlen_be_enc. by apply read_i16_ok. Qed.
Lemma takes_i32 x : in_i 32 x -> takes (rd_kafka_buf_read_i32 rb) (be_enc 4 x) x.
Proof. intros Hx s pos r W. rewrite zlen_be_enc. by apply read_i32_ok. Qed.
Lemma takes_i64 x : in_i 64 x -> takes (rd_kafka_buf_read_i64 rb) (be_enc 8 x) x.
Proof. intros Hx s pos r W. rewrite zlen_be_enc. by apply read_i64_ok. Qed.

Lemma takes_str x :
  zlen x < 2 ^ 15 -> takes (rd_kafka_buf_read_str rb false) (kstr_bytes (Some x)) (mk_kbytes (zlen x) (Some x)).
Proof.
  intros Hx. apply takes_bind with (x := zlen x); [apply takes_i16; unfold in_i; lia |].
  replace (zlen x =? -1) with false by lia. destruct (Z.eqb_spec (zlen x) 0) as [E | E].
  - destruct x; [apply takes_ret | cbn in E; lia].
  - intros s pos r W. destruct (read_ptr_ok rb i seg st en s pos x r (zlen x) W) as (s' & Es & W'); [done |].
    exists s'. unfold r_bind. unfold rd_kafka_buf_read_ptr in Es. by rewrite Es.
Qed.

Lemma takes_old_offsets l : forall o,
  Forall (in_i 64) l ->
  takes (list_offsets_loop rb (length l) o) (concat (map (be_enc 8) l)) (default o (list.last l)).
Proof.
  induction l as [| x l IH]; intros o Hl; cbn [length list_offsets_loop map concat]; [apply takes_ret |].
  apply Forall_cons_iff in Hl as [Hx Hl]. apply takes_bind with (x := x); [by apply takes_i64 |].
  replace (default o (list.last (x :: l))) with (default x (list.last l)); [by apply IH |].
  destruct l as [| y l]; [done |]. rewrite last_cons_cons. destruct (list.last (y :: l)) eqn:E; [done |].
  apply last_None in E. discriminate.
Qed.

Lemma takes_part p :
  0 <= v -> part_ok p ->
  takes (list_offsets_part rb v) (part_bytes v p) (op_partition p, op_error p, part_offset v p).
Proof.
  intros Hv (H1 & H2 & H3 & H4 & H5 & H6). unfold list_offsets_part, part_bytes, part_offset.
  apply takes_bind with (x := op_partition p); [by apply takes_i32 |].
  apply takes_bind with (x := op_error p); [by apply takes_i16 |]. rewrite <- (app_nil_r (if v >=? 1 then _ else _)).
  eapply takes_bind; [| apply takes_ret]. destruct (v >=? 1) eqn:E.
  - apply takes_bind with (x := op_timestamp p); [by apply takes_i64 | by apply takes_i64].
  - replace (v =? 0) with true by zlia.
    apply takes_bind with (x := zlen (op_old_offsets p)); [apply takes_i32; unfold in_i; lia |].
    rewrite Nat2Z.id. by apply takes_old_offsets.
Qed.

Lemma takes_parts topic ps : forall acc,
  0 <= v -> Forall part_ok ps ->
  takes (list_offsets_parts rb v (length ps) topic acc) (concat (map (part_bytes v) ps))
    (acc ++ parts_list v (topic, ps)).
Proof.
  induction ps as [| p ps IH]; intros acc Hv Hps; cbn [length list_offsets_parts map concat].
  { rewrite app_nil_r. apply takes_ret. }
  apply Forall_cons_iff in Hps as [Hp Hps]. eapply takes_bind; [by apply takes_part |]. cbn.
  unfold parts_list in *. cbn [snd fst map] in *.
  specialize (IH (acc ++ [(topic, op_partition p, op_error p, part_offset v p)]) Hv Hps).
  by rewrite <- app_assoc in IH.
Qed.

Lemma takes_topics ts : forall acc,
  0 <= v -> Forall (fun t => zlen t.1 < 2 ^ 15 /\ zlen t.2 < 2 ^ 31 /\ Forall part_ok t.2) ts ->
  takes (list_offsets_topics rb v (length ts) acc) (concat (map (topic_bytes v) ts))
    (acc ++ offsets_list v ts).
Proof.
  induction ts as [| [topic ps] ts IH]; intros acc Hv Hts; cbn [length list_offsets_topics map concat].
  { rewrite app_nil_r. apply takes_ret. }
  apply Forall_cons_iff in Hts as [(Ht & Hn & Hps) Hts]. cbn in Ht, Hn, Hps. unfold topic_bytes at 1.
  cbn [fst snd]. rewrite <- !app_assoc. eapply takes_bind; [by apply takes_str |].
  apply takes_bind with (x := zlen ps); [apply takes_i32; unfold in_i; lia |]. rewrite Nat2Z.id. cbn [kb_data default].
  eapply takes_bind; [by apply takes_parts |]. unfold offsets_list. cbn [map concat].
  rewrite app_assoc. by apply IH.
Qed.

(** The response is parsed as it is laid out. *)
Lemma parse_offsets throttle ts s pos rest f :
  offsets_ok v throttle ts -> win s pos (offsets_bytes v throttle ts ++ rest) ->
  rd_kafka_parse_ListOffsets (rb, s) v f =
  Some (if v >=? 2 then fs_emit (EvThrottle throttle) f else f, offsets_list v ts,
        default 0 (head (omap (fun '(_, _, err, _) => if err =? 0 then None else Some err)
                           (offsets_list v ts)))).
Proof.
  intros (Hv & Hth & Hn & Hts) W. unfold rd_kafka_parse_ListOffsets, offsets_bytes in *.
  rewrite <- app_assoc in W.
  assert (takes (list_offsets_throttle rb v) (if v >=? 2 then be_enc 4 throttle else [])
            (if v >=? 2 then Some throttle else None)) as H1.
  { unfold list_offsets_throttle. destruct (v >=? 2); [| apply takes_ret].
    rewrite <- (app_nil_r (be_enc 4 throttle)). eapply takes_bind; [by apply takes_i32 | apply takes_ret]. }
  assert (takes (list_offsets_body rb v) (be_enc 4 (zlen ts) ++ concat (map (topic_bytes v) ts))
            ([] ++ offsets_list v ts)) as H2.
  { unfold list_offsets_body. apply takes_bind with (x := zlen ts); [apply takes_i32; unfold in_i; lia |].
    rewrite Nat2Z.id. by apply takes_topics. }
  destruct (H1 _ _ _ W) as (s1 & -> & W1). destruct (H2 _ _ _ W1) as (s2 & E2 & _).
  destruct (v >=? 2); rewrite E2; done.
Qed.

End Read.

(** ** From the start to the answer *)

(** A logical offset other than STORED and INVALID. *)
Definition query_offset_ok (offset : Z) : Prop :=
  offset = RD_KAFKA_OFFSET_BEGINNING \/ offset = RD_KAFKA_OFFSET_END \/
  offset <= RD_KAFKA_OFFSET_TAIL_BASE.

(** Where a partition starts that asked for [offset] and is told [found]. *)
Definition start_at (offset found : Z) : Z :=
  if offset <=? RD_KAFKA_OFFSET_TAIL_BASE then Z.max 0 (found - (RD_KAFKA_OFFSET_TAIL_BASE - offset))
  else found.

Lemma next_offset_absolute_spec found s :
  0 <= found ->
  let s' := next_offset_absolute found s in
  rktp_fetch_state (fs_rktp s') = RD_KAFKA_TOPPAR_FETCH_ACTIVE /\
  rktp_next_offset (fs_rktp s') = start_at (rktp_query_offset (fs_rktp s)) found /\
  rktp_op_version (fs_rktp s') = rktp_op_version (fs_rktp s) /\
  rktp_lookups (fs_rktp s') = rktp_lookups (fs_rktp s).
Proof.
  intros Hf s'. unfold s', next_offset_absolute, wakeup_broker, start_at.
  set (o := if rktp_query_offset _ <=? _ then _ else found).
  assert (o = if rktp_query_offset (fs_rktp s) <=? RD_KAFKA_OFFSET_TAIL_BASE
              then Z.max 0 (found - (RD_KAFKA_OFFSET_TAIL_BASE - rktp_query_offset (fs_rktp s))) else found) as <-.
  { unfold o. destruct (Z.leb_spec (rktp_query_offset (fs_rktp s)) RD_KAFKA_OFFSET_TAIL_BASE); [| done].
    rewrite Z.gtb_ltb. destruct (Z.ltb_spec found (Z.abs (rktp_query_offset (fs_rktp s) - RD_KAFKA_OFFSET_TAIL_BASE))); lia. }
  by destruct (rktp_broker _).
Qed.


Section Start.
Context (fuel : nat) (conf : consumer_conf) (file : offset_file) (rkb_internal : nat -> bool).

(** What the answer to the lookup finds unchanged. *)
Definition same_lookup (s s' : fetcher) : Prop :=
  rktp_topic (fs_rktp s') = rktp_topic (fs_rktp s) /\
  rktp_partition (fs_rktp s') = rktp_partition (fs_rktp s) /\
  rktp_broker (fs_rktp s') = rktp_broker (fs_rktp s) /\
  rktp_op_version (fs_rktp s') = rktp_op_version (fs_rktp s) /\
  rktp_query_offset (fs_rktp s') = rktp_query_offset (fs_rktp s).

(** The partition waits for the answer to its lookup of [offset]. *)
Record looking_up (rkb : nat) (offset version : Z) (s : fetcher) : Prop := {
  lu_state : rktp_fetch_state (fs_rktp s) = RD_KAFKA_TOPPAR_FETCH_OFFSET_WAIT;
  lu_broker : rktp_broker (fs_rktp s) = Some rkb;
  lu_version : rktp_op_version (fs_rktp s) = version;
  lu_query : rktp_query_offset (fs_rktp s) = offset;
  lu_request : list.last (rktp_lookups (fs_rktp s)) =
               Some (ListOffsets rkb (if offset <=? RD_KAFKA_OFFSET_TAIL_BASE then RD_KAFKA_OFFSET_END
                                      else offset) version) }.

Lemma next_offset_logical now offset rkb s :
  query_offset_ok offset -> (offset = RD_KAFKA_OFFSET_BEGINNING -> rktp_lo_offset (fs_rktp s) < 0) ->
  rktp_broker (fs_rktp s) = Some rkb -> rkb_internal rkb = false ->
  exists s', rd_kafka_toppar_next_offset_handle fuel conf rkb_internal now offset s = Some s' /\
             looking_up rkb offset (rktp_op_version (fs_rktp s)) s'.
Proof.
  intros Ho Hlo Hb Hi. unfold rd_kafka_toppar_next_offset_handle, rd_kafka_offset_reset, RD_KAFKA_OFFSET_IS_LOGICAL.
  unfold query_offset_ok, RD_KAFKA_OFFSET_BEGINNING, RD_KAFKA_OFFSET_END, RD_KAFKA_OFFSET_TAIL_BASE,
    RD_KAFKA_OFFSET_INVALID in *. cbn [negb].
  replace (offset <? 0) with true by lia. replace (offset =? -1001) with false by lia. cbn [orb negb].
  replace (0 =? 0) with true by done. cbn [negb].
  replace ((offset =? -2) && _) with false.
  2:{ cbn. destruct (Z.eqb_spec offset (-2)) as [E |]; [| done]. specialize (Hlo E). cbn.
      symmetry. destruct (Z.geb_spec (rktp_lo_offset (fs_rktp s)) 0); [lia | done]. }
  eexists. split.
  - replace (offset =? -1001) with false by lia. cbn [from_option].
    unfold in_state, rd_kafka_toppar_set_fetch_state. cbn. reflexivity.
  - unfold rd_kafka_toppar_offset_request. cbn. rewrite Hb, Hi. cbn.
    unfold RD_KAFKA_OFFSET_STORED. replace (offset =? -1000) with false by lia. cbn.
    split; cbn; try done. by rewrite last_snoc.
Qed.

Lemma no_offsets_error v ts :
  Forall (fun t => Forall (fun p => op_error p = 0) t.2) ts ->
  omap (fun '(_, _, err, _) => if err =? 0 then None else Some err) (offsets_list v ts) = [] :> list Z.
Proof.
  unfold offsets_list, parts_list. induction 1 as [| [t ps] ts Hp _ IH]; [done |]. cbn [map concat].
  rewrite omap_app, IH, app_nil_r. cbn in *. induction Hp as [| p ps Hp _ IHp]; [done |].
  cbn. by rewrite Hp.
Qed.

(** The answer, when the partition has not changed hands nor been restarted. *)
Lemma handle_offset_found now rkb nodeid offset version retry rb i seg st en slice pos v throttle ts rest found s :
  rktp_broker (fs_rktp s) = Some rkb -> rktp_op_version (fs_rktp s) = version ->
  offsets_ok v throttle ts -> Forall (fun t => Forall (fun p => op_error p = 0) t.2) ts ->
  window rb i seg st en slice pos (offsets_bytes v throttle ts ++ rest) ->
  lookup_found s (offsets_list v ts) = Some found -> 0 <= found ->
  exists s', rd_kafka_toppar_handle_Offset fuel conf rkb_internal now rkb nodeid offset 0
               (Some (rb, slice)) v version retry s = Some (next_offset_absolute found s') /\
             fs_rktp s' = fs_rktp s.
Proof.
  intros Hb Hv Hok Herr W Hf Hpos. unfold rd_kafka_toppar_handle_Offset, rd_kafka_handle_ListOffsets.
  rewrite Hb, Hv, Z.ltb_irrefl, andb_false_r, bool_decide_true by done.
  rewrite andb_false_r. cbn [negb andb from_option]. change (0 =? RD_KAFKA_RESP_ERR__OUTDATED) with false.
  change (0 =? 0) with true. cbn [negb from_option].
  rewrite (parse_offsets rb i seg st en v throttle ts slice pos rest s) by done. cbn [from_option].
  rewrite no_offsets_error by done. cbn [head default]. change (0 =? 0) with true. cbn [from_option].
  assert (forall x, fs_rktp x = fs_rktp s -> lookup_found x (offsets_list v ts) = Some found) as Hf'.
  { intros x Ex. unfold lookup_found in *. by rewrite Ex. }
  exists (if v >=? 2 then fs_emit (EvThrottle throttle) s else s).
  assert (fs_rktp (if v >=? 2 then fs_emit (EvThrottle throttle) s else s) = fs_rktp s) as Es
    by (by destruct (v >=? 2)).
  split; [| done]. cbn. rewrite (Hf' _ Es). cbn.
  unfold rd_kafka_toppar_next_offset_handle, RD_KAFKA_OFFSET_IS_LOGICAL.
  by replace (found <? 0) with false by lia.
Qed.

Lemma op_version_bump_view version s s' :
  rd_kafka_toppar_op_version_bump fuel version s = Some s' ->
  fs_rktp s' = set_op_version version (fs_rktp s).
Proof.
  unfold rd_kafka_toppar_op_version_bump.
  destruct (Queue.rd_kafka_toppar_op_version_bump _ _ _ _ _); [| done]. by intros [= <-].
Qed.

(** The start of the log is used if it is known: it is that of the last response. *)
Lemma next_offset_cached now s :
  0 <= rktp_lo_offset (fs_rktp s) ->
  exists s', rd_kafka_toppar_next_offset_handle fuel conf rkb_internal now RD_KAFKA_OFFSET_BEGINNING s = Some s' /\
    rktp_fetch_state (fs_rktp s') = RD_KAFKA_TOPPAR_FETCH_ACTIVE /\
    rktp_next_offset (fs_rktp s') = start_at (rktp_query_offset (fs_rktp s)) (rktp_lo_offset (fs_rktp s)) /\
    rktp_op_version (fs_rktp s') = rktp_op_version (fs_rktp s) /\
    rktp_lookups (fs_rktp s') = rktp_lookups (fs_rktp s).
Proof.
  intros Hlo. unfold rd_kafka_toppar_next_offset_handle, rd_kafka_offset_reset.
  change (RD_KAFKA_OFFSET_IS_LOGICAL RD_KAFKA_OFFSET_BEGINNING) with true. cbn [negb].
  change (0 =? 0) with true. change (RD_KAFKA_OFFSET_BEGINNING =? RD_KAFKA_OFFSET_INVALID) with false.
  cbn [orb negb]. change (RD_KAFKA_OFFSET_BEGINNING =? RD_KAFKA_OFFSET_INVALID) with false.
  set (s0 := fs_upd (set_next_offset RD_KAFKA_OFFSET_BEGINNING) s).
  change (rktp_lo_offset (fs_rktp s0)) with (rktp_lo_offset (fs_rktp s)).
  replace (rktp_lo_offset (fs_rktp s) >=? 0) with true by (symmetry; apply Z.geb_le; lia).
  rewrite Z.eqb_refl. cbn [andb].
  destruct (next_offset_absolute_spec (rktp_lo_offset (fs_rktp s)) s0 Hlo) as (E1 & E2 & E3 & E4).
  unfold in_state. rewrite E1. exists (next_offset_absolute (rktp_lo_offset (fs_rktp s)) s0). done.
Qed.

(** C22. A partition that is started at the log's beginning, its end or so many messages
    before it, while it is delegated to a broker that is not the internal one, is not being
    stopped, and is free for the group that starts it, if one does.  If it is to be the beginning and the partition knows the
    start of the log from an earlier response it becomes active there at once (less the
    messages asked for before the end by the last lookup, if that was such a one).  Else
    it waits for the answer to a lookup at this broker, made for the version of the start,
    and when the answer comes, and the partition has neither changed brokers nor been
    asked anything since, it becomes active at the offset that the response has for it,
    less the messages asked for before the end, and not below 0: every response laid out
    as the protocol says, without an error for a partition and with an offset of it that
    is not negative, is read for that, of versions from 1 on, and of version 0, where
    the last offset of the list counts. *)
Theorem logical_offset_is_looked_up now offset rkcg rko rkb s :
  query_offset_ok offset ->
  rktp_broker (fs_rktp s) = Some rkb -> rkb_internal rkb = false ->
  in_state s RD_KAFKA_TOPPAR_FETCH_STOPPING = false ->
  (rkcg = true -> rktp_cgrp (fs_rktp s) = false) ->
  is_Some (rd_kafka_toppar_op_version_bump fuel (rko_version rko) s) ->
  exists s1,
    rd_kafka_toppar_fetch_start fuel conf file rkb_internal now offset rkcg rko s = Some s1 /\
    if (offset =? RD_KAFKA_OFFSET_BEGINNING) && (rktp_lo_offset (fs_rktp s) >=? 0) then
      rktp_fetch_state (fs_rktp s1) = RD_KAFKA_TOPPAR_FETCH_ACTIVE /\
      rktp_next_offset (fs_rktp s1) = start_at (rktp_query_offset (fs_rktp s)) (rktp_lo_offset (fs_rktp s)) /\
      rktp_op_version (fs_rktp s1) = rko_version rko /\
      rktp_lookups (fs_rktp s1) = rktp_lookups (fs_rktp s)
    else
      looking_up rkb offset (rko_version rko) s1 /\
      forall s2 now' nodeid rb i seg st en slice pos v throttle ts rest retry found,
        same_lookup s1 s2 ->
        offsets_ok v throttle ts ->
        Forall (fun t => Forall (fun p => op_error p = 0) t.2) ts ->
        window rb i seg st en slice pos (offsets_bytes v throttle ts ++ rest) ->
        lookup_found s2 (offsets_list v ts) = Some found -> 0 <= found ->
        exists s3,
          rd_kafka_toppar_handle_Offset fuel conf rkb_internal now' rkb nodeid
            (if offset <=? RD_KAFKA_OFFSET_TAIL_BASE then RD_KAFKA_OFFSET_END else offset) 0
            (Some (rb, slice)) v (rko_version rko) retry s2 = Some s3 /\
          rktp_fetch_state (fs_rktp s3) = RD_KAFKA_TOPPAR_FETCH_ACTIVE /\
          rktp_next_offset (fs_rktp s3) = start_at offset found /\
          rktp_op_version (fs_rktp s3) = rko_version rko /\
          rktp_lookups (fs_rktp s3) = rktp_lookups (fs_rktp s2).
Proof.
  intros Ho Hb Hi Hst Hcg [s0 E0]. pose proof (op_version_bump_view _ _ _ E0) as V0.
  unfold rd_kafka_toppar_fetch_start. rewrite Hst, E0. cbn [from_option].
  set (sj := if rkcg then _ else Some s0).
  assert (exists s0', sj = Some s0' /\ rktp_broker (fs_rktp s0') = Some rkb /\
            rktp_lo_offset (fs_rktp s0') = rktp_lo_offset (fs_rktp s) /\
            rktp_query_offset (fs_rktp s0') = rktp_query_offset (fs_rktp s) /\
            rktp_lookups (fs_rktp s0') = rktp_lookups (fs_rktp s) /\
            rktp_op_version (fs_rktp s0') = rko_version rko) as (s0' & -> & Hb' & Hlo' & Hq' & Hl' & Hv').
  { unfold sj. destruct rkcg; [| by exists s0; rewrite V0].
    rewrite V0. cbn. rewrite (Hcg eq_refl). eexists. split; [reflexivity |]. cbn. by rewrite V0. }
  cbn [from_option].
  replace ((offset =? RD_KAFKA_OFFSET_BEGINNING) || _ || _) with true by (unfold query_offset_ok in Ho; zlia).
  assert (forall s, fs_rktp (reply_to rko RD_KAFKA_OP_FETCH_START 0 s) = fs_rktp s) as Hr.
  { intros s'. unfold reply_to. by destruct (rko_replyq rko). }
  destruct (_ && _) eqn:Ecase.
  { apply andb_true_iff in Ecase as [E1 E2]. apply Z.eqb_eq in E1 as ->. apply Z.geb_le in E2.
    destruct (next_offset_cached now s0') as (s1 & -> & C1 & C2 & C3 & C4); [lia |]. cbn [from_option].
    eexists. split; [reflexivity |]. rewrite Hr. cbn. rewrite C2, C3, C4, Hlo', Hq', Hl'. done. }
  destruct (next_offset_logical now offset rkb s0') as (s1 & -> & [L1 L2 L3 L4 L5]);
    [done | rewrite Hlo'; intros ->; unfold RD_KAFKA_OFFSET_BEGINNING in Ecase; zlia | done.. |].
  cbn [from_option]. eexists. split; [reflexivity |].
  split; [split; rewrite Hr; cbn; congruence |].
  intros s2 now' nodeid rb i seg st en slice pos v throttle ts rest retry found (S1 & S2 & S3 & S4 & S5)
    Hok Herr W Hf Hpos. rewrite Hr in *. cbn in *.
  destruct (handle_offset_found now' rkb nodeid
              (if offset <=? RD_KAFKA_OFFSET_TAIL_BASE then RD_KAFKA_OFFSET_END else offset)
              (rko_version rko) retry rb i seg st en slice pos v throttle ts rest found s2)
    as (s2' & E & Es); [congruence.. | done | done | done | done | done |].
  eexists. split; [exact E |].
  destruct (next_offset_absolute_spec found s2' Hpos) as (-> & -> & -> & ->). rewrite Es.
  repeat split; congruence.
Qed.
End Start.

(** Two messages before the end: the log has 10. *)
Definition tail_conf : consumer_conf :=
  mk_consumer_conf true false true false 100 100000 500 1 RD_KAFKA_OFFSET_BEGINNING
    RD_KAFKA_OFFSET_METHOD_BROKER 5000 false.
Definition tail_part : fetcher :=
  fs_upd (set_broker (Some 3%nat)) (fetcher_new 0 [116] 0 1 1048576).
Definition tail_op : rd_kafka_op :=
  op_set_version (rd_kafka_op_new 1 RD_KAFKA_OP_FETCH_START) 2.
Definition tail_reply : list (bytes * list offsets_part) := [([116], [mk_offsets_part 0 0 (-1) 10 []])].

Lemma logical_offset_is_looked_up_witness :
  exists s1 s3 rb slice,
    rd_kafka_toppar_fetch_start 5 tail_conf (mk_offset_file (-1001) true 0) (fun _ => false) 1 (-2002) false
      tail_op tail_part = Some s1 /\
    rktp_lookups (fs_rktp s1) = [ListOffsets 3 RD_KAFKA_OFFSET_END 2] /\
    rd_kafka_toppar_handle_Offset 5 tail_conf (fun _ => false) 2 3 1 RD_KAFKA_OFFSET_END 0 (Some (rb, slice)) 1 2
      false s1 = Some s3 /\
    rktp_fetch_state (fs_rktp s3) = RD_KAFKA_TOPPAR_FETCH_ACTIVE /\ rktp_next_offset (fs_rktp s3) = 8.
Proof.
  set (data := offsets_bytes 1 0 tail_reply).
  assert (zlen data = 33) as Hl by (vm_compute; reflexivity).
  destruct (shadow_window (fun _ => 0) data None ltac:(lia)) as (rb & slice & _ & seg & W).
  edestruct (logical_offset_is_looked_up 5 tail_conf (mk_offset_file (-1001) true 0) (fun _ => false) 1 (-2002) false
    tail_op 3 tail_part) as (s1 & E1 & L & H).
  - right; right. discriminate.
  - reflexivity.
  - reflexivity.
  - reflexivity.
  - discriminate.
  - eexists. vm_compute. reflexivity.
  - pose proof E1 as E2. vm_compute in E2. injection E2 as <-.
    match type of E1 with _ = Some ?s1 =>
      destruct (H s1 2 1 rb 0%nat seg 0 (zlen data) slice 0 1 0 tail_reply [] false 10)
        as (s3 & E3 & S3 & N3 & _) end.
    + by repeat split.
    + split; [discriminate |]. split; [split; reflexivity || discriminate |]. split; [reflexivity |].
      repeat constructor; discriminate.
    + repeat constructor.
    + rewrite app_nil_r. exact W.
    + reflexivity.
    + discriminate.
    + do 2 eexists. exists rb, slice. split; [exact E1 |]. split; [reflexivity |]. split; [exact E3 |].
      split; [exact S3 | exact N3].
Defined.

(** The lookup before was for two messages before the end, and the log is known to start
    at 10: started at the beginning, the partition is put at 8. *)
Example stale_tail_start :
  (fun s => (rktp_fetch_state (fs_rktp s), rktp_next_offset (fs_rktp s))) <$>
    rd_kafka_toppar_fetch_start 5 tail_conf (mk_offset_file (-1001) true 0) (fun _ => false) 1
      RD_KAFKA_OFFSET_BEGINNING false tail_op
      (fs_upd (set_query_offset (-2002)) (fs_upd (set_lo_offset 10) tail_part)) =
  Some (RD_KAFKA_TOPPAR_FETCH_ACTIVE, 8).
Proof. vm_compute. reflexivity. Qed.
